(* ===== verification/_CoqProject ===== *)
-Q . S2P
Prelude.v
NasReader.v
NasIE.v
NasRegistration.v
NasSecurity.v
NasTransport.v
NasService.v
NasNetworkName.v
NasConfigUpdate.v
NasEap.v
NasPduSession.v
NasCodec.v
UpfBucket.v
UpfQos.v
UpfQer.v
UpfServer.v
UpfChecksum.v
GoCrypto.v
CryptoNas.v
CryptoAka.v
CryptoEap.v
AmfContext.v
AmfQueue.v
AmfSecurity.v
AmfNssaa.v
AmfRegistration.v
AmfNas.v
AmfSession.v
AmfAccount.v
LppUper.v
LppCodec.v
LppSpec.v
SmfPools.v
SmfQos.v
SmfState.v
SmfSession.v
SmfNode.v
SmfClosed.v
SmfAccount.v
SmfRecovery.v
SmfTyping.v
NrfRegistry.v
GoText.v
BsfStore.v
NssfPolicy.v
CryptoSuci.v
UdmAuth.v
AusfAuth.v
AmfN2.v
AmfHandover.v
AmfN2Spec.v
AmfN2Run.v
UpfRa.v
UpfGtpu.v
UpfGtpuSpec.v
UpfGtpuAnswer.v
UdrStore.v
UdrSpec.v
GoUtf8.v
Gsm7.v
AmfPws.v
AmfPwsSpec.v
