(* ===== verification/Prelude.v ===== *)
(** * A 5G core network in Rocq: the verified parts of claudia-5gc

    claudia-5gc is a 5G core network in Go.  Each network function under
    [src/nf/] is a process; they share the packages of [src/shared/].  A UE
    reaches the AMF through a gNB: NGAP messages carry NAS messages, which the
    AMF deciphers, decodes ([shared/nas]) and answers.  The AMF authenticates
    the UE with 5G-AKA ([shared/aka], [shared/crypto], driven by AUSF and UDM),
    keeps a context per UE ([nf/amf/internal/context]) and asks the SMF for PDU
    sessions; the SMF installs their rules in the UPF over PFCP
    ([nf/upf/internal/pfcp]), and the UPF polices every packet against them
    ([nf/upf/internal/qos]).  The development models these parts as executable
    functions translated from the Go source, which keep its names.

    ** Conventions

    A w-bit integer is a [Z] with its wrap-around written out ([u8] ... [u64],
    [i64]); a byte slice or the bytes of a Go string is a [list Z]; a Go map is a
    [gmap].  A function that can return an error or panic returns [res]: [Ok],
    [Err] for an error value, [Panic] for a run-time panic, so that the absence
    of panics is a theorem about [Panic].  Objects the source shares by pointer
    (token buckets, PFCP sessions, UE contexts) live in a heap, a [gmap] from
    locations, and a write through one pointer is seen through all of them.
    Mutexes are modelled by the atomicity of the steps they protect.  Log lines,
    metrics and context cancellation are left out.

    ** Files

    - [Prelude]: machine integers, octets and bit fields, the [res] monad,
      slices with their bounds checks, tactics and hint databases.
    - [NasReader], [NasIE], [NasRegistration], [NasSecurity], [NasTransport],
      [NasService], [NasNetworkName], [NasConfigUpdate], [NasEap],
      [NasPduSession], [NasCodec]: the NAS codec, [shared/nas/*.go], a file per
      source file; [NasCodec] is the dispatch of [nas.go].
    - [UpfBucket]: [nf/upf/internal/qos/bucket.go]; [UpfQos], [UpfQer],
      [UpfServer]: [qos.go], [qer.go] and [server.go] of
      [nf/upf/internal/pfcp]; [UpfChecksum]: [nf/upf/internal/l4csum].
    - [GoCrypto]: SHA-256, HMAC, AES-128 and counter mode, which the source
      takes from Go's standard library, checked on published test vectors.
    - [CryptoNas]: [shared/crypto/nas] (NEA2, NIA2); [CryptoAka]:
      [shared/crypto/kdf], [shared/crypto/milenage] and [shared/aka/aka.go].
    - [AmfContext]: the UE context manager, [nf/amf/internal/context], with the
      persistence contracts of [nf/amf/internal/store]; [AmfQueue]: the per-UE
      task queue of the same source file, as a system of interleaved steps.
    - [CryptoEap]: [shared/crypto/eap], [shared/crypto/eapaka] and the EAP-AKA'
      vector of [shared/aka/aka.go].
    - [AmfSecurity]: protection and unwrapping of NAS messages with the NAS
      COUNTs, [nf/amf/internal/nas/nas.go]; [AmfNssaa] and [AmfRegistration]:
      [nssaa.go] and [registration.go] of [nf/amf/internal/procedures], the
      second with the first's operations and the context manager underneath.
    - [AmfNas]: the handlers of [nf/amf/internal/nas/nas.go] for registration,
      authentication, security mode, slice authentication and service request,
      in a state monad over the manager, the pending releases, the goroutines
      and the calls made; [AmfSession]: UL NAS Transport with the PDU session
      procedures, deregistration and the dispatch; [AmfAccount]: the events of
      the AMF and the accounting of SM contexts over them.
    - [LppUper] and [LppCodec]: [uper.go] and [lpp.go] of [shared/lpp] (and the
      time conversions of [gnss.go]); [LppSpec]: the messages as bit strings.
    - The SMF, [nf/smf/internal/server]: [SmfPools], the IPv4 and IPv6 address
      pools ([server.go], [ipv6.go]); [SmfQos], bit rates over binary64 and the
      policy association ([bitrate.go], [qos.go], [server.go]); [SmfState], the
      state with sessions as objects on a heap, and the N2 and N4 information;
      [SmfSession], the handlers ([server.go], [secondary_auth.go],
      [handover_n2.go], [pfcp_ho.go], [qos.go], [paging.go]); [SmfNode], the
      supervision of the UPF ([pfcp_node.go]) and the events.  [SmfClosed]
      proves the handlers once for every relation closed under their effects;
      [SmfAccount], [SmfRecovery] and [SmfTyping] are the invariants.
    - [NrfRegistry]: [nf/nrf/internal/registry] and the handlers of
      [nf/nrf/internal/server/server.go]; [BsfStore]: [nf/bsf/internal/store] and
      the handlers of the BSF; [NssfPolicy]: [nf/nssf/internal/slice], its handler
      and the AMF's client; [GoText]: decimal numbers as Go reads them.
    - [CryptoSuci]: [shared/crypto/suci]; [UdmAuth]: the handlers of
      [nf/udm/internal/server/server.go]; [AusfAuth]: those of
      [nf/ausf/internal/server], run with the UDM and a UE.
    - The N2 side of the AMF, [nf/amf/internal/ngap]: [AmfN2], associations,
      initial messages, UE context release and timers ([ngap.go], with the
      handlers of [cmd/amf/main.go]); [AmfHandover], path switch and N2 handover
      ([handover.go], [smf_leg.go]) and the events; [AmfN2Spec], the keys sent to
      gNBs and the answers to path switches; [AmfN2Run], handovers from beginning
      to end.
    - The user plane of the UPF: [UpfRa], [nf/upf/internal/ra]; [UpfGtpu],
      [nf/upf/internal/gtpu/server.go] on the state of [UpfServer], with the
      Router Advertisements of [nf/upf/internal/pfcp/server.go]; [UpfGtpuSpec],
      runs of the whole UPF, the header and the downlink path; [UpfGtpuAnswer],
      what the UPF answers by itself.
    - [UdrStore]: [nf/udr]: the subscription and policy data with the table of
      session rates, the handlers and the seeding.  [UdrSpec]: the view that the
      UDR serves, and the UDM's client of it.
    - [GoUtf8]: code points and UTF-8; [Gsm7]: [shared/gsm7]; [AmfPws]:
      [nf/amf/internal/ngap/pws.go] with its management requests; [AmfPwsSpec]: the
      theorems about warnings.


    ** What the theorems show

    - NAS: every decoder terminates on every input and the only panics are the
      two the theorems name; [Decode] and [Encode] are inverse on the messages
      that have both codecs, also under a security header; the decoders read the
      whole grammar of optional elements; the network name, option and APN
      formats round-trip.
    - UPF: the token bucket is exact with respect to the leaky-bucket bound on
      every window of a packet trace and refines an ideal bucket over unbounded
      integers (no [int64] operation wraps); policing over several buckets is
      all or nothing; validation of QoS rules accepts exactly the consistent
      requests; the server's state stays consistent, no request makes it panic
      and a refused one changes nothing; the usage reports sent carry what was
      forwarded; the checksum
      repair agrees with RFC 1071.
    - Cryptography: NIA2 is the AES-CMAC of RFC 4493; 5G-AKA between the
      network's code and a UE that follows the standard agrees on the keys;
      re-synchronisation accepts exactly the tokens of the key holder.
    - AMF: the identity indexes stay coherent over every sequence of operations, as
      long as the cache answers and the counters have not wrapped;
      a displaced context is removed without harm to its successor; tasks of a UE
      run serially, in order, and all of them run; the handover key chain follows
      TS 33.501; start-up releases every persisted session and reuses no TMSI.
    - AMF procedures: the Security Mode Command that follows a confirmed
      authentication puts the UE and the AMF in the same security context; from
      there the NAS channel delivers every message, if no uplink message is lost;
      the Registration Accept carries the new identity and only slices that are
      subscribed and need no further authentication; slice authentication ends,
      and grants only what the AAA server authorised.
    - AMF sessions: over every interleaving of messages, goroutines, timers and
      operator actions, under stated guards, no SM context is lost; the outcome of a Service Request
      is given session by session; two situations outside the guards of the
      first theorem, in which a context is lost, are theorems of their own.
    - Positioning: what the LPP builders write is the ASN.1 subset given as bit
      strings, and the decoder reads all of that subset, extension additions of
      later versions included; it returns on every input.
    - SMF: the IPv4 pool refines a set of addresses and the numbering of the
      IPv6 prefixes is exact; rates stay in bounds and agree in all their
      forms; over every interleaving of requests, goroutines and supervision,
      under stated guards, addresses, TEIDs and SEIDs are held by one context each
      and none leaks, contexts are well typed, and a restart of the UPF releases
      every session established before it.  A handler of the SMF and the PFCP
      transaction inside it are one step, so what the code does for a release that
      overtakes such a transaction is not exercised.
    - Authentication: a subscriber's concealed identity is recovered by the UDM;
      over AUSF, UDM and UDR a genuine UE is confirmed, by either method, with the
      same key on both sides; confirmations need a proof, also when requests
      overlap; one way around the proof is a theorem of its own.
    - Registries: the NRF holds the leases it has answered, with either of its
      stores; the BSF serves the bindings it has confirmed; the slices the AMF
      allows are those the NSSF's policy and the request have in common.
    - Mobility: over every interleaving of events no key pair is sent to a gNB
      twice; a path switch that meets no other event is answered once, with every
      session to be switched, and moves the UE exactly when it is acknowledged; an executed N2 handover leaves the UE at
      the target and the source without it; the loss of a target that was only
      prepared, which removes the UE, is a theorem of its own.
    - User plane: over every interleaving of PFCP messages, datagrams, packets,
      advertisements and reports the UPF does not fail; a GTP-U header of
      TS 29.281 is read and written, where the next-type octet is zero without an
      extension header; a downlink packet reaches the gNB of the session that has
      its address, if no establishment asked for keys of a live session; echo replies and advertisements are valid.
    - Subscription data: what the UDR serves is a view of slices, seeds and edits, for
      the subscribers that no other write has made stale;
      the UDR meets the interface on which the authentication theorems rest.
    - Warnings: a text survives its pages in every coding scheme that can carry it, but for
      padding and where no page ends inside an escape;
      the status of a broadcast is what its gNBs have answered.


    ** Interfaces

    The go-pfcp accessors used by [qer.go] and [server.go] are the class
    [GoPfcp] of [UpfQer], with the value ranges of their return types as the
    class [GoPfcpRanges]; a concrete decoder instantiates both.  The body codecs
    of NAS messages are instances of a class with their round trip as its law; the
    round trip of the dispatch is stated over the message types themselves.  The PostgreSQL store and
    Redis counter of the AMF are the classes [Store] and [Cache] of
    [AmfContext], the latter with [CacheLaws], and have concrete instances.
    The clients of the registration procedure (AUSF, UDM, NSSF, PCF) are the
    record [Clients] of [AmfRegistration], and the AAA relay is the parameter
    [NSSAAClient] of [AmfNssaa]: functions that answer or fail.  Nothing is
    assumed of them beyond what a theorem states.  In the same way the record
    [Handler] of [AmfNas] holds the answers of the gNB and the SMF.  The ASN.1
    runtime of the SMF is the record [Aper] of [SmfState] and what its peers
    answer to one event the record [Env]; the two address pools meet the class
    [AddressPool] with its laws, against which the accounting is proved.  The
    registry of the NRF is the class [Registry] with [RegistryLaws], met by the
    in-memory registry and, over the commands of Redis ([RedisClient],
    [RedisLaws]), by the other one; X25519 is the class [Curve] and the UDR the
    class [UDRClient] with their laws, met by the UDR of [UdrSpec].  What one N2 event meets, the encoder, the
    associations, the answers of the SMFs, the order of maps and the effect of a
    NAS handler on the context, is the record [Env] of [AmfN2]; the ASN.1 decoder
    is [NgapAper].


    ** Bounds and fuel

    The loops [for rdr.Len() > 0] take the length of the input as fuel: each
    iteration consumes an octet, and running out of fuel is a value of its own
    that the totality theorems exclude.  [DecodeServiceRequest] recurses into its
    NAS message container with the length of the input as fuel, for the same
    reason.  The carry-folding loop of the checksum has as many rounds as a
    64-bit sum needs, which is proved.  The tables of SHA-256 are computed by a
    bounded search for integer roots when the file is compiled.
    The attribute search of EAP-AKA' and the expansion PRF' have the length of
    the packet and of the output as fuel; the slice-authentication exchange has
    the number of pending slices, which is proved to be enough.  The loops of
    the address pools have the size of the subnet and the number of allocated
    prefixes as fuel, both proved to be enough.  The chain of extension headers
    has the length of the datagram, of which each takes at least four octets.


    ** Not modelled

    Sockets, HTTP servers and clients, SQL and Redis access, goroutine
    scheduling beyond the task queue, logging, metrics and configuration files:
    input and output around the logic above.  The NGAP and NRPPa codecs use a
    third-party ASN.1 runtime; SUCI Profile B uses the curve operations of Go's
    library.

    ** Plan

    Next: the URSP encoding and the policy decisions of the PCF, the AM and SM
    data of the UDM, paging and the location messages of the AMF.
*)
From stdpp Require Export base tactics list numbers option strings gmap fin_maps sorting.
From Stdlib Require Export ZArith Lia.
#[global] Open Scope Z_scope.

(** * Automation of the development *)

(** Linear integer arithmetic with division and modulo by constants. *)
Ltac dlia := Z.to_euclidean_division_equations; lia.

(** Case analysis on the first length test of the goal. *)
Ltac nat_ltb := match goal with |- context [Nat.ltb ?a ?b] => destruct (Nat.ltb_spec a b) end.

Create HintDb go discriminated.
Create Rewrite HintDb bitfield.
Create Rewrite HintDb golist.

(** * Machine integers of Go

    A w-bit unsigned integer is a [Z]; the conversions [byte(x)], [uint16(x)],
    ... of the source are [u8], [u16], ..., and every shift whose result Go
    truncates is written with one of them. *)

Definition u8 (z : Z) : Z := z mod 256.
Definition u16 (z : Z) : Z := z mod 65536.
Definition u32 (z : Z) : Z := z mod 4294967296.
Definition u64 (z : Z) : Z := z mod 18446744073709551616.

(** Two's-complement reading of the low 64 bits: Go's [int64] and [int]. *)
Definition i64 (z : Z) : Z :=
  let m := z mod 18446744073709551616 in
  if m <? 9223372036854775808 then m else m - 18446744073709551616.

Definition is_u8 (z : Z) : Prop := 0 <= z < 256.
Definition is_u16 (z : Z) : Prop := 0 <= z < 65536.
Definition is_u32 (z : Z) : Prop := 0 <= z < 4294967296.
Definition is_u64 (z : Z) : Prop := 0 <= z < 18446744073709551616.
Definition is_i64 (z : Z) : Prop := -9223372036854775808 <= z < 9223372036854775808.

(** A Go byte slice, or the bytes of a Go string. *)
Abbreviation bytes := (list Z).
Definition bytes_ok (b : bytes) : Prop := Forall is_u8 b.

#[global] Instance is_u8_dec z : Decision (is_u8 z).
Proof. unfold is_u8. apply _. Defined.
#[global] Instance is_u16_dec z : Decision (is_u16 z).
Proof. unfold is_u16. apply _. Defined.
#[global] Instance is_u32_dec z : Decision (is_u32 z).
Proof. unfold is_u32. apply _. Defined.
#[global] Instance is_i64_dec z : Decision (is_i64 z).
Proof. unfold is_i64. apply _. Defined.
#[global] Instance bytes_ok_dec b : Decision (bytes_ok b).
Proof. unfold bytes_ok. apply _. Defined.

Lemma u8_range z : is_u8 (u8 z).
Proof. unfold is_u8, u8. dlia. Qed.

Lemma u8_small z : is_u8 z → u8 z = z.
Proof. unfold is_u8, u8. intros. by apply Z.mod_small. Qed.

Lemma u16_small z : is_u16 z → u16 z = z.
Proof. unfold is_u16, u16. intros. by apply Z.mod_small. Qed.

Lemma u64_small z : is_u64 z → u64 z = z.
Proof. unfold is_u64, u64. intros. by apply Z.mod_small. Qed.

Lemma i64_small z : is_i64 z → i64 z = z.
Proof.
  unfold is_i64, i64. intros H. cbv zeta.
  destruct (Z.ltb_spec (z mod 18446744073709551616) 9223372036854775808); dlia.
Qed.

(** ** Bit fields

    A field packed with [hi << n | lo] is [hi * 2^n + lo], so what the source
    packs with shifts and ors is linear arithmetic. *)

Lemma lor_shiftl_add a b n :
  0 <= n → 0 <= b < 2 ^ n → Z.lor (a ≪ n) b = a * 2 ^ n + b.
Proof.
  intros Hn Hb. rewrite <- Z.add_nocarry_lor; [by rewrite Z.shiftl_mul_pow2|].
  apply Z.bits_inj'. intros k Hk. rewrite Z.land_spec, Z.bits_0.
  destruct (Z.lt_ge_cases k n) as [Hlt|Hge].
  - rewrite Z.shiftl_spec_low by done. done.
  - destruct (Z.eq_dec b 0) as [->|]; [by rewrite Z.bits_0, andb_false_r|].
    rewrite (Z.bits_above_log2 b k); [by rewrite andb_false_r|lia|].
    apply Z.log2_lt_pow2; [lia|].
    assert (2 ^ n <= 2 ^ k) by (apply Z.pow_le_mono_r; lia). lia.
Qed.

(** The general form: or-ing a field below the lowest set bit is addition. *)
Lemma lor_add a b n : 0 <= n → a mod 2 ^ n = 0 → 0 <= b < 2 ^ n → Z.lor a b = a + b.
Proof.
  intros Hn Ha Hb. assert (0 < 2 ^ n) by (apply Z.pow_pos_nonneg; lia).
  rewrite (Z.div_mod a (2 ^ n)), Ha, Z.add_0_r, (Z.mul_comm (2 ^ n)) by lia.
  rewrite <- Z.shiftl_mul_pow2 by done. rewrite lor_shiftl_add by done.
  by rewrite Z.shiftl_mul_pow2.
Qed.

Lemma shiftr_div a n : 0 <= n → a ≫ n = a / 2 ^ n.
Proof. intros. by apply Z.shiftr_div_pow2. Qed.

(** Combining octets gives an octet. *)
Lemma lor_u8 a b : is_u8 a → is_u8 b → is_u8 (Z.lor a b).
Proof.
  unfold is_u8. intros Ha Hb. split; [apply Z.lor_nonneg; lia|].
  destruct (Z.eq_dec (Z.lor a b) 0) as [->|Hne]; [lia|].
  assert (0 <= Z.lor a b) by (apply Z.lor_nonneg; lia).
  apply (Z.log2_lt_pow2 (Z.lor a b) 8); [lia|]. rewrite Z.log2_lor by lia.
  assert (∀ z, 0 <= z < 256 → Z.log2 z < 8) as Hlog.
  { intros z Hz. destruct (Z.eq_dec z 0) as [->|]; [done|]. apply Z.log2_lt_pow2; simpl; lia. }
  pose proof (Hlog a Ha). pose proof (Hlog b Hb). lia.
Qed.

(** The masks the source uses, as remainders. *)
Lemma land_1 a : Z.land a 1 = a mod 2.
Proof. apply (Z.land_ones a 1). lia. Qed.
Lemma land_3 a : Z.land a 3 = a mod 4.
Proof. apply (Z.land_ones a 2). lia. Qed.
Lemma land_7 a : Z.land a 7 = a mod 8.
Proof. apply (Z.land_ones a 3). lia. Qed.
Lemma land_15 a : Z.land a 15 = a mod 16.
Proof. apply (Z.land_ones a 4). lia. Qed.
Lemma land_31 a : Z.land a 31 = a mod 32.
Proof. apply (Z.land_ones a 5). lia. Qed.
Lemma land_63 a : Z.land a 63 = a mod 64.
Proof. apply (Z.land_ones a 6). lia. Qed.
Lemma land_127 a : Z.land a 127 = a mod 128.
Proof. apply (Z.land_ones a 7). lia. Qed.
Lemma land_255 a : Z.land a 255 = a mod 256.
Proof. apply (Z.land_ones a 8). lia. Qed.
Lemma land_1023 a : Z.land a 1023 = a mod 1024.
Proof. apply (Z.land_ones a 10). lia. Qed.
Lemma land_65535 a : Z.land a 65535 = a mod 65536.
Proof. apply (Z.land_ones a 16). lia. Qed.

#[export] Hint Rewrite land_1 land_3 land_7 land_15 land_31 land_63 land_127 land_255
  land_1023 land_65535 : bitfield.

(** Turns masks and right shifts by a literal into [mod] and [/]. *)
Ltac bitfield :=
  autorewrite with bitfield;
  repeat match goal with
  | |- context [?a ≫ ?n] => rewrite (shiftr_div a n) by lia; change_pow n
  | |- context [?a ≪ ?n] => rewrite (Z.shiftl_mul_pow2 a n) by lia; change_pow n
  end
with change_pow n := let v := eval vm_compute in (2 ^ n) in change (2 ^ n) with v.

(** Two octets, most significant first: [int(hi)<<8 | int(lo)]. *)
Definition be16 (hi lo : Z) : Z := Z.lor (hi ≪ 8) lo.

Lemma be16_add hi lo : is_u8 lo → be16 hi lo = hi * 256 + lo.
Proof. intros. unfold be16. by rewrite lor_shiftl_add by (unfold is_u8 in *; lia). Qed.

Lemma be16_range hi lo : is_u8 hi → is_u8 lo → is_u16 (be16 hi lo).
Proof. intros. rewrite be16_add by done. unfold is_u8, is_u16 in *. lia. Qed.

Lemma be16_split n : is_u16 n → be16 (u8 (n ≫ 8)) (u8 n) = n.
Proof.
  intros. rewrite be16_add by apply u8_range. bitfield.
  unfold u8, is_u16 in *. dlia.
Qed.

(** Three and four octets, most significant first. *)
Definition be24 (b0 b1 b2 : Z) : Z := Z.lor (Z.lor (b0 ≪ 16) (b1 ≪ 8)) b2.
Definition be32 (b0 b1 b2 b3 : Z) : Z :=
  Z.lor (Z.lor (Z.lor (b0 ≪ 24) (b1 ≪ 16)) (b2 ≪ 8)) b3.

(** [binary.BigEndian.PutUint32]. *)
Definition put_be32 (v : Z) : bytes := [u8 (v ≫ 24); u8 (v ≫ 16); u8 (v ≫ 8); u8 v].

Lemma be24_add b0 b1 b2 :
  is_u8 b1 → is_u8 b2 → be24 b0 b1 b2 = b0 * 65536 + b1 * 256 + b2.
Proof.
  unfold is_u8. intros. unfold be24.
  rewrite (lor_add (b0 ≪ 16) (b1 ≪ 8) 16), (lor_add _ b2 8); bitfield; try dlia.
Qed.

Lemma be32_add b0 b1 b2 b3 :
  is_u8 b1 → is_u8 b2 → is_u8 b3 →
  be32 b0 b1 b2 b3 = b0 * 16777216 + b1 * 65536 + b2 * 256 + b3.
Proof.
  unfold is_u8. intros. unfold be32.
  rewrite (lor_add (b0 ≪ 24) (b1 ≪ 16) 24), (lor_add _ (b2 ≪ 8) 16), (lor_add _ b3 8);
    bitfield; try dlia.
Qed.

Lemma be24_split v : 0 <= v < 16777216 → be24 (u8 (v ≫ 16)) (u8 (v ≫ 8)) (u8 v) = v.
Proof. intros. rewrite be24_add by apply u8_range. bitfield. unfold u8. dlia. Qed.

Lemma be32_split v : is_u32 v → be32 (u8 (v ≫ 24)) (u8 (v ≫ 16)) (u8 (v ≫ 8)) (u8 v) = v.
Proof. intros. rewrite be32_add by apply u8_range. bitfield. unfold u8, is_u32 in *. dlia. Qed.

(** * Results of Go code

    [Ok] is a normal return, [Err] a return with a non-nil error (the error
    keeps the format string of the source, without its arguments), [Panic] a
    run-time panic (index or slice bounds out of range, nil dereference), and
    [OutOfFuel] the artefact of a bounded loop, which the termination theorems
    rule out. *)

Inductive res (A : Type) : Type :=
| Ok (a : A)
| Err (e : string)
| Panic
| OutOfFuel.
Arguments Ok {A} _.
Arguments Err {A} _.
Arguments Panic {A}.
Arguments OutOfFuel {A}.

#[global] Instance res_ret : MRet res := λ A a, Ok a.
#[global] Instance res_bind : MBind res := λ A B f m,
  match m with
  | Ok a => f a
  | Err e => Err e
  | Panic => Panic
  | OutOfFuel => OutOfFuel
  end.

#[global] Instance res_eq_dec {A} `{EqDecision A} : EqDecision (res A).
Proof. solve_decision. Defined.

(** The run terminated without a run-time panic. *)
Definition safe {A} (m : res A) : Prop :=
  match m with Ok _ | Err _ => True | Panic | OutOfFuel => False end.

#[global] Instance safe_dec {A} (m : res A) : Decision (safe m).
Proof. destruct m; simpl; apply _. Defined.

Lemma safe_bind {A B} (m : res A) (f : A → res B) :
  safe m → (∀ a, m = Ok a → safe (f a)) → safe (m ≫= f).
Proof. destruct m; simpl; naive_solver. Qed.

(** The run terminated, and panicked only under [P]. *)
Definition panics_only {A} (P : Prop) (m : res A) : Prop :=
  match m with Panic => P | OutOfFuel => False | Ok _ | Err _ => True end.

Lemma safe_panics_only {A} (P : Prop) (m : res A) : safe m → panics_only P m.
Proof. by destruct m. Qed.

Lemma panics_only_bind {A B} (P : Prop) (m : res A) (f : A → res B) :
  panics_only P m → (∀ a, m = Ok a → panics_only P (f a)) → panics_only P (m ≫= f).
Proof. destruct m; simpl; naive_solver. Qed.

Lemma panics_only_mono {A} (P Q : Prop) (m : res A) : (P → Q) → panics_only P m → panics_only Q m.
Proof. destruct m; simpl; tauto. Qed.

Lemma bind_Ok {A B} (m : res A) (f : A → res B) b :
  m ≫= f = Ok b → ∃ a, m = Ok a ∧ f a = Ok b.
Proof. destruct m; simpl; naive_solver. Qed.

(** [b[i]] *)
Definition idx {A} (b : list A) (i : nat) : res A :=
  match b !! i with Some x => Ok x | None => Panic end.

(** [b[i:j]], for slices the source only takes within the length. *)
Definition slice {A} (b : list A) (i j : nat) : res (list A) :=
  if decide ((i <= j)%nat ∧ (j <= length b)%nat) then Ok (take (j - i) (drop i b)) else Panic.

(** [b[i:]] *)
Definition slice_from {A} (b : list A) (i : nat) : res (list A) := slice b i (length b).

(** [copy(dst, src)]: the contents of [dst] afterwards. *)
Definition go_copy {A} (dst src : list A) : list A :=
  take (length dst) src ++ drop (length src) dst.

Lemma idx_Ok {A} (b : list A) i : (i < length b)%nat → ∃ x, b !! i = Some x ∧ idx b i = Ok x.
Proof. intros [x Hx]%lookup_lt_is_Some. exists x. unfold idx. by rewrite Hx. Qed.

Lemma safe_idx {A} (b : list A) i : (i < length b)%nat → safe (idx b i).
Proof. intros (x & _ & ->)%idx_Ok. done. Qed.

Lemma slice_Ok {A} (b : list A) i j :
  (i <= j)%nat → (j <= length b)%nat → slice b i j = Ok (take (j - i) (drop i b)).
Proof. intros. unfold slice. by rewrite decide_True. Qed.

Lemma slice_from_Ok {A} (b : list A) i : (i <= length b)%nat → slice_from b i = Ok (drop i b).
Proof.
  intros. unfold slice_from. rewrite slice_Ok by lia.
  f_equal. apply take_ge. rewrite length_drop. lia.
Qed.

Lemma length_go_copy {A} (dst src : list A) : length (go_copy dst src) = length dst.
Proof. unfold go_copy. rewrite length_app, length_take, length_drop. lia. Qed.

Lemma go_copy_full {A} (dst src : list A) : length src = length dst → go_copy dst src = src.
Proof.
  intros Hl. unfold go_copy. rewrite take_ge by lia. rewrite drop_ge by lia. apply app_nil_r.
Qed.

#[export] Hint Resolve u8_range safe_idx : go.
#[export] Hint Rewrite @length_go_copy : golist.

(** * Strings

    [str s] are the octets of a Go string kept as a [string], [unstr] the
    conversion [string(b)]. *)

Definition str (s : string) : bytes := (λ c, Z.of_N (Ascii.N_of_ascii c)) <$> String.list_ascii_of_string s.
Definition unstr (b : bytes) : string := String.string_of_list_ascii ((λ z, Ascii.ascii_of_N (Z.to_N z)) <$> b).

Lemma str_unstr b : bytes_ok b → str (unstr b) = b.
Proof.
  intros Hb. unfold str, unstr. rewrite String.list_ascii_of_string_of_list_ascii, <- list_fmap_compose.
  induction Hb as [|z b Hz Hb IH]; [done|]. cbn. f_equal; [|done].
  unfold is_u8 in Hz. rewrite Ascii.N_ascii_embedding; lia.
Qed.

Lemma unstr_str s : unstr (str s) = s.
Proof.
  unfold str, unstr. rewrite <- list_fmap_compose. etransitivity; [|apply String.string_of_list_ascii_of_string].
  f_equal. induction (String.list_ascii_of_string s) as [|a l IH]; [done|]. cbn. f_equal; [|done].
  rewrite N2Z.id. apply Ascii.ascii_N_embedding.
Qed.

#[global] Instance str_inj : Inj (=) (=) str.
Proof. intros a b H. by rewrite <- (unstr_str a), <- (unstr_str b), H. Qed.

(** [strings.TrimPrefix] *)
Definition trim_prefix (p s : bytes) : bytes :=
  if bool_decide (take (length p) s = p) then drop (length p) s else s.

(** ** Hexadecimal *)

Definition hexdigit (d : Z) : Z := if d <? 10 then 48 + d else 87 + d.

(** The [n] low hexadecimal digits of [v], as [%0nx] prints a value that fits. *)
Fixpoint hex_fixed (n : nat) (v : Z) : bytes :=
  match n with
  | O => []
  | S n => hex_fixed n (v / 16) ++ [hexdigit (v mod 16)]
  end.

(** [hex.EncodeToString] *)
Definition hexEncode (b : bytes) : bytes := b ≫= hex_fixed 2.

Lemma length_hex_fixed n v : length (hex_fixed n v) = n.
Proof. revert v. induction n as [|n IH]; intros v; cbn; [done|]. rewrite length_app, IH. cbn. lia. Qed.

Lemma hexdigit_inj a b : 0 <= a < 16 → 0 <= b < 16 → hexdigit a = hexdigit b → a = b.
Proof. intros. unfold hexdigit in *. destruct (Z.ltb_spec a 10), (Z.ltb_spec b 10); lia. Qed.

Lemma hex_fixed_inj n a b :
  0 <= a < 16 ^ Z.of_nat n → 0 <= b < 16 ^ Z.of_nat n → hex_fixed n a = hex_fixed n b → a = b.
Proof.
  revert a b. induction n as [|n IH]; intros a b Ha Hb; [cbn in *; lia|].
  rewrite Nat2Z.inj_succ, Z.pow_succ_r in Ha, Hb by lia. cbn.
  intros [H1 [= H2]]%app_inj_2; [|done].
  apply IH in H1; [|dlia..]. apply hexdigit_inj in H2; dlia.
Qed.
