(* ===== verification/NasReader.v ===== *)
(** The sequential IE reader of the NAS codec (shared/nas/nas.go, type Reader)
    and the [for rdr.Len() > 0] loops the message decoders run over it. *)

From S2P Require Import Prelude.

Create Rewrite HintDb reader.

(** * The reader *)

Record Reader := mkReader { data : bytes; pos : nat }.

Definition NewReader (b : bytes) : Reader := mkReader b 0.

Definition Len (r : Reader) : nat := length (data r) - pos r.

(** [None] is [io.EOF]; the position does not move. *)
Definition ReadByte (r : Reader) : Reader * option Z :=
  match data r !! pos r with
  | None => (r, None)
  | Some b => (mkReader (data r) (S (pos r)), Some b)
  end.

Definition PeekByte (r : Reader) : option Z := data r !! pos r.

(** [None] is the "need %d bytes, have %d" error; the position does not move. *)
Definition ReadBytes (r : Reader) (n : nat) : Reader * option bytes :=
  if bool_decide (length (data r) < pos r + n)%nat then (r, None)
  else (mkReader (data r) (pos r + n), Some (take n (drop (pos r) (data r)))).

Definition Remaining (r : Reader) : bytes := drop (pos r) (data r).

(** [v, _ := rdr.ReadByte()]: the zero value when the read failed. *)
Definition or0 (o : option Z) : Z := default 0 o.
(** [v, _ := rdr.ReadBytes(n)]: the nil slice when the read failed. *)
Definition or_nil (o : option bytes) : bytes := default [] o.

(** [hi, _ := ReadByte(); lo, _ := ReadByte(); int(hi)<<8 | int(lo)], the
    length of a TLV-E element. *)
Definition ReadLen16 (r : Reader) : Reader * nat :=
  let '(r, hi) := ReadByte r in
  let '(r, lo) := ReadByte r in
  (r, Z.to_nat (be16 (or0 hi) (or0 lo))).

(** [l, _ := ReadByte(); v, _ := ReadBytes(int(l))], an ignored-error TLV value. *)
Definition ReadLV (r : Reader) : Reader * option bytes :=
  let '(r, l) := ReadByte r in ReadBytes r (Z.to_nat (or0 l)).

(** The same with a two-octet length. *)
Definition ReadLVE (r : Reader) : Reader * option bytes :=
  let '(r, l) := ReadLen16 r in ReadBytes r l.

(** The reads whose error the decoder returns: [if err != nil { return nil, err }]. *)
Definition must_byte (r : Reader) : res (Reader * Z) :=
  match ReadByte r with (r, Some b) => Ok (r, b) | (_, None) => Err "EOF" end.

Definition must_bytes (r : Reader) (n : nat) : res (Reader * bytes) :=
  match ReadBytes r n with
  | (r, Some v) => Ok (r, v)
  | (_, None) => Err "nas: need %d bytes, have %d"
  end.

(** A reader in the middle of [pre ++ rest]. *)
Definition rd (pre rest : bytes) : Reader := mkReader (pre ++ rest) (length pre).

Lemma NewReader_rd b : NewReader b = rd [] b.
Proof. done. Qed.

Lemma Remaining_rd pre rest : Remaining (rd pre rest) = rest.
Proof. unfold Remaining, rd. simpl. apply drop_app_length. Qed.

Lemma Len_rd pre rest : Len (rd pre rest) = length rest.
Proof. unfold Len, rd. simpl. rewrite length_app. lia. Qed.

Lemma ReadByte_nil pre : ReadByte (rd pre []) = (rd pre [], None).
Proof. unfold ReadByte, rd. simpl. rewrite lookup_ge_None_2; [done|]. rewrite length_app. simpl. lia. Qed.

Lemma ReadByte_cons pre b rest : ReadByte (rd pre (b :: rest)) = (rd (pre ++ [b]) rest, Some b).
Proof.
  unfold ReadByte, rd. simpl. rewrite list_lookup_middle by done.
  rewrite <- app_assoc, length_app. simpl. by rewrite Nat.add_1_r.
Qed.

Lemma PeekByte_cons pre b rest : PeekByte (rd pre (b :: rest)) = Some b.
Proof. unfold PeekByte, rd. simpl. by rewrite list_lookup_middle. Qed.

Lemma ReadBytes_app pre xs rest n :
  n = length xs → ReadBytes (rd pre (xs ++ rest)) n = (rd (pre ++ xs) rest, Some xs).
Proof.
  intros ->. unfold ReadBytes, rd. simpl.
  rewrite bool_decide_eq_false_2 by (rewrite !length_app; lia).
  rewrite drop_app_length, take_app_length, <- app_assoc. f_equal. f_equal. by rewrite length_app.
Qed.

Lemma ReadBytes_split pre bs xs rest n :
  bs = xs ++ rest → n = length xs → ReadBytes (rd pre bs) n = (rd (pre ++ xs) rest, Some xs).
Proof. intros ->. apply ReadBytes_app. Qed.

Lemma ReadLV_app pre xs rest :
  Z.of_nat (length xs) < 256 →
  ReadLV (rd pre (u8 (Z.of_nat (length xs)) :: xs ++ rest))
  = (rd (pre ++ u8 (Z.of_nat (length xs)) :: xs) rest, Some xs).
Proof.
  intros. unfold ReadLV. rewrite ReadByte_cons. simpl.
  rewrite u8_small by (unfold is_u8; lia). rewrite Nat2Z.id, ReadBytes_app by done.
  by rewrite <- app_assoc.
Qed.

Lemma ReadLVE_app pre xs rest :
  Z.of_nat (length xs) < 65536 →
  ReadLVE (rd pre (u8 (Z.of_nat (length xs) ≫ 8) :: u8 (Z.of_nat (length xs)) :: xs ++ rest))
  = (rd (pre ++ u8 (Z.of_nat (length xs) ≫ 8) :: u8 (Z.of_nat (length xs)) :: xs) rest, Some xs).
Proof.
  intros. unfold ReadLVE, ReadLen16. rewrite !ReadByte_cons. simpl.
  rewrite be16_split by (unfold is_u16; lia). rewrite Nat2Z.id, ReadBytes_app by done.
  by rewrite <- !app_assoc.
Qed.

#[export] Hint Rewrite NewReader_rd Len_rd Remaining_rd ReadByte_cons ReadByte_nil PeekByte_cons : reader.

Lemma must_byte_cons pre b rest : must_byte (rd pre (b :: rest)) = Ok (rd (pre ++ [b]) rest, b).
Proof. unfold must_byte. by rewrite ReadByte_cons. Qed.

Lemma must_bytes_app pre xs rest n :
  n = length xs → must_bytes (rd pre (xs ++ rest)) n = Ok (rd (pre ++ xs) rest, xs).
Proof. intros. unfold must_bytes. by rewrite ReadBytes_app. Qed.

#[export] Hint Rewrite must_byte_cons : reader.

Lemma safe_must_byte r : safe (must_byte r).
Proof. unfold must_byte. by destruct (ReadByte r) as [? [?|]]. Qed.

Lemma safe_must_bytes r n : safe (must_bytes r n).
Proof. unfold must_bytes. by destruct (ReadBytes r n) as [? [?|]]. Qed.

#[export] Hint Resolve safe_must_byte safe_must_bytes : go.

(** ** TLV and TLV-E elements

    [append(out, iei, byte(len(v))); append(out, v...)] and its form with a
    two-octet length. *)

Definition tlv (iei : Z) (v : bytes) : bytes := iei :: u8 (Z.of_nat (length v)) :: v.
Definition tlve (iei : Z) (v : bytes) : bytes :=
  iei :: u8 (Z.of_nat (length v) ≫ 8) :: u8 (Z.of_nat (length v)) :: v.

(** The reads of a TLV and of a TLV-E element whose error the decoder returns. *)
Lemma must_LV_app pre v rest :
  Z.of_nat (length v) < 256 →
  must_byte (rd pre (u8 (Z.of_nat (length v)) :: v ++ rest))
  = Ok (rd (pre ++ [u8 (Z.of_nat (length v))]) (v ++ rest), Z.of_nat (length v)).
Proof. intros. rewrite must_byte_cons. by rewrite u8_small by (unfold is_u8; lia). Qed.

Lemma ReadLV_iei pre iei v rest :
  Z.of_nat (length v) < 256 →
  ReadLV (rd (pre ++ [iei]) (u8 (Z.of_nat (length v)) :: v ++ rest))
  = (rd (pre ++ tlv iei v) rest, Some v).
Proof. intros. rewrite ReadLV_app by done. unfold tlv. by rewrite <- app_assoc. Qed.

Lemma ReadLVE_iei pre iei v rest :
  Z.of_nat (length v) < 65536 →
  ReadLVE (rd (pre ++ [iei]) (u8 (Z.of_nat (length v) ≫ 8) :: u8 (Z.of_nat (length v)) :: v ++ rest))
  = (rd (pre ++ tlve iei v) rest, Some v).
Proof. intros. rewrite ReadLVE_app by done. unfold tlve. by rewrite <- app_assoc. Qed.

Lemma must_LV_iei {A} pre iei v rest (k : Reader → bytes → res A) :
  Z.of_nat (length v) < 256 →
  ('(r, l) ← must_byte (rd (pre ++ [iei]) (u8 (Z.of_nat (length v)) :: v ++ rest));
   '(r, v) ← must_bytes r (Z.to_nat l); k r v)
  = k (rd (pre ++ tlv iei v) rest) v.
Proof.
  intros. rewrite must_LV_app by done. simpl. rewrite must_bytes_app by lia. simpl.
  unfold tlv. by rewrite <- !app_assoc.
Qed.

(** ** Where the octets read sit in the message *)
Lemma ReadByte_split r r' b : ReadByte r = (r', Some b) →
  data r' = data r ∧ Remaining r = b :: Remaining r'.
Proof.
  unfold ReadByte, Remaining. destruct (data r !! pos r) eqn:E; [|done]. intros [= <- <-].
  split; [done|]. simpl. by erewrite drop_S.
Qed.

Lemma must_byte_split r r' b : must_byte r = Ok (r', b) →
  data r' = data r ∧ Remaining r = b :: Remaining r'.
Proof.
  unfold must_byte. destruct (ReadByte r) as [? [?|]] eqn:E; [|done].
  intros [= <- <-]. by apply ReadByte_split.
Qed.

Lemma must_bytes_split r n r' v : must_bytes r n = Ok (r', v) →
  data r' = data r ∧ Remaining r = v ++ Remaining r' ∧ (length v <= n)%nat.
Proof.
  unfold must_bytes, ReadBytes. case_bool_decide; [done|]. intros [= <- <-].
  unfold Remaining. simpl. split_and!; [done| |rewrite length_take; lia].
  by rewrite <- drop_drop, take_drop.
Qed.

Lemma ReadByte_data r : data (ReadByte r).1 = data r.
Proof. unfold ReadByte. by destruct (data r !! pos r). Qed.

Lemma ReadBytes_data r n : data (ReadBytes r n).1 = data r.
Proof. unfold ReadBytes. by case_bool_decide. Qed.

Lemma ReadLV_split r r' v : ReadLV r = (r', Some v) →
  data r' = data r ∧ ∃ l, Remaining r = l :: v ++ Remaining r' ∨ v = [].
Proof.
  unfold ReadLV. destruct (ReadByte r) as [r1 [l|]] eqn:E; intros H.
  - apply ReadByte_split in E as [E1 E2].
    assert (Hm : must_bytes r1 (Z.to_nat l) = Ok (r', v)).
    { unfold must_bytes. unfold or0 in H. simpl in H. by rewrite H. }
    apply must_bytes_split in Hm as (H1 & H2 & _). split; [congruence|].
    exists l. left. by rewrite E2, H2.
  - unfold ReadBytes in H. simpl in H. revert H. case_bool_decide; intros [= <- <-].
    simpl. split; [|exists 0; by right].
    pose proof (ReadByte_data r) as Hd. by rewrite E in Hd.
Qed.

Lemma ReadLV_data r : data (ReadLV r).1 = data r.
Proof.
  unfold ReadLV. pose proof (ReadByte_data r) as Hd. destruct (ReadByte r) as [r1 l]. simpl in Hd.
  by rewrite ReadBytes_data.
Qed.

Lemma ReadLVE_data r : data (ReadLVE r).1 = data r.
Proof.
  unfold ReadLVE, ReadLen16. pose proof (ReadByte_data r) as H1. destruct (ReadByte r) as [r1 h].
  pose proof (ReadByte_data r1) as H2. destruct (ReadByte r1) as [r2 l]. simpl in *.
  by rewrite ReadBytes_data, H2.
Qed.

Lemma must_byte_cases r : (∃ r' b, must_byte r = Ok (r', b)) ∨ ∃ e, must_byte r = Err e.
Proof. unfold must_byte. destruct (ReadByte r) as [? [?|]]; eauto. Qed.

(** ** Reads never move backwards *)

Definition reader_le (r' r : Reader) : Prop := (Len r' <= Len r)%nat.

Lemma ReadByte_Len r r' o : ReadByte r = (r', o) →
  match o with Some _ => (S (Len r') = Len r)%nat | None => r' = r ∧ Len r = 0%nat end.
Proof.
  unfold ReadByte, Len. destruct (data r !! pos r) eqn:E; intros [= <- <-]; simpl.
  - apply lookup_lt_Some in E. lia.
  - apply lookup_ge_None_1 in E. split; [done|lia].
Qed.

Lemma ReadByte_le r : reader_le (ReadByte r).1 r.
Proof.
  unfold reader_le. destruct (ReadByte r) as [r' o] eqn:E. simpl.
  apply ReadByte_Len in E. destruct o; [lia|]. destruct E as [-> _]. lia.
Qed.

Lemma ReadBytes_le r n : reader_le (ReadBytes r n).1 r.
Proof.
  unfold reader_le, ReadBytes, Len. case_bool_decide; simpl; lia.
Qed.

Lemma reader_le_trans r1 r2 r3 : reader_le r1 r2 → reader_le r2 r3 → reader_le r1 r3.
Proof. unfold reader_le. lia. Qed.

Lemma ReadLen16_le r : reader_le (ReadLen16 r).1 r.
Proof.
  unfold ReadLen16. destruct (ReadByte r) as [r1 o1] eqn:E1.
  destruct (ReadByte r1) as [r2 o2] eqn:E2. simpl.
  pose proof (ReadByte_le r) as H1. pose proof (ReadByte_le r1) as H2.
  rewrite E1 in H1. rewrite E2 in H2. eauto using reader_le_trans.
Qed.

Lemma ReadLV_le r : reader_le (ReadLV r).1 r.
Proof.
  unfold ReadLV. destruct (ReadByte r) as [r1 o1] eqn:E1.
  pose proof (ReadByte_le r) as H1. rewrite E1 in H1.
  eapply reader_le_trans; [apply ReadBytes_le|done].
Qed.

Lemma ReadLVE_le r : reader_le (ReadLVE r).1 r.
Proof.
  unfold ReadLVE. destruct (ReadLen16 r) as [r1 o1] eqn:E1.
  pose proof (ReadLen16_le r) as H1. rewrite E1 in H1.
  eapply reader_le_trans; [apply ReadBytes_le|done].
Qed.

Lemma must_byte_lt r r' b : must_byte r = Ok (r', b) → (Len r' < Len r)%nat.
Proof.
  unfold must_byte. destruct (ReadByte r) as [r1 [b1|]] eqn:E; [|done].
  intros [= <- <-]. apply ReadByte_Len in E. lia.
Qed.

Lemma must_bytes_le r n r' v : must_bytes r n = Ok (r', v) → reader_le r' r.
Proof.
  unfold must_bytes. pose proof (ReadBytes_le r n). destruct (ReadBytes r n) as [r1 [b1|]]; [|done].
  by intros [= <- <-].
Qed.

#[export] Hint Resolve ReadByte_le ReadBytes_le ReadLen16_le ReadLV_le ReadLVE_le : go.

(** * The decoders' loops

    [for rdr.Len() >= min { body }] over a reader [r] and the message [s] under
    construction. The body ends an iteration with [Next] (also Go's [continue]
    and a [break] that leaves only an inner switch) or leaves the loop with
    [Stop] (a [break] of the loop itself, or a return of the message with the
    error the state carries). *)

Inductive ctl (S : Type) : Type :=
| Next (r : Reader) (s : S)
| Stop (s : S).
Arguments Next {S} _ _.
Arguments Stop {S} _.

Fixpoint for_fuel {S} (fuel : nat) (min : nat) (body : Reader → S → res (ctl S))
    (r : Reader) (s : S) : res S :=
  if bool_decide (min <= Len r)%nat then
    match fuel with
    | O => OutOfFuel
    | S fuel =>
        match body r s with
        | Ok (Next r' s') => for_fuel fuel min body r' s'
        | Ok (Stop s') => Ok s'
        | Err e => Err e
        | Panic => Panic
        | OutOfFuel => OutOfFuel
        end
    end
  else Ok s.

(** Every iteration reads at least one octet, so the octets left bound the
    iterations. *)
Definition for_reader {S} (min : nat) (body : Reader → S → res (ctl S)) (r : Reader) (s : S) : res S :=
  for_fuel (Len r) min body r s.

Section loops.
Context {S : Type} (min : nat) (body : Reader → S → res (ctl S)).

Definition consumes : Prop :=
  ∀ r s r' s', (min <= Len r)%nat → body r s = Ok (Next r' s') → (Len r' < Len r)%nat.

Hypothesis Hmin : (0 < min)%nat.
Hypothesis Hprogress : consumes.

Lemma for_fuel_enough f1 f2 r s :
  (Len r <= f1)%nat → (Len r <= f2)%nat → for_fuel f1 min body r s = for_fuel f2 min body r s.
Proof.
  revert f2 r s. induction f1 as [|f1 IH]; intros [|f2] r s H1 H2; simpl; try done;
    case_bool_decide as Hm; try done; try lia.
  destruct (body r s) as [[r' s'|s']|e| |] eqn:E; try done.
  pose proof (Hprogress _ _ _ _ Hm E). apply IH; lia.
Qed.

(** One unfolding of the loop, free of the fuel. *)
Lemma for_reader_step r s :
  for_reader min body r s =
  if bool_decide (min <= Len r)%nat then
    match body r s with
    | Ok (Next r' s') => for_reader min body r' s'
    | Ok (Stop s') => Ok s'
    | Err e => Err e
    | Panic => Panic
    | OutOfFuel => OutOfFuel
    end
  else Ok s.
Proof.
  unfold for_reader at 1. destruct (Len r) as [|n] eqn:El; simpl.
  - rewrite El. rewrite bool_decide_eq_false_2 by lia. done.
  - rewrite El. case_bool_decide as Hm; [|done].
    destruct (body r s) as [[r' s'|s']|e| |] eqn:E; try done.
    unfold for_reader. apply for_fuel_enough; [|lia].
    rewrite <- El in Hm. pose proof (Hprogress _ _ _ _ Hm E). lia.
Qed.

(** The loop terminates and does not panic when its body does neither. *)
Lemma for_reader_safe r s :
  (∀ r s, (min <= Len r)%nat → safe (body r s)) → safe (for_reader min body r s).
Proof.
  intros Hs. remember (Len r) as n eqn:En.
  revert r s En. induction n as [n IH] using lt_wf_ind. intros r s ->.
  rewrite for_reader_step. case_bool_decide as Hm; [|done].
  specialize (Hs r s Hm). destruct (body r s) as [[r' s'|s']|e| |] eqn:E; try done.
  apply (IH (Len r')); [|done]. by eapply Hprogress.
Qed.

(** Partial-correctness rule: an invariant of the message under construction. *)
Lemma for_reader_inv (P : S → Prop) r s s' :
  (∀ r s r' s', P s → body r s = Ok (Next r' s') → P s') →
  (∀ r s s', P s → body r s = Ok (Stop s') → P s') →
  P s → for_reader min body r s = Ok s' → P s'.
Proof.
  intros HN HS. unfold for_reader. generalize (Len r) as f. intros f.
  revert r s. induction f as [|f IH]; intros r s Hp; simpl; case_bool_decide; try naive_solver.
  destruct (body r s) as [[r1 s1|s1]|e| |] eqn:E; naive_solver.
Qed.

(** A loop panics only where one of its iterations does, on the same data. *)
Lemma for_reader_panics_only (P : bytes → Prop) r s :
  (∀ r s r' s', body r s = Ok (Next r' s') → data r' = data r) →
  (∀ r s, bytes_ok (data r) → panics_only (P (data r)) (body r s)) →
  bytes_ok (data r) → panics_only (P (data r)) (for_reader min body r s).
Proof.
  intros Hd Hb. remember (Len r) as n eqn:En.
  revert r s En. induction n as [n IH] using lt_wf_ind. intros r s -> Hok.
  rewrite for_reader_step. case_bool_decide as Hm; [|done].
  specialize (Hb r s Hok). destruct (body r s) as [[r' s'|s']|e| |] eqn:E; try done.
  rewrite <- (Hd _ _ _ _ E). apply (IH (Len r')); [by eapply Hprogress|done|].
  by rewrite (Hd _ _ _ _ E).
Qed.

(** ** Sequential parsing

    [parses s bs s']: wherever the octets [bs] start, the loop consumes
    exactly them and goes from the message [s] to the message [s']. *)
Definition parses (s : S) (bs : bytes) (s' : S) : Prop :=
  ∀ pre rest, for_reader min body (rd pre (bs ++ rest)) s
              = for_reader min body (rd (pre ++ bs) rest) s'.

Lemma parses_nil s : parses s [] s.
Proof. intros pre rest. by rewrite app_nil_r. Qed.

Lemma parses_app s1 b1 s2 b2 s3 : parses s1 b1 s2 → parses s2 b2 s3 → parses s1 (b1 ++ b2) s3.
Proof. intros H1 H2 pre rest. rewrite <- app_assoc, H1, H2. by rewrite <- app_assoc. Qed.

Lemma parses_step s bs s' :
  (min <= length bs)%nat →
  (∀ pre rest, body (rd pre (bs ++ rest)) s = Ok (Next (rd (pre ++ bs) rest) s')) →
  parses s bs s'.
Proof.
  intros Hl Hb pre rest. rewrite for_reader_step, Hb, Len_rd.
  rewrite bool_decide_eq_true_2; [done|]. rewrite length_app. lia.
Qed.

(** An element the encoder writes only under a condition. *)
Lemma parses_if (c : bool) s bs s' :
  (c = true → parses s bs s') → (c = false → s' = s) → parses s (if c then bs else []) s'.
Proof. destruct c; [auto|]. intros _ H. rewrite H by done. apply parses_nil. Qed.

Lemma parses_opt {X} (o : option X) s enc (upd : option X → S) :
  upd None = s → (∀ x, o = Some x → parses s (enc x) (upd (Some x))) →
  parses s (match o with Some x => enc x | None => [] end) (upd o).
Proof. intros <- H. destruct o; [by apply H|apply parses_nil]. Qed.

Lemma for_reader_parses pre s bs s' :
  parses s bs s' → for_reader min body (rd pre bs) s = Ok s'.
Proof.
  intros H. specialize (H pre []). rewrite app_nil_r in H. rewrite H, for_reader_step, Len_rd.
  by rewrite bool_decide_eq_false_2 by (simpl; lia).
Qed.
End loops.

(** Two bodies that agree on every reader with at most [n] octets left run the
    same loop there. *)
Lemma for_reader_ext {S} min (body1 body2 : Reader → S → res (ctl S)) n r s :
  (0 < min)%nat → consumes min body1 → consumes min body2 →
  (∀ r s, (Len r <= n)%nat → body1 r s = body2 r s) → (Len r <= n)%nat →
  for_reader min body1 r s = for_reader min body2 r s.
Proof.
  intros Hmin H1 H2 Heq Hn. remember (Len r) as k eqn:Ek.
  revert r s Ek Hn. induction k as [k IH] using lt_wf_ind. intros r s -> Hn.
  rewrite !for_reader_step by done. rewrite Heq by done. case_bool_decide as Hm; [|done].
  destruct (body2 r s) as [[r' s'|s']|e| |] eqn:E; try done.
  pose proof (H2 _ _ _ _ Hm E). apply (IH (Len r')); [done|done|lia].
Qed.

Lemma ReadBytes_length r n r' v : ReadBytes r n = (r', Some v) → (length v <= Len r)%nat.
Proof.
  unfold ReadBytes, Len. case_bool_decide; [done|]. intros [= <- <-].
  rewrite length_take, length_drop. lia.
Qed.

(** Normalises the reads of a decoder applied to a reader of known shape. *)
Ltac rd_simpl :=
  repeat first
    [ progress autorewrite with reader
    | progress simpl
    | rewrite <- !app_assoc ].

Arguments NewReader : simpl never.
Arguments ReadByte : simpl never.
Arguments ReadBytes : simpl never.
Arguments PeekByte : simpl never.
Arguments ReadLV : simpl never.
Arguments ReadLVE : simpl never.
Arguments ReadLen16 : simpl never.
Arguments must_byte : simpl never.
Arguments must_bytes : simpl never.
Arguments rd : simpl never.

(** ** Automation for the loop bodies *)

Lemma ReadByte_eq_le r r' o : ReadByte r = (r', o) → (Len r' <= Len r)%nat.
Proof. intros E. pose proof (ReadByte_le r) as H. by rewrite E in H. Qed.
Lemma ReadByte_eq_lt r r' b : ReadByte r = (r', Some b) → (Len r' < Len r)%nat.
Proof. intros E%ReadByte_Len. lia. Qed.
Lemma ReadBytes_eq_le r n r' o : ReadBytes r n = (r', o) → (Len r' <= Len r)%nat.
Proof. intros E. pose proof (ReadBytes_le r n) as H. by rewrite E in H. Qed.
Lemma ReadLV_eq_le r r' o : ReadLV r = (r', o) → (Len r' <= Len r)%nat.
Proof. intros E. pose proof (ReadLV_le r) as H. by rewrite E in H. Qed.
Lemma ReadLVE_eq_le r r' o : ReadLVE r = (r', o) → (Len r' <= Len r)%nat.
Proof. intros E. pose proof (ReadLVE_le r) as H. by rewrite E in H. Qed.
Lemma ReadLen16_eq_le r r' o : ReadLen16 r = (r', o) → (Len r' <= Len r)%nat.
Proof. intros E. pose proof (ReadLen16_le r) as H. by rewrite E in H. Qed.
Lemma must_bytes_eq_le r n r' v : must_bytes r n = Ok (r', v) → (Len r' <= Len r)%nat.
Proof. apply must_bytes_le. Qed.

(** Splits a successful run of a loop body into its reads. *)
Ltac split_run :=
  repeat match goal with
  | H : mbind _ _ = Ok _ |- _ =>
      let x := fresh "x" in let E := fresh "E" in apply bind_Ok in H as (x & E & H)
  | H : Ok _ = Ok _ |- _ => injection H; clear H; intros; subst
  | H : Err _ = Ok _ |- _ => discriminate H
  | H : Panic = Ok _ |- _ => discriminate H
  | H : OutOfFuel = Ok _ |- _ => discriminate H
  | H : (match ?x with _ => _ end) = Ok _ |- _ => destruct x eqn:?
  | H : Stop _ = Next _ _ |- _ => discriminate H
  | H : Next _ _ = Next _ _ |- _ => injection H; clear H; intros; subst
  end.

(** What the reads of the context say about the octets left. *)
Ltac read_facts :=
  repeat match goal with
  | H : ReadByte _ = (_, Some _) |- _ => apply ReadByte_eq_lt in H
  | H : ReadByte _ = (_, _) |- _ => apply ReadByte_eq_le in H
  | H : ReadBytes _ _ = (_, _) |- _ => apply ReadBytes_eq_le in H
  | H : ReadLV _ = (_, _) |- _ => apply ReadLV_eq_le in H
  | H : ReadLVE _ = (_, _) |- _ => apply ReadLVE_eq_le in H
  | H : ReadLen16 _ = (_, _) |- _ => apply ReadLen16_eq_le in H
  | H : must_byte _ = Ok (_, _) |- _ => apply must_byte_lt in H
  | H : must_bytes _ _ = Ok (_, _) |- _ => apply must_bytes_eq_le in H
  end;
  repeat match goal with
  | |- context [(ReadBytes ?r ?n).1] =>
      let r' := fresh "r" in let E := fresh "E" in
      destruct (ReadBytes r n) as [r' ?] eqn:E; apply ReadBytes_eq_le in E; simpl
  | |- context [(ReadByte ?r).1] =>
      let r' := fresh "r" in let E := fresh "E" in
      destruct (ReadByte r) as [r' ?] eqn:E; apply ReadByte_eq_le in E; simpl
  end.

(** Every read of a body keeps the data it reads from. *)
Ltac solve_data body :=
  let H := fresh in intros ? ? ? ? H; unfold body in H; cbv zeta in H; split_run;
  repeat match goal with
  | E : ReadByte ?r = (?r1, _) |- _ =>
      let D := fresh in pose proof (ReadByte_data r) as D; rewrite E in D; simpl in D; clear E
  | E : ReadLV ?r = (?r1, _) |- _ =>
      let D := fresh in pose proof (ReadLV_data r) as D; rewrite E in D; simpl in D; clear E
  | E : ReadLVE ?r = (?r1, _) |- _ =>
      let D := fresh in pose proof (ReadLVE_data r) as D; rewrite E in D; simpl in D; clear E
  | E : must_byte _ = Ok (_, _) |- _ => apply must_byte_split in E as [? _]
  | E : must_bytes _ _ = Ok (_, _) |- _ => apply must_bytes_split in E as (? & _ & _)
  end; rewrite ?ReadBytes_data; congruence.

(** [consumes] for a body that starts by reading the IEI. *)
Ltac solve_consumes body :=
  let H := fresh in intros ? ? ? ? ? H; unfold body in H; cbv zeta in H;
  split_run; read_facts; simpl in *; try lia.

(** Reduces [safe] of a run to [safe] of its calls. *)
Ltac split_safe :=
  repeat first
    [ done
    | apply safe_bind; [solve [eauto with go]|]; (intros [? ?] _ || intros ? _)
    | progress case_match
    | progress simpl ].
