(* ===== verification/NasIE.v ===== *)
(** Information elements of NAS-5GS messages (shared/nas/ie.go): 5GS mobile
    identity, NSSAI, security algorithms, UE security capability and the BCD
    helpers, with their round trips and the run-time panics they can raise. *)

From S2P Require Import Prelude.

(** * BCD helpers *)

(** The byte of an ASCII decimal digit. *)
Definition is_digit (c : Z) : Prop := 48 <= c <= 57.
#[global] Instance is_digit_dec c : Decision (is_digit c).
Proof. unfold is_digit. apply _. Defined.

Definition bcd (c : Z) : Z := if bool_decide (48 <= c <= 57) then u8 (c - 48) else 0.

(** [fmt.Sprintf("%d", n)] for a nibble. *)
Definition fmt_nibble (n : Z) : bytes := if n <? 10 then [48 + n] else [49; 48 + (n - 10)].

Definition encodeMCCMNC (mcc mnc : bytes) : res bytes :=
  if negb (length mcc =? 3)%nat then Ok [0; 0; 0]
  else
    m1 ← idx mcc 1; m0 ← idx mcc 0;
    let b1 := Z.lor (u8 (bcd m1 ≪ 4)) (bcd m0) in
    mncD3 ← (if (length mnc =? 3)%nat then n2 ← idx mnc 2; Ok (bcd n2) else Ok 15);
    m2 ← idx mcc 2;
    let b2 := Z.lor (u8 (mncD3 ≪ 4)) (bcd m2) in
    n1 ← idx mnc 1; n0 ← idx mnc 0;
    let b3 := Z.lor (u8 (bcd n1 ≪ 4)) (bcd n0) in
    Ok [b1; b2; b3].

Definition decodeMCCMNC (b : bytes) : res (bytes * bytes) :=
  d0 ← idx b 0; d1 ← idx b 1; d2 ← idx b 2;
  let mcc := fmt_nibble (Z.land d0 15) ++ fmt_nibble (Z.land (d0 ≫ 4) 15)
             ++ fmt_nibble (Z.land d1 15) in
  let mncD3 := Z.land (d1 ≫ 4) 15 in
  let mnc :=
    if mncD3 =? 15 then fmt_nibble (Z.land d2 15) ++ fmt_nibble (Z.land (d2 ≫ 4) 15)
    else fmt_nibble (Z.land d2 15) ++ fmt_nibble (Z.land (d2 ≫ 4) 15) ++ fmt_nibble mncD3 in
  Ok (mcc, mnc).

(** * 5GS mobile identity *)

Definition MobileIdentityNoIdentity : Z := 0.
Definition MobileIdentitySUCI : Z := 1.
Definition MobileIdentityGUTI : Z := 2.
Definition MobileIdentityTMSI : Z := 3.
Definition MobileIdentityIMEI : Z := 4.
Definition MobileIdentityIMEISV : Z := 5.

Record SUCIMobileIdentity := mkSUCI {
  SUPIFormat : Z;
  suci_MCC : bytes;
  suci_MNC : bytes;
  RoutingIndicator : bytes;
  ProtectionSchemeID : Z;
  HomeNetworkPublicKeyID : Z;
  SchemeOutput : bytes }.

Record GUTIMobileIdentity := mkGUTI {
  MCC : bytes;
  MNC : bytes;
  AMFRegionID : Z;
  AMFSetID : Z;
  AMFID : Z;
  TMSI : Z }.

Record MobileIdentity := mkMobileIdentity {
  mi_Type : Z;
  mi_SUCI : option SUCIMobileIdentity;
  mi_GUTI : option GUTIMobileIdentity;
  mi_IMEISV : bytes }.

#[global] Instance SUCI_eq_dec : EqDecision SUCIMobileIdentity.
Proof. solve_decision. Defined.
#[global] Instance GUTI_eq_dec : EqDecision GUTIMobileIdentity.
Proof. solve_decision. Defined.
#[global] Instance MobileIdentity_eq_dec : EqDecision MobileIdentity.
Proof. solve_decision. Defined.

Definition Encode5GGUTI (g : GUTIMobileIdentity) : res bytes :=
  plmn ← encodeMCCMNC (MCC g) (MNC g);
  let amfRef := Z.lor (u16 (Z.land (AMFSetID g) 1023 ≪ 6)) (Z.land (AMFID g) 63) in
  Ok ([Z.lor 240 MobileIdentityGUTI] ++ plmn ++ [AMFRegionID g]
      ++ [u8 (amfRef ≫ 8); u8 amfRef] ++ put_be32 (TMSI g)).

(** The digit loop of decodeIMEIDigits stops at the first nibble above 9. *)
Fixpoint take_digits (ds : list Z) : bytes :=
  match ds with
  | [] => []
  | d :: ds => if d >? 9 then [] else (48 + d) :: take_digits ds
  end.

Definition decodeIMEIDigits (b : bytes) : res bytes :=
  b0 ← idx b 0;
  rest ← slice_from b 1;
  Ok (take_digits ((b0 ≫ 4) :: rest ≫= λ oct, [Z.land oct 15; oct ≫ 4])).

Fixpoint routing_digits (nibs : list Z) (digits : bytes) : bytes :=
  match nibs with
  | [] => digits
  | nib :: nibs =>
      if nib =? 15 then (if (length digits =? 0)%nat then [48] else digits)
      else routing_digits nibs (digits ++ [u8 (48 + nib)])
  end.

Definition decodeRoutingIndicator (b : bytes) : bytes :=
  routing_digits (b ≫= λ byt, [Z.land byt 15; Z.land (byt ≫ 4) 15]) [].

Definition decodeSUCI (b : bytes) : res SUCIMobileIdentity :=
  if (length b <? 8)%nat then Err "nas: SUCI too short"
  else
    b0 ← idx b 0;
    plmn ← slice b 1 4;
    '(mcc, mnc) ← decodeMCCMNC plmn;
    ri ← slice b 4 6;
    b6 ← idx b 6; b7 ← idx b 7;
    out ← slice_from b 8;
    Ok {| SUPIFormat := Z.land (b0 ≫ 3) 7;
          suci_MCC := mcc; suci_MNC := mnc;
          RoutingIndicator := decodeRoutingIndicator ri;
          ProtectionSchemeID := Z.land b6 15;
          HomeNetworkPublicKeyID := b7;
          SchemeOutput := out |}.

Definition decodeGUTI (b : bytes) : res GUTIMobileIdentity :=
  if (length b <? 11)%nat then Err "nas: GUTI too short: %d"
  else
    plmn ← slice b 1 4;
    '(mcc, mnc) ← decodeMCCMNC plmn;
    b4 ← idx b 4; b5 ← idx b 5; b6 ← idx b 6;
    let amfRef := be16 b5 b6 in
    b7 ← idx b 7; b8 ← idx b 8; b9 ← idx b 9; b10 ← idx b 10;
    Ok {| MCC := mcc; MNC := mnc; AMFRegionID := b4;
          AMFSetID := amfRef ≫ 6; AMFID := u8 (Z.land amfRef 63);
          TMSI := be32 b7 b8 b9 b10 |}.

Definition DecodeMobileIdentity (b : bytes) : res MobileIdentity :=
  if (length b <? 1)%nat then Err "nas: mobile identity empty"
  else
    b0 ← idx b 0;
    let idType := Z.land b0 7 in
    if idType =? MobileIdentitySUCI then
      s ← decodeSUCI b; Ok (mkMobileIdentity idType (Some s) None [])
    else if idType =? MobileIdentityGUTI then
      g ← decodeGUTI b; Ok (mkMobileIdentity idType None (Some g) [])
    else if (idType =? MobileIdentityIMEI) || (idType =? MobileIdentityIMEISV) then
      d ← decodeIMEIDigits b; Ok (mkMobileIdentity idType None None d)
    else Ok (mkMobileIdentity idType None None []).

(** * NSSAI *)

Record SNSSAI := mkSNSSAI { SST : Z; SD : Z }.
#[global] Instance SNSSAI_eq_dec : EqDecision SNSSAI.
Proof. solve_decision. Defined.

Definition SDNotPresent : Z := 16777215.

(** [hex.DecodeString] of the Go standard library: [None] is an error. *)
Definition hexval (c : Z) : option Z :=
  if bool_decide (48 <= c <= 57) then Some (c - 48)
  else if bool_decide (97 <= c <= 102) then Some (c - 87)
  else if bool_decide (65 <= c <= 70) then Some (c - 55)
  else None.

Fixpoint hexDecode (s : bytes) : option bytes :=
  match s with
  | [] => Some []
  | [_] => None
  | a :: b :: s =>
      h ← hexval a; l ← hexval b; t ← hexDecode s; Some ((h * 16 + l) :: t)
  end.

Definition SDFromString (sd : bytes) : Z :=
  if (length sd =? 0)%nat then SDNotPresent
  else match hexDecode sd with
       | Some [b0; b1; b2] => be24 b0 b1 b2
       | _ => SDNotPresent
       end.

Definition encode_snssai (s : SNSSAI) : bytes :=
  if SD s =? SDNotPresent then [1; SST s]
  else [4; SST s; u8 (SD s ≫ 16); u8 (SD s ≫ 8); u8 (SD s)].

Definition EncodeNSSAI (n : list SNSSAI) : bytes := n ≫= encode_snssai.

(** The index loop of DecodeNSSAI. On a truncated entry the function returns
    the entries read so far together with the error; [b[i]] is read before
    the length of the entry is looked at, so it can panic. *)
Fixpoint nssai_loop (fuel : nat) (b : bytes) (i : nat) (n : list SNSSAI)
    : res (list SNSSAI * option string) :=
  if bool_decide (i < length b)%nat then
    match fuel with
    | O => OutOfFuel
    | S fuel =>
        l ← idx b i;
        let len := Z.to_nat l in
        let i := S i in
        if bool_decide (length b < i + len)%nat then Ok (n, Some "nas: NSSAI truncated")
        else
          sst ← idx b i;
          sd ← (if (len =? 4)%nat then
                  x ← idx b (i + 1); y ← idx b (i + 2); z ← idx b (i + 3);
                  Ok (be24 x y z)
                else Ok SDNotPresent);
          nssai_loop fuel b (i + len) (n ++ [mkSNSSAI sst sd])
    end
  else Ok (n, None).

Definition DecodeNSSAI (b : bytes) : res (list SNSSAI * option string) :=
  nssai_loop (length b) b 0 [].

(** * NAS key set identifier and security algorithms *)

Record NGKSI := mkNGKSI { KeySetIdentifier : Z; ngksi_Type : Z }.
#[global] Instance NGKSI_eq_dec : EqDecision NGKSI.
Proof. solve_decision. Defined.

Record NASSecurityAlgorithms := mkAlgs { CipheringAlgorithmID : Z; IntegrityAlgorithmID : Z }.
#[global] Instance Algs_eq_dec : EqDecision NASSecurityAlgorithms.
Proof. solve_decision. Defined.

Definition EncodeNASSecurityAlgorithms (a : NASSecurityAlgorithms) : Z :=
  Z.lor (u8 (CipheringAlgorithmID a ≪ 4)) (Z.land (IntegrityAlgorithmID a) 15).

Definition DecodeNASSecurityAlgorithms (b : Z) : NASSecurityAlgorithms :=
  mkAlgs (Z.land (b ≫ 4) 15) (Z.land b 15).

(** * UE security capability *)

(** The codec neither sets nor reads EA4..EA7 and IA4..IA7. *)
Record UESecurityCapability := mkSecCap {
  EA0 : bool; EA1 : bool; EA2 : bool; EA3 : bool; EA4 : bool; EA5 : bool; EA6 : bool; EA7 : bool;
  IA0 : bool; IA1 : bool; IA2 : bool; IA3 : bool; IA4 : bool; IA5 : bool; IA6 : bool; IA7 : bool;
  Raw : bytes }.
#[global] Instance SecCap_eq_dec : EqDecision UESecurityCapability.
Proof. solve_decision. Defined.

Definition emptySecCap : UESecurityCapability :=
  mkSecCap false false false false false false false false
    false false false false false false false false [].

Definition bit_set (b m : Z) : bool := negb (Z.land b m =? 0).

Definition DecodeUESecurityCapability (b : bytes) : res UESecurityCapability :=
  if (length b <? 2)%nat then Err "nas: UE sec cap too short"
  else
    b0 ← idx b 0; b1 ← idx b 1;
    Ok {| EA0 := bit_set b0 128; EA1 := bit_set b0 64;
          EA2 := bit_set b0 32; EA3 := bit_set b0 16;
          EA4 := false; EA5 := false; EA6 := false; EA7 := false;
          IA0 := bit_set b1 128; IA1 := bit_set b1 64;
          IA2 := bit_set b1 32; IA3 := bit_set b1 16;
          IA4 := false; IA5 := false; IA6 := false; IA7 := false;
          Raw := b |}.

Definition or_if (c : bool) (m b : Z) : Z := if c then Z.lor b m else b.

Definition EncodeUESecurityCapability (c : UESecurityCapability) : bytes :=
  if (0 <? length (Raw c))%nat then Raw c
  else [ or_if (EA3 c) 16 (or_if (EA2 c) 32 (or_if (EA1 c) 64 (or_if (EA0 c) 128 0)));
         or_if (IA3 c) 16 (or_if (IA2 c) 32 (or_if (IA1 c) 64 (or_if (IA0 c) 128 0))) ].

(** * Nibbles and digits *)

Lemma nib_pack hi lo : 0 <= hi < 16 → 0 <= lo < 16 → Z.lor (u8 (hi ≪ 4)) lo = hi * 16 + lo.
Proof.
  intros. rewrite u8_small by (bitfield; unfold is_u8; lia).
  by rewrite lor_shiftl_add by lia.
Qed.

Lemma nib_lo hi lo : 0 <= hi < 16 → 0 <= lo < 16 → Z.land (hi * 16 + lo) 15 = lo.
Proof. intros. bitfield. dlia. Qed.

Lemma nib_hi hi lo : 0 <= hi < 16 → 0 <= lo < 16 → Z.land ((hi * 16 + lo) ≫ 4) 15 = hi.
Proof. intros. bitfield. dlia. Qed.

Lemma bcd_range c : 0 <= bcd c < 10.
Proof. unfold bcd. case_bool_decide; [|lia]. unfold u8. rewrite Z.mod_small; lia. Qed.

Lemma fmt_nibble_bcd c : is_digit c → fmt_nibble (bcd c) = [c].
Proof.
  unfold is_digit, bcd, fmt_nibble. intros. rewrite bool_decide_eq_true_2 by lia.
  rewrite u8_small by (unfold is_u8; lia).
  destruct (Z.ltb_spec (c - 48) 10); [|lia]. f_equal. lia.
Qed.

(** A well-formed PLMN: three MCC digits and two or three MNC digits. *)
Definition plmn_ok (mcc mnc : bytes) : Prop :=
  length mcc = 3%nat ∧ (length mnc = 2%nat ∨ length mnc = 3%nat)
  ∧ Forall is_digit mcc ∧ Forall is_digit mnc.
#[global] Instance plmn_ok_dec mcc mnc : Decision (plmn_ok mcc mnc).
Proof. unfold plmn_ok. apply _. Defined.

Lemma encodeMCCMNC_roundtrip mcc mnc :
  plmn_ok mcc mnc →
  ∃ b0 b1 b2, encodeMCCMNC mcc mnc = Ok [b0; b1; b2]
    ∧ bytes_ok [b0; b1; b2]
    ∧ decodeMCCMNC [b0; b1; b2] = Ok (mcc, mnc).
Proof.
  intros (Hmcc & Hmnc & Hd & He).
  destruct mcc as [|c0 [|c1 [|c2 [|]]]]; try done.
  apply Forall_cons in Hd as [D0 Hd]. apply Forall_cons in Hd as [D1 Hd].
  apply Forall_cons in Hd as [D2 _].
  pose proof (bcd_range c0). pose proof (bcd_range c1). pose proof (bcd_range c2).
  destruct mnc as [|n0 [|n1 mnc]]; [simpl in *; lia..|].
  apply Forall_cons in He as [E0 He]. apply Forall_cons in He as [E1 He].
  pose proof (bcd_range n0). pose proof (bcd_range n1).
  destruct mnc as [|n2 [|]]; [|apply Forall_cons in He as [E2 _]|simpl in *; lia].
  - exists (bcd c1 * 16 + bcd c0), (15 * 16 + bcd c2), (bcd n1 * 16 + bcd n0).
    unfold encodeMCCMNC. simpl. rewrite !nib_pack by lia.
    split_and!; [done|unfold bytes_ok, is_u8; repeat constructor; lia|].
    unfold decodeMCCMNC. simpl. rewrite !nib_lo, !nib_hi by lia. simpl.
    by rewrite !fmt_nibble_bcd.
  - pose proof (bcd_range n2).
    exists (bcd c1 * 16 + bcd c0), (bcd n2 * 16 + bcd c2), (bcd n1 * 16 + bcd n0).
    unfold encodeMCCMNC. simpl. rewrite !nib_pack by lia.
    split_and!; [done|unfold bytes_ok, is_u8; repeat constructor; lia|].
    unfold decodeMCCMNC. simpl. rewrite !nib_lo, !nib_hi by lia.
    destruct (Z.eqb_spec (bcd n2) 15); [lia|]. by rewrite !fmt_nibble_bcd.
Qed.

(** * Round trip of the 5G-GUTI *)

Definition guti_ok (g : GUTIMobileIdentity) : Prop :=
  plmn_ok (MCC g) (MNC g) ∧ is_u8 (AMFRegionID g) ∧ 0 <= AMFSetID g < 1024
  ∧ 0 <= AMFID g < 64 ∧ is_u32 (TMSI g).
#[global] Instance guti_ok_dec g : Decision (guti_ok g).
Proof. unfold guti_ok. apply _. Defined.

Lemma Encode5GGUTI_Ok g :
  guti_ok g →
  ∃ b, Encode5GGUTI g = Ok b ∧ length b = 11%nat ∧ bytes_ok b
    ∧ DecodeMobileIdentity b = Ok (mkMobileIdentity MobileIdentityGUTI None (Some g) []).
Proof.
  intros (Hp & Hr & Hs & Hi & Ht).
  destruct (encodeMCCMNC_roundtrip _ _ Hp) as (b0 & b1 & b2 & He & Hb & Hd).
  unfold Encode5GGUTI. rewrite He. simpl.
  assert (Hset : Z.land (AMFSetID g) 1023 = AMFSetID g) by (bitfield; dlia).
  assert (Hid : Z.land (AMFID g) 63 = AMFID g) by (bitfield; dlia).
  rewrite Hset, Hid.
  assert (Hu : u16 (AMFSetID g ≪ 6) = AMFSetID g ≪ 6) by (apply u16_small; bitfield; unfold is_u16; lia).
  rewrite Hu, lor_shiftl_add by (simpl; lia).
  set (ref := AMFSetID g * 2 ^ 6 + AMFID g).
  assert (Href : is_u16 ref) by (unfold ref, is_u16; simpl; lia).
  eexists. split_and!; [done|done| |].
  - unfold bytes_ok, put_be32 in *. repeat (apply Forall_cons; split); auto using u8_range.
    all: try (unfold is_u8; simpl; lia).
    all: repeat match goal with H : Forall _ (_ :: _) |- _ => apply Forall_cons in H as [? ?] end; done.
  - unfold DecodeMobileIdentity, decodeGUTI, slice. simpl.
    unfold decodeMCCMNC in Hd |- *. simpl in Hd |- *. injection Hd as Hm Hn.
    rewrite Hm, Hn, be16_split, be32_split by done.
    assert (ref ≫ 6 = AMFSetID g) as -> by (unfold ref; bitfield; dlia).
    assert (u8 (Z.land ref 63) = AMFID g) as ->
      by (unfold ref; bitfield; unfold u8; dlia).
    by destruct g.
Qed.

(** ** The mobile-identity decoder returns on every input *)

Lemma DecodeMobileIdentity_safe b : safe (DecodeMobileIdentity b).
Proof.
  unfold DecodeMobileIdentity. destruct b as [|x b]; [done|]. simpl.
  repeat case_match; try done.
  - unfold decodeSUCI. destruct (Nat.ltb_spec (length (x :: b)) 8) as [|Hl]; [done|].
    do 7 (destruct b as [|? b]; [simpl in Hl; lia|]). clear Hl. unfold slice_from, slice. simpl.
    rewrite !decide_True by (simpl; lia). done.
  - unfold decodeGUTI. destruct (Nat.ltb_spec (length (x :: b)) 11) as [|Hl]; [done|].
    do 10 (destruct b as [|? b]; [simpl in Hl; lia|]). clear Hl. done.
  - unfold decodeIMEIDigits. simpl. by rewrite slice_from_Ok by (simpl; lia).
Qed.

(** * The NSSAI loop *)

(** The S-NSSAI an entry of length [len] yields from the octets after the
    length octet. *)
Definition nssai_entry (len : nat) (rest : bytes) : res SNSSAI :=
  sst ← idx rest 0;
  sd ← (if (len =? 4)%nat then
          x ← idx rest 1; y ← idx rest 2; z ← idx rest 3; Ok (be24 x y z)
        else Ok SDNotPresent);
  Ok (mkSNSSAI sst sd).

Lemma idx_mid {A} (pre b : list A) l i j :
  j = S (length pre + i) → idx (pre ++ l :: b) j = idx b i.
Proof.
  intros ->. unfold idx. rewrite lookup_app_r by lia.
  by replace (S (length pre + i) - length pre)%nat with (S i) by lia.
Qed.

(** One iteration, seen from the octets not yet read. *)
Lemma nssai_loop_cons fuel pre l rest n :
  nssai_loop (S fuel) (pre ++ l :: rest) (length pre) n =
  let len := Z.to_nat l in
  if bool_decide (length rest < len)%nat then Ok (n, Some "nas: NSSAI truncated")
  else
    s ← nssai_entry len rest;
    nssai_loop fuel ((pre ++ l :: take len rest) ++ drop len rest)
      (length (pre ++ l :: take len rest)) (n ++ [s]).
Proof.
  cbv zeta. simpl nssai_loop. rewrite bool_decide_eq_true_2 by (rewrite length_app; simpl; lia).
  assert (idx (pre ++ l :: rest) (length pre) = Ok l) as ->
    by (unfold idx; by rewrite list_lookup_middle). simpl.
  rewrite (bool_decide_ext _ (length rest < Z.to_nat l)%nat) by (rewrite length_app; simpl; lia).
  destruct (bool_decide (length rest < Z.to_nat l)%nat) eqn:Hl; [done|].
  apply bool_decide_eq_false_1 in Hl. unfold nssai_entry.
  rewrite (idx_mid pre rest l 0 (S (length pre))), (idx_mid pre rest l 1 (S (length pre + 1))),
    (idx_mid pre rest l 2 (S (length pre + 2))), (idx_mid pre rest l 3 (S (length pre + 3))) by lia.
  replace ((pre ++ l :: take (Z.to_nat l) rest) ++ drop (Z.to_nat l) rest) with (pre ++ l :: rest)
    by (rewrite <- !app_assoc; simpl; by rewrite take_drop).
  replace (length (pre ++ l :: take (Z.to_nat l) rest)) with (S (length pre + Z.to_nat l))
    by (rewrite !length_app; simpl; rewrite length_take; lia).
  destruct (idx rest 0); simpl; try done.
  destruct (Z.to_nat l =? 4)%nat; simpl; [|done].
  destruct (idx rest 1); simpl; try done. destruct (idx rest 2); simpl; try done.
  by destruct (idx rest 3).
Qed.

Lemma nssai_loop_nil fuel pre n : nssai_loop fuel (pre ++ []) (length pre) n = Ok (n, None).
Proof. destruct fuel; simpl; rewrite bool_decide_eq_false_2; [done| |done|]; rewrite app_nil_r; lia. Qed.

(** The octet strings whose last entry is a bare zero length octet. *)
Inductive nssai_zero_end : bytes → Prop :=
| nze_last : nssai_zero_end [0]
| nze_entry l v rest :
    length v = Z.to_nat l → nssai_zero_end rest → nssai_zero_end (l :: v ++ rest).

Lemma nssai_entry_Ok len rest :
  (len <= length rest)%nat → rest ≠ [] → ∃ s, nssai_entry len rest = Ok s.
Proof.
  intros Hl Hne. unfold nssai_entry. destruct rest as [|x rest]; [done|]. simpl.
  destruct (Nat.eqb_spec len 4) as [->|]; [|eauto].
  do 3 (destruct rest as [|? rest]; [simpl in Hl; lia|]). simpl. eauto.
Qed.

Lemma nssai_zero_end_entry l v rest :
  length v = Z.to_nat l → nssai_zero_end (l :: v ++ rest) ↔ (l = 0 ∧ rest = []) ∨ nssai_zero_end rest.
Proof.
  intros Hv. split; [|intros [[-> ->]|H]].
  - intros H. remember (l :: v ++ rest) as b eqn:Hb. destruct H as [|l' v' rest' Hv' Hr].
    + left. by destruct v; simplify_eq/=.
    + right. injection Hb as -> Happ. apply app_inj_1 in Happ as [_ <-]; [done|lia].
  - destruct v; [constructor|done].
  - by constructor.
Qed.

Lemma nssai_loop_cases fuel pre rest n :
  bytes_ok rest → (length rest <= fuel)%nat →
  match nssai_loop fuel (pre ++ rest) (length pre) n with
  | Ok _ => ¬ nssai_zero_end rest
  | Panic => nssai_zero_end rest
  | Err _ | OutOfFuel => False
  end.
Proof.
  revert pre rest n. induction fuel as [|fuel IH]; intros pre rest n Hok Hf.
  - destruct rest; [|simpl in Hf; lia]. rewrite nssai_loop_nil. by inversion 1.
  - destruct rest as [|l rest]; [rewrite nssai_loop_nil; by inversion 1|].
    apply Forall_cons in Hok as [Hl8 Hok]. unfold is_u8 in Hl8.
    rewrite nssai_loop_cons. cbv zeta. case_bool_decide as Hl.
    { inversion 1; subst; simpl in *; [lia|]. rewrite length_app in Hl. lia. }
    destruct (decide (rest = [])) as [->|Hne].
    { simpl in *. replace l with 0 by lia. constructor. }
    destruct (nssai_entry_Ok (Z.to_nat l) rest) as [s ->]; [lia|done|]. simpl.
    assert (Hzr : nssai_zero_end (l :: rest) ↔ nssai_zero_end (drop (Z.to_nat l) rest)).
    { rewrite <- (take_drop (Z.to_nat l) rest) at 1.
      rewrite nssai_zero_end_entry by (rewrite length_take; lia). split; [|by right].
      intros [[-> Hd]|]; [|done]. by rewrite drop_0 in Hd. }
    specialize (IH (pre ++ l :: take (Z.to_nat l) rest) (drop (Z.to_nat l) rest) (n ++ [s])).
    specialize (IH ltac:(by apply Forall_drop) ltac:(rewrite length_drop; simpl in Hf; lia)).
    case_match; rewrite ?Hzr; done.
Qed.

(** * Round trip of the NSSAI *)

Definition snssai_ok (s : SNSSAI) : Prop := is_u8 (SST s) ∧ 0 <= SD s < 16777216.
#[global] Instance snssai_ok_dec s : Decision (snssai_ok s).
Proof. unfold snssai_ok. apply _. Defined.

Lemma EncodeNSSAI_cons s l : EncodeNSSAI (s :: l) = encode_snssai s ++ EncodeNSSAI l.
Proof. done. Qed.

Arguments EncodeNSSAI : simpl never.

Lemma nssai_loop_encode fuel pre l n :
  Forall snssai_ok l → (length (EncodeNSSAI l) <= fuel)%nat →
  nssai_loop fuel (pre ++ EncodeNSSAI l) (length pre) n = Ok (n ++ l, None).
Proof.
  revert fuel pre n. induction l as [|s l IH]; intros fuel pre n Hok Hf.
  { unfold EncodeNSSAI. simpl. by rewrite nssai_loop_nil, app_nil_r. }
  apply Forall_cons in Hok as [[Hs Hd] Hok]. rewrite EncodeNSSAI_cons in *.
  unfold encode_snssai in *.
  destruct (Z.eqb_spec (SD s) SDNotPresent) as [Heq|Hne]; simpl in *;
    (destruct fuel as [|fuel]; [lia|]); rewrite nssai_loop_cons; cbv zeta;
    rewrite bool_decide_eq_false_2 by (simpl; lia); unfold nssai_entry; simpl.
  - rewrite take_0, drop_0, IH; [|done|lia]. rewrite <- app_assoc. simpl.
    rewrite <- Heq. by destruct s.
  - rewrite be24_split by done. rewrite take_0, drop_0, IH; [|done|lia].
    rewrite <- app_assoc. simpl. by destruct s.
Qed.

Lemma DecodeNSSAI_EncodeNSSAI l :
  Forall snssai_ok l → DecodeNSSAI (EncodeNSSAI l) = Ok (l, None).
Proof. intros. by apply (nssai_loop_encode _ [] l []). Qed.

(** ** Security algorithms and capability *)

Lemma DecodeNASSecurityAlgorithms_Encode a :
  0 <= CipheringAlgorithmID a < 16 → 0 <= IntegrityAlgorithmID a < 16 →
  DecodeNASSecurityAlgorithms (EncodeNASSecurityAlgorithms a) = a.
Proof.
  intros. unfold DecodeNASSecurityAlgorithms, EncodeNASSecurityAlgorithms.
  assert (Z.land (IntegrityAlgorithmID a) 15 = IntegrityAlgorithmID a) as -> by (bitfield; dlia).
  rewrite nib_pack, nib_hi, nib_lo by done. by destruct a.
Qed.

(** The AMF replays exactly the octets the UE sent. *)
Lemma EncodeUESecurityCapability_Decode b c :
  DecodeUESecurityCapability b = Ok c → EncodeUESecurityCapability c = b.
Proof.
  unfold DecodeUESecurityCapability. destruct b as [|x [|y b]]; try done. simpl. intros [= <-]. done.
Qed.

Lemma DecodeUESecurityCapability_safe b : safe (DecodeUESecurityCapability b).
Proof. destruct b as [|? [|? ?]]; done. Qed.
