(* ===== verification/NasRegistration.v ===== *)
(** Registration Request, Accept and Reject (shared/nas/registration.go). *)

From S2P Require Import Prelude NasReader NasIE.

(** * Registration Request *)

(** The optional IEs the decoder skips (non-current ngKSI, last visited TAI,
    S1 UE network capability, ...) stay nil in the source; they are left out. *)
Record RegistrationRequest := mkRegistrationRequest {
  RegistrationType : Z;
  FollowOnRequest : bool;
  rr_NGKSI : NGKSI;
  rr_MobileIdentity : MobileIdentity;
  FiveGMMCapability : bytes;
  rr_UESecurityCapability : option UESecurityCapability;
  RequestedNSSAI : option (list SNSSAI) }.

#[global] Instance RegistrationRequest_eq_dec : EqDecision RegistrationRequest.
Proof. solve_decision. Defined.

Definition IEI5GMMCapability : Z := 0x10.
Definition IEIUESecurityCapability : Z := 0x2E.
Definition IEIRequestedNSSAI : Z := 0x2F.
Definition IEIPDUSessionStatus : Z := 0x50.
Definition IEIAdditionalGUTI : Z := 0x77.
Definition IEIEPSNASMsgContainer : Z := 0x70.
Definition IEILADNIndication : Z := 0x74.
Definition IEIPayloadContainerReg : Z := 0x7B.
Definition IEINASMessageContainer : Z := 0x71.

Definition set_FiveGMMCapability v (r : RegistrationRequest) : RegistrationRequest :=
  mkRegistrationRequest (RegistrationType r) (FollowOnRequest r) (rr_NGKSI r) (rr_MobileIdentity r)
    v (rr_UESecurityCapability r) (RequestedNSSAI r).
Definition set_rr_UESecurityCapability v (r : RegistrationRequest) : RegistrationRequest :=
  mkRegistrationRequest (RegistrationType r) (FollowOnRequest r) (rr_NGKSI r) (rr_MobileIdentity r)
    (FiveGMMCapability r) (Some v) (RequestedNSSAI r).
Definition set_RequestedNSSAI v (r : RegistrationRequest) : RegistrationRequest :=
  mkRegistrationRequest (RegistrationType r) (FollowOnRequest r) (rr_NGKSI r) (rr_MobileIdentity r)
    (FiveGMMCapability r) (rr_UESecurityCapability r) (Some v).

Definition is_reg_tlve (iei : Z) : bool :=
  (iei =? IEINASMessageContainer) || (iei =? IEIEPSNASMsgContainer)
  || (iei =? IEIAdditionalGUTI) || (iei =? IEIPayloadContainerReg)
  || (iei =? IEILADNIndication) || (iei =? 0x7E).

(** One optional IE. The [break]s of the TLV-E and default cases leave only the
    switch, so the loop goes on. *)
Definition regreq_body (r : Reader) (s : RegistrationRequest) : res (ctl RegistrationRequest) :=
  match ReadByte r with
  | (_, None) => Ok (Stop s)
  | (r, Some iei) =>
      if iei =? IEI5GMMCapability then
        '(r, l) ← must_byte r;
        '(r, v) ← must_bytes r (Z.to_nat l);
        Ok (Next r (set_FiveGMMCapability v s))
      else if iei =? IEIUESecurityCapability then
        '(r, l) ← must_byte r;
        '(r, capBytes) ← must_bytes r (Z.to_nat l);
        cap ← DecodeUESecurityCapability capBytes;
        Ok (Next r (set_rr_UESecurityCapability cap s))
      else if iei =? IEIRequestedNSSAI then
        '(r, l) ← must_byte r;
        '(r, nssaiBytes) ← must_bytes r (Z.to_nat l);
        '(nssai, err) ← DecodeNSSAI nssaiBytes;
        match err with
        | Some e => Err e
        | None => Ok (Next r (set_RequestedNSSAI nssai s))
        end
      else if is_reg_tlve iei then
        match ReadByte r with
        | (r, None) => Ok (Next r s)
        | (r, Some hi) =>
            match ReadByte r with
            | (r, None) => Ok (Next r s)
            | (r, Some lo) => Ok (Next (ReadBytes r (Z.to_nat (be16 hi lo))).1 s)
            end
        end
      else if iei <? 0x80 then
        match ReadByte r with
        | (r, None) => Ok (Next r s)
        | (r, Some l) => Ok (Next (ReadBytes r (Z.to_nat l)).1 s)
        end
      else Ok (Next r s)
  end.

Definition DecodeRegistrationRequest (b : bytes) : res RegistrationRequest :=
  if (length b <? 3)%nat then Err "nas: RegistrationRequest too short: %d"
  else
    '(rdr, combined) ← must_byte (NewReader b);
    '(rdr, miHi) ← must_byte rdr;
    '(rdr, miLo) ← must_byte rdr;
    '(rdr, miBytes) ← must_bytes rdr (Z.to_nat (be16 miHi miLo));
    mi ← DecodeMobileIdentity miBytes;
    for_reader 1 regreq_body rdr
      {| RegistrationType := Z.land combined 7;
         FollowOnRequest := Z.land (combined ≫ 3) 1 =? 1;
         rr_NGKSI := mkNGKSI (Z.land (combined ≫ 4) 7) (Z.land (combined ≫ 7) 1);
         rr_MobileIdentity := mi;
         FiveGMMCapability := []; rr_UESecurityCapability := None; RequestedNSSAI := None |}.

(** * Registration Accept *)

(** The fields the source declares but neither encodes nor decodes (equivalent
    PLMNs, rejected NSSAI, LADN information, ...) are left out. *)
Record RegistrationAccept := mkRegistrationAccept {
  RegistrationResult : Z;
  FiveGGUTI : option MobileIdentity;
  TAIList : bytes;
  AllowedNSSAI : option (list SNSSAI);
  ConfiguredNSSAI : option (list SNSSAI);
  NetworkFeatureSupport : bytes;
  T3512Value : option Z }.

#[global] Instance RegistrationAccept_eq_dec : EqDecision RegistrationAccept.
Proof. solve_decision. Defined.

Definition ra_FiveGGUTI v (a : RegistrationAccept) : RegistrationAccept :=
  mkRegistrationAccept (RegistrationResult a) v (TAIList a) (AllowedNSSAI a) (ConfiguredNSSAI a)
    (NetworkFeatureSupport a) (T3512Value a).
Definition ra_TAIList v (a : RegistrationAccept) : RegistrationAccept :=
  mkRegistrationAccept (RegistrationResult a) (FiveGGUTI a) v (AllowedNSSAI a) (ConfiguredNSSAI a)
    (NetworkFeatureSupport a) (T3512Value a).
Definition ra_AllowedNSSAI v (a : RegistrationAccept) : RegistrationAccept :=
  mkRegistrationAccept (RegistrationResult a) (FiveGGUTI a) (TAIList a) v (ConfiguredNSSAI a)
    (NetworkFeatureSupport a) (T3512Value a).
Definition ra_ConfiguredNSSAI v (a : RegistrationAccept) : RegistrationAccept :=
  mkRegistrationAccept (RegistrationResult a) (FiveGGUTI a) (TAIList a) (AllowedNSSAI a) v
    (NetworkFeatureSupport a) (T3512Value a).
Definition ra_NetworkFeatureSupport v (a : RegistrationAccept) : RegistrationAccept :=
  mkRegistrationAccept (RegistrationResult a) (FiveGGUTI a) (TAIList a) (AllowedNSSAI a)
    (ConfiguredNSSAI a) v (T3512Value a).
Definition ra_T3512Value v (a : RegistrationAccept) : RegistrationAccept :=
  mkRegistrationAccept (RegistrationResult a) (FiveGGUTI a) (TAIList a) (AllowedNSSAI a)
    (ConfiguredNSSAI a) (NetworkFeatureSupport a) v.

(** GPRS Timer 3; [/] and [mod] of Go truncate, so the divisions are [Z.quot]
    and [Z.rem]. *)
Definition EncodeGPRSTimer3 (seconds : Z) : Z :=
  if seconds =? 0 then 0
  else if (Z.rem seconds 3600 =? 0) && (1 <=? Z.quot seconds 3600) && (Z.quot seconds 3600 <=? 31) then
    Z.lor (u8 (1 ≪ 5)) (u8 (Z.quot seconds 3600))
  else if (Z.rem seconds 600 =? 0) && (1 <=? Z.quot seconds 600) && (Z.quot seconds 600 <=? 31) then
    Z.lor (u8 (0 ≪ 5)) (u8 (Z.quot seconds 600))
  else if (Z.rem seconds 60 =? 0) && (1 <=? Z.quot seconds 60) && (Z.quot seconds 60 <=? 31) then
    Z.lor (u8 (5 ≪ 5)) (u8 (Z.quot seconds 60))
  else if (Z.rem seconds 30 =? 0) && (1 <=? Z.quot seconds 30) && (Z.quot seconds 30 <=? 31) then
    Z.lor (u8 (4 ≪ 5)) (u8 (Z.quot seconds 30))
  else if (Z.rem seconds 2 =? 0) && (1 <=? Z.quot seconds 2) && (Z.quot seconds 2 <=? 31) then
    Z.lor (u8 (3 ≪ 5)) (u8 (Z.quot seconds 2))
  else
    let mins := Z.quot seconds 60 in
    let mins := if mins >? 31 then 31 else mins in
    let mins := if mins =? 0 then 1 else mins in
    Z.lor (u8 (5 ≪ 5)) (u8 mins).

Definition NewNetworkFeatureSupport (imsVoPS3GPP : bool) : bytes :=
  [if imsVoPS3GPP then 1 else 0; 0].

(** [None] is the nil slice returned for an empty TAC set. *)
Definition EncodeTAIList (mcc mnc : bytes) (tacs : list Z) : res (option bytes) :=
  if (length tacs =? 0)%nat then Ok None
  else
    let tacs := if (16 <? length tacs)%nat then take 16 tacs else tacs in
    plmn ← encodeMCCMNC mcc mnc;
    Ok (Some ([Z.land (u8 (Z.of_nat (length tacs) - 1)) 0x1F] ++ plmn
              ++ (tacs ≫= λ tac, [u8 (tac ≫ 16); u8 (tac ≫ 8); u8 tac]))).

(** The 5G-GUTI is written only when both pointers are non-nil. *)
Definition guti_of (mi : option MobileIdentity) : option GUTIMobileIdentity := mi ≫= mi_GUTI.

Definition EncodeRegistrationAccept (ra : RegistrationAccept) : res bytes :=
  guti ← (match guti_of (FiveGGUTI ra) with
          | Some g => gutiBytes ← Encode5GGUTI g; Ok (tlve 0x77 gutiBytes)
          | None => Ok []
          end);
  Ok ([0x01; RegistrationResult ra]
      ++ guti
      ++ (if (0 <? length (TAIList ra))%nat then tlv 0x54 (TAIList ra) else [])
      ++ (match AllowedNSSAI ra with Some n => tlv 0x15 (EncodeNSSAI n) | None => [] end)
      ++ (match ConfiguredNSSAI ra with Some n => tlv 0x31 (EncodeNSSAI n) | None => [] end)
      ++ (if (0 <? length (NetworkFeatureSupport ra))%nat
          then tlv 0x21 (NetworkFeatureSupport ra) else [])
      ++ (match T3512Value ra with Some v => [0x5E; 0x01; v] | None => [] end)).

(** [mi, _ := DecodeMobileIdentity(b)]: nil on error. *)
Definition mi_or_nil (m : res MobileIdentity) : res (option MobileIdentity) :=
  match m with
  | Ok mi => Ok (Some mi)
  | Err _ => Ok None
  | Panic => Panic
  | OutOfFuel => OutOfFuel
  end.

Definition regacc_body (r : Reader) (s : RegistrationAccept) : res (ctl RegistrationAccept) :=
  match ReadByte r with
  | (_, None) => Ok (Stop s)
  | (r, Some iei) =>
      if iei =? 0x77 then
        let '(r, gutiBytes) := ReadLVE r in
        mi ← mi_or_nil (DecodeMobileIdentity (or_nil gutiBytes));
        Ok (Next r (ra_FiveGGUTI mi s))
      else if iei =? 0x54 then
        let '(r, v) := ReadLV r in Ok (Next r (ra_TAIList (or_nil v) s))
      else if iei =? 0x15 then
        let '(r, v) := ReadLV r in
        '(nssai, _) ← DecodeNSSAI (or_nil v);
        Ok (Next r (ra_AllowedNSSAI (Some nssai) s))
      else if iei =? 0x31 then
        let '(r, v) := ReadLV r in
        '(nssai, _) ← DecodeNSSAI (or_nil v);
        Ok (Next r (ra_ConfiguredNSSAI (Some nssai) s))
      else if iei =? 0x21 then
        let '(r, v) := ReadLV r in Ok (Next r (ra_NetworkFeatureSupport (or_nil v) s))
      else if iei =? 0x5E then
        let '(r, v) := ReadLV r in
        Ok (Next r (match or_nil v with v :: _ => ra_T3512Value (Some v) s | [] => s end))
      else if iei <? 0x80 then
        match ReadByte r with
        | (r, None) => Ok (Next r s)
        | (r, Some l) => Ok (Next (ReadBytes r (Z.to_nat l)).1 s)
        end
      else Ok (Next r s)
  end.

Definition DecodeRegistrationAccept (b : bytes) : res RegistrationAccept :=
  if (length b <? 2)%nat then Err "nas: RegistrationAccept too short"
  else
    let '(rdr, val) := ReadLV (NewReader b) in
    for_reader 1 regacc_body rdr
      (mkRegistrationAccept (match or_nil val with v :: _ => v | [] => 0 end)
         None [] None None [] None).

(** * Registration Reject *)

Record RegistrationReject := mkRegistrationReject { rej_Cause5GMM : Z }.
#[global] Instance RegistrationReject_eq_dec : EqDecision RegistrationReject.
Proof. solve_decision. Defined.

Definition EncodeRegistrationReject (r : RegistrationReject) : res bytes := Ok [rej_Cause5GMM r].

(** * Termination *)

Lemma regreq_consumes : consumes 1 regreq_body.
Proof. solve_consumes regreq_body. Qed.

Lemma regacc_consumes : consumes 1 regacc_body.
Proof. solve_consumes regacc_body. Qed.

(** * The Registration Request decoder against the message grammar

    The optional part of a Registration Request as the list of elements TS
    24.501 Table 8.2.6.1.1 composes it of. *)

Inductive regreq_ie : Type :=
| IE_capability (v : bytes)
| IE_security (b0 b1 : Z) (more : bytes)
| IE_nssai (n : list SNSSAI)
| IE_tlve (iei : Z) (v : bytes)
| IE_tlv (iei : Z) (v : bytes)
| IE_tv (iei : Z).

Definition ie_ok (e : regreq_ie) : Prop :=
  match e with
  | IE_capability v => Z.of_nat (length v) < 256
  | IE_security b0 b1 more => is_u8 b0 ∧ is_u8 b1 ∧ Z.of_nat (length more) < 254
  | IE_nssai n => Forall snssai_ok n ∧ Z.of_nat (length (EncodeNSSAI n)) < 256
  | IE_tlve iei v => is_reg_tlve iei = true ∧ Z.of_nat (length v) < 65536
  | IE_tlv iei v =>
      is_reg_tlve iei = false ∧ 0 <= iei < 0x80 ∧ Z.of_nat (length v) < 256
      ∧ iei ≠ IEI5GMMCapability ∧ iei ≠ IEIUESecurityCapability ∧ iei ≠ IEIRequestedNSSAI
  | IE_tv iei => 0x80 <= iei < 256
  end.

Definition ie_octets (e : regreq_ie) : bytes :=
  match e with
  | IE_capability v => tlv IEI5GMMCapability v
  | IE_security b0 b1 more => tlv IEIUESecurityCapability (b0 :: b1 :: more)
  | IE_nssai n => tlv IEIRequestedNSSAI (EncodeNSSAI n)
  | IE_tlve iei v => tlve iei v
  | IE_tlv iei v => tlv iei v
  | IE_tv iei => [iei]
  end.

(** What an element contributes to the message: the last of several wins. *)
Definition ie_apply (s : RegistrationRequest) (e : regreq_ie) : RegistrationRequest :=
  match e with
  | IE_capability v => set_FiveGMMCapability v s
  | IE_security b0 b1 more =>
      set_rr_UESecurityCapability
        {| EA0 := bit_set b0 128; EA1 := bit_set b0 64; EA2 := bit_set b0 32; EA3 := bit_set b0 16;
           EA4 := false; EA5 := false; EA6 := false; EA7 := false;
           IA0 := bit_set b1 128; IA1 := bit_set b1 64; IA2 := bit_set b1 32; IA3 := bit_set b1 16;
           IA4 := false; IA5 := false; IA6 := false; IA7 := false;
           Raw := b0 :: b1 :: more |} s
  | IE_nssai n => set_RequestedNSSAI n s
  | _ => s
  end.

#[global] Instance ie_ok_dec e : Decision (ie_ok e).
Proof. destruct e; simpl; apply _. Defined.

Lemma regreq_ie_parses s e : ie_ok e → parses 1 regreq_body s (ie_octets e) (ie_apply s e).
Proof.
  intros Hok. apply parses_step; [lia|apply regreq_consumes|destruct e; simpl; lia|].
  intros pre rest. unfold regreq_body.
  destruct e as [v|b0 b1 more|n|iei v|iei v|iei]; cbn [ie_octets ie_apply ie_ok] in *;
    try unfold tlv at 1; try unfold tlve at 1; cbn [app]; rewrite ReadByte_cons.
  - simpl. rewrite must_LV_iei by done. done.
  - change (IEIUESecurityCapability =? IEI5GMMCapability) with false.
    change (IEIUESecurityCapability =? IEIUESecurityCapability) with true. cbv iota.
    change (b0 :: b1 :: more ++ rest) with ((b0 :: b1 :: more) ++ rest).
    rewrite (must_LV_iei _ _ (b0 :: b1 :: more)) by (simpl; lia). done.
  - change (IEIRequestedNSSAI =? IEI5GMMCapability) with false.
    change (IEIRequestedNSSAI =? IEIUESecurityCapability) with false.
    change (IEIRequestedNSSAI =? IEIRequestedNSSAI) with true. cbv iota.
    destruct Hok. rewrite must_LV_iei by done. by rewrite DecodeNSSAI_EncodeNSSAI.
  - destruct Hok as [Hi Hl]. unfold is_reg_tlve in *.
    destruct (Z.eqb_spec iei IEI5GMMCapability) as [->|_]; [done|].
    destruct (Z.eqb_spec iei IEIUESecurityCapability) as [->|_]; [done|].
    destruct (Z.eqb_spec iei IEIRequestedNSSAI) as [->|_]; [done|].
    rewrite Hi, !ReadByte_cons. rewrite be16_split by (unfold is_u16; lia).
    rewrite Nat2Z.id, ReadBytes_app by done. unfold tlve. by rewrite <- !app_assoc.
  - destruct Hok as (Hi & Hr & Hl & H1 & H2 & H3).
    rewrite !(proj2 (Z.eqb_neq iei _)), Hi by done.
    destruct (Z.ltb_spec iei 0x80); [|lia]. rewrite ReadByte_cons.
    rewrite u8_small by (unfold is_u8; lia).
    rewrite Nat2Z.id, ReadBytes_app by done. unfold tlv. rewrite u8_small by (unfold is_u8; lia).
    by rewrite <- !app_assoc.
  - unfold is_reg_tlve, IEI5GMMCapability, IEIUESecurityCapability, IEIRequestedNSSAI,
      IEINASMessageContainer, IEIEPSNASMsgContainer, IEIAdditionalGUTI, IEIPayloadContainerReg,
      IEILADNIndication.
    rewrite !(proj2 (Z.eqb_neq iei _)) by lia. simpl.
    destruct (Z.ltb_spec iei 0x80); [lia|done].
Qed.

Lemma regreq_ies_parses s es :
  Forall ie_ok es → parses 1 regreq_body s (es ≫= ie_octets) (foldl ie_apply s es).
Proof.
  intros Hok. revert s. induction Hok as [|e es He Hes IH]; intros s; [apply parses_nil|].
  simpl. eapply parses_app; [by apply regreq_ie_parses|apply IH].
Qed.

(** The message before its optional part. *)
Definition regreq_init (combined : Z) (mi : MobileIdentity) : RegistrationRequest :=
  {| RegistrationType := Z.land combined 7;
     FollowOnRequest := Z.land (combined ≫ 3) 1 =? 1;
     rr_NGKSI := mkNGKSI (Z.land (combined ≫ 4) 7) (Z.land (combined ≫ 7) 1);
     rr_MobileIdentity := mi;
     FiveGMMCapability := []; rr_UESecurityCapability := None; RequestedNSSAI := None |}.

(** The mandatory part: octet 4 and the LV-E mobile identity. *)
Definition regreq_header (combined : Z) (mi : bytes) : bytes :=
  combined :: u8 (Z.of_nat (length mi) ≫ 8) :: u8 (Z.of_nat (length mi)) :: mi.

Lemma DecodeRegistrationRequest_header combined mi m opt :
  Z.of_nat (length mi) < 65536 → DecodeMobileIdentity mi = Ok m →
  DecodeRegistrationRequest (regreq_header combined mi ++ opt)
  = for_reader 1 regreq_body (rd (regreq_header combined mi) opt) (regreq_init combined m).
Proof.
  intros Hl Hm. unfold DecodeRegistrationRequest, regreq_header. simpl.
  set (hi := u8 (_ ≫ 8)). set (lo := u8 (Z.of_nat _)).
  change (mkReader _ 3) with (rd [combined; hi; lo] (mi ++ opt)). unfold hi at 2, lo at 2.
  rewrite be16_split by (unfold is_u16; lia). rewrite Nat2Z.id, must_bytes_app by done. simpl. by rewrite Hm.
Qed.

(** The Registration Request decoder reads the whole grammar of
    TS 24.501 Table 8.2.6.1.1: on a mandatory part followed by any sequence of
    well-formed optional elements, in any order and known or not, it returns the
    fields of the mandatory part updated by each element in turn. *)
Lemma DecodeRegistrationRequest_ies combined mi m es :
  Z.of_nat (length mi) < 65536 → DecodeMobileIdentity mi = Ok m → Forall ie_ok es →
  DecodeRegistrationRequest (regreq_header combined mi ++ (es ≫= ie_octets))
  = Ok (foldl ie_apply (regreq_init combined m) es).
Proof.
  intros Hl Hm Hes. rewrite (DecodeRegistrationRequest_header _ _ m) by done.
  apply for_reader_parses; [lia|apply regreq_consumes|by apply regreq_ies_parses].
Qed.

(** ** The run-time panic of the Requested NSSAI *)

Lemma DecodeNSSAI_cases b : bytes_ok b →
  match DecodeNSSAI b with
  | Ok _ => ¬ nssai_zero_end b
  | Panic => nssai_zero_end b
  | Err _ | OutOfFuel => False
  end.
Proof. intros. by apply (nssai_loop_cases (length b) [] b []). Qed.

Lemma DecodeNSSAI_panic b : bytes_ok b → nssai_zero_end b → DecodeNSSAI b = Panic.
Proof. intros Hb Hz. pose proof (DecodeNSSAI_cases b Hb). by destruct (DecodeNSSAI b). Qed.

Lemma regreq_body_nssai_panic pre v rest s :
  bytes_ok v → Z.of_nat (length v) < 256 → nssai_zero_end v →
  regreq_body (rd pre (tlv IEIRequestedNSSAI v ++ rest)) s = Panic.
Proof.
  intros Hb Hl Hz. unfold regreq_body. unfold tlv at 1. cbn [app]. rewrite ReadByte_cons.
  change (IEIRequestedNSSAI =? IEI5GMMCapability) with false.
  change (IEIRequestedNSSAI =? IEIUESecurityCapability) with false.
  change (IEIRequestedNSSAI =? IEIRequestedNSSAI) with true. cbv iota.
  rewrite must_LV_iei by done. by rewrite DecodeNSSAI_panic.
Qed.

(** A Registration Request that carries, after any well-formed optional
    elements, a Requested NSSAI whose value ends in a bare zero length octet
    makes the decoder index past the end of the value: the run panics, whatever
    follows. *)
Lemma DecodeRegistrationRequest_nssai_panic combined mi m es v rest :
  Z.of_nat (length mi) < 65536 → DecodeMobileIdentity mi = Ok m → Forall ie_ok es →
  bytes_ok v → Z.of_nat (length v) < 256 → nssai_zero_end v →
  DecodeRegistrationRequest
    (regreq_header combined mi ++ (es ≫= ie_octets) ++ tlv IEIRequestedNSSAI v ++ rest) = Panic.
Proof.
  intros Hl Hm Hes Hb Hv Hz. rewrite (DecodeRegistrationRequest_header _ _ m) by done.
  rewrite (regreq_ies_parses _ es Hes).
  rewrite for_reader_step by (lia || apply regreq_consumes).
  rewrite bool_decide_eq_true_2 by (rewrite Len_rd; simpl; lia).
  by rewrite regreq_body_nssai_panic.
Qed.

Lemma regreq_body_data r s r' s' : regreq_body r s = Ok (Next r' s') → data r' = data r.
Proof. revert r s r' s'. solve_data regreq_body. Qed.

(** The octets hold an NSSAI element (Requested, Allowed or Configured) whose
    value ends in a bare zero length octet. *)
Definition nssai_bomb (b : bytes) : Prop :=
  ∃ pre iei l v post, b = pre ++ iei :: l :: v ++ post
    ∧ iei ∈ [IEIRequestedNSSAI; 0x15; 0x31] ∧ nssai_zero_end v.

Lemma nssai_bomb_suffix n b : nssai_bomb (drop n b) → nssai_bomb b.
Proof.
  intros (pre & iei & l & v & post & Hb & Hi & Hz). exists (take n b ++ pre), iei, l, v, post.
  split_and!; [|done|done]. rewrite <- app_assoc, <- Hb. by rewrite take_drop.
Qed.

(** Decoding the value of an NSSAI element at a known place of the message. *)
Lemma DecodeNSSAI_bomb b pre iei l v post :
  bytes_ok b → b = pre ++ iei :: l :: v ++ post → iei ∈ [IEIRequestedNSSAI; 0x15; 0x31] →
  panics_only (nssai_bomb b) (DecodeNSSAI v).
Proof.
  intros Hb Heq Hi. assert (Hv : bytes_ok v).
  { rewrite Heq in Hb. apply Forall_app in Hb as [_ Hb]. do 2 apply Forall_cons in Hb as [_ Hb].
    by apply Forall_app in Hb as [Hb _]. }
  pose proof (DecodeNSSAI_cases v Hv) as Hc. destruct (DecodeNSSAI v); simpl; try done.
  exists pre, iei, l, v, post. done.
Qed.

Lemma regreq_body_bad r s :
  bytes_ok (data r) → panics_only (nssai_bomb (data r)) (regreq_body r s).
Proof.
  intros Hb. unfold regreq_body. destruct (ReadByte r) as [r1 [iei|]] eqn:E1; [|done].
  destruct (iei =? IEI5GMMCapability).
  { apply safe_panics_only. split_safe. }
  destruct (iei =? IEIUESecurityCapability).
  { apply safe_panics_only. do 2 (apply safe_bind; [eauto with go|]; intros [? ?] _).
    apply safe_bind; [apply DecodeUESecurityCapability_safe|done]. }
  destruct (Z.eqb_spec iei IEIRequestedNSSAI) as [->|];
    [|apply safe_panics_only; by repeat case_match].
  apply panics_only_bind; [apply safe_panics_only; eauto with go|]. intros [r2 l] E2.
  apply panics_only_bind; [apply safe_panics_only; eauto with go|]. intros [r3 v] E3.
  apply panics_only_bind; [|intros [n [e|]] _; done].
  apply ReadByte_split in E1 as [_ R1]. apply must_byte_split in E2 as [_ R2].
  apply must_bytes_split in E3 as (_ & R3 & _).
  apply (DecodeNSSAI_bomb _ (take (pos r) (data r)) IEIRequestedNSSAI l v (Remaining r3));
    [done| |left].
  rewrite <- R3, <- R2, <- R1. unfold Remaining. by rewrite take_drop.
Qed.

Lemma DecodeRegistrationRequest_panics_only b :
  bytes_ok b → panics_only (nssai_bomb b) (DecodeRegistrationRequest b).
Proof.
  intros Hb. unfold DecodeRegistrationRequest. destruct (length b <? 3)%nat; [done|].
  do 3 (apply panics_only_bind; [apply safe_panics_only; eauto with go|]; intros [? ?] ?).
  apply panics_only_bind; [apply safe_panics_only; eauto with go|]. intros [rr v] ?.
  apply panics_only_bind; [apply safe_panics_only; apply DecodeMobileIdentity_safe|]. intros mi _.
  repeat match goal with
  | E : must_byte _ = Ok (_, _) |- _ => apply must_byte_split in E as [? _]
  | E : must_bytes _ _ = Ok (_, _) |- _ => apply must_bytes_split in E as (? & _ & _)
  end.
  assert (Hr : data rr = b) by (change b with (data (NewReader b)); congruence).
  rewrite <- Hr in *. apply for_reader_panics_only; [lia|apply regreq_consumes| | |done].
  - apply regreq_body_data.
  - intros. by apply regreq_body_bad.
Qed.

(** The same for the Registration Accept, whose decoder ignores short reads. *)
Lemma ReadLV_nssai r r1 iei v r2 :
  bytes_ok (data r) → ReadByte r = (r1, Some iei) → ReadLV r1 = (r2, v) →
  iei ∈ [IEIRequestedNSSAI; 0x15; 0x31] →
  panics_only (nssai_bomb (data r)) (DecodeNSSAI (or_nil v)).
Proof.
  intros Hb [D1 R1]%ReadByte_split E Hi. destruct v as [v|]; [|done].
  apply ReadLV_split in E as (D2 & l & [R2| ->]); [|done].
  apply (DecodeNSSAI_bomb _ (take (pos r) (data r)) iei l v (Remaining r2)); [done| |done].
  rewrite <- R2, <- R1. unfold Remaining. by rewrite take_drop.
Qed.

Lemma mi_or_nil_safe b : safe (mi_or_nil (DecodeMobileIdentity b)).
Proof. pose proof (DecodeMobileIdentity_safe b). by destruct (DecodeMobileIdentity b). Qed.

Lemma DecodeRegistrationAccept_panics_only b :
  bytes_ok b → panics_only (nssai_bomb b) (DecodeRegistrationAccept b).
Proof.
  intros Hb. unfold DecodeRegistrationAccept. destruct (length b <? 2)%nat; [done|].
  pose proof (ReadLV_data (NewReader b)) as Hd. destruct (ReadLV (NewReader b)) as [r v]. simpl in Hd.
  change (data (NewReader b)) with b in Hd. rewrite <- Hd in *.
  apply for_reader_panics_only; [lia|apply regacc_consumes| | |done].
  - solve_data regacc_body.
  - clear. intros r s Hb. unfold regacc_body. destruct (ReadByte r) as [r1 [iei|]] eqn:E1; [|done].
    destruct (iei =? 0x77).
    { apply safe_panics_only. destruct (ReadLVE r1). apply safe_bind; [apply mi_or_nil_safe|done]. }
    destruct (iei =? 0x54); [by destruct (ReadLV r1)|].
    destruct (Z.eqb_spec iei 0x15) as [->|].
    { destruct (ReadLV r1) as [r2 w] eqn:E2. apply panics_only_bind; [|by intros [? ?] _].
      eapply ReadLV_nssai; [done..|]. do 2 constructor. }
    destruct (Z.eqb_spec iei 0x31) as [->|].
    { destruct (ReadLV r1) as [r2 w] eqn:E2. apply panics_only_bind; [|by intros [? ?] _].
      eapply ReadLV_nssai; [done..|]. do 3 constructor. }
    apply safe_panics_only. by repeat case_match.
Qed.

(** * Round trip of the Registration Accept *)

Definition nssai_ie_ok (o : option (list SNSSAI)) : Prop :=
  match o with
  | Some n => Forall snssai_ok n ∧ Z.of_nat (length (EncodeNSSAI n)) < 256
  | None => True
  end.
#[global] Instance nssai_ie_ok_dec o : Decision (nssai_ie_ok o).
Proof. destruct o; simpl; apply _. Defined.

(** A message the AMF builds: a 5G-GUTI identity if any, and elements that fit
    a one-octet length. *)
Definition regacc_ok (ra : RegistrationAccept) : Prop :=
  (match FiveGGUTI ra with
   | None => True
   | Some mi => match mi_GUTI mi with
                | Some g => guti_ok g ∧ mi = mkMobileIdentity MobileIdentityGUTI None (Some g) []
                | None => False
                end
   end)
  ∧ Z.of_nat (length (TAIList ra)) < 256
  ∧ nssai_ie_ok (AllowedNSSAI ra) ∧ nssai_ie_ok (ConfiguredNSSAI ra)
  ∧ Z.of_nat (length (NetworkFeatureSupport ra)) < 256.
#[global] Instance regacc_ok_dec ra : Decision (regacc_ok ra).
Proof.
  unfold regacc_ok. destruct (FiveGGUTI ra) as [[? ? [?|] ?]|]; simpl; apply _.
Defined.

(** One element of the message, wherever it starts. *)
Lemma regacc_step s iei v s' :
  Z.of_nat (length v) < 256 →
  (∀ pre rest, regacc_body (rd pre (tlv iei v ++ rest)) s = Ok (Next (rd (pre ++ tlv iei v) rest) s')) →
  parses 1 regacc_body s (tlv iei v) s'.
Proof. intros. apply parses_step; [lia|apply regacc_consumes|simpl; lia|done]. Qed.

Ltac regacc_ie :=
  intros pre rest; unfold regacc_body; unfold tlv at 1; cbn [app];
  rewrite ReadByte_cons; simpl; rewrite ReadLV_iei by done.

Lemma regacc_tai s v :
  Z.of_nat (length v) < 256 → parses 1 regacc_body s (tlv 0x54 v) (ra_TAIList v s).
Proof. intros. apply regacc_step; [done|]. by regacc_ie. Qed.

Lemma regacc_nfs s v :
  Z.of_nat (length v) < 256 → parses 1 regacc_body s (tlv 0x21 v) (ra_NetworkFeatureSupport v s).
Proof. intros. apply regacc_step; [done|]. by regacc_ie. Qed.

Lemma regacc_allowed s n :
  nssai_ie_ok (Some n) →
  parses 1 regacc_body s (tlv 0x15 (EncodeNSSAI n)) (ra_AllowedNSSAI (Some n) s).
Proof.
  intros [Hn Hl]. apply regacc_step; [done|]. regacc_ie. simpl.
  by rewrite DecodeNSSAI_EncodeNSSAI.
Qed.

Lemma regacc_configured s n :
  nssai_ie_ok (Some n) →
  parses 1 regacc_body s (tlv 0x31 (EncodeNSSAI n)) (ra_ConfiguredNSSAI (Some n) s).
Proof.
  intros [Hn Hl]. apply regacc_step; [done|]. regacc_ie. simpl.
  by rewrite DecodeNSSAI_EncodeNSSAI.
Qed.

Lemma regacc_t3512 s v : parses 1 regacc_body s [0x5E; 0x01; v] (ra_T3512Value (Some v) s).
Proof.
  apply (regacc_step s 0x5E [v]); [done|]. intros pre rest. unfold regacc_body.
  change (tlv 0x5E [v] ++ rest) with (0x5E :: u8 (Z.of_nat (length [v])) :: [v] ++ rest).
  rewrite ReadByte_cons. cbv iota beta. simpl (_ =? _). cbv iota.
  rewrite (ReadLV_iei pre 0x5E [v]) by done. done.
Qed.

Lemma regacc_guti s v m :
  Z.of_nat (length v) < 65536 → DecodeMobileIdentity v = Ok m →
  parses 1 regacc_body s (tlve 0x77 v) (ra_FiveGGUTI (Some m) s).
Proof.
  intros Hl Hm. apply parses_step; [lia|apply regacc_consumes|simpl; lia|].
  intros pre rest. unfold regacc_body. unfold tlve at 1. cbn [app].
  rewrite ReadByte_cons. simpl. rewrite ReadLVE_iei by done. simpl. by rewrite Hm.
Qed.

Lemma regacc_guti_part ra s :
  regacc_ok ra → FiveGGUTI s = None →
  ∃ guti, match guti_of (FiveGGUTI ra) with
          | Some g => gutiBytes ← Encode5GGUTI g; Ok (tlve 0x77 gutiBytes)
          | None => Ok []
          end = Ok guti
    ∧ parses 1 regacc_body s guti (ra_FiveGGUTI (FiveGGUTI ra) s).
Proof.
  intros (Hg & _) Hs. unfold guti_of. destruct (FiveGGUTI ra) as [mi|]; simpl.
  - destruct (mi_GUTI mi) as [g|]; [|done]. destruct Hg as [Hg ->].
    destruct (Encode5GGUTI_Ok g Hg) as (b & -> & Hlen & _ & Hdec). simpl.
    eexists. split; [done|]. apply regacc_guti; [lia|done].
  - exists []. split; [done|]. destruct s; simpl in *; subst. apply parses_nil.
Qed.

Lemma DecodeRegistrationAccept_lv v opt :
  DecodeRegistrationAccept (0x01 :: v :: opt)
  = for_reader 1 regacc_body (rd [0x01; v] opt) (mkRegistrationAccept v None [] None None [] None).
Proof.
  unfold DecodeRegistrationAccept. change (_ <? 2)%nat with false. cbv iota.
  change (NewReader (0x01 :: v :: opt))
    with (rd [] (u8 (Z.of_nat (length [v])) :: [v] ++ opt)).
  by rewrite (ReadLV_app [] [v] opt).
Qed.

Lemma DecodeRegistrationAccept_Encode ra :
  regacc_ok ra →
  ∃ b, EncodeRegistrationAccept ra = Ok b ∧ DecodeRegistrationAccept b = Ok ra.
Proof.
  intros Hok. destruct (regacc_guti_part ra
    (mkRegistrationAccept (RegistrationResult ra) None [] None None [] None) Hok eq_refl)
    as (guti & He & Hp).
  destruct Hok as (_ & Ht & Ha & Hc & Hn).
  unfold EncodeRegistrationAccept. rewrite He. simpl. eexists. split; [done|].
  rewrite DecodeRegistrationAccept_lv.
  set (st t a c n v := mkRegistrationAccept (RegistrationResult ra) (FiveGGUTI ra) t a c n v).
  replace (Ok ra) with (Ok (st (TAIList ra) (AllowedNSSAI ra) (ConfiguredNSSAI ra)
    (NetworkFeatureSupport ra) (T3512Value ra))) by (by destruct ra).
  apply for_reader_parses; [lia|apply regacc_consumes|].
  eapply (parses_app _ _ _ _ (st [] None None [] None)); [exact Hp|].
  eapply (parses_app _ _ _ _ (st (TAIList ra) None None [] None)).
  { apply parses_if; [intros _; by apply (regacc_tai (st _ _ _ _ _))|by destruct (TAIList ra)]. }
  eapply (parses_app _ _ _ _ (st (TAIList ra) (AllowedNSSAI ra) None [] None)).
  { apply (parses_opt _ _ (AllowedNSSAI ra) _ _ (λ o, st (TAIList ra) o None [] None)); [done|].
    intros n E. rewrite E in Ha. by apply (regacc_allowed (st _ _ _ _ _)). }
  eapply (parses_app _ _ _ _ (st (TAIList ra) (AllowedNSSAI ra) (ConfiguredNSSAI ra) [] None)).
  { apply (parses_opt _ _ (ConfiguredNSSAI ra) _ _
      (λ o, st (TAIList ra) (AllowedNSSAI ra) o [] None)); [done|].
    intros n E. rewrite E in Hc. by apply (regacc_configured (st _ _ _ _ _)). }
  eapply (parses_app _ _ _ _
    (st (TAIList ra) (AllowedNSSAI ra) (ConfiguredNSSAI ra) (NetworkFeatureSupport ra) None)).
  { apply parses_if; [intros _; by apply (regacc_nfs (st _ _ _ _ _))
                     |by destruct (NetworkFeatureSupport ra)]. }
  apply (parses_opt _ _ (T3512Value ra) _ (λ v, [0x5E; 0x01; v])
    (λ o, st (TAIList ra) (AllowedNSSAI ra) (ConfiguredNSSAI ra) (NetworkFeatureSupport ra) o));
    [done|].
  intros v _. apply (regacc_t3512 (st _ _ _ _ _)).
Qed.

(** * GPRS Timer 3

    The duration a UE reads off the octet (TS 24.008 10.5.7.4a). *)
Definition gprs3_seconds (b : Z) : Z :=
  let v := Z.land b 31 in
  match b ≫ 5 with
  | 0 => 600 * v | 1 => 3600 * v | 2 => 36000 * v | 3 => 2 * v
  | 4 => 30 * v | 5 => 60 * v | 6 => 1152000 * v | _ => 0
  end.

(** The units the encoder tries, and the durations one of them expresses. *)
Definition gprs3_units : list Z := [3600; 600; 60; 30; 2].
Definition gprs3_exact (s : Z) : Prop := Exists (λ u, s mod u = 0 ∧ 1 <= s / u <= 31) gprs3_units.
#[global] Instance gprs3_exact_dec s : Decision (gprs3_exact s).
Proof. unfold gprs3_exact. apply _. Defined.

Lemma gprs3_field u v :
  0 <= u < 8 → 0 <= v < 32 → Z.lor (u8 (u ≪ 5)) (u8 v) = u * 32 + v.
Proof.
  intros. rewrite (u8_small v) by (unfold is_u8; lia).
  rewrite u8_small by (bitfield; unfold is_u8; lia). by rewrite lor_shiftl_add by lia.
Qed.

Lemma gprs3_seconds_field u v k :
  0 <= v < 32 → In (u, k) [(0, 600); (1, 3600); (3, 2); (4, 30); (5, 60)] →
  is_u8 (u * 32 + v) ∧ gprs3_seconds (u * 32 + v) = k * v.
Proof.
  intros Hv Hin. unfold gprs3_seconds. bitfield. cbv zeta.
  assert (0 <= u < 8 ∧ match u with
    | 0 => 600 * v | 1 => 3600 * v | 2 => 36000 * v | 3 => 2 * v
    | 4 => 30 * v | 5 => 60 * v | 6 => 1152000 * v | _ => 0 end = k * v) as [Hu Hk].
  { simpl in Hin. repeat destruct Hin as [[= <- <-]|Hin]; done. }
  replace ((u * 32 + v) / 32) with u by dlia. replace ((u * 32 + v) mod 32) with v by dlia.
  split; [unfold is_u8; lia|done].
Qed.

(** The GPRS timer 3 octet the AMF sends stands for exactly the
    requested duration when one of the encoder's units divides it, and otherwise
    for the whole minutes in it, truncated and kept between 1 and 31. *)
Lemma EncodeGPRSTimer3_value s :
  0 < s →
  is_u8 (EncodeGPRSTimer3 s)
  ∧ gprs3_seconds (EncodeGPRSTimer3 s)
    = if bool_decide (gprs3_exact s) then s else 60 * Z.max 1 (Z.min 31 (s / 60)).
Proof.
  intros Hs. unfold EncodeGPRSTimer3.
  rewrite !Z.rem_mod_nonneg, !Z.quot_div_nonneg by lia.
  destruct (Z.eqb_spec s 0); [lia|].
  repeat match goal with
  | |- context [if ((s mod ?u =? 0) && (1 <=? s / ?u) && (s / ?u <=? 31))%bool then Z.lor (u8 (?c ≪ 5)) _ else _] =>
      let Hu := fresh "Hu" in
      destruct ((s mod u =? 0) && (1 <=? s / u) && (s / u <=? 31))%bool eqn:Hu;
      [ rewrite !andb_true_iff, Z.eqb_eq, !Z.leb_le in Hu; rewrite gprs3_field by lia;
        destruct (gprs3_seconds_field c (s / u) u) as [? ->]; [lia|simpl; tauto|];
        split; [done|]; rewrite bool_decide_eq_true_2; [pose proof (Z.div_mod s u ltac:(lia)); lia|];
        apply Exists_exists; exists u; split; [unfold gprs3_units; rewrite !elem_of_cons; tauto|lia]
      | rewrite !andb_false_iff, Z.eqb_neq, !Z.leb_gt in Hu ]
  end.
  rewrite bool_decide_eq_false_2.
  2:{ unfold gprs3_exact, gprs3_units. rewrite !Exists_cons, Exists_nil. lia. }
  cbv zeta. set (m := s / 60).
  assert (Hm : (let mins := if m >? 31 then 31 else m in if mins =? 0 then 1 else mins)
     = Z.max 1 (Z.min 31 m)).
  { cbv zeta. assert (0 <= m) by (unfold m; dlia).
    destruct (Z.gtb_spec m 31); [rewrite Z.min_l by lia; done|].
    destruct (Z.eqb_spec m 0); lia. }
  cbv zeta in Hm. rewrite Hm, gprs3_field by lia.
  apply gprs3_seconds_field; [lia|simpl; tauto].
Qed.
