(* ===== verification/NasSecurity.v ===== *)
(** Authentication, identity and security-mode messages
    (shared/nas/auth_security.go), with the round trips of the messages the AMF
    both encodes and decodes and the replay of the UE's security capability. *)

From S2P Require Import Prelude NasReader NasIE NasRegistration.

(** * Authentication Request *)

(** [auth_ABBA] is a [2]byte, [RAND] and [AUTN] are [16]byte arrays. *)
Record AuthenticationRequest := mkAuthenticationRequest {
  auth_NGKSI : NGKSI;
  auth_ABBA : bytes;
  RAND : bytes;
  AUTN : bytes;
  auth_EAPMessage : bytes }.
#[global] Instance AuthenticationRequest_eq_dec : EqDecision AuthenticationRequest.
Proof. solve_decision. Defined.

(** spare(4) | type(1) | value(3) *)
Definition encode_ngksi (k : NGKSI) : Z :=
  Z.lor (u8 (Z.land (ngksi_Type k) 1 ≪ 3)) (Z.land (KeySetIdentifier k) 7).
Definition decode_ngksi (b : Z) : NGKSI := mkNGKSI (Z.land b 7) (Z.land (b ≫ 3) 1).

(** The encoder writes no EAP message. *)
Definition EncodeAuthenticationRequest (ar : AuthenticationRequest) : res bytes :=
  Ok ([encode_ngksi (auth_NGKSI ar)]
      ++ [u8 (Z.of_nat (length (auth_ABBA ar)))] ++ auth_ABBA ar
      ++ [0x21] ++ RAND ar
      ++ [0x20; 0x10] ++ AUTN ar).

Definition set_RAND v (a : AuthenticationRequest) : AuthenticationRequest :=
  mkAuthenticationRequest (auth_NGKSI a) (auth_ABBA a) v (AUTN a) (auth_EAPMessage a).
Definition set_AUTN v (a : AuthenticationRequest) : AuthenticationRequest :=
  mkAuthenticationRequest (auth_NGKSI a) (auth_ABBA a) (RAND a) v (auth_EAPMessage a).
Definition set_auth_EAPMessage v (a : AuthenticationRequest) : AuthenticationRequest :=
  mkAuthenticationRequest (auth_NGKSI a) (auth_ABBA a) (RAND a) (AUTN a) v.

Definition authreq_body (r : Reader) (s : AuthenticationRequest) : res (ctl AuthenticationRequest) :=
  match ReadByte r with
  | (_, None) => Ok (Stop s)
  | (r, Some iei) =>
      if iei =? 0x21 then
        let '(r, v) := ReadBytes r 16 in Ok (Next r (set_RAND (go_copy (RAND s) (or_nil v)) s))
      else if iei =? 0x20 then
        let '(r, v) := ReadLV r in Ok (Next r (set_AUTN (go_copy (AUTN s) (or_nil v)) s))
      else if iei =? 0x78 then
        let '(r, v) := ReadLVE r in Ok (Next r (set_auth_EAPMessage (or_nil v) s))
      else let '(r, _) := ReadLV r in Ok (Next r s)
  end.

Definition zeros (n : nat) : bytes := replicate n 0.

(** The ABBA is kept only when its length octet and at least two octets of it
    could be read. *)
Definition read_abba (r : Reader) : Reader * bytes :=
  match ReadByte r with
  | (r, None) => (r, zeros 2)
  | (r, Some l) =>
      let '(r, v) := ReadBytes r (Z.to_nat l) in
      (r, match or_nil v with a :: b :: _ => [a; b] | _ => zeros 2 end)
  end.

Definition DecodeAuthenticationRequest (b : bytes) : res AuthenticationRequest :=
  if (length b <? 1)%nat then Err "nas: AuthenticationRequest too short"
  else
    let '(rdr, ngksi) := ReadByte (NewReader b) in
    let '(rdr, abba) := read_abba rdr in
    for_reader 1 authreq_body rdr
      (mkAuthenticationRequest (decode_ngksi (or0 ngksi)) abba (zeros 16) (zeros 16) []).

(** * Authentication Response and Failure *)

Record AuthenticationResponse := mkAuthenticationResponse { RES : bytes; resp_EAPMessage : bytes }.
#[global] Instance AuthenticationResponse_eq_dec : EqDecision AuthenticationResponse.
Proof. solve_decision. Defined.

Definition authresp_body (r : Reader) (s : AuthenticationResponse) : res (ctl AuthenticationResponse) :=
  match ReadByte r with
  | (_, None) => Ok (Stop s)
  | (r, Some iei) =>
      if iei =? 0x2D then
        let '(r, v) := ReadLV r in
        Ok (Next r (mkAuthenticationResponse (or_nil v) (resp_EAPMessage s)))
      else if iei =? 0x78 then
        let '(r, v) := ReadLVE r in Ok (Next r (mkAuthenticationResponse (RES s) (or_nil v)))
      else let '(r, _) := ReadLV r in Ok (Next r s)
  end.

Definition DecodeAuthenticationResponse (b : bytes) : res AuthenticationResponse :=
  for_reader 1 authresp_body (NewReader b) (mkAuthenticationResponse [] []).

Record AuthenticationFailure := mkAuthenticationFailure { af_Cause5GMM : Z; AUTS : bytes }.
#[global] Instance AuthenticationFailure_eq_dec : EqDecision AuthenticationFailure.
Proof. solve_decision. Defined.

Definition authfail_body (r : Reader) (s : AuthenticationFailure) : res (ctl AuthenticationFailure) :=
  match ReadByte r with
  | (_, None) => Ok (Stop s)
  | (r, Some iei) =>
      let '(r, v) := ReadLV r in
      Ok (Next r (if iei =? 0x30 then mkAuthenticationFailure (af_Cause5GMM s) (or_nil v) else s))
  end.

Definition DecodeAuthenticationFailure (b : bytes) : res AuthenticationFailure :=
  if (length b <? 1)%nat then Err "nas: AuthenticationFailure empty"
  else
    let '(rdr, cause) := ReadByte (NewReader b) in
    for_reader 1 authfail_body rdr (mkAuthenticationFailure (or0 cause) []).

(** * Identity Request and Response *)

Record IdentityRequest := mkIdentityRequest { IdentityType : Z }.
#[global] Instance IdentityRequest_eq_dec : EqDecision IdentityRequest.
Proof. solve_decision. Defined.

Definition EncodeIdentityRequest (ir : IdentityRequest) : res bytes := Ok [Z.land (IdentityType ir) 7].

Definition DecodeIdentityRequest (b : bytes) : res IdentityRequest :=
  if (length b <? 1)%nat then Err "nas: IdentityRequest empty"
  else b0 ← idx b 0; Ok (mkIdentityRequest (Z.land b0 7)).

Definition DecodeIdentityResponse (b : bytes) : res MobileIdentity :=
  if (length b <? 3)%nat then Err "nas: IdentityResponse too short"
  else
    b0 ← idx b 0; b1 ← idx b 1;
    let l := Z.to_nat (be16 b0 b1) in
    if (length b <? 2 + l)%nat then Err "nas: IdentityResponse truncated: need %d got %d"
    else v ← slice b 2 (2 + l); DecodeMobileIdentity v.

(** * Security Mode Command, Reject and Complete *)

Record SecurityModeCommand := mkSecurityModeCommand {
  SelectedNASSecurityAlgorithms : NASSecurityAlgorithms;
  smc_NGKSI : NGKSI;
  ReplayedUESecurityCapabilities : UESecurityCapability;
  IMEISVRequest : option Z;
  Additional5GSecurityInfo : option Z;
  smc_NASMessageContainer : bytes }.
#[global] Instance SecurityModeCommand_eq_dec : EqDecision SecurityModeCommand.
Proof. solve_decision. Defined.

Definition EncodeSecurityModeCommand (smc : SecurityModeCommand) : res bytes :=
  let caps := EncodeUESecurityCapability (ReplayedUESecurityCapabilities smc) in
  Ok ([EncodeNASSecurityAlgorithms (SelectedNASSecurityAlgorithms smc)]
      ++ [encode_ngksi (smc_NGKSI smc)]
      ++ [u8 (Z.of_nat (length caps))] ++ caps
      ++ (match IMEISVRequest smc with Some v => [Z.lor 0xE0 (Z.land v 7)] | None => [] end)
      ++ (match Additional5GSecurityInfo smc with Some v => [0x36; 0x01; v] | None => [] end)
      ++ (if (0 <? length (smc_NASMessageContainer smc))%nat
          then tlve 0x71 (smc_NASMessageContainer smc) else [])).

Definition set_IMEISVRequest v (s : SecurityModeCommand) : SecurityModeCommand :=
  mkSecurityModeCommand (SelectedNASSecurityAlgorithms s) (smc_NGKSI s)
    (ReplayedUESecurityCapabilities s) v (Additional5GSecurityInfo s) (smc_NASMessageContainer s).
Definition set_Additional5GSecurityInfo v (s : SecurityModeCommand) : SecurityModeCommand :=
  mkSecurityModeCommand (SelectedNASSecurityAlgorithms s) (smc_NGKSI s)
    (ReplayedUESecurityCapabilities s) (IMEISVRequest s) v (smc_NASMessageContainer s).
Definition set_smc_NASMessageContainer v (s : SecurityModeCommand) : SecurityModeCommand :=
  mkSecurityModeCommand (SelectedNASSecurityAlgorithms s) (smc_NGKSI s)
    (ReplayedUESecurityCapabilities s) (IMEISVRequest s) (Additional5GSecurityInfo s) v.

Definition smc_body (r : Reader) (s : SecurityModeCommand) : res (ctl SecurityModeCommand) :=
  match ReadByte r with
  | (_, None) => Ok (Stop s)
  | (r, Some iei) =>
      if iei ≫ 4 =? 0xE then Ok (Next r (set_IMEISVRequest (Some (Z.land iei 7)) s))
      else if iei =? 0x36 then
        let '(r, v) := ReadLV r in
        Ok (Next r (match or_nil v with v :: _ => set_Additional5GSecurityInfo (Some v) s | [] => s end))
      else if iei =? 0x71 then
        let '(r, v) := ReadLVE r in Ok (Next r (set_smc_NASMessageContainer (or_nil v) s))
      else if iei <? 0x80 then let '(r, _) := ReadLV r in Ok (Next r s)
      else Ok (Next r s)
  end.

(** [cap, _ := DecodeUESecurityCapability(b)]: the zero value on error. *)
Definition cap_or_zero (m : res UESecurityCapability) : res UESecurityCapability :=
  match m with Err _ => Ok emptySecCap | _ => m end.

Definition DecodeSecurityModeCommand (b : bytes) : res SecurityModeCommand :=
  if (length b <? 4)%nat then Err "nas: SecurityModeCommand too short: %d"
  else
    let '(rdr, algByte) := ReadByte (NewReader b) in
    let '(rdr, ngksi) := ReadByte rdr in
    let '(rdr, capBytes) := ReadLV rdr in
    cap ← cap_or_zero (DecodeUESecurityCapability (or_nil capBytes));
    for_reader 1 smc_body rdr
      (mkSecurityModeCommand (DecodeNASSecurityAlgorithms (or0 algByte)) (decode_ngksi (or0 ngksi))
         cap None None []).

Record SecurityModeReject := mkSecurityModeReject { smr_Cause5GMM : Z }.
#[global] Instance SecurityModeReject_eq_dec : EqDecision SecurityModeReject.
Proof. solve_decision. Defined.

Definition DecodeSecurityModeReject (b : bytes) : res SecurityModeReject :=
  if (length b <? 1)%nat then Err "nas: SecurityModeReject too short"
  else b0 ← idx b 0; Ok (mkSecurityModeReject b0).

Record SecurityModeComplete := mkSecurityModeComplete {
  IMEISV : option MobileIdentity;
  smcp_NASMessageContainer : bytes }.
#[global] Instance SecurityModeComplete_eq_dec : EqDecision SecurityModeComplete.
Proof. solve_decision. Defined.

Definition smcp_body (r : Reader) (s : SecurityModeComplete) : res (ctl SecurityModeComplete) :=
  match ReadByte r with
  | (_, None) => Ok (Stop s)
  | (r, Some iei) =>
      if iei =? 0x77 then
        let '(r, v) := ReadLVE r in
        mi ← mi_or_nil (DecodeMobileIdentity (or_nil v));
        Ok (Next r (mkSecurityModeComplete mi (smcp_NASMessageContainer s)))
      else if iei =? 0x71 then
        let '(r, v) := ReadLVE r in Ok (Next r (mkSecurityModeComplete (IMEISV s) (or_nil v)))
      else if iei <? 0x80 then let '(r, _) := ReadLV r in Ok (Next r s)
      else Ok (Next r s)
  end.

Definition DecodeSecurityModeComplete (b : bytes) : res SecurityModeComplete :=
  for_reader 1 smcp_body (NewReader b) (mkSecurityModeComplete None []).

(** * Termination and absence of panics *)

Lemma authreq_consumes : consumes 1 authreq_body.
Proof. solve_consumes authreq_body. Qed.
Lemma authresp_consumes : consumes 1 authresp_body.
Proof. solve_consumes authresp_body. Qed.
Lemma authfail_consumes : consumes 1 authfail_body.
Proof. solve_consumes authfail_body. Qed.
Lemma smc_consumes : consumes 1 smc_body.
Proof. solve_consumes smc_body. Qed.
Lemma smcp_consumes : consumes 1 smcp_body.
Proof. solve_consumes smcp_body. Qed.

Lemma cap_or_zero_safe b : safe (cap_or_zero (DecodeUESecurityCapability b)).
Proof. pose proof (DecodeUESecurityCapability_safe b). by destruct (DecodeUESecurityCapability b). Qed.

#[export] Hint Resolve DecodeMobileIdentity_safe DecodeUESecurityCapability_safe mi_or_nil_safe
  cap_or_zero_safe : go.

Lemma DecodeAuthenticationRequest_safe b : safe (DecodeAuthenticationRequest b).
Proof.
  unfold DecodeAuthenticationRequest. split_safe.
  apply for_reader_safe; [lia|apply authreq_consumes|]. intros. unfold authreq_body. split_safe.
Qed.

Lemma DecodeAuthenticationResponse_safe b : safe (DecodeAuthenticationResponse b).
Proof.
  apply for_reader_safe; [lia|apply authresp_consumes|]. intros. unfold authresp_body. split_safe.
Qed.

Lemma DecodeAuthenticationFailure_safe b : safe (DecodeAuthenticationFailure b).
Proof.
  unfold DecodeAuthenticationFailure. split_safe.
  apply for_reader_safe; [lia|apply authfail_consumes|]. intros. unfold authfail_body. split_safe.
Qed.

Lemma DecodeIdentityRequest_safe b : safe (DecodeIdentityRequest b).
Proof. by destruct b. Qed.

Lemma DecodeIdentityResponse_safe b : safe (DecodeIdentityResponse b).
Proof.
  unfold DecodeIdentityResponse. destruct b as [|b0 [|b1 [|b2 b]]]; try done. simpl idx. simpl.
  case_match eqn:E; [done|]. apply Nat.ltb_ge in E. rewrite slice_Ok by (simpl in *; lia).
  apply DecodeMobileIdentity_safe.
Qed.

Lemma DecodeSecurityModeCommand_safe b : safe (DecodeSecurityModeCommand b).
Proof.
  unfold DecodeSecurityModeCommand. split_safe.
  apply for_reader_safe; [lia|apply smc_consumes|]. intros. unfold smc_body. split_safe.
Qed.

Lemma DecodeSecurityModeReject_safe b : safe (DecodeSecurityModeReject b).
Proof. by destruct b. Qed.

Lemma DecodeSecurityModeComplete_safe b : safe (DecodeSecurityModeComplete b).
Proof.
  apply for_reader_safe; [lia|apply smcp_consumes|]. intros. unfold smcp_body. split_safe.
Qed.

(** * Round trips *)

Definition ngksi_ok (k : NGKSI) : Prop := 0 <= KeySetIdentifier k < 8 ∧ 0 <= ngksi_Type k < 2.
#[global] Instance ngksi_ok_dec k : Decision (ngksi_ok k).
Proof. unfold ngksi_ok. apply _. Defined.

Lemma decode_ngksi_encode k : ngksi_ok k → decode_ngksi (encode_ngksi k) = k.
Proof.
  intros [Hk Ht]. unfold decode_ngksi, encode_ngksi.
  assert (Z.land (ngksi_Type k) 1 = ngksi_Type k) as -> by (bitfield; dlia).
  assert (Z.land (KeySetIdentifier k) 7 = KeySetIdentifier k) as -> by (bitfield; dlia).
  rewrite u8_small by (bitfield; unfold is_u8; lia). rewrite lor_shiftl_add by lia.
  destruct k as [ksi t]; simpl in *. f_equal; bitfield; dlia.
Qed.

(** An Authentication Request as the AMF builds it for 5G-AKA. *)
Definition authreq_ok (a : AuthenticationRequest) : Prop :=
  ngksi_ok (auth_NGKSI a) ∧ length (auth_ABBA a) = 2%nat ∧ length (RAND a) = 16%nat
  ∧ length (AUTN a) = 16%nat ∧ auth_EAPMessage a = [].
#[global] Instance authreq_ok_dec a : Decision (authreq_ok a).
Proof. unfold authreq_ok. apply _. Defined.

Lemma authreq_rand s v :
  length v = 16%nat → length (RAND s) = 16%nat →
  parses 1 authreq_body s (0x21 :: v) (set_RAND v s).
Proof.
  intros Hv Hs. apply parses_step; [lia|apply authreq_consumes|simpl; lia|]. intros pre rest.
  unfold authreq_body. cbn [app]. rewrite ReadByte_cons. simpl.
  rewrite ReadBytes_app by done. simpl. rewrite go_copy_full by lia.
  by rewrite <- app_assoc.
Qed.

Lemma authreq_autn s v :
  length v = 16%nat → length (AUTN s) = 16%nat →
  parses 1 authreq_body s (tlv 0x20 v) (set_AUTN v s).
Proof.
  intros Hv Hs. apply parses_step; [lia|apply authreq_consumes|simpl; lia|]. intros pre rest.
  unfold authreq_body. unfold tlv at 1. cbn [app]. rewrite ReadByte_cons. simpl.
  rewrite ReadLV_iei by lia. simpl. by rewrite go_copy_full by lia.
Qed.

Lemma DecodeAuthenticationRequest_Encode a :
  authreq_ok a →
  ∃ b, EncodeAuthenticationRequest a = Ok b ∧ DecodeAuthenticationRequest b = Ok a.
Proof.
  intros (Hk & Ha & Hr & Hn & He). unfold EncodeAuthenticationRequest. eexists. split; [done|].
  destruct a as [k abba rand autn eap]; simpl in *. subst eap.
  destruct abba as [|a0 [|a1 [|]]]; try done.
  unfold DecodeAuthenticationRequest. change (_ <? 1)%nat with false. cbv iota.
  rewrite NewReader_rd, ReadByte_cons. unfold read_abba. cbn [app]. rewrite ReadByte_cons.
  change (u8 (Z.of_nat (length [a0; a1]))) with 2. change (Z.to_nat 2) with (length [a0; a1]).
  rewrite (ReadBytes_app _ [a0; a1] (0x21 :: rand ++ 0x20 :: 0x10 :: autn)) by done.
  cbn [or0 or_nil default]. change (default 0 (Some (encode_ngksi k))) with (encode_ngksi k).
  unfold id. rewrite decode_ngksi_encode by done.
  apply for_reader_parses; [lia|apply authreq_consumes|].
  eapply (parses_app _ _ _ (0x21 :: rand)); [by apply authreq_rand|].
  assert (0x20 :: 0x10 :: autn = tlv 0x20 autn) as -> by (unfold tlv; by rewrite Hn).
  by apply authreq_autn.
Qed.

(** A Security Mode Command as the AMF builds it: the replayed capability is
    the one it decoded from the UE. *)
Definition smc_ok (s : SecurityModeCommand) : Prop :=
  0 <= CipheringAlgorithmID (SelectedNASSecurityAlgorithms s) < 16
  ∧ 0 <= IntegrityAlgorithmID (SelectedNASSecurityAlgorithms s) < 16
  ∧ ngksi_ok (smc_NGKSI s)
  ∧ DecodeUESecurityCapability (Raw (ReplayedUESecurityCapabilities s))
    = Ok (ReplayedUESecurityCapabilities s)
  ∧ Z.of_nat (length (Raw (ReplayedUESecurityCapabilities s))) < 256
  ∧ match IMEISVRequest s with Some v => 0 <= v < 8 | None => True end
  ∧ Z.of_nat (length (smc_NASMessageContainer s)) < 65536.
#[global] Instance smc_ok_dec s : Decision (smc_ok s).
Proof. unfold smc_ok. destruct (IMEISVRequest s); apply _. Defined.

Lemma smc_imeisv s v :
  0 <= v < 8 → parses 1 smc_body s [Z.lor 0xE0 (Z.land v 7)] (set_IMEISVRequest (Some v) s).
Proof.
  intros Hv. apply parses_step; [lia|apply smc_consumes|simpl; lia|]. intros pre rest.
  unfold smc_body. cbn [app]. rewrite ReadByte_cons.
  assert (Z.lor 0xE0 (Z.land v 7) = 0xE0 + v) as ->.
  { assert (Z.land v 7 = v) as -> by (bitfield; dlia). by apply (lor_add _ _ 3). }
  assert ((0xE0 + v) ≫ 4 = 0xE) as -> by (bitfield; dlia).
  assert (Z.land (0xE0 + v) 7 = v) as -> by (bitfield; dlia). done.
Qed.

Lemma smc_additional s v :
  parses 1 smc_body s [0x36; 0x01; v] (set_Additional5GSecurityInfo (Some v) s).
Proof.
  apply parses_step; [lia|apply smc_consumes|simpl; lia|]. intros pre rest. unfold smc_body.
  change ([0x36; 0x01; v] ++ rest) with (0x36 :: u8 (Z.of_nat (length [v])) :: [v] ++ rest).
  rewrite ReadByte_cons. cbv iota beta. change (0x36 ≫ 4 =? 0xE) with false. cbv iota.
  change (0x36 =? 0x36) with true. cbv iota. by rewrite (ReadLV_iei pre 0x36 [v]) by done.
Qed.

Lemma smc_container s v :
  Z.of_nat (length v) < 65536 →
  parses 1 smc_body s (tlve 0x71 v) (set_smc_NASMessageContainer v s).
Proof.
  intros Hv. apply parses_step; [lia|apply smc_consumes|simpl; lia|]. intros pre rest.
  unfold smc_body. unfold tlve at 1. cbn [app]. rewrite ReadByte_cons. simpl.
  by rewrite ReadLVE_iei by done.
Qed.

Lemma DecodeSecurityModeCommand_Encode s :
  smc_ok s →
  ∃ b, EncodeSecurityModeCommand s = Ok b ∧ DecodeSecurityModeCommand b = Ok s.
Proof.
  intros (Hc & Hi & Hk & Hcap & Hlen & Him & Hcont). unfold EncodeSecurityModeCommand.
  rewrite (EncodeUESecurityCapability_Decode _ _ Hcap).
  eexists. split; [done|]. cbv zeta.
  destruct s as [algs k cap im add cont]; simpl in *.
  assert (2 <= length (Raw cap))%nat by (destruct (Raw cap) as [|? [|? ?]]; simpl; done || lia).
  unfold DecodeSecurityModeCommand. destruct (Nat.ltb_spec (length
    (EncodeNASSecurityAlgorithms algs :: encode_ngksi k :: u8 (Z.of_nat (length (Raw cap)))
     :: Raw cap ++ match im with Some v => [Z.lor 224 (Z.land v 7)] | None => [] end
     ++ match add with Some v => [54; 1; v] | None => [] end
     ++ (if (0 <? length cont)%nat then tlve 113 cont else []))) 4) as [Hs|_].
  { simpl in Hs. rewrite length_app in Hs. lia. }
  rewrite NewReader_rd, !ReadByte_cons, ReadLV_app by done. simpl or_nil. rewrite Hcap.
  simpl. rewrite decode_ngksi_encode, DecodeNASSecurityAlgorithms_Encode by done.
  apply for_reader_parses; [lia|apply smc_consumes|].
  eapply (parses_app _ _ _ _ (mkSecurityModeCommand algs k cap im None [])).
  { apply (parses_opt _ _ im _ (λ v, [Z.lor 224 (Z.land v 7)])
      (λ o, mkSecurityModeCommand algs k cap o None [])); [done|].
    intros v ->. by apply (smc_imeisv (mkSecurityModeCommand algs k cap None None [])). }
  eapply (parses_app _ _ _ _ (mkSecurityModeCommand algs k cap im add [])).
  { apply (parses_opt _ _ add _ (λ v, [0x36; 0x01; v])
      (λ o, mkSecurityModeCommand algs k cap im o [])); [done|].
    intros v _. apply (smc_additional (mkSecurityModeCommand algs k cap im None [])). }
  apply parses_if; [intros _; by apply (smc_container (mkSecurityModeCommand algs k cap im add []))|].
  by destruct cont.
Qed.
