(* ===== verification/NasTransport.v ===== *)
(** UL and DL NAS Transport and the APN label format (shared/nas/transport.go). *)

From S2P Require Import Prelude NasReader NasIE.

(** * Messages *)

Record SNSSAITransport := mkSNSSAITransport { tr_SST : Z; tr_SD : option Z }.
#[global] Instance SNSSAITransport_eq_dec : EqDecision SNSSAITransport.
Proof. solve_decision. Defined.

Record ULNASTransport := mkULNASTransport {
  ul_PayloadContainerType : Z;
  ul_PayloadContainer : bytes;
  ul_PDUSessionID : option Z;
  RequestType : option Z;
  ul_SNSSAI : option SNSSAITransport;
  ul_DNN : option bytes }.
#[global] Instance ULNASTransport_eq_dec : EqDecision ULNASTransport.
Proof. solve_decision. Defined.

Record DLNASTransport := mkDLNASTransport {
  dl_PayloadContainerType : Z;
  dl_PayloadContainer : bytes;
  dl_PDUSessionID : option Z;
  dl_Cause5GSM : option Z;
  dl_Cause5GMM : option Z }.
#[global] Instance DLNASTransport_eq_dec : EqDecision DLNASTransport.
Proof. solve_decision. Defined.

Definition IEIPDUSessionID : Z := 0x12.
Definition IEISNSSAITransport : Z := 0x22.
Definition IEIDNN : Z := 0x25.
Definition IEICause5GMM : Z := 0x58.
Definition IEICause5GSM : Z := 0x59.

(** * APN label format *)

(** [strings.Split(s, ".")] and [strings.Join(l, ".")]: 46 is the dot. *)
Fixpoint split_dot (s : bytes) : list bytes :=
  match s with
  | [] => [[]]
  | c :: s =>
      if c =? 46 then [] :: split_dot s
      else match split_dot s with
           | [] => [[c]]
           | l :: ls => (c :: l) :: ls
           end
  end.

Fixpoint join_dot (ls : list bytes) : bytes :=
  match ls with
  | [] => []
  | [l] => l
  | l :: ls => l ++ 46 :: join_dot ls
  end.

(** The label loop of decodeAPN: it breaks at a zero or overlong length. *)
Fixpoint apn_loop (fuel : nat) (b : bytes) (i : nat) (labels : list bytes) : res (list bytes) :=
  if bool_decide (i < length b)%nat then
    match fuel with
    | O => OutOfFuel
    | S fuel =>
        l ← idx b i;
        let len := Z.to_nat l in
        let i := S i in
        if (len =? 0)%nat || bool_decide (length b < i + len)%nat then Ok labels
        else v ← slice b i (i + len); apn_loop fuel b (i + len) (labels ++ [v])
    end
  else Ok labels.

Definition decodeAPN (b : bytes) : res bytes :=
  if (length b =? 0)%nat then Ok []
  else
    b0 ← idx b 0;
    if 0x20 <=? b0 then Ok b
    else
      labels ← apn_loop (length b) b 0 [];
      if (length labels =? 0)%nat then Ok b else Ok (join_dot labels).

Definition encodeAPN (dnn : bytes) : bytes :=
  split_dot dnn ≫= λ label, u8 (Z.of_nat (length label)) :: label.

(** * UL NAS Transport *)

Definition set_ul_PDUSessionID v (m : ULNASTransport) : ULNASTransport :=
  mkULNASTransport (ul_PayloadContainerType m) (ul_PayloadContainer m) v (RequestType m)
    (ul_SNSSAI m) (ul_DNN m).
Definition set_RequestType v (m : ULNASTransport) : ULNASTransport :=
  mkULNASTransport (ul_PayloadContainerType m) (ul_PayloadContainer m) (ul_PDUSessionID m) v
    (ul_SNSSAI m) (ul_DNN m).
Definition set_ul_SNSSAI v (m : ULNASTransport) : ULNASTransport :=
  mkULNASTransport (ul_PayloadContainerType m) (ul_PayloadContainer m) (ul_PDUSessionID m)
    (RequestType m) v (ul_DNN m).
Definition set_ul_DNN v (m : ULNASTransport) : ULNASTransport :=
  mkULNASTransport (ul_PayloadContainerType m) (ul_PayloadContainer m) (ul_PDUSessionID m)
    (RequestType m) (ul_SNSSAI m) v.

Definition ul_body (r : Reader) (m : ULNASTransport) : res (ctl ULNASTransport) :=
  match PeekByte r with
  | None => Ok (Stop m)
  | Some iei =>
      if Z.land iei 0xF0 =? 0x80 then
        let '(r, _) := ReadByte r in
        Ok (Next r (set_RequestType (Some (Z.land iei 0x0F)) m))
      else if iei =? IEIPDUSessionID then
        let '(r, _) := ReadByte r in
        let '(r, psi) := ReadByte r in
        Ok (Next r (set_ul_PDUSessionID (Some (or0 psi)) m))
      else if iei =? IEISNSSAITransport then
        let '(r, _) := ReadByte r in
        let '(r, lenByte) := ReadByte r in
        if (or0 lenByte <? 1) || (8 <? or0 lenByte) then Err "nas: SNSSAI length invalid"
        else
          match ReadBytes r (Z.to_nat (or0 lenByte)) with
          | (_, None) => Err "nas: SNSSAI truncated: %w"
          | (r, Some val) =>
              sst ← idx val 0;
              sd ← (if (4 <=? length val)%nat then
                      v1 ← idx val 1; v2 ← idx val 2; v3 ← idx val 3; Ok (Some (be24 v1 v2 v3))
                    else Ok None);
              Ok (Next r (set_ul_SNSSAI (Some (mkSNSSAITransport sst sd)) m))
          end
      else if iei =? IEIDNN then
        let '(r, _) := ReadByte r in
        let '(r, dnnBytes) := ReadLV r in
        dnn ← decodeAPN (or_nil dnnBytes);
        Ok (Next r (set_ul_DNN (Some dnn) m))
      else
        let '(r, _) := ReadByte r in
        if (0 <? Len r)%nat then
          let '(r, lenByte) := ReadByte r in
          if (0 <? or0 lenByte) && (Z.to_nat (or0 lenByte) <=? Len r)%nat
          then Ok (Next (ReadBytes r (Z.to_nat (or0 lenByte))).1 m)
          else Ok (Next r m)
        else Ok (Next r m)
  end.

Definition DecodeULNASTransport (b : bytes) : res ULNASTransport :=
  if (length b <? 3)%nat then Err "nas: UL NAS Transport too short"
  else
    let '(r, pct) := ReadByte (NewReader b) in
    let '(r, containerLen) := ReadLen16 r in
    if (Len r <? containerLen)%nat then Err "nas: payload container length invalid"
    else
      let '(r, container) := ReadBytes r containerLen in
      for_reader 1 ul_body r (mkULNASTransport (or0 pct) (or_nil container) None None None None).

(** The container and its length, [byte(containerLen>>8), byte(containerLen&0xFF)]. *)
Definition container_lve (c : bytes) : bytes :=
  u8 (Z.of_nat (length c) ≫ 8) :: u8 (Z.land (Z.of_nat (length c)) 0xFF) :: c.

Definition EncodeULNASTransport (m : ULNASTransport) : res bytes :=
  if 65535 <? Z.of_nat (length (ul_PayloadContainer m)) then Err "nas: payload container too long"
  else
    dnn ← (match ul_DNN m with
           | Some d => if 255 <? Z.of_nat (length d) then Err "nas: DNN too long"
                       else Ok (tlv IEIDNN d)
           | None => Ok []
           end);
    Ok (ul_PayloadContainerType m :: container_lve (ul_PayloadContainer m)
        ++ (match ul_PDUSessionID m with Some v => [IEIPDUSessionID; v] | None => [] end)
        ++ (match RequestType m with Some v => [Z.lor 0x80 (Z.land v 0x0F)] | None => [] end)
        ++ (match ul_SNSSAI m with
            | Some s =>
                tlv IEISNSSAITransport
                  (tr_SST s :: match tr_SD s with
                               | Some sd => [u8 (Z.land (sd ≫ 16) 0xFF); u8 (Z.land (sd ≫ 8) 0xFF);
                                             u8 (Z.land sd 0xFF)]
                               | None => []
                               end)
            | None => []
            end)
        ++ dnn).

(** * DL NAS Transport *)

Definition EncodeDLNASTransport (m : DLNASTransport) : res bytes :=
  if 65535 <? Z.of_nat (length (dl_PayloadContainer m)) then Err "nas: payload container too long"
  else
    Ok (dl_PayloadContainerType m :: container_lve (dl_PayloadContainer m)
        ++ (match dl_PDUSessionID m with Some v => [IEIPDUSessionID; v] | None => [] end)
        ++ (match dl_Cause5GMM m with Some v => [IEICause5GMM; v] | None => [] end)
        ++ (match dl_Cause5GSM m with Some v => [IEICause5GSM; 0x01; v] | None => [] end)).

(** * The APN label format *)

Definition dot_free (l : bytes) : Prop := 46 ∉ l.
#[global] Instance dot_free_dec l : Decision (dot_free l).
Proof. unfold dot_free. apply _. Defined.

Lemma split_dot_label l s :
  dot_free l → split_dot (l ++ 46 :: s) = l :: split_dot s.
Proof.
  induction l as [|c l IH]; intros Hd; [done|]. apply not_elem_of_cons in Hd as [Hc Hd].
  simpl. destruct (Z.eqb_spec c 46); [congruence|]. by rewrite IH.
Qed.

Lemma split_dot_last l : dot_free l → split_dot l = [l].
Proof.
  induction l as [|c l IH]; intros Hd; [done|]. apply not_elem_of_cons in Hd as [Hc Hd].
  simpl. destruct (Z.eqb_spec c 46); [congruence|]. by rewrite IH.
Qed.

Lemma split_join ls : ls ≠ [] → Forall dot_free ls → split_dot (join_dot ls) = ls.
Proof.
  induction ls as [|l ls IH]; [done|]. intros _ [Hl Hls]%Forall_cons.
  destruct ls as [|l' ls]; [by apply split_dot_last|].
  change (join_dot (l :: l' :: ls)) with (l ++ 46 :: join_dot (l' :: ls)).
  rewrite split_dot_label by done. by rewrite IH.
Qed.

(** A DNN label that has a one-octet APN encoding. *)
Definition label_ok (l : bytes) : Prop := dot_free l ∧ (0 < length l)%nat ∧ Z.of_nat (length l) < 256.
#[global] Instance label_ok_dec l : Decision (label_ok l).
Proof. unfold label_ok. apply _. Defined.

Definition apn_octets (ls : list bytes) : bytes := ls ≫= λ label, u8 (Z.of_nat (length label)) :: label.

Lemma apn_octets_cons l ls :
  apn_octets (l :: ls) = u8 (Z.of_nat (length l)) :: l ++ apn_octets ls.
Proof. done. Qed.

Arguments apn_octets : simpl never.

Lemma encodeAPN_join ls : ls ≠ [] → Forall label_ok ls → encodeAPN (join_dot ls) = apn_octets ls.
Proof.
  intros Hn Hl. unfold encodeAPN. rewrite split_join; [done|done|].
  eapply Forall_impl; [exact Hl|]. by intros ? [].
Qed.

Lemma apn_loop_octets fuel pre ls labels :
  Forall label_ok ls → (length (apn_octets ls) <= fuel)%nat →
  apn_loop fuel (pre ++ apn_octets ls) (length pre) labels = Ok (labels ++ ls).
Proof.
  revert fuel pre labels. induction ls as [|l ls IH]; intros fuel pre labels Hok Hf.
  { change (apn_octets []) with (@nil Z). rewrite !app_nil_r.
    destruct fuel; simpl; by rewrite bool_decide_eq_false_2 by lia. }
  apply Forall_cons in Hok as [(Hd & Hne & Hl) Hok].
  rewrite apn_octets_cons in *. simpl in Hf.
  destruct fuel as [|fuel]; [lia|]. simpl.
  rewrite bool_decide_eq_true_2 by (rewrite length_app; simpl; lia).
  unfold idx. rewrite list_lookup_middle by done. simpl.
  rewrite u8_small by (unfold is_u8; lia). rewrite Nat2Z.id.
  destruct (Nat.eqb_spec (length l) 0); [lia|]. simpl.
  rewrite bool_decide_eq_false_2 by (rewrite !length_app; simpl; rewrite length_app; lia).
  rewrite slice_Ok by (rewrite ?length_app; simpl; rewrite ?length_app; lia). simpl.
  replace (_ - _)%nat with (length l) by lia.
  assert (drop (S (length pre)) (pre ++ Z.of_nat (length l) :: l ++ apn_octets ls)
          = l ++ apn_octets ls) as ->.
  { rewrite <- (drop_app_length (pre ++ [Z.of_nat (length l)]) (l ++ apn_octets ls)) at 2.
    rewrite length_app, <- app_assoc. simpl. by rewrite Nat.add_1_r. }
  rewrite take_app_length.
  replace (pre ++ Z.of_nat (length l) :: l ++ apn_octets ls)
    with ((pre ++ Z.of_nat (length l) :: l) ++ apn_octets ls) by (by rewrite <- app_assoc).
  replace (S (length pre + length l)) with (length (pre ++ Z.of_nat (length l) :: l))
    by (rewrite length_app; simpl; lia).
  rewrite IH; [by rewrite <- app_assoc|done|]. rewrite length_app in Hf. lia.
Qed.

(** A DNN whose first label is shorter than 32 octets survives the APN
    encoding: decodeAPN inverts encodeAPN, whatever the other labels. *)
Lemma decodeAPN_short l ls :
  Forall label_ok (l :: ls) → Z.of_nat (length l) < 32 →
  decodeAPN (encodeAPN (join_dot (l :: ls))) = Ok (join_dot (l :: ls)).
Proof.
  intros Hok Hl. rewrite encodeAPN_join by done. unfold decodeAPN.
  pose proof (apn_loop_octets (length (apn_octets (l :: ls))) [] (l :: ls) [] Hok ltac:(lia)) as Hloop.
  apply Forall_cons in Hok as [(_ & Hne & _) _].
  assert (Hb : idx (apn_octets (l :: ls)) 0 = Ok (Z.of_nat (length l))
               ∧ (length (apn_octets (l :: ls)) =? 0)%nat = false).
  { rewrite apn_octets_cons, u8_small by (unfold is_u8; lia). done. }
  destruct Hb as [Hb0 Hb1]. rewrite Hb0, Hb1. cbn [mbind res_bind].
  destruct (Z.leb_spec 0x20 (Z.of_nat (length l))); [lia|].
  change (apn_loop (length (apn_octets (l :: ls))) (apn_octets (l :: ls)) 0 [] = Ok (l :: ls)) in Hloop.
  by rewrite Hloop.
Qed.

(** A DNN whose first label has 32 octets or more does not: decodeAPN
    takes the length octet for a printable character and returns the encoded
    octets unchanged, which is another string. *)
Lemma decodeAPN_long l ls :
  Forall label_ok (l :: ls) → 32 <= Z.of_nat (length l) →
  decodeAPN (encodeAPN (join_dot (l :: ls))) = Ok (encodeAPN (join_dot (l :: ls)))
  ∧ encodeAPN (join_dot (l :: ls)) ≠ join_dot (l :: ls).
Proof.
  intros Hok Hl. rewrite encodeAPN_join by done.
  assert (Hhd : ∃ t, apn_octets (l :: ls) = Z.of_nat (length l) :: t).
  { apply Forall_cons in Hok as [(_ & _ & H) _].
    rewrite apn_octets_cons, u8_small by (unfold is_u8; lia). eauto. }
  split.
  - destruct Hhd as [t ->]. unfold decodeAPN. simpl.
    destruct (Z.leb_spec 32 (Z.of_nat (length l))); [done|lia].
  - intros Heq. apply (f_equal length) in Heq. revert Heq. clear Hhd Hl Hok.
    cut (length (join_dot (l :: ls)) < length (apn_octets (l :: ls)))%nat; [lia|].
    revert l. induction ls as [|l' ls IH]; intros l.
    { rewrite apn_octets_cons. simpl. rewrite length_app. lia. }
    change (join_dot (l :: l' :: ls)) with (l ++ 46 :: join_dot (l' :: ls)).
    rewrite apn_octets_cons. cbn [length]. rewrite !length_app. specialize (IH l').
    cbn [length]. lia.
Qed.

(** * The UL NAS Transport decoder *)

Lemma PeekByte_ReadByte r b : PeekByte r = Some b → ∃ r', ReadByte r = (r', Some b).
Proof. unfold PeekByte, ReadByte. intros ->. eauto. Qed.

Lemma ul_consumes : consumes 1 ul_body.
Proof.
  intros r s r' s' Hl H. unfold ul_body in H.
  destruct (PeekByte r) as [iei|] eqn:E; [|done].
  apply PeekByte_ReadByte in E as [r1 E]. rewrite E in H.
  split_run; read_facts; simpl in *; lia.
Qed.

Lemma apn_loop_safe fuel b i labels :
  (length b <= i + fuel)%nat → safe (apn_loop fuel b i labels).
Proof.
  revert i labels. induction fuel as [|fuel IH]; intros i labels Hf; simpl; case_bool_decide; try done.
  { lia. }
  destruct (idx_Ok b i) as (x & _ & ->); [done|]. simpl.
  case_match eqn:E; [done|]. apply orb_false_iff in E as [_ E%bool_decide_eq_false_1].
  rewrite slice_Ok by lia. apply IH. lia.
Qed.

Lemma decodeAPN_safe b : safe (decodeAPN b).
Proof.
  unfold decodeAPN. destruct b as [|x b]; [done|]. cbn [idx lookup list_lookup length Nat.eqb mbind res_bind].
  destruct (0x20 <=? x); [done|]. apply safe_bind; [apply apn_loop_safe; simpl; lia|].
  intros ls _. by case_match.
Qed.

#[export] Hint Resolve decodeAPN_safe : go.

Lemma ul_body_safe r s : safe (ul_body r s).
Proof.
  unfold ul_body. destruct (PeekByte r) as [iei|]; [|done].
  destruct (Z.land iei 0xF0 =? 0x80); [by destruct (ReadByte r)|].
  destruct (iei =? IEIPDUSessionID); [split_safe|].
  destruct (iei =? IEISNSSAITransport); [|split_safe].
  destruct (ReadByte r) as [r1 ?]. destruct (ReadByte r1) as [r2 l].
  destruct ((or0 l <? 1) || (8 <? or0 l)) eqn:El; [done|].
  apply orb_false_iff in El as [El1%Z.ltb_ge El2%Z.ltb_ge].
  unfold ReadBytes. case_bool_decide as Hd; [done|].
  set (val := take _ _). assert (Hlen : length val = Z.to_nat (or0 l)).
  { unfold val. rewrite length_take, length_drop. lia. }
  apply safe_bind; [apply safe_idx; lia|]. intros sst _.
  apply safe_bind; [|done]. destruct (Nat.leb_spec 4 (length val)) as [H4|]; [|done].
  repeat (apply safe_bind; [apply safe_idx; lia|]; intros ? _). done.
Qed.

Lemma DecodeULNASTransport_safe b : safe (DecodeULNASTransport b).
Proof.
  unfold DecodeULNASTransport. split_safe.
  apply for_reader_safe; [lia|apply ul_consumes|]. intros. apply ul_body_safe.
Qed.

(** * Round trip of the UL NAS Transport *)

(** A message whose fields fit their wire format, and whose DNN is sent as a
    plain string (its first octet is not taken for a label length). *)
Definition ul_ok (m : ULNASTransport) : Prop :=
  Z.of_nat (length (ul_PayloadContainer m)) < 65536
  ∧ match RequestType m with Some v => 0 <= v < 16 | None => True end
  ∧ match ul_SNSSAI m with
    | Some s => match tr_SD s with Some sd => 0 <= sd < 16777216 | None => True end
    | None => True
    end
  ∧ match ul_DNN m with
    | Some d => Z.of_nat (length d) < 256 ∧ match d with c :: _ => 0x20 <= c | [] => True end
    | None => True
    end.
#[global] Instance ul_ok_dec m : Decision (ul_ok m).
Proof.
  unfold ul_ok. destruct (RequestType m), (ul_SNSSAI m) as [[? [?|]]|], (ul_DNN m) as [[|]|];
    simpl; apply _.
Defined.

Lemma ul_psi s v : parses 1 ul_body s [IEIPDUSessionID; v] (set_ul_PDUSessionID (Some v) s).
Proof.
  apply parses_step; [lia|apply ul_consumes|simpl; lia|]. intros pre rest. unfold ul_body.
  cbn [app]. rewrite PeekByte_cons. simpl. rewrite ReadByte_cons, ReadByte_cons.
  by rewrite <- app_assoc.
Qed.

Lemma ul_request_type s v :
  0 <= v < 16 → parses 1 ul_body s [Z.lor 0x80 (Z.land v 0x0F)] (set_RequestType (Some v) s).
Proof.
  intros Hv. apply parses_step; [lia|apply ul_consumes|simpl; lia|]. intros pre rest.
  assert (Z.lor 0x80 (Z.land v 0x0F) = 0x80 + v) as ->.
  { assert (Z.land v 15 = v) as -> by (bitfield; dlia). by apply (lor_add _ _ 4). }
  unfold ul_body. cbn [app]. rewrite PeekByte_cons.
  assert (Hv' : v = 0 ∨ v = 1 ∨ v = 2 ∨ v = 3 ∨ v = 4 ∨ v = 5 ∨ v = 6 ∨ v = 7 ∨ v = 8 ∨ v = 9
    ∨ v = 10 ∨ v = 11 ∨ v = 12 ∨ v = 13 ∨ v = 14 ∨ v = 15) by lia.
  assert (Z.land (0x80 + v) 0xF0 = 0x80) as -> by (by intuition subst).
  assert (Z.land (0x80 + v) 0x0F = v) as -> by (bitfield; dlia).
  by rewrite ReadByte_cons.
Qed.

Lemma ul_snssai s sn :
  match tr_SD sn with Some sd => 0 <= sd < 16777216 | None => True end →
  parses 1 ul_body s
    (tlv IEISNSSAITransport
       (tr_SST sn :: match tr_SD sn with
                     | Some sd => [u8 (Z.land (sd ≫ 16) 0xFF); u8 (Z.land (sd ≫ 8) 0xFF);
                                   u8 (Z.land sd 0xFF)]
                     | None => []
                     end)) (set_ul_SNSSAI (Some sn) s).
Proof.
  intros Hsd. apply parses_step; [lia|apply ul_consumes|simpl; lia|]. intros pre rest.
  destruct sn as [sst [sd|]]; simpl in Hsd; unfold ul_body, tlv; cbn [tr_SST tr_SD app];
    rewrite PeekByte_cons; simpl; rewrite ReadByte_cons, ReadByte_cons; simpl.
  - rewrite (ReadBytes_split _ _ [sst; u8 (Z.land (sd ≫ 16) 0xFF); u8 (Z.land (sd ≫ 8) 0xFF);
      u8 (Z.land sd 0xFF)] rest) by done. simpl.
    assert (∀ z, u8 (Z.land z 255) = u8 z) as Hm.
    { intros z. rewrite land_255. unfold u8. by rewrite Zmod_mod. }
    rewrite !Hm, be24_split by done. by rewrite <- !app_assoc.
  - rewrite (ReadBytes_split _ _ [sst] rest) by done. simpl. by rewrite <- !app_assoc.
Qed.

Lemma ul_dnn s d :
  Z.of_nat (length d) < 256 → match d with c :: _ => 0x20 <= c | [] => True end →
  parses 1 ul_body s (tlv IEIDNN d) (set_ul_DNN (Some d) s).
Proof.
  intros Hl Hc. apply parses_step; [lia|apply ul_consumes|simpl; lia|]. intros pre rest.
  unfold ul_body. unfold tlv at 1 2. cbn [app]. rewrite PeekByte_cons. simpl.
  rewrite ReadByte_cons, ReadLV_iei by done. simpl.
  assert (decodeAPN d = Ok d) as ->; [|done].
  destruct d as [|c d]; [done|]. unfold decodeAPN. simpl. by destruct (Z.leb_spec 0x20 c); [|lia].
Qed.

Lemma DecodeULNASTransport_Encode m :
  ul_ok m →
  ∃ b, EncodeULNASTransport m = Ok b ∧ DecodeULNASTransport b = Ok m.
Proof.
  destruct m as [pct pc psi rt sn dnn]. intros (Hpc & Hrt & Hsn & Hd). unfold EncodeULNASTransport.
  cbn [ul_PayloadContainerType ul_PayloadContainer ul_PDUSessionID RequestType ul_SNSSAI ul_DNN] in *.
  destruct (Z.ltb_spec 65535 (Z.of_nat (length pc))); [lia|].
  assert (match dnn with Some d => if 255 <? Z.of_nat (length d) then Err "nas: DNN too long"
    else Ok (tlv IEIDNN d) | None => Ok [] end
    = Ok (match dnn with Some d => tlv IEIDNN d | None => [] end)) as ->.
  { destruct dnn as [d|]; [|done]. by destruct (Z.ltb_spec 255 (Z.of_nat (length d))); [lia|]. }
  cbn [mbind res_bind]. eexists. split; [done|]. unfold container_lve, DecodeULNASTransport. cbn [app].
  assert (Hu : u8 (Z.land (Z.of_nat (length pc)) 0xFF) = u8 (Z.of_nat (length pc)))
    by (rewrite land_255; unfold u8; by rewrite Zmod_mod).
  rewrite Hu. change (_ <? 3)%nat with false. cbv iota.
  rewrite NewReader_rd, ReadByte_cons. unfold ReadLen16. rewrite !ReadByte_cons. simpl or0.
  rewrite be16_split, Nat2Z.id by (unfold is_u16; lia). rewrite Len_rd.
  destruct (Nat.ltb_spec (length (pc ++ match psi with Some v => [IEIPDUSessionID; v] | None => [] end
    ++ match rt with Some v => [Z.lor 128 (Z.land v 15)] | None => [] end
    ++ match sn with Some s => tlv IEISNSSAITransport (tr_SST s :: match tr_SD s with
         | Some sd => [u8 (Z.land (sd ≫ 16) 255); u8 (Z.land (sd ≫ 8) 255); u8 (Z.land sd 255)]
         | None => [] end) | None => [] end
    ++ match dnn with Some d => tlv IEIDNN d | None => [] end)) (length pc)) as [Hx|_].
  { rewrite length_app in Hx. lia. }
  rewrite ReadBytes_app by done. simpl or_nil.
  apply for_reader_parses; [lia|apply ul_consumes|].
  eapply (parses_app _ _ _ _ (mkULNASTransport pct pc psi None None None)).
  { apply (parses_opt _ _ psi _ (λ v, [IEIPDUSessionID; v]) (λ o, mkULNASTransport pct pc o None None None));
      [done|]. intros v _. apply (ul_psi (mkULNASTransport pct pc None None None None)). }
  eapply (parses_app _ _ _ _ (mkULNASTransport pct pc psi rt None None)).
  { apply (parses_opt _ _ rt _ (λ v, [Z.lor 128 (Z.land v 15)]) (λ o, mkULNASTransport pct pc psi o None None));
      [done|]. intros v ->. by apply (ul_request_type (mkULNASTransport pct pc psi None None None)). }
  eapply (parses_app _ _ _ _ (mkULNASTransport pct pc psi rt sn None)).
  { eapply (parses_opt _ _ sn _ _ (λ o, mkULNASTransport pct pc psi rt o None)); [done|].
    intros v ->. by apply (ul_snssai (mkULNASTransport pct pc psi rt None None)). }
  eapply (parses_opt _ _ dnn _ _ (λ o, mkULNASTransport pct pc psi rt sn o)); [done|].
  intros d ->. destruct Hd. by apply (ul_dnn (mkULNASTransport pct pc psi rt sn None)).
Qed.
