(* ===== verification/NasService.v ===== *)
(** Service Request, Accept and Reject (shared/nas/service_request.go) and the
    deregistration messages (shared/nas/deregistration.go). *)

From S2P Require Import Prelude NasReader NasIE NasRegistration NasSecurity.

(** * Service Request *)

Record ServiceRequest := mkServiceRequest {
  ServiceType : Z;
  sr_NGKSI : NGKSI;
  sr_TMSI : Z;
  sr_UplinkDataStatus : option Z;
  sr_PDUSessionStatus : option Z }.
#[global] Instance ServiceRequest_eq_dec : EqDecision ServiceRequest.
Proof. solve_decision. Defined.

Definition PDMobilityManagement : Z := 0x7E.
Definition MsgTypeServiceRequest : Z := 0x4C.

Definition set_UplinkDataStatus v (s : ServiceRequest) : ServiceRequest :=
  mkServiceRequest (ServiceType s) (sr_NGKSI s) (sr_TMSI s) v (sr_PDUSessionStatus s).
Definition set_PDUSessionStatus v (s : ServiceRequest) : ServiceRequest :=
  mkServiceRequest (ServiceType s) (sr_NGKSI s) (sr_TMSI s) (sr_UplinkDataStatus s) v.

(** The bitmaps of the contained message replace those of the outer one. *)
Definition merge_inner (inner s : ServiceRequest) : ServiceRequest :=
  let s := match sr_UplinkDataStatus inner with
           | Some v => set_UplinkDataStatus (Some v) s | None => s end in
  match sr_PDUSessionStatus inner with
  | Some v => set_PDUSessionStatus (Some v) s | None => s end.

(** One optional IE; [dec] is the recursive call on a contained Service
    Request. Every [break] here leaves the loop itself. *)
Definition sr_body (dec : bytes → res ServiceRequest) (r : Reader) (s : ServiceRequest)
    : res (ctl ServiceRequest) :=
  match ReadByte r with
  | (_, None) => Ok (Stop s)
  | (r, Some iei) =>
      if iei =? 0x71 then
        match ReadByte r with
        | (_, None) => Ok (Stop s)
        | (r, Some hi) =>
            match ReadByte r with
            | (_, None) => Ok (Stop s)
            | (r, Some lo) =>
                match ReadBytes r (Z.to_nat (be16 hi lo)) with
                | (_, None) => Ok (Stop s)
                | (r, Some val) =>
                    match val with
                    | v0 :: v1 :: v2 :: ((_ :: _) as inner) =>
                        if (v0 =? PDMobilityManagement) && (v2 =? MsgTypeServiceRequest) then
                          match dec inner with
                          | Ok i => Ok (Next r (merge_inner i s))
                          | Err _ => Ok (Next r s)
                          | Panic => Panic
                          | OutOfFuel => OutOfFuel
                          end
                        else Ok (Next r s)
                    | _ => Ok (Next r s)
                    end
                end
            end
        end
      else
        match ReadByte r with
        | (_, None) => Ok (Stop s)
        | (r, Some length) =>
            match ReadBytes r (Z.to_nat length) with
            | (_, None) => Ok (Stop s)
            | (r, Some val) =>
                match val with
                | v0 :: v1 :: _ =>
                    if iei =? 0x40 then Ok (Next r (set_UplinkDataStatus (Some (be16 v0 v1)) s))
                    else if iei =? 0x50 then Ok (Next r (set_PDUSessionStatus (Some (be16 v0 v1)) s))
                    else Ok (Next r s)
                | _ => Ok (Next r s)
                end
            end
        end
  end.

(** The 5G-S-TMSI: zero when the LV-E element is absent or truncated. *)
Definition read_stmsi (r : Reader) : Reader * Z :=
  match ReadByte r with
  | (r, None) => (r, 0)
  | (r, Some hi) =>
      match ReadByte r with
      | (r, None) => (r, 0)
      | (r, Some lo) =>
          match ReadBytes r (Z.to_nat (be16 hi lo)) with
          | (r, Some (_ :: _ :: _ :: v3 :: v4 :: v5 :: v6 :: _)) => (r, be32 v3 v4 v5 v6)
          | (r, _) => (r, 0)
          end
      end
  end.

(** Every contained message is shorter than the message that carries it, so
    the length bounds the nesting. *)
Fixpoint DecodeServiceRequest_fuel (fuel : nat) (b : bytes) : res ServiceRequest :=
  match fuel with
  | O => OutOfFuel
  | S fuel =>
      if (length b <? 1)%nat then Err "nas: ServiceRequest too short: %d bytes"
      else
        '(rdr, combined) ← must_byte (NewReader b);
        let '(rdr, tmsi) := read_stmsi rdr in
        for_reader 2 (sr_body (DecodeServiceRequest_fuel fuel)) rdr
          (mkServiceRequest (Z.land (combined ≫ 4) 0x0F)
             (mkNGKSI (Z.land combined 7) (Z.land (combined ≫ 3) 1)) tmsi None None)
  end.

Definition DecodeServiceRequest (b : bytes) : res ServiceRequest :=
  DecodeServiceRequest_fuel (S (length b)) b.

(** * PDU session bitmaps *)

Definition PSIInStatus (mask psi : Z) : bool :=
  if psi <=? 7 then Z.land (mask ≫ (8 + psi)) 1 =? 1
  else if psi <=? 15 then Z.land (mask ≫ (psi - 8)) 1 =? 1
  else false.

Definition psi_or (m psi : Z) : Z :=
  if psi =? 0 then m
  else if psi <=? 7 then Z.lor m (u16 (1 ≪ (8 + psi)))
  else if psi <=? 15 then Z.lor m (u16 (1 ≪ (psi - 8)))
  else m.

Definition PSIMask (psis : list Z) : Z := foldl psi_or 0 psis.

(** * Service Accept and Reject *)

Definition IEIPDUSessionReactivationResult : Z := 0x26.

Record ServiceAccept := mkServiceAccept {
  sa_PDUSessionStatus : option Z;
  PDUSessionReactivationResult : option Z }.
#[global] Instance ServiceAccept_eq_dec : EqDecision ServiceAccept.
Proof. solve_decision. Defined.

(** [None] is the nil pointer. *)
Definition EncodeServiceAccept (a : option ServiceAccept) : res bytes :=
  match a with
  | None => Ok []
  | Some a =>
      Ok ((match sa_PDUSessionStatus a with
           | Some v => [IEIPDUSessionStatus; 0x02; u8 (v ≫ 8); u8 v] | None => [] end)
          ++ (match PDUSessionReactivationResult a with
              | Some v => [IEIPDUSessionReactivationResult; 0x02; u8 (v ≫ 8); u8 v] | None => [] end))
  end.

(** The decoder returns the message read so far next to an error. *)
Definition sa_state : Type := ServiceAccept * option string.

Definition sa_set (iei v : Z) (a : ServiceAccept) : ServiceAccept :=
  if iei =? IEIPDUSessionStatus then mkServiceAccept (Some v) (PDUSessionReactivationResult a)
  else if iei =? IEIPDUSessionReactivationResult then mkServiceAccept (sa_PDUSessionStatus a) (Some v)
  else a.

(** The value of an IE whose length [n] has been read. *)
Definition sa_value (iei : Z) (r : Reader) (n : nat) (a : ServiceAccept) : res (ctl sa_state) :=
  match ReadBytes r n with
  | (_, None) => Ok (Stop (a, Some "nas: ServiceAccept: truncated IE 0x%02X: %w"))
  | (r, Some val) =>
      match val with
      | v0 :: v1 :: _ => Ok (Next r (sa_set iei (be16 v0 v1) a, None))
      | _ => Ok (Next r (a, None))
      end
  end.

Definition sa_body (r : Reader) (s : sa_state) : res (ctl sa_state) :=
  let '(a, err) := s in
  match ReadByte r with
  | (_, None) => Ok (Stop s)
  | (r, Some iei) =>
      if (iei =? 0x72) || (iei =? 0x78) then
        let '(r, hi) := ReadByte r in
        let '(r, lo) := ReadByte r in
        match hi, lo with
        | Some hi, Some lo => sa_value iei r (Z.to_nat (be16 hi lo)) a
        | _, _ => Ok (Stop (a, Some "nas: ServiceAccept: truncated TLV-E length (IEI 0x%02X)"))
        end
      else
        match ReadByte r with
        | (_, None) => Ok (Stop (a, Some "nas: ServiceAccept: truncated length (IEI 0x%02X)"))
        | (r, Some l) => sa_value iei r (Z.to_nat l) a
        end
  end.

Definition DecodeServiceAccept (b : bytes) : res sa_state :=
  for_reader 2 sa_body (NewReader b) (mkServiceAccept None None, None).

Record ServiceReject := mkServiceReject { sj_Cause5GMM : Z }.
#[global] Instance ServiceReject_eq_dec : EqDecision ServiceReject.
Proof. solve_decision. Defined.

Definition EncodeServiceReject (r : ServiceReject) : res bytes := Ok [sj_Cause5GMM r].

(** * Deregistration *)

Record DeregistrationRequest := mkDeregistrationRequest {
  SwitchOff : bool;
  dr_AccessType : Z;
  dr_NGKSI : NGKSI;
  dr_MobileIdentity : MobileIdentity }.
#[global] Instance DeregistrationRequest_eq_dec : EqDecision DeregistrationRequest.
Proof. solve_decision. Defined.

Definition DecodeDeregistrationRequest (b : bytes) : res DeregistrationRequest :=
  if (length b <? 1)%nat then Err "nas: DeregistrationRequest too short: %d bytes"
  else
    '(rdr, combined) ← must_byte (NewReader b);
    '(rdr, miHi) ← must_byte rdr;
    '(rdr, miLo) ← must_byte rdr;
    '(rdr, miBytes) ← must_bytes rdr (Z.to_nat (be16 miHi miLo));
    mi ← DecodeMobileIdentity miBytes;
    Ok {| SwitchOff := Z.land (combined ≫ 3) 1 =? 1;
          dr_AccessType := Z.land combined 3;
          dr_NGKSI := mkNGKSI (Z.land (combined ≫ 4) 7) (Z.land (combined ≫ 7) 1);
          dr_MobileIdentity := mi |}.

Definition EncodeDeregistrationAcceptUE : res bytes := Ok [].

Record DeregistrationRequestNW := mkDeregistrationRequestNW {
  nw_Cause5GMM : Z;
  ReregistrationRequired : bool;
  nw_AccessType : Z }.
#[global] Instance DeregistrationRequestNW_eq_dec : EqDecision DeregistrationRequestNW.
Proof. solve_decision. Defined.

Definition EncodeDeregistrationRequestNW (r : DeregistrationRequestNW) : res bytes :=
  let at_ := Z.land (nw_AccessType r) 3 in
  let reReg := if ReregistrationRequired r then 4 else 0 in
  Ok (Z.lor (Z.lor 0x70 reReg) at_
      :: (if negb (nw_Cause5GMM r =? 0) then [0x58; nw_Cause5GMM r] else [])).

(** * Termination of the nested decoder *)

Lemma sr_consumes dec : consumes 2 (sr_body dec).
Proof.
  intros r s r' s' _ H. unfold sr_body in H. split_run; read_facts; simpl in *; lia.
Qed.

(** Bodies whose recursive calls agree on shorter messages agree. *)
Lemma sr_body_ext dec1 dec2 n r s :
  (∀ b, (length b < n)%nat → dec1 b = dec2 b) → (Len r <= n)%nat →
  sr_body dec1 r s = sr_body dec2 r s.
Proof.
  intros Hd Hn. unfold sr_body. destruct (ReadByte r) as [r1 [iei|]] eqn:E1; [|done].
  destruct (iei =? 0x71); [|done].
  destruct (ReadByte r1) as [r2 [hi|]] eqn:E2; [|done].
  destruct (ReadByte r2) as [r3 [lo|]] eqn:E3; [|done].
  destruct (ReadBytes r3 _) as [r4 [val|]] eqn:E4; [|done].
  apply ReadBytes_length in E4. read_facts.
  destruct val as [|v0 [|v1 [|v2 [|v3 inner]]]]; try done.
  rewrite Hd; [done|]. simpl in *. lia.
Qed.

Lemma read_stmsi_le r r' t : read_stmsi r = (r', t) → (Len r' <= Len r)%nat.
Proof. intros H. unfold read_stmsi in H. repeat case_match; simplify_eq; read_facts; lia. Qed.

Lemma DecodeServiceRequest_fuel_enough f1 f2 b :
  (length b < f1)%nat → (length b < f2)%nat →
  DecodeServiceRequest_fuel f1 b = DecodeServiceRequest_fuel f2 b.
Proof.
  revert f2 b. induction f1 as [|f1 IH]; intros [|f2] b H1 H2; [lia..|]. simpl.
  destruct b as [|x b]; [done|].
  destruct (must_byte_cases (NewReader (x :: b))) as [(r1 & c & E)|[e ->]]; [rewrite E; simpl|done].
  apply must_byte_lt in E. destruct (read_stmsi r1) as [r2 t] eqn:Et.
  assert (Len r2 <= length b)%nat.
  { apply read_stmsi_le in Et. rewrite NewReader_rd, Len_rd in E. simpl in E. lia. }
  apply (for_reader_ext _ _ _ (length b)); [lia|apply sr_consumes|apply sr_consumes| |done].
  intros r s Hl. apply (sr_body_ext _ _ (length b)); [|done].
  intros b' Hb'. simpl in *. apply IH; lia.
Qed.

(** The equation of the source, free of the fuel. *)
Lemma DecodeServiceRequest_unfold b :
  DecodeServiceRequest b =
  if (length b <? 1)%nat then Err "nas: ServiceRequest too short: %d bytes"
  else
    '(rdr, combined) ← must_byte (NewReader b);
    let '(rdr, tmsi) := read_stmsi rdr in
    for_reader 2 (sr_body DecodeServiceRequest) rdr
      (mkServiceRequest (Z.land (combined ≫ 4) 0x0F)
         (mkNGKSI (Z.land combined 7) (Z.land (combined ≫ 3) 1)) tmsi None None).
Proof.
  unfold DecodeServiceRequest at 1. simpl. destruct b as [|x b]; [done|].
  destruct (must_byte_cases (NewReader (x :: b))) as [(r1 & c & E)|[e ->]]; [rewrite E; simpl|done].
  apply must_byte_lt in E. destruct (read_stmsi r1) as [r2 t] eqn:Et.
  assert (Len r2 <= length b)%nat.
  { apply read_stmsi_le in Et. rewrite NewReader_rd, Len_rd in E. simpl in E. lia. }
  apply (for_reader_ext _ _ _ (length b)); [lia|apply sr_consumes|apply sr_consumes| |done].
  intros r s Hl. apply (sr_body_ext _ _ (length b)); [|done].
  intros b' Hb'. apply (DecodeServiceRequest_fuel_enough (S (length b)) (S (length b'))); lia.
Qed.

Lemma DecodeServiceRequest_fuel_safe f b : (length b < f)%nat → safe (DecodeServiceRequest_fuel f b).
Proof.
  revert b. induction f as [|f IH]; intros b Hf; [lia|]. simpl. destruct b as [|x b]; [done|].
  destruct (must_byte_cases (NewReader (x :: b))) as [(r1 & c & E)|[e ->]]; [rewrite E; simpl|done].
  apply must_byte_lt in E. destruct (read_stmsi r1) as [r2 t] eqn:Et.
  assert (Hr2 : (Len r2 <= length b)%nat).
  { apply read_stmsi_le in Et. rewrite NewReader_rd, Len_rd in E. simpl in E. lia. }
  (* the reads stay inside this message *)
  pose (dec b' := if decide (length b' < length b)%nat then DecodeServiceRequest_fuel f b' else Err "").
  rewrite (for_reader_ext 2 _ (sr_body dec) (length b));
    [|lia|apply sr_consumes|apply sr_consumes| |done].
  2:{ intros r s Hl. apply (sr_body_ext _ _ (length b)); [|done].
      intros b' Hb'. unfold dec. by rewrite decide_True. }
  apply for_reader_safe; [lia|apply sr_consumes|]. intros r s _. unfold sr_body.
  assert (Hdec : ∀ b', safe (dec b')).
  { intros b'. unfold dec. case_decide; [|done]. apply IH. simpl in Hf. lia. }
  repeat case_match; try done; simplify_eq;
    match goal with E : dec ?i = _ |- _ => specialize (Hdec i); by rewrite E in Hdec end.
Qed.

Lemma DecodeServiceRequest_safe b : safe (DecodeServiceRequest b).
Proof. apply DecodeServiceRequest_fuel_safe. lia. Qed.

(** * The complete message inside the NAS message container *)

Lemma read_stmsi_app pre s0 s1 s2 t rest more :
  is_u32 t → Z.of_nat (length more) < 1000 →
  let v := s0 :: s1 :: s2 :: put_be32 t ++ more in
  read_stmsi (rd pre (u8 (Z.of_nat (length v) ≫ 8) :: u8 (Z.of_nat (length v)) :: v ++ rest))
  = (rd (pre ++ u8 (Z.of_nat (length v) ≫ 8) :: u8 (Z.of_nat (length v)) :: v) rest, t).
Proof.
  intros Ht Hm v. unfold read_stmsi. rewrite !ReadByte_cons. cbv iota beta.
  rewrite be16_split by (unfold v, is_u16; simpl; lia).
  rewrite Nat2Z.id, ReadBytes_app by done. unfold v at 1, put_be32 at 1. cbn [app].
  by rewrite be32_split, <- !app_assoc.
Qed.

(** A Service Request with a NAS message container is decoded to the
    outer service type, key set and S-TMSI together with the uplink data status
    and PDU session status of the complete message inside the container. *)
Lemma DecodeServiceRequest_contained c s0 s1 s2 t more sht inner i :
  is_u32 t → Z.of_nat (length more) < 1000 → inner ≠ [] →
  Z.of_nat (length inner) < 65533 → DecodeServiceRequest inner = Ok i →
  let v := s0 :: s1 :: s2 :: put_be32 t ++ more in
  DecodeServiceRequest
    (c :: u8 (Z.of_nat (length v) ≫ 8) :: u8 (Z.of_nat (length v)) :: v
     ++ tlve 0x71 (PDMobilityManagement :: sht :: MsgTypeServiceRequest :: inner))
  = Ok (mkServiceRequest (Z.land (c ≫ 4) 0x0F) (mkNGKSI (Z.land c 7) (Z.land (c ≫ 3) 1)) t
          (sr_UplinkDataStatus i) (sr_PDUSessionStatus i)).
Proof.
  intros Ht Hm Hne Hl Hi v. rewrite DecodeServiceRequest_unfold.
  change (_ <? 1)%nat with false. cbv iota. rewrite NewReader_rd, must_byte_cons.
  cbn [mbind res_bind]. unfold v. rewrite read_stmsi_app by done.
  apply for_reader_parses; [lia|apply sr_consumes|].
  apply parses_step; [lia|apply sr_consumes|simpl; lia|]. intros pre rest.
  unfold sr_body. unfold tlve at 1. cbn [app]. rewrite ReadByte_cons. simpl (_ =? _). cbv iota.
  rewrite !ReadByte_cons. rewrite be16_split by (unfold is_u16; simpl; lia). rewrite Nat2Z.id.
  rewrite (ReadBytes_split _ _ (PDMobilityManagement :: sht :: MsgTypeServiceRequest :: inner) rest)
    by done.
  destruct inner as [|x inner]; [done|]. simpl (_ && _). cbv iota. rewrite Hi.
  rewrite <- !app_assoc. destruct i as [? ? ? [?|] [?|]]; done.
Qed.

(** * PDU session bitmaps *)

(** Where the bit of a PDU session ID sits in the mask. *)
Definition psi_bit (psi : Z) : Z := if psi <=? 7 then 8 + psi else psi - 8.

Lemma PSIInStatus_testbit mask psi :
  0 <= psi → PSIInStatus mask psi = (psi <=? 15) && Z.testbit mask (psi_bit psi).
Proof.
  intros. unfold PSIInStatus, psi_bit.
  assert (Hb : ∀ n, 0 <= n → (Z.land (mask ≫ n) 1 =? 1) = Z.testbit mask n).
  { intros n Hn. rewrite land_1, <- Z.bit0_mod, Z.shiftr_spec, Z.add_0_l by lia.
    by destruct (Z.testbit mask n). }
  destruct (Z.leb_spec psi 7), (Z.leb_spec psi 15); try lia; try rewrite Hb by lia; done.
Qed.

Lemma psi_or_testbit m psi n :
  is_u8 psi → 0 <= n →
  Z.testbit (psi_or m psi) n = Z.testbit m n || bool_decide (1 <= psi <= 15 ∧ n = psi_bit psi).
Proof.
  unfold is_u8. intros Hp Hn. unfold psi_or, psi_bit.
  assert (Hb : ∀ k, 0 <= k < 16 → Z.testbit (Z.lor m (u16 (1 ≪ k))) n
                   = Z.testbit m n || bool_decide (n = k)).
  { intros k Hk. assert (u16 (1 ≪ k) = 2 ^ k) as ->.
    { rewrite Z.shiftl_1_l. apply u16_small. unfold is_u16.
      pose proof (Z.pow_lt_mono_r 2 k 16). simpl in *. lia. }
    rewrite Z.lor_spec. f_equal. rewrite Z.pow2_bits_eqb by lia.
    case_bool_decide; [apply Z.eqb_eq|apply Z.eqb_neq]; lia. }
  destruct (Z.eqb_spec psi 0), (Z.leb_spec psi 7), (Z.leb_spec psi 15); try lia;
    rewrite ?Hb by lia; try (f_equal; apply bool_decide_ext; lia);
    rewrite bool_decide_eq_false_2, ?orb_false_r by lia; done.
Qed.

Lemma PSIInStatus_or m q psi :
  is_u8 q → is_u8 psi →
  PSIInStatus (psi_or m q) psi = true ↔ PSIInStatus m psi = true ∨ (psi = q ∧ 1 <= psi <= 15).
Proof.
  unfold is_u8. intros Hq Hp. rewrite !PSIInStatus_testbit, !andb_true_iff by lia.
  assert (0 <= psi <= 15 → 0 <= psi_bit psi) by (unfold psi_bit; destruct (Z.leb_spec psi 7); lia).
  destruct (Z.leb_spec psi 15); [|naive_solver lia].
  rewrite psi_or_testbit, orb_true_iff, bool_decide_eq_true by (unfold is_u8; lia).
  assert (psi_bit psi = psi_bit q ∧ 1 <= q <= 15 ↔ psi = q ∧ 1 <= psi <= 15); [|naive_solver].
  unfold psi_bit. destruct (Z.leb_spec psi 7), (Z.leb_spec q 7); lia.
Qed.

Lemma PSIMask_acc psis m psi :
  Forall is_u8 psis → is_u8 psi →
  PSIInStatus (foldl psi_or m psis) psi = true
  ↔ PSIInStatus m psi = true ∨ (psi ∈ psis ∧ 1 <= psi <= 15).
Proof.
  intros Hps Hp. revert m. induction Hps as [|q psis Hq _ IH]; intros m; simpl.
  { rewrite elem_of_nil. tauto. }
  rewrite IH, PSIInStatus_or, elem_of_cons by done. tauto.
Qed.

(** The PDU session status the AMF builds from a list of session
    identities marks exactly the identities of the list that are valid, 1 to 15,
    as active. *)
Lemma PSIMask_in psis psi :
  Forall is_u8 psis → is_u8 psi →
  PSIInStatus (PSIMask psis) psi = true ↔ psi ∈ psis ∧ 1 <= psi <= 15.
Proof.
  intros Hps Hp. unfold PSIMask. rewrite PSIMask_acc by done.
  unfold is_u8 in Hp. rewrite PSIInStatus_testbit, Z.bits_0, andb_false_r by lia. naive_solver.
Qed.

(** * Round trip of the Service Accept *)

Definition sa_ok (a : ServiceAccept) : Prop :=
  match sa_PDUSessionStatus a with Some v => is_u16 v | None => True end
  ∧ match PDUSessionReactivationResult a with Some v => is_u16 v | None => True end.
#[global] Instance sa_ok_dec a : Decision (sa_ok a).
Proof. unfold sa_ok. destruct (sa_PDUSessionStatus a), (PDUSessionReactivationResult a); apply _. Defined.

Lemma sa_consumes : consumes 2 sa_body.
Proof.
  intros r [a e] r' s' _ H. unfold sa_body, sa_value in H. split_run; read_facts; simpl in *; lia.
Qed.

Lemma sa_ie a iei v :
  iei ≠ 0x72 → iei ≠ 0x78 → is_u16 v →
  parses 2 sa_body (a, None) [iei; 0x02; u8 (v ≫ 8); u8 v] (sa_set iei v a, None).
Proof.
  intros H1 H2 Hv. apply parses_step; [lia|apply sa_consumes|simpl; lia|]. intros pre rest.
  unfold sa_body. cbn [app]. rewrite ReadByte_cons.
  rewrite (proj2 (Z.eqb_neq _ _) H1), (proj2 (Z.eqb_neq _ _) H2). simpl.
  rewrite ReadByte_cons. unfold sa_value.
  rewrite (ReadBytes_split _ _ [u8 (v ≫ 8); u8 v] rest) by done.
  by rewrite be16_split, <- !app_assoc.
Qed.

Lemma DecodeServiceAccept_Encode a :
  sa_ok a →
  ∃ b, EncodeServiceAccept (Some a) = Ok b ∧ DecodeServiceAccept b = Ok (a, None).
Proof.
  destruct a as [st re]. intros [H1 H2]; simpl in H1, H2. eexists. split; [done|].
  unfold DecodeServiceAccept. rewrite NewReader_rd.
  apply for_reader_parses; [lia|apply sa_consumes|]. cbn [sa_PDUSessionStatus PDUSessionReactivationResult].
  eapply (parses_app _ _ _ _ (mkServiceAccept st None, None)).
  { apply (parses_opt _ _ st _ (λ v, [IEIPDUSessionStatus; 0x02; u8 (v ≫ 8); u8 v])
      (λ o, (mkServiceAccept o None, None))); [done|].
    intros v ->. by apply (sa_ie (mkServiceAccept None None)). }
  apply (parses_opt _ _ re _ (λ v, [IEIPDUSessionReactivationResult; 0x02; u8 (v ≫ 8); u8 v])
    (λ o, (mkServiceAccept st o, None))); [done|].
  intros v ->. by apply (sa_ie (mkServiceAccept st None)).
Qed.

Lemma DecodeServiceAccept_safe b : safe (DecodeServiceAccept b).
Proof.
  apply for_reader_safe; [lia|apply sa_consumes|]. intros r [a e] _. unfold sa_body, sa_value. split_safe.
Qed.

Lemma DecodeDeregistrationRequest_safe b : safe (DecodeDeregistrationRequest b).
Proof.
  unfold DecodeDeregistrationRequest. case_match; [done|].
  do 4 (apply safe_bind; [eauto with go|]; intros [? ?] _).
  apply safe_bind; [eauto with go|done].
Qed.
