(* ===== verification/NasNetworkName.v ===== *)
(** The Network Name IE (shared/nas/network_name.go): GSM 7-bit packing, UCS-2,
    and the coding chosen by the encoder. A Go string that is ranged over is
    its list of code points. *)

From S2P Require Import Prelude NasReader.

Definition NetworkNameCodingGSM7 : Z := 0.
Definition NetworkNameCodingUCS2 : Z := 1.

Record NetworkName := mkNetworkName { CodingScheme : Z; AddCI : bool; Text : list Z }.
#[global] Instance NetworkName_eq_dec : EqDecision NetworkName.
Proof. solve_decision. Defined.

(** The GSM 7-bit default alphabet, basic set: code point and septet. *)
Definition gsm7BasicSet : list (Z * Z) :=
  [(64, 0x00); (163, 0x01); (36, 0x02); (165, 0x03); (232, 0x04); (233, 0x05); (249, 0x06);
   (236, 0x07); (242, 0x08); (199, 0x09); (10, 0x0A); (216, 0x0B); (248, 0x0C); (13, 0x0D);
   (197, 0x0E); (229, 0x0F); (916, 0x10); (95, 0x11); (934, 0x12); (915, 0x13); (923, 0x14);
   (937, 0x15); (928, 0x16); (936, 0x17); (931, 0x18); (920, 0x19); (926, 0x1A);
   (198, 0x1C); (230, 0x1D); (223, 0x1E); (201, 0x1F); (32, 0x20); (33, 0x21); (34, 0x22);
   (35, 0x23); (164, 0x24); (37, 0x25); (38, 0x26); (39, 0x27); (40, 0x28); (41, 0x29);
   (42, 0x2A); (43, 0x2B); (44, 0x2C); (45, 0x2D); (46, 0x2E); (47, 0x2F); (48, 0x30);
   (49, 0x31); (50, 0x32); (51, 0x33); (52, 0x34); (53, 0x35); (54, 0x36); (55, 0x37);
   (56, 0x38); (57, 0x39); (58, 0x3A); (59, 0x3B); (60, 0x3C); (61, 0x3D); (62, 0x3E);
   (63, 0x3F); (161, 0x40); (65, 0x41); (66, 0x42); (67, 0x43); (68, 0x44); (69, 0x45);
   (70, 0x46); (71, 0x47); (72, 0x48); (73, 0x49); (74, 0x4A); (75, 0x4B); (76, 0x4C);
   (77, 0x4D); (78, 0x4E); (79, 0x4F); (80, 0x50); (81, 0x51); (82, 0x52); (83, 0x53);
   (84, 0x54); (85, 0x55); (86, 0x56); (87, 0x57); (88, 0x58); (89, 0x59); (90, 0x5A);
   (196, 0x5B); (214, 0x5C); (209, 0x5D); (220, 0x5E); (167, 0x5F); (191, 0x60); (97, 0x61);
   (98, 0x62); (99, 0x63); (100, 0x64); (101, 0x65); (102, 0x66); (103, 0x67); (104, 0x68);
   (105, 0x69); (106, 0x6A); (107, 0x6B); (108, 0x6C); (109, 0x6D); (110, 0x6E);
   (111, 0x6F); (112, 0x70); (113, 0x71); (114, 0x72); (115, 0x73); (116, 0x74);
   (117, 0x75); (118, 0x76); (119, 0x77); (120, 0x78); (121, 0x79); (122, 0x7A);
   (228, 0x7B); (246, 0x7C); (241, 0x7D); (252, 0x7E); (224, 0x7F)].

Fixpoint assoc (k : Z) (l : list (Z * Z)) : option Z :=
  match l with
  | [] => None
  | (k', v) :: l => if k =? k' then Some v else assoc k l
  end.

(** [gsm7BasicSet[r]] and its inverse map [gsm7Reverse[s]]. *)
Definition gsm7_septet (r : Z) : option Z := assoc r gsm7BasicSet.
Definition gsm7Reverse (s : Z) : option Z := assoc s ((λ e, (e.2, e.1)) <$> gsm7BasicSet).

(** * Septet packing *)

Fixpoint pack_loop (septets : bytes) (i : nat) (packed : bytes) : res bytes :=
  match septets with
  | [] => Ok packed
  | s :: septets =>
      let bitPos := (i * 7)%nat in
      let octet := (bitPos / 8)%nat in
      let shift := (bitPos mod 8)%nat in
      x ← idx packed octet;
      let packed := <[octet := Z.lor x (Z.land (u8 (s ≪ Z.of_nat shift)) 0xFF)]> packed in
      packed ← (if (1 <? shift)%nat then
                  y ← idx packed (S octet);
                  Ok (<[S octet := Z.lor y (s ≫ (8 - Z.of_nat shift))]> packed)
                else Ok packed);
      pack_loop septets (S i) packed
  end.

Definition packGSM7 (septets : bytes) : res (bytes * Z) :=
  let bitLen := (length septets * 7)%nat in
  let octetLen := ((bitLen + 7) / 8)%nat in
  packed ← pack_loop septets 0 (replicate octetLen 0);
  Ok (packed, u8 (Z.of_nat (octetLen * 8) - Z.of_nat bitLen)).

Fixpoint unpack_loop (packed : bytes) (i total : nat) (septets : bytes) : res bytes :=
  match total with
  | O => Ok septets
  | S total =>
      let bitPos := (i * 7)%nat in
      let octet := (bitPos / 8)%nat in
      let shift := (bitPos mod 8)%nat in
      x ← idx packed octet;
      let v := x ≫ Z.of_nat shift in
      v ← (if (1 <? shift)%nat && (S octet <? length packed)%nat then
             y ← idx packed (S octet);
             Ok (Z.lor v (u8 (y ≪ (8 - Z.of_nat shift))))
           else Ok v);
      unpack_loop packed (S i) total (septets ++ [Z.land v 0x7F])
  end.

Definition unpackGSM7 (packed : bytes) (spareBits : Z) : res bytes :=
  if (length packed =? 0)%nat then Ok []
  else
    let total := Z.quot (Z.of_nat (length packed) * 8 - spareBits) 7 in
    unpack_loop packed 0 (Z.to_nat total) [].

(** [None] when a rune is outside the basic set. *)
Definition gsm7Septets (text : list Z) : option bytes := mapM gsm7_septet text.

(** * UTF-16 of the Go standard library *)

Definition utf16_encode_rune (r : Z) : list Z :=
  if bool_decide (0 <= r < 0xD800) || bool_decide (0xE000 <= r < 0x10000) then [r]
  else if bool_decide (0x10000 <= r <= 0x10FFFF) then
    [0xD800 + Z.land ((r - 0x10000) ≫ 10) 0x3FF; 0xDC00 + Z.land (r - 0x10000) 0x3FF]
  else [0xFFFD].

Definition utf16_encode (text : list Z) : list Z := text ≫= utf16_encode_rune.

Fixpoint utf16_decode (u : list Z) : list Z :=
  match u with
  | [] => []
  | r1 :: u' =>
      if bool_decide (r1 < 0xD800) || bool_decide (0xE000 <= r1) then r1 :: utf16_decode u'
      else
        match u' with
        | r2 :: u'' =>
            if bool_decide (r1 < 0xDC00) && bool_decide (0xDC00 <= r2) && bool_decide (r2 < 0xE000)
            then (Z.lor ((r1 - 0xD800) ≪ 10) (r2 - 0xDC00) + 0x10000) :: utf16_decode u''
            else 0xFFFD :: utf16_decode u'
        | [] => [0xFFFD]
        end
  end.

(** * The IE *)

Definition ucs2_octets (text : list Z) : bytes :=
  utf16_encode text ≫= λ u, [u8 (u ≫ 8); u8 u].

Definition EncodeNetworkName (iei : Z) (text : list Z) : res bytes :=
  if (length text =? 0)%nat then Err "nas: empty network name"
  else
    '(coding, body, spareBits) ←
      (match gsm7Septets text with
       | Some septets =>
           '(body, spare) ← packGSM7 septets; Ok (NetworkNameCodingGSM7, body, spare)
       | None => Ok (NetworkNameCodingUCS2, ucs2_octets text, 0)
       end);
    if 255 <? Z.of_nat (length body) + 1 then Err "nas: network name too long: %d octets"
    else
      let header := Z.lor (Z.lor 0x80 (u8 (Z.land coding 7 ≪ 4))) (Z.land spareBits 7) in
      Ok ([iei; u8 (Z.of_nat (length body) + 1); header] ++ body).

Fixpoint ucs2_units (b : bytes) : list Z :=
  match b with
  | x :: y :: b => be16 x y :: ucs2_units b
  | _ => []
  end.

Definition DecodeNetworkName (b : bytes) : res NetworkName :=
  if (length b <? 1)%nat then Err "nas: network name too short"
  else
    header ← idx b 0;
    let coding := Z.land (header ≫ 4) 7 in
    let addCI := negb (Z.land header 8 =? 0) in
    let spareBits := Z.land header 7 in
    body ← slice_from b 1;
    if coding =? NetworkNameCodingUCS2 then
      if negb (Z.of_nat (length body) mod 2 =? 0) then Err "nas: UCS-2 network name has odd length %d"
      else Ok (mkNetworkName coding addCI (utf16_decode (ucs2_units body)))
    else if coding =? NetworkNameCodingGSM7 then
      septets ← unpackGSM7 body spareBits;
      match mapM gsm7Reverse septets with
      | Some runes => Ok (mkNetworkName coding addCI runes)
      | None => Err "nas: septet 0x%02X is not in the GSM basic set"
      end
    else Err "nas: unsupported network name coding scheme %d".

(** * Septets as a bit string

    Bit [p] of a byte string in the order of TS 23.038 (octet [p/8], bit [p mod 8]),
    and bit [p] of a septet string (septet [p/7], bit [p mod 7]). *)

Definition at0 (l : bytes) (k : nat) : Z := default 0 (l !! k).
Definition pbit (packed : bytes) (p : nat) : bool :=
  Z.testbit (at0 packed (p / 8)) (Z.of_nat (p mod 8)).
Definition sbit (septets : bytes) (p : nat) : bool :=
  Z.testbit (at0 septets (p / 7)) (Z.of_nat (p mod 7)).

Definition is_septet (s : Z) : Prop := 0 <= s < 128.

Lemma at0_insert l k x j :
  (k < length l)%nat → at0 (<[k := x]> l) j = if decide (j = k) then x else at0 l j.
Proof.
  intros Hk. unfold at0. case_decide; subst; [by rewrite list_lookup_insert_eq|].
  by rewrite list_lookup_insert_ne.
Qed.

Lemma at0_idx l k : (k < length l)%nat → idx l k = Ok (at0 l k).
Proof. intros (x & Hx & ->)%idx_Ok. unfold at0. by rewrite Hx. Qed.

Lemma septet_bits s n : is_septet s → 7 <= n → Z.testbit s n = false.
Proof.
  intros Hs Hn. unfold is_septet in Hs. destruct (Z.eq_dec s 0) as [->|]; [apply Z.bits_0|].
  apply Z.bits_above_log2; [lia|]. apply Z.log2_lt_pow2; [lia|].
  pose proof (Z.pow_le_mono_r 2 7 n). simpl in *. lia.
Qed.

(** One septet adds exactly its seven bits at position [7 * i]. *)
Lemma pack_step s i packed L :
  is_septet s → length packed = L → (7 * S i <= 8 * L)%nat →
  ∃ packed', pack_loop [s] i packed = Ok packed' ∧ length packed' = L
    ∧ ∀ p, pbit packed' p
           = pbit packed p || ((7 * i <=? p)%nat && Z.testbit s (Z.of_nat p - Z.of_nat (7 * i))).
Proof.
  intros Hs HL Hi. cbn [pack_loop]. cbv zeta. set (o := (i * 7 / 8)%nat). set (sh := (i * 7 mod 8)%nat).
  assert (Ho : (i * 7 = 8 * o + sh)%nat ∧ (sh < 8)%nat).
  { pose proof (Nat.div_mod_eq (i * 7) 8). pose proof (Nat.mod_upper_bound (i * 7) 8 ltac:(lia)).
    unfold o, sh. lia. }
  clearbody o sh.
  rewrite at0_idx by lia. cbn [mbind res_bind].
  set (x' := Z.lor (at0 packed o) _).
  assert (Hx' : ∀ k, (k < 8)%nat → Z.testbit x' (Z.of_nat k)
    = Z.testbit (at0 packed o) (Z.of_nat k) || ((sh <=? k)%nat && Z.testbit s (Z.of_nat k - Z.of_nat sh))).
  { intros k Hk. unfold x'. rewrite Z.lor_spec. f_equal.
    rewrite land_255. unfold u8. rewrite Zmod_mod.
    change 256 with (2 ^ 8). rewrite Z.mod_pow2_bits_low by lia.
    destruct (Nat.leb_spec sh k); simpl; [by rewrite Z.shiftl_spec by lia|].
    by rewrite Z.shiftl_spec_low by lia. }
  destruct (Nat.ltb_spec 1 sh) as [Hsh|Hsh].
  - rewrite at0_idx by (rewrite length_insert; lia). rewrite at0_insert by lia.
    destruct (decide (S o = o)); [lia|]. cbn [mbind res_bind].
    eexists. split; [done|]. split; [by rewrite !length_insert|]. intros p. unfold pbit.
    pose proof (Nat.div_mod_eq p 8). pose proof (Nat.mod_upper_bound p 8 ltac:(lia)).
    rewrite !at0_insert by (rewrite ?length_insert; lia).
    destruct (decide (p / 8 = S o)%nat) as [E|E]; [|destruct (decide (p / 8 = o)%nat) as [E'|E']].
    + rewrite Z.lor_spec, E. f_equal. rewrite Z.shiftr_spec by lia.
      destruct (Nat.leb_spec (7 * i) p); [cbn [andb]|lia]. f_equal. lia.
    + rewrite Hx', E' by lia. f_equal.
      destruct (Nat.leb_spec sh (p mod 8)), (Nat.leb_spec (7 * i) p); try lia; cbn [andb]; try done.
      f_equal. lia.
    + destruct (Nat.leb_spec (7 * i) p); cbn [andb]; [|by rewrite orb_false_r].
      rewrite (septet_bits s) by (done || lia). by rewrite orb_false_r.
  - cbn [mbind res_bind]. eexists. split; [done|]. split; [by rewrite !length_insert|].
    intros p. unfold pbit. pose proof (Nat.div_mod_eq p 8). pose proof (Nat.mod_upper_bound p 8 ltac:(lia)).
    rewrite at0_insert by lia. destruct (decide (p / 8 = o)%nat) as [E'|E'].
    + rewrite Hx', E' by lia. f_equal.
      destruct (Nat.leb_spec sh (p mod 8)), (Nat.leb_spec (7 * i) p); try lia; cbn [andb]; try done.
      f_equal. lia.
    + destruct (Nat.leb_spec (7 * i) p); cbn [andb]; [|by rewrite orb_false_r].
      rewrite (septet_bits s) by (done || lia). by rewrite orb_false_r.
Qed.

Lemma pack_loop_cons s septets i packed :
  pack_loop (s :: septets) i packed
  = packed ← pack_loop [s] i packed; pack_loop septets (S i) packed.
Proof.
  cbn [pack_loop]. cbv zeta. destruct (idx packed _); try done. cbn [mbind res_bind].
  destruct (1 <? _)%nat; [|done]. by destruct (idx (<[_ := _]> packed) _).
Qed.

Lemma at0_ge l k : (length l <= k)%nat → at0 l k = 0.
Proof. intros. unfold at0. by rewrite lookup_ge_None_2. Qed.

Lemma sbit_snoc done s p :
  is_septet s →
  sbit (done ++ [s]) p
  = sbit done p || ((7 * length done <=? p)%nat && Z.testbit s (Z.of_nat p - Z.of_nat (7 * length done))).
Proof.
  intros Hs. unfold sbit. pose proof (Nat.div_mod_eq p 7) as Hp.
  pose proof (Nat.mod_upper_bound p 7 ltac:(lia)) as Hm. set (n := length done) in *.
  destruct (Nat.leb_spec (7 * n) p) as [Hle|Hlt]; cbn [andb].
  - rewrite (at0_ge done) by (fold n; lia). rewrite Z.bits_0, orb_false_l.
    unfold at0. destruct (decide (p / 7 = n)%nat) as [E|E].
    + rewrite E. unfold n. rewrite list_lookup_middle by done. change (default 0 (Some s)) with s. fold n.
      f_equal. lia.
    + rewrite lookup_ge_None_2 by (rewrite length_app; cbn [length]; fold n; lia).
      change (default 0 None) with 0. rewrite Z.bits_0. symmetry. apply septet_bits; [done|]. lia.
  - rewrite orb_false_r. unfold at0. rewrite lookup_app_l by (fold n; lia). done.
Qed.

Lemma pack_loop_bits septets : ∀ done packed L,
  Forall is_septet septets → length packed = L →
  (7 * (length done + length septets) <= 8 * L)%nat →
  (∀ p, pbit packed p = sbit done p) →
  ∃ packed', pack_loop septets (length done) packed = Ok packed' ∧ length packed' = L
    ∧ ∀ p, pbit packed' p = sbit (done ++ septets) p.
Proof.
  induction septets as [|s septets IH]; intros done packed L Hs HL Hl Hinv.
  { exists packed. by rewrite app_nil_r. }
  apply Forall_cons in Hs as [Hs Hss]. simpl in Hl.
  destruct (pack_step s (length done) packed L Hs HL ltac:(lia)) as (p1 & E & HL1 & Hb).
  rewrite pack_loop_cons, E. cbn [mbind res_bind].
  replace (S (length done)) with (length (done ++ [s])) by (rewrite length_app; simpl; lia).
  destruct (IH (done ++ [s]) p1 L) as (p2 & E2 & HL2 & Hb2); [done|done| | |].
  - rewrite length_app. simpl. lia.
  - intros p. by rewrite Hb, sbit_snoc, Hinv.
  - exists p2. rewrite <- app_assoc in Hb2. done.
Qed.

Lemma pbit_zeros n p : pbit (replicate n 0) p = false.
Proof.
  unfold pbit, at0. destruct (replicate n 0 !! (p / 8)%nat) eqn:E; [|apply Z.bits_0].
  apply lookup_replicate in E as [-> _]. apply Z.bits_0.
Qed.

(** The packed octets hold the septets' bits in order and the spare bits are
    the rest of the last octet. *)
Lemma packGSM7_bits septets :
  Forall is_septet septets →
  ∃ packed spare, packGSM7 septets = Ok (packed, spare)
    ∧ 0 <= spare < 8 ∧ Z.of_nat (length packed) * 8 = Z.of_nat (length septets) * 7 + spare
    ∧ ∀ p, pbit packed p = sbit septets p.
Proof.
  intros Hs. unfold packGSM7. set (n := length septets). set (L := ((n * 7 + 7) / 8)%nat).
  assert (HL : (n * 7 <= 8 * L < n * 7 + 8)%nat).
  { unfold L. pose proof (Nat.div_mod_eq (n * 7 + 7) 8).
    pose proof (Nat.mod_upper_bound (n * 7 + 7) 8 ltac:(lia)). lia. }
  clearbody L.
  destruct (pack_loop_bits septets [] (replicate L 0) L) as (packed & E & Hlen & Hb);
    [done|by rewrite length_replicate|simpl; fold n; lia| |].
  { intros p. rewrite pbit_zeros. unfold sbit, at0. rewrite lookup_nil. symmetry. apply Z.bits_0. }
  simpl length in E. rewrite E. cbn [mbind res_bind]. eexists _, _. split; [done|].
  rewrite u8_small by (unfold is_u8; lia). rewrite Hlen. split_and!; [lia|lia|lia|done].
Qed.

Lemma is_septet_eq a b :
  is_septet b → 0 <= a → (∀ k, 0 <= k < 7 → Z.testbit a k = Z.testbit b k) → Z.land a 0x7F = b.
Proof.
  intros Hb Ha Hk. apply Z.bits_inj'. intros k Hk0. change 0x7F with (Z.ones 7). rewrite Z.land_ones by lia.
  destruct (Z.lt_ge_cases k 7).
  - rewrite Z.mod_pow2_bits_low by lia. by apply Hk.
  - rewrite Z.mod_pow2_bits_high by lia. by rewrite septet_bits.
Qed.

Lemma unpack_step packed i s :
  is_septet s → bytes_ok packed → (7 * S i <= 8 * length packed)%nat →
  (∀ k, (k < 7)%nat → pbit packed (7 * i + k) = Z.testbit s (Z.of_nat k)) →
  ∀ total acc, unpack_loop packed i (S total) acc = unpack_loop packed (S i) total (acc ++ [s]).
Proof.
  intros Hs Hok Hi Hb total acc. cbn [unpack_loop]. cbv zeta.
  set (o := (i * 7 / 8)%nat). set (sh := (i * 7 mod 8)%nat).
  assert (Ho : (i * 7 = 8 * o + sh)%nat ∧ (sh < 8)%nat).
  { pose proof (Nat.div_mod_eq (i * 7) 8). pose proof (Nat.mod_upper_bound (i * 7) 8 ltac:(lia)).
    unfold o, sh. lia. }
  clearbody o sh. rewrite (at0_idx packed o) by lia. cbn [mbind res_bind].
  assert (Hpos : ∀ k, 0 <= at0 packed k).
  { intros k. unfold at0. destruct (packed !! k) eqn:E; simpl; [|lia].
    eapply Forall_lookup_1 in E; [|done]. unfold is_u8 in E. lia. }
  assert (Hbit : ∀ j k, (k < 8)%nat → pbit packed (8 * j + k) = Z.testbit (at0 packed j) (Z.of_nat k)).
  { intros j k Hk. unfold pbit.
    rewrite <- (Nat.div_unique (8 * j + k) 8 j k), <- (Nat.mod_unique (8 * j + k) 8 j k) by lia. done. }
  destruct (Nat.ltb_spec 1 sh) as [Hsh|Hsh]; cbn [andb].
  - destruct (Nat.ltb_spec (S o) (length packed)) as [_|]; [|lia].
    rewrite at0_idx by lia. cbn [mbind res_bind]. do 3 f_equal.
    apply is_septet_eq; [done| |].
    + apply Z.lor_nonneg. split; [apply Z.shiftr_nonneg; apply Hpos|].
      apply u8_range.
    + intros k Hk. rewrite Z.lor_spec, Z.shiftr_spec by lia.
      specialize (Hb (Z.to_nat k) ltac:(lia)). rewrite Z2Nat.id in Hb by lia. rewrite <- Hb.
      unfold u8. change 256 with (2 ^ 8). rewrite Z.mod_pow2_bits_low by lia.
      rewrite Z.shiftl_spec by lia.
      destruct (Z.lt_ge_cases (k + Z.of_nat sh) 8).
      * replace (7 * i + Z.to_nat k)%nat with (8 * o + Z.to_nat (k + Z.of_nat sh))%nat by lia.
        rewrite Hbit, Z2Nat.id, (Z.testbit_neg_r _ (k - _)) by lia. apply orb_false_r.
      * replace (7 * i + Z.to_nat k)%nat with (8 * S o + Z.to_nat (k + Z.of_nat sh - 8))%nat by lia.
        rewrite Hbit, Z2Nat.id by lia.
        assert (Z.testbit (at0 packed o) (k + Z.of_nat sh) = false) as ->.
        { clear -H Hok. unfold at0. destruct (packed !! o) eqn:E; simpl; [|apply Z.bits_0].
          eapply Forall_lookup_1 in E; [|done]. unfold is_u8 in E.
          destruct (Z.eq_dec z 0) as [->|]; [apply Z.bits_0|].
          apply Z.bits_above_log2; [lia|]. apply Z.log2_lt_pow2; [lia|].
          pose proof (Z.pow_le_mono_r 2 8 (k + Z.of_nat sh)). simpl in *. lia. }
        cbn [orb]. f_equal. lia.
  - cbn [mbind res_bind]. do 3 f_equal.
    apply is_septet_eq; [done|apply Z.shiftr_nonneg; apply Hpos|].
    intros k Hk. rewrite Z.shiftr_spec by lia.
    specialize (Hb (Z.to_nat k) ltac:(lia)). rewrite Z2Nat.id in Hb by lia. rewrite <- Hb.
    replace (7 * i + Z.to_nat k)%nat with (8 * o + Z.to_nat (k + Z.of_nat sh))%nat by lia.
    rewrite Hbit, Z2Nat.id by lia. done.
Qed.

Lemma pack_loop_ok septets : ∀ i packed packed',
  Forall is_septet septets → bytes_ok packed → pack_loop septets i packed = Ok packed' →
  bytes_ok packed'.
Proof.
  induction septets as [|s septets IH]; intros i packed packed' Hs Hok H; [by injection H as <-|].
  apply Forall_cons in Hs as [Hs Hss]. cbn [pack_loop] in H. cbv zeta in H.
  assert (Hget : ∀ l k x, bytes_ok l → idx l k = Ok x → is_u8 x).
  { intros l k x Hl. unfold idx. destruct (l !! k) eqn:E; [|done]. intros [= <-].
    by eapply Forall_lookup_1 in E. }
  apply bind_Ok in H as (x & Ex & H).
  assert (Hok1 : bytes_ok (<[(i * 7 / 8)%nat := Z.lor x (Z.land (u8 (s ≪ Z.of_nat (i * 7 mod 8))) 255)]> packed)).
  { apply Forall_insert; [done|]. apply lor_u8; [by eapply Hget|]. rewrite land_255. apply u8_range. }
  apply bind_Ok in H as (p1 & Ep & H). eapply (IH _ p1); [done| |done].
  destruct (1 <? i * 7 mod 8)%nat; [|by injection Ep as <-].
  apply bind_Ok in Ep as (y & Ey & Ep). injection Ep as <-.
  apply Forall_insert; [done|]. apply lor_u8; [by eapply Hget|].
  unfold is_septet, is_u8 in *. pose proof (Nat.mod_upper_bound (i * 7) 8 ltac:(lia)).
  rewrite Z.shiftr_div_pow2 by lia.
  assert (0 < 2 ^ (8 - Z.of_nat (i * 7 mod 8))) by (apply Z.pow_pos_nonneg; lia).
  split; [apply Z.div_pos; lia|]. apply Z.div_lt_upper_bound; nia.
Qed.

Lemma unpack_loop_bits septets packed : ∀ done acc,
  Forall is_septet septets → bytes_ok packed →
  (7 * (length done + length septets) <= 8 * length packed)%nat →
  (∀ p, pbit packed p = sbit (done ++ septets) p) →
  unpack_loop packed (length done) (length septets) acc = Ok (acc ++ septets).
Proof.
  induction septets as [|s septets IH]; intros done acc Hs Hok Hl Hb.
  { simpl. by rewrite app_nil_r. }
  apply Forall_cons in Hs as [Hs Hss]. cbn [length] in *.
  rewrite (unpack_step packed (length done) s); [|done|done|lia|].
  - replace (S (length done)) with (length (done ++ [s])) by (rewrite length_app; simpl; lia).
    rewrite IH; [by rewrite <- app_assoc|done|done|rewrite length_app; simpl; lia|].
    intros p. by rewrite <- app_assoc.
  - intros k Hk. rewrite Hb. unfold sbit.
    rewrite <- (Nat.div_unique (7 * length done + k) 7 (length done) k),
      <- (Nat.mod_unique (7 * length done + k) 7 (length done) k) by lia.
    unfold at0. by rewrite list_lookup_middle.
Qed.

Lemma unpackGSM7_pack septets :
  Forall is_septet septets →
  ∃ packed spare, packGSM7 septets = Ok (packed, spare)
    ∧ bytes_ok packed ∧ 0 <= spare < 8
    ∧ Z.of_nat (length packed) * 8 = Z.of_nat (length septets) * 7 + spare
    ∧ unpackGSM7 packed spare = Ok septets.
Proof.
  intros Hs. destruct (packGSM7_bits septets Hs) as (packed & spare & E & Hsp & Hlen & Hb).
  exists packed, spare. split; [done|].
  assert (Hok : bytes_ok packed).
  { unfold packGSM7 in E. apply bind_Ok in E as (p & Ep & E). injection E as <- _.
    eapply pack_loop_ok; [exact Hs| |exact Ep]. apply Forall_replicate. unfold is_u8. lia. }
  split_and!; try done; try lia. unfold unpackGSM7.
  destruct (Nat.eqb_spec (length packed) 0) as [E0|].
  { rewrite E0 in Hlen. destruct septets; [done|]. simpl in Hlen. lia. }
  rewrite Hlen, Z.add_simpl_r, Z.quot_mul, Nat2Z.id by lia.
  apply (unpack_loop_bits septets packed [] []); [done|done|simpl; lia|done].
Qed.

(** * The alphabet *)

Lemma assoc_in k v l : assoc k l = Some v → (k, v) ∈ l.
Proof.
  induction l as [|[k' v'] l IH]; simpl; [done|]. destruct (Z.eqb_spec k k') as [->|].
  - intros [= ->]. left.
  - intros H. right. auto.
Qed.

Lemma gsm7_septet_inv r s : gsm7_septet r = Some s → is_septet s ∧ gsm7Reverse s = Some r.
Proof.
  intros H%assoc_in.
  assert (Hall : Forall (λ e, 0 <= e.2 < 128 ∧ gsm7Reverse e.2 = Some e.1) gsm7BasicSet).
  { apply (bool_decide_unpack _). vm_compute. exact I. }
  eapply Forall_forall in Hall; [|done]. done.
Qed.

Lemma gsm7Septets_inv text : ∀ septets,
  gsm7Septets text = Some septets →
  Forall is_septet septets ∧ mapM gsm7Reverse septets = Some text ∧ length septets = length text.
Proof.
  unfold gsm7Septets. induction text as [|r text IH]; intros septets H.
  { injection H as <-. done. }
  cbn [mapM] in H. destruct (gsm7_septet r) as [s|] eqn:E; [|done].
  cbn [mbind option_bind] in H. destruct (mapM gsm7_septet text) as [ss|] eqn:E2; [|done].
  injection H as <-. destruct (IH ss eq_refl) as (Hs & Hm & Hl).
  apply gsm7_septet_inv in E as [Hr E]. split_and!; [by constructor| |simpl; by rewrite Hl].
  cbn [mapM]. rewrite E. cbn [mbind option_bind]. by rewrite Hm.
Qed.

(** * UCS-2 *)

(** A Unicode scalar value, as ranging over a valid string yields. *)
Definition is_scalar (r : Z) : Prop := 0 <= r < 0xD800 ∨ 0xE000 <= r <= 0x10FFFF.
#[global] Instance is_scalar_dec r : Decision (is_scalar r).
Proof. unfold is_scalar. apply _. Defined.

Lemma utf16_encode_rune_u16 r : is_scalar r → Forall is_u16 (utf16_encode_rune r).
Proof.
  intros Hr. unfold utf16_encode_rune, is_u16, is_scalar in *.
  do 3 case_bool_decide; cbn [orb]; repeat constructor; bitfield; dlia.
Qed.

Lemma utf16_decode_rune r rest :
  is_scalar r → utf16_decode (utf16_encode_rune r ++ rest) = r :: utf16_decode rest.
Proof.
  intros Hr. unfold utf16_encode_rune, is_scalar in *.
  destruct (decide (r < 0x10000)) as [Hlt|Hge].
  - assert (bool_decide (0 <= r < 0xD800) || bool_decide (0xE000 <= r < 0x10000) = true) as ->.
    { destruct Hr; [rewrite bool_decide_eq_true_2 by lia; done|].
      rewrite (bool_decide_eq_true_2 (0xE000 <= r < 0x10000)) by lia. apply orb_true_r. }
    simpl. assert (bool_decide (r < 0xD800) || bool_decide (0xE000 <= r) = true) as ->; [|done].
    destruct Hr; [rewrite bool_decide_eq_true_2 by lia; done|].
    rewrite (bool_decide_eq_true_2 (0xE000 <= r)) by lia. apply orb_true_r.
  - rewrite !(bool_decide_eq_false_2 (_ <= r < _)) by lia. simpl orb.
    rewrite bool_decide_eq_true_2 by lia. cbv iota.
    set (hi := Z.land ((r - 0x10000) ≫ 10) 0x3FF). set (lo := Z.land (r - 0x10000) 0x3FF).
    assert (Hhl : 0 <= hi < 1024 ∧ 0 <= lo < 1024 ∧ hi * 1024 + lo = r - 0x10000).
    { unfold hi, lo. bitfield. dlia. }
    clearbody hi lo. cbn [app utf16_decode].
    rewrite !bool_decide_eq_false_2 by lia. rewrite !bool_decide_eq_true_2 by lia. simpl andb. cbv iota.
    replace (0xD800 + hi - 0xD800) with hi by lia. replace (0xDC00 + lo - 0xDC00) with lo by lia.
    rewrite lor_shiftl_add by (simpl; lia). simpl (orb _ _). cbv iota. f_equal. lia.
Qed.

Lemma utf16_decode_encode text :
  Forall is_scalar text → utf16_decode (utf16_encode text) = text.
Proof.
  induction 1 as [|r text Hr _ IH]; [done|].
  change (utf16_encode (r :: text)) with (utf16_encode_rune r ++ utf16_encode text).
  rewrite utf16_decode_rune by done. by rewrite IH.
Qed.

Lemma ucs2_units_octets u :
  Forall is_u16 u → ucs2_units (u ≫= λ u, [u8 (u ≫ 8); u8 u]) = u.
Proof. induction 1 as [|x u Hx _ IH]; [done|]. simpl. rewrite be16_split by done. by f_equal. Qed.

Lemma ucs2_octets_even u :
  Z.of_nat (length (u ≫= λ u : Z, [u8 (u ≫ 8); u8 u])) mod 2 = 0.
Proof.
  induction u as [|x u IH]; [done|]. rewrite bind_cons, length_app. cbn [length].
  rewrite Nat2Z.inj_add. simpl (Z.of_nat 2). dlia.
Qed.

(** * Round trip of the IE *)

Lemma name_header coding spare :
  0 <= coding < 2 → 0 <= spare < 8 →
  let h := Z.lor (Z.lor 0x80 (u8 (Z.land coding 7 ≪ 4))) (Z.land spare 7) in
  Z.land (h ≫ 4) 7 = coding ∧ Z.land h 8 = 0 ∧ Z.land h 7 = spare.
Proof.
  intros Hc Hs h. assert (Hh : h = 0x80 + coding * 16 + spare).
  { unfold h. assert (Z.land coding 7 = coding) as -> by (bitfield; dlia).
    assert (Z.land spare 7 = spare) as -> by (bitfield; dlia).
    rewrite u8_small by (bitfield; unfold is_u8; lia).
    rewrite (lor_add 0x80 (coding ≪ 4) 7) by (bitfield; simpl; dlia).
    rewrite (lor_add _ spare 3) by (bitfield; simpl; dlia). bitfield. lia. }
  rewrite Hh. split_and!; [bitfield; dlia| |bitfield; dlia].
  assert (coding = 0 ∨ coding = 1) as [->| ->] by lia;
    assert (spare = 0 ∨ spare = 1 ∨ spare = 2 ∨ spare = 3 ∨ spare = 4 ∨ spare = 5 ∨ spare = 6
            ∨ spare = 7) as Hsp by lia; by intuition subst.
Qed.

(** The coding scheme the encoder chooses and the octets of the text. *)
Definition name_octets (text : list Z) : nat :=
  match gsm7Septets text with
  | Some _ => (length text * 7 + 7) / 8
  | None => length (ucs2_octets text)
  end.

Lemma DecodeNetworkName_Encode iei text :
  text ≠ [] → Forall is_scalar text → Z.of_nat (name_octets text) < 255 →
  ∃ contents, EncodeNetworkName iei text = Ok (tlv iei contents)
    ∧ Z.of_nat (length contents) < 256
    ∧ DecodeNetworkName contents
      = Ok (mkNetworkName (if decide (is_Some (gsm7Septets text))
                             then NetworkNameCodingGSM7 else NetworkNameCodingUCS2)
              false text).
Proof.
  intros Hne Hsc Hlen. unfold EncodeNetworkName.
  destruct (Nat.eqb_spec (length text) 0); [by destruct text|].
  unfold name_octets in Hlen. destruct (gsm7Septets text) as [septets|] eqn:E.
  - apply gsm7Septets_inv in E as (Hs & Hm & Hl).
    destruct (unpackGSM7_pack septets Hs) as (packed & spare & Ep & _ & Hsp & Hpl & Hu).
    rewrite Ep. cbn [mbind res_bind].
    pose proof (Nat.div_mod_eq (length text * 7 + 7) 8).
    pose proof (Nat.mod_upper_bound (length text * 7 + 7) 8 ltac:(lia)).
    destruct (Z.ltb_spec 255 (Z.of_nat (length packed) + 1)); [lia|].
    destruct (name_header 0 spare) as (B1 & B2 & B3); [lia|done|].
    set (h := Z.lor _ _). exists (h :: packed). split.
    { unfold tlv. cbn [length app]. by rewrite Nat2Z.inj_succ. }
    split; [cbn [length]; lia|]. unfold DecodeNetworkName. cbn [length Nat.ltb Nat.leb].
    rewrite slice_from_Ok by (cbn [length]; lia). cbn [idx lookup list_lookup mbind res_bind drop].
    unfold NetworkNameCodingGSM7, NetworkNameCodingUCS2 in *. fold h in B1, B2, B3.
    rewrite B1, B2, B3. simpl (_ =? _). cbv iota. rewrite drop_0, Hu. cbn [mbind res_bind]. by rewrite Hm.
  - cbn [mbind res_bind]. unfold ucs2_octets in *.
    destruct (Z.ltb_spec 255 (Z.of_nat (length (utf16_encode text ≫= λ u, [u8 (u ≫ 8); u8 u])) + 1));
      [lia|].
    destruct (name_header 1 0) as (B1 & B2 & B3); [lia..|].
    set (h := Z.lor _ _). set (body := utf16_encode text ≫= _) in *. exists (h :: body). split.
    { unfold tlv. cbn [length app]. by rewrite Nat2Z.inj_succ. }
    split; [cbn [length]; lia|]. unfold DecodeNetworkName. cbn [length Nat.ltb Nat.leb].
    rewrite slice_from_Ok by (cbn [length]; lia). cbn [idx lookup list_lookup mbind res_bind drop].
    unfold NetworkNameCodingGSM7, NetworkNameCodingUCS2 in *. fold h in B1, B2, B3.
    rewrite B1, B2. simpl (_ =? _). cbv iota. rewrite drop_0. unfold body.
    rewrite ucs2_octets_even, ucs2_units_octets, utf16_decode_encode; [done|done|].
    clear -Hsc. induction Hsc as [|r text Hr _ IH]; [constructor|].
    apply Forall_app. split; [by apply utf16_encode_rune_u16|done].
Qed.

(** * The decoder returns on every input *)

Lemma unpack_loop_safe packed total : ∀ i acc,
  (7 * (i + total) <= 8 * length packed)%nat → safe (unpack_loop packed i total acc).
Proof.
  induction total as [|total IH]; intros i acc Hl; [done|]. cbn [unpack_loop]. cbv zeta.
  pose proof (Nat.div_mod_eq (i * 7) 8). pose proof (Nat.mod_upper_bound (i * 7) 8 ltac:(lia)).
  apply safe_bind; [apply safe_idx; lia|]. intros x _.
  apply safe_bind; [|intros v _; apply IH; lia].
  destruct (1 <? _)%nat; [|done]. destruct (Nat.ltb_spec (S (i * 7 / 8)) (length packed)); [|done].
  apply safe_bind; [by apply safe_idx|done].
Qed.

Lemma DecodeNetworkName_safe b : safe (DecodeNetworkName b).
Proof.
  unfold DecodeNetworkName. destruct b as [|h b]; [done|]. cbn [length Nat.ltb Nat.leb].
  rewrite slice_from_Ok by (cbn [length]; lia). cbn [idx lookup list_lookup mbind res_bind drop].
  rewrite drop_0. destruct (_ =? NetworkNameCodingUCS2); [by destruct (negb _)|].
  destruct (_ =? NetworkNameCodingGSM7); [|done].
  apply safe_bind; [|intros s _; by destruct (mapM _ s)].
  unfold unpackGSM7. destruct (length b =? 0)%nat; [done|]. apply unpack_loop_safe.
  assert (0 <= Z.land h 7) by (rewrite land_7; dlia).
  destruct (Z.le_gt_cases 0 (Z.of_nat (length b) * 8 - Z.land h 7)) as [Hp|Hn].
  - rewrite Z.quot_div_nonneg by lia. pose proof (Z.mul_div_le (Z.of_nat (length b) * 8 - Z.land h 7) 7).
    lia.
  - assert (Z.quot (Z.of_nat (length b) * 8 - Z.land h 7) 7 <= 0); [|lia].
    apply Z.quot_le_upper_bound; lia.
Qed.

(** An operator name survives the NITZ encoding: any non-empty text of Unicode
    scalar values that fits the element is encoded, in GSM 7-bit when every
    character has a septet and in UCS-2 otherwise, and decoding the contents
    gives back the coding scheme and the text. *)
Lemma NetworkName_roundtrip iei text :
  text ≠ [] → Forall is_scalar text → Z.of_nat (name_octets text) < 255 →
  ∃ contents name, EncodeNetworkName iei text = Ok (tlv iei contents)
    ∧ DecodeNetworkName contents = Ok name ∧ Text name = text
    ∧ (CodingScheme name = NetworkNameCodingGSM7 ↔ is_Some (gsm7Septets text)).
Proof.
  intros Hne Hs Hl. destruct (DecodeNetworkName_Encode iei text Hne Hs Hl) as (c & E & _ & Hd).
  exists c. eexists. split; [exact E|]. split; [exact Hd|]. split; [done|]. simpl.
  case_decide; by split.
Qed.
