(* ===== verification/NasConfigUpdate.v ===== *)
(** Configuration Update Command and Complete
    (shared/nas/configuration_update.go). *)

From S2P Require Import Prelude NasReader NasIE NasRegistration NasSecurity NasNetworkName.

Record ConfigurationUpdateCommand := mkConfigurationUpdateCommand {
  ConfigUpdateIndication : option Z;
  cu_FiveGGUTI : option MobileIdentity;
  cu_TAIList : bytes;
  cu_AllowedNSSAI : option (list SNSSAI);
  FullNameForNetwork : list Z;
  ShortNameForNetwork : list Z;
  cu_ConfiguredNSSAI : option (list SNSSAI);
  NetworkSlicingIndication : option Z }.
#[global] Instance ConfigurationUpdateCommand_eq_dec : EqDecision ConfigurationUpdateCommand.
Proof. solve_decision. Defined.

(** An absent (empty) name is not written. *)
Definition name_ie (iei : Z) (name : list Z) : res bytes :=
  if (length name =? 0)%nat then Ok [] else EncodeNetworkName iei name.

(** [None] is the nil pointer. *)
Definition EncodeConfigurationUpdateCommand (c : option ConfigurationUpdateCommand) : res bytes :=
  match c with
  | None => Err "nas: nil ConfigurationUpdateCommand"
  | Some c =>
      guti ← (match guti_of (cu_FiveGGUTI c) with
              | Some g => gutiBytes ← Encode5GGUTI g; Ok (tlve 0x77 gutiBytes)
              | None => Ok []
              end);
      full ← name_ie 0x43 (FullNameForNetwork c);
      short ← name_ie 0x45 (ShortNameForNetwork c);
      Ok ((match ConfigUpdateIndication c with Some v => [Z.lor 0xD0 (Z.land v 0x0F)] | None => [] end)
          ++ guti
          ++ (if (0 <? length (cu_TAIList c))%nat then tlv 0x54 (cu_TAIList c) else [])
          ++ (match cu_AllowedNSSAI c with Some n => tlv 0x15 (EncodeNSSAI n) | None => [] end)
          ++ full ++ short
          ++ (match cu_ConfiguredNSSAI c with Some n => tlv 0x31 (EncodeNSSAI n) | None => [] end)
          ++ (match NetworkSlicingIndication c with Some v => [Z.lor 0x90 (Z.land v 0x0F)] | None => [] end))
  end.

Definition cu_set_ind v (c : ConfigurationUpdateCommand) : ConfigurationUpdateCommand :=
  mkConfigurationUpdateCommand v (cu_FiveGGUTI c) (cu_TAIList c) (cu_AllowedNSSAI c)
    (FullNameForNetwork c) (ShortNameForNetwork c) (cu_ConfiguredNSSAI c) (NetworkSlicingIndication c).
Definition cu_set_guti v (c : ConfigurationUpdateCommand) : ConfigurationUpdateCommand :=
  mkConfigurationUpdateCommand (ConfigUpdateIndication c) v (cu_TAIList c) (cu_AllowedNSSAI c)
    (FullNameForNetwork c) (ShortNameForNetwork c) (cu_ConfiguredNSSAI c) (NetworkSlicingIndication c).
Definition cu_set_tai v (c : ConfigurationUpdateCommand) : ConfigurationUpdateCommand :=
  mkConfigurationUpdateCommand (ConfigUpdateIndication c) (cu_FiveGGUTI c) v (cu_AllowedNSSAI c)
    (FullNameForNetwork c) (ShortNameForNetwork c) (cu_ConfiguredNSSAI c) (NetworkSlicingIndication c).
Definition cu_set_allowed v (c : ConfigurationUpdateCommand) : ConfigurationUpdateCommand :=
  mkConfigurationUpdateCommand (ConfigUpdateIndication c) (cu_FiveGGUTI c) (cu_TAIList c) v
    (FullNameForNetwork c) (ShortNameForNetwork c) (cu_ConfiguredNSSAI c) (NetworkSlicingIndication c).
Definition cu_set_full v (c : ConfigurationUpdateCommand) : ConfigurationUpdateCommand :=
  mkConfigurationUpdateCommand (ConfigUpdateIndication c) (cu_FiveGGUTI c) (cu_TAIList c)
    (cu_AllowedNSSAI c) v (ShortNameForNetwork c) (cu_ConfiguredNSSAI c) (NetworkSlicingIndication c).
Definition cu_set_short v (c : ConfigurationUpdateCommand) : ConfigurationUpdateCommand :=
  mkConfigurationUpdateCommand (ConfigUpdateIndication c) (cu_FiveGGUTI c) (cu_TAIList c)
    (cu_AllowedNSSAI c) (FullNameForNetwork c) v (cu_ConfiguredNSSAI c) (NetworkSlicingIndication c).
Definition cu_set_configured v (c : ConfigurationUpdateCommand) : ConfigurationUpdateCommand :=
  mkConfigurationUpdateCommand (ConfigUpdateIndication c) (cu_FiveGGUTI c) (cu_TAIList c)
    (cu_AllowedNSSAI c) (FullNameForNetwork c) (ShortNameForNetwork c) v (NetworkSlicingIndication c).
Definition cu_set_slicing v (c : ConfigurationUpdateCommand) : ConfigurationUpdateCommand :=
  mkConfigurationUpdateCommand (ConfigUpdateIndication c) (cu_FiveGGUTI c) (cu_TAIList c)
    (cu_AllowedNSSAI c) (FullNameForNetwork c) (ShortNameForNetwork c) (cu_ConfiguredNSSAI c) v.

(** [if n, err := DecodeNetworkName(b); err == nil { field = n.Text }] *)
Definition name_or_keep (m : res NetworkName) (old : list Z) : res (list Z) :=
  match m with
  | Ok n => Ok (Text n)
  | Err _ => Ok old
  | Panic => Panic
  | OutOfFuel => OutOfFuel
  end.

Definition cu_body (r : Reader) (c : ConfigurationUpdateCommand) : res (ctl ConfigurationUpdateCommand) :=
  match ReadByte r with
  | (_, None) => Ok (Stop c)
  | (r, Some iei) =>
      if iei ≫ 4 =? 0xD then Ok (Next r (cu_set_ind (Some (Z.land iei 0x0F)) c))
      else if iei ≫ 4 =? 0x9 then Ok (Next r (cu_set_slicing (Some (Z.land iei 0x0F)) c))
      else if iei =? 0x77 then
        let '(r, v) := ReadLVE r in
        mi ← mi_or_nil (DecodeMobileIdentity (or_nil v)); Ok (Next r (cu_set_guti mi c))
      else if iei =? 0x54 then let '(r, v) := ReadLV r in Ok (Next r (cu_set_tai (or_nil v) c))
      else if iei =? 0x15 then
        let '(r, v) := ReadLV r in
        '(nssai, _) ← DecodeNSSAI (or_nil v); Ok (Next r (cu_set_allowed (Some nssai) c))
      else if iei =? 0x43 then
        let '(r, v) := ReadLV r in
        t ← name_or_keep (DecodeNetworkName (or_nil v)) (FullNameForNetwork c);
        Ok (Next r (cu_set_full t c))
      else if iei =? 0x45 then
        let '(r, v) := ReadLV r in
        t ← name_or_keep (DecodeNetworkName (or_nil v)) (ShortNameForNetwork c);
        Ok (Next r (cu_set_short t c))
      else if iei =? 0x31 then
        let '(r, v) := ReadLV r in
        '(nssai, _) ← DecodeNSSAI (or_nil v); Ok (Next r (cu_set_configured (Some nssai) c))
      else if 0x80 <=? iei then Ok (Next r c)
      else
        match ReadByte r with
        | (r, None) => Ok (Next r c)
        | (r, Some l) => Ok (Next (ReadBytes r (Z.to_nat l)).1 c)
        end
  end.

Definition emptyCommand : ConfigurationUpdateCommand :=
  mkConfigurationUpdateCommand None None [] None [] [] None None.

Definition DecodeConfigurationUpdateCommand (b : bytes) : res ConfigurationUpdateCommand :=
  for_reader 1 cu_body (NewReader b) emptyCommand.

Definition EncodeConfigurationUpdateComplete : res bytes := Ok [].

(** * Round trip *)

Lemma cu_consumes : consumes 1 cu_body.
Proof. solve_consumes cu_body. Qed.

Definition name_ok (name : list Z) : Prop :=
  Forall is_scalar name ∧ Z.of_nat (name_octets name) < 255.
#[global] Instance name_ok_dec n : Decision (name_ok n).
Proof. unfold name_ok. apply _. Defined.

Definition cu_ok (c : ConfigurationUpdateCommand) : Prop :=
  match ConfigUpdateIndication c with Some v => 0 <= v < 16 | None => True end
  ∧ match NetworkSlicingIndication c with Some v => 0 <= v < 16 | None => True end
  ∧ (match cu_FiveGGUTI c with
     | None => True
     | Some mi => match mi_GUTI mi with
                  | Some g => guti_ok g ∧ mi = mkMobileIdentity MobileIdentityGUTI None (Some g) []
                  | None => False
                  end
     end)
  ∧ Z.of_nat (length (cu_TAIList c)) < 256
  ∧ nssai_ie_ok (cu_AllowedNSSAI c) ∧ nssai_ie_ok (cu_ConfiguredNSSAI c)
  ∧ name_ok (FullNameForNetwork c) ∧ name_ok (ShortNameForNetwork c).
#[global] Instance cu_ok_dec c : Decision (cu_ok c).
Proof.
  unfold cu_ok. destruct (ConfigUpdateIndication c), (NetworkSlicingIndication c),
    (cu_FiveGGUTI c) as [[? ? [?|] ?]|]; simpl; apply _.
Defined.

(** A half-octet IE: its identifier in the high nibble. *)
Lemma half_octet hi v :
  0 <= hi < 16 → 0 <= v < 16 →
  Z.lor (hi * 16) (Z.land v 0x0F) ≫ 4 = hi ∧ Z.land (Z.lor (hi * 16) (Z.land v 0x0F)) 0x0F = v.
Proof.
  intros Hh Hv. assert (Z.land v 15 = v) as -> by (bitfield; dlia).
  rewrite (lor_add _ v 4) by (simpl; dlia). split; bitfield; dlia.
Qed.

Lemma cu_ind c v :
  0 <= v < 16 → parses 1 cu_body c [Z.lor 0xD0 (Z.land v 0x0F)] (cu_set_ind (Some v) c).
Proof.
  intros Hv. apply parses_step; [lia|apply cu_consumes|simpl; lia|]. intros pre rest.
  destruct (half_octet 0xD v) as [H1 H2]; [lia|done|]. unfold cu_body. cbn [app].
  rewrite ReadByte_cons. change (0xD * 16) with 0xD0 in *. by rewrite H1, H2.
Qed.

Lemma cu_slicing c v :
  0 <= v < 16 → parses 1 cu_body c [Z.lor 0x90 (Z.land v 0x0F)] (cu_set_slicing (Some v) c).
Proof.
  intros Hv. apply parses_step; [lia|apply cu_consumes|simpl; lia|]. intros pre rest.
  destruct (half_octet 0x9 v) as [H1 H2]; [lia|done|]. unfold cu_body. cbn [app].
  rewrite ReadByte_cons. change (0x9 * 16) with 0x90 in *. by rewrite H1, H2.
Qed.

Ltac cu_ie :=
  apply parses_step; [lia|apply cu_consumes|simpl; lia|]; intros pre rest;
  unfold cu_body; unfold tlv at 1; cbn [app]; rewrite ReadByte_cons; simpl;
  rewrite ReadLV_iei by done; simpl.

Lemma cu_guti c v m :
  Z.of_nat (length v) < 65536 → DecodeMobileIdentity v = Ok m →
  parses 1 cu_body c (tlve 0x77 v) (cu_set_guti (Some m) c).
Proof.
  intros Hl Hm. apply parses_step; [lia|apply cu_consumes|simpl; lia|]. intros pre rest.
  unfold cu_body. unfold tlve at 1. cbn [app]. rewrite ReadByte_cons. simpl.
  rewrite ReadLVE_iei by done. simpl. by rewrite Hm.
Qed.

Lemma cu_tai c v :
  Z.of_nat (length v) < 256 → parses 1 cu_body c (tlv 0x54 v) (cu_set_tai v c).
Proof. intros. by cu_ie. Qed.

Lemma cu_allowed c n :
  nssai_ie_ok (Some n) → parses 1 cu_body c (tlv 0x15 (EncodeNSSAI n)) (cu_set_allowed (Some n) c).
Proof. intros [Hn Hl]. cu_ie. by rewrite DecodeNSSAI_EncodeNSSAI. Qed.

Lemma cu_configured c n :
  nssai_ie_ok (Some n) → parses 1 cu_body c (tlv 0x31 (EncodeNSSAI n)) (cu_set_configured (Some n) c).
Proof. intros [Hn Hl]. cu_ie. by rewrite DecodeNSSAI_EncodeNSSAI. Qed.

Lemma cu_full c name :
  name_ok name → FullNameForNetwork c = [] →
  ∃ b, name_ie 0x43 name = Ok b ∧ parses 1 cu_body c b (cu_set_full name c).
Proof.
  intros [Hs Hl] Hc. unfold name_ie. destruct (Nat.eqb_spec (length name) 0) as [E|E].
  { exists []. split; [done|]. destruct name; [|done]. destruct c; simpl in *; subst. apply parses_nil. }
  destruct (DecodeNetworkName_Encode 0x43 name) as (v & -> & Hv & Hd); [by intros ->|done|done|].
  eexists. split; [done|]. cu_ie. by rewrite Hd.
Qed.

Lemma cu_short c name :
  name_ok name → ShortNameForNetwork c = [] →
  ∃ b, name_ie 0x45 name = Ok b ∧ parses 1 cu_body c b (cu_set_short name c).
Proof.
  intros [Hs Hl] Hc. unfold name_ie. destruct (Nat.eqb_spec (length name) 0) as [E|E].
  { exists []. split; [done|]. destruct name; [|done]. destruct c; simpl in *; subst. apply parses_nil. }
  destruct (DecodeNetworkName_Encode 0x45 name) as (v & -> & Hv & Hd); [by intros ->|done|done|].
  eexists. split; [done|]. cu_ie. by rewrite Hd.
Qed.

Lemma DecodeConfigurationUpdateCommand_Encode c :
  cu_ok c →
  ∃ b, EncodeConfigurationUpdateCommand (Some c) = Ok b
    ∧ DecodeConfigurationUpdateCommand b = Ok c.
Proof.
  destruct c as [ind mi tai al fu sh co sl]. intros (Hi & Hsl & Hg & Ht & Ha & Hc & Hf & Hs).
  cbn [ConfigUpdateIndication NetworkSlicingIndication cu_FiveGGUTI cu_TAIList cu_AllowedNSSAI
       cu_ConfiguredNSSAI FullNameForNetwork ShortNameForNetwork] in *.
  set (st := mkConfigurationUpdateCommand).
  assert (Hguti : ∃ guti, match guti_of mi with
      | Some g => gutiBytes ← Encode5GGUTI g; Ok (tlve 0x77 gutiBytes) | None => Ok [] end = Ok guti
      ∧ parses 1 cu_body (st ind None [] None [] [] None None) guti (st ind mi [] None [] [] None None)).
  { unfold guti_of. destruct mi as [mi|]; simpl; [|exists []; split; [done|apply parses_nil]].
    destruct (mi_GUTI mi) as [g|]; [|done]. destruct Hg as [Hg ->].
    destruct (Encode5GGUTI_Ok g Hg) as (b & -> & Hlen & _ & Hdec). simpl.
    eexists. split; [done|]. apply (cu_guti (st ind None [] None [] [] None None)); [lia|done]. }
  destruct Hguti as (guti & Eg & Pg).
  destruct (cu_full (st ind mi tai al [] [] None None) fu Hf eq_refl) as (full & Ef & Pf).
  destruct (cu_short (st ind mi tai al fu [] None None) sh Hs eq_refl) as (short & Es & Ps).
  unfold EncodeConfigurationUpdateCommand, st.
  cbn [ConfigUpdateIndication NetworkSlicingIndication cu_FiveGGUTI cu_TAIList cu_AllowedNSSAI
       cu_ConfiguredNSSAI FullNameForNetwork ShortNameForNetwork].
  rewrite Eg, Ef, Es. cbn [mbind res_bind]. eexists. split; [done|].
  unfold DecodeConfigurationUpdateCommand, emptyCommand. rewrite NewReader_rd.
  apply for_reader_parses; [lia|apply cu_consumes|]. fold st.
  eapply (parses_app _ _ _ _ (st ind None [] None [] [] None None)).
  { apply (parses_opt _ _ ind _ (λ v, [Z.lor 0xD0 (Z.land v 0x0F)])
      (λ o, st o None [] None [] [] None None)); [done|].
    intros v ->. by apply (cu_ind (st None None [] None [] [] None None)). }
  eapply parses_app; [exact Pg|].
  eapply (parses_app _ _ _ _ (st ind mi tai None [] [] None None)).
  { apply parses_if; [intros _; by apply (cu_tai (st _ _ _ _ _ _ _ _))|by destruct tai]. }
  eapply (parses_app _ _ _ _ (st ind mi tai al [] [] None None)).
  { apply (parses_opt _ _ al _ _ (λ o, st ind mi tai o [] [] None None)); [done|].
    intros n ->. by apply (cu_allowed (st _ _ _ _ _ _ _ _)). }
  eapply parses_app; [exact Pf|]. eapply parses_app; [exact Ps|].
  eapply (parses_app _ _ _ _ (st ind mi tai al fu sh co None)).
  { apply (parses_opt _ _ co _ _ (λ o, st ind mi tai al fu sh o None)); [done|].
    intros n ->. by apply (cu_configured (st _ _ _ _ _ _ _ _)). }
  apply (parses_opt _ _ sl _ (λ v, [Z.lor 0x90 (Z.land v 0x0F)]) (λ o, st ind mi tai al fu sh co o));
    [done|].
  intros v ->. by apply (cu_slicing (st _ _ _ _ _ _ _ _)).
Qed.

(** * Panics of the decoder *)

Lemma name_or_keep_safe b old : safe (name_or_keep (DecodeNetworkName b) old).
Proof. pose proof (DecodeNetworkName_safe b). by destruct (DecodeNetworkName b). Qed.

Lemma DecodeConfigurationUpdateCommand_panics_only b :
  bytes_ok b → panics_only (nssai_bomb b) (DecodeConfigurationUpdateCommand b).
Proof.
  intros Hb. unfold DecodeConfigurationUpdateCommand.
  apply (for_reader_panics_only 1 cu_body) with (P := nssai_bomb) (r := NewReader b);
    [lia|apply cu_consumes| | |done].
  - solve_data cu_body.
  - clear. intros r s Hb. unfold cu_body. destruct (ReadByte r) as [r1 [iei|]] eqn:E1; [|done].
    destruct (iei ≫ 4 =? 0xD); [done|]. destruct (iei ≫ 4 =? 0x9); [done|].
    destruct (iei =? 0x77).
    { apply safe_panics_only. destruct (ReadLVE r1). apply safe_bind; [apply mi_or_nil_safe|done]. }
    destruct (iei =? 0x54); [by destruct (ReadLV r1)|].
    destruct (Z.eqb_spec iei 0x15) as [->|].
    { destruct (ReadLV r1) as [r2 w] eqn:E2. apply panics_only_bind; [|by intros [? ?] _].
      eapply ReadLV_nssai; [done..|]. do 2 constructor. }
    destruct (iei =? 0x43).
    { apply safe_panics_only. destruct (ReadLV r1). apply safe_bind; [apply name_or_keep_safe|done]. }
    destruct (iei =? 0x45).
    { apply safe_panics_only. destruct (ReadLV r1). apply safe_bind; [apply name_or_keep_safe|done]. }
    destruct (Z.eqb_spec iei 0x31) as [->|].
    { destruct (ReadLV r1) as [r2 w] eqn:E2. apply panics_only_bind; [|by intros [? ?] _].
      eapply ReadLV_nssai; [done..|]. do 3 constructor. }
    apply safe_panics_only. by repeat case_match.
Qed.
