(* ===== verification/NasEap.v ===== *)
(** The EAP relays of the NAS: slice-specific authentication messages
    (shared/nas/nssaa.go) and the 5GSM secondary-authentication messages
    (shared/nas/secondary_auth.go). *)

From S2P Require Import Prelude NasReader NasIE.

(** * LV S-NSSAI and LV-E EAP message *)

Definition encodeSNSSAILV (s : SNSSAI) : bytes :=
  if SD s =? SDNotPresent then [1; SST s]
  else [4; SST s; u8 (SD s ≫ 16); u8 (SD s ≫ 8); u8 (SD s)].

(** The S-NSSAI and the number of octets consumed. *)
Definition decodeSNSSAILV (b : bytes) : res (SNSSAI * nat) :=
  if (length b <? 1)%nat then Err "nas: S-NSSAI IE missing length"
  else
    l ← idx b 0;
    let len := Z.to_nat l in
    if (len <? 1)%nat || (length b <? 1 + len)%nat then Err "nas: S-NSSAI IE truncated (len %d)"
    else
      sst ← idx b 1;
      sd ← (if (4 <=? len)%nat then
              b2 ← idx b 2; b3 ← idx b 3; b4 ← idx b 4; Ok (be24 b2 b3 b4)
            else Ok SDNotPresent);
      Ok (mkSNSSAI sst sd, (1 + len)%nat).

Definition encodeEAPMessageLVE (eap : bytes) : bytes :=
  u8 (Z.of_nat (length eap) ≫ 8) :: u8 (Z.of_nat (length eap)) :: go_copy (replicate (length eap) 0) eap.

Definition decodeEAPMessageLVE (b : bytes) : res bytes :=
  if (length b <? 2)%nat then Err "nas: EAP message IE missing length"
  else
    b0 ← idx b 0; b1 ← idx b 1;
    let len := Z.to_nat (be16 b0 b1) in
    if (length b <? 2 + len)%nat then Err "nas: EAP message IE truncated (len %d)"
    else v ← slice b 2 (2 + len); Ok (go_copy (replicate len 0) v).

Definition encodeNSSAABody (s : SNSSAI) (eap : bytes) : bytes :=
  encodeSNSSAILV s ++ encodeEAPMessageLVE eap.

Definition decodeNSSAABody (b : bytes) : res (SNSSAI * bytes) :=
  '(s, n) ← decodeSNSSAILV b;
  rest ← slice_from b n;
  eap ← decodeEAPMessageLVE rest;
  Ok (s, eap).

(** * Slice-specific authentication: three messages with one body *)

Record NSSAAuthCommand := mkNSSAAuthCommand { nc_SNSSAI : SNSSAI; nc_EAPMessage : bytes }.
Record NSSAAuthComplete := mkNSSAAuthComplete { np_SNSSAI : SNSSAI; np_EAPMessage : bytes }.
Record NSSAAuthResult := mkNSSAAuthResult { nr_SNSSAI : SNSSAI; nr_EAPMessage : bytes }.
#[global] Instance NSSAAuthCommand_eq_dec : EqDecision NSSAAuthCommand.
Proof. solve_decision. Defined.
#[global] Instance NSSAAuthComplete_eq_dec : EqDecision NSSAAuthComplete.
Proof. solve_decision. Defined.
#[global] Instance NSSAAuthResult_eq_dec : EqDecision NSSAAuthResult.
Proof. solve_decision. Defined.

Definition EncodeNSSAAuthCommand (c : NSSAAuthCommand) : res bytes :=
  Ok (encodeNSSAABody (nc_SNSSAI c) (nc_EAPMessage c)).
Definition DecodeNSSAAuthCommand (b : bytes) : res NSSAAuthCommand :=
  '(s, eap) ← decodeNSSAABody b; Ok (mkNSSAAuthCommand s eap).
Definition EncodeNSSAAuthComplete (c : NSSAAuthComplete) : res bytes :=
  Ok (encodeNSSAABody (np_SNSSAI c) (np_EAPMessage c)).
Definition DecodeNSSAAuthComplete (b : bytes) : res NSSAAuthComplete :=
  '(s, eap) ← decodeNSSAABody b; Ok (mkNSSAAuthComplete s eap).
Definition EncodeNSSAAuthResult (r : NSSAAuthResult) : res bytes :=
  Ok (encodeNSSAABody (nr_SNSSAI r) (nr_EAPMessage r)).
Definition DecodeNSSAAuthResult (b : bytes) : res NSSAAuthResult :=
  '(s, eap) ← decodeNSSAABody b; Ok (mkNSSAAuthResult s eap).

(** * Secondary authentication over 5GSM *)

Definition PDGroupSessionManagement : Z := 0x2E.
Definition MsgTypePDUSessionEstablishmentReject : Z := 0xC3.
Definition MsgTypePDUSessionAuthenticationCommand : Z := 0xC5.
Definition MsgTypePDUSessionAuthenticationComplete : Z := 0xC6.
Definition MsgTypePDUSessionAuthenticationResult : Z := 0xC7.

Definition WrapPDUSessionAuthenticationCommandBody (psi pti : Z) (eap : bytes) : bytes :=
  [PDGroupSessionManagement; psi; pti; MsgTypePDUSessionAuthenticationCommand] ++ encodeEAPMessageLVE eap.
Definition WrapPDUSessionAuthenticationCompleteBody (psi pti : Z) (eap : bytes) : bytes :=
  [PDGroupSessionManagement; psi; pti; MsgTypePDUSessionAuthenticationComplete] ++ encodeEAPMessageLVE eap.
Definition WrapPDUSessionAuthenticationResultBody (psi pti : Z) (eap : bytes) : bytes :=
  [PDGroupSessionManagement; psi; pti; MsgTypePDUSessionAuthenticationResult] ++ encodeEAPMessageLVE eap.

Definition IEIEAPMessage : Z := 0x78.

Definition EncodeEAPMessageTLVE (eap : bytes) : bytes :=
  [IEIEAPMessage; u8 (Z.of_nat (length eap) ≫ 8); u8 (Z.of_nat (length eap))] ++ eap.

Definition DecodeEAPMessageTLVE (b : bytes) : res (bytes * nat) :=
  if (length b <? 3)%nat then Err "nas: EAP message TLV-E: too short (%d bytes)"
  else
    b0 ← idx b 0;
    if negb (b0 =? IEIEAPMessage) then Err "nas: EAP message TLV-E: unexpected IEI 0x%02X (want 0x%02X)"
    else
      b1 ← idx b 1; b2 ← idx b 2;
      let len := Z.to_nat (be16 b1 b2) in
      if (length b <? 3 + len)%nat then Err "nas: EAP message TLV-E: truncated (len %d)"
      else v ← slice b 3 (3 + len); Ok (go_copy (replicate len 0) v, (3 + len)%nat).

Definition WrapPDUSessionEstablishmentRejectBody (psi pti cause : Z) (eap : bytes) : bytes :=
  [PDGroupSessionManagement; psi; pti; MsgTypePDUSessionEstablishmentReject; cause]
  ++ (if (0 <? length eap)%nat then EncodeEAPMessageTLVE eap else []).

(** * Round trips *)

Lemma go_copy_make n (v : bytes) : length v = n → go_copy (replicate n 0) v = v.
Proof. intros. apply go_copy_full. by rewrite length_replicate. Qed.

Lemma decodeSNSSAILV_encode s rest :
  snssai_ok s →
  decodeSNSSAILV (encodeSNSSAILV s ++ rest) = Ok (s, length (encodeSNSSAILV s)).
Proof.
  intros [Hs Hd]. unfold encodeSNSSAILV, decodeSNSSAILV.
  destruct (Z.eqb_spec (SD s) SDNotPresent) as [E|E]; simpl.
  - rewrite <- E. by destruct s.
  - rewrite be24_split by done. by destruct s.
Qed.

Lemma decodeEAPMessageLVE_encode eap rest :
  Z.of_nat (length eap) < 65536 → decodeEAPMessageLVE (encodeEAPMessageLVE eap ++ rest) = Ok eap.
Proof.
  intros Hl. unfold encodeEAPMessageLVE. rewrite go_copy_make by done.
  unfold decodeEAPMessageLVE. nat_ltb; [simpl in *; lia|].
  cbn [app idx lookup list_lookup mbind res_bind].
  rewrite be16_split by (unfold is_u16; lia). rewrite Nat2Z.id.
  nat_ltb; [cbn [length] in *; rewrite length_app in *; lia|].
  rewrite slice_Ok by (cbn [length]; rewrite ?length_app; lia). cbn [mbind res_bind drop].
  replace (2 + length eap - 2)%nat with (length eap) by lia.
  rewrite ?drop_0, take_app_length. by rewrite go_copy_make.
Qed.

Lemma decodeNSSAABody_encode s eap rest :
  snssai_ok s → Z.of_nat (length eap) < 65536 →
  decodeNSSAABody (encodeNSSAABody s eap ++ rest) = Ok (s, eap).
Proof.
  intros Hs Hl. unfold decodeNSSAABody, encodeNSSAABody. rewrite <- app_assoc.
  rewrite decodeSNSSAILV_encode by done. cbn [mbind res_bind].
  rewrite slice_from_Ok by (rewrite length_app; lia). cbn [mbind res_bind].
  rewrite drop_app_length. by rewrite decodeEAPMessageLVE_encode.
Qed.

Lemma decodeEAPMessageLVE_safe b : safe (decodeEAPMessageLVE b).
Proof.
  unfold decodeEAPMessageLVE. destruct b as [|b0 [|b1 b]]; try done.
  nat_ltb; [done|]. cbn [idx lookup list_lookup mbind res_bind]. nat_ltb; [done|].
  rewrite slice_Ok by (cbn [length] in *; lia). done.
Qed.

Lemma decodeNSSAABody_safe b : safe (decodeNSSAABody b).
Proof.
  unfold decodeNSSAABody.
  assert (H : match decodeSNSSAILV b with
              | Ok (_, n) => (n <= length b)%nat | Err _ => True | _ => False end).
  { unfold decodeSNSSAILV. destruct b as [|l b]; [done|].
    nat_ltb; [done|]. cbn [idx lookup list_lookup mbind res_bind].
    destruct (_ || _) eqn:E; [done|]. apply orb_false_iff in E as [E1%Nat.ltb_ge E2%Nat.ltb_ge].
    destruct (idx_Ok (l :: b) 1) as (x & _ & ->); [simpl in *; lia|]. cbn [mbind res_bind].
    destruct (Nat.leb_spec 4 (Z.to_nat l)); [|cbn [mbind res_bind length] in *; lia].
    destruct (idx_Ok (l :: b) 2) as (? & _ & ->); [simpl in *; lia|].
    destruct (idx_Ok (l :: b) 3) as (? & _ & ->); [simpl in *; lia|].
    destruct (idx_Ok (l :: b) 4) as (? & _ & ->); [simpl in *; lia|]. cbn [mbind res_bind length] in *. lia. }
  destruct (decodeSNSSAILV b) as [[s n]| | |]; try done. cbn [mbind res_bind].
  rewrite slice_from_Ok by done. cbn [mbind res_bind].
  apply safe_bind; [apply decodeEAPMessageLVE_safe|done].
Qed.

(** An EAP message of up to 65535 octets survives the TLV-E encoding of the
    PDU session authentication messages; the decoder also reports how many octets
    it used, whatever follows. *)
Lemma DecodeEAPMessageTLVE_Encode eap rest :
  Z.of_nat (length eap) < 65536 →
  DecodeEAPMessageTLVE (EncodeEAPMessageTLVE eap ++ rest)
  = Ok (eap, length (EncodeEAPMessageTLVE eap)).
Proof.
  intros Hl. unfold EncodeEAPMessageTLVE, DecodeEAPMessageTLVE.
  nat_ltb; [simpl in *; lia|]. cbn [app idx lookup list_lookup mbind res_bind].
  simpl (negb _). cbv iota.
  rewrite be16_split by (unfold is_u16; lia). rewrite Nat2Z.id.
  nat_ltb; [cbn [length app] in *; rewrite length_app in *; lia|].
  rewrite slice_Ok by (cbn [length]; rewrite ?length_app; lia). cbn [mbind res_bind drop].
  replace (3 + length eap - 3)%nat with (length eap) by lia.
  rewrite ?drop_0, take_app_length. by rewrite go_copy_make.
Qed.
