(* ===== verification/NasPduSession.v ===== *)
(** 5GSM messages and their building blocks (shared/nas/pdu_session.go): the
    Establishment Request decoder, (E)PCO containers and IPCP, the
    Establishment Accept and Modification Command encoders. *)

From S2P Require Import Prelude NasReader NasIE NasTransport NasEap.

(** * net.IP of the Go standard library

    An address is its octets: 4 or 16 of them, any other length is invalid. *)

Definition v4InV6Prefix : bytes := [0; 0; 0; 0; 0; 0; 0; 0; 0; 0; 255; 255].

Definition To4 (ip : bytes) : option bytes :=
  if (length ip =? 4)%nat then Some ip
  else if (length ip =? 16)%nat && bool_decide (take 12 ip = v4InV6Prefix) then Some (drop 12 ip)
  else None.

Definition To16 (ip : bytes) : option bytes :=
  if (length ip =? 4)%nat then Some (v4InV6Prefix ++ ip)
  else if (length ip =? 16)%nat then Some ip
  else None.

(** * Constants *)

Definition IEIEPCO : Z := 0x7B.
Definition IEIPDUAddress : Z := 0x29.
Definition IEISNSSAI5GSM : Z := 0x22.
Definition IEIDNN5GSM : Z := 0x25.
Definition IEIAuthorizedQoSRules : Z := 0x7A.
Definition IEISessionAMBR : Z := 0x2A.
Definition IEIAuthorizedQoSFlowDesc : Z := 0x79.
Definition Cause5GSMPDUSessionTypeIPv4OnlyAllowed : Z := 0x32.
Definition Cause5GSMPDUSessionTypeIPv6OnlyAllowed : Z := 0x33.
Definition PDUSessionTypeIPv4 : Z := 1.
Definition PDUSessionTypeIPv6 : Z := 2.
Definition PDUSessionTypeIPv4v6 : Z := 3.
Definition MsgTypePDUSessionEstablishmentAccept : Z := 0xC2.
Definition MsgTypePDUSessionModificationCommand : Z := 0xCB.
Definition MsgTypePDUSessionReleaseCommand : Z := 0xD3.
Definition ContainerIDDNSServerIPv4Address : Z := 0x000D.
Definition ContainerIDDNSServerIPv6Address : Z := 0x0003.
Definition ContainerIDIPv4LinkMTU : Z := 0x0010.
Definition containerIDMSSupportLocalAddrTFT : Z := 0x0011.
Definition containerIDIPCP : Z := 0x8021.
Definition DefaultIPv4LinkMTU : Z := 1400.
Definition ipcpCodeConfigureRequest : Z := 1.
Definition ipcpCodeConfigureAck : Z := 2.
Definition ipcpOptPrimaryDNS : Z := 129.
Definition ipcpOptSecondaryDNS : Z := 131.

(** * IPCP *)

Record IPCPConfigureRequest := mkIPCPConfigureRequest {
  Identifier : Z;
  WantsPrimaryDNS : bool;
  WantsSecondaryDNS : bool }.
#[global] Instance IPCPConfigureRequest_eq_dec : EqDecision IPCPConfigureRequest.
Proof. solve_decision. Defined.

(** The option loop: every iteration drops [optLen >= 2] octets. *)
Fixpoint ipcp_opts (fuel : nat) (opts : bytes) (req : IPCPConfigureRequest) : res IPCPConfigureRequest :=
  match opts with
  | optType :: optLen :: _ =>
      match fuel with
      | O => OutOfFuel
      | S fuel =>
          let n := Z.to_nat optLen in
          if (n <? 2)%nat || (length opts <? n)%nat then Ok req
          else
            let req :=
              if optType =? ipcpOptPrimaryDNS
              then mkIPCPConfigureRequest (Identifier req) true (WantsSecondaryDNS req)
              else if optType =? ipcpOptSecondaryDNS
              then mkIPCPConfigureRequest (Identifier req) (WantsPrimaryDNS req) true
              else req in
            opts ← slice_from opts n;
            ipcp_opts fuel opts req
      end
  | _ => Ok req
  end.

(** [None] is the nil pointer. The declared length is capped from above but not
    from below before [value[4:l]] is taken. *)
Definition parseIPCPConfigureRequest (value : bytes) : res (option IPCPConfigureRequest) :=
  match value with
  | v0 :: v1 :: v2 :: v3 :: _ =>
      if negb (v0 =? ipcpCodeConfigureRequest) then Ok None
      else
        let l := Z.to_nat (be16 v2 v3) in
        let l := if (length value <? l)%nat then length value else l in
        opts ← slice value 4 l;
        req ← ipcp_opts (length opts) opts (mkIPCPConfigureRequest v1 false false);
        Ok (Some req)
  | _ => Ok None
  end.

(** * (E)PCO containers *)

Definition epcoContainer : Type := Z * bytes.

Fixpoint epco_loop (fuel : nat) (b : bytes) (out : list epcoContainer) : res (list epcoContainer) :=
  match b with
  | b0 :: b1 :: b2 :: _ =>
      match fuel with
      | O => OutOfFuel
      | S fuel =>
          let l := Z.to_nat b2 in
          if (length b <? 3 + l)%nat then Ok out
          else
            v ← slice b 3 (3 + l);
            rest ← slice_from b (3 + l);
            epco_loop fuel rest (out ++ [(be16 b0 b1, v)])
      end
  | _ => Ok out
  end.

Definition parseEPCOContainerList (epco : bytes) : res (list epcoContainer) :=
  match epco with
  | [] => Ok []
  | _ :: b => epco_loop (length b) b []
  end.

(** [parseEPCOContainers(epco)[id]]: a later container overwrites an earlier one. *)
Definition last_container (id : Z) (cs : list epcoContainer) : option bytes :=
  foldl (λ acc c, if c.1 =? id then Some c.2 else acc) None cs.

Definition ParseIPCPFromEPCO (epco : bytes) : res (option IPCPConfigureRequest) :=
  cs ← parseEPCOContainerList epco;
  match last_container containerIDIPCP cs with
  | None => Ok None
  | Some value => parseIPCPConfigureRequest value
  end.

(** * PDU Session Establishment Request *)

Record PDUSessionEstablishmentRequest := mkEstReq {
  IntegrityProtectionMaxDataRate : bytes;
  er_PDUSessionType : option Z;
  er_SSCMode : option Z;
  ExtendedProtocolConfigOptions : bytes;
  IPCPRequest : option IPCPConfigureRequest;
  RequestedPCOContainerIDs : list Z;
  PCOConfigProtocolOctet : Z }.
#[global] Instance EstReq_eq_dec : EqDecision PDUSessionEstablishmentRequest.
Proof. solve_decision. Defined.

Definition emptyEstReq : PDUSessionEstablishmentRequest := mkEstReq [0; 0] None None [] None [] 0.

(** The EPCO case: the IPCP request and the container list of its octets. *)
Definition estreq_epco (v : bytes) (m : PDUSessionEstablishmentRequest)
    : res PDUSessionEstablishmentRequest :=
  ipcp ← ParseIPCPFromEPCO v;
  cs ← parseEPCOContainerList v;
  Ok (mkEstReq (IntegrityProtectionMaxDataRate m) (er_PDUSessionType m) (er_SSCMode m) v ipcp
        (RequestedPCOContainerIDs m ++ cs.*1)
        (match v with o :: _ => o | [] => PCOConfigProtocolOctet m end)).

Definition estreq_body (r : Reader) (m : PDUSessionEstablishmentRequest)
    : res (ctl PDUSessionEstablishmentRequest) :=
  match ReadByte r with
  | (_, None) => Ok (Stop m)
  | (r, Some iei) =>
      if iei ≫ 4 =? 0x9 then
        Ok (Next r (mkEstReq (IntegrityProtectionMaxDataRate m) (Some (Z.land iei 0x0F)) (er_SSCMode m)
                      (ExtendedProtocolConfigOptions m) (IPCPRequest m) (RequestedPCOContainerIDs m)
                      (PCOConfigProtocolOctet m)))
      else if iei ≫ 4 =? 0xA then
        Ok (Next r (mkEstReq (IntegrityProtectionMaxDataRate m) (er_PDUSessionType m)
                      (Some (Z.land iei 0x0F)) (ExtendedProtocolConfigOptions m) (IPCPRequest m)
                      (RequestedPCOContainerIDs m) (PCOConfigProtocolOctet m)))
      else if iei ≫ 4 =? 0xB then Ok (Next r m)
      else if iei =? IEIEPCO then
        let '(r, v) := ReadLVE r in
        m ← estreq_epco (or_nil v) m; Ok (Next r m)
      else if iei =? 0x55 then Ok (Next (ReadBytes r 2).1 m)
      else
        match ReadByte r with
        | (r, None) => Ok (Next r m)
        | (r, Some l) => Ok (Next (ReadBytes r (Z.to_nat l)).1 m)
        end
  end.

Definition DecodePDUSessionEstablishmentRequest (b : bytes) : res PDUSessionEstablishmentRequest :=
  match b with
  | [] => Ok emptyEstReq
  | _ =>
      match ReadBytes (NewReader b) 2 with
      | (_, None) => Err "nas: 5GSM EstablishmentRequest: integrity protection max data rate: %w"
      | (r, Some v) =>
          for_reader 1 estreq_body r (mkEstReq (go_copy [0; 0] v) None None [] None [] 0)
      end
  end.

(** * (E)PCO reply *)

(** [byte(id>>8), byte(id&0xFF), byte(len(value)), value...] *)
Definition appendContainer (id : Z) (value : bytes) : bytes :=
  u8 (id ≫ 8) :: u8 (Z.land id 0xFF) :: u8 (Z.of_nat (length value)) :: value.

(** [None] is the nil slice. *)
Definition EncodePCODNSAndMTU (mtu : Z) (dns : list bytes) : option bytes :=
  let containers :=
    (if negb (mtu =? 0) then appendContainer ContainerIDIPv4LinkMTU [u8 (mtu ≫ 8); u8 (Z.land mtu 0xFF)]
     else [])
    ++ (dns ≫= λ ip, match To4 ip with
                      | Some v4 => appendContainer ContainerIDDNSServerIPv4Address v4
                      | None => []
                      end) in
  if (length containers =? 0)%nat then None else Some ([0x80] ++ containers).

(** The DNS option of the Configure-Ack, when the UE asked for it. *)
Definition ipcp_dns_opt (wants : bool) (opt : Z) (addr : option bytes) : bytes :=
  if wants then match addr ≫= To4 with Some v4 => opt :: 6 :: v4 | None => [] end else [].

Definition EncodeIPCPConfigAckContainer (req : option IPCPConfigureRequest)
    (primary secondary : option bytes) : option bytes :=
  match req with
  | None => None
  | Some req =>
      let opts := ipcp_dns_opt (WantsPrimaryDNS req) ipcpOptPrimaryDNS primary
                  ++ ipcp_dns_opt (WantsSecondaryDNS req) ipcpOptSecondaryDNS secondary in
      if (length opts =? 0)%nat then None
      else
        let ipcpLen := 4 + Z.of_nat (length opts) in
        let ipcp := [ipcpCodeConfigureAck; Identifier req; u8 (ipcpLen ≫ 8); u8 (Z.land ipcpLen 0xFF)]
                    ++ opts in
        Some ([u8 (containerIDIPCP ≫ 8); u8 (Z.land containerIDIPCP 0xFF);
               u8 (Z.of_nat (length ipcp))] ++ ipcp)
  end.

Record EPCOReplyConfig := mkEPCOReplyConfig {
  ConfigProtocolOctet : Z;
  RequestedIDs : list Z;
  IPCP : option IPCPConfigureRequest;
  cfg_DNSv4 : list bytes;
  cfg_DNSv6 : list bytes;
  cfg_MTU : Z }.

Definition EncodePCODNSMTUAndIPCP (mtu : Z) (extra : option bytes) (dns : list bytes) : option bytes :=
  let base := EncodePCODNSAndMTU mtu dns in
  match extra with
  | None | Some [] => base
  | Some extra => Some (default [0x80] base ++ extra)
  end.

(** The reply to one requested container. *)
Definition epco_answer (cfg : EPCOReplyConfig) (id : Z) : bytes :=
  if id =? containerIDIPCP then
    default [] (EncodeIPCPConfigAckContainer (IPCP cfg) (cfg_DNSv4 cfg !! 0%nat) (cfg_DNSv4 cfg !! 1%nat))
  else if id =? ContainerIDDNSServerIPv4Address then
    cfg_DNSv4 cfg ≫= λ ip, match To4 ip with Some v4 => appendContainer id v4 | None => [] end
  else if id =? ContainerIDDNSServerIPv6Address then
    cfg_DNSv6 cfg ≫= λ ip, match To16 ip, To4 ip with
                           | Some v6, None => appendContainer id v6
                           | _, _ => []
                           end
  else if id =? ContainerIDIPv4LinkMTU then
    if negb (cfg_MTU cfg =? 0)
    then appendContainer id [u8 (cfg_MTU cfg ≫ 8); u8 (Z.land (cfg_MTU cfg) 0xFF)] else []
  else if id =? containerIDMSSupportLocalAddrTFT then appendContainer id []
  else [].

Definition BuildEPCOReply (cfg : EPCOReplyConfig) : option bytes :=
  if (length (RequestedIDs cfg) =? 0)%nat then
    EncodePCODNSMTUAndIPCP (cfg_MTU cfg)
      (EncodeIPCPConfigAckContainer (IPCP cfg) (cfg_DNSv4 cfg !! 0%nat) (cfg_DNSv4 cfg !! 1%nat))
      (cfg_DNSv4 cfg)
  else
    let containers := RequestedIDs cfg ≫= epco_answer cfg in
    if (length containers =? 0)%nat then None
    else
      let ext := if ConfigProtocolOctet cfg =? 0 then 0x80 else ConfigProtocolOctet cfg in
      Some (ext :: containers).

(** * QoS building blocks *)

Definition QoSRuleOpCreateNew : Z := 1.
Definition QoSRuleOpModifyReplaceFilters : Z := 3.
Definition QoSFlowOpCreateNew : Z := 1.
Definition QoSFlowOpModifyExisting : Z := 3.

Definition len_lve (v : bytes) : bytes :=
  u8 (Z.of_nat (length v) ≫ 8) :: u8 (Z.land (Z.of_nat (length v)) 0xFF) :: v.

Definition buildQoSRule (op qfi : Z) : bytes :=
  let rule := [Z.lor (Z.lor (u8 (op ≪ 5)) (1 ≪ 4)) 0x01; Z.lor (3 ≪ 4) 0x01; 0x01; 0x01; 0xFF;
               Z.land qfi 0x3F] in
  [0x01] ++ len_lve rule.

Definition BuildDefaultQoSRules (qfi : Z) : bytes := buildQoSRule QoSRuleOpCreateNew qfi.
Definition BuildModifyQoSRules (qfi : Z) : bytes := buildQoSRule QoSRuleOpModifyReplaceFilters qfi.

Definition Is5QIGBR (fiveQI : Z) : bool :=
  ((1 <=? fiveQI) && (fiveQI <=? 4)) || ((65 <=? fiveQI) && (fiveQI <=? 67))
  || ((71 <=? fiveQI) && (fiveQI <=? 76)) || ((82 <=? fiveQI) && (fiveQI <=? 85)).

Definition rate_octets (mbps : Z) : bytes := [0x06; u8 (mbps ≫ 8); u8 (Z.land mbps 0xFF)].

Definition buildQoSFlowDescription (op qfi fiveQI ulMbps dlMbps : Z) : bytes :=
  let params : list (Z * bytes) :=
    [(1, [fiveQI])]
    ++ (if Is5QIGBR fiveQI
        then [(2, rate_octets ulMbps); (3, rate_octets dlMbps);
              (4, rate_octets ulMbps); (5, rate_octets dlMbps)] else []) in
  [Z.land qfi 0x3F; u8 (op ≪ 5); Z.lor (1 ≪ 6) (u8 (Z.of_nat (length params)))]
  ++ (params ≫= λ p, p.1 :: u8 (Z.of_nat (length p.2)) :: p.2).

Definition BuildQoSFlowDescriptions (qfi fiveQI ulMbps dlMbps : Z) : bytes :=
  buildQoSFlowDescription QoSFlowOpCreateNew qfi fiveQI ulMbps dlMbps.
Definition BuildModifyQoSFlowDescriptions (qfi fiveQI ulMbps dlMbps : Z) : bytes :=
  buildQoSFlowDescription QoSFlowOpModifyExisting qfi fiveQI ulMbps dlMbps.

Definition buildSessionAMBR (dlMbps ulMbps : Z) : bytes :=
  [0x06; u8 (Z.land (dlMbps ≫ 8) 0xFF); u8 (Z.land dlMbps 0xFF);
   0x06; u8 (Z.land (ulMbps ≫ 8) 0xFF); u8 (Z.land ulMbps 0xFF)].

(** * Addresses *)

(** A nil [net.IP] is [None]. *)
Record PDUAddressInfo := mkPDUAddressInfo {
  SessionType : Z;
  IPv4 : option bytes;
  IPv6IID : bytes }.

Definition normalizeIID (iid : bytes) : bytes := go_copy (replicate 8 0) iid.

Definition normalizeIPv4 (ip : option bytes) : bytes :=
  match ip ≫= To4 with
  | Some ip4 => go_copy (replicate 4 0) ip4
  | None => replicate 4 0
  end.

Definition buildPDUAddressIE (addr : PDUAddressInfo) : option bytes :=
  if SessionType addr =? PDUSessionTypeIPv6 then Some (0x02 :: normalizeIID (IPv6IID addr))
  else if SessionType addr =? PDUSessionTypeIPv4v6 then
    Some (0x03 :: normalizeIID (IPv6IID addr) ++ normalizeIPv4 (IPv4 addr))
  else match IPv4 addr with
       | None => None
       | Some _ => Some (0x01 :: normalizeIPv4 (IPv4 addr))
       end.

Definition buildPDUAddress (ip : bytes) : bytes :=
  match To4 ip with
  | Some ip4 => 0x01 :: ip4
  | None => match To16 ip with
            | Some ip6 => 0x02 :: take 8 ip6
            | None => [0x01; 0; 0; 0; 0]
            end
  end.

(** * PDU Session Establishment Accept *)

Record EstablishmentAcceptParams := mkAcceptParams {
  Addr : PDUAddressInfo;
  SSCMode : Z;
  p_DNN : bytes;
  QFI : Z; FiveQI : Z;
  DLMbps : Z; ULMbps : Z;
  DNSv4 : list bytes;
  DNSv6 : list bytes;
  MTU : Z;
  p_SNSSAI : list SNSSAI;
  p_EAPMessage : bytes;
  Request : option PDUSessionEstablishmentRequest }.

Definition downgradeCause5GSM (req : option PDUSessionEstablishmentRequest) (granted : Z) : Z :=
  match req ≫= er_PDUSessionType with
  | Some t =>
      if negb (t =? PDUSessionTypeIPv4v6) then 0
      else if granted =? PDUSessionTypeIPv4 then Cause5GSMPDUSessionTypeIPv4OnlyAllowed
      else if granted =? PDUSessionTypeIPv6 then Cause5GSMPDUSessionTypeIPv6OnlyAllowed
      else 0
  | None => 0
  end.

Definition snssai_5gsm (s : SNSSAI) : bytes :=
  if negb (SD s =? SDNotPresent)
  then [IEISNSSAI5GSM; 4; SST s; u8 (SD s ≫ 16); u8 (SD s ≫ 8); u8 (SD s)]
  else [IEISNSSAI5GSM; 1; SST s].

Definition epco_config (p : EstablishmentAcceptParams) : EPCOReplyConfig :=
  match Request p with
  | Some r => mkEPCOReplyConfig (PCOConfigProtocolOctet r) (RequestedPCOContainerIDs r) (IPCPRequest r)
                (DNSv4 p) (DNSv6 p) (MTU p)
  | None => mkEPCOReplyConfig 0 [] None (DNSv4 p) (DNSv6 p) (MTU p)
  end.

Definition EncodeEstablishmentAcceptBody (p : EstablishmentAcceptParams) : bytes :=
  let cause := downgradeCause5GSM (Request p) (SessionType (Addr p)) in
  let ambr := buildSessionAMBR (DLMbps p) (ULMbps p) in
  [Z.lor (u8 (Z.land (SSCMode p) 0x0F ≪ 4)) (Z.land (SessionType (Addr p)) 0x0F)]
  ++ len_lve (BuildDefaultQoSRules (QFI p))
  ++ u8 (Z.of_nat (length ambr)) :: ambr
  ++ (if negb (cause =? 0) then [IEICause5GSM; cause] else [])
  ++ (match buildPDUAddressIE (Addr p) with Some a => tlv IEIPDUAddress a | None => [] end)
  ++ (match p_SNSSAI p with s :: _ => snssai_5gsm s | [] => [] end)
  ++ (if (0 <? length (p_EAPMessage p))%nat then EncodeEAPMessageTLVE (p_EAPMessage p) else [])
  ++ (if 0 <? FiveQI p
      then IEIAuthorizedQoSFlowDesc :: len_lve (BuildQoSFlowDescriptions (QFI p) (FiveQI p) (ULMbps p) (DLMbps p))
      else [])
  ++ (match BuildEPCOReply (epco_config p) with Some e => IEIEPCO :: len_lve e | None => [] end)
  ++ (if (0 <? length (p_DNN p))%nat then tlv IEIDNN5GSM (encodeAPN (p_DNN p)) else []).

(** The positional entry points, each a call of the next. *)
Definition EncodeAcceptBodyWithQoSAddrDNSIPCP (addr : PDUAddressInfo) (sscMode : Z) (dnn : bytes)
    (qfi fiveQI dlMbps ulMbps : Z) (dns : list bytes) (ipcpReq : option IPCPConfigureRequest)
    (snssai : list SNSSAI) : bytes :=
  let req := match ipcpReq with
             | Some i => Some (mkEstReq [0; 0] None None [] (Some i) [] 0)
             | None => None
             end in
  EncodeEstablishmentAcceptBody
    (mkAcceptParams addr sscMode dnn qfi fiveQI dlMbps ulMbps dns [] DefaultIPv4LinkMTU snssai [] req).

Definition EncodeAcceptBodyWithQoSAddrDNS addr sscMode dnn qfi fiveQI dlMbps ulMbps dns snssai : bytes :=
  EncodeAcceptBodyWithQoSAddrDNSIPCP addr sscMode dnn qfi fiveQI dlMbps ulMbps dns None snssai.

Definition EncodeAcceptBodyWithQoSAddr addr sscMode dnn qfi fiveQI dlMbps ulMbps snssai : bytes :=
  EncodeAcceptBodyWithQoSAddrDNS addr sscMode dnn qfi fiveQI dlMbps ulMbps [] snssai.

Definition EncodeAcceptBodyWithQoS (selectedPDUType sscMode : Z) (ip : option bytes) (dnn : bytes)
    (qfi fiveQI dlMbps ulMbps : Z) (snssai : list SNSSAI) : bytes :=
  EncodeAcceptBodyWithQoSAddr (mkPDUAddressInfo selectedPDUType ip []) sscMode dnn qfi fiveQI dlMbps
    ulMbps snssai.

(** The older encoder with a fixed QFI and AMBR. *)
Definition EncodePDUSessionEstablishmentAcceptBody (selectedPDUType sscMode : Z) (ip : option bytes)
    (dnn : bytes) (snssai : list SNSSAI) : bytes :=
  let ambr := buildSessionAMBR 100 100 in
  [Z.lor (u8 (Z.land sscMode 0x0F ≪ 4)) (Z.land selectedPDUType 0x0F)]
  ++ len_lve (BuildDefaultQoSRules 1)
  ++ u8 (Z.of_nat (length ambr)) :: ambr
  ++ (match ip with Some ip => tlv IEIPDUAddress (buildPDUAddress ip) | None => [] end)
  ++ (match snssai with s :: _ => snssai_5gsm s | [] => [] end)
  ++ (if (0 <? length dnn)%nat then tlv IEIDNN5GSM (encodeAPN dnn) else []).

Definition WrapPDUSessionEstablishmentAcceptBody (psi pti : Z) (body : bytes) : bytes :=
  [PDGroupSessionManagement; psi; pti; MsgTypePDUSessionEstablishmentAccept] ++ body.

Definition EncodePDUSessionEstablishmentAccept (psi pti selectedPDUType sscMode : Z)
    (ip : option bytes) (dnn : bytes) : bytes :=
  WrapPDUSessionEstablishmentAcceptBody psi pti
    (EncodePDUSessionEstablishmentAcceptBody selectedPDUType sscMode ip dnn []).

(** * Release and Modification Commands *)

Definition WrapPDUSessionReleaseCommandBody (psi pti cause : Z) : bytes :=
  [PDGroupSessionManagement; psi; pti; MsgTypePDUSessionReleaseCommand; cause].

Definition WrapPDUSessionModificationCommandBody (psi pti : Z) (body : bytes) : bytes :=
  [PDGroupSessionManagement; psi; pti; MsgTypePDUSessionModificationCommand] ++ body.

Definition EncodePDUSessionModificationCommandBodyWithQoS (qfi fiveQI dlMbps ulMbps : Z) : bytes :=
  tlv IEISessionAMBR (buildSessionAMBR dlMbps ulMbps)
  ++ IEIAuthorizedQoSRules :: len_lve (BuildModifyQoSRules qfi)
  ++ (if 0 <? fiveQI
      then IEIAuthorizedQoSFlowDesc :: len_lve (BuildModifyQoSFlowDescriptions qfi fiveQI ulMbps dlMbps)
      else []).

(** * IPCP parsing *)

Lemma ipcp_opts_safe fuel opts req : (length opts <= fuel)%nat → ∃ r, ipcp_opts fuel opts req = Ok r.
Proof.
  revert opts req. induction fuel as [|fuel IH]; intros [|t [|n opts]] req Hf;
    try (cbn [length] in Hf; lia); try (by eexists).
  cbn [ipcp_opts]. destruct (_ || _) eqn:E; [by eexists|].
  apply orb_false_iff in E as [E1%Nat.ltb_ge E2%Nat.ltb_ge].
  rewrite slice_from_Ok by done. cbn [mbind res_bind]. apply IH.
  rewrite length_drop. cbn [length] in *. lia.
Qed.

(** A Configure-Request whose declared length does not cover its own header. *)
Inductive ipcp_short : bytes → Prop :=
| ipcp_short_intro id hi lo rest :
    be16 hi lo < 4 → ipcp_short (ipcpCodeConfigureRequest :: id :: hi :: lo :: rest).

Lemma parseIPCP_cases v :
  bytes_ok v →
  match parseIPCPConfigureRequest v with
  | Ok _ => ¬ ipcp_short v
  | Panic => ipcp_short v
  | Err _ | OutOfFuel => False
  end.
Proof.
  intros Hok. unfold parseIPCPConfigureRequest.
  destruct v as [|v0 [|v1 [|v2 [|v3 v]]]]; try (by inversion 1).
  destruct (Z.eqb_spec v0 ipcpCodeConfigureRequest) as [->|Hne]; cbn [negb]; [|by inversion 1].
  do 4 apply Forall_cons in Hok as [? Hok].
  assert (Hr : is_u16 (be16 v2 v3)) by (by apply be16_range).
  set (value := ipcpCodeConfigureRequest :: v1 :: v2 :: v3 :: v) in *.
  set (l := Z.to_nat (be16 v2 v3)). set (l' := if (length value <? l)%nat then _ else l).
  assert (Hl' : (l' <= length value)%nat ∧ ((4 <= l')%nat ↔ 4 <= be16 v2 v3)).
  { unfold l', is_u16 in *. destruct (Nat.ltb_spec (length value) l); unfold l, value in *;
      cbn [length] in *; lia. }
  clearbody l'. unfold slice. case_decide as Hd; cbn [mbind res_bind].
  - destruct (ipcp_opts_safe (length (take (l' - 4) (drop 4 value))) (take (l' - 4) (drop 4 value))
      (mkIPCPConfigureRequest v1 false false)) as [r ->]; [lia|]. cbn [mbind res_bind].
    inversion 1. lia.
  - constructor. lia.
Qed.

(** * Container lists *)

Definition container_ok (c : epcoContainer) : Prop := is_u16 c.1 ∧ Z.of_nat (length c.2) < 256.
#[global] Instance container_ok_dec c : Decision (container_ok c).
Proof. unfold container_ok. apply _. Defined.

Definition containers_octets (cs : list epcoContainer) : bytes := cs ≫= λ c, appendContainer c.1 c.2.

Lemma containers_octets_cons c cs :
  containers_octets (c :: cs) = appendContainer c.1 c.2 ++ containers_octets cs.
Proof. done. Qed.
Lemma containers_octets_app a b :
  containers_octets (a ++ b) = containers_octets a ++ containers_octets b.
Proof. apply bind_app. Qed.
Arguments containers_octets : simpl never.

Lemma u8_land_255 z : u8 (Z.land z 0xFF) = u8 z.
Proof. rewrite land_255. unfold u8. by rewrite Zmod_mod. Qed.

Lemma epco_loop_octets cs : ∀ fuel out,
  Forall container_ok cs → (length (containers_octets cs) <= fuel)%nat →
  epco_loop fuel (containers_octets cs) out = Ok (out ++ cs).
Proof.
  induction cs as [|[id v] cs IH]; intros fuel out Hok Hf.
  { change (containers_octets []) with (@nil Z). destruct fuel; simpl; by rewrite app_nil_r. }
  apply Forall_cons in Hok as [[Hid Hv] Hok]. simpl in Hid, Hv.
  rewrite containers_octets_cons in *. unfold appendContainer in *. cbn [fst snd app length] in *.
  destruct fuel as [|fuel]; [lia|]. cbn [epco_loop].
  rewrite u8_land_255, be16_split by done. rewrite (u8_small (Z.of_nat _)) by (unfold is_u8; lia).
  rewrite Nat2Z.id. nat_ltb; [cbn [length] in *; rewrite length_app in *; lia|].
  rewrite slice_Ok, slice_from_Ok by (cbn [length] in *; rewrite ?length_app in *; lia).
  cbn [mbind res_bind drop Nat.add].
  replace (S (S (S (length v))) - 3)%nat with (length v) by lia.
  rewrite ?drop_0, take_app_length, drop_app_length.
  rewrite IH; [by rewrite <- app_assoc|done|]. rewrite length_app in Hf. lia.
Qed.

Lemma parseEPCOContainerList_octets o cs :
  Forall container_ok cs → parseEPCOContainerList (o :: containers_octets cs) = Ok cs.
Proof. intros. unfold parseEPCOContainerList. by rewrite epco_loop_octets. Qed.

Lemma epco_loop_safe fuel : ∀ b out, (length b <= fuel)%nat → ∃ cs, epco_loop fuel b out = Ok cs.
Proof.
  induction fuel as [|fuel IH]; intros b out Hf;
    (destruct b as [|b0 [|b1 [|b2 b]]]; [by eexists..|]); [cbn [length] in Hf; lia|].
  cbn [epco_loop]. nat_ltb; [by eexists|]. rewrite slice_Ok, slice_from_Ok by lia.
  cbn [mbind res_bind]. apply IH. rewrite length_drop. cbn [length] in *. lia.
Qed.

(** * The reply answers the UE's containers in the UE's order *)

(** What the network answers to one requested container. *)
Definition answers (cfg : EPCOReplyConfig) (id : Z) : list epcoContainer :=
  if id =? containerIDIPCP then
    match IPCP cfg with
    | Some req =>
        let opts := ipcp_dns_opt (WantsPrimaryDNS req) ipcpOptPrimaryDNS (cfg_DNSv4 cfg !! 0%nat)
                    ++ ipcp_dns_opt (WantsSecondaryDNS req) ipcpOptSecondaryDNS (cfg_DNSv4 cfg !! 1%nat) in
        if (length opts =? 0)%nat then []
        else [(containerIDIPCP,
               [ipcpCodeConfigureAck; Identifier req; 0; 4 + Z.of_nat (length opts)] ++ opts)]
    | None => []
    end
  else if id =? ContainerIDDNSServerIPv4Address then (λ v4, (id, v4)) <$> omap To4 (cfg_DNSv4 cfg)
  else if id =? ContainerIDDNSServerIPv6Address then
    (λ v6, (id, v6)) <$> omap (λ ip, match To4 ip with Some _ => None | None => To16 ip end) (cfg_DNSv6 cfg)
  else if id =? ContainerIDIPv4LinkMTU then
    if cfg_MTU cfg =? 0 then [] else [(id, [u8 (cfg_MTU cfg ≫ 8); u8 (cfg_MTU cfg)])]
  else if id =? containerIDMSSupportLocalAddrTFT then [(id, [])]
  else [].

Lemma To4_length ip v : To4 ip = Some v → length v = 4%nat.
Proof.
  unfold To4. destruct (Nat.eqb_spec (length ip) 4); [by intros [= <-]|].
  destruct (Nat.eqb_spec (length ip) 16); [|done]. cbn [andb]. case_bool_decide; [|done].
  intros [= <-]. rewrite length_drop. lia.
Qed.

Lemma To16_length ip v : To16 ip = Some v → length v = 16%nat.
Proof.
  unfold To16. destruct (Nat.eqb_spec (length ip) 4) as [E|]; [|destruct (Nat.eqb_spec (length ip) 16)];
    intros [= <-]; [|done]. simpl. by rewrite E.
Qed.

Lemma ipcp_dns_opt_length w o a : length (ipcp_dns_opt w o a) = 0%nat ∨ length (ipcp_dns_opt w o a) = 6%nat.
Proof.
  unfold ipcp_dns_opt. destruct w; [|by left]. destruct (a ≫= To4) as [v|] eqn:E; [|by left].
  right. destruct a as [a|]; [|done]. apply To4_length in E. simpl. by rewrite E.
Qed.

Lemma epco_answer_octets cfg id : epco_answer cfg id = containers_octets (answers cfg id).
Proof.
  unfold epco_answer, answers. destruct (id =? containerIDIPCP).
  { unfold EncodeIPCPConfigAckContainer. destruct (IPCP cfg) as [req|]; [|done].
    set (o1 := ipcp_dns_opt _ _ _). set (o2 := ipcp_dns_opt _ _ _).
    destruct (Nat.eqb_spec (length (o1 ++ o2)) 0) as [E|E]; [done|].
    assert (Hl : (length (o1 ++ o2) <= 12)%nat).
    { rewrite length_app. unfold o1, o2. pose proof (ipcp_dns_opt_length (WantsPrimaryDNS req) ipcpOptPrimaryDNS (cfg_DNSv4 cfg !! 0%nat)).
      pose proof (ipcp_dns_opt_length (WantsSecondaryDNS req) ipcpOptSecondaryDNS (cfg_DNSv4 cfg !! 1%nat)). lia. }
    rewrite containers_octets_cons. change (containers_octets []) with (@nil Z). rewrite app_nil_r.
    unfold appendContainer. cbn [default fst snd app length].
    rewrite !u8_land_255, (u8_small (4 + _)) by (unfold is_u8; lia).
    assert (u8 ((4 + Z.of_nat (length (o1 ++ o2))) ≫ 8) = 0) as ->.
    { bitfield. unfold u8. dlia. }
    done. }
  destruct (id =? ContainerIDDNSServerIPv4Address).
  { induction (cfg_DNSv4 cfg) as [|ip l IH]; [done|]. rewrite bind_cons. cbn [omap list_omap].
    destruct (To4 ip) as [v|]; [|done]. rewrite fmap_cons, containers_octets_cons. by rewrite IH. }
  destruct (id =? ContainerIDDNSServerIPv6Address).
  { induction (cfg_DNSv6 cfg) as [|ip l IH]; [done|]. rewrite bind_cons. cbn [omap list_omap].
    destruct (To4 ip) as [v|], (To16 ip) as [w|]; try done.
    rewrite fmap_cons, containers_octets_cons. by rewrite IH. }
  destruct (id =? ContainerIDIPv4LinkMTU).
  { destruct (cfg_MTU cfg =? 0); [done|]. rewrite containers_octets_cons.
    change (containers_octets []) with (@nil Z). rewrite app_nil_r. simpl. by rewrite u8_land_255. }
  destruct (id =? containerIDMSSupportLocalAddrTFT); done.
Qed.

Lemma answers_ok cfg id : is_u16 id → Forall container_ok (answers cfg id).
Proof.
  intros Hid. unfold answers. destruct (id =? containerIDIPCP).
  { destruct (IPCP cfg) as [req|]; [|done]. case_match; [done|]. constructor; [|done].
    split; [done|]. cbn [snd app length]. rewrite length_app.
    pose proof (ipcp_dns_opt_length (WantsPrimaryDNS req) ipcpOptPrimaryDNS (cfg_DNSv4 cfg !! 0%nat)).
    pose proof (ipcp_dns_opt_length (WantsSecondaryDNS req) ipcpOptSecondaryDNS (cfg_DNSv4 cfg !! 1%nat)).
    lia. }
  destruct (id =? ContainerIDDNSServerIPv4Address).
  { apply Forall_fmap, Forall_forall. intros v (ip & _ & E%To4_length)%list_elem_of_omap.
    split; simpl; [done|lia]. }
  destruct (id =? ContainerIDDNSServerIPv6Address).
  { apply Forall_fmap, Forall_forall. intros v (ip & _ & E)%list_elem_of_omap.
    destruct (To4 ip); [done|]. apply To16_length in E. split; simpl; [done|lia]. }
  repeat case_match; repeat constructor; simpl; try done; try lia; apply Hid.
Qed.

Lemma containers_octets_bind {A} (f : A → list epcoContainer) (l : list A) :
  (l ≫= λ x, containers_octets (f x)) = containers_octets (l ≫= f).
Proof.
  induction l as [|x l IH]; [done|]. rewrite !bind_cons, containers_octets_app. by rewrite IH.
Qed.

(** The protocol configuration options the SMF returns answer what the UE
    asked for: parsing them gives, in the order of the requested containers, the
    answers the configuration has for each (IPCP, DNS servers, link MTU, TFT
    support), and nothing is sent when there is no answer. *)
Lemma BuildEPCOReply_parse cfg :
  RequestedIDs cfg ≠ [] → Forall is_u16 (RequestedIDs cfg) →
  match BuildEPCOReply cfg with
  | None => (RequestedIDs cfg ≫= answers cfg) = []
  | Some epco => parseEPCOContainerList epco = Ok (RequestedIDs cfg ≫= answers cfg)
  end.
Proof.
  intros Hne Hids. unfold BuildEPCOReply.
  destruct (Nat.eqb_spec (length (RequestedIDs cfg)) 0); [by destruct (RequestedIDs cfg)|].
  assert (Heq : (RequestedIDs cfg ≫= epco_answer cfg)
                = containers_octets (RequestedIDs cfg ≫= answers cfg)).
  { rewrite <- containers_octets_bind. induction (RequestedIDs cfg) as [|x l IH]; [done|].
    rewrite !bind_cons, epco_answer_octets. f_equal. clear. induction l as [|y l IH]; [done|].
    rewrite !bind_cons, epco_answer_octets. by rewrite IH. }
  rewrite Heq. destruct (Nat.eqb_spec (length (containers_octets (RequestedIDs cfg ≫= answers cfg))) 0)
    as [E|_].
  - destruct (RequestedIDs cfg ≫= answers cfg) as [|c cs]; [done|].
    rewrite containers_octets_cons in E. done.
  - apply parseEPCOContainerList_octets. apply Forall_bind.
    eapply Forall_impl; [exact Hids|]. intros. by apply answers_ok.
Qed.

(** * The Establishment Request decoder *)

Lemma estreq_consumes : consumes 1 estreq_body.
Proof. solve_consumes estreq_body. Qed.

Lemma ParseIPCPFromEPCO_cs v cs :
  parseEPCOContainerList v = Ok cs →
  ParseIPCPFromEPCO v = match last_container containerIDIPCP cs with
                        | None => Ok None
                        | Some value => parseIPCPConfigureRequest value
                        end.
Proof. intros E. unfold ParseIPCPFromEPCO. by rewrite E. Qed.

(** The optional part as the elements of TS 24.501 Table 8.3.1.1.1. *)
Inductive estreq_ie : Type :=
| ER_type (v : Z)
| ER_ssc (v : Z)
| ER_always_on (v : Z)
| ER_epco (o : Z) (cs : list epcoContainer)
| ER_filters (a b : Z)
| ER_tlv (iei : Z) (v : bytes).

Definition er_octets (e : estreq_ie) : bytes :=
  match e with
  | ER_type v => [0x9 * 16 + v]
  | ER_ssc v => [0xA * 16 + v]
  | ER_always_on v => [0xB * 16 + v]
  | ER_epco o cs => tlve IEIEPCO (o :: containers_octets cs)
  | ER_filters a b => [0x55; a; b]
  | ER_tlv iei v => tlv iei v
  end.

(** [ER_epco] requires its IPCP container, if any, to be parseable. *)
Definition er_ok (e : estreq_ie) : Prop :=
  match e with
  | ER_type v | ER_ssc v | ER_always_on v => 0 <= v < 16
  | ER_epco o cs =>
      Forall container_ok cs ∧ Z.of_nat (length (o :: containers_octets cs)) < 65536
      ∧ match last_container containerIDIPCP cs with
        | Some v => match parseIPCPConfigureRequest v with Ok _ => True | _ => False end
        | None => True
        end
  | ER_filters a b => True
  | ER_tlv iei v => 0 <= iei < 0x80 ∧ iei ≠ IEIEPCO ∧ iei ≠ 0x55 ∧ Z.of_nat (length v) < 256
  end.

Definition ipcp_of (cs : list epcoContainer) : option IPCPConfigureRequest :=
  match last_container containerIDIPCP cs with
  | Some v => match parseIPCPConfigureRequest v with Ok o => o | _ => None end
  | None => None
  end.

Definition er_apply (m : PDUSessionEstablishmentRequest) (e : estreq_ie) : PDUSessionEstablishmentRequest :=
  match e with
  | ER_type v =>
      mkEstReq (IntegrityProtectionMaxDataRate m) (Some v) (er_SSCMode m)
        (ExtendedProtocolConfigOptions m) (IPCPRequest m) (RequestedPCOContainerIDs m)
        (PCOConfigProtocolOctet m)
  | ER_ssc v =>
      mkEstReq (IntegrityProtectionMaxDataRate m) (er_PDUSessionType m) (Some v)
        (ExtendedProtocolConfigOptions m) (IPCPRequest m) (RequestedPCOContainerIDs m)
        (PCOConfigProtocolOctet m)
  | ER_epco o cs =>
      mkEstReq (IntegrityProtectionMaxDataRate m) (er_PDUSessionType m) (er_SSCMode m)
        (o :: containers_octets cs) (ipcp_of cs) (RequestedPCOContainerIDs m ++ cs.*1) o
  | _ => m
  end.

#[global] Instance er_ok_dec e : Decision (er_ok e).
Proof.
  destruct e as [| | |o cs| |]; simpl; try apply _.
  destruct (last_container containerIDIPCP cs) as [v|]; [|apply _].
  destruct (parseIPCPConfigureRequest v); apply _.
Defined.

Lemma er_parses m e : er_ok e → parses 1 estreq_body m (er_octets e) (er_apply m e).
Proof.
  intros Hok. apply parses_step; [lia|apply estreq_consumes|destruct e; simpl; lia|].
  intros pre rest. unfold estreq_body.
  destruct e as [v|v|v|o cs|a b|iei v]; cbn [er_octets er_apply er_ok] in *;
    try unfold tlv at 1; try unfold tlve at 1; cbn [app]; rewrite ReadByte_cons.
  1-3: (assert (Z.land (0x9 * 16 + v) 0x0F = v) as Hlo by (bitfield; dlia);
        assert ((0x9 * 16 + v) ≫ 4 = 0x9) as Hhi by (bitfield; dlia);
        assert (Z.land (0xA * 16 + v) 0x0F = v) as Hlo' by (bitfield; dlia);
        assert ((0xA * 16 + v) ≫ 4 = 0xA) as Hhi' by (bitfield; dlia);
        assert ((0xB * 16 + v) ≫ 4 = 0xB) as Hhi'' by (bitfield; dlia);
        rewrite ?Hlo, ?Hhi, ?Hlo', ?Hhi', ?Hhi''; done).
  - destruct Hok as (Hcs & Hl & Hi). change (IEIEPCO ≫ 4) with 7.
    change (7 =? 0x9) with false. change (7 =? 0xA) with false. change (7 =? 0xB) with false.
    change (IEIEPCO =? IEIEPCO) with true. cbv iota.
    change (o :: containers_octets cs ++ rest) with ((o :: containers_octets cs) ++ rest).
    rewrite ReadLVE_iei by done. unfold or_nil, estreq_epco. cbn [default].
    change (id (o :: containers_octets cs)) with (o :: containers_octets cs).
    pose proof (parseEPCOContainerList_octets o cs Hcs) as Hp.
    rewrite (ParseIPCPFromEPCO_cs _ _ Hp), Hp. unfold ipcp_of.
    destruct (last_container containerIDIPCP cs) as [v|]; [|done].
    by destruct (parseIPCPConfigureRequest v).
  - simpl. rewrite (ReadBytes_split _ _ [a; b] rest) by done. simpl. by rewrite <- app_assoc.
  - destruct Hok as (Hr & H1 & H2 & Hl).
    assert (iei ≫ 4 < 8) by (bitfield; dlia).
    rewrite !(proj2 (Z.eqb_neq (iei ≫ 4) _)), !(proj2 (Z.eqb_neq iei _)) by (done || lia).
    rewrite ReadByte_cons. rewrite u8_small by (unfold is_u8; lia).
    rewrite Nat2Z.id, ReadBytes_app by done. unfold tlv. rewrite u8_small by (unfold is_u8; lia).
    by rewrite <- !app_assoc.
Qed.

Lemma ers_parses m es :
  Forall er_ok es → parses 1 estreq_body m (es ≫= er_octets) (foldl er_apply m es).
Proof.
  intros Hok. revert m. induction Hok as [|e es He Hes IH]; intros m; [apply parses_nil|].
  simpl. eapply parses_app; [by apply er_parses|apply IH].
Qed.

Lemma DecodeEstReq_rate r0 r1 opt :
  DecodePDUSessionEstablishmentRequest (r0 :: r1 :: opt)
  = for_reader 1 estreq_body (rd [r0; r1] opt) (mkEstReq [r0; r1] None None [] None [] 0).
Proof.
  unfold DecodePDUSessionEstablishmentRequest. rewrite NewReader_rd.
  by rewrite (ReadBytes_split [] _ [r0; r1] opt) by done.
Qed.

(** The PDU Session Establishment Request decoder reads the grammar of
    TS 24.501 Table 8.3.1.1.1: on the mandatory data rate followed by any
    sequence of well-formed optional elements it returns the fields each element
    contributes, with the requested container identifiers in the order the UE
    listed them. *)
Lemma DecodeEstReq_ies r0 r1 es :
  Forall er_ok es →
  DecodePDUSessionEstablishmentRequest (r0 :: r1 :: (es ≫= er_octets))
  = Ok (foldl er_apply (mkEstReq [r0; r1] None None [] None [] 0) es).
Proof.
  intros Hes. rewrite DecodeEstReq_rate.
  apply for_reader_parses; [lia|apply estreq_consumes|by apply ers_parses].
Qed.

(** A PDU Session Establishment Request whose protocol configuration
    options hold an IPCP Configure-Request with a declared length below 4 makes
    the decoder slice past its own header: the run panics, whatever precedes or
    follows in the message. *)
Lemma DecodeEstReq_ipcp_panic r0 r1 es o cs v rest :
  Forall er_ok es → Forall container_ok cs →
  Z.of_nat (length (o :: containers_octets cs)) < 65536 →
  last_container containerIDIPCP cs = Some v → bytes_ok v → ipcp_short v →
  DecodePDUSessionEstablishmentRequest
    (r0 :: r1 :: (es ≫= er_octets) ++ tlve IEIEPCO (o :: containers_octets cs) ++ rest) = Panic.
Proof.
  intros Hes Hcs Hl Hlast Hb Hs. rewrite DecodeEstReq_rate, (ers_parses _ es Hes).
  rewrite for_reader_step by (lia || apply estreq_consumes).
  rewrite bool_decide_eq_true_2 by (rewrite Len_rd; simpl; lia).
  unfold estreq_body. unfold tlve at 1. cbn [app]. rewrite ReadByte_cons.
  change (IEIEPCO ≫ 4) with 7.
  change (7 =? 0x9) with false. change (7 =? 0xA) with false. change (7 =? 0xB) with false.
  change (IEIEPCO =? IEIEPCO) with true. cbv iota.
  change (o :: containers_octets cs ++ rest) with ((o :: containers_octets cs) ++ rest).
  rewrite ReadLVE_iei by done. unfold or_nil, estreq_epco. cbn [default].
  change (id (o :: containers_octets cs)) with (o :: containers_octets cs).
  pose proof (parseEPCOContainerList_octets o cs Hcs) as Hp.
  rewrite (ParseIPCPFromEPCO_cs _ _ Hp), Hlast.
  pose proof (parseIPCP_cases v Hb) as Hc. by destruct (parseIPCPConfigureRequest v).
Qed.

(** * Session-AMBR *)

(** What a UE reads off the six octets: downlink and uplink in Mbps. *)
Definition read_ambr (b : bytes) : option (Z * Z) :=
  match b with
  | [0x06; d1; d0; 0x06; u1; u0] => Some (be16 d1 d0, be16 u1 u0)
  | _ => None
  end.

Lemma be16_u8 n : be16 (u8 (Z.land (n ≫ 8) 0xFF)) (u8 (Z.land n 0xFF)) = n mod 65536.
Proof.
  rewrite !u8_land_255, be16_add by apply u8_range. bitfield. unfold u8. dlia.
Qed.

(** The Session-AMBR element announces the downlink and uplink rates modulo
    65536 Mbps: a rate of 65536 Mbps or more wraps around. *)
Lemma buildSessionAMBR_read dl ul :
  read_ambr (buildSessionAMBR dl ul) = Some (dl mod 65536, ul mod 65536).
Proof. unfold buildSessionAMBR, read_ambr. by rewrite !be16_u8. Qed.
