(* ===== verification/NasCodec.v ===== *)
(** The NAS PDU codec (shared/nas/nas.go): the header, the dispatch of bodies by
    message type in both directions, and the peek at a message type. *)

From S2P Require Import Prelude NasReader NasIE NasRegistration NasSecurity NasTransport NasService NasNetworkName NasConfigUpdate NasEap.

(** * Message types *)

Definition MsgTypeRegistrationRequest : Z := 0x41.
Definition MsgTypeRegistrationAccept : Z := 0x42.
Definition MsgTypeRegistrationComplete : Z := 0x43.
Definition MsgTypeRegistrationReject : Z := 0x44.
Definition MsgTypeDeregistrationRequestUE : Z := 0x45.
Definition MsgTypeDeregistrationAcceptUE : Z := 0x46.
Definition MsgTypeDeregistrationRequestNW : Z := 0x47.
Definition MsgTypeServiceReject : Z := 0x4D.
Definition MsgTypeServiceAccept : Z := 0x4E.
Definition MsgTypeNetworkSliceSpecificAuthCommand : Z := 0x50.
Definition MsgTypeNetworkSliceSpecificAuthComplete : Z := 0x51.
Definition MsgTypeNetworkSliceSpecificAuthResult : Z := 0x52.
Definition MsgTypeConfigurationUpdateCommand : Z := 0x54.
Definition MsgTypeConfigurationUpdateComplete : Z := 0x55.
Definition MsgTypeAuthenticationRequest : Z := 0x56.
Definition MsgTypeAuthenticationResponse : Z := 0x57.
Definition MsgTypeAuthenticationFailure : Z := 0x59.
Definition MsgTypeIdentityRequest : Z := 0x5B.
Definition MsgTypeIdentityResponse : Z := 0x5C.
Definition MsgTypeSecurityModeCommand : Z := 0x5D.
Definition MsgTypeSecurityModeComplete : Z := 0x5E.
Definition MsgTypeSecurityModeReject : Z := 0x5F.
Definition MsgTypeULNASTransport : Z := 0x67.
Definition MsgTypeDLNASTransport : Z := 0x68.

(** * PDU *)

Record Header := mkHeader {
  ExtendedProtocolDiscriminator : Z;
  SecurityHeaderType : Z;
  MessageAuthenticationCode : bytes;
  SequenceNumber : Z;
  MessageType : Z }.
#[global] Instance Header_eq_dec : EqDecision Header.
Proof. solve_decision. Defined.

(** The dynamic type of [Message.Body]. *)
Inductive Body : Type :=
| BRegistrationRequest (b : RegistrationRequest)
| BRegistrationAccept (b : RegistrationAccept)
| BRegistrationComplete
| BRegistrationReject (b : RegistrationReject)
| BAuthenticationRequest (b : AuthenticationRequest)
| BAuthenticationResponse (b : AuthenticationResponse)
| BAuthenticationFailure (b : AuthenticationFailure)
| BSecurityModeCommand (b : SecurityModeCommand)
| BSecurityModeComplete (b : SecurityModeComplete)
| BSecurityModeReject (b : SecurityModeReject)
| BIdentityRequest (b : IdentityRequest)
| BIdentityResponse (b : MobileIdentity)
| BULNASTransport (b : ULNASTransport)
| BDLNASTransport (b : DLNASTransport)
| BDeregistrationRequest (b : DeregistrationRequest)
| BDeregistrationAcceptUE
| BDeregistrationRequestNW (b : DeregistrationRequestNW)
| BServiceRequest (b : ServiceRequest)
| BServiceAccept (b : ServiceAccept)
| BServiceReject (b : ServiceReject)
| BConfigurationUpdateCommand (b : ConfigurationUpdateCommand)
| BConfigurationUpdateComplete
| BNSSAAuthCommand (b : NSSAAuthCommand)
| BNSSAAuthComplete (b : NSSAAuthComplete)
| BNSSAAuthResult (b : NSSAAuthResult)
| BRawBody (b : bytes).
#[global] Instance Body_eq_dec : EqDecision Body.
Proof. solve_decision. Defined.

Record Message := mkMessage { msg_Header : Header; msg_Body : Body }.

(** [body, err := Decode…(b); if err != nil { return nil, err }; msg.Body = body] *)
Definition into {A} (k : A → Body) (m : res A) : res Body := a ← m; Ok (k a).

Definition decodeBody (mt : Z) (b : bytes) : res Body :=
  if mt =? MsgTypeRegistrationRequest then into BRegistrationRequest (DecodeRegistrationRequest b)
  else if mt =? MsgTypeRegistrationAccept then into BRegistrationAccept (DecodeRegistrationAccept b)
  else if mt =? MsgTypeRegistrationComplete then Ok BRegistrationComplete
  else if mt =? MsgTypeAuthenticationRequest then
    into BAuthenticationRequest (DecodeAuthenticationRequest b)
  else if mt =? MsgTypeAuthenticationResponse then
    into BAuthenticationResponse (DecodeAuthenticationResponse b)
  else if mt =? MsgTypeAuthenticationFailure then
    into BAuthenticationFailure (DecodeAuthenticationFailure b)
  else if mt =? MsgTypeSecurityModeCommand then into BSecurityModeCommand (DecodeSecurityModeCommand b)
  else if mt =? MsgTypeSecurityModeComplete then into BSecurityModeComplete (DecodeSecurityModeComplete b)
  else if mt =? MsgTypeSecurityModeReject then into BSecurityModeReject (DecodeSecurityModeReject b)
  else if mt =? MsgTypeIdentityRequest then into BIdentityRequest (DecodeIdentityRequest b)
  else if mt =? MsgTypeIdentityResponse then into BIdentityResponse (DecodeIdentityResponse b)
  else if mt =? MsgTypeULNASTransport then into BULNASTransport (DecodeULNASTransport b)
  else if mt =? MsgTypeDeregistrationRequestUE then
    into BDeregistrationRequest (DecodeDeregistrationRequest b)
  else if mt =? MsgTypeDeregistrationAcceptUE then Ok BDeregistrationAcceptUE
  else if mt =? MsgTypeServiceRequest then into BServiceRequest (DecodeServiceRequest b)
  else if mt =? MsgTypeServiceAccept then
    '(a, err) ← DecodeServiceAccept b;
    match err with Some e => Err e | None => Ok (BServiceAccept a) end
  else if mt =? MsgTypeConfigurationUpdateCommand then
    into BConfigurationUpdateCommand (DecodeConfigurationUpdateCommand b)
  else if mt =? MsgTypeConfigurationUpdateComplete then Ok BConfigurationUpdateComplete
  else if mt =? MsgTypeNetworkSliceSpecificAuthCommand then into BNSSAAuthCommand (DecodeNSSAAuthCommand b)
  else if mt =? MsgTypeNetworkSliceSpecificAuthComplete then
    into BNSSAAuthComplete (DecodeNSSAAuthComplete b)
  else if mt =? MsgTypeNetworkSliceSpecificAuthResult then into BNSSAAuthResult (DecodeNSSAAuthResult b)
  else Ok (BRawBody b).

(** The type assertions of encodeBody. *)
Definition encodeBody (mt : Z) (body : Body) : res bytes :=
  if mt =? MsgTypeAuthenticationRequest then
    match body with BAuthenticationRequest b => EncodeAuthenticationRequest b
    | _ => Err "nas: body is not AuthenticationRequest" end
  else if mt =? MsgTypeSecurityModeCommand then
    match body with BSecurityModeCommand b => EncodeSecurityModeCommand b
    | _ => Err "nas: body is not SecurityModeCommand" end
  else if mt =? MsgTypeRegistrationReject then
    match body with BRegistrationReject b => EncodeRegistrationReject b
    | _ => Err "nas: body is not RegistrationReject" end
  else if mt =? MsgTypeRegistrationAccept then
    match body with BRegistrationAccept b => EncodeRegistrationAccept b
    | _ => Err "nas: body is not RegistrationAccept" end
  else if mt =? MsgTypeIdentityRequest then
    match body with BIdentityRequest b => EncodeIdentityRequest b
    | _ => Err "nas: body is not IdentityRequest" end
  else if mt =? MsgTypeDLNASTransport then
    match body with BDLNASTransport b => EncodeDLNASTransport b
    | _ => Err "nas: body is not DLNASTransport" end
  else if mt =? MsgTypeULNASTransport then
    match body with BULNASTransport b => EncodeULNASTransport b
    | _ => Err "nas: body is not ULNASTransport" end
  else if mt =? MsgTypeDeregistrationAcceptUE then
    match body with BDeregistrationAcceptUE => EncodeDeregistrationAcceptUE
    | _ => Err "nas: body is not DeregistrationAcceptUE" end
  else if mt =? MsgTypeDeregistrationRequestNW then
    match body with BDeregistrationRequestNW b => EncodeDeregistrationRequestNW b
    | _ => Err "nas: body is not DeregistrationRequestNW" end
  else if mt =? MsgTypeServiceAccept then
    match body with BServiceAccept b => EncodeServiceAccept (Some b)
    | _ => Err "nas: body is not ServiceAccept" end
  else if mt =? MsgTypeServiceReject then
    match body with BServiceReject b => EncodeServiceReject b
    | _ => Err "nas: body is not ServiceReject" end
  else if mt =? MsgTypeConfigurationUpdateCommand then
    match body with BConfigurationUpdateCommand b => EncodeConfigurationUpdateCommand (Some b)
    | _ => Err "nas: body is not ConfigurationUpdateCommand" end
  else if mt =? MsgTypeConfigurationUpdateComplete then
    match body with BConfigurationUpdateComplete => EncodeConfigurationUpdateComplete
    | _ => Err "nas: body is not ConfigurationUpdateComplete" end
  else if mt =? MsgTypeNetworkSliceSpecificAuthCommand then
    match body with BNSSAAuthCommand b => EncodeNSSAAuthCommand b
    | _ => Err "nas: body is not NSSAAuthCommand" end
  else if mt =? MsgTypeNetworkSliceSpecificAuthComplete then
    match body with BNSSAAuthComplete b => EncodeNSSAAuthComplete b
    | _ => Err "nas: body is not NSSAAuthComplete" end
  else if mt =? MsgTypeNetworkSliceSpecificAuthResult then
    match body with BNSSAAuthResult b => EncodeNSSAAuthResult b
    | _ => Err "nas: body is not NSSAAuthResult" end
  else match body with BRawBody d => Ok d | _ => Err "nas: encode not implemented for %02x" end.

Definition SecurityHeaderPlainNAS : Z := 0.

Definition Decode (data : bytes) : res Message :=
  if (length data <? 3)%nat then Err "nas: PDU too short"
  else
    epd ← idx data 0; d1 ← idx data 1;
    let sht := Z.land d1 0x0F in
    if sht =? SecurityHeaderPlainNAS then
      mt ← idx data 2;
      rest ← slice_from data 3;
      body ← decodeBody mt rest;
      Ok (mkMessage (mkHeader epd sht [0; 0; 0; 0] 0 mt) body)
    else if (length data <? 9)%nat then Err "nas: security PDU too short"
    else
      mac ← slice data 2 6;
      sn ← idx data 6;
      inner ← slice_from data 7;
      if (length inner <? 3)%nat then Err "nas: inner PDU too short"
      else
        mt ← idx inner 2;
        rest ← slice_from inner 3;
        body ← decodeBody mt rest;
        Ok (mkMessage (mkHeader epd sht (go_copy [0; 0; 0; 0] mac) sn mt) body).

(** [None] is [(0, false)]. *)
Definition PeekMessageType (data : bytes) : res (option Z) :=
  if (length data <? 3)%nat then Ok None
  else
    d0 ← idx data 0;
    if negb (d0 =? PDMobilityManagement) then Ok None
    else
      d1 ← idx data 1;
      if Z.land d1 0x0F =? SecurityHeaderPlainNAS then d2 ← idx data 2; Ok (Some d2)
      else if (length data <? 10)%nat then Ok None
      else
        d7 ← idx data 7; d8 ← idx data 8;
        if negb (d7 =? PDMobilityManagement) || negb (Z.land d8 0x0F =? SecurityHeaderPlainNAS)
        then Ok None
        else d9 ← idx data 9; Ok (Some d9).

Definition Encode (m : Message) : res bytes :=
  body ← encodeBody (MessageType (msg_Header m)) (msg_Body m);
  Ok ([ExtendedProtocolDiscriminator (msg_Header m); SecurityHeaderType (msg_Header m);
       MessageType (msg_Header m)] ++ body).

(** * The interface of a body codec

    A message type that is encoded and decoded: its constructor in [Body], the
    messages the encoder can represent, and the round trip. The PDU theorems
    are proved against this interface. *)

Class BodyCodec (T : Type) := {
  codec_type : Z;
  codec_wrap : T → Body;
  codec_ok : T → Prop;
  codec_law : ∀ t, codec_ok t →
    ∃ b, encodeBody codec_type (codec_wrap t) = Ok b
       ∧ decodeBody codec_type b = Ok (codec_wrap t) }.

Arguments codec_type T {_}.

Lemma into_Ok {A} (k : A → Body) (m : res A) a : m = Ok a → into k m = Ok (k a).
Proof. by intros ->. Qed.

#[global, refine] Instance codec_RegistrationAccept : BodyCodec RegistrationAccept := {
  codec_type := MsgTypeRegistrationAccept;
  codec_wrap := BRegistrationAccept;
  codec_ok := regacc_ok }.
Proof.
  intros a (b & He & Hd)%DecodeRegistrationAccept_Encode. exists b. split; [done|]. by apply into_Ok.
Defined.

#[global, refine] Instance codec_AuthenticationRequest : BodyCodec AuthenticationRequest := {
  codec_type := MsgTypeAuthenticationRequest;
  codec_wrap := BAuthenticationRequest;
  codec_ok := authreq_ok }.
Proof.
  intros a (b & He & Hd)%DecodeAuthenticationRequest_Encode. exists b. split; [done|]. by apply into_Ok.
Defined.

#[global, refine] Instance codec_SecurityModeCommand : BodyCodec SecurityModeCommand := {
  codec_type := MsgTypeSecurityModeCommand;
  codec_wrap := BSecurityModeCommand;
  codec_ok := smc_ok }.
Proof.
  intros a (b & He & Hd)%DecodeSecurityModeCommand_Encode. exists b. split; [done|]. by apply into_Ok.
Defined.

#[global, refine] Instance codec_IdentityRequest : BodyCodec IdentityRequest := {
  codec_type := MsgTypeIdentityRequest;
  codec_wrap := BIdentityRequest;
  codec_ok := λ a, 0 <= IdentityType a < 8 }.
Proof.
  intros [t] Ht. simpl in Ht. eexists. split; [done|]. apply into_Ok. unfold DecodeIdentityRequest.
  simpl. do 2 f_equal. bitfield. dlia.
Defined.

#[global, refine] Instance codec_ULNASTransport : BodyCodec ULNASTransport := {
  codec_type := MsgTypeULNASTransport;
  codec_wrap := BULNASTransport;
  codec_ok := ul_ok }.
Proof.
  intros a (b & He & Hd)%DecodeULNASTransport_Encode. exists b. split; [done|]. by apply into_Ok.
Defined.

#[global, refine] Instance codec_ServiceAccept : BodyCodec ServiceAccept := {
  codec_type := MsgTypeServiceAccept;
  codec_wrap := BServiceAccept;
  codec_ok := sa_ok }.
Proof.
  intros a (b & He & Hd)%DecodeServiceAccept_Encode. exists b. split; [done|].
  change (decodeBody MsgTypeServiceAccept b)
    with ('(a, err) ← DecodeServiceAccept b;
          match err with Some e => Err e | None => Ok (BServiceAccept a) end).
  by rewrite Hd.
Defined.

#[global, refine] Instance codec_ConfigurationUpdateCommand : BodyCodec ConfigurationUpdateCommand := {
  codec_type := MsgTypeConfigurationUpdateCommand;
  codec_wrap := BConfigurationUpdateCommand;
  codec_ok := cu_ok }.
Proof.
  intros a (b & He & Hd)%DecodeConfigurationUpdateCommand_Encode. exists b. split; [done|].
  by apply into_Ok.
Defined.

Definition nssaa_ok (s : SNSSAI) (eap : bytes) : Prop := snssai_ok s ∧ Z.of_nat (length eap) < 65536.

Lemma nssaa_roundtrip s eap : nssaa_ok s eap → decodeNSSAABody (encodeNSSAABody s eap) = Ok (s, eap).
Proof.
  intros [Hs Hl]. rewrite <- (app_nil_r (encodeNSSAABody s eap)). by apply decodeNSSAABody_encode.
Qed.

#[global, refine] Instance codec_NSSAAuthCommand : BodyCodec NSSAAuthCommand := {
  codec_type := MsgTypeNetworkSliceSpecificAuthCommand;
  codec_wrap := BNSSAAuthCommand;
  codec_ok := λ a, nssaa_ok (nc_SNSSAI a) (nc_EAPMessage a) }.
Proof.
  intros [s e] Hok. eexists. split; [done|]. apply into_Ok. unfold DecodeNSSAAuthCommand.
  by rewrite nssaa_roundtrip.
Defined.

#[global, refine] Instance codec_NSSAAuthComplete : BodyCodec NSSAAuthComplete := {
  codec_type := MsgTypeNetworkSliceSpecificAuthComplete;
  codec_wrap := BNSSAAuthComplete;
  codec_ok := λ a, nssaa_ok (np_SNSSAI a) (np_EAPMessage a) }.
Proof.
  intros [s e] Hok. eexists. split; [done|]. apply into_Ok. unfold DecodeNSSAAuthComplete.
  by rewrite nssaa_roundtrip.
Defined.

#[global, refine] Instance codec_NSSAAuthResult : BodyCodec NSSAAuthResult := {
  codec_type := MsgTypeNetworkSliceSpecificAuthResult;
  codec_wrap := BNSSAAuthResult;
  codec_ok := λ a, nssaa_ok (nr_SNSSAI a) (nr_EAPMessage a) }.
Proof.
  intros [s e] Hok. eexists. split; [done|]. apply into_Ok. unfold DecodeNSSAAuthResult.
  by rewrite nssaa_roundtrip.
Defined.

(** * Theorems *)

Definition plain_header (epd mt : Z) : Header := mkHeader epd SecurityHeaderPlainNAS [0; 0; 0; 0] 0 mt.

(** A plain PDU wrapped in a security header, as the AMF and the UE send it. *)
Definition protect (epd sht : Z) (mac : bytes) (sn : Z) (plain : bytes) : bytes :=
  [epd; sht] ++ mac ++ [sn] ++ plain.

Lemma Decode_plain epd mt body :
  Decode (epd :: SecurityHeaderPlainNAS :: mt :: body)
  = b ← decodeBody mt body; Ok (mkMessage (plain_header epd mt) b).
Proof.
  unfold Decode. nat_ltb; [simpl in *; lia|]. cbn [idx lookup list_lookup mbind res_bind].
  change (Z.land SecurityHeaderPlainNAS 0x0F =? SecurityHeaderPlainNAS) with true. cbv iota.
  rewrite slice_from_Ok by (cbn [length]; lia). cbn [mbind res_bind drop]. by rewrite drop_0.
Qed.

Lemma Decode_protect epd sht mac sn e s mt body :
  1 <= sht < 16 → length mac = 4%nat →
  Decode (protect epd sht mac sn (e :: s :: mt :: body))
  = b ← decodeBody mt body; Ok (mkMessage (mkHeader epd sht mac sn mt) b).
Proof.
  intros Hs Hm. destruct mac as [|m0 [|m1 [|m2 [|m3 [|]]]]]; try done.
  unfold Decode, protect. nat_ltb; [simpl in *; lia|].
  cbn [app idx lookup list_lookup mbind res_bind].
  assert (Z.land sht 0x0F = sht) as -> by (bitfield; dlia). unfold SecurityHeaderPlainNAS.
  destruct (Z.eqb_spec sht 0); [lia|]. nat_ltb; [simpl in *; lia|].
  rewrite slice_Ok by (cbn [length]; lia). rewrite slice_from_Ok by (cbn [length]; lia).
  cbn [mbind res_bind drop]. nat_ltb; [simpl in *; lia|].
  rewrite slice_from_Ok by (cbn [length]; lia). cbn [mbind res_bind drop]. rewrite ?drop_0. done.
Qed.

(** The messages of the ten types that the network both encodes and decodes, with
    fields that the wire format can hold: numbers within their bits, lists and
    texts within their length fields, an Authentication Request without EAP message,
    identities that are GUTIs, replayed capabilities as they are read from their
    octets, a DNN that the decoder takes for text. *)
Definition wire_ok (b : Body) : Prop :=
  match b with
  | BRegistrationAccept a => regacc_ok a
  | BAuthenticationRequest a => authreq_ok a
  | BSecurityModeCommand a => smc_ok a
  | BIdentityRequest a => 0 <= IdentityType a < 8
  | BULNASTransport a => ul_ok a
  | BServiceAccept a => sa_ok a
  | BConfigurationUpdateCommand a => cu_ok a
  | BNSSAAuthCommand a => nssaa_ok (nc_SNSSAI a) (nc_EAPMessage a)
  | BNSSAAuthComplete a => nssaa_ok (np_SNSSAI a) (np_EAPMessage a)
  | BNSSAAuthResult a => nssaa_ok (nr_SNSSAI a) (nr_EAPMessage a)
  | _ => False
  end.
Definition wire_type (b : Body) : Z :=
  match b with
  | BRegistrationAccept _ => MsgTypeRegistrationAccept
  | BAuthenticationRequest _ => MsgTypeAuthenticationRequest
  | BSecurityModeCommand _ => MsgTypeSecurityModeCommand
  | BIdentityRequest _ => MsgTypeIdentityRequest
  | BULNASTransport _ => MsgTypeULNASTransport
  | BServiceAccept _ => MsgTypeServiceAccept
  | BConfigurationUpdateCommand _ => MsgTypeConfigurationUpdateCommand
  | BNSSAAuthCommand _ => MsgTypeNetworkSliceSpecificAuthCommand
  | BNSSAAuthComplete _ => MsgTypeNetworkSliceSpecificAuthComplete
  | BNSSAAuthResult _ => MsgTypeNetworkSliceSpecificAuthResult
  | _ => 0
  end.
#[global] Instance wire_ok_dec b : Decision (wire_ok b).
Proof. destruct b; cbn [wire_ok]; unfold nssaa_ok; apply _. Defined.

(** The instances of [BodyCodec] cover these messages. *)
Lemma body_roundtrip b : wire_ok b → ∃ o, encodeBody (wire_type b) b = Ok o ∧ decodeBody (wire_type b) o = Ok b.
Proof.
  destruct b; cbn [wire_ok wire_type]; try done; intros H;
    match goal with |- ∃ o, encodeBody _ (_ ?a) = _ ∧ _ => exact (codec_law a H) end.
Qed.

(** C5: of the ten message types with an encoder and a decoder, every message whose
    fields the wire format can hold ([wire_ok]: among others no EAP message in an
    Authentication Request, and a DNN that starts with a character from 0x20 on) is
    encoded, and decoding the PDU gives that message back, both as a plain PDU and
    inside a security header, where the header fields and the message are read back
    as well. *)
Theorem Decode_Encode_roundtrip (epd : Z) (b : Body) (sht : Z) (mac : bytes) (sn : Z) :
  wire_ok b → 1 <= sht < 16 → length mac = 4%nat →
  ∃ data,
    Encode (mkMessage (plain_header epd (wire_type b)) b) = Ok data
    ∧ Decode data = Ok (mkMessage (plain_header epd (wire_type b)) b)
    ∧ Decode (protect epd sht mac sn data) = Ok (mkMessage (mkHeader epd sht mac sn (wire_type b)) b).
Proof.
  intros Hok Hs Hm. destruct (body_roundtrip b Hok) as (o & He & Hd).
  exists (epd :: SecurityHeaderPlainNAS :: wire_type b :: o). split_and!.
  - unfold Encode. simpl. by rewrite He.
  - by rewrite Decode_plain, Hd.
  - by rewrite Decode_protect, Hd by done.
Qed.

(** One message of each type, with its optional fields. *)
Definition wire_caps : UESecurityCapability :=
  match DecodeUESecurityCapability [0xA0; 0xA0] with Ok c => c | _ => emptySecCap end.
Definition wire_guti : MobileIdentity :=
  mkMobileIdentity MobileIdentityGUTI None (Some (mkGUTI [48; 48; 49] [48; 49] 2 5 1 77)) [].
Definition demo_bodies : list Body :=
  [BRegistrationAccept (mkRegistrationAccept 1 (Some wire_guti) [0; 0; 241; 16; 0; 0; 1]
     (Some [mkSNSSAI 1 1; mkSNSSAI 2 SDNotPresent]) (Some [mkSNSSAI 1 1]) [1; 0] (Some 0x5E));
   BAuthenticationRequest (mkAuthenticationRequest (mkNGKSI 3 0) [0; 0] (replicate 16 1) (replicate 16 2) []);
   BSecurityModeCommand (mkSecurityModeCommand (mkAlgs 2 2) (mkNGKSI 3 0) wire_caps (Some 1) (Some 2) []);
   BIdentityRequest (mkIdentityRequest 1);
   BULNASTransport (mkULNASTransport 1 [0x2E; 5; 1; 0xC1] (Some 5) (Some 1)
     (Some (mkSNSSAITransport 1 (Some 1))) (Some [105; 110; 116; 101; 114; 110; 101; 116]));
   BServiceAccept (mkServiceAccept (Some 0x2000) (Some 0));
   BConfigurationUpdateCommand (mkConfigurationUpdateCommand (Some 1) (Some wire_guti) [0; 0; 241; 16; 0; 0; 1]
     (Some [mkSNSSAI 1 1]) [67; 108; 97; 117; 100] [67] (Some [mkSNSSAI 1 1]) (Some 1));
   BNSSAAuthCommand (mkNSSAAuthCommand (mkSNSSAI 1 1) [1; 1; 0; 5; 1]);
   BNSSAAuthComplete (mkNSSAAuthComplete (mkSNSSAI 1 1) [2; 1; 0; 5; 1]);
   BNSSAAuthResult (mkNSSAAuthResult (mkSNSSAI 1 1) [3; 1; 0; 4])].

Lemma Decode_Encode_roundtrip_witness :
  Forall (λ b, wire_ok b ∧ ∃ data,
    Encode (mkMessage (plain_header 0x7E (wire_type b)) b) = Ok data
    ∧ Decode data = Ok (mkMessage (plain_header 0x7E (wire_type b)) b)
    ∧ Decode (protect 0x7E 2 [1; 2; 3; 4] 9 data)
      = Ok (mkMessage (mkHeader 0x7E 2 [1; 2; 3; 4] 9 (wire_type b)) b)) demo_bodies.
Proof.
  assert (Forall wire_ok demo_bodies) as Hok by (apply (bool_decide_unpack _); vm_compute; exact I).
  eapply Forall_impl; [exact Hok|]. intros b Hb. split; [exact Hb|].
  apply (Decode_Encode_roundtrip 0x7E b 2 [1; 2; 3; 4] 9); [exact Hb|lia|reflexivity].
Defined.

Lemma into_panics_only {A} P (k : A → Body) (m : res A) : panics_only P m → panics_only P (into k m).
Proof. intros. by apply panics_only_bind. Qed.

Lemma into_safe {A} P (k : A → Body) (m : res A) : safe m → panics_only P (into k m).
Proof. intros. by apply into_panics_only, safe_panics_only. Qed.

Lemma nssaa_safe {A} b (f : SNSSAI → bytes → A) :
  safe ('(s, eap) ← decodeNSSAABody b; Ok (f s eap)).
Proof. apply safe_bind; [apply decodeNSSAABody_safe|by intros [? ?] _]. Qed.

Lemma decodeBody_panics_only mt b :
  bytes_ok b → panics_only (nssai_bomb b) (decodeBody mt b).
Proof.
  intros Hb. unfold decodeBody.
  destruct (mt =? MsgTypeRegistrationRequest);
    [by apply into_panics_only, DecodeRegistrationRequest_panics_only|].
  destruct (mt =? MsgTypeRegistrationAccept);
    [by apply into_panics_only, DecodeRegistrationAccept_panics_only|].
  destruct (mt =? MsgTypeRegistrationComplete); [done|].
  destruct (mt =? MsgTypeAuthenticationRequest); [apply into_safe, DecodeAuthenticationRequest_safe|].
  destruct (mt =? MsgTypeAuthenticationResponse); [apply into_safe, DecodeAuthenticationResponse_safe|].
  destruct (mt =? MsgTypeAuthenticationFailure); [apply into_safe, DecodeAuthenticationFailure_safe|].
  destruct (mt =? MsgTypeSecurityModeCommand); [apply into_safe, DecodeSecurityModeCommand_safe|].
  destruct (mt =? MsgTypeSecurityModeComplete); [apply into_safe, DecodeSecurityModeComplete_safe|].
  destruct (mt =? MsgTypeSecurityModeReject); [apply into_safe, DecodeSecurityModeReject_safe|].
  destruct (mt =? MsgTypeIdentityRequest); [apply into_safe, DecodeIdentityRequest_safe|].
  destruct (mt =? MsgTypeIdentityResponse); [apply into_safe, DecodeIdentityResponse_safe|].
  destruct (mt =? MsgTypeULNASTransport); [apply into_safe, DecodeULNASTransport_safe|].
  destruct (mt =? MsgTypeDeregistrationRequestUE); [apply into_safe, DecodeDeregistrationRequest_safe|].
  destruct (mt =? MsgTypeDeregistrationAcceptUE); [done|].
  destruct (mt =? MsgTypeServiceRequest); [apply into_safe, DecodeServiceRequest_safe|].
  destruct (mt =? MsgTypeServiceAccept).
  { apply panics_only_bind; [apply safe_panics_only, DecodeServiceAccept_safe|by intros [? [?|]] _]. }
  destruct (mt =? MsgTypeConfigurationUpdateCommand);
    [by apply into_panics_only, DecodeConfigurationUpdateCommand_panics_only|].
  destruct (mt =? MsgTypeConfigurationUpdateComplete); [done|].
  destruct (mt =? MsgTypeNetworkSliceSpecificAuthCommand); [apply into_safe, nssaa_safe|].
  destruct (mt =? MsgTypeNetworkSliceSpecificAuthComplete); [apply into_safe, nssaa_safe|].
  destruct (mt =? MsgTypeNetworkSliceSpecificAuthResult); [apply into_safe, nssaa_safe|].
  done.
Qed.

(** C40: decoding any octet string as a NAS PDU terminates with a message or an
    error; the only run-time panic is the one of an NSSAI element whose value
    ends in a bare zero length octet. *)
Theorem Decode_total (data : bytes) :
  bytes_ok data → panics_only (nssai_bomb data) (Decode data).
Proof.
  intros Hb. unfold Decode. nat_ltb; [done|].
  destruct (idx_Ok data 0) as (x0 & _ & ->); [lia|]. destruct (idx_Ok data 1) as (x1 & _ & ->); [lia|].
  cbn [mbind res_bind]. destruct (_ =? SecurityHeaderPlainNAS).
  - destruct (idx_Ok data 2) as (x2 & _ & ->); [lia|]. rewrite slice_from_Ok by lia. cbn [mbind res_bind].
    apply panics_only_bind; [|done]. eapply panics_only_mono; [apply (nssai_bomb_suffix 3)|].
    apply decodeBody_panics_only. by apply Forall_drop.
  - nat_ltb; [done|]. rewrite slice_Ok, slice_from_Ok by lia.
    destruct (idx_Ok data 6) as (x6 & _ & ->); [lia|]. cbn [mbind res_bind]. nat_ltb; [done|].
    destruct (idx_Ok (drop 7 data) 2) as (x2 & _ & ->); [lia|].
    rewrite slice_from_Ok by lia. cbn [mbind res_bind].
    apply panics_only_bind; [|done]. rewrite drop_drop.
    eapply panics_only_mono; [apply (nssai_bomb_suffix (7 + 3))|].
    apply decodeBody_panics_only. by apply Forall_drop.
Qed.

Lemma Decode_total_witness :
  panics_only (nssai_bomb [0x7E; 0x00; 0x41; 0x79; 0x00; 0x01; 0x00; 0x2F; 0x01; 0x00])
    (Decode [0x7E; 0x00; 0x41; 0x79; 0x00; 0x01; 0x00; 0x2F; 0x01; 0x00])
  ∧ Decode [0x7E; 0x00; 0x41; 0x79; 0x00; 0x01; 0x00; 0x2F; 0x01; 0x00] = Panic.
Proof.
  split; [|vm_compute; reflexivity].
  apply (Decode_total [0x7E; 0x00; 0x41; 0x79; 0x00; 0x01; 0x00; 0x2F; 0x01; 0x00]).
  apply (bool_decide_unpack _). vm_compute. exact I.
Defined.

(** The message type PeekMessageType reports without decoding the body is
    the one of the decoded message, and peeking itself never panics. *)
Lemma PeekMessageType_sound (data : bytes) (t : Z) (m : Message) :
  PeekMessageType data = Ok (Some t) → Decode data = Ok m →
  MessageType (msg_Header m) = t ∧ ExtendedProtocolDiscriminator (msg_Header m) = PDMobilityManagement.
Proof.
  unfold PeekMessageType, Decode. intros Hp Hd.
  destruct (length data <? 3)%nat; [done|].
  apply bind_Ok in Hp as (d0 & E0 & Hp). rewrite E0 in Hd. cbn [mbind res_bind] in Hd.
  destruct (Z.eqb_spec d0 PDMobilityManagement) as [->|]; [cbn [negb] in Hp|done].
  apply bind_Ok in Hp as (d1 & E1 & Hp). rewrite E1 in Hd. cbn [mbind res_bind] in Hd.
  destruct (Z.land d1 0x0F =? SecurityHeaderPlainNAS).
  - apply bind_Ok in Hp as (d2 & E2 & [= <-]). rewrite E2 in Hd. cbn [mbind res_bind] in Hd.
    apply bind_Ok in Hd as (rest & _ & Hd). by apply bind_Ok in Hd as (b & _ & [= <-]).
  - destruct (length data <? 10)%nat eqn:El; [done|]. apply Nat.ltb_ge in El.
    destruct (length data <? 9)%nat; [done|].
    apply bind_Ok in Hp as (d7 & E7 & Hp). apply bind_Ok in Hp as (d8 & E8 & Hp).
    destruct (negb _ || negb _); [done|]. apply bind_Ok in Hp as (d9 & E9 & [= <-]).
    apply bind_Ok in Hd as (mac & _ & Hd). apply bind_Ok in Hd as (sn & _ & Hd).
    rewrite slice_from_Ok in Hd by lia. cbn [mbind res_bind] in Hd.
    destruct (length (drop 7 data) <? 3)%nat; [done|].
    assert (idx (drop 7 data) 2 = Ok d9) as Hmt.
    { rewrite <- E9. unfold idx. by rewrite lookup_drop. }
    rewrite Hmt in Hd. cbn [mbind res_bind] in Hd. apply bind_Ok in Hd as (rest & _ & Hd).
    by apply bind_Ok in Hd as (b & _ & [= <-]).
Qed.
