(* ===== verification/UpfBucket.v ===== *)
(** The UPF rate policer, [nf/upf/internal/qos/bucket.go]: an integer token
    bucket per QER and direction.  All arithmetic of the source is [int64], so
    every product, sum and quotient below is wrapped with [i64]; the lemmas show
    that none of the wraps ever takes effect on a well-formed bucket, that the
    bucket is the ideal one of the specification, and what traffic it admits. *)
From S2P Require Import Prelude.

Module Bucket.

Definition MinBurstMs : Z := 1.
Definition MaxBurstMs : Z := 1000.
Definition DefaultBurstMs : Z := 100.
Definition FloorBytes : Z := 3 * 1500.
Definition UnlimitedKbps : Z := 4294967295.
Definition ubitPerBit : Z := 1000000.

Definition ClampBurstMs (ms : Z) : Z :=
  if ms =? 0 then DefaultBurstMs
  else if ms <? MinBurstMs then MinBurstMs
  else if MaxBurstMs <? ms then MaxBurstMs
  else ms.

Record t := mk {
  burstMs : Z;  (* int *)
  rate : Z;     (* uint64, kbps *)
  depth : Z;    (* int64, micro-bits *)
  fillNs : Z;   (* int64 *)
  tokens : Z;   (* int64, micro-bits *)
  last : Z;     (* int64, clock reading *)
}.

#[global] Instance t_eq_dec : EqDecision t.
Proof. solve_decision. Defined.

Definition with_tokens (b : t) (x : Z) : t :=
  mk (burstMs b) (rate b) (depth b) (fillNs b) x (last b).
Definition with_last (b : t) (x : Z) : t :=
  mk (burstMs b) (rate b) (depth b) (fillNs b) (tokens b) x.

Definition setRate (b : t) (rateKbps : Z) : t :=
  let rateKbps := if rateKbps =? 0 then 1 else rateKbps in
  let rateKbps := if UnlimitedKbps <=? rateKbps then UnlimitedKbps - 1 else rateKbps in
  let bits := i64 (i64 rateKbps * i64 (burstMs b)) in
  let floor := i64 (FloorBytes * 8) in
  let bits := if bits <? floor then floor else bits in
  let depth' := i64 (bits * ubitPerBit) in
  let r := i64 rateKbps in
  mk (burstMs b) rateKbps depth' (Z.quot (i64 (i64 (depth' + r) - 1)) r) (tokens b) (last b).

Definition NewBucket (rateKbps burst now : Z) : t :=
  let b := setRate (mk (ClampBurstMs burst) 0 0 0 0 now) rateKbps in
  with_tokens b (depth b).

Definition Rate (b : t) : Z := rate b.

Definition refill (b : t) (now : Z) : t :=
  let el := i64 (now - last b) in
  if el <=? 0 then b
  else
    let b := with_last b now in
    if fillNs b <=? el then with_tokens b (depth b)
    else
      let tk := i64 (tokens b + i64 (el * i64 (rate b))) in
      with_tokens b (if depth b <? tk then depth b else tk).

Definition SetRate (b : t) (rateKbps now : Z) : t :=
  let b := setRate (refill b now) rateKbps in
  if depth b <? tokens b then with_tokens b (depth b) else b.

Definition cost (n : Z) : Z := i64 (i64 (i64 n * 8) * ubitPerBit).

Definition Admit (b : t) (n now : Z) : t * bool :=
  let c := cost n in
  let b := refill b now in
  if c <=? tokens b then (with_tokens b (i64 (tokens b - c)), true) else (b, false).

Definition Refund (b : t) (n : Z) : t :=
  let tk := i64 (tokens b + cost n) in
  with_tokens b (if depth b <? tk then depth b else tk).

Definition TokensBytes (b : t) (now : Z) : t * Z :=
  let b := refill b now in (b, Z.quot (tokens b) (8 * ubitPerBit)).

Definition DepthBytes (b : t) : Z := Z.quot (depth b) (8 * ubitPerBit).

(** * Well-formed buckets *)

(** The depth in micro-bits of a rate and a burst. *)
Definition depth_of (r burst : Z) : Z := Z.max (r * burst) (FloorBytes * 8) * ubitPerBit.

Record bucket_ok (b : t) : Prop := {
  ok_burst : MinBurstMs <= burstMs b <= MaxBurstMs;
  ok_rate : 1 <= rate b < UnlimitedKbps;
  ok_depth : depth b = depth_of (rate b) (burstMs b);
  ok_fill : (fillNs b - 1) * rate b < depth b <= fillNs b * rate b;
  ok_tokens : 0 <= tokens b <= depth b;
  ok_last : 0 <= last b < 9223372036854775808;
}.

(** A reading of the monotonic clock, and the length of a packet. *)
Definition is_clock (now : Z) : Prop := 0 <= now < 9223372036854775808.
Definition is_len (n : Z) : Prop := 0 <= n < 2147483648.

#[local] Ltac unfold_consts :=
  unfold MinBurstMs, MaxBurstMs, DefaultBurstMs, FloorBytes, UnlimitedKbps, ubitPerBit, is_clock,
    is_len, is_i64 in *.

Lemma depth_of_bounds r burst :
  1 <= r < UnlimitedKbps → MinBurstMs <= burst <= MaxBurstMs →
  36000000000 <= depth_of r burst < 4294967295000000000.
Proof. unfold depth_of. unfold_consts. intros. nia. Qed.

Lemma cost_exact n : is_len n → cost n = n * 8 * ubitPerBit.
Proof.
  unfold cost. unfold_consts. intros.
  rewrite (i64_small n), (i64_small (n * 8)), i64_small; unfold is_i64; lia.
Qed.

(** The rate a caller's value is normalised to. *)
Definition clamp_rate (r : Z) : Z := Z.max 1 (Z.min r (UnlimitedKbps - 1)).

(** [setRate] computes the depth exactly and [fillNs] is the ceiling of
    [depth / rate]: no [int64] wrap happens for any burst in range. *)
Lemma setRate_spec b r :
  is_u64 r → MinBurstMs <= burstMs b <= MaxBurstMs →
  let b' := setRate b r in
  burstMs b' = burstMs b ∧ tokens b' = tokens b ∧ last b' = last b ∧
  rate b' = clamp_rate r ∧ depth b' = depth_of (clamp_rate r) (burstMs b) ∧
  (fillNs b' - 1) * rate b' < depth b' <= fillNs b' * rate b'.
Proof.
  intros Hr Hb. unfold setRate. cbv zeta.
  set (r1 := if r =? 0 then 1 else r).
  assert (Hr1 : (if UnlimitedKbps <=? r1 then UnlimitedKbps - 1 else r1) = clamp_rate r).
  { unfold clamp_rate, r1, is_u64 in *. unfold_consts.
    repeat case_match; lia. }
  rewrite Hr1.
  assert (Hc : 1 <= clamp_rate r < UnlimitedKbps) by (unfold clamp_rate; unfold_consts; lia).
  generalize dependent (clamp_rate r). intros q _ Hq.
  pose proof (depth_of_bounds q (burstMs b) Hq Hb) as Hd.
  rewrite (i64_small q), (i64_small (burstMs b)), (i64_small (q * burstMs b)),
    (i64_small (FloorBytes * 8)) by (unfold_consts; nia).
  assert (Hmax : (if q * burstMs b <? FloorBytes * 8 then FloorBytes * 8 else q * burstMs b)
    = Z.max (q * burstMs b) (FloorBytes * 8)) by (destruct (Z.ltb_spec (q * burstMs b) (FloorBytes * 8)); lia).
  rewrite Hmax. fold (depth_of q (burstMs b)).
  generalize dependent (depth_of q (burstMs b)). intros d Hd.
  rewrite (i64_small d), (i64_small (d + q)), (i64_small (d + q - 1)) by (unfold_consts; lia).
  simpl. repeat split; try lia.
  - rewrite Z.quot_div_nonneg by lia. pose proof (Z.mul_div_le (d + q - 1) q). lia.
  - rewrite Z.quot_div_nonneg by lia. pose proof (Z.mul_succ_div_gt (d + q - 1) q). lia.
Qed.

Lemma ClampBurstMs_range ms : MinBurstMs <= ClampBurstMs ms <= MaxBurstMs.
Proof. unfold ClampBurstMs. unfold_consts. repeat case_match; lia. Qed.

Lemma NewBucket_ok r burst now :
  is_u64 r → is_clock now →
  bucket_ok (NewBucket r burst now) ∧ tokens (NewBucket r burst now) = depth (NewBucket r burst now).
Proof.
  intros Hr Hn. unfold NewBucket. split; [|done].
  destruct (setRate_spec (mk (ClampBurstMs burst) 0 0 0 0 now) r Hr (ClampBurstMs_range burst))
    as (E1 & E2 & E3 & E4 & E5 & E6).
  assert (1 <= clamp_rate r < UnlimitedKbps) by (unfold clamp_rate; unfold_consts; lia).
  pose proof (depth_of_bounds (clamp_rate r) (ClampBurstMs burst) ltac:(done) (ClampBurstMs_range burst)).
  pose proof (ClampBurstMs_range burst).
  destruct (setRate _ r) as [bu ra de fi tk la] in *. simpl in *. subst.
  constructor; simpl; unfold is_clock in *; auto; lia.
Qed.

(** * The ideal bucket

    The specification works on unbounded integers: credit accrues at [rate]
    micro-bits per nanosecond and saturates at the depth. *)
Definition ideal_refill (b : t) (now : Z) : Z :=
  Z.min (depth b) (tokens b + Z.max 0 (now - last b) * rate b).

Lemma refill_spec b now :
  bucket_ok b → is_clock now →
  refill b now = with_tokens (with_last b (Z.max (last b) now)) (ideal_refill b now).
Proof.
  intros [] Hn. unfold refill, ideal_refill. unfold_consts.
  pose proof (depth_of_bounds (rate b) (burstMs b) ltac:(done) ltac:(done)) as Hd.
  rewrite <- ok_depth0 in Hd.
  rewrite (i64_small (now - last b)) by (unfold is_i64; lia).
  destruct (Z.leb_spec (now - last b) 0).
  { rewrite (Z.max_l 0), (Z.max_l (last b)), Z.mul_0_l, Z.add_0_r, Z.min_r by lia. by destruct b. }
  rewrite (Z.max_r 0), (Z.max_r (last b)) by lia. simpl.
  destruct (Z.leb_spec (fillNs b) (now - last b)).
  { rewrite Z.min_l by nia. done. }
  assert (Hel : 0 <= (now - last b) * rate b < depth b) by nia.
  rewrite (i64_small (rate b)), (i64_small ((now - last b) * rate b)), i64_small
    by (unfold is_i64; lia).
  f_equal. destruct (Z.ltb_spec (depth b) (tokens b + (now - last b) * rate b)); lia.
Qed.

Lemma ideal_refill_bounds b now : bucket_ok b → tokens b <= ideal_refill b now <= depth b.
Proof. intros []. unfold ideal_refill. nia. Qed.

(** Changing tokens and clock reading within bounds keeps a bucket well formed. *)
Lemma bucket_ok_update b tk now :
  bucket_ok b → 0 <= tk <= depth b → is_clock now →
  bucket_ok (with_tokens (with_last b now) tk).
Proof. intros [] ??. constructor; simpl; auto. Qed.

Lemma is_clock_max b now : bucket_ok b → is_clock now → is_clock (Z.max (last b) now).
Proof. intros []. unfold is_clock. lia. Qed.
#[local] Hint Resolve bucket_ok_update is_clock_max : go.

Lemma refill_ok b now : bucket_ok b → is_clock now → bucket_ok (refill b now).
Proof.
  intros Hb Hn. rewrite refill_spec by done. pose proof (ideal_refill_bounds b now Hb).
  destruct (ok_tokens b Hb). apply bucket_ok_update; auto with go lia.
Qed.

(** [Admit] as the ideal bucket decides it. *)
Lemma Admit_spec b n now :
  bucket_ok b → is_len n → is_clock now →
  Admit b n now =
    let tk := ideal_refill b now in
    let b' := with_last b (Z.max (last b) now) in
    let c := n * 8 * ubitPerBit in
    if c <=? tk then (with_tokens b' (tk - c), true) else (with_tokens b' tk, false).
Proof.
  intros Hb Hl Hn. unfold Admit. rewrite cost_exact, refill_spec by done. cbv zeta. simpl.
  destruct (Z.leb_spec (n * 8 * ubitPerBit) (ideal_refill b now)); [|done].
  pose proof (ideal_refill_bounds b now Hb). pose proof Hb as [].
  pose proof (depth_of_bounds (rate b) (burstMs b) ltac:(done) ltac:(done)).
  rewrite i64_small; [done|]. unfold_consts. lia.
Qed.

Lemma Admit_ok b n now :
  bucket_ok b → is_len n → is_clock now → bucket_ok (Admit b n now).1.
Proof.
  intros Hb Hl Hn. rewrite Admit_spec by done. cbv zeta.
  pose proof (ideal_refill_bounds b now Hb). destruct (ok_tokens b Hb).
  case_match; simpl; apply bucket_ok_update; auto with go; unfold_consts; lia.
Qed.

Lemma Refund_spec b n :
  bucket_ok b → is_len n →
  Refund b n = with_tokens b (Z.min (depth b) (tokens b + n * 8 * ubitPerBit)).
Proof.
  intros [] Hl. unfold Refund. rewrite cost_exact by done.
  pose proof (depth_of_bounds (rate b) (burstMs b) ltac:(done) ltac:(done)).
  rewrite i64_small by (unfold_consts; lia). f_equal.
  destruct (Z.ltb_spec (depth b) (tokens b + n * 8 * ubitPerBit)); lia.
Qed.

Lemma Refund_ok b n : bucket_ok b → is_len n → bucket_ok (Refund b n).
Proof.
  intros Hb Hl. rewrite Refund_spec by done. destruct Hb. constructor; simpl; auto. unfold_consts. lia.
Qed.

Lemma SetRate_spec b r now :
  bucket_ok b → is_u64 r → is_clock now →
  bucket_ok (SetRate b r now) ∧ rate (SetRate b r now) = clamp_rate r ∧
  depth (SetRate b r now) = depth_of (clamp_rate r) (burstMs b) ∧
  tokens (SetRate b r now) = Z.min (depth (SetRate b r now)) (ideal_refill b now).
Proof.
  intros Hb Hr Hn. unfold SetRate. rewrite refill_spec by done.
  set (b1 := with_tokens (with_last b (Z.max (last b) now)) (ideal_refill b now)).
  pose proof (ideal_refill_bounds b now Hb). pose proof Hb as [].
  destruct (setRate_spec b1 r Hr ltac:(done)) as (E1 & E2 & E3 & E4 & E5 & E6).
  assert (Hc : 1 <= clamp_rate r < UnlimitedKbps) by (unfold clamp_rate; unfold_consts; lia).
  pose proof (depth_of_bounds _ _ Hc ltac:(done) : 36000000000 <= depth_of (clamp_rate r) (burstMs b) < _).
  assert (is_clock (Z.max (last b) now)) by auto with go.
  destruct (setRate b1 r) as [bu ra de fi tk la]. simpl in *. subst.
  destruct (Z.ltb_spec (depth_of (clamp_rate r) (burstMs b)) (ideal_refill b now)); simpl.
  all: split; [constructor; simpl; unfold is_clock in *; auto; lia | repeat split; lia].
Qed.

(** A packet admitted and then refunded leaves exactly the refilled bucket. *)
Lemma Refund_Admit b n now b' :
  bucket_ok b → is_len n → is_clock now →
  Admit b n now = (b', true) → Refund b' n = refill b now.
Proof.
  intros Hb Hl Hn HA. pose proof (Admit_ok b n now Hb Hl Hn) as Hok. rewrite HA in Hok.
  rewrite Refund_spec, refill_spec by done. rewrite Admit_spec in HA by done. cbv zeta in HA.
  pose proof (ideal_refill_bounds b now Hb). case_match; simplify_eq. unfold with_tokens. simpl.
  f_equal. lia.
Qed.

(** * Traffic

    A trace is the list of [(octets, clock reading)] of the packets offered to
    one bucket. *)
Definition trace := list (Z * Z).

Fixpoint run (b : t) (l : trace) : t * list bool :=
  match l with
  | [] => (b, [])
  | (n, now) :: l' =>
    let (b1, ok) := Admit b n now in
    let (b2, oks) := run b1 l' in (b2, ok :: oks)
  end.

Definition packet_ok (p : Z * Z) : Prop := is_len p.1 ∧ is_clock p.2.

(** Micro-bits a trace demands, and the ones the policer let through. *)
Fixpoint demand (l : trace) : Z :=
  match l with [] => 0 | (n, _) :: l' => n * 8 * ubitPerBit + demand l' end.
Fixpoint admitted (l : trace) (oks : list bool) : Z :=
  match l, oks with
  | (n, _) :: l', ok :: oks' => (if ok then n * 8 * ubitPerBit else 0) + admitted l' oks'
  | _, _ => 0
  end.

(** Clock readings that never go back, from [t0]. *)
Fixpoint nondecreasing (t0 : Z) (l : trace) : Prop :=
  match l with [] => True | (_, now) :: l' => t0 <= now ∧ nondecreasing now l' end.

(** Every prefix of the trace fits a credit [c] that grows at [r] from [t0]. *)
Definition fits (c r t0 : Z) (l : trace) : Prop :=
  ∀ l1 n now l2, l = l1 ++ (n, now) :: l2 → demand (l1 ++ [(n, now)]) <= c + r * (now - t0).

(** Every window of the trace, from any of its packets to a later one, carries
    at most a burst [c] plus the rate [r] over the length of the window. *)
Definition conforms (c r : Z) (l : trace) : Prop :=
  ∀ l1 n now l2, l = l1 ++ (n, now) :: l2 → fits c r now ((n, now) :: l2).

Lemma fits_cons c r t0 n now l :
  fits c r t0 ((n, now) :: l) ↔
  n * 8 * ubitPerBit <= c + r * (now - t0) ∧
  fits (c + r * (now - t0) - n * 8 * ubitPerBit) r now l.
Proof.
  split.
  - intros H. split.
    + specialize (H [] n now l eq_refl). simpl in H. lia.
    + intros l1 m t1 l2 ->. specialize (H ((n, now) :: l1) m t1 l2 eq_refl). simpl in H. lia.
  - intros [H1 H2] l1 m t1 l2 E. destruct l1 as [|p l1]; simplify_eq/=; [lia|].
    specialize (H2 l1 m t1 l2 eq_refl). lia.
Qed.

Lemma fits_min c c' r t0 l :
  fits (Z.min c c') r t0 l ↔ fits c r t0 l ∧ fits c' r t0 l.
Proof.
  split; [intros H; split; intros l1 n now l2 E; specialize (H l1 n now l2 E); lia|].
  intros [H1 H2] l1 n now l2 E. specialize (H1 l1 n now l2 E). specialize (H2 l1 n now l2 E). lia.
Qed.

Lemma conforms_cons c r p l : conforms c r (p :: l) ↔ fits c r p.2 (p :: l) ∧ conforms c r l.
Proof.
  destruct p as [n now]. split.
  - intros H. split; [by apply (H [] n now l)|].
    intros l1 m t1 l2 ->. by apply (H ((n, now) :: l1) m t1 l2).
  - intros [H1 H2] l1 m t1 l2 E. destruct l1 as [|q l1]; simplify_eq/=; [done|].
    by apply (H2 l1 m t1 l2).
Qed.

(** The bucket lets a whole trace through exactly when every prefix fits its
    present credit and every window fits its depth. *)
Lemma run_all b l :
  bucket_ok b → Forall packet_ok l → nondecreasing (last b) l →
  Forall (λ ok, ok = true) (run b l).2 ↔
  fits (tokens b) (rate b) (last b) l ∧ conforms (depth b) (rate b) l.
Proof.
  revert b. induction l as [|[n now] l IH]; intros b Hb Hl Hs.
  { split; [|by constructor]. intros _. split; intros [] ???; discriminate. }
  inversion Hl as [|? ? [Hn Hnow] Hl']; subst. destruct Hs as [Ht Hs]. simpl in Hn, Hnow, Ht.
  rewrite conforms_cons, !fits_cons. simpl.
  pose proof (Admit_ok b n now Hb Hn Hnow) as Hok.
  destruct (Admit b n now) as [b1 ok] eqn:HA. rewrite Admit_spec in HA by done.
  cbv zeta in HA. rewrite Z.max_r in HA by lia.
  assert (Hi : ideal_refill b now = Z.min (depth b) (tokens b + rate b * (now - last b)))
    by (unfold ideal_refill; rewrite Z.max_r by lia; f_equal; lia).
  destruct (Z.leb_spec (n * 8 * ubitPerBit) (ideal_refill b now)); simplify_eq; simpl in Hok.
  - specialize (IH _ Hok Hl' Hs). destruct (run _ l) as [b2 oks]. simpl in *.
    rewrite Forall_cons, IH, Hi. rewrite Z.sub_diag, Z.mul_0_r, Z.add_0_r.
    rewrite <- Z.sub_min_distr_r, fits_min. intuition lia.
  - destruct (run _ l) as [b2 oks]. simpl. rewrite Forall_cons.
    split; [intros [? _]; discriminate|]. intros [[H1 _] [[H2 _] _]]. rewrite Hi in *. lia.
Qed.

(** Whatever the readings of the clock, the credit spent never exceeds the
    initial credit plus what accrued. *)
Lemma run_bound b l :
  bucket_ok b → Forall packet_ok l →
  let (b', oks) := run b l in
  bucket_ok b' ∧ last b <= last b' ∧ rate b' = rate b ∧
  tokens b' + admitted l oks <= tokens b + rate b * (last b' - last b).
Proof.
  revert b. induction l as [|[n now] l IH]; intros b Hb Hl; simpl; [split_and!; auto; nia|].
  inversion Hl as [|? ? [Hn Hnow] Hl']; subst. simpl in Hn, Hnow.
  pose proof (Admit_ok b n now Hb Hn Hnow) as Hok.
  destruct (Admit b n now) as [b1 ok] eqn:HA. rewrite Admit_spec in HA by done. cbv zeta in HA.
  specialize (IH b1 Hok Hl'). destruct (run b1 l) as [b2 oks].
  destruct IH as (H1 & H2 & H3 & H4).
  assert (ideal_refill b now <= tokens b + rate b * (Z.max (last b) now - last b))
    by (unfold ideal_refill; pose proof Hb as []; nia).
  destruct (Z.leb_spec (n * 8 * ubitPerBit) (ideal_refill b now));
    simplify_eq; simpl in *; split_and!; auto; try congruence; try lia; nia.
Qed.

(** * Refinement of the ideal bucket

    The specification keeps rate, burst, credit and time as unbounded integers
    and has neither [fillNs] nor a stored depth. *)
Record ideal := mkIdeal { i_burst : Z; i_rate : Z; i_credit : Z; i_time : Z }.

Definition i_depth (i : ideal) : Z := depth_of (i_rate i) (i_burst i).
Definition i_advance (i : ideal) (now : Z) : ideal :=
  mkIdeal (i_burst i) (i_rate i)
    (Z.min (i_depth i) (i_credit i + Z.max 0 (now - i_time i) * i_rate i)) (Z.max (i_time i) now).
Definition i_spend (i : ideal) (c : Z) : ideal :=
  mkIdeal (i_burst i) (i_rate i) (Z.min (i_depth i) (i_credit i - c)) (i_time i).

(** The calls the forwarding path and the PFCP server make on a bucket. *)
Inductive op :=
| OAdmit (n now : Z)
| ORefund (n : Z)
| OSetRate (r now : Z)
| OTokens (now : Z).

Definition op_ok (o : op) : Prop :=
  match o with
  | OAdmit n now => is_len n ∧ is_clock now
  | ORefund n => is_len n
  | OSetRate r now => is_u64 r ∧ is_clock now
  | OTokens now => is_clock now
  end.

Definition step (b : t) (o : op) : t * Z :=
  match o with
  | OAdmit n now => let (b', ok) := Admit b n now in (b', Z.b2z ok)
  | ORefund n => (Refund b n, 0)
  | OSetRate r now => (SetRate b r now, 0)
  | OTokens now => TokensBytes b now
  end.

Definition ideal_step (i : ideal) (o : op) : ideal * Z :=
  match o with
  | OAdmit n now =>
    let i := i_advance i now in
    let c := n * 8 * ubitPerBit in
    if c <=? i_credit i then (i_spend i c, 1) else (i, 0)
  | ORefund n => (i_spend i (- (n * 8 * ubitPerBit)), 0)
  | OSetRate r now =>
    let i := i_advance i now in
    (i_spend (mkIdeal (i_burst i) (clamp_rate r) (i_credit i) (i_time i)) 0, 0)
  | OTokens now => let i := i_advance i now in (i, i_credit i / (8 * ubitPerBit))
  end.

Fixpoint steps {S O A} (f : S → O → S * A) (s : S) (l : list O) : S * list A :=
  match l with
  | [] => (s, [])
  | o :: l' => let (s1, a) := f s o in let (s2, r) := steps f s1 l' in (s2, a :: r)
  end.

Definition abs (b : t) : ideal := mkIdeal (burstMs b) (rate b) (tokens b) (last b).

Lemma abs_advance b now :
  bucket_ok b → is_clock now → abs (refill b now) = i_advance (abs b) now.
Proof.
  intros Hb Hn. rewrite refill_spec by done. unfold abs, i_advance, i_depth, ideal_refill. simpl.
  by rewrite (ok_depth b Hb).
Qed.

Lemma step_refines b o :
  bucket_ok b → op_ok o →
  bucket_ok (step b o).1 ∧ ideal_step (abs b) o = (abs (step b o).1, (step b o).2).
Proof.
  intros Hb Ho. destruct o as [n now|n|r now|now]; cbn [ideal_step step op_ok fst snd] in *; cbv zeta.
  - destruct Ho as [Hn Hnow]. pose proof (Admit_ok b n now Hb Hn Hnow) as Hok.
    pose proof (Admit_spec b n now Hb Hn Hnow) as HA. cbv zeta in HA.
    rewrite <- abs_advance, refill_spec by done. simpl. pose proof (ideal_refill_bounds b now Hb).
    destruct (Admit b n now) as [b' ok]; simpl in *. split; [done|].
    unfold is_len, ubitPerBit in *.
    destruct (Z.leb_spec (n * 8 * 1000000) (ideal_refill b now)); simplify_eq; [|done].
    unfold i_spend, i_depth. simpl. rewrite <- (ok_depth b Hb), Z.min_r by lia. done.
  - split; [by apply Refund_ok|]. rewrite Refund_spec by done.
    unfold abs, i_spend, i_depth. simpl. rewrite <- (ok_depth b Hb). by rewrite Z.sub_opp_r.
  - destruct Ho as [Hr Hnow].
    destruct (SetRate_spec b r now Hb Hr Hnow) as (H1 & H2 & H3 & H4). split; [done|].
    rewrite <- abs_advance by done. pose proof (refill_spec b now Hb Hnow) as HR.
    rewrite HR. unfold i_spend, i_depth. simpl. rewrite <- H3, Z.sub_0_r, <- H4, <- H2.
    unfold abs. do 2 f_equal.
    all: unfold SetRate; rewrite HR; cbv zeta; by destruct (depth _ <? tokens _).
  - split; [by apply refill_ok|]. rewrite <- abs_advance by done.
    pose proof (refill_ok b now Hb Ho) as Hok. destruct (ok_tokens _ Hok).
    unfold TokensBytes. cbn [fst snd]. by rewrite Z.quot_div_nonneg by (unfold ubitPerBit; lia).
Qed.

Lemma steps_refine b l :
  bucket_ok b → Forall op_ok l →
  bucket_ok (steps step b l).1 ∧
  steps ideal_step (abs b) l = (abs (steps step b l).1, (steps step b l).2).
Proof.
  revert b. induction l as [|o l IH]; intros b Hb Hl; simpl; [done|].
  inversion Hl as [|? ? Ho Hl']; subst. destruct (step_refines b o Hb Ho) as [H1 H2].
  rewrite H2. destruct (step b o) as [b1 a]. simpl in *. destruct (IH b1 H1 Hl') as [H3 H4].
  rewrite H4. destruct (steps step b1 l). done.
Qed.

(** * The properties of the policer *)

(** A bucket created by [NewBucket] and driven by any sequence of Admit,
    Refund, SetRate and TokensBytes calls answers exactly like the ideal token
    bucket on unbounded integers (no int64 operation of the source ever wraps),
    and stays well formed: the tokens stay between 0 and the depth. *)
Lemma bucket_refines_ideal r burst t0 l :
  is_u64 r → is_clock t0 → Forall op_ok l →
  let b := NewBucket r burst t0 in
  let (b', outs) := steps step b l in
  bucket_ok b' ∧
  steps ideal_step
    (mkIdeal (ClampBurstMs burst) (clamp_rate r) (depth_of (clamp_rate r) (ClampBurstMs burst)) t0) l
  = (abs b', outs).
Proof.
  intros Hr Ht Hl. cbv zeta. destruct (NewBucket_ok r burst t0 Hr Ht) as [Hb Hfull].
  pose proof (steps_refine (NewBucket r burst t0) l Hb Hl) as [H1 H2].
  destruct (setRate_spec (mk (ClampBurstMs burst) 0 0 0 0 t0) r Hr (ClampBurstMs_range burst))
    as (E1 & E2 & E3 & E4 & E5 & E6).
  destruct (steps step _ l) as [b' outs]. split; [done|].
  cbn [fst snd] in H2. rewrite <- H2. f_equal. unfold abs. rewrite Hfull. unfold NewBucket.
  cbn [with_tokens burstMs rate depth tokens last] in *. congruence.
Qed.

(** C6: a fresh bucket lets every packet of a trace through if and only if the
    trace conforms: each window of it, from any packet to any later one,
    carries at most the bucket depth plus the configured rate over the length
    of the window.  So the policer never drops conforming traffic and never
    passes a non-conforming trace whole. *)
Theorem policer_exact r burst t0 l :
  is_u64 r → is_clock t0 → Forall packet_ok l → nondecreasing t0 l →
  Forall (λ ok, ok = true) (run (NewBucket r burst t0) l).2 ↔
  conforms (depth_of (clamp_rate r) (ClampBurstMs burst)) (clamp_rate r) l.
Proof.
  intros Hr Ht Hl Hs. destruct (NewBucket_ok r burst t0 Hr Ht) as [Hb Hfull].
  destruct (setRate_spec (mk (ClampBurstMs burst) 0 0 0 0 t0) r Hr (ClampBurstMs_range burst))
    as (E1 & E2 & E3 & E4 & E5 & E6).
  assert (Hlast : last (NewBucket r burst t0) = t0) by exact E3.
  assert (Hrate : rate (NewBucket r burst t0) = clamp_rate r) by exact E4.
  assert (Hdep : depth (NewBucket r burst t0) = depth_of (clamp_rate r) (ClampBurstMs burst))
    by exact E5.
  pose proof (ok_rate _ Hb) as Hpos.
  rewrite run_all by (auto; by rewrite Hlast). rewrite Hfull, Hlast, Hrate, Hdep in *.
  split; [by intros [_ ?]|]. intros Hc. split; [|done].
  destruct l as [|[n now] l]; [intros [] ???; discriminate|]. destruct Hs as [Hs _].
  intros l1 m t1 l2 E. apply conforms_cons in Hc as [Hc _]. specialize (Hc l1 m t1 l2 E).
  simpl in Hc. nia.
Qed.

Lemma policer_exact_witness :
  Forall (λ ok, ok = true) (run (NewBucket 8000 10 0) [(6000, 1); (4000, 2); (1, 1000000)]).2 ∧
  conforms (depth_of (clamp_rate 8000) (ClampBurstMs 10)) (clamp_rate 8000)
    [(6000, 1); (4000, 2); (1, 1000000)].
Proof.
  assert (H : Forall (λ ok, ok = true) (run (NewBucket 8000 10 0) [(6000, 1); (4000, 2); (1, 1000000)]).2)
    by (vm_compute; repeat constructor).
  split; [exact H|].
  apply (policer_exact 8000 10 0); [unfold is_u64; lia|unfold is_clock; lia| | |exact H].
  - repeat constructor; unfold is_len, is_clock; simpl; lia.
  - simpl. lia.
Defined.

(** Whatever clock readings the packets carry and whatever a well-formed
    bucket holds, the octets it admits are paid for: their cost is at most the
    credit at the start plus the rate over the time the bucket advanced. *)
Lemma policer_bound b l :
  bucket_ok b → Forall packet_ok l →
  admitted l (run b l).2 <= tokens b + rate b * (last (run b l).1 - last b).
Proof.
  intros Hb Hl. pose proof (run_bound b l Hb Hl) as H. destruct (run b l) as [b' oks].
  destruct H as (H1 & _ & _ & H4). simpl. destruct (ok_tokens _ H1). lia.
Qed.

End Bucket.
