(* ===== verification/UpfQos.v ===== *)
(** QoS enforcement state of a PFCP session, [nf/upf/internal/pfcp/qos.go], and
    the records of [server.go] it lives in.

    The token buckets are shared: a QER holds a pointer to its bucket, and every
    snapshot built from the session holds the same pointer, so the buckets live
    in a heap [gmap loc B] and QERs and views hold locations.  The clock is read
    by the caller and passed as [now].  What the enforcement needs of a bucket is
    the class [PolicerLaws], which [Bucket] discharges. *)
From S2P Require Import Prelude UpfBucket.
Import Bucket.

(** * The policer interface *)

Class Policer (B : Type) := {
  p_admit : B → Z → Z → B * bool;
  p_refund : B → Z → B;
  p_settle : B → Z → B;  (* the credit accrued up to a time, nothing spent *)
  p_ok : B → Prop;
}.

Class PolicerLaws (B : Type) `{!Policer B} := {
  p_admit_ok (b : B) n now :
    p_ok b → is_len n → is_clock now → p_ok (p_admit b n now).1;
  p_settle_ok (b : B) now : p_ok b → is_clock now → p_ok (p_settle b now);
  p_settle_idem (b : B) now :
    p_ok b → is_clock now → p_settle (p_settle b now) now = p_settle b now;
  p_refused (b : B) n now :
    p_ok b → is_len n → is_clock now →
    (p_admit b n now).2 = false → (p_admit b n now).1 = p_settle b now;
  p_refunded (b : B) n now :
    p_ok b → is_len n → is_clock now →
    (p_admit b n now).2 = true → p_refund (p_admit b n now).1 n = p_settle b now;
}.

#[global] Instance bucket_policer : Policer Bucket.t := {|
  p_admit := Admit; p_refund := Refund; p_settle := refill; p_ok := bucket_ok |}.

#[global] Instance bucket_policer_laws : PolicerLaws Bucket.t.
Proof.
  constructor; simpl; intros.
  - by apply Admit_ok.
  - by apply refill_ok.
  - rewrite (refill_spec b now) by done.
    pose proof (ideal_refill_bounds b now ltac:(done)). destruct (ok_tokens b ltac:(done)).
    rewrite refill_spec; [|apply bucket_ok_update; auto using is_clock_max with lia|done].
    unfold with_tokens, with_last. simpl. f_equal; [|lia].
    unfold ideal_refill at 1. simpl. rewrite (Z.max_l 0) by lia. lia.
  - unfold Admit in *. by case_match.
  - apply (Refund_Admit b n now); auto. destruct (Admit b n now); simpl in *; congruence.
Qed.

(** * Data *)

Definition loc := positive.

Definition gateOpen : Z := 0.
Definition gateClosed : Z := 1.

Inductive DropReason := DropNone | DropGateClosed | DropMBRExceeded.
#[global] Instance DropReason_eq_dec : EqDecision DropReason.
Proof. solve_decision. Defined.

Definition DropReason_String (r : DropReason) : string :=
  match r with
  | DropGateClosed => "qer_gate_closed"
  | DropMBRExceeded => "qer_mbr_exceeded"
  | DropNone => ""
  end.

(** [QoSConfig] without the clock, whose readings are arguments here. *)
Record QoSConfig := mkQoSConfig { MBRDisabled : bool; BurstMs : Z }.

Definition normalized (c : QoSConfig) : QoSConfig :=
  mkQoSConfig (MBRDisabled c) (ClampBurstMs (BurstMs c)).

Record QERState := mkQER {
  QERID : Z;
  QFI : Z;
  HasQFI : bool;
  GateUL : Z;
  GateDL : Z;
  HasMBR : bool;
  MBRULKbps : Z;
  MBRDLKbps : Z;
  ulBucket : option loc;
  dlBucket : option loc;
}.

Record PDRState := mkPDR {
  PDRID : Z;
  SourceInterface : Z;
  Precedence : Z;
  QERIDs : list Z;
}.

Definition srcInterfaceAccess : Z := 0.
Definition srcInterfaceCore : Z := 1.
Definition noPrecedence : Z := 4294967295.

Record dirView := mkDir { dv_gateClosed : bool; dv_buckets : list loc }.
Record pdrView := mkPV { pv_ul : dirView; pv_dl : dirView }.
Record qosView := mkView {
  v_ul : dirView;
  v_dl : dirView;
  v_byPDR : gmap Z pdrView;
  v_dlQFI : Z;
  v_hasQFI : bool;
}.

#[global] Instance QERState_eq_dec : EqDecision QERState.
Proof. solve_decision. Defined.
#[global] Instance PDRState_eq_dec : EqDecision PDRState.
Proof. solve_decision. Defined.
#[global] Instance dirView_eq_dec : EqDecision dirView.
Proof. solve_decision. Defined.
#[global] Instance pdrView_eq_dec : EqDecision pdrView.
Proof. solve_decision. Defined.

(** * Admission of a packet *)

Section Admission.
Context {B : Type} `{!Policer B}.

Definition bAdmit (h : gmap loc B) (l : loc) (n now : Z) : res (gmap loc B * bool) :=
  match h !! l with
  | Some b => let (b', ok) := p_admit b n now in Ok (<[l := b']> h, ok)
  | None => Panic
  end.

Definition bRefund (h : gmap loc B) (l : loc) (n : Z) : res (gmap loc B) :=
  match h !! l with
  | Some b => Ok (<[l := p_refund b n]> h)
  | None => Panic
  end.

(** [for _, prev := range d.buckets[:i] { prev.Refund(n) }] *)
Fixpoint refund_all (h : gmap loc B) (prev : list loc) (n : Z) : res (gmap loc B) :=
  match prev with
  | [] => Ok h
  | l :: prev' => h ← bRefund h l n; refund_all h prev' n
  end.

(** [for i, b := range d.buckets]; [prev] is [d.buckets[:i]]. *)
Fixpoint admit_loop (h : gmap loc B) (prev ls : list loc) (n now : Z)
    : res (gmap loc B * (bool * DropReason)) :=
  match ls with
  | [] => Ok (h, (true, DropNone))
  | l :: ls' =>
    '(h, ok) ← bAdmit h l n now;
    if (ok : bool) then admit_loop h (prev ++ [l]) ls' n now
    else h ← refund_all h prev n; Ok (h, (false, DropMBRExceeded))
  end.

Definition dirView_admit (h : gmap loc B) (d : dirView) (n now : Z)
    : res (gmap loc B * (bool * DropReason)) :=
  if dv_gateClosed d then Ok (h, (false, DropGateClosed))
  else
    match dv_buckets d with
    | [] => Ok (h, (true, DropNone))
    | [l] =>
      '(h, ok) ← bAdmit h l n now;
      if (ok : bool) then Ok (h, (true, DropNone)) else Ok (h, (false, DropMBRExceeded))
    | ls => admit_loop h [] ls n now
    end.

Definition AdmitUL (h : gmap loc B) (v : option qosView) (n now : Z) :=
  match v with None => Ok (h, (true, DropNone)) | Some v => dirView_admit h (v_ul v) n now end.

Definition AdmitDL (h : gmap loc B) (v : option qosView) (n now : Z) :=
  match v with None => Ok (h, (true, DropNone)) | Some v => dirView_admit h (v_dl v) n now end.

Definition AdmitULForPDR (h : gmap loc B) (v : option qosView) (pdrID n now : Z) :=
  match v with
  | None => Ok (h, (true, DropNone))
  | Some v =>
    match v_byPDR v !! pdrID with
    | None => Ok (h, (true, DropNone))
    | Some p => dirView_admit h (pv_ul p) n now
    end
  end.

Definition AdmitDLForPDR (h : gmap loc B) (v : option qosView) (pdrID n now : Z) :=
  match v with
  | None => Ok (h, (true, DropNone))
  | Some v =>
    match v_byPDR v !! pdrID with
    | None => Ok (h, (true, DropNone))
    | Some p => dirView_admit h (pv_dl p) n now
    end
  end.

End Admission.

Definition DLQFI (v : option qosView) : Z := match v with Some v => v_dlQFI v | None => 0 end.

(** * Building the snapshot *)

Abbreviation bheap := (gmap loc Bucket.t).

Definition effectiveKbps (q : QERState) (ul : bool) (cfg : QoSConfig) : Z :=
  if MBRDisabled cfg || negb (HasMBR q) then 0
  else
    let k := if ul then MBRULKbps q else MBRDLKbps q in
    if (k =? 0) || (UnlimitedKbps <=? k) then 0 else k.

Definition reconcileBucket (h : bheap) (b : option loc) (want : Z) (cfg : QoSConfig) (now : Z)
    : res (bheap * option loc) :=
  if want =? 0 then Ok (h, None)
  else
    match b with
    | None =>
      let l := fresh (dom h) in
      Ok (<[l := NewBucket want (BurstMs cfg) now]> h, Some l)
    | Some l =>
      match h !! l with
      | None => Panic
      | Some bk =>
        if negb (Rate bk =? want) then Ok (<[l := SetRate bk want now]> h, Some l)
        else Ok (h, Some l)
      end
    end.

Definition set_buckets (q : QERState) (u d : option loc) : QERState :=
  mkQER (QERID q) (QFI q) (HasQFI q) (GateUL q) (GateDL q) (HasMBR q) (MBRULKbps q) (MBRDLKbps q) u d.

(** The body of [for _, q := range s.QERs]. *)
Definition reconcileQER (h : bheap) (q : QERState) (cfg : QoSConfig) (now : Z) : res (bheap * QERState) :=
  '(h, u) ← reconcileBucket h (ulBucket q) (effectiveKbps q true cfg) cfg now;
  '(h, d) ← reconcileBucket h (dlBucket q) (effectiveKbps q false cfg) cfg now;
  Ok (h, set_buckets q u d).

(** The loop, over the QERs in an iteration order of the map. *)
Fixpoint reconcileQERs (h : bheap) (l : list (Z * QERState)) (qers : gmap Z QERState)
    (cfg : QoSConfig) (now : Z) : res (bheap * gmap Z QERState) :=
  match l with
  | [] => Ok (h, qers)
  | (id, q) :: l' =>
    '(h, q') ← reconcileQER h q cfg now;
    reconcileQERs h l' (<[id := q']> qers) cfg now
  end.

Definition orderedQERs (qers : gmap Z QERState) (p : PDRState) : list QERState :=
  omap (λ id, q ← qers !! id; if HasQFI q then Some q else None) (QERIDs p) ++
  omap (λ id, q ← qers !! id; if HasQFI q then None else Some q) (QERIDs p).

Definition firstQFI (qers : gmap Z QERState) (p : PDRState) : Z * bool :=
  match list_find (λ q, HasQFI q = true) (orderedQERs qers p) with
  | Some (_, q) => (QFI q, true)
  | None => (0, false)
  end.

Definition buildPDRView (qers : gmap Z QERState) (p : PDRState) : pdrView :=
  foldl (λ pv q,
    mkPV
      (mkDir (if GateUL q =? gateClosed then true else dv_gateClosed (pv_ul pv))
         (dv_buckets (pv_ul pv) ++ option_list (ulBucket q)))
      (mkDir (if GateDL q =? gateClosed then true else dv_gateClosed (pv_dl pv))
         (dv_buckets (pv_dl pv) ++ option_list (dlBucket q))))
    (mkPV (mkDir false []) (mkDir false [])) (orderedQERs qers p).

Definition lowerPrecedence (cur : option PDRState) (p : PDRState) : option PDRState :=
  match cur with
  | None => Some p
  | Some c =>
    if (Precedence p <? Precedence c) || ((Precedence p =? Precedence c) && (PDRID p <? PDRID c))
    then Some p else Some c
  end.

(** The loop over the PDRs: the views by PDR ID, and the PDRs that govern the
    access and the core side. *)
Definition scanPDRs (qers : gmap Z QERState) (l : list PDRState)
    : gmap Z pdrView * option PDRState * option PDRState :=
  foldl (λ '(m, acc, core) p,
    let m := <[PDRID p := buildPDRView qers p]> m in
    if SourceInterface p =? srcInterfaceCore then (m, acc, lowerPrecedence core p)
    else (m, lowerPrecedence acc p, core)) (∅, None, None) l.

(** The view lookup [v.byPDR[p.PDRID]], whose result the source dereferences. *)
Definition viewOf (m : gmap Z pdrView) (p : PDRState) : res pdrView :=
  match m !! PDRID p with Some pv => Ok pv | None => Panic end.

Definition assembleView (qers : gmap Z QERState) (l : list PDRState) : res qosView :=
  let '(m, accessPDR, corePDR) := scanPDRs qers l in
  v ← match accessPDR with
      | Some p =>
        pv ← viewOf m p;
        let '(qfi, has) := firstQFI qers p in
        Ok (mkView (pv_ul pv) (pv_dl pv) m qfi has)
      | None => Ok (mkView (mkDir false []) (mkDir false []) m 0 false)
      end;
  match corePDR with
  | Some p =>
    pv ← viewOf m p;
    let '(qfi, has) := firstQFI qers p in
    Ok (mkView (v_ul v) (pv_dl pv) m
      (if (has : bool) then qfi else v_dlQFI v) (if has then true else v_hasQFI v))
  | None => Ok v
  end.

Definition buildQoSView (h : bheap) (qers : gmap Z QERState) (pdrs : gmap Z PDRState)
    (cfg : QoSConfig) (now : Z) : res (bheap * gmap Z QERState * option qosView) :=
  if decide (size qers = 0%nat ∧ size pdrs = 0%nat) then Ok (h, qers, None)
  else
    '(h, qers) ← reconcileQERs h (map_to_list qers) qers cfg now;
    v ← assembleView qers (snd <$> map_to_list pdrs);
    Ok (h, qers, Some v).

Definition sortedQERIDs (m : gmap Z QERState) : list Z :=
  merge_sort Z.le (fst <$> map_to_list m).

(** * Admission is atomic over the buckets of a direction *)

Section AdmissionProofs.
Context {B : Type} `{!Policer B, !PolicerLaws B}.
Implicit Types (h : gmap loc B) (l : loc).

Definition heap_ok h : Prop := map_Forall (λ _ b, p_ok b) h.

(** The bucket at [l] has the credit for the packet. *)
Definition accepts h (n now : Z) l : Prop :=
  ∃ b, h !! l = Some b ∧ (p_admit b n now).2 = true.

(** Every bucket of [ls] debited once, nothing else changed. *)
Definition charged h (ls : list loc) (n now : Z) h' : Prop :=
  ∀ l, h' !! l = if decide (l ∈ ls) then (λ b, (p_admit b n now).1) <$> h !! l else h !! l.

(** The same buckets, each with the credit it had at [now]. *)
Definition same_credit (now : Z) h h' : Prop :=
  ∀ l, option_Forall2 (λ b b', b' = b ∨ b' = p_settle b now) (h !! l) (h' !! l).

Definition dir_ok h (d : dirView) : Prop :=
  NoDup (dv_buckets d) ∧ Forall (λ l, is_Some (h !! l)) (dv_buckets d).

Lemma charged_nil h n now : charged h [] n now h.
Proof. intros l. by rewrite decide_False by set_solver. Qed.

Lemma charged_snoc h prev l n now h1 b :
  charged h prev n now h1 → l ∉ prev → h !! l = Some b →
  charged h (prev ++ [l]) n now (<[l := (p_admit b n now).1]> h1).
Proof.
  intros Hc Hl Hb k. destruct (decide (k = l)) as [->|Hne].
  - rewrite lookup_insert_eq, decide_True, Hb by set_solver. done.
  - rewrite lookup_insert_ne, Hc by done. destruct (decide (k ∈ prev)).
    + by rewrite decide_True by set_solver.
    + by rewrite decide_False by set_solver.
Qed.

Lemma charged_ok h ls n now h' :
  heap_ok h → is_len n → is_clock now → charged h ls n now h' → heap_ok h'.
Proof.
  intros Hh Hn Ht Hc l b Hb. rewrite Hc in Hb. case_decide; [|by apply (Hh l)].
  apply fmap_Some in Hb as (b0 & H0 & ->). apply p_admit_ok; auto. by apply (Hh l).
Qed.

Lemma same_credit_ok now h h' : heap_ok h → is_clock now → same_credit now h h' → heap_ok h'.
Proof.
  intros Hh Ht Hs l b Hb. specialize (Hs l). rewrite Hb in Hs.
  inversion Hs as [x y [->| ->] E|]; subst; [|apply p_settle_ok; [|done]]; by apply (Hh l).
Qed.

(** What the relation means: settling either heap at [now] gives the same. *)
Lemma same_credit_settle now h h' l b b' :
  heap_ok h → is_clock now → same_credit now h h' →
  h !! l = Some b → h' !! l = Some b' → p_settle b' now = p_settle b now.
Proof.
  intros Hh Ht Hs Hb Hb'. specialize (Hs l). rewrite Hb, Hb' in Hs. inversion Hs as [x y [->| ->]|]; subst.
  - done.
  - apply p_settle_idem; [by apply (Hh l)|done].
Qed.

(** Refunding the buckets charged so far restores them. *)
Lemma refund_all_spec h h1 prev n now :
  heap_ok h → is_len n → is_clock now → NoDup prev →
  Forall (accepts h n now) prev →
  same_credit now (foldr delete h prev) (foldr delete h1 prev) →
  (∀ l, l ∈ prev → h1 !! l = (λ b, (p_admit b n now).1) <$> h !! l) →
  ∃ h2, refund_all h1 prev n = Ok h2 ∧ same_credit now h h2.
Proof.
  revert h1. induction prev as [|l prev IH]; intros h1 Hh Hn Ht Hnd Hacc Hsc Hin; simpl.
  { exists h1. auto. }
  inversion Hnd as [|? ? Hni Hnd']; subst. inversion Hacc as [|? ? [b [Hb Hok]] Hacc']; subst.
  unfold bRefund. rewrite (Hin l) by set_solver. rewrite Hb. simpl.
  apply IH; auto.
  - intros k. specialize (Hsc k). simpl in Hsc. destruct (decide (k = l)) as [->|Hne].
    + rewrite lookup_foldr_delete_not_elem_of by done. rewrite Hb.
      rewrite lookup_foldr_delete_not_elem_of, lookup_insert_eq by done.
      constructor. right. apply p_refunded; auto. by apply (Hh l).
    + rewrite !lookup_delete_ne in Hsc by done.
      destruct (decide (k ∈ prev)).
      * rewrite !lookup_foldr_delete in * by done. done.
      * rewrite !lookup_foldr_delete_not_elem_of in * by done.
        by rewrite lookup_insert_ne by done.
  - intros k Hk. rewrite lookup_insert_ne by set_solver. apply Hin. set_solver.
Qed.

(** The loop from a point where [prev] has been charged. *)
Lemma admit_loop_spec h h1 prev ls n now :
  heap_ok h → is_len n → is_clock now → NoDup (prev ++ ls) →
  Forall (λ l, is_Some (h !! l)) ls → Forall (accepts h n now) prev → charged h prev n now h1 →
  ∃ h' ok r, admit_loop h1 prev ls n now = Ok (h', (ok, r)) ∧
    (ok = true ↔ Forall (accepts h n now) ls) ∧
    (ok = true → r = DropNone ∧ charged h (prev ++ ls) n now h') ∧
    (ok = false → r = DropMBRExceeded ∧ same_credit now h h').
Proof.
  revert h1 prev. induction ls as [|l ls IH]; intros h1 prev Hh Hn Ht Hnd Hsome Hacc Hch; simpl.
  { exists h1, true, DropNone. rewrite app_nil_r. naive_solver. }
  inversion Hsome as [|? ? [b Hb] Hsome']; subst.
  assert (Hl : l ∉ prev) by (apply NoDup_app in Hnd as (_ & Hd & _); set_solver).
  unfold bAdmit. rewrite Hch, decide_False, Hb by done.
  destruct (p_admit b n now) as [b' ok] eqn:HA. simpl. destruct ok.
  - assert (accepts h n now l) by (exists b; by rewrite HA).
    destruct (IH (<[l := b']> h1) (prev ++ [l])) as (h' & ok & r & E & H1 & H2 & H3); auto.
    + by rewrite <- app_assoc.
    + apply Forall_app; auto.
    + replace b' with (p_admit b n now).1 by (by rewrite HA). by apply charged_snoc.
    + exists h', ok, r. rewrite <- app_assoc in H2. rewrite Forall_cons. naive_solver.
  - assert (Hset : b' = p_settle b now).
    { change b' with (b', false).1. rewrite <- HA. apply p_refused; auto; [by apply (Hh l)|by rewrite HA]. }
    assert (Hnd' : NoDup prev) by (by apply NoDup_app in Hnd as (? & _)).
    destruct (refund_all_spec h (<[l := b']> h1) prev n now) as (h2 & E & Hsc); auto.
    + intros k. destruct (decide (k ∈ prev)).
      { rewrite !lookup_foldr_delete by done. constructor. }
      rewrite !lookup_foldr_delete_not_elem_of by done. destruct (decide (k = l)) as [->|Hne].
      * rewrite lookup_insert_eq, Hb. constructor. by right.
      * rewrite lookup_insert_ne, Hch, decide_False by done. destruct (h !! k); constructor. by left.
    + intros k Hk. rewrite lookup_insert_ne by set_solver. by rewrite Hch, decide_True.
    + exists h2, false, DropMBRExceeded. rewrite E. split_and!; try done.
      split; [done|]. intros HF. inversion HF as [|? ? (b1 & Hb1 & Hok1) _]; subst.
      rewrite Hb in Hb1. simplify_eq. rewrite HA in Hok1. done.
Qed.

Lemma dirView_admit_spec h d n now :
  heap_ok h → dir_ok h d → is_len n → is_clock now →
  ∃ h' ok r, dirView_admit h d n now = Ok (h', (ok, r)) ∧
    (ok = true ↔ dv_gateClosed d = false ∧ Forall (accepts h n now) (dv_buckets d)) ∧
    (ok = true → r = DropNone ∧ charged h (dv_buckets d) n now h') ∧
    (ok = false → r = (if dv_gateClosed d then DropGateClosed else DropMBRExceeded) ∧
                  same_credit now h h').
Proof.
  intros Hh [Hnd Hsome] Hn Ht. unfold dirView_admit. destruct (dv_gateClosed d).
  { exists h, false, DropGateClosed. split_and!; [done|naive_solver|done|].
    intros _. split; [done|]. intros l. destruct (h !! l); constructor. by left. }
  destruct (admit_loop_spec h h [] (dv_buckets d) n now) as (h' & ok & r & E & H1 & H2 & H3);
    auto using charged_nil.
  exists h', ok, r. split; [|naive_solver].
  destruct (dv_buckets d) as [|l [|l' ls]]; [done| |done].
  revert E. simpl. unfold bAdmit. case_match; [|done]. by destruct (p_admit _ n now) as [? []].
Qed.

End AdmissionProofs.

(** * The snapshot: buckets are reused, never shared by two rules

    A slot [(id, ul)] is the uplink ([true]) or downlink bucket pointer of the
    QER [id]. *)

Definition slots (m : gmap Z QERState) : Z * bool → option loc :=
  λ s, q ← m !! s.1; if s.2 then ulBucket q else dlBucket q.

Record slots_ok (h : bheap) (σ : Z * bool → option loc) : Prop := {
  slots_heap : heap_ok h;
  slots_alloc : ∀ s l, σ s = Some l → is_Some (h !! l);
  slots_inj : ∀ s1 s2 l, σ s1 = Some l → σ s2 = Some l → s1 = s2;
}.

(** What reconciling a slot with the rate [want] does: no bucket when nothing is
    to be limited, the old bucket (with its tokens) at the new rate when there
    was one, a full new bucket otherwise. *)
Definition slot_rel (cfg : QoSConfig) (now : Z) (h h' : bheap) (want : Z) (o o' : option loc) : Prop :=
  if want =? 0 then o' = None
  else
    match o with
    | Some l => o' = Some l ∧
      ∃ b, h !! l = Some b ∧ h' !! l = Some (if Rate b =? want then b else SetRate b want now)
    | None => ∃ l, o' = Some l ∧ h !! l = None ∧ h' !! l = Some (NewBucket want (BurstMs cfg) now)
    end.

Section Reconcile.
Context (cfg : QoSConfig) (now : Z) (Hnow : is_clock now).
Implicit Types (h : bheap) (σ : Z * bool → option loc) (S : Z * bool → Prop).

Record reconciled S (want : Z * bool → Z) h σ h' σ' : Prop := {
  rec_ok : slots_ok h' σ';
  rec_dom l : is_Some (h !! l) → is_Some (h' !! l);
  rec_in s : S s → slot_rel cfg now h h' (want s) (σ s) (σ' s);
  rec_out s : ¬ S s → σ' s = σ s;
  rec_frame l : is_Some (h !! l) → (∀ s, S s → σ s ≠ Some l) → h' !! l = h !! l;
}.

Lemma reconciled_nil want h σ : slots_ok h σ → reconciled (λ _, False) want h σ h σ.
Proof. intros. constructor; naive_solver. Qed.

Lemma reconciled_compose S1 S2 want h σ h1 σ1 h2 σ2 :
  slots_ok h σ → (∀ s, S1 s → S2 s → False) → (∀ s, Decision (S1 s)) →
  reconciled S1 want h σ h1 σ1 → reconciled S2 want h1 σ1 h2 σ2 →
  reconciled (λ s, S1 s ∨ S2 s) want h σ h2 σ2.
Proof.
  intros Hok Hdis Hdec R1 R2. constructor.
  - apply (rec_ok _ _ _ _ _ _ R2).
  - intros l Hl. apply (rec_dom _ _ _ _ _ _ R2), (rec_dom _ _ _ _ _ _ R1), Hl.
  - intros s [Hs|Hs].
    + pose proof (rec_in _ _ _ _ _ _ R1 s Hs) as Hr.
      assert (Hout : σ2 s = σ1 s) by (apply (rec_out _ _ _ _ _ _ R2); eauto).
      assert (Hfr : ∀ l, σ1 s = Some l → h2 !! l = h1 !! l).
      { intros l Hl. apply (rec_frame _ _ _ _ _ _ R2).
        - eapply slots_alloc; [apply (rec_ok _ _ _ _ _ _ R1)|done].
        - intros s2 Hs2 E. apply (Hdis s); [done|].
          by rewrite (slots_inj _ _ (rec_ok _ _ _ _ _ _ R1) s s2 l Hl E). }
      unfold slot_rel in *. rewrite Hout. destruct (want s =? 0); [done|].
      destruct (σ s) as [l|].
      * destruct Hr as (E & b & Hb & Hb1). split; [done|]. exists b. by rewrite (Hfr l E).
      * destruct Hr as (l & E & Hb & Hb1). exists l. by rewrite (Hfr l E).
    + pose proof (rec_in _ _ _ _ _ _ R2 s Hs) as Hr.
      assert (Hout : σ1 s = σ s) by (apply (rec_out _ _ _ _ _ _ R1); eauto).
      unfold slot_rel in *. rewrite Hout in Hr. destruct (want s =? 0); [done|].
      destruct (σ s) as [l|] eqn:El.
      * destruct Hr as (E & b & Hb & Hb1). split; [done|]. exists b. split; [|done].
        rewrite <- Hb. symmetry. apply (rec_frame _ _ _ _ _ _ R1).
        { eapply slots_alloc; [apply Hok|done]. }
        intros s1 Hs1 E1. apply (Hdis s1); [done|]. by rewrite (slots_inj _ _ Hok s1 s l E1 El).
      * destruct Hr as (l & E & Hb & Hb1). exists l. split_and!; try done.
        destruct (h !! l) eqn:Eh; [|done].
        destruct (rec_dom _ _ _ _ _ _ R1 l) as [? ?]; [by eexists|congruence].
  - intros s Hs. rewrite (rec_out _ _ _ _ _ _ R2), (rec_out _ _ _ _ _ _ R1); naive_solver.
  - intros l Hl Hns. rewrite (rec_frame _ _ _ _ _ _ R2).
    + apply (rec_frame _ _ _ _ _ _ R1); naive_solver.
    + by apply (rec_dom _ _ _ _ _ _ R1).
    + intros s Hs E. apply (Hns s); [by right|].
      rewrite <- E. symmetry. apply (rec_out _ _ _ _ _ _ R1). eauto.
Qed.

(** One slot. *)
Lemma reconcileBucket_spec (want : Z * bool → Z) h σ σ' s h' o' :
  slots_ok h σ → 0 <= want s < UnlimitedKbps →
  reconcileBucket h (σ s) (want s) cfg now = Ok (h', o') →
  (∀ s', σ' s' = if decide (s' = s) then o' else σ s') →
  reconciled (eq s) want h σ h' σ'.
Proof.
  intros Hok Hw Hr Hσ. unfold reconcileBucket in Hr.
  assert (Hu : is_u64 (want s)) by (unfold is_u64, UnlimitedKbps in *; lia).
  assert (Hs : σ' s = o') by (by rewrite Hσ, decide_True).
  assert (Ho : ∀ s', s' ≠ s → σ' s' = σ s') by (intros; by rewrite Hσ, decide_False).
  assert (Hrel : slot_rel cfg now h h' (want s) (σ s) o' ∧ heap_ok h' ∧
    (∀ l, is_Some (h !! l) → is_Some (h' !! l)) ∧
    (∀ l, is_Some (h !! l) → σ s ≠ Some l → h' !! l = h !! l)).
  { unfold slot_rel. pose proof (slots_heap _ _ Hok) as Hh. destruct (want s =? 0).
    { simplify_eq. auto. }
    destruct (σ s) as [l|].
    - destruct (h !! l) as [b|] eqn:Hb; [|done]. pose proof (Hh l b Hb) as Hbok.
      destruct (Rate b =? want s) eqn:Er; simplify_eq/=.
      { split_and!; auto. exists b. by rewrite Er. }
      split_and!.
      + done.
      + exists b. by rewrite Er, lookup_insert_eq.
      + apply map_Forall_insert_2; [|done]. by apply SetRate_spec.
      + intros k Hk. destruct (decide (k = l)) as [->|]; [by rewrite lookup_insert_eq|].
        by rewrite lookup_insert_ne.
      + intros k Hk Hne. rewrite lookup_insert_ne; congruence.
    - simplify_eq. set (l := fresh (dom h)).
      assert (Hl : h !! l = None) by (apply not_elem_of_dom, is_fresh).
      split_and!.
      + exists l. by rewrite lookup_insert_eq.
      + apply map_Forall_insert_2; [|done]. by apply NewBucket_ok.
      + intros k Hk. destruct (decide (k = l)) as [->|]; [by rewrite lookup_insert_eq|].
        by rewrite lookup_insert_ne.
      + intros k [b Hk] _. rewrite lookup_insert_ne; congruence. }
  destruct Hrel as (Hrel & Hh' & Hdom & Hframe).
  assert (Hown : ∀ l, o' = Some l → σ s = Some l ∨ h !! l = None).
  { intros l ->. unfold slot_rel in Hrel. destruct (want s =? 0); [done|].
    destruct (σ s); naive_solver. }
  assert (Halloc' : ∀ l, o' = Some l → is_Some (h' !! l)).
  { intros l ->. unfold slot_rel in Hrel. destruct (want s =? 0); [done|].
    destruct (σ s); naive_solver. }
  constructor; try done; [constructor|..].
  - done.
  - intros s' l E. rewrite Hσ in E. case_decide; [auto|]. by eapply Hdom, slots_alloc.
  - intros s1 s2 l E1 E2. rewrite Hσ in E1, E2. destruct (decide (s1 = s)), (decide (s2 = s)); subst.
    + done.
    + destruct (Hown l) as [E|E]; [done|by eapply slots_inj|].
      destruct (slots_alloc _ _ Hok s2 l E2). congruence.
    + destruct (Hown l) as [E|E]; [done|by eapply slots_inj|].
      destruct (slots_alloc _ _ Hok s1 l E1). congruence.
    + by eapply slots_inj.
  - intros s' <-. by rewrite Hs.
  - intros s' Hs'. apply Ho. congruence.
  - intros l Hl Hne. apply Hframe; auto.
Qed.

Lemma reconcileBucket_total h σ s want :
  slots_ok h σ → ∃ h' o', reconcileBucket h (σ s) want cfg now = Ok (h', o').
Proof.
  intros Hok. unfold reconcileBucket. destruct (want =? 0); [eauto|].
  destruct (σ s) as [l|] eqn:E; [|eauto]. destruct (slots_alloc _ _ Hok s l E) as [b ->].
  destruct (negb _); eauto.
Qed.

End Reconcile.

(** The rates the rules of a session ask for, slot by slot. *)
Definition wants (cfg : QoSConfig) (m : gmap Z QERState) : Z * bool → Z :=
  λ s, match m !! s.1 with Some q => effectiveKbps q s.2 cfg | None => 0 end.

Definition qer_ok (q : QERState) : Prop := is_u64 (MBRULKbps q) ∧ is_u64 (MBRDLKbps q).

Lemma effectiveKbps_range q ul cfg : qer_ok q → 0 <= effectiveKbps q ul cfg < UnlimitedKbps.
Proof.
  unfold qer_ok, is_u64, effectiveKbps, UnlimitedKbps. intros [? ?].
  destruct ul; repeat case_match; try lia.
  all: apply orb_false_iff in H1 as [? ?%Z.leb_gt]; lia.
Qed.

Section ReconcileMap.
Context (cfg : QoSConfig) (now : Z) (Hnow : is_clock now).

Lemma reconciled_ext (S S' : Z * bool → Prop) w w' h σ h' σ' :
  (∀ s, S s ↔ S' s) → (∀ s, S s → w s = w' s) →
  reconciled cfg now S w h σ h' σ' → reconciled cfg now S' w' h σ h' σ'.
Proof.
  intros HS Hw R. constructor; try apply R.
  - intros s Hs. apply HS in Hs. rewrite <- Hw by done. by apply R.
  - intros s Hs. apply R. by rewrite HS.
  - intros l Hl Hn. apply (rec_frame _ _ _ _ _ _ _ _ R); [done|]. intros s Hs. apply Hn, HS, Hs.
Qed.

Lemma reconcileQER_spec h (m : gmap Z QERState) id q :
  slots_ok h (slots m) → m !! id = Some q → qer_ok q →
  ∃ h' u d, reconcileQER h q cfg now = Ok (h', set_buckets q u d) ∧
    reconciled cfg now (λ s, s.1 = id) (wants cfg m) h (slots m) h'
      (slots (<[id := set_buckets q u d]> m)).
Proof.
  intros Hok Hq Hqok. unfold reconcileQER.
  assert (Hw : ∀ ul, wants cfg m (id, ul) = effectiveKbps q ul cfg) by (intros; unfold wants; simpl; by rewrite Hq).
  assert (Hs : ∀ ul, slots m (id, ul) = if ul then ulBucket q else dlBucket q)
    by (intros; unfold slots; simpl; by rewrite Hq).
  pose proof (effectiveKbps_range q) as Hr.
  destruct (reconcileBucket_total cfg now h (slots m) (id, true) (wants cfg m (id, true)) Hok)
    as (h1 & u & E1).
  set (m1 := <[id := set_buckets q u (dlBucket q)]> m).
  assert (R1 : reconciled cfg now (eq (id, true)) (wants cfg m) h (slots m) h1 (slots m1)).
  { eapply reconcileBucket_spec; [done|done|rewrite Hw; auto|exact E1|].
    intros [i ul]. unfold slots, m1. simpl. destruct (decide (i = id)) as [->|Hne].
    - rewrite lookup_insert_eq, Hq. simpl. by destruct ul, (decide ((id, _) = (id, true))).
    - rewrite lookup_insert_ne by done. by rewrite decide_False by congruence. }
  destruct (reconcileBucket_total cfg now h1 (slots m1) (id, false) (wants cfg m (id, false)))
    as (h2 & d & E2); [apply R1|].
  assert (Hs1 : slots m1 (id, false) = dlBucket q)
    by (unfold slots, m1; simpl; by rewrite lookup_insert_eq).
  assert (R2 : reconciled cfg now (eq (id, false)) (wants cfg m) h1 (slots m1) h2
    (slots (<[id := set_buckets q u d]> m))).
  { eapply reconcileBucket_spec; [done|apply R1|rewrite Hw; auto|exact E2|].
    intros [i ul]. unfold slots, m1. simpl. destruct (decide (i = id)) as [->|Hne].
    - rewrite !lookup_insert_eq. simpl. by destruct ul, (decide ((id, _) = (id, false))).
    - rewrite !lookup_insert_ne by done. by rewrite decide_False by congruence. }
  exists h2, u, d. rewrite Hs, Hw in E1. rewrite Hs1, Hw in E2. rewrite E1. simpl. rewrite E2. simpl.
  split; [done|]. eapply reconciled_ext; [| |eapply reconciled_compose; [exact Hok| | |exact R1|exact R2]].
  - intros [i []]; simpl; naive_solver.
  - done.
  - intros s <-. congruence.
  - intros s. apply _.
Qed.

(** The rules themselves only change in their bucket pointers. *)
Definition same_rules (m m' : gmap Z QERState) : Prop :=
  ∀ id, option_Forall2 (λ q q', ∃ u d, q' = set_buckets q u d) (m !! id) (m' !! id).

Lemma set_buckets_self q : set_buckets q (ulBucket q) (dlBucket q) = q.
Proof. by destruct q. Qed.

Lemma same_rules_refl m : same_rules m m.
Proof.
  intros id. destruct (m !! id) as [q|]; constructor.
  exists (ulBucket q), (dlBucket q). by rewrite set_buckets_self.
Qed.

Lemma same_rules_insert m id q u d m' :
  m !! id = Some q → same_rules (<[id := set_buckets q u d]> m) m' → same_rules m m'.
Proof.
  intros Hq Hs i. specialize (Hs i). destruct (decide (i = id)) as [->|].
  - rewrite lookup_insert_eq in Hs. rewrite Hq. inversion Hs as [x y (u' & d' & ->) E|]; subst.
    constructor. eauto.
  - by rewrite lookup_insert_ne in Hs.
Qed.

Lemma reconcileQERs_spec l h (m : gmap Z QERState) :
  slots_ok h (slots m) → NoDup l.*1 → (∀ id q, (id, q) ∈ l → m !! id = Some q ∧ qer_ok q) →
  ∃ h' m', reconcileQERs h l m cfg now = Ok (h', m') ∧ same_rules m m' ∧
    reconciled cfg now (λ s, s.1 ∈ l.*1) (wants cfg m) h (slots m) h' (slots m').
Proof.
  revert h m. induction l as [|[id q] l IH]; intros h m Hok Hnd Hin; simpl.
  { exists h, m. split_and!; [done|apply same_rules_refl|].
    eapply reconciled_ext; [| |by apply reconciled_nil]; simpl; set_solver. }
  simpl in Hnd. inversion Hnd as [|? ? Hni Hnd']; subst.
  destruct (Hin id q) as [Hq Hqok]; [set_solver|].
  destruct (reconcileQER_spec h m id q Hok Hq Hqok) as (h1 & u & d & E1 & R1). rewrite E1. simpl.
  destruct (IH h1 (<[id := set_buckets q u d]> m)) as (h' & m' & E & Hsame & R); [apply R1|done| |].
  { intros i q' Hi. rewrite lookup_insert_ne; [apply Hin; set_solver|].
    intros <-. apply Hni. apply list_elem_of_fmap. by exists (id, q'). }
  exists h', m'. split_and!; [done|by eapply same_rules_insert|].
  eapply reconciled_ext; [| |eapply (reconciled_compose _ _ _ (λ s, s.1 ∈ l.*1));
    [exact Hok| | |exact R1|]].
  - set_solver.
  - done.
  - simpl. intros s -> ?. done.
  - intros s. apply _.
  - eapply reconciled_ext; [| |exact R]; [done|].
    intros s Hs. unfold wants. rewrite lookup_insert_ne; [done|]. by intros ->.
Qed.

End ReconcileMap.

(** * The views *)

Lemma NoDup_omap_inj {A A'} (f : A → option A') (l : list A) :
  (∀ x1 x2 y, f x1 = Some y → f x2 = Some y → x1 = x2) → NoDup l → NoDup (omap f l).
Proof.
  intros Hinj. induction 1 as [|x l Hx _ IH]; simpl; [constructor|].
  destruct (f x) as [y|] eqn:E; [|done]. constructor; [|done].
  rewrite list_elem_of_omap. intros (x' & Hin & E'). by rewrite (Hinj x x' y E E') in Hx.
Qed.

Lemma omap_omap {A A' A''} (f : A → option A') (g : A' → option A'') (l : list A) :
  omap g (omap f l) = omap (λ x, f x ≫= g) l.
Proof.
  induction l as [|x l IH]; simpl; [done|]. destruct (f x) as [y|]; simpl; [|exact IH].
  destruct (g y); [f_equal|]; exact IH.
Qed.

(** The evaluation order only permutes the rules of the PDR. *)
Lemma orderedQERs_perm qers p : orderedQERs qers p ≡ₚ omap (λ id, qers !! id) (QERIDs p).
Proof.
  unfold orderedQERs. induction (QERIDs p) as [|id ids IH]; simpl; [done|].
  destruct (qers !! id) as [q|] eqn:E; simpl; [|done]. destruct (HasQFI q); simpl.
  - by rewrite IH.
  - by rewrite <- Permutation_middle, IH.
Qed.

Definition bucketOf (ul : bool) (q : QERState) : option loc := if ul then ulBucket q else dlBucket q.
Definition gateOf (ul : bool) (q : QERState) : Z := if ul then GateUL q else GateDL q.
Definition dirOf (ul : bool) (pv : pdrView) : dirView := if ul then pv_ul pv else pv_dl pv.

Lemma buildPDRView_eq qers p ul :
  dirOf ul (buildPDRView qers p) =
  mkDir (existsb (λ q, gateOf ul q =? gateClosed) (orderedQERs qers p))
        (omap (bucketOf ul) (orderedQERs qers p)).
Proof.
  unfold buildPDRView. set (pv0 := mkPV _ _).
  enough (H : ∀ l pv, dirOf ul (foldl (λ pv q, mkPV
    (mkDir (if GateUL q =? gateClosed then true else dv_gateClosed (pv_ul pv))
       (dv_buckets (pv_ul pv) ++ option_list (ulBucket q)))
    (mkDir (if GateDL q =? gateClosed then true else dv_gateClosed (pv_dl pv))
       (dv_buckets (pv_dl pv) ++ option_list (dlBucket q)))) pv l) =
    mkDir (dv_gateClosed (dirOf ul pv) || existsb (λ q, gateOf ul q =? gateClosed) l)
      (dv_buckets (dirOf ul pv) ++ omap (bucketOf ul) l)).
  { rewrite H. unfold pv0. by destruct ul. }
  induction l as [|q l IH]; intros pv; simpl.
  { rewrite app_nil_r, orb_false_r. by destruct ul, pv as [[] []]. }
  rewrite IH. destruct ul; simpl; f_equal.
  1, 3: by destruct (_ =? gateClosed), (dv_gateClosed _).
  all: rewrite <- app_assoc; f_equal; by destruct (_ q).
Qed.

Lemma buckets_slots qers p ul :
  dv_buckets (dirOf ul (buildPDRView qers p)) ≡ₚ omap (λ id, slots qers (id, ul)) (QERIDs p).
Proof.
  rewrite buildPDRView_eq. simpl. rewrite orderedQERs_perm, omap_omap. done.
Qed.

Lemma view_dir_ok h qers p ul :
  slots_ok h (slots qers) → NoDup (QERIDs p) → dir_ok h (dirOf ul (buildPDRView qers p)).
Proof.
  intros Hok Hnd. split.
  - rewrite buckets_slots. apply NoDup_omap_inj; [|done].
    intros i1 i2 l E1 E2. pose proof (slots_inj _ _ Hok _ _ _ E1 E2). congruence.
  - rewrite buckets_slots, Forall_forall. intros l (id & _ & E)%list_elem_of_omap.
    by eapply slots_alloc.
Qed.

(** ** The PDR that governs a direction *)

Definition select (l : list PDRState) : option PDRState := foldl lowerPrecedence None l.

(** Lower precedence value first, then lower PDR ID. *)
Definition pdr_le (p q : PDRState) : Prop :=
  Precedence p < Precedence q ∨ (Precedence p = Precedence q ∧ PDRID p <= PDRID q).

Lemma select_from (c : option PDRState) l :
  match foldl lowerPrecedence c l with
  | None => c = None ∧ l = []
  | Some p => (c = Some p ∨ p ∈ l) ∧ (∀ q, c = Some q ∨ q ∈ l → pdr_le p q)
  end.
Proof.
  revert c. induction l as [|x l IH]; intros c; simpl.
  { destruct c as [p|]; [|done]. split; [by left|]. intros q [?|?]; [|set_solver].
    simplify_eq. right. lia. }
  specialize (IH (lowerPrecedence c x)). destruct (foldl _ _ l) as [p|].
  - destruct IH as [Hin Hle]. unfold lowerPrecedence in *. destruct c as [c|].
    + destruct (_ || _) eqn:E.
      * assert (Hxc : pdr_le x c).
        { unfold pdr_le. apply orb_true_iff in E as [?%Z.ltb_lt|[?%Z.eqb_eq ?%Z.ltb_lt]%andb_true_iff]; lia. }
        split; [set_solver|]. intros q [?|Hq]; simplify_eq.
        -- pose proof (Hle x (or_introl eq_refl)). unfold pdr_le in *. lia.
        -- apply Hle. set_solver.
      * assert (Hxc : pdr_le c x).
        { apply orb_false_iff in E as [?%Z.ltb_ge [?%Z.eqb_neq|?%Z.ltb_ge]%andb_false_iff];
            unfold pdr_le; lia. }
        split; [set_solver|]. intros q [?|Hq]; simplify_eq; [by apply Hle; left|].
        apply elem_of_cons in Hq as [->|Hq]; [|apply Hle; by right].
        pose proof (Hle c (or_introl eq_refl)). unfold pdr_le in *. lia.
    + split; [set_solver|]. intros q [?|Hq]; [done|]. apply Hle. set_solver.
  - exfalso. destruct IH as [E _]. unfold lowerPrecedence in E. repeat case_match; done.
Qed.

Lemma select_spec l p : select l = Some p → p ∈ l ∧ ∀ q, q ∈ l → pdr_le p q.
Proof.
  intros E. pose proof (select_from None l) as H. unfold select in E. rewrite E in H. naive_solver.
Qed.

Lemma select_None l : select l = None ↔ l = [].
Proof.
  pose proof (select_from None l) as H. unfold select. destruct (foldl _ _ l); [|naive_solver].
  split; [done|]. intros ->. set_solver.
Qed.

(** The choice does not depend on the order the map is iterated in. *)
Lemma select_perm l l' : NoDup (PDRID <$> l) → l ≡ₚ l' → select l = select l'.
Proof.
  intros Hnd Hp. destruct (select l) as [p|] eqn:E, (select l') as [p'|] eqn:E'.
  - apply select_spec in E as [H1 H2]. apply select_spec in E' as [H1' H2'].
    rewrite <- Hp in H1'. assert (Hid : PDRID p = PDRID p').
    { specialize (H2 p' H1'). specialize (H2' p). rewrite <- Hp in H2'. specialize (H2' H1).
      unfold pdr_le in *. lia. }
    f_equal. apply list_elem_of_lookup in H1 as [i Hi], H1' as [j Hj].
    assert (i = j); [|congruence].
    eapply NoDup_lookup; [exact Hnd|by rewrite list_lookup_fmap, Hi|by rewrite list_lookup_fmap, Hj, Hid].
  - apply select_None in E'. subst. by apply Permutation_nil_r in Hp; subst.
  - apply select_None in E. subst. by apply Permutation_nil_l in Hp; subst.
  - done.
Qed.

Definition is_core (p : PDRState) : bool := SourceInterface p =? srcInterfaceCore.

Definition views (qers : gmap Z QERState) (l : list PDRState) : gmap Z pdrView :=
  foldl (λ m p, <[PDRID p := buildPDRView qers p]> m) ∅ l.

Lemma scanPDRs_eq qers l :
  scanPDRs qers l =
  (views qers l, select (filter (λ p, is_core p = false) l),
   select (filter (λ p, is_core p = true) l)).
Proof.
  unfold scanPDRs, select, views. generalize (∅ : gmap Z pdrView). generalize (None : option PDRState) at 1 3.
  generalize (None : option PDRState).
  induction l as [|p l IH]; intros a b m; simpl; [done|].
  unfold is_core at 1 3. destruct (SourceInterface p =? srcInterfaceCore) eqn:E; rewrite IH.
  - by rewrite filter_cons_False, filter_cons_True by (unfold is_core; rewrite E; done).
  - by rewrite filter_cons_True, filter_cons_False by (unfold is_core; rewrite E; done).
Qed.

Lemma views_lookup qers l :
  NoDup (PDRID <$> l) →
  ∀ p, p ∈ l → views qers l !! PDRID p = Some (buildPDRView qers p).
Proof.
  induction l as [|x l IH] using rev_ind; intros Hnd p Hp; [set_solver|].
  unfold views in *. rewrite foldl_snoc. rewrite fmap_app in Hnd. apply NoDup_app in Hnd as (Hnd & Hd & _).
  apply elem_of_app in Hp as [Hp|Hp].
  - rewrite lookup_insert_ne; [by apply IH|]. intros E. apply (Hd (PDRID p)).
    + apply list_elem_of_fmap. eauto.
    + simpl. set_solver.
  - apply list_elem_of_singleton in Hp as ->. by rewrite lookup_insert_eq.
Qed.

Lemma views_None qers l id : id ∉ PDRID <$> l → views qers l !! id = None.
Proof.
  induction l as [|x l IH] using rev_ind; intros Hid; [apply lookup_empty|].
  unfold views in *. rewrite foldl_snoc. rewrite fmap_app in Hid.
  rewrite lookup_insert_ne by (intros E; apply Hid; simpl; set_solver). apply IH. set_solver.
Qed.

Lemma views_perm qers l l' : NoDup (PDRID <$> l) → l ≡ₚ l' → views qers l = views qers l'.
Proof.
  intros Hnd Hp. assert (Hnd' : NoDup (PDRID <$> l')) by (by rewrite <- Hp).
  apply map_eq. intros id. destruct (decide (id ∈ PDRID <$> l)) as [Hin|Hin].
  - apply list_elem_of_fmap in Hin as (p & -> & Hp1).
    rewrite views_lookup by done. rewrite views_lookup; [done|done|]. by rewrite <- Hp.
  - rewrite views_None by done. rewrite views_None; [done|]. by rewrite <- Hp.
Qed.

Lemma NoDup_fmap_filter {A} (f : A → Z) (P : A → Prop) `{!∀ x, Decision (P x)} l :
  NoDup (f <$> l) → NoDup (f <$> filter P l).
Proof.
  induction l as [|x l IH]; [done|]. rewrite filter_cons. simpl. intros Hnd.
  inversion Hnd as [|? ? Hni Hnd']; subst. case_decide; [|by apply IH].
  simpl. constructor; [|by apply IH]. intros Hin. apply Hni.
  apply list_elem_of_fmap in Hin as (y & E & Hy). apply list_elem_of_fmap.
  apply list_elem_of_filter in Hy as [_ Hy]. eauto.
Qed.

Lemma scanPDRs_perm qers l l' :
  NoDup (PDRID <$> l) → l ≡ₚ l' → scanPDRs qers l = scanPDRs qers l'.
Proof.
  intros Hnd Hp. rewrite !scanPDRs_eq. f_equal; [f_equal|].
  - by apply views_perm.
  - apply select_perm; [by apply NoDup_fmap_filter|by rewrite Hp].
  - apply select_perm; [by apply NoDup_fmap_filter|by rewrite Hp].
Qed.

(** The state of a session's rules: QERs own distinct, well-formed buckets, and
    the PDRs are keyed by their ID and list a QER at most once. *)
Record qos_ok (h : bheap) (qers : gmap Z QERState) (pdrs : gmap Z PDRState) : Prop := {
  qo_slots : slots_ok h (slots qers);
  qo_qers : map_Forall (λ _ q, qer_ok q) qers;
  qo_pdrs : map_Forall (λ id p, PDRID p = id ∧ NoDup (QERIDs p)) pdrs;
}.

Lemma pdrs_NoDup (pdrs : gmap Z PDRState) :
  map_Forall (λ id p, PDRID p = id ∧ NoDup (QERIDs p)) pdrs →
  NoDup (PDRID <$> (snd <$> map_to_list pdrs)).
Proof.
  intros Hp. rewrite <- list_fmap_compose.
  rewrite (list_fmap_ext _ fst); [apply NoDup_fst_map_to_list|].
  intros i [id p] E. simpl. apply (Hp id p). by apply elem_of_map_to_list, list_elem_of_lookup_2 with i.
Qed.

Lemma elem_of_values (pdrs : gmap Z PDRState) p :
  p ∈ snd <$> map_to_list pdrs ↔ ∃ id, pdrs !! id = Some p.
Proof.
  rewrite list_elem_of_fmap. split.
  - intros ([id q] & -> & H%elem_of_map_to_list). eauto.
  - intros [id H]. exists (id, p). by rewrite elem_of_map_to_list.
Qed.

(** The access-side and the core-side PDRs of a session, by precedence. *)
Definition accessPDR (pdrs : gmap Z PDRState) : option PDRState :=
  select (filter (λ p, is_core p = false) (snd <$> map_to_list pdrs)).
Definition corePDR (pdrs : gmap Z PDRState) : option PDRState :=
  select (filter (λ p, is_core p = true) (snd <$> map_to_list pdrs)).

Definition open_dir : dirView := mkDir false [].
Definition view_or_open (qers : gmap Z QERState) (ul : bool) (o : option PDRState) : dirView :=
  match o with Some p => dirOf ul (buildPDRView qers p) | None => open_dir end.

Lemma select_filter_value (P : PDRState → Prop) `{!∀ p, Decision (P p)} (pdrs : gmap Z PDRState) p :
  select (filter P (snd <$> map_to_list pdrs)) = Some p → ∃ id, pdrs !! id = Some p.
Proof.
  intros [Hp _]%select_spec. apply list_elem_of_filter in Hp as [_ Hp]. by apply elem_of_values.
Qed.

Lemma assembleView_spec qers (pdrs : gmap Z PDRState) :
  map_Forall (λ id p, PDRID p = id ∧ NoDup (QERIDs p)) pdrs →
  ∃ v, assembleView qers (snd <$> map_to_list pdrs) = Ok v ∧
    (∀ id p, pdrs !! id = Some p → v_byPDR v !! id = Some (buildPDRView qers p)) ∧
    (∀ id, pdrs !! id = None → v_byPDR v !! id = None) ∧
    v_ul v = view_or_open qers true (accessPDR pdrs) ∧
    v_dl v = match corePDR pdrs with
             | Some p => dirOf false (buildPDRView qers p)
             | None => view_or_open qers false (accessPDR pdrs)
             end.
Proof.
  intros Hp. pose proof (pdrs_NoDup pdrs Hp) as Hnd.
  assert (Hview : ∀ id p, pdrs !! id = Some p →
    views qers (snd <$> map_to_list pdrs) !! id = Some (buildPDRView qers p)).
  { intros id p E. destruct (Hp id p E) as [<- _]. apply views_lookup; [done|].
    apply elem_of_values. eauto. }
  assert (Hof : ∀ P `{!∀ p, Decision (P p)} p, select (filter P (snd <$> map_to_list pdrs)) = Some p →
    viewOf (views qers (snd <$> map_to_list pdrs)) p = Ok (buildPDRView qers p)).
  { intros P ? p [id E]%select_filter_value. unfold viewOf. destruct (Hp id p E) as [Eid _].
    by rewrite Eid, (Hview id p E). }
  assert (Hnone : ∀ id, pdrs !! id = None → views qers (snd <$> map_to_list pdrs) !! id = None).
  { intros id E. apply views_None. rewrite list_elem_of_fmap. intros (p & -> & [id' H]%elem_of_values).
    destruct (Hp id' p H) as [Eid _]. congruence. }
  unfold assembleView. rewrite scanPDRs_eq. fold (accessPDR pdrs) (corePDR pdrs).
  destruct (accessPDR pdrs) as [pa|] eqn:Ea, (corePDR pdrs) as [pc|] eqn:Ec;
    rewrite ?(Hof _ _ _ Ea), ?(Hof _ _ _ Ec); simpl;
    repeat destruct (firstQFI _ _) as [? []]; simpl; eexists; eauto 7.
Qed.

Lemma buildQoSView_spec h qers pdrs cfg now :
  qos_ok h qers pdrs → is_clock now → ¬ (size qers = 0%nat ∧ size pdrs = 0%nat) →
  ∃ h' qers' v, buildQoSView h qers pdrs cfg now = Ok (h', qers', Some v) ∧
    qos_ok h' qers' pdrs ∧ same_rules qers qers' ∧
    reconciled cfg now (λ s, s.1 ∈ dom qers) (wants cfg qers) h (slots qers) h' (slots qers') ∧
    assembleView qers' (snd <$> map_to_list pdrs) = Ok v.
Proof.
  intros [Hs Hq Hp] Ht Hne. unfold buildQoSView. rewrite decide_False by done.
  destruct (reconcileQERs_spec cfg now Ht (map_to_list qers) h qers) as (h' & m' & E & Hsame & R);
    [done|apply NoDup_fst_map_to_list|..].
  { intros id q Hin%elem_of_map_to_list. split; [done|by apply (Hq id)]. }
  rewrite E. simpl. destruct (assembleView_spec m' pdrs Hp) as (v & Ev & _). rewrite Ev. simpl.
  exists h', m', v. split_and!; try done.
  - constructor; [apply R| |done]. intros id q' E'. specialize (Hsame id). rewrite E' in Hsame.
    inversion Hsame as [q ? (u & d & ->) Eq|]; subst. symmetry in Eq. apply (Hq id q Eq).
  - eapply reconciled_ext; [| |exact R]; [|done].
    intros s. simpl. rewrite elem_of_dom, list_elem_of_fmap. split.
    + intros ([id q] & -> & Hin%elem_of_map_to_list). by eexists.
    + intros [q Hq']. exists (s.1, q). by rewrite elem_of_map_to_list.
Qed.

(** Every direction a snapshot polices refers to distinct, allocated buckets. *)
Definition view_ok (h : bheap) (v : option qosView) : Prop :=
  match v with
  | None => True
  | Some v => dir_ok h (v_ul v) ∧ dir_ok h (v_dl v) ∧
      map_Forall (λ _ pv, dir_ok h (pv_ul pv) ∧ dir_ok h (pv_dl pv)) (v_byPDR v)
  end.

(** What a rebuild may do to the rest of the server: buckets are never freed,
    and a slot keeps its bucket or gets one nobody has. *)
Record rebuilt (h : bheap) (qers : gmap Z QERState) (h' : bheap) (qers' : gmap Z QERState) : Prop := {
  rb_dom : ∀ l, is_Some (h !! l) → is_Some (h' !! l);
  rb_slots : ∀ s l, slots qers' s = Some l → slots qers s = Some l ∨ h !! l = None;
}.

Lemma dir_ok_mono h h' d :
  (∀ l, is_Some (h !! l) → is_Some (h' !! l)) → dir_ok (B:=Bucket.t) h d → dir_ok (B:=Bucket.t) h' d.
Proof. intros Hd [H1 H2]. split; [done|]. eapply Forall_impl; eauto. Qed.

Lemma view_ok_mono h h' v :
  (∀ l, is_Some (h !! l) → is_Some (h' !! l)) → view_ok h v → view_ok h' v.
Proof.
  intros Hd. destruct v as [v|]; simpl; [|done]. intros (H1 & H2 & H3).
  split_and!; eauto using dir_ok_mono. eapply map_Forall_impl; [exact H3|]. naive_solver eauto using dir_ok_mono.
Qed.

Lemma qos_ok_mono h h' q p :
  heap_ok h' → (∀ l, is_Some (h !! l) → is_Some (h' !! l)) → qos_ok h q p → qos_ok h' q p.
Proof. intros Hh Hd [[H1 H2 H3] H4 H5]. constructor; [constructor|..]; eauto. Qed.

Lemma assembleView_ok h qers (pdrs : gmap Z PDRState) v :
  slots_ok h (slots qers) → map_Forall (λ id p, PDRID p = id ∧ NoDup (QERIDs p)) pdrs →
  assembleView qers (snd <$> map_to_list pdrs) = Ok v → view_ok h (Some v).
Proof.
  intros Hs Hp E. destruct (assembleView_spec qers pdrs Hp) as (v' & E' & Hby & Hno & Hul & Hdl).
  rewrite E in E'. simplify_eq.
  assert (Hd : ∀ id p ul, pdrs !! id = Some p → dir_ok h (dirOf ul (buildPDRView qers p)))
    by (intros id p ul Hpp; apply view_dir_ok; [done|by apply (Hp id)]).
  assert (Hopen : dir_ok h open_dir) by (split; constructor).
  assert (Ha : ∀ ul, dir_ok h (view_or_open qers ul (accessPDR pdrs))).
  { intros ul. destruct (accessPDR pdrs) as [p|] eqn:Ea; [|done].
    apply select_filter_value in Ea as [id Ea]. by apply (Hd id). }
  simpl. rewrite Hul, Hdl. split_and!; [apply Ha| |].
  - destruct (corePDR pdrs) as [p|] eqn:Ec; [|apply Ha].
    apply select_filter_value in Ec as [id Ec]. by apply (Hd id).
  - intros id pv Epv. destruct (pdrs !! id) as [p|] eqn:Ep; [|by rewrite Hno in Epv].
    rewrite (Hby id p Ep) in Epv. simplify_eq. split; [apply (Hd id p true Ep)|apply (Hd id p false Ep)].
Qed.

Lemma buildQoSView_total h qers pdrs cfg now :
  qos_ok h qers pdrs → is_clock now →
  ∃ h' qers' v, buildQoSView h qers pdrs cfg now = Ok (h', qers', v) ∧
    qos_ok h' qers' pdrs ∧ same_rules qers qers' ∧ rebuilt h qers h' qers' ∧ view_ok h' v.
Proof.
  intros Hok Ht. destruct (decide (size qers = 0%nat ∧ size pdrs = 0%nat)) as [Hz|Hz].
  - exists h, qers, None. unfold buildQoSView. rewrite decide_True by done.
    split_and!; auto using same_rules_refl; [|done]. constructor; auto.
  - destruct (buildQoSView_spec h qers pdrs cfg now Hok Ht Hz) as (h' & m' & v & E & H1 & H2 & R & Ev).
    exists h', m', (Some v). split_and!; auto.
    + constructor; [apply R|]. intros s l Hl. destruct (decide (s.1 ∈ dom qers)) as [Hin|Hin].
      * pose proof (rec_in _ _ _ _ _ _ _ _ R s Hin) as Hr. unfold slot_rel in Hr. rewrite Hl in Hr.
        destruct (_ =? 0); [done|]. destruct (slots qers s); naive_solver.
      * left. by rewrite <- (rec_out _ _ _ _ _ _ _ _ R s Hin).
    + eapply assembleView_ok; [apply H1|apply H1|done].
Qed.

(** A bucket a reconciled slot points to runs at the rate of its rule. *)
Lemma slots_rate h qers pdrs cfg now h' m' i ul l :
  is_clock now → qos_ok h qers pdrs →
  reconciled cfg now (λ s, s.1 ∈ dom qers) (wants cfg qers) h (slots qers) h' (slots m') →
  slots m' (i, ul) = Some l →
  ∃ q b, qers !! i = Some q ∧ effectiveKbps q ul cfg ≠ 0 ∧ h' !! l = Some b ∧
    Rate b = effectiveKbps q ul cfg.
Proof.
  intros Ht Hok R Hs. destruct (qers !! i) as [q|] eqn:Hq.
  2: { rewrite (rec_out _ _ _ _ _ _ _ _ R) in Hs by (simpl; by apply not_elem_of_dom).
       unfold slots in Hs. simpl in Hs. by rewrite Hq in Hs. }
  pose proof (qo_qers _ _ _ Hok i q Hq) as Hqok.
  pose proof (effectiveKbps_range q ul cfg Hqok) as Hr.
  assert (Hcl : clamp_rate (effectiveKbps q ul cfg) = effectiveKbps q ul cfg ∨ effectiveKbps q ul cfg = 0)
    by (unfold clamp_rate, UnlimitedKbps in *; lia).
  assert (Hu : is_u64 (effectiveKbps q ul cfg)) by (unfold is_u64, UnlimitedKbps in *; lia).
  pose proof (rec_in _ _ _ _ _ _ _ _ R (i, ul)) as Hrel. rewrite Hs in Hrel.
  specialize (Hrel ltac:(by apply elem_of_dom)). unfold slot_rel, wants in Hrel. simpl in Hrel.
  rewrite Hq in Hrel. exists q. destruct (Z.eqb_spec (effectiveKbps q ul cfg) 0); [done|].
  destruct Hcl as [Hcl|]; [|done]. destruct (slots qers (i, ul)) as [l0|] eqn:E0.
  - destruct Hrel as (El & b & Hb & Hb'). simplify_eq. eexists. split_and!; [done|done|exact Hb'|].
    destruct (Z.eqb_spec (Rate b) (effectiveKbps q ul cfg)); [done|].
    pose proof (slots_heap _ _ (qo_slots _ _ _ Hok) l0 b Hb) as Hbok.
    destruct (SetRate_spec b _ now Hbok Hu Ht) as (_ & Hrate & _). unfold Rate. congruence.
  - destruct Hrel as (l1 & El & Hb & Hb'). simplify_eq. eexists. split_and!; [done|done|exact Hb'|].
    destruct (setRate_spec (mk (ClampBurstMs (BurstMs cfg)) 0 0 0 0 now) _ Hu (ClampBurstMs_range _))
      as (_ & _ & _ & Hrate & _). etransitivity; [exact Hrate|exact Hcl].
Qed.

Lemma Admit_accepts b n now :
  bucket_ok b → is_len n → is_clock now →
  (Admit b n now).2 = true ↔ n * 8 * ubitPerBit <= ideal_refill b now.
Proof.
  intros. rewrite Admit_spec by done. cbv zeta.
  destruct (Z.leb_spec (n * 8 * ubitPerBit) (ideal_refill b now)); simpl; split; intros; try done; lia.
Qed.

(** * The properties of the enforcement *)

(** C7: policing a packet over the buckets of a direction is all or nothing.
    The call always returns; it admits exactly when the gate is open and every
    bucket has the credit for the packet; on admission every bucket is debited
    exactly once and no other bucket is touched; on refusal every bucket of the
    heap is left with the credit it had (an earlier bucket that had accepted is
    refunded in full). *)
Theorem dirView_admit_atomic (h : bheap) d n now :
  heap_ok h → dir_ok h d → is_len n → is_clock now →
  ∃ h' ok r, dirView_admit h d n now = Ok (h', (ok, r)) ∧
    (ok = true ↔ dv_gateClosed d = false ∧
      ∀ l b, l ∈ dv_buckets d → h !! l = Some b → n * 8 * ubitPerBit <= ideal_refill b now) ∧
    (ok = true → ∀ l b, h !! l = Some b →
      if decide (l ∈ dv_buckets d)
      then ∃ b', h' !! l = Some b' ∧ tokens b' = ideal_refill b now - n * 8 * ubitPerBit
      else h' !! l = Some b) ∧
    (ok = false → ∀ l b, h !! l = Some b →
      ∃ b', h' !! l = Some b' ∧ refill b' now = refill b now).
Proof.
  intros Hh Hd Hn Ht. destruct (dirView_admit_spec h d n now Hh Hd Hn Ht) as (h' & ok & r & E & H1 & H2 & H3).
  exists h', ok, r. split_and!; [done|..].
  - rewrite H1, Forall_forall. destruct Hd as [_ Hd]. rewrite Forall_forall in Hd.
    f_equiv. split; intros Hall l.
    + intros b Hl Hb. destruct (Hall l Hl) as (b' & Hb' & Hok). simplify_eq.
      apply Admit_accepts in Hok; auto. by apply (Hh l).
    + intros Hl. destruct (Hd l Hl) as [b Hb]. exists b. split; [done|].
      apply Admit_accepts; auto; [by apply (Hh l)|by apply (Hall l)].
  - intros Hok l b Hb. destruct (H2 Hok) as [_ Hc]. rewrite (Hc l). case_decide as Hin; [|done].
    rewrite Hb. simpl. eexists. split; [done|]. apply H1 in Hok as [_ Hacc].
    rewrite Forall_forall in Hacc. destruct (Hacc l Hin) as (b' & Hb' & Ha). simplify_eq.
    revert Ha. cbn [p_admit bucket_policer]. rewrite Admit_spec by (auto; by apply (Hh l)). cbv zeta.
    by destruct (_ <=? _).
  - intros Hok l b Hb. destruct (H3 Hok) as [_ Hs]. pose proof (Hs l) as Hl. rewrite Hb in Hl.
    inversion Hl as [? b' Hor|]; subst. exists b'. split; [done|].
    by apply (same_credit_settle (Policer0:=bucket_policer) now h h' l b b').
Qed.

Lemma dirView_admit_atomic_witness :
  let h : bheap := {[ 1%positive := NewBucket 8000 10 0; 2%positive := NewBucket 1000 10 0 ]} in
  let d := mkDir false [1%positive; 2%positive] in
  (∃ h' ok r, dirView_admit h d 6000 0 = Ok (h', (ok, r)) ∧ ok = false) ∧
  ∃ h', dirView_admit h d 6000 0 = Ok (h', (false, DropMBRExceeded)) ∧ h' = h.
Proof.
  intros h d. split.
  - destruct (dirView_admit_atomic h d 6000 0) as (h' & ok & r & E & H1 & _).
    + intros l b Hb. unfold h in Hb. rewrite lookup_insert_Some, lookup_singleton_Some in Hb.
      destruct Hb as [[_ <-]|[_ [_ <-]]]; apply NewBucket_ok; unfold is_u64, is_clock; lia.
    + split; [apply (bool_decide_unpack _); vm_compute; exact I|].
      repeat constructor; vm_compute; eauto.
    + unfold is_len. lia.
    + unfold is_clock. lia.
    + exists h', ok, r. split; [exact E|]. destruct ok; [|reflexivity].
      destruct (proj1 H1 eq_refl) as [_ H]. exfalso.
      specialize (H 2%positive (NewBucket 1000 10 0) ltac:(set_solver) eq_refl).
      vm_compute in H. apply H. reflexivity.
  - eexists. split; [vm_compute; reflexivity|]. vm_compute. reflexivity.
Defined.

(** Rebuilding the snapshot of a session always succeeds (no dangling
    bucket, no missing view) and the view of every PDR enforces exactly the
    rules the PDR lists: a direction is gated exactly when some listed QER has
    that gate closed; its buckets are, without repetition, the buckets of the
    listed QERs that limit the direction, each of them running at the rate of
    its rule; and a bucket that existed before is the same bucket, with its
    tokens, unless the rate changed. *)
Lemma buildQoSView_enforces h qers pdrs cfg now :
  qos_ok h qers pdrs → is_clock now → size pdrs ≠ 0%nat →
  ∃ h' qers' v, buildQoSView h qers pdrs cfg now = Ok (h', qers', Some v) ∧
    qos_ok h' qers' pdrs ∧
    ∀ id p ul, pdrs !! id = Some p → ∃ pv, v_byPDR v !! id = Some pv ∧
      dir_ok h' (dirOf ul pv) ∧
      (dv_gateClosed (dirOf ul pv) = true ↔
        ∃ i q, i ∈ QERIDs p ∧ qers !! i = Some q ∧ gateOf ul q = gateClosed) ∧
      (∀ l, l ∈ dv_buckets (dirOf ul pv) → ∃ i q b, i ∈ QERIDs p ∧ qers !! i = Some q ∧
        effectiveKbps q ul cfg ≠ 0 ∧ h' !! l = Some b ∧ Rate b = effectiveKbps q ul cfg) ∧
      (∀ i q, i ∈ QERIDs p → qers !! i = Some q → effectiveKbps q ul cfg ≠ 0 →
        ∃ l, l ∈ dv_buckets (dirOf ul pv) ∧
          match bucketOf ul q with
          | Some l0 => l = l0 ∧
            (∀ b, h !! l0 = Some b → Rate b = effectiveKbps q ul cfg → h' !! l0 = Some b)
          | None => h' !! l = Some (NewBucket (effectiveKbps q ul cfg) (BurstMs cfg) now)
          end).
Proof.
  intros Hok Ht Hne.
  destruct (buildQoSView_spec h qers pdrs cfg now Hok Ht) as (h' & m' & v & E & Hok' & Hsame & R & Ev); [tauto|].
  exists h', m', v. split_and!; [done|done|]. intros id p ul Hp.
  destruct (assembleView_spec m' pdrs (qo_pdrs _ _ _ Hok)) as (v' & Ev' & Hby & _).
  rewrite Ev in Ev'. simplify_eq. exists (buildPDRView m' p).
  destruct (qo_pdrs _ _ _ Hok id p Hp) as [_ Hnd].
  split_and!; [by apply Hby|by apply view_dir_ok; [apply Hok'|]|..].
  - rewrite buildPDRView_eq. simpl. rewrite existsb_exists. setoid_rewrite <- list_elem_of_In.
    setoid_rewrite orderedQERs_perm. setoid_rewrite list_elem_of_omap. split.
    + intros (q' & (i & Hi & Hq') & Hg%Z.eqb_eq). specialize (Hsame i). rewrite Hq' in Hsame.
      inversion Hsame as [q ? (u & d & ->) Eq|]; subst. exists i, q. by destruct ul.
    + intros (i & q & Hi & Hq & Hg). specialize (Hsame i). rewrite Hq in Hsame.
      inversion Hsame as [? q' (u & d & ->) Eq|]; subst. eexists. split; [by exists i|].
      apply Z.eqb_eq. by destruct ul.
  - intros l Hl. rewrite buckets_slots in Hl. apply list_elem_of_omap in Hl as (i & Hi & Hs).
    destruct (slots_rate _ _ _ _ _ _ _ _ _ _ Ht Hok R Hs) as (q & b & ?). naive_solver.
  - intros i q Hi Hq Hw. setoid_rewrite buckets_slots. setoid_rewrite list_elem_of_omap.
    assert (Hs : slots qers (i, ul) = bucketOf ul q) by (unfold slots; simpl; by rewrite Hq).
    assert (Hwn : wants cfg qers (i, ul) = effectiveKbps q ul cfg) by (unfold wants; simpl; by rewrite Hq).
    pose proof (rec_in _ _ _ _ _ _ _ _ R (i, ul) ltac:(by apply elem_of_dom)) as Hr.
    rewrite Hs, Hwn in Hr. unfold slot_rel in Hr.
    destruct (Z.eqb_spec (effectiveKbps q ul cfg) 0); [done|].
    destruct (bucketOf ul q) as [l0|].
    + destruct Hr as (E0 & b & Hb & Hb'). exists l0. split; [by exists i|]. split; [done|].
      intros b0 Hb0 Hrate. simplify_eq. by rewrite Hrate, Z.eqb_refl in Hb'.
    + destruct Hr as (l & E0 & Hb & Hb'). exists l. split; [by exists i|done].
Qed.

(** Go iterates maps in no fixed order; the snapshot does not depend on it.
    Whatever order the PDRs are visited in, the same views are published and the
    same PDRs govern the uplink, the downlink and the downlink QFI. *)
Lemma assembleView_order qers l l' :
  NoDup (PDRID <$> l) → l ≡ₚ l' → assembleView qers l = assembleView qers l'.
Proof. intros Hnd Hp. unfold assembleView. by rewrite (scanPDRs_perm qers l l' Hnd Hp). Qed.
