(* ===== verification/UpfQer.v ===== *)
(** Parsing, validation and application of the QoS rules of PFCP Session
    Establishment and Modification, [nf/upf/internal/pfcp/qer.go].

    The IE decoder is go-pfcp, which is not part of the repository: it is the
    class [GoPfcp], a type of IEs with the accessors the server calls ([None] is
    a returned error), and [GoPfcpRanges] states the widths of the Go result
    types.  Warnings and log lines are not modelled. *)
From S2P Require Import Prelude UpfBucket UpfQos.
Import Bucket.

(** * The go-pfcp interface *)

(** The IE types the server switches on; the constants are only compared. *)
Inductive ie_type :=
| TQERID | TQFI | TGateStatus | TMBR | TCreateQER | TUpdateQER | TRemoveQER
| TPDRID | TPrecedence | TPDI | TSourceInterface | TUpdatePDR | TCreatePDR
| TFTEID | TUEIPAddress | TNetworkInstance
| TURRID | TMeasurementMethod | TReportingTriggers | TVolumeThreshold
| TMeasurementPeriod | TTimeThreshold | TCreateURR
| TApplyAction | TUpdateForwardingParameters | TUpdateFAR | TFSEID
| TOther (n : Z).
#[global] Instance ie_type_eq_dec : EqDecision ie_type.
Proof. solve_decision. Defined.

Class GoPfcp (IE : Type) := {
  ie_Type : IE → ie_type;
  ie_QERID : IE → option Z;
  ie_QFI : IE → option Z;
  ie_GateStatusUL : IE → option Z;
  ie_GateStatusDL : IE → option Z;
  ie_MBRUL : IE → option Z;
  ie_MBRDL : IE → option Z;
  ie_PDRID : IE → option Z;
  ie_Precedence : IE → option Z;
  ie_SourceInterface : IE → option Z;
  ie_CreateQER : IE → option (list IE);
  ie_UpdateQER : IE → option (list IE);
  ie_RemoveQER : IE → option (list IE);
  ie_UpdatePDR : IE → option (list IE);
  ie_CreatePDR : IE → option (list IE);
  ie_PDI : IE → option (list IE);
  ie_FSEID : IE → option Z;                                 (* .SEID *)
  ie_FTEID : IE → option Z;                                 (* .TEID *)
  ie_UEIPAddress : IE → option (option bytes * option bytes); (* IPv4Address, IPv6Address *)
  ie_NetworkInstance : IE → option string;
  ie_CreateURR : IE → option (list IE);
  ie_URRID : IE → option Z;
  ie_HasVOLUM : IE → bool;
  ie_HasDURAT : IE → bool;
  ie_HasVOLTH : IE → bool;
  ie_HasPERIO : IE → bool;
  ie_VolumeThreshold : IE → option Z;                       (* .TotalVolume *)
  ie_MeasurementPeriod : IE → option Z;                     (* nanoseconds *)
  ie_TimeThreshold : IE → option Z;                         (* seconds *)
  ie_UpdateFAR : IE → option (list IE);
  ie_ApplyAction : IE → option Z;
  ie_OuterHeaderCreation : IE → option (Z * option bytes);  (* TEID, IPv4Address *)
}.

Class GoPfcpRanges (IE : Type) `{!GoPfcp IE} := {
  ie_MBRUL_u64 (x : IE) v : ie_MBRUL x = Some v → is_u64 v;
  ie_MBRDL_u64 (x : IE) v : ie_MBRDL x = Some v → is_u64 v;
}.

(** * Verdicts of the validation *)

Inductive Cause := CauseRequestAccepted | CauseMandatoryIEMissing | CauseMandatoryIEIncorrect
| CauseRuleCreationModificationFailure | CauseSessionContextNotFound.
Inductive RuleIDType := RuleIDTypePDR | RuleIDTypeQER.
Inductive reject_ie := OffendingIE (t : ie_type) | FailedRuleID (ty : RuleIDType) (id : Z).

Record pfcpReject := mkReject { rej_cause : Cause; rej_ies : list reject_ie; rej_reason : string; rej_spec : string }.

Inductive verdict (A : Type) := Accept (a : A) | Reject (r : pfcpReject).
Arguments Accept {A} _.
Arguments Reject {A} _.
#[global] Instance verdict_ret : MRet verdict := λ A a, Accept a.
#[global] Instance verdict_bind : MBind verdict := λ A A' f m,
  match m with Accept a => f a | Reject r => Reject r end.

Lemma bind_Accept {A A'} (m : verdict A) (f : A → verdict A') b :
  m ≫= f = Accept b → ∃ a, m = Accept a ∧ f a = Accept b.
Proof. destruct m; simpl; naive_solver. Qed.

Definition rejectMissing {A} (t : ie_type) (spec reason : string) : verdict A :=
  Reject (mkReject CauseMandatoryIEMissing [OffendingIE t] reason spec).
Definition rejectIncorrect {A} (t : ie_type) (spec reason : string) : verdict A :=
  Reject (mkReject CauseMandatoryIEIncorrect [OffendingIE t] reason spec).
Definition rejectRule {A} (ty : RuleIDType) (id : Z) (spec reason : string) : verdict A :=
  Reject (mkReject CauseRuleCreationModificationFailure [FailedRuleID ty id] reason spec).

(** [v, err := accessor(); if err != nil { return reject }] *)
Definition try {A} (o : option A) (r : verdict A) : verdict A :=
  match o with Some v => Accept v | None => r end.

Definition specCreateQER : string := "TS 29.244 7.5.2.5"%string.
Definition specUpdateQER : string := "TS 29.244 7.5.4.5"%string.
Definition specRemoveQER : string := "TS 29.244 7.5.4.9"%string.
Definition specCreatePDR : string := "TS 29.244 7.5.2.2"%string.
Definition specUpdatePDR : string := "TS 29.244 7.5.4.2"%string.

(** * Parsing *)

Record qerParams := mkParams {
  qp_id : Z;
  qp_hasID : bool;
  qp_hasGate : bool;
  qp_spareGate : bool;
  qp_gateUL : Z;
  qp_gateDL : Z;
  qp_hasMBR : bool;
  qp_mbrUL : Z;
  qp_mbrDL : Z;
  qp_hasQFI : bool;
  qp_qfi : Z;
}.
Definition noParams : qerParams := mkParams 0 false false false 0 0 false 0 0 false 0.

Definition normGate (v : Z) : Z * bool :=
  if (v =? gateOpen) || (v =? gateClosed) then (v, false) else (gateClosed, true).

Definition appendQERID (l : list Z) (id : Z) : list Z * bool :=
  if existsb (Z.eqb id) l then (l, true) else (l ++ [id], false).

Definition newState (p : qerParams) : QERState :=
  mkQER (qp_id p) (qp_qfi p) (qp_hasQFI p)
    (if qp_hasGate p then qp_gateUL p else 0) (if qp_hasGate p then qp_gateDL p else 0)
    (qp_hasMBR p) (qp_mbrUL p) (qp_mbrDL p) None None.

Record pdrListUpdate := mkListUpdate { u_pdrID : Z; u_qers : list Z }.

Record modPlan := mkPlan {
  creates : list qerParams;
  updates : list qerParams;
  removes : list Z;
  plan_pdrs : list pdrListUpdate;
}.

Definition plan_empty (m : modPlan) : bool :=
  (length (creates m) + length (updates m) + length (removes m) + length (plan_pdrs m) =? 0)%nat.

Section Parsing.
Context {IE : Type} `{!GoPfcp IE}.

(** The body of the loop of [parseQERParams]. *)
Definition parseQERChild (spec : string) (p : qerParams) (c : IE) : verdict qerParams :=
  match ie_Type c with
  | TQERID =>
    v ← try (ie_QERID c) (rejectIncorrect TQERID spec "QER ID malformed");
    Accept (mkParams v true (qp_hasGate p) (qp_spareGate p) (qp_gateUL p) (qp_gateDL p)
      (qp_hasMBR p) (qp_mbrUL p) (qp_mbrDL p) (qp_hasQFI p) (qp_qfi p))
  | TQFI =>
    v ← try (ie_QFI c) (rejectIncorrect TQFI spec "QFI malformed");
    Accept (mkParams (qp_id p) (qp_hasID p) (qp_hasGate p) (qp_spareGate p) (qp_gateUL p) (qp_gateDL p)
      (qp_hasMBR p) (qp_mbrUL p) (qp_mbrDL p) true v)
  | TGateStatus =>
    match ie_GateStatusUL c, ie_GateStatusDL c with
    | Some ul, Some dl =>
      let '(g1, s1) := normGate ul in
      let '(g2, s2) := normGate dl in
      Accept (mkParams (qp_id p) (qp_hasID p) true (s1 || s2) g1 g2
        (qp_hasMBR p) (qp_mbrUL p) (qp_mbrDL p) (qp_hasQFI p) (qp_qfi p))
    | _, _ => rejectIncorrect TGateStatus spec "Gate Status malformed"
    end
  | TMBR =>
    match ie_MBRUL c, ie_MBRDL c with
    | Some ul, Some dl =>
      Accept (mkParams (qp_id p) (qp_hasID p) (qp_hasGate p) (qp_spareGate p) (qp_gateUL p) (qp_gateDL p)
        true ul dl (qp_hasQFI p) (qp_qfi p))
    | _, _ => rejectIncorrect TMBR spec "MBR malformed"
    end
  | _ => Accept p
  end.

(** A loop that may return a rejection. *)
Fixpoint for_each {S X} (body : S → X → verdict S) (s : S) (l : list X) : verdict S :=
  match l with [] => Accept s | x :: l' => s ← body s x; for_each body s l' end.

Definition parseQERParams (children : list IE) (spec : string) : verdict qerParams :=
  for_each (parseQERChild spec) noParams children.

(** The PDI children of a Create PDR: the last decodable Source Interface. *)
Definition pdiSourceInterface (p : PDRState) (pdi : list IE) : PDRState :=
  foldl (λ p pc,
    match ie_Type pc with
    | TSourceInterface =>
      match ie_SourceInterface pc with
      | Some v => mkPDR (PDRID p) v (Precedence p) (QERIDs p)
      | None => p
      end
    | _ => p
    end) p pdi.

Definition parsePDRChild (p : PDRState) (c : IE) : verdict PDRState :=
  match ie_Type c with
  | TPDRID =>
    Accept (match ie_PDRID c with
            | Some v => mkPDR v (SourceInterface p) (Precedence p) (QERIDs p) | None => p end)
  | TPrecedence =>
    Accept (match ie_Precedence c with
            | Some v => mkPDR (PDRID p) (SourceInterface p) v (QERIDs p) | None => p end)
  | TQERID =>
    v ← try (ie_QERID c) (rejectIncorrect TQERID specCreatePDR "PDR QER ID malformed");
    Accept (mkPDR (PDRID p) (SourceInterface p) (Precedence p) (fst (appendQERID (QERIDs p) v)))
  | TPDI =>
    Accept (match ie_PDI c with Some pdi => pdiSourceInterface p pdi | None => p end)
  | _ => Accept p
  end.

Definition parsePDRQoS (children : list IE) : verdict PDRState :=
  for_each parsePDRChild (mkPDR 0 srcInterfaceAccess noPrecedence []) children.

(** * Session Establishment *)

Definition establishQER (qers : gmap Z QERState) (ie : IE) : verdict (gmap Z QERState) :=
  children ← try (ie_CreateQER ie) (rejectIncorrect TCreateQER specCreateQER "Create QER malformed");
  p ← parseQERParams children specCreateQER;
  if negb (qp_hasID p) then rejectMissing TQERID specCreateQER "Create QER without QER ID"
  else
    match qers !! qp_id p with
    | Some _ => rejectRule RuleIDTypeQER (qp_id p) specCreateQER "duplicate QER ID"
    | None => Accept (<[qp_id p := newState p]> qers)
    end.

Definition checkPDRRefs (qers : gmap Z QERState) (_ : unit) (p : PDRState) : verdict unit :=
  for_each (λ _ id,
    match qers !! id with
    | Some _ => Accept tt
    | None => rejectRule RuleIDTypePDR (PDRID p) specCreatePDR "PDR references a QER that was not created"
    end) tt (QERIDs p).

Definition establishmentQoS (createQER : list IE) (pdrs : list PDRState)
    : verdict (gmap Z QERState * gmap Z PDRState) :=
  qers ← for_each establishQER ∅ createQER;
  let pdrMap := foldl (λ m p, <[PDRID p := p]> m) (∅ : gmap Z PDRState) pdrs in
  _ ← for_each (checkPDRRefs qers) tt pdrs;
  Accept (qers, pdrMap).

(** * Session Modification *)

(** The fields of [pfcpmsg.SessionModificationRequest] the QoS path reads. *)
Record modRequest := mkModRequest {
  mr_CreateQER : list IE;
  mr_UpdateQER : list IE;
  mr_RemoveQER : list IE;
  mr_UpdatePDR : list IE;
  mr_UpdateFAR : list IE;
}.

Definition planCreate (l : list qerParams) (ie : IE) : verdict (list qerParams) :=
  children ← try (ie_CreateQER ie) (rejectIncorrect TCreateQER specCreateQER "Create QER malformed");
  p ← parseQERParams children specCreateQER;
  if negb (qp_hasID p) then rejectMissing TQERID specCreateQER "Create QER without QER ID"
  else Accept (l ++ [p]).

Definition planUpdate (l : list qerParams) (ie : IE) : verdict (list qerParams) :=
  children ← try (ie_UpdateQER ie) (rejectIncorrect TUpdateQER specUpdateQER "Update QER malformed");
  p ← parseQERParams children specUpdateQER;
  if negb (qp_hasID p) then rejectMissing TQERID specUpdateQER "Update QER without QER ID"
  else Accept (l ++ [p]).

Definition planRemove (l : list Z) (ie : IE) : verdict (list Z) :=
  children ← try (ie_RemoveQER ie) (rejectIncorrect TRemoveQER specRemoveQER "Remove QER malformed");
  found ← for_each (λ (s : option Z) c,
    match ie_Type c with
    | TQERID =>
      v ← try (ie_QERID c) (rejectIncorrect TQERID specRemoveQER "Remove QER QER ID malformed");
      Accept (Some v)
    | _ => Accept s
    end) None children;
  match found with
  | None => rejectMissing TQERID specRemoveQER "Remove QER without QER ID"
  | Some id => Accept (l ++ [id])
  end.

Definition planPDRChild (s : pdrListUpdate * bool) (c : IE) : verdict (pdrListUpdate * bool) :=
  let '(u, hasID) := s in
  match ie_Type c with
  | TPDRID =>
    v ← try (ie_PDRID c) (rejectIncorrect TPDRID specUpdatePDR "Update PDR PDR ID malformed");
    Accept (mkListUpdate v (u_qers u), true)
  | TQERID =>
    v ← try (ie_QERID c) (rejectIncorrect TQERID specUpdatePDR "Update PDR QER ID malformed");
    Accept (mkListUpdate (u_pdrID u) (fst (appendQERID (u_qers u) v)), hasID)
  | _ => Accept (u, hasID)
  end.

Definition planPDR (l : list pdrListUpdate) (ie : IE) : verdict (list pdrListUpdate) :=
  children ← try (ie_UpdatePDR ie) (rejectIncorrect TUpdatePDR specUpdatePDR "Update PDR malformed");
  '(u, hasID) ← for_each planPDRChild (mkListUpdate 0 [], false) children;
  if negb hasID then rejectMissing TPDRID specUpdatePDR "Update PDR without PDR ID"
  else if (0 <? length (u_qers u))%nat then Accept (l ++ [u]) else Accept l.

(** The parsing half of [planModificationQoS]. *)
Definition parsePlan (req : modRequest) : verdict modPlan :=
  cs ← for_each planCreate [] (mr_CreateQER req);
  us ← for_each planUpdate [] (mr_UpdateQER req);
  rs ← for_each planRemove [] (mr_RemoveQER req);
  ps ← for_each planPDR [] (mr_UpdatePDR req);
  Accept (mkPlan cs us rs ps).

(** The validation half, against the rules the session will have afterwards. *)
Definition checkRemove (qers : gmap Z QERState) (removed : gset Z) (id : Z) : verdict (gset Z) :=
  match qers !! id with
  | None => rejectRule RuleIDTypeQER id specRemoveQER "Remove QER for unknown QER ID"
  | Some _ => Accept ({[id]} ∪ removed)
  end.

Definition checkCreate (qers : gmap Z QERState) (after : gset Z) (p : qerParams) : verdict (gset Z) :=
  if bool_decide (is_Some (qers !! qp_id p)) || bool_decide (qp_id p ∈ after)
  then rejectRule RuleIDTypeQER (qp_id p) specCreateQER "Create QER with an existing QER ID"
  else Accept ({[qp_id p]} ∪ after).

Definition checkUpdate (qers : gmap Z QERState) (removed : gset Z) (_ : unit) (p : qerParams) : verdict unit :=
  if negb (bool_decide (is_Some (qers !! qp_id p))) || bool_decide (qp_id p ∈ removed)
  then rejectRule RuleIDTypeQER (qp_id p) specUpdateQER "Update QER for unknown QER ID"
  else Accept tt.

Definition checkPDRUpdate (pdrs : gmap Z PDRState) (after : gset Z) (updated : gset Z) (u : pdrListUpdate)
    : verdict (gset Z) :=
  match pdrs !! u_pdrID u with
  | None => rejectRule RuleIDTypePDR (u_pdrID u) specUpdatePDR "Update PDR for unknown PDR ID"
  | Some _ =>
    _ ← for_each (λ _ id,
      if bool_decide (id ∈ after) then Accept tt
      else rejectRule RuleIDTypePDR (u_pdrID u) specUpdatePDR "Update PDR references an unknown QER")
      tt (u_qers u);
    Accept ({[u_pdrID u]} ∪ updated)
  end.

Definition checkOldPDR (pdrs : gmap Z PDRState) (after updated : gset Z) (_ : unit) (pid : Z) : verdict unit :=
  if bool_decide (pid ∈ updated) then Accept tt
  else
    match pdrs !! pid with
    | None => Accept tt  (* [pid] ranges over the keys of the map *)
    | Some p => for_each (λ _ id,
        if bool_decide (id ∈ after) then Accept tt
        else rejectRule RuleIDTypeQER id specRemoveQER "Remove QER still referenced by a PDR")
        tt (QERIDs p)
    end.

Definition validatePlan (qers : gmap Z QERState) (pdrs : gmap Z PDRState) (plan : modPlan) : verdict modPlan :=
  removed ← for_each (checkRemove qers) ∅ (removes plan);
  after ← for_each (checkCreate qers) (dom qers ∖ removed) (creates plan);
  _ ← for_each (checkUpdate qers removed) tt (updates plan);
  updated ← for_each (checkPDRUpdate pdrs after) ∅ (plan_pdrs plan);
  _ ← for_each (checkOldPDR pdrs after updated) tt (merge_sort Z.le (fst <$> map_to_list pdrs));
  Accept plan.

Definition planModificationQoS (qers : gmap Z QERState) (pdrs : gmap Z PDRState) (req : modRequest)
    : verdict modPlan :=
  plan ← parsePlan req;
  if plan_empty plan then Accept plan else validatePlan qers pdrs plan.

End Parsing.

(** * Application *)

Record qerChange := mkChange { ch_op : string; ch_spec : string; ch_id : Z; ch_q : option QERState }.

Definition updateQER (q : QERState) (p : qerParams) : QERState :=
  mkQER (QERID q)
    (if qp_hasQFI p then qp_qfi p else QFI q) (if qp_hasQFI p then true else HasQFI q)
    (if qp_hasGate p then qp_gateUL p else GateUL q) (if qp_hasGate p then qp_gateDL p else GateDL q)
    (if qp_hasMBR p then true else HasMBR q)
    (if qp_hasMBR p then qp_mbrUL p else MBRULKbps q) (if qp_hasMBR p then qp_mbrDL p else MBRDLKbps q)
    (ulBucket q) (dlBucket q).

Fixpoint applyUpdates (qers : gmap Z QERState) (l : list qerParams) : res (gmap Z QERState * list qerChange) :=
  match l with
  | [] => Ok (qers, [])
  | p :: l' =>
    match qers !! qp_id p with
    | None => Panic
    | Some q =>
      let q := updateQER q p in
      '(qers, ch) ← applyUpdates (<[qp_id p := q]> qers) l';
      Ok (qers, mkChange "update" specUpdateQER (qp_id p) (Some q) :: ch)
    end
  end.

Fixpoint applyPDRs (pdrs : gmap Z PDRState) (l : list pdrListUpdate) : res (gmap Z PDRState) :=
  match l with
  | [] => Ok pdrs
  | u :: l' =>
    match pdrs !! u_pdrID u with
    | None => Panic
    | Some p =>
      applyPDRs (<[u_pdrID u := mkPDR (PDRID p) (SourceInterface p) (Precedence p) (u_qers u)]> pdrs) l'
    end
  end.

(** [RebuildQoS] at the end builds the snapshot from the new rules. *)
Definition applyQoS (h : bheap) (qers : gmap Z QERState) (pdrs : gmap Z PDRState) (plan : modPlan)
    (cfg : QoSConfig) (now : Z)
    : res (bheap * gmap Z QERState * gmap Z PDRState * option qosView * list qerChange) :=
  let qers1 := foldl (λ m id, delete id m) qers (removes plan) in
  let qers2 := foldl (λ m p, <[qp_id p := newState p]> m) qers1 (creates plan) in
  '(qers3, ch) ← applyUpdates qers2 (updates plan);
  pdrs ← applyPDRs pdrs (plan_pdrs plan);
  '(h, qers4, v) ← buildQoSView h qers3 pdrs (normalized cfg) now;
  Ok (h, qers4, pdrs, v,
      ((λ id, mkChange "remove" specRemoveQER id None) <$> removes plan) ++
      ((λ p, mkChange "create" specCreateQER (qp_id p) (Some (newState p))) <$> creates plan) ++ ch).

(** * Loops that may reject *)

Lemma for_each_inv {S X} (body : S → X → verdict S) (I : S → Prop) l s s' :
  (∀ s x s', I s → x ∈ l → body s x = Accept s' → I s') → I s →
  for_each body s l = Accept s' → I s'.
Proof.
  revert s. induction l as [|x l IH]; intros s Hb Hs E; simpl in E; [by simplify_eq|].
  apply bind_Accept in E as (s1 & E1 & E2). eapply IH; [|eapply Hb; [exact Hs| |exact E1]|exact E2].
  - intros s0 y s0' ? Hy. apply Hb; [done|set_solver].
  - set_solver.
Qed.

(** A loop that only checks accepts exactly when every element passes. *)
Lemma for_each_check {X} (body : unit → X → verdict unit) (P : X → Prop) l :
  (∀ x, body tt x = Accept tt ↔ P x) → for_each body tt l = Accept tt ↔ Forall P l.
Proof.
  intros Hb. induction l as [|x l IH]; simpl; [split; [constructor|done]|].
  rewrite Forall_cons, <- IH, <- Hb. destruct (body tt x) as [[]|r]; simpl; [naive_solver|].
  split; [done|]. by intros [? _].
Qed.

(** A loop that collects what it has checked. *)
Lemma for_each_collect {X} (body : gset Z → X → verdict (gset Z)) (P : X → Prop) (key : X → Z) l s s' :
  (∀ s x s', body s x = Accept s' ↔ P x ∧ s' = {[key x]} ∪ s) →
  for_each body s l = Accept s' ↔ Forall P l ∧ s' = list_to_set (key <$> l) ∪ s.
Proof.
  intros Hb. revert s. induction l as [|x l IH]; intros s; simpl.
  { rewrite (left_id_L ∅ (∪)). split; [naive_solver|]. by intros [_ ->]. }
  rewrite Forall_cons. split.
  - intros (s1 & E1 & E2)%bind_Accept. apply Hb in E1 as [H1 ->]. apply IH in E2 as [H2 ->].
    split; [done|]. set_solver.
  - intros [[H1 H2] ->]. rewrite (proj2 (Hb s x _) (conj H1 eq_refl)). simpl. apply IH.
    split; [done|]. set_solver.
Qed.

Lemma unit_check (P : Prop) `{!Decision P} (r : verdict unit) :
  r ≠ Accept tt → (if bool_decide P then Accept tt else r) = Accept tt ↔ P.
Proof. intros Hr. case_bool_decide; naive_solver. Qed.

(** * What the parser guarantees *)

Definition params_ok (p : qerParams) : Prop := is_u64 (qp_mbrUL p) ∧ is_u64 (qp_mbrDL p).

Lemma NoDup_appendQERID l id : NoDup l → NoDup (appendQERID l id).1.
Proof.
  intros Hnd. unfold appendQERID. destruct (existsb (Z.eqb id) l) eqn:E; simpl; [done|].
  apply NoDup_app. split_and!; [done| |apply NoDup_singleton].
  intros x Hx ->%list_elem_of_singleton. enough (existsb (Z.eqb id) l = true) by congruence.
  apply existsb_exists. exists id. split; [by apply list_elem_of_In|apply Z.eqb_refl].
Qed.

Section ParsingProofs.
Context {IE : Type} `{!GoPfcp IE, !GoPfcpRanges IE}.

Lemma parseQERParams_ok (children : list IE) spec p : parseQERParams children spec = Accept p → params_ok p.
Proof.
  apply for_each_inv; [|split; unfold is_u64; simpl; lia].
  intros s x s' Hs _ E. unfold parseQERChild in E. destruct (ie_Type x) eqn:?; simplify_eq; try done.
  - apply bind_Accept in E as (v & _ & E). by simplify_eq.
  - apply bind_Accept in E as (v & _ & E). by simplify_eq.
  - repeat case_match; by simplify_eq.
  - destruct (ie_MBRUL x) eqn:?, (ie_MBRDL x) eqn:?; simplify_eq.
    split; simpl; eauto using ie_MBRUL_u64, ie_MBRDL_u64.
Qed.

Definition plan_ok (m : modPlan) : Prop :=
  Forall params_ok (creates m) ∧ Forall params_ok (updates m) ∧
  Forall (λ u, NoDup (u_qers u)) (plan_pdrs m).

Lemma parsePlan_ok (req : modRequest) m : parsePlan req = Accept m → plan_ok m.
Proof.
  intros (cs & E1 & (us & E2 & (rs & E3 & (ps & E4 & E5)%bind_Accept)%bind_Accept)%bind_Accept)%bind_Accept.
  simplify_eq. split_and!; simpl.
  - revert E1. apply for_each_inv; [|constructor]. intros s x s' Hs _ E. unfold planCreate in E.
    apply bind_Accept in E as (ch & _ & E). apply bind_Accept in E as (p & Ep & E).
    destruct (negb _); simplify_eq. apply Forall_app. eauto using parseQERParams_ok.
  - revert E2. apply for_each_inv; [|constructor]. intros s x s' Hs _ E. unfold planUpdate in E.
    apply bind_Accept in E as (ch & _ & E). apply bind_Accept in E as (p & Ep & E).
    destruct (negb _); simplify_eq. apply Forall_app. eauto using parseQERParams_ok.
  - revert E4. apply for_each_inv; [|constructor]. intros s x s' Hs _ E. unfold planPDR in E.
    apply bind_Accept in E as (ch & _ & E). apply bind_Accept in E as ([u hasID] & Eu & E).
    assert (Hu : NoDup (u_qers (u, hasID).1)).
    { revert Eu. apply (for_each_inv _ (λ s, NoDup (u_qers s.1))); [|constructor]. clear. intros [u b] x [u' b'] Hu _ E.
      unfold planPDRChild in E. simpl in *. destruct (ie_Type x); simplify_eq; try done.
      - apply bind_Accept in E as (v & _ & E). simplify_eq. simpl. by apply NoDup_appendQERID.
      - apply bind_Accept in E as (v & _ & E). by simplify_eq. }
    destruct (negb hasID); simplify_eq. case_match; simplify_eq; [|done]. apply Forall_app. eauto.
Qed.

Lemma parsePDRQoS_NoDup (children : list IE) p : parsePDRQoS children = Accept p → NoDup (QERIDs p).
Proof.
  apply (for_each_inv _ (λ s, NoDup (QERIDs s))); [|constructor].
  intros s x s' Hs _ E. unfold parsePDRChild in E.
  assert (Hpdi : ∀ l q, NoDup (QERIDs q) → NoDup (QERIDs (pdiSourceInterface q l))).
  { clear. unfold pdiSourceInterface. induction l as [|c l IH]; intros q Hq; simpl; [done|].
    apply IH. repeat case_match; done. }
  destruct (ie_Type x); simplify_eq; try done; try (by case_match; auto).
  apply bind_Accept in E as (v & _ & E). simplify_eq. simpl. by apply NoDup_appendQERID.
Qed.

End ParsingProofs.

(** * Validation accepts exactly the consistent plans *)

(** The QER IDs the session has once the plan is applied. *)
Definition after_ids (qers : gmap Z QERState) (m : modPlan) : gset Z :=
  (dom qers ∖ list_to_set (removes m)) ∪ list_to_set (qp_id <$> creates m).

Record valid_plan (qers : gmap Z QERState) (pdrs : gmap Z PDRState) (m : modPlan) : Prop := {
  vp_removes : Forall (λ id, id ∈ dom qers) (removes m);
  vp_creates : NoDup (qp_id <$> creates m) ∧ Forall (λ p, qp_id p ∉ dom qers) (creates m);
  vp_updates : Forall (λ p, qp_id p ∈ dom qers ∧ qp_id p ∉ removes m) (updates m);
  vp_pdrs : Forall (λ u, u_pdrID u ∈ dom pdrs ∧ Forall (λ id, id ∈ after_ids qers m) (u_qers u)) (plan_pdrs m);
  vp_old : ∀ pid p, pdrs !! pid = Some p → pid ∉ u_pdrID <$> plan_pdrs m →
    Forall (λ id, id ∈ after_ids qers m) (QERIDs p);
}.

Lemma checkRemove_iff qers s id s' :
  checkRemove qers s id = Accept s' ↔ id ∈ dom qers ∧ s' = {[id]} ∪ s.
Proof.
  unfold checkRemove. rewrite elem_of_dom. destruct (qers !! id).
  - split; [intros; simplify_eq; eauto|]. by intros [_ ->].
  - split; [done|]. intros [[? ?] _]. done.
Qed.

Lemma checkCreate_iff qers s p s' :
  checkCreate qers s p = Accept s' ↔
  ((qp_id p ∉ dom qers) ∧ qp_id p ∉ s) ∧ s' = {[qp_id p]} ∪ s.
Proof.
  unfold checkCreate. rewrite elem_of_dom. do 2 case_bool_decide; simpl; naive_solver.
Qed.

Lemma checkCreates_iff qers l s s' :
  for_each (checkCreate qers) s l = Accept s' ↔
  (Forall (λ p, (qp_id p ∉ dom qers) ∧ qp_id p ∉ s) l ∧ NoDup (qp_id <$> l)) ∧
  s' = list_to_set (qp_id <$> l) ∪ s.
Proof.
  revert s. induction l as [|p l IH]; intros s.
  { rewrite fmap_nil, list_to_set_nil, (left_id_L ∅ (∪)). split; [|by intros [_ ->]].
    intros. simplify_eq/=. split_and!; constructor. }
  rewrite Forall_cons, fmap_cons, NoDup_cons, list_to_set_cons.
  assert (Hfa : Forall (λ p0, (qp_id p0 ∉ dom qers) ∧ qp_id p0 ∉ {[qp_id p]} ∪ s) l ↔
    Forall (λ p0, (qp_id p0 ∉ dom qers) ∧ qp_id p0 ∉ s) l ∧ qp_id p ∉ qp_id <$> l).
  { rewrite !Forall_forall. setoid_rewrite list_elem_of_fmap. split.
    - intros Hall. split; [intros; specialize (Hall x); set_solver|].
      intros (y & E & Hy). specialize (Hall y Hy). set_solver.
    - intros [Hall Hn] x Hx. specialize (Hall x Hx). split; [naive_solver|].
      rewrite elem_of_union, elem_of_singleton. intros [E|?]; [|naive_solver]. eauto. }
  simpl. split.
  - intros (s1 & E1 & E2)%bind_Accept. apply checkCreate_iff in E1 as [H1 ->].
    apply IH in E2 as [[H2 H3] ->]. apply Hfa in H2 as [H2 H4].
    split; [done|set_solver].
  - intros [[[H1 H2] [H3 H4]] ->].
    rewrite (proj2 (checkCreate_iff qers s p _) (conj H1 eq_refl)). simpl. apply IH.
    rewrite Hfa. split; [done|set_solver].
Qed.

Lemma checkUpdate_iff qers removed p :
  checkUpdate qers removed tt p = Accept tt ↔ qp_id p ∈ dom qers ∧ qp_id p ∉ removed.
Proof.
  unfold checkUpdate. rewrite elem_of_dom. do 2 case_bool_decide; simpl; naive_solver.
Qed.

Lemma checkPDRUpdate_iff pdrs after s u s' :
  checkPDRUpdate pdrs after s u = Accept s' ↔
  (u_pdrID u ∈ dom pdrs ∧ Forall (λ id, id ∈ after) (u_qers u)) ∧ s' = {[u_pdrID u]} ∪ s.
Proof.
  unfold checkPDRUpdate. rewrite elem_of_dom.
  rewrite <- (for_each_check (λ _ id, if bool_decide (id ∈ after) then Accept tt
    else rejectRule RuleIDTypePDR (u_pdrID u) specUpdatePDR "Update PDR references an unknown QER"))
    by (intros; by apply unit_check).
  destruct (pdrs !! u_pdrID u).
  - destruct (for_each _ tt (u_qers u)) as [[]|r]; simpl; [|naive_solver].
    split; [intros; simplify_eq; eauto|]. by intros [_ ->].
  - split; [done|]. intros [[[? ?] _] _]. done.
Qed.

Lemma checkOldPDR_iff pdrs after updated pid :
  checkOldPDR pdrs after updated tt pid = Accept tt ↔
  (∀ p, pdrs !! pid = Some p → pid ∉ updated → Forall (λ id, id ∈ after) (QERIDs p)).
Proof.
  unfold checkOldPDR. case_bool_decide; [naive_solver|]. destruct (pdrs !! pid) as [p|]; [|naive_solver].
  rewrite for_each_check by (intros; by apply unit_check). naive_solver.
Qed.

Lemma validatePlan_iff qers pdrs m m' :
  validatePlan qers pdrs m = Accept m' ↔ m' = m ∧ valid_plan qers pdrs m.
Proof.
  unfold validatePlan. split.
  - intros (rem & E1 & (aft & E2 & ([] & E3 & (upd & E4 & ([] & E5 & E6)%bind_Accept)%bind_Accept)%bind_Accept)%bind_Accept)%bind_Accept.
    injection E6 as <-. split; [done|].
    apply (for_each_collect _ _ id _ _ _ (checkRemove_iff qers)) in E1 as [H1 ->].
    rewrite list_fmap_id, (right_id_L ∅ (∪)) in *.
    apply checkCreates_iff in E2 as [[H2 H2'] ->].
    rewrite (union_comm_L _ (dom qers ∖ _)) in *. fold (after_ids qers m) in *.
    rewrite (for_each_check _ _ _ (checkUpdate_iff qers _)) in E3.
    apply (for_each_collect _ _ u_pdrID _ _ _ (checkPDRUpdate_iff pdrs _)) in E4 as [H4 ->].
    rewrite (right_id_L ∅ (∪)) in E5.
    rewrite (for_each_check _ _ _ (checkOldPDR_iff pdrs _ _)) in E5.
    constructor; auto.
    + split; [done|]. eapply Forall_impl; [exact H2|naive_solver].
    + eapply Forall_impl; [exact E3|]. set_solver.
    + intros pid p Hp Hni. rewrite Forall_forall in E5. eapply E5; [|exact Hp|set_solver].
      rewrite merge_sort_Permutation. apply list_elem_of_fmap. exists (pid, p).
      by rewrite elem_of_map_to_list.
  - intros [-> [H1 [H2 H2'] H3 H4 H5]].
    rewrite (proj2 (for_each_collect _ _ id _ _ (list_to_set (removes m)) (checkRemove_iff qers))).
    2: { split; [done|]. by rewrite list_fmap_id, (right_id_L ∅ (∪)). }
    simpl. rewrite (proj2 (checkCreates_iff qers (creates m) _ (after_ids qers m))).
    2: { split; [split; [|done]|unfold after_ids; by rewrite union_comm_L].
         eapply Forall_impl; [exact H2'|]. set_solver. }
    simpl. rewrite (proj2 (for_each_check _ _ _ (checkUpdate_iff qers _))).
    2: { eapply Forall_impl; [exact H3|]. set_solver. }
    simpl. rewrite (proj2 (for_each_collect _ _ u_pdrID _ _ (list_to_set (u_pdrID <$> plan_pdrs m))
      (checkPDRUpdate_iff pdrs _))).
    2: { split; [done|]. by rewrite (right_id_L ∅ (∪)). }
    simpl. rewrite (proj2 (for_each_check _ _ _ (checkOldPDR_iff pdrs _ _))); [done|].
    rewrite Forall_forall. intros pid _ p Hp Hni. apply (H5 pid p Hp). set_solver.
Qed.

(** * Applying a valid plan *)

(** Every QER a PDR lists exists. *)
Definition ref_ok (qers : gmap Z QERState) (pdrs : gmap Z PDRState) : Prop :=
  map_Forall (λ _ p, Forall (λ id, id ∈ dom qers) (QERIDs p)) pdrs.

Lemma slots_ok_sub h σ σ' : slots_ok h σ → (∀ s l, σ' s = Some l → σ s = Some l) → slots_ok h σ'.
Proof. intros [H1 H2 H3] Hsub. constructor; eauto. Qed.

Lemma lookup_deletes (l : list Z) (m : gmap Z QERState) i :
  foldl (λ m id, delete id m) m l !! i = if decide (i ∈ l) then None else m !! i.
Proof.
  revert m. induction l as [|x l IH]; intros m; simpl; [done|].
  rewrite IH. destruct (decide (i = x)) as [->|].
  - rewrite lookup_delete_eq. repeat case_decide; set_solver.
  - rewrite lookup_delete_ne by done. repeat case_decide; set_solver.
Qed.

(** Rules after the removals and the creations. *)
Definition rules_created (qers : gmap Z QERState) (m : modPlan) : gmap Z QERState :=
  foldl (λ m p, <[qp_id p := newState p]> m) (foldl (λ m id, delete id m) qers (removes m)) (creates m).

Lemma inserts_dom (l : list qerParams) (m : gmap Z QERState) :
  dom (foldl (λ m p, <[qp_id p := newState p]> m) m l) = list_to_set (qp_id <$> l) ∪ dom m.
Proof.
  revert m. induction l as [|p l IH]; intros m; simpl; [set_solver|]. rewrite IH, dom_insert_L. set_solver.
Qed.

Lemma rules_created_dom qers m : dom (rules_created qers m) = after_ids qers m.
Proof.
  unfold rules_created, after_ids. rewrite inserts_dom, union_comm_L. f_equal.
  apply set_eq. intros i. rewrite elem_of_dom, lookup_deletes, elem_of_difference, elem_of_list_to_set, elem_of_dom.
  case_decide; naive_solver.
Qed.

(** Inserting parsed rules keeps ranges and adds no bucket. *)
Lemma inserts_ok (l : list qerParams) (m : gmap Z QERState) :
  Forall params_ok l → map_Forall (λ _ q, qer_ok q) m →
  map_Forall (λ _ q, qer_ok q) (foldl (λ m p, <[qp_id p := newState p]> m) m l) ∧
  (∀ s lo, slots (foldl (λ m p, <[qp_id p := newState p]> m) m l) s = Some lo → slots m s = Some lo).
Proof.
  intros Hl. revert m. induction Hl as [|p l Hp _ IH]; intros m Hm; simpl; [done|].
  destruct (IH (<[qp_id p := newState p]> m)) as [H1 H2]; [by apply map_Forall_insert_2|].
  split; [done|]. intros [i ul] lo E%H2. unfold slots in *. simpl in *.
  destruct (decide (qp_id p = i)) as [<-|].
  - rewrite lookup_insert_eq in E. by destruct ul.
  - by rewrite lookup_insert_ne in E.
Qed.

Lemma rules_created_ok qers m :
  Forall params_ok (creates m) → map_Forall (λ _ q, qer_ok q) qers →
  map_Forall (λ _ q, qer_ok q) (rules_created qers m) ∧
  (∀ s l, slots (rules_created qers m) s = Some l → slots qers s = Some l).
Proof.
  intros Hc Hq. destruct (inserts_ok (creates m) (foldl (λ m id, delete id m) qers (removes m)) Hc) as [H1 H2].
  - intros i q. rewrite lookup_deletes. case_decide; [done|]. apply Hq.
  - split; [done|]. intros [i ul] l E%H2. unfold slots in *. simpl in *. rewrite lookup_deletes in E.
    by case_decide.
Qed.

Lemma applyUpdates_spec l (m : gmap Z QERState) :
  Forall params_ok l → Forall (λ p, qp_id p ∈ dom m) l → map_Forall (λ _ q, qer_ok q) m →
  ∃ m' ch, applyUpdates m l = Ok (m', ch) ∧ dom m' = dom m ∧ map_Forall (λ _ q, qer_ok q) m' ∧
    (∀ s, slots m' s = slots m s).
Proof.
  intros Hl. revert m. induction Hl as [|p l Hp _ IH]; intros m Hd Hm; simpl; [by eexists m, _|].
  inversion Hd as [|? ? Hin Hd']; subst. apply elem_of_dom in Hin as [q Hq]. rewrite Hq.
  assert (Hdom : dom (<[qp_id p := updateQER q p]> m) = dom m).
  { rewrite dom_insert_L. apply elem_of_dom_2 in Hq. set_solver. }
  assert (Hqo : qer_ok (updateQER q p)).
  { pose proof (Hm _ _ Hq) as [? ?]. destruct Hp. split; simpl; by destruct (qp_hasMBR p). }
  destruct (IH (<[qp_id p := updateQER q p]> m)) as (m' & ch & E & H1 & H2 & H3);
    [by rewrite Hdom|by apply map_Forall_insert_2|].
  rewrite E. simpl. eexists m', _. split_and!; [done|congruence|done|].
  intros [i ul]. rewrite H3. unfold slots. simpl. destruct (decide (qp_id p = i)) as [<-|].
  - by rewrite lookup_insert_eq, Hq.
  - by rewrite lookup_insert_ne.
Qed.

Lemma applyPDRs_spec l (pdrs : gmap Z PDRState) :
  Forall (λ u, u_pdrID u ∈ dom pdrs) l →
  ∃ pdrs', applyPDRs pdrs l = Ok pdrs' ∧ dom pdrs' = dom pdrs ∧
    ∀ i p', pdrs' !! i = Some p' → ∃ p, pdrs !! i = Some p ∧ PDRID p' = PDRID p ∧
      ((i ∉ u_pdrID <$> l ∧ QERIDs p' = QERIDs p) ∨ ∃ u, u ∈ l ∧ u_pdrID u = i ∧ QERIDs p' = u_qers u).
Proof.
  revert pdrs. induction l as [|u l IH]; intros pdrs Hd; simpl.
  { exists pdrs. split_and!; [done|done|]. intros i p' Hp. exists p'. split_and!; [done|done|]. left. set_solver. }
  inversion Hd as [|? ? Hin Hd']; subst. apply elem_of_dom in Hin as [p Hp]. rewrite Hp.
  set (pn := mkPDR (PDRID p) (SourceInterface p) (Precedence p) (u_qers u)).
  assert (Hdom : dom (<[u_pdrID u := pn]> pdrs) = dom pdrs).
  { rewrite dom_insert_L. apply elem_of_dom_2 in Hp. set_solver. }
  destruct (IH (<[u_pdrID u := pn]> pdrs)) as (pdrs' & E & H1 & H2); [by rewrite Hdom|].
  exists pdrs'. split_and!; [done|congruence|]. intros i p' Hp'. destruct (H2 i p' Hp') as (p0 & Hp0 & Hid & Hor).
  destruct (decide (u_pdrID u = i)) as [<-|Hne].
  - rewrite lookup_insert_eq in Hp0. simplify_eq. exists p. split_and!; [done|done|]. right.
    destruct Hor as [[_ Hq]|(u' & Hu & E' & Hq)]; [exists u|exists u']; set_solver.
  - rewrite lookup_insert_ne in Hp0 by done. exists p0. split_and!; [done|done|].
    destruct Hor as [[Hni Hq]|(u' & Hu & E' & Hq)]; [left|right; exists u'; set_solver].
    split; [|done]. set_solver.
Qed.

Lemma same_rules_dom m m' : same_rules m m' → dom m = dom m'.
Proof.
  intros Hs. apply set_eq. intros i. rewrite !elem_of_dom. specialize (Hs i).
  inversion Hs; split; intros [? ?]; eauto; congruence.
Qed.

Lemma applyQoS_spec h qers pdrs m cfg now :
  qos_ok h qers pdrs → plan_ok m → valid_plan qers pdrs m → is_clock now →
  ∃ h' qers' pdrs' v ch, applyQoS h qers pdrs m cfg now = Ok (h', qers', pdrs', v, ch) ∧
    qos_ok h' qers' pdrs' ∧ ref_ok qers' pdrs' ∧ dom qers' = after_ids qers m ∧ dom pdrs' = dom pdrs ∧
    rebuilt h qers h' qers' ∧ view_ok h' v.
Proof.
  intros [Hs Hq Hp] (Hc & Hu & Hnd) Hv Ht. unfold applyQoS. fold (rules_created qers m).
  destruct (rules_created_ok qers m Hc Hq) as [Hq1 Hs1].
  destruct (applyUpdates_spec (updates m) (rules_created qers m) Hu) as (q3 & ch & E3 & Hd3 & Hq3 & Hs3).
  { rewrite rules_created_dom. eapply Forall_impl; [apply Hv|]. unfold after_ids. set_solver. }
  { done. }
  rewrite E3. cbn [mbind res_bind].
  destruct (applyPDRs_spec (plan_pdrs m) pdrs) as (pdrs' & E4 & Hd4 & Hp4).
  { eapply Forall_impl; [apply Hv|naive_solver]. }
  rewrite E4. cbn [mbind res_bind].
  assert (Hpo : map_Forall (λ id p, PDRID p = id ∧ NoDup (QERIDs p)) pdrs').
  { intros i p' Hp'. destruct (Hp4 i p' Hp') as (p & Hpp & -> & Hor). destruct (Hp i p Hpp) as [-> Hndp].
    split; [done|]. destruct Hor as [[_ ->]|(u & Hin & _ & ->)]; [done|].
    rewrite Forall_forall in Hnd. by apply Hnd. }
  destruct (buildQoSView_total h q3 pdrs' (normalized cfg) now) as (h' & q4 & v & E5 & Hok & Hsame & [Hrb1 Hrb2] & Hview); [|done|].
  { constructor; [|done|done]. eapply slots_ok_sub; [exact Hs|]. intros s l. rewrite Hs3. apply Hs1. }
  rewrite E5. cbn [mbind res_bind]. eexists _, _, _, _, _. split; [reflexivity|].
  assert (Hdom : dom q4 = after_ids qers m) by (by rewrite <- (same_rules_dom _ _ Hsame), Hd3, rules_created_dom).
  split_and!; [done| |done|done| |done].
  2: { constructor; [done|]. intros s l Hl. destruct (Hrb2 s l Hl) as [E|E]; [left|by right].
       apply Hs1. by rewrite <- Hs3. }
  intros i p' Hp'. destruct (Hp4 i p' Hp') as (p & Hpp & _ & Hor). rewrite Hdom.
  destruct Hor as [[Hni ->]|(u & Hin & _ & ->)]; [by apply (vp_old _ _ _ Hv i p)|].
  pose proof (vp_pdrs _ _ _ Hv) as Hvp. rewrite Forall_forall in Hvp. by apply Hvp.
Qed.

(** * Establishment *)

Lemma slots_none_ok h (qers : gmap Z QERState) :
  heap_ok h → map_Forall (λ _ q, ulBucket q = None ∧ dlBucket q = None) qers → slots_ok h (slots qers).
Proof.
  intros Hh Hn. assert (Hs : ∀ s, slots qers s = None).
  { intros [i ul]. unfold slots. simpl. destruct (qers !! i) as [q|] eqn:E; [|done].
    destruct (Hn i q E). by destruct ul. }
  constructor; [done|..]; intros *; rewrite Hs; done.
Qed.

Lemma pdrMap_lookup (l : list PDRState) (m : gmap Z PDRState) i p :
  foldl (λ m p, <[PDRID p := p]> m) m l !! i = Some p → (p ∈ l ∧ PDRID p = i) ∨ m !! i = Some p.
Proof.
  revert m. induction l as [|x l IH]; intros m E; simpl in E; [by right|].
  destruct (IH _ E) as [[? ?]|E']; [left; set_solver|].
  destruct (decide (PDRID x = i)) as [<-|].
  - rewrite lookup_insert_eq in E'. simplify_eq. left. set_solver.
  - rewrite lookup_insert_ne in E' by done. by right.
Qed.

Section Establishment.
Context {IE : Type} `{!GoPfcp IE, !GoPfcpRanges IE}.

Lemma establishmentQoS_spec (createQER : list IE) pdrs qers pm h :
  heap_ok h → Forall (λ p, NoDup (QERIDs p)) pdrs →
  establishmentQoS createQER pdrs = Accept (qers, pm) →
  qos_ok h qers pm ∧ ref_ok qers pm ∧ map_Forall (λ id q, QERID q = id) qers.
Proof.
  intros Hh Hnd (q0 & E1 & ([] & E2 & E3)%bind_Accept)%bind_Accept. injection E3 as <- <-.
  assert (Hq : map_Forall (λ id q, QERID q = id ∧ qer_ok q ∧ ulBucket q = None ∧ dlBucket q = None) q0).
  { revert E1. apply (for_each_inv _ (λ m, map_Forall _ m)); [|done].
    intros m ie m' Hm _ E. unfold establishQER in E.
    apply bind_Accept in E as (ch & _ & E). apply bind_Accept in E as (p & Ep & E).
    destruct (negb _); [done|]. case_match; simplify_eq. apply map_Forall_insert_2; [|done].
    apply parseQERParams_ok in Ep. done. }
  rewrite (for_each_check (checkPDRRefs q0) (λ p, Forall (λ id, id ∈ dom q0) (QERIDs p))) in E2.
  2: { intros p. unfold checkPDRRefs. apply for_each_check. intros id. rewrite elem_of_dom.
       destruct (q0 !! id); naive_solver. }
  rewrite Forall_forall in *. split_and!; [constructor|..].
  - apply slots_none_ok; [done|]. eapply map_Forall_impl; [exact Hq|naive_solver].
  - eapply map_Forall_impl; [exact Hq|naive_solver].
  - intros i p [[? ?]|?]%pdrMap_lookup; [auto|done].
  - intros i p [[? ?]|?]%pdrMap_lookup; [auto|done].
  - eapply map_Forall_impl; [exact Hq|naive_solver].
Qed.

(** A new session starts without buckets. *)
Lemma establishmentQoS_slots (createQER : list IE) pdrs qers pm x :
  establishmentQoS createQER pdrs = Accept (qers, pm) → slots qers x = None.
Proof.
  intros (q0 & E1 & (u & E2 & E3)%bind_Accept)%bind_Accept. injection E3 as <- <-.
  assert (Hq : map_Forall (λ _ q, ulBucket q = None ∧ dlBucket q = None) q0).
  { revert E1. apply (for_each_inv _ (λ m, map_Forall _ m)); [|done].
    intros m ie m' Hm _ E. unfold establishQER in E.
    apply bind_Accept in E as (ch & _ & E). apply bind_Accept in E as (p & Ep & E).
    destruct (negb _); [done|]. case_match; simplify_eq. by apply map_Forall_insert_2. }
  unfold slots. destruct (q0 !! x.1) as [q|] eqn:Eq; simpl; [|done]. destruct (Hq _ _ Eq). by destruct x.2.
Qed.

(** An accepted plan that changes something passed the validation. *)
Lemma planModificationQoS_valid qers pdrs (req : modRequest (IE:=IE)) m :
  planModificationQoS qers pdrs req = Accept m → plan_empty m = false →
  parsePlan req = Accept m ∧ valid_plan qers pdrs m.
Proof.
  intros (m0 & E1 & E2)%bind_Accept Hne. destruct (plan_empty m0) eqn:E.
  - injection E2 as ->. congruence.
  - apply validatePlan_iff in E2 as [-> ?]. done.
Qed.

End Establishment.

(** * A concrete IE tree, for examples *)

Module PfcpTree.
Inductive tie := Tie (t : ie_type) (nums : list Z) (kids : list tie).
Definition ty (x : tie) : ie_type := let 'Tie t _ _ := x in t.
Definition num (i : nat) (x : tie) : option Z := let 'Tie _ n _ := x in n !! i.
Definition kids (x : tie) : option (list tie) := let 'Tie _ _ k := x in Some k.
Definition address (x : tie) : option bytes := let 'Tie _ n _ := x in if (length n <? 4)%nat then None else Some n.

#[global] Instance tie_pfcp : GoPfcp tie := {|
  ie_Type := ty; ie_QERID := num 0; ie_QFI := num 0; ie_GateStatusUL := num 0; ie_GateStatusDL := num 1;
  ie_MBRUL := λ x, u64 <$> num 0 x; ie_MBRDL := λ x, u64 <$> num 1 x;
  ie_PDRID := num 0; ie_Precedence := num 0; ie_SourceInterface := num 0;
  ie_CreateQER := kids; ie_UpdateQER := kids; ie_RemoveQER := kids; ie_UpdatePDR := kids;
  ie_CreatePDR := kids; ie_PDI := kids; ie_FSEID := num 0; ie_FTEID := num 0;
  ie_UEIPAddress := λ x, Some (address x, None); ie_NetworkInstance := λ _, None;
  ie_CreateURR := kids; ie_URRID := num 0;
  ie_HasVOLUM := λ x, bool_decide (num 0 x = Some 1); ie_HasDURAT := λ x, bool_decide (num 1 x = Some 1);
  ie_HasVOLTH := λ x, bool_decide (num 0 x = Some 1); ie_HasPERIO := λ x, bool_decide (num 1 x = Some 1);
  ie_VolumeThreshold := num 0; ie_MeasurementPeriod := num 0; ie_TimeThreshold := num 0;
  ie_UpdateFAR := kids; ie_ApplyAction := num 0;
  ie_OuterHeaderCreation := λ x, (λ t, (t, Some [10; 0; 0; 1])) <$> num 0 x;
|}.

#[global] Instance tie_ranges : GoPfcpRanges tie.
Proof.
  constructor; simpl; intros x v (w & _ & ->)%fmap_Some; unfold is_u64, u64; apply Z.mod_pos_bound; lia.
Qed.

Definition leaf (t : ie_type) (n : list Z) : tie := Tie t n [].
Definition group (t : ie_type) (k : list tie) : tie := Tie t [] k.

(** Replace QER 1 by QER 2 and point PDR 7 to it. *)
Definition swap_request : modRequest (IE:=tie) :=
  mkModRequest [group TCreateQER [leaf TQERID [2]; leaf TMBR [8000; 9000]]] []
    [group TRemoveQER [leaf TQERID [1]]]
    [group TUpdatePDR [leaf TPDRID [7]; leaf TQERID [2]; leaf TQERID [2]]] [].

(** The same without the Update PDR. *)
Definition dangling_request : modRequest (IE:=tie) :=
  mkModRequest [] [] [group TRemoveQER [leaf TQERID [1]]] [] [].

Definition rules : gmap Z QERState := {[ 1 := mkQER 1 5 true 0 0 false 0 0 None None ]}.
Definition pdrs : gmap Z PDRState := {[ 7 := mkPDR 7 0 255 [1] ]}.

Lemma rules_ok : qos_ok ∅ rules pdrs.
Proof.
  constructor.
  - apply slots_none_ok; [done|]. by apply map_Forall_singleton.
  - apply map_Forall_singleton. split; unfold is_u64; simpl; lia.
  - apply map_Forall_singleton. split; [done|]. apply NoDup_singleton.
Qed.
End PfcpTree.

(** * The properties of rule validation *)

(** The validation of a Session Modification is sound and complete: a
    request is accepted exactly when its IEs decode and either carry no QoS
    rule at all or describe a consistent change (removed and updated QERs exist
    and are not removed, created IDs are new and distinct, and after the change
    every PDR, updated or not, lists only QERs that exist). *)
Lemma planModificationQoS_iff {IE} `{!GoPfcp IE} qers pdrs (req : modRequest (IE:=IE)) m :
  planModificationQoS qers pdrs req = Accept m ↔
  parsePlan req = Accept m ∧ (plan_empty m = true ∨ valid_plan qers pdrs m).
Proof.
  unfold planModificationQoS. split.
  - intros (m0 & E1 & E2)%bind_Accept. destruct (plan_empty m0) eqn:E.
    + injection E2 as <-. auto.
    + apply validatePlan_iff in E2 as [-> ?]. auto.
  - intros [-> H]. simpl. destruct (plan_empty m) eqn:E; [done|].
    apply validatePlan_iff. destruct H; [congruence|done].
Qed.

(** An accepted Session Modification is applied without a nil dereference
    and keeps the session consistent: every bucket of the session is owned by
    one rule and direction and well formed, PDR lists have no repetition and
    refer to existing QERs only, and the QERs are exactly the ones the request
    announced. *)
Lemma applyQoS_integrity {IE} `{!GoPfcp IE, !GoPfcpRanges IE} h qers pdrs (req : modRequest (IE:=IE)) m cfg now :
  qos_ok h qers pdrs → is_clock now →
  planModificationQoS qers pdrs req = Accept m → plan_empty m = false →
  ∃ h' qers' pdrs' v ch, applyQoS h qers pdrs m cfg now = Ok (h', qers', pdrs', v, ch) ∧
    qos_ok h' qers' pdrs' ∧ ref_ok qers' pdrs' ∧ dom qers' = after_ids qers m ∧ dom pdrs' = dom pdrs.
Proof.
  intros Hok Ht Hp Hne. apply planModificationQoS_valid in Hp as [Hp Hv]; [|done].
  destruct (applyQoS_spec h qers pdrs m cfg now) as (h' & q' & p' & v & ch & H); auto;
    [by eapply parsePlan_ok|]. exists h', q', p', v, ch. tauto.
Qed.

(** The rules an accepted Session Establishment installs are consistent:
    QERs are keyed by their ID and own no bucket yet, PDRs by theirs, and no PDR
    lists a QER that was not created. *)
Lemma establishmentQoS_integrity {IE} `{!GoPfcp IE, !GoPfcpRanges IE} (createQER : list IE) createPDR pdrs qers pm :
  mapM parsePDRQoS createPDR = Accept pdrs →
  establishmentQoS createQER pdrs = Accept (qers, pm) →
  qos_ok ∅ qers pm ∧ ref_ok qers pm ∧ map_Forall (λ id q, QERID q = id) qers.
Proof.
  intros Hp. apply establishmentQoS_spec; [done|]. revert pdrs Hp.
  induction createPDR as [|c l IH]; intros pdrs Hp; simpl in Hp; [injection Hp as <-; constructor|].
  apply bind_Accept in Hp as (p & E1 & Hp). apply bind_Accept in Hp as (ps & E2 & Hp). injection Hp as <-.
  constructor; [by eapply parsePDRQoS_NoDup|by apply IH].
Qed.
