(* ===== verification/UpfServer.v ===== *)
(** The PFCP server of the UPF, [nf/upf/internal/pfcp/server.go]: the session
    table with its lookup indexes, the session handlers and usage reporting.

    Sessions are shared by pointer between the indexes and the datapath, so they
    live in a heap of their own and the indexes map keys to locations.  A
    handler takes the server state, the request, the reading [now] of the
    enforcement clock and the wall-clock time [wall], and returns the new state
    and the response it sends; marshalling and the socket are not modelled, except
    that a usage report may fail to be sent. *)
From S2P Require Import Prelude UpfBucket UpfQos UpfQer.
Import Bucket.

(** * Data *)

Record URRState := mkURR {
  URRID : Z;
  MeasureVolume : bool;
  MeasureDuration : bool;
  TriggerVOLTH : bool;
  TriggerPERIO : bool;
  VolumeThreshold : Z;    (* uint64 *)
  MeasurementPeriod : Z;  (* nanoseconds *)
  ULVolume : Z;           (* uint64 *)
  DLVolume : Z;
  ULPackets : Z;
  DLPackets : Z;
  URSeqn : Z;             (* uint32 *)
  LastReportedVolume : Z;
  StartTime : Z;
  LastPeriodicReport : Z;
  Installed : bool;
}.
Definition noURR : URRState :=
  mkURR 0 false false false false 0 0 0 0 0 0 0 0 0 0 false.

Record Session := mkSession {
  CPSEID : Z;
  UPSEID : Z;
  ULTEID : Z;
  UEIP : option bytes;    (* net.IP, [None] is nil *)
  GNBIP : option bytes;
  DLTEID : Z;
  UEIPv6 : option bytes;
  DNN : string;
  SMFAddr : option (bytes * Z);
  QERs : gmap Z QERState;
  PDRs : gmap Z PDRState;
  qos : option qosView;
  URR : URRState;
  raCancel : bool;        (* an advertiser is running *)
}.

Definition with_qos (s : Session) (q : gmap Z QERState) (p : gmap Z PDRState) (v : option qosView) : Session :=
  mkSession (CPSEID s) (UPSEID s) (ULTEID s) (UEIP s) (GNBIP s) (DLTEID s) (UEIPv6 s) (DNN s) (SMFAddr s)
    q p v (URR s) (raCancel s).
Definition with_tunnel (s : Session) (gnb : option bytes) (teid : Z) : Session :=
  mkSession (CPSEID s) (UPSEID s) (ULTEID s) (UEIP s) gnb teid (UEIPv6 s) (DNN s) (SMFAddr s)
    (QERs s) (PDRs s) (qos s) (URR s) (raCancel s).
Definition with_urr (s : Session) (u : URRState) : Session :=
  mkSession (CPSEID s) (UPSEID s) (ULTEID s) (UEIP s) (GNBIP s) (DLTEID s) (UEIPv6 s) (DNN s) (SMFAddr s)
    (QERs s) (PDRs s) (qos s) u (raCancel s).
Definition with_ra (s : Session) (b : bool) : Session :=
  mkSession (CPSEID s) (UPSEID s) (ULTEID s) (UEIP s) (GNBIP s) (DLTEID s) (UEIPv6 s) (DNN s) (SMFAddr s)
    (QERs s) (PDRs s) (qos s) (URR s) b.

(** The session table together with the heap of sessions it points into. *)
Record SessionTable := mkTable {
  heap : gmap loc Session;
  bySEID : gmap Z loc;
  byULTEID : gmap Z loc;
  byUEIP : gmap bytes loc;
  byUEIPv6Net : gmap bytes loc;
}.

Definition NewSessionTable : SessionTable := mkTable ∅ ∅ ∅ ∅ ∅.

(** * Keys of the indexes *)

(** [netip.AddrFromSlice(ip)] followed by [Unmap]: 4 octets stand for
    themselves, 16 octets too unless they are a 4-in-6 address. *)
Definition v4InV6Prefix : bytes := [0;0;0;0;0;0;0;0;0;0;255;255].
Definition ueAddr (ip : bytes) : option bytes :=
  if (length ip =? 4)%nat then Some ip
  else if (length ip =? 16)%nat then
    Some (if bool_decide (take 12 ip = v4InV6Prefix) then drop 12 ip else ip)
  else None.

(** [net.IP.To16] *)
Definition To16 (ip : bytes) : option bytes :=
  if (length ip =? 4)%nat then Some (v4InV6Prefix ++ ip)
  else if (length ip =? 16)%nat then Some ip
  else None.

(** The network address of the /64, which determines [prefix.String()]. *)
Definition ueV6Prefix (ip : option bytes) : option bytes :=
  ip ← ip; ip16 ← To16 ip; Some (take 8 ip16 ++ replicate 8 0).

Definition GetByULTEID (t : SessionTable) (teid : Z) : option Session :=
  r ← byULTEID t !! teid; heap t !! r.

Definition GetByUEIP (t : SessionTable) (ip : bytes) : option Session :=
  a ← ueAddr ip; r ← byUEIP t !! a; heap t !! r.

Definition GetByUEIPv6Prefix (t : SessionTable) (ip : bytes) : option Session :=
  k ← ueV6Prefix (Some ip); r ← byUEIPv6Net t !! k; heap t !! r.

(** The index keys of a session, as [store] and [delete] compute them. *)
Definition keyV4 (s : Session) : option bytes :=
  ip ← UEIP s; if (0 <? length ip)%nat then ueAddr ip else None.
Definition keyV6 (s : Session) : option bytes := ueV6Prefix (UEIPv6 s).

Definition insert_opt {K} `{Countable K} (k : option K) (r : loc) (m : gmap K loc) : gmap K loc :=
  match k with Some k => <[k := r]> m | None => m end.
Definition delete_opt {K} `{Countable K} (k : option K) (m : gmap K loc) : gmap K loc :=
  match k with Some k => delete k m | None => m end.

(** [store] of a freshly allocated session; the location is returned. *)
Definition store (t : SessionTable) (s : Session) : SessionTable * loc :=
  let r := fresh (dom (heap t)) in
  (mkTable (<[r := s]> (heap t)) (<[UPSEID s := r]> (bySEID t))
     (if negb (ULTEID s =? 0) then <[ULTEID s := r]> (byULTEID t) else byULTEID t)
     (insert_opt (keyV4 s) r (byUEIP t)) (insert_opt (keyV6 s) r (byUEIPv6Net t)), r).

(** [delete]; the object itself stays reachable from whoever holds it. *)
Definition delete_session (t : SessionTable) (upSEID : Z) : SessionTable :=
  match bySEID t !! upSEID with
  | None => t
  | Some r =>
    match heap t !! r with
    | None => t
    | Some s =>
      mkTable (heap t) (delete upSEID (bySEID t)) (delete (ULTEID s) (byULTEID t))
        (delete_opt (keyV4 s) (byUEIP t)) (delete_opt (keyV6 s) (byUEIPv6Net t))
    end
  end.

Definition set_session (t : SessionTable) (r : loc) (s : Session) : SessionTable :=
  mkTable (<[r := s]> (heap t)) (bySEID t) (byULTEID t) (byUEIP t) (byUEIPv6Net t).

(** [bySEID[upSEID]]: the location and the session. *)
Definition find (t : SessionTable) (upSEID : Z) : option (loc * Session) :=
  r ← bySEID t !! upSEID; s ← heap t !! r; Some (r, s).

(** The sessions of the table, in an iteration order of the map. *)
Definition Snapshot (t : SessionTable) : list (loc * Session) :=
  omap (λ '(_, r), s ← heap t !! r; Some (r, s)) (map_to_list (bySEID t)).

(** * Volume counters *)

Definition AddULVolume (s : Session) (n : Z) : Session :=
  let u := URR s in
  if (n <=? 0) || negb (Installed u) then s
  else with_urr s (mkURR (URRID u) (MeasureVolume u) (MeasureDuration u) (TriggerVOLTH u) (TriggerPERIO u)
    (VolumeThreshold u) (MeasurementPeriod u) (u64 (ULVolume u + u64 n)) (DLVolume u)
    (u64 (ULPackets u + 1)) (DLPackets u) (URSeqn u) (LastReportedVolume u) (StartTime u)
    (LastPeriodicReport u) (Installed u)).

Definition AddDLVolume (s : Session) (n : Z) : Session :=
  let u := URR s in
  if (n <=? 0) || negb (Installed u) then s
  else with_urr s (mkURR (URRID u) (MeasureVolume u) (MeasureDuration u) (TriggerVOLTH u) (TriggerPERIO u)
    (VolumeThreshold u) (MeasurementPeriod u) (ULVolume u) (u64 (DLVolume u + u64 n))
    (ULPackets u) (u64 (DLPackets u + 1)) (URSeqn u) (LastReportedVolume u) (StartTime u)
    (LastPeriodicReport u) (Installed u)).

(** * The server *)

Record Server := mkServer {
  buckets : bheap;
  sessions : SessionTable;
  reportSeq : Z;        (* uint32 *)
  qosCfg : QoSConfig;   (* normalised by [New] *)
}.

Inductive response :=
| SessionEstablishmentResponse (seid seq : Z) (cause : Cause) (ies : list reject_ie)
| SessionModificationResponse (seid seq : Z) (cause : Cause) (ies : list reject_ie)
| SessionDeletionResponse (seid seq : Z) (cause : Cause).

Section Handlers.
Context {IE : Type} `{!GoPfcp IE}.

Record estRequest := mkEstRequest {
  er_Sequence : Z;
  er_CPFSEID : option IE;
  er_CreatePDR : list IE;
  er_CreateQER : list IE;
  er_CreateURR : list IE;
}.

(** What the loop over the Create PDRs collects. *)
Record pdrScan := mkScan {
  sc_ulTEID : Z;
  sc_ueIP : option bytes;
  sc_ueIPv6 : option bytes;
  sc_dnn : string;
  sc_pdrs : list PDRState;
}.

Definition scanPDIChild (a : pdrScan) (c : IE) : pdrScan :=
  match ie_Type c with
  | TFTEID =>
    match ie_FTEID c with
    | Some teid => mkScan teid (sc_ueIP a) (sc_ueIPv6 a) (sc_dnn a) (sc_pdrs a)
    | None => a
    end
  | TUEIPAddress =>
    match ie_UEIPAddress c with
    | Some (v4, v6) =>
      mkScan (sc_ulTEID a) (match v4 with Some _ => v4 | None => sc_ueIP a end)
        (match v6 with Some _ => v6 | None => sc_ueIPv6 a end) (sc_dnn a) (sc_pdrs a)
    | None => a
    end
  | TNetworkInstance =>
    match ie_NetworkInstance c with
    | Some v => mkScan (sc_ulTEID a) (sc_ueIP a) (sc_ueIPv6 a) v (sc_pdrs a)
    | None => a
    end
  | _ => a
  end.

Definition scanPDRChild (a : pdrScan) (c : IE) : pdrScan :=
  match ie_Type c with
  | TPDI => match ie_PDI c with Some pdi => foldl scanPDIChild a pdi | None => a end
  | _ => a
  end.

Definition scanCreatePDR (a : pdrScan) (pdr : IE) : verdict pdrScan :=
  match ie_CreatePDR pdr with
  | None => Accept a
  | Some ies =>
    ps ← parsePDRQoS ies;
    Accept (foldl scanPDRChild
      (mkScan (sc_ulTEID a) (sc_ueIP a) (sc_ueIPv6 a) (sc_dnn a) (sc_pdrs a ++ [ps])) ies)
  end.

Definition scanURRChild (u : URRState) (c : IE) : URRState :=
  let upd id mv md vt pt th per :=
    mkURR id mv md vt pt th per (ULVolume u) (DLVolume u) (ULPackets u) (DLPackets u) (URSeqn u)
      (LastReportedVolume u) (StartTime u) (LastPeriodicReport u) (Installed u) in
  match ie_Type c with
  | TURRID =>
    match ie_URRID c with
    | Some v => upd v (MeasureVolume u) (MeasureDuration u) (TriggerVOLTH u) (TriggerPERIO u)
        (VolumeThreshold u) (MeasurementPeriod u)
    | None => u
    end
  | TMeasurementMethod =>
    upd (URRID u) (ie_HasVOLUM c) (ie_HasDURAT c) (TriggerVOLTH u) (TriggerPERIO u)
      (VolumeThreshold u) (MeasurementPeriod u)
  | TReportingTriggers =>
    upd (URRID u) (MeasureVolume u) (MeasureDuration u) (ie_HasVOLTH c) (ie_HasPERIO c)
      (VolumeThreshold u) (MeasurementPeriod u)
  | TVolumeThreshold =>
    match ie_VolumeThreshold c with
    | Some v => upd (URRID u) (MeasureVolume u) (MeasureDuration u) (TriggerVOLTH u) (TriggerPERIO u)
        v (MeasurementPeriod u)
    | None => u
    end
  | TMeasurementPeriod =>
    match ie_MeasurementPeriod c with
    | Some v => upd (URRID u) (MeasureVolume u) (MeasureDuration u) (TriggerVOLTH u) (TriggerPERIO u)
        (VolumeThreshold u) v
    | None => u
    end
  | TTimeThreshold =>
    if MeasurementPeriod u =? 0 then
      match ie_TimeThreshold c with
      | Some v => upd (URRID u) (MeasureVolume u) (MeasureDuration u) (TriggerVOLTH u) (TriggerPERIO u)
          (VolumeThreshold u) (i64 (v * 1000000000))
      | None => u
      end
    else u
  | _ => u
  end.

Definition scanURR (wall : Z) (u : URRState) (urr : IE) : URRState :=
  match ie_CreateURR urr with
  | None => u
  | Some ies =>
    foldl scanURRChild
      (mkURR (URRID u) true true (TriggerVOLTH u) (TriggerPERIO u) (VolumeThreshold u)
         (MeasurementPeriod u) (ULVolume u) (DLVolume u) (ULPackets u) (DLPackets u) (URSeqn u)
         (LastReportedVolume u) wall wall true) ies
  end.

Definition smfPFCPPort : Z := 8805.

Definition handleSessionEstablishment (sv : Server) (raddr : bytes) (req : estRequest) (now wall : Z)
    : res (Server * response) :=
  let seq := er_Sequence req in
  let cpSEID := match er_CPFSEID req with
                | Some ie => match ie_FSEID ie with Some s => s | None => 0 end
                | None => 0
                end in
  let reject r := Ok (sv, SessionEstablishmentResponse cpSEID seq (rej_cause r) (rej_ies r)) in
  match for_each scanCreatePDR (mkScan 0 None None "" []) (er_CreatePDR req) with
  | Reject r => reject r
  | Accept sc =>
    match establishmentQoS (er_CreateQER req) (sc_pdrs sc) with
    | Reject r => reject r
    | Accept (qers, pdrs) =>
      '(bk, qers, v) ← buildQoSView (buckets sv) qers pdrs (normalized (qosCfg sv)) now;
      let urr := foldl (scanURR wall) noURR (er_CreateURR req) in
      let sess := mkSession cpSEID cpSEID (sc_ulTEID sc) (sc_ueIP sc) None 0 (sc_ueIPv6 sc) (sc_dnn sc)
        (Some (raddr, smfPFCPPort)) qers pdrs v urr false in
      let '(tbl, r) := store (sessions sv) sess in
      let tbl := match sc_ueIPv6 sc with
                 | Some _ => set_session tbl r (with_ra sess true)
                 | None => tbl
                 end in
      Ok (mkServer bk tbl (reportSeq sv) (qosCfg sv),
          SessionEstablishmentResponse cpSEID seq CauseRequestAccepted [])
    end
  end.

(** The Apply Action of an Update FAR: the last one that decodes. *)
Definition applyAction (ies : list IE) : option Z :=
  foldl (λ aa c,
    match ie_Type c with
    | TApplyAction => match ie_ApplyAction c with Some v => Some v | None => aa end
    | _ => aa
    end) None ies.

Definition applyActionFORW : Z := 2.

Definition applyFAR (s : Session) (ufar : IE) : Session :=
  match ie_UpdateFAR ufar with
  | None => s
  | Some ies =>
    let forward :=
      foldl (λ s c,
        match ie_Type c with
        | TUpdateForwardingParameters =>
          match ie_OuterHeaderCreation c with
          | Some (teid, Some ip) => with_tunnel s (Some ip) teid
          | _ => s
          end
        | _ => s
        end) s ies in
    match applyAction ies with
    | Some aa => if Z.land aa applyActionFORW =? 0 then with_tunnel s None 0 else forward
    | None => forward
    end
  end.

Definition handleSessionModification (sv : Server) (seid seq : Z) (req : modRequest (IE:=IE)) (now : Z)
    : res (Server * response) :=
  match find (sessions sv) seid with
  | None => Ok (sv, SessionModificationResponse seid seq CauseSessionContextNotFound [])
  | Some (r, s) =>
    match planModificationQoS (QERs s) (PDRs s) req with
    | Reject rj => Ok (sv, SessionModificationResponse (CPSEID s) seq (rej_cause rj) (rej_ies rj))
    | Accept plan =>
      '(bk, s1) ←
        (if plan_empty plan then Ok (buckets sv, s)
         else
           '(bk, qers, pdrs, v, _) ← applyQoS (buckets sv) (QERs s) (PDRs s) plan (qosCfg sv) now;
           Ok (bk, with_qos s qers pdrs v));
      let s2 := foldl applyFAR s1 (mr_UpdateFAR req) in
      Ok (mkServer bk (set_session (sessions sv) r s2) (reportSeq sv) (qosCfg sv),
          SessionModificationResponse (CPSEID s) seq CauseRequestAccepted [])
    end
  end.

Definition handleSessionDeletion (sv : Server) (seid seq : Z) : Server * response :=
  match find (sessions sv) seid with
  | None => (sv, SessionDeletionResponse 0 seq CauseSessionContextNotFound)
  | Some (r, s) =>
    let t := set_session (sessions sv) r (with_qos (with_ra s false) (QERs s) (PDRs s) None) in
    (mkServer (buckets sv) (delete_session t seid) (reportSeq sv) (qosCfg sv),
     SessionDeletionResponse seid seq CauseRequestAccepted)
  end.

(** [dispatch], for the session messages. *)
Inductive message :=
| MEstablish (raddr : bytes) (req : estRequest)
| MModify (seid seq : Z) (req : modRequest (IE:=IE))
| MDelete (seid seq : Z).

Definition dispatch (sv : Server) (m : message) (now wall : Z) : res (Server * response) :=
  match m with
  | MEstablish raddr req => handleSessionEstablishment sv raddr req now wall
  | MModify seid seq req => handleSessionModification sv seid seq req now
  | MDelete seid seq => Ok (handleSessionDeletion sv seid seq)
  end.

End Handlers.

(** * Usage reporting *)

Inductive trigger := VOLTH | PERIO.
#[global] Instance trigger_eq_dec : EqDecision trigger.
Proof. solve_decision. Defined.

Record report := mkReport {
  rp_seid : Z; rp_seq : Z; rp_urr : Z; rp_urSeqn : Z; rp_trigger : trigger;
  rp_total : Z; rp_ul : Z; rp_dl : Z; rp_totalPkt : Z; rp_ulPkt : Z; rp_dlPkt : Z; rp_duration : Z;
}.

(** [sent] tells whether the report with a sequence number could be marshalled and
    written to the socket; a report that could not is lost. *)
Definition emitUsageReport (sent : Z → bool) (seqs : Z) (s : Session) (tr : trigger) (wall : Z)
    : Z * Session * list report :=
  match SMFAddr s with
  | None => (seqs, s, [])
  | Some _ =>
    let u := URR s in
    let seq := u32 (seqs + 1) in
    let urSeqn := u32 (URSeqn u + 1) in
    (seq,
     with_urr s (mkURR (URRID u) (MeasureVolume u) (MeasureDuration u) (TriggerVOLTH u) (TriggerPERIO u)
       (VolumeThreshold u) (MeasurementPeriod u) (ULVolume u) (DLVolume u) (ULPackets u) (DLPackets u)
       urSeqn (LastReportedVolume u) (StartTime u) (LastPeriodicReport u) (Installed u)),
     if sent seq then
       [mkReport (CPSEID s) seq (URRID u) urSeqn tr (u64 (ULVolume u + DLVolume u)) (ULVolume u) (DLVolume u)
          (u64 (ULPackets u + DLPackets u)) (ULPackets u) (DLPackets u) (i64 (wall - StartTime u))]
     else [])
  end.

Definition volthDue (u : URRState) : bool :=
  TriggerVOLTH u && (0 <? VolumeThreshold u) &&
  (VolumeThreshold u <=? u64 (u64 (ULVolume u + DLVolume u) - LastReportedVolume u)).

Definition perioDue (u : URRState) (wall : Z) : bool :=
  TriggerPERIO u && (0 <? MeasurementPeriod u) &&
  (MeasurementPeriod u <=? i64 (wall - LastPeriodicReport u)).

(** One session of [sweepUsageReports]: the reports that are due are chosen under the
    lock of the URR, and then sent one after the other. *)
Definition dueReports (s : Session) (wall : Z) : Session * list trigger :=
  let u := URR s in
  if negb (Installed u) then (s, [])
  else
    let total := u64 (ULVolume u + DLVolume u) in
    (with_urr s (mkURR (URRID u) (MeasureVolume u) (MeasureDuration u) (TriggerVOLTH u)
      (TriggerPERIO u) (VolumeThreshold u) (MeasurementPeriod u) (ULVolume u) (DLVolume u) (ULPackets u)
      (DLPackets u) (URSeqn u) (if volthDue u then total else LastReportedVolume u) (StartTime u)
      (if perioDue u wall then wall else LastPeriodicReport u) (Installed u)),
     (if volthDue u then [VOLTH] else []) ++ (if perioDue u wall then [PERIO] else [])).

Definition sweepSession (sent : Z → bool) (seqs : Z) (s : Session) (wall : Z) : Z * Session * list report :=
  let '(s, due) := dueReports s wall in
  foldl (λ '(seqs, s, rs) tr,
    let '(seqs, s, out) := emitUsageReport sent seqs s tr wall in (seqs, s, rs ++ out)) (seqs, s, []) due.

Definition sweepUsageReports (sent : Z → bool) (sv : Server) (wall : Z) : Server * list report :=
  let '(seqs, t, rs) :=
    foldl (λ '(seqs, t, rs) '(r, s),
      let '(seqs, s', out) := sweepSession sent seqs s wall in
      (seqs, set_session t r s', rs ++ out))
      (reportSeq sv, sessions sv, []) (Snapshot (sessions sv)) in
  (mkServer (buckets sv) t seqs (qosCfg sv), rs).

(** * Consistency of the server *)

(** What must hold of one session against the bucket heap. *)
Definition session_ok (h : bheap) (s : Session) : Prop :=
  qos_ok h (QERs s) (PDRs s) ∧ ref_ok (QERs s) (PDRs s) ∧ view_ok h (qos s).

Record server_ok (sv : Server) : Prop := {
  so_heap : heap_ok (buckets sv);
  so_sessions : map_Forall (λ _ s, session_ok (buckets sv) s) (heap (sessions sv));
  so_disjoint : ∀ r1 r2 s1 s2 x1 x2 l,
    heap (sessions sv) !! r1 = Some s1 → heap (sessions sv) !! r2 = Some s2 →
    slots (QERs s1) x1 = Some l → slots (QERs s2) x2 = Some l → r1 = r2;
  so_seids : ∀ k r, bySEID (sessions sv) !! k = Some r → is_Some (heap (sessions sv) !! r);
}.

Lemma session_ok_mono h h' s :
  heap_ok h' → (∀ l, is_Some (h !! l) → is_Some (h' !! l)) → session_ok h s → session_ok h' s.
Proof. intros Hh Hd (H1 & H2 & H3). split_and!; eauto using qos_ok_mono, view_ok_mono. Qed.

Lemma slot_allocated sv r s x l :
  server_ok sv → heap (sessions sv) !! r = Some s → slots (QERs s) x = Some l → is_Some (buckets sv !! l).
Proof.
  intros Hok Hr Hx. destruct (so_sessions _ Hok r s Hr) as [Hq _].
  by eapply slots_alloc; [apply (qo_slots _ _ _ Hq)|].
Qed.

(** Writing a session whose buckets are its own or new keeps the server
    consistent; the indexes only matter through [bySEID]. *)
Lemma server_ok_write sv r s h' t' qold :
  server_ok sv → heap_ok h' →
  heap t' = <[r := s]> (heap (sessions sv)) → session_ok h' s →
  rebuilt (buckets sv) qold h' (QERs s) →
  (∀ s0, heap (sessions sv) !! r = Some s0 → qold = QERs s0) →
  (heap (sessions sv) !! r = None → ∀ x, slots qold x = None) →
  (∀ k r', bySEID t' !! k = Some r' → r' = r ∨ ∃ k', bySEID (sessions sv) !! k' = Some r') →
  server_ok (mkServer h' t' (reportSeq sv) (qosCfg sv)).
Proof.
  intros Hok Hh Ht Hs [Hdom Hsl] Hold Hnew Hidx.
  assert (Hfree : ∀ r' s' x x' l, r' ≠ r → heap (sessions sv) !! r' = Some s' →
    slots (QERs s) x = Some l → slots (QERs s') x' = Some l → False).
  { intros r' s' x x' l Hne Hr' Hx Hx'.
    destruct (slot_allocated sv r' s' x' l Hok Hr' Hx') as [b Hb].
    destruct (Hsl x l Hx) as [E|E]; [|congruence].
    destruct (heap (sessions sv) !! r) as [s0|] eqn:Er.
    - rewrite (Hold s0 eq_refl) in E. apply Hne. by eapply (so_disjoint _ Hok r' r s' s0 x' x).
    - rewrite (Hnew eq_refl) in E. done. }
  constructor; simpl; rewrite ?Ht.
  - done.
  - intros r' s'. rewrite lookup_insert_Some. intros [[<- <-]|[Hne Hr']]; [done|].
    eapply session_ok_mono; [done|exact Hdom|by apply (so_sessions _ Hok r')].
  - intros r1 r2 s1 s2 x1 x2 l. rewrite !lookup_insert_Some.
    intros [[<- <-]|[Hn1 H1]] [[<- <-]|[Hn2 H2]] E1 E2; [done|..].
    + exfalso. by eapply (Hfree r2).
    + exfalso. by eapply (Hfree r1).
    + by eapply (so_disjoint _ Hok).
  - intros k r' Hk. destruct (Hidx k r' Hk) as [->|[k' Hk']]; [by rewrite lookup_insert_eq|].
    destruct (so_seids _ Hok k' r' Hk') as [s' Hs']. rewrite lookup_insert_is_Some'. right. by eexists.
Qed.

Lemma rebuilt_refl h q : rebuilt h q h q.
Proof. constructor; auto. Qed.

Lemma find_Some t k r s : find t k = Some (r, s) → bySEID t !! k = Some r ∧ heap t !! r = Some s.
Proof.
  unfold find. destruct (bySEID t !! k) as [r'|]; simpl; [|done].
  destruct (heap t !! r') eqn:E; simpl; naive_solver.
Qed.

Section HandlerProofs.
Context {IE : Type} `{!GoPfcp IE, !GoPfcpRanges IE}.

Lemma scan_pdrs_NoDup (l : list IE) sc :
  for_each scanCreatePDR (mkScan 0 None None "" []) l = Accept sc →
  Forall (λ p, NoDup (QERIDs p)) (sc_pdrs sc).
Proof.
  apply (for_each_inv _ (λ sc, Forall (λ p, NoDup (QERIDs p)) (sc_pdrs sc))); [|constructor].
  intros a x a' Ha _ E. unfold scanCreatePDR in E. destruct (ie_CreatePDR x) as [ies|]; [|by simplify_eq].
  apply bind_Accept in E as (ps & Ep & E). injection E as <-.
  assert (Hpdi : ∀ l a, sc_pdrs (foldl (scanPDIChild (IE:=IE)) a l) = sc_pdrs a).
  { clear. induction l as [|c l IH]; intros a; simpl; [done|]. rewrite IH. unfold scanPDIChild.
    repeat case_match; done. }
  assert (Hch : ∀ l a, sc_pdrs (foldl (scanPDRChild (IE:=IE)) a l) = sc_pdrs a).
  { clear -Hpdi. induction l as [|c l IH]; intros a; simpl; [done|]. rewrite IH. unfold scanPDRChild.
    repeat case_match; done || apply Hpdi. }
  rewrite Hch. simpl. apply Forall_app. eauto using parsePDRQoS_NoDup.
Qed.

Lemma fars_rules s (l : list IE) :
  QERs (foldl applyFAR s l) = QERs s ∧ PDRs (foldl applyFAR s l) = PDRs s ∧
  qos (foldl applyFAR s l) = qos s.
Proof.
  revert s. induction l as [|x l IH]; intros s; simpl; [done|]. destruct (IH (applyFAR s x)) as (-> & -> & ->).
  unfold applyFAR. destruct (ie_UpdateFAR x) as [ies|]; [|done].
  set (f := λ s c, _). assert (Hf : ∀ l s, QERs (foldl f s l) = QERs s ∧ PDRs (foldl f s l) = PDRs s ∧
    qos (foldl f s l) = qos s).
  { clear. induction l as [|c l IH]; intros s; simpl; [done|]. destruct (IH (f s c)) as (-> & -> & ->).
    unfold f. repeat case_match; done. }
  destruct (applyAction ies); [destruct (_ =? 0)|]; auto.
Qed.

Lemma establish_ok sv raddr (req : estRequest) now wall :
  server_ok sv → is_clock now →
  ∃ sv' resp, handleSessionEstablishment sv raddr req now wall = Ok (sv', resp) ∧ server_ok sv'.
Proof.
  intros Hok Ht. unfold handleSessionEstablishment. cbv zeta.
  destruct (for_each _ _ _) as [sc|rj] eqn:Esc; [|eauto]. apply scan_pdrs_NoDup in Esc.
  destruct (establishmentQoS _ _) as [[qers pdrs]|rj] eqn:Eq; [|eauto].
  destruct (establishmentQoS_spec _ _ _ _ (buckets sv) (so_heap _ Hok) Esc Eq) as (Hq & Href & _).
  assert (Hnone : ∀ x, slots qers x = None) by (intros x; eapply establishmentQoS_slots; exact Eq).
  destruct (buildQoSView_total _ _ _ (normalized (qosCfg sv)) now Hq Ht)
    as (h' & q' & v & E & Hq' & Hsame & Hrb & Hview). rewrite E. simpl.
  eexists _, _. split; [reflexivity|].
  assert (Href' : ref_ok q' pdrs) by (unfold ref_ok; by rewrite <- (same_rules_dom _ _ Hsame)).
  set (r := fresh (dom (heap (sessions sv)))).
  assert (Hr : heap (sessions sv) !! r = None) by (apply not_elem_of_dom, is_fresh).
  pose proof (slots_heap _ _ (qo_slots _ _ _ Hq')) as Hh'.
  destruct (sc_ueIPv6 sc); (eapply (server_ok_write sv r _ h' _ qers);
    [done|done|first [apply insert_insert_eq|reflexivity]|by split_and!|done|by rewrite Hr|done|]).
  all: intros k r'; simpl; rewrite lookup_insert_Some; naive_solver.
Qed.

Lemma modify_ok sv seid seq (req : modRequest (IE:=IE)) now :
  server_ok sv → is_clock now →
  ∃ sv' resp, handleSessionModification sv seid seq req now = Ok (sv', resp) ∧ server_ok sv'.
Proof.
  intros Hok Ht. unfold handleSessionModification.
  destruct (find _ seid) as [[r s]|] eqn:Ef; [|eauto]. apply find_Some in Ef as [Hk Hr].
  destruct (so_sessions _ Hok r s Hr) as (Hq & Href & Hview).
  destruct (planModificationQoS _ _ _) as [plan|rj] eqn:Ep; [|eauto].
  assert (H1 : ∃ bk s1, (if plan_empty plan then Ok (buckets sv, s) else
      '(bk, qers, pdrs, v, _) ← applyQoS (buckets sv) (QERs s) (PDRs s) plan (qosCfg sv) now;
      Ok (bk, with_qos s qers pdrs v)) = Ok (bk, s1) ∧ session_ok bk s1 ∧
      rebuilt (buckets sv) (QERs s) bk (QERs s1)).
  { destruct (plan_empty plan) eqn:Ee.
    - exists (buckets sv), s. split_and!; auto using rebuilt_refl. by split_and!.
    - apply planModificationQoS_valid in Ep as [Ep Hv]; [|done].
      destruct (applyQoS_spec (buckets sv) (QERs s) (PDRs s) plan (qosCfg sv) now)
        as (bk & q' & p' & v & ch & E & H1 & H2 & _ & _ & H3 & H4); auto; [by eapply parsePlan_ok|].
      rewrite E. simpl. eexists _, _. split; [reflexivity|]. split; [by split_and!|done]. }
  destruct H1 as (bk & s1 & -> & (Hq1 & Href1 & Hv1) & Hrb). cbn [mbind res_bind].
  eexists _, _. split; [reflexivity|].
  destruct (fars_rules s1 (mr_UpdateFAR req)) as (EQ & EP & EV).
  eapply (server_ok_write sv r (foldl applyFAR s1 (mr_UpdateFAR req)) bk _ (QERs s)); simpl; try done.
  - apply (slots_heap _ _ (qo_slots _ _ _ Hq1)).
  - unfold session_ok. by rewrite EQ, EP, EV.
  - by rewrite EQ.
  - rewrite Hr. naive_solver.
  - by rewrite Hr.
  - eauto.
Qed.

Lemma delete_ok sv seid seq : server_ok sv → server_ok (handleSessionDeletion sv seid seq).1.
Proof.
  intros Hok. unfold handleSessionDeletion. destruct (find _ seid) as [[r s]|] eqn:Ef; [|done].
  apply find_Some in Ef as [Hk Hr]. destruct (so_sessions _ Hok r s Hr) as (Hq & Href & Hview). simpl.
  set (s' := with_qos (with_ra s false) (QERs s) (PDRs s) None).
  eapply (server_ok_write sv r s' (buckets sv) _ (QERs s));
    [done|apply Hok| |done|apply rebuilt_refl|rewrite Hr; naive_solver|by rewrite Hr|].
  - unfold delete_session. simpl. rewrite Hk. by rewrite lookup_insert_eq.
  - intros k r'. unfold delete_session. simpl. rewrite Hk, lookup_insert_eq. simpl.
    rewrite lookup_delete_Some. naive_solver.
Qed.

Lemma dispatch_ok sv (m : message (IE:=IE)) now wall :
  server_ok sv → is_clock now →
  ∃ sv' resp, dispatch sv m now wall = Ok (sv', resp) ∧ server_ok sv'.
Proof.
  intros Hok Ht. destruct m; simpl; eauto using establish_ok, modify_ok.
  eexists _, _. split; [apply f_equal; apply surjective_pairing|by apply delete_ok].
Qed.

End HandlerProofs.

(** * The lookup indexes

    An index is exact when it maps a key to precisely the live session that has
    it; a session is live when [bySEID] points to it. *)

Definition keyTEID (s : Session) : option Z := if ULTEID s =? 0 then None else Some (ULTEID s).

Definition live (t : SessionTable) (r : loc) (s : Session) : Prop :=
  heap t !! r = Some s ∧ bySEID t !! UPSEID s = Some r.

Definition exact {K} `{Countable K} (idx : gmap K loc) (key : Session → option K) (t : SessionTable) : Prop :=
  ∀ k r, idx !! k = Some r ↔ ∃ s, live t r s ∧ key s = Some k.

Record table_ok (t : SessionTable) : Prop := {
  to_seid : ∀ k r, bySEID t !! k = Some r → ∃ s, heap t !! r = Some s ∧ UPSEID s = k;
  to_teid : exact (byULTEID t) keyTEID t;
  to_v4 : exact (byUEIP t) keyV4 t;
  to_v6 : exact (byUEIPv6Net t) keyV6 t;
}.

(** The keys of a session nobody uses yet. *)
Record fresh_keys (t : SessionTable) (s : Session) : Prop := {
  fk_seid : bySEID t !! UPSEID s = None;
  fk_teid : ∀ k, keyTEID s = Some k → byULTEID t !! k = None;
  fk_v4 : ∀ k, keyV4 s = Some k → byUEIP t !! k = None;
  fk_v6 : ∀ k, keyV6 s = Some k → byUEIPv6Net t !! k = None;
}.

Section Index.
Context {K : Type} `{Countable K}.
Implicit Types (idx : gmap K loc) (key : Session → option K).

Lemma exact_store idx key t s t' r :
  exact idx key t → bySEID t !! UPSEID s = None → (∀ k, key s = Some k → idx !! k = None) →
  heap t !! r = None → (∀ k r', bySEID t !! k = Some r' → is_Some (heap t !! r')) →
  heap t' = <[r := s]> (heap t) → bySEID t' = <[UPSEID s := r]> (bySEID t) →
  exact (insert_opt (key s) r idx) key t'.
Proof.
  intros Hex Hs Hk Hr Hal Hh Hb k r'. unfold live. rewrite Hh, Hb.
  assert (Hlk : insert_opt (key s) r idx !! k = if decide (key s = Some k) then Some r else idx !! k).
  { unfold insert_opt. destruct (key s) as [k0|].
    - destruct (decide (k0 = k)) as [->|]; [by rewrite lookup_insert_eq, decide_True|].
      by rewrite lookup_insert_ne, decide_False by congruence.
    - by rewrite decide_False. }
  rewrite Hlk. split.
  - case_decide as E.
    + intros [= <-]. exists s. by rewrite !lookup_insert_eq.
    + intros (s' & [H1 H2] & H3)%Hex. exists s'. rewrite lookup_insert_ne by congruence.
      by rewrite lookup_insert_ne by congruence.
  - intros (s' & [H1 H2] & H3). apply lookup_insert_Some in H1 as [[<- <-]|[Hne H1]].
    + by rewrite decide_True.
    + apply lookup_insert_Some in H2 as [[_ ?]|[_ H2]]; [done|].
      rewrite decide_False; [apply Hex; by exists s'|].
      intros E. specialize (Hk k E). assert (idx !! k = Some r') by (apply Hex; by exists s'). congruence.
Qed.

Lemma exact_delete idx key t s r t' :
  exact idx key t → live t r s → heap t' = heap t → bySEID t' = delete (UPSEID s) (bySEID t) →
  exact (delete_opt (key s) idx) key t'.
Proof.
  intros Hex [Hr Hs] Hh Hb k r'. unfold live. rewrite Hh, Hb.
  assert (Hlk : delete_opt (key s) idx !! k = if decide (key s = Some k) then None else idx !! k).
  { unfold delete_opt. destruct (key s) as [k0|].
    - destruct (decide (k0 = k)) as [->|]; [by rewrite lookup_delete_eq, decide_True|].
      by rewrite lookup_delete_ne, decide_False by congruence.
    - by rewrite decide_False. }
  rewrite Hlk. split.
  - case_decide as E; [done|]. intros (s' & [H1 H2] & H3)%Hex. exists s'. split_and!; [done| |done].
    rewrite lookup_delete_ne; [done|]. intros Eu. congruence.
  - intros (s' & [H1 H2] & H3). apply lookup_delete_Some in H2 as [Hne H2].
    assert (Hi : idx !! k = Some r') by (apply Hex; by exists s').
    rewrite decide_False; [done|]. intros E.
    assert (Hi' : idx !! k = Some r) by (apply Hex; by exists s). congruence.
Qed.

Lemma exact_set idx key t r s s' :
  exact idx key t → heap t !! r = Some s → key s' = key s → UPSEID s' = UPSEID s →
  exact idx key (set_session t r s').
Proof.
  intros Hex Hr Hk Hu k r'. rewrite (Hex k r'). unfold live, set_session. simpl. split.
  - intros (s0 & [H1 H2] & H3). destruct (decide (r' = r)) as [->|].
    + simplify_eq. exists s'. rewrite lookup_insert_eq. by rewrite Hu, Hk.
    + exists s0. by rewrite lookup_insert_ne.
  - intros (s0 & [H1 H2] & H3). apply lookup_insert_Some in H1 as [[<- <-]|[? H1]].
    + exists s. by rewrite <- Hu, <- Hk.
    + by exists s0.
Qed.

End Index.

Lemma store_table_ok t s : table_ok t → fresh_keys t s → table_ok (store t s).1.
Proof.
  intros [H1 H2 H3 H4] [F1 F2 F3 F4]. unfold store. cbv zeta. cbn [fst].
  set (r := fresh (dom (heap t))).
  assert (Hr : heap t !! r = None) by (apply not_elem_of_dom, is_fresh).
  assert (Hal : ∀ k r', bySEID t !! k = Some r' → is_Some (heap t !! r')).
  { intros k r' Hk. destruct (H1 k r' Hk) as (s' & E & _). by eexists. }
  constructor; cbn [heap bySEID byULTEID byUEIP byUEIPv6Net].
  - intros k r' [[<- <-]|[Hne Hk]]%lookup_insert_Some; [exists s; by rewrite lookup_insert_eq|].
    destruct (H1 k r' Hk) as (s' & E & Eu). exists s'. rewrite lookup_insert_ne by congruence. done.
  - replace (if negb (ULTEID s =? 0) then <[ULTEID s := r]> (byULTEID t) else byULTEID t)
      with (insert_opt (keyTEID s) r (byULTEID t)) by (unfold keyTEID; by destruct (ULTEID s =? 0)).
    by eapply (exact_store _ _ t s).
  - by eapply (exact_store _ _ t s).
  - by eapply (exact_store _ _ t s).
Qed.

Lemma delete_table_ok t k : table_ok t → table_ok (delete_session t k).
Proof.
  intros [H1 H2 H3 H4]. unfold delete_session. destruct (bySEID t !! k) as [r|] eqn:Ek; [|done].
  destruct (H1 k r Ek) as (s & Hr & <-). rewrite Hr. assert (Hl : live t r s) by done.
  constructor; cbn [heap bySEID byULTEID byUEIP byUEIPv6Net].
  - intros k' r' [Hne Hk']%lookup_delete_Some. by apply H1.
  - assert (Hd : delete (ULTEID s) (byULTEID t) = delete_opt (keyTEID s) (byULTEID t)).
    { unfold keyTEID. destruct (Z.eqb_spec (ULTEID s) 0) as [E|]; [|done]. simpl.
      apply delete_id. destruct (byULTEID t !! ULTEID s) as [r'|] eqn:Er; [|done].
      apply H2 in Er as (s' & _ & Es). unfold keyTEID in Es. rewrite E in Es.
      destruct (Z.eqb_spec (ULTEID s') 0); congruence. }
    rewrite Hd. by eapply (exact_delete _ _ t s r).
  - by eapply (exact_delete _ _ t s r).
  - by eapply (exact_delete _ _ t s r).
Qed.

(** Sessions keep their keys when a handler rewrites them. *)
Definition same_keys (s s' : Session) : Prop :=
  UPSEID s' = UPSEID s ∧ ULTEID s' = ULTEID s ∧ UEIP s' = UEIP s ∧ UEIPv6 s' = UEIPv6 s.

Lemma set_table_ok t r s s' :
  table_ok t → heap t !! r = Some s → same_keys s s' → table_ok (set_session t r s').
Proof.
  intros [H1 H2 H3 H4] Hr (Eu & Et & E4 & E6).
  constructor; unfold set_session; cbn [heap bySEID byULTEID byUEIP byUEIPv6Net].
  - intros k r' Hk. destruct (H1 k r' Hk) as (s0 & Hr' & <-). destruct (decide (r' = r)) as [->|].
    + simplify_eq. exists s'. by rewrite lookup_insert_eq.
    + exists s0. by rewrite lookup_insert_ne.
  - eapply (exact_set _ _ t r s s'); try done. unfold keyTEID. by rewrite Et.
  - eapply (exact_set _ _ t r s s'); try done. unfold keyV4. by rewrite E4.
  - eapply (exact_set _ _ t r s s'); try done. unfold keyV6. by rewrite E6.
Qed.

(** * Runs of the server: control plane and datapath interleaved *)

Section Runs.
Context {IE : Type} `{!GoPfcp IE, !GoPfcpRanges IE}.

(** A PFCP message, or a packet policed on a session of the heap (also one the
    datapath still holds after its deletion). *)
Inductive event :=
| EMessage (m : message (IE:=IE)) (now wall : Z)
| EUplink (r : loc) (n now : Z)
| EDownlink (r : loc) (n now : Z).

Definition event_ok (e : event) : Prop :=
  match e with
  | EMessage _ now _ => is_clock now
  | EUplink _ n now | EDownlink _ n now => is_len n ∧ is_clock now
  end.

Definition with_buckets (sv : Server) (h : bheap) : Server :=
  mkServer h (sessions sv) (reportSeq sv) (qosCfg sv).

Definition step_event (sv : Server) (e : event) : res Server :=
  match e with
  | EMessage m now wall => '(sv, _) ← dispatch sv m now wall; Ok sv
  | EUplink r n now =>
    match heap (sessions sv) !! r with
    | None => Ok sv
    | Some s => '(h, _) ← AdmitUL (buckets sv) (qos s) n now; Ok (with_buckets sv h)
    end
  | EDownlink r n now =>
    match heap (sessions sv) !! r with
    | None => Ok sv
    | Some s => '(h, _) ← AdmitDL (buckets sv) (qos s) n now; Ok (with_buckets sv h)
    end
  end.

Fixpoint run_events (sv : Server) (l : list event) : res Server :=
  match l with [] => Ok sv | e :: l' => sv ← step_event sv e; run_events sv l' end.

Lemma server_ok_buckets sv h' :
  server_ok sv → heap_ok h' → (∀ l, is_Some (buckets sv !! l) → is_Some (h' !! l)) →
  server_ok (with_buckets sv h').
Proof.
  intros [H1 H2 H3 H4] Hh Hd. constructor; simpl; auto.
  eapply map_Forall_impl; [exact H2|]. intros r s. by apply session_ok_mono.
Qed.

Lemma admit_keeps sv d n now :
  server_ok sv → dir_ok (buckets sv) d → is_len n → is_clock now →
  ∃ h' x, dirView_admit (buckets sv) d n now = Ok (h', x) ∧ server_ok (with_buckets sv h').
Proof.
  intros Hok Hd Hn Ht.
  destruct (dirView_admit_spec (buckets sv) d n now (so_heap _ Hok) Hd Hn Ht) as (h' & ok & r & E & _ & H2 & H3).
  exists h', (ok, r). split; [done|]. destruct ok.
  - destruct (H2 eq_refl) as [_ Hc]. apply server_ok_buckets; [done|by eapply charged_ok, Hc; auto; apply Hok|].
    intros l [b Hb]. rewrite (Hc l), Hb. case_decide; by eexists.
  - destruct (H3 eq_refl) as [_ Hc]. apply server_ok_buckets; [done|by eapply same_credit_ok, Hc; auto; apply Hok|].
    intros l [b Hb]. specialize (Hc l). rewrite Hb in Hc. inversion Hc. by eexists.
Qed.

Lemma step_event_ok sv e : server_ok sv → event_ok e → ∃ sv', step_event sv e = Ok sv' ∧ server_ok sv'.
Proof.
  intros Hok He. destruct e as [m now wall|r n now|r n now]; simpl in *.
  - destruct (dispatch_ok sv m now wall Hok He) as (sv' & resp & E & Hok'). rewrite E. simpl. eauto.
  - destruct (heap (sessions sv) !! r) as [s|] eqn:Er; [|eauto].
    destruct (so_sessions _ Hok r s Er) as (_ & _ & Hv). destruct He as [Hn Ht].
    unfold AdmitUL. destruct (qos s) as [v|]; simpl in *.
    + destruct (admit_keeps sv (v_ul v) n now) as (h' & x & E & ?); [done|tauto|done|done|].
      rewrite E. destruct x. simpl. eauto.
    + eexists. split; [reflexivity|]. by destruct sv.
  - destruct (heap (sessions sv) !! r) as [s|] eqn:Er; [|eauto].
    destruct (so_sessions _ Hok r s Er) as (_ & _ & Hv). destruct He as [Hn Ht].
    unfold AdmitDL. destruct (qos s) as [v|]; simpl in *.
    + destruct (admit_keeps sv (v_dl v) n now) as (h' & x & E & ?); [done|tauto|done|done|].
      rewrite E. destruct x. simpl. eauto.
    + eexists. split; [reflexivity|]. by destruct sv.
Qed.

End Runs.

Definition initServer (cfg : QoSConfig) : Server := mkServer ∅ NewSessionTable 0 (normalized cfg).

Lemma initServer_ok cfg : server_ok (initServer cfg).
Proof. constructor; simpl; try done. Qed.

(** * The properties of the PFCP server *)

(** From the empty server, any interleaving of PFCP session messages and
    policed packets, whatever the messages contain, runs without a run-time
    panic and leaves the server consistent: each bucket belongs to one rule of
    one session and is well formed, every PDR refers to existing QERs, and every
    published snapshot refers to distinct, allocated buckets. *)
Lemma pfcp_server_never_panics {IE} `{!GoPfcp IE, !GoPfcpRanges IE} cfg (l : list (event (IE:=IE))) :
  Forall event_ok l → ∃ sv, run_events (initServer cfg) l = Ok sv ∧ server_ok sv.
Proof.
  intros Hl. generalize (initServer cfg), (initServer_ok cfg).
  induction Hl as [|e l He _ IH]; intros sv Hok; simpl; [eauto|].
  destruct (step_event_ok sv e Hok He) as (sv' & E & Hok'). rewrite E. simpl. by apply IH.
Qed.

Definition demo_establish : message (IE:=PfcpTree.tie) :=
  MEstablish [10; 0; 0; 9]
    (mkEstRequest 1 (Some (PfcpTree.leaf TFSEID [77]))
      [PfcpTree.group TCreatePDR
        [PfcpTree.leaf TPDRID [1]; PfcpTree.leaf TQERID [1];
         PfcpTree.group TPDI [PfcpTree.leaf TFTEID [4096]; PfcpTree.leaf TUEIPAddress [10; 60; 0; 2]]]]
      [PfcpTree.group TCreateQER [PfcpTree.leaf TQERID [1]; PfcpTree.leaf TMBR [128; 128]]] []).

(** The cause a response carries. *)
Definition cause_of (r : response) : Cause :=
  match r with
  | SessionEstablishmentResponse _ _ c _ | SessionModificationResponse _ _ c _
  | SessionDeletionResponse _ _ c => c
  end.

(** C31: a refused request changes nothing: whenever the server answers a session
    message with a cause other than Request accepted, its whole state (sessions,
    indexes, rules, buckets) is the one it had before. *)
Theorem refused_request_no_effect {IE} `{!GoPfcp IE} sv (m : message (IE:=IE)) now wall sv' resp :
  dispatch sv m now wall = Ok (sv', resp) → cause_of resp ≠ CauseRequestAccepted → sv' = sv.
Proof.
  destruct m as [raddr req|seid seq req|seid seq]; simpl.
  - unfold handleSessionEstablishment. cbv zeta.
    destruct (for_each _ _ _) as [sc|rj]; [|intros; by simplify_eq].
    destruct (establishmentQoS _ _) as [[qers pdrs]|rj]; [|intros; by simplify_eq].
    destruct (buildQoSView _ _ _ _ _) as [[[h q] v]| | |]; simpl; try done.
    intros [= <- <-]. by simpl.
  - unfold handleSessionModification. destruct (find _ seid) as [[r s]|]; [|intros; by simplify_eq].
    destruct (planModificationQoS _ _ _) as [plan|rj]; [|intros; by simplify_eq].
    destruct (if plan_empty plan then _ else _) as [[bk s1]| | |]; simpl; try done.
    intros [= <- <-]. by simpl.
  - unfold handleSessionDeletion. destruct (find _ seid) as [[r s]|]; intros [= <- <-]; by simpl.
Qed.

Lemma refused_request_no_effect_witness :
  ∃ sv resp, dispatch sv (MModify 77 3 PfcpTree.dangling_request) 0 0 = Ok (sv, resp) ∧
    cause_of resp = CauseRuleCreationModificationFailure.
Proof.
  destruct (dispatch (initServer (mkQoSConfig false 100)) demo_establish 0 0) as [[sv r0]| | |] eqn:E;
    [|vm_compute in E; discriminate|vm_compute in E; discriminate|vm_compute in E; discriminate].
  exists sv.
  destruct (dispatch sv (MModify 77 3 PfcpTree.dangling_request) 0 0) as [[sv' resp]| | |] eqn:E2;
    [|exfalso; vm_compute in E; injection E as <- <-; vm_compute in E2; discriminate..].
  assert (Hc : cause_of resp = CauseRuleCreationModificationFailure).
  { vm_compute in E. injection E as <- <-. vm_compute in E2. by injection E2 as <- <-. }
  assert (sv' = sv) as ->.
  { apply (refused_request_no_effect _ _ _ _ _ _ E2). by rewrite Hc. }
  exists resp. split; [reflexivity|exact Hc].
Defined.

Lemma live_GetByULTEID t r s : table_ok t → live t r s → ULTEID s ≠ 0 → GetByULTEID t (ULTEID s) = Some s.
Proof.
  intros Hok Hl Hne. unfold GetByULTEID.
  assert (E : byULTEID t !! ULTEID s = Some r).
  { apply (to_teid _ Hok). exists s. split; [done|]. unfold keyTEID. by destruct (Z.eqb_spec (ULTEID s) 0). }
  rewrite E. simpl. apply Hl.
Qed.

Lemma live_GetByUEIP t r s ip :
  table_ok t → live t r s → UEIP s = Some ip → (0 < length ip)%nat → is_Some (ueAddr ip) → GetByUEIP t ip = Some s.
Proof.
  intros Hok Hl Hip Hlen [a Ha]. unfold GetByUEIP. rewrite Ha. simpl.
  assert (E : byUEIP t !! a = Some r).
  { apply (to_v4 _ Hok). exists s. split; [done|]. unfold keyV4. rewrite Hip. simpl.
    by destruct (Nat.ltb_spec 0 (length ip)); [|lia]. }
  rewrite E. simpl. apply Hl.
Qed.

(** With keys no live session uses, storing a session makes every index
    exact again: the uplink TEID and the UE address reach the new session, and a
    key reaches a session exactly when that session is live and has the key, so
    no other session became unreachable. *)
Lemma store_lookup t s :
  table_ok t → fresh_keys t s →
  table_ok (store t s).1 ∧
  (ULTEID s ≠ 0 → GetByULTEID (store t s).1 (ULTEID s) = Some s) ∧
  (∀ ip, UEIP s = Some ip → (0 < length ip)%nat → is_Some (ueAddr ip) →
    GetByUEIP (store t s).1 ip = Some s) ∧
  (∀ r s', live t r s' → live (store t s).1 r s').
Proof.
  intros Hok Hf. pose proof (store_table_ok t s Hok Hf) as Hok'.
  assert (Hl : live (store t s).1 (store t s).2 s) by (split; simpl; apply lookup_insert_eq).
  split_and!; [done|by eapply live_GetByULTEID|by intros; eapply live_GetByUEIP|].
  intros r s' [H1 H2]. split; simpl.
  - rewrite lookup_insert_ne; [done|]. intros <-.
    assert (heap t !! fresh (dom (heap t)) = None) by (apply not_elem_of_dom, is_fresh). congruence.
  - rewrite lookup_insert_ne; [done|]. intros E. pose proof (fk_seid _ _ Hf). congruence.
Qed.

Definition demo_session (seid teid : Z) (ip : bytes) : Session :=
  mkSession seid seid teid (Some ip) None 0 None "internet" None ∅ ∅ None noURR false.

Lemma empty_table_ok : table_ok NewSessionTable.
Proof. constructor; [done|..]; intros k r; split; [done|intros (s & [? ?] & ?); done|done|intros (s & [? ?] & ?); done|done|intros (s & [? ?] & ?); done]. Qed.

(** Deleting a session removes it from every index and leaves the lookups
    of all other live sessions exact. *)
Lemma delete_lookup t r s :
  table_ok t → live t r s →
  let t' := delete_session t (UPSEID s) in
  table_ok t' ∧ find t' (UPSEID s) = None ∧ GetByULTEID t' (ULTEID s) = None ∧
  (∀ ip, UEIP s = Some ip → (0 < length ip)%nat → GetByUEIP t' ip = None) ∧
  (∀ r' s', live t r' s' → r' ≠ r → live t' r' s').
Proof.
  intros Hok [Hr Hs] t'. pose proof (delete_table_ok t (UPSEID s) Hok) as Hok'. fold t' in Hok'.
  assert (Et : t' = mkTable (heap t) (delete (UPSEID s) (bySEID t)) (delete (ULTEID s) (byULTEID t))
    (delete_opt (keyV4 s) (byUEIP t)) (delete_opt (keyV6 s) (byUEIPv6Net t))).
  { unfold t', delete_session. by rewrite Hs, Hr. }
  split_and!; [done|..]; rewrite Et.
  - unfold find. simpl. by rewrite lookup_delete_eq.
  - unfold GetByULTEID. simpl. by rewrite lookup_delete_eq.
  - intros ip Hip Hlen. unfold GetByUEIP, keyV4. rewrite Hip. simpl.
    destruct (Nat.ltb_spec 0 (length ip)); [|lia]. destruct (ueAddr ip) as [a|]; simpl; [|done].
    by rewrite lookup_delete_eq.
  - intros r' s' [H1 H2] Hne. split; simpl; [done|]. rewrite lookup_delete_ne; [done|]. congruence.
Qed.

Lemma far_keys s {IE} `{!GoPfcp IE} (l : list IE) : same_keys s (foldl applyFAR s l).
Proof.
  revert s. induction l as [|x l IH]; intros s; simpl; [done|].
  assert (H : same_keys s (applyFAR s x)).
  { unfold applyFAR. destruct (ie_UpdateFAR x) as [ies|]; [|done]. cbv zeta.
    set (f := λ s c, _). assert (Hf : ∀ l s, same_keys s (foldl f s l)).
    { clear. induction l as [|c l IH]; intros s; simpl; [done|]. specialize (IH (f s c)).
      assert (same_keys s (f s c)) by (unfold f; repeat case_match; done).
      unfold same_keys in *. naive_solver congruence. }
    destruct (applyAction ies); [destruct (_ =? 0)|]; done || apply Hf. }
  specialize (IH (applyFAR s x)). unfold same_keys in *. naive_solver congruence.
Qed.

(** Session Modification and Session Deletion keep the four lookup indexes
    exact, whatever the request carries: rules and tunnels are rewritten in
    place, a session never moves to another key, and a deleted session leaves
    no key behind. *)
Lemma handlers_keep_indexes {IE} `{!GoPfcp IE} sv (m : message (IE:=IE)) now wall sv' resp :
  table_ok (sessions sv) → (∀ raddr req, m ≠ MEstablish raddr req) →
  dispatch sv m now wall = Ok (sv', resp) → table_ok (sessions sv').
Proof.
  intros Hok Hm. destruct m as [raddr req|seid seq req|seid seq]; [by destruct (Hm raddr req)|..]; simpl.
  - unfold handleSessionModification. destruct (find _ seid) as [[r s]|] eqn:Ef; [|intros; by simplify_eq].
    apply find_Some in Ef as [_ Hr].
    destruct (planModificationQoS _ _ _) as [plan|rj]; [|intros; by simplify_eq].
    destruct (if plan_empty plan then _ else _) as [[bk s1]| | |] eqn:E; try done. intros [= <- <-]. simpl.
    assert (H1 : same_keys s s1).
    { destruct (plan_empty plan); [by simplify_eq|].
      destruct (applyQoS _ _ _ _ _ _) as [[[[[? ?] ?] ?] ?]| | |]; simpl in E; by simplify_eq. }
    eapply set_table_ok; [done|exact Hr|]. pose proof (far_keys s1 (mr_UpdateFAR req)).
    unfold same_keys in *. naive_solver congruence.
  - unfold handleSessionDeletion. destruct (find _ seid) as [[r s]|] eqn:Ef; intros [= <- <-]; [|done]. simpl.
    apply find_Some in Ef as [_ Hr]. apply delete_table_ok. by eapply set_table_ok.
Qed.

(** Establishing a session again under the SEID of a live one, with another
    uplink TEID, leaves the old session reachable: even after that SEID is
    deleted, the old TEID still leads to the old session object. *)
Lemma reestablished_teid_stays t s1 s2 :
  ULTEID s1 ≠ 0 → UPSEID s2 = UPSEID s1 → ULTEID s2 ≠ ULTEID s1 →
  let t2 := (store (store t s1).1 s2).1 in
  let t3 := delete_session t2 (UPSEID s2) in
  find t3 (UPSEID s1) = None ∧ GetByULTEID t3 (ULTEID s1) = Some s1.
Proof.
  intros H0 Hs Hne. cbv zeta. set (t1 := (store t s1).1).
  set (r1 := fresh (dom (heap t))). set (r2 := fresh (dom (heap t1))).
  assert (Hr : heap t1 !! r2 = None) by (apply not_elem_of_dom, is_fresh).
  assert (H1 : heap t1 !! r1 = Some s1) by (simpl; apply lookup_insert_eq).
  assert (Ht1 : byULTEID t1 !! ULTEID s1 = Some r1).
  { simpl. destruct (Z.eqb_spec (ULTEID s1) 0); [done|]. simpl. apply lookup_insert_eq. }
  unfold delete_session. cbn [store fst heap bySEID byULTEID byUEIP byUEIPv6Net]. fold r2.
  rewrite !lookup_insert_eq. unfold find, GetByULTEID. cbn [heap bySEID byULTEID].
  rewrite Hs, lookup_delete_eq. split; [done|].
  rewrite lookup_delete_ne by done.
  assert (E : (if negb (ULTEID s2 =? 0) then <[ULTEID s2 := r2]> (byULTEID t1) else byULTEID t1) !! ULTEID s1
    = Some r1) by (destruct (negb _); [by rewrite lookup_insert_ne|done]).
  rewrite E. simpl. rewrite lookup_insert_ne; [done|]. congruence.
Qed.

(** * Usage reports of one session over time *)

(** The forwarding goroutines count packets while the goroutine of the sweep chooses
    the reports that are due and then sends them one by one: [UEmit] sends the next one,
    with the sequence counter that the reports of other sessions have left. *)
Inductive usage_event :=
| UUplink (n : Z)
| UDownlink (n : Z)
| USelect (wall : Z)
| UEmit (seqs : Z) (sent : bool) (wall : Z).

Record usage := mkUsage { us_session : Session; us_due : list trigger; us_reports : list report }.

Definition usage_step (st : usage) (e : usage_event) : usage :=
  match e with
  | UUplink n => mkUsage (AddULVolume (us_session st) n) (us_due st) (us_reports st)
  | UDownlink n => mkUsage (AddDLVolume (us_session st) n) (us_due st) (us_reports st)
  | USelect wall =>
      match us_due st with
      | [] => let '(s, due) := dueReports (us_session st) wall in mkUsage s due (us_reports st)
      | _ => st
      end
  | UEmit seqs sent wall =>
      match us_due st with
      | [] => st
      | tr :: due =>
          let '(_, s, out) := emitUsageReport (λ _, sent) seqs (us_session st) tr wall in
          mkUsage s due (us_reports st ++ out)
      end
  end.
Definition usage_run (s : Session) (l : list usage_event) : usage := foldl usage_step (mkUsage s [] []) l.

Definition ul_octets (l : list usage_event) : Z :=
  foldr (λ e v, match e with UUplink n => Z.max 0 n | _ => 0 end + v) 0 l.
Definition dl_octets (l : list usage_event) : Z :=
  foldr (λ e v, match e with UDownlink n => Z.max 0 n | _ => 0 end + v) 0 l.
Definition volume (l : list usage_event) : Z := ul_octets l + dl_octets l.
Definition all_sent (l : list usage_event) : Prop :=
  Forall (λ e, match e with UEmit _ sent _ => sent = true | _ => True end) l.

Definition volth_reports (rs : list report) : list report := filter (λ r, rp_trigger r = VOLTH) rs.
(** What the SMF knows from the volume threshold reports: the total of the last one. *)
Definition reported (rs : list report) : Z := default 0 (rp_total <$> list.last (volth_reports rs)).

(** A sweep that runs alone is the choice and the sending of what it chose. *)
Lemma sweepSession_steps sent seqs s wall rs :
  ∃ l, foldl usage_step (mkUsage s [] rs) (USelect wall :: l)
       = mkUsage (sweepSession sent seqs s wall).1.2 [] (rs ++ (sweepSession sent seqs s wall).2).
Proof.
  unfold sweepSession. cbn [foldl usage_step us_due us_session us_reports].
  destruct (dueReports s wall) as [s1 due]. cbn [foldl].
  assert (∀ rs0 rs1, rs ++ rs0 = rs1 → ∃ l, foldl usage_step (mkUsage s1 due rs1) l
    = let st := foldl (λ '(seqs, s, rs) tr,
        let '(seqs, s, out) := emitUsageReport sent seqs s tr wall in (seqs, s, rs ++ out)) (seqs, s1, rs0) due in
      mkUsage st.1.2 [] (rs ++ st.2)) as H; [|apply H, app_nil_r].
  revert seqs s1. induction due as [|tr due IH]; intros seqs s1 rs0 rs1 <-; [by exists []|].
  cbn [foldl]. destruct (emitUsageReport sent seqs s1 tr wall) as [[q s2] out] eqn:E.
  destruct (IH q s2 (rs0 ++ out) ((rs ++ rs0) ++ out) ltac:(by rewrite app_assoc)) as [l Hl].
  exists (UEmit seqs (sent (u32 (seqs + 1))) wall :: l). cbn [foldl usage_step us_due us_session us_reports].
  assert (emitUsageReport (λ _, sent (u32 (seqs + 1))) seqs s1 tr wall = (q, s2, out)) as -> by exact E.
  exact Hl.
Qed.

(** A report that was sent in the course of [l], with the traffic counted until then. *)
Definition report_of (l : list usage_event) (r : report) : Prop :=
  ∃ l1 q w l2, l = l1 ++ UEmit q true w :: l2 ∧ rp_total r = volume l1 ∧
    rp_ul r = ul_octets l1 ∧ rp_dl r = dl_octets l1.

(** The invariant, after the events [l]: the counters hold the traffic and nothing has
    wrapped; each volume threshold report, sent or still to be sent, has a threshold of
    traffic of its own. *)
Record usage_ok (T : Z) (l : list usage_event) (st : usage) : Prop := {
  uo_installed : Installed (URR (us_session st)) = true;
  uo_trigger : TriggerVOLTH (URR (us_session st)) = true;
  uo_threshold : VolumeThreshold (URR (us_session st)) = T;
  uo_smf : is_Some (SMFAddr (us_session st));
  uo_ul : ULVolume (URR (us_session st)) = ul_octets l;
  uo_dl : DLVolume (URR (us_session st)) = dl_octets l;
  uo_last : 0 <= LastReportedVolume (URR (us_session st)) <= volume l;
  uo_count : T * (Z.of_nat (length (volth_reports (us_reports st)))
                  + Z.of_nat (length (filter (λ tr, tr = VOLTH) (us_due st))))
             <= LastReportedVolume (URR (us_session st));
  uo_reports : Forall (report_of l) (us_reports st);
  uo_reported : all_sent l → VOLTH ∉ us_due st →
                LastReportedVolume (URR (us_session st)) <= reported (us_reports st);
}.

Lemma octets_nonneg l : 0 <= ul_octets l ∧ 0 <= dl_octets l.
Proof. induction l as [|e l [IH1 IH2]]; simpl; [lia|]. destruct e; simpl in *; lia. Qed.

Lemma octets_app l l' :
  ul_octets (l ++ l') = ul_octets l + ul_octets l' ∧ dl_octets (l ++ l') = dl_octets l + dl_octets l'.
Proof. induction l as [|e l [IH1 IH2]]; simpl; [lia|]. rewrite IH1, IH2. lia. Qed.

Lemma volume_snoc l e : volume (l ++ [e]) =
  volume l + match e with UUplink n | UDownlink n => Z.max 0 n | _ => 0 end.
Proof. unfold volume. destruct (octets_app l [e]) as [-> ->]. destruct e; simpl; lia. Qed.

Lemma reported_snoc rs r : reported (rs ++ [r]) = match rp_trigger r with VOLTH => rp_total r | PERIO => reported rs end.
Proof.
  unfold reported, volth_reports. rewrite filter_app. destruct (rp_trigger r) eqn:E.
  - rewrite filter_cons_True, filter_nil by done. by rewrite last_snoc.
  - rewrite filter_cons_False, filter_nil by congruence. by rewrite app_nil_r.
Qed.

Lemma reports_later l e rs : Forall (report_of l) rs → Forall (report_of (l ++ [e])) rs.
Proof.
  intros H. eapply Forall_impl; [exact H|]. intros r (l1 & q & w & l2 & -> & Hr).
  exists l1, q, w, (l2 ++ [e]). by rewrite <- app_assoc.
Qed.

Lemma add_usage_ok T l st e n :
  e = UUplink n ∨ e = UDownlink n → volume (l ++ [e]) < 18446744073709551616 → usage_ok T l st →
  usage_ok T (l ++ [e]) (usage_step st e).
Proof.
  intros He Hv [Hi Htr Hth Hsmf Hul Hdl Hlast Hc Hr Hrep]. pose proof (octets_nonneg l) as [? ?].
  rewrite volume_snoc in Hv. unfold volume in *. destruct (octets_app l [e]) as [Eu Ed].
  assert (Hs : all_sent (l ++ [e]) → all_sent l) by (intros H'; by apply Forall_app in H' as [? _]).
  destruct He as [-> | ->]; cbn [usage_step]; unfold AddULVolume, AddDLVolume; rewrite Hi, orb_false_r;
    destruct (Z.leb_spec n 0);
    (constructor; cbn [us_session us_due us_reports URR with_urr] in *; simpl in *; auto;
     rewrite ?(u64_small n), ?u64_small by (unfold is_u64; lia); unfold volume in *;
     try lia; by apply reports_later).
Qed.

Lemma select_usage_ok T l st wall :
  0 < T → volume l < 18446744073709551616 → usage_ok T l st →
  usage_ok T (l ++ [USelect wall]) (usage_step st (USelect wall)) ∧
  (us_due st = [] → volume l - LastReportedVolume (URR (us_session (usage_step st (USelect wall)))) < T).
Proof.
  intros HT Hv [Hi Htr Hth Hsmf Hul Hdl Hlast Hc Hr Hrep]. pose proof (octets_nonneg l) as [? ?].
  destruct (octets_app l [USelect wall]) as [Eu Ed]. simpl in Eu, Ed.
  assert (Hs : all_sent (l ++ [USelect wall]) → all_sent l) by (intros H'; by apply Forall_app in H' as [? _]).
  destruct st as [s due rs]. cbn [usage_step us_session us_due us_reports] in *. destruct due as [|tr due].
  2:{ split; [|done]. constructor; cbn [us_session us_due us_reports]; unfold volume in *; auto; try lia.
      by apply reports_later. }
  unfold dueReports. rewrite Hi. cbn [negb].
  assert (Hu : u64 (ULVolume (URR s) + DLVolume (URR s)) = volume l).
  { rewrite Hul, Hdl. apply u64_small. unfold is_u64, volume in *. lia. }
  assert (Hd : volthDue (URR s) = (T <=? volume l - LastReportedVolume (URR s))).
  { unfold volthDue. rewrite Htr, Hth, Hu, (proj2 (Z.ltb_lt 0 T)) by lia. simpl.
    by rewrite u64_small by (unfold is_u64; lia). }
  rewrite Hu, Hd. rewrite filter_nil in Hc. change (length (@nil trigger)) with 0%nat in Hc. destruct (Z.leb_spec T (volume l - LastReportedVolume (URR s))).
  - split; [|cbn; lia]. assert (volume (l ++ [USelect wall]) = volume l) as Ev by (rewrite volume_snoc; lia).
    constructor; cbn [us_session us_due us_reports]; auto; try (cbn; rewrite ?Ev; lia).
    + assert (length (filter (λ tr, tr = VOLTH) ([VOLTH] ++ if perioDue (URR s) wall then [PERIO] else [])) = 1%nat)
        as -> by by destruct (perioDue _ _). cbn [with_urr URR LastReportedVolume]. lia.
    + by apply reports_later.
    + intros _ Hn. destruct Hn. left.
  - split; [|cbn; lia]. assert (volume (l ++ [USelect wall]) = volume l) as Ev by (rewrite volume_snoc; lia).
    constructor; cbn [us_session us_due us_reports]; auto; try (cbn; rewrite ?Ev; lia).
    + assert (length (filter (λ tr, tr = VOLTH) ([] ++ if perioDue (URR s) wall then [PERIO] else [])) = 0%nat)
        as -> by by destruct (perioDue _ _). cbn [with_urr URR LastReportedVolume]. lia.
    + by apply reports_later.
    + intros Ha _. apply Hrep; [auto|by apply not_elem_of_nil].
Qed.

Lemma emit_usage_ok T l st q sent wall :
  0 < T → volume l < 18446744073709551616 → usage_ok T l st →
  usage_ok T (l ++ [UEmit q sent wall]) (usage_step st (UEmit q sent wall)).
Proof.
  intros HT Hv [Hi Htr Hth Hsmf Hul Hdl Hlast Hc Hr Hrep]. pose proof (octets_nonneg l) as [? ?].
  destruct (octets_app l [UEmit q sent wall]) as [Eu Ed]. simpl in Eu, Ed.
  assert (volume (l ++ [UEmit q sent wall]) = volume l) as Ev by (rewrite volume_snoc; lia).
  assert (Hs : all_sent (l ++ [UEmit q sent wall]) → all_sent l ∧ sent = true).
  { intros H'. apply Forall_app in H' as [? [? _]%Forall_cons]. done. }
  destruct st as [s due rs]. cbn [usage_step us_session us_due us_reports] in *. destruct due as [|tr due].
  { constructor; cbn [us_session us_due us_reports]; rewrite ?Ev; auto; try lia; [by apply reports_later|].
    intros Ha. apply Hrep. by apply Hs. }
  unfold emitUsageReport. destruct Hsmf as [a Ea]. rewrite Ea. cbv zeta.
  set (r := mkReport _ _ _ _ _ _ _ _ _ _ _ _).
  assert (Ht : rp_total r = volume l).
  { subst r. cbn [rp_total]. rewrite Hul, Hdl. apply u64_small. unfold is_u64, volume in *. lia. }
  assert (Hn : (length (volth_reports (rs ++ if sent then [r] else [])) + length (filter (λ t, t = VOLTH) due)
    <= length (volth_reports rs) + length (filter (λ t, t = VOLTH) (tr :: due)))%nat).
  { unfold volth_reports. rewrite filter_app, length_app. destruct tr.
    - rewrite (filter_cons_True _ VOLTH) by done. destruct sent; simpl; lia.
    - rewrite (filter_cons_False _ PERIO) by done. destruct sent; simpl; lia. }
  constructor; cbn [us_session us_due us_reports]; rewrite ?Ev; auto; try (cbn; rewrite ?Eu, ?Ed, ?Hul, ?Hdl; lia).
  - cbn [with_urr URR LastReportedVolume]. nia.
  - apply Forall_app. split; [by apply reports_later|]. destruct sent; [|by constructor].
    constructor; [|by constructor]. exists l, q, wall, []. by split_and!.
  - intros [Ha ->]%Hs Hd. rewrite reported_snoc. change (rp_trigger r) with tr. cbn [with_urr URR LastReportedVolume].
    destruct tr; [lia|]. apply Hrep; [done|]. intros [?|?]%elem_of_cons; done.
Qed.

Lemma usage_step_ok T l st e :
  0 < T → volume (l ++ [e]) < 18446744073709551616 → usage_ok T l st →
  usage_ok T (l ++ [e]) (usage_step st e) ∧
  LastReportedVolume (URR (us_session st)) <= LastReportedVolume (URR (us_session (usage_step st e))).
Proof.
  intros HT Hv Hok. split.
  - rewrite volume_snoc in Hv. destruct e as [n|n|wall|q sent wall].
    + apply (add_usage_ok T l st _ n); [auto|rewrite volume_snoc; lia|done].
    + apply (add_usage_ok T l st _ n); [auto|rewrite volume_snoc; lia|done].
    + apply select_usage_ok; [lia|lia|done].
    + apply emit_usage_ok; [lia|lia|done].
  - pose proof (uo_last _ _ _ Hok). rewrite volume_snoc in Hv. pose proof (octets_nonneg l).
    destruct e as [n|n|wall|q sent wall]; cbn [usage_step].
    + unfold AddULVolume. case_match; cbn; lia.
    + unfold AddDLVolume. case_match; cbn; lia.
    + destruct (us_due st); [|lia]. unfold dueReports. destruct (negb _); [cbn; lia|]. cbn.
      destruct (volthDue _); [|lia]. rewrite (uo_ul _ _ _ Hok), (uo_dl _ _ _ Hok), u64_small; unfold is_u64, volume in *; lia.
    + destruct (us_due st); [lia|]. unfold emitUsageReport. destruct (SMFAddr _); cbn; lia.
Qed.

Lemma usage_run_ok T l2 l1 st :
  0 < T → volume (l1 ++ l2) < 18446744073709551616 → usage_ok T l1 st →
  usage_ok T (l1 ++ l2) (foldl usage_step st l2) ∧
  LastReportedVolume (URR (us_session st)) <= LastReportedVolume (URR (us_session (foldl usage_step st l2))).
Proof.
  intros HT. revert l1 st. induction l2 as [|e l2 IH]; intros l1 st Hv Hok; [rewrite app_nil_r; by split|].
  assert (l1 ++ e :: l2 = (l1 ++ [e]) ++ l2) as El by by rewrite <- app_assoc. rewrite El in *.
  assert (volume (l1 ++ [e]) <= volume ((l1 ++ [e]) ++ l2)).
  { unfold volume. destruct (octets_app (l1 ++ [e]) l2) as [-> ->]. pose proof (octets_nonneg l2). lia. }
  destruct (usage_step_ok T l1 st e HT ltac:(lia) Hok) as [Hok1 Hle].
  destruct (IH (l1 ++ [e]) (usage_step st e) Hv Hok1) as [? ?]. split; [done|]. cbn [foldl]. lia.
Qed.

(** A session whose volume-threshold URR has just been installed. *)
Definition fresh_urr (s : Session) (T : Z) : Prop :=
  Installed (URR s) = true ∧ TriggerVOLTH (URR s) = true ∧ VolumeThreshold (URR s) = T ∧
  is_Some (SMFAddr s) ∧ ULVolume (URR s) = 0 ∧ DLVolume (URR s) = 0 ∧ LastReportedVolume (URR s) = 0.

Lemma fresh_usage_ok s T : fresh_urr s T → usage_ok T [] (mkUsage s [] []).
Proof.
  intros (H1 & H2 & H3 & H4 & H5 & H6 & H7).
  constructor; cbn [us_session us_due us_reports]; auto; rewrite ?H5, ?H6, ?H7; unfold reported; simpl; try lia; done.
Qed.

(** C9: the usage reports that reach the SMF neither over- nor under-report.  For a
    session with a volume threshold and an SMF address, over any interleaving of
    counted packets (below 2^64 octets in all), choices of due reports and sends, which may fail:
    every report sent carries the uplink, downlink and total octets counted when it
    was sent; there is at most one volume threshold report per threshold of traffic;
    and, if no send failed, once the volume threshold report that a sweep chose is out, less
    than one threshold of the traffic before that sweep lies beyond the last total
    reported. *)
Theorem usage_reports_exact s T l :
  fresh_urr s T → 0 < T → volume l < 18446744073709551616 →
  Forall (report_of l) (us_reports (usage_run s l)) ∧
  T * Z.of_nat (length (volth_reports (us_reports (usage_run s l)))) <= volume l ∧
  (∀ l1 wall l2, l = l1 ++ USelect wall :: l2 → us_due (usage_run s l1) = [] →
     all_sent l → VOLTH ∉ us_due (usage_run s l) →
     volume l1 - reported (us_reports (usage_run s l)) < T).
Proof.
  intros Hf HT Hv. pose proof (fresh_usage_ok s T Hf) as H0.
  destruct (usage_run_ok T l [] _ HT Hv H0) as [Hok _]. split_and!.
  - apply (uo_reports _ _ _ Hok).
  - pose proof (uo_count _ _ _ Hok). pose proof (uo_last _ _ _ Hok). simpl in *. unfold usage_run. nia.
  - intros l1 wall l2 -> Hd Ha Hn. pose proof (uo_reported _ _ _ Hok Ha Hn) as Hr. simpl app in *.
    destruct (octets_app l1 (USelect wall :: l2)) as [Eu Ed]. pose proof (octets_nonneg (USelect wall :: l2)).
    destruct (usage_run_ok T l1 [] _ HT ltac:(unfold volume in *; simpl app; lia) H0) as [Hok1 _].
    destruct (select_usage_ok T l1 _ wall HT ltac:(unfold volume in *; lia) Hok1) as [Hok2 Hlt].
    specialize (Hlt Hd).
    destruct (usage_run_ok T l2 (l1 ++ [USelect wall]) _ HT ltac:(by rewrite <- app_assoc) Hok2) as [_ Hle].
    unfold usage_run in *. rewrite foldl_app in *. cbn [foldl] in *. lia.
Qed.

Definition demo_urr_session : Session :=
  with_urr (mkSession 1 1 10 None None 0 None "internet" (Some ([10;0;0;9], 8805)) ∅ ∅ None noURR false)
    (mkURR 1 true true true false 1000 0 0 0 0 0 0 0 0 0 true).

(** Traffic arrives between the choice of the first report and its sending. *)
Definition demo_usage : list usage_event :=
  [UUplink 700; USelect 1; UDownlink 1500; USelect 2; UUplink 100; UEmit 7 true 2; UUplink 1000].

Lemma usage_reports_exact_witness :
  rp_total <$> us_reports (usage_run demo_urr_session (demo_usage ++ [USelect 3; UEmit 8 true 3])) = [2300; 3300] ∧
  3300 - reported (us_reports (usage_run demo_urr_session (demo_usage ++ [USelect 3; UEmit 8 true 3]))) < 1000.
Proof.
  split; [vm_compute; reflexivity|].
  apply (usage_reports_exact demo_urr_session 1000 (demo_usage ++ [USelect 3; UEmit 8 true 3])) with
    (l1 := demo_usage) (wall := 3) (l2 := [UEmit 8 true 3]);
    [repeat split; vm_compute; eauto|lia|vm_compute; reflexivity|reflexivity|vm_compute; reflexivity| |].
  - repeat constructor.
  - vm_compute. apply not_elem_of_nil.
Defined.
