(* ===== verification/UpfChecksum.v ===== *)
(** TCP/UDP checksum repair of the downlink path, [nf/upf/internal/l4csum/l4csum.go].

    The source sums eight octets per step into a uint64; the reference is the
    sum of big-endian 16-bit words of RFC 1071, taken modulo 65535.  A slice of
    the packet aliases it, so the functions return the octets afterwards. *)
From S2P Require Import Prelude.

Definition ipProtoTCP : Z := 6.
Definition ipProtoUDP : Z := 17.

Record Result := mkResult { Proto : string; IP : string; Old : Z; New : Z }.

(** [binary.BigEndian.Uint16(b[i:])] *)
Definition get16 (b : bytes) (i : nat) : res Z :=
  hi ← idx b i; lo ← idx b (S i); Ok (be16 hi lo).

(** [binary.BigEndian.PutUint16(b[i:], v)]: the octets afterwards. *)
Definition put16 (b : bytes) (i : nat) (v : Z) : res bytes :=
  if (S i <? length b)%nat then Ok (<[i := u8 (v ≫ 8)]> (<[S i := u8 v]> b)) else Panic.

(** [binary.BigEndian.Uint64] of eight octets. *)
Definition be64 (b0 b1 b2 b3 b4 b5 b6 b7 : Z) : Z :=
  Z.lor (be32 b0 b1 b2 b3 ≪ 32) (be32 b4 b5 b6 b7).

(** The two loops of [sum]. *)
Fixpoint sum8 (b : bytes) (acc : Z) : bytes * Z :=
  match b with
  | b0 :: b1 :: b2 :: b3 :: b4 :: b5 :: b6 :: b7 :: b' =>
    let v := be64 b0 b1 b2 b3 b4 b5 b6 b7 in
    sum8 b' (u64 (acc + u64 (v ≫ 32 + Z.land v 4294967295)))
  | _ => (b, acc)
  end.

Fixpoint sum2 (b : bytes) (acc : Z) : bytes * Z :=
  match b with
  | hi :: lo :: b' => sum2 b' (u64 (acc + be16 hi lo))
  | _ => (b, acc)
  end.

Definition sum (b : bytes) (acc : Z) : Z :=
  let '(b, acc) := sum8 b acc in
  let '(b, acc) := sum2 b acc in
  match b with [x] => u64 (acc + u64 (x ≪ 8)) | _ => acc end.

(** [for acc>>16 != 0 { acc = acc&0xFFFF + acc>>16 }] *)
Fixpoint fold_loop (fuel : nat) (acc : Z) : res Z :=
  match fuel with
  | O => OutOfFuel
  | S n =>
    if acc ≫ 16 =? 0 then Ok (u16 acc) else fold_loop n (u64 (Z.land acc 65535 + acc ≫ 16))
  end.

(** Six rounds are enough for a uint64. *)
Definition fold (acc : Z) : res Z := fold_loop 6 acc.

Definition finish (seg : bytes) (proto : Z) (ip : string) (acc : Z) (v6 : bool) : res (bytes * option Result) :=
  let body off name :=
    stored ← get16 seg off;
    if (proto =? ipProtoUDP) && (stored =? 0) && negb v6 then Ok (seg, None)
    else
      a ← slice seg 0 off;
      let acc := sum a acc in
      b ← slice_from seg (off + 2);
      let acc := sum b acc in
      f ← fold acc;
      let computed := u16 (Z.lnot f) in
      g ← fold (u64 (acc + stored));
      if negb ((proto =? ipProtoUDP) && v6 && (stored =? 0)) && (g =? 65535) then Ok (seg, None)
      else
        let computed := if (proto =? ipProtoUDP) && (computed =? 0) then 65535 else computed in
        seg' ← put16 seg off computed;
        Ok (seg', Some (mkResult name ip stored computed)) in
  if proto =? ipProtoTCP then
    if (length seg <? 20)%nat then Ok (seg, None) else body 16%nat "tcp"%string
  else if proto =? ipProtoUDP then
    if (length seg <? 8)%nat then Ok (seg, None)
    else
      ulen ← get16 seg 4;
      if negb (ulen =? Z.of_nat (length seg)) then Ok (seg, None) else body 6%nat "udp"%string
  else Ok (seg, None).

(** Puts a rewritten slice [pkt[i:j]] back. *)
Definition splice (pkt : bytes) (i j : nat) (seg : bytes) : bytes := take i pkt ++ seg ++ drop j pkt.

Definition repairV4 (pkt : bytes) : res (bytes * option Result) :=
  if (length pkt <? 20)%nat then Ok (pkt, None)
  else
    b0 ← idx pkt 0;
    let hl := Z.to_nat (Z.land b0 15 * 4) in
    t ← get16 pkt 2;
    let total := Z.to_nat t in
    if (hl <? 20)%nat || (length pkt <? total)%nat || (total <? hl)%nat then Ok (pkt, None)
    else
      frag ← get16 pkt 6;
      if negb (Z.land frag 16383 =? 0) then Ok (pkt, None)
      else
        proto ← idx pkt 9;
        seg ← slice pkt hl total;
        addrs ← slice pkt 12 20;
        let acc := u64 (sum addrs 0 + u64 (proto + Z.of_nat (length seg))) in
        '(seg', r) ← finish seg proto "v4" acc false;
        Ok (splice pkt hl total seg', r).

Definition repairV6 (pkt : bytes) : res (bytes * option Result) :=
  if (length pkt <? 40)%nat then Ok (pkt, None)
  else
    p ← get16 pkt 4;
    let plen := Z.to_nat p in
    if (length pkt <? 40 + plen)%nat then Ok (pkt, None)
    else
      proto ← idx pkt 6;
      seg ← slice pkt 40 (40 + plen);
      addrs ← slice pkt 8 40;
      let acc := u64 (sum addrs 0 + u64 (proto + Z.of_nat (length seg))) in
      '(seg', r) ← finish seg proto "v6" acc true;
      Ok (splice pkt 40 (40 + plen) seg', r).

Definition Repair (pkt : bytes) : res (bytes * option Result) :=
  match pkt with
  | [] => Ok (pkt, None)
  | b0 :: _ =>
    if b0 ≫ 4 =? 4 then repairV4 pkt
    else if b0 ≫ 4 =? 6 then repairV6 pkt
    else Ok (pkt, None)
  end.

(** * The reference *)

(** The sum of the big-endian 16-bit words, a trailing odd octet padded with
    zero (RFC 1071). *)
Fixpoint word_sum (b : bytes) : Z :=
  match b with
  | hi :: lo :: b' => hi * 256 + lo + word_sum b'
  | [x] => x * 256
  | [] => 0
  end.

(** A pseudo-header sum and a segment with a correct checksum: the
    one's-complement sum of all words is 0xFFFF. *)
Definition csum_ok (pseudo : Z) (seg : bytes) : Prop :=
  0 < pseudo + word_sum seg ∧ (pseudo + word_sum seg) mod 65535 = 0.

(** Induction two octets at a time. *)
Lemma pairs_ind (P : bytes → Prop) :
  P [] → (∀ x, P [x]) → (∀ x y b, P b → P (x :: y :: b)) → ∀ b, P b.
Proof.
  intros H0 H1 H2. assert (H : ∀ b, P b ∧ ∀ x, P (x :: b)); [|intros b; apply H].
  induction b as [|y b [IH1 IH2]]; split; auto.
Qed.

Lemma word_sum_bounds b : bytes_ok b → 0 <= word_sum b <= 65535 * Z.of_nat (length b).
Proof.
  unfold bytes_ok. induction b as [|x|x y b IH] using pairs_ind; intros Hb; simpl.
  - lia.
  - apply Forall_cons in Hb as [Hx _]. unfold is_u8 in Hx. lia.
  - rewrite !Forall_cons in Hb. destruct Hb as (Hx & Hy & Hb). specialize (IH Hb).
    unfold is_u8 in *. lia.
Qed.

Lemma word_sum_app a b : Nat.Even (length a) → word_sum (a ++ b) = word_sum a + word_sum b.
Proof.
  induction a as [|x|x y a IH] using pairs_ind; intros Hev; simpl in *.
  - done.
  - destruct Hev as [k Hk]. lia.
  - rewrite IH; [lia|]. destruct Hev as [k Hk]. exists (k - 1)%nat. lia.
Qed.

(** Congruence modulo 65535, which every fold preserves. *)
Definition cong (a b : Z) : Prop := ∃ k, a = b + 65535 * k.

Lemma cong_refl a : cong a a.
Proof. exists 0. lia. Qed.
Lemma cong_trans a b c : cong a b → cong b c → cong a c.
Proof. intros [k ->] [l ->]. exists (k + l). lia. Qed.
Lemma cong_add a b c d : cong a b → cong c d → cong (a + c) (b + d).
Proof. intros [k ->] [l ->]. exists (k + l). lia. Qed.
Lemma cong_mod a b : cong a b → a mod 65535 = b mod 65535.
Proof. intros [k ->]. by rewrite Z.mul_comm, Z_mod_plus_full. Qed.

#[global] Instance cong_equiv : Equivalence cong.
Proof.
  split; [intros a; apply cong_refl| |intros a b c; apply cong_trans].
  intros a b [k ->]. exists (- k). lia.
Qed.
#[global] Instance cong_add_proper : Proper (cong ==> cong ==> cong) Z.add.
Proof. intros a b H c d H'. by apply cong_add. Qed.

(** ** The accumulator *)

Lemma be32_range b0 b1 b2 b3 : is_u8 b0 → is_u8 b1 → is_u8 b2 → is_u8 b3 → is_u32 (be32 b0 b1 b2 b3).
Proof. intros. rewrite be32_add by done. unfold is_u8, is_u32 in *. lia. Qed.

(** The two 32-bit halves of the eight octets. *)
Lemma be64_halves b0 b1 b2 b3 b4 b5 b6 b7 :
  bytes_ok [b0; b1; b2; b3; b4; b5; b6; b7] →
  be64 b0 b1 b2 b3 b4 b5 b6 b7 ≫ 32 = be32 b0 b1 b2 b3 ∧
  Z.land (be64 b0 b1 b2 b3 b4 b5 b6 b7) 4294967295 = be32 b4 b5 b6 b7.
Proof.
  unfold bytes_ok. rewrite !Forall_cons. intros (Hb0&Hb1&Hb2&Hb3&Hb4&Hb5&Hb6&Hb7&_).
  assert (H2 : is_u32 (be32 b4 b5 b6 b7)) by (by apply be32_range). unfold is_u32 in H2. unfold be64. rewrite lor_shiftl_add by lia.
  change 4294967295 with (Z.ones 32). rewrite Z.land_ones, Z.shiftr_div_pow2 by lia.
  change (2 ^ 32) with 4294967296. split.
  - rewrite Z.div_add_l by lia. rewrite Z.div_small by lia. lia.
  - rewrite Z.add_comm, Z_mod_plus_full. by apply Z.mod_small.
Qed.

(** What a loop of [sum] keeps: from [(b, acc)] to [(b', acc')] the total agrees
    modulo 65535 and never shrinks, and the headroom of the accumulator is only
    used up by octets consumed. *)
Record sums (b : bytes) (acc : Z) (b' : bytes) (acc' : Z) : Prop := {
  sm_cong : cong (acc' + word_sum b') (acc + word_sum b);
  sm_grow : acc <= acc';
  sm_room : acc' + 8589934592 * Z.of_nat (length b') <= acc + 8589934592 * Z.of_nat (length b);
  sm_bytes : bytes_ok b';
}.

Lemma sums_refl b acc : bytes_ok b → sums b acc b acc.
Proof. intros. constructor; [reflexivity|lia|lia|done]. Qed.

Lemma sums_trans b acc b1 acc1 b2 acc2 :
  sums b acc b1 acc1 → sums b1 acc1 b2 acc2 → sums b acc b2 acc2.
Proof. intros [] []. constructor; [by etransitivity|lia|lia|done]. Qed.

Lemma sum8_step b0 b1 b2 b3 b4 b5 b6 b7 b acc :
  bytes_ok (b0 :: b1 :: b2 :: b3 :: b4 :: b5 :: b6 :: b7 :: b) → 0 <= acc →
  acc + 8589934592 * Z.of_nat (length (b0 :: b1 :: b2 :: b3 :: b4 :: b5 :: b6 :: b7 :: b)) < 18446744073709551616 →
  let v := be64 b0 b1 b2 b3 b4 b5 b6 b7 in
  sums (b0 :: b1 :: b2 :: b3 :: b4 :: b5 :: b6 :: b7 :: b) acc b
    (u64 (acc + u64 (v ≫ 32 + Z.land v 4294967295))).
Proof.
  intros Hb Ha Hr. cbv zeta.
  assert (H8 : bytes_ok [b0; b1; b2; b3; b4; b5; b6; b7]).
  { unfold bytes_ok in *. rewrite !Forall_cons in *. naive_solver. }
  destruct (be64_halves _ _ _ _ _ _ _ _ H8) as [-> ->].
  unfold bytes_ok in Hb, H8. rewrite !Forall_cons in Hb.
  destruct Hb as (?&?&?&?&?&?&?&?&Hb). rewrite !be32_add by done. unfold is_u8 in *. simpl length in Hr.
  match goal with |- context [u64 (acc + u64 ?x)] =>
    rewrite (u64_small x), (u64_small (acc + x)) by (unfold is_u64; lia) end.
  constructor; [|lia|simpl length; lia|done]. simpl word_sum.
  exists (b0 * 256 + b1 + b4 * 256 + b5). lia.
Qed.

Lemma sum8_spec n b acc :
  (length b <= n)%nat → bytes_ok b → 0 <= acc →
  acc + 8589934592 * Z.of_nat (length b) < 18446744073709551616 →
  sums b acc (sum8 b acc).1 (sum8 b acc).2.
Proof.
  revert b acc. induction n as [|n IH]; intros b acc Hn Hb Ha Hr.
  { destruct b; [by apply sums_refl|simpl in Hn; lia]. }
  destruct b as [|b0 [|b1 [|b2 [|b3 [|b4 [|b5 [|b6 [|b7 b]]]]]]]]; try by apply sums_refl.
  pose proof (sum8_step b0 b1 b2 b3 b4 b5 b6 b7 b acc Hb Ha Hr) as Hs. cbv zeta in Hs.
  cbn [sum8]. cbv zeta. eapply sums_trans; [exact Hs|]. destruct Hs. apply IH; simpl in Hn; try done; lia.
Qed.

Lemma sum2_spec b acc :
  bytes_ok b → 0 <= acc → acc + 8589934592 * Z.of_nat (length b) < 18446744073709551616 →
  sums b acc (sum2 b acc).1 (sum2 b acc).2 ∧ (length (sum2 b acc).1 <= 1)%nat.
Proof.
  revert acc. induction b as [|x|x y b IH] using pairs_ind; intros acc Hb Ha Hr.
  - split; [by apply sums_refl|simpl; lia].
  - split; [by apply sums_refl|simpl; lia].
  - pose proof Hb as Hxy. unfold bytes_ok in Hxy. rewrite !Forall_cons in Hxy. destruct Hxy as (Hx & Hy & Hb').
    simpl. simpl length in Hr. rewrite be16_add by done. unfold is_u8 in *.
    rewrite u64_small by (unfold is_u64; lia).
    assert (Hs : sums (x :: y :: b) acc b (acc + (x * 256 + y))).
    { constructor; [exists 0; simpl; lia|lia|simpl length; lia|done]. }
    destruct (IH (acc + (x * 256 + y))) as [H1 H2]; [done|lia|lia|].
    split; [by eapply sums_trans|done].
Qed.

(** [sum] agrees with the reference and never overflows. *)
Lemma sum_spec b acc :
  bytes_ok b → 0 <= acc → acc + 8589934592 * Z.of_nat (length b) < 18446744073709551616 →
  cong (sum b acc) (acc + word_sum b) ∧
  acc <= sum b acc <= acc + 8589934592 * Z.of_nat (length b).
Proof.
  intros Hb Ha Hr. unfold sum. pose proof (sum8_spec (length b) b acc ltac:(lia) Hb Ha Hr) as H8.
  destruct (sum8 b acc) as [b1 acc1]. simpl in H8. pose proof H8 as [].
  destruct (sum2_spec b1 acc1) as [H2 Hl]; [done|lia|lia|].
  destruct (sum2 b1 acc1) as [b2 acc2]. simpl in H2, Hl. pose proof (sums_trans _ _ _ _ _ _ H8 H2) as [Hc Hg Hm Hb2].
  destruct b2 as [|x [|]]; simpl in *; [| |lia].
  - rewrite Z.add_0_r in Hc. split; [done|lia].
  - apply Forall_cons in Hb2 as [Hx _]. unfold is_u8 in Hx.
    rewrite Z.shiftl_mul_pow2 by lia. change (2 ^ 8) with 256.
    rewrite (u64_small (x * 256)), u64_small by (unfold is_u64; lia). split; [done|lia].
Qed.

(** ** Folding *)

Lemma fold_step acc : 0 <= acc → cong (Z.land acc 65535 + acc ≫ 16) acc.
Proof. intros. bitfield. exists (- (acc / 65536)). dlia. Qed.

(** What the loop can finish in [n] rounds. *)
Definition fold_bound (n : nat) : Z :=
  match n with
  | O => 65536 | 1%nat => 131071 | 2%nat => 524288 | 3%nat => 17179869184
  | 4%nat => 562949953421312 | _ => 18446744073709551616
  end.

Lemma fold_loop_S n acc :
  fold_loop (S n) acc =
  if acc ≫ 16 =? 0 then Ok (u16 acc) else fold_loop n (u64 (Z.land acc 65535 + acc ≫ 16)).
Proof. done. Qed.

Lemma fold_loop_spec n acc :
  0 <= acc < fold_bound n → ∃ f, fold_loop (S n) acc = Ok f ∧ is_u16 f ∧ cong f acc ∧ (0 < acc → 0 < f).
Proof.
  revert acc. induction n as [|n IH]; intros acc H; rewrite fold_loop_S;
    destruct (Z.eqb_spec (acc ≫ 16) 0) as [E|E];
    rewrite Z.shiftr_div_pow2 in E by lia; change (2 ^ 16) with 65536 in E.
  1, 3: assert (0 <= acc < 65536) by dlia; rewrite u16_small by done;
    exists acc; split_and!; [done|done|reflexivity|done].
  - simpl in H. exfalso. dlia.
  - assert (Hacc : 0 <= acc < 18446744073709551616) by (destruct n as [|[|[|[|n]]]]; cbn [fold_bound] in H; lia).
    pose proof (fold_step acc ltac:(lia)) as Hc. revert Hc. bitfield. intros Hc.
    pose proof (Z.div_mod acc 65536 ltac:(lia)) as Hdm. pose proof (Z.mod_pos_bound acc 65536 ltac:(lia)) as Hm.
    assert (Hq : 0 <= acc / 65536) by (apply Z.div_pos; lia).
    generalize dependent (acc mod 65536). generalize dependent (acc / 65536). intros q Hq0 Hqp m Hc Hdm Hm.
    rewrite u64_small by (unfold is_u64; lia).
    assert (Hn : 0 <= m + q < fold_bound n)
      by (clear IH Hc; destruct n as [|[|[|[|[|n]]]]]; cbn [fold_bound] in H |- *; lia).
    destruct (IH _ Hn) as (f & Ef & Hf & Hcf & Hpos). exists f.
    split_and!; [exact Ef|done|by etransitivity|]. intros _. apply Hpos. lia.
Qed.

(** [fold] terminates for every uint64 and gives the representative in 1..65535
    of a non-zero sum. *)
Lemma fold_spec acc :
  is_u64 acc → 0 < acc → ∃ f, fold acc = Ok f ∧ 0 < f <= 65535 ∧ cong f acc.
Proof.
  intros Ha Hp. destruct (fold_loop_spec 5 acc Ha) as (f & E & Hf & Hc & Hpos).
  exists f. unfold is_u16 in Hf. specialize (Hpos Hp). split_and!; [done|lia|lia|done].
Qed.

(** ** The checksum field *)

(** The 16-bit word at an offset. *)
Definition word_at (b : bytes) (i : nat) : Z :=
  match b !! i, b !! S i with Some hi, Some lo => be16 hi lo | _, _ => 0 end.

Lemma split_word (b : bytes) i :
  (S i < length b)%nat →
  ∃ hi lo, b = take i b ++ [hi; lo] ++ drop (i + 2) b ∧ b !! i = Some hi ∧ b !! S i = Some lo.
Proof.
  intros Hi. destruct (lookup_lt_is_Some_2 b i ltac:(lia)) as [hi Hhi].
  destruct (lookup_lt_is_Some_2 b (S i) Hi) as [lo Hlo]. exists hi, lo. split; [|done].
  replace (i + 2)%nat with (S (S i)) by lia.
  rewrite <- (take_drop i b) at 1. f_equal. by rewrite (drop_S b hi i), (drop_S b lo (S i)) by done.
Qed.

Lemma get16_word b i : (S i < length b)%nat → get16 b i = Ok (word_at b i).
Proof.
  intros Hi. destruct (split_word b i Hi) as (hi & lo & _ & Hhi & Hlo).
  unfold get16, word_at, idx. by rewrite Hhi, Hlo.
Qed.

Lemma word_at_range b i : bytes_ok b → is_u16 (word_at b i).
Proof.
  intros Hb. unfold word_at. destruct (b !! i) as [hi|] eqn:Hhi; [|unfold is_u16; lia].
  destruct (b !! S i) as [lo|] eqn:Hlo; [|unfold is_u16; lia].
  apply be16_range; eapply Forall_lookup_1; eauto.
Qed.

(** The word sum around an aligned field. *)
Lemma word_sum_field (a b : bytes) hi lo :
  Nat.Even (length a) → is_u8 lo → word_sum (a ++ [hi; lo] ++ b) = word_sum a + be16 hi lo + word_sum b.
Proof. intros. rewrite word_sum_app, be16_add by done. simpl. lia. Qed.

Lemma put16_split b i v :
  (S i < length b)%nat →
  put16 b i v = Ok (take i b ++ [u8 (v ≫ 8); u8 v] ++ drop (i + 2) b).
Proof.
  intros Hi. unfold put16. destruct (Nat.ltb_spec (S i) (length b)); [|lia]. f_equal.
  destruct (split_word b i Hi) as (hi & lo & E & _ & _).
  assert (Hl : length (take i b) = i) by (rewrite length_take; lia).
  rewrite E at 1. generalize dependent (drop (i + 2) b). generalize dependent (take i b). clear.
  intros a <- d E. rewrite insert_app_r_alt, insert_app_r_alt by lia.
  by replace (S (length a) - length a)%nat with 1%nat by lia; rewrite Nat.sub_diag.
Qed.

(** ** Repairing a segment *)

(** The offset of the checksum of a segment that is eligible. *)
Definition l4_off (seg : bytes) (proto : Z) : option nat :=
  if proto =? ipProtoTCP then if (length seg <? 20)%nat then None else Some 16%nat
  else if proto =? ipProtoUDP then
    if (length seg <? 8)%nat then None
    else if negb (word_at seg 4 =? Z.of_nat (length seg)) then None else Some 6%nat
  else None.

Lemma l4_off_bound seg proto off :
  l4_off seg proto = Some off → Nat.Even off ∧ (S off < length seg)%nat.
Proof.
  unfold l4_off. repeat case_match; intros; simplify_eq;
    repeat match goal with H : (_ <? _)%nat = false |- _ => apply Nat.ltb_ge in H end.
  - split; [by exists 8%nat|lia].
  - split; [by exists 3%nat|lia].
Qed.

(** UDP over IPv4 with a zero checksum, and over IPv6 with a zero checksum. *)
Definition udp_none (seg : bytes) (proto : Z) (v6 : bool) (off : nat) : bool :=
  (proto =? ipProtoUDP) && (word_at seg off =? 0) && negb v6.
Definition udp6_zero (seg : bytes) (proto : Z) (v6 : bool) (off : nat) : bool :=
  (proto =? ipProtoUDP) && v6 && (word_at seg off =? 0).

(** [finish] after the header checks. *)
Definition repair_at (seg : bytes) (proto : Z) (acc : Z) (v6 : bool) (off : nat) (name ip : string)
    : res (bytes * option Result) :=
  let stored := word_at seg off in
  if udp_none seg proto v6 off then Ok (seg, None)
  else
    let acc := sum (drop (off + 2) seg) (sum (take off seg) acc) in
    f ← fold acc;
    g ← fold (u64 (acc + stored));
    if negb (udp6_zero seg proto v6 off) && (g =? 65535) then Ok (seg, None)
    else
      let c := u16 (Z.lnot f) in
      let c := if (proto =? ipProtoUDP) && (c =? 0) then 65535 else c in
      seg' ← put16 seg off c;
      Ok (seg', Some (mkResult name ip stored c)).

Definition proto_name (proto : Z) : string := if proto =? ipProtoTCP then "tcp" else "udp".

Lemma finish_at seg proto ip acc v6 :
  finish seg proto ip acc v6 =
  match l4_off seg proto with
  | None => Ok (seg, None)
  | Some off => repair_at seg proto acc v6 off (proto_name proto) ip
  end.
Proof.
  unfold finish. cbv zeta.
  assert (Hb : ∀ off name, (S off < length seg)%nat → name = proto_name proto →
    (stored ← get16 seg off;
     if (proto =? ipProtoUDP) && (stored =? 0) && negb v6 then Ok (seg, None)
     else
       a ← slice seg 0 off;
       b ← slice_from seg (off + 2);
       f ← fold (sum b (sum a acc));
       g ← fold (u64 (sum b (sum a acc) + stored));
       if negb ((proto =? ipProtoUDP) && v6 && (stored =? 0)) && (g =? 65535) then Ok (seg, None)
       else
         seg' ← put16 seg off (if (proto =? ipProtoUDP) && (u16 (Z.lnot f) =? 0) then 65535 else u16 (Z.lnot f));
         Ok (seg', Some (mkResult name ip stored
           (if (proto =? ipProtoUDP) && (u16 (Z.lnot f) =? 0) then 65535 else u16 (Z.lnot f))))) =
    repair_at seg proto acc v6 off (proto_name proto) ip).
  { intros off name Hoff ->. rewrite get16_word by done. unfold repair_at, udp_none, udp6_zero.
    cbn [mbind res_bind]. rewrite slice_Ok, slice_from_Ok by lia. cbn [mbind res_bind].
    by rewrite Nat.sub_0_r, drop_0. }
  unfold l4_off. destruct (proto =? ipProtoTCP) eqn:Et.
  - destruct (Nat.ltb_spec (length seg) 20); [done|]. apply Hb; [lia|unfold proto_name; by rewrite Et].
  - destruct (proto =? ipProtoUDP) eqn:Eu; [|done]. destruct (Nat.ltb_spec (length seg) 8); [done|].
    rewrite (get16_word seg 4) by lia. cbn [mbind res_bind].
    destruct (negb (word_at seg 4 =? Z.of_nat (length seg))); [done|]. apply Hb; [lia|unfold proto_name; by rewrite Et].
Qed.

Lemma repair_at_spec seg proto acc v6 off name ip :
  bytes_ok seg → Z.of_nat (length seg) <= 65535 → 0 < acc < 1099511627776 →
  Nat.Even off → (S off < length seg)%nat → udp_none seg proto v6 off = false →
  ∃ seg' r, repair_at seg proto acc v6 off name ip = Ok (seg', r) ∧
    match r with
    | None => seg' = seg ∧ csum_ok acc seg ∧ udp6_zero seg proto v6 off = false
    | Some r => (udp6_zero seg proto v6 off = true ∨ ¬ csum_ok acc seg) ∧
        seg' = take off seg ++ [u8 (New r ≫ 8); u8 (New r)] ++ drop (off + 2) seg ∧
        csum_ok acc seg' ∧ is_u16 (New r) ∧ (proto = ipProtoUDP → New r ≠ 0)
    end.
Proof.
  intros Hb Hl Ha Hev Hoff Hnone. destruct (split_word seg off Hoff) as (hi & lo & Eseg & Hhi & Hlo).
  assert (Hlen : length (take off seg) = off) by (rewrite length_take; lia).
  assert (Hbt : bytes_ok (take off seg)) by (by apply Forall_take).
  assert (Hbd : bytes_ok (drop (off + 2) seg)) by (by apply Forall_drop).
  assert (Hu8 : is_u8 hi ∧ is_u8 lo)
    by (split; [apply (Forall_lookup_1 _ _ _ _ Hb Hhi)|apply (Forall_lookup_1 _ _ _ _ Hb Hlo)]).
  pose proof (word_at_range seg off Hb) as Hst.
  unfold repair_at. rewrite Hnone. cbv zeta. set (stored := word_at seg off) in *.
  assert (Hst_eq : stored = be16 hi lo) by (unfold stored, word_at; by rewrite Hhi, Hlo).
  set (a := take off seg) in *. set (d := drop (off + 2) seg) in *.
  assert (Hla : Z.of_nat (length a) <= 65535) by lia.
  assert (Hld : Z.of_nat (length d) <= 65535) by (unfold d; rewrite length_drop; lia).
  destruct (sum_spec a acc) as [Hca Hra]; [done|lia|lia|].
  destruct (sum_spec d (sum a acc)) as [Hcd Hrd]; [done|lia|lia|].
  set (acc2 := sum d (sum a acc)) in *. unfold is_u16 in Hst.
  assert (Hc2 : cong acc2 (acc + word_sum a + word_sum d)) by (rewrite Hcd; by rewrite Hca).
  destruct (fold_spec acc2) as (f & Ef & Hf & Hcf); [unfold is_u64; lia|lia|].
  rewrite (u64_small (acc2 + stored)) by (unfold is_u64; lia).
  destruct (fold_spec (acc2 + stored)) as (g & Eg & Hg & Hcg); [unfold is_u64; lia|lia|].
  rewrite Ef. cbn [mbind res_bind]. rewrite Eg. cbn [mbind res_bind].
  pose proof (word_sum_bounds a Hbt). pose proof (word_sum_bounds d Hbd).
  assert (Hws : ∀ x y, is_u8 y → word_sum (a ++ [x; y] ++ d) = word_sum a + be16 x y + word_sum d)
    by (intros; apply word_sum_field; [by rewrite Hlen|done]).
  assert (Hok : csum_ok acc seg ↔ g = 65535).
  { unfold csum_ok. rewrite Eseg, Hws, <- Hst_eq by tauto.
    assert (Hgt : cong g (acc + (word_sum a + stored + word_sum d))).
    { rewrite Hcg, Hc2. exists 0. lia. }
    apply cong_mod in Hgt. rewrite <- Hgt. split; [intros [_ Hm]|intros ->; split; [lia|done]].
    destruct (Z.eq_dec g 65535); [done|]. rewrite Z.mod_small in Hm by lia. lia. }
  assert (Hcomp : u16 (Z.lnot f) = 65535 - f).
  { unfold u16, Z.lnot. replace (Z.pred (- f)) with (65535 - f + (-1) * 65536) by lia.
    rewrite Z_mod_plus_full. apply Z.mod_small. lia. }
  rewrite Hcomp.
  destruct (negb (udp6_zero seg proto v6 off) && (g =? 65535)) eqn:Ebr.
  { apply andb_true_iff in Ebr as [Hz Hg1]. apply negb_true_iff in Hz. apply Z.eqb_eq in Hg1.
    exists seg, None. split; [done|]. rewrite Hok. auto. }
  set (c := if (proto =? ipProtoUDP) && (65535 - f =? 0) then 65535 else 65535 - f).
  assert (Hc : is_u16 c ∧ cong (acc2 + c) 0 ∧ (proto = ipProtoUDP → c ≠ 0)).
  { unfold c, is_u16. destruct Hcf as [k ->]. destruct (Z.eqb_spec proto ipProtoUDP); cbn [andb];
      destruct (Z.eqb_spec (65535 - (acc2 + 65535 * k)) 0) as [E0|E0]; cbn [andb];
      (split; [lia|]; split; [|by intros; lia || done]).
    - exists (2 - k). lia.
    - exists (1 - k). lia.
    - exists (1 - k). lia.
    - exists (1 - k). lia. }
  destruct Hc as (Hc16 & Hcc & Hcn). rewrite put16_split by done. cbn [mbind res_bind].
  eexists _, _. split; [reflexivity|]. cbn [New]. split_and!; [|reflexivity|split|done|done].
  - apply andb_false_iff in Ebr as [Hz|Hz]; [left; by apply negb_false_iff in Hz|right].
    rewrite Hok. by apply Z.eqb_neq in Hz.
  - rewrite Hws, be16_split by auto with go. unfold is_u16 in Hc16. lia.
  - rewrite Hws, be16_split by auto with go.
    assert (Hcs : cong (acc + (word_sum a + c + word_sum d)) 0).
    { rewrite <- Hcc, Hc2. exists 0. lia. }
    by apply cong_mod in Hcs.
Qed.

(** ** Packets *)

(** Where the segment of an IP packet is, its protocol and addresses. *)
Record l4view := mkL4 { v_start : nat; v_end : nat; v_proto : Z; v_addrs : bytes; v_v6 : bool }.

Definition octet (pkt : bytes) (i : nat) : Z := default 0 (pkt !! i).

Definition l4_view4 (pkt : bytes) : option l4view :=
  let hl := Z.to_nat (Z.land (octet pkt 0) 15 * 4) in
  let total := Z.to_nat (word_at pkt 2) in
  if (length pkt <? 20)%nat || ((hl <? 20)%nat || (length pkt <? total)%nat || (total <? hl)%nat) ||
     negb (Z.land (word_at pkt 6) 16383 =? 0)
  then None
  else Some (mkL4 hl total (octet pkt 9) (take 8 (drop 12 pkt)) false).

Definition l4_view6 (pkt : bytes) : option l4view :=
  let plen := Z.to_nat (word_at pkt 4) in
  if (length pkt <? 40)%nat || (length pkt <? 40 + plen)%nat then None
  else Some (mkL4 40 (40 + plen) (octet pkt 6) (take 32 (drop 8 pkt)) true).

Definition l4_view (pkt : bytes) : option l4view :=
  if (length pkt =? 0)%nat then None
  else if octet pkt 0 ≫ 4 =? 4 then l4_view4 pkt
  else if octet pkt 0 ≫ 4 =? 6 then l4_view6 pkt
  else None.

Definition segment (pkt : bytes) (v : l4view) : bytes := take (v_end v - v_start v) (drop (v_start v) pkt).

(** The pseudo-header sum of RFC 793 and RFC 8200, and the one [sum] computes. *)
Definition pseudo (pkt : bytes) (v : l4view) : Z :=
  word_sum (v_addrs v) + v_proto v + Z.of_nat (length (segment pkt v)).
Definition pseudo_acc (pkt : bytes) (v : l4view) : Z :=
  u64 (sum (v_addrs v) 0 + u64 (v_proto v + Z.of_nat (length (segment pkt v)))).

Lemma idx_octet pkt i : (i < length pkt)%nat → idx pkt i = Ok (octet pkt i).
Proof. intros [x Hx]%lookup_lt_is_Some. unfold idx, octet. by rewrite Hx. Qed.

Lemma Repair_view pkt :
  Repair pkt =
  match l4_view pkt with
  | None => Ok (pkt, None)
  | Some v =>
    '(seg', r) ← finish (segment pkt v) (v_proto v) (if v_v6 v then "v6"%string else "v4"%string)
      (pseudo_acc pkt v) (v_v6 v);
    Ok (splice pkt (v_start v) (v_end v) seg', r)
  end.
Proof.
  destruct pkt as [|b0 b]; [done|]. unfold l4_view, Repair. cbn [length Nat.eqb].
  change (octet (b0 :: b) 0) with b0.
  assert (Hlen : (0 < length (b0 :: b))%nat) by (simpl; lia). revert Hlen.
  assert (H0 : octet (b0 :: b) 0 = b0) by done. revert H0. generalize (b0 :: b). intros pkt H0 Hlen.
  destruct (b0 ≫ 4 =? 4); [|destruct (b0 ≫ 4 =? 6); [|done]].
  - unfold repairV4, l4_view4. rewrite H0. destruct (Nat.ltb_spec (length pkt) 20); [done|].
    rewrite (idx_octet pkt 0), H0 by lia. cbn [mbind res_bind]. rewrite (get16_word pkt 2) by lia.
    cbn [mbind res_bind orb].
    set (hl := Z.to_nat (Z.land b0 15 * 4)). set (total := Z.to_nat (word_at pkt 2)).
    destruct ((hl <? 20)%nat || (length pkt <? total)%nat || (total <? hl)%nat) eqn:Eb; [done|].
    apply orb_false_iff in Eb as [[Eb1%Nat.ltb_ge Eb2%Nat.ltb_ge]%orb_false_iff Eb3%Nat.ltb_ge].
    rewrite (get16_word pkt 6) by lia. cbn [mbind res_bind orb].
    destruct (negb (Z.land (word_at pkt 6) 16383 =? 0)); [done|].
    rewrite idx_octet, !slice_Ok by lia. cbn [mbind res_bind]. done.
  - unfold repairV6, l4_view6. destruct (Nat.ltb_spec (length pkt) 40); [done|].
    rewrite get16_word by lia. cbn [mbind res_bind orb].
    destruct (Nat.ltb_spec (length pkt) (40 + Z.to_nat (word_at pkt 4))); [done|].
    rewrite idx_octet, !slice_Ok by lia. cbn [mbind res_bind]. done.
Qed.

(** What every view satisfies. *)
Lemma l4_view_bounds pkt v :
  bytes_ok pkt → l4_view pkt = Some v →
  (20 <= v_start v <= v_end v)%nat ∧ (v_end v <= length pkt)%nat ∧
  Z.of_nat (v_end v - v_start v) <= 65535 ∧ (length (v_addrs v) <= 32)%nat ∧ bytes_ok (v_addrs v).
Proof.
  intros Hb. unfold l4_view, l4_view4, l4_view6. pose proof (word_at_range pkt 2 Hb) as Hw2.
  pose proof (word_at_range pkt 4 Hb) as Hw4. unfold is_u16 in *.
  assert (Hbt : ∀ i n, bytes_ok (take i (drop n pkt))) by (intros; by apply Forall_take, Forall_drop).
  destruct (length pkt =? 0)%nat; [done|]. destruct (_ =? 4); [|destruct (_ =? 6); [|done]].
  - destruct (_ || _) eqn:E; [done|]. intros [= <-]. cbn [v_start v_end v_addrs].
    rewrite !orb_false_iff, !Nat.ltb_ge in E. rewrite length_take. split_and!; auto; lia.
  - destruct (_ || _) eqn:E; [done|]. intros [= <-]. cbn [v_start v_end v_addrs].
    rewrite !orb_false_iff, !Nat.ltb_ge in E. rewrite length_take. split_and!; auto; lia.
Qed.

Lemma segment_ok pkt v :
  bytes_ok pkt → l4_view pkt = Some v →
  bytes_ok (segment pkt v) ∧ Z.of_nat (length (segment pkt v)) <= 65535 ∧
  length (segment pkt v) = (v_end v - v_start v)%nat.
Proof.
  intros Hb Hv. destruct (l4_view_bounds pkt v Hb Hv) as (H1 & H2 & H3 & _).
  assert (Hl : length (segment pkt v) = (v_end v - v_start v)%nat)
    by (unfold segment; rewrite length_take, length_drop; lia).
  split_and!; [by apply Forall_take, Forall_drop|lia|done].
Qed.

(** The computed pseudo-header sum stands for the reference one. *)
Lemma pseudo_acc_ok pkt v off :
  bytes_ok pkt → l4_view pkt = Some v → l4_off (segment pkt v) (v_proto v) = Some off →
  0 < pseudo_acc pkt v < 1099511627776 ∧
  ∀ seg, bytes_ok seg → csum_ok (pseudo_acc pkt v) seg ↔ csum_ok (pseudo pkt v) seg.
Proof.
  intros Hb Hv Hoff. destruct (l4_view_bounds pkt v Hb Hv) as (_ & _ & _ & Hla & Hba).
  destruct (segment_ok pkt v Hb Hv) as (_ & Hls & _).
  assert (Hp : 0 < v_proto v < 256).
  { unfold l4_off, ipProtoTCP, ipProtoUDP in Hoff.
    destruct (Z.eqb_spec (v_proto v) 6); [lia|]. destruct (Z.eqb_spec (v_proto v) 17); [lia|done]. }
  destruct (sum_spec (v_addrs v) 0) as [Hc Hr]; [done|lia|lia|].
  pose proof (word_sum_bounds _ Hba) as Hw.
  assert (Hacc : pseudo_acc pkt v = sum (v_addrs v) 0 + (v_proto v + Z.of_nat (length (segment pkt v)))).
  { unfold pseudo_acc. rewrite (u64_small (v_proto v + _)), u64_small by (unfold is_u64; lia). done. }
  assert (Hcong : cong (pseudo_acc pkt v) (pseudo pkt v)).
  { rewrite Hacc. unfold pseudo. rewrite Hc. exists 0. lia. }
  split; [lia|]. intros seg Hs. pose proof (word_sum_bounds seg Hs). unfold csum_ok.
  assert (Hm : (pseudo_acc pkt v + word_sum seg) mod 65535 = (pseudo pkt v + word_sum seg) mod 65535)
    by (apply cong_mod; by rewrite Hcong). rewrite Hm.
  assert (0 < pseudo pkt v) by (unfold pseudo; lia). split; intros [_ ?]; split; auto; lia.
Qed.

Lemma take_le_eq {A} (n m : nat) (p p' : list A) : (m <= n)%nat → take n p = take n p' → take m p = take m p'.
Proof. intros Hm E. rewrite <- (Nat.min_l m n), <- !take_take, E by lia. done. Qed.

Lemma octet_take n p p' i : (i < n)%nat → take n p = take n p' → octet p i = octet p' i.
Proof.
  intros Hi E. unfold octet. rewrite <- (lookup_take_lt p n i), <- (lookup_take_lt p' n i), E by lia. done.
Qed.

Lemma word_at_take n p p' i : (S i < n)%nat → take n p = take n p' → word_at p i = word_at p' i.
Proof.
  intros Hi E. unfold word_at.
  rewrite <- (lookup_take_lt p n i), <- (lookup_take_lt p' n i), <- (lookup_take_lt p n (S i)),
    <- (lookup_take_lt p' n (S i)), E by lia. done.
Qed.

(** A view only reads the octets before the segment and the length. *)
Lemma l4_view_agree p p' v :
  bytes_ok p → l4_view p = Some v → take (v_start v) p = take (v_start v) p' → length p = length p' →
  l4_view p' = Some v.
Proof.
  intros Hb Hv Ht Hl. destruct (l4_view_bounds p v Hb Hv) as ([H20 _] & _).
  rewrite <- Hv. revert Hv. unfold l4_view.
  assert (Hsub : ∀ i n, (i + n <= v_start v)%nat → take n (drop i p) = take n (drop i p')).
  { intros i n Hin. rewrite !take_drop_commute. f_equal. by apply (take_le_eq (v_start v)); [lia|]. }
  rewrite <- Hl, <- (octet_take (v_start v) p p' 0) by (done || lia).
  destruct (length p =? 0)%nat; [done|]. destruct (_ =? 4); [|destruct (_ =? 6); [|done]].
  - intros _. unfold l4_view4. rewrite <- Hl.
    rewrite <- (octet_take (v_start v) p p' 0), <- (octet_take (v_start v) p p' 9),
      <- (word_at_take (v_start v) p p' 2), <- (word_at_take (v_start v) p p' 6), <- (Hsub 12%nat 8%nat)
      by (done || lia). done.
  - intros Hv. assert (H40 : v_start v = 40%nat).
    { unfold l4_view6 in Hv. destruct (_ || _); [done|]. by injection Hv as <-. }
    unfold l4_view6. rewrite <- Hl.
    rewrite <- (octet_take (v_start v) p p' 6), <- (word_at_take (v_start v) p p' 4), <- (Hsub 8%nat 32%nat)
      by (done || lia). done.
Qed.

Lemma splice_view pkt v seg' :
  bytes_ok pkt → l4_view pkt = Some v → length seg' = (v_end v - v_start v)%nat →
  let pkt' := splice pkt (v_start v) (v_end v) seg' in
  length pkt' = length pkt ∧ l4_view pkt' = Some v ∧ segment pkt' v = seg'.
Proof.
  intros Hb Hv Hl pkt'. destruct (l4_view_bounds pkt v Hb Hv) as (H1 & H2 & _).
  assert (Hlen : length pkt' = length pkt).
  { unfold pkt', splice. rewrite !length_app, length_take, length_drop. lia. }
  assert (Htake : length (take (v_start v) pkt) = v_start v) by (rewrite length_take; lia).
  split_and!; [done| |].
  - apply (l4_view_agree pkt); auto. unfold pkt', splice. by rewrite take_app_le, take_take, Nat.min_id by lia.
  - unfold segment, pkt', splice. rewrite drop_app_length' by done. by rewrite take_app_length' by done.
Qed.

Lemma splice_same pkt v : (v_start v <= v_end v)%nat → splice pkt (v_start v) (v_end v) (segment pkt v) = pkt.
Proof.
  intros. unfold splice, segment. rewrite <- (take_drop (v_start v) pkt) at 4. f_equal.
  rewrite <- (take_drop (v_end v - v_start v) (drop (v_start v) pkt)) at 2. f_equal.
  rewrite drop_drop. f_equal. lia.
Qed.

(** * The property of the repair *)

(** A packet the UE will not reject for its L4 checksum: it has none to check
    (not an eligible TCP or UDP packet, or IPv4 UDP without checksum), or the
    checksum is right and, for UDP over IPv6, present. *)
Definition packet_valid (pkt : bytes) : Prop :=
  match l4_view pkt with
  | None => True
  | Some v =>
    match l4_off (segment pkt v) (v_proto v) with
    | None => True
    | Some off =>
      udp_none (segment pkt v) (v_proto v) (v_v6 v) off = true ∨
      (csum_ok (pseudo pkt v) (segment pkt v) ∧ udp6_zero (segment pkt v) (v_proto v) (v_v6 v) off = false)
    end
  end.

Lemma field_replaced seg off c :
  (S off < length seg)%nat → is_u16 c →
  let seg' := take off seg ++ [u8 (c ≫ 8); u8 c] ++ drop (off + 2) seg in
  length seg' = length seg ∧ word_at seg' off = c ∧
  (∀ i, (S i < off)%nat → word_at seg' i = word_at seg i).
Proof.
  intros Ho Hc seg'. assert (Hl : length (take off seg) = off) by (rewrite length_take; lia).
  split_and!.
  - unfold seg'. rewrite !length_app, length_take, length_drop. simpl. lia.
  - unfold word_at, seg'. rewrite (lookup_app_r _ _ off), (lookup_app_r _ _ (S off)), Hl, Nat.sub_diag by lia.
    replace (S off - off)%nat with 1%nat by lia. simpl. by apply be16_split.
  - intros i Hi. apply (word_at_take off); [done|]. unfold seg'. by rewrite take_app_le, take_take, Nat.min_id by lia.
Qed.

Lemma Repair_spec pkt :
  bytes_ok pkt →
  ∃ pkt' r, Repair pkt = Ok (pkt', r) ∧ length pkt' = length pkt ∧ packet_valid pkt' ∧
    (r = None ↔ packet_valid pkt) ∧ (r = None → pkt' = pkt).
Proof.
  intros Hb. rewrite Repair_view. unfold packet_valid at 2. destruct (l4_view pkt) as [v|] eqn:Hv.
  2: { exists pkt, None. unfold packet_valid. by rewrite Hv. }
  rewrite finish_at. destruct (l4_view_bounds pkt v Hb Hv) as ([_ Hse] & _).
  destruct (segment_ok pkt v Hb Hv) as (Hbs & Hls & Hlen).
  destruct (l4_off (segment pkt v) (v_proto v)) as [off|] eqn:Hoff.
  2: { cbn [mbind res_bind]. rewrite splice_same by done. exists pkt, None. unfold packet_valid.
       by rewrite Hv, Hoff. }
  destruct (l4_off_bound _ _ _ Hoff) as [Hev Ho].
  destruct (udp_none (segment pkt v) (v_proto v) (v_v6 v) off) eqn:Hnone.
  { unfold repair_at. rewrite Hnone. cbn [mbind res_bind]. rewrite splice_same by done.
    exists pkt, None. unfold packet_valid. rewrite Hv, Hoff, Hnone. naive_solver. }
  destruct (pseudo_acc_ok pkt v off Hb Hv Hoff) as [Hacc Hiff].
  destruct (repair_at_spec (segment pkt v) (v_proto v) (pseudo_acc pkt v) (v_v6 v) off
    (proto_name (v_proto v)) (if v_v6 v then "v6" else "v4") Hbs Hls Hacc Hev Ho Hnone)
    as (seg' & r & E & Hr). rewrite E. cbn [mbind res_bind]. destruct r as [r|].
  - destruct Hr as (Hbad & -> & Hok & Hc & Hudp). destruct (field_replaced _ off (New r) Ho Hc) as (Hl' & Hw & Hwi).
    set (seg' := take off _ ++ _) in *. rewrite Hlen in Hl'.
    destruct (splice_view pkt v seg' Hb Hv Hl') as (Hlp & Hv' & Hs').
    assert (Hbs' : bytes_ok seg').
    { unfold seg', bytes_ok. rewrite !Forall_app. split_and!; [by apply Forall_take| |by apply Forall_drop].
      repeat constructor; apply u8_range. }
    eexists _, _. split_and!; [reflexivity|done| |split; [done|]|done].
    + unfold packet_valid. rewrite Hv', Hs'.
      assert (Hoff' : l4_off seg' (v_proto v) = Some off).
      { rewrite <- Hoff. unfold l4_off. rewrite Hlen, Hl'.
        destruct (v_proto v =? ipProtoTCP) eqn:Et; [done|]. destruct (v_proto v =? ipProtoUDP) eqn:Eu; [|done].
        assert (off = 6%nat) as ->.
        { unfold l4_off in Hoff. rewrite Et, Eu in Hoff. repeat case_match; by simplify_eq. }
        by rewrite (Hwi 4%nat) by lia. }
      rewrite Hoff'. right. unfold udp6_zero, pseudo. rewrite Hs', Hw, Hl', <- Hlen.
      split; [by apply Hiff|].
      destruct (Z.eqb_spec (v_proto v) ipProtoUDP); [|done]. specialize (Hudp ltac:(done)).
      destruct (Z.eqb_spec (New r) 0); [done|]. by rewrite andb_false_r.
    + intros [?|[Hv1 Hv2]]; [done|]. destruct Hbad as [?|Hbad]; [congruence|]. exfalso. apply Hbad. by apply Hiff.
  - destruct Hr as (-> & Hok & Hz). rewrite splice_same by done. exists pkt, None.
    unfold packet_valid. rewrite Hv, Hoff, Hnone, Hz. apply Hiff in Hok; [|done]. naive_solver.
Qed.

(** C8: for every packet, of any content and length, Repair returns (no bounds
    panic, its loops terminate, no uint64 wrap), reports a repair exactly when
    the packet was invalid, leaves a valid packet untouched, and leaves a valid
    packet behind: the optimised eight-octets-a-step sum implements the 16-bit
    one's-complement sum of RFC 1071. *)
Theorem Repair_correct pkt :
  bytes_ok pkt →
  ∃ pkt' r, Repair pkt = Ok (pkt', r) ∧ length pkt' = length pkt ∧ packet_valid pkt' ∧
    (r = None ↔ packet_valid pkt) ∧ (r = None → pkt' = pkt).
Proof. exact (Repair_spec pkt). Qed.

(** A 22-octet UDP payload-less datagram over IPv4 with a wrong checksum. *)
Definition demo_udp : bytes :=
  [69;0;0;28;0;0;0;0;64;17;0;0; 10;0;0;1; 10;60;0;2; 0;53;4;0;0;8;18;52].

Lemma Repair_correct_witness :
  bytes_ok demo_udp ∧
  (∃ pkt' r, Repair demo_udp = Ok (pkt', r) ∧ packet_valid pkt') ∧
  ∃ pkt' r, Repair demo_udp = Ok (pkt', Some r) ∧ Repair pkt' = Ok (pkt', None) ∧ take 26 pkt' = take 26 demo_udp.
Proof.
  assert (Hb : bytes_ok demo_udp) by (apply (bool_decide_unpack _); vm_compute; exact I).
  split; [exact Hb|]. split.
  - destruct (Repair_correct demo_udp Hb) as (pkt' & r & E & _ & Hv & _). exists pkt', r. split; [exact E|exact Hv].
  - eexists _, _. split; [vm_compute; reflexivity|]. split; vm_compute; reflexivity.
Defined.
