(* ===== verification/GoCrypto.v ===== *)
(** The primitives of Go's standard library the authentication code uses:
    SHA-256 ([crypto/sha256], FIPS 180-4), HMAC ([crypto/hmac], RFC 2104), the
    AES-128 block cipher ([crypto/aes], FIPS 197) and its counter mode
    ([cipher.NewCTR]).  They are executable, and checked on the published
    vectors at the end of the file.  The constants are computed from their
    definitions in the standards. *)
From S2P Require Import Prelude.

(** * SHA-256 *)

Definition primes64 : list Z :=
  Eval vm_compute in
    filter (λ p, bool_decide (Forall (λ d, p mod Z.of_nat d ≠ 0) (seq 2 (Z.to_nat p - 2))))
      (Z.of_nat <$> seq 2 310).

(** Integer cube root by bisection: 64 halvings cover the arguments below. *)
Fixpoint cbrt_between (steps : nat) (lo hi n : Z) : Z :=
  match steps with
  | O => lo
  | S steps =>
      let m := (lo + hi) / 2 in
      if m * m * m <=? n then cbrt_between steps m hi n else cbrt_between steps lo m n
  end.

(** The first 32 bits of the fractional parts of the cube and square roots. *)
Definition round_constants : list Z :=
  Eval vm_compute in (λ p, u32 (cbrt_between 64 0 (2 ^ 40) (p * 2 ^ 96))) <$> primes64.
Definition initial_hash : list Z :=
  Eval vm_compute in (λ p, u32 (Z.sqrt (p * 2 ^ 64))) <$> take 8 primes64.

Definition rotr32 (n x : Z) : Z := Z.lor (x ≫ n) (u32 (x ≪ (32 - n))).
Definition xor3 (a b c : Z) : Z := Z.lxor (Z.lxor a b) c.
Definition schedule0 (x : Z) : Z := xor3 (rotr32 7 x) (rotr32 18 x) (x ≫ 3).
Definition schedule1 (x : Z) : Z := xor3 (rotr32 17 x) (rotr32 19 x) (x ≫ 10).
Definition mix0 (x : Z) : Z := xor3 (rotr32 2 x) (rotr32 13 x) (rotr32 22 x).
Definition mix1 (x : Z) : Z := xor3 (rotr32 6 x) (rotr32 11 x) (rotr32 25 x).
Definition choose (x y z : Z) : Z := Z.lxor (Z.land x y) (Z.land (4294967295 - x) z).
Definition majority (x y z : Z) : Z := xor3 (Z.land x y) (Z.land x z) (Z.land y z).

(** The eight working variables. *)
Record hash := mkHash { ha : Z; hb : Z; hc : Z; hd : Z; he : Z; hf : Z; hg : Z; hh : Z }.

Definition hash_of (l : list Z) : hash :=
  let n i := default 0 (l !! i) in
  mkHash (n 0%nat) (n 1%nat) (n 2%nat) (n 3%nat) (n 4%nat) (n 5%nat) (n 6%nat) (n 7%nat).

(** One round per constant, over a window of the next sixteen schedule words. *)
Fixpoint rounds (ks window : list Z) (s : hash) : hash :=
  match ks with
  | [] => s
  | k :: ks =>
      let w i := default 0 (window !! i) in
      let t1 := hh s + mix1 (he s) + choose (he s) (hf s) (hg s) + k + w 0%nat in
      let t2 := mix0 (ha s) + majority (ha s) (hb s) (hc s) in
      let next := u32 (schedule1 (w 14%nat) + w 9%nat + schedule0 (w 1%nat) + w 0%nat) in
      rounds ks (tail window ++ [next])
        (mkHash (u32 (t1 + t2)) (ha s) (hb s) (hc s) (u32 (hd s + t1)) (he s) (hf s) (hg s))
  end.

Fixpoint words32 (b : bytes) : list Z :=
  match b with
  | b0 :: b1 :: b2 :: b3 :: b => be32 b0 b1 b2 b3 :: words32 b
  | _ => []
  end.

Definition compress (s : hash) (block : bytes) : hash :=
  let r := rounds round_constants (words32 block) s in
  mkHash (u32 (ha s + ha r)) (u32 (hb s + hb r)) (u32 (hc s + hc r)) (u32 (hd s + hd r))
    (u32 (he s + he r)) (u32 (hf s + hf r)) (u32 (hg s + hg r)) (u32 (hh s + hh r)).

(** The first [k] chunks of [n] octets. *)
Fixpoint chunks (k n : nat) (b : bytes) : list bytes :=
  match k with
  | O => []
  | S k => take n b :: chunks k n (drop n b)
  end.

Definition sha_pad (m : bytes) : bytes :=
  let bits := 8 * Z.of_nat (length m) in
  m ++ [128] ++ replicate (Z.to_nat ((55 - Z.of_nat (length m)) mod 64)) 0
    ++ put_be32 (bits ≫ 32) ++ put_be32 bits.

Definition digest (s : hash) : bytes :=
  put_be32 (ha s) ++ put_be32 (hb s) ++ put_be32 (hc s) ++ put_be32 (hd s)
  ++ put_be32 (he s) ++ put_be32 (hf s) ++ put_be32 (hg s) ++ put_be32 (hh s).

Definition sha256 (m : bytes) : bytes :=
  let p := sha_pad m in
  digest (foldl compress (hash_of initial_hash) (chunks (length p / 64) 64 p)).

(** * HMAC-SHA-256 *)

Definition hmac_block (key : bytes) : bytes :=
  let k := if (64 <? length key)%nat then sha256 key else key in
  k ++ replicate (64 - length k) 0.

Definition hmac_sha256 (key m : bytes) : bytes :=
  let k := hmac_block key in
  sha256 ((Z.lxor 0x5c <$> k) ++ sha256 ((Z.lxor 0x36 <$> k) ++ m)).

(** * AES-128 *)

(** The field of 256 elements modulo x^8 + x^4 + x^3 + x + 1. *)
Definition xtime (a : Z) : Z :=
  if a <? 128 then 2 * a else Z.lxor (u8 (2 * a)) 0x1b.

Fixpoint gmul (bits : nat) (a b : Z) : Z :=
  match bits with
  | O => 0
  | S bits => Z.lxor (if Z.odd b then a else 0) (gmul bits (xtime a) (b ≫ 1))
  end.

(** The inverse is the 254th power, a product of the squares 2, 4, ..., 128. *)
Definition ginv (a : Z) : Z :=
  let sq x := gmul 8 x x in
  let p2 := sq a in let p4 := sq p2 in let p8 := sq p4 in let p16 := sq p8 in
  let p32 := sq p16 in let p64 := sq p32 in let p128 := sq p64 in
  foldr (gmul 8) 1 [p2; p4; p8; p16; p32; p64; p128].

Definition rotl8 (n x : Z) : Z := Z.lor (u8 (x ≪ n)) (x ≫ (8 - n)).

Definition sbox_table : list Z :=
  Eval vm_compute in
    (λ i, let b := ginv (Z.of_nat i) in
          foldr Z.lxor 0x63 [b; rotl8 1 b; rotl8 2 b; rotl8 3 b; rotl8 4 b]) <$> seq 0 256.

Definition sbox (x : Z) : Z := default 0 (sbox_table !! Z.to_nat x).

Definition octet_at (b : bytes) (i : nat) : Z := default 0 (b !! i).

(** A block read as sixteen octets. *)
Definition block16 (f : nat → Z) : bytes := f <$> seq 0 16.

Definition xor_block (a b : bytes) : bytes := block16 (λ i, Z.lxor (octet_at a i) (octet_at b i)).
Definition sub_bytes (s : bytes) : bytes := block16 (λ i, sbox (octet_at s i)).
Definition shift_rows (s : bytes) : bytes := block16 (λ i, octet_at s ((5 * i) mod 16)).

(** Octet [i] belongs to the column that starts at [4 * (i / 4)]. *)
Definition mix_columns (s : bytes) : bytes :=
  block16 (λ i,
    let c := (4 * (i / 4))%nat in
    let a k := octet_at s (c + (i + k) mod 4) in
    Z.lxor (Z.lxor (xtime (a 0%nat)) (Z.lxor (xtime (a 1%nat)) (a 1%nat))) (Z.lxor (a 2%nat) (a 3%nat))).

(** The next round key from the previous one. *)
Definition next_key (rcon : Z) (k : bytes) : bytes :=
  let g j := Z.lxor (sbox (octet_at k (12 + (j + 1) mod 4))) (if (j =? 0)%nat then rcon else 0) in
  block16 (λ i, foldr (λ w acc, Z.lxor (octet_at k (4 * w + i mod 4)) acc) (g (i mod 4)%nat) (seq 0 (S (i / 4)))).

Definition round_constant_octets : list Z := [1; 2; 4; 8; 16; 32; 64; 128; 27].

Fixpoint aes_rounds (rcons : list Z) (k s : bytes) : bytes :=
  match rcons with
  | [] => xor_block (shift_rows (sub_bytes s)) (next_key 54 k)
  | rc :: rcons =>
      let k := next_key rc k in
      aes_rounds rcons k (xor_block (mix_columns (shift_rows (sub_bytes s))) k)
  end.

(** [aes.NewCipher(key)] and [block.Encrypt(dst, src)] for a 16-octet key. *)
Definition aes_encrypt (key block : bytes) : bytes :=
  aes_rounds round_constant_octets key (xor_block block key).

(** * Counter mode *)

(** The counter block is incremented as a 128-bit big-endian integer. *)
Fixpoint be_val (b : bytes) : Z :=
  match b with
  | [] => 0
  | x :: b => x * 2 ^ (8 * Z.of_nat (length b)) + be_val b
  end.

Fixpoint be_octets (n : nat) (z : Z) : bytes :=
  match n with
  | O => []
  | S n => u8 (z ≫ (8 * Z.of_nat n)) :: be_octets n z
  end.

Fixpoint ctr_stream (blocks : nat) (key : bytes) (ctr : Z) : bytes :=
  match blocks with
  | O => []
  | S blocks => aes_encrypt key (be_octets 16 ctr) ++ ctr_stream blocks key (ctr + 1)
  end.

(** [cipher.NewCTR(block, iv)] and [XORKeyStream(out, message)]. *)
Definition ctr_xor (key iv message : bytes) : bytes :=
  zip_with Z.lxor message (ctr_stream (S (length message / 16)) key (be_val iv)).

(** * Lengths and ranges *)

Lemma length_block16 f : length (block16 f) = 16%nat.
Proof. unfold block16. by rewrite length_fmap, length_seq. Qed.

Lemma length_xor_block a b : length (xor_block a b) = 16%nat.
Proof. apply length_block16. Qed.

Lemma length_aes_encrypt key block : length (aes_encrypt key block) = 16%nat.
Proof.
  unfold aes_encrypt. generalize (xor_block block key). revert key.
  induction round_constant_octets as [|rc l IH]; intros k s; cbn [aes_rounds]; [apply length_xor_block|apply IH].
Qed.

Lemma length_ctr_stream n key ctr : length (ctr_stream n key ctr) = (16 * n)%nat.
Proof.
  revert ctr. induction n as [|n IH]; intros ctr; [done|]. cbn [ctr_stream].
  rewrite length_app, length_aes_encrypt, IH. lia.
Qed.

Lemma length_sha256 m : length (sha256 m) = 32%nat.
Proof. done. Qed.

Lemma length_hmac_sha256 key m : length (hmac_sha256 key m) = 32%nat.
Proof. done. Qed.

Lemma high_bits w k i : 0 <= k <= i → 0 <= w < 2 ^ k → Z.testbit w i = false.
Proof.
  intros Hi Hw. rewrite <- (Z.mod_small w (2 ^ k)) by done. by apply Z.mod_pow2_bits_high.
Qed.

Lemma lxor_range u v k : 0 <= k → 0 <= u < 2 ^ k → 0 <= v < 2 ^ k → 0 <= Z.lxor u v < 2 ^ k.
Proof.
  intros Hk Hu Hv. replace (Z.lxor u v) with (Z.lxor u v mod 2 ^ k).
  { apply Z.mod_pos_bound, Z.pow_pos_nonneg; lia. }
  apply Z.bits_inj'. intros i Hi. destruct (Z.lt_ge_cases i k) as [Hlt|Hge].
  - by apply Z.mod_pow2_bits_low.
  - rewrite Z.mod_pow2_bits_high, Z.lxor_spec, !(high_bits _ k i) by lia. done.
Qed.

Lemma lxor_u8 a b : is_u8 a → is_u8 b → is_u8 (Z.lxor a b).
Proof. apply (lxor_range a b 8). lia. Qed.

(** The cipher maps octets to octets. *)
Lemma octet_at_u8 b i : bytes_ok b → is_u8 (octet_at b i).
Proof.
  intros Hb. unfold octet_at. destruct (b !! i) eqn:E; [|done].
  by eapply Forall_lookup_1 in E.
Qed.

Lemma block16_ok f : (∀ i, is_u8 (f i)) → bytes_ok (block16 f).
Proof. intros Hf. unfold bytes_ok, block16. apply Forall_fmap, Forall_true. auto. Qed.

Lemma sbox_u8 x : is_u8 (sbox x).
Proof.
  unfold sbox. destruct (sbox_table !! Z.to_nat x) eqn:E; [|done].
  refine (Forall_lookup_1 is_u8 sbox_table _ _ _ E).
  refine (bool_decide_unpack _ _). vm_compute. done.
Qed.

Lemma next_key_ok rc k : is_u8 rc → bytes_ok k → bytes_ok (next_key rc k).
Proof.
  intros Hrc Hk. apply block16_ok. intros i.
  assert (is_u8 (Z.lxor (sbox (octet_at k (12 + (i mod 4 + 1) mod 4))) (if (i mod 4 =? 0)%nat then rc else 0))) as H0.
  { apply lxor_u8; [apply sbox_u8|]. by destruct (i mod 4 =? 0)%nat. }
  induction (seq 0 (S (i / 4))) as [|w l IH]; [done|]. cbn [foldr].
  apply lxor_u8; [by apply octet_at_u8|done].
Qed.

Lemma aes_rounds_ok rcons k s : Forall is_u8 rcons → bytes_ok k → bytes_ok (aes_rounds rcons k s).
Proof.
  intros Hr. revert k s. induction Hr as [|rc rcons Hrc _ IH]; intros k s Hk; cbn [aes_rounds].
  - apply block16_ok. intros i. apply lxor_u8; apply octet_at_u8; [|by apply next_key_ok].
    apply block16_ok. intros j. apply octet_at_u8, block16_ok. intros. apply sbox_u8.
  - by apply IH, next_key_ok.
Qed.

Lemma aes_encrypt_ok key block : bytes_ok key → bytes_ok (aes_encrypt key block).
Proof. intros. apply aes_rounds_ok; [|done]. refine (bool_decide_unpack _ _). done. Qed.

(** * Octet strings as integers *)

Lemma pow8 n : 2 ^ (8 * Z.of_nat (S n)) = 256 * 2 ^ (8 * Z.of_nat n).
Proof. rewrite <- (Z.pow_add_r 2 8) by lia. f_equal. lia. Qed.

Lemma pow8_pos n : 0 < 2 ^ (8 * Z.of_nat n).
Proof. apply Z.pow_pos_nonneg; lia. Qed.

Lemma be_val_range b : bytes_ok b → 0 <= be_val b < 2 ^ (8 * Z.of_nat (length b)).
Proof.
  induction 1 as [|x b Hx _ IH]; [done|]. cbn [be_val length]. rewrite pow8.
  pose proof (pow8_pos (length b)). unfold is_u8 in Hx. nia.
Qed.

Lemma be_octets_ok n z : bytes_ok (be_octets n z).
Proof. unfold bytes_ok. induction n; simpl; auto using u8_range. Qed.

Lemma length_be_octets n z : length (be_octets n z) = n.
Proof. induction n; simpl; congruence. Qed.

Lemma be_octets_shift n x v :
  be_octets n (x * 2 ^ (8 * Z.of_nat n) + v) = be_octets n v.
Proof.
  revert x. induction n as [|n IH]; intros x; [done|]. cbn [be_octets].
  pose proof (pow8_pos n). f_equal.
  - unfold u8. rewrite !Z.shiftr_div_pow2, pow8 by lia.
    replace (x * (256 * 2 ^ (8 * Z.of_nat n)) + v) with (v + (x * 256) * 2 ^ (8 * Z.of_nat n)) by ring.
    rewrite Z.div_add by lia. apply Z.mod_add. lia.
  - rewrite pow8, Z.mul_assoc. apply IH.
Qed.

Lemma be_octets_be_val b : bytes_ok b → be_octets (length b) (be_val b) = b.
Proof.
  induction 1 as [|x b Hx Hb IH]; [done|]. cbn [be_val length be_octets].
  pose proof (be_val_range b Hb). rewrite be_octets_shift, IH. f_equal.
  rewrite Z.shiftr_div_pow2, Z.div_add_l, Z.div_small, Z.add_0_r by lia. by apply u8_small.
Qed.

Lemma be_val_be_octets n z : be_val (be_octets n z) = z mod 2 ^ (8 * Z.of_nat n).
Proof.
  induction n as [|n IH]; [by rewrite Z.mod_1_r|]. cbn [be_octets be_val].
  rewrite length_be_octets, IH, pow8, (Z.mul_comm 256). pose proof (pow8_pos n).
  rewrite Z.rem_mul_r by lia. unfold u8. rewrite Z.shiftr_div_pow2 by lia. ring.
Qed.

(** Exclusive or distributes over a split at a power of two. *)
Lemma lxor_split x y u v k :
  0 <= k → 0 <= u < 2 ^ k → 0 <= v < 2 ^ k →
  Z.lxor (x * 2 ^ k + u) (y * 2 ^ k + v) = Z.lxor x y * 2 ^ k + Z.lxor u v.
Proof.
  intros Hk Hu Hv. pose proof (lxor_range u v k Hk Hu Hv).
  rewrite <- !(lor_shiftl_add _ _ k) by done.
  apply Z.bits_inj'. intros i Hi. rewrite !Z.lor_spec, !Z.lxor_spec, !Z.lor_spec.
  destruct (Z.lt_ge_cases i k) as [Hlt|Hge].
  - rewrite !Z.shiftl_spec_low by done. done.
  - rewrite !Z.shiftl_spec, Z.lxor_spec, !(high_bits _ k i), !orb_false_r by lia. done.
Qed.

Lemma be_val_lxor a b :
  bytes_ok a → bytes_ok b → length a = length b →
  be_val (zip_with Z.lxor a b) = Z.lxor (be_val a) (be_val b).
Proof.
  intros Ha. revert b. induction Ha as [|x a Hx Ha IH]; intros b Hb Hl; destruct b as [|y b]; try done.
  apply Forall_cons in Hb as [Hy Hb]. injection Hl as Hl.
  cbn [zip_with be_val]. rewrite length_zip_with, Hl, Nat.min_id, IH by done.
  pose proof (be_val_range a Ha) as Ra. pose proof (be_val_range b Hb).
  rewrite Hl in Ra. by rewrite lxor_split by lia.
Qed.

(** * Published vectors *)

(** FIPS 180-4: SHA-256 of "abc". *)
Example sha256_abc :
  be_val (sha256 [97; 98; 99])
  = 0xba7816bf8f01cfea414140de5dae2223b00361a396177a9cb410ff61f20015ad.
Proof. vm_compute. reflexivity. Qed.

(** RFC 4231, test case 2. *)
Example hmac_rfc4231_2 :
  be_val (hmac_sha256 [74; 101; 102; 101]
    [119; 104; 97; 116; 32; 100; 111; 32; 121; 97; 32; 119; 97; 110; 116; 32;
     102; 111; 114; 32; 110; 111; 116; 104; 105; 110; 103; 63])
  = 0x5bdcc146bf60754e6a042426089575c75a003f089d2739839dec58b964ec3843.
Proof. vm_compute. reflexivity. Qed.

(** FIPS 197, appendix C.1. *)
Example aes_fips197 :
  be_val (aes_encrypt (be_octets 16 0x000102030405060708090a0b0c0d0e0f)
            (be_octets 16 0x00112233445566778899aabbccddeeff))
  = 0x69c4e0d86a7b0430d8cdb78070b4c55a.
Proof. vm_compute. reflexivity. Qed.
