(* ===== verification/CryptoNas.v ===== *)
(** The NAS algorithms of [shared/crypto/nas]: 128-NEA2 (AES in counter mode,
    [nea2.go]) and 128-NIA2 (AES-CMAC, [nia2.go]), against their definitions in
    TS 33.401 annex B and RFC 4493 on 128-bit integers. *)
From S2P Require Import Prelude GoCrypto.

(** * 128-NEA2 *)

Definition NEA2 (key : bytes) (count bearer dir : Z) (message : bytes) : res bytes :=
  if negb (length key =? 16)%nat then Err "nea2: key must be 128 bits"
  else
    let iv := put_be32 count
              ++ [Z.lor (u8 (Z.land bearer 0x1F ≪ 3)) (u8 (Z.land dir 0x01 ≪ 2))]
              ++ replicate 11 0 in
    Ok (ctr_xor key iv message).

Definition NEA0 (message : bytes) : bytes := message.

(** * AES-CMAC *)

Definition blockSize : nat := 16.

(** The loop runs from the last octet to the first. *)
Definition shiftLeft1 (src : bytes) : bytes :=
  (foldr (λ b '(dst, carry), (Z.lor (u8 (b ≪ 1)) carry :: dst, b ≫ 7)) ([], 0) src).1.

Definition xorBlock (a b : bytes) : bytes := zip_with Z.lxor a b.

(** [k[blockSize-1] ^= 0x87] *)
Definition xor_last (k : bytes) : bytes := alter (λ x, Z.lxor x 0x87) (blockSize - 1)%nat k.

Definition subkey (l : bytes) : bytes :=
  let k := shiftLeft1 l in
  if negb (Z.land (octet_at l 0) 0x80 =? 0) then xor_last k else k.

Definition generateSubkeys (key : bytes) : bytes * bytes :=
  let k1 := subkey (aes_encrypt key (replicate blockSize 0)) in
  (k1, subkey k1).

Definition cbc_step (key x b : bytes) : bytes := aes_encrypt key (xorBlock x b).

Definition aesCMAC (key data : bytes) : bytes :=
  let '(k1, k2) := generateSubkeys key in
  let n := length data in
  let flag := negb (n =? 0)%nat && (n mod blockSize =? 0)%nat in
  let lastCompleteBlock := if flag then (n - blockSize)%nat else (n - n mod blockSize)%nat in
  let lastBlock :=
    if flag then xorBlock (go_copy (replicate blockSize 0) (drop lastCompleteBlock data)) k1
    else
      let padLen := (n mod blockSize)%nat in
      xorBlock (<[padLen := 0x80]> (go_copy (replicate blockSize 0) (drop lastCompleteBlock data))) k2 in
  let x := foldl (cbc_step key) (replicate blockSize 0)
             (chunks (lastCompleteBlock / blockSize) blockSize data) in
  cbc_step key x lastBlock.

(** * 128-NIA2 *)

Definition NIA2 (key : bytes) (count bearer dir : Z) (message : bytes) : res bytes :=
  if negb (length key =? 16)%nat then Err "nia2: key must be 128 bits"
  else
    let msg0 := put_be32 count
                ++ [Z.lor (u8 (Z.land bearer 0x1F ≪ 3)) (u8 (Z.land dir 0x01 ≪ 2))] ++ [0; 0; 0] in
    Ok (take 4 (aesCMAC key (msg0 ++ message))).

Definition NIA0 (message : bytes) : bytes := [0; 0; 0; 0].

(** [subtle.ConstantTimeCompare] is equality of the two octet strings. *)
Definition Verify (key : bytes) (count bearer dir : Z) (message mac : bytes) : res bool :=
  expected ← NIA2 key count bearer dir message;
  Ok (bool_decide (expected = mac)).

(** * Reference definitions *)

(** Doubling in the field of 2^128 elements (RFC 4493, section 2.3). *)
Definition dbl (z : Z) : Z :=
  let d := (2 * z) mod 2 ^ 128 in
  if Z.testbit z 127 then Z.lxor d 0x87 else d.

(** One round of CBC on integers: encrypt the exclusive or. *)
Definition cbc128 (key : bytes) (x m : Z) : Z :=
  be_val (aes_encrypt key (be_octets 16 (Z.lxor x m))).

(** RFC 4493, section 2.4: the message is cut into blocks, the last of which is
    masked with K1 when complete and padded with 10...0 and masked with K2
    otherwise; the empty message is one incomplete block. *)
Definition cmac_blocks (k1 k2 : Z) (m : bytes) : list Z :=
  let full := ((length m - 1) / 16)%nat in
  let rest := drop (16 * full) m in
  (be_val <$> chunks full 16 m)
  ++ [ if (length rest =? 16)%nat then Z.lxor (be_val rest) k1
       else Z.lxor (be_val rest * 2 ^ (128 - 8 * Z.of_nat (length rest))
                    + 2 ^ (127 - 8 * Z.of_nat (length rest))) k2 ].

Definition cmac (key m : bytes) : Z :=
  let k1 := dbl (be_val (aes_encrypt key (be_octets 16 0))) in
  foldl (cbc128 key) 0 (cmac_blocks k1 (dbl k1) m).

(** COUNT, BEARER, DIRECTION and 26 zero bits (TS 33.401, B.2.3). *)
Definition nia2_header (count bearer dir : Z) : Z := ((count * 2 ^ 5 + bearer) * 2 + dir) * 2 ^ 26.

(** * Counter mode is its own inverse *)

Lemma length_ctr_xor key iv m : length (ctr_xor key iv m) = length m.
Proof.
  unfold ctr_xor. rewrite length_zip_with, length_ctr_stream.
  pose proof (Nat.div_mod_eq (length m) 16). pose proof (Nat.mod_upper_bound (length m) 16). lia.
Qed.

Lemma lxor_stream_twice (m s : bytes) :
  (length m <= length s)%nat → zip_with Z.lxor (zip_with Z.lxor m s) s = m.
Proof.
  revert s. induction m as [|x m IH]; intros s Hl; [done|]. destruct s as [|y s]; cbn in Hl; [lia|]. cbn [zip_with].
  f_equal; [|apply IH; lia]. by rewrite Z.lxor_assoc, Z.lxor_nilpotent, Z.lxor_0_r.
Qed.

Lemma ctr_xor_twice key iv m : ctr_xor key iv (ctr_xor key iv m) = m.
Proof.
  unfold ctr_xor at 1. rewrite length_ctr_xor. unfold ctr_xor. apply lxor_stream_twice.
  rewrite length_ctr_stream.
  pose proof (Nat.div_mod_eq (length m) 16). pose proof (Nat.mod_upper_bound (length m) 16). lia.
Qed.

(** Deciphering with the parameters of the sender gives the message back. *)
Lemma NEA2_twice key count bearer dir m :
  length key = 16%nat →
  ∃ c, NEA2 key count bearer dir m = Ok c ∧ length c = length m ∧ NEA2 key count bearer dir c = Ok m.
Proof.
  intros Hk. unfold NEA2. rewrite Hk. cbn [Nat.eqb negb].
  eexists. split; [done|]. rewrite length_ctr_xor. split; [done|]. by rewrite ctr_xor_twice.
Qed.

(** * CMAC against RFC 4493 *)

Lemma be_val_app a b : be_val (a ++ b) = be_val a * 2 ^ (8 * Z.of_nat (length b)) + be_val b.
Proof.
  induction a as [|x a IH]; cbn [app be_val]; [lia|]. rewrite IH, length_app.
  replace (8 * Z.of_nat (length a + length b)) with (8 * Z.of_nat (length a) + 8 * Z.of_nat (length b)) by lia.
  rewrite Z.pow_add_r by lia. ring.
Qed.

Lemma be_val_zeros n : be_val (replicate n 0) = 0.
Proof. induction n as [|n IH]; [done|]. cbn [replicate be_val]. by rewrite IH. Qed.

Lemma zeros_ok n : bytes_ok (replicate n 0).
Proof. unfold bytes_ok. by apply Forall_replicate. Qed.

Lemma lxor_bytes_ok a b : bytes_ok a → bytes_ok b → bytes_ok (zip_with Z.lxor a b).
Proof.
  intros Ha. revert b. induction Ha as [|x a Hx _ IH]; intros b Hb; [constructor|].
  destruct Hb as [|y b Hy Hb]; [constructor|]. constructor; [by apply lxor_u8|by apply IH].
Qed.

Lemma shift_fold l :
  bytes_ok l →
  let '(dst, carry) := foldr (λ b '(dst, carry), (Z.lor (u8 (b ≪ 1)) carry :: dst, b ≫ 7)) ([], 0) l in
  length dst = length l ∧ bytes_ok dst
  ∧ 2 * be_val l = carry * 2 ^ (8 * Z.of_nat (length l)) + be_val dst ∧ 0 <= carry <= 1.
Proof.
  induction 1 as [|x l Hx Hl IH]; [cbn; split_and!; [done|constructor|lia..]|]. cbn [foldr].
  destruct (foldr _ _ l) as [dst c]. destruct IH as (Hlen & Hd & Hv & Hc).
  unfold is_u8 in Hx. assert (u8 (x ≪ 1) = 2 * x - 256 * (x ≫ 7)) as E by (unfold u8; bitfield; dlia).
  assert (Z.lor (u8 (x ≪ 1)) c = u8 (x ≪ 1) + c) as Eor.
  { apply (lor_add _ _ 1); [lia| |lia]. rewrite E. change (2 ^ 1) with 2. bitfield. dlia. }
  rewrite Eor, E. cbn [length be_val]. rewrite Hlen, pow8.
  assert (0 <= x ≫ 7 <= 1) by (bitfield; dlia).
  split; [congruence|]. split; [|split; [|done]].
  - constructor; [|done]. unfold is_u8. rewrite <- E. unfold u8. bitfield. dlia.
  - rewrite Z.mul_add_distr_l, Hv. ring.
Qed.

Lemma shiftLeft1_spec l :
  bytes_ok l →
  length (shiftLeft1 l) = length l ∧ bytes_ok (shiftLeft1 l)
  ∧ be_val (shiftLeft1 l) = (2 * be_val l) mod 2 ^ (8 * Z.of_nat (length l)).
Proof.
  intros Hl. pose proof (shift_fold l Hl) as H. unfold shiftLeft1.
  destruct (foldr _ _ l) as [dst c]. destruct H as (Hlen & Hd & Hv & Hc). cbn [fst].
  split_and!; try done. pose proof (be_val_range dst Hd) as R. rewrite Hlen in R.
  symmetry. rewrite Hv, Z.add_comm, Z.mod_add by lia. by apply Z.mod_small.
Qed.

Lemma xor_last_eq k :
  length k = 16%nat → xor_last k = zip_with Z.lxor k (replicate 15 0 ++ [0x87]).
Proof.
  intros Hk. do 17 (destruct k as [|? k]; try done).
  cbn -[Z.lxor]. by rewrite !Z.lxor_0_r.
Qed.

Lemma top_bit l x :
  bytes_ok (x :: l) → length l = 15%nat →
  Z.testbit (be_val (x :: l)) 127 = negb (Z.land x 0x80 =? 0).
Proof.
  intros [Hx Hl]%Forall_cons Hlen. cbn [be_val]. rewrite Hlen. pose proof (be_val_range l Hl) as R.
  rewrite Hlen in R. change (8 * Z.of_nat 15) with 120 in *. unfold is_u8 in Hx.
  rewrite Z.testbit_odd, Z.shiftr_div_pow2 by lia. change (2 ^ 127) with (2 ^ 120 * 2 ^ 7).
  rewrite <- Z.div_div, Z.div_add_l, (Z.div_small (be_val l)), Z.add_0_r by lia.
  rewrite <- Z.shiftr_div_pow2, <- Z.testbit_odd by lia.
  assert (Z.land x 128 = if Z.testbit x 7 then 128 else 0) as ->; [|by destruct (Z.testbit x 7)].
  apply Z.bits_inj'. intros i Hi. rewrite Z.land_spec. change 128 with (2 ^ 7).
  destruct (Z.eq_dec i 7) as [->|].
  - rewrite Z.pow2_bits_true, andb_true_r by lia. destruct (Z.testbit x 7); [by rewrite Z.pow2_bits_true|by rewrite Z.bits_0].
  - rewrite Z.pow2_bits_false, andb_false_r by lia.
    destruct (Z.testbit x 7); [by rewrite Z.pow2_bits_false by lia|by rewrite Z.bits_0].
Qed.

Lemma subkey_spec l :
  bytes_ok l → length l = 16%nat →
  length (subkey l) = 16%nat ∧ bytes_ok (subkey l) ∧ be_val (subkey l) = dbl (be_val l).
Proof.
  intros Hl Hlen. destruct (shiftLeft1_spec l Hl) as (Hn & Hk & Hv). rewrite Hlen in Hn, Hv.
  unfold subkey, dbl. change (8 * Z.of_nat 16) with 128 in Hv.
  assert (Z.testbit (be_val l) 127 = negb (Z.land (octet_at l 0) 0x80 =? 0)) as ->.
  { destruct l as [|x l]; [done|]. injection Hlen as Hlen. by apply top_bit. }
  destruct (negb _); [|done]. rewrite xor_last_eq by done.
  assert (bytes_ok (replicate 15 0 ++ [0x87])) by (refine (bool_decide_unpack _ _); done).
  rewrite length_zip_with, Hn, be_val_lxor, Hv by done. split_and!; try done.
  by apply lxor_bytes_ok.
Qed.

(** A block: sixteen octets. *)
Definition is_block (b : bytes) : Prop := bytes_ok b ∧ length b = 16%nat.

Lemma aes_is_block key b : bytes_ok key → is_block (aes_encrypt key b).
Proof. intros. split; [by apply aes_encrypt_ok|apply length_aes_encrypt]. Qed.

Lemma zeros_is_block : is_block (replicate 16 0).
Proof. split; [apply zeros_ok|done]. Qed.

Lemma block_octets b : is_block b → be_octets 16 (be_val b) = b.
Proof. intros [Hb Hl]. rewrite <- Hl at 1. by apply be_octets_be_val. Qed.

Lemma xor_is_block a b : is_block a → is_block b → is_block (xorBlock a b).
Proof.
  intros [Ha La] [Hb Lb]. split; [by apply lxor_bytes_ok|].
  unfold xorBlock. rewrite length_zip_with. lia.
Qed.

Lemma be_val_xorBlock a b :
  is_block a → is_block b → be_val (xorBlock a b) = Z.lxor (be_val a) (be_val b).
Proof. intros [Ha La] [Hb Lb]. apply be_val_lxor; [done..|congruence]. Qed.

Lemma cbc_step_spec key x b :
  is_block x → is_block b → be_val (cbc_step key x b) = cbc128 key (be_val x) (be_val b).
Proof.
  intros Hx Hb. unfold cbc_step, cbc128. rewrite <- be_val_xorBlock by done.
  by rewrite block_octets by by apply xor_is_block.
Qed.

Lemma cbc_fold key x bs :
  bytes_ok key → is_block x → Forall is_block bs →
  is_block (foldl (cbc_step key) x bs)
  ∧ be_val (foldl (cbc_step key) x bs) = foldl (cbc128 key) (be_val x) (be_val <$> bs).
Proof.
  intros Hk Hx Hbs. revert x Hx. induction Hbs as [|b bs Hb _ IH]; intros x Hx; [done|].
  cbn [foldl fmap list_fmap]. rewrite <- cbc_step_spec by done. apply IH. by apply aes_is_block.
Qed.

Lemma chunks_blocks k m : bytes_ok m → (16 * k <= length m)%nat → Forall is_block (chunks k 16 m).
Proof.
  revert m. induction k as [|k IH]; intros m Hm Hl; [constructor|]. cbn [chunks]. constructor.
  - split; [by apply Forall_take|]. rewrite length_take. lia.
  - apply IH; [by apply Forall_drop|]. rewrite length_drop. lia.
Qed.

Lemma pad_insert (rest : bytes) :
  (length rest < 16)%nat →
  <[length rest := 0x80]> (go_copy (replicate 16 0) rest)
  = rest ++ 0x80 :: replicate (15 - length rest) 0.
Proof.
  intros Hl. unfold go_copy. rewrite length_replicate, take_ge, drop_replicate by lia.
  replace (16 - length rest)%nat with (S (15 - length rest)) by lia. cbn [replicate].
  by rewrite insert_app_r_alt, Nat.sub_diag by lia.
Qed.

Lemma pad_spec (rest : bytes) :
  bytes_ok rest → (length rest < 16)%nat →
  is_block (rest ++ 0x80 :: replicate (15 - length rest) 0)
  ∧ be_val (rest ++ 0x80 :: replicate (15 - length rest) 0)
    = be_val rest * 2 ^ (128 - 8 * Z.of_nat (length rest)) + 2 ^ (127 - 8 * Z.of_nat (length rest)).
Proof.
  intros Hr Hl. split; [split|].
  - apply Forall_app. split; [done|]. constructor; [done|apply zeros_ok].
  - rewrite length_app. cbn [length]. rewrite length_replicate. lia.
  - rewrite be_val_app. cbn [be_val length]. rewrite length_replicate, be_val_zeros, Z.add_0_r.
    f_equal; [do 2 f_equal; lia|]. change 0x80 with (2 ^ 7). rewrite <- Z.pow_add_r by lia. f_equal. lia.
Qed.

(** The split point and the last block of the code are those of the reference. *)
Lemma last_block_spec m k1 k2 :
  bytes_ok m → is_block k1 → is_block k2 →
  let n := length m in
  let flag := negb (n =? 0)%nat && (n mod blockSize =? 0)%nat in
  let lcb := if flag then (n - blockSize)%nat else (n - n mod blockSize)%nat in
  let last :=
    if flag then xorBlock (go_copy (replicate blockSize 0) (drop lcb m)) k1
    else xorBlock (<[(n mod blockSize)%nat := 0x80]> (go_copy (replicate blockSize 0) (drop lcb m))) k2 in
  is_block last ∧ (16 * (lcb / blockSize) <= n)%nat
  ∧ (be_val <$> chunks (lcb / blockSize) 16 m) ++ [be_val last] = cmac_blocks (be_val k1) (be_val k2) m.
Proof.
  intros Hm Hk1 Hk2 n flag lcb last.
  pose proof (Nat.div_mod_eq n 16) as Dn. pose proof (Nat.mod_upper_bound n 16 ltac:(done)) as Mn.
  unfold blockSize in *.
  assert (lcb = 16 * ((n - 1) / 16))%nat as Hlcb.
  { unfold lcb, flag. destruct (Nat.eqb_spec n 0) as [E|E]; [rewrite E; done|].
    destruct (Nat.eqb_spec (n mod 16) 0) as [E'|E']; cbn [negb andb].
    - rewrite <- (Nat.div_unique (n - 1) 16 (n / 16 - 1) 15); lia.
    - rewrite <- (Nat.div_unique (n - 1) 16 (n / 16) (n mod 16 - 1)); lia. }
  assert (lcb / 16 = (n - 1) / 16)%nat as Hdiv by (rewrite Hlcb, Nat.mul_comm; by apply Nat.div_mul).
  assert (length (drop lcb m) = if flag then 16%nat else (n mod 16)%nat) as Hrest.
  { rewrite length_drop. fold n. unfold lcb. destruct flag eqn:E; [|lia].
    unfold flag in E. destruct (Nat.eqb_spec n 0); [done|]. cbn [negb andb] in E.
    apply Nat.eqb_eq in E. lia. }
  assert (bytes_ok (drop lcb m)) as Hr by by apply Forall_drop.
  unfold cmac_blocks. fold n. rewrite <- Hdiv. replace (16 * (lcb / 16))%nat with lcb by lia.
  rewrite Hrest. assert (lcb <= n)%nat by (unfold lcb; destruct flag; lia).
  unfold last. destruct flag.
  - rewrite go_copy_full by done. cbn [Nat.eqb]. assert (is_block (drop lcb m)) by by split.
    split; [by apply xor_is_block|]. split; [done|]. by rewrite be_val_xorBlock.
  - rewrite <- Hrest at 1 2 4. rewrite pad_insert by lia.
    destruct (pad_spec (drop lcb m) Hr ltac:(lia)) as [Hb Hv].
    split; [by apply xor_is_block|]. split; [done|]. rewrite be_val_xorBlock, Hv, Hrest by done.
    by destruct (Nat.eqb_spec (n mod 16) 16); [lia|].
Qed.

Lemma aesCMAC_spec key m :
  bytes_ok key → bytes_ok m → aesCMAC key m = be_octets 16 (cmac key m).
Proof.
  intros Hk Hm. unfold aesCMAC, generateSubkeys, cmac.
  pose proof (aes_is_block key (replicate 16 0) Hk) as [HL HLn].
  destruct (subkey_spec _ HL HLn) as (Hn1 & Hk1 & Hv1).
  destruct (subkey_spec _ Hk1 Hn1) as (Hn2 & Hk2 & Hv2).
  change blockSize with 16%nat in *. change (be_octets 16 0) with (replicate 16 0).
  rewrite <- Hv1, <- Hv2.
  destruct (last_block_spec m (subkey (aes_encrypt key (replicate 16 0)))
              (subkey (subkey (aes_encrypt key (replicate 16 0)))) Hm) as (Hb & Hl & <-); [by split..|].
  rewrite foldl_app. cbn [foldl].
  destruct (cbc_fold key (replicate 16 0) _ Hk zeros_is_block (chunks_blocks _ m Hm Hl)) as [Hx Hvx].
  rewrite be_val_zeros in Hvx. rewrite <- Hvx, <- cbc_step_spec by done.
  symmetry. apply block_octets. by apply aes_is_block.
Qed.

Lemma nia2_header_octets count bearer dir :
  is_u32 count → 0 <= bearer < 32 → 0 <= dir < 2 →
  put_be32 count ++ [Z.lor (u8 (Z.land bearer 0x1F ≪ 3)) (u8 (Z.land dir 0x01 ≪ 2))] ++ [0; 0; 0]
  = be_octets 8 (nia2_header count bearer dir).
Proof.
  intros Hc Hb Hd. unfold nia2_header, put_be32, is_u32 in *. cbn [app].
  assert (Z.lor (u8 (Z.land bearer 0x1F ≪ 3)) (u8 (Z.land dir 0x01 ≪ 2)) = bearer * 8 + dir * 4) as ->.
  { rewrite (lor_add _ _ 3); unfold u8; bitfield; dlia. }
  cbn [be_octets]. unfold u8. change (8 * Z.of_nat 7) with 56. change (8 * Z.of_nat 6) with 48.
  change (8 * Z.of_nat 5) with 40. change (8 * Z.of_nat 4) with 32. change (8 * Z.of_nat 3) with 24.
  change (8 * Z.of_nat 2) with 16. change (8 * Z.of_nat 1) with 8. change (8 * Z.of_nat 0) with 0.
  bitfield. change (2 ^ 26) with 67108864. change (2 ^ 5) with 32.
  repeat (apply (f_equal2 cons); [dlia|]). done.
Qed.

(** * The theorem *)

(** C20: the integrity code of a NAS message is 128-NIA2 of TS 33.401 B.2.3: the
    first 32 bits of the AES-CMAC of RFC 4493 over COUNT, BEARER, DIRECTION, 26
    zero bits and the message; the byte-wise shifts, the subkeys and the padding
    of the code implement the doubling in GF(2^128) and the block padding of the
    RFC for messages of any length. *)
Theorem NIA2_rfc4493 key count bearer dir message :
  length key = 16%nat → bytes_ok key → bytes_ok message →
  is_u32 count → 0 <= bearer < 32 → 0 <= dir < 2 →
  NIA2 key count bearer dir message
  = Ok (take 4 (be_octets 16 (cmac key (be_octets 8 (nia2_header count bearer dir) ++ message)))).
Proof.
  intros Hl Hk Hm Hc Hb Hd. unfold NIA2. rewrite Hl. cbn [Nat.eqb negb].
  rewrite <- aesCMAC_spec, <- nia2_header_octets by
    (done || (apply Forall_app; split; [apply be_octets_ok|done])).
  by rewrite <- !app_assoc.
Qed.

Lemma NIA2_rfc4493_witness :
  NIA2 (be_octets 16 0x2b7e151628aed2a6abf7158809cf4f3c) 7 1 1 [0x7E; 0x00; 0x5D]
  = Ok (take 4 (be_octets 16 (cmac (be_octets 16 0x2b7e151628aed2a6abf7158809cf4f3c)
         (be_octets 8 (nia2_header 7 1 1) ++ [0x7E; 0x00; 0x5D])))).
Proof.
  apply (NIA2_rfc4493 (be_octets 16 0x2b7e151628aed2a6abf7158809cf4f3c) 7 1 1 [0x7E; 0x00; 0x5D]);
    [done|apply be_octets_ok|refine (bool_decide_unpack _ _); done|done|lia|lia].
Defined.
