(* ===== verification/CryptoAka.v ===== *)
(** Authentication and key agreement: the key derivation functions of
    [shared/crypto/kdf], the Milenage functions of [shared/crypto/milenage] and
    the 5G-AKA procedures of [shared/aka].

    Fixed-size Go arrays are octet strings; the length hypotheses of the
    theorems are the array types of the source.  The random challenge, which the
    source draws from [crypto/rand], is an argument. *)
From S2P Require Import Prelude GoCrypto CryptoNas.

(** * Key derivation *)

Definition derive (key s : bytes) : bytes := hmac_sha256 key s.

(** [FC || P0 || L0 || P1 || L1 || ...] with two-octet lengths. *)
Definition buildS (fc : Z) (params : list bytes) : bytes :=
  foldl (λ s p, s ++ p ++ [u8 (Z.of_nat (length p) ≫ 8); u8 (Z.of_nat (length p))]) [fc] params.

Definition KAUSF (ck ik snName sqnXorAK : bytes) : bytes := derive (ck ++ ik) (buildS 0x6A [snName; sqnXorAK]).
Definition KSEAF (kausf snName : bytes) : bytes := derive kausf (buildS 0x6C [snName]).
Definition KAMF (kseaf supi abba : bytes) : bytes := derive kseaf (buildS 0x6D [supi; abba]).

Definition algDistNASEnc : Z := 0x01.
Definition algDistNASInt : Z := 0x02.
Definition algDistRRCEnc : Z := 0x03.
Definition algDistRRCInt : Z := 0x04.
Definition algDistUPEnc : Z := 0x05.
Definition algDistUPInt : Z := 0x06.

(** [out[16:]]; [derive] returns 32 octets. *)
Definition KNASint (kamf : bytes) (algID : Z) : bytes := drop 16 (derive kamf (buildS 0x69 [[algDistNASInt]; [algID]])).
Definition KNASenc (kamf : bytes) (algID : Z) : bytes := drop 16 (derive kamf (buildS 0x69 [[algDistNASEnc]; [algID]])).
Definition KRRCint (kgnb : bytes) (algID : Z) : bytes := drop 16 (derive kgnb (buildS 0x69 [[algDistRRCInt]; [algID]])).
Definition KRRCenc (kgnb : bytes) (algID : Z) : bytes := drop 16 (derive kgnb (buildS 0x69 [[algDistRRCEnc]; [algID]])).
Definition KUPint (kgnb : bytes) (algID : Z) : bytes := drop 16 (derive kgnb (buildS 0x69 [[algDistUPInt]; [algID]])).
Definition KUPenc (kgnb : bytes) (algID : Z) : bytes := drop 16 (derive kgnb (buildS 0x69 [[algDistUPEnc]; [algID]])).

Definition KNH (kamf synchInput : bytes) : bytes := derive kamf (buildS 0x6F [synchInput]).
Definition KgNB (kamf : bytes) (nasCount accessType : Z) : bytes :=
  derive kamf (buildS 0x6E [put_be32 nasCount; [accessType]]).

Definition XRESStar (ck ik snName rand xres : bytes) : bytes :=
  drop 16 (derive (ck ++ ik) (buildS 0x6B [snName; rand; xres])).
Definition HRESStar (rand xresStar : bytes) : bytes := drop 16 (sha256 (rand ++ xresStar)).
Definition DeriveRaw (key : bytes) (fc : Z) (params : list bytes) : bytes := derive key (buildS fc params).

(** * Milenage *)

Record AV := mkAV { av_RAND : bytes; av_XRES : bytes; av_AUTN : bytes; av_CK : bytes; av_IK : bytes }.

Definition xorBytes16 (a b : bytes) : bytes := xorBlock a b.
Definition xorSQN (a b : bytes) : bytes := zip_with Z.lxor a b.

Definition ComputeOPc (k op : bytes) : bytes := xorBytes16 (aes_encrypt k op) op.

(** The loop body for octet [i] of the result. *)
Definition rotateTowardMSB128 (b : bytes) (n : nat) : bytes :=
  if (n =? 0)%nat then b
  else
    let n := (n mod 128)%nat in
    let byteShift := (n / 8)%nat in
    let bitShift := Z.of_nat (n mod 8) in
    block16 (λ i,
      let src := ((i + byteShift) mod 16)%nat in
      let o := octet_at b src ≫ bitShift in
      if 0 <? bitShift then Z.lor o (u8 (octet_at b ((src + 1) mod 16) ≪ (8 - bitShift))) else o).

Definition rotR : list nat := [64; 0; 32; 64; 96]%nat.
Definition applyConstC1 : bytes := replicate 16 0.
Definition applyConstC2 : bytes := replicate 15 0 ++ [1].
Definition applyConstC3 : bytes := replicate 15 0 ++ [2].
Definition applyConstC4 : bytes := replicate 15 0 ++ [4].
Definition applyConstC5 : bytes := replicate 15 0 ++ [8].

Definition computeOut1 (k temp opc sqn amf : bytes) : bytes :=
  let in1 := sqn ++ amf ++ sqn ++ amf in
  let rot := rotateTowardMSB128 (xorBytes16 (xorBytes16 in1 opc) applyConstC1) 64 in
  xorBytes16 (aes_encrypt k (xorBytes16 rot temp)) opc.

(** [TEMP], the encrypted challenge the functions share. *)
Definition milenage_temp (k opc rand : bytes) : bytes := aes_encrypt k (xorBytes16 rand opc).

(** [OUTn] for n = 2, ..., 5: rotate, add the constant, encrypt. *)
Definition milenage_out (k opc temp : bytes) (r : nat) (c : bytes) : bytes :=
  xorBytes16 (aes_encrypt k (xorBytes16 (rotateTowardMSB128 (xorBytes16 temp opc) r) c)) opc.

Definition GenerateAV (k opc rand sqn amf : bytes) : AV * bytes :=
  let temp := milenage_temp k opc rand in
  let macA := take 8 (computeOut1 k temp opc sqn amf) in
  let out2 := milenage_out k opc temp 0 applyConstC2 in
  let ak := take 6 out2 in
  let xres := drop 8 out2 in
  let autn := xorSQN sqn ak ++ amf ++ macA in
  let ck := milenage_out k opc temp 32 applyConstC3 in
  let ik := milenage_out k opc temp 64 applyConstC4 in
  (mkAV rand xres autn ck ik, ak).

Definition ComputeMACS (k opc rand sqnMS amf : bytes) : bytes :=
  drop 8 (computeOut1 k (milenage_temp k opc rand) opc sqnMS amf).

Definition VerifyMACS (k opc rand sqnMS macS : bytes) : bool :=
  bool_decide (ComputeMACS k opc rand sqnMS [0x00; 0x00] = macS).

Definition F5Star (k opc rand : bytes) : bytes :=
  take 6 (milenage_out k opc (milenage_temp k opc rand) 96 applyConstC5).

Definition SQNFromAUTS (auts akStar : bytes) : bytes := zip_with Z.lxor (take 6 auts) akStar.

(** The three fields and whether the all-zero error is returned with them. *)
Definition ValidateAUTN (autn ak : bytes) : bytes * bytes * bytes * bool :=
  let sqn := zip_with Z.lxor (take 6 autn) ak in
  let amf := take 2 (drop 6 autn) in
  let macA := drop 8 autn in
  (sqn, amf, macA,
   bool_decide (sqn = replicate 6 0) && bool_decide (amf = replicate 2 0)
   && bool_decide (macA = replicate 8 0)).

(** * 5G-AKA *)

Record AuthContext := mkAuthContext {
  ac_SUPI : bytes; ac_SUCI : bytes; ac_ServingNetName : bytes;
  ac_RAND : bytes; ac_XRES : bytes; ac_XRESStar : bytes; ac_HRESStar : bytes; ac_KAUSF : bytes; ac_AUTN : bytes;
  ac_CreatedAt : Z;    (* nanoseconds *)
  ac_Confirmed : bool;
  ac_AuthType : string; ac_EAPKAut : bytes; ac_EAPIdentifier : Z }.

Definition set_Confirmed (c : AuthContext) : AuthContext :=
  mkAuthContext (ac_SUPI c) (ac_SUCI c) (ac_ServingNetName c) (ac_RAND c) (ac_XRES c) (ac_XRESStar c)
    (ac_HRESStar c) (ac_KAUSF c) (ac_AUTN c) (ac_CreatedAt c) true (ac_AuthType c) (ac_EAPKAut c)
    (ac_EAPIdentifier c).

Record HEAVInput := mkHEAVInput { in_SUPI : bytes; in_K : bytes; in_OPc : bytes; in_AMF : bytes; in_SQN : bytes }.

Record HEAuthVector := mkHEAuthVector { hv_RAND : bytes; hv_XRES : bytes; hv_AUTN : bytes; hv_KAUSF : bytes }.

Definition GenerateHEAV (inp : HEAVInput) (snName rand : bytes) : HEAuthVector * bytes :=
  let '(av, ak) := GenerateAV (in_K inp) (in_OPc inp) rand (in_SQN inp) (in_AMF inp) in
  let sqnXorAK := zip_with Z.lxor (in_SQN inp) ak in
  (mkHEAuthVector (av_RAND av) (av_XRES av) (av_AUTN av) (KAUSF (av_CK av) (av_IK av) snName sqnXorAK),
   sqnXorAK).

Record HEAVFull := mkHEAVFull {
  he_RAND : bytes; he_XRES : bytes; he_AUTN : bytes; he_KAUSF : bytes;
  he_XRESStar : bytes; he_HRESStar : bytes }.

Definition GenerateFull (inp : HEAVInput) (snName rand : bytes) : HEAVFull :=
  let '(av, ak) := GenerateAV (in_K inp) (in_OPc inp) rand (in_SQN inp) (in_AMF inp) in
  let sqnXorAK := zip_with Z.lxor (in_SQN inp) ak in
  let kausf := KAUSF (av_CK av) (av_IK av) snName sqnXorAK in
  let xresStar := XRESStar (av_CK av) (av_IK av) snName (av_RAND av) (av_XRES av) in
  mkHEAVFull (av_RAND av) (av_XRES av) (av_AUTN av) kausf xresStar (HRESStar (av_RAND av) xresStar).

Definition authExpiry : Z := 5 * 60 * 1000000000.

(** The context is shared by pointer: [Confirmed] is set in place. *)
Definition VerifyRES (ctx : option AuthContext) (resStar : bytes) (now : Z) : res (AuthContext * bytes) :=
  match ctx with
  | None => Err "aka: auth context not found"
  | Some c =>
      if authExpiry <? i64 (now - ac_CreatedAt c) then Err "aka: auth context expired"
      else
        let resOK := bool_decide (resStar = ac_XRESStar c) in
        let hresOK := bool_decide (HRESStar (ac_RAND c) resStar = ac_HRESStar c) in
        if negb resOK && negb hresOK then Err "aka: RES* verification failed"
        else Ok (set_Confirmed c, ac_KAUSF c)
  end.

Definition ResyncFromAUTS (k opc rand auts : bytes) : res bytes :=
  let sqnMS := SQNFromAUTS auts (F5Star k opc rand) in
  let macS := drop 6 auts in
  if VerifyMACS k opc rand sqnMS macS then Ok sqnMS
  else Err "aka: resync: MAC-S verification failed — AUTS rejected".

(** The carry loop, from the last octet. *)
Fixpoint inc_loop (rev_sqn : bytes) : bytes :=
  match rev_sqn with
  | [] => []
  | b :: rest => let b' := u8 (b + 1) in if b' =? 0 then b' :: inc_loop rest else b' :: rest
  end.

Definition IncrementSQN (sqn : bytes) : bytes := reverse (inc_loop (reverse sqn)).

(** * Lengths *)

Lemma length_xor a b n : length a = n → length b = n → length (zip_with Z.lxor a b) = n.
Proof. intros Ha Hb. rewrite length_zip_with. lia. Qed.

Lemma length_computeOut1 k temp opc sqn amf : length opc = 16%nat → length (computeOut1 k temp opc sqn amf) = 16%nat.
Proof. intros. apply length_xor; [apply length_aes_encrypt|done]. Qed.

Lemma length_milenage_out k opc temp r c : length opc = 16%nat → length (milenage_out k opc temp r c) = 16%nat.
Proof. intros. apply length_xor; [apply length_aes_encrypt|done]. Qed.

Lemma length_F5Star k opc rand : length opc = 16%nat → length (F5Star k opc rand) = 6%nat.
Proof. intros. unfold F5Star. by rewrite length_take, length_milenage_out. Qed.

Lemma length_ComputeMACS k opc rand sqn amf : length opc = 16%nat → length (ComputeMACS k opc rand sqn amf) = 8%nat.
Proof. intros. unfold ComputeMACS. by rewrite length_drop, length_computeOut1. Qed.

(** Removing a mask that was added. *)
Lemma lxor_mask (a m : bytes) : (length a <= length m)%nat → zip_with Z.lxor (zip_with Z.lxor a m) m = a.
Proof. apply lxor_stream_twice. Qed.

(** * Re-synchronisation *)

(** The UDM takes a re-synchronisation token for the sequence number SQN
    exactly when the token is the one a UE with the same key builds for SQN:
    SQN masked with f5*, followed by the f1* code over SQN and the null AMF.  A
    valid token gives back the UE's sequence number and any other 14 octets are
    rejected. *)
Lemma ResyncFromAUTS_iff k opc rand auts sqn :
  length opc = 16%nat → length auts = 14%nat →
  ResyncFromAUTS k opc rand auts = Ok sqn ↔
  length sqn = 6%nat ∧
  auts = zip_with Z.lxor sqn (F5Star k opc rand) ++ ComputeMACS k opc rand sqn [0x00; 0x00].
Proof.
  intros Ho Ha. pose proof (length_F5Star k opc rand Ho) as Hf.
  assert (length (take 6 auts) = 6%nat) as Ht by (rewrite length_take; lia).
  unfold ResyncFromAUTS, VerifyMACS, SQNFromAUTS. split.
  - case_bool_decide as E; [|done]. intros [= <-]. split; [by apply length_xor|].
    rewrite E, lxor_mask, take_drop by lia. done.
  - intros [Hs ->]. assert (length (zip_with Z.lxor sqn (F5Star k opc rand)) = 6%nat) as Hx by by apply length_xor.
    rewrite take_app_length', drop_app_length' by done.
    rewrite lxor_mask by lia. by rewrite bool_decide_eq_true_2.
Qed.

(** * The run of 5G-AKA *)

(** The UE's side of TS 33.501 6.1.3.2: recover the sequence number, check
    MAC-A, and compute RES* and KAUSF from its own key. *)
Definition ue_respond (k opc rand autn snName : bytes) : option (bytes * bytes * bytes) :=
  let temp := milenage_temp k opc rand in
  let out2 := milenage_out k opc temp 0 applyConstC2 in
  let '(sqn, amf, macA, _) := ValidateAUTN autn (take 6 out2) in
  let ck := milenage_out k opc temp 32 applyConstC3 in
  let ik := milenage_out k opc temp 64 applyConstC4 in
  if bool_decide (macA = take 8 (computeOut1 k temp opc sqn amf))
  then Some (sqn, XRESStar ck ik snName rand (drop 8 out2), KAUSF ck ik snName (take 6 autn))
  else None.

(** The token splits back into its parts. *)
Lemma autn_parts sqn ak amf macA :
  length sqn = 6%nat → length ak = 6%nat → length amf = 2%nat →
  let autn := xorSQN sqn ak ++ amf ++ macA in
  take 6 autn = xorSQN sqn ak ∧ zip_with Z.lxor (take 6 autn) ak = sqn
  ∧ take 2 (drop 6 autn) = amf ∧ drop 8 autn = macA.
Proof.
  intros Hs Hk Ha autn. assert (length (xorSQN sqn ak) = 6%nat) as Hx by by apply length_xor.
  unfold autn. rewrite take_app_length', drop_app_length' by done. split; [done|].
  split; [apply lxor_mask; lia|]. split; [by apply take_app_length'|].
  rewrite app_assoc. apply drop_app_length'. rewrite length_app. lia.
Qed.

(** The context the AUSF keeps for a vector. *)
Definition auth_context (inp : HEAVInput) (snName : bytes) (he : HEAVFull) (now : Z) : AuthContext :=
  mkAuthContext (in_SUPI inp) [] snName (he_RAND he) (he_XRES he) (he_XRESStar he) (he_HRESStar he)
    (he_KAUSF he) (he_AUTN he) now false "5G_AKA" [] 0.

(** A run of 5G-AKA agrees.  For every subscriber, challenge and serving
    network, a UE that holds the subscriber's key accepts the network's AUTN,
    recovers the network's sequence number, and its RES* is accepted by the AUSF
    for five minutes, with the two sides holding the same KAUSF. *)
Lemma aka_run_agrees inp snName rand t0 now :
  length (in_OPc inp) = 16%nat → length (in_SQN inp) = 6%nat → length (in_AMF inp) = 2%nat →
  0 <= now - t0 <= authExpiry →
  let he := GenerateFull inp snName rand in
  let ctx := auth_context inp snName he t0 in
  ∃ resStar kausf,
    ue_respond (in_K inp) (in_OPc inp) (he_RAND he) (he_AUTN he) snName = Some (in_SQN inp, resStar, kausf)
    ∧ VerifyRES (Some ctx) resStar now = Ok (set_Confirmed ctx, kausf).
Proof.
  intros Ho Hs Ha Ht he ctx. unfold authExpiry in Ht.
  pose proof (length_milenage_out (in_K inp) (in_OPc inp) (milenage_temp (in_K inp) (in_OPc inp) rand) 0
                applyConstC2 Ho) as H2.
  assert (length (take 6 (milenage_out (in_K inp) (in_OPc inp)
            (milenage_temp (in_K inp) (in_OPc inp) rand) 0 applyConstC2)) = 6%nat) as Hak
    by (rewrite length_take; lia).
  eexists _, _. split.
  - unfold ue_respond, ValidateAUTN, he, GenerateFull, GenerateAV. cbn [he_RAND he_AUTN av_RAND av_AUTN].
    edestruct (autn_parts (in_SQN inp)) as (E6 & Es & Ea & Em); [done|exact Hak|exact Ha|].
    rewrite Es, Ea, Em, E6. by rewrite bool_decide_eq_true_2.
  - unfold VerifyRES, ctx, auth_context, he, GenerateFull, GenerateAV. cbn [ac_CreatedAt ac_XRESStar ac_RAND ac_HRESStar
      he_RAND he_XRESStar he_HRESStar he_KAUSF av_RAND av_CK av_IK av_XRES ac_KAUSF].
    unfold authExpiry. rewrite i64_small by (unfold is_i64; lia).
    destruct (Z.ltb_spec (5 * 60 * 1000000000) (now - t0)); [lia|].
    rewrite bool_decide_eq_true_2 by done. reflexivity.
Qed.

(** * Sequence numbers *)

Lemma be_val_reverse_cons x l : be_val (reverse (x :: l)) = be_val (reverse l) * 256 + x.
Proof. rewrite reverse_cons, be_val_app. cbn [be_val length]. change (2 ^ (8 * Z.of_nat 1)) with 256. lia. Qed.

Lemma inc_loop_spec l :
  bytes_ok l →
  be_val (reverse (inc_loop l)) = (be_val (reverse l) + 1) mod 2 ^ (8 * Z.of_nat (length l)).
Proof.
  induction 1 as [|b l Hb Hl IH]; [done|]. cbn [inc_loop length]. rewrite pow8.
  pose proof (be_val_range (reverse l)) as R. rewrite length_reverse in R.
  specialize (R ltac:(by apply Forall_reverse)). pose proof (pow8_pos (length l)).
  unfold is_u8, u8 in *. destruct (Z.eq_dec b 255) as [->|Hne].
  - change ((255 + 1) mod 256 =? 0) with true. cbn [Z.eqb]. cbv iota.
    rewrite !be_val_reverse_cons, IH. change ((255 + 1) mod 256) with 0.
    replace (be_val (reverse l) * 256 + 255 + 1) with (256 * (be_val (reverse l) + 1)) by ring.
    rewrite Z.mul_mod_distr_l by lia. ring.
  - rewrite Z.mod_small by lia. destruct (Z.eqb_spec (b + 1) 0); [lia|].
    rewrite !be_val_reverse_cons, Z.mod_small by nia. ring.
Qed.

(** [IncrementSQN] is the successor of the 48-bit sequence number, with the
    carry through every octet and wrap-around at 2^48. *)
Lemma IncrementSQN_succ sqn :
  bytes_ok sqn → length sqn = 6%nat →
  be_val (IncrementSQN sqn) = (be_val sqn + 1) mod 2 ^ 48.
Proof.
  intros Hs Hl. unfold IncrementSQN. rewrite inc_loop_spec by by apply Forall_reverse.
  rewrite reverse_involutive, length_reverse, Hl. done.
Qed.

(** * Rotation *)

(** rot(x, r) of TS 35.206: the 128-bit rotation toward the most significant bit. *)
Definition rotl128 (n v : Z) : Z := (v * 2 ^ n) mod 2 ^ 128 + v / 2 ^ (128 - n).

Lemma rotate_octets b k :
  length b = 16%nat → (k < 16)%nat → rotateTowardMSB128 b (8 * k) = drop k b ++ take k b.
Proof.
  intros Hb Hk. do 17 (destruct b as [|? b]; try done).
  do 16 (destruct k as [|k]; [by cbn -[Z.shiftr]; rewrite ?Z.shiftr_0_r|]). lia.
Qed.

(** For whole octets, which are the only rotations Milenage uses, the function
    is the rotation of the standard. *)
Lemma rotate_rotl b k :
  is_block b → (k < 16)%nat →
  be_val (rotateTowardMSB128 b (8 * k)) = rotl128 (8 * Z.of_nat k) (be_val b).
Proof.
  intros [Hb Hl] Hk. rewrite rotate_octets, be_val_app by done. unfold rotl128.
  assert (be_val b = be_val (take k b) * 2 ^ (8 * Z.of_nat (16 - k)) + be_val (drop k b)) as ->
    by (rewrite <- (take_drop k b) at 1; by rewrite be_val_app, length_drop, Hl).
  rewrite length_take, Hl.
  pose proof (be_val_range (drop k b) ltac:(by apply Forall_drop)) as R1. rewrite length_drop, Hl in R1.
  pose proof (be_val_range (take k b) ltac:(by apply Forall_take)) as R2. rewrite length_take, Hl in R2.
  replace (k `min` 16)%nat with k in * by lia.
  replace (128 - 8 * Z.of_nat k) with (8 * Z.of_nat (16 - k)) by lia.
  assert (2 ^ 128 = 2 ^ (8 * Z.of_nat (16 - k)) * 2 ^ (8 * Z.of_nat k)) as ->
    by (rewrite <- Z.pow_add_r by lia; f_equal; lia).
  pose proof (pow8_pos k). pose proof (pow8_pos (16 - k)).
  rewrite Z.div_add_l, (Z.div_small (be_val (drop k b))), Z.add_0_r by lia. f_equal.
  rewrite Z.mul_mod_distr_r by lia. f_equal.
  rewrite Z.add_comm, Z.mod_add by lia. symmetry. by apply Z.mod_small.
Qed.

(** For other amounts it is not: one bit toward the most significant end. *)
Example rotate_one_bit :
  be_val (rotateTowardMSB128 (be_octets 16 1) 1) ≠ rotl128 1 (be_val (be_octets 16 1)).
Proof. vm_compute. discriminate. Qed.

(** The fallback of [VerifyRES] does not accept a caller that sends HRES*. *)
Example VerifyRES_HRESStar_rejected :
  let c := mkAuthContext [] [] [] [1] [] [2] (HRESStar [1] [2]) [3] [] 0 false "5G_AKA" [] 0 in
  VerifyRES (Some c) (HRESStar [1] [2]) 0 = Err "aka: RES* verification failed".
Proof. vm_compute. reflexivity. Qed.

(** * TS 35.207, test set 1 *)

Example milenage_test_set_1 :
  let k := be_octets 16 0x465b5ce8b199b49faa5f0a2ee238a6bc in
  let opc := ComputeOPc k (be_octets 16 0xcdc202d5123e20f62b6d676ac72cb318) in
  let rand := be_octets 16 0x23553cbe9637a89d218ae64dae47bf35 in
  let '(av, ak) := GenerateAV k opc rand (be_octets 6 0xff9bb4d0b607) [0xb9; 0xb9] in
  be_val opc = 0xcd63cb71954a9f4e48a5994e37a02baf
  ∧ be_val (av_XRES av) = 0xa54211d5e3ba50bf ∧ be_val ak = 0xaa689c648370
  ∧ be_val (av_CK av) = 0xb40ba9a3c58b2a05bbf0d987b21bf8cb
  ∧ be_val (av_IK av) = 0xf769bcd751044604127672711c6d3441
  ∧ be_val (drop 8 (av_AUTN av)) = 0x4a9ffac354dfafb3
  ∧ be_val (ComputeMACS k opc rand (be_octets 6 0xff9bb4d0b607) [0xb9; 0xb9]) = 0x01cfaf9ec4e871e9
  ∧ be_val (F5Star k opc rand) = 0x451e8beca43b.
Proof. vm_compute. repeat split. Qed.
