(* ===== verification/CryptoEap.v ===== *)
(** EAP: the generic packets of [shared/crypto/eap/eap.go], and EAP-AKA'
    (RFC 5448), its key hierarchy [shared/crypto/eapaka/eapaka.go] and its packet
    codec [shared/crypto/eapaka/codec.go]. *)

From S2P Require Import Prelude NasIE GoCrypto CryptoNas CryptoAka.

(** * Generic EAP packets *)

Module Eap.
Definition CodeRequest : Z := 1.
Definition CodeResponse : Z := 2.
Definition CodeSuccess : Z := 3.
Definition CodeFailure : Z := 4.
Definition TypeIdentity : Z := 1.

Definition buildTyped (code identifier typ : Z) (data : bytes) : bytes :=
  let length := 5 + Z.of_nat (length data) in
  [code; identifier; u8 (length ≫ 8); u8 length; typ] ++ data.

Definition BuildIdentityRequest (identifier : Z) : bytes := buildTyped CodeRequest identifier TypeIdentity [].
Definition BuildIdentityResponse (identifier : Z) (identity : bytes) : bytes :=
  buildTyped CodeResponse identifier TypeIdentity identity.
Definition BuildSuccess (identifier : Z) : bytes := [CodeSuccess; identifier; 0; 4].
Definition BuildFailure (identifier : Z) : bytes := [CodeFailure; identifier; 0; 4].

Definition Code (pkt : bytes) : res Z :=
  if (length pkt <? 4)%nat then Err "eap: packet too short" else idx pkt 0.
Definition Identifier (pkt : bytes) : res Z :=
  if (length pkt <? 4)%nat then Err "eap: packet too short" else idx pkt 1.

Definition eap_Type (pkt : bytes) : res Z :=
  if (length pkt <? 5)%nat then Err "eap: packet has no type field"
  else
    c ← idx pkt 0;
    if negb (c =? CodeRequest) && negb (c =? CodeResponse) then Err "eap: code has no type field"
    else idx pkt 4.

Definition Identity (pkt : bytes) : res bytes :=
  t ← eap_Type pkt;
  if negb (t =? TypeIdentity) then Err "eap: not an Identity packet" else slice_from pkt 5.

Definition eap_Validate (pkt : bytes) : res unit :=
  if (length pkt <? 4)%nat then Err "eap: packet too short"
  else
    h ← idx pkt 2; l ← idx pkt 3;
    if negb (be16 h l =? Z.of_nat (length pkt)) then Err "eap: length field != packet len" else Ok tt.
End Eap.

(** * The key hierarchy of EAP-AKA' *)

Definition fcCKPrimeIKPrime : Z := 0x20.
Definition lenKEncr : nat := 16.
Definition lenKAut : nat := 32.
Definition lenKRe : nat := 32.
Definition lenMSK : nat := 64.
Definition lenEMSK : nat := 64.
Definition mkLen : nat := lenKEncr + lenKAut + lenKRe + lenMSK + lenEMSK.
Definition prfPrimeLabel : bytes := str "EAP-AKA'".

Record Keys := mkKeys { KEncr : bytes; KAut : bytes; KRe : bytes; MSK : bytes; EMSK : bytes }.

Definition DeriveCKPrimeIKPrime (ck ik snName sqnXorAK : bytes) : bytes * bytes :=
  let out := DeriveRaw (ck ++ ik) fcCKPrimeIKPrime [snName; sqnXorAK] in
  (take 16 out, take 16 (drop 16 out)).

(** The loop appends 32 octets a round; the counter is a byte. *)
Fixpoint prf_loop (fuel : nat) (key s prev : bytes) (i : Z) (out : bytes) (outLen : nat) : bytes :=
  if (outLen <=? length out)%nat then out
  else match fuel with
       | O => out
       | S fuel =>
           let prev := hmac_sha256 key (prev ++ s ++ [i]) in
           prf_loop fuel key s prev (u8 (i + 1)) (out ++ prev) outLen
       end.

Definition PRFPrime (key s : bytes) (outLen : nat) : bytes :=
  take outLen (prf_loop (outLen / 32 + 1) key s [] 1 [] outLen).

Definition DeriveKeys (ckPrime ikPrime identity : bytes) : Keys :=
  let mk := PRFPrime (ikPrime ++ ckPrime) (prfPrimeLabel ++ identity) mkLen in
  mkKeys (take lenKEncr mk) (take lenKAut (drop lenKEncr mk)) (take lenKRe (drop (lenKEncr + lenKAut) mk))
    (take lenMSK (drop (lenKEncr + lenKAut + lenKRe) mk))
    (take lenEMSK (drop (lenKEncr + lenKAut + lenKRe + lenMSK) mk)).

Definition KAUSFFromEMSK (emsk : bytes) : res bytes := s ← slice emsk 0 32; Ok (go_copy (replicate 32 0) s).

(** * The packet codec *)

Definition TypeEAPAKAPrime : Z := 50.
Definition subtypeAKAChallenge : Z := 1.
Definition atRAND : Z := 1.
Definition atAUTN : Z := 2.
Definition atRES : Z := 3.
Definition atMAC : Z := 11.
Definition atKDFInput : Z := 23.
Definition atKDF : Z := 24.
Definition kdfAKAPrime : Z := 1.
Definition macLen : nat := 16.
Definition headerLen : nat := 8.

Definition put_be16 (v : Z) : bytes := [u8 (v ≫ 8); u8 v].

Definition encodeAttr (typ : Z) (value : bytes) : bytes :=
  let pad := ((2 + length value) mod 4)%nat in
  let value := if (pad =? 0)%nat then value else value ++ replicate (4 - pad) 0 in
  [typ; u8 (Z.of_nat ((2 + length value) / 4))] ++ value.

Definition fixedAttr (typ : Z) (data : bytes) : bytes := encodeAttr typ ([0; 0] ++ data).
Definition resAttr (r : bytes) : bytes := encodeAttr atRES (put_be16 (Z.of_nat (length r) * 8) ++ r).
Definition kdfInputAttr (name : bytes) : bytes := encodeAttr atKDFInput (put_be16 (Z.of_nat (length name)) ++ name).
Definition kdfAttr (id : Z) : bytes := encodeAttr atKDF (put_be16 id).

Definition frame (code identifier subtype : Z) (attrs : bytes) : bytes :=
  [code; identifier] ++ put_be16 (Z.of_nat (headerLen + length attrs)) ++ [TypeEAPAKAPrime; subtype; 0; 0] ++ attrs.

(** The offset of the first attribute of a type; a round moves at least four
    octets on. *)
Fixpoint find_loop (fuel : nat) (pkt : bytes) (typ : Z) (off : nat) : res (option nat) :=
  if (length pkt <? off + 2)%nat then Ok None
  else match fuel with
       | O => OutOfFuel
       | S fuel =>
           aTyp ← idx pkt off; l ← idx pkt (off + 1);
           let aLen := (Z.to_nat l * 4)%nat in
           if (aLen =? 0)%nat || (length pkt <? off + aLen)%nat then Ok None
           else if aTyp =? typ then Ok (Some off)
           else find_loop fuel pkt typ (off + aLen)
       end.

Definition findAttr (pkt : bytes) (typ : Z) : res (option nat) :=
  if (length pkt <? headerLen)%nat then Ok None else find_loop (length pkt) pkt typ headerLen.

Definition computeMAC (pkt kAut : bytes) : bytes := take macLen (hmac_sha256 kAut pkt).

(** [copy(pkt[i:i+n], src)] for an in-range window of the length of [src]. *)
Definition write_at (pkt : bytes) (i : nat) (src : bytes) : bytes :=
  take i pkt ++ src ++ drop (i + length src) pkt.

Definition insertMAC (pkt kAut : bytes) : res bytes :=
  off ← findAttr pkt atMAC;
  match off with
  | None => Ok pkt
  | Some off =>
      let mac := computeMAC pkt kAut in
      _ ← slice pkt (off + 4) (off + 4 + macLen);
      Ok (write_at pkt (off + 4) mac)
  end.

Definition BuildChallenge (identifier : Z) (rand autn networkName kAut : bytes) : res bytes :=
  let attrs := fixedAttr atRAND rand ++ fixedAttr atAUTN autn ++ kdfAttr kdfAKAPrime
               ++ kdfInputAttr networkName ++ fixedAttr atMAC (replicate macLen 0) in
  insertMAC (frame Eap.CodeRequest identifier subtypeAKAChallenge attrs) kAut.

Definition BuildResponse (identifier : Z) (r kAut : bytes) : res bytes :=
  let attrs := resAttr r ++ fixedAttr atMAC (replicate macLen 0) in
  insertMAC (frame Eap.CodeResponse identifier subtypeAKAChallenge attrs) kAut.

Definition VerifyMAC (pkt kAut : bytes) : res bool :=
  off ← findAttr pkt atMAC;
  match off with
  | None => Ok false
  | Some off =>
      if (length pkt <? off + 4 + macLen)%nat then Ok false
      else
        got ← slice pkt (off + 4) (off + 4 + macLen);
        Ok (bool_decide (got = computeMAC (write_at pkt (off + 4) (replicate macLen 0)) kAut))
  end.

Definition ExtractRES (pkt : bytes) : res bytes :=
  off ← findAttr pkt atRES;
  match off with
  | None => Err "eapaka: AT_RES not found"
  | Some off =>
      if (length pkt <? off + 4)%nat then Err "eapaka: truncated AT_RES"
      else
        h ← idx pkt (off + 2); l ← idx pkt (off + 3);
        let n := Z.to_nat (u16 (be16 h l + 7) / 8) in
        if (length pkt <? off + 4 + n)%nat then Err "eapaka: AT_RES length exceeds packet"
        else slice pkt (off + 4) (off + 4 + n)
  end.

(** [eapaka.Validate] *)
Definition Validate (pkt : bytes) : res unit :=
  if (length pkt <? 4)%nat then Err "eapaka: packet too short"
  else
    h ← idx pkt 2; l ← idx pkt 3;
    if negb (be16 h l =? Z.of_nat (length pkt)) then Err "eapaka: length mismatch" else Ok tt.

(** * The transformed authentication vector ([shared/aka]) *)

Record EAPAKAPrimeAV := mkEAPAKAPrimeAV {
  pa_RAND : bytes; pa_AUTN : bytes; pa_XRES : bytes; pa_CKPrime : bytes; pa_IKPrime : bytes }.

Definition GenerateEAPAKAPrime (inp : HEAVInput) (snName rand : bytes) : EAPAKAPrimeAV :=
  let '(av, ak) := GenerateAV (in_K inp) (in_OPc inp) rand (in_SQN inp) (in_AMF inp) in
  let sqnXorAK := zip_with Z.lxor (in_SQN inp) ak in
  let '(ckPrime, ikPrime) := DeriveCKPrimeIKPrime (av_CK av) (av_IK av) snName sqnXorAK in
  mkEAPAKAPrimeAV (av_RAND av) (av_AUTN av) (av_XRES av) ckPrime ikPrime.

(** * The attribute list *)

(** One attribute of [4 k] octets. *)
Definition is_attr (typ : Z) (a : bytes) : Prop :=
  ∃ k v, a = typ :: Z.of_nat k :: v ∧ (1 <= k < 256)%nat ∧ length a = (4 * k)%nat.

(** A list of attributes none of which has type [typ]. *)
Inductive attrs_without (typ : Z) : bytes → Prop :=
| attrs_nil : attrs_without typ []
| attrs_cons t a l : t ≠ typ → is_attr t a → attrs_without typ l → attrs_without typ (a ++ l).
#[local] Hint Constructors attrs_without : core.

Lemma attrs_app typ l1 l2 : attrs_without typ l1 → attrs_without typ l2 → attrs_without typ (l1 ++ l2).
Proof. induction 1; intros; [done|]. rewrite <- app_assoc. eauto. Qed.

Lemma attrs_one typ t a : t ≠ typ → is_attr t a → attrs_without typ a.
Proof. intros. rewrite <- (app_nil_r a). eauto. Qed.

Lemma encodeAttr_attr typ v : (length v <= 1018)%nat → is_attr typ (encodeAttr typ v).
Proof.
  intros Hl. unfold encodeAttr. match goal with |- context [if ?b then v else ?c] => set (w := if b then v else c) end.
  assert ((2 + length w) mod 4 = 0 ∧ length w <= 1018)%nat as [Hm Hw].
  { subst w. case_match eqn:E; [apply Nat.eqb_eq in E|apply Nat.eqb_neq in E; rewrite length_app, length_replicate].
    - done.
    - pose proof (Nat.div_mod_eq (2 + length v) 4). pose proof (Nat.mod_upper_bound (2 + length v) 4).
      split; [|lia]. rewrite Nat.add_assoc. set (p := ((2 + length v) mod 4)%nat) in *. set (q := ((2 + length v) / 4)%nat) in *.
      replace (2 + length v + (4 - p))%nat with ((q + 1) * 4)%nat by lia. by apply Nat.Div0.mod_mul. }
  pose proof (Nat.div_mod_eq (2 + length w) 4).
  exists ((2 + length w) / 4)%nat, w. rewrite u8_small by (unfold is_u8; lia). split_and!; [done|lia|lia|cbn [length app]; lia].
Qed.

Lemma lookup_after {A} (pre post : list A) i : (pre ++ post) !! (length pre + i)%nat = post !! i.
Proof. rewrite lookup_app_r by lia. f_equal. lia. Qed.

Lemma idx_after {A} (pre post : list A) i x :
  post !! i = Some x → idx (pre ++ post) (length pre + i) = Ok x.
Proof. intros H. unfold idx. by rewrite lookup_after, H. Qed.

(** One round of the walk over a well-formed attribute. *)
Lemma find_round fuel pre t a post typ :
  is_attr t a →
  find_loop (S fuel) (pre ++ a ++ post) typ (length pre)
  = if t =? typ then Ok (Some (length pre)) else find_loop fuel (pre ++ a ++ post) typ (length pre + length a).
Proof.
  intros (k & v & -> & Hk & Hl). cbn [find_loop]. nat_ltb; [rewrite !length_app in *; cbn in *; lia|].
  replace (idx _ (length pre)) with (@Ok Z t); [|symmetry; rewrite <- (Nat.add_0_r (length pre)); by apply idx_after].
  rewrite (idx_after pre _ 1 (Z.of_nat k)) by done. cbn [mbind res_bind]. rewrite Nat2Z.id.
  replace (k * 4)%nat with (length (t :: Z.of_nat k :: v)) by lia.
  destruct (Nat.eqb_spec (length (t :: Z.of_nat k :: v)) 0); [cbn in *; lia|].
  nat_ltb; [rewrite !length_app in *; lia|]. done.
Qed.

Lemma find_attr_at typ l pre a post fuel :
  attrs_without typ l → is_attr typ a → (length l < fuel)%nat →
  find_loop fuel (pre ++ l ++ a ++ post) typ (length pre) = Ok (Some (length pre + length l)%nat).
Proof.
  intros Hl Ha. revert pre fuel. induction Hl as [|t b l Ht Hb Hl IH]; intros pre fuel Hf.
  - destruct fuel as [|fuel]; [cbn in Hf; lia|]. rewrite app_nil_l, (find_round _ _ typ) by done.
    rewrite Z.eqb_refl. cbn. by rewrite Nat.add_0_r.
  - destruct fuel as [|fuel]; [lia|]. rewrite <- (app_assoc b), (find_round _ _ t) by done.
    destruct (Z.eqb_spec t typ); [done|]. rewrite <- length_app, (app_assoc pre), IH.
    + rewrite !length_app. do 2 f_equal. lia.
    + destruct Hb as (k & v & -> & ? & Hlen). rewrite length_app in Hf. lia.
Qed.

Lemma findAttr_at typ hdr l a post :
  length hdr = headerLen → attrs_without typ l → is_attr typ a →
  findAttr (hdr ++ l ++ a ++ post) typ = Ok (Some (headerLen + length l)%nat).
Proof.
  intros Hh Hl Ha. unfold findAttr. nat_ltb; [rewrite length_app in *; lia|].
  rewrite <- Hh. apply find_attr_at; [done..|]. rewrite !length_app, Hh. unfold headerLen. lia.
Qed.

(** * The MAC *)

Lemma write_at_app pre old src post :
  length src = length old → write_at (pre ++ old ++ post) (length pre) src = pre ++ src ++ post.
Proof.
  intros Hl. unfold write_at. rewrite take_app_length.
  replace (drop (length pre + length src) (pre ++ old ++ post)) with post; [done|].
  rewrite <- drop_drop, drop_app_length, Hl, drop_app_length. done.
Qed.

Definition mac_head : bytes := [atMAC; 5; 0; 0].
Definition mac_attr (mac : bytes) : bytes := mac_head ++ mac.

Lemma mac_attr_attr mac : length mac = macLen → is_attr atMAC (mac_attr mac).
Proof. intros H. exists 5%nat, ([0; 0] ++ mac). cbn. rewrite H. split_and!; [done|lia..|done]. Qed.

Lemma mac_slot {A} (pre a mac post : list A) :
  length mac = macLen → length a = 4%nat →
  slice (pre ++ (a ++ mac) ++ post) (length pre + 4) (length pre + 4 + macLen) = Ok mac.
Proof.
  intros Hm Ha. rewrite slice_Ok by (rewrite ?length_app; lia). f_equal.
  replace (length pre + 4 + macLen - (length pre + 4))%nat with (length mac) by lia.
  rewrite <- Ha, <- drop_drop, drop_app_length, <- app_assoc, drop_app_length. apply take_app_length.
Qed.

Lemma length_computeMAC p k : length (computeMAC p k) = macLen.
Proof. unfold computeMAC. rewrite length_take, length_hmac_sha256. done. Qed.

(** Inserting a MAC in a packet whose last attribute is a zeroed [AT_MAC], and
    verifying the result. *)
Lemma insertMAC_verify hdr l kAut :
  length hdr = headerLen → attrs_without atMAC l →
  let pkt0 := hdr ++ l ++ mac_attr (replicate macLen 0) in
  let pkt := hdr ++ l ++ mac_attr (computeMAC pkt0 kAut) in
  insertMAC pkt0 kAut = Ok pkt ∧ VerifyMAC pkt kAut = Ok true.
Proof.
  intros Hh Hl pkt0 pkt.
  assert (∀ mac, length mac = macLen → findAttr (hdr ++ l ++ mac_attr mac) atMAC = Ok (Some (length (hdr ++ l)))) as Hf.
  { intros mac Hm. rewrite <- (app_nil_r (mac_attr mac)), findAttr_at by auto using mac_attr_attr.
    by rewrite length_app, Hh. }
  assert (∀ mac, hdr ++ l ++ mac_attr mac = (hdr ++ l ++ mac_head) ++ mac ++ []) as Hpos.
  { intros. unfold mac_attr. by rewrite app_nil_r, <- !app_assoc. }
  assert (length (hdr ++ l) + 4 = length (hdr ++ l ++ mac_head))%nat as Hoff by (rewrite !length_app; cbn; lia).
  assert (∀ mac, length mac = macLen →
    slice (hdr ++ l ++ mac_attr mac) (length (hdr ++ l) + 4) (length (hdr ++ l) + 4 + macLen) = Ok mac) as Hs.
  { intros mac Hm. rewrite <- (app_nil_r (mac_attr mac)), app_assoc. by apply mac_slot. }
  assert (∀ a b, length a = macLen → length b = macLen →
    write_at (hdr ++ l ++ mac_attr a) (length (hdr ++ l) + 4) b = hdr ++ l ++ mac_attr b) as Hw.
  { intros a b Ha Hb. rewrite Hoff, !Hpos. apply write_at_app. lia. }
  pose proof (length_computeMAC pkt0 kAut) as Hm. split.
  - unfold insertMAC, pkt0. rewrite Hf by apply length_replicate. cbn [mbind res_bind].
    rewrite Hs by apply length_replicate. cbn [mbind res_bind]. f_equal. by apply Hw.
  - unfold VerifyMAC, pkt. rewrite Hf by done. cbn [mbind res_bind].
    replace (length (hdr ++ l ++ mac_attr (computeMAC pkt0 kAut))) with (length (hdr ++ l) + 4 + macLen)%nat
      by (unfold mac_attr; rewrite !length_app, Hm; cbn; lia).
    rewrite Nat.ltb_irrefl, Hs by done. cbn [mbind res_bind]. rewrite Hw by done. by rewrite bool_decide_eq_true_2.
Qed.

Lemma fixedAttr_mac mac : length mac = macLen → fixedAttr atMAC mac = mac_attr mac.
Proof.
  intros H. unfold fixedAttr, encodeAttr.
  assert (length ([0; 0] ++ mac) = 18%nat) as E by (rewrite length_app, H; done).
  rewrite E. change ((2 + 18) mod 4 =? 0)%nat with true. cbv iota zeta. by rewrite E.
Qed.


(** ** Round trips *)

Lemma encodeAttr_value typ v :
  ∃ k pad, encodeAttr typ v = typ :: k :: v ++ pad.
Proof. unfold encodeAttr. case_match; [exists (u8 (Z.of_nat ((2 + length v) / 4))), []; by rewrite app_nil_r|]. by do 2 eexists. Qed.

Lemma ExtractRES_at hdr r post :
  length hdr = headerLen → (length r <= 1016)%nat → ExtractRES (hdr ++ resAttr r ++ post) = Ok r.
Proof.
  intros Hh Hr. unfold ExtractRES.
  assert (is_attr atRES (resAttr r)) as Ha by (apply encodeAttr_attr; rewrite length_app; cbn; lia).
  pose proof (findAttr_at atRES hdr [] (resAttr r) post Hh (attrs_nil _) Ha) as Hf. rewrite app_nil_l in Hf.
  rewrite Hf. cbn [mbind res_bind length]. rewrite Nat.add_0_r, <- Hh. destruct (encodeAttr_value atRES (put_be16 (Z.of_nat (length r) * 8) ++ r)) as (k & pad & E).
  change (resAttr r) with (encodeAttr atRES (put_be16 (Z.of_nat (length r) * 8) ++ r)). rewrite E. cbn [app put_be16].
  nat_ltb; [rewrite length_app in *; cbn in *; lia|].
  rewrite (idx_after hdr _ 2 (u8 ((Z.of_nat (length r) * 8) ≫ 8))) by done.
  rewrite (idx_after hdr _ 3 (u8 (Z.of_nat (length r) * 8))) by done. cbn [mbind res_bind].
  rewrite be16_split by (unfold is_u16; lia).
  assert (Z.to_nat (u16 (Z.of_nat (length r) * 8 + 7) / 8) = length r) as ->.
  { rewrite u16_small by (unfold is_u16; lia). rewrite <- (Nat2Z.id (length r)) at 2. f_equal. dlia. }
  nat_ltb; [rewrite length_app in *; cbn in *; rewrite !length_app in *; lia|].
  rewrite slice_Ok by (rewrite ?length_app; cbn; rewrite ?length_app; lia). f_equal.
  rewrite <- drop_drop, drop_app_length. cbn [drop]. replace (_ - _)%nat with (length r) by lia.
  by rewrite drop_0, <- app_assoc, take_app_length.
Qed.

(** The length field of a framed packet is right, whatever was then written into
    the attributes. *)
Lemma Validate_frame code id sub (attrs attrs' : bytes) :
  length attrs' = length attrs → Z.of_nat (headerLen + length attrs) < 65536 →
  Validate ([code; id] ++ put_be16 (Z.of_nat (headerLen + length attrs)) ++ [TypeEAPAKAPrime; sub; 0; 0] ++ attrs') = Ok tt.
Proof.
  intros Hl Hb. unfold Validate. cbn [app put_be16 length Nat.ltb Nat.leb idx lookup list_lookup mbind res_bind].
  rewrite be16_split by (unfold is_u16; lia). rewrite Hl. cbn [length headerLen] in *.
  destruct (Z.eqb_spec (Z.of_nat (headerLen + length attrs)) (Z.of_nat (S (S (S (S (S (S (S (S (length attrs))))))))))) as [|n];
    [done|]. unfold headerLen in n. lia.
Qed.

(** Common part of the two packets: any attributes without [AT_MAC], then the MAC. *)
Lemma framed_MAC code id l kAut :
  attrs_without atMAC l → Z.of_nat (headerLen + length l + 20) < 65536 →
  ∃ hdr mac, let pkt := hdr ++ l ++ mac_attr mac in
    insertMAC (frame code id subtypeAKAChallenge (l ++ fixedAttr atMAC (replicate macLen 0))) kAut = Ok pkt ∧
    length hdr = headerLen ∧ VerifyMAC pkt kAut = Ok true ∧ Validate pkt = Ok tt.
Proof.
  intros Hl Hb. rewrite fixedAttr_mac by done. set (attrs := l ++ mac_attr (replicate macLen 0)).
  set (hdr := [code; id] ++ put_be16 (Z.of_nat (headerLen + length attrs)) ++ [TypeEAPAKAPrime; subtypeAKAChallenge; 0; 0]).
  destruct (insertMAC_verify hdr l kAut eq_refl Hl) as [Hi Hv]. do 2 eexists. split_and!; [exact Hi|done|exact Hv|].
  assert (∀ a, length a = macLen → length (l ++ mac_attr a) = (length l + 20)%nat) as Hlen.
  { intros a Ha. unfold mac_attr. rewrite !length_app, Ha. change (length mac_head + macLen)%nat with 20%nat. lia. }
  unfold hdr. rewrite <- !app_assoc. apply Validate_frame.
  - unfold attrs. rewrite !Hlen; [done|apply length_replicate|apply length_computeMAC].
  - unfold attrs. rewrite Hlen by apply length_replicate. lia.
Qed.

(** An EAP-AKA' response carries its RES: the packet the peer builds has a
    consistent length, its MAC verifies under the same authentication key, and
    the RES extracted from it is the one it was built with. *)
Lemma eap_response_roundtrip id r kAut :
  (length r <= 1016)%nat →
  ∃ pkt, BuildResponse id r kAut = Ok pkt ∧ Validate pkt = Ok tt ∧ VerifyMAC pkt kAut = Ok true ∧
         ExtractRES pkt = Ok r.
Proof.
  intros Hr.
  assert (is_attr atRES (resAttr r)) as Ha by (apply encodeAttr_attr; rewrite length_app; cbn; lia).
  destruct (framed_MAC Eap.CodeResponse id (resAttr r) kAut) as (hdr & mac & Hi & Hh & Hv & Hval).
  - by apply (attrs_one _ atRES).
  - destruct Ha as (k & v & E & Hk & Hl). rewrite Hl. unfold headerLen. lia.
  - eexists. split_and!; [exact Hi|done|done|]. by apply ExtractRES_at.
Qed.

(** The challenge of the server verifies at the peer. *)
Lemma eap_challenge_verifies id rand autn name kAut :
  length rand = 16%nat → length autn = 16%nat → (length name <= 1016)%nat →
  ∃ pkt, BuildChallenge id rand autn name kAut = Ok pkt ∧ Validate pkt = Ok tt ∧ VerifyMAC pkt kAut = Ok true.
Proof.
  intros Hr Hu Hn. unfold BuildChallenge.
  set (l := fixedAttr atRAND rand ++ fixedAttr atAUTN autn ++ kdfAttr kdfAKAPrime ++ kdfInputAttr name).
  assert (is_attr atRAND (fixedAttr atRAND rand)) as A1 by (apply encodeAttr_attr; rewrite length_app; cbn; lia).
  assert (is_attr atAUTN (fixedAttr atAUTN autn)) as A2 by (apply encodeAttr_attr; rewrite length_app; cbn; lia).
  assert (is_attr atKDF (kdfAttr kdfAKAPrime)) as A3 by (apply encodeAttr_attr; cbn; lia).
  assert (is_attr atKDFInput (kdfInputAttr name)) as A4 by (apply encodeAttr_attr; rewrite length_app; cbn; lia).
  destruct (framed_MAC Eap.CodeRequest id l kAut) as (hdr & mac & Hi & Hh & Hv & Hval).
  - unfold l. eapply attrs_cons; [|exact A1|]; [done|]. eapply attrs_cons; [|exact A2|]; [done|].
    eapply attrs_cons; [|exact A3|]; [done|]. by eapply attrs_one; [|exact A4].
  - unfold l. rewrite !length_app. destruct A1 as (k1 & ? & ? & ? & ->), A2 as (k2 & ? & ? & ? & ->),
      A3 as (k3 & ? & ? & ? & ->), A4 as (k4 & ? & ? & ? & ->). unfold headerLen. lia.
  - eexists. split_and!; [|done|done]. rewrite <- Hi. unfold l. by rewrite <- !app_assoc.
Qed.

(** ** Totality *)

Lemma find_loop_safe fuel pkt typ off :
  (length pkt < off + 4 * fuel)%nat →
  safe (find_loop fuel pkt typ off) ∧ ∀ o, find_loop fuel pkt typ off = Ok (Some o) → (o + 4 <= length pkt)%nat.
Proof.
  revert off. induction fuel as [|fuel IH]; intros off Hf; cbn [find_loop]; nat_ltb; try by split.
  { lia. }
  destruct (idx_Ok pkt off) as (x & _ & ->); [lia|]. destruct (idx_Ok pkt (off + 1)) as (y & _ & ->); [lia|].
  cbn [mbind res_bind]. destruct (Nat.eqb_spec (Z.to_nat y * 4) 0); [by split|]. cbn [orb].
  nat_ltb; [by split|]. destruct (x =? typ); [|apply IH; lia]. split; [done|]. intros o [= <-]. lia.
Qed.

Lemma findAttr_safe pkt typ :
  safe (findAttr pkt typ) ∧ ∀ o, findAttr pkt typ = Ok (Some o) → (o + 4 <= length pkt)%nat.
Proof. unfold findAttr. nat_ltb; [by split|]. apply find_loop_safe. unfold headerLen in *. lia. Qed.

(** The parsers return on every octet string: the walk over the attributes
    terminates and no access is out of range. *)
Lemma VerifyMAC_safe pkt kAut : safe (VerifyMAC pkt kAut).
Proof.
  unfold VerifyMAC. destruct (findAttr_safe pkt atMAC) as [Hs _]. apply safe_bind; [done|].
  intros [off|] _; [|done]. nat_ltb; [done|]. rewrite slice_Ok by lia. done.
Qed.

Lemma ExtractRES_safe pkt : safe (ExtractRES pkt).
Proof.
  unfold ExtractRES. destruct (findAttr_safe pkt atRES) as [Hs Hb]. apply safe_bind; [done|].
  intros [off|] E; [|done]. specialize (Hb off E). nat_ltb; [done|].
  destruct (idx_Ok pkt (off + 2)) as (x & _ & ->); [lia|]. destruct (idx_Ok pkt (off + 3)) as (y & _ & ->); [lia|].
  cbn [mbind res_bind]. nat_ltb; [done|]. by rewrite slice_Ok by lia.
Qed.

Lemma prf_loop_length fuel key s prev i out outLen :
  (outLen <= length out + 32 * fuel)%nat → (outLen <= length (prf_loop fuel key s prev i out outLen))%nat.
Proof.
  revert prev i out. induction fuel as [|fuel IH]; intros prev i out Hf; cbn [prf_loop];
    destruct (Nat.leb_spec outLen (length out)); [lia..|]. apply IH. rewrite length_app, length_hmac_sha256. lia.
Qed.

Lemma length_PRFPrime key s n : length (PRFPrime key s n) = n.
Proof.
  unfold PRFPrime. rewrite length_take. pose proof (prf_loop_length (n / 32 + 1) key s [] 1 [] n).
  pose proof (Nat.div_mod_eq n 32). pose proof (Nat.mod_upper_bound n 32). cbn [length] in *. lia.
Qed.

(** RFC 5448 appendix C, case 1. *)
Example eap_aka_prime_keys :
  let hex s := default [] (hexDecode (str s)) in
  let '(ck', ik') := DeriveCKPrimeIKPrime (hex "5349fbe098649f948f5d2e973a81c00f") (hex "9744871ad32bf9bbd1dd5ce54e3e2e5a")
                       (str "WLAN") (hex "bb52e91c747a") in
  let k := DeriveKeys ck' ik' (str "0555444333222111") in
  ck' = hex "0093962d0dd84aa5684b045c9edffa04" ∧ ik' = hex "ccfc230ca74fcc96c0a5d61164f5a76c" ∧
  KEncr k = hex "766fa0a6c317174b812d52fbcd11a179" ∧
  KRe k = hex "cf83aa8bc7e0aced892acc98e76a9b2095b558c7795c7094715cb3393aa7d17a" ∧
  KAUSFFromEMSK (EMSK k) = Ok (hex "f861703cd775590e16c7679ea3874ada866311de290764d760cf76df647ea01c").
Proof. vm_compute. done. Qed.
