(* ===== verification/AmfContext.v ===== *)
(** The UE contexts of the AMF, [nf/amf/internal/context/context.go], with the
    persistence contracts of [nf/amf/internal/store/store.go].

    UE contexts are shared by pointer between the three indexes of the manager
    and the procedures, so they live in a heap and the indexes map keys to
    locations.  A critical section of the manager is one step.  The store and
    the cache are classes; log lines are not modelled.  The fields of [UEContext]
    that no operation of this file reads or writes are left out. *)
From stdpp Require Import relations.
From S2P Require Import Prelude GoCrypto CryptoNas CryptoAka.

Definition loc := positive.

(** * Data *)

Inductive CMState := CMIdle | CMConnected.
Inductive GMM5State := GMMDeregistered | GMMRegistered | GMMDeregisteredInitiated | GMMServiceRequestInitiated.
#[global] Instance CMState_eq_dec : EqDecision CMState.
Proof. solve_decision. Defined.
#[global] Instance GMM5State_eq_dec : EqDecision GMM5State.
Proof. solve_decision. Defined.

Record SecurityContext := mkSecurityContext {
  sc_NGKSI : Z; sc_IntegrityAlgID : Z; sc_CipheringAlgID : Z;
  sc_KAMF : bytes; sc_KNASint : bytes; sc_KNASenc : bytes;
  sc_UplinkCount : Z; sc_DownlinkCount : Z;   (* uint32 *)
  sc_Active : bool }.

Record GUTI5G := mkGUTI5G {
  g_MCC : string; g_MNC : string; g_AMFRegionID : Z; g_AMFSetID : Z; g_AMFID : Z; g_TMSI : Z }.

Record SNSSAISubscribed := mkSNSSAISubscribed {
  s_SST : Z; s_SD : string; s_DNN : string; s_SubjectToNSSAA : bool }.

Record PDUSession := mkPDUSession {
  ps_PDUSessionID : Z; ps_SMFInstanceID : string; ps_SMFAddress : string; ps_SNSSAI : SNSSAISubscribed;
  ps_DNN : string; ps_PDUSessionType : string; ps_QFIs : list Z; ps_N2SmTransfer : bytes }.

(** A [*time.Timer]: nil, or whether it is running. *)
Definition timer : Type := option bool.

(** The fields of [UEContext] for the authentication in progress, for
    slice-specific authentication and for the policies of the PCF. *)
Record AuthState := mkAuthState {
  au_RegistrationType : Z; au_UESecCapEA : list bool; au_UESecCapIA : list bool;
  au_AuthCtxID : string; au_PendingRAND : bytes; au_PendingNGKSI : Z; au_KAUSF : bytes }.
Definition noAuth : AuthState := mkAuthState 0 (replicate 8 false) (replicate 8 false) "" (replicate 16 0) 0 [].

Record SliceState := mkSliceState {
  sl_Pending : list SNSSAISubscribed; sl_InProgress : option SNSSAISubscribed;
  sl_EAPID : Z; sl_Rejected : list SNSSAISubscribed }.
Definition noSlices : SliceState := mkSliceState [] None 0 [].

Record ServiceAreaRestriction := mkServiceAreaRestriction {
  sar_RestrictionType : string; sar_AllowedTACs : list string; sar_NotAllowedTACs : list string }.

Record PolicyState := mkPolicyState {
  po_PolicyAssociationID : string; po_AMPolicyAssocID : string; po_RFSP : Z;
  po_ServAreaRes : option ServiceAreaRestriction; po_PendingPolicyContainer : bytes; po_T3512SentSecs : Z;
  po_URSPVersion : Z   (* uint8 *) }.
Definition noPolicy : PolicyState := mkPolicyState "" "" 0 None [] 0 0.

Record UEContext := mkUE {
  ue_SUPI : string; ue_SUCI : string; ue_GUTI : option GUTI5G;
  ue_AMFUENGAPId : Z; ue_RANUENGAPId : Z;
  ue_KgNB : bytes; ue_NH : bytes; ue_NCC : Z; ue_NHValid : bool;
  ue_CMState : CMState; ue_State : GMM5State;
  ue_SecurityCtx : SecurityContext; ue_RawUESecCap : bytes;
  ue_AllowedNSSAI : list SNSSAISubscribed; ue_RequestedNSSAI : list SNSSAISubscribed;
  ue_AMBRUL : Z; ue_AMBRDL : Z;
  ue_PDUSessions : gmap Z PDUSession;
  ue_pagedPDUSessions : gset Z;
  ue_RegistrationTime : Z; ue_LastActivity : Z;
  ue_MobileReachableTimer : timer; ue_ImplicitDetachTimer : timer; ue_PendingRemovalTimer : timer;
  ue_PEI : string; ue_TAC : Z;   (* TAI.TAC *)
  ue_Auth : AuthState; ue_NSSAA : SliceState; ue_Policy : PolicyState; ue_PendingRemoval : bool }.

Definition noSecurity : SecurityContext := mkSecurityContext 0 0 0 [] [] [] 0 0 false.

(** ** Field updates *)

Definition set_SUPI (v : string) (u : UEContext) : UEContext :=
  mkUE v (ue_SUCI u) (ue_GUTI u) (ue_AMFUENGAPId u) (ue_RANUENGAPId u) (ue_KgNB u) (ue_NH u) (ue_NCC u)
    (ue_NHValid u) (ue_CMState u) (ue_State u) (ue_SecurityCtx u) (ue_RawUESecCap u) (ue_AllowedNSSAI u)
    (ue_RequestedNSSAI u) (ue_AMBRUL u) (ue_AMBRDL u) (ue_PDUSessions u) (ue_pagedPDUSessions u)
    (ue_RegistrationTime u) (ue_LastActivity u) (ue_MobileReachableTimer u) (ue_ImplicitDetachTimer u)
    (ue_PendingRemovalTimer u) (ue_PEI u) (ue_TAC u) (ue_Auth u)
    (ue_NSSAA u) (ue_Policy u) (ue_PendingRemoval u).

Definition set_GUTI (v : GUTI5G) (u : UEContext) : UEContext :=
  mkUE (ue_SUPI u) (ue_SUCI u) (Some v) (ue_AMFUENGAPId u) (ue_RANUENGAPId u) (ue_KgNB u) (ue_NH u) (ue_NCC u)
    (ue_NHValid u) (ue_CMState u) (ue_State u) (ue_SecurityCtx u) (ue_RawUESecCap u) (ue_AllowedNSSAI u)
    (ue_RequestedNSSAI u) (ue_AMBRUL u) (ue_AMBRDL u) (ue_PDUSessions u) (ue_pagedPDUSessions u)
    (ue_RegistrationTime u) (ue_LastActivity u) (ue_MobileReachableTimer u) (ue_ImplicitDetachTimer u)
    (ue_PendingRemovalTimer u) (ue_PEI u) (ue_TAC u) (ue_Auth u)
    (ue_NSSAA u) (ue_Policy u) (ue_PendingRemoval u).

Definition set_NH (kgnb nh : bytes) (ncc : Z) (valid : bool) (u : UEContext) : UEContext :=
  mkUE (ue_SUPI u) (ue_SUCI u) (ue_GUTI u) (ue_AMFUENGAPId u) (ue_RANUENGAPId u) kgnb nh ncc
    valid (ue_CMState u) (ue_State u) (ue_SecurityCtx u) (ue_RawUESecCap u) (ue_AllowedNSSAI u)
    (ue_RequestedNSSAI u) (ue_AMBRUL u) (ue_AMBRDL u) (ue_PDUSessions u) (ue_pagedPDUSessions u)
    (ue_RegistrationTime u) (ue_LastActivity u) (ue_MobileReachableTimer u) (ue_ImplicitDetachTimer u)
    (ue_PendingRemovalTimer u) (ue_PEI u) (ue_TAC u) (ue_Auth u)
    (ue_NSSAA u) (ue_Policy u) (ue_PendingRemoval u).

Definition set_paged (v : gset Z) (u : UEContext) : UEContext :=
  mkUE (ue_SUPI u) (ue_SUCI u) (ue_GUTI u) (ue_AMFUENGAPId u) (ue_RANUENGAPId u) (ue_KgNB u) (ue_NH u) (ue_NCC u)
    (ue_NHValid u) (ue_CMState u) (ue_State u) (ue_SecurityCtx u) (ue_RawUESecCap u) (ue_AllowedNSSAI u)
    (ue_RequestedNSSAI u) (ue_AMBRUL u) (ue_AMBRDL u) (ue_PDUSessions u) v
    (ue_RegistrationTime u) (ue_LastActivity u) (ue_MobileReachableTimer u) (ue_ImplicitDetachTimer u)
    (ue_PendingRemovalTimer u) (ue_PEI u) (ue_TAC u) (ue_Auth u)
    (ue_NSSAA u) (ue_Policy u) (ue_PendingRemoval u).

Definition set_State (v : GMM5State) (u : UEContext) : UEContext :=
  mkUE (ue_SUPI u) (ue_SUCI u) (ue_GUTI u) (ue_AMFUENGAPId u) (ue_RANUENGAPId u) (ue_KgNB u) (ue_NH u) (ue_NCC u)
    (ue_NHValid u) (ue_CMState u) v (ue_SecurityCtx u) (ue_RawUESecCap u) (ue_AllowedNSSAI u)
    (ue_RequestedNSSAI u) (ue_AMBRUL u) (ue_AMBRDL u) (ue_PDUSessions u) (ue_pagedPDUSessions u)
    (ue_RegistrationTime u) (ue_LastActivity u) (ue_MobileReachableTimer u) (ue_ImplicitDetachTimer u)
    (ue_PendingRemovalTimer u) (ue_PEI u) (ue_TAC u) (ue_Auth u)
    (ue_NSSAA u) (ue_Policy u) (ue_PendingRemoval u).

Definition set_timers (a b c : timer) (u : UEContext) : UEContext :=
  mkUE (ue_SUPI u) (ue_SUCI u) (ue_GUTI u) (ue_AMFUENGAPId u) (ue_RANUENGAPId u) (ue_KgNB u) (ue_NH u) (ue_NCC u)
    (ue_NHValid u) (ue_CMState u) (ue_State u) (ue_SecurityCtx u) (ue_RawUESecCap u) (ue_AllowedNSSAI u)
    (ue_RequestedNSSAI u) (ue_AMBRUL u) (ue_AMBRDL u) (ue_PDUSessions u) (ue_pagedPDUSessions u)
    (ue_RegistrationTime u) (ue_LastActivity u) a b c (ue_PEI u) (ue_TAC u) (ue_Auth u)
    (ue_NSSAA u) (ue_Policy u) (ue_PendingRemoval u).

Definition set_SecurityCtx (v : SecurityContext) (u : UEContext) : UEContext :=
  mkUE (ue_SUPI u) (ue_SUCI u) (ue_GUTI u) (ue_AMFUENGAPId u) (ue_RANUENGAPId u) (ue_KgNB u) (ue_NH u) (ue_NCC u)
    (ue_NHValid u) (ue_CMState u) (ue_State u) v (ue_RawUESecCap u) (ue_AllowedNSSAI u)
    (ue_RequestedNSSAI u) (ue_AMBRUL u) (ue_AMBRDL u) (ue_PDUSessions u) (ue_pagedPDUSessions u)
    (ue_RegistrationTime u) (ue_LastActivity u) (ue_MobileReachableTimer u) (ue_ImplicitDetachTimer u)
    (ue_PendingRemovalTimer u) (ue_PEI u) (ue_TAC u) (ue_Auth u)
    (ue_NSSAA u) (ue_Policy u) (ue_PendingRemoval u).

Definition set_SUCI (v : string) (u : UEContext) : UEContext :=
  mkUE (ue_SUPI u) v (ue_GUTI u) (ue_AMFUENGAPId u) (ue_RANUENGAPId u) (ue_KgNB u) (ue_NH u) (ue_NCC u)
    (ue_NHValid u) (ue_CMState u) (ue_State u) (ue_SecurityCtx u) (ue_RawUESecCap u) (ue_AllowedNSSAI u)
    (ue_RequestedNSSAI u) (ue_AMBRUL u) (ue_AMBRDL u) (ue_PDUSessions u) (ue_pagedPDUSessions u)
    (ue_RegistrationTime u) (ue_LastActivity u) (ue_MobileReachableTimer u) (ue_ImplicitDetachTimer u)
    (ue_PendingRemovalTimer u) (ue_PEI u) (ue_TAC u) (ue_Auth u) (ue_NSSAA u) (ue_Policy u) (ue_PendingRemoval u).

Definition set_CMState (v : CMState) (u : UEContext) : UEContext :=
  mkUE (ue_SUPI u) (ue_SUCI u) (ue_GUTI u) (ue_AMFUENGAPId u) (ue_RANUENGAPId u) (ue_KgNB u) (ue_NH u)
    (ue_NCC u) (ue_NHValid u) v (ue_State u) (ue_SecurityCtx u) (ue_RawUESecCap u) (ue_AllowedNSSAI u)
    (ue_RequestedNSSAI u) (ue_AMBRUL u) (ue_AMBRDL u) (ue_PDUSessions u) (ue_pagedPDUSessions u)
    (ue_RegistrationTime u) (ue_LastActivity u) (ue_MobileReachableTimer u) (ue_ImplicitDetachTimer u)
    (ue_PendingRemovalTimer u) (ue_PEI u) (ue_TAC u) (ue_Auth u) (ue_NSSAA u) (ue_Policy u) (ue_PendingRemoval u).

Definition set_RawUESecCap (v : bytes) (u : UEContext) : UEContext :=
  mkUE (ue_SUPI u) (ue_SUCI u) (ue_GUTI u) (ue_AMFUENGAPId u) (ue_RANUENGAPId u) (ue_KgNB u) (ue_NH u)
    (ue_NCC u) (ue_NHValid u) (ue_CMState u) (ue_State u) (ue_SecurityCtx u) v (ue_AllowedNSSAI u)
    (ue_RequestedNSSAI u) (ue_AMBRUL u) (ue_AMBRDL u) (ue_PDUSessions u) (ue_pagedPDUSessions u)
    (ue_RegistrationTime u) (ue_LastActivity u) (ue_MobileReachableTimer u) (ue_ImplicitDetachTimer u)
    (ue_PendingRemovalTimer u) (ue_PEI u) (ue_TAC u) (ue_Auth u) (ue_NSSAA u) (ue_Policy u) (ue_PendingRemoval u).

Definition set_AllowedNSSAI (v : list SNSSAISubscribed) (u : UEContext) : UEContext :=
  mkUE (ue_SUPI u) (ue_SUCI u) (ue_GUTI u) (ue_AMFUENGAPId u) (ue_RANUENGAPId u) (ue_KgNB u) (ue_NH u)
    (ue_NCC u) (ue_NHValid u) (ue_CMState u) (ue_State u) (ue_SecurityCtx u) (ue_RawUESecCap u) v
    (ue_RequestedNSSAI u) (ue_AMBRUL u) (ue_AMBRDL u) (ue_PDUSessions u) (ue_pagedPDUSessions u)
    (ue_RegistrationTime u) (ue_LastActivity u) (ue_MobileReachableTimer u) (ue_ImplicitDetachTimer u)
    (ue_PendingRemovalTimer u) (ue_PEI u) (ue_TAC u) (ue_Auth u) (ue_NSSAA u) (ue_Policy u) (ue_PendingRemoval u).

Definition set_ue_RequestedNSSAI (v : list SNSSAISubscribed) (u : UEContext) : UEContext :=
  mkUE (ue_SUPI u) (ue_SUCI u) (ue_GUTI u) (ue_AMFUENGAPId u) (ue_RANUENGAPId u) (ue_KgNB u) (ue_NH u)
    (ue_NCC u) (ue_NHValid u) (ue_CMState u) (ue_State u) (ue_SecurityCtx u) (ue_RawUESecCap u)
    (ue_AllowedNSSAI u) v (ue_AMBRUL u) (ue_AMBRDL u) (ue_PDUSessions u) (ue_pagedPDUSessions u)
    (ue_RegistrationTime u) (ue_LastActivity u) (ue_MobileReachableTimer u) (ue_ImplicitDetachTimer u)
    (ue_PendingRemovalTimer u) (ue_PEI u) (ue_TAC u) (ue_Auth u) (ue_NSSAA u) (ue_Policy u) (ue_PendingRemoval u).

Definition set_AMBR (ul dl : Z) (u : UEContext) : UEContext :=
  mkUE (ue_SUPI u) (ue_SUCI u) (ue_GUTI u) (ue_AMFUENGAPId u) (ue_RANUENGAPId u) (ue_KgNB u) (ue_NH u)
    (ue_NCC u) (ue_NHValid u) (ue_CMState u) (ue_State u) (ue_SecurityCtx u) (ue_RawUESecCap u)
    (ue_AllowedNSSAI u) (ue_RequestedNSSAI u) ul dl (ue_PDUSessions u) (ue_pagedPDUSessions u)
    (ue_RegistrationTime u) (ue_LastActivity u) (ue_MobileReachableTimer u) (ue_ImplicitDetachTimer u)
    (ue_PendingRemovalTimer u) (ue_PEI u) (ue_TAC u) (ue_Auth u) (ue_NSSAA u) (ue_Policy u) (ue_PendingRemoval u).

Definition set_RegistrationTime (v : Z) (u : UEContext) : UEContext :=
  mkUE (ue_SUPI u) (ue_SUCI u) (ue_GUTI u) (ue_AMFUENGAPId u) (ue_RANUENGAPId u) (ue_KgNB u) (ue_NH u)
    (ue_NCC u) (ue_NHValid u) (ue_CMState u) (ue_State u) (ue_SecurityCtx u) (ue_RawUESecCap u)
    (ue_AllowedNSSAI u) (ue_RequestedNSSAI u) (ue_AMBRUL u) (ue_AMBRDL u) (ue_PDUSessions u)
    (ue_pagedPDUSessions u) v (ue_LastActivity u) (ue_MobileReachableTimer u) (ue_ImplicitDetachTimer u)
    (ue_PendingRemovalTimer u) (ue_PEI u) (ue_TAC u) (ue_Auth u) (ue_NSSAA u) (ue_Policy u) (ue_PendingRemoval u).

Definition set_PEI (v : string) (u : UEContext) : UEContext :=
  mkUE (ue_SUPI u) (ue_SUCI u) (ue_GUTI u) (ue_AMFUENGAPId u) (ue_RANUENGAPId u) (ue_KgNB u) (ue_NH u)
    (ue_NCC u) (ue_NHValid u) (ue_CMState u) (ue_State u) (ue_SecurityCtx u) (ue_RawUESecCap u)
    (ue_AllowedNSSAI u) (ue_RequestedNSSAI u) (ue_AMBRUL u) (ue_AMBRDL u) (ue_PDUSessions u)
    (ue_pagedPDUSessions u) (ue_RegistrationTime u) (ue_LastActivity u) (ue_MobileReachableTimer u)
    (ue_ImplicitDetachTimer u) (ue_PendingRemovalTimer u) v (ue_TAC u) (ue_Auth u) (ue_NSSAA u) (ue_Policy u) (ue_PendingRemoval u).

Definition set_Auth (v : AuthState) (u : UEContext) : UEContext :=
  mkUE (ue_SUPI u) (ue_SUCI u) (ue_GUTI u) (ue_AMFUENGAPId u) (ue_RANUENGAPId u) (ue_KgNB u) (ue_NH u)
    (ue_NCC u) (ue_NHValid u) (ue_CMState u) (ue_State u) (ue_SecurityCtx u) (ue_RawUESecCap u)
    (ue_AllowedNSSAI u) (ue_RequestedNSSAI u) (ue_AMBRUL u) (ue_AMBRDL u) (ue_PDUSessions u)
    (ue_pagedPDUSessions u) (ue_RegistrationTime u) (ue_LastActivity u) (ue_MobileReachableTimer u)
    (ue_ImplicitDetachTimer u) (ue_PendingRemovalTimer u) (ue_PEI u) (ue_TAC u) v (ue_NSSAA u) (ue_Policy u) (ue_PendingRemoval u).

Definition set_NSSAA (v : SliceState) (u : UEContext) : UEContext :=
  mkUE (ue_SUPI u) (ue_SUCI u) (ue_GUTI u) (ue_AMFUENGAPId u) (ue_RANUENGAPId u) (ue_KgNB u) (ue_NH u)
    (ue_NCC u) (ue_NHValid u) (ue_CMState u) (ue_State u) (ue_SecurityCtx u) (ue_RawUESecCap u)
    (ue_AllowedNSSAI u) (ue_RequestedNSSAI u) (ue_AMBRUL u) (ue_AMBRDL u) (ue_PDUSessions u)
    (ue_pagedPDUSessions u) (ue_RegistrationTime u) (ue_LastActivity u) (ue_MobileReachableTimer u)
    (ue_ImplicitDetachTimer u) (ue_PendingRemovalTimer u) (ue_PEI u) (ue_TAC u) (ue_Auth u) v (ue_Policy u) (ue_PendingRemoval u).

Definition set_Policy (v : PolicyState) (u : UEContext) : UEContext :=
  mkUE (ue_SUPI u) (ue_SUCI u) (ue_GUTI u) (ue_AMFUENGAPId u) (ue_RANUENGAPId u) (ue_KgNB u) (ue_NH u)
    (ue_NCC u) (ue_NHValid u) (ue_CMState u) (ue_State u) (ue_SecurityCtx u) (ue_RawUESecCap u)
    (ue_AllowedNSSAI u) (ue_RequestedNSSAI u) (ue_AMBRUL u) (ue_AMBRDL u) (ue_PDUSessions u)
    (ue_pagedPDUSessions u) (ue_RegistrationTime u) (ue_LastActivity u) (ue_MobileReachableTimer u)
    (ue_ImplicitDetachTimer u) (ue_PendingRemovalTimer u) (ue_PEI u) (ue_TAC u) (ue_Auth u) (ue_NSSAA u) v
    (ue_PendingRemoval u).

Definition set_PDUSessions (v : gmap Z PDUSession) (u : UEContext) : UEContext :=
  mkUE (ue_SUPI u) (ue_SUCI u) (ue_GUTI u) (ue_AMFUENGAPId u) (ue_RANUENGAPId u) (ue_KgNB u) (ue_NH u)
    (ue_NCC u) (ue_NHValid u) (ue_CMState u) (ue_State u) (ue_SecurityCtx u) (ue_RawUESecCap u)
    (ue_AllowedNSSAI u) (ue_RequestedNSSAI u) (ue_AMBRUL u) (ue_AMBRDL u) v
    (ue_pagedPDUSessions u) (ue_RegistrationTime u) (ue_LastActivity u) (ue_MobileReachableTimer u)
    (ue_ImplicitDetachTimer u) (ue_PendingRemovalTimer u) (ue_PEI u) (ue_TAC u) (ue_Auth u) (ue_NSSAA u)
    (ue_Policy u) (ue_PendingRemoval u).

Definition set_PendingRemoval (v : bool) (u : UEContext) : UEContext :=
  mkUE (ue_SUPI u) (ue_SUCI u) (ue_GUTI u) (ue_AMFUENGAPId u) (ue_RANUENGAPId u) (ue_KgNB u) (ue_NH u)
    (ue_NCC u) (ue_NHValid u) (ue_CMState u) (ue_State u) (ue_SecurityCtx u) (ue_RawUESecCap u)
    (ue_AllowedNSSAI u) (ue_RequestedNSSAI u) (ue_AMBRUL u) (ue_AMBRDL u) (ue_PDUSessions u)
    (ue_pagedPDUSessions u) (ue_RegistrationTime u) (ue_LastActivity u) (ue_MobileReachableTimer u)
    (ue_ImplicitDetachTimer u) (ue_PendingRemovalTimer u) (ue_PEI u) (ue_TAC u) (ue_Auth u) (ue_NSSAA u)
    (ue_Policy u) v.

(** * Operations on one context *)

Definition AddPagedPDUSession (psi : Z) (u : UEContext) : UEContext :=
  set_paged ({[psi]} ∪ ue_pagedPDUSessions u) u.

Definition sortedPagedLocked (u : UEContext) : list Z := merge_sort Z.le (elements (ue_pagedPDUSessions u)).

Definition TakePagedPDUSessions (u : UEContext) : UEContext * list Z := (set_paged ∅ u, sortedPagedLocked u).

Definition nccModulus : Z := 8.
Definition InitialNCC : Z := 1.

Definition kamfUsable (kamf : bytes) : bool := existsb (λ b, negb (b =? 0)) kamf.

(** [copy(u.NH[:], kdf.KNH(...))]: the derived key has the size of the array. *)
Definition SetKgNBLocked (kgnb : bytes) (u : UEContext) : UEContext :=
  if negb (kamfUsable (sc_KAMF (ue_SecurityCtx u))) then set_NH kgnb (replicate 32 0) 0 false u
  else set_NH kgnb (go_copy (replicate 32 0) (KNH (sc_KAMF (ue_SecurityCtx u)) kgnb)) InitialNCC true u.

Definition NHChainUsableLocked (u : UEContext) : bool :=
  ue_NHValid u && kamfUsable (sc_KAMF (ue_SecurityCtx u)).

Definition NextNHLocked (u : UEContext) : UEContext * option (bytes * Z) :=
  if negb (ue_NHValid u) || negb (kamfUsable (sc_KAMF (ue_SecurityCtx u))) then (u, None)
  else
    let ncc := u8 (ue_NCC u + 1) mod nccModulus in
    let nh := go_copy (ue_NH u) (KNH (sc_KAMF (ue_SecurityCtx u)) (ue_NH u)) in
    (set_NH (ue_KgNB u) nh ncc true u, Some (nh, ncc)).

Definition SetNHState (nh : bytes) (ncc : Z) (u : UEContext) : UEContext :=
  set_NH (ue_KgNB u) nh (ncc mod nccModulus) true u.

Definition stop (t : timer) : timer := match t with Some _ => Some false | None => None end.

Definition StopAllTimers (u : UEContext) : UEContext :=
  set_timers (stop (ue_MobileReachableTimer u)) (stop (ue_ImplicitDetachTimer u))
    (stop (ue_PendingRemovalTimer u)) u.

Definition TransitionTo (newState : GMM5State) (u : UEContext) : UEContext := set_State newState u.

(** * Persisted records *)

Record SNSSAIRecord := mkSNSSAIRecord { sr_SST : Z; sr_SD : string; sr_DNN : string }.

Record PDUSessionRecord := mkPDUSessionRecord {
  pr_PDUSessionID : Z; pr_SMFInstanceID : string; pr_SMFAddress : string; pr_SNSSAI : SNSSAIRecord;
  pr_DNN : string; pr_PDUSessionType : string; pr_QFIs : list Z; pr_N2SmTransfer : bytes }.

(** The GUTI and security records have the fields of the live types. *)
Record UERecord := mkUERecord {
  rec_SUPI : string; rec_GUTI : option GUTI5G; rec_GMMState : Z; rec_CMState : Z;
  rec_SecurityCtx : SecurityContext; rec_RawUESecCap : bytes;
  rec_AllowedNSSAI : list SNSSAIRecord; rec_RequestedNSSAI : list SNSSAIRecord;
  rec_AMBRUL : Z; rec_AMBRDL : Z; rec_PDUSessions : list PDUSessionRecord;
  rec_RegistrationTime : Z; rec_LastActivity : Z }.

(** The integer conversions of the state enumerations ([iota] order). *)
Definition GMM5State_int (s : GMM5State) : Z :=
  match s with
  | GMMDeregistered => 0 | GMMRegistered => 1
  | GMMDeregisteredInitiated => 2 | GMMServiceRequestInitiated => 3
  end.
Definition CMState_int (s : CMState) : Z := match s with CMIdle => 0 | CMConnected => 1 end.

Definition session_record (p : PDUSession) : PDUSessionRecord :=
  mkPDUSessionRecord (ps_PDUSessionID p) (ps_SMFInstanceID p) (ps_SMFAddress p)
    (mkSNSSAIRecord (s_SST (ps_SNSSAI p)) (s_SD (ps_SNSSAI p)) "") (ps_DNN p) (ps_PDUSessionType p)
    (ps_QFIs p) (ps_N2SmTransfer p).

(** The sessions are listed in an iteration order of the map. *)
Definition ueContextToRecord (u : UEContext) (now : Z) : UERecord :=
  mkUERecord (ue_SUPI u) (ue_GUTI u) (GMM5State_int (ue_State u)) (CMState_int (ue_CMState u))
    (ue_SecurityCtx u) (ue_RawUESecCap u)
    ((λ s, mkSNSSAIRecord (s_SST s) (s_SD s) (s_DNN s)) <$> ue_AllowedNSSAI u)
    ((λ s, mkSNSSAIRecord (s_SST s) (s_SD s) "") <$> ue_RequestedNSSAI u)
    (ue_AMBRUL u) (ue_AMBRDL u)
    ((λ p, session_record p.2) <$> map_to_list (ue_PDUSessions u))
    (ue_RegistrationTime u) now.

(** * The contracts of the store and of the cache

    An operation returns the new state of the service and, where it can fail,
    [None] or [false] for an error. *)

Class Store (D : Type) := {
  UpsertUE : D → UERecord → D * bool;
  DeleteUE : D → string → D * bool;
  ListAllUEContexts : D → option (list UERecord);
  MaxTMSI : D → option Z;
  PurgeAllUEContexts : D → D * bool }.

Class Cache (C : Type) := {
  SeedTMSIIfLower : C → Z → C * bool;
  NextTMSI : C → C * option Z }.

(** What the manager relies on: the cache keeps one counter that all AMFs increment
    ([INCR]), and seeding never lowers it. *)
Class CacheLaws (C : Type) `{!Cache C} := {
  issued : C → Z;
  issued_next c c' t : NextTMSI c = (c', Some t) → t = u32 (issued c + 1) ∧ issued c' = issued c + 1;
  issued_seed c v : issued c <= issued (SeedTMSIIfLower c v).1 }.

Record AMFIdentity := mkAMFIdentity {
  a_MCC : string; a_MNC : string; a_AMFRegionID : Z; a_AMFSetID : Z; a_AMFID : Z }.

Section Manager.
Context {D C : Type} `{!Store D, !Cache C}.

(** * The manager *)

Record Manager := mkManager {
  ues : gmap loc UEContext;
  uesByNGAPId : gmap Z loc;
  uesBySUPI : gmap string loc;
  uesByTMSI : gmap Z loc;
  ngapIDCounter : Z;   (* int64 *)
  tmsiCounter : Z;     (* uint32 *)
  AMFID : AMFIdentity;
  db : option D;
  cache : option C }.

Definition NewManager (id : AMFIdentity) (db : option D) (cache : option C) : Manager :=
  mkManager ∅ ∅ ∅ ∅ 0 0 id db cache.

(** A write through a pointer. *)
Definition write (m : Manager) (r : loc) (f : UEContext → UEContext) : Manager :=
  mkManager (alter f r (ues m)) (uesByNGAPId m) (uesBySUPI m) (uesByTMSI m) (ngapIDCounter m)
    (tmsiCounter m) (AMFID m) (db m) (cache m).

Definition newUE (amfID ranID now : Z) : UEContext :=
  mkUE "" "" None amfID ranID [] [] 0 false CMIdle GMMDeregistered noSecurity [] [] [] 0 0 ∅ ∅ 0 now
    None None None "" 0 noAuth noSlices noPolicy false.

Definition AllocateUEContext (m : Manager) (ranID now : Z) : Manager * loc :=
  let amfID := i64 (ngapIDCounter m + 1) in
  let r := fresh (dom (ues m)) in
  (mkManager (<[r := newUE amfID ranID now]> (ues m)) (<[amfID := r]> (uesByNGAPId m)) (uesBySUPI m)
     (uesByTMSI m) amfID (tmsiCounter m) (AMFID m) (db m) (cache m), r).

Definition GetByNGAPId (m : Manager) (id : Z) : option loc := uesByNGAPId m !! id.
Definition GetBySUPI (m : Manager) (supi : string) : option loc := uesBySUPI m !! supi.
Definition GetByTMSI (m : Manager) (tmsi : Z) : option loc := uesByTMSI m !! tmsi.

(** The displaced context, if any, is returned. *)
Definition SetSUPI (m : Manager) (r : loc) (supi : string) : Manager * option loc :=
  let m := write m r (set_SUPI supi) in
  let old := uesBySUPI m !! supi in
  if bool_decide (old = Some r) then (m, None)
  else
    (mkManager (ues m) (uesByNGAPId m) (<[supi := r]> (uesBySUPI m)) (uesByTMSI m) (ngapIDCounter m)
       (tmsiCounter m) (AMFID m) (db m) (cache m), old).

(** The TMSI of the cache, or of the local counter when there is no cache or it
    fails. *)
Definition drawTMSI (m : Manager) : Manager * Z :=
  let local m :=
    let t := u32 (tmsiCounter m + 1) in
    (mkManager (ues m) (uesByNGAPId m) (uesBySUPI m) (uesByTMSI m) (ngapIDCounter m) t (AMFID m) (db m)
       (cache m), t) in
  match cache m with
  | None => local m
  | Some c =>
      let '(c, v) := NextTMSI c in
      let m := mkManager (ues m) (uesByNGAPId m) (uesBySUPI m) (uesByTMSI m) (ngapIDCounter m)
                 (tmsiCounter m) (AMFID m) (db m) (Some c) in
      match v with Some t => (m, t) | None => local m end
  end.

Definition AssignGUTI (m : Manager) (r : loc) : Manager * GUTI5G :=
  let '(m, tmsi) := drawTMSI m in
  let id := AMFID m in
  let guti := mkGUTI5G (a_MCC id) (a_MNC id) (a_AMFRegionID id) (a_AMFSetID id) (a_AMFID id) tmsi in
  let m := write m r (set_GUTI guti) in
  (mkManager (ues m) (uesByNGAPId m) (uesBySUPI m) (<[tmsi := r]> (uesByTMSI m)) (ngapIDCounter m)
     (tmsiCounter m) (AMFID m) (db m) (cache m), guti).

Definition PersistUE (m : Manager) (r : loc) (now : Z) : Manager :=
  match db m, ues m !! r with
  | Some d, Some u =>
      mkManager (ues m) (uesByNGAPId m) (uesBySUPI m) (uesByTMSI m) (ngapIDCounter m) (tmsiCounter m)
        (AMFID m) (Some (UpsertUE d (ueContextToRecord u now)).1) (cache m)
  | _, _ => m
  end.

Definition Remove (m : Manager) (r : loc) : Manager :=
  match ues m !! r with
  | None => m  (* every pointer is in the heap *)
  | Some u =>
      let ownsSUPI := negb (String.eqb (ue_SUPI u) "") && bool_decide (uesBySUPI m !! ue_SUPI u = Some r) in
      mkManager (alter StopAllTimers r (ues m)) (delete (ue_AMFUENGAPId u) (uesByNGAPId m))
        (if ownsSUPI then delete (ue_SUPI u) (uesBySUPI m) else uesBySUPI m)
        (match ue_GUTI u with Some g => delete (g_TMSI g) (uesByTMSI m) | None => uesByTMSI m end)
        (ngapIDCounter m) (tmsiCounter m) (AMFID m)
        (match db m with
         | Some d => Some (if ownsSUPI then (DeleteUE d (ue_SUPI u)).1 else d)
         | None => None
         end)
        (cache m)
  end.

(** The SM contexts released at start-up, in order: one call per persisted
    session with an SMF reference, whether the call succeeds or not. *)
Definition staleSMContexts (recs : list UERecord) : list string :=
  recs ≫= λ rec, filter (λ ref, ref ≠ "") (pr_SMFInstanceID <$> rec_PDUSessions rec).

Definition releaseStaleSMContexts (m : Manager) (d : D) (releaser : bool) : list string :=
  if negb releaser then [] else match ListAllUEContexts d with Some recs => staleSMContexts recs | None => [] end.

(** [LoadFromStore]: the manager, the SM contexts released, and whether it
    returned without error. *)
Definition LoadFromStore (m : Manager) (releaser : bool) : Manager * list string * bool :=
  match db m with
  | None => (m, [], true)
  | Some d =>
      let maxTMSI := default 0 (MaxTMSI d) in
      let released := releaseStaleSMContexts m d releaser in
      let '(d, ok) := PurgeAllUEContexts d in
      let with_store tc c :=
        mkManager (ues m) (uesByNGAPId m) (uesBySUPI m) (uesByTMSI m) (ngapIDCounter m) tc (AMFID m) (Some d) c in
      if negb ok then (with_store (tmsiCounter m) (cache m), released, false)
      else if 0 <? maxTMSI then
        match cache m with
        | Some c => (with_store (tmsiCounter m) (Some (SeedTMSIIfLower c maxTMSI).1), released, true)
        | None => (with_store maxTMSI None, released, true)
        end
      else (with_store (tmsiCounter m) (cache m), released, true)
  end.

(** The numbers the management interface reports. *)
Definition RegisteredCount (m : Manager) : Z :=
  Z.of_nat (length (filter (λ '(_, r), ue_State <$> ues m !! r = Some GMMRegistered) (map_to_list (uesByNGAPId m)))).
Definition ConnectedCount (m : Manager) : Z := Z.of_nat (size (uesByNGAPId m)).

End Manager.
Arguments Manager : clear implicits.

(** * Consistency of the indexes *)

Section Consistency.
Context {D C : Type} `{!Store D, !Cache C, !CacheLaws C}.
Implicit Types (m : Manager D C).

(** The counter the TMSIs are drawn from: that of the cache, if there is one. *)
Definition tmsi_mark m : Z := match cache m with Some c => issued c | None => tmsiCounter m end.

(** The context is registered under its AMF UE NGAP ID. *)
Definition live m (r : loc) (u : UEContext) : Prop :=
  ues m !! r = Some u ∧ GetByNGAPId m (ue_AMFUENGAPId u) = Some r.

(** - every context has its own identifier, drawn from the counter;
    - each index leads to a context that has the key, the SUPI index to a live
      one;
    - a live context with a GUTI is found by its TMSI;
    - TMSIs are drawn from the counter and no two contexts share one. *)
Record mgr_ok m : Prop := {
  ok_counters : 0 <= ngapIDCounter m ∧ 0 <= tmsi_mark m;
  ok_ids r u : ues m !! r = Some u → 0 < ue_AMFUENGAPId u <= ngapIDCounter m;
  ok_inj r1 r2 u1 u2 : ues m !! r1 = Some u1 → ues m !! r2 = Some u2 →
    ue_AMFUENGAPId u1 = ue_AMFUENGAPId u2 → r1 = r2;
  ok_ngap id r : uesByNGAPId m !! id = Some r → ∃ u, ues m !! r = Some u ∧ ue_AMFUENGAPId u = id;
  ok_supi s r : uesBySUPI m !! s = Some r → ∃ u, live m r u ∧ ue_SUPI u = s ∧ s ≠ "";
  ok_has_tmsi r u g : live m r u → ue_GUTI u = Some g → GetByTMSI m (g_TMSI g) = Some r;
  ok_tmsi_range r u g : ues m !! r = Some u → ue_GUTI u = Some g → 0 < g_TMSI g <= tmsi_mark m;
  ok_tmsi_inj r1 r2 u1 u2 g1 g2 : ues m !! r1 = Some u1 → ues m !! r2 = Some u2 →
    ue_GUTI u1 = Some g1 → ue_GUTI u2 = Some g2 → g_TMSI g1 = g_TMSI g2 → r1 = r2 }.

(** A write that keeps the identities of the context. *)
Definition keeps_ids (f : UEContext → UEContext) : Prop :=
  ∀ u, ue_SUPI (f u) = ue_SUPI u ∧ ue_GUTI (f u) = ue_GUTI u ∧ ue_AMFUENGAPId (f u) = ue_AMFUENGAPId u.

(** The steps of the AMF on the manager, and of other AMFs on the shared cache.  The
    guards are what the procedures ensure (a SUPI is set once per context, on a live
    context), a cache that answers when a TMSI is drawn, and counters that have not
    wrapped. *)
Inductive step : Manager D C → Manager D C → Prop :=
| step_allocate m ranID now :
    ngapIDCounter m < 9223372036854775807 → step m (AllocateUEContext m ranID now).1
| step_supi m r u supi :
    live m r u → supi ≠ "" → ue_SUPI u = "" ∨ ue_SUPI u = supi → step m (SetSUPI m r supi).1
| step_guti m r u :
    live m r u → (∀ c, cache m = Some c → is_Some (NextTMSI c).2) → tmsi_mark m < 4294967295 → step m (AssignGUTI m r).1
| step_remove m r : step m (Remove m r)
| step_write m r f : keeps_ids f → step m (write m r f)
| step_persist m r now : step m (PersistUE m r now)
| step_other m c c' :
    cache m = Some c → issued c <= issued c' →
    step m (mkManager (ues m) (uesByNGAPId m) (uesBySUPI m) (uesByTMSI m) (ngapIDCounter m) (tmsiCounter m)
      (AMFID m) (db m) (Some c')).

Definition cache_counts (c : option C) : Prop := match c with Some c => 0 <= issued c | None => True end.

Lemma new_ok id d c : cache_counts c → mgr_ok (NewManager id d c).
Proof. intros Hc. split; unfold live; cbn; [destruct c; cbn in *; lia|naive_solver..]. Qed.



(** Two managers that agree on identities and indexes are equally consistent. *)
Lemma write_ok m r f : keeps_ids f → mgr_ok m → mgr_ok (write m r f).
Proof.
  intros Hf [H0 H1 H2 H3 H4 H6 H7 H8].
  assert (∀ r' u', ues (write m r f) !! r' = Some u' →
    ∃ u, ues m !! r' = Some u ∧ ue_SUPI u' = ue_SUPI u ∧ ue_GUTI u' = ue_GUTI u
         ∧ ue_AMFUENGAPId u' = ue_AMFUENGAPId u) as Hb.
  { intros r' u'. cbn [write ues]. rewrite lookup_alter_Some.
    intros [(-> & u & Hu & ->)|[_ Hu]]; exists u || exists u'; [|done]. split; [done|]. apply Hf. }
  assert (∀ r' u, ues m !! r' = Some u → ∃ u', ues (write m r f) !! r' = Some u' ∧ ue_SUPI u' = ue_SUPI u
         ∧ ue_AMFUENGAPId u' = ue_AMFUENGAPId u) as Hfw.
  { intros r' u Hu. cbn [write ues]. destruct (decide (r = r')) as [->|Hne].
    - rewrite lookup_alter_eq, Hu. eexists. split; [done|]. destruct (Hf u) as (? & ? & ?). done.
    - rewrite lookup_alter_ne by done. eauto. }
  unfold live, tmsi_mark, GetByNGAPId, GetByTMSI in *. split; unfold live, tmsi_mark, GetByNGAPId, GetByTMSI; cbn [write uesByNGAPId uesBySUPI uesByTMSI ngapIDCounter tmsiCounter cache].
  - done.
  - intros r' u' (u & Hu & _ & _ & ->)%Hb. eauto.
  - intros r1 r2 u1 u2 (v1 & Hv1 & _ & _ & ->)%Hb (v2 & Hv2 & _ & _ & ->)%Hb. eauto.
  - intros id r' (u & Hu & <-)%H3. destruct (Hfw r' u Hu) as (u' & ? & ? & ?). eauto.
  - intros s r' (u & [Hu Hl] & <- & Hs)%H4. destruct (Hfw r' u Hu) as (u' & Hu' & Es & Ei).
    exists u'. rewrite Ei, Es. done.
  - intros r' u' g [Hu' Hl] Hg. destruct (Hb r' u' Hu') as (u & Hu & Es & Eg & Ei). rewrite Eg, Ei in *. eauto.
  - intros r' u' g (u & Hu & _ & -> & _)%Hb. eauto.
  - intros r1 r2 u1 u2 g1 g2 (v1 & Hv1 & _ & -> & _)%Hb (v2 & Hv2 & _ & -> & _)%Hb. eauto.
Qed.

Lemma allocate_ok m ranID now :
  ngapIDCounter m < 9223372036854775807 → mgr_ok m →
  mgr_ok (AllocateUEContext m ranID now).1.
Proof.
  intros Hc [[H0 H0'] H1 H2 H3 H4 H6 H7 H8]. unfold AllocateUEContext, fst.
  rewrite i64_small by (unfold is_i64; lia).
  set (r := fresh (dom (ues m))). assert (ues m !! r = None) as Hr.
  { apply not_elem_of_dom. apply is_fresh. }
  assert (∀ r', uesByNGAPId m !! (ngapIDCounter m + 1) ≠ Some r') as Hid.
  { intros r' (u & Hu & E)%H3. apply H1 in Hu. lia. }
  unfold live, tmsi_mark, GetByNGAPId, GetByTMSI in *.
  split; unfold live, tmsi_mark, GetByNGAPId, GetByTMSI; cbn [ues uesByNGAPId uesBySUPI uesByTMSI ngapIDCounter tmsiCounter cache].
  - lia.
  - intros r' u. rewrite lookup_insert_Some. intros [[_ <-]|[_ Hu%H1]]; [cbn; lia|lia].
  - intros r1 r2 u1 u2. rewrite !lookup_insert_Some.
    intros [[<- <-]|[? Hu1]] [[<- <-]|[? Hu2]]; cbn [newUE ue_AMFUENGAPId]; try done.
    + apply H1 in Hu2. lia.
    + apply H1 in Hu1. lia.
    + eauto.
  - intros id r'. rewrite lookup_insert_Some. intros [[<- <-]|[? (u & Hu & <-)%H3]].
    + eexists. rewrite lookup_insert_eq. done.
    + exists u. split; [|done]. rewrite lookup_insert_ne; [done|]. congruence.
  - intros s r' (u & [Hu Hl] & <- & Hs)%H4. exists u. split; [|done]. split.
    + rewrite lookup_insert_ne by congruence. done.
    + rewrite lookup_insert_ne; [done|]. apply H1 in Hu. lia.
  - intros r' u g [Hu Hl] Hg. rewrite lookup_insert_Some in Hu. destruct Hu as [[_ <-]|[? Hu]]; [done|].
    apply (H6 r' u); [|done]. split; [done|]. rewrite lookup_insert_ne in Hl; [done|]. apply H1 in Hu. lia.
  - intros r' u g. rewrite lookup_insert_Some. intros [[_ <-]|[_ Hu]]; [done|]. eauto.
  - intros r1 r2 u1 u2 g1 g2. rewrite !lookup_insert_Some.
    intros [[<- <-]|[? Hu1]] [[<- <-]|[? Hu2]]; try done. eauto.
Qed.

Lemma set_supi_ok m r u supi :
  live m r u → supi ≠ "" → ue_SUPI u = "" ∨ ue_SUPI u = supi → mgr_ok m → mgr_ok (SetSUPI m r supi).1.
Proof.
  intros [Hu Hl] Hs Hsu [H0 H1 H2 H3 H4 H6 H7 H8].
  assert ((SetSUPI m r supi).1 = mkManager (alter (set_SUPI supi) r (ues m)) (uesByNGAPId m)
    (<[supi := r]> (uesBySUPI m)) (uesByTMSI m) (ngapIDCounter m) (tmsiCounter m) (AMFID m) (db m) (cache m)) as ->.
  { unfold SetSUPI, write. cbn [uesBySUPI]. case_bool_decide as E; [|done]. cbn. by rewrite insert_id. }
  assert (∀ r' u', alter (set_SUPI supi) r (ues m) !! r' = Some u' →
    ∃ v, ues m !! r' = Some v ∧ ue_GUTI u' = ue_GUTI v ∧ ue_AMFUENGAPId u' = ue_AMFUENGAPId v
      ∧ (r' = r ∧ ue_SUPI u' = supi ∨ r' ≠ r ∧ u' = v)) as Hb.
  { intros r' u'. rewrite lookup_alter_Some. intros [(-> & v & Hv & ->)|[? Hv]]; eauto 10. }
  unfold live, tmsi_mark, GetByNGAPId, GetByTMSI in *.
  split; unfold live, tmsi_mark, GetByNGAPId, GetByTMSI; cbn [ues uesByNGAPId uesBySUPI uesByTMSI ngapIDCounter tmsiCounter cache].
  - done.
  - intros r' u' (v & Hv & _ & -> & _)%Hb. eauto.
  - intros r1 r2 u1 u2 (v1 & Hv1 & _ & -> & _)%Hb (v2 & Hv2 & _ & -> & _)%Hb. eauto.
  - intros id r' (v & Hv & <-)%H3. destruct (decide (r' = r)) as [->|].
    + rewrite lookup_alter_eq, Hv. eexists. done.
    + rewrite lookup_alter_ne by done. eauto.
  - intros s r'. rewrite lookup_insert_Some. intros [[<- <-]|[Hne (v & [Hv Hlv] & <- & Hs')%H4]].
    + exists (set_SUPI supi u). rewrite lookup_alter_eq, Hu. done.
    + exists v. destruct (decide (r' = r)) as [->|]; [|by rewrite lookup_alter_ne].
      simplify_eq. destruct Hsu; congruence.
  - intros r' u' g [Hu' Hl'] Hg. destruct (Hb r' u' Hu') as (v & Hv & Eg & Ei & _). rewrite Eg, Ei in *. eauto.
  - intros r' u' g (v & Hv & -> & _)%Hb. eauto.
  - intros r1 r2 u1 u2 g1 g2 (v1 & Hv1 & -> & _)%Hb (v2 & Hv2 & -> & _)%Hb. eauto.
Qed.

(** The TMSI drawn is the one after the mark, which moves to it. *)
Lemma draw_spec m :
  (∀ c, cache m = Some c → is_Some (NextTMSI c).2) → 0 <= tmsi_mark m < 4294967295 →
  ∃ tc c', drawTMSI m = (mkManager (ues m) (uesByNGAPId m) (uesBySUPI m) (uesByTMSI m) (ngapIDCounter m) tc (AMFID m)
      (db m) c', tmsi_mark m + 1) ∧ match c' with Some c => issued c | None => tc end = tmsi_mark m + 1.
Proof.
  unfold drawTMSI, tmsi_mark. destruct (cache m) as [c|]; intros Hc Hm.
  - destruct (Hc c eq_refl) as [t Et]. destruct (NextTMSI c) as [c' v] eqn:E. cbn in Et. subst v.
    destruct (issued_next _ _ _ E) as [-> Ei]. replace (u32 (issued c + 1)) with (issued c + 1) by (symmetry; apply Z.mod_small; lia).
    exists (tmsiCounter m), (Some c'). by split.
  - exists (tmsiCounter m + 1), None.
    by replace (u32 (tmsiCounter m + 1)) with (tmsiCounter m + 1) by (symmetry; apply Z.mod_small; lia).
Qed.

Lemma assign_guti_ok m r u :
  live m r u → (∀ c, cache m = Some c → is_Some (NextTMSI c).2) → tmsi_mark m < 4294967295 →
  mgr_ok m → mgr_ok (AssignGUTI m r).1.
Proof.
  intros [Hu Hl] Hc Ht [[H0 H0'] H1 H2 H3 H4 H6 H7 H8].
  destruct (draw_spec m Hc ltac:(lia)) as (tc & c' & Ed & Em). unfold AssignGUTI. rewrite Ed.
  set (t := tmsi_mark m + 1) in *. cbn [fst write ues uesByNGAPId uesBySUPI uesByTMSI ngapIDCounter tmsiCounter AMFID].
  set (guti := mkGUTI5G _ _ _ _ _ t).
  assert (∀ r' u', alter (set_GUTI guti) r (ues m) !! r' = Some u' →
    ∃ v, ues m !! r' = Some v ∧ ue_SUPI u' = ue_SUPI v ∧ ue_AMFUENGAPId u' = ue_AMFUENGAPId v
      ∧ (r' = r ∧ ue_GUTI u' = Some guti ∨ r' ≠ r ∧ u' = v)) as Hb.
  { intros r' u'. rewrite lookup_alter_Some. intros [(-> & v & Hv & ->)|[? Hv]]; eauto 10. }
  assert (∀ r' v g, ues m !! r' = Some v → ue_GUTI v = Some g → g_TMSI g ≠ t) as Hfresh.
  { intros r' v g Hv Hg. pose proof (H7 r' v g Hv Hg). unfold t. lia. }
  unfold live, tmsi_mark, GetByNGAPId, GetByTMSI in *.
  split; unfold live, tmsi_mark, GetByNGAPId, GetByTMSI; cbn [ues uesByNGAPId uesBySUPI uesByTMSI ngapIDCounter tmsiCounter cache write].
  - rewrite Em. unfold t. lia.
  - intros r' u' (v & Hv & _ & -> & _)%Hb. eauto.
  - intros r1 r2 u1 u2 (v1 & Hv1 & _ & -> & _)%Hb (v2 & Hv2 & _ & -> & _)%Hb. eauto.
  - intros id r' (v & Hv & <-)%H3. destruct (decide (r' = r)) as [->|].
    + rewrite lookup_alter_eq, Hv. eexists. done.
    + rewrite lookup_alter_ne by done. eauto.
  - intros s r' (v & [Hv Hlv] & <- & Hs)%H4. destruct (decide (r' = r)) as [->|].
    + exists (set_GUTI guti v). rewrite lookup_alter_eq, Hv. done.
    + exists v. by rewrite lookup_alter_ne.
  - intros r' u' g [Hu' Hl'] Hg. destruct (Hb r' u' Hu') as (v & Hv & _ & Ei & [[-> Eg]|[Hne ->]]).
    + rewrite Eg in Hg. injection Hg as <-. apply lookup_insert_eq.
    + rewrite lookup_insert_ne by (intros E; by apply (Hfresh r' v g)). eauto.
  - intros r' u' g Hu' Hg. destruct (Hb r' u' Hu') as (v & Hv & _ & _ & [[-> Eg]|[Hne ->]]).
    + rewrite Eg in Hg. injection Hg as <-. rewrite Em. cbn. unfold t. lia.
    + pose proof (H7 r' v g Hv Hg). rewrite Em. unfold t. lia.
  - intros r1 r2 u1 u2 g1 g2 Hu1 Hu2 Hg1 Hg2 E.
    destruct (Hb r1 u1 Hu1) as (v1 & Hv1 & _ & _ & [[-> E1]|[Hn1 ->]]),
             (Hb r2 u2 Hu2) as (v2 & Hv2 & _ & _ & [[-> E2]|[Hn2 ->]]); simplify_eq; try done.
    + by destruct (Hfresh r2 v2 g2).
    + by destruct (Hfresh r1 v1 g1).
    + eauto.
Qed.

Lemma remove_ok m r : mgr_ok m → mgr_ok (Remove m r).
Proof.
  intros [H0 H1 H2 H3 H4 H6 H7 H8]. unfold Remove. destruct (ues m !! r) as [u|] eqn:Hu; [|done].
  assert (∀ r' u', alter StopAllTimers r (ues m) !! r' = Some u' →
    ∃ v, ues m !! r' = Some v ∧ ue_SUPI u' = ue_SUPI v ∧ ue_GUTI u' = ue_GUTI v
      ∧ ue_AMFUENGAPId u' = ue_AMFUENGAPId v) as Hb.
  { intros r' u'. rewrite lookup_alter_Some. intros [(-> & v & Hv & ->)|[? Hv]]; eauto. }
  assert (∀ r' v, ues m !! r' = Some v → r' ≠ r → ue_AMFUENGAPId v ≠ ue_AMFUENGAPId u) as Hid by eauto.
  set (owns := negb _ && _). set (supis := if owns then _ else _).
  assert (∀ s r', supis !! s = Some r' → uesBySUPI m !! s = Some r' ∧ r' ≠ r) as Hsup.
  { intros s r'. unfold supis, owns. destruct (String.eqb_spec (ue_SUPI u) "") as [E|E]; cbn [negb andb].
    - intros Hs. split; [done|]. intros ->. destruct (H4 _ _ Hs) as (v & [Hv _] & <- & ?). simplify_eq.
    - case_bool_decide as Eo.
      + rewrite lookup_delete_Some. intros [Hne Hs]. split; [done|]. intros ->.
        destruct (H4 _ _ Hs) as (v & [Hv _] & <- & ?). simplify_eq.
      + intros Hs. split; [done|]. intros ->. destruct (H4 _ _ Hs) as (v & [Hv _] & <- & ?). simplify_eq. }
  unfold live, tmsi_mark, GetByNGAPId, GetByTMSI in *.
  split; unfold live, tmsi_mark, GetByNGAPId, GetByTMSI; cbn [ues uesByNGAPId uesBySUPI uesByTMSI ngapIDCounter tmsiCounter cache].
  - done.
  - intros r' u' (v & Hv & _ & _ & ->)%Hb. eauto.
  - intros r1 r2 u1 u2 (v1 & Hv1 & _ & _ & ->)%Hb (v2 & Hv2 & _ & _ & ->)%Hb. eauto.
  - intros id r'. rewrite lookup_delete_Some. intros [Hne (v & Hv & <-)%H3].
    rewrite lookup_alter_ne by (intros <-; simplify_eq). eauto.
  - intros s r' [Hs Hne]%Hsup. destruct (H4 _ _ Hs) as (v & [Hv Hlv] & <- & ?). exists v.
    rewrite lookup_alter_ne, lookup_delete_ne by (done || (intros E; by apply (Hid r' v))). done.
  - intros r' u' g [Hu' Hl'] Hg. destruct (Hb r' u' Hu') as (v & Hv & _ & Eg & Ei). rewrite Eg, Ei in *.
    apply lookup_delete_Some in Hl' as [Hne Hl']. pose proof (H6 r' v g (conj Hv Hl') Hg) as Ht.
    destruct (ue_GUTI u) as [gu|] eqn:Egu; [|done]. apply lookup_delete_Some. split; [|done].
    intros E. assert (r = r') as <- by eauto. simplify_eq.
  - intros r' u' g (v & Hv & _ & -> & _)%Hb. eauto.
  - intros r1 r2 u1 u2 g1 g2 (v1 & Hv1 & _ & -> & _)%Hb (v2 & Hv2 & _ & -> & _)%Hb. eauto.
Qed.

Lemma persist_ok m r now : mgr_ok m → mgr_ok (PersistUE m r now).
Proof. intros H. unfold PersistUE. destruct (db m); [|done]. destruct (ues m !! r); [|done]. by destruct H; split. Qed.

Lemma step_ok m m' : step m m' → mgr_ok m → mgr_ok m'.
Proof.
  destruct 1 as [| | | | | |m c c' Hc Hle]; eauto using allocate_ok, set_supi_ok, assign_guti_ok, remove_ok, write_ok, persist_ok.
  intros [[H0 H0'] H1 H2 H3 H4 H6 H7 H8]. unfold tmsi_mark in *. rewrite Hc in *.
  split; unfold tmsi_mark; cbn [ues uesByNGAPId uesBySUPI uesByTMSI ngapIDCounter tmsiCounter cache]; eauto; [lia|].
  intros r u g Hu Hg. pose proof (H7 r u g Hu Hg). lia.
Qed.

Lemma reachable_ok m0 m : mgr_ok m0 → rtc step m0 m → mgr_ok m.
Proof. intros H0. apply (rtc_ind_r mgr_ok); [done|]. eauto using step_ok. Qed.
End Consistency.

(** * Services for concrete runs *)

(** The PostgreSQL table as a map keyed by SUPI, always available. *)
Definition highest_tmsi (recs : list UERecord) : Z :=
  foldr (λ r acc, match rec_GUTI r with Some g => Z.max (g_TMSI g) acc | None => acc end) 0 recs.

#[global] Instance postgres : Store (gmap string UERecord) := {|
  UpsertUE d r := (<[rec_SUPI r := r]> d, true);
  DeleteUE d s := (delete s d, true);
  ListAllUEContexts d := Some ((λ p, p.2) <$> map_to_list d);
  MaxTMSI d := Some (highest_tmsi ((λ p, p.2) <$> map_to_list d));
  PurgeAllUEContexts d := (∅, true) |}.

(** [RedisCache]: the shared counter, and whether each coming call succeeds. *)
#[global] Instance RedisCache : Cache (Z * list bool) := {|
  SeedTMSIIfLower '(n, l) v := ((Z.max n v, l), true);
  NextTMSI '(n, l) :=
    match l with
    | false :: l => ((n, l), None)
    | _ => ((n + 1, tail l), Some (u32 (n + 1)))
    end |}.
#[global, refine] Instance RedisCache_laws : CacheLaws (Z * list bool) := { issued := fst }.
Proof.
  - intros [n l] c' t. cbn. destruct l as [|[|] l]; intros [= <- <-]; done.
  - intros [n l] v. cbn. lia.
Defined.

Definition demo_id : AMFIdentity := mkAMFIdentity "001" "01" 1 1 1.
Definition demo_new (c : option (Z * list bool)) : Manager (gmap string UERecord) (Z * list bool) :=
  NewManager demo_id (Some ∅) c.
Section Theorems.
Context {D C : Type} `{!Store D, !Cache C, !CacheLaws C}.
Implicit Types (m : Manager D C).


(** A new registration of a subscriber supersedes the old one safely.  When
    SetSUPI returns a displaced context, removing that context leaves the new
    one registered under the SUPI, its NGAP ID and its TMSI, keeps the
    subscriber's persisted record, and the displaced context is gone. *)
Lemma displaced_context_removal id (d : option D) m r u supi m1 old :
  rtc step (NewManager id d (None : option C)) m →
  live m r u → supi ≠ "" → ue_SUPI u = "" ∨ ue_SUPI u = supi →
  SetSUPI m r supi = (m1, Some old) →
  let m2 := Remove m1 old in
  old ≠ r ∧ GetBySUPI m2 supi = Some r ∧ GetByNGAPId m2 (ue_AMFUENGAPId u) = Some r ∧
  (∀ g, ue_GUTI u = Some g → GetByTMSI m2 (g_TMSI g) = Some r) ∧
  db m2 = db m ∧ ∀ v, ues m2 !! old = Some v → GetByNGAPId m2 (ue_AMFUENGAPId v) = None.
Proof.
  intros Hok%reachable_ok [Hu Hl] Hs Hsu E m2; [|by apply new_ok].
  pose proof (set_supi_ok m r u supi (conj Hu Hl) Hs Hsu Hok) as Hok1. rewrite E in Hok1. cbn [fst] in Hok1.
  pose proof (remove_ok m1 old Hok1) as Hok2. fold m2 in Hok2.
  unfold SetSUPI, write in E. cbn [uesBySUPI] in E. case_bool_decide as Eb; [done|].
  injection E as Em1 Eold. assert (old ≠ r) as Hne by congruence.
  destruct (ok_supi m Hok _ _ Eold) as (v & [Hv Hlv] & Evs & _).
  assert (ue_AMFUENGAPId v ≠ ue_AMFUENGAPId u) as Hid by (intros Ei; apply Hne; by eapply (ok_inj m Hok)).
  assert (ues m1 !! old = Some v) as Hv1 by (subst m1; cbn; by rewrite lookup_alter_ne).
  assert (m2 = mkManager (alter StopAllTimers old (ues m1)) (delete (ue_AMFUENGAPId v) (uesByNGAPId m1))
    (uesBySUPI m1) (match ue_GUTI v with Some g => delete (g_TMSI g) (uesByTMSI m1) | None => uesByTMSI m1 end)
    (ngapIDCounter m1) (tmsiCounter m1) (AMFID m1) (db m1) (cache m1)) as Em2.
  { unfold m2, Remove. rewrite Hv1. rewrite (bool_decide_eq_false_2 (uesBySUPI m1 !! ue_SUPI v = Some old)).
    - rewrite andb_false_r. by destruct (db m1).
    - subst m1. cbn. rewrite Evs, lookup_insert_eq. congruence. }
  assert (live m2 r (set_SUPI supi u)) as Hlive.
  { split; rewrite Em2; cbn.
    - subst m1. cbn. rewrite lookup_alter_ne, lookup_alter_eq, Hu by done. done.
    - unfold GetByNGAPId. cbn. rewrite lookup_delete_ne by done. by subst m1. }
  split_and!; [done| | | | |].
  - rewrite Em2. unfold GetBySUPI. subst m1. cbn. apply lookup_insert_eq.
  - by destruct Hlive.
  - intros g Hg. by apply (ok_has_tmsi m2 Hok2 r (set_SUPI supi u)).
  - rewrite Em2. by subst m1.
  - intros w Hw. rewrite Em2 in Hw |- *. cbn in Hw. rewrite lookup_alter_eq, Hv1 in Hw.
    injection Hw as <-. unfold GetByNGAPId. cbn. apply lookup_delete_eq.
Qed.

(** Assigning a new GUTI leaves the entry of the previous TMSI behind: after the
    context is removed, the old TMSI still leads to it. *)
Lemma stale_tmsi_survives id (d : option D) m r u g :
  rtc step (NewManager id d (None : option C)) m → cache m = None → tmsiCounter m < 4294967295 →
  live m r u → ue_GUTI u = Some g →
  let m' := Remove (AssignGUTI m r).1 r in
  GetByNGAPId m' (ue_AMFUENGAPId u) = None ∧ GetByTMSI m' (g_TMSI g) = Some r.
Proof.
  intros Hok%reachable_ok Hc Ht [Hu Hl] Hg; [|by apply new_ok]. pose proof (ok_has_tmsi m Hok r u g (conj Hu Hl) Hg) as Hm.
  pose proof (ok_tmsi_range m Hok r u g Hu Hg) as Hrange. unfold GetByTMSI, tmsi_mark in *. rewrite Hc in Hrange.
  unfold AssignGUTI, drawTMSI. rewrite Hc. cbn [fst write ues tmsiCounter AMFID].
  unfold Remove. cbn [ues uesByNGAPId uesBySUPI uesByTMSI]. rewrite lookup_alter_eq, Hu.
  cbn [fmap option_fmap option_map set_GUTI ue_GUTI ue_AMFUENGAPId g_TMSI].
  replace (u32 (tmsiCounter m + 1)) with (tmsiCounter m + 1) by (symmetry; apply Z.mod_small; lia).
  split; unfold GetByNGAPId, GetByTMSI; cbn.
  - apply lookup_delete_eq.
  - rewrite lookup_delete_ne, lookup_insert_ne by lia. done.
Qed.
End Theorems.




(** When the cache fails once, the local counter repeats a TMSI the cache has
    handed out: two live contexts share a 5G-GUTI and the first is no longer
    found by it. *)
Example tmsi_fallback_collides :
  let m := (AllocateUEContext (AllocateUEContext (demo_new (Some (0, [true; false]))) 7 0).1 8 0).1 in
  let '(m, g1) := AssignGUTI m 1%positive in
  let '(m, g2) := AssignGUTI m 2%positive in
  g1 = g2 ∧ GetByTMSI m (g_TMSI g1) = Some 2%positive.
Proof. vm_compute. done. Qed.

(** * The next-hop key chain *)

(** TS 33.501 annex A.10: NH values are iterated from the KgNB. *)
Definition nh_chain (kamf kgnb : bytes) (n : nat) : bytes := Nat.iter (S n) (KNH kamf) kgnb.

Definition advance (n : nat) (u : UEContext) : UEContext := Nat.iter n (λ u, (NextNHLocked u).1) u.

Lemma length_KNH kamf s : length (KNH kamf s) = 32%nat.
Proof. apply length_hmac_sha256. Qed.

Lemma length_nh_chain kamf kgnb n : length (nh_chain kamf kgnb n) = 32%nat.
Proof. apply (length_KNH kamf). Qed.

Lemma SetKgNB_chain kgnb u n :
  kamfUsable (sc_KAMF (ue_SecurityCtx u)) = true →
  let u' := advance n (SetKgNBLocked kgnb u) in
  ue_NHValid u' = true ∧ ue_SecurityCtx u' = ue_SecurityCtx u ∧ ue_KgNB u' = kgnb ∧
  ue_NH u' = nh_chain (sc_KAMF (ue_SecurityCtx u)) kgnb n ∧ ue_NCC u' = (Z.of_nat n + 1) mod 8.
Proof.
  intros Hk. induction n as [|n (Hv & Hs & Hg & Hnh & Hn)].
  - cbn [advance Nat.iter]. unfold SetKgNBLocked. rewrite Hk. cbn -[KNH go_copy].
    split_and!; done.
  - change (advance (S n) ?w) with (NextNHLocked (advance n w)).1.
    set (v := advance n (SetKgNBLocked kgnb u)) in *. cbn zeta. unfold NextNHLocked. rewrite Hv, Hs, Hk. cbn [negb orb fst set_NH ue_NHValid ue_SecurityCtx ue_KgNB ue_NH ue_NCC].
    split_and!; try done.
    + rewrite Hnh, go_copy_full; [done|]. rewrite length_nh_chain. apply length_KNH.
    + rewrite Hn. unfold nccModulus, u8. dlia.
Qed.

(** The handover key chain follows TS 33.501: after a new KgNB and any
    number of handovers, the AMF offers for the next one the pair of the next
    value of the chain NH(k+1) = KDF(KAMF, NH(k)), started from the KgNB, and its
    chaining counter modulo 8, counting from 1; without a usable KAMF no pair is
    offered and the context does not change. *)
Lemma NH_chain_follows kgnb u n :
  NextNHLocked (advance n (SetKgNBLocked kgnb u)) =
  if kamfUsable (sc_KAMF (ue_SecurityCtx u)) then
    (advance (S n) (SetKgNBLocked kgnb u),
     Some (nh_chain (sc_KAMF (ue_SecurityCtx u)) kgnb (S n), (Z.of_nat n + 2) mod 8))
  else (SetKgNBLocked kgnb u, None).
Proof.
  destruct (kamfUsable (sc_KAMF (ue_SecurityCtx u))) eqn:Hk.
  - destruct (SetKgNB_chain kgnb u n Hk) as (Hv & Hs & Hg & Hnh & Hn).
    destruct (SetKgNB_chain kgnb u (S n) Hk) as (_ & _ & _ & Hnh' & Hn').
    cbn zeta in *. change (advance (S n) ?w) with (NextNHLocked (advance n w)).1 in *.
    set (v := advance n (SetKgNBLocked kgnb u)) in *. unfold NextNHLocked in *. rewrite Hv, Hs, Hk in *. cbn [negb orb fst set_NH ue_NH ue_NCC] in *.
    rewrite Hnh', Hn'. do 3 f_equal. f_equal. lia.
  - assert (NextNHLocked (SetKgNBLocked kgnb u) = (SetKgNBLocked kgnb u, None)) as E.
    { unfold SetKgNBLocked. by rewrite Hk. }
    assert (advance n (SetKgNBLocked kgnb u) = SetKgNBLocked kgnb u) as ->; [|done].
    induction n as [|n IH]; [done|]. change (advance (S n) ?w) with (NextNHLocked (advance n w)).1.
    by rewrite IH, E.
Qed.

(** * Start-up *)

(** Start-up loses no session and reuses no identity.  With the table of the
    previous run, LoadFromStore releases the SM context of every persisted PDU
    session that has one, in order and before the purge, leaves the table empty,
    and seeds the counter so that every TMSI assigned afterwards is above all
    the persisted ones. *)
Lemma LoadFromStore_restores id (d : gmap string UERecord) :
  let recs := (λ p, p.2) <$> map_to_list d in
  Forall (λ r, ∀ g, rec_GUTI r = Some g → 0 < g_TMSI g < 4294967295) recs →
  let m := NewManager id (Some d) (None : option (Z * list bool)) in
  ∃ m', LoadFromStore m true = (m', staleSMContexts recs, true) ∧ db m' = Some ∅ ∧
  ∀ r rec g, rec ∈ recs → rec_GUTI rec = Some g → g_TMSI g < g_TMSI (AssignGUTI m' r).2.
Proof.
  intros recs Hr m. unfold LoadFromStore, m, NewManager. cbn [db cache MaxTMSI postgres default Datatypes.id ListAllUEContexts
    releaseStaleSMContexts negb PurgeAllUEContexts]. fold recs.
  assert (∀ rec g, rec ∈ recs → rec_GUTI rec = Some g → 0 < g_TMSI g <= highest_tmsi recs) as Hmax.
  { clear m. induction recs as [|rec0 l IH]; [set_solver|]. apply Forall_cons in Hr as [H0 Hl].
    intros rec g [->|Hin]%elem_of_cons Hg.
    - cbn. rewrite Hg. specialize (H0 g Hg). fold (highest_tmsi l). lia.
    - specialize (IH Hl rec g Hin Hg). cbn. fold (highest_tmsi l). destruct (rec_GUTI rec0); lia. }
  assert (0 <= highest_tmsi recs < 4294967295) as Hh.
  { clear m Hmax. induction recs as [|rec0 l IH]; [done|]. apply Forall_cons in Hr as [H0 Hl].
    specialize (IH Hl). cbn. fold (highest_tmsi l). destruct (rec_GUTI rec0) as [g|]; [|lia].
    specialize (H0 g eq_refl). lia. }
  destruct (Z.ltb_spec 0 (highest_tmsi recs)); eexists; (split; [reflexivity|]); (split; [done|]);
    intros r rec g Hin Hg; specialize (Hmax rec g Hin Hg); [|lia].
  unfold AssignGUTI, drawTMSI. cbn [cache tmsiCounter snd g_TMSI].
  replace (u32 (highest_tmsi recs + 1)) with (highest_tmsi recs + 1) by (symmetry; apply Z.mod_small; lia).
  lia.
Qed.

Definition demo_record : UERecord :=
  mkUERecord "imsi-1" (Some (mkGUTI5G "001" "01" 1 1 1 41)) 1 0 noSecurity [] [] [] 0 0
    [mkPDUSessionRecord 5 "smctx-5" "" (mkSNSSAIRecord 1 "" "") "internet" "IPV4" [1] []] 0 0.
