(* ===== verification/AmfQueue.v ===== *)
(** The serial task queue of a UE context, [UEContext.EnqueueSerial] of
    [nf/amf/internal/context/context.go]: the NGAP reader enqueues the messages
    of a UE and a lazily started goroutine runs them one at a time.

    The critical sections under [taskMu] are atomic steps, and any number of
    goroutines interleave: callers of [EnqueueSerial], and drain goroutines that
    are at the head of their loop or running a task.  A task may itself enqueue:
    that is an enqueue step while it runs. *)
From stdpp Require Import relations.
From S2P Require Import Prelude.

Section Queue.
Context {task : Type}.

(** A drain goroutine: at the head of the loop, or in [next()]. *)
Inductive drainer := AtHead | Running (f : task).

Record queue := mkQueue {
  taskQueue : list task;
  taskDraining : bool;
  drainers : list drainer;   (* the drain goroutines alive *)
  started : list task;       (* the tasks run so far, in the order they started *)
  enqueued : list task }.    (* the tasks handed to [EnqueueSerial], in order *)

Definition empty_queue : queue := mkQueue [] false [] [] [].

(** The critical section of [EnqueueSerial], and the goroutine it starts when no
    drain is under way. *)
Definition EnqueueSerial (q : queue) (f : task) : queue :=
  let tq := taskQueue q ++ [f] in
  if taskDraining q then mkQueue tq true (drainers q) (started q) (enqueued q ++ [f])
  else mkQueue tq true (drainers q ++ [AtHead]) (started q) (enqueued q ++ [f]).

(** The critical section at the head of the loop of drain goroutine [i]: it
    leaves when the queue is empty and takes the first task otherwise. *)
Definition drain_head (q : queue) (i : nat) : queue :=
  match taskQueue q with
  | [] => mkQueue [] false (delete i (drainers q)) (started q) (enqueued q)
  | f :: rest =>
      mkQueue rest (taskDraining q) (<[i := Running f]> (drainers q)) (started q ++ [f]) (enqueued q)
  end.

(** [next()] returns. *)
Definition drain_return (q : queue) (i : nat) : queue :=
  mkQueue (taskQueue q) (taskDraining q) (<[i := AtHead]> (drainers q)) (started q) (enqueued q).

Inductive drain_step : queue → queue → Prop :=
| step_head q i : drainers q !! i = Some AtHead → drain_step q (drain_head q i)
| step_return q i f : drainers q !! i = Some (Running f) → drain_step q (drain_return q i).

Inductive queue_step : queue → queue → Prop :=
| step_enqueue q f : queue_step q (EnqueueSerial q f)
| step_drain q q' : drain_step q q' → queue_step q q'.

(** At most one drain goroutine exists, exactly while [taskDraining] is set; no
    task waits without one; tasks have started in the order they came. *)
Definition queue_ok (q : queue) : Prop :=
  (if taskDraining q then ∃ d, drainers q = [d] else drainers q = [] ∧ taskQueue q = []) ∧
  started q ++ taskQueue q = enqueued q ∧
  ∀ f, Running f ∈ drainers q → last (started q) = Some f.

Lemma enqueue_ok q f : queue_ok q → queue_ok (EnqueueSerial q f).
Proof.
  intros (Hd & Ho & Hr). unfold EnqueueSerial. destruct (taskDraining q) eqn:E;
    unfold queue_ok; cbn.
  - split; [done|]. split; [|done]. by rewrite app_assoc, Ho.
  - destruct Hd as [-> _]. split; [by exists AtHead|]. split; [by rewrite app_assoc, Ho|]. set_solver.
Qed.

Lemma drain_ok q q' : drain_step q q' → queue_ok q → queue_ok q'.
Proof.
  intros Hs (Hd & Ho & Hr). destruct Hs as [q i Hi|q i f Hi];
    (destruct (taskDraining q) eqn:E; [destruct Hd as [d Hd]|destruct Hd as [Hd _]; by rewrite Hd in Hi]; rewrite Hd in Hi);
    apply list_lookup_singleton_Some in Hi as [-> ->].
  - unfold drain_head. destruct (taskQueue q) as [|g rest] eqn:Eq; unfold queue_ok; cbn; rewrite Hd.
    + split; [done|]. split; [done|]. set_solver.
    + rewrite E. split; [by exists (Running g)|]. split; [by rewrite <- Ho, <- app_assoc|].
      intros f Hf. cbn in Hf. apply list_elem_of_singleton in Hf. injection Hf as ->. apply last_snoc.
  - unfold queue_ok, drain_return. cbn. rewrite E, Hd. cbn. split; [by exists AtHead|]. split; [done|].
    intros g Hg. apply list_elem_of_singleton in Hg. done.
Qed.

Lemma reachable_queue_ok q : rtc queue_step empty_queue q → queue_ok q.
Proof.
  apply (rtc_ind_r queue_ok).
  - split; [done|]. split; [done|]. set_solver.
  - intros ?? _ Hs Hok. destruct Hs; eauto using enqueue_ok, drain_ok.
Qed.

(** What is left to do: two steps per waiting task, one per return and exit. *)
Definition work (q : queue) : nat :=
  2 * length (taskQueue q)
  + list_sum ((λ d, match d with AtHead => 1%nat | Running _ => 2%nat end) <$> drainers q).

Lemma drain_decreases q q' : queue_ok q → drain_step q q' → (work q' < work q)%nat.
Proof.
  intros (Hd & _ & _) Hs. destruct Hs as [q i Hi|q i f Hi];
    (destruct (taskDraining q) eqn:E; [destruct Hd as [d Hd]|destruct Hd as [Hd _]; by rewrite Hd in Hi]; rewrite Hd in Hi);
    apply list_lookup_singleton_Some in Hi as [-> ->];
    unfold work, drain_head, drain_return; [destruct (taskQueue q)|]; cbn; rewrite Hd; cbn; lia.
Qed.

Lemma drain_progress q : queue_ok q → taskDraining q = true → ∃ q', drain_step q q'.
Proof.
  intros [Hd _] E. rewrite E in Hd. destruct Hd as [[|f] Hd].
  - exists (drain_head q 0). apply step_head. by rewrite Hd.
  - exists (drain_return q 0). eapply step_return. by rewrite Hd.
Qed.

Lemma idle_stuck q q' : drainers q = [] → ¬ drain_step q q'.
Proof. intros Hd Hs. destruct Hs as [q i Hi|q i f Hi]; by rewrite Hd in Hi. Qed.

(** C18: the tasks of a UE run one at a time, in the order they were enqueued,
    whatever the interleaving of the goroutines: at most one task runs at any
    moment, it is the last one started, and the tasks started so far followed
    by the waiting ones are exactly the enqueued ones in order. *)
Theorem tasks_serial_fifo q :
  rtc queue_step empty_queue q →
  (length (drainers q) <= 1)%nat ∧
  (∀ f, Running f ∈ drainers q → last (started q) = Some f) ∧
  started q ++ taskQueue q = enqueued q.
Proof.
  intros (Hd & Ho & Hr)%reachable_queue_ok. split; [|done].
  destruct (taskDraining q); [destruct Hd as [d ->]|destruct Hd as [-> _]]; cbn; lia.
Qed.

(** C21: no enqueued task is forgotten.  From every reachable state the drain
    goroutines, left alone, always stop after finitely many steps, and they can
    only stop when every task has been started and has returned, with no
    goroutine left behind and the queue ready to start a new one. *)
Theorem tasks_all_run q :
  rtc queue_step empty_queue q →
  (∃ q', rtc drain_step q q' ∧ ∀ q'', ¬ drain_step q' q'') ∧
  Acc (flip drain_step) q ∧
  ∀ q', rtc drain_step q q' → (∀ q'', ¬ drain_step q' q'') →
    started q' = enqueued q ∧ drainers q' = [] ∧ taskDraining q' = false.
Proof.
  intros Hok%reachable_queue_ok.
  assert (∀ q', rtc drain_step q q' → queue_ok q' ∧ enqueued q' = enqueued q) as Hreach.
  { apply (rtc_ind_r (λ q', queue_ok q' ∧ enqueued q' = enqueued q)); [done|].
    intros q1 q2 _ Hs [Hok1 He]. split; [by eapply drain_ok|]. rewrite <- He.
    destruct Hs; [|done]. unfold drain_head. by destruct (taskQueue q0). }
  assert (Acc (flip drain_step) q) as Hacc.
  { clear Hreach. induction q as [q IH] using (well_founded_ind (well_founded_ltof _ work)).
    constructor. intros q' Hs. apply IH; [by apply drain_decreases|by eapply drain_ok]. }
  split; [|split; [done|]].
  - clear Hreach. induction Hacc as [q _ IH].
    destruct (taskDraining q) eqn:E.
    + destruct (drain_progress q Hok E) as [q1 Hs].
      destruct (IH q1 Hs) as (q' & Hr & Hstop); [by eapply drain_ok|].
      exists q'. split; [by eapply rtc_l|done].
    + exists q. split; [done|]. intros q'' Hs. destruct Hok as [Hd _]. rewrite E in Hd.
      destruct Hd as [Hd _]. by eapply idle_stuck.
  - intros q' Hr Hstop. destruct (Hreach q' Hr) as [(Hd & Ho & _) He].
    destruct (taskDraining q') eqn:E.
    + destruct (drain_progress q') as [q'' Hs]; [by apply Hreach|done|]. by destruct (Hstop q'').
    + destruct Hd as [Hd Hq]. split; [|done]. by rewrite <- He, <- Ho, Hq, app_nil_r.
Qed.

End Queue.

(** A queue with one task running and one waiting. *)
Definition demo_queue : queue := drain_head (EnqueueSerial (EnqueueSerial empty_queue 1) 2) 0.

Lemma demo_queue_reachable : rtc queue_step empty_queue demo_queue.
Proof.
  eapply rtc_l; [apply (step_enqueue _ 1)|]. eapply rtc_l; [apply (step_enqueue _ 2)|].
  eapply rtc_l; [apply step_drain, (step_head _ 0); done|]. apply rtc_refl.
Qed.

Lemma tasks_serial_fifo_witness :
  started demo_queue = [1] ∧ started demo_queue ++ taskQueue demo_queue = enqueued demo_queue.
Proof. split; [done|]. apply (tasks_serial_fifo demo_queue demo_queue_reachable). Defined.

Lemma tasks_all_run_witness :
  enqueued demo_queue = [1; 2] ∧ ∃ q', rtc drain_step demo_queue q' ∧ ∀ q'', ¬ drain_step q' q''.
Proof. split; [done|]. apply (tasks_all_run demo_queue demo_queue_reachable). Defined.
