(* ===== verification/AmfSecurity.v ===== *)
(** NAS security at the AMF, [nf/amf/internal/nas/nas.go]: protecting downlink
    messages, unwrapping uplink ones, and the first part of the NAS message
    handler.  They change the NAS security context of the UE and nothing else,
    so the operations here take and return a [SecurityContext].

    The other end is a UE that follows TS 24.501 and TS 33.501: it ciphers and
    then computes the MAC with its own uplink COUNT, and it estimates the COUNT
    of a downlink message from the sequence number the message carries. *)

From S2P Require Import Prelude NasReader NasIE NasSecurity NasService NasCodec GoCrypto CryptoNas AmfContext.

Definition SecurityHeaderIntegrityProtected : Z := 1.
Definition SecurityHeaderIntegrityProtectedAndCiphered : Z := 2.
Definition SecurityHeaderIntegrityProtectedWithNewSC : Z := 3.
Definition SecurityHeaderIntegrityProtectedAndCipheredWithNewSC : Z := 4.

(** [DownlinkCount++] and [UplinkCount++] on a [uint32]. *)
Definition count_down (sc : SecurityContext) : SecurityContext :=
  mkSecurityContext (sc_NGKSI sc) (sc_IntegrityAlgID sc) (sc_CipheringAlgID sc) (sc_KAMF sc) (sc_KNASint sc)
    (sc_KNASenc sc) (sc_UplinkCount sc) (u32 (sc_DownlinkCount sc + 1)) (sc_Active sc).
Definition count_up (sc : SecurityContext) : SecurityContext :=
  mkSecurityContext (sc_NGKSI sc) (sc_IntegrityAlgID sc) (sc_CipheringAlgID sc) (sc_KAMF sc) (sc_KNASint sc)
    (sc_KNASenc sc) (u32 (sc_UplinkCount sc + 1)) (sc_DownlinkCount sc) (sc_Active sc).

Definition sendNASPlain (epd msgType : Z) (body : Body) : res bytes :=
  Encode (mkMessage (mkHeader epd SecurityHeaderPlainNAS [0; 0; 0; 0] 0 msgType) body).

(** [make([]byte, 7+len(inner))] and the writes into it. *)
Definition security_pdu (epd sht : Z) (mac : bytes) (sqn : Z) (inner : bytes) : bytes :=
  [epd; sht] ++ go_copy (replicate 4 0) mac ++ [sqn] ++ inner.

Definition sendNASIntegrityOnly (sc : SecurityContext) (epd msgType : Z) (body : Body) (sht : Z)
  : res (SecurityContext * bytes) :=
  innerPDU ← sendNASPlain epd msgType body;
  let count := sc_DownlinkCount sc in
  let sqn := u8 (Z.land count 0xFF) in
  mac ← NIA2 (sc_KNASint sc) count 0x01 0x01 (sqn :: innerPDU);
  Ok (count_down sc, security_pdu epd sht mac sqn innerPDU).

Definition sendNASSecured (sc : SecurityContext) (epd msgType : Z) (body : Body)
  : res (SecurityContext * bytes) :=
  innerPDU ← sendNASPlain epd msgType body;
  let count := sc_DownlinkCount sc in
  let sqn := u8 (Z.land count 0xFF) in
  ciphered ← (if sc_CipheringAlgID sc =? 0 then Ok innerPDU
              else NEA2 (sc_KNASenc sc) count 0x01 0x01 innerPDU);
  mac ← NIA2 (sc_KNASint sc) count 0x01 0x01 (sqn :: ciphered);
  Ok (count_down sc, security_pdu epd SecurityHeaderIntegrityProtectedAndCiphered mac sqn ciphered).

Definition is_ciphered (sht : Z) : bool :=
  (sht =? SecurityHeaderIntegrityProtectedAndCiphered)
  || (sht =? SecurityHeaderIntegrityProtectedAndCipheredWithNewSC).

(** The outcome of [nia.Verify] is only logged; it is the second component. *)
Definition unwrapNASSecurity (sc : SecurityContext) (pdu : bytes) : res (SecurityContext * bytes * res bool) :=
  if (length pdu <? 7)%nat then Err "nas: security PDU too short"
  else
    d1 ← idx pdu 1;
    let sht := Z.land d1 0x0F in
    receivedMAC ← slice pdu 2 6;
    sqn ← idx pdu 6;
    inner ← slice_from pdu 7;
    let count := sc_UplinkCount sc in
    let logged := Verify (sc_KNASint sc) count 0x01 0x00 (sqn :: inner) receivedMAC in
    plainInner ← (if is_ciphered sht && negb (sc_CipheringAlgID sc =? 0)
                  then NEA2 (sc_KNASenc sc) count 0x01 0x00 inner
                  else Ok inner);
    head ← slice pdu 0 7;
    Ok (count_up sc, head ++ plainInner, logged).

(** [HandleNASMessage] up to the dispatch on the message type: the security
    context it leaves and the decoded message.  A PDU whose inner part does not
    decode has still advanced the uplink COUNT. *)
Definition receiveNAS (sc : SecurityContext) (pdu : bytes) : res (SecurityContext * res Message) :=
  d ← (if sc_Active sc && (2 <=? length pdu)%nat then
         d0 ← idx pdu 0; d1 ← idx pdu 1;
         Ok ((d0 =? PDMobilityManagement) && negb (Z.land d1 0x0F =? SecurityHeaderPlainNAS))
       else Ok false);
  if (d : bool) then '(sc, pdu, _) ← unwrapNASSecurity sc pdu; Ok (sc, Decode pdu)
  else Ok (sc, Decode pdu).

(** * The UE of the standard *)

(** [p_ealg] and [p_ialg]: the algorithms of the Security Mode Command; [p_ul]: the
    next uplink COUNT; [p_dl]: one more than the COUNT of the last downlink message
    accepted. *)
Record peer := mkPeer {
  p_KNASint : bytes; p_KNASenc : bytes; p_ealg : Z; p_ialg : Z; p_ul : Z; p_dl : Z }.

(** TS 33.501 5.11.1: the identifier selects the algorithm, 0 for the null cipher and 2 for
    128-NEA2 and 128-NIA2. This UE has no 128-NEA1, 128-NEA3, 128-NIA1 and 128-NIA3. *)
Definition ue_cipher (alg : Z) (key : bytes) (count dir : Z) (m : bytes) : res bytes :=
  if alg =? 0 then Ok m else if alg =? 2 then NEA2 key count 1 dir m else Err "ciphering algorithm not supported".
Definition ue_mac (alg : Z) (key : bytes) (count dir : Z) (m : bytes) : res bytes :=
  if alg =? 2 then NIA2 key count 1 dir m else Err "integrity algorithm not supported".

Definition ue_protect (p : peer) (sht : Z) (plain : bytes) : res (peer * bytes) :=
  let sqn := p_ul p mod 256 in
  inner ← (if is_ciphered sht then ue_cipher (p_ealg p) (p_KNASenc p) (p_ul p) 0 plain else Ok plain);
  mac ← ue_mac (p_ialg p) (p_KNASint p) (p_ul p) 0 (sqn :: inner);
  Ok (mkPeer (p_KNASint p) (p_KNASenc p) (p_ealg p) (p_ialg p) (p_ul p + 1) (p_dl p),
      protect PDMobilityManagement sht mac sqn inner).

(** TS 24.501 4.4.3.1: the overflow counter advances when the sequence number is
    behind the expected one. *)
Definition estimate (expected sqn : Z) : Z :=
  256 * (expected / 256 + (if sqn <? expected mod 256 then 1 else 0)) + sqn.

(** A message is discarded ([None]) when its MAC is wrong. *)
Definition ue_accept (p : peer) (pdu : bytes) : peer * option bytes :=
  match pdu with
  | _ :: sht :: m0 :: m1 :: m2 :: m3 :: sqn :: inner =>
      let count := estimate (p_dl p) sqn in
      match ue_mac (p_ialg p) (p_KNASint p) count 1 (sqn :: inner),
            (if is_ciphered sht then ue_cipher (p_ealg p) (p_KNASenc p) count 1 inner else Ok inner) with
      | Ok mac, Ok plain =>
          if bool_decide (mac = [m0; m1; m2; m3])
          then (mkPeer (p_KNASint p) (p_KNASenc p) (p_ealg p) (p_ialg p) (p_ul p) (count + 1), Some plain)
          else (p, None)
      | _, _ => (p, None)
      end
  | _ => (p, None)
  end.

(** * Runs of the channel *)

Inductive channel_event :=
| Uplink (sht : Z) (plain : bytes)
| Downlink (sht : option Z) (msgType : Z) (body : Body) (lost : bool).

(** What the receiver of an event gets: the message type and body at the AMF, the
    plain PDU at the UE. *)
Inductive channel_outcome :=
| AtAMF (m : res (Z * Body))
| AtUE (plain : option bytes)
| LostDownlink
| NotSent.

Definition type_and_body (m : res Message) : res (Z * Body) :=
  m ← m; Ok (MessageType (msg_Header m), msg_Body m).

(** [None] as the header type of a downlink message stands for [sendNASSecured]. *)
Definition amf_send (sc : SecurityContext) (sht : option Z) (msgType : Z) (body : Body)
  : res (SecurityContext * bytes) :=
  match sht with
  | None => sendNASSecured sc PDMobilityManagement msgType body
  | Some sht => sendNASIntegrityOnly sc PDMobilityManagement msgType body sht
  end.

Definition channel_step (st : SecurityContext * peer) (ev : channel_event)
  : SecurityContext * peer * channel_outcome :=
  let '(sc, p) := st in
  match ev with
  | Uplink sht plain =>
      match ue_protect p sht plain with
      | Ok (p, pdu) =>
          match receiveNAS sc pdu with
          | Ok (sc, m) => (sc, p, AtAMF (type_and_body m))
          | Err e => (sc, p, AtAMF (Err e))
          | Panic => (sc, p, AtAMF Panic)
          | OutOfFuel => (sc, p, AtAMF OutOfFuel)
          end
      | _ => (sc, p, NotSent)
      end
  | Downlink sht msgType body lost =>
      match amf_send sc sht msgType body with
      | Ok (sc, pdu) =>
          if lost then (sc, p, LostDownlink)
          else let '(p, plain) := ue_accept p pdu in (sc, p, AtUE plain)
      | _ => (sc, p, NotSent)
      end
  end.

Fixpoint channel_run (st : SecurityContext * peer) (evs : list channel_event)
  : SecurityContext * peer * list channel_outcome :=
  match evs with
  | [] => (st.1, st.2, [])
  | ev :: evs =>
      let '(sc, p, o) := channel_step st ev in
      let '(sc, p, os) := channel_run (sc, p) evs in
      (sc, p, o :: os)
  end.

(** * Agreement of the two ends *)

(** What a lossless observer expects each receiver to get. *)
Definition expected_outcome (ev : channel_event) : channel_outcome :=
  match ev with
  | Uplink _ plain =>
      match plain with
      | _ :: _ :: mt :: rest => AtAMF (b ← decodeBody mt rest; Ok (mt, b))
      | _ => AtAMF (Err "nas: inner PDU too short")
      end
  | Downlink _ mt body lost =>
      match sendNASPlain PDMobilityManagement mt body with
      | Ok plain => if lost then LostDownlink else AtUE (Some plain)
      | _ => NotSent
      end
  end.

Definition event_ok (ev : channel_event) : Prop :=
  match ev with
  | Uplink sht plain => 1 <= sht <= 4 ∧ (3 <= length plain)%nat
  | Downlink sht _ _ _ => match sht with Some s => s = 1 ∨ s = 3 | None => True end
  end.
#[global] Instance event_ok_dec ev : Decision (event_ok ev).
Proof. destruct ev as [|[] ? ? ?]; simpl; apply _. Defined.

(** At most 255 downlink messages in a row are lost. *)
Fixpoint in_window (pending : Z) (evs : list channel_event) : Prop :=
  match evs with
  | [] => True
  | Uplink _ _ :: evs => in_window pending evs
  | Downlink _ mt body lost :: evs =>
      match sendNASPlain PDMobilityManagement mt body with
      | Ok _ => if lost then pending < 255 ∧ in_window (pending + 1) evs else in_window 0 evs
      | _ => in_window pending evs
      end
  end.

(** The two ends hold the same keys and algorithms, which are 128-NIA2 and either
    128-NEA2 or the null cipher (for other identifiers the AMF computes 128-NEA2 and 128-NIA2 all
    the same), agree on the uplink COUNT, and [pending] downlink messages are lost since
    the last one the UE accepted. *)
Definition in_sync (pending : Z) (sc : SecurityContext) (p : peer) : Prop :=
  sc_Active sc = true ∧ length (sc_KNASint sc) = 16%nat ∧ length (sc_KNASenc sc) = 16%nat ∧
  p_KNASint p = sc_KNASint sc ∧ p_KNASenc p = sc_KNASenc sc ∧
  (p_ealg p = sc_CipheringAlgID sc ∧ (p_ealg p = 0 ∨ p_ealg p = 2) ∧ p_ialg p = sc_IntegrityAlgID sc ∧ p_ialg p = 2) ∧
  p_ul p = sc_UplinkCount sc ∧ p_dl p + pending = sc_DownlinkCount sc ∧
  0 <= p_ul p ∧ 0 <= p_dl p ∧ 0 <= pending < 256.

Lemma ue_cipher_alg sc p sht count dir m :
  p_ealg p = sc_CipheringAlgID sc → p_ealg p = 0 ∨ p_ealg p = 2 →
  (if is_ciphered sht then ue_cipher (p_ealg p) (sc_KNASenc sc) count dir m else Ok m)
  = if is_ciphered sht && negb (sc_CipheringAlgID sc =? 0) then NEA2 (sc_KNASenc sc) count 1 dir m else Ok m.
Proof. intros <- [-> | ->]; by destruct (is_ciphered sht). Qed.

Lemma estimate_window e c : 0 <= e → e <= c < e + 256 → estimate e (c mod 256) = c.
Proof. intros. unfold estimate. destruct (Z.ltb_spec (c mod 256) (e mod 256)); dlia. Qed.

Lemma NIA2_Ok key count bearer dir m :
  length key = 16%nat → ∃ m0 m1 m2 m3, NIA2 key count bearer dir m = Ok [m0; m1; m2; m3].
Proof.
  intros Hk. unfold NIA2. rewrite Hk. cbn [Nat.eqb negb]. set (h := _ ++ m).
  assert (length (take 4 (aesCMAC key h)) = 4%nat) as Hl.
  { rewrite length_take. unfold aesCMAC. destruct (generateSubkeys key). cbv zeta. unfold cbc_step at 1.
    by rewrite length_aes_encrypt. }
  destruct (take 4 _) as [|m0 [|m1 [|m2 [|m3 [|]]]]]; try done. by exists m0, m1, m2, m3.
Qed.

Lemma Verify_NIA2 key count bearer dir m mac :
  NIA2 key count bearer dir m = Ok mac → Verify key count bearer dir m mac = Ok true.
Proof. unfold Verify. intros ->. cbn. by rewrite bool_decide_eq_true_2. Qed.

(** Ciphering, or leaving alone, and the inverse at the other end. *)
Lemma cipher_inverse (b : bool) key count dir m :
  length key = 16%nat →
  ∃ c, (if b then NEA2 key count 1 dir m else Ok m) = Ok c ∧ length c = length m ∧
       (if b then NEA2 key count 1 dir c else Ok c) = Ok m.
Proof.
  intros Hk. destruct b; [|by exists m]. destruct (NEA2_twice key count 1 dir m Hk) as (c & ? & ? & ?).
  by exists c.
Qed.

Lemma land_sht sht : 1 <= sht <= 4 → Z.land sht 0x0F = sht.
Proof. intros. bitfield. dlia. Qed.

Definition decipher (sc : SecurityContext) (sht : Z) (inner : bytes) : res bytes :=
  if is_ciphered sht && negb (sc_CipheringAlgID sc =? 0)
  then NEA2 (sc_KNASenc sc) (sc_UplinkCount sc) 1 0 inner else Ok inner.

Lemma receiveNAS_protect sc sht mac sqn inner :
  sc_Active sc = true → 1 <= sht <= 4 → length mac = 4%nat →
  receiveNAS sc (protect PDMobilityManagement sht mac sqn inner)
  = plain ← decipher sc sht inner; Ok (count_up sc, Decode (protect PDMobilityManagement sht mac sqn plain)).
Proof.
  intros Ha Hs Hm. destruct mac as [|m0 [|m1 [|m2 [|m3 [|]]]]]; try done.
  unfold receiveNAS. rewrite Ha. unfold protect. cbn [app length Nat.leb andb idx lookup list_lookup mbind res_bind].
  rewrite land_sht by done. unfold SecurityHeaderPlainNAS. destruct (Z.eqb_spec sht 0); [lia|].
  cbn [negb]. change (PDMobilityManagement =? PDMobilityManagement) with true. cbn [andb].
  unfold unwrapNASSecurity. nat_ltb; [simpl in *; lia|].
  cbn [app idx lookup list_lookup mbind res_bind]. rewrite land_sht by done.
  rewrite !slice_Ok by (cbn [length]; lia). rewrite slice_from_Ok by (cbn [length]; lia).
  cbn [mbind res_bind drop]. rewrite drop_0. unfold decipher. by destruct (if is_ciphered sht && _ then _ else _).
Qed.

Lemma channel_step_up pending sc p sht plain :
  in_sync pending sc p → event_ok (Uplink sht plain) → sc_UplinkCount sc < 2 ^ 24 →
  ∃ sc' p', channel_step (sc, p) (Uplink sht plain) = (sc', p', expected_outcome (Uplink sht plain)) ∧
    in_sync pending sc' p' ∧ sc_UplinkCount sc' = sc_UplinkCount sc + 1 ∧ sc_DownlinkCount sc' = sc_DownlinkCount sc.
Proof.
  intros (Ha & Hi & He & Ei & Ee & (Ea & Ha02 & Eia & Ei2) & Eu & Ed & Hu & Hd & Hp) [Hs Hl] Hc. cbn [channel_step]. unfold ue_protect.
  rewrite Ei, Ee, Eu, (ue_cipher_alg sc p sht) by done.
  destruct (cipher_inverse (is_ciphered sht && negb (sc_CipheringAlgID sc =? 0)) (sc_KNASenc sc) (sc_UplinkCount sc) 0
              plain He) as (c & -> & Hlc & Hinv).
  cbn [mbind res_bind]. unfold ue_mac. rewrite Ei2. cbn [Z.eqb Pos.eqb]. destruct (NIA2_Ok (sc_KNASint sc) (sc_UplinkCount sc) 1 0
    (sc_UplinkCount sc mod 256 :: c) Hi) as (m0 & m1 & m2 & m3 & ->). cbn [mbind res_bind].
  rewrite receiveNAS_protect by done. unfold decipher. rewrite Hinv. cbn [mbind res_bind].
  destruct plain as [|e [|s [|mt rest]]]; cbn [length] in Hl; try lia.
  rewrite Decode_protect by (try done; lia). do 2 eexists. split_and!.
  - cbn [expected_outcome]. f_equal. f_equal. unfold type_and_body. by destruct (decodeBody mt rest).
  - split_and!; cbn; try done; unfold u32; rewrite ?Z.mod_small; lia.
  - cbn. unfold u32. rewrite Z.mod_small; lia.
  - done.
Qed.

(** A downlink PDU the AMF builds for the COUNT [sc_DownlinkCount sc], accepted. *)
Lemma ue_accept_pdu pending sc p sht mac0 plain c :
  in_sync pending sc p →
  (if is_ciphered sht && negb (sc_CipheringAlgID sc =? 0)
   then NEA2 (sc_KNASenc sc) (sc_DownlinkCount sc) 1 1 c else Ok c) = Ok plain →
  NIA2 (sc_KNASint sc) (sc_DownlinkCount sc) 1 1 (sc_DownlinkCount sc mod 256 :: c) = Ok mac0 →
  length mac0 = 4%nat →
  ue_accept p (security_pdu PDMobilityManagement sht mac0 (sc_DownlinkCount sc mod 256) c)
  = (mkPeer (p_KNASint p) (p_KNASenc p) (p_ealg p) (p_ialg p) (p_ul p) (sc_DownlinkCount sc + 1), Some plain).
Proof.
  intros (Ha & Hi & He & Ei & Ee & (Ea & Ha02 & Eia & Ei2) & Eu & Ed & Hu & Hd & Hp) Hc Hm Hl.
  unfold security_pdu. rewrite go_copy_full by done.
  destruct mac0 as [|m0 [|m1 [|m2 [|m3 [|]]]]]; try done. cbn [app ue_accept].
  rewrite estimate_window by lia. rewrite Ei, Ee, (ue_cipher_alg sc p sht), Hc by done. unfold ue_mac. rewrite Ei2.
  cbn [Z.eqb Pos.eqb]. rewrite Hm. by rewrite bool_decide_eq_true_2.
Qed.

Lemma sqn_octet count : u8 (Z.land count 0xFF) = count mod 256.
Proof. unfold u8. bitfield. dlia. Qed.

Lemma channel_step_down pending sc p sht mt body lost :
  let ev := Downlink sht mt body lost in
  in_sync pending sc p → event_ok ev → in_window pending [ev] → sc_DownlinkCount sc < 2 ^ 24 →
  ∃ sc' p' pending', channel_step (sc, p) ev = (sc', p', expected_outcome ev) ∧
    in_sync pending' sc' p' ∧ sc_UplinkCount sc' = sc_UplinkCount sc ∧
    sc_DownlinkCount sc' <= sc_DownlinkCount sc + 1 ∧
    ∀ evs, in_window pending (ev :: evs) → in_window pending' evs.
Proof.
  intros ev Hsync Hok Hw Hc. pose proof Hsync as (Ha & Hi & He & Ei & Ee & (Ea & Ha02 & Eia & Ei2) & Eu & Ed & Hu & Hd & Hp).
  subst ev. cbn [channel_step expected_outcome in_window] in *.
  destruct (sendNASPlain PDMobilityManagement mt body) as [plain| | |] eqn:Epl.
  2-4: exists sc, p, pending; unfold amf_send, sendNASSecured, sendNASIntegrityOnly; rewrite Epl;
       destruct sht; split_and!; try done; lia.
  assert (∃ sh c mac, amf_send sc sht mt body
            = Ok (count_down sc, security_pdu PDMobilityManagement sh mac (sc_DownlinkCount sc mod 256) c) ∧
          (if is_ciphered sh && negb (sc_CipheringAlgID sc =? 0)
           then NEA2 (sc_KNASenc sc) (sc_DownlinkCount sc) 1 1 c else Ok c) = Ok plain ∧
          NIA2 (sc_KNASint sc) (sc_DownlinkCount sc) 1 1 (sc_DownlinkCount sc mod 256 :: c) = Ok mac ∧
          length mac = 4%nat) as (sh & c & mac & -> & Hinv & Hmac & Hlm).
  { destruct sht as [sh|]; cbn [amf_send]; unfold sendNASIntegrityOnly, sendNASSecured; rewrite Epl, sqn_octet;
      cbn [mbind res_bind].
    - destruct (NIA2_Ok (sc_KNASint sc) (sc_DownlinkCount sc) 1 1 (sc_DownlinkCount sc mod 256 :: plain) Hi)
        as (m0 & m1 & m2 & m3 & E). rewrite E. exists sh, plain, [m0; m1; m2; m3].
      split_and!; try done. by destruct Hok as [-> | ->].
    - destruct (cipher_inverse (negb (sc_CipheringAlgID sc =? 0)) (sc_KNASenc sc) (sc_DownlinkCount sc) 1 plain He)
        as (c & Ec & _ & Hinv).
      destruct (NIA2_Ok (sc_KNASint sc) (sc_DownlinkCount sc) 1 1 (sc_DownlinkCount sc mod 256 :: c) Hi)
        as (m0 & m1 & m2 & m3 & E).
      exists SecurityHeaderIntegrityProtectedAndCiphered, c, [m0; m1; m2; m3].
      destruct (sc_CipheringAlgID sc =? 0); cbn [negb] in Ec, Hinv; rewrite Ec; cbn [mbind res_bind]; by rewrite E. }
  assert (u32 (sc_DownlinkCount sc + 1) = sc_DownlinkCount sc + 1) as Hn by (unfold u32; rewrite Z.mod_small; lia).
  destruct lost.
  - destruct Hw as [Hw _]. exists (count_down sc), p, (pending + 1). split_and!; try done.
    + split_and!; cbn; try done; lia.
    + cbn. lia.
    + by intros evs [_ ?].
  - rewrite (ue_accept_pdu pending sc p sh mac plain c) by done.
    do 2 eexists. exists 0. split; [done|]. split_and!; cbn -[u32]; try done; try lia.
    unfold in_sync. split_and!; cbn -[u32]; try done; lia.
Qed.

Lemma in_window_head pending ev evs : in_window pending (ev :: evs) → in_window pending [ev].
Proof. destruct ev as [|? mt body lost]; cbn; [done|]. repeat case_match; tauto. Qed.

Lemma channel_run_sync evs pending sc p :
  in_sync pending sc p → Forall event_ok evs → in_window pending evs →
  sc_UplinkCount sc + Z.of_nat (length evs) <= 2 ^ 24 →
  sc_DownlinkCount sc + Z.of_nat (length evs) <= 2 ^ 24 →
  ∃ sc' p' pending', channel_run (sc, p) evs = (sc', p', expected_outcome <$> evs) ∧ in_sync pending' sc' p'.
Proof.
  revert pending sc p. induction evs as [|ev evs IH]; intros pending sc p Hs Hok Hw Hu Hd; [by eauto|].
  apply Forall_cons in Hok as [Hev Hok]. cbn [length] in Hu, Hd. cbn [channel_run fmap list_fmap].
  assert (∃ sc' p' pending', channel_step (sc, p) ev = (sc', p', expected_outcome ev) ∧ in_sync pending' sc' p' ∧
            in_window pending' evs ∧ sc_UplinkCount sc' <= sc_UplinkCount sc + 1 ∧
            sc_DownlinkCount sc' <= sc_DownlinkCount sc + 1) as (sc' & p' & pd & -> & Hs' & Hw' & Hu' & Hd').
  { destruct ev as [sht plain|sht mt body lost].
    - destruct (channel_step_up pending sc p sht plain Hs Hev) as (sc' & p' & ? & ? & ? & ?); [lia|].
      exists sc', p', pending. split_and!; try done; lia.
    - destruct (channel_step_down pending sc p sht mt body lost Hs Hev) as (sc' & p' & pd & ? & ? & ? & ? & Hn);
        [by eapply in_window_head|lia|].
      exists sc', p', pd. split_and!; auto; lia. }
  destruct (IH pd sc' p' Hs' Hok Hw') as (sc'' & p'' & pd'' & -> & ?); [lia..|]. eauto.
Qed.

(** C22: the NAS security of the AMF interoperates with a UE that follows the
    standard and supports 128-NIA2.  From a state in which both hold the same keys and
    COUNTs, the integrity algorithm is 128-NIA2 and the ciphering algorithm 128-NEA2 or the
    null one, over any interleaving of uplink messages, none of which is lost, and
    downlink messages, of which at most 255 in a row are lost, the AMF decodes every
    uplink message into what the UE sent, the UE accepts every downlink message it
    receives and recovers the PDU the AMF encoded, and the two ends stay in step (for the
    2^24 COUNT values of a key). *)
Theorem nas_channel_delivers evs sc p :
  in_sync 0 sc p → Forall event_ok evs → in_window 0 evs →
  sc_UplinkCount sc + Z.of_nat (length evs) <= 2 ^ 24 →
  sc_DownlinkCount sc + Z.of_nat (length evs) <= 2 ^ 24 →
  ∃ sc' p' pending,
    channel_run (sc, p) evs = (sc', p', expected_outcome <$> evs) ∧ in_sync pending sc' p'.
Proof. apply channel_run_sync. Qed.

Definition demo_sc : SecurityContext :=
  mkSecurityContext 0 2 2 [] (replicate 16 3) (replicate 16 5) 254 255 true.
Definition demo_peer : peer := mkPeer (replicate 16 3) (replicate 16 5) 2 2 254 255.
Definition demo_events : list channel_event :=
  [Uplink 2 [0x7E; 0; 0x43]; Downlink None MsgTypeIdentityRequest (BIdentityRequest (mkIdentityRequest 1)) true;
   Downlink None MsgTypeIdentityRequest (BIdentityRequest (mkIdentityRequest 1)) false;
   Uplink 4 [0x7E; 0; 0x59; 0x15]; Downlink (Some 3) MsgTypeIdentityRequest (BIdentityRequest (mkIdentityRequest 3)) false].

Lemma nas_channel_delivers_witness :
  ∃ sc' p' pending,
    channel_run (demo_sc, demo_peer) demo_events
    = (sc', p', [AtAMF (Ok (0x43, BRegistrationComplete)); LostDownlink; AtUE (Some [0x7E; 0; 0x5B; 1]);
                 AtAMF (Ok (0x59, BAuthenticationFailure (mkAuthenticationFailure 0x15 [])));
                 AtUE (Some [0x7E; 0; 0x5B; 3])])
    ∧ in_sync pending sc' p'.
Proof.
  apply (nas_channel_delivers demo_events demo_sc demo_peer).
  - unfold in_sync. cbn. split_and!; try done; lia.
  - apply (bool_decide_unpack _). vm_compute. exact I.
  - cbn. lia.
  - cbn. lia.
  - cbn. lia.
Defined.


(** What the dispatch that follows sees. *)
Definition observed (r : res (SecurityContext * res Message)) : res (SecurityContext * res (Z * Body)) :=
  '(sc, m) ← r; Ok (sc, type_and_body m).

Lemma Decode_protect_MAC epd sht mac mac' sn plain :
  1 <= sht < 16 → length mac = 4%nat → length mac' = 4%nat →
  type_and_body (Decode (protect epd sht mac sn plain)) = type_and_body (Decode (protect epd sht mac' sn plain)).
Proof.
  intros Hs Hm Hm'. destruct plain as [|e [|s [|mt rest]]].
  4: rewrite !Decode_protect by done; by destruct (decodeBody mt rest).
  all: destruct mac as [|m0 [|m1 [|m2 [|m3 [|]]]]], mac' as [|n0 [|n1 [|n2 [|n3 [|]]]]]; try done.
  all: unfold Decode, protect; cbn [app length Nat.ltb Nat.leb idx lookup list_lookup mbind res_bind];
    assert (Z.land sht 0x0F = sht) as -> by (bitfield; dlia); unfold SecurityHeaderPlainNAS;
    destruct (Z.eqb_spec sht 0); [lia|]; try done.
Qed.

(** The handler does not enforce integrity.  While a security context is
    active, what the AMF decodes from a protected uplink PDU and the context it
    leaves do not depend on the MAC: a PDU with any four octets in its place is
    processed like the authentic one, although [Verify] has rejected it. *)
Lemma uplink_MAC_not_enforced sc sht sqn inner mac mac' :
  sc_Active sc = true → 1 <= sht <= 4 → length mac = 4%nat → length mac' = 4%nat →
  observed (receiveNAS sc (protect PDMobilityManagement sht mac sqn inner))
  = observed (receiveNAS sc (protect PDMobilityManagement sht mac' sqn inner)).
Proof.
  intros Ha Hs Hm Hm'. rewrite !receiveNAS_protect by done.
  destruct (decipher sc sht inner) as [plain| | |]; [|done..]. unfold observed. cbn [mbind res_bind].
  do 2 f_equal. apply Decode_protect_MAC; [lia|done..].
Qed.

(** The uplink COUNT of the AMF counts the messages it received; the sequence
    number of a PDU is not used.  After one lost uplink message the next one is
    deciphered with the wrong COUNT. *)
Definition after_uplink_loss : res (res (Z * Body)) :=
  '(p, _) ← ue_protect demo_peer 2 [0x7E; 0; 0x43];
  '(_, pdu) ← ue_protect p 2 [0x7E; 0; 0x59; 0x15];
  '(_, m) ← observed (receiveNAS demo_sc pdu);
  Ok m.

Example uplink_loss_desynchronises :
  after_uplink_loss ≠ Ok (Ok (0x59, BAuthenticationFailure (mkAuthenticationFailure 0x15 []))).
Proof. vm_compute. discriminate. Qed.
