(* ===== verification/AmfNssaa.v ===== *)
(** Network slice-specific authentication at the AMF
    ([nf/amf/internal/procedures/nssaa.go]): the slices subject to it are withheld
    from the Allowed NSSAI, authenticated one by one through an EAP exchange with
    the AAA server, and then allowed or rejected.

    The AAA server, reached through the AUSF, is the parameter [aaa] of the
    handler: [None] when it is not configured, else the outcome of one
    [Authenticate] call, itself [None] when the call fails. *)

From S2P Require Import Prelude NasIE NasEap GoCrypto CryptoEap AmfContext.

Definition NSSAAResultSuccess : string := "EAP_SUCCESS".
Definition NSSAAResultFailure : string := "EAP_FAILURE".

Record NSSAAAuthResult := mkNSSAAAuthResult { AuthResult : string; EAPPayload : bytes }.

(** [Authenticate supi gpsi sst sd eap] *)
Definition NSSAAClient : Type := string → string → Z → string → bytes → option NSSAAAuthResult.

Definition same_key (sst : Z) (sd : string) (e : SNSSAISubscribed) : bool :=
  (s_SST e =? sst) && String.eqb (s_SD e) sd.

Definition toNASSNSSAI (s : SNSSAISubscribed) : SNSSAI := mkSNSSAI (s_SST s) (SDFromString (str (s_SD s))).
Definition sameSlice (a b : SNSSAI) : bool := (SST a =? SST b) && (SD a =? SD b).

Definition dropSlice (l : list SNSSAISubscribed) (s : SNSSAISubscribed) : list SNSSAISubscribed :=
  filter (λ e, same_key (s_SST s) (s_SD s) e = false) l.

Definition appendAllowed (l : list SNSSAISubscribed) (s : SNSSAISubscribed) : list SNSSAISubscribed :=
  if existsb (same_key (s_SST s) (s_SD s)) l then l else l ++ [s].
Definition appendRejected (l : list SNSSAISubscribed) (s : SNSSAISubscribed) : list SNSSAISubscribed :=
  if existsb (same_key (s_SST s) (s_SD s)) l then l else l ++ [s].

Definition with_pending (v : list SNSSAISubscribed) (u : UEContext) : UEContext :=
  set_NSSAA (mkSliceState v (sl_InProgress (ue_NSSAA u)) (sl_EAPID (ue_NSSAA u)) (sl_Rejected (ue_NSSAA u))) u.
Definition with_rejected (v : list SNSSAISubscribed) (u : UEContext) : UEContext :=
  set_NSSAA (mkSliceState (sl_Pending (ue_NSSAA u)) (sl_InProgress (ue_NSSAA u)) (sl_EAPID (ue_NSSAA u)) v) u.
Definition with_progress (v : option SNSSAISubscribed) (id : Z) (u : UEContext) : UEContext :=
  set_NSSAA (mkSliceState (sl_Pending (ue_NSSAA u)) v id (sl_Rejected (ue_NSSAA u))) u.

Section Nssaa.
Variable aaa : option NSSAAClient.

Definition SplitPendingNSSAA (u : UEContext) : UEContext :=
  match aaa with
  | None => u
  | Some _ =>
      let held := filter (λ s, s_SubjectToNSSAA s = true) (ue_AllowedNSSAI u) in
      let allowed := filter (λ s, s_SubjectToNSSAA s = false) (ue_AllowedNSSAI u) in
      let pending := sl_Pending (ue_NSSAA u) ++ held in
      let u := with_pending pending u in
      if (0 <? length pending)%nat then set_AllowedNSSAI allowed u else u
  end.

Definition beginSlice (u : UEContext) (slice : SNSSAISubscribed) : UEContext * NSSAAuthCommand :=
  let id := u8 (sl_EAPID (ue_NSSAA u) + 1) in
  (with_progress (Some slice) id u, mkNSSAAuthCommand (toNASSNSSAI slice) (Eap.BuildIdentityRequest id)).

Definition StartNSSAA (u : UEContext) : option (UEContext * NSSAAuthCommand) :=
  match aaa, sl_Pending (ue_NSSAA u) with
  | Some _, s :: _ => Some (beginSlice u s)
  | _, _ => None
  end.

Record NSSAACompleteOutcome := mkOutcome {
  out_Result : NSSAAuthResult; out_NextCommand : option NSSAAuthCommand; out_AllowedChanged : bool;
  out_Slice : SNSSAISubscribed; out_Authorized : bool }.

Definition ProcessNSSAAComplete (u : UEContext) (complete : NSSAAuthComplete)
  : res (UEContext * NSSAACompleteOutcome) :=
  match aaa with
  | None => Err "nssaa: not configured"
  | Some Authenticate =>
      match sl_InProgress (ue_NSSAA u) with
      | None => Err "nssaa: COMPLETE with no slice in progress"
      | Some slice =>
          if negb (sameSlice (toNASSNSSAI slice) (np_SNSSAI complete))
          then Err "nssaa: COMPLETE S-NSSAI != in-progress"
          else
            let '(authorized, eapResult) :=
              match Authenticate (ue_SUPI u) (ue_SUPI u) (s_SST slice) (s_SD slice) (np_EAPMessage complete) with
              | None => (false, Eap.BuildFailure (sl_EAPID (ue_NSSAA u)))
              | Some r => (String.eqb (AuthResult r) NSSAAResultSuccess, EAPPayload r)
              end in
            let u :=
              if authorized then
                with_rejected (dropSlice (sl_Rejected (ue_NSSAA u)) slice)
                  (set_AllowedNSSAI (appendAllowed (ue_AllowedNSSAI u) slice) u)
              else with_rejected (appendRejected (sl_Rejected (ue_NSSAA u)) slice) u in
            let u := with_progress None (sl_EAPID (ue_NSSAA u)) u in
            let u := with_pending (dropSlice (sl_Pending (ue_NSSAA u)) slice) u in
            let result := mkNSSAAuthResult (toNASSNSSAI slice) eapResult in
            match sl_Pending (ue_NSSAA u) with
            | s :: _ =>
                let '(u, cmd) := beginSlice u s in
                Ok (u, mkOutcome result (Some cmd) authorized slice authorized)
            | [] => Ok (u, mkOutcome result None authorized slice authorized)
            end
      end
  end.
End Nssaa.

Definition RevokeNSSAA (u : UEContext) (sst : Z) (sd : string) : UEContext * bool :=
  if negb (existsb (same_key sst sd) (ue_AllowedNSSAI u)) then (u, false)
  else
    (with_rejected (appendRejected (sl_Rejected (ue_NSSAA u)) (mkSNSSAISubscribed sst sd "" false))
       (set_AllowedNSSAI (filter (λ e, same_key sst sd e = false) (ue_AllowedNSSAI u)) u), true).

Definition ReauthNSSAA (u : UEContext) (sst : Z) (sd : string) : UEContext * bool :=
  match find (same_key sst sd) (ue_AllowedNSSAI u) with
  | Some s => (with_pending (appendAllowed (sl_Pending (ue_NSSAA u)) s) u, true)
  | None => (u, false)
  end.

(** * Slices by their key *)

Definition key (s : SNSSAISubscribed) : Z * string := (s_SST s, s_SD s).
Abbreviation keys l := (fmap (M:=list) key l).

Lemma same_key_true sst sd e : same_key sst sd e = true ↔ key e = (sst, sd).
Proof.
  unfold same_key, key. rewrite andb_true_iff, Z.eqb_eq, String.eqb_eq. naive_solver.
Qed.

Lemma same_key_false sst sd e : same_key sst sd e = false ↔ key e ≠ (sst, sd).
Proof. rewrite <- not_true_iff_false. by rewrite same_key_true. Qed.

Lemma keys_filter (P : SNSSAISubscribed → Prop) `{!∀ x, Decision (P x)} sst sd l k :
  (∀ e, P e ↔ key e ≠ (sst, sd)) → k ∈ keys (filter P l) ↔ k ∈ keys l ∧ k ≠ (sst, sd).
Proof.
  intros HP. rewrite !list_elem_of_fmap. setoid_rewrite list_elem_of_filter. setoid_rewrite HP. naive_solver.
Qed.

Lemma keys_drop l s k : k ∈ keys (dropSlice l s) ↔ k ∈ keys l ∧ k ≠ key s.
Proof. apply keys_filter. intros. apply same_key_false. Qed.

Lemma existsb_key sst sd l : existsb (same_key sst sd) l = true ↔ (sst, sd) ∈ keys l.
Proof.
  rewrite existsb_exists, list_elem_of_fmap. setoid_rewrite same_key_true.
  setoid_rewrite <- list_elem_of_In. naive_solver.
Qed.

Lemma keys_append l s k : k ∈ keys (appendAllowed l s) ↔ k ∈ keys l ∨ k = key s.
Proof.
  unfold appendAllowed. destruct (existsb _ l) eqn:E.
  - apply existsb_key in E. change (s_SST s, s_SD s) with (key s) in E. naive_solver.
  - rewrite fmap_app, elem_of_app. set_solver.
Qed.

Lemma elem_append l s e : e ∈ appendAllowed l s → e ∈ l ∨ e = s.
Proof. unfold appendAllowed. case_match; set_solver. Qed.

Lemma length_drop_head s l : (length (dropSlice (s :: l) s) <= length l)%nat.
Proof.
  unfold dropSlice. rewrite filter_cons_False; [apply length_filter|].
  rewrite same_key_false. by intros H.
Qed.

Definition authorised (r : option NSSAAAuthResult) : bool :=
  match r with Some r => String.eqb (AuthResult r) NSSAAResultSuccess | None => false end.

(** The context after a COMPLETE for the slice in progress. *)
Definition resolve (u : UEContext) (slice : SNSSAISubscribed) (authorized : bool) : UEContext :=
  let u := if authorized then
             with_rejected (dropSlice (sl_Rejected (ue_NSSAA u)) slice)
               (set_AllowedNSSAI (appendAllowed (ue_AllowedNSSAI u) slice) u)
           else with_rejected (appendRejected (sl_Rejected (ue_NSSAA u)) slice) u in
  with_pending (dropSlice (sl_Pending (ue_NSSAA u)) slice) (with_progress None (sl_EAPID (ue_NSSAA u)) u).

Lemma Process_resolve (client : NSSAAClient) u slice c :
  sl_InProgress (ue_NSSAA u) = Some slice → sameSlice (toNASSNSSAI slice) (np_SNSSAI c) = true →
  let ok := authorised (client (ue_SUPI u) (ue_SUPI u) (s_SST slice) (s_SD slice) (np_EAPMessage c)) in
  ∃ eap, ProcessNSSAAComplete (Some client) u c =
    let u' := resolve u slice ok in
    let r := mkNSSAAuthResult (toNASSNSSAI slice) eap in
    match sl_Pending (ue_NSSAA u') with
    | s :: _ => Ok ((beginSlice u' s).1, mkOutcome r (Some (beginSlice u' s).2) ok slice ok)
    | [] => Ok (u', mkOutcome r None ok slice ok)
    end.
Proof.
  intros Hp Hs ok. unfold ProcessNSSAAComplete. rewrite Hp, Hs. cbn [negb]. subst ok.
  destruct (client _ _ _ _ _) as [r|]; cbn [authorised]; [destruct (String.eqb _ _)|]; eexists;
    unfold resolve; cbn -[toNASSNSSAI dropSlice appendAllowed appendRejected Eap.BuildIdentityRequest u8];
    by destruct (dropSlice (sl_Pending (ue_NSSAA u)) slice).
Qed.

Lemma sameSlice_refl s : sameSlice s s = true.
Proof. unfold sameSlice. by rewrite !Z.eqb_refl. Qed.

(** * No slice is allowed before it is authenticated *)

Inductive nssaa_op :=
| OpRegister (computed : list SNSSAISubscribed)
| OpStart
| OpComplete (c : NSSAAuthComplete) (answer : option NSSAAAuthResult)
| OpRevoke (sst : Z) (sd : string)
| OpReauth (sst : Z) (sd : string).

(** The slice the AAA server is asked about when the UE sends a COMPLETE. *)
Definition asked (u : UEContext) (c : NSSAAuthComplete) : option SNSSAISubscribed :=
  match sl_InProgress (ue_NSSAA u) with
  | Some s => if sameSlice (toNASSNSSAI s) (np_SNSSAI c) then Some s else None
  | None => None
  end.

(** The AAA server with the answer it gives this time. *)
Definition answering (answer : option NSSAAAuthResult) : NSSAAClient := λ _ _ _ _ _, answer.

(** The operations on the context, beside a ledger of the AAA server's own answers: the
    keys of the slices it has accepted since the last registration and not revoked
    since.  The answer to a COMPLETE may be anything ([None]: the server is not reached),
    also different answers for the same slice. *)
Definition nssaa_step (st : UEContext * list (Z * string)) (op : nssaa_op) : UEContext * list (Z * string) :=
  let '(u, ledger) := st in
  match op with
  | OpRegister computed => (SplitPendingNSSAA (Some (answering None)) (set_AllowedNSSAI computed u), [])
  | OpStart => (match StartNSSAA (Some (answering None)) u with Some (u, _) => u | None => u end, ledger)
  | OpComplete c answer =>
      (match ProcessNSSAAComplete (Some (answering answer)) u c with Ok (u, _) => u | _ => u end,
       match asked u c, answer with
       | Some s, Some r => if decide (AuthResult r = NSSAAResultSuccess) then key s :: ledger else ledger
       | _, _ => ledger
       end)
  | OpRevoke sst sd => ((RevokeNSSAA u sst sd).1, filter (λ k, k ≠ (sst, sd)) ledger)
  | OpReauth sst sd => ((ReauthNSSAA u sst sd).1, ledger)
  end.

Definition granted (st : UEContext * list (Z * string)) : Prop :=
  ∀ s, s ∈ ue_AllowedNSSAI st.1 → s_SubjectToNSSAA s = true → key s ∈ st.2.

Lemma resolve_allowed u s (ok : bool) :
  ue_AllowedNSSAI (resolve u s ok) = if ok then appendAllowed (ue_AllowedNSSAI u) s else ue_AllowedNSSAI u.
Proof. by destruct ok. Qed.

Lemma split_granted client u : granted (SplitPendingNSSAA (Some client) u, []).
Proof.
  intros s Hs Hf. unfold SplitPendingNSSAA in Hs. cbv zeta in Hs. cbn [fst] in Hs.
  set (held := filter (λ s, s_SubjectToNSSAA s = true) (ue_AllowedNSSAI u)) in *.
  destruct (Nat.ltb_spec 0 (length (sl_Pending (ue_NSSAA u) ++ held))) as [|Hl]; cbn [set_AllowedNSSAI ue_AllowedNSSAI] in Hs.
  - apply list_elem_of_filter in Hs as [H' _]. congruence.
  - assert (s ∈ held) as Hin by by apply list_elem_of_filter.
    rewrite length_app in Hl. destruct held as [|? ?]; [set_solver|]. cbn in Hl. lia.
Qed.

Lemma asked_Some u c s :
  asked u c = Some s → sl_InProgress (ue_NSSAA u) = Some s ∧ sameSlice (toNASSNSSAI s) (np_SNSSAI c) = true.
Proof.
  unfold asked. destruct (sl_InProgress _) as [s'|]; [|done]. destruct (sameSlice _ _) eqn:E; [|done]. by intros [= ->].
Qed.

Lemma asked_None client u c : asked u c = None → ∃ e, ProcessNSSAAComplete (Some client) u c = Err e.
Proof.
  unfold asked, ProcessNSSAAComplete. destruct (sl_InProgress _) as [s|]; [|by eexists].
  destruct (sameSlice _ _); [done|]. by eexists.
Qed.

Lemma complete_allowed answer u c s :
  asked u c = Some s →
  ∃ u' out, ProcessNSSAAComplete (Some (answering answer)) u c = Ok (u', out) ∧
    ue_AllowedNSSAI u' = if authorised answer then appendAllowed (ue_AllowedNSSAI u) s else ue_AllowedNSSAI u.
Proof.
  intros [Hi Hs]%asked_Some. destruct (Process_resolve (answering answer) u s c Hi Hs) as (eap & ->).
  cbv zeta. unfold answering. rewrite <- resolve_allowed.
  destruct (sl_Pending (ue_NSSAA (resolve u s (authorised answer)))); by eexists _, _.
Qed.

Lemma complete_granted u ledger c answer :
  granted (u, ledger) → granted (nssaa_step (u, ledger) (OpComplete c answer)).
Proof.
  intros Hg. cbn [nssaa_step]. destruct (asked u c) as [s|] eqn:Ea.
  2: { destruct (asked_None (answering answer) u c Ea) as [e ->]. done. }
  destruct (complete_allowed answer u c s Ea) as (u' & out & -> & Hal).
  unfold granted in *. cbn [fst snd] in *. intros e He Hf. rewrite Hal in He. unfold authorised in He.
  destruct answer as [r|]; [|by apply Hg]. destruct (String.eqb_spec (AuthResult r) NSSAAResultSuccess) as [E|E].
  - rewrite decide_True by done. apply elem_append in He as [He| ->]; [|set_solver]. apply elem_of_cons. right. by apply Hg.
  - rewrite decide_False by done. by apply Hg.
Qed.

Lemma nssaa_step_granted st op : granted st → granted (nssaa_step st op).
Proof.
  destruct st as [u ledger]. intros Hg. destruct op as [l| |c answer|sst sd|sst sd]; [..|cbn [nssaa_step]].
  - apply split_granted.
  - cbn [nssaa_step]. unfold StartNSSAA. by destruct (sl_Pending (ue_NSSAA u)).
  - by apply complete_granted.
  - cbn [nssaa_step]. unfold RevokeNSSAA. destruct (existsb _ _) eqn:E; cbn [negb fst].
    + intros s [Hk Hs]%list_elem_of_filter Hf. cbn [snd]. apply same_key_false in Hk.
      apply list_elem_of_filter. split; [done|by apply Hg].
    + intros s Hs Hf. cbn [snd fst] in *. apply list_elem_of_filter. split; [|by apply Hg].
      apply not_true_iff_false in E. rewrite existsb_key in E. intros H. apply E. rewrite <- H. set_solver.
  - unfold ReauthNSSAA. by destruct (find _ _).
Qed.

(** C38: no slice is allowed before it is authenticated.  With an AAA server
    configured, over any sequence of registrations, EAP rounds, revocations and
    re-authentications, and whatever the AAA server answers or fails to answer in each
    round, a slice subject to slice-specific authentication is in the Allowed NSSAI
    only if some answer of the AAA server since the last registration was a success
    for that slice, and the server has not revoked it after the last such answer.  (A
    re-authentication that the server refuses later does not withdraw the slice:
    [failed_reauth_stays_allowed].) *)
Theorem nssaa_allowed_authenticated ops u :
  ue_AllowedNSSAI u = [] → granted (foldl nssaa_step (u, []) ops).
Proof.
  intros Hu. assert (granted (u, [])) as Hg by (intros s; cbn; rewrite Hu; set_solver).
  revert Hg. generalize (u, []:list (Z * string)). induction ops as [|op ops IH]; intros st Hst; cbn [foldl]; [done|].
  apply IH. by apply nssaa_step_granted.
Qed.

Definition demo_slice (sst : Z) (f : bool) : SNSSAISubscribed := mkSNSSAISubscribed sst "" "internet" f.
Definition demo_aaa : NSSAAClient := λ _ _ sst _ _,
  if sst =? 2 then Some (mkNSSAAAuthResult NSSAAResultSuccess (Eap.BuildSuccess 1)) else None.
Definition demo_ops : list nssaa_op :=
  [OpRegister [demo_slice 1 false; demo_slice 2 true; demo_slice 3 true]; OpStart;
   OpComplete (mkNSSAAuthComplete (mkSNSSAI 2 SDNotPresent) [])
     (Some (mkNSSAAAuthResult NSSAAResultSuccess (Eap.BuildSuccess 1)));
   OpComplete (mkNSSAAuthComplete (mkSNSSAI 3 SDNotPresent) [])
     (Some (mkNSSAAAuthResult "EAP_FAILURE" (Eap.BuildFailure 2)))].

Lemma nssaa_allowed_authenticated_witness :
  granted (foldl nssaa_step (newUE 1 1 0, []) demo_ops) ∧
  ue_AllowedNSSAI (foldl nssaa_step (newUE 1 1 0, []) demo_ops).1 = [demo_slice 1 false; demo_slice 2 true] ∧
  (foldl nssaa_step (newUE 1 1 0, []) demo_ops).2 = [(2, ""%string)].
Proof.
  split; [|split; vm_compute; reflexivity]. apply (nssaa_allowed_authenticated demo_ops (newUE 1 1 0)). reflexivity.
Defined.

(** * The exchange ends *)

(** The UE answers every COMMAND with a COMPLETE for the same slice. *)
Fixpoint nssaa_exchange (client : NSSAAClient) (answer : NSSAAuthCommand → bytes) (fuel : nat)
    (u : UEContext) (cmd : NSSAAuthCommand) : res UEContext :=
  match fuel with
  | O => OutOfFuel
  | S fuel =>
      '(u, out) ← ProcessNSSAAComplete (Some client) u (mkNSSAAuthComplete (nc_SNSSAI cmd) (answer cmd));
      match out_NextCommand out with
      | Some cmd => nssaa_exchange client answer fuel u cmd
      | None => Ok u
      end
  end.

(** The outcome for every slice key, from the slices [pending] at the start. *)
Definition nssaa_result (ok : Z * string → bool) (pending : list SNSSAISubscribed) (u u' : UEContext) : Prop :=
  (∀ k, k ∈ keys (ue_AllowedNSSAI u') ↔ k ∈ keys (ue_AllowedNSSAI u) ∨ (k ∈ keys pending ∧ ok k = true)) ∧
  (∀ k, k ∈ keys (sl_Rejected (ue_NSSAA u')) ↔
     (k ∈ keys (sl_Rejected (ue_NSSAA u)) ∧ k ∉ keys pending) ∨ (k ∈ keys pending ∧ ok k = false)).

Lemma resolve_rejected u s (ok : bool) :
  sl_Rejected (ue_NSSAA (resolve u s ok))
  = if ok then dropSlice (sl_Rejected (ue_NSSAA u)) s else appendRejected (sl_Rejected (ue_NSSAA u)) s.
Proof. by destruct ok. Qed.

Lemma resolve_pending u s (ok : bool) :
  sl_Pending (ue_NSSAA (resolve u s ok)) = dropSlice (sl_Pending (ue_NSSAA u)) s ∧
  sl_InProgress (ue_NSSAA (resolve u s ok)) = None ∧ ue_SUPI (resolve u s ok) = ue_SUPI u.
Proof. by destruct ok. Qed.

Lemma nssaa_exchange_ends client answer ok fuel u cmd s :
  (∀ k eap, authorised (client (ue_SUPI u) (ue_SUPI u) k.1 k.2 eap) = ok k) →
  sl_InProgress (ue_NSSAA u) = Some s → nc_SNSSAI cmd = toNASSNSSAI s →
  head (sl_Pending (ue_NSSAA u)) = Some s → (length (sl_Pending (ue_NSSAA u)) <= fuel)%nat →
  ∃ u', nssaa_exchange client answer fuel u cmd = Ok u' ∧ sl_Pending (ue_NSSAA u') = [] ∧
        sl_InProgress (ue_NSSAA u') = None ∧ nssaa_result ok (sl_Pending (ue_NSSAA u)) u u'.
Proof.
  revert u cmd s. induction fuel as [|fuel IH]; intros u cmd s Hok Hi Hc Hh Hf.
  { destruct (sl_Pending (ue_NSSAA u)); [done|cbn in Hf; lia]. }
  destruct (sl_Pending (ue_NSSAA u)) as [|s' pend'] eqn:Ep; [done|]. injection Hh as ->.
  cbn [nssaa_exchange]. rewrite Hc.
  destruct (Process_resolve client u s (mkNSSAAuthComplete (toNASSNSSAI s) (answer cmd)) Hi (sameSlice_refl _))
    as (eap & ->). cbv zeta. cbn [np_EAPMessage].
  rewrite (Hok (key s)). set (b := ok (key s)).
  pose proof (resolve_pending u s b) as (Hp & Hn & Hsupi). pose proof (resolve_allowed u s b) as Ha.
  pose proof (resolve_rejected u s b) as Hr. rewrite Ep in Hp. rewrite Hp. pose proof (length_drop_head s pend') as Hl.
  assert (∀ k, k ∈ keys (dropSlice (s :: pend') s) ↔ k ∈ keys (s :: pend') ∧ k ≠ key s) as Hk by (intros; apply keys_drop).
  set (u1 := resolve u s b) in *. clearbody u1.
  assert (∀ u2, nssaa_result ok (dropSlice (s :: pend') s) u1 u2 → nssaa_result ok (s :: pend') u u2) as Hres.
  { intros u2 [H1 H2]. split; intros k.
    - rewrite H1, Ha, Hk. subst b. destruct (ok (key s)) eqn:Eb; rewrite ?keys_append;
        destruct (decide (k = key s)) as [->|]; cbn [fmap list_fmap]; rewrite ?elem_of_cons; clear Hok Hk Hl IH; intuition congruence.
    - rewrite H2, Hr, Hk. subst b. destruct (ok (key s)) eqn:Eb; rewrite ?keys_drop, ?keys_append;
        destruct (decide (k = key s)) as [->|]; cbn [fmap list_fmap]; rewrite ?elem_of_cons; clear Hok Hk Hl IH; intuition congruence. }
  destruct (dropSlice (s :: pend') s) as [|s1 rest] eqn:Ed; cbn [mbind res_bind out_NextCommand].
  - exists u1. split_and!; [done|done|done|]. apply Hres. split; intros k; cbn; set_solver.
  - destruct (IH (beginSlice u1 s1).1 (beginSlice u1 s1).2 s1) as (u2 & E & Hp2 & Hn2 & Hr2).
    + cbn. by rewrite Hsupi.
    + done.
    + done.
    + cbn. by rewrite Hp.
    + cbn. rewrite Hp. cbn in Hl, Hf |- *. lia.
    + exists u2. split_and!; [done|done|done|]. apply Hres. cbn in Hr2. rewrite Hp in Hr2. exact Hr2.
Qed.

(** C39: slice-specific authentication terminates and decides every slice.  When
    the UE answers each COMMAND and the AAA server's verdict depends on the slice
    alone, the exchange started by the AMF ends after at most one round per
    pending slice, with nothing pending or in progress; the Allowed NSSAI has
    gained exactly the pending slices the server accepted, and of the pending
    slices exactly those it refused are in the Rejected NSSAI. *)
Theorem nssaa_exchange_terminates client answer ok u u1 cmd :
  (∀ k eap, authorised (client (ue_SUPI u) (ue_SUPI u) k.1 k.2 eap) = ok k) →
  StartNSSAA (Some client) u = Some (u1, cmd) →
  ∃ u', nssaa_exchange client answer (length (sl_Pending (ue_NSSAA u))) u1 cmd = Ok u' ∧
        sl_Pending (ue_NSSAA u') = [] ∧ sl_InProgress (ue_NSSAA u') = None ∧
        nssaa_result ok (sl_Pending (ue_NSSAA u)) u u'.
Proof.
  unfold StartNSSAA. intros Hok Hs. destruct (sl_Pending (ue_NSSAA u)) as [|s rest] eqn:Ep; [done|].
  injection Hs as <- <-. destruct (nssaa_exchange_ends client answer ok (S (length rest)) (beginSlice u s).1
    (beginSlice u s).2 s) as (u' & E & Hp & Hi & Hr); try done.
  - cbn. by rewrite Ep.
  - cbn. by rewrite Ep.
  - exists u'. split_and!; [done|done|done|]. cbn in Hr. by rewrite Ep in Hr.
Qed.

Lemma nssaa_exchange_terminates_witness :
  let u := with_pending [demo_slice 2 true; demo_slice 3 true] (newUE 1 1 0) in
  ∃ u', nssaa_exchange demo_aaa (λ _, []) 2 (beginSlice u (demo_slice 2 true)).1 (beginSlice u (demo_slice 2 true)).2 = Ok u' ∧
        sl_Pending (ue_NSSAA u') = [] ∧ sl_InProgress (ue_NSSAA u') = None ∧
        nssaa_result (λ k, k.1 =? 2) [demo_slice 2 true; demo_slice 3 true] u u'.
Proof.
  intros u. apply (nssaa_exchange_terminates demo_aaa (λ _, []) (λ k, k.1 =? 2) u (beginSlice u (demo_slice 2 true)).1
    (beginSlice u (demo_slice 2 true)).2).
  - intros [sst sd] eap. cbn. unfold demo_aaa. by destruct (sst =? 2).
  - reflexivity.
Defined.

(** A failed re-authentication does not withdraw the slice.  When an allowed
    slice is re-authenticated and the AAA server refuses it, the slice is
    recorded as rejected but stays in the Allowed NSSAI, and no Configuration
    Update is due: the UE keeps using it. *)
Lemma failed_reauth_stays_allowed (client : NSSAAClient) u sst sd u1 u2 cmd eap u3 out :
  sl_Pending (ue_NSSAA u) = [] → ReauthNSSAA u sst sd = (u1, true) →
  StartNSSAA (Some client) u1 = Some (u2, cmd) →
  authorised (client (ue_SUPI u) (ue_SUPI u) sst sd eap) = false →
  ProcessNSSAAComplete (Some client) u2 (mkNSSAAuthComplete (nc_SNSSAI cmd) eap) = Ok (u3, out) →
  (sst, sd) ∈ keys (ue_AllowedNSSAI u3) ∧ (sst, sd) ∈ keys (sl_Rejected (ue_NSSAA u3)) ∧
  out_AllowedChanged out = false ∧ out_NextCommand out = None.
Proof.
  intros Hp Hre Hst Hno Hpr. unfold ReauthNSSAA in Hre. destruct (find _ _) as [s|] eqn:Ef; [|done].
  injection Hre as <-. apply find_some in Ef as [Hin Hk]. apply same_key_true in Hk. apply list_elem_of_In in Hin.
  unfold StartNSSAA in Hst. cbn in Hst. rewrite Hp in Hst. cbn in Hst. injection Hst as <- <-.
  match type of Hpr with ProcessNSSAAComplete _ ?v ?c = _ => set (v2 := v) in *;
    destruct (Process_resolve client v2 s c eq_refl (sameSlice_refl _)) as (r & E) end.
  rewrite E in Hpr. cbv zeta in Hpr. clear E. cbn [np_EAPMessage] in Hpr.
  change (ue_SUPI v2) with (ue_SUPI u) in Hpr. injection Hk as <- <-. rewrite Hno in Hpr.
  pose proof (resolve_pending v2 s false) as (Hp2 & _ & _). pose proof (resolve_allowed v2 s false) as Ha.
  pose proof (resolve_rejected v2 s false) as Hr. cbv iota in Ha, Hr.
  assert (sl_Pending (ue_NSSAA v2) = [s]) as Ev by done.
  assert (dropSlice [s] s = []) as Ed. { pose proof (length_drop_head s []). by destruct (dropSlice [s] s); [|cbn in *; lia]. }
  rewrite Ev, Ed in Hp2. rewrite Hp2 in Hpr. injection Hpr as <- <-. rewrite Ha, Hr.
  split_and!; [apply list_elem_of_fmap; by exists s|apply keys_append; by right|done|done].
Qed.

(** A new registration on the same context does not clear what is pending or in
    progress: a slice that is no longer subscribed can still be granted. *)
Definition reregistered_ops : list nssaa_op :=
  [OpRegister [demo_slice 1 false; demo_slice 2 true]; OpStart; OpRegister [demo_slice 1 false];
   OpComplete (mkNSSAAuthComplete (mkSNSSAI 2 SDNotPresent) [])
     (Some (mkNSSAAAuthResult NSSAAResultSuccess (Eap.BuildSuccess 1)))].

Example stale_slice_granted :
  ue_AllowedNSSAI (foldl nssaa_step (newUE 1 1 0, []) reregistered_ops).1
  = [demo_slice 1 false; demo_slice 2 true].
Proof. vm_compute. reflexivity. Qed.
