(* ===== verification/AmfRegistration.v ===== *)
(** The registration procedure of the AMF,
    [nf/amf/internal/procedures/registration.go]: authentication of the UE,
    establishment of the NAS security context, and the Registration Accept.

    The other network functions are reached over HTTP and are the record
    [Clients] of the handler; an answer is [None] when the call fails, and an
    optional client is [None] when it is not configured.  The calls whose result
    the procedure ignores (the AMF registration at the UDM) are left out. *)

From stdpp Require Import pretty.
From S2P Require Import Prelude NasReader NasIE NasRegistration NasSecurity NasService NasCodec GoCrypto CryptoNas CryptoAka CryptoEap AmfContext AmfSecurity AmfNssaa.

(** * The handler *)

Record AUSFInitResponse := mkAUSFInit {
  ai_AuthCtxID : string; ai_RAND : bytes; ai_AUTN : bytes; ai_HXRESStar : bytes; ai_SUPI : string }.
Record AUSFConfirmResponse := mkAUSFConfirm { cf_SUPI : string; cf_KAUSF : bytes }.
Record UDMAMSubscription := mkUDMAMSubscription {
  us_AllowedNSSAI : list SNSSAISubscribed; us_AMBRUplink : Z; us_AMBRDownlink : Z }.

Record Clients := mkClients {
  InitiateAuth : string → string → option AUSFInitResponse;
  ResyncAuth : string → string → bytes → bytes → option AUSFInitResponse;
  ConfirmAuth : string → string → option AUSFConfirmResponse;
  GetAMSubscriptionData : string → option UDMAMSubscription;
  NSSelection : option (string → list SNSSAISubscribed → option (list SNSSAISubscribed));
  CreateUEPolicyAssociation : option (string → string → option (string * bytes));
  CreateAMPolicyAssociation : option (string → string → string → option (string * Z * option ServiceAreaRestriction));
  h_nssaa : option NSSAAClient }.

Record RegistrationHandler := mkRegistrationHandler {
  h_clients : Clients;
  h_nfInstanceID : string; h_plmnMCC : string; h_plmnMNC : string; h_servingNetName : string;
  h_abba : bytes; h_T3512 : Z; h_nullSecurity : bool; h_defaultRFSP : Z; h_servedTACs : list Z;
  h_imsVoPS3GPP : bool }.

(** The loop adds one digit a round. *)
Definition zeroPad (s : string) (n : nat) : string :=
  String.append (String.string_of_list_ascii (replicate (n - String.length s) (Ascii.ascii_of_nat 48))) s.

Definition NewRegistrationHandler (c : Clients) (nfInstanceID mcc mnc : string) : RegistrationHandler :=
  mkRegistrationHandler c nfInstanceID mcc mnc
    ("5G:mnc" +:+ zeroPad mnc 3 +:+ ".mcc" +:+ mcc +:+ ".3gppnetwork.org") [0; 0] 0 false 0 [] true.

(** * Helpers *)

Definition set_T3512Sent (secs : Z) (u : UEContext) : UEContext :=
  let p := ue_Policy u in
  set_Policy (mkPolicyState (po_PolicyAssociationID p) (po_AMPolicyAssocID p) (po_RFSP p) (po_ServAreaRes p)
                (po_PendingPolicyContainer p) secs (po_URSPVersion p)) u.

Definition setT3512Value (h : RegistrationHandler) (ra : RegistrationAccept) (u : UEContext)
  : RegistrationAccept * UEContext :=
  let secs := h_T3512 h in
  if secs <=? 0 then (ra, u) else (ra_T3512Value (Some (EncodeGPRSTimer3 secs)) ra, set_T3512Sent secs u).

Definition buildTAIList (h : RegistrationHandler) (u : UEContext) : res bytes :=
  let tacs := h_servedTACs h in
  let tacs := if existsb (Z.eqb (ue_TAC u)) tacs then tacs else tacs ++ [ue_TAC u] in
  l ← EncodeTAIList (str (h_plmnMCC h)) (str (h_plmnMNC h)) tacs;
  Ok (default [] l).

Definition allocateFreshNGKSI (currentKSI : Z) : Z := u8 (currentKSI + 1) mod 7.

(** [%06x] of a 24-bit value. *)
Definition hex6 (v : Z) : string := unstr (hex_fixed 6 v).

(** [fmt.Sprintf] of the SUCI and GUTI formats. *)
Definition suci_string (s : SUCIMobileIdentity) : string :=
  "suci-" +:+ unstr (suci_MCC s) +:+ unstr (suci_MNC s) +:+ "-" +:+ unstr (RoutingIndicator s) +:+ "-0-"
  +:+ pretty (ProtectionSchemeID s) +:+ "-" +:+ unstr (hexEncode (SchemeOutput s)).

Definition guti_string (g : GUTIMobileIdentity) : string :=
  "guti-" +:+ unstr (MCC g) +:+ unstr (MNC g) +:+ unstr (hex_fixed 2 (AMFRegionID g))
  +:+ unstr (hex_fixed 4 (AMFSetID g)) +:+ unstr (hex_fixed 8 (TMSI g)).

Definition extractIdentity (rr : RegistrationRequest) : string :=
  let mi := rr_MobileIdentity rr in
  if mi_Type mi =? MobileIdentitySUCI then
    match mi_SUCI mi with Some s => suci_string s | None => "unknown" end
  else if mi_Type mi =? MobileIdentityGUTI then
    match mi_GUTI mi with Some g => guti_string g | None => "unknown" end
  else "unknown".

(** [UESecCapEA[i]], the arrays having eight entries. *)
Definition cap (l : list bool) (i : nat) : bool := nth i l false.

Definition selectSecurityAlgorithms (h : RegistrationHandler) (u : UEContext) : Z * Z :=
  let ea := au_UESecCapEA (ue_Auth u) in
  let ia := au_UESecCapIA (ue_Auth u) in
  let integ := if cap ia 2 then 2 else if cap ia 1 then 1 else 0 in
  if h_nullSecurity h then (0, integ)
  else (if cap ea 2 then 2 else if cap ea 1 then 1 else 0, integ).

Definition slice_matches (req sub : SNSSAISubscribed) : bool :=
  (s_SST req =? s_SST sub) && (String.eqb (s_SD req) "" || String.eqb (s_SD req) (s_SD sub)).

Definition filterAllowedNSSAI (requested subscribed : list SNSSAISubscribed) : list SNSSAISubscribed :=
  if (length requested =? 0)%nat then subscribed
  else filter (λ sub, existsb (λ req, slice_matches req sub) requested = true) subscribed.

Definition sd_value (sd : string) : Z :=
  if (String.length sd =? 6)%nat then
    match hexDecode (str sd) with Some [b0; b1; b2] => be24 b0 b1 b2 | _ => 0xFFFFFF end
  else 0xFFFFFF.
Definition buildAllowedNSSAI (subs : list SNSSAISubscribed) : list SNSSAI :=
  (λ s, mkSNSSAI (s_SST s) (sd_value (s_SD s))) <$> subs.

(** [strings.EqualFold] against a string of ASCII characters without [k] and [s]. *)
Definition to_lower (c : Z) : Z := if (65 <=? c) && (c <=? 90) then c + 32 else c.
Definition equal_fold (a b : string) : bool := bool_decide (to_lower <$> str a = to_lower <$> str b).

(** [%06x] of a [uint32]. *)
Definition tac_hex (tac : Z) : string :=
  unstr (hex_fixed (if tac <? 2 ^ 24 then 6 else if tac <? 2 ^ 28 then 7 else 8) tac).

Definition isAllowedTA (tac : Z) (sar : ServiceAreaRestriction) : bool :=
  let tacHex := tac_hex tac in
  if String.eqb (sar_RestrictionType sar) "ALLOWED_AREAS" then
    (length (sar_AllowedTACs sar) =? 0)%nat || existsb (λ a, equal_fold a tacHex) (sar_AllowedTACs sar)
  else if String.eqb (sar_RestrictionType sar) "NOT_ALLOWED_AREAS" then
    negb (existsb (λ b, equal_fold b tacHex) (sar_NotAllowedTACs sar))
  else true.

(** * The phases *)

Section Phases.
Context {D C : Type} `{!Store D, !Cache C}.
Implicit Types (m : Manager D C).
Variable h : RegistrationHandler.

Definition deref m (r : loc) : res UEContext := match ues m !! r with Some u => Ok u | None => Panic end.

(** Field assignments of phase 1. *)
Definition set_reg_type (t : Z) (a : AuthState) : AuthState :=
  mkAuthState t (au_UESecCapEA a) (au_UESecCapIA a) (au_AuthCtxID a) (au_PendingRAND a) (au_PendingNGKSI a) (au_KAUSF a).
Definition set_ngksi (k : Z) (a : AuthState) : AuthState :=
  mkAuthState (au_RegistrationType a) (au_UESecCapEA a) (au_UESecCapIA a) (au_AuthCtxID a) (au_PendingRAND a) k (au_KAUSF a).
Definition set_challenge (id : string) (rand : bytes) (a : AuthState) : AuthState :=
  mkAuthState (au_RegistrationType a) (au_UESecCapEA a) (au_UESecCapIA a) id rand (au_PendingNGKSI a) (au_KAUSF a).
Definition set_kausf (k : bytes) (a : AuthState) : AuthState :=
  mkAuthState (au_RegistrationType a) (au_UESecCapEA a) (au_UESecCapIA a) (au_AuthCtxID a) (au_PendingRAND a)
    (au_PendingNGKSI a) k.
Definition set_caps (sc : UESecurityCapability) (a : AuthState) : AuthState :=
  mkAuthState (au_RegistrationType a)
    ([EA0 sc; EA1 sc; EA2 sc; EA3 sc] ++ drop 4 (au_UESecCapEA a))
    ([IA0 sc; IA1 sc; IA2 sc; IA3 sc] ++ drop 4 (au_UESecCapIA a))
    (au_AuthCtxID a) (au_PendingRAND a) (au_PendingNGKSI a) (au_KAUSF a).

Definition with_auth (f : AuthState → AuthState) (u : UEContext) : UEContext := set_Auth (f (ue_Auth u)) u.

(** What phase 1 stores before it resolves the identity. *)
Definition record_request (rr : RegistrationRequest) (u : UEContext) : UEContext :=
  let u := set_SUCI (extractIdentity rr) u in
  let u := with_auth (λ a, set_ngksi (allocateFreshNGKSI (KeySetIdentifier (rr_NGKSI rr)))
                             (set_reg_type (u8 (RegistrationType rr)) a)) u in
  match rr_UESecurityCapability rr with
  | Some sc => set_RawUESecCap (Raw sc) (with_auth (set_caps sc) u)
  | None => u
  end.

Definition ErrNeedSUCI : string := "UE presented GUTI not resolvable — need SUCI".

(** The identity passed to the AUSF. *)
Definition resolveIdentity m (rr : RegistrationRequest) : res string :=
  let mi := rr_MobileIdentity rr in
  if mi_Type mi =? MobileIdentityGUTI then
    match mi_GUTI mi with
    | Some g =>
        match GetByTMSI m (TMSI g) with
        | Some r => u ← deref m r; if String.eqb (ue_SUPI u) "" then Err ErrNeedSUCI else Ok (ue_SUPI u)
        | None => Err ErrNeedSUCI
        end
    | None => Err ErrNeedSUCI
    end
  else Ok (extractIdentity rr).

(** The Authentication Request of an AUSF answer. *)
Definition challenge (u : UEContext) (resp : AUSFInitResponse) : AuthenticationRequest :=
  mkAuthenticationRequest (mkNGKSI (au_PendingNGKSI (ue_Auth u)) 0) (h_abba h) (ai_RAND resp) (ai_AUTN resp) [].

(** [err != nil], else the writes and the message. *)
Definition with_answer m (r : loc) (resp : option AUSFInitResponse) (e : string)
  : Manager D C * res AuthenticationRequest :=
  match resp with
  | None => (m, Err e)
  | Some resp =>
      let m := write m r (with_auth (set_challenge (ai_AuthCtxID resp) (ai_RAND resp))) in
      (m, u ← deref m r; Ok (challenge u resp))
  end.

Definition Phase1_InitiateAuthentication m (r : loc) (rr : RegistrationRequest)
  : Manager D C * res AuthenticationRequest :=
  let m := write m r (record_request rr) in
  match resolveIdentity m rr with
  | Ok id => with_answer m r (InitiateAuth (h_clients h) id (h_servingNetName h)) "ausf: initiate auth"
  | Err e => (m, Err e)
  | Panic => (m, Panic)
  | OutOfFuel => (m, OutOfFuel)
  end.

Definition Phase1_AuthenticateWithSUCI m (r : loc) (suci : string) : Manager D C * res AuthenticationRequest :=
  let m := write m r (set_SUCI suci) in
  with_answer m r (InitiateAuth (h_clients h) suci (h_servingNetName h)) "ausf: initiate auth".

Definition Phase1_ResyncAuth m (r : loc) (auts : bytes) : Manager D C * res AuthenticationRequest :=
  match ues m !! r with
  | None => (m, Panic)
  | Some u =>
      let suciOrSUPI := if String.eqb (ue_SUCI u) "" then ue_SUPI u else ue_SUCI u in
      with_answer m r
        (ResyncAuth (h_clients h) suciOrSUPI (h_servingNetName h) (au_PendingRAND (ue_Auth u)) auts)
        "ausf: resync auth"
  end.

(** The new security context, from the KAUSF of the AUSF. *)
Definition newSecurityContext (u : UEContext) (supi : string) (kausf : bytes) : SecurityContext :=
  let supiForKDF := trim_prefix (str "imsi-") (str supi) in
  let kseaf := KSEAF kausf (str (h_servingNetName h)) in
  let kamf := KAMF kseaf supiForKDF (h_abba h) in
  let '(cipherAlg, integAlg) := selectSecurityAlgorithms h u in
  mkSecurityContext (au_PendingNGKSI (ue_Auth u)) integAlg cipherAlg kamf (KNASint kamf integAlg) (KNASenc kamf cipherAlg)
    0 0 true.

Definition IMEISVRequested : Z := 0x01.
Definition Additional5GSecInfoRINMR : Z := 0x02.

Definition securityModeCommand (u : UEContext) : SecurityModeCommand :=
  let ea := cap (au_UESecCapEA (ue_Auth u)) in
  let ia := cap (au_UESecCapIA (ue_Auth u)) in
  let sc := ue_SecurityCtx u in
  mkSecurityModeCommand (mkAlgs (sc_CipheringAlgID sc) (sc_IntegrityAlgID sc)) (mkNGKSI (sc_NGKSI sc) 0)
    (mkSecCap (ea 0%nat) (ea 1%nat) (ea 2%nat) (ea 3%nat) false false false false
       (ia 0%nat) (ia 1%nat) (ia 2%nat) (ia 3%nat) false false false false (ue_RawUESecCap u))
    (Some IMEISVRequested) (Some Additional5GSecInfoRINMR) [].

(** The Security Mode Command and the displaced context, if any. *)
Definition Phase2_ProcessAuthResponse m (r : loc) (resp : bytes)
  : Manager D C * res (SecurityModeCommand * option loc) :=
  match ues m !! r with
  | None => (m, Panic)
  | Some u =>
      if (length resp =? 0)%nat then (m, Err "amf: auth response missing RES*")
      else match ConfirmAuth (h_clients h) (au_AuthCtxID (ue_Auth u)) (unstr (hexEncode resp)) with
           | None => (m, Err "ausf: confirm auth")
           | Some conf =>
               let '(m, displaced) := SetSUPI m r (cf_SUPI conf) in
               let m := write m r (λ u,
                 set_SecurityCtx (newSecurityContext u (cf_SUPI conf) (cf_KAUSF conf))
                   (with_auth (set_kausf (cf_KAUSF conf)) u)) in
               (m, u ← deref m r; Ok (securityModeCommand u, displaced))
           end
  end.

(** The Allowed NSSAI of phase 3, before slice-specific authentication. *)
Definition computeAllowed (requested subscribed : list SNSSAISubscribed) : list SNSSAISubscribed :=
  match NSSelection (h_clients h) with
  | Some select =>
      match select (h_nfInstanceID h) requested with
      | Some nssfAllowed => filterAllowedNSSAI nssfAllowed subscribed
      | None => filterAllowedNSSAI requested subscribed
      end
  | None => filterAllowedNSSAI requested subscribed
  end.

Definition with_policy (f : PolicyState → PolicyState) (u : UEContext) : UEContext := set_Policy (f (ue_Policy u)) u.
Definition set_rfsp (v : Z) (p : PolicyState) : PolicyState :=
  mkPolicyState (po_PolicyAssociationID p) (po_AMPolicyAssocID p) v (po_ServAreaRes p) (po_PendingPolicyContainer p)
    (po_T3512SentSecs p) (po_URSPVersion p).
Definition set_am_policy (id : string) (sar : option ServiceAreaRestriction) (p : PolicyState) : PolicyState :=
  mkPolicyState (po_PolicyAssociationID p) id (po_RFSP p) sar (po_PendingPolicyContainer p) (po_T3512SentSecs p) (po_URSPVersion p).
Definition set_ue_policy (id : string) (c : bytes) (p : PolicyState) : PolicyState :=
  mkPolicyState id (po_AMPolicyAssocID p) (po_RFSP p) (po_ServAreaRes p) c (po_T3512SentSecs p) (po_URSPVersion p).

(** The AM policy association. *)
Definition applyAMPolicy (u : UEContext) : UEContext :=
  match CreateAMPolicyAssociation (h_clients h) with
  | None => u
  | Some create =>
      match create (ue_SUPI u) (h_plmnMCC h) (h_plmnMNC h) with
      | None => u
      | Some (id, rfsp, sar) =>
          with_policy (λ p, set_am_policy id sar (if 0 <? rfsp then set_rfsp rfsp p else p)) u
      end
  end.

(** Whether the service area restriction ends the registration. *)
Definition restricted (u : UEContext) : bool :=
  match CreateAMPolicyAssociation (h_clients h), po_ServAreaRes (ue_Policy u) with
  | Some _, Some sar => negb (isAllowedTA (ue_TAC u) sar)
  | _, _ => false
  end.

Definition applyUEPolicy (u : UEContext) : UEContext :=
  match CreateUEPolicyAssociation (h_clients h) with
  | None => u
  | Some create =>
      match create (ue_SUPI u) (h_plmnMCC h +:+ h_plmnMNC h) with
      | Some (id, container) => if (0 <? length container)%nat then with_policy (set_ue_policy id container) u else u
      | None => u
      end
  end.

Definition guti_identity (g : GUTI5G) : MobileIdentity :=
  mkMobileIdentity MobileIdentityGUTI None
    (Some (mkGUTI (str (g_MCC g)) (str (g_MNC g)) (g_AMFRegionID g) (g_AMFSetID g) (g_AMFID g) (g_TMSI g))) [].

(** The Registration Accept for a GUTI, and the context with the T3512 sent. *)
Definition registrationAccept (u : UEContext) (g : GUTI5G) : res (RegistrationAccept * UEContext) :=
  tai ← buildTAIList h u;
  Ok (setT3512Value h
        (mkRegistrationAccept 0x01 (Some (guti_identity g)) tai (Some (buildAllowedNSSAI (ue_AllowedNSSAI u))) None
           (NewNetworkFeatureSupport (h_imsVoPS3GPP h)) None) u).

(** The last step of phase 3 and of the update: the message is built from the
    context and the context records the timer. *)
Definition sendAccept m (r : loc) (g : GUTI5G) : Manager D C * res RegistrationAccept :=
  match u ← deref m r; registrationAccept u g with
  | Ok (ra, u) => (write m r (λ _, u), Ok ra)
  | Err e => (m, Err e)
  | Panic => (m, Panic)
  | OutOfFuel => (m, OutOfFuel)
  end.

Definition ErrServiceAreaRestricted : string := "service area restriction: TAC not allowed (cause #73)".

Definition Phase3_ProcessSMCComplete m (r : loc) : Manager D C * res RegistrationAccept :=
  match ues m !! r with
  | None => (m, Panic)
  | Some u =>
      match GetAMSubscriptionData (h_clients h) (ue_SUPI u) with
      | None => (m, Err "udm: get AM subscription")
      | Some amSub =>
          let m := write m r (λ u,
            set_AMBR (us_AMBRUplink amSub) (us_AMBRDownlink amSub)
              (SplitPendingNSSAA (h_nssaa (h_clients h))
                 (set_AllowedNSSAI (computeAllowed (ue_RequestedNSSAI u) (us_AllowedNSSAI amSub)) u))) in
          let '(m, guti) := AssignGUTI m r in
          let m := write m r (λ u, applyAMPolicy (with_policy (set_rfsp (h_defaultRFSP h)) (TransitionTo GMMRegistered u))) in
          match ues m !! r with
          | None => (m, Panic)
          | Some u =>
              if restricted u then (m, Err ErrServiceAreaRestricted)
              else sendAccept (write m r applyUEPolicy) r guti
          end
      end
  end.

Definition BuildRegistrationUpdateAccept m (r : loc) : Manager D C * res RegistrationAccept :=
  let '(m, guti) := AssignGUTI m r in
  sendAccept (write m r (TransitionTo GMMRegistered)) r guti.
End Phases.

(** * The security context reaches the UE *)

(** The UE on a Security Mode Command: it reads the message, which is not
    ciphered, derives the keys for the algorithms in it from its own KAUSF, and
    checks the MAC with COUNTs restarted at zero. *)
Definition ue_security_mode (kausf snName imsi abba : bytes) (pdu : bytes) : option (peer * SecurityModeCommand) :=
  match Decode (drop 7 pdu) with
  | Ok (mkMessage _ (BSecurityModeCommand smc)) =>
      let kamf := KAMF (KSEAF kausf snName) imsi abba in
      let algs := SelectedNASSecurityAlgorithms smc in
      let p := mkPeer (KNASint kamf (IntegrityAlgorithmID algs)) (KNASenc kamf (CipheringAlgorithmID algs))
                 (CipheringAlgorithmID algs) (IntegrityAlgorithmID algs) 0 0 in
      match ue_accept p pdu with (p, Some _) => Some (p, smc) | _ => None end
  | _ => None
  end.

Lemma length_KNAS kamf alg : length (KNASint kamf alg) = 16%nat ∧ length (KNASenc kamf alg) = 16%nat.
Proof. unfold KNASint, KNASenc. rewrite !length_drop. unfold derive. by rewrite !length_hmac_sha256. Qed.

Lemma fresh_ngksi k : 0 <= k < 8 → 0 <= allocateFreshNGKSI k < 7 ∧ allocateFreshNGKSI k ≠ k.
Proof. intros. unfold allocateFreshNGKSI, u8. split; dlia. Qed.

Lemma fresh_in_sync ksi ciph kamf kint kenc :
  length kint = 16%nat → length kenc = 16%nat → ciph = 0 ∨ ciph = 2 →
  let sc := mkSecurityContext ksi 2 ciph kamf kint kenc 0 0 true in
  in_sync 0 sc (mkPeer kint kenc ciph 2 0 0) ∧ in_sync 0 (count_down sc) (mkPeer kint kenc ciph 2 0 1).
Proof. intros H1 H2 H3. unfold in_sync. cbn. split_and!; try done; lia. Qed.

(** The Security Mode Command of a fresh context, sent and accepted. *)
Lemma smc_accepted kausf snName imsi abba ksi ciph smc :
  let kamf := KAMF (KSEAF kausf snName) imsi abba in
  let sc := mkSecurityContext ksi 2 ciph kamf (KNASint kamf 2) (KNASenc kamf ciph) 0 0 true in
  ciph = 0 ∨ ciph = 2 → codec_ok smc → SelectedNASSecurityAlgorithms smc = mkAlgs ciph 2 →
  ∃ sc' pdu p,
    sendNASIntegrityOnly sc PDMobilityManagement MsgTypeSecurityModeCommand (BSecurityModeCommand smc)
      SecurityHeaderIntegrityProtectedWithNewSC = Ok (sc', pdu) ∧
    ue_security_mode kausf snName imsi abba pdu = Some (p, smc) ∧ in_sync 0 sc' p.
Proof.
  intros kamf sc Hci Hok Hsa. destruct (length_KNAS kamf 2) as [Hl1 _]. destruct (length_KNAS kamf ciph) as [_ Hl2].
  set (p0 := mkPeer (KNASint kamf 2) (KNASenc kamf ciph) ciph 2 0 0).
  destruct (fresh_in_sync ksi ciph kamf _ _ Hl1 Hl2 Hci) as [Hsync Hsync']. fold sc p0 in Hsync.
  destruct (codec_law smc Hok) as (b & He & Hdec).
  set (plain := PDMobilityManagement :: SecurityHeaderPlainNAS :: MsgTypeSecurityModeCommand :: b).
  assert (sendNASPlain PDMobilityManagement MsgTypeSecurityModeCommand (BSecurityModeCommand smc) = Ok plain) as Hplain.
  { unfold sendNASPlain, Encode. cbn [msg_Header msg_Body MessageType ExtendedProtocolDiscriminator SecurityHeaderType].
    change (encodeBody MsgTypeSecurityModeCommand (BSecurityModeCommand smc))
      with (encodeBody (codec_type SecurityModeCommand) (codec_wrap smc)). by rewrite He. }
  destruct (NIA2_Ok (KNASint kamf 2) 0 1 1 (0 :: plain) Hl1) as (m0 & m1 & m2 & m3 & Hmac).
  exists (count_down sc), (security_pdu PDMobilityManagement 3 [m0; m1; m2; m3] 0 plain),
    (mkPeer (KNASint kamf 2) (KNASenc kamf ciph) ciph 2 0 1). split_and!.
  - unfold sendNASIntegrityOnly. rewrite Hplain. cbn [mbind res_bind]. rewrite sqn_octet.
    change (sc_DownlinkCount sc mod 256) with 0. change (sc_KNASint sc) with (KNASint kamf 2).
    change (sc_DownlinkCount sc) with 0. by rewrite Hmac.
  - unfold ue_security_mode. change (drop 7 (security_pdu _ _ _ _ plain)) with plain.
    unfold plain at 1. rewrite Decode_plain.
    change (decodeBody MsgTypeSecurityModeCommand b) with (decodeBody (codec_type SecurityModeCommand) b).
    rewrite Hdec. cbn [mbind res_bind]. change (codec_wrap smc) with (BSecurityModeCommand smc). cbv iota zeta.
    rewrite Hsa. cbn [IntegrityAlgorithmID CipheringAlgorithmID]. fold kamf p0.
    pose proof (ue_accept_pdu 0 sc p0 3 [m0; m1; m2; m3] plain plain Hsync eq_refl Hmac eq_refl) as Ha.
    change (sc_DownlinkCount sc mod 256) with 0 in Ha. by rewrite Ha.
  - exact Hsync'.
Qed.

Section Establishment.
Context {D C : Type} `{!Store D, !Cache C}.
Implicit Types (m : Manager D C).
Variable h : RegistrationHandler.

Lemma ues_write m r f : ues (write m r f) !! r = f <$> ues m !! r.
Proof. apply lookup_alter_eq. Qed.

Lemma ues_SetSUPI m r supi : ues (SetSUPI m r supi).1 !! r = set_SUPI supi <$> ues m !! r.
Proof. unfold SetSUPI. case_bool_decide; apply ues_write. Qed.

(** What phase 1 leaves in the context. *)
Lemma Phase1_context m r rr u m1 areq :
  ues m !! r = Some u → Phase1_InitiateAuthentication h m r rr = (m1, Ok areq) →
  ∃ resp, ues m1 !! r = Some (with_auth (set_challenge (ai_AuthCtxID resp) (ai_RAND resp)) (record_request rr u)) ∧
    auth_NGKSI areq = mkNGKSI (allocateFreshNGKSI (KeySetIdentifier (rr_NGKSI rr))) 0 ∧ RAND areq = ai_RAND resp.
Proof.
  intros Hu. unfold Phase1_InitiateAuthentication. destruct (resolveIdentity _ rr) as [id| | |]; [|done..].
  unfold with_answer. destruct (InitiateAuth _ id _) as [resp|]; [|done]. unfold deref.
  rewrite !ues_write, Hu. cbn [fmap option_fmap option_map mbind res_bind]. intros [= <- <-]. exists resp.
  rewrite !ues_write, Hu. split_and!; try done. cbn. unfold record_request. by destruct (rr_UESecurityCapability rr).
Qed.

Lemma Phase2_context m r u resp conf :
  ues m !! r = Some u → (0 < length resp)%nat →
  ConfirmAuth (h_clients h) (au_AuthCtxID (ue_Auth u)) (unstr (hexEncode resp)) = Some conf →
  ∃ m2 displaced u2,
    Phase2_ProcessAuthResponse h m r resp = (m2, Ok (securityModeCommand u2, displaced)) ∧ ues m2 !! r = Some u2 ∧
    u2 = set_SecurityCtx (newSecurityContext h (set_SUPI (cf_SUPI conf) u) (cf_SUPI conf) (cf_KAUSF conf))
           (with_auth (set_kausf (cf_KAUSF conf)) (set_SUPI (cf_SUPI conf) u)).
Proof.
  intros Hu Hr Hc. unfold Phase2_ProcessAuthResponse. rewrite Hu, Hc.
  destruct (Nat.eqb_spec (length resp) 0); [lia|]. destruct (SetSUPI m r (cf_SUPI conf)) as [m1 displaced] eqn:E.
  pose proof (ues_SetSUPI m r (cf_SUPI conf)) as Hs. rewrite E, Hu in Hs. cbn [fst fmap option_fmap option_map] in Hs.
  unfold deref. rewrite ues_write, Hs. cbn [fmap option_fmap option_map mbind res_bind].
  do 3 eexists. split_and!; [done|by rewrite ues_write, Hs|done].
Qed.

Lemma securityModeCommand_caps rr u resp conf c :
  rr_UESecurityCapability rr = Some c → DecodeUESecurityCapability (Raw c) = Ok c →
  let u1 := with_auth (set_challenge (ai_AuthCtxID resp) (ai_RAND resp)) (record_request rr u) in
  let u2 := set_SecurityCtx (newSecurityContext h (set_SUPI (cf_SUPI conf) u1) (cf_SUPI conf) (cf_KAUSF conf))
              (with_auth (set_kausf (cf_KAUSF conf)) (set_SUPI (cf_SUPI conf) u1)) in
  ReplayedUESecurityCapabilities (securityModeCommand u2) = c ∧
  selectSecurityAlgorithms h (set_SUPI (cf_SUPI conf) u1)
  = (if h_nullSecurity h then 0 else if EA2 c then 2 else if EA1 c then 1 else 0,
     if IA2 c then 2 else if IA1 c then 1 else 0).
Proof.
  intros Hc Hd u1 u2. split.
  - subst u2. unfold securityModeCommand, u1, record_request. rewrite Hc. cbn [ReplayedUESecurityCapabilities].
    unfold DecodeUESecurityCapability in Hd. destruct (length (Raw c) <? 2)%nat; [done|].
    destruct (idx (Raw c) 0) as [b0| | |]; [|done..]. destruct (idx (Raw c) 1) as [b1| | |]; [|done..].
    injection Hd as Hd. rewrite <- Hd. done.
  - unfold selectSecurityAlgorithms, u1, record_request. rewrite Hc. cbn. by destruct (h_nullSecurity h).
Qed.
End Establishment.

(** C23: registration leaves the AMF and the UE with the same security context.
    After an Authentication Request (phase 1) and an Authentication Response the
    AUSF confirms with the KAUSF the UE also has (phase 2), the Security Mode
    Command the AMF sends is accepted by a UE that supports 128-NIA2 (and
    128-NEA2 or not 128-NEA1): the UE derives the keys for the algorithms in it,
    the MAC verifies, the replayed capabilities are the ones it sent, the key set
    identifier is the one of the Authentication Request and not the UE's current
    one, and both ends hold the same keys and COUNTs. *)
Theorem registration_secures_channel {D C} `{!Store D, !Cache C} (h : RegistrationHandler) (m m1 : Manager D C)
    r rr u c areq resp conf :
  ues m !! r = Some u → rr_UESecurityCapability rr = Some c → DecodeUESecurityCapability (Raw c) = Ok c →
  Z.of_nat (length (Raw c)) < 256 → 0 <= KeySetIdentifier (rr_NGKSI rr) < 8 →
  IA2 c = true → h_nullSecurity h || EA2 c || negb (EA1 c) = true →
  Phase1_InitiateAuthentication h m r rr = (m1, Ok areq) → (0 < length resp)%nat →
  (∀ id, ConfirmAuth (h_clients h) id (unstr (hexEncode resp)) = Some conf) →
  ∃ m2 smc displaced sc sc' pdu p,
    Phase2_ProcessAuthResponse h m1 r resp = (m2, Ok (smc, displaced)) ∧
    ue_SecurityCtx <$> ues m2 !! r = Some sc ∧
    sendNASIntegrityOnly sc PDMobilityManagement MsgTypeSecurityModeCommand (BSecurityModeCommand smc)
      SecurityHeaderIntegrityProtectedWithNewSC = Ok (sc', pdu) ∧
    ue_security_mode (cf_KAUSF conf) (str (h_servingNetName h)) (trim_prefix (str "imsi-") (str (cf_SUPI conf)))
      (h_abba h) pdu = Some (p, smc) ∧
    in_sync 0 sc' p ∧ ReplayedUESecurityCapabilities smc = c ∧ smc_NGKSI smc = auth_NGKSI areq ∧
    KeySetIdentifier (smc_NGKSI smc) ≠ KeySetIdentifier (rr_NGKSI rr).
Proof.
  intros Hu Hc Hd Hlen Hk Hia Hea Hp1 Hr Hconf.
  destruct (Phase1_context h m r rr u m1 areq Hu Hp1) as (ai & Hu1 & Hksi & _).
  destruct (Phase2_context h m1 r _ resp conf Hu1 Hr (Hconf _)) as (m2 & displaced & u2 & Hp2 & Hu2 & Eu2).
  destruct (securityModeCommand_caps h rr u ai conf c Hc Hd) as [Hcaps Halg]. cbv zeta in Hcaps, Halg.
  rewrite <- Eu2 in Hcaps.
  set (v := set_SUPI (cf_SUPI conf) _) in Halg, Eu2. destruct (fresh_ngksi _ Hk) as [Hn1 Hn2].
  assert (sc_NGKSI (ue_SecurityCtx u2) = allocateFreshNGKSI (KeySetIdentifier (rr_NGKSI rr))) as Hng.
  { rewrite Eu2. cbn [set_SecurityCtx ue_SecurityCtx]. unfold newSecurityContext. rewrite Halg. cbn [sc_NGKSI].
    unfold v, record_request. by rewrite Hc. }
  set (sc := ue_SecurityCtx u2) in *. set (smc := securityModeCommand u2) in *.
  set (ciph := if h_nullSecurity h then 0 else if EA2 c then 2 else if EA1 c then 1 else 0) in *.
  rewrite Hia in Halg.
  set (kamf := KAMF (KSEAF (cf_KAUSF conf) (str (h_servingNetName h))) (trim_prefix (str "imsi-") (str (cf_SUPI conf))) (h_abba h)).
  assert (sc = mkSecurityContext (allocateFreshNGKSI (KeySetIdentifier (rr_NGKSI rr))) 2 ciph kamf (KNASint kamf 2)
                 (KNASenc kamf ciph) 0 0 true) as Esc.
  { rewrite <- Hng. unfold sc. rewrite Eu2. cbn [set_SecurityCtx ue_SecurityCtx]. unfold newSecurityContext.
    by rewrite Halg. }
  assert (ciph = 0 ∨ ciph = 2) as Hci.
  { unfold ciph. destruct (h_nullSecurity h), (EA2 c), (EA1 c); cbn in Hea; try done; tauto. }
  assert (smc_NGKSI smc = mkNGKSI (allocateFreshNGKSI (KeySetIdentifier (rr_NGKSI rr))) 0) as Hsk.
  { by rewrite <- Hng. }
  assert (SelectedNASSecurityAlgorithms smc = mkAlgs ciph 2) as Hsa.
  { unfold smc, securityModeCommand. fold sc. by rewrite Esc. }
  assert (codec_ok smc) as Hok.
  { change (smc_ok smc). unfold smc_ok, ngksi_ok. rewrite Hsa, Hsk, Hcaps.
    cbn [CipheringAlgorithmID IntegrityAlgorithmID KeySetIdentifier ngksi_Type smc_NASMessageContainer length].
    split_and!; done || lia. }
  destruct (smc_accepted (cf_KAUSF conf) (str (h_servingNetName h)) (trim_prefix (str "imsi-") (str (cf_SUPI conf)))
    (h_abba h) (allocateFreshNGKSI (KeySetIdentifier (rr_NGKSI rr))) ciph smc Hci Hok Hsa) as (sc' & pdu & p & Hs & Hue & Hin).
  exists m2, smc, displaced, sc, sc', pdu, p. split_and!; try done.
  - by rewrite Hu2.
  - rewrite Esc. exact Hs.
  - by rewrite Hsk, Hksi.
  - by rewrite Hsk.
Qed.

Definition demo_clients : Clients :=
  mkClients (λ _ _, Some (mkAUSFInit "ctx-1" (replicate 16 7) (replicate 16 8) [] "imsi-001010000000001"))
    (λ _ _ _ _, None) (λ _ _, Some (mkAUSFConfirm "imsi-001010000000001" (replicate 32 6)))
    (λ _, Some (mkUDMAMSubscription [demo_slice 1 false; demo_slice 2 true] 1000 2000)) None None None None.
Definition demo_handler : RegistrationHandler := NewRegistrationHandler demo_clients "amf-1" "001" "01".
Definition demo_caps : UESecurityCapability :=
  mkSecCap true true true false false false false false true true true false false false false false [0xE0; 0xE0].
Definition demo_request : RegistrationRequest :=
  mkRegistrationRequest 1 false (mkNGKSI 7 0)
    (mkMobileIdentity MobileIdentitySUCI (Some (mkSUCI 0 (str "001") (str "01") (str "0") 0 0 [0x10; 0x32])) None [])
    [] (Some demo_caps) None.
Definition demo_manager : Manager (gmap string UERecord) (Z * list bool) := (AllocateUEContext (demo_new None) 7 0).1.

Lemma registration_secures_channel_witness :
  ∃ m2 smc displaced sc sc' pdu p,
    Phase2_ProcessAuthResponse demo_handler (Phase1_InitiateAuthentication demo_handler demo_manager 1%positive demo_request).1
      1%positive [1; 2] = (m2, Ok (smc, displaced)) ∧
    ue_SecurityCtx <$> ues m2 !! 1%positive = Some sc ∧
    sendNASIntegrityOnly sc PDMobilityManagement MsgTypeSecurityModeCommand (BSecurityModeCommand smc)
      SecurityHeaderIntegrityProtectedWithNewSC = Ok (sc', pdu) ∧
    ue_security_mode (replicate 32 6) (str "5G:mnc001.mcc001.3gppnetwork.org") (str "001010000000001") [0; 0] pdu
    = Some (p, smc) ∧ in_sync 0 sc' p ∧ ReplayedUESecurityCapabilities smc = demo_caps ∧ smc_NGKSI smc = mkNGKSI 1 0 ∧
    KeySetIdentifier (smc_NGKSI smc) ≠ 7.
Proof.
  apply (registration_secures_channel demo_handler demo_manager
    (Phase1_InitiateAuthentication demo_handler demo_manager 1%positive demo_request).1 1%positive demo_request
    (newUE 1 7 0) demo_caps
    (mkAuthenticationRequest (mkNGKSI 1 0) [0; 0] (replicate 16 7) (replicate 16 8) []) [1; 2]
    (mkAUSFConfirm "imsi-001010000000001" (replicate 32 6)));
    try reflexivity; cbn; lia.
Defined.

(** * The Allowed NSSAI *)

Lemma filterAllowed_spec requested subscribed s :
  s ∈ filterAllowedNSSAI requested subscribed ↔
  s ∈ subscribed ∧ (requested = [] ∨ ∃ req, req ∈ requested ∧ slice_matches req s = true).
Proof.
  unfold filterAllowedNSSAI. destruct (Nat.eqb_spec (length requested) 0) as [H|H].
  - destruct requested; [naive_solver|done].
  - rewrite list_elem_of_filter, existsb_exists. setoid_rewrite <- list_elem_of_In.
    assert (requested ≠ []) by (by intros ->). naive_solver.
Qed.

Lemma computeAllowed_subscribed h requested subscribed s :
  s ∈ computeAllowed h requested subscribed → s ∈ subscribed.
Proof. unfold computeAllowed. repeat case_match; intros [? _]%filterAllowed_spec; done. Qed.

(** The selection of the NSSF does not restrict anything when it is empty. *)
Lemma nssf_empty_allows_all h select requested subscribed :
  NSSelection (h_clients h) = Some select → select (h_nfInstanceID h) requested = Some [] →
  computeAllowed h requested subscribed = subscribed.
Proof. intros H1 H2. unfold computeAllowed. by rewrite H1, H2. Qed.

Lemma Split_allowed aaa u s :
  s ∈ ue_AllowedNSSAI (SplitPendingNSSAA aaa u) →
  s ∈ ue_AllowedNSSAI u ∧ (is_Some aaa → s_SubjectToNSSAA s = false).
Proof.
  destruct aaa as [client|]; cbn [SplitPendingNSSAA]; [|by intros; split; [|intros []]]. intros Hs.
  assert (s_SubjectToNSSAA s = false) as Hf.
  { pose proof (split_granted client u s Hs) as Hg. destruct (s_SubjectToNSSAA s); [|done]. exfalso.
    specialize (Hg eq_refl). cbn in Hg. set_solver. }
  split; [|done]. cbv zeta in Hs. destruct (0 <? _)%nat; cbn in Hs; [|done].
  by apply list_elem_of_filter in Hs as [_ ?].
Qed.

Section Accept.
Context {D C : Type} `{!Store D, !Cache C}.
Implicit Types (m : Manager D C).
Variable h : RegistrationHandler.

Lemma ues_AssignGUTI m r :
  ues (AssignGUTI m r).1 !! r = set_GUTI (AssignGUTI m r).2 <$> ues m !! r ∧
  GetByTMSI (AssignGUTI m r).1 (g_TMSI (AssignGUTI m r).2) = Some r.
Proof.
  unfold AssignGUTI. destruct (drawTMSI m) as [m1 t] eqn:E. cbn. split; [|apply lookup_insert_eq].
  rewrite lookup_alter_eq. f_equal. unfold drawTMSI in E. by destruct (cache m) as [c|];
    [destruct (NextTMSI c) as [? [?|]]|]; injection E as <- <-.
Qed.

(** Building the accept keeps the context but for the timer sent. *)
Lemma sendAccept_Ok m r u g m' ra :
  ues m !! r = Some u → sendAccept h m r g = (m', Ok ra) →
  ∃ u', ues m' !! r = Some u' ∧ ue_AllowedNSSAI u' = ue_AllowedNSSAI u ∧ ue_State u' = ue_State u ∧
    ue_GUTI u' = ue_GUTI u ∧ uesByTMSI m' = uesByTMSI m ∧
    FiveGGUTI ra = Some (guti_identity g) ∧ AllowedNSSAI ra = Some (buildAllowedNSSAI (ue_AllowedNSSAI u)).
Proof.
  intros Hu. unfold sendAccept, deref. rewrite Hu. cbn [mbind res_bind]. unfold registrationAccept.
  destruct (buildTAIList h u) as [tai| | |]; [|done..]. cbn [mbind res_bind].
  unfold setT3512Value. destruct (h_T3512 h <=? 0); intros [= <- <-]; rewrite ues_write, Hu; cbn; eauto 10.
Qed.

Lemma policy_keeps u :
  let u' := applyAMPolicy h (with_policy (set_rfsp (h_defaultRFSP h)) (TransitionTo GMMRegistered u)) in
  ue_AllowedNSSAI u' = ue_AllowedNSSAI u ∧ ue_State u' = GMMRegistered ∧ ue_GUTI u' = ue_GUTI u.
Proof. unfold applyAMPolicy. repeat case_match; done. Qed.

Lemma ue_policy_keeps u :
  ue_AllowedNSSAI (applyUEPolicy h u) = ue_AllowedNSSAI u ∧ ue_State (applyUEPolicy h u) = ue_State u ∧
  ue_GUTI (applyUEPolicy h u) = ue_GUTI u.
Proof. unfold applyUEPolicy. repeat case_match; done. Qed.
End Accept.

(** A registration that completes puts the UE in the registered state with a
    fresh GUTI that the Registration Accept carries and that leads back to its
    context, and it grants only slices of the subscription: each Allowed slice is
    subscribed and, where slice-specific authentication is configured, not
    subject to it; where no NSSF takes part, it also matches a slice the UE asked
    for, if it asked for any. *)
Lemma Phase3_accept {D C} `{!Store D, !Cache C} (h : RegistrationHandler) (m m' : Manager D C) r u sub ra :
  ues m !! r = Some u → GetAMSubscriptionData (h_clients h) (ue_SUPI u) = Some sub →
  Phase3_ProcessSMCComplete h m r = (m', Ok ra) →
  ∃ u' g, ues m' !! r = Some u' ∧ ue_State u' = GMMRegistered ∧ ue_GUTI u' = Some g ∧
    GetByTMSI m' (g_TMSI g) = Some r ∧ FiveGGUTI ra = Some (guti_identity g) ∧
    AllowedNSSAI ra = Some (buildAllowedNSSAI (ue_AllowedNSSAI u')) ∧
    ∀ s, s ∈ ue_AllowedNSSAI u' →
      s ∈ us_AllowedNSSAI sub ∧ (is_Some (h_nssaa (h_clients h)) → s_SubjectToNSSAA s = false) ∧
      (NSSelection (h_clients h) = None → ue_RequestedNSSAI u ≠ [] →
       ∃ req, req ∈ ue_RequestedNSSAI u ∧ slice_matches req s = true).
Proof.
  intros Hu Hsub. unfold Phase3_ProcessSMCComplete. rewrite Hu, Hsub.
  set (f := λ u : UEContext, set_AMBR _ _ _). set (m1 := write m r f).
  pose proof (ues_AssignGUTI m1 r) as [Hg Ht]. destruct (AssignGUTI m1 r) as [m2 g]. cbn [fst snd] in Hg, Ht.
  unfold m1 in Hg. rewrite ues_write, Hu in Hg. cbn [fmap option_fmap option_map] in Hg.
  set (m3 := write m2 r _). assert (ues m3 !! r = Some (applyAMPolicy h (with_policy (set_rfsp (h_defaultRFSP h))
    (TransitionTo GMMRegistered (set_GUTI g (f u)))))) as H3 by (unfold m3; by rewrite ues_write, Hg).
  rewrite H3. destruct (policy_keeps h (set_GUTI g (f u))) as (Ha & Hs & Hgu). cbv zeta in Ha, Hs, Hgu.
  set (u3 := applyAMPolicy _ _) in *. clearbody u3. destruct (restricted h u3); [done|]. intros Hacc.
  destruct (ue_policy_keeps h u3) as (Ha4 & Hs4 & Hg4).
  eapply (sendAccept_Ok h _ r (applyUEPolicy h u3)) in Hacc as (u' & Hu' & Ha' & Hs' & Hg' & Htm & HG & HN);
    [|by rewrite ues_write, H3].
  exists u', g. rewrite Ha', Ha4, Ha, Hs', Hs4, Hs, Hg', Hg4, Hgu. split_and!; try done.
  { unfold GetByTMSI in *. rewrite Htm. exact Ht. }
  { by rewrite HN, Ha4, Ha. }
  intros s Hin. apply Split_allowed in Hin as [Hin Hn]. change (s ∈ computeAllowed h (ue_RequestedNSSAI u) (us_AllowedNSSAI sub)) in Hin.
  split_and!; [by eapply computeAllowed_subscribed|done|]. intros Hno Hreq. unfold computeAllowed in Hin. rewrite Hno in Hin.
  apply filterAllowed_spec in Hin as [_ [?|?]]; done.
Qed.

Definition demo_phase3 : Manager (gmap string UERecord) (Z * list bool) * res RegistrationAccept :=
  Phase3_ProcessSMCComplete demo_handler demo_manager 1%positive.

(** * Registration area and service area *)

(** The TAC of the UE is in the list sent when there is room for it. *)
Lemma buildTAIList_current h u tai :
  buildTAIList h u = Ok tai → (length (h_servedTACs h) < 16)%nat →
  ∃ tacs plmn, ue_TAC u ∈ tacs ∧ encodeMCCMNC (str (h_plmnMCC h)) (str (h_plmnMNC h)) = Ok plmn ∧
    tai = [Z.of_nat (length tacs) - 1] ++ plmn ++ (tacs ≫= λ tac, [u8 (tac ≫ 16); u8 (tac ≫ 8); u8 tac]).
Proof.
  unfold buildTAIList. intros Ht Hl. set (tacs := if existsb _ _ then _ else _) in Ht.
  assert (ue_TAC u ∈ tacs) as Hin.
  { subst tacs. destruct (existsb _ _) eqn:E; [|set_solver]. apply existsb_exists in E as (x & Hx & ->%Z.eqb_eq).
    by apply list_elem_of_In. }
  assert (length tacs <= 16)%nat as Hl' by (subst tacs; case_match; rewrite ?length_app; cbn; lia).
  exists tacs. unfold EncodeTAIList in Ht. destruct (Nat.eqb_spec (length tacs) 0); [destruct tacs; [set_solver|done]|].
  destruct (Nat.ltb_spec 16 (length tacs)); [lia|]. destruct (encodeMCCMNC _ _) as [plmn| | |]; [|done..].
  cbn [mbind res_bind default] in Ht. injection Ht as <-. exists plmn. split_and!; [done|done|]. cbn [app]. f_equal.
  rewrite u8_small by (unfold is_u8; lia). bitfield. rewrite Z.mod_small; lia.
Qed.

(** With sixteen other served TACs the list is full and the current TAC is cut. *)
Definition full_area : RegistrationHandler :=
  mkRegistrationHandler demo_clients "amf-1" "001" "01" "" [0; 0] 0 false 0 (Z.of_nat <$> seq 1 16) true.

Example current_tac_cut :
  ∃ tai, buildTAIList full_area (newUE 1 7 0) = Ok tai ∧ length tai = (4 + 3 * 16)%nat ∧ drop 49 tai = [0; 0; 16].
Proof. vm_compute. eauto 10. Qed.

Lemma equal_fold_hex a b : 0 <= a < 2 ^ 24 → 0 <= b < 2 ^ 24 → equal_fold (hex6 a) (tac_hex b) = bool_decide (a = b).
Proof.
  intros Ha Hb. unfold equal_fold, hex6, tac_hex. destruct (Z.ltb_spec b (2 ^ 24)); [|lia].
  assert (∀ n v, 0 <= v → bytes_ok (hex_fixed n v) ∧ to_lower <$> hex_fixed n v = hex_fixed n v) as Hx.
  { clear. induction n as [|n IH]; intros v Hv; cbn; [by split; [constructor|]|]. destruct (IH (v / 16)) as [H1 H2]; [dlia|].
    assert (is_u8 (hexdigit (v mod 16)) ∧ to_lower (hexdigit (v mod 16)) = hexdigit (v mod 16)) as [H3 H4].
    { unfold hexdigit, to_lower, is_u8. destruct (Z.ltb_spec (v mod 16) 10); repeat case_match; dlia. }
    split; [apply Forall_app; split; [done|by apply Forall_singleton]|]. rewrite fmap_app, H2. cbn. by rewrite H4. }
  destruct (Hx 6%nat a), (Hx 6%nat b); [lia..|]. rewrite !str_unstr by done.
  apply bool_decide_ext. split; [|congruence]. intros E. apply (hex_fixed_inj 6); cbn -[hex_fixed]; [lia..|congruence].
Qed.

(** The service area check decides membership, whatever the case of the digits. *)
Lemma isAllowedTA_lists tac allowed notAllowed :
  0 <= tac < 2 ^ 24 → Forall (λ t, 0 <= t < 2 ^ 24) (allowed ++ notAllowed) →
  let sar ty := mkServiceAreaRestriction ty (hex6 <$> allowed) (hex6 <$> notAllowed) in
  isAllowedTA tac (sar "ALLOWED_AREAS") = bool_decide (allowed = [] ∨ tac ∈ allowed) ∧
  isAllowedTA tac (sar "NOT_ALLOWED_AREAS") = bool_decide (tac ∉ notAllowed).
Proof.
  intros Ht [Hal Hna]%Forall_app sar.
  assert (∀ l, Forall (λ t, 0 <= t < 2 ^ 24) l →
    existsb (λ a, equal_fold a (tac_hex tac)) (hex6 <$> l) = bool_decide (tac ∈ l)) as Hex.
  { induction 1 as [|t l Ht' Hl IH]; [by rewrite bool_decide_eq_false_2 by set_solver|]. cbn [fmap list_fmap existsb].
    rewrite IH, equal_fold_hex by done. repeat case_bool_decide; set_solver. }
  split; unfold isAllowedTA; cbn [sar sar_RestrictionType sar_AllowedTACs sar_NotAllowedTACs].
  - change (String.eqb "ALLOWED_AREAS" "ALLOWED_AREAS") with true. cbv iota. rewrite Hex by done.
    destruct allowed as [|a l]; [by rewrite (bool_decide_eq_true_2 ([] = [] ∨ _)) by (by left)|].
    change (length (hex6 <$> a :: l) =? 0)%nat with false. cbn [orb]. apply bool_decide_ext. naive_solver.
  - change (String.eqb "NOT_ALLOWED_AREAS" "ALLOWED_AREAS") with false.
    change (String.eqb "NOT_ALLOWED_AREAS" "NOT_ALLOWED_AREAS") with true. cbv iota. rewrite Hex by done.
    by repeat case_bool_decide.
Qed.
