(* ===== verification/AmfNas.v ===== *)
(** The mobility management handlers of the AMF, [nf/amf/internal/nas/nas.go]:
    registration, authentication, security mode, slice authentication and
    service request, over the registration procedure and the context manager.

    A handler runs on a [World]: the context manager, the pending network
    releases and positioning requests, the goroutines it has started and the
    calls it has made to the gNB and to the other network functions, in order.
    The senders of NGAP messages and the clients are an interface of the source;
    they are the fields of [Handler]: a call is recorded, and succeeds or fails,
    and what an implementation of the interface writes to the UE context itself
    is not modelled. *)

From stdpp Require Import pretty.
From S2P Require Import Prelude NasReader NasIE NasRegistration NasSecurity NasTransport NasService NasNetworkName NasConfigUpdate NasEap NasCodec GoCrypto CryptoNas CryptoAka CryptoEap AmfContext AmfSecurity AmfNssaa AmfRegistration.

(** * Data *)

Definition RegistrationTypeMobility : Z := 2.
Definition RegistrationTypePeriodic : Z := 3.
Definition CauseSynchFailure : Z := 21.
Definition PayloadContainerTypeUEPolicy : Z := 0x05.

Record PDUSessionSetupItemCxtReq := mkSetupItem {
  it_PDUSessionID : Z; it_SST : Z; it_SD : bytes; it_Transfer : bytes }.

(** The calls a handler makes.  A UE is named by its context. *)
Inductive call :=
| SendDownlinkNASTransport (r : loc) (nasPDU : bytes)
| SendInitialContextSetupRequest (r : loc) (nasPDU kgnb : bytes) (cipherAlg integAlg encAlgs intAlgs : Z)
    (pduSessions : list PDUSessionSetupItemCxtReq)
| SendPDUSessionResourceSetupRequest (r : loc) (psi : Z) (nasPDU n2SmInfo : bytes)
| SendPDUSessionResourceReleaseCommand (r : loc) (psi : Z) (nasPDU : bytes)
| SendPDUSessionResourceModifyRequest (r : loc) (psi : Z) (nasPDU n2SmInfo : bytes)
| SendUEContextReleaseCommandForUE (r : loc) (causePresent causeValue : Z)
| CallSMF (supi dnn : string) (psi : Z) (n1 : bytes) (snssai : SNSSAISubscribed)
| DeleteSMContext (ref : string)
| ActivateSMContext (ref : string)
| ModifySMContext (ref : string) (n1 : bytes) (psi : Z)
| ModifyQoSSMContext (ref : string) (psi fiveQI ambrDL ambrUL : Z)
| UplinkSMS (supi recordID : string) (payload : string)
| DeregisterUECM (supi : string)
| ReleaseAMPolicy (polAssoID : string)
| ReleasePCFPolicy (polAssoID : string).

(** The goroutines the handlers start. *)
Inductive task :=
| ReleaseDisplaced (r : loc)
| CompleteRelease (r : loc) (psi : Z)
| DeleteSM (ref : string).

(** [hd_ok] says whether a call without data in its answer succeeds; [None] in
    the other fields is a sender without the method. *)
Record Handler := mkHandler {
  hd_reg : RegistrationHandler;
  hd_ok : call → bool;
  hd_canDelete : bool;
  hd_CallSMF : option (string → string → Z → bytes → SNSSAISubscribed → option (string * bytes * bytes));
  hd_Activate : option (string → option bytes);
  hd_Modify : option (string → bytes → Z → option (bytes * bytes));
  hd_ModifyQoS : option (string → Z → Z → Z → Z → option (bytes * bytes));
  hd_smsf : bool;
  hd_onUEReachable : option (UEContext → UEContext);
  hd_networkFullName : list Z;
  hd_networkShortName : list Z }.

(** [pendingReleaseState]: the SM context and its guard timer.  The string key
    of the source holds the two numbers of the pair used here. *)
Record pendingReleaseState := mkPendingRelease { pl_smContextRef : string; pl_guard : nat }.

(** [Server.StopUETimers], the callback the AMF installs. *)
Definition StopUETimers (u : UEContext) : UEContext :=
  set_timers (stop (ue_MobileReachableTimer u)) (stop (ue_ImplicitDetachTimer u)) (ue_PendingRemovalTimer u) u.

(** [victims[i].psi < victims[j].psi] *)
Definition psi_le (a b : Z * PDUSession) : Prop := a.1 <= b.1.
#[global] Instance psi_le_dec : RelDecision psi_le.
Proof. intros a b. unfold psi_le. apply _. Defined.

(** * The monad of the handlers *)

Section Nas.
Context {D C : Type} `{!Store D, !Cache C}.

Record World := mkWorld {
  w_mgr : Manager D C;
  w_pendingRelease : gmap (Z * Z) pendingReleaseState;
  w_guards : gmap nat (loc * Z);   (* armed guard timers *)
  w_pendingLPP : gmap Z nat;
  w_chans : gmap nat (option bytes);   (* channels with a buffer of one *)
  w_tasks : list task;
  w_calls : list call;
  w_clock : Z }.

(** A handler keeps the writes it has made when it returns an error. *)
Definition M (A : Type) : Type := World → World * res A.

#[global] Instance M_ret : MRet M := λ A a w, (w, Ok a).
#[global] Instance M_bind : MBind M := λ A B f m w,
  match m w with
  | (w, Ok a) => f a w
  | (w, Err e) => (w, Err e)
  | (w, Panic) => (w, Panic)
  | (w, OutOfFuel) => (w, OutOfFuel)
  end.

Definition fail {A} (e : string) : M A := λ w, (w, Err e).
Definition lift {A} (x : res A) : M A := λ w, (w, x).
Definition skip : M unit := mret tt.
Definition ask {A} (f : World → A) : M A := λ w, (w, Ok (f w)).

(** The error as a value. *)
Definition try {A} (m : M A) : M (res A) := λ w,
  match m w with
  | (w, Ok a) => (w, Ok (Ok a))
  | (w, Err e) => (w, Ok (Err e))
  | (w, Panic) => (w, Panic)
  | (w, OutOfFuel) => (w, OutOfFuel)
  end.

(** An error that is only logged. *)
Definition logged {A} (m : M A) : M unit := _ ← try m; skip.

Definition for_each {A} (l : list A) (f : A → M unit) : M unit :=
  foldr (λ a k, _ ← f a; k) skip l.

Definition with_mgr (m : Manager D C) (w : World) : World :=
  mkWorld m (w_pendingRelease w) (w_guards w) (w_pendingLPP w) (w_chans w) (w_tasks w) (w_calls w) (w_clock w).
Definition with_calls (l : list call) (w : World) : World :=
  mkWorld (w_mgr w) (w_pendingRelease w) (w_guards w) (w_pendingLPP w) (w_chans w) (w_tasks w) l (w_clock w).
Definition with_tasks (l : list task) (w : World) : World :=
  mkWorld (w_mgr w) (w_pendingRelease w) (w_guards w) (w_pendingLPP w) (w_chans w) l (w_calls w) (w_clock w).
Definition with_release (p : gmap (Z * Z) pendingReleaseState) (g : gmap nat (loc * Z)) (w : World) : World :=
  mkWorld (w_mgr w) p g (w_pendingLPP w) (w_chans w) (w_tasks w) (w_calls w) (w_clock w).
Definition with_lpp (p : gmap Z nat) (c : gmap nat (option bytes)) (w : World) : World :=
  mkWorld (w_mgr w) (w_pendingRelease w) (w_guards w) p c (w_tasks w) (w_calls w) (w_clock w).

(** Reading and writing through the UE pointer. *)
Definition get (r : loc) : M UEContext := λ w, (w, deref (w_mgr w) r).
Definition upd (r : loc) (f : UEContext → UEContext) : M unit := λ w, (with_mgr (write (w_mgr w) r f) w, Ok tt).
Definition on_mgr {A} (f : Manager D C → Manager D C * res A) : M A := λ w,
  let '(m, x) := f (w_mgr w) in (with_mgr m w, x).
Definition persist (r : loc) : M unit := λ w, (with_mgr (PersistUE (w_mgr w) r (w_clock w)) w, Ok tt).
Definition spawn (t : task) : M unit := λ w, (with_tasks (w_tasks w ++ [t]) w, Ok tt).
Definition record_call (c : call) : M unit := λ w, (with_calls (w_calls w ++ [c]) w, Ok tt).

Variable h : Handler.

(** A call whose error is returned. *)
Definition send (c : call) : M unit :=
  _ ← record_call c; if hd_ok h c then skip else fail "send failed".

(** [sendNASSecured] and [sendNASIntegrityOnly] on the context of a UE. *)
Definition secured (r : loc) (msgType : Z) (body : Body) : M bytes :=
  u ← get r;
  '(sc, pdu) ← lift (sendNASSecured (ue_SecurityCtx u) PDMobilityManagement msgType body);
  _ ← upd r (set_SecurityCtx sc);
  mret pdu.

Definition integrityOnly (r : loc) (msgType : Z) (body : Body) (sht : Z) : M bytes :=
  u ← get r;
  '(sc, pdu) ← lift (sendNASIntegrityOnly (ue_SecurityCtx u) PDMobilityManagement msgType body sht);
  _ ← upd r (set_SecurityCtx sc);
  mret pdu.

Definition sendNASSecuredViaDownlink (r : loc) (msgType : Z) (body : Body) : M unit :=
  pdu ← secured r msgType body;
  send (SendDownlinkNASTransport r pdu).

Definition sendPlain (r : loc) (msgType : Z) (body : Body) : M unit :=
  pdu ← lift (sendNASPlain PDMobilityManagement msgType body);
  send (SendDownlinkNASTransport r pdu).

Definition notifyUEReachable (r : loc) : M unit :=
  _ ← upd r (λ u, (TakePagedPDUSessions u).1);
  match hd_onUEReachable h with Some f => upd r f | None => skip end.

Definition nssaiToSubscribed (n : list SNSSAI) : list SNSSAISubscribed :=
  (λ s, mkSNSSAISubscribed (SST s) (if SD s =? SDNotPresent then "" else tac_hex (SD s)) "" false) <$> n.

(** The NGAP bitmaps of the UE's algorithms, from bit 15. *)
Definition algs_bitmap (caps : list bool) : Z :=
  Z.lor (Z.lor (if cap caps 1 then 2 ^ 15 else 0) (if cap caps 2 then 2 ^ 14 else 0))
    (if cap caps 3 then 2 ^ 13 else 0).

(** The key for the gNB, from the COUNT of the message being handled. *)
Definition deriveKgNB (sc : SecurityContext) : bytes :=
  go_copy (replicate 32 0) (KgNB (sc_KAMF sc) (u32 (sc_UplinkCount sc - 1)) 0x01).

Definition contextSetup (r : loc) (nasPDU kgnb : bytes) (items : list PDUSessionSetupItemCxtReq) : M unit :=
  u ← get r;
  send (SendInitialContextSetupRequest r nasPDU kgnb (sc_CipheringAlgID (ue_SecurityCtx u))
          (sc_IntegrityAlgID (ue_SecurityCtx u)) (algs_bitmap (au_UESecCapEA (ue_Auth u)))
          (algs_bitmap (au_UESecCapIA (ue_Auth u))) items).

(** ** Registration *)

Definition handleRegistrationUpdate (r : loc) : M unit :=
  regAccept ← on_mgr (λ m, BuildRegistrationUpdateAccept (hd_reg h) m r);
  nasPDU ← secured r MsgTypeRegistrationAccept (BRegistrationAccept regAccept);
  u ← get r;
  let kgnb := deriveKgNB (ue_SecurityCtx u) in
  _ ← upd r (SetKgNBLocked kgnb);
  _ ← contextSetup r nasPDU kgnb [];
  _ ← upd r (set_CMState CMConnected);
  notifyUEReachable r.

Definition sendIdentityRequest (r : loc) : M unit :=
  sendPlain r MsgTypeIdentityRequest (BIdentityRequest (mkIdentityRequest MobileIdentitySUCI)).

Definition storeRequested (r : loc) (n : option (list SNSSAI)) : M unit :=
  match n with Some n => upd r (set_ue_RequestedNSSAI (nssaiToSubscribed n)) | None => skip end.

Definition handleRegistrationRequest (r : loc) (body : Body) : M unit :=
  match body with
  | BRegistrationRequest regReq =>
      u ← get r;
      if sc_Active (ue_SecurityCtx u)
         && ((RegistrationType regReq =? RegistrationTypePeriodic)
             || (RegistrationType regReq =? RegistrationTypeMobility))
      then handleRegistrationUpdate r
      else
        a ← try (on_mgr (λ m, Phase1_InitiateAuthentication (hd_reg h) m r regReq));
        match a with
        | Ok authReq =>
            _ ← storeRequested r (RequestedNSSAI regReq);
            sendPlain r MsgTypeAuthenticationRequest (BAuthenticationRequest authReq)
        | Err e =>
            if String.eqb e ErrNeedSUCI then sendIdentityRequest r else fail "registration phase1"
        | Panic => lift Panic
        | OutOfFuel => lift OutOfFuel
        end
  | _ => fail "nas: RegistrationRequest body decode failed"
  end.

Definition handleIdentityResponse (r : loc) (body : Body) : M unit :=
  match body with
  | BIdentityResponse mi =>
      match mi_SUCI mi with
      | Some s =>
          if mi_Type mi =? MobileIdentitySUCI then
            authReq ← on_mgr (λ m, Phase1_AuthenticateWithSUCI (hd_reg h) m r (suci_string s));
            sendPlain r MsgTypeAuthenticationRequest (BAuthenticationRequest authReq)
          else skip
      | None => skip
      end
  | _ => fail "nas: IdentityResponse body decode failed"
  end.

Definition handleAuthenticationResponse (r : loc) (body : Body) : M unit :=
  match body with
  | BAuthenticationResponse authResp =>
      '(smcReq, displaced) ← on_mgr (λ m, Phase2_ProcessAuthResponse (hd_reg h) m r (RES authResp));
      _ ← (match displaced with Some d => spawn (ReleaseDisplaced d) | None => skip end);
      pdu ← integrityOnly r MsgTypeSecurityModeCommand (BSecurityModeCommand smcReq)
              SecurityHeaderIntegrityProtectedWithNewSC;
      send (SendDownlinkNASTransport r pdu)
  | _ => fail "nas: AuthenticationResponse body decode failed"
  end.

(** The Authentication Request after a re-synchronisation is the encoded body,
    without the header of the message. *)
Definition handleAuthenticationFailure (r : loc) (body : Body) : M unit :=
  match body with
  | BAuthenticationFailure af =>
      if (af_Cause5GMM af =? CauseSynchFailure) && (length (AUTS af) =? 14)%nat then
        authReq ← on_mgr (λ m, Phase1_ResyncAuth (hd_reg h) m r (AUTS af));
        nasPDU ← lift (EncodeAuthenticationRequest authReq);
        send (SendDownlinkNASTransport r nasPDU)
      else skip
  | _ => fail "nas: AuthenticationFailure body decode failed"
  end.

Definition handleSecurityModeReject (r : loc) (body : Body) : M unit :=
  match body with
  | BSecurityModeReject _ => upd r (set_SecurityCtx noSecurity)
  | _ => fail "nas: SecurityModeReject body decode failed"
  end.

Definition applyRetransmittedRegistrationRequest (r : loc) (container : bytes) : M unit :=
  match Decode container with
  | Ok inner =>
      match msg_Body inner with
      | BRegistrationRequest regReq =>
          if MessageType (msg_Header inner) =? MsgTypeRegistrationRequest
          then storeRequested r (RequestedNSSAI regReq) else skip
      | _ => skip
      end
  | Err _ => skip
  | Panic => lift Panic
  | OutOfFuel => lift OutOfFuel
  end.

(** What the Security Mode Complete carries. *)
Definition applySMCComplete (r : loc) (body : Body) : M unit :=
  match body with
  | BSecurityModeComplete c =>
      _ ← (match IMEISV c with
           | Some mi => if (0 <? length (mi_IMEISV mi))%nat
                        then upd r (set_PEI ("imeisv-" +:+ unstr (mi_IMEISV mi))) else skip
           | None => skip
           end);
      if (0 <? length (smcp_NASMessageContainer c))%nat
      then applyRetransmittedRegistrationRequest r (smcp_NASMessageContainer c) else skip
  | _ => skip
  end.

Definition cause73 : Z := 0x49.

Definition handleSecurityModeComplete (r : loc) (body : Body) : M unit :=
  _ ← applySMCComplete r body;
  a ← try (on_mgr (λ m, Phase3_ProcessSMCComplete (hd_reg h) m r));
  match a with
  | Ok regAccept =>
      nasPDU ← secured r MsgTypeRegistrationAccept (BRegistrationAccept regAccept);
      u ← get r;
      let secKey := deriveKgNB (ue_SecurityCtx u) in
      _ ← upd r (SetKgNBLocked secKey);
      _ ← contextSetup r nasPDU secKey [];
      upd r (set_CMState CMConnected)
  | Err e =>
      if String.eqb e ErrServiceAreaRestricted
      then logged (secured r MsgTypeRegistrationReject (BRegistrationReject (mkRegistrationReject cause73)))
      else fail "registration phase3"
  | Panic => lift Panic
  | OutOfFuel => lift OutOfFuel
  end.

(** ** After the registration *)

Definition ErrNotConnected : string := "UE is CM-IDLE — UE policy delivery deferred until reconnection".

Definition bump_urspVersion (p : PolicyState) : PolicyState :=
  mkPolicyState (po_PolicyAssociationID p) (po_AMPolicyAssocID p) (po_RFSP p) (po_ServAreaRes p)
    (po_PendingPolicyContainer p) (po_T3512SentSecs p) (u8 (po_URSPVersion p + 1)).
Definition clear_container (p : PolicyState) : PolicyState :=
  mkPolicyState (po_PolicyAssociationID p) (po_AMPolicyAssocID p) (po_RFSP p) (po_ServAreaRes p)
    [] (po_T3512SentSecs p) (po_URSPVersion p).

Definition SendUEPolicyContainer (r : loc) (container : bytes) : M unit :=
  if (length container =? 0)%nat then fail "nas: empty UE policy container"
  else
    u ← get r;
    if bool_decide (ue_CMState u = CMIdle) then fail ErrNotConnected
    else
      nasPDU ← secured r MsgTypeDLNASTransport
                 (BDLNASTransport (mkDLNASTransport PayloadContainerTypeUEPolicy container None None None));
      _ ← upd r (with_policy bump_urspVersion);
      _ ← persist r;
      send (SendDownlinkNASTransport r nasPDU).

Definition sendNetworkNameConfigUpdate (r : loc) : M unit :=
  if (length (hd_networkFullName h) =? 0)%nat && (length (hd_networkShortName h) =? 0)%nat then skip
  else logged (sendNASSecuredViaDownlink r MsgTypeConfigurationUpdateCommand
                 (BConfigurationUpdateCommand
                    (mkConfigurationUpdateCommand None None [] None (hd_networkFullName h) (hd_networkShortName h)
                       None None))).

Definition startNSSAA (r : loc) : M unit :=
  u ← get r;
  match StartNSSAA (h_nssaa (h_clients (hd_reg h))) u with
  | Some (u', cmd) =>
      _ ← upd r (λ _, u');
      logged (sendNASSecuredViaDownlink r MsgTypeNetworkSliceSpecificAuthCommand (BNSSAAuthCommand cmd))
  | None => skip
  end.

Definition handleRegistrationComplete (r : loc) : M unit :=
  now ← ask w_clock;
  _ ← upd r (set_RegistrationTime now);
  _ ← persist r;
  _ ← notifyUEReachable r;
  u ← get r;
  let pending := po_PendingPolicyContainer (ue_Policy u) in
  _ ← upd r (with_policy clear_container);
  _ ← (if (0 <? length pending)%nat then logged (SendUEPolicyContainer r pending) else skip);
  _ ← sendNetworkNameConfigUpdate r;
  startNSSAA r.

Definition sendNSSAAConfigUpdate (r : loc) : M unit :=
  u ← get r;
  logged (sendNASSecuredViaDownlink r MsgTypeConfigurationUpdateCommand
            (BConfigurationUpdateCommand
               (mkConfigurationUpdateCommand (Some 0xD1) None [] (Some (buildAllowedNSSAI (ue_AllowedNSSAI u))) [] []
                  None None))).

Definition handleNSSAAComplete (r : loc) (body : Body) : M unit :=
  match body with
  | BNSSAAuthComplete complete =>
      u ← get r;
      match ProcessNSSAAComplete (h_nssaa (h_clients (hd_reg h))) u complete with
      | Ok (u', out) =>
          _ ← upd r (λ _, u');
          _ ← logged (sendNASSecuredViaDownlink r MsgTypeNetworkSliceSpecificAuthResult
                        (BNSSAAuthResult (out_Result out)));
          match out_NextCommand out with
          | Some cmd =>
              logged (sendNASSecuredViaDownlink r MsgTypeNetworkSliceSpecificAuthCommand (BNSSAAuthCommand cmd))
          | None =>
              _ ← (if out_AllowedChanged out then sendNSSAAConfigUpdate r else skip);
              persist r
          end
      | Err _ => skip
      | Panic => lift Panic
      | OutOfFuel => lift OutOfFuel
      end
  | _ => fail "nas: NSSAAuthComplete body decode failed"
  end.

Definition RevokeNSSAASlice (r : loc) (sst : Z) (sd : string) : M bool :=
  u ← get r;
  match RevokeNSSAA u sst sd with
  | (u', true) => _ ← upd r (λ _, u'); _ ← sendNSSAAConfigUpdate r; _ ← persist r; mret true
  | (_, false) => mret false
  end.

Definition ReauthNSSAASlice (r : loc) (sst : Z) (sd : string) : M bool :=
  u ← get r;
  match ReauthNSSAA u sst sd with
  | (u', true) => _ ← upd r (λ _, u'); _ ← startNSSAA r; mret true
  | (_, false) => mret false
  end.

(** ** Service request *)

(** The sessions in ascending order of their identifier. *)
Definition by_psi (m : gmap Z PDUSession) : list (Z * PDUSession) := merge_sort psi_le (map_to_list m).

Definition established (s : PDUSession) : bool := negb (String.eqb (ps_SMFInstanceID s) "").

Definition key_of (u : UEContext) (psi : Z) : Z * Z := (ue_AMFUENGAPId u, psi).

(** The local release of one session. *)
Definition releaseVictim (r : loc) (psi : Z) (s : PDUSession) : M unit :=
  u ← get r;
  pending ← ask (λ w, w_pendingRelease w !! key_of u psi);
  match pending with
  | Some _ => spawn (CompleteRelease r psi)
  | None =>
      _ ← upd r (λ u, set_PDUSessions (delete psi (ue_PDUSessions u)) u);
      if hd_canDelete h then spawn (DeleteSM (ps_SMFInstanceID s)) else skip
  end.

Definition releaseInactivePDUSessions (r : loc) (status : option Z) : M (gset Z) :=
  match status with
  | None => mret ∅
  | Some status =>
      u ← get r;
      let victims := filter (λ '(psi, s), established s && negb (PSIInStatus status psi) = true)
                       (by_psi (ue_PDUSessions u)) in
      if (length victims =? 0)%nat then mret ∅
      else
        _ ← for_each victims (λ '(psi, s), releaseVictim r psi s);
        _ ← persist r;
        mret (list_to_set victims.*1)
  end.

(** Whether a session is to be re-activated. *)
Definition is_target (ulds : option Z) (paged : list Z) (released : gset Z) (psi : Z) (s : PDUSession) : bool :=
  established s
  && (match ulds with Some m => PSIInStatus m psi | None => false end || bool_decide (psi ∈ paged))
  && negb (bool_decide (psi ∈ released)).

Definition sd_bytes (sd : string) : bytes :=
  match hexDecode (str sd) with Some b => if (length b =? 3)%nat then b else [] | None => [] end.

(** The transfer of each session from the SMF; sessions it refuses are left out. *)
Fixpoint activate (f : string → option bytes) (targets : list (Z * PDUSession)) : M (list PDUSessionSetupItemCxtReq) :=
  match targets with
  | [] => mret []
  | (psi, s) :: targets =>
      _ ← record_call (ActivateSMContext (ps_SMFInstanceID s));
      items ← activate f targets;
      mret (match f (ps_SMFInstanceID s) with
            | Some transfer =>
                mkSetupItem psi (s_SST (ps_SNSSAI s)) (sd_bytes (s_SD (ps_SNSSAI s))) transfer :: items
            | None => items
            end)
  end.

Definition activatePDUSessions (r : loc) (ulds : option Z) (released : gset Z) : M (list PDUSessionSetupItemCxtReq) :=
  u ← get r;
  let paged := (TakePagedPDUSessions u).2 in
  _ ← upd r (λ u, (TakePagedPDUSessions u).1);
  if bool_decide (ulds = None) && (length paged =? 0)%nat then mret []
  else match hd_Activate h with
       | None => mret []
       | Some f =>
           activate f (filter (λ '(psi, s), is_target ulds paged released psi s = true) (by_psi (ue_PDUSessions u)))
       end.

Definition buildServiceAccept (u : UEContext) (svcReq : ServiceRequest) (released : gset Z)
    (activated : list PDUSessionSetupItemCxtReq) : ServiceAccept :=
  mkServiceAccept
    (match sr_PDUSessionStatus svcReq with
     | Some _ => Some (PSIMask (filter (λ '(psi, s), established s = true ∧ psi ∉ released)
                                  (by_psi (ue_PDUSessions u))).*1)
     | None => None
     end)
    (match sr_UplinkDataStatus svcReq with
     | Some ul => Some (PSIMask (filter (λ psi, PSIInStatus ul psi = true ∧ psi ∉ (it_PDUSessionID <$> activated))
                                   (Z.of_nat <$> seq 1 15)))
     | None => None
     end).

Definition handleServiceRequest (r : loc) (body : Body) : M unit :=
  match body with
  | BServiceRequest svcReq =>
      u ← get r;
      let kgnb := deriveKgNB (ue_SecurityCtx u) in
      _ ← upd r (SetKgNBLocked kgnb);
      released ← releaseInactivePDUSessions r (sr_PDUSessionStatus svcReq);
      pduSessions ← activatePDUSessions r (sr_UplinkDataStatus svcReq) released;
      u ← get r;
      nasPDU ← secured r MsgTypeServiceAccept
                 (BServiceAccept (buildServiceAccept u svcReq released pduSessions));
      _ ← contextSetup r nasPDU kgnb pduSessions;
      _ ← upd r (set_CMState CMConnected);
      notifyUEReachable r
  | _ => fail "nas: ServiceRequest body decode failed"
  end.
End Nas.
Arguments World : clear implicits.
Arguments M : clear implicits.

(** * Running the handlers *)

Section Runs.
Context {D C : Type} `{!Store D, !Cache C}.
Implicit Types (w : World D C).

Lemma bind_run {A B} (m : M D C A) (f : A → M D C B) w w' a : m w = (w', Ok a) → (m ≫= f) w = f a w'.
Proof. intros H. unfold mbind, M_bind. by rewrite H. Qed.

Lemma get_run w r u : ues (w_mgr w) !! r = Some u → get r w = (w, Ok u).
Proof. intros H. unfold get, deref. by rewrite H. Qed.

Lemma ues_upd (m : Manager D C) r f u : ues m !! r = Some u → ues (write m r f) !! r = Some (f u).
Proof. intros H. cbn [write ues]. by rewrite lookup_alter_eq, H. Qed.

Lemma ues_PersistUE (m : Manager D C) r now : ues (PersistUE m r now) = ues m.
Proof. unfold PersistUE. destruct (db m); [|done]. by destruct (ues m !! r). Qed.

(** A protected message can be built whenever its plain form can. *)
Lemma sendNASSecured_Ok sc mt body plain :
  length (sc_KNASint sc) = 16%nat → length (sc_KNASenc sc) = 16%nat →
  sendNASPlain PDMobilityManagement mt body = Ok plain →
  ∃ pdu, sendNASSecured sc PDMobilityManagement mt body = Ok (count_down sc, pdu).
Proof.
  intros Hi He Hp. unfold sendNASSecured. rewrite Hp. cbn [mbind res_bind].
  destruct (sc_CipheringAlgID sc =? 0).
  - cbn [mbind res_bind]. destruct (NIA2_Ok (sc_KNASint sc) (sc_DownlinkCount sc) 0x01 0x01
      (u8 (Z.land (sc_DownlinkCount sc) 0xFF) :: plain) Hi) as (m0 & m1 & m2 & m3 & ->). eauto.
  - destruct (NEA2_twice (sc_KNASenc sc) (sc_DownlinkCount sc) 0x01 0x01 plain He) as (c & -> & _). cbn [mbind res_bind].
    destruct (NIA2_Ok (sc_KNASint sc) (sc_DownlinkCount sc) 0x01 0x01
      (u8 (Z.land (sc_DownlinkCount sc) 0xFF) :: c) Hi) as (m0 & m1 & m2 & m3 & ->). eauto.
Qed.

Lemma secured_run w r u mt body plain :
  ues (w_mgr w) !! r = Some u →
  length (sc_KNASint (ue_SecurityCtx u)) = 16%nat → length (sc_KNASenc (ue_SecurityCtx u)) = 16%nat →
  sendNASPlain PDMobilityManagement mt body = Ok plain →
  ∃ pdu, sendNASSecured (ue_SecurityCtx u) PDMobilityManagement mt body = Ok (count_down (ue_SecurityCtx u), pdu) ∧
    secured r mt body w
    = (with_mgr (write (w_mgr w) r (set_SecurityCtx (count_down (ue_SecurityCtx u)))) w, Ok pdu).
Proof.
  intros Hu Hi He Hp. destruct (sendNASSecured_Ok (ue_SecurityCtx u) mt body plain Hi He Hp) as [pdu Es].
  exists pdu. split; [done|]. unfold secured. rewrite (bind_run _ _ _ _ _ (get_run _ _ _ Hu)).
  erewrite bind_run by (unfold lift; by rewrite Es). cbn beta iota. done.
Qed.
End Runs.

(** * Service request *)

Section Service.
Context {D C : Type} `{!Store D, !Cache C}.
Implicit Types (w : World D C).
Variable h : Handler.

Lemma elem_of_by_psi m psi s : (psi, s) ∈ by_psi m ↔ m !! psi = Some s.
Proof. unfold by_psi. rewrite merge_sort_Permutation, elem_of_map_to_list. done. Qed.

Lemma by_psi_NoDup m : NoDup (by_psi m).*1.
Proof. unfold by_psi. rewrite merge_sort_Permutation. apply NoDup_fst_map_to_list. Qed.

#[local] Instance psi_le_total : Total psi_le.
Proof. intros a b. unfold psi_le. lia. Qed.
#[local] Instance psi_le_trans : Transitive psi_le.
Proof. intros a b c. unfold psi_le. lia. Qed.

Lemma by_psi_sorted m : StronglySorted psi_le (by_psi m).
Proof. apply StronglySorted_merge_sort; apply _. Qed.

(** The sessions the UE reports inactive. *)
Definition is_victim (status : Z) (psi : Z) (s : PDUSession) : bool := established s && negb (PSIInStatus status psi).

(** What the goroutine of a released session does. *)
Definition victim_task (r : loc) (pending : gmap (Z * Z) pendingReleaseState) (u : UEContext) (v : Z * PDUSession)
  : list task :=
  match pending !! key_of u v.1 with
  | Some _ => [CompleteRelease r v.1]
  | None => if hd_canDelete h then [DeleteSM (ps_SMFInstanceID v.2)] else []
  end.

(** The sessions removed at once. *)
Definition removed_now (pending : gmap (Z * Z) pendingReleaseState) (u : UEContext) (vs : list (Z * PDUSession)) : list Z :=
  filter (λ psi, pending !! key_of u psi = None) vs.*1.

Definition without (ps : list Z) (m : gmap Z PDUSession) : gmap Z PDUSession := foldr delete m ps.

Lemma lookup_without ps m psi : without ps m !! psi = if bool_decide (psi ∈ ps) then None else m !! psi.
Proof.
  induction ps as [|p ps IH]; cbn [without foldr]; [done|]. fold (without ps m).
  destruct (decide (p = psi)) as [->|Hne].
  - rewrite lookup_delete_eq, bool_decide_eq_true_2 by set_solver. done.
  - rewrite lookup_delete_ne, IH by done. apply (f_equal (λ b : bool, if b then None else m !! psi)).
    apply bool_decide_ext. set_solver.
Qed.

Lemma without_app ps qs m : without (ps ++ qs) m = without ps (without qs m).
Proof. unfold without. apply foldr_app. Qed.

(** The other parts of the world a release leaves alone. *)
Definition same_services w w' : Prop :=
  w_pendingRelease w' = w_pendingRelease w ∧ w_calls w' = w_calls w ∧ w_clock w' = w_clock w.

Lemma releaseVictims_run vs r u w :
  ues (w_mgr w) !! r = Some u →
  ∃ w', for_each vs (λ '(psi, s), releaseVictim h r psi s) w = (w', Ok tt) ∧ same_services w w' ∧
    ues (w_mgr w') !! r =
      Some (set_PDUSessions (without (reverse (removed_now (w_pendingRelease w) u vs)) (ue_PDUSessions u)) u) ∧
    w_tasks w' = w_tasks w ++ (vs ≫= victim_task r (w_pendingRelease w) u).
Proof.
  revert u w. induction vs as [|[psi s] vs IH]; intros u w Hu.
  - exists w. split; [done|]. split; [done|]. split; [by rewrite Hu; destruct u|]. by rewrite app_nil_r.
  - cbn [for_each foldr].
    assert (∃ w1, releaseVictim h r psi s w = (w1, Ok tt) ∧ same_services w w1 ∧
      ues (w_mgr w1) !! r = Some (set_PDUSessions (if decide (w_pendingRelease w !! key_of u psi = None) then delete psi (ue_PDUSessions u)
                                 else ue_PDUSessions u) u) ∧
      w_tasks w1 = w_tasks w ++ victim_task r (w_pendingRelease w) u (psi, s)) as (w1 & E1 & (Hp & Hc & Hk) & Hu1 & Ht).
    { unfold releaseVictim. rewrite (bind_run _ _ _ _ _ (get_run _ _ _ Hu)).
      erewrite bind_run by reflexivity. unfold victim_task. cbn [fst snd].
      destruct (w_pendingRelease w !! key_of u psi) eqn:Ep.
      - rewrite decide_False by done. eexists. split; [done|]. split; [done|].
        split; [|done]. cbn. rewrite Hu. by destruct u.
      - rewrite decide_True by done. erewrite bind_run by reflexivity.
        destruct (hd_canDelete h); (eexists; split; [done|]); (split; [done|]);
          cbn [w_mgr with_mgr with_tasks w_tasks];
          rewrite ?app_nil_r, (ues_upd _ _ _ _ Hu); done. }
    rewrite (bind_run _ _ _ _ _ E1).
    destruct (IH _ _ Hu1) as (w' & E' & (Hp' & Hc' & Hk') & Hu' & Ht'). exists w'.
    split; [done|]. split; [split_and!; congruence|]. rewrite Hp in *.
    split.
    + rewrite Hu'. unfold removed_now. cbn [fmap list_fmap fst]. rewrite filter_cons.
      change (key_of (set_PDUSessions ?m u)) with (key_of u).
      case_decide; [|done]. rewrite reverse_cons, without_app. done.
    + rewrite Ht', Ht, <- app_assoc. cbn [mbind list_bind]. f_equal. 
Qed.

Definition item_of (f : string → option bytes) (v : Z * PDUSession) : option PDUSessionSetupItemCxtReq :=
  mkSetupItem v.1 (s_SST (ps_SNSSAI v.2)) (sd_bytes (s_SD (ps_SNSSAI v.2))) <$> f (ps_SMFInstanceID v.2).

Lemma activate_run f vs w :
  activate f vs w = (with_calls (w_calls w ++ ((λ v, ActivateSMContext (ps_SMFInstanceID v.2)) <$> vs)) w,
                     Ok (omap (item_of f) vs)).
Proof.
  revert w. induction vs as [|[psi s] vs IH]; intros w; cbn [activate].
  - rewrite app_nil_r. by destruct w.
  - erewrite bind_run by reflexivity. erewrite bind_run by apply IH. cbn [fmap list_fmap omap list_omap].
    unfold mret, M_ret. f_equal.
    + unfold with_calls. cbn. by rewrite <- app_assoc.
    + unfold item_of. cbn [fst snd fmap option_fmap option_map]. destruct (f (ps_SMFInstanceID s)); reflexivity.
Qed.

Lemma item_ids f (vs : list (Z * PDUSession)) psi :

  psi ∈ it_PDUSessionID <$> omap (item_of f) vs ↔ ∃ s, (psi, s) ∈ vs ∧ is_Some (f (ps_SMFInstanceID s)).
Proof.
  rewrite list_elem_of_fmap. setoid_rewrite list_elem_of_omap. unfold item_of. split.
  - intros (it & -> & [p s] & Hv & Hit). cbn in Hit. destruct (f (ps_SMFInstanceID s)) eqn:Ef; [|done].
    cbn in Hit. simplify_eq. cbn. eauto.
  - intros (s & Hv & [t Ht]). eexists. split; [|exists (psi, s); split; [done|]; cbn; by rewrite Ht]. done.
Qed.

(** The released sessions of a Service Request. *)
Definition victims (u : UEContext) (status : option Z) : list (Z * PDUSession) :=
  match status with
  | Some st => filter (λ '(psi, s), established s && negb (PSIInStatus st psi) = true) (by_psi (ue_PDUSessions u))
  | None => []
  end.

Lemma elem_of_victims u st psi s :
  (psi, s) ∈ victims u (Some st) ↔
  ue_PDUSessions u !! psi = Some s ∧ established s = true ∧ PSIInStatus st psi = false.
Proof. unfold victims. rewrite list_elem_of_filter, elem_of_by_psi, andb_true_iff, negb_true_iff. tauto. Qed.

Lemma releaseInactive_run r u status w :
  ues (w_mgr w) !! r = Some u →
  let p := w_pendingRelease w in
  let vs := victims u status in
  ∃ w', releaseInactivePDUSessions h r status w = (w', Ok (list_to_set vs.*1)) ∧ same_services w w' ∧
    ues (w_mgr w') !! r =
      Some (set_PDUSessions (without (reverse (removed_now p u vs)) (ue_PDUSessions u)) u) ∧
    w_tasks w' = w_tasks w ++ (vs ≫= victim_task r p u).
Proof.
  intros Hu p vs.
  assert (vs = [] → ∃ w', (w, Ok ∅) = (w', Ok (list_to_set (C := gset Z) vs.*1)) ∧ same_services w w' ∧
    ues (w_mgr w') !! r = Some (set_PDUSessions (without (reverse (removed_now p u vs)) (ue_PDUSessions u)) u) ∧
    w_tasks w' = w_tasks w ++ (vs ≫= victim_task r p u)) as Hnil.
  { intros ->. exists w. split; [done|]. split; [done|]. split; [rewrite Hu; by destruct u|]. by rewrite app_nil_r. }
  destruct status as [st|]; [|by apply Hnil].
  unfold releaseInactivePDUSessions. rewrite (bind_run _ _ _ _ _ (get_run _ _ _ Hu)). cbv zeta.
  change (filter _ (by_psi (ue_PDUSessions u))) with vs. destruct (Nat.eqb_spec (length vs) 0) as [E|_].
  { apply nil_length_inv in E. by apply Hnil. }
  destruct (releaseVictims_run vs r u w Hu) as (w1 & E1 & (Hp & Hc & Hk) & Hu1 & Ht1).
  rewrite (bind_run _ _ _ _ _ E1). erewrite bind_run by reflexivity. eexists. split; [done|].
  split; [done|]. split; [|done]. cbn [w_mgr with_mgr]. etrans; [|exact Hu1].
  by rewrite ues_PersistUE.
Qed.

Lemma SetKgNB_keeps k u :
  ue_PDUSessions (SetKgNBLocked k u) = ue_PDUSessions u ∧ ue_pagedPDUSessions (SetKgNBLocked k u) = ue_pagedPDUSessions u ∧
  ue_AMFUENGAPId (SetKgNBLocked k u) = ue_AMFUENGAPId u ∧ ue_SecurityCtx (SetKgNBLocked k u) = ue_SecurityCtx u ∧
  ue_Auth (SetKgNBLocked k u) = ue_Auth u ∧ ue_KgNB (SetKgNBLocked k u) = k.
Proof. unfold SetKgNBLocked. by destruct (negb _). Qed.

Lemma no_targets released l : filter (λ '(psi, s), is_target None [] released psi s = true) l = [].
Proof.
  induction l as [|[psi s] l IH]; [done|]. rewrite filter_cons_False; [done|].
  unfold is_target. rewrite bool_decide_eq_false_2 by set_solver. by rewrite orb_false_r, andb_false_r.
Qed.

Lemma activatePDUSessions_run r u f ulds released w :
  ues (w_mgr w) !! r = Some u → hd_Activate h = Some f →
  ∃ w', activatePDUSessions h r ulds released w
        = (w', Ok (omap (item_of f) (filter (λ '(psi, s), is_target ulds (sortedPagedLocked u) released psi s = true)
                                      (by_psi (ue_PDUSessions u))))) ∧
    ues (w_mgr w') !! r = Some (set_paged ∅ u) ∧ w_tasks w' = w_tasks w.
Proof.
  intros Hu Hf. unfold activatePDUSessions. rewrite (bind_run _ _ _ _ _ (get_run _ _ _ Hu)). cbv zeta.
  erewrite bind_run by reflexivity. cbn [TakePagedPDUSessions fst snd].
  case_bool_decide as Hul; cbn [andb].
  - destruct (Nat.eqb_spec (length (sortedPagedLocked u)) 0) as [E|_].
    + apply nil_length_inv in E. rewrite E. subst ulds.
      rewrite no_targets. eexists. split; [done|]. split; [apply (ues_upd _ _ (λ u, set_paged ∅ u) _ Hu)|done].
    + rewrite Hf, activate_run. eexists. split; [done|]. split; [apply (ues_upd _ _ (λ u, set_paged ∅ u) _ Hu)|done].
  - rewrite Hf, activate_run. eexists. split; [done|]. split; [apply (ues_upd _ _ (λ u, set_paged ∅ u) _ Hu)|done].
Qed.

(** The end of the procedure, from the protected accept on. *)
Lemma service_tail r u pdu kgnb items w :
  ues (w_mgr w) !! r = Some u → hd_onUEReachable h = Some StopUETimers → (∀ c, hd_ok h c = true) →
  let sc := ue_SecurityCtx u in
  ∃ w' u', (_ ← contextSetup h r pdu kgnb items; _ ← upd r (set_CMState CMConnected); notifyUEReachable h r) w
           = (w', Ok tt) ∧
    ues (w_mgr w') !! r = Some u' ∧ w_tasks w' = w_tasks w ∧
    w_calls w' = w_calls w ++ [SendInitialContextSetupRequest r pdu kgnb (sc_CipheringAlgID sc) (sc_IntegrityAlgID sc)
      (algs_bitmap (au_UESecCapEA (ue_Auth u))) (algs_bitmap (au_UESecCapIA (ue_Auth u))) items] ∧
    ue_CMState u' = CMConnected ∧ ue_pagedPDUSessions u' = ∅ ∧ ue_PDUSessions u' = ue_PDUSessions u ∧
    ue_SecurityCtx u' = ue_SecurityCtx u ∧ ue_KgNB u' = ue_KgNB u.
Proof.
  intros Hu Hr Hok sc. eexists _, _. split; [|split].
  - erewrite bind_run.
    2:{ unfold contextSetup. rewrite (bind_run _ _ _ _ _ (get_run _ _ _ Hu)). unfold send.
        erewrite bind_run by reflexivity. rewrite Hok. reflexivity. }
    erewrite bind_run by reflexivity. unfold notifyUEReachable. erewrite bind_run by reflexivity. rewrite Hr. reflexivity.
  - cbn [w_mgr with_mgr]. eapply ues_upd, ues_upd, ues_upd. exact Hu.
  - done.
Qed.

Lemma service_accept_plain a : ∃ plain, sendNASPlain PDMobilityManagement MsgTypeServiceAccept (BServiceAccept a) = Ok plain.
Proof. eexists. reflexivity. Qed.

(** The parts of the outcome, as functions of the context before the request. *)
Definition remaining (p : gmap (Z * Z) pendingReleaseState) (u : UEContext) (svc : ServiceRequest) : gmap Z PDUSession :=
  without (reverse (removed_now p u (victims u (sr_PDUSessionStatus svc)))) (ue_PDUSessions u).

Definition released_psis (u : UEContext) (svc : ServiceRequest) : gset Z :=
  list_to_set (victims u (sr_PDUSessionStatus svc)).*1.

Definition activated (f : string → option bytes) p (u : UEContext) (svc : ServiceRequest) : list PDUSessionSetupItemCxtReq :=
  omap (item_of f)
    (filter (λ '(psi, s), is_target (sr_UplinkDataStatus svc) (sortedPagedLocked u) (released_psis u svc) psi s = true)
       (by_psi (remaining p u svc))).

Definition service_accept (f : string → option bytes) p (u : UEContext) (svc : ServiceRequest) : ServiceAccept :=
  buildServiceAccept (set_PDUSessions (remaining p u svc) u) svc (released_psis u svc) (activated f p u svc).

Lemma service_request_run r u svc f w :
  ues (w_mgr w) !! r = Some u →
  length (sc_KNASint (ue_SecurityCtx u)) = 16%nat → length (sc_KNASenc (ue_SecurityCtx u)) = 16%nat →
  hd_Activate h = Some f → hd_onUEReachable h = Some StopUETimers → (∀ c, hd_ok h c = true) →
  let p := w_pendingRelease w in
  ∃ w' u' pdu,
    handleServiceRequest h r (BServiceRequest svc) w = (w', Ok tt) ∧
    ues (w_mgr w') !! r = Some u' ∧ ue_CMState u' = CMConnected ∧ ue_pagedPDUSessions u' = ∅ ∧
    ue_KgNB u' = deriveKgNB (ue_SecurityCtx u) ∧ ue_PDUSessions u' = remaining p u svc ∧
    last (w_calls w') = Some (SendInitialContextSetupRequest r pdu (deriveKgNB (ue_SecurityCtx u))
      (sc_CipheringAlgID (ue_SecurityCtx u)) (sc_IntegrityAlgID (ue_SecurityCtx u))
      (algs_bitmap (au_UESecCapEA (ue_Auth u))) (algs_bitmap (au_UESecCapIA (ue_Auth u))) (activated f p u svc)) ∧
    sendNASSecured (ue_SecurityCtx u) PDMobilityManagement MsgTypeServiceAccept (BServiceAccept (service_accept f p u svc))
      = Ok (ue_SecurityCtx u', pdu) ∧
    w_tasks w' = w_tasks w ++ (victims u (sr_PDUSessionStatus svc) ≫= victim_task r p u).
Proof.
  intros Hu Hi He Hf Hr Hok p. set (kgnb := deriveKgNB (ue_SecurityCtx u)).
  destruct (SetKgNB_keeps kgnb u) as (Es & Ep & Eid & Esc & Eau & Ek).
  set (w0 := with_mgr (write (w_mgr w) r (SetKgNBLocked kgnb)) w).
  pose proof (ues_upd _ _ (SetKgNBLocked kgnb) _ Hu : ues (w_mgr w0) !! r = _) as Hu0.
  revert Es Ep Eid Esc Eau Ek Hu0. generalize (SetKgNBLocked kgnb u). intros u0 Es Ep Eid Esc Eau Ek Hu0.
  destruct (releaseInactive_run r u0 (sr_PDUSessionStatus svc) w0 Hu0) as (w1 & E1 & (Hp1 & Hc1 & Hk1) & Hu1 & Ht1).
  assert (victims u0 (sr_PDUSessionStatus svc) = victims u (sr_PDUSessionStatus svc)) as Ev
    by (unfold victims; rewrite Es; done).
  assert (key_of u0 = key_of u) as Eko by (unfold key_of; rewrite Eid; done).
  assert (victim_task r p u0 = victim_task r p u) as Evt by (unfold victim_task; rewrite Eko; done).
  assert (removed_now p u0 = removed_now p u) as Ern by (unfold removed_now; rewrite Eko; done).
  rewrite Ev in *. change (w_pendingRelease w0) with p in *. rewrite Evt in Ht1. rewrite Ern, Es in Hu1.
  fold (remaining p u svc) in Hu1. fold (released_psis u svc) in E1.
  destruct (activatePDUSessions_run r _ f (sr_UplinkDataStatus svc) (released_psis u svc) w1 Hu1 Hf) as (w2 & E2 & Hu2 & Ht2).
  replace (sortedPagedLocked _) with (sortedPagedLocked u) in E2 by (unfold sortedPagedLocked; cbn; by rewrite Ep).
  change (ue_PDUSessions (set_PDUSessions ?m _)) with m in E2. fold (activated f p u svc) in E2.
  set (u2 := set_paged _ _) in Hu2.
  change (service_accept f p u svc) with (buildServiceAccept u2 svc (released_psis u svc) (activated f p u svc)).
  set (accept := buildServiceAccept _ _ _ _).
  destruct (service_accept_plain accept) as [plain Hplain].
  destruct (secured_run w2 r u2 MsgTypeServiceAccept (BServiceAccept accept) plain Hu2) as (pdu & Esec & E3);
    [change (ue_SecurityCtx u2) with (ue_SecurityCtx u0); by rewrite Esc..|done|].
  destruct (service_tail r _ pdu kgnb (activated f p u svc)
    (with_mgr (write (w_mgr w2) r (set_SecurityCtx (count_down (ue_SecurityCtx u2)))) w2) (ues_upd _ _ _ _ Hu2) Hr Hok)
    as (w3 & u3 & E4 & Hu3 & Ht3 & Hc3 & Hcm & Hpg & Hse & Hsc & Hkg).
  exists w3, u3, pdu. split.
  { unfold handleServiceRequest. rewrite (bind_run _ _ _ _ _ (get_run _ _ _ Hu)). cbv zeta. fold kgnb.
    erewrite bind_run by reflexivity. fold w0. rewrite (bind_run _ _ _ _ _ E1), (bind_run _ _ _ _ _ E2).
    rewrite (bind_run _ _ _ _ _ (get_run _ _ _ Hu2)). fold accept. rewrite (bind_run _ _ _ _ _ E3). exact E4. }
  change (ue_SecurityCtx u2) with (ue_SecurityCtx u0) in *. rewrite Esc in *.
  split_and!; try done.
  - rewrite Hkg. exact Ek.
  - rewrite Hc3, last_snoc. cbn [ue_Auth set_SecurityCtx ue_SecurityCtx count_down sc_CipheringAlgID sc_IntegrityAlgID].
    change (ue_Auth u2) with (ue_Auth u0). by rewrite Eau.
  - rewrite Hsc. exact Esec.
  - rewrite Ht3. cbn. rewrite Ht2, Ht1. done.
Qed.

Lemma lookup_remaining p u svc psi s :
  remaining p u svc !! psi = Some s ↔
  ue_PDUSessions u !! psi = Some s ∧ ¬ (psi ∈ released_psis u svc ∧ p !! key_of u psi = None).
Proof.
  unfold remaining, removed_now, released_psis. rewrite lookup_without.
  case_bool_decide as H; rewrite elem_of_reverse, list_elem_of_filter in H; rewrite elem_of_list_to_set; naive_solver.
Qed.

Definition flagged (svc : ServiceRequest) (psi : Z) : Prop :=
  match sr_UplinkDataStatus svc with Some m => PSIInStatus m psi = true | None => False end.

Lemma elem_of_sortedPaged u psi : psi ∈ sortedPagedLocked u ↔ psi ∈ ue_pagedPDUSessions u.
Proof. unfold sortedPagedLocked. by rewrite merge_sort_Permutation, elem_of_elements. Qed.

Lemma elem_of_activated f p u svc psi :
  psi ∈ it_PDUSessionID <$> activated f p u svc ↔
  ∃ s, ue_PDUSessions u !! psi = Some s ∧ established s = true ∧ psi ∉ released_psis u svc ∧
       (flagged svc psi ∨ psi ∈ ue_pagedPDUSessions u) ∧ is_Some (f (ps_SMFInstanceID s)).
Proof.
  unfold activated. rewrite item_ids. apply exist_proper. intros s.
  rewrite list_elem_of_filter, elem_of_by_psi, lookup_remaining. unfold is_target, flagged.
  rewrite !andb_true_iff, orb_true_iff, negb_true_iff, bool_decide_eq_true, bool_decide_eq_false, elem_of_sortedPaged.
  destruct (sr_UplinkDataStatus svc); naive_solver.
Qed.

(** The bits of the accept's status and of its reactivation result. *)
Lemma service_accept_status f p u svc m psi :
  (∀ psi s, ue_PDUSessions u !! psi = Some s → is_u8 psi) → is_u8 psi → 1 <= psi <= 15 →
  sa_PDUSessionStatus (service_accept f p u svc) = Some m →
  PSIInStatus m psi = true ↔
  ∃ s, ue_PDUSessions u !! psi = Some s ∧ established s = true ∧ psi ∉ released_psis u svc.
Proof.
  intros Hu8 Hp Hr. unfold service_accept, buildServiceAccept. cbn [sa_PDUSessionStatus ue_PDUSessions set_PDUSessions].
  destruct (sr_PDUSessionStatus svc); [|done]. intros [= <-]. rewrite PSIMask_in; [|..|done].
  - rewrite list_elem_of_fmap. setoid_rewrite list_elem_of_filter. split.
    + intros [([p' s] & -> & (? & ?) & Hin%elem_of_by_psi%lookup_remaining) _]. cbn in *. naive_solver.
    + intros (s & Hs & He & Hn). split; [|done]. exists (psi, s). split; [done|]. split; [done|].
      apply elem_of_by_psi, lookup_remaining. naive_solver.
  - apply Forall_forall. intros q. rewrite list_elem_of_fmap. setoid_rewrite list_elem_of_filter.
    intros ([p' s] & -> & _ & [Hs _]%elem_of_by_psi%lookup_remaining). by eapply Hu8.
Qed.

Lemma service_accept_reactivation f p u svc m psi :
  is_u8 psi → 1 <= psi <= 15 → PDUSessionReactivationResult (service_accept f p u svc) = Some m →
  PSIInStatus m psi = true ↔ flagged svc psi ∧ psi ∉ it_PDUSessionID <$> activated f p u svc.
Proof.
  intros Hp Hr. unfold service_accept, buildServiceAccept, flagged. cbn [PDUSessionReactivationResult].
  destruct (sr_UplinkDataStatus svc); [|done]. intros [= <-]. rewrite PSIMask_in; [|..|done].
  - rewrite list_elem_of_filter. assert (psi ∈ Z.of_nat <$> seq 1 15); [|tauto].
    apply list_elem_of_fmap. exists (Z.to_nat psi). split; [lia|]. apply elem_of_seq. lia.
  - apply Forall_forall. intros q [_ Hq]%list_elem_of_filter. change (q ∈ Z.of_nat <$> seq 1 15) in Hq.
    apply list_elem_of_fmap in Hq as (n & -> & Hn%elem_of_seq). unfold is_u8. lia.
Qed.

(** C37: A Service Request of a UE with a security context is accepted.  The sessions
    the UE reports as inactive are released, at once or through the network release
    in progress.  The context set up at the gNB carries the key of the request's
    COUNT and exactly the remaining established sessions that the UE flagged or
    that were paged and for which the SMF gives a transfer; the accept tells the
    UE which sessions the AMF still has and which flagged ones were not
    re-activated. *)
Theorem service_request_outcome r u svc f w :
  ues (w_mgr w) !! r = Some u →
  length (sc_KNASint (ue_SecurityCtx u)) = 16%nat → length (sc_KNASenc (ue_SecurityCtx u)) = 16%nat →
  hd_Activate h = Some f → hd_onUEReachable h = Some StopUETimers → (∀ c, hd_ok h c = true) →
  (∀ psi s, ue_PDUSessions u !! psi = Some s → is_u8 psi) →
  let gone psi := psi ∈ released_psis u svc in
  let kgnb := deriveKgNB (ue_SecurityCtx u) in
  ∃ w' u' pdu accept items ciph integ ea ia,
    handleServiceRequest h r (BServiceRequest svc) w = (w', Ok tt) ∧
    ues (w_mgr w') !! r = Some u' ∧ ue_CMState u' = CMConnected ∧ ue_pagedPDUSessions u' = ∅ ∧ ue_KgNB u' = kgnb ∧
    last (w_calls w') = Some (SendInitialContextSetupRequest r pdu kgnb ciph integ ea ia items) ∧
    sendNASSecured (ue_SecurityCtx u) PDMobilityManagement MsgTypeServiceAccept (BServiceAccept accept)
      = Ok (ue_SecurityCtx u', pdu) ∧
    (∀ psi s, ue_PDUSessions u' !! psi = Some s ↔
      ue_PDUSessions u !! psi = Some s ∧ ¬ (gone psi ∧ w_pendingRelease w !! key_of u psi = None)) ∧
    (∀ psi s, ue_PDUSessions u !! psi = Some s → gone psi → hd_canDelete h = true →
      CompleteRelease r psi ∈ w_tasks w' ∨ DeleteSM (ps_SMFInstanceID s) ∈ w_tasks w') ∧
    (∀ psi, psi ∈ it_PDUSessionID <$> items ↔
      ∃ s, ue_PDUSessions u !! psi = Some s ∧ established s = true ∧ ¬ gone psi ∧
           (flagged svc psi ∨ psi ∈ ue_pagedPDUSessions u) ∧ is_Some (f (ps_SMFInstanceID s))) ∧
    ∀ psi, is_u8 psi → 1 <= psi <= 15 →
      (∀ m, sa_PDUSessionStatus accept = Some m → PSIInStatus m psi = true ↔
         ∃ s, ue_PDUSessions u !! psi = Some s ∧ established s = true ∧ ¬ gone psi) ∧
      (∀ m, PDUSessionReactivationResult accept = Some m →
         PSIInStatus m psi = true ↔ flagged svc psi ∧ psi ∉ it_PDUSessionID <$> items).
Proof.
  intros Hu Hi He Hf Hr Hok Hu8 gone kgnb.
  destruct (service_request_run r u svc f w Hu Hi He Hf Hr Hok)
    as (w' & u' & pdu & E & Hu' & Hcm & Hpg & Hk & Hs & Hl & Hsec & Ht).
  exists w', u', pdu, (service_accept f (w_pendingRelease w) u svc), (activated f (w_pendingRelease w) u svc).
  do 4 eexists. split_and!; try done.
  - intros psi s. rewrite Hs. apply lookup_remaining.
  - intros psi s Hp Hg Hc. rewrite Ht. setoid_rewrite elem_of_app.
    unfold gone, released_psis in Hg. rewrite elem_of_list_to_set, list_elem_of_fmap in Hg.
    destruct Hg as ([psi' s'] & -> & Hv). cbn in Hp |- *.
    assert (s' = s) as ->.
    { destruct (sr_PDUSessionStatus svc); [|by apply elem_of_nil in Hv]. apply elem_of_victims in Hv as [? _]. congruence. }
    setoid_rewrite list_elem_of_bind. unfold victim_task. rewrite Hc.
    destruct (w_pendingRelease w !! key_of u psi') eqn:Ep.
    + left. right. exists (psi', s). cbn. rewrite Ep. split; [set_solver|done].
    + right. right. exists (psi', s). cbn. rewrite Ep. split; [set_solver|done].
  - intros psi. apply elem_of_activated.
  - intros psi Hp Hr'. split; intros m Hm; [by eapply service_accept_status|by apply service_accept_reactivation].
Qed.
End Service.

(** A UE with an established session 5 that it flags, a session 6 it reports as
    inactive, and a paged session 7. *)
Definition demo_session (psi : Z) (ref : string) : PDUSession :=
  mkPDUSession psi ref "" (mkSNSSAISubscribed 1 "000001" "" false) "internet" "" [] [].
Definition demo_context : UEContext :=
  set_paged {[7]}
    (set_PDUSessions (<[5 := demo_session 5 "a"]> (<[6 := demo_session 6 "b"]> {[7 := demo_session 7 "c"]}))
       (set_SecurityCtx (mkSecurityContext 0 2 2 (replicate 32 7) (replicate 16 3) (replicate 16 5) 1 0 true)
          (newUE 1 1 0))).
Definition demo_world (u : UEContext) : World (gmap string UERecord) (Z * list bool) :=
  mkWorld (mkManager {[1%positive := u]} {[1 := 1%positive]} ∅ ∅ 1 0 demo_id None None) ∅ ∅ ∅ ∅ [] [] 0.
Definition demo_nas : Handler :=
  mkHandler demo_handler (λ _, true) true (Some (λ _ _ _ _ _, Some ("ref", [], []))) (Some (λ ref, Some (str ref)))
    None None false (Some StopUETimers) [] [].
Definition demo_service : ServiceRequest :=
  mkServiceRequest 0 (mkNGKSI 0 0) 0 (Some (PSIMask [5])) (Some (PSIMask [5; 7])).

Lemma service_request_outcome_witness :
  ∃ w' pdu kgnb c i ea ia items,
    handleServiceRequest demo_nas 1%positive (BServiceRequest demo_service) (demo_world demo_context) = (w', Ok tt) ∧
    last (w_calls w') = Some (SendInitialContextSetupRequest 1%positive pdu kgnb c i ea ia items) ∧
    (5 ∈ it_PDUSessionID <$> items ∧ 7 ∈ it_PDUSessionID <$> items) ∧ 6 ∉ it_PDUSessionID <$> items.
Proof.
  destruct (service_request_outcome demo_nas 1%positive demo_context demo_service (λ ref, Some (str ref))
    (demo_world demo_context)) as (w' & u' & pdu & acc & items & c & i & ea & ia & E & _ & _ & _ & _ & Hl & _ & _ & _ & Hit & _);
    try reflexivity.
  - intros psi s. unfold demo_context. cbn. rewrite !lookup_insert_Some, lookup_singleton_Some. unfold is_u8. lia.
  - exists w', pdu. do 6 eexists. split; [exact E|]. split; [exact Hl|]. rewrite !Hit. split; [split|].
    + exists (demo_session 5 "a"). split_and!; [done|done|by vm_compute|by left|by eexists].
    + exists (demo_session 7 "c"). split_and!; [done|done|by vm_compute|by right; vm_compute|by eexists].
    + intros (s & _ & _ & H & _). apply H. by vm_compute.
Defined.
