(* ===== verification/AmfSession.v ===== *)
(** The session management handlers of the AMF, [nf/amf/internal/nas/nas.go]:
    UL NAS Transport with the PDU session procedures, the positioning and SMS
    relays, deregistration, and the dispatch of a NAS message. *)

From stdpp Require Import pretty.
From S2P Require Import Prelude NasReader NasIE NasRegistration NasSecurity NasTransport NasService NasNetworkName NasConfigUpdate NasEap NasPduSession NasCodec GoCrypto CryptoNas CryptoAka CryptoEap AmfContext AmfSecurity AmfNssaa AmfRegistration AmfNas.

(** * Constants and pure helpers *)

Definition PayloadContainerTypeN1SM : Z := 0x01.
Definition PayloadContainerTypeSMS : Z := 0x02.
Definition PayloadContainerTypeLPP : Z := 0x03.
Definition CausePayloadNotForwarded : Z := 90.
Definition Cause5GSMRegularDeactivation : Z := 0x24.
Definition MsgTypeDeregistrationAcceptNW : Z := 0x48.
Definition MsgTypePDUSessionEstablishmentRequest : Z := 0xC1.
Definition MsgTypePDUSessionModificationRequest : Z := 0xC9.
Definition MsgTypePDUSessionReleaseRequest : Z := 0xD1.
Definition MsgTypePDUSessionReleaseComplete : Z := 0xD4.
Definition ngapCausePresentNas : Z := 3.
Definition ngapCauseNasDeregister : Z := 2.

Definition resolveSessionSNSSAI (t : option SNSSAITransport) (allowed : list SNSSAISubscribed)
  : SNSSAISubscribed * bool :=
  match t with
  | Some t =>
      let sd := match tr_SD t with Some v => tac_hex v | None => "" end in
      match find (same_key (tr_SST t) sd) allowed with
      | Some a => (a, true)
      | None =>
          if (0 <? length allowed)%nat then (mkSNSSAISubscribed 0 "" "" false, false)
          else (mkSNSSAISubscribed (tr_SST t) sd "" false, true)
      end
  | None =>
      match allowed with
      | a :: _ => (a, true)
      | [] => (mkSNSSAISubscribed 1 "000001" "" false, true)
      end
  end.

(** [base64.StdEncoding.EncodeToString] *)
Definition b64_digit (v : Z) : Z :=
  if v <? 26 then 65 + v else if v <? 52 then 71 + v else if v <? 62 then v - 4 else if v =? 62 then 43 else 47.
Fixpoint base64 (b : bytes) : bytes :=
  match b with
  | [] => []
  | [x] => [b64_digit (x ≫ 2); b64_digit (Z.land x 3 ≪ 4); 61; 61]
  | [x; y] =>
      [b64_digit (x ≫ 2); b64_digit (Z.lor (Z.land x 3 ≪ 4) (y ≫ 4)); b64_digit (Z.land y 15 ≪ 2); 61]
  | x :: y :: z :: b =>
      [b64_digit (x ≫ 2); b64_digit (Z.lor (Z.land x 3 ≪ 4) (y ≫ 4));
       b64_digit (Z.lor (Z.land y 15 ≪ 2) (z ≫ 6)); b64_digit (Z.land z 63)] ++ base64 b
  end.

Example base64_text : base64 (str "5G core!") = str "NUcgY29yZSE=".
Proof. reflexivity. Qed.

(** * The handlers *)

Section Session.
Context {D C : Type} `{!Store D, !Cache C}.
#[local] Abbreviation M := (AmfNas.M D C).
Variable h : Handler.

Definition dropSession (r : loc) (psi : Z) : M unit :=
  upd r (λ u, set_PDUSessions (delete psi (ue_PDUSessions u)) u).

(** [DeleteSMContext], whose error is only logged, when the sender has it. *)
Definition deleteSM (ref : string) : M unit :=
  if negb (String.eqb ref "") && hd_canDelete h then record_call (DeleteSMContext ref) else skip.

(** A 5GSM message in a secured DL NAS Transport. *)
Definition n1sm (r : loc) (psi : Z) (container : bytes) : M bytes :=
  secured r MsgTypeDLNASTransport
    (BDLNASTransport (mkDLNASTransport PayloadContainerTypeN1SM container (Some psi) None None)).

(** ** Network-initiated release *)

Definition completeNetworkPDUSessionRelease (r : loc) (psi : Z) : M unit :=
  u ← get r;
  st ← ask (λ w, w_pendingRelease w !! key_of u psi);
  match st with
  | None => skip
  | Some st =>
      _ ← (λ w, (with_release (delete (key_of u psi) (w_pendingRelease w)) (delete (pl_guard st) (w_guards w)) w, Ok tt));
      _ ← deleteSM (pl_smContextRef st);
      _ ← dropSession r psi;
      persist r
  end.

(** [time.AfterFunc] and [pendingRelease.Store] *)
Definition armRelease (r : loc) (u : UEContext) (psi : Z) (ref : string) : M unit := λ w,
  let g := fresh (dom (w_guards w)) in
  (with_release (<[key_of u psi := mkPendingRelease ref g]> (w_pendingRelease w)) (<[g := (r, psi)]> (w_guards w)) w,
   Ok tt).

Definition InitiateNetworkPDUSessionRelease (r : loc) (psi : Z) : M unit :=
  u ← get r;
  match ue_PDUSessions u !! psi with
  | None => fail "nas: NW PDU release: pduSessionID not found"
  | Some s =>
      nasPDU ← n1sm r psi (WrapPDUSessionReleaseCommandBody psi 0 Cause5GSMRegularDeactivation);
      _ ← send h (SendPDUSessionResourceReleaseCommand r psi nasPDU);
      armRelease r u psi (ps_SMFInstanceID s)
  end.

(** ** UE-requested release and modification *)

Definition handlePDUSessionRelease (r : loc) (psi pti : Z) : M unit :=
  u ← get r;
  match ue_PDUSessions u !! psi with
  | None => skip
  | Some s =>
      nasPDU ← n1sm r psi (WrapPDUSessionReleaseCommandBody psi pti Cause5GSMRegularDeactivation);
      _ ← (if established s && hd_canDelete h then spawn (DeleteSM (ps_SMFInstanceID s)) else skip);
      _ ← send h (SendPDUSessionResourceReleaseCommand r psi nasPDU);
      _ ← dropSession r psi;
      persist r
  end.

Definition handlePDUSessionModification (r : loc) (psi : Z) (n1SmMsg : bytes) : M unit :=
  u ← get r;
  match ue_PDUSessions u !! psi, hd_Modify h with
  | Some s, Some modify =>
      _ ← record_call (ModifySMContext (ps_SMFInstanceID s) n1SmMsg psi);
      match modify (ps_SMFInstanceID s) n1SmMsg psi with
      | None => skip
      | Some (n1SmCmdBody, n2SmInfo) =>
          nasPDU ← n1sm r psi n1SmCmdBody;
          send h (SendPDUSessionResourceModifyRequest r psi nasPDU n2SmInfo)
      end
  | _, _ => skip
  end.

Definition InitiateNetworkQoSModification (r : loc) (psi fiveQI ambrDL ambrUL : Z) : M unit :=
  u ← get r;
  match ue_PDUSessions u !! psi with
  | None => fail "nas: NW QoS modify: pduSessionID not found"
  | Some s =>
      match hd_ModifyQoS h with
      | None => fail "nas: NW QoS modify: ModifyQoSSMContext not available"
      | Some modify =>
          _ ← record_call (ModifyQoSSMContext (ps_SMFInstanceID s) psi fiveQI ambrDL ambrUL);
          match modify (ps_SMFInstanceID s) psi fiveQI ambrDL ambrUL with
          | None => fail "nas: NW QoS modify: SMF"
          | Some (n1SmCmdBody, n2SmInfo) =>
              nasPDU ← n1sm r psi n1SmCmdBody;
              send h (SendPDUSessionResourceModifyRequest r psi nasPDU n2SmInfo)
          end
      end
  end.

(** ** Establishment *)

Definition rejectULNASTransport (r : loc) (psi containerType : Z) (container : bytes) (cause : Z) : M unit :=
  sendNASSecuredViaDownlink h r MsgTypeDLNASTransport
    (BDLNASTransport (mkDLNASTransport containerType container (Some psi) None (Some cause))).

(** The release of a session that has the identifier of the new one. *)
Definition releaseExisting (r : loc) (psi : Z) : M unit :=
  u ← get r;
  match ue_PDUSessions u !! psi with
  | Some s => _ ← deleteSM (ps_SMFInstanceID s); dropSession r psi
  | None => skip
  end.

Definition session_dnn (dnn : option bytes) (snssai : SNSSAISubscribed) : string :=
  match dnn with
  | Some d => unstr d
  | None => if String.eqb (s_DNN snssai) "" then "internet" else s_DNN snssai
  end.

(** The SMF creates the session; the AMF stores it and tells the UE and the gNB. *)
Definition createSession (r : loc) (psi pti : Z) (container : bytes) (dnn : string) (snssai : SNSSAISubscribed)
  : M unit :=
  match hd_CallSMF h with
  | None => skip
  | Some create =>
      u ← get r;
      _ ← record_call (CallSMF (ue_SUPI u) dnn psi container snssai);
      match create (ue_SUPI u) dnn psi container snssai with
      | None => skip
      | Some (smContextRef, n1SmRespBody, n2SmInfo) =>
          nasPDU ← n1sm r psi (WrapPDUSessionEstablishmentAcceptBody psi pti n1SmRespBody);
          _ ← upd r (λ u, set_PDUSessions
                (<[psi := mkPDUSession psi smContextRef "" snssai dnn "" [] n2SmInfo]> (ue_PDUSessions u)) u);
          _ ← persist r;
          send h (SendPDUSessionResourceSetupRequest r psi nasPDU n2SmInfo)
      end
  end.

Definition handleEstablishment (r : loc) (t : ULNASTransport) (psi pti : Z) : M unit :=
  _ ← releaseExisting r psi;
  d ← try (lift (DecodePDUSessionEstablishmentRequest (drop 4 (ul_PayloadContainer t))));
  match d with
  | Ok _ =>
      u ← get r;
      let '(snssai, authorised) := resolveSessionSNSSAI (ul_SNSSAI t) (ue_AllowedNSSAI u) in
      if psi =? 0 then skip
      else if negb authorised then
        rejectULNASTransport r psi (ul_PayloadContainerType t) (ul_PayloadContainer t) CausePayloadNotForwarded
      else createSession r psi pti (ul_PayloadContainer t) (session_dnn (ul_DNN t) snssai) snssai
  | _ => skip
  end.

(** ** Relays *)

(** [ch <- LPPResult] on a channel with a buffer of one; a full buffer blocks. *)
Definition chan_send (ch : nat) (v : bytes) : M unit := λ w,
  match w_chans w !! ch with
  | Some None => (with_lpp (w_pendingLPP w) (<[ch := Some v]> (w_chans w)) w, Ok tt)
  | Some (Some _) => (w, OutOfFuel)
  | None => (w, Panic)
  end.

Definition handleULLPP (r : loc) (lppPDU : bytes) : M unit :=
  u ← get r;
  ch ← ask (λ w, w_pendingLPP w !! ue_AMFUENGAPId u);
  match ch with
  | None => skip
  | Some ch =>
      _ ← (λ w, (with_lpp (delete (ue_AMFUENGAPId u) (w_pendingLPP w)) (w_chans w) w, Ok tt));
      chan_send ch lppPDU
  end.

Definition encodeDownlinkLPP (r : loc) (lppPDU : bytes) : M bytes :=
  if (length lppPDU =? 0)%nat then fail "nasmsg: empty LPP PDU"
  else secured r MsgTypeDLNASTransport
         (BDLNASTransport (mkDLNASTransport PayloadContainerTypeLPP lppPDU None None None)).

(** The channel the caller waits on. *)
Definition SendDownlinkLPP (r : loc) (lppPDU : bytes) : M nat :=
  nasPDU ← encodeDownlinkLPP r lppPDU;
  u ← get r;
  ch ← ask (λ w, fresh (dom (w_chans w)));
  _ ← (λ w, (with_lpp (<[ue_AMFUENGAPId u := ch]> (w_pendingLPP w)) (<[ch := None]> (w_chans w)) w, Ok tt));
  sent ← try (send h (SendDownlinkNASTransport r nasPDU));
  match sent with
  | Ok _ => mret ch
  | _ =>
      _ ← (λ w, (with_lpp (delete (ue_AMFUENGAPId u) (w_pendingLPP w)) (w_chans w) w, Ok tt));
      fail "nasmsg: send downlink lpp"
  end.

Definition SendDownlinkLPPNoWait (r : loc) (lppPDU : bytes) : M unit :=
  nasPDU ← encodeDownlinkLPP r lppPDU;
  send h (SendDownlinkNASTransport r nasPDU).

Definition handleULSMS (r : loc) (smsContainer : bytes) : M unit :=
  if negb (hd_smsf h) then skip
  else
    u ← get r;
    now ← ask w_clock;
    record_call (UplinkSMS (ue_SUPI u) ("mo-" +:+ ue_SUPI u +:+ "-" +:+ pretty now) (unstr (base64 smsContainer))).

(** [handleUEPolicyDelivery] only logs. *)
Definition handleUEPolicyDelivery (r : loc) (container : bytes) : M unit := skip.

(** ** UL NAS Transport *)

(** The container of a decoded message is not nil. *)
Definition handleULNASTransport (r : loc) (body : Body) : M unit :=
  match body with
  | BULNASTransport t =>
      let container := ul_PayloadContainer t in
      if ul_PayloadContainerType t =? PayloadContainerTypeUEPolicy then handleUEPolicyDelivery r container
      else if ul_PayloadContainerType t =? PayloadContainerTypeSMS then handleULSMS r container
      else if ul_PayloadContainerType t =? PayloadContainerTypeLPP then handleULLPP r container
      else match container with
           | _ :: psi :: pti :: msgType :: _ =>
               let psi := default psi (ul_PDUSessionID t) in
               if msgType =? MsgTypePDUSessionEstablishmentRequest then handleEstablishment r t psi pti
               else if msgType =? MsgTypePDUSessionReleaseRequest then handlePDUSessionRelease r psi pti
               else if msgType =? MsgTypePDUSessionReleaseComplete then completeNetworkPDUSessionRelease r psi
               else if msgType =? MsgTypePDUSessionModificationRequest then handlePDUSessionModification r psi container
               else skip
           | _ => skip
           end
  | _ => fail "nas: UL NAS Transport type assertion failed"
  end.

(** ** Deregistration *)

Definition clear_am_policy (p : PolicyState) : PolicyState :=
  mkPolicyState (po_PolicyAssociationID p) "" (po_RFSP p) (po_ServAreaRes p) (po_PendingPolicyContainer p)
    (po_T3512SentSecs p) (po_URSPVersion p).
Definition clear_ue_policy (p : PolicyState) : PolicyState :=
  mkPolicyState "" (po_AMPolicyAssocID p) (po_RFSP p) (po_ServAreaRes p) (po_PendingPolicyContainer p)
    (po_T3512SentSecs p) (po_URSPVersion p).

(** The sessions are taken in an iteration order of the map. *)
Definition teardownSessions (r : loc) : M unit :=
  u ← get r;
  for_each (map_to_list (ue_PDUSessions u)) (λ '(_, s),
    _ ← deleteSM (ps_SMFInstanceID s);
    dropSession r (ps_PDUSessionID s)).

(** The steps that follow the NAS exchange in both deregistration procedures. *)
Definition teardown (r : loc) : M unit :=
  _ ← teardownSessions r;
  u ← get r;
  _ ← (if String.eqb (ue_SUPI u) "" then skip else record_call (DeregisterUECM (ue_SUPI u)));
  _ ← (if String.eqb (po_AMPolicyAssocID (ue_Policy u)) "" then skip
       else _ ← (match CreateAMPolicyAssociation (h_clients (hd_reg h)) with
                 | Some _ => record_call (ReleaseAMPolicy (po_AMPolicyAssocID (ue_Policy u)))
                 | None => skip
                 end);
            upd r (with_policy clear_am_policy));
  _ ← (if String.eqb (po_PolicyAssociationID (ue_Policy u)) "" then skip
       else _ ← (match CreateUEPolicyAssociation (h_clients (hd_reg h)) with
                 | Some _ => record_call (ReleasePCFPolicy (po_PolicyAssociationID (ue_Policy u)))
                 | None => skip
                 end);
            upd r (with_policy clear_ue_policy));
  _ ← upd r (TransitionTo GMMDeregistered);
  _ ← upd r (set_PendingRemoval true);
  logged (send h (SendUEContextReleaseCommandForUE r ngapCausePresentNas ngapCauseNasDeregister)).

Definition handleDeregistration (r : loc) (body : Body) : M unit :=
  match body with
  | BDeregistrationRequest deregReq =>
      _ ← upd r (TransitionTo GMMDeregisteredInitiated);
      _ ← (if SwitchOff deregReq then skip
           else logged (sendNASSecuredViaDownlink h r MsgTypeDeregistrationAcceptUE BDeregistrationAcceptUE));
      teardown r
  | _ => fail "nas: DeregistrationRequest body decode failed"
  end.

Definition SendNetworkDeregistration (r : loc) (cause5GMM accessType : Z) (reregRequired : bool) : M unit :=
  let accessType := if accessType =? 0 then 1 else accessType in
  _ ← sendNASSecuredViaDownlink h r MsgTypeDeregistrationRequestNW
        (BDeregistrationRequestNW (mkDeregistrationRequestNW cause5GMM reregRequired accessType));
  upd r (TransitionTo GMMDeregisteredInitiated).

Definition handleNWDeregistrationAccept (r : loc) : M unit := teardown r.

(** The goroutine started for a context that a new registration displaces. *)
Definition releaseDisplacedContext (r : loc) : M unit :=
  _ ← upd r StopAllTimers;
  u ← get r;
  _ ← for_each (map_to_list (ue_PDUSessions u)) (λ '(_, s), deleteSM (ps_SMFInstanceID s));
  on_mgr (λ m, (Remove m r, Ok tt)).

(** * Dispatch *)

Definition dispatchNAS (r : loc) (msg : Message) : M unit :=
  let mt := MessageType (msg_Header msg) in
  let body := msg_Body msg in
  if mt =? MsgTypeRegistrationRequest then handleRegistrationRequest h r body
  else if mt =? MsgTypeAuthenticationResponse then handleAuthenticationResponse h r body
  else if mt =? MsgTypeAuthenticationFailure then handleAuthenticationFailure h r body
  else if mt =? MsgTypeSecurityModeComplete then handleSecurityModeComplete h r body
  else if mt =? MsgTypeSecurityModeReject then handleSecurityModeReject r body
  else if mt =? MsgTypeRegistrationComplete then handleRegistrationComplete h r
  else if mt =? MsgTypeULNASTransport then handleULNASTransport r body
  else if mt =? MsgTypeDeregistrationRequestUE then handleDeregistration r body
  else if mt =? MsgTypeDeregistrationAcceptNW then handleNWDeregistrationAccept r
  else if mt =? MsgTypeIdentityResponse then handleIdentityResponse h r body
  else if mt =? MsgTypeServiceRequest then handleServiceRequest h r body
  else if mt =? MsgTypeConfigurationUpdateComplete then skip
  else if mt =? MsgTypeNetworkSliceSpecificAuthComplete then handleNSSAAComplete h r body
  else skip.

Definition HandleNASMessage (r : loc) (pdu : bytes) : M unit :=
  u ← get r;
  '(sc, msg) ← lift (receiveNAS (ue_SecurityCtx u) pdu);
  _ ← upd r (set_SecurityCtx sc);
  m ← lift msg;
  dispatchNAS r m.

(** A goroutine that was started, at the time it runs. *)
Definition run_task (t : task) : M unit :=
  match t with
  | ReleaseDisplaced r => releaseDisplacedContext r
  | CompleteRelease r psi => completeNetworkPDUSessionRelease r psi
  | DeleteSM ref => record_call (DeleteSMContext ref)
  end.
End Session.
