(* ===== verification/AmfAccount.v ===== *)
(** No SM context is lost: over every interleaving of NAS messages, goroutines,
    timers and operator actions, each context the SMF has created for a UE is in a
    context of the AMF or its deletion has been requested or is scheduled.

    The handlers that do not touch the PDU sessions are shown to keep a frame; the
    others are taken one by one. *)

From S2P Require Import Prelude NasReader NasIE NasRegistration NasSecurity NasTransport NasService NasNetworkName NasConfigUpdate NasEap NasPduSession NasCodec GoCrypto CryptoNas CryptoAka CryptoEap AmfContext AmfSecurity AmfNssaa AmfRegistration AmfNas AmfSession.

Create HintDb frame.

(** * The frame *)

(** What the accounting reads of a context. *)
Definition sess (u : UEContext) : Z * gmap Z PDUSession := (ue_AMFUENGAPId u, ue_PDUSessions u).
Definition keeps_sess (f : UEContext → UEContext) : Prop := ∀ u, sess (f u) = sess u.

Section Frame.
Context {D C : Type} `{!Store D, !Cache C}.
Implicit Types (w : World D C).
Variable h : Handler.

(** The SM context a call has created. *)
Definition created_by (c : call) : option string :=
  match c, hd_CallSMF h with
  | CallSMF supi dnn psi n1 s, Some create => (λ '(ref, _, _), ref) <$> create supi dnn psi n1 s
  | _, _ => None
  end.

Record mgr_frame (m m' : Manager D C) : Prop := {
  mf_sess r : sess <$> ues m' !! r = sess <$> ues m !! r;
  mf_index : uesByNGAPId m' = uesByNGAPId m;
  mf_counter : ngapIDCounter m' = ngapIDCounter m }.

Record framed w w' : Prop := {
  fr_mgr : mgr_frame (w_mgr w) (w_mgr w');
  fr_pending : w_pendingRelease w' = w_pendingRelease w;
  fr_calls : ∃ l, w_calls w' = w_calls w ++ l ∧ Forall (λ c, created_by c = None) l;
  fr_tasks : ∃ l, w_tasks w' = w_tasks w ++ l }.

#[global] Instance mgr_frame_preorder : PreOrder mgr_frame.
Proof.
  split; [by intros m; split|].
  intros m1 m2 m3 [A1 B1 C1] [A2 B2 C2]. split; [intros r; by rewrite A2, A1|congruence|congruence].
Qed.

#[global] Instance framed_preorder : PreOrder framed.
Proof.
  split.
  - intros w. split; [done|done|exists []; by rewrite app_nil_r|exists []; by rewrite app_nil_r].
  - intros w1 w2 w3 [A1 B1 (l1 & C1 & F1) (t1 & T1)] [A2 B2 (l2 & C2 & F2) (t2 & T2)]. split.
    + by etrans.
    + congruence.
    + exists (l1 ++ l2). rewrite C2, C1, app_assoc. split; [done|]. by apply Forall_app.
    + exists (t1 ++ t2). by rewrite T2, T1, app_assoc.
Qed.

Definition Frame {A} (m : M D C A) : Prop := ∀ w, framed w (m w).1.

Lemma frame_ret {A} (a : A) : Frame (mret a).
Proof. by intros w. Qed.
Lemma frame_fail {A} e : Frame (fail e : M D C A).
Proof. by intros w. Qed.
Lemma frame_lift {A} (x : res A) : Frame (lift x).
Proof. by intros w. Qed.
Lemma frame_ask {A} (f : World D C → A) : Frame (ask f).
Proof. by intros w. Qed.
Lemma frame_get r : Frame (get r).
Proof. by intros w. Qed.
Lemma frame_skip : Frame (skip : M D C unit).
Proof. by intros w. Qed.

Lemma frame_bind {A B} (m : M D C A) (f : A → M D C B) : Frame m → (∀ a, Frame (f a)) → Frame (m ≫= f).
Proof.
  intros Hm Hf w. unfold mbind, M_bind. specialize (Hm w). destruct (m w) as [w' [a| | |]]; try done.
  etrans; [exact Hm|]. apply Hf.
Qed.

Lemma frame_try {A} (m : M D C A) : Frame m → Frame (try m).
Proof. intros Hm w. unfold try. specialize (Hm w). by destruct (m w) as [w' [a| | |]]. Qed.

Lemma frame_logged {A} (m : M D C A) : Frame m → Frame (logged m).
Proof. intros. apply frame_bind; [by apply frame_try|]. intros. apply frame_skip. Qed.

Lemma write_frame (m : Manager D C) r f : (∀ u, ues m !! r = Some u → sess (f u) = sess u) → mgr_frame m (write m r f).
Proof.
  intros Hf. split; [|done..]. intros r'. cbn [write ues]. destruct (decide (r = r')) as [->|Hne].
  - rewrite lookup_alter_eq. destruct (ues m !! r') as [u|]; [|done]. cbn. by rewrite Hf.
  - by rewrite lookup_alter_ne.
Qed.

Lemma framed_mgr w m : mgr_frame (w_mgr w) m → framed w (with_mgr m w).
Proof. intros H. split; [done|done|exists []; by rewrite app_nil_r|exists []; by rewrite app_nil_r]. Qed.

Lemma frame_upd r f : keeps_sess f → Frame (upd r f).
Proof. intros Hf w. apply framed_mgr, write_frame. intros u _. apply Hf. Qed.

Lemma frame_on_mgr {A} (f : Manager D C → Manager D C * res A) : (∀ m, mgr_frame m (f m).1) → Frame (on_mgr f).
Proof. intros Hf w. unfold on_mgr. specialize (Hf (w_mgr w)). destruct (f (w_mgr w)). by apply framed_mgr. Qed.

Lemma frame_persist r : Frame (persist r).
Proof.
  intros w. apply framed_mgr. split; [intros r'; by rewrite ues_PersistUE|..];
    unfold PersistUE; destruct (db (w_mgr w)), (ues (w_mgr w) !! r); done.
Qed.

Lemma frame_spawn t : Frame (spawn t).
Proof. intros w. split; [done|done|exists []; by rewrite app_nil_r|by exists [t]]. Qed.

Lemma frame_record c : created_by c = None → Frame (record_call c).
Proof. intros Hc w. split; [done|done|exists [c]; by repeat constructor|exists []; by rewrite app_nil_r]. Qed.

Lemma frame_send c : created_by c = None → Frame (send h c).
Proof.
  intros Hc. unfold send. apply frame_bind; [by apply frame_record|]. intros [].
  destruct (hd_ok h c); [apply frame_skip|apply frame_fail].
Qed.

Lemma frame_for_each {A} (l : list A) (f : A → M D C unit) : (∀ a, Frame (f a)) → Frame (for_each l f).
Proof.
  intros Hf. induction l as [|a l IH]; [apply frame_skip|]. apply frame_bind; [apply Hf|]. intros. apply IH.
Qed.
End Frame.

#[export] Hint Resolve frame_ret frame_fail frame_lift frame_ask frame_get frame_skip frame_persist frame_spawn : frame.
#[export] Hint Extern 1 (created_by _ _ = None) => reflexivity : frame.
#[export] Hint Extern 1 (keeps_sess _) => (intros ?; reflexivity) : frame.

(** One step on the structure of a handler. *)
Ltac frame :=
  repeat first
    [ solve [eauto with frame]
    | apply frame_bind; [|intros ?]
    | apply frame_logged | apply frame_try | apply frame_upd | apply frame_record | apply frame_send
    | apply frame_for_each; intros ?
    | match goal with |- Frame _ (match ?x with _ => _ end) => destruct x end
    | match goal with |- Frame _ (let '(_, _) := ?x in _) => destruct x end ].

(** ** The registration procedure *)

Section Phases.
Context {D C : Type} `{!Store D, !Cache C}.
Implicit Types (m : Manager D C).
Variable rh : RegistrationHandler.

Lemma write_keeps m r f : keeps_sess f → mgr_frame m (write m r f).
Proof. intros Hf. apply write_frame. intros u _. apply Hf. Qed.

Lemma SetSUPI_frame m r supi : mgr_frame m (SetSUPI m r supi).1.
Proof.
  unfold SetSUPI. pose proof (write_keeps m r (set_SUPI supi) (λ u, eq_refl)) as [H1 H2 H3].
  case_bool_decide; split; done.
Qed.

Lemma AssignGUTI_frame m r : mgr_frame m (AssignGUTI m r).1.
Proof.
  unfold AssignGUTI. assert (mgr_frame m (drawTMSI m).1) as Hd.
  { unfold drawTMSI. destruct (cache m) as [c|]; [|by split]. destruct (NextTMSI c) as [c' [t|]]; by split. }
  destruct (drawTMSI m) as [m' t]. cbn [fst] in *. etrans; [exact Hd|].
  pose proof (write_keeps m' r (set_GUTI (mkGUTI5G (a_MCC (AMFID m')) (a_MNC (AMFID m')) (a_AMFRegionID (AMFID m'))
    (a_AMFSetID (AMFID m')) (a_AMFID (AMFID m')) t)) (λ u, eq_refl)) as [H1 H2 H3]. by split.
Qed.

Lemma with_answer_frame m r resp e : mgr_frame m (with_answer rh m r resp e).1.
Proof. unfold with_answer. destruct resp; [|done]. apply write_keeps. intros u. reflexivity. Qed.

Lemma Phase1_frame m r rr : mgr_frame m (Phase1_InitiateAuthentication rh m r rr).1.
Proof.
  unfold Phase1_InitiateAuthentication. assert (keeps_sess (record_request rr)) as Hk.
  { intros u. unfold record_request. by destruct (rr_UESecurityCapability rr). }
  pose proof (write_keeps m r _ Hk) as Hw.
  destruct (resolveIdentity _ rr); [|done..]. etrans; [exact Hw|]. apply with_answer_frame.
Qed.

Lemma Phase1_SUCI_frame m r suci : mgr_frame m (Phase1_AuthenticateWithSUCI rh m r suci).1.
Proof.
  unfold Phase1_AuthenticateWithSUCI. etrans; [|apply with_answer_frame]. by apply write_keeps.
Qed.

Lemma Phase1_Resync_frame m r auts : mgr_frame m (Phase1_ResyncAuth rh m r auts).1.
Proof. unfold Phase1_ResyncAuth. destruct (ues m !! r); [|done]. apply with_answer_frame. Qed.

Lemma Phase2_frame m r resp : mgr_frame m (Phase2_ProcessAuthResponse rh m r resp).1.
Proof.
  unfold Phase2_ProcessAuthResponse. destruct (ues m !! r) as [u|]; [|done]. destruct (length resp =? 0)%nat; [done|].
  destruct (ConfirmAuth _ _ _) as [conf|]; [|done]. pose proof (SetSUPI_frame m r (cf_SUPI conf)) as Hs.
  destruct (SetSUPI m r (cf_SUPI conf)) as [m' d]. cbn [fst] in *. etrans; [exact Hs|].
  apply write_keeps. by intros ?.
Qed.

Lemma sendAccept_frame m r g : mgr_frame m (sendAccept rh m r g).1.
Proof.
  unfold sendAccept, deref. destruct (ues m !! r) as [u|] eqn:Hu; [|done]. cbn [mbind res_bind].
  unfold registrationAccept. destruct (buildTAIList rh u); try done. cbn [mbind res_bind].
  unfold setT3512Value. destruct (h_T3512 rh <=? 0); cbn [fst]; apply write_frame; intros v Hv; by simplify_eq.
Qed.

Lemma SplitPending_sess (c : option NSSAAClient) u : sess (SplitPendingNSSAA c u) = sess u.
Proof. unfold SplitPendingNSSAA. destruct c; [|done]. cbv zeta. by destruct (0 <? _)%nat. Qed.

Lemma applyAMPolicy_sess u : sess (applyAMPolicy rh u) = sess u.
Proof. unfold applyAMPolicy. destruct (CreateAMPolicyAssociation _); [|done]. by destruct (o _ _ _) as [[[? ?] ?]|]. Qed.

Lemma applyUEPolicy_sess u : sess (applyUEPolicy rh u) = sess u.
Proof.
  unfold applyUEPolicy. destruct (CreateUEPolicyAssociation _); [|done]. destruct (o _ _) as [[? ?]|]; [|done].
  by destruct (0 <? _)%nat.
Qed.

Lemma Phase3_frame m r : mgr_frame m (Phase3_ProcessSMCComplete rh m r).1.
Proof.
  unfold Phase3_ProcessSMCComplete. destruct (ues m !! r) as [u|]; [|done].
  destruct (GetAMSubscriptionData _ _) as [amSub|]; [|done]. cbv zeta.
  match goal with |- context [write m r ?f] => pose proof (write_keeps m r f) as Hw end.
  specialize (Hw ltac:(intros v; etrans; [exact (SplitPending_sess _ _)|done])).
  set (m1 := write m r _) in *. pose proof (AssignGUTI_frame m1 r) as Hg.
  destruct (AssignGUTI m1 r) as [m2 g]. cbn [fst] in Hg.
  match goal with |- context [write m2 r ?f] => pose proof (write_keeps m2 r f) as Hp end.
  specialize (Hp ltac:(intros v; etrans; [apply applyAMPolicy_sess|done])).
  set (m3 := write m2 r _) in *. assert (mgr_frame m m3) as Hm3 by (do 2 (etrans; [done|]); done).
  destruct (ues m3 !! r) as [u3|]; [|done]. destruct (restricted rh u3); [done|].
  etrans; [exact Hm3|]. etrans; [|apply sendAccept_frame]. apply write_keeps. intros v. apply applyUEPolicy_sess.
Qed.

Lemma Update_frame m r : mgr_frame m (BuildRegistrationUpdateAccept rh m r).1.
Proof.
  unfold BuildRegistrationUpdateAccept. pose proof (AssignGUTI_frame m r) as Hg.
  destruct (AssignGUTI m r) as [m2 g]. cbn [fst] in Hg. etrans; [exact Hg|].
  etrans; [|apply sendAccept_frame]. by apply write_keeps.
Qed.
End Phases.
#[export] Hint Resolve Phase1_frame Phase1_SUCI_frame Phase1_Resync_frame Phase2_frame Phase3_frame Update_frame : frame.

(** ** The mobility handlers *)

Section Handlers.
Context {D C : Type} `{!Store D, !Cache C}.
Variable h : Handler.
Hypothesis reachable_keeps : ∀ f, hd_onUEReachable h = Some f → keeps_sess f.

Lemma frame_secured r mt body : Frame h (secured r mt body : M D C bytes).
Proof. unfold secured. frame. Qed.
Lemma frame_integrityOnly r mt body sht : Frame h (integrityOnly r mt body sht : M D C bytes).
Proof. unfold integrityOnly. frame. Qed.
#[local] Hint Resolve frame_secured frame_integrityOnly : frame.

Lemma frame_via_downlink r mt body : Frame h (sendNASSecuredViaDownlink h r mt body : M D C unit).
Proof. unfold sendNASSecuredViaDownlink. frame. Qed.
Lemma frame_sendPlain r mt body : Frame h (sendPlain h r mt body : M D C unit).
Proof. unfold sendPlain. frame. Qed.
Lemma frame_storeRequested r n : Frame h (storeRequested r n : M D C unit).
Proof. unfold storeRequested. frame. Qed.
Lemma frame_reachable r : Frame h (notifyUEReachable h r : M D C unit).
Proof.
  unfold notifyUEReachable. apply frame_bind; [frame|]. intros _.
  destruct (hd_onUEReachable h) eqn:E; frame.
Qed.
Lemma frame_contextSetup r pdu kgnb items : Frame h (contextSetup h r pdu kgnb items : M D C unit).
Proof. unfold contextSetup. frame. Qed.
Lemma SetKgNB_sess k : keeps_sess (SetKgNBLocked k).
Proof. intros u. unfold SetKgNBLocked. by destruct (negb _). Qed.
#[local] Hint Resolve frame_via_downlink frame_sendPlain frame_storeRequested frame_reachable frame_contextSetup SetKgNB_sess : frame.

Lemma frame_phase {A} (f : Manager D C → Manager D C * res A) : (∀ m, mgr_frame m (f m).1) → Frame h (on_mgr f).
Proof. apply frame_on_mgr. Qed.
#[local] Hint Resolve frame_phase : frame.

Lemma frame_handleRegistrationRequest r body : Frame h (handleRegistrationRequest h r body : M D C unit).
Proof. unfold handleRegistrationRequest, handleRegistrationUpdate, sendIdentityRequest. frame. Qed.
Lemma frame_handleIdentityResponse r body : Frame h (handleIdentityResponse h r body : M D C unit).
Proof. unfold handleIdentityResponse. frame. Qed.
Lemma frame_handleAuthenticationResponse r body : Frame h (handleAuthenticationResponse h r body : M D C unit).
Proof. unfold handleAuthenticationResponse. frame. Qed.
Lemma frame_handleAuthenticationFailure r body : Frame h (handleAuthenticationFailure h r body : M D C unit).
Proof. unfold handleAuthenticationFailure. frame. Qed.
Lemma frame_handleSecurityModeReject r body : Frame h (handleSecurityModeReject r body : M D C unit).
Proof. unfold handleSecurityModeReject. frame. Qed.
Lemma frame_handleSecurityModeComplete r body : Frame h (handleSecurityModeComplete h r body : M D C unit).
Proof. unfold handleSecurityModeComplete, applySMCComplete, applyRetransmittedRegistrationRequest. frame. Qed.
Lemma frame_SendUEPolicyContainer r c : Frame h (SendUEPolicyContainer h r c : M D C unit).
Proof. unfold SendUEPolicyContainer. frame. Qed.

(** Handlers that write back a whole context. *)
Lemma frame_get_bind {A} r (k : UEContext → M D C A) :
  (∀ w u, ues (w_mgr w) !! r = Some u → framed h w (k u w).1) → Frame h (get r ≫= k).
Proof.
  intros Hk w. unfold mbind, M_bind, get, deref. destruct (ues (w_mgr w) !! r) as [u|] eqn:Hu; [|done]. by apply Hk.
Qed.

Lemma framed_replace {A} r u u' (k : M D C A) w :
  ues (w_mgr w) !! r = Some u → sess u' = sess u → Frame h k → framed h w ((_ ← upd r (λ _, u'); k) w).1.
Proof.
  intros Hu Hs Hk. unfold mbind, M_bind, upd. etrans; [|apply Hk]. apply framed_mgr, write_frame.
  intros v Hv. rewrite Hu in Hv. by injection Hv as <-.
Qed.

Lemma frame_startNSSAA r : Frame h (startNSSAA h r : M D C unit).
Proof.
  unfold startNSSAA. apply frame_get_bind. intros w u Hu. unfold StartNSSAA.
  destruct (h_nssaa _), (sl_Pending (ue_NSSAA u)) as [|s l]; try done.
  eapply framed_replace; [done|done|]. frame.
Qed.
#[local] Hint Resolve frame_startNSSAA frame_SendUEPolicyContainer : frame.

Lemma frame_handleRegistrationComplete r : Frame h (handleRegistrationComplete h r : M D C unit).
Proof. unfold handleRegistrationComplete, sendNetworkNameConfigUpdate. frame. Qed.

Lemma frame_sendNSSAAConfigUpdate r : Frame h (sendNSSAAConfigUpdate h r : M D C unit).
Proof. unfold sendNSSAAConfigUpdate. frame. Qed.
#[local] Hint Resolve frame_sendNSSAAConfigUpdate : frame.

Lemma ProcessNSSAA_sess c u complete u' out : ProcessNSSAAComplete c u complete = Ok (u', out) → sess u' = sess u.
Proof.
  unfold ProcessNSSAAComplete. destruct c as [auth|]; [|done]. destruct (sl_InProgress _) as [slice|]; [|done].
  destruct (negb _); [done|].
  destruct (match auth _ _ _ _ _ with Some _ => _ | None => _ end) as [[] e]; cbv zeta;
    (destruct (sl_Pending _); unfold beginSlice; intros [= <- <-]; reflexivity).
Qed.

Lemma frame_handleNSSAAComplete r body : Frame h (handleNSSAAComplete h r body : M D C unit).
Proof.
  unfold handleNSSAAComplete. destruct body; try apply frame_fail. apply frame_get_bind. intros w u Hu.
  destruct (ProcessNSSAAComplete _ u b) as [[u' out]| | |] eqn:E; try done.
  eapply framed_replace; [done|by eapply ProcessNSSAA_sess|]. frame.
Qed.

Lemma frame_RevokeNSSAASlice r sst sd : Frame h (RevokeNSSAASlice h r sst sd : M D C bool).
Proof.
  unfold RevokeNSSAASlice. apply frame_get_bind. intros w u Hu. unfold RevokeNSSAA.
  destruct (negb _); [done|]. eapply framed_replace; [done|done|]. frame.
Qed.

Lemma frame_ReauthNSSAASlice r sst sd : Frame h (ReauthNSSAASlice h r sst sd : M D C bool).
Proof.
  unfold ReauthNSSAASlice. apply frame_get_bind. intros w u Hu. unfold ReauthNSSAA.
  destruct (find _ _); [|done]. eapply framed_replace; [done|done|]. frame.
Qed.

(** ** The parts of the session handlers that keep the frame *)

Lemma frame_activate f vs : Frame h (activate f vs : M D C _).
Proof. induction vs as [|[psi s] vs IH]; cbn [activate]; frame. Qed.
#[local] Hint Resolve frame_activate : frame.

Lemma frame_activatePDUSessions r ulds released : Frame h (activatePDUSessions h r ulds released : M D C _).
Proof. unfold activatePDUSessions. frame. Qed.

Lemma frame_n1sm r psi c : Frame h (n1sm r psi c : M D C bytes).
Proof. apply frame_secured. Qed.
#[local] Hint Resolve frame_n1sm : frame.

Lemma frame_deleteSM ref : Frame h (deleteSM h ref : M D C unit).
Proof. unfold deleteSM. frame. Qed.
#[local] Hint Resolve frame_deleteSM : frame.

Lemma frame_handlePDUSessionModification r psi n1 : Frame h (handlePDUSessionModification h r psi n1 : M D C unit).
Proof. unfold handlePDUSessionModification. frame. Qed.
Lemma frame_InitiateNetworkQoSModification r psi q a b : Frame h (InitiateNetworkQoSModification h r psi q a b : M D C unit).
Proof. unfold InitiateNetworkQoSModification. frame. Qed.
Lemma frame_handleULSMS r c : Frame h (handleULSMS h r c : M D C unit).
Proof. unfold handleULSMS. frame. Qed.

Lemma frame_lpp (f : World D C → gmap Z nat) (g : World D C → gmap nat (option bytes)) :
  Frame h (λ w, (with_lpp (f w) (g w) w, Ok tt)).
Proof. intros w. split; [done|done|exists []; by rewrite app_nil_r|exists []; by rewrite app_nil_r]. Qed.
#[local] Hint Resolve frame_lpp : frame.

Lemma frame_handleULLPP r c : Frame h (handleULLPP r c : M D C unit).
Proof.
  unfold handleULLPP. frame. intros w. unfold chan_send. destruct (w_chans w !! _) as [[]|]; [done| |done].
  apply (frame_lpp (λ w, w_pendingLPP w) (λ w, <[_ := _]> (w_chans w))).
Qed.
Lemma frame_SendDownlinkLPP r c : Frame h (SendDownlinkLPP h r c : M D C nat).
Proof. unfold SendDownlinkLPP, encodeDownlinkLPP. frame. Qed.
Lemma frame_SendDownlinkLPPNoWait r c : Frame h (SendDownlinkLPPNoWait h r c : M D C unit).
Proof. unfold SendDownlinkLPPNoWait, encodeDownlinkLPP. frame. Qed.
Lemma frame_SendNetworkDeregistration r c a rereg : Frame h (SendNetworkDeregistration h r c a rereg : M D C unit).
Proof. unfold SendNetworkDeregistration. frame. Qed.
End Handlers.

(** * The books *)

Section Books.
Context {D C : Type} `{!Store D, !Cache C}.
Implicit Types (w : World D C).
Variable h : Handler.

(** The SMF has created the context; the AMF has it in a session of a UE it can
    reach; its deletion has been requested, or a goroutine will request it. *)
Definition created w (ref : string) : Prop := ∃ c, c ∈ w_calls w ∧ created_by h c = Some ref.
Definition held w (ref : string) : Prop :=
  ∃ id r u psi s, uesByNGAPId (w_mgr w) !! id = Some r ∧ ues (w_mgr w) !! r = Some u ∧
    ue_PDUSessions u !! psi = Some s ∧ ps_SMFInstanceID s = ref.
Definition deleted w (ref : string) : Prop := DeleteSMContext ref ∈ w_calls w ∨ DeleteSM ref ∈ w_tasks w.

Record books w : Prop := {
  bk_accounted ref : created w ref → ref ≠ "" → held w ref ∨ deleted w ref;
  bk_keyed r u psi s : ues (w_mgr w) !! r = Some u → ue_PDUSessions u !! psi = Some s → ps_PDUSessionID s = psi;
  bk_ids r u : ues (w_mgr w) !! r = Some u → ue_AMFUENGAPId u <= ngapIDCounter (w_mgr w);
  bk_index id r : uesByNGAPId (w_mgr w) !! id = Some r → ∃ u, ues (w_mgr w) !! r = Some u ∧ ue_AMFUENGAPId u = id;
  bk_inj r1 r2 u1 u2 : ues (w_mgr w) !! r1 = Some u1 → ues (w_mgr w) !! r2 = Some u2 →
    ue_AMFUENGAPId u1 = ue_AMFUENGAPId u2 → r1 = r2;
  bk_pending r u psi st s : ues (w_mgr w) !! r = Some u → w_pendingRelease w !! key_of u psi = Some st →
    ue_PDUSessions u !! psi = Some s → ps_SMFInstanceID s = pl_smContextRef st }.

Definition Keeps {A} (m : M D C A) : Prop := ∀ w, books w → books (m w).1.

Lemma frame_lookup (m m' : Manager D C) r u' :
  mgr_frame m m' → ues m' !! r = Some u' →
  ∃ u, ues m !! r = Some u ∧ ue_AMFUENGAPId u' = ue_AMFUENGAPId u ∧ ue_PDUSessions u' = ue_PDUSessions u.
Proof.
  intros [H _ _] Hu'. specialize (H r). rewrite Hu' in H. cbn in H. symmetry in H.
  apply fmap_Some in H as (u & Hu & [= -> ->]). eauto.
Qed.

Lemma mgr_frame_sym (m m' : Manager D C) : mgr_frame m m' → mgr_frame m' m.
Proof. intros [H1 H2 H3]. split; [intros r; by rewrite H1|done|done]. Qed.

Lemma created_framed w w' ref : framed h w w' → created w' ref → created w ref.
Proof.
  intros [_ _ (l & E & Hl) _] (c & Hc & Hr). rewrite E in Hc. apply elem_of_app in Hc as [Hc|Hc]; [by exists c|].
  rewrite Forall_forall in Hl. rewrite (Hl c Hc) in Hr. done.
Qed.

Lemma deleted_framed w w' ref : framed h w w' → deleted w ref → deleted w' ref.
Proof.
  intros [_ _ (l & E & _) (t & T)] [H|H]; [left; rewrite E|right; rewrite T]; apply elem_of_app; by left.
Qed.

Lemma held_framed w w' ref : framed h w w' → held w ref → held w' ref.
Proof.
  intros [Hm _ _ _] (id & r & u & psi & s & Hi & Hu & Hs & Hr).
  destruct (frame_lookup _ _ r u (mgr_frame_sym _ _ Hm) Hu) as (u' & Hu' & _ & Es).
  exists id, r, u', psi, s. rewrite (mf_index _ _ Hm), <- Es. done.
Qed.

Lemma books_framed w w' : framed h w w' → books w → books w'.
Proof.
  intros Hf [B1 B2 B3 B4 B5 B6]. pose proof (fr_mgr _ _ _ Hf) as Hm. split.
  - intros ref Hc Hn. destruct (B1 ref (created_framed _ _ _ Hf Hc) Hn) as [H|H];
      [left; by eapply held_framed|right; by eapply deleted_framed].
  - intros r u psi s (v & Hv & _ & ->)%(frame_lookup _ _ _ _ Hm). eauto.
  - intros r u (v & Hv & -> & _)%(frame_lookup _ _ _ _ Hm). rewrite (mf_counter _ _ Hm). eauto.
  - intros id r. rewrite (mf_index _ _ Hm). intros (u & Hu & <-)%B4.
    destruct (frame_lookup _ _ r u (mgr_frame_sym _ _ Hm) Hu) as (u' & Hu' & E & _). eauto.
  - intros r1 r2 u1 u2 (v1 & Hv1 & -> & _)%(frame_lookup _ _ _ _ Hm) (v2 & Hv2 & -> & _)%(frame_lookup _ _ _ _ Hm). eauto.
  - intros r u psi st s (v & Hv & Ei & Es)%(frame_lookup _ _ _ _ Hm). unfold key_of. rewrite Ei, Es, (fr_pending _ _ _ Hf). eauto.
Qed.

Lemma keeps_frame {A} (m : M D C A) : Frame h m → Keeps m.
Proof. intros Hf w. apply books_framed, Hf. Qed.

Lemma keeps_bind {A B} (m : M D C A) (f : A → M D C B) : Keeps m → (∀ a, Keeps (f a)) → Keeps (m ≫= f).
Proof.
  intros Hm Hf w Hw. unfold mbind, M_bind. specialize (Hm w Hw). destruct (m w) as [w' [a| | |]]; try done. by apply Hf.
Qed.

Lemma keeps_get_bind {A} r (k : UEContext → M D C A) :
  (∀ w u, books w → ues (w_mgr w) !! r = Some u → books (k u w).1) → Keeps (get r ≫= k).
Proof.
  intros Hk w Hw. unfold mbind, M_bind, get, deref. destruct (ues (w_mgr w) !! r) as [u|] eqn:Hu; [|done]. by apply Hk.
Qed.

(** The pieces of a session handler: a session is removed when its SM context has
    been dealt with, and added when the SMF has created it. *)
Lemma alter_lookup (m : Manager D C) r f r' u' :
  ues (write m r f) !! r' = Some u' →
  ∃ u, ues m !! r' = Some u ∧ (r' = r ∧ u' = f u ∨ r' ≠ r ∧ u' = u).
Proof. cbn [write ues]. rewrite lookup_alter_Some. intros [(-> & u & ? & ->)|[? ?]]; eauto 10. Qed.

Lemma lookup_write (m : Manager D C) r f r' u :
  ues m !! r' = Some u → (∀ u, ue_AMFUENGAPId (f u) = ue_AMFUENGAPId u) →
  ∃ u', ues (write m r f) !! r' = Some u' ∧ ue_AMFUENGAPId u' = ue_AMFUENGAPId u.
Proof.
  intros Hu Hf. cbn [write ues]. destruct (decide (r = r')) as [->|Hne].
  - rewrite lookup_alter_eq, Hu. cbn. eauto.
  - rewrite lookup_alter_ne by done. eauto.
Qed.

Lemma books_drop w r psi :
  books w →
  (∀ u s, ues (w_mgr w) !! r = Some u → ue_PDUSessions u !! psi = Some s → ps_SMFInstanceID s ≠ "" →
    deleted w (ps_SMFInstanceID s)) →
  books (dropSession r psi w).1.
Proof.
  intros [B1 B2 B3 B4 B5 B6] Hd. unfold dropSession, upd. cbn [fst].
  split; cbn [w_mgr with_mgr w_pendingRelease].
  - intros ref Hc Hn. change (created w ref) in Hc. destruct (B1 ref Hc Hn) as [H|H]; [|by right].
    destruct H as (id & r' & u & p & s & Hi & Hu & Hs & <-).
    destruct (decide (r' = r ∧ p = psi)) as [[-> ->]|Hne]; [right; by eapply Hd|].
    left. destruct (decide (r = r')) as [->|Hr].
    + exists id, r'. eexists. exists p, s. split; [done|]. split; [cbn; by rewrite lookup_alter_eq, Hu|].
      split; [|done]. cbn. rewrite lookup_delete_ne; [done|]. naive_solver.
    + exists id, r', u, p, s. cbn. by rewrite lookup_alter_ne.
  - intros r' u' p s (u & Hu & [[-> ->]|[_ ->]])%alter_lookup; [|eauto].
    cbn. rewrite lookup_delete_Some. intros [_ Hs]. eauto.
  - intros r' u' (u & Hu & [[-> ->]|[_ ->]])%alter_lookup; cbn; eauto.
  - intros id' r' (v & Hv & <-)%B4. by apply lookup_write.
  - intros r1 r2 u1 u2 (v1 & H1 & [[-> ->]|[_ ->]])%alter_lookup (v2 & H2 & [[-> ->]|[_ ->]])%alter_lookup; cbn; eauto.
  - intros r' u' p st s (u & Hu & [[-> ->]|[_ ->]])%alter_lookup; cbn; [|eauto].
    intros Hp. rewrite lookup_delete_Some. intros [_ Hs]. eauto.
Qed.

Lemma books_insert w r u psi s c id :
  books w → ues (w_mgr w) !! r = Some u → uesByNGAPId (w_mgr w) !! id = Some r →
  ue_PDUSessions u !! psi = None → w_pendingRelease w !! key_of u psi = None →
  ps_PDUSessionID s = psi → created_by h c = Some (ps_SMFInstanceID s) →
  books (with_calls (w_calls w ++ [c])
           (with_mgr (write (w_mgr w) r (λ u, set_PDUSessions (<[psi := s]> (ue_PDUSessions u)) u)) w)).
Proof.
  intros [B1 B2 B3 B4 B5 B6] Hu Hid Hnone Hpend Hpsi Hc. split; cbn [w_mgr with_mgr with_calls w_pendingRelease].
  - intros ref (c' & Hc' & Hr) Hn. cbn in Hc'. rewrite elem_of_app, list_elem_of_singleton in Hc'.
    assert (held w ref ∨ deleted w ref ∨ ref = ps_SMFInstanceID s) as [H|[H| ->]].
    { destruct Hc' as [Hc'| ->]; [|rewrite Hc in Hr; naive_solver].
      destruct (B1 ref) as [H|H]; [by exists c'|done|by left|by right; left]. }
    + left. destruct H as (id' & r' & u' & p & s' & Hi & Hu' & Hs & <-).
      destruct (decide (r = r')) as [<-|Hr'].
      * exists id', r. eexists. exists p, s'. split; [done|]. split; [cbn; by rewrite lookup_alter_eq, Hu'|].
        split; [|done]. cbn. rewrite lookup_insert_ne; [done|]. simplify_eq. congruence.
      * exists id', r', u', p, s'. cbn. by rewrite lookup_alter_ne.
    + right. destruct H as [H|H]; [left|by right]. cbn. apply elem_of_app. by left.
    + left. exists id, r. eexists. exists psi, s. split; [done|]. split; [cbn; by rewrite lookup_alter_eq, Hu|].
      split; [|done]. cbn. by rewrite lookup_insert_eq.
  - intros r' u' p s' (v & Hv & [[-> ->]|[_ ->]])%alter_lookup; [|eauto].
    cbn. rewrite lookup_insert_Some. intros [[<- <-]|[_ Hs]]; eauto.
  - intros r' u' (v & Hv & [[-> ->]|[_ ->]])%alter_lookup; cbn; eauto.
  - intros id' r' (v & Hv & <-)%B4. by apply lookup_write.
  - intros r1 r2 u1 u2 (v1 & H1 & [[-> ->]|[_ ->]])%alter_lookup (v2 & H2 & [[-> ->]|[_ ->]])%alter_lookup; cbn; eauto.
  - intros r' u' p st s' (v & Hv & [[-> ->]|[_ ->]])%alter_lookup; cbn; [|eauto].
    simplify_eq. intros Hp. rewrite lookup_insert_Some. intros [[<- _]|[_ Hs]]; [|eauto].
    unfold key_of in *. cbn in Hp. congruence.
Qed.

(** A step that keeps the frame, before one that needs the state [w0] kept. *)
Lemma books_bind_framed {A B} w0 w (m : M D C A) (f : A → M D C B) :
  framed h w0 w → books w → Frame h m → (∀ a w', framed h w0 w' → books w' → books (f a w').1) →
  books ((m ≫= f) w).1.
Proof.
  intros H0 Hw Hm Hk. unfold mbind, M_bind. specialize (Hm w).
  assert (framed h w0 (m w).1) as H1 by (by etrans). pose proof (books_framed _ _ Hm Hw) as Hw'.
  destruct (m w) as [w' [a| | |]]; [by apply Hk|done..].
Qed.

(** ** The session handlers *)

Hypothesis can_delete : hd_canDelete h = true.

Lemma deleteSM_run ref w :
  deleteSM h ref w = (if String.eqb ref "" then w else with_calls (w_calls w ++ [DeleteSMContext ref]) w, Ok tt).
Proof. unfold deleteSM. rewrite can_delete, andb_true_r. by destruct (String.eqb ref ""). Qed.

Lemma deleted_after ref w : ref ≠ "" → deleted (deleteSM h ref w).1 ref.
Proof.
  intros Hn. rewrite deleteSM_run. destruct (String.eqb_spec ref ""); [done|]. left. cbn. apply elem_of_app. right. set_solver.
Qed.

Lemma deleteSM_mgr ref w : w_mgr (deleteSM h ref w).1 = w_mgr w.
Proof. rewrite deleteSM_run. by destruct (String.eqb ref ""). Qed.

(** The context is deleted, then the session removed. *)
Lemma books_delete_drop {A} ref r psi (k : M D C A) w :
  books w →
  (∀ u s, ues (w_mgr w) !! r = Some u → ue_PDUSessions u !! psi = Some s → ps_SMFInstanceID s = ref) →
  Keeps k → books ((_ ← deleteSM h ref; _ ← dropSession r psi; k) w).1.
Proof.
  intros Hw Hs Hk. rewrite (bind_run _ _ w (deleteSM h ref w).1 tt) by (by rewrite deleteSM_run).
  rewrite (bind_run _ _ (deleteSM h ref w).1 _ tt) by reflexivity. apply Hk, books_drop.
  - by apply (keeps_frame _ (frame_deleteSM h ref)).
  - intros u s Hu Hp Hn. rewrite deleteSM_mgr in Hu. rewrite (Hs u s Hu Hp) in *. by apply deleted_after.
Qed.

Lemma keeps_complete r psi : Keeps (completeNetworkPDUSessionRelease h r psi).
Proof.
  unfold completeNetworkPDUSessionRelease. apply keeps_get_bind. intros w u Hw Hu.
  erewrite bind_run by reflexivity. destruct (w_pendingRelease w !! key_of u psi) as [st|] eqn:Ep; [|done].
  erewrite bind_run by reflexivity. apply books_delete_drop; [| |apply keeps_frame, frame_persist].
  - destruct Hw as [B1 B2 B3 B4 B5 B6]. split; try done.
    intros r' u' psi' st' s' Hu' Hp'. cbn in Hp'. apply lookup_delete_Some in Hp' as [_ Hp']. eauto.
  - intros v s Hv Hs. cbn in Hv. simplify_eq. by eapply bk_pending.
Qed.

Lemma keeps_InitiateNetworkPDUSessionRelease r psi : Keeps (InitiateNetworkPDUSessionRelease h r psi).
Proof.
  unfold InitiateNetworkPDUSessionRelease. apply keeps_get_bind. intros w u Hw Hu.
  destruct (ue_PDUSessions u !! psi) as [s|] eqn:Hs; [|done].
  eapply (books_bind_framed w w); [done|done|apply frame_n1sm|]. intros pdu w1 Hf1 Hw1.
  eapply (books_bind_framed w w1); [done|done|by apply frame_send|]. intros [] w2 Hf Hw2.
  unfold armRelease. cbn [fst]. destruct Hw2 as [B1 B2 B3 B4 B5 B6]. split; try done.
  intros r' u' psi' st' s' Hu' Hp' Hs'. cbn in Hu', Hp'. apply lookup_insert_Some in Hp' as [[Hk <-]|[_ Hp']]; [|eauto].
  destruct (frame_lookup _ _ _ _ (fr_mgr _ _ _ Hf) Hu') as (v & Hv & Ei & Es).
  unfold key_of in Hk. rewrite Ei in Hk. injection Hk as Hid <-.
  assert (r' = r) as -> by (by eapply (bk_inj w Hw); eauto). simplify_eq. cbn. congruence.
Qed.

Lemma sess_of w w' r u :
  framed h w w' → ues (w_mgr w) !! r = Some u → ∀ u', ues (w_mgr w') !! r = Some u' →
  ue_PDUSessions u' = ue_PDUSessions u ∧ ue_AMFUENGAPId u' = ue_AMFUENGAPId u.
Proof.
  intros Hf Hu u' Hu'. destruct (frame_lookup _ _ _ _ (fr_mgr _ _ _ Hf) Hu') as (v & Hv & Ei & Es). by simplify_eq.
Qed.

Lemma keeps_handlePDUSessionRelease r psi pti : Keeps (handlePDUSessionRelease h r psi pti).
Proof.
  unfold handlePDUSessionRelease. apply keeps_get_bind. intros w u Hw Hu.
  destruct (ue_PDUSessions u !! psi) as [s|] eqn:Hs; [|done].
  eapply (books_bind_framed w w); [done|done|apply frame_n1sm|]. intros pdu w1 Hf1 Hw1.
  rewrite can_delete, andb_true_r.
  set (sp := if established s then spawn (DeleteSM (ps_SMFInstanceID s)) else skip : M D C unit).
  assert (sp w1 = (if established s then with_tasks (w_tasks w1 ++ [DeleteSM (ps_SMFInstanceID s)]) w1 else w1, Ok tt)) as Esp
    by (unfold sp; by destruct (established s)).
  assert (Frame h sp) as Hsp by (unfold sp; destruct (established s); frame).
  set (w2 := (sp w1).1). assert (framed h w w2) as Hf2 by (etrans; [exact Hf1|apply Hsp]).
  assert (ps_SMFInstanceID s ≠ "" → deleted w2 (ps_SMFInstanceID s)) as Hd.
  { intros Hn. unfold w2. rewrite Esp. unfold established. destruct (String.eqb_spec (ps_SMFInstanceID s) ""); [done|].
    right. cbn. apply elem_of_app. right. set_solver. }
  rewrite (bind_run _ _ w1 w2 tt) by (unfold w2; by rewrite Esp).
  eapply (books_bind_framed w2 w2); [done|by eapply books_framed|by apply frame_send|]. intros [] w3 Hf3 Hw3.
  rewrite (bind_run _ _ w3 (dropSession r psi w3).1 tt) by reflexivity. apply (keeps_frame _ (frame_persist _ r)).
  apply books_drop; [done|]. intros u' s' Hu' Hs' Hn.
  destruct (sess_of w w3 r u ltac:(by etrans) Hu u' Hu') as [E _]. rewrite E in Hs'. simplify_eq.
  eapply deleted_framed; [exact Hf3|]. by apply Hd.
Qed.

(** ** Establishment *)

Lemma releaseExisting_run r psi w u :
  books w → ues (w_mgr w) !! r = Some u →
  ∃ w' u', releaseExisting h r psi w = (w', Ok tt) ∧ books w' ∧ ues (w_mgr w') !! r = Some u' ∧
    ue_PDUSessions u' !! psi = None ∧ uesByNGAPId (w_mgr w') = uesByNGAPId (w_mgr w) ∧
    w_pendingRelease w' = w_pendingRelease w ∧ ue_SecurityCtx u' = ue_SecurityCtx u ∧
    ue_AMFUENGAPId u' = ue_AMFUENGAPId u ∧ ue_AllowedNSSAI u' = ue_AllowedNSSAI u.
Proof.
  intros Hw Hu. unfold releaseExisting. rewrite (bind_run _ _ _ _ _ (get_run _ _ _ Hu)).
  destruct (ue_PDUSessions u !! psi) as [s|] eqn:Hs; [|by exists w, u].
  set (w1 := (deleteSM h (ps_SMFInstanceID s) w).1).
  rewrite (bind_run _ _ w w1 tt) by (unfold w1; by rewrite deleteSM_run).
  assert (books (dropSession r psi w1).1) as Hb.
  { pose proof (books_delete_drop (ps_SMFInstanceID s) r psi skip w Hw) as H.
    rewrite (bind_run _ _ w w1 tt) in H by (unfold w1; by rewrite deleteSM_run).
    rewrite (bind_run _ _ w1 (dropSession r psi w1).1 tt) in H by reflexivity. apply H; [|apply keeps_frame, frame_skip].
    intros v t Hv Ht. by simplify_eq. }
  assert (w_pendingRelease w1 = w_pendingRelease w) as Ep by (unfold w1; rewrite deleteSM_run; by destruct (String.eqb _ _)).
  assert (w_mgr w1 = w_mgr w) as Em by apply deleteSM_mgr.
  exists (dropSession r psi w1).1. eexists. split; [done|]. split; [done|]. cbn [dropSession upd fst w_mgr with_mgr].
  rewrite Em. split; [apply (ues_upd _ _ _ _ Hu)|]. split; [cbn; apply lookup_delete_eq|]. done.
Qed.

Lemma n1sm_plain psi c :
  Z.of_nat (length c) <= 65535 →
  ∃ plain, sendNASPlain PDMobilityManagement MsgTypeDLNASTransport
    (BDLNASTransport (mkDLNASTransport PayloadContainerTypeN1SM c (Some psi) None None)) = Ok plain.
Proof.
  intros Hl. unfold sendNASPlain, Encode. cbn [msg_Header msg_Body MessageType].
  change (encodeBody MsgTypeDLNASTransport (BDLNASTransport ?m)) with (EncodeDLNASTransport m).
  unfold EncodeDLNASTransport. cbn [dl_PayloadContainer]. destruct (Z.ltb_spec 65535 (Z.of_nat (length c))); [lia|].
  eexists. reflexivity.
Qed.

Definition smf_short : Prop := ∀ create supi dnn psi n1 s ref body n2,
  hd_CallSMF h = Some create → create supi dnn psi n1 s = Some (ref, body, n2) → Z.of_nat (length body) <= 65531.

Lemma books_createSession r u psi pti c dnn snssai id w :
  smf_short → books w → ues (w_mgr w) !! r = Some u → uesByNGAPId (w_mgr w) !! id = Some r →
  ue_PDUSessions u !! psi = None → w_pendingRelease w !! key_of u psi = None →
  length (sc_KNASint (ue_SecurityCtx u)) = 16%nat → length (sc_KNASenc (ue_SecurityCtx u)) = 16%nat →
  books (createSession h r psi pti c dnn snssai w).1.
Proof.
  intros Hshort Hw Hu Hid Hnone Hpend Hki Hke. unfold createSession.
  destruct (hd_CallSMF h) as [create|] eqn:Hc; [|done].
  rewrite (bind_run _ _ _ _ _ (get_run _ _ _ Hu)). erewrite bind_run by reflexivity.
  set (cl := CallSMF (ue_SUPI u) dnn psi c snssai). set (w1 := with_calls _ w).
  destruct (create (ue_SUPI u) dnn psi c snssai) as [[[ref n1] n2]|] eqn:Ec.
  2:{ apply (keeps_frame (record_call cl)); [|done]. apply frame_record. unfold created_by, cl. by rewrite Hc, Ec. }
  assert (created_by h cl = Some ref) as Hcl by (unfold created_by, cl; by rewrite Hc, Ec).
  destruct (n1sm_plain psi (WrapPDUSessionEstablishmentAcceptBody psi pti n1)) as [plain Hplain].
  { unfold WrapPDUSessionEstablishmentAcceptBody. rewrite length_app. cbn [length].
    pose proof (Hshort _ _ _ _ _ _ _ _ _ Hc Ec). lia. }
  destruct (secured_run w1 r u _ _ plain Hu Hki Hke Hplain) as (pdu & _ & Es). unfold n1sm.
  rewrite (bind_run _ _ _ _ _ Es). erewrite bind_run by reflexivity.
  assert (framed h w (with_mgr (write (w_mgr w) r (set_SecurityCtx (count_down (ue_SecurityCtx u)))) w)) as Hf
    by (by apply framed_mgr, write_keeps).
  refine (keeps_bind _ _ (keeps_frame _ (frame_persist _ r)) _ _ _).
  { intros []. by apply keeps_frame, frame_send. }
  apply (books_insert (with_mgr (write (w_mgr w) r (set_SecurityCtx (count_down (ue_SecurityCtx u)))) w) r
    (set_SecurityCtx (count_down (ue_SecurityCtx u)) u) psi
    (mkPDUSession psi ref "" snssai dnn "" [] n2) cl id); try done.
  - by eapply books_framed.
  - apply (ues_upd _ _ _ _ Hu).
Qed.

Definition keys_ok (u : UEContext) : Prop :=
  length (sc_KNASint (ue_SecurityCtx u)) = 16%nat ∧ length (sc_KNASenc (ue_SecurityCtx u)) = 16%nat.

Lemma books_handleEstablishment r u t psi pti id w :
  smf_short → books w → ues (w_mgr w) !! r = Some u → uesByNGAPId (w_mgr w) !! id = Some r →
  w_pendingRelease w !! key_of u psi = None → keys_ok u →
  books (handleEstablishment h r t psi pti w).1.
Proof.
  intros Hshort Hw Hu Hid Hpend [Hki Hke]. unfold handleEstablishment.
  destruct (releaseExisting_run r psi w u Hw Hu) as (w1 & u1 & E1 & Hw1 & Hu1 & Hn1 & Hi1 & Hp1 & Hs1 & Hd1 & Ha1).
  rewrite (bind_run _ _ _ _ _ E1). unfold mbind at 1, M_bind at 1, try, lift.
  destruct (DecodePDUSessionEstablishmentRequest _); try done.
  rewrite (bind_run _ _ _ _ _ (get_run _ _ _ Hu1)).
  destruct (resolveSessionSNSSAI _ _) as [snssai auth]. destruct (psi =? 0); [done|]. destruct (negb auth).
  - apply (keeps_frame (rejectULNASTransport h r psi _ _ _)); [|done]. apply frame_via_downlink.
  - rewrite <- Hi1 in Hid. apply (books_createSession r u1 psi pti _ _ _ id); try done.
    + rewrite Hp1. unfold key_of. by rewrite Hd1.
    + by rewrite Hs1.
    + by rewrite Hs1.
Qed.

(** ** Releases in a loop *)

Lemma for_each_keeps {A} (P : World D C → Prop) (l : list A) (f : A → M D C unit) w :
  (∀ a w, a ∈ l → P w → P (f a w).1) → P w → P (for_each l f w).1.
Proof.
  revert w. induction l as [|a l IH]; intros w Hf Hw; [done|]. cbn [for_each foldr]. unfold mbind, M_bind.
  pose proof (Hf a w ltac:(set_solver) Hw) as Hw1. destruct (f a w) as [w1 [[]| | |]]; try done.
  apply IH; [|done]. intros b w2 Hb. apply Hf. set_solver.
Qed.

(** While the sessions of a list are removed, those left are the listed ones. *)
Definition releasing (r : loc) (vs : list (Z * PDUSession)) w : Prop :=
  books w ∧ (∀ psi s, (psi, s) ∈ vs → ps_PDUSessionID s = psi) ∧
  ∀ u psi s s', ues (w_mgr w) !! r = Some u → (psi, s) ∈ vs → ue_PDUSessions u !! psi = Some s' → s' = s.

Lemma releasing_start r u vs w :
  books w → ues (w_mgr w) !! r = Some u → (∀ psi s, (psi, s) ∈ vs → ue_PDUSessions u !! psi = Some s) → releasing r vs w.
Proof.
  intros Hw Hu Hv. split; [done|]. split.
  - intros psi s Hin. eapply bk_keyed; eauto.
  - intros u' psi s s' Hu' Hin Hs'. apply Hv in Hin. by simplify_eq.
Qed.

Lemma releasing_framed r vs w w' : framed h w w' → releasing r vs w → releasing r vs w'.
Proof.
  intros Hf (Hw & Hk & Hv). split; [by eapply books_framed|]. split; [done|].
  intros u' psi s s' Hu' Hin Hs'. destruct (frame_lookup _ _ _ _ (fr_mgr _ _ _ Hf) Hu') as (u & Hu & _ & Es).
  rewrite Es in Hs'. by eapply Hv.
Qed.

Lemma releasing_drop r vs psi s w :
  releasing r vs w → (psi, s) ∈ vs → (ps_SMFInstanceID s ≠ "" → deleted w (ps_SMFInstanceID s)) →
  releasing r vs (dropSession r psi w).1.
Proof.
  intros (Hw & Hk & Hv) Hin Hd. split; [|split; [done|]].
  - apply books_drop; [done|]. intros u s' Hu Hs' Hn. rewrite (Hv u psi s s' Hu Hin Hs') in *. by apply Hd.
  - intros u' p t t' Hu' Ht Ht'. cbn [dropSession upd fst w_mgr with_mgr] in Hu'.
    apply alter_lookup in Hu' as (u & Hu & [[_ ->]|[_ ->]]); [|by eapply Hv].
    cbn in Ht'. apply lookup_delete_Some in Ht' as [_ Ht']. by eapply Hv.
Qed.

Lemma releasing_victim r vs psi s w : releasing r vs w → (psi, s) ∈ vs → releasing r vs (releaseVictim h r psi s w).1.
Proof.
  intros Hr Hin. unfold releaseVictim. unfold mbind at 1, M_bind at 1, get, deref.
  destruct (ues (w_mgr w) !! r) as [u|] eqn:Hu; [|done]. erewrite bind_run by reflexivity.
  destruct (w_pendingRelease w !! key_of u psi).
  - eapply releasing_framed; [|done]. apply frame_spawn.
  - erewrite bind_run by reflexivity. rewrite can_delete.
    apply (releasing_drop r vs psi s (with_tasks (w_tasks w ++ [DeleteSM (ps_SMFInstanceID s)]) w)); [|done|].
    + eapply releasing_framed; [|done]. apply (frame_spawn h (DeleteSM (ps_SMFInstanceID s))).
    + intros _. right. cbn. apply elem_of_app. right. set_solver.
Qed.

Lemma keeps_releaseInactive r status : Keeps (releaseInactivePDUSessions h r status).
Proof.
  unfold releaseInactivePDUSessions. destruct status as [st|]; [|by intros w].
  apply keeps_get_bind. intros w u Hw Hu. cbv zeta. set (vs := filter _ _). destruct (length vs =? 0)%nat; [done|].
  assert (releasing r vs (for_each vs (λ '(psi, s), releaseVictim h r psi s) w).1) as (Hb & _ & _).
  { apply for_each_keeps.
    - intros [psi s] w' Hin Hr. by apply releasing_victim.
    - apply (releasing_start r u); [done|done|]. intros psi s [_ Hin%elem_of_by_psi]%list_elem_of_filter. done. }
  unfold mbind at 1, M_bind at 1. destruct (for_each _ _ w) as [w1 [[]| | |]]; try done.
  by apply (keeps_frame _ (frame_persist _ r)).
Qed.

Lemma releasing_delete r vs psi s w :
  releasing r vs w → (psi, s) ∈ vs →
  releasing r vs ((_ ← deleteSM h (ps_SMFInstanceID s); dropSession r (ps_PDUSessionID s)) w).1.
Proof.
  intros Hr Hin. rewrite (bind_run _ _ w (deleteSM h (ps_SMFInstanceID s) w).1 tt) by (by rewrite deleteSM_run).
  replace (ps_PDUSessionID s) with psi by (symmetry; by apply Hr).
  apply (releasing_drop r vs psi s); [|done|apply deleted_after].
  eapply releasing_framed; [|done]. apply frame_deleteSM.
Qed.

Lemma keeps_teardownSessions r : Keeps (teardownSessions h r).
Proof.
  unfold teardownSessions. apply keeps_get_bind. intros w u Hw Hu.
  eapply (for_each_keeps (releasing r (map_to_list (ue_PDUSessions u)))).
  - intros [psi s] w' Hin Hr. by apply (releasing_delete r _ psi).
  - apply (releasing_start r u); [done|done|]. intros psi s. by rewrite elem_of_map_to_list.
Qed.

Lemma keeps_teardown r : Keeps (teardown h r).
Proof.
  unfold teardown. apply keeps_bind; [apply keeps_teardownSessions|]. intros _. apply keeps_frame.
  frame; try done; by intros ?.
Qed.

(** ** A displaced context *)

Lemma deleteAll_run l w :
  ∃ w', for_each l (λ '(_, s), deleteSM h (ps_SMFInstanceID s)) w = (w', Ok tt) ∧ framed h w w' ∧ w_mgr w' = w_mgr w ∧
    ∀ (psi : Z) s, (psi, s) ∈ l → ps_SMFInstanceID s ≠ "" → deleted w' (ps_SMFInstanceID s).
Proof.
  revert w. induction l as [|[psi s] l IH]; intros w.
  - exists w. split_and!; try done. set_solver.
  - cbn [for_each foldr]. set (w1 := (deleteSM h (ps_SMFInstanceID s) w).1).
    rewrite (bind_run _ _ w w1 tt) by (unfold w1; by rewrite deleteSM_run).
    destruct (IH w1) as (w' & E & Hf & Hm & Hd). exists w'. split; [exact E|].
    split; [etrans; [apply (frame_deleteSM h)|exact Hf]|].
    split; [rewrite Hm; apply deleteSM_mgr|]. intros p t [Ht|Ht]%elem_of_cons Hn; [|by eapply Hd].
    simplify_eq. eapply deleted_framed; [exact Hf|]. by apply deleted_after.
Qed.

Lemma Remove_ues (m : Manager D C) r r' : sess <$> ues (Remove m r) !! r' = sess <$> ues m !! r'.
Proof.
  unfold Remove. destruct (ues m !! r) as [u|] eqn:Hu; [|done]. cbn [ues]. destruct (decide (r = r')) as [->|Hne].
  - by rewrite lookup_alter_eq, Hu.
  - by rewrite lookup_alter_ne.
Qed.

Lemma Remove_lookup (m : Manager D C) r r' u' :
  ues (Remove m r) !! r' = Some u' →
  ∃ u, ues m !! r' = Some u ∧ ue_AMFUENGAPId u' = ue_AMFUENGAPId u ∧ ue_PDUSessions u' = ue_PDUSessions u.
Proof.
  intros H. pose proof (Remove_ues m r r') as E. rewrite H in E. cbn in E. symmetry in E.
  apply fmap_Some in E as (u & Hu & [= -> ->]). eauto.
Qed.

Lemma Remove_lookup_from (m : Manager D C) r r' u :
  ues m !! r' = Some u →
  ∃ u', ues (Remove m r) !! r' = Some u' ∧ ue_AMFUENGAPId u' = ue_AMFUENGAPId u ∧ ue_PDUSessions u' = ue_PDUSessions u.
Proof.
  intros H. pose proof (Remove_ues m r r') as E. rewrite H in E. cbn in E.
  apply fmap_Some in E as (u' & Hu' & [= -> ->]). eauto.
Qed.

Lemma Remove_index (m : Manager D C) r u :
  ues m !! r = Some u → uesByNGAPId (Remove m r) = delete (ue_AMFUENGAPId u) (uesByNGAPId m)
                        ∧ ngapIDCounter (Remove m r) = ngapIDCounter m.
Proof. intros H. unfold Remove. by rewrite H. Qed.

Lemma books_remove w r u :
  books w → ues (w_mgr w) !! r = Some u →
  (∀ psi s, ue_PDUSessions u !! psi = Some s → ps_SMFInstanceID s ≠ "" → deleted w (ps_SMFInstanceID s)) →
  books (with_mgr (Remove (w_mgr w) r) w).
Proof.
  intros [B1 B2 B3 B4 B5 B6] Hu Hd. destruct (Remove_index _ _ _ Hu) as [Ei Ec].
  split; cbn [w_mgr with_mgr w_pendingRelease]; rewrite ?Ei, ?Ec.
  - intros ref Hc Hn. change (created w ref) in Hc. destruct (B1 ref Hc Hn) as [H|H]; [|by right].
    destruct H as (id & r' & v & psi & s & Hi & Hv & Hs & <-).
    destruct (decide (r' = r)) as [->|Hne]; [right; simplify_eq; by eapply Hd|].
    destruct (decide (id = ue_AMFUENGAPId u)) as [->|Hid].
    + destruct (B4 _ _ Hi) as (v' & Hv' & Eid). by destruct (Hne (B5 _ _ _ _ Hv' Hu Eid)).
    + left. destruct (Remove_lookup_from (w_mgr w) r r' v Hv) as (v' & Hv' & _ & Es).
      exists id, r', v', psi, s. cbn [w_mgr with_mgr]. rewrite Ei, lookup_delete_ne, Es by done. done.
  - intros r' u' psi s (v & Hv & _ & ->)%Remove_lookup. eauto.
  - intros r' u' (v & Hv & -> & _)%Remove_lookup. eauto.
  - intros id r'. rewrite lookup_delete_Some. intros [_ (v & Hv & <-)%B4].
    destruct (Remove_lookup_from (w_mgr w) r r' v Hv) as (v' & Hv' & ? & _). eauto.
  - intros r1 r2 u1 u2 (v1 & H1 & -> & _)%Remove_lookup (v2 & H2 & -> & _)%Remove_lookup. eauto.
  - intros r' u' psi st s (v & Hv & E & ->)%Remove_lookup. unfold key_of. rewrite E. eauto.
Qed.

Lemma keeps_releaseDisplaced r : Keeps (releaseDisplacedContext h r).
Proof.
  unfold releaseDisplacedContext. apply keeps_bind; [apply keeps_frame; frame|]. intros _.
  apply keeps_get_bind. intros w u Hw Hu.
  destruct (deleteAll_run (map_to_list (ue_PDUSessions u)) w) as (w1 & E & Hf & Hm & Hd).
  rewrite (bind_run _ _ _ _ _ E). unfold on_mgr. cbn [fst]. apply (books_remove w1 r u).
  - by eapply books_framed.
  - by rewrite Hm.
  - intros psi s Hs. by eapply Hd, elem_of_map_to_list.
Qed.

(** ** Messages *)

Hypothesis reachable_keeps : ∀ f, hd_onUEReachable h = Some f → keeps_sess f.
Hypothesis short_answers : smf_short.

Lemma keeps_handleServiceRequest r body : Keeps (handleServiceRequest h r body).
Proof.
  unfold handleServiceRequest. destruct body; try (apply keeps_frame, frame_fail).
  apply keeps_bind; [apply keeps_frame, frame_get|]. intros u. cbv zeta.
  apply keeps_bind; [apply keeps_frame, frame_upd, SetKgNB_sess|]. intros _.
  apply keeps_bind; [apply keeps_releaseInactive|]. intros released.
  apply keeps_bind; [apply keeps_frame, frame_activatePDUSessions|]. intros items.
  apply keeps_frame. frame; try apply frame_secured; try apply frame_contextSetup.
Qed.

Lemma keeps_handleDeregistration r body : Keeps (handleDeregistration h r body).
Proof.
  unfold handleDeregistration. destruct body; try (apply keeps_frame, frame_fail).
  apply keeps_bind; [apply keeps_frame; frame|]. intros _.
  apply keeps_bind; [apply keeps_frame; frame; apply frame_via_downlink|]. intros _. apply keeps_teardown.
Qed.

(** The session a message asks to establish. *)
Definition establishes_ul (t : ULNASTransport) : option Z :=
  if (ul_PayloadContainerType t =? PayloadContainerTypeUEPolicy) || (ul_PayloadContainerType t =? PayloadContainerTypeSMS)
     || (ul_PayloadContainerType t =? PayloadContainerTypeLPP) then None
  else match ul_PayloadContainer t with
       | _ :: psi :: _ :: msgType :: _ =>
           if msgType =? MsgTypePDUSessionEstablishmentRequest then Some (default psi (ul_PDUSessionID t)) else None
       | _ => None
       end.

Definition establishes (u : UEContext) (pdu : bytes) : option Z :=
  match receiveNAS (ue_SecurityCtx u) pdu with
  | Ok (_, Ok msg) =>
      match msg_Body msg with
      | BULNASTransport t =>
          if MessageType (msg_Header msg) =? MsgTypeULNASTransport then establishes_ul t else None
      | _ => None
      end
  | _ => None
  end.

(** A request for a new session is answered over a security context, on a UE the
    manager knows, and not while the network releases a session of that
    identifier. *)
Definition may_establish w (r : loc) (u : UEContext) (psi : Z) : Prop :=
  keys_ok u ∧ w_pendingRelease w !! key_of u psi = None ∧ ∃ id, uesByNGAPId (w_mgr w) !! id = Some r.

Lemma books_handleULNASTransport r u body w :
  books w → ues (w_mgr w) !! r = Some u →
  (∀ t psi, body = BULNASTransport t → establishes_ul t = Some psi → may_establish w r u psi) →
  books (handleULNASTransport h r body w).1.
Proof.
  intros Hw Hu Hg. unfold handleULNASTransport. destruct body; try done.
  specialize (Hg b). unfold establishes_ul in Hg.
  destruct (ul_PayloadContainerType b =? PayloadContainerTypeUEPolicy); [done|].
  destruct (ul_PayloadContainerType b =? PayloadContainerTypeSMS); [by apply (keeps_frame _ (frame_handleULSMS h r _))|].
  destruct (ul_PayloadContainerType b =? PayloadContainerTypeLPP); [by apply (keeps_frame _ (frame_handleULLPP h r _))|].
  cbn [orb] in Hg. destruct (ul_PayloadContainer b) as [|e [|psi [|pti [|mt rest]]]] eqn:Ec; try done.
  rewrite <- Ec in *. cbv zeta in *. destruct (mt =? MsgTypePDUSessionEstablishmentRequest).
  { destruct (Hg _ eq_refl eq_refl) as (Hk & Hp & id & Hid). by eapply books_handleEstablishment. }
  destruct (mt =? MsgTypePDUSessionReleaseRequest); [by apply keeps_handlePDUSessionRelease|].
  destruct (mt =? MsgTypePDUSessionReleaseComplete); [by apply keeps_complete|].
  destruct (mt =? MsgTypePDUSessionModificationRequest); [|done].
  by apply (keeps_frame _ (frame_handlePDUSessionModification h r _ _)).
Qed.

Lemma receiveNAS_keys sc pdu sc' m :
  receiveNAS sc pdu = Ok (sc', m) → sc_KNASint sc' = sc_KNASint sc ∧ sc_KNASenc sc' = sc_KNASenc sc.
Proof.
  unfold receiveNAS. destruct (if sc_Active sc && _ then _ else _) as [[]| | |]; try done; cbn [mbind res_bind].
  - unfold unwrapNASSecurity. destruct (length pdu <? 7)%nat; [done|].
    destruct (idx pdu 1); [|done..]. cbn [mbind res_bind]. destruct (slice pdu 2 6); [|done..]. cbn [mbind res_bind].
    destruct (idx pdu 6); [|done..]. cbn [mbind res_bind]. destruct (slice_from pdu 7); [|done..]. cbn [mbind res_bind].
    destruct (if is_ciphered _ && _ then _ else _); [|done..]. cbn [mbind res_bind].
    destruct (slice pdu 0 7); [|done..]. cbn [mbind res_bind]. by intros [= <- _].
  - by intros [= <- _].
Qed.

(** Any other message keeps the books. *)
Lemma keeps_dispatchNAS r msg :
  (MessageType (msg_Header msg) =? MsgTypeULNASTransport) = false → Keeps (dispatchNAS h r msg).
Proof.
  intros Hul. unfold dispatchNAS. cbv zeta. rewrite Hul.
  repeat case_match;
    first [ apply keeps_frame; solve [ apply frame_fail
            | apply frame_handleRegistrationRequest, reachable_keeps
            | apply frame_handleAuthenticationResponse | apply frame_handleAuthenticationFailure
            | apply frame_handleSecurityModeComplete | apply frame_handleSecurityModeReject
            | apply frame_handleRegistrationComplete, reachable_keeps
            | apply frame_handleIdentityResponse | apply frame_handleNSSAAComplete
            | frame ]
          | apply keeps_handleDeregistration | apply keeps_teardown | apply keeps_handleServiceRequest ].
Qed.

Lemma books_HandleNASMessage r pdu w :
  books w →
  (∀ u psi, ues (w_mgr w) !! r = Some u → establishes u pdu = Some psi → may_establish w r u psi) →
  books (HandleNASMessage h r pdu w).1.
Proof.
  intros Hw Hg. unfold HandleNASMessage. unfold mbind at 1, M_bind at 1, get, deref.
  destruct (ues (w_mgr w) !! r) as [u|] eqn:Hu; [|done]. specialize (Hg u). unfold establishes in Hg.
  unfold mbind at 1, M_bind at 1, lift at 1. destruct (receiveNAS (ue_SecurityCtx u) pdu) as [[sc msg]| | |] eqn:Er; try done.
  erewrite bind_run by reflexivity. set (w1 := with_mgr _ w).
  assert (books w1) as Hw1 by (by apply (books_framed w); [apply framed_mgr, write_keeps|]).
  assert (ues (w_mgr w1) !! r = Some (set_SecurityCtx sc u)) as Hu1 by apply (ues_upd _ _ _ _ Hu).
  unfold mbind, M_bind, lift. destruct msg as [msg| | |]; try done.
  destruct (MessageType (msg_Header msg) =? MsgTypeULNASTransport) eqn:Hul; [|by apply keeps_dispatchNAS].
  assert (dispatchNAS h r msg = handleULNASTransport h r (msg_Body msg)) as ->.
  { unfold dispatchNAS. cbv zeta. apply Z.eqb_eq in Hul. by rewrite Hul. }
  apply (books_handleULNASTransport r (set_SecurityCtx sc u)); [done|done|].
  intros t psi Eb Ep. rewrite Eb in Hg. destruct (Hg psi eq_refl Ep) as ((Hki & Hke) & Hp & Hid).
  destruct (receiveNAS_keys _ _ _ _ Er) as [Ki Ke]. split; [|done]. split; cbn; congruence.
Qed.

(** ** The system *)

Inductive amf_event :=
| EvAllocate (ranID : Z)                              (* a UE appears at a gNB *)
| EvNAS (r : loc) (pdu : bytes)                       (* a NAS message arrives *)
| EvTask (i : nat)                                    (* a goroutine runs *)
| EvGuard (g : nat)                                   (* a release guard timer fires *)
| EvNetworkRelease (r : loc) (psi : Z)                (* operator actions *)
| EvQoS (r : loc) (psi fiveQI ambrDL ambrUL : Z)
| EvDeregister (r : loc) (cause accessType : Z) (rereg : bool)
| EvRevoke (r : loc) (sst : Z) (sd : string)
| EvReauth (r : loc) (sst : Z) (sd : string)
| EvPolicy (r : loc) (container : bytes)
| EvLPP (r : loc) (pdu : bytes)
| EvTime (t : Z).

Definition handle_event (e : amf_event) w : World D C :=
  match e with
  | EvAllocate ranID => with_mgr (AllocateUEContext (w_mgr w) ranID (w_clock w)).1 w
  | EvNAS r pdu => (HandleNASMessage h r pdu w).1
  | EvTask i =>
      match w_tasks w !! i with
      | Some t => (run_task h t (with_tasks (delete i (w_tasks w)) w)).1
      | None => w
      end
  | EvGuard g =>
      match w_guards w !! g with
      | Some (r, psi) =>
          (completeNetworkPDUSessionRelease h r psi (with_release (w_pendingRelease w) (delete g (w_guards w)) w)).1
      | None => w
      end
  | EvNetworkRelease r psi => (InitiateNetworkPDUSessionRelease h r psi w).1
  | EvQoS r psi q dl ul => (InitiateNetworkQoSModification h r psi q dl ul w).1
  | EvDeregister r cause access rereg => (SendNetworkDeregistration h r cause access rereg w).1
  | EvRevoke r sst sd => (RevokeNSSAASlice h r sst sd w).1
  | EvReauth r sst sd => (ReauthNSSAASlice h r sst sd w).1
  | EvPolicy r c => (SendUEPolicyContainer h r c w).1
  | EvLPP r pdu => (SendDownlinkLPP h r pdu w).1
  | EvTime t => mkWorld (w_mgr w) (w_pendingRelease w) (w_guards w) (w_pendingLPP w) (w_chans w) (w_tasks w) (w_calls w) t
  end.

Definition event_allowed w (e : amf_event) : Prop :=
  match e with
  | EvAllocate _ => 0 <= ngapIDCounter (w_mgr w) < 9223372036854775807
  | EvNAS r pdu =>
      ∀ u psi, ues (w_mgr w) !! r = Some u → establishes u pdu = Some psi → may_establish w r u psi
  | _ => True
  end.

Inductive reaches : World D C → World D C → Prop :=
| reaches_refl w : reaches w w
| reaches_step w e w' : event_allowed w e → reaches (handle_event e w) w' → reaches w w'.

Lemma books_allocate w ranID :
  0 <= ngapIDCounter (w_mgr w) < 9223372036854775807 → books w → books (handle_event (EvAllocate ranID) w).
Proof.
  intros Hc [B1 B2 B3 B4 B5 B6]. cbn [handle_event]. unfold AllocateUEContext. cbn [fst].
  rewrite i64_small by (unfold is_i64; lia). set (r := fresh (dom (ues (w_mgr w)))).
  assert (ues (w_mgr w) !! r = None) as Hr by (apply not_elem_of_dom, is_fresh).
  split; cbn [w_mgr with_mgr ues uesByNGAPId ngapIDCounter w_pendingRelease].
  - intros ref Hcr Hn. change (created w ref) in Hcr. destruct (B1 ref Hcr Hn) as [H|H]; [left|by right].
    destruct H as (id & r' & u & psi & s & Hi & Hu & Hs & <-). exists id, r', u, psi, s.
    cbn [w_mgr with_mgr ues uesByNGAPId]. rewrite !lookup_insert_ne; [done|congruence|].
    destruct (B4 _ _ Hi) as (v & Hv & <-). apply B3 in Hv. lia.
  - intros r' u psi s. rewrite lookup_insert_Some. intros [[_ <-]|[_ Hu]]; [done|eauto].
  - intros r' u. rewrite lookup_insert_Some. intros [[_ <-]|[_ Hu]]; [cbn; lia|]. apply B3 in Hu. lia.
  - intros id r'. rewrite lookup_insert_Some. intros [[<- <-]|[_ (u & Hu & <-)%B4]].
    + eexists. by rewrite lookup_insert_eq.
    + exists u. split; [|done]. rewrite lookup_insert_ne; congruence.
  - intros r1 r2 u1 u2. rewrite !lookup_insert_Some. intros [[<- <-]|[_ H1]] [[<- <-]|[_ H2]]; cbn; try done.
    + apply B3 in H2. lia.
    + apply B3 in H1. lia.
    + eauto.
  - intros r' u psi st s. rewrite lookup_insert_Some. intros [[_ <-]|[_ Hu]]; [done|eauto].
Qed.

(** The books only look at these parts of a state. *)
Lemma books_same w w0 :
  books w → w_mgr w0 = w_mgr w → w_pendingRelease w0 = w_pendingRelease w →
  (∀ ref, created w0 ref → created w ref) → (∀ ref, deleted w ref → deleted w0 ref) → books w0.
Proof.
  intros [B1 B2 B3 B4 B5 B6] Hm Hp Hc Hd. split; rewrite ?Hm, ?Hp; try done.
  intros ref Hr Hn. destruct (B1 ref (Hc ref Hr) Hn) as [H|H]; [left|right; by apply Hd]. unfold held. by rewrite Hm.
Qed.

Lemma elem_of_delete_other {A} (l : list A) i x t :
  l !! i = Some t → x ∈ l → x ≠ t → x ∈ delete i l.
Proof.
  intros Hi Hx Hne. rewrite delete_take_drop. rewrite <- (take_drop_middle l i t Hi) in Hx.
  rewrite elem_of_app, elem_of_cons in Hx. rewrite elem_of_app. naive_solver.
Qed.

Lemma books_task i t w :
  books w → w_tasks w !! i = Some t → books (run_task h t (with_tasks (delete i (w_tasks w)) w)).1.
Proof.
  intros Hw Hi.
  assert (∀ x ref, deleted w ref → t = x → x ≠ DeleteSM ref → deleted (with_tasks (delete i (w_tasks w)) w) ref) as Hd.
  { intros x ref [H|H] <- Hne; [by left|right]. cbn. eapply elem_of_delete_other; [done|done|]. congruence. }
  destruct t as [r|r psi|ref]; cbn [run_task].
  - apply keeps_releaseDisplaced, (books_same w); try done. intros ref H. by eapply Hd.
  - apply keeps_complete, (books_same w); try done. intros ref H. by eapply Hd.
  - apply (books_same w); try done.
    + intros ref' (c & Hc & Hr). cbn in Hc. rewrite elem_of_app, list_elem_of_singleton in Hc.
      destruct Hc as [Hc| ->]; [by exists c|done].
    + intros ref' H. destruct (decide (ref' = ref)) as [->|Hne].
      * left. cbn. apply elem_of_app. right. set_solver.
      * destruct (Hd _ ref' H eq_refl) as [H'|H']; [congruence|left|by right]. cbn. apply elem_of_app. by left.
Qed.

Lemma books_step e w : event_allowed w e → books w → books (handle_event e w).
Proof.
  destruct e as [ranID|r pdu|i|g|r psi|r psi q dl ul|r c a b|r sst sd|r sst sd|r c|r pdu|t]; intros He Hw;
    [by apply books_allocate| | | | | | | | | | |]; cbn [handle_event event_allowed] in *.
  - by apply books_HandleNASMessage.
  - destruct (w_tasks w !! i) as [t|] eqn:Ht; [|done]. by apply books_task.
  - destruct (w_guards w !! g) as [[r psi]|]; [|done]. apply keeps_complete, (books_same w); done.
  - by apply keeps_InitiateNetworkPDUSessionRelease.
  - by apply (keeps_frame _ (frame_InitiateNetworkQoSModification h r psi q dl ul)).
  - by apply (keeps_frame _ (frame_SendNetworkDeregistration h r c a b)).
  - by apply (keeps_frame _ (frame_RevokeNSSAASlice h r sst sd)).
  - by apply (keeps_frame _ (frame_ReauthNSSAASlice h r sst sd)).
  - by apply (keeps_frame _ (frame_SendUEPolicyContainer h r c)).
  - by apply (keeps_frame _ (frame_SendDownlinkLPP h r pdu)).
  - apply (books_same w); done.
Qed.

Lemma books_reaches w w' : reaches w w' → books w → books w'.
Proof. induction 1; [done|]. intros. apply IHreaches. by apply books_step. Qed.
End Books.

(** * Results *)

(** C28: no SM context is lost, provided the AMF can delete contexts, the SMF answers with
    messages that fit into the transport, and a session is only requested by a UE that is
    known and has a security context, and not while the network is releasing a session
    of the same identifier ([unauthenticated_session_lost] and
    [late_release_drops_new_session] show the losses otherwise).  Then, from an AMF with
    nothing to account for, over any sequence of NAS messages, goroutines, release guard
    timers and operator actions, a context that the SMF has created is held in a session
    of a UE the AMF can reach, or its deletion has been requested, or a goroutine is going
    to request it. *)
Theorem sm_contexts_accounted {D C} `{!Store D, !Cache C} h (w w' : World D C) ref :
  hd_canDelete h = true → (∀ f, hd_onUEReachable h = Some f → keeps_sess f) → smf_short h →
  books h w → reaches h w w' → created h w' ref → ref ≠ "" → held w' ref ∨ deleted w' ref.
Proof. intros Hd Hr Hs Hw Hww. apply bk_accounted. by eapply books_reaches. Qed.

(** An AMF that has just started has nothing to account for. *)
Lemma books_start {D C} `{!Store D, !Cache C} h (w : World D C) :
  ues (w_mgr w) = ∅ → uesByNGAPId (w_mgr w) = ∅ → w_calls w = [] → books h w.
Proof.
  intros Hu Hi Hc. split; rewrite ?Hu, ?Hi; try (intros; by simplify_map_eq).
  intros ref (c & Hin & _). rewrite Hc in Hin. by apply elem_of_nil in Hin.
Qed.

Definition demo_plain (t : ULNASTransport) : bytes :=
  match sendNASPlain PDMobilityManagement MsgTypeULNASTransport (BULNASTransport t) with Ok p => p | _ => [] end.
Definition demo_ue_pdu (count : Z) (t : ULNASTransport) : bytes :=
  match ue_protect (mkPeer (replicate 16 3) (replicate 16 5) 2 2 count 0) SecurityHeaderIntegrityProtectedAndCiphered
          (demo_plain t) with
  | Ok (_, pdu) => pdu
  | _ => []
  end.
Definition demo_establish (psi : Z) : ULNASTransport :=
  mkULNASTransport PayloadContainerTypeN1SM [46; psi; 1; MsgTypePDUSessionEstablishmentRequest; 255; 255]
    (Some psi) (Some 1) None None.
Definition demo_smf : Handler :=
  mkHandler demo_handler (λ _, true) true
    (Some (λ _ _ psi _ _, Some (if psi =? 9 then "nine" else "eight", [psi], []))) None
    None None false (Some StopUETimers) [] [].
Definition run_events (w : World (gmap string UERecord) (Z * list bool)) (es : list amf_event) :=
  fold_left (λ w e, handle_event demo_smf e w) es w.

(** Session 9 is established, released by the network and its guard timer fires;
    session 8 is established. *)
Definition demo_sessions : list amf_event :=
  [EvNAS 1%positive (demo_ue_pdu 1 (demo_establish 9)); EvNetworkRelease 1%positive 9; EvGuard 0;
   EvNAS 1%positive (demo_ue_pdu 2 (demo_establish 8))].

Lemma demo_smf_short : smf_short demo_smf.
Proof. intros create supi dnn psi n1 s ref body n2 [= <-] [= _ <- _]. cbn [length]. lia. Qed.

Lemma demo_books u : (∀ psi s, ue_PDUSessions u !! psi = Some s → ps_PDUSessionID s = psi) → ue_AMFUENGAPId u = 1 →
  books demo_smf (demo_world u).
Proof.
  intros Hs Hid. split; unfold demo_world; cbn [w_mgr ues uesByNGAPId w_calls w_pendingRelease ngapIDCounter].
  - intros ref (c & Hin & _). by apply elem_of_nil in Hin.
  - intros r v psi s [_ <-]%lookup_singleton_Some. apply Hs.
  - intros r v [_ <-]%lookup_singleton_Some. lia.
  - intros id r [<- <-]%lookup_singleton_Some. exists u. by rewrite lookup_singleton_eq.
  - by intros r1 r2 u1 u2 [<- _]%lookup_singleton_Some [<- _]%lookup_singleton_Some.
  - done.
Qed.

Lemma demo_keyed psi s : ue_PDUSessions demo_context !! psi = Some s → ps_PDUSessionID s = psi.
Proof.
  unfold demo_context. cbn [ue_PDUSessions set_paged set_PDUSessions].
  rewrite !lookup_insert_Some, lookup_singleton_Some. naive_solver.
Qed.

Fixpoint all_allowed (w : World (gmap string UERecord) (Z * list bool)) (es : list amf_event) : Prop :=
  match es with
  | [] => True
  | e :: es => event_allowed w e ∧ all_allowed (handle_event demo_smf e w) es
  end.

Lemma run_reaches es : ∀ w, all_allowed w es → reaches demo_smf w (run_events w es).
Proof.
  induction es as [|e es IH]; intros w H; [constructor|]. destruct H as [He H].
  eapply reaches_step; [exact He|]. by apply IH.
Qed.

Lemma demo_reaches : reaches demo_smf (demo_world demo_context) (run_events (demo_world demo_context) demo_sessions).
Proof.
  apply run_reaches. unfold demo_sessions. cbn [all_allowed]. split_and!; try exact I;
    intros u psi Hu He; vm_compute in Hu; injection Hu as <-; vm_compute in He; injection He as <-;
    (split; [by split; vm_compute|split; [by vm_compute|exists 1; by vm_compute]]).
Qed.

(** The references created so far. *)
Lemma demo_created (w : World (gmap string UERecord) (Z * list bool)) ref : bool_decide (Some ref ∈ created_by demo_smf <$> w_calls w) = true → created demo_smf w ref.
Proof. intros (c & E & Hc)%bool_decide_eq_true%list_elem_of_fmap. by exists c. Qed.

Lemma sm_contexts_accounted_witness :
  let w := run_events (demo_world demo_context) demo_sessions in
  (created demo_smf w "nine" ∧ (held w "nine" ∨ deleted w "nine")) ∧
  (created demo_smf w "eight" ∧ (held w "eight" ∨ deleted w "eight")).
Proof.
  intros w.
  assert (∀ ref, created demo_smf w ref → ref ≠ "" → held w ref ∨ deleted w ref) as H.
  { intros ref. apply (sm_contexts_accounted demo_smf (demo_world demo_context) w ref);
      [reflexivity|by intros f [= <-]|exact demo_smf_short|apply demo_books; [exact demo_keyed|reflexivity]|exact demo_reaches]. }
  split; (split; [|apply H; [|discriminate]]); apply demo_created; vm_compute; reflexivity.
Defined.

(** The completion of a network release, by the UE's Release Complete or by the
    guard timer, removes the session with that identifier, whichever it is: when
    the UE has re-established the session meanwhile, the new session is removed
    and only the old SM context is deleted at the SMF. *)
Lemma late_release_drops_new_session {D C} `{!Store D, !Cache C} h r u psi st s (w : World D C) :
  ues (w_mgr w) !! r = Some u → w_pendingRelease w !! key_of u psi = Some st →
  ue_PDUSessions u !! psi = Some s → ps_SMFInstanceID s ≠ pl_smContextRef st →
  ∃ w', completeNetworkPDUSessionRelease h r psi w = (w', Ok tt) ∧
    (∃ u', ues (w_mgr w') !! r = Some u' ∧ ue_PDUSessions u' = delete psi (ue_PDUSessions u)) ∧
    (deleted w' (ps_SMFInstanceID s) → deleted w (ps_SMFInstanceID s)).
Proof.
  intros Hu Hp Hs Hne. unfold completeNetworkPDUSessionRelease. rewrite (bind_run _ _ _ _ _ (get_run _ _ _ Hu)).
  erewrite bind_run by reflexivity. rewrite Hp. erewrite bind_run by reflexivity. set (w1 := with_release _ _ w).
  assert (∃ w2, deleteSM h (pl_smContextRef st) w1 = (w2, Ok tt) ∧ w_mgr w2 = w_mgr w ∧ w_tasks w2 = w_tasks w ∧
    ∀ c, c ∈ w_calls w2 → c ∈ w_calls w ∨ c = DeleteSMContext (pl_smContextRef st)) as (w2 & E & Hm & Ht & Hc).
  { unfold deleteSM. destruct (_ && _); eexists; split_and!; try reflexivity; cbn; [|by left].
    intros c. rewrite elem_of_app, list_elem_of_singleton. tauto. }
  rewrite (bind_run _ _ _ _ _ E). rewrite (bind_run _ _ w2 (dropSession r psi w2).1 tt) by reflexivity.
  eexists. split; [reflexivity|]. split_and!.
  - cbn [persist on_mgr fst w_mgr with_mgr dropSession upd]. rewrite ues_PersistUE, Hm. eexists.
    split; [apply (ues_upd _ _ _ _ Hu)|done].
  - intros [Hin|Hin]; [|right; by rewrite <- Ht]. apply Hc in Hin as [?|[= E2]]; [by left|]. by destruct Hne.
Qed.

(** The network releases session 9; before the UE answers, it establishes the
    session again, with the SM context "nine". *)
Definition demo_nine : UEContext :=
  set_PDUSessions {[9 := demo_session 9 "old"]} demo_context.
Definition deletions : list call → list string := omap (λ c, match c with DeleteSMContext ref => Some ref | _ => None end).
Definition demo_late : World (gmap string UERecord) (Z * list bool) :=
  run_events (demo_world demo_nine)
    [EvNetworkRelease 1%positive 9; EvNAS 1%positive (demo_ue_pdu 1 (demo_establish 9))].

(** Nothing can be protected without an integrity key. *)
Lemma n1sm_fails {D C} `{!Store D, !Cache C} r psi c u (w : World D C) :
  ues (w_mgr w) !! r = Some u → ue_SecurityCtx u = noSecurity → ∃ e, n1sm r psi c w = (w, Err e).
Proof.
  intros Hu Hs. unfold n1sm, secured. rewrite (bind_run _ _ _ _ _ (get_run _ _ _ Hu)). rewrite Hs.
  assert (∃ e, sendNASSecured noSecurity PDMobilityManagement MsgTypeDLNASTransport
    (BDLNASTransport (mkDLNASTransport PayloadContainerTypeN1SM c (Some psi) None None)) = Err e) as [e E].
  { unfold sendNASSecured, sendNASPlain, Encode. cbn [msg_Header msg_Body MessageType].
    change (encodeBody MsgTypeDLNASTransport (BDLNASTransport ?m)) with (EncodeDLNASTransport m).
    unfold EncodeDLNASTransport. cbn [dl_PayloadContainer].
    destruct (65535 <? Z.of_nat (length c)); [by eexists|]. eexists. reflexivity. }
  exists e. unfold mbind, M_bind, lift. by rewrite E.
Qed.

(** A UE that has not been authenticated can make the AMF create SM contexts
    that nobody deletes.  On the context of a first message, an establishment
    request makes the AMF call the SMF with an empty SUPI; the answer cannot be
    protected without keys, so the handler fails and the session is not stored. *)
Lemma unauthenticated_session_lost {D C} `{!Store D, !Cache C} h r id ranID now pdu hdr t psi create ref n1 n2 (w : World D C) :
  let dnn := session_dnn (ul_DNN t) (resolveSessionSNSSAI (ul_SNSSAI t) []).1 in
  let snssai := (resolveSessionSNSSAI (ul_SNSSAI t) []).1 in
  ues (w_mgr w) !! r = Some (newUE id ranID now) →
  Decode pdu = Ok (mkMessage hdr (BULNASTransport t)) → MessageType hdr = MsgTypeULNASTransport →
  establishes_ul t = Some psi → psi ≠ 0 →
  (∃ req, DecodePDUSessionEstablishmentRequest (drop 4 (ul_PayloadContainer t)) = Ok req) →
  hd_CallSMF h = Some create → create "" dnn psi (ul_PayloadContainer t) snssai = Some (ref, n1, n2) →
  ∃ w' e, HandleNASMessage h r pdu w = (w', Err e) ∧
    w_calls w' = w_calls w ++ [CallSMF "" dnn psi (ul_PayloadContainer t) snssai] ∧
    ues (w_mgr w') !! r = Some (newUE id ranID now) ∧ w_tasks w' = w_tasks w.
Proof.
  intros dnn snssai Hu Hd Ht He Hpsi [req Hreq] Hc Hcr.
  unfold HandleNASMessage. rewrite (bind_run _ _ _ _ _ (get_run _ _ _ Hu)).
  assert (receiveNAS (ue_SecurityCtx (newUE id ranID now)) pdu
    = Ok (ue_SecurityCtx (newUE id ranID now), Ok (mkMessage hdr (BULNASTransport t)))) as Er.
  { unfold receiveNAS. cbn [newUE ue_SecurityCtx sc_Active andb mbind res_bind]. by rewrite Hd. }
  erewrite bind_run by (unfold lift; rewrite Er; reflexivity). cbv beta iota. erewrite bind_run by reflexivity.
  set (w1 := with_mgr _ w).
  assert (ues (w_mgr w1) !! r = Some (newUE id ranID now)) as Hu1 by (apply (ues_upd _ _ (set_SecurityCtx (ue_SecurityCtx (newUE id ranID now))) _ Hu)).
  erewrite bind_run by reflexivity.
  assert (dispatchNAS h r (mkMessage hdr (BULNASTransport t)) = handleULNASTransport h r (BULNASTransport t)) as ->.
  { unfold dispatchNAS. cbn [msg_Header msg_Body]. by rewrite Ht. }
  unfold establishes_ul in He. unfold handleULNASTransport.
  destruct (ul_PayloadContainerType t =? PayloadContainerTypeUEPolicy); [done|].
  destruct (ul_PayloadContainerType t =? PayloadContainerTypeSMS); [done|].
  destruct (ul_PayloadContainerType t =? PayloadContainerTypeLPP); [done|]. cbn [orb] in He.
  destruct (ul_PayloadContainer t) as [|e [|psi0 [|pti [|mt rest]]]] eqn:Ec; try done. rewrite <- Ec in *. cbv zeta.
  destruct (mt =? MsgTypePDUSessionEstablishmentRequest); [|done]. injection He as ->.
  unfold handleEstablishment. rewrite (bind_run _ _ w1 w1 tt)
    by (unfold releaseExisting; by rewrite (bind_run _ _ _ _ _ (get_run _ _ _ Hu1))).
  rewrite (bind_run _ _ w1 w1 (Ok req)) by (unfold try, lift; by rewrite Hreq). cbv beta iota. rewrite (bind_run _ _ _ _ _ (get_run _ _ _ Hu1)).
  cbn [newUE ue_AllowedNSSAI].
  assert (resolveSessionSNSSAI (ul_SNSSAI t) [] = (snssai, true)) as -> by (unfold snssai; by destruct (ul_SNSSAI t)).
  apply Z.eqb_neq in Hpsi. rewrite Hpsi. cbn [negb]. unfold createSession. rewrite Hc.
  rewrite (bind_run _ _ _ _ _ (get_run _ _ _ Hu1)). erewrite bind_run by reflexivity. cbn [newUE ue_SUPI].
  change (session_dnn (ul_DNN t) snssai) with dnn. rewrite Hcr. set (w2 := with_calls _ w1).
  destruct (n1sm_fails r psi (WrapPDUSessionEstablishmentAcceptBody psi pti n1) (newUE id ranID now) w2) as [er Ef]; [done|done|].
  exists w2, er. split; [|done]. unfold mbind, M_bind. by rewrite Ef.
Qed.

Definition demo_new : UEContext := newUE 1 1 0.
