(* ===== verification/LppUper.v ===== *)
(** The unaligned PER bit codec of [shared/lpp/uper.go]: the bit writer and
    reader, constrained numbers, extensible enumerations and the extension
    additions of a SEQUENCE; what each of them writes and reads as a list of
    bits. *)

From S2P Require Import Prelude.

Create HintDb uper.

(** * State and errors *)

(** A method on a shared buffer that may fail. *)
Definition ST (S A : Type) : Type := S → res (A * S).

#[global] Instance ST_ret S : MRet (ST S) := λ A a s, Ok (a, s).
#[global] Instance ST_bind S : MBind (ST S) := λ A B f m s,
  match m s with Ok (a, s') => f a s' | Err e => Err e | Panic => Panic | OutOfFuel => OutOfFuel end.

Definition throw {S A} (msg : string) : ST S A := λ _, Err msg.
Definition lift_res {S A} (m : res A) : ST S A := λ s, a ← m; Ok (a, s).

(** [fmt.Errorf("...: %w", err)] *)
Definition wrap {S A} (msg : string) (m : ST S A) : ST S A := λ s,
  match m s with Err _ => Err msg | r => r end.

Fixpoint repeat_do {S A} (n : nat) (m : ST S A) : ST S (list A) :=
  match n with
  | O => mret []
  | S n => a ← m; l ← repeat_do n m; mret (a :: l)
  end.

(** * Widths *)

(** [bits.Len64] *)
Definition Len64 (x : Z) : Z := if x =? 0 then 0 else Z.log2 x + 1.
Definition bitWidth (n : Z) : nat := if n <=? 1 then 0%nat else Z.to_nat (Len64 (n - 1)).

(** * The writer *)

Record bitWriter := mkBitWriter { wr_buf : bytes; wr_bitLen : nat }.

Definition writeBit (b : Z) : ST bitWriter unit := λ w,
  let buf := if (wr_bitLen w mod 8 =? 0)%nat then wr_buf w ++ [0] else wr_buf w in
  buf ← (if b =? 0 then Ok buf
         else o ← idx buf (wr_bitLen w / 8);
              Ok (<[(wr_bitLen w / 8)%nat := Z.lor o (128 ≫ Z.of_nat (wr_bitLen w mod 8))]> buf));
  Ok (tt, mkBitWriter buf (S (wr_bitLen w))).

Fixpoint writeBits (v : Z) (n : nat) : ST bitWriter unit :=
  match n with
  | O => mret tt
  | S i => _ ← writeBit (Z.land (v ≫ Z.of_nat i) 1); writeBits v i
  end.

Definition writeBool (b : bool) : ST bitWriter unit := writeBit (if b then 1 else 0).

Definition writeConstrained (v lb ub : Z) : ST bitWriter unit :=
  if (v <? lb) || (ub <? v) then throw "lpp: uper: value %d out of range [%d, %d]"
  else writeBits (u64 (v - lb)) (bitWidth (u64 (ub - lb + 1))).

Definition writeEnumExt (v rootCount : Z) : ST bitWriter unit :=
  _ ← writeBit 0; writeBits v (bitWidth rootCount).

(** [bytes] *)
Definition wr_bytes (w : bitWriter) : bytes := if (wr_bitLen w =? 0)%nat then [] else wr_buf w.

(** * The reader *)

Record bitReader := mkBitReader { rd_buf : bytes; rd_pos : nat }.

Definition errTruncated : string := "lpp: uper: truncated bit stream".

Definition readBit : ST bitReader Z := λ r,
  if (length (rd_buf r) * 8 <=? rd_pos r)%nat then Err errTruncated
  else
    o ← idx (rd_buf r) (rd_pos r / 8);
    Ok (Z.land (o ≫ (7 - Z.of_nat (rd_pos r mod 8))) 1, mkBitReader (rd_buf r) (S (rd_pos r))).

Fixpoint readBits_loop (n : nat) (v : Z) : ST bitReader Z :=
  match n with
  | O => mret v
  | S n => b ← readBit; readBits_loop n (u64 (Z.lor (v ≪ 1) b))
  end.
Definition readBits (n : nat) : ST bitReader Z := readBits_loop n 0.

Definition readBool : ST bitReader bool := b ← readBit; mret (b =? 1).

Definition readConstrained (lb ub : Z) : ST bitReader Z :=
  v ← readBits (bitWidth (u64 (ub - lb + 1)));
  let out := i64 (lb + i64 v) in
  if ub <? out then throw "lpp: uper: decoded value %d exceeds upper bound %d" else mret out.

Definition readNormallySmall : ST bitReader Z :=
  big ← readBit;
  if big =? 1 then throw "lpp: uper: normally-small number >= 64 not supported" else readBits 6.

Definition readEnumExt (rootCount : Z) : ST bitReader Z :=
  ext ← readBit;
  if ext =? 0 then readBits (bitWidth rootCount)
  else small ← readNormallySmall; mret (u64 (rootCount + small)).

Definition readGeneralLength : ST bitReader Z :=
  b ← readBits 8;
  if Z.land b 0x80 =? 0 then mret b
  else if Z.land b 0x40 =? 0 then b2 ← readBits 8; mret (Z.lor (Z.land b 0x3F ≪ 8) b2)
  else throw "lpp: uper: fragmented open-type length not supported".

Definition skipOpenType : ST bitReader unit :=
  n ← readGeneralLength; _ ← readBits (Z.to_nat (n * 8)); mret tt.

Definition readPresence (n : nat) : ST bitReader (list bool) := repeat_do n (b ← readBit; mret (b =? 1)).

Fixpoint skip_present (present : list bool) : ST bitReader unit :=
  match present with
  | [] => mret tt
  | p :: present => _ ← (if p : bool then skipOpenType else mret tt); skip_present present
  end.

Definition skipSequenceExtensions : ST bitReader unit :=
  countMinus1 ← readNormallySmall;
  present ← readPresence (Z.to_nat (countMinus1 + 1));
  skip_present present.

(** * Bits *)

(** The [n] low bits of [v], most significant first; the bits of octets. *)
Fixpoint bits_of (n : nat) (v : Z) : list bool :=
  match n with
  | O => []
  | S n => Z.testbit v (Z.of_nat n) :: bits_of n v
  end.
Definition octets_bits (b : bytes) : list bool := b ≫= bits_of 8.

(** The buffer holds [l] and less than an octet of zero bits. *)
Record writer_rep (w : bitWriter) (l : list bool) : Prop := {
  wp_len : wr_bitLen w = length l;
  wp_ok : bytes_ok (wr_buf w);
  wp_bits : ∃ k, (k < 8)%nat ∧ octets_bits (wr_buf w) = l ++ replicate k false }.

Definition writes (p : ST bitWriter unit) (bs : list bool) : Prop :=
  ∀ w l, writer_rep w l → ∃ w', p w = Ok (tt, w') ∧ writer_rep w' (l ++ bs).

Definition reader_bits (r : bitReader) : list bool := drop (rd_pos r) (octets_bits (rd_buf r)).

Definition reads {A} (p : ST bitReader A) (bs : list bool) (a : A) : Prop :=
  ∀ r rest, reader_bits r = bs ++ rest → ∃ r', p r = Ok (a, r') ∧ reader_bits r' = rest.

(** ** Positions *)

Lemma length_bits_of n v : length (bits_of n v) = n.
Proof. induction n; cbn; congruence. Qed.

Lemma lookup_bits_of n v i : (i < n)%nat → bits_of n v !! i = Some (Z.testbit v (Z.of_nat (n - 1 - i))).
Proof.
  revert i. induction n as [|n IH]; intros i Hi; [lia|]. destruct i as [|i]; cbn [bits_of lookup list_lookup].
  - do 2 f_equal. lia.
  - change (bits_of n v !! i = Some (Z.testbit v (Z.of_nat (S n - 1 - S i)))). rewrite IH by lia. do 3 f_equal. lia.
Qed.

Lemma octets_bits_cons o b : octets_bits (o :: b) = bits_of 8 o ++ octets_bits b.
Proof. reflexivity. Qed.

Lemma octets_bits_app b1 b2 : octets_bits (b1 ++ b2) = octets_bits b1 ++ octets_bits b2.
Proof. apply bind_app. Qed.

Lemma length_octets_bits b : length (octets_bits b) = (8 * length b)%nat.
Proof. induction b as [|o b IH]; [done|]. rewrite octets_bits_cons, length_app, length_bits_of, IH. cbn. lia. Qed.

(** Bit [k] of a buffer is a bit of octet [k / 8]. *)
Lemma lookup_octets b k :
  octets_bits b !! k = (λ o, Z.testbit o (7 - Z.of_nat (k mod 8))) <$> b !! (k / 8)%nat.
Proof.
  revert k. induction b as [|o b IH]; intros k; [done|].
  rewrite octets_bits_cons. destruct (decide (k < 8)%nat) as [Hk|Hk].
  - rewrite lookup_app_l by (by rewrite length_bits_of). rewrite lookup_bits_of by done.
    rewrite Nat.div_small, Nat.mod_small by done. cbn. do 2 f_equal. lia.
  - rewrite lookup_app_r, length_bits_of, IH by (rewrite length_bits_of; lia).
    assert (k = k - 8 + 1 * 8)%nat as E by lia. set (k' := (k - 8)%nat) in *. clearbody k'. subst k.
    rewrite Nat.div_add, Nat.Div0.mod_add by done. by rewrite Nat.add_1_r.
Qed.

Lemma land_shiftr_1 o j : 0 <= j → Z.land (o ≫ j) 1 = Z.b2z (Z.testbit o j).
Proof.
  intros Hj. rewrite land_1, shiftr_div by done. by rewrite Z.testbit_spec' by done.
Qed.

(** ** Reading *)

Lemma drop_cons_lookup {A} (l : list A) n x rest : drop n l = x :: rest → l !! n = Some x ∧ drop (S n) l = rest.
Proof.
  intros H. split.
  - rewrite <- (Nat.add_0_r n), <- lookup_drop, H. done.
  - replace (S n) with (n + 1)%nat by lia. rewrite <- drop_drop, H. done.
Qed.

Lemma reads_readBit b : reads readBit [b] (Z.b2z b).
Proof.
  intros r rest H. unfold reader_bits in H. apply drop_cons_lookup in H as [Hl Hd].
  unfold readBit. pose proof (lookup_lt_Some _ _ _ Hl) as Hlt. rewrite length_octets_bits in Hlt.
  destruct (Nat.leb_spec (length (rd_buf r) * 8) (rd_pos r)); [lia|].
  rewrite lookup_octets in Hl. apply fmap_Some in Hl as (o & Ho & ->).
  unfold idx. rewrite Ho. cbn [mbind res_bind]. exists (mkBitReader (rd_buf r) (S (rd_pos r))). split; [|exact Hd].
  rewrite land_shiftr_1; [done|]. pose proof (Nat.mod_upper_bound (rd_pos r) 8). lia.
Qed.

Lemma reads_ret {A} (a : A) : reads (mret a) [] a.
Proof. intros r rest H. by exists r. Qed.

Lemma reads_bind {A B} (p : ST bitReader A) (f : A → ST bitReader B) b1 b2 a c :
  reads p b1 a → reads (f a) b2 c → reads (p ≫= f) (b1 ++ b2) c.
Proof.
  intros Hp Hf r rest H. rewrite <- app_assoc in H. destruct (Hp r _ H) as (r1 & E1 & H1).
  destruct (Hf r1 _ H1) as (r2 & E2 & H2). exists r2. split; [|done]. unfold mbind, ST_bind. by rewrite E1.
Qed.

Lemma reads_bind_nil {A B} (p : ST bitReader A) (f : A → ST bitReader B) bs a c :
  reads p bs a → reads (f a) [] c → reads (p ≫= f) bs c.
Proof. intros. rewrite <- (app_nil_r bs). by eapply reads_bind. Qed.

Lemma reads_wrap {A} msg (p : ST bitReader A) bs a : reads p bs a → reads (wrap msg p) bs a.
Proof. intros Hp r rest H. destruct (Hp r rest H) as (r' & E & H'). exists r'. split; [|done]. unfold wrap. by rewrite E. Qed.

Lemma reads_repeat {A} (p : ST bitReader A) (l : list (list bool * A)) :
  Forall (λ x, reads p x.1 x.2) l → reads (repeat_do (length l) p) (concat (fst <$> l)) (snd <$> l).
Proof.
  induction 1 as [|[bs a] l H Hl IH]; [apply reads_ret|]. cbn [length repeat_do fmap list_fmap concat fst snd].
  eapply reads_bind; [exact H|]. eapply reads_bind_nil; [exact IH|]. apply reads_ret.
Qed.

Definition val64 (bs : list bool) (v : Z) : Z := fold_left (λ v b, u64 (Z.lor (v ≪ 1) (Z.b2z b))) bs v.

Lemma reads_loop bs v : reads (readBits_loop (length bs) v) bs (val64 bs v).
Proof.
  revert v. induction bs as [|b bs IH]; intros v; [apply reads_ret|]. cbn [length readBits_loop].
  change (b :: bs) with ([b] ++ bs). eapply reads_bind; [apply reads_readBit|]. apply IH.
Qed.

Lemma reads_any n bs : length bs = n → reads (readBits n) bs (val64 bs 0).
Proof. intros <-. apply reads_loop. Qed.

Lemma bits_of_top n v : 0 <= v < 2 ^ Z.of_nat (S n) →
  v = Z.b2z (Z.testbit v (Z.of_nat n)) * 2 ^ Z.of_nat n + v mod 2 ^ Z.of_nat n.
Proof.
  intros Hv. rewrite Nat2Z.inj_succ, Z.pow_succ_r in Hv by lia. assert (0 < 2 ^ Z.of_nat n) by (apply Z.pow_pos_nonneg; lia).
  pose proof (Z.testbit_spec' v (Z.of_nat n) ltac:(lia)) as E. pose proof (Z.div_mod v (2 ^ Z.of_nat n)).
  assert (0 <= v / 2 ^ Z.of_nat n < 2) by (split; [apply Z.div_pos; lia|apply Z.div_lt_upper_bound; lia]).
  rewrite Z.mod_small in E by lia. rewrite E. lia.
Qed.

Lemma bits_of_mod n m v : (n <= m)%nat → bits_of n (v mod 2 ^ Z.of_nat m) = bits_of n v.
Proof.
  intros Hm. induction n as [|n IH]; [done|]. cbn [bits_of]. rewrite IH by lia. f_equal.
  apply Z.mod_pow2_bits_low. lia.
Qed.

Lemma val64_bits n : ∀ v a, 0 <= v < 2 ^ Z.of_nat n → 0 <= a → a * 2 ^ Z.of_nat n + v < 2 ^ 64 →
  val64 (bits_of n v) a = a * 2 ^ Z.of_nat n + v.
Proof.
  induction n as [|n IH]; intros v a Hv Ha Hb; [cbn in *; lia|].
  pose proof (bits_of_top n v Hv) as E. assert (0 < 2 ^ Z.of_nat n) by (apply Z.pow_pos_nonneg; lia).
  pose proof (Z.mod_pos_bound v (2 ^ Z.of_nat n) ltac:(lia)). rewrite Nat2Z.inj_succ, Z.pow_succ_r in * by lia.
  cbn [bits_of]. unfold val64. cbn [fold_left]. set (b := Z.b2z (Z.testbit v (Z.of_nat n))) in *.
  assert (0 <= b < 2) by (unfold b; destruct (Z.testbit v (Z.of_nat n)); cbn; lia).
  assert (Z.lor (a ≪ 1) b = a * 2 + b) as -> by (rewrite (lor_shiftl_add a b 1) by lia; lia).
  rewrite u64_small by (unfold is_u64; nia). rewrite <- (bits_of_mod n n v) by lia.
  change (val64 (bits_of n (v mod 2 ^ Z.of_nat n)) (a * 2 + b) = a * (2 * 2 ^ Z.of_nat n) + v).
  rewrite IH by nia. nia.
Qed.

Lemma reads_bits n v : 0 <= v < 2 ^ Z.of_nat n → (n <= 64)%nat → reads (readBits n) (bits_of n v) v.
Proof.
  intros Hv Hn. replace v with (val64 (bits_of n v) 0) at 2; [by apply reads_any, length_bits_of|].
  rewrite val64_bits; [lia|done|lia|]. assert (2 ^ Z.of_nat n <= 2 ^ 64) by (apply Z.pow_le_mono_r; lia). lia.
Qed.

(** ** Fields *)

(** A number of [lb..ub]; a value of an extensible enumeration with [root]
    values; the presence bits of extension additions and the additions. *)
Definition number_bits (lb ub v : Z) : list bool := bits_of (bitWidth (ub - lb + 1)) (v - lb).
Definition enum_bits (root v : Z) : list bool :=
  if v <? root then false :: bits_of (bitWidth root) v else true :: false :: bits_of 6 (v - root).
Definition length_bits (n : Z) : list bool :=
  if n <? 128 then bits_of 8 n else bits_of 8 (128 + n / 256) ++ bits_of 8 (n mod 256).
Definition open_type (b : bytes) : list bool := length_bits (Z.of_nat (length b)) ++ octets_bits b.

Definition additions := list (option bytes).
Definition additions_ok (e : additions) : Prop :=
  (length e <= 64)%nat ∧ Forall (λ a, Z.of_nat (length (default [] a)) < 16384) e.
Definition is_present (a : option bytes) : bool := match a with Some _ => true | None => false end.
Definition additions_bits (e : additions) : list bool :=
  false :: bits_of 6 (Z.of_nat (length e) - 1) ++ (is_present <$> e) ++ (omap id e ≫= open_type).

Definition extended (e : additions) : bool := (0 <? length e)%nat.
Definition additions_tail (e : additions) : list bool := if extended e then additions_bits e else [].

Lemma bitWidth_bound n v : 0 <= v < n → v < 2 ^ Z.of_nat (bitWidth n).
Proof.
  intros Hv. unfold bitWidth, Len64. destruct (Z.leb_spec n 1); [lia|]. destruct (Z.eqb_spec (n - 1) 0); [lia|].
  pose proof (Z.log2_nonneg (n - 1)). rewrite Z2Nat.id by lia. pose proof (Z.log2_spec (n - 1)). lia.
Qed.

Lemma bitWidth_64 n : n <= 2 ^ 64 → (bitWidth n <= 64)%nat.
Proof.
  intros Hn. unfold bitWidth, Len64. destruct (Z.leb_spec n 1); [lia|]. destruct (Z.eqb_spec (n - 1) 0); [lia|].
  assert (Z.log2 (n - 1) < 64) by (apply Z.log2_lt_pow2; lia). lia.
Qed.

Lemma reads_constrained lb ub v :
  lb <= v <= ub → -4611686018427387904 <= lb → ub < 4611686018427387904 →
  reads (readConstrained lb ub) (number_bits lb ub v) v.
Proof.
  intros Hv Hl Hu. unfold readConstrained, number_bits. rewrite u64_small by (unfold is_u64; lia).
  assert (ub - lb + 1 <= 2 ^ 64) by lia.
  eapply reads_bind_nil; [apply reads_bits; [split; [lia|apply bitWidth_bound; lia]|by apply bitWidth_64]|].
  rewrite !i64_small by (rewrite ?i64_small; unfold is_i64; lia). cbv zeta.
  replace (lb + (v - lb)) with v by lia. destruct (Z.ltb_spec ub v); [lia|]. apply reads_ret.
Qed.

Lemma reads_bool b : reads readBool [b] b.
Proof. eapply reads_bind_nil; [apply reads_readBit|]. destruct b; apply reads_ret. Qed.

Lemma reads_small v : 0 <= v < 64 → reads readNormallySmall (false :: bits_of 6 v) v.
Proof. intros. apply (reads_bind _ _ [false]) with 0; [apply (reads_readBit false)|]. apply reads_bits; [change (2 ^ Z.of_nat 6) with 64|]; lia. Qed.

Lemma reads_enum root v :
  0 <= v < root + 64 → 0 < root < 2 ^ 32 → reads (readEnumExt root) (enum_bits root v) v.
Proof.
  intros Hv Hr. unfold enum_bits, readEnumExt. destruct (Z.ltb_spec v root).
  - apply (reads_bind _ _ [false]) with 0; [apply (reads_readBit false)|].
    apply reads_bits; [split; [lia|apply bitWidth_bound; lia]|apply bitWidth_64; lia].
  - apply (reads_bind _ _ [true]) with 1; [apply (reads_readBit true)|].
    apply (reads_bind_nil _ _ _ (v - root)); [apply reads_small; lia|].
    rewrite u64_small by (unfold is_u64; lia). replace (root + (v - root)) with v by lia. apply reads_ret.
Qed.

Lemma reads_presence bs : reads (readPresence (length bs)) bs bs.
Proof.
  unfold readPresence. pose proof (reads_repeat (b ← readBit; mret (b =? 1)) ((λ b, ([b], b)) <$> bs)) as H.
  rewrite length_fmap, <- !list_fmap_compose in H.
  assert (concat (fst ∘ (λ b, ([b], b)) <$> bs) = bs) as E1 by (clear; induction bs; cbn; congruence).
  assert (snd ∘ (λ b : bool, ([b], b)) <$> bs = bs) as E2 by (clear; induction bs; cbn; congruence).
  rewrite E1, E2 in H. apply H. clear. induction bs as [|b bs IH]; constructor; [|done].
  apply (reads_bool b).
Qed.

Lemma octet_cases (P : Z → bool) : forallb P (Z.of_nat <$> seq 0 256) = true → ∀ b, 0 <= b < 256 → P b = true.
Proof.
  intros H b Hb. rewrite forallb_forall in H. apply H, list_elem_of_In, list_elem_of_fmap.
  exists (Z.to_nat b). rewrite elem_of_seq. lia.
Qed.

Lemma length_octet b : 0 <= b < 256 →
  (Z.land b 128 =? 0) = (b <? 128) ∧ (128 <= b < 192 → (Z.land b 64 =? 0) = true ∧ Z.land b 63 = b - 128).
Proof.
  intros Hb. pose proof (octet_cases (λ b, eqb (Z.land b 128 =? 0) (b <? 128)) eq_refl b Hb) as H1.
  pose proof (octet_cases (λ b, implb ((128 <=? b) && (b <? 192)) ((Z.land b 64 =? 0) && (Z.land b 63 =? b - 128))) eq_refl b Hb) as H2.
  split; [by apply eqb_prop|]. intros [H3 H4]. apply Z.leb_le in H3. apply Z.ltb_lt in H4. cbv beta in H2.
  rewrite H3, H4 in H2. apply andb_true_iff in H2 as [-> H2%Z.eqb_eq]. done.
Qed.

Lemma reads_length n : 0 <= n < 16384 → reads readGeneralLength (length_bits n) n.
Proof.
  intros Hn. unfold length_bits, readGeneralLength. destruct (Z.ltb_spec n 128) as [H|H].
  - eapply reads_bind_nil; [apply reads_bits; cbn; lia|].
    rewrite (proj1 (length_octet n ltac:(lia))), (proj2 (Z.ltb_lt _ _) H). apply reads_ret.
  - eapply reads_bind; [apply reads_bits; cbn; dlia|]. assert (0 <= n / 256 < 64) as Hq by dlia.
    destruct (length_octet (128 + n / 256) ltac:(lia)) as [-> Hh]. destruct (Hh ltac:(lia)) as [-> ->].
    rewrite (proj2 (Z.ltb_ge _ _)) by lia. eapply reads_bind_nil; [apply reads_bits; cbn; dlia|].
    replace (128 + n / 256 - 128) with (n / 256) by lia. rewrite lor_shiftl_add by dlia.
    replace (n / 256 * 2 ^ 8 + n mod 256) with n by dlia. apply reads_ret.
Qed.

Lemma reads_open_type b : Z.of_nat (length b) < 16384 → reads skipOpenType (open_type b) tt.
Proof.
  intros Hb. unfold skipOpenType, open_type. eapply reads_bind; [apply reads_length; lia|].
  eapply reads_bind_nil; [apply reads_any|apply reads_ret]. rewrite length_octets_bits. lia.
Qed.

Lemma reads_skip_present (e : additions) :
  Forall (λ a, Z.of_nat (length (default [] a)) < 16384) e →
  reads (skip_present (is_present <$> e)) (omap id e ≫= open_type) tt.
Proof.
  induction 1 as [|[b|] e H He IH]; [apply reads_ret| |].
  - change (reads (_ ← skipOpenType; skip_present (is_present <$> e)) (open_type b ++ (omap id e ≫= open_type)) tt).
    eapply reads_bind; [by apply reads_open_type|done].
  - change (reads (_ ← mret tt; skip_present (is_present <$> e)) ([] ++ (omap id e ≫= open_type)) tt).
    eapply reads_bind; [apply reads_ret|done].
Qed.

(** A decoder that does not know the additions of a SEQUENCE passes over them. *)
Lemma reads_additions e : additions_ok e → e ≠ [] → reads skipSequenceExtensions (additions_bits e) tt.
Proof.
  intros [Hl He] Hn. unfold skipSequenceExtensions, additions_bits. destruct e as [|a e]; [done|].
  set (e' := a :: e) in *. assert (0 <= Z.of_nat (length e') - 1 < 64) as Hc by (unfold e' in *; cbn [length] in *; lia).
  change (false :: bits_of 6 (Z.of_nat (length e') - 1) ++ (is_present <$> e') ++ (omap id e' ≫= open_type))
    with ((false :: bits_of 6 (Z.of_nat (length e') - 1)) ++ (is_present <$> e') ++ (omap id e' ≫= open_type)).
  eapply reads_bind; [by apply reads_small|].
  replace (Z.to_nat (Z.of_nat (length e') - 1 + 1)) with (length (is_present <$> e')) by (rewrite length_fmap; lia).
  eapply reads_bind; [apply reads_presence|]. by apply reads_skip_present.
Qed.

(** ** Writing *)

Lemma writer_empty : writer_rep (mkBitWriter [] 0) [].
Proof. split; [done|constructor|by exists 0%nat; split; [lia|]]. Qed.

(** Setting a bit of an octet. *)
Lemma octets_bits_set (b : bytes) k o :
  b !! (k / 8)%nat = Some o →
  octets_bits (<[(k / 8)%nat := Z.lor o (128 ≫ Z.of_nat (k mod 8))]> b) = <[k := true]> (octets_bits b).
Proof.
  intros Ho. apply list_eq. intros i. rewrite lookup_octets.
  assert (k < length (octets_bits b))%nat as Hk.
  { apply lookup_lt_Some in Ho. rewrite length_octets_bits. pose proof (Nat.div_mod k 8). pose proof (Nat.mod_upper_bound k 8). lia. }
  assert (∀ i j : nat, (i mod 8 < 8)%nat → (j < 8)%nat →
    Z.testbit (128 ≫ Z.of_nat j) (7 - Z.of_nat (i mod 8)) = bool_decide (i mod 8 = j)%nat) as Hbit.
  { intros i' j H1 H2. rewrite Z.shiftr_spec by lia. change 128 with (2 ^ 7). rewrite Z.pow2_bits_eqb by lia.
    case_bool_decide; [apply Z.eqb_eq|apply Z.eqb_neq]; lia. }
  pose proof (Nat.mod_upper_bound i 8 ltac:(lia)). pose proof (Nat.mod_upper_bound k 8 ltac:(lia)).
  destruct (decide (i = k)) as [->|Hne].
  - rewrite list_lookup_insert_eq by (by eapply lookup_lt_Some). rewrite list_lookup_insert_eq by done.
    cbn [fmap option_fmap option_map]. rewrite Z.lor_spec, Hbit by done. rewrite bool_decide_true by done. by rewrite orb_true_r.
  - rewrite (list_lookup_insert_ne _ k) by done. rewrite lookup_octets.
    destruct (decide (i / 8 = k / 8)%nat) as [E|E].
    + rewrite E, list_lookup_insert_eq by (by eapply lookup_lt_Some). rewrite Ho. cbn [fmap option_fmap option_map].
      rewrite Z.lor_spec, Hbit by done. rewrite bool_decide_false; [by rewrite orb_false_r|].
      intros Em. apply Hne. rewrite (Nat.div_mod i 8), (Nat.div_mod k 8), E, Em by done. done.
    + by rewrite list_lookup_insert_ne by done.
Qed.

Lemma shifted_u8 j : (j < 8)%nat → is_u8 (128 ≫ Z.of_nat j).
Proof. intros. do 8 (destruct j as [|j]; [done|]). lia. Qed.

Lemma replicate_8 : octets_bits [0] = replicate 8 false.
Proof. reflexivity. Qed.

(** Room for one more bit. *)
Lemma writer_room w l :
  writer_rep w l →
  ∃ b k, (if (wr_bitLen w mod 8 =? 0)%nat then wr_buf w ++ [0] else wr_buf w) = b ∧ (k < 8)%nat ∧ bytes_ok b ∧
    octets_bits b = l ++ replicate (S k) false.
Proof.
  intros [Hl Hok (k & Hk & E)]. pose proof (length_octets_bits (wr_buf w)) as El. rewrite E, length_app, length_replicate in El.
  rewrite Hl. pose proof (Nat.div_mod (length l) 8). pose proof (Nat.mod_upper_bound (length l) 8).
  destruct (Nat.eqb_spec (length l mod 8) 0).
  - exists (wr_buf w ++ [0]), 7%nat. assert (k = 0)%nat as -> by lia. split_and!; [done|lia| |].
    + apply Forall_app. split; [done|]. by repeat constructor.
    + rewrite octets_bits_app, E, app_nil_r. done.
  - exists (wr_buf w), (k - 1)%nat. assert (0 < k)%nat by lia. split_and!; [done|lia|done|].
    by replace (S (k - 1)) with k by lia.
Qed.

Lemma writes_bit v : v = 0 ∨ v = 1 → writes (writeBit v) [v =? 1].
Proof.
  intros Hv w l H. destruct (writer_room w l H) as (b & k & Eb & Hk & Hok & E). unfold writeBit. rewrite Eb.
  pose proof (wp_len _ _ H) as Hl. rewrite Hl.
  pose proof (length_octets_bits b) as El. rewrite E, length_app, length_replicate in El.
  destruct Hv as [-> | ->]; cbn [Z.eqb Pos.eqb].
  - eexists. split; [reflexivity|]. split; cbn [wr_bitLen wr_buf]; [rewrite length_app; cbn; lia|done|].
    exists k. split; [done|]. rewrite E. by rewrite <- app_assoc.
  - assert (length l / 8 < length b)%nat as Hi by (apply Nat.Div0.div_lt_upper_bound; lia).
    destruct (lookup_lt_is_Some_2 b _ Hi) as [o Ho]. unfold idx. rewrite Ho. cbn [mbind res_bind].
    eexists. split; [reflexivity|]. split; cbn [wr_bitLen wr_buf]; [rewrite length_app; cbn; lia| |].
    + apply Forall_insert; [done|]. apply lor_u8; [by eapply (proj1 (Forall_lookup _ _) Hok)|].
      apply shifted_u8, Nat.mod_upper_bound. lia.
    + exists k. split; [done|]. rewrite octets_bits_set by done. rewrite E, insert_app_r_alt by lia.
      rewrite Nat.sub_diag. cbn. by rewrite <- app_assoc.
Qed.

Lemma writes_ret : writes (mret tt) [].
Proof. intros w l H. exists w. by rewrite app_nil_r. Qed.

Lemma writes_bind p (q : ST bitWriter unit) b1 b2 : writes p b1 → writes q b2 → writes (_ ← p; q) (b1 ++ b2).
Proof.
  intros Hp Hq w l H. destruct (Hp w l H) as (w1 & E1 & H1). destruct (Hq w1 _ H1) as (w2 & E2 & H2).
  exists w2. rewrite app_assoc. split; [|done]. unfold mbind, ST_bind. by rewrite E1.
Qed.

Lemma writes_wrap msg p bs : writes p bs → writes (wrap msg p) bs.
Proof. intros Hp w l H. destruct (Hp w l H) as (w' & E & H'). exists w'. split; [|done]. unfold wrap. by rewrite E. Qed.

Lemma writes_bits v n : writes (writeBits v n) (bits_of n v).
Proof.
  induction n as [|n IH]; [apply writes_ret|]. cbn [writeBits bits_of].
  change (Z.testbit v (Z.of_nat n) :: bits_of n v) with ([Z.testbit v (Z.of_nat n)] ++ bits_of n v).
  apply writes_bind; [|exact IH]. rewrite land_shiftr_1 by lia.
  replace [Z.testbit v (Z.of_nat n)] with [Z.b2z (Z.testbit v (Z.of_nat n)) =? 1] by (by destruct (Z.testbit v _)).
  apply writes_bit. destruct (Z.testbit v _); auto.
Qed.

Lemma writes_zero : writes (writeBit 0) [false].
Proof. apply (writes_bit 0). by left. Qed.

Lemma writes_bool b : writes (writeBool b) [b].
Proof. destruct b; [apply (writes_bit 1)|apply (writes_bit 0)]; auto. Qed.

Lemma writes_constrained v lb ub :
  lb <= v <= ub → -4611686018427387904 <= lb → ub < 4611686018427387904 →
  writes (writeConstrained v lb ub) (number_bits lb ub v).
Proof.
  intros Hv Hl Hu. unfold writeConstrained, number_bits.
  destruct (Z.ltb_spec v lb), (Z.ltb_spec ub v); try lia. cbn [orb].
  rewrite !u64_small by (unfold is_u64; lia). apply writes_bits.
Qed.

Lemma writes_enum v root : v < root → writes (writeEnumExt v root) (enum_bits root v).
Proof.
  intros Hv. unfold enum_bits. destruct (Z.ltb_spec v root); [|lia].
  apply (writes_bind _ _ [false]); [apply writes_zero|apply writes_bits].
Qed.

(** A whole message: the octets of the writer, and the bits they hold. *)
Lemma writes_run p bs :
  writes p bs → ∃ w, p (mkBitWriter [] 0) = Ok (tt, w) ∧ bytes_ok (wr_bytes w) ∧
    ∃ k, (k < 8)%nat ∧ octets_bits (wr_bytes w) = bs ++ replicate k false.
Proof.
  intros Hp. destruct (Hp _ _ writer_empty) as (w & E & [Hl Hok (k & Hk & Hb)]). exists w. split; [done|].
  unfold wr_bytes. destruct (Nat.eqb_spec (wr_bitLen w) 0) as [H0|H0]; [|eauto].
  split; [constructor|]. destruct bs; [|cbn in Hl; lia]. by exists 0%nat; split; [lia|].
Qed.

(** * No panic *)

Definition rsafe {A} (p : ST bitReader A) : Prop := ∀ r, safe (p r).

Lemma rsafe_ret {A} (a : A) : rsafe (mret a).
Proof. by intros r. Qed.

Lemma rsafe_throw {A} msg : rsafe (throw msg : ST bitReader A).
Proof. by intros r. Qed.

Lemma rsafe_bind {A B} (p : ST bitReader A) (f : A → ST bitReader B) : rsafe p → (∀ a, rsafe (f a)) → rsafe (p ≫= f).
Proof. intros Hp Hf r. specialize (Hp r). unfold mbind, ST_bind. destruct (p r) as [[a r']| | |]; try done. apply Hf. Qed.

Lemma rsafe_wrap {A} msg (p : ST bitReader A) : rsafe p → rsafe (wrap msg p).
Proof. intros Hp r. specialize (Hp r). unfold wrap. by destruct (p r). Qed.

Lemma rsafe_repeat {A} n (p : ST bitReader A) : rsafe p → rsafe (repeat_do n p).
Proof. intros Hp. induction n as [|n IH]; [apply rsafe_ret|]. apply rsafe_bind; [done|]. intros. by apply rsafe_bind. Qed.

Lemma rsafe_readBit : rsafe readBit.
Proof.
  intros r. unfold readBit. destruct (Nat.leb_spec (length (rd_buf r) * 8) (rd_pos r)); [done|].
  assert (rd_pos r / 8 < length (rd_buf r))%nat as Hi by (apply Nat.Div0.div_lt_upper_bound; lia).
  destruct (lookup_lt_is_Some_2 _ _ Hi) as [o Ho]. unfold idx. by rewrite Ho.
Qed.

Lemma rsafe_readBits n : rsafe (readBits n).
Proof.
  unfold readBits. generalize 0. induction n as [|n IH]; intros v; [apply rsafe_ret|].
  apply rsafe_bind; [apply rsafe_readBit|]. intros. apply IH.
Qed.

(** The list of presence bits has the length asked for, so its entries exist. *)
Lemma readPresence_length n : ∀ r,
  match readPresence n r with Ok (l, _) => length l = n | Err _ => True | _ => False end.
Proof.
  unfold readPresence. induction n as [|n IH]; intros r; [done|]. cbn [repeat_do].
  unfold mbind at 1, ST_bind at 1. pose proof (rsafe_readBit r) as Hs. unfold mbind at 1, ST_bind at 1.
  destruct (readBit r) as [[b r']| | |]; try done. cbn. unfold mbind, ST_bind.
  specialize (IH r'). unfold mbind, ST_bind in IH.
  destruct (repeat_do n _ r') as [[l r'']| | |]; try done. cbn. congruence.
Qed.

Lemma rsafe_presence {B} n (f : list bool → ST bitReader B) :
  (∀ l, length l = n → rsafe (f l)) → rsafe (readPresence n ≫= f).
Proof.
  intros Hf r. unfold mbind, ST_bind. pose proof (readPresence_length n r) as H.
  destruct (readPresence n r) as [[l r']| | |]; try done. by apply Hf.
Qed.

Lemma rsafe_presence_wrap {B} n msg (f : list bool → ST bitReader B) :
  (∀ l, length l = n → rsafe (f l)) → rsafe (wrap msg (readPresence n) ≫= f).
Proof.
  intros Hf r. unfold mbind, ST_bind, wrap. pose proof (readPresence_length n r) as H.
  destruct (readPresence n r) as [[l r']| | |]; try done. by apply Hf.
Qed.

#[export] Hint Resolve rsafe_ret rsafe_throw rsafe_readBit rsafe_readBits : uper.

(** One step on the structure of a decoder. *)
Ltac rsafe :=
  repeat first
    [ solve [eauto with uper]
    | apply rsafe_presence; intros ? ?
    | apply rsafe_presence_wrap; intros ? ?
    | apply rsafe_bind; [|intros ?]
    | apply rsafe_wrap
    | apply rsafe_repeat
    | match goal with |- rsafe (match ?x with _ => _ end) => destruct x end
    | match goal with |- rsafe (let '(_, _) := ?x in _) => destruct x end ].

Lemma rsafe_small : rsafe readNormallySmall.
Proof. unfold readNormallySmall. rsafe. Qed.
#[export] Hint Resolve rsafe_small : uper.

Lemma rsafe_skip_present l : rsafe (skip_present l).
Proof.
  induction l as [|b l IH]; [apply rsafe_ret|]. cbn [skip_present]. unfold skipOpenType, readGeneralLength. rsafe.
Qed.
#[export] Hint Resolve rsafe_skip_present : uper.

Lemma rsafe_additions : rsafe skipSequenceExtensions.
Proof. unfold skipSequenceExtensions. rsafe. Qed.

Lemma rsafe_bool : rsafe readBool.
Proof. unfold readBool. rsafe. Qed.

Lemma rsafe_constrained lb ub : rsafe (readConstrained lb ub).
Proof. unfold readConstrained. rsafe. Qed.

Lemma rsafe_enum root : rsafe (readEnumExt root).
Proof. unfold readEnumExt. rsafe. Qed.
#[export] Hint Resolve rsafe_additions rsafe_bool rsafe_constrained rsafe_enum : uper.
