(* ===== verification/LppCodec.v ===== *)
(** The LPP messages of [shared/lpp/lpp.go] for UE-assisted A-GNSS: the five
    builders and the decoder over the unaligned PER codec. *)

From S2P Require Import Prelude LppUper.

(** * Constants *)

Definition MsgRequestCapabilities : Z := 1.
Definition MsgProvideCapabilities : Z := 2.
Definition MsgProvideAssistanceData : Z := 3.
Definition MsgRequestLocationInformation : Z := 4.
Definition MsgProvideLocationInformation : Z := 5.
Definition c1RequestCapabilities : Z := 0.
Definition c1ProvideCapabilities : Z := 1.
Definition c1ProvideAssistanceData : Z := 3.
Definition c1RequestLocationInformation : Z := 4.
Definition c1ProvideLocationInformation : Z := 5.
Definition c1Alternatives : Z := 16.
Definition InitiatorLocationServer : Z := 0.
Definition GNSSIDGPS : Z := 0.
Definition gnssIDRootCount : Z := 5.
Definition posModesUEAssisted : Z := 0x20.
Definition gnssSignalIDsGPSL1CA : Z := 0x80.
Definition gnssIDBitmapGPS : Z := 0x80.
Definition bitStringPinnedLen : Z := 8.
Definition mpathDetRootCount : Z := 4.
Definition gnssTargetErrorRootCount : Z := 4.
Definition locationMeasurementsRequired : Z := 1.
Definition locationInfoTypeRootCount : Z := 4.

(** * Data *)

Record TransactionID := mkTransactionID { Initiator : Z; Number : Z }.

(** [NextTransactionID] with the counter it adds to. *)
Definition NextTransactionID (transactionCounter : Z) : TransactionID * Z :=
  let c := u32 (transactionCounter + 1) in (mkTransactionID InitiatorLocationServer (u8 (c mod 256)), c).

Record ProvideCapabilitiesInfo := mkCapabilities {
  AGNSSSupported : bool; GPSUEAssisted : bool; SupportedGNSS : list Z }.

Record ReferenceLocation := mkReferenceLocation {
  LatitudeSign : Z; DegreesLatitude : Z; DegreesLongitude : Z; AltitudeDirection : Z; Altitude : Z;
  UncertaintySemiMajor : Z; UncertaintySemiMinor : Z; OrientationMajorAxis : Z; UncertaintyAltitude : Z;
  Confidence : Z }.

Record AssistanceData := mkAssistanceData {
  DayNumber : Z; TimeOfDay : Z; ReferenceTimeUnc : Z; ad_ReferenceLocation : ReferenceLocation }.

Record SatMeas := mkSatMeas {
  SVID : Z; CNo : Z; MpathDet : Z; CodePhase : Z; IntegerCodePhase : Z; CodePhaseRMSError : Z }.

Record LocationMeasurements := mkLocationMeasurements { GNSSTODMsec : Z; Sats : list SatMeas }.

Record PDU := mkPDU {
  pdu_Type : Z;
  HasTransactionID : bool;
  pdu_TransactionID : TransactionID;
  EndTransaction : bool;
  ProvideCapabilities : option ProvideCapabilitiesInfo;
  pdu_AssistanceData : option AssistanceData;
  pdu_LocationMeasurements : option LocationMeasurements;
  TargetDeviceErrorCause : option Z }.

(** * Builders *)

#[local] Abbreviation W := (ST bitWriter unit).

(** [w := &bitWriter{}; ...; return w.bytes(), nil] *)
Definition build (p : W) : res bytes := '(_, w) ← p (mkBitWriter [] 0); Ok (wr_bytes w).

Definition writeEnvelope (txn : TransactionID) (endTransaction : bool) (c1Index : Z) : W :=
  _ ← writeBits 9 4;
  _ ← writeBit 0; _ ← writeEnumExt (Initiator txn) 2; _ ← writeBits (Number txn) 8;
  _ ← writeBool endTransaction;
  _ ← writeBit 0; _ ← writeBits c1Index (bitWidth c1Alternatives);
  _ ← writeBit 0; writeBits 0 2.

Definition writeGNSSID (id : Z) : W := _ ← writeBit 0; writeEnumExt id gnssIDRootCount.

Definition BuildRequestCapabilities (txn : TransactionID) : res bytes := build (
  _ ← writeEnvelope txn false c1RequestCapabilities;
  _ ← writeBit 0; _ ← writeBits 8 5;
  _ ← writeBit 0; _ ← writeBool true; _ ← writeBool false; writeBool false).

Definition BuildProvideCapabilities (txn : TransactionID) (gnssSupported : bool) : res bytes := build (
  let msg := "lpp: build provide capabilities: %w" in
  _ ← writeEnvelope txn true c1ProvideCapabilities;
  _ ← writeBit 0;
  if negb gnssSupported then writeBits 0 5
  else
    _ ← writeBits 8 5;
    _ ← writeBit 0; _ ← writeBits 8 4;
    _ ← wrap msg (writeConstrained 1 1 16);
    _ ← writeBit 0; _ ← writeBits 0 2; _ ← writeGNSSID GNSSIDGPS;
    _ ← writeBit 0; _ ← wrap msg (writeConstrained bitStringPinnedLen 1 8);
    _ ← writeBits posModesUEAssisted (Z.to_nat bitStringPinnedLen);
    _ ← writeBit 0; _ ← writeBits gnssSignalIDsGPSL1CA 8;
    _ ← writeBool false; writeBool false).

Definition writeReferenceLocation (loc : ReferenceLocation) : W :=
  _ ← writeBits (LatitudeSign loc) 1;
  _ ← wrap "lpp: build provide assistance data: degreesLatitude: %w" (writeConstrained (DegreesLatitude loc) 0 8388607);
  _ ← wrap "lpp: build provide assistance data: degreesLongitude: %w" (writeConstrained (DegreesLongitude loc) (-8388608) 8388607);
  _ ← writeBits (AltitudeDirection loc) 1;
  _ ← wrap "lpp: build provide assistance data: altitude: %w" (writeConstrained (Altitude loc) 0 32767);
  _ ← wrap "lpp: build provide assistance data: uncertaintySemiMajor: %w" (writeConstrained (UncertaintySemiMajor loc) 0 127);
  _ ← wrap "lpp: build provide assistance data: uncertaintySemiMinor: %w" (writeConstrained (UncertaintySemiMinor loc) 0 127);
  _ ← wrap "lpp: build provide assistance data: orientationMajorAxis: %w" (writeConstrained (OrientationMajorAxis loc) 0 179);
  _ ← wrap "lpp: build provide assistance data: uncertaintyAltitude: %w" (writeConstrained (UncertaintyAltitude loc) 0 127);
  wrap "lpp: build provide assistance data: confidence: %w" (writeConstrained (Confidence loc) 0 100).

Definition BuildProvideAssistanceData (txn : TransactionID) (ad : AssistanceData) : res bytes := build (
  _ ← writeEnvelope txn true c1ProvideAssistanceData;
  _ ← writeBit 0; _ ← writeBits 4 4;
  _ ← writeBit 0; _ ← writeBits 4 3;
  _ ← writeBit 0; _ ← writeBits 12 4;
  _ ← writeBit 0; _ ← writeBits 2 2;
  _ ← writeBit 0; _ ← writeBits 0 3;
  _ ← writeGNSSID GNSSIDGPS;
  _ ← wrap "lpp: build provide assistance data: gnss-DayNumber: %w" (writeConstrained (DayNumber ad) 0 32767);
  _ ← wrap "lpp: build provide assistance data: gnss-TimeOfDay: %w" (writeConstrained (TimeOfDay ad) 0 86399);
  _ ← wrap "lpp: build provide assistance data: referenceTimeUnc: %w" (writeConstrained (ReferenceTimeUnc ad) 0 127);
  _ ← writeBit 0;
  writeReferenceLocation (ad_ReferenceLocation ad)).

Definition BuildRequestLocationInformation (txn : TransactionID) : res bytes := build (
  _ ← writeEnvelope txn false c1RequestLocationInformation;
  _ ← writeBit 0; _ ← writeBits 24 5;
  _ ← writeBit 0; _ ← writeBits 0 7; _ ← writeEnumExt locationMeasurementsRequired locationInfoTypeRootCount;
  _ ← writeBit 0;
  _ ← writeBit 0;
  _ ← writeBit 0;
  _ ← wrap "lpp: build request location information: %w" (writeConstrained bitStringPinnedLen 1 16);
  _ ← writeBits gnssIDBitmapGPS (Z.to_nat bitStringPinnedLen);
  _ ← writeBool false; _ ← writeBool false; _ ← writeBool false; writeBool false).

Definition writeSatMeas (sv : SatMeas) : W :=
  _ ← writeBit 0; _ ← writeBits 4 4;
  _ ← writeBit 0; _ ← wrap "lpp: build provide location information: sat %d svID: %w" (writeConstrained (SVID sv) 0 63);
  _ ← wrap "lpp: build provide location information: sat %d cNo: %w" (writeConstrained (CNo sv) 0 63);
  if mpathDetRootCount <=? MpathDet sv
  then throw "lpp: build provide location information: sat %d mpathDet %d out of root range"
  else
    _ ← writeEnumExt (MpathDet sv) mpathDetRootCount;
    _ ← wrap "lpp: build provide location information: sat %d codePhase: %w" (writeConstrained (CodePhase sv) 0 2097151);
    _ ← wrap "lpp: build provide location information: sat %d integerCodePhase: %w" (writeConstrained (IntegerCodePhase sv) 0 127);
    wrap "lpp: build provide location information: sat %d codePhaseRMSError: %w" (writeConstrained (CodePhaseRMSError sv) 0 63).

Fixpoint writeSats (sats : list SatMeas) : W :=
  match sats with [] => mret tt | sv :: sats => _ ← writeSatMeas sv; writeSats sats end.

Definition BuildProvideLocationInformation (txn : TransactionID) (meas : LocationMeasurements) : res bytes :=
  let msg := "lpp: build provide location information: %w" in
  if (length (Sats meas) =? 0)%nat || (64 <? length (Sats meas))%nat
  then Err "lpp: build provide location information: %d satellites (want 1..64)"
  else build (
    _ ← writeEnvelope txn true c1ProvideLocationInformation;
    _ ← writeBit 0; _ ← writeBits 8 5;
    _ ← writeBit 0; _ ← writeBits 4 3;
    _ ← writeBit 0;
    _ ← writeBit 0; _ ← writeBits 0 3;
    _ ← wrap "lpp: build provide location information: gnss-TOD-msec: %w" (writeConstrained (GNSSTODMsec meas) 0 3599999);
    _ ← writeGNSSID GNSSIDGPS;
    _ ← wrap msg (writeConstrained 1 1 16);
    _ ← writeBit 0; _ ← writeGNSSID GNSSIDGPS;
    _ ← wrap msg (writeConstrained 1 1 8);
    _ ← writeBit 0; _ ← writeBits 0 1;
    _ ← writeBit 0; _ ← writeBits 0 3;
    _ ← wrap msg (writeConstrained (Z.of_nat (length (Sats meas))) 1 64);
    writeSats (Sats meas)).

Definition BuildProvideLocationInformationError (txn : TransactionID) (cause : Z) : res bytes :=
  if gnssTargetErrorRootCount <=? cause
  then Err "lpp: build provide location information error: cause %d out of root range"
  else build (
    _ ← writeEnvelope txn true c1ProvideLocationInformation;
    _ ← writeBit 0; _ ← writeBits 8 5;
    _ ← writeBit 0; _ ← writeBits 1 3;
    _ ← writeBit 0; _ ← writeBits 1 1;
    _ ← writeBit 0; _ ← writeBits 0 3;
    writeEnumExt cause gnssTargetErrorRootCount).

(** * Decoder *)

(** [int32(v)] *)
Definition i32 (z : Z) : Z := let m := u32 z in if m <? 2147483648 then m else m - 4294967296.


#[local] Abbreviation R := (ST bitReader).

(** The extension bit; the result skips the additions after the root fields. *)
Definition readSeqExt : R (R unit) :=
  ext ← readBit; mret (if ext =? 0 then mret tt else skipSequenceExtensions).

(** [p[i] || p[j] || ...] *)
Fixpoint any_present (p : list bool) (js : list nat) : R bool :=
  match js with
  | [] => mret false
  | j :: js => b ← lift_res (idx p j); if b : bool then mret true else any_present p js
  end.
Definition present (p : list bool) (i : nat) : R bool := lift_res (idx p i).

Definition decodeTransactionID : R TransactionID :=
  ext ← wrap "lpp: decode: transactionID: %w" readBit;
  init ← wrap "lpp: decode: transactionID initiator: %w" (readEnumExt 2);
  num ← wrap "lpp: decode: transactionNumber: %w" (readBits 8);
  _ ← (if ext =? 1 then wrap "lpp: decode: transactionID extensions: %w" skipSequenceExtensions else mret tt);
  mret (mkTransactionID (u8 init) (u8 num)).

Definition decodeCriticalExtensions : R unit :=
  choice ← wrap "lpp: decode: criticalExtensions: %w" readBit;
  if negb (choice =? 0) then throw "lpp: decode: criticalExtensionsFuture not supported"
  else
    c1 ← wrap "lpp: decode: criticalExtensions c1: %w" (readBits 2);
    if negb (c1 =? 0) then throw "lpp: decode: criticalExtensions spare alternative %d" else mret tt.

Definition decodeGNSSID : R Z :=
  skip ← readSeqExt; v ← readEnumExt gnssIDRootCount; _ ← skip; mret (u8 v).

Definition decodeRequestCapabilities : R unit :=
  let msg := "lpp: decode request capabilities: %w" in
  skip ← wrap msg readSeqExt;
  p ← wrap msg (readPresence 5);
  bad ← any_present p [0%nat; 2%nat; 3%nat; 4%nat];
  if bad : bool then throw "lpp: decode request capabilities: non-A-GNSS root OPTIONAL present (outside subset)"
  else
    a ← present p 1;
    _ ← (if a : bool then
           aSkip ← wrap "lpp: decode request capabilities: a-gnss: %w" readSeqExt;
           _ ← repeat_do 3 (wrap "lpp: decode request capabilities: a-gnss flags: %w" readBool);
           wrap "lpp: decode request capabilities: a-gnss extensions: %w" aSkip
         else mret tt);
    skip.

(** A BIT STRING (SIZE(1..ub)) in an extensible SEQUENCE, its length and value. *)
Definition decodeBitString (msg msgExt : string) (ub : Z) : R (Z * Z) :=
  skip ← wrap msg readSeqExt;
  n ← wrap msg (readConstrained 1 ub);
  v ← wrap msg (readBits (Z.to_nat n));
  _ ← wrap msgExt skip;
  mret (n, v).

Definition decodeGNSSSupportElement : R (Z * bool) :=
  skip ← readSeqExt;
  p ← readPresence 2;
  gnssID ← wrap "gnss-ID: %w" decodeGNSSID;
  sbas ← present p 0;
  _ ← (if sbas : bool then _ ← decodeBitString "sbas-IDs: %w" "sbas-IDs extensions: %w" 8; mret tt else mret tt);
  '(pmLen, pmBits) ← decodeBitString "agnss-Modes: %w" "agnss-Modes extensions: %w" 8;
  let ueAssisted := (3 <=? pmLen) && negb (Z.land pmBits (1 ≪ (pmLen - 3)) =? 0) in
  sigSkip ← wrap "gnss-Signals: %w" readSeqExt;
  _ ← wrap "gnss-Signals: %w" (readBits 8);
  _ ← wrap "gnss-Signals extensions: %w" sigSkip;
  fta ← present p 1;
  if fta : bool then throw "fta-MeasSupport present (outside subset)"
  else _ ← readBool; _ ← readBool; _ ← skip; mret (gnssID, ueAssisted).

Definition decodeProvideCapabilities : R ProvideCapabilitiesInfo :=
  let msg := "lpp: decode provide capabilities: %w" in
  skip ← wrap msg readSeqExt;
  p ← wrap msg (readPresence 5);
  bad ← any_present p [0%nat; 2%nat; 3%nat; 4%nat];
  if bad : bool then throw "lpp: decode provide capabilities: non-A-GNSS root OPTIONAL present (outside subset)"
  else
    a ← present p 1;
    if negb a then _ ← skip; mret (mkCapabilities false false [])
    else
      aSkip ← wrap "lpp: decode provide capabilities: a-gnss: %w" readSeqExt;
      ap ← wrap "lpp: decode provide capabilities: a-gnss: %w" (readPresence 4);
      bad ← any_present ap [1%nat; 2%nat; 3%nat];
      if bad : bool then throw "lpp: decode provide capabilities: a-gnss root OPTIONAL outside subset present"
      else
        l ← present ap 0;
        elems ← (if l : bool then
                   count ← wrap "lpp: decode provide capabilities: gnss-SupportList: %w" (readConstrained 1 16);
                   repeat_do (Z.to_nat count) (wrap "lpp: decode provide capabilities: element %d: %w" decodeGNSSSupportElement)
                 else mret []);
        _ ← wrap "lpp: decode provide capabilities: a-gnss extensions: %w" aSkip;
        _ ← skip;
        mret (mkCapabilities (0 <? length elems)%nat (existsb (λ x, (x.1 =? GNSSIDGPS) && x.2) elems) elems.*1).

Definition adm (s : string) : string := "lpp: decode provide assistance data: " +:+ s.

Definition decodeReferenceLocation : R ReferenceLocation :=
  let field name lb ub := wrap (adm name) (readConstrained lb ub) in
  a ← field "latitudeSign: %w" 0 1;
  b ← field "degreesLatitude: %w" 0 8388607;
  c ← field "degreesLongitude: %w" (-8388608) 8388607;
  d ← field "altitudeDirection: %w" 0 1;
  e ← field "altitude: %w" 0 32767;
  f ← field "uncertaintySemiMajor: %w" 0 127;
  g ← field "uncertaintySemiMinor: %w" 0 127;
  i ← field "orientationMajorAxis: %w" 0 179;
  j ← field "uncertaintyAltitude: %w" 0 127;
  k ← field "confidence: %w" 0 100;
  mret (mkReferenceLocation (u8 a) (u32 b) (i32 c) (u8 d) (u16 e) (u8 f) (u8 g) (u8 i) (u8 j) (u8 k)).

(** GNSS-SystemTime: the day and the time of day. *)
Definition decodeSystemTime : R (Z * Z) :=
  stSkip ← wrap (adm "systemTime: %w") readSeqExt;
  sp ← wrap (adm "systemTime: %w") (readPresence 3);
  tow ← present sp 2;
  if tow : bool then throw (adm "gps-TOW-Assist present (outside subset)")
  else
    _ ← wrap (adm "gnss-TimeID: %w") decodeGNSSID;
    day ← wrap (adm "gnss-DayNumber: %w") (readConstrained 0 32767);
    tod ← wrap (adm "gnss-TimeOfDay: %w") (readConstrained 0 86399);
    frac ← present sp 0;
    _ ← (if frac : bool then _ ← wrap (adm "frac-msec: %w") (readConstrained 0 999); mret tt else mret tt);
    leap ← present sp 1;
    _ ← (if leap : bool then _ ← wrap (adm "leap: %w") (readBits 2); mret tt else mret tt);
    _ ← wrap (adm "systemTime extensions: %w") stSkip;
    mret (u16 day, u32 tod).

(** GNSS-ReferenceTime: the system time and its uncertainty. *)
Definition decodeReferenceTime : R (Z * Z * Z) :=
  rtSkip ← wrap (adm "referenceTime: %w") readSeqExt;
  rp ← wrap (adm "referenceTime: %w") (readPresence 2);
  cells ← present rp 1;
  if cells : bool then throw (adm "gnss-ReferenceTimeForCells present (outside subset)")
  else
    '(day, tod) ← decodeSystemTime;
    hasUnc ← present rp 0;
    unc ← (if hasUnc : bool then u ← wrap (adm "referenceTimeUnc: %w") (readConstrained 0 127); mret (u8 u) else mret 0);
    _ ← wrap (adm "referenceTime extensions: %w") rtSkip;
    mret (day, tod, unc).

Definition decodeProvideAssistanceData : R AssistanceData :=
  skip ← wrap (adm "%w") readSeqExt;
  p ← wrap (adm "%w") (readPresence 4);
  bad ← any_present p [0%nat; 2%nat; 3%nat];
  if bad : bool then throw (adm "non-A-GNSS root OPTIONAL present (outside subset)")
  else
    a ← present p 1;
    if negb a then throw (adm "a-gnss-ProvideAssistanceData absent")
    else
      aSkip ← wrap (adm "a-gnss: %w") readSeqExt;
      ap ← wrap (adm "a-gnss: %w") (readPresence 3);
      bad ← any_present ap [1%nat; 2%nat];
      if bad : bool then throw (adm "gnss-GenericAssistData/gnss-Error present (outside subset)")
      else
        c ← present ap 0;
        if negb c then throw (adm "gnss-CommonAssistData absent")
        else
          cSkip ← wrap (adm "common: %w") readSeqExt;
          cp ← wrap (adm "common: %w") (readPresence 4);
          bad ← any_present cp [2%nat; 3%nat];
          if bad : bool then throw (adm "ionospheric/earth-orientation present (outside subset)")
          else
            t ← present cp 0;
            l ← present cp 1;
            if negb t || negb l
            then throw (adm "gnss-ReferenceTime and gnss-ReferenceLocation both required by this subset")
            else
              '(day, tod, unc) ← decodeReferenceTime;
              rlSkip ← wrap (adm "referenceLocation: %w") readSeqExt;
              loc ← decodeReferenceLocation;
              _ ← wrap (adm "referenceLocation extensions: %w") rlSkip;
              _ ← wrap (adm "common extensions: %w") cSkip;
              _ ← wrap (adm "a-gnss extensions: %w") aSkip;
              _ ← skip;
              mret (mkAssistanceData day tod unc loc).

Definition rlm (s : string) : string := "lpp: decode request location information: " +:+ s.

Definition decodeCommonRequest : R unit :=
  cSkip ← wrap (rlm "commonIEs: %w") readSeqExt;
  cp ← wrap (rlm "commonIEs: %w") (readPresence 7);
  if existsb id cp then throw (rlm "commonIEs root OPTIONAL %d present (outside subset)")
  else
    _ ← wrap (rlm "locationInformationType: %w") (readEnumExt locationInfoTypeRootCount);
    wrap (rlm "commonIEs extensions: %w") cSkip.

Definition decodePositioningRequest : R unit :=
  aSkip ← wrap (rlm "a-gnss: %w") readSeqExt;
  piSkip ← wrap (rlm "positioningInstructions: %w") readSeqExt;
  _ ← decodeBitString (rlm "gnss-Methods: %w") (rlm "gnss-Methods extensions: %w") 16;
  _ ← repeat_do 4 (wrap (rlm "instruction flags: %w") readBool);
  _ ← wrap (rlm "positioningInstructions extensions: %w") piSkip;
  wrap (rlm "a-gnss extensions: %w") aSkip.

Definition decodeRequestLocationInformation : R unit :=
  skip ← wrap (rlm "%w") readSeqExt;
  p ← wrap (rlm "%w") (readPresence 5);
  bad ← any_present p [2%nat; 3%nat; 4%nat];
  if bad : bool then throw (rlm "non-A-GNSS root OPTIONAL present (outside subset)")
  else
    c ← present p 0;
    _ ← (if c : bool then decodeCommonRequest else mret tt);
    a ← present p 1;
    _ ← (if a : bool then decodePositioningRequest else mret tt);
    skip.

(** An optional number that is read and ignored. *)
Definition ignore_if (b : bool) (msg : string) (lb ub : Z) : R unit :=
  if b then _ ← wrap msg (readConstrained lb ub); mret tt else mret tt.

Definition decodeSatMeasElement : R SatMeas :=
  skip ← readSeqExt;
  p ← readPresence 4;
  svSkip ← wrap "svID: %w" readSeqExt;
  svid ← wrap "svID: %w" (readConstrained 0 63);
  _ ← wrap "svID extensions: %w" svSkip;
  cno ← wrap "cNo: %w" (readConstrained 0 63);
  mpath ← wrap "mpathDet: %w" (readEnumExt mpathDetRootCount);
  p0 ← present p 0;
  _ ← ignore_if p0 "carrierQualityInd: %w" 0 3;
  cp ← wrap "codePhase: %w" (readConstrained 0 2097151);
  p1 ← present p 1;
  icp ← (if p1 : bool then v ← wrap "integerCodePhase: %w" (readConstrained 0 127); mret (u8 v) else mret 0);
  rms ← wrap "codePhaseRMSError: %w" (readConstrained 0 63);
  p2 ← present p 2;
  _ ← ignore_if p2 "doppler: %w" (-32768) 32767;
  p3 ← present p 3;
  _ ← ignore_if p3 "adr: %w" 0 33554431;
  _ ← skip;
  mret (mkSatMeas (u8 svid) (u8 cno) (u8 mpath) (u32 cp) icp (u8 rms)).

Definition mm (s : string) : string := "lpp: decode measurements: " +:+ s.

(** MeasurementReferenceTime *)
Definition decodeMeasurementTime : R Z :=
  mtSkip ← wrap (mm "referenceTime: %w") readSeqExt;
  p ← wrap (mm "referenceTime: %w") (readPresence 3);
  nt ← present p 2;
  if nt : bool then throw (mm "networkTime present (outside subset)")
  else
    tod ← wrap (mm "gnss-TOD-msec: %w") (readConstrained 0 3599999);
    p0 ← present p 0;
    _ ← ignore_if p0 (mm "gnss-TOD-frac: %w") 0 3999;
    p1 ← present p 1;
    _ ← ignore_if p1 (mm "gnss-TOD-unc: %w") 0 127;
    _ ← wrap (mm "gnss-TimeID: %w") decodeGNSSID;
    _ ← wrap (mm "referenceTime extensions: %w") mtSkip;
    mret (u32 tod).

(** GNSS-SgnMeasElement *)
Definition decodeSgnMeasElement : R (list SatMeas) :=
  eSkip ← wrap (mm "sgnMeasElement: %w") readSeqExt;
  p ← wrap (mm "sgnMeasElement: %w") (readPresence 1);
  sigSkip ← wrap (mm "gnss-SignalID: %w") readSeqExt;
  _ ← wrap (mm "gnss-SignalID: %w") (readConstrained 0 7);
  _ ← wrap (mm "gnss-SignalID extensions: %w") sigSkip;
  p0 ← present p 0;
  _ ← ignore_if p0 (mm "codePhaseAmbiguity: %w") 0 127;
  satCount ← wrap (mm "satMeasList: %w") (readConstrained 1 64);
  sats ← repeat_do (Z.to_nat satCount) (wrap (mm "sat %d: %w") decodeSatMeasElement);
  _ ← wrap (mm "sgnMeasElement extensions: %w") eSkip;
  mret sats.

Definition decodeSignalMeasurementInformation : R LocationMeasurements :=
  sSkip ← wrap (mm "%w") readSeqExt;
  tod ← decodeMeasurementTime;
  listCount ← wrap (mm "measurementList: %w") (readConstrained 1 16);
  if negb (listCount =? 1) then throw (mm "%d GNSS-MeasurementForOneGNSS entries (subset carries exactly 1)")
  else
    mSkip ← wrap (mm "forOneGNSS: %w") readSeqExt;
    _ ← wrap (mm "gnss-ID: %w") decodeGNSSID;
    sgnCount ← wrap (mm "sgnMeasList: %w") (readConstrained 1 8);
    if negb (sgnCount =? 1) then throw (mm "%d GNSS-SgnMeasElement entries (subset carries exactly 1)")
    else
      sats ← decodeSgnMeasElement;
      _ ← wrap (mm "forOneGNSS extensions: %w") mSkip;
      _ ← sSkip;
      mret (mkLocationMeasurements tod sats).

Definition em (s : string) : string := "lpp: decode gnss-Error: " +:+ s.

Definition decodeAGNSSError : R Z :=
  ext ← wrap (em "%w") readBit;
  if ext =? 1 then throw (em "extended CHOICE alternative not supported")
  else
    alt ← wrap (em "%w") (readBits 1);
    if negb (alt =? 1) then throw (em "locationServerErrorCauses not expected from a target device")
    else
      tSkip ← wrap (em "%w") readSeqExt;
      _ ← wrap (em "%w") (readPresence 3);
      cause ← wrap (em "cause: %w") (readEnumExt gnssTargetErrorRootCount);
      _ ← wrap (em "extensions: %w") tSkip;
      mret (u8 cause).

Definition plm (s : string) : string := "lpp: decode provide location information: " +:+ s.

Definition decodeProvideLocationInformation : R (option LocationMeasurements * option Z) :=
  skip ← wrap (plm "%w") readSeqExt;
  p ← wrap (plm "%w") (readPresence 5);
  bad ← any_present p [0%nat; 2%nat; 3%nat; 4%nat];
  if bad : bool then throw (plm "non-A-GNSS root OPTIONAL present (outside subset)")
  else
    a ← present p 1;
    if negb a then throw (plm "a-gnss-ProvideLocationInformation absent")
    else
      aSkip ← wrap (plm "a-gnss: %w") readSeqExt;
      ap ← wrap (plm "a-gnss: %w") (readPresence 3);
      loc ← present ap 1;
      if loc : bool then throw (plm "gnss-LocationInformation present (UE-based, outside subset)")
      else
        p0 ← present ap 0;
        meas ← (if p0 : bool then m ← decodeSignalMeasurementInformation; mret (Some m) else mret None);
        p2 ← present ap 2;
        errCause ← (if p2 : bool then c ← decodeAGNSSError; mret (Some c) else mret None);
        _ ← wrap (plm "a-gnss extensions: %w") aSkip;
        _ ← skip;
        match meas, errCause with
        | None, None => throw (plm "neither measurements nor gnss-Error present")
        | _, _ => mret (meas, errCause)
        end.

(** Acknowledgement *)
Definition decodeAcknowledgement : R unit :=
  let msg := "lpp: decode: acknowledgement: %w" in
  ap ← wrap msg (readPresence 1);
  _ ← wrap msg readBool;
  a ← present ap 0;
  ignore_if a msg 0 255.

(** The message after its envelope. *)
Definition decodeBody (c1 : Z) (pdu : Z → option ProvideCapabilitiesInfo → option AssistanceData →
    option LocationMeasurements → option Z → PDU) : R PDU :=
  if c1 =? c1RequestCapabilities then
    _ ← decodeRequestCapabilities; mret (pdu MsgRequestCapabilities None None None None)
  else if c1 =? c1ProvideCapabilities then
    i ← decodeProvideCapabilities; mret (pdu MsgProvideCapabilities (Some i) None None None)
  else if c1 =? c1ProvideAssistanceData then
    d ← decodeProvideAssistanceData; mret (pdu MsgProvideAssistanceData None (Some d) None None)
  else if c1 =? c1RequestLocationInformation then
    _ ← decodeRequestLocationInformation; mret (pdu MsgRequestLocationInformation None None None None)
  else if c1 =? c1ProvideLocationInformation then
    '(m, e) ← decodeProvideLocationInformation; mret (pdu MsgProvideLocationInformation None None m e)
  else throw "lpp: decode: unsupported LPP-MessageBody c1 index %d".

Definition decodeMessage : R PDU :=
  p ← wrap "lpp: decode: envelope preamble: %w" (readPresence 4);
  hasTxn ← present p 0; hasSeq ← present p 1; hasAck ← present p 2; hasBody ← present p 3;
  txn ← (if hasTxn : bool then decodeTransactionID else mret (mkTransactionID 0 0));
  endTx ← wrap "lpp: decode: endTransaction: %w" readBool;
  _ ← ignore_if hasSeq "lpp: decode: sequenceNumber: %w" 0 255;
  _ ← (if hasAck : bool then decodeAcknowledgement else mret tt);
  if negb hasBody then throw "lpp: decode: lpp-MessageBody absent"
  else
    bodyChoice ← wrap "lpp: decode: message body choice: %w" readBit;
    if negb (bodyChoice =? 0) then throw "lpp: decode: messageClassExtension body not supported"
    else
      c1 ← wrap "lpp: decode: c1 index: %w" (readBits (bitWidth c1Alternatives));
      _ ← decodeCriticalExtensions;
      decodeBody c1 (λ ty, mkPDU ty hasTxn txn endTx).

(** [Decode] *)
Definition Decode (b : bytes) : res PDU := '(pdu, _) ← decodeMessage (mkBitReader b 0); Ok pdu.

(** * GPS time, [shared/lpp/gnss.go] *)

Definition GPSEpochUnix : Z := 315964800.
Definition GPSUTCLeapSeconds : Z := 18.
Definition gpsSeconds (unixUTC : Z) : Z := i64 (i64 (unixUTC - GPSEpochUnix) + GPSUTCLeapSeconds).

(** Go's division truncates. *)
Definition UnixToGPSDayTime (unixUTC : Z) : Z * Z :=
  (u16 (gpsSeconds unixUTC `quot` 86400), u32 (gpsSeconds unixUTC `rem` 86400)).
Definition GPSTODMsec (unixUTC msec : Z) : Z := u32 (i64 (i64 (gpsSeconds unixUTC `rem` 3600 * 1000) + msec)).
