(* ===== verification/LppSpec.v ===== *)
(** The LPP messages as bit strings: the part of the ASN.1 module that
    [shared/lpp/lpp.go] decodes, with every OPTIONAL it accepts and arbitrary
    extension additions in every extensible SEQUENCE; the builders write it and
    the decoder reads all of it. *)

From S2P Require Import Prelude LppUper LppCodec.

(** * The messages of the subset *)

(** An extensible SEQUENCE with the root fields [root]. *)
Definition seq_bits (e : additions) (root : list bool) : list bool := [extended e] ++ root ++ additions_tail e.

(** A value with the additions of the SEQUENCE around it. *)
Definition ext_of (A : Type) : Type := additions * A.

Definition gnss_bits (g : ext_of Z) : list bool := seq_bits g.1 (enum_bits gnssIDRootCount g.2).
Definition bitstring_bits (ub : Z) (s : ext_of (list bool)) : list bool :=
  seq_bits s.1 (number_bits 1 ub (Z.of_nat (length s.2)) ++ s.2).

Definition opt_bits {A} (f : A → list bool) (o : option A) : list bool := match o with Some a => f a | None => [] end.
Definition has {A} (o : option A) : bool := match o with Some _ => true | None => false end.

Record support := mkSupport {
  su_ext : additions;
  su_gnss : ext_of Z;
  su_sbas : option (ext_of (list bool));
  su_modes : ext_of (list bool);
  su_signals : ext_of (list bool);
  su_adr : bool;
  su_velocity : bool }.

Definition support_bits (s : support) : list bool :=
  seq_bits (su_ext s) ([has (su_sbas s); false] ++ gnss_bits (su_gnss s) ++ opt_bits (bitstring_bits 8) (su_sbas s) ++
    bitstring_bits 8 (su_modes s) ++ seq_bits (su_signals s).1 (su_signals s).2 ++ [su_adr s] ++ [su_velocity s]).

Record system_time := mkSystemTime {
  st_ext : additions; st_gnss : ext_of Z; st_day : Z; st_tod : Z; st_frac : option Z; st_leap : option (list bool) }.

Definition system_time_bits (t : system_time) : list bool :=
  seq_bits (st_ext t) ([has (st_frac t); has (st_leap t); false] ++ gnss_bits (st_gnss t) ++
    number_bits 0 32767 (st_day t) ++ number_bits 0 86399 (st_tod t) ++
    opt_bits (number_bits 0 999) (st_frac t) ++ opt_bits id (st_leap t)).

Definition location_bits (l : ReferenceLocation) : list bool :=
  number_bits 0 1 (LatitudeSign l) ++ number_bits 0 8388607 (DegreesLatitude l) ++
  number_bits (-8388608) 8388607 (DegreesLongitude l) ++ number_bits 0 1 (AltitudeDirection l) ++
  number_bits 0 32767 (Altitude l) ++ number_bits 0 127 (UncertaintySemiMajor l) ++
  number_bits 0 127 (UncertaintySemiMinor l) ++ number_bits 0 179 (OrientationMajorAxis l) ++
  number_bits 0 127 (UncertaintyAltitude l) ++ number_bits 0 100 (Confidence l).

Record assistance := mkAssistance {
  as_ext : additions; as_agnss : additions; as_common : additions; as_time_ext : additions; as_loc_ext : additions;
  as_time : system_time; as_unc : option Z; as_loc : ReferenceLocation }.

Definition reference_time_bits (a : assistance) : list bool :=
  seq_bits (as_time_ext a) ([has (as_unc a); false] ++ system_time_bits (as_time a) ++
    opt_bits (number_bits 0 127) (as_unc a)).
Definition assistance_bits (a : assistance) : list bool :=
  seq_bits (as_ext a) ([false; true; false; false] ++
  seq_bits (as_agnss a) ([true; false; false] ++
  seq_bits (as_common a) ([true; true; false; false] ++
    reference_time_bits a ++ seq_bits (as_loc_ext a) (location_bits (as_loc a))))).

Record sat := mkSat {
  sa_ext : additions; sa_svid : ext_of Z; sa_cno : Z; sa_mpath : Z; sa_carrier : option Z; sa_phase : Z;
  sa_integer : option Z; sa_rms : Z; sa_doppler : option Z; sa_adr : option Z }.

Definition sat_bits (s : sat) : list bool :=
  seq_bits (sa_ext s) ([has (sa_carrier s); has (sa_integer s); has (sa_doppler s); has (sa_adr s)] ++
    seq_bits (sa_svid s).1 (number_bits 0 63 (sa_svid s).2) ++ number_bits 0 63 (sa_cno s) ++
    enum_bits mpathDetRootCount (sa_mpath s) ++ opt_bits (number_bits 0 3) (sa_carrier s) ++
    number_bits 0 2097151 (sa_phase s) ++ opt_bits (number_bits 0 127) (sa_integer s) ++ number_bits 0 63 (sa_rms s) ++
    opt_bits (number_bits (-32768) 32767) (sa_doppler s) ++ opt_bits (number_bits 0 33554431) (sa_adr s)).

Record measurements := mkMeasurements {
  me_ext : additions; me_time_ext : additions; me_tod : Z; me_frac : option Z; me_unc : option Z; me_time_id : ext_of Z;
  me_one_ext : additions; me_gnss : ext_of Z; me_sgn_ext : additions; me_signal : ext_of Z; me_ambiguity : option Z;
  me_sats : list sat }.

Definition measurement_time_bits (m : measurements) : list bool :=
  seq_bits (me_time_ext m) ([has (me_frac m); has (me_unc m); false] ++ number_bits 0 3599999 (me_tod m) ++
    opt_bits (number_bits 0 3999) (me_frac m) ++ opt_bits (number_bits 0 127) (me_unc m) ++ gnss_bits (me_time_id m)).
Definition signal_bits (m : measurements) : list bool :=
  seq_bits (me_sgn_ext m) ([has (me_ambiguity m)] ++ seq_bits (me_signal m).1 (number_bits 0 7 (me_signal m).2) ++
    opt_bits (number_bits 0 127) (me_ambiguity m) ++ number_bits 1 64 (Z.of_nat (length (me_sats m))) ++
    concat (sat_bits <$> me_sats m)).
Definition measurements_bits (m : measurements) : list bool :=
  seq_bits (me_ext m) (measurement_time_bits m ++ number_bits 1 16 1 ++
    seq_bits (me_one_ext m) (gnss_bits (me_gnss m) ++ number_bits 1 8 1 ++ signal_bits m)).

(** A target device error: three NULL flags and the cause. *)
Definition error_bits (e : ext_of (bool * bool * bool * Z)) : list bool :=
  [false] ++ bits_of 1 1 ++ seq_bits e.1 ([e.2.1.1.1; e.2.1.1.2; e.2.1.2] ++ enum_bits gnssTargetErrorRootCount e.2.2).

Inductive body :=
| BRequestCapabilities (e : additions) (a : option (ext_of (bool * bool * bool)))
| BProvideCapabilities (e : additions) (a : option (ext_of (option (list support))))
| BAssistanceData (a : assistance)
| BRequestLocation (e : additions) (common : option (ext_of Z))
    (agnss : option (additions * additions * ext_of (list bool) * (bool * bool * bool * bool)))
| BProvideLocation (e ea : additions) (m : option measurements) (err : option (ext_of (bool * bool * bool * Z))).

Definition flags_bits (a : ext_of (bool * bool * bool)) : list bool := seq_bits a.1 [a.2.1.1; a.2.1.2; a.2.2].
Definition support_list_bits (l : list support) : list bool :=
  number_bits 1 16 (Z.of_nat (length l)) ++ concat (support_bits <$> l).
Definition common_bits (c : ext_of Z) : list bool :=
  seq_bits c.1 (replicate 7 false ++ enum_bits locationInfoTypeRootCount c.2).
Definition positioning_bits (p : additions * additions * ext_of (list bool) * (bool * bool * bool * bool)) : list bool :=
  let '(ea, ep, methods, (f1, f2, f3, f4)) := p in
  seq_bits ea (seq_bits ep (bitstring_bits 16 methods ++ [f1; f2; f3; f4])).

Definition body_bits (b : body) : list bool :=
  match b with
  | BRequestCapabilities e a => seq_bits e ([false; has a; false; false; false] ++ opt_bits flags_bits a)
  | BProvideCapabilities e a =>
      seq_bits e ([false; has a; false; false; false] ++
        opt_bits (λ a, seq_bits a.1 ([has a.2; false; false; false] ++ opt_bits support_list_bits a.2)) a)
  | BAssistanceData a => assistance_bits a
  | BRequestLocation e c a =>
      seq_bits e ([has c; has a; false; false; false] ++ opt_bits common_bits c ++ opt_bits positioning_bits a)
  | BProvideLocation e ea m err =>
      seq_bits e ([false; true; false; false; false] ++
        seq_bits ea ([has m; false; has err] ++ opt_bits measurements_bits m ++ opt_bits error_bits err))
  end.

Definition body_index (b : body) : Z :=
  match b with
  | BRequestCapabilities _ _ => c1RequestCapabilities
  | BProvideCapabilities _ _ => c1ProvideCapabilities
  | BAssistanceData _ => c1ProvideAssistanceData
  | BRequestLocation _ _ _ => c1RequestLocationInformation
  | BProvideLocation _ _ _ _ => c1ProvideLocationInformation
  end.

Record message := mkMsg {
  ms_txn : option (ext_of (Z * Z));
  ms_seq : option Z;
  ms_ack : option (bool * option Z);
  ms_end : bool;
  ms_body : body }.

Definition txn_bits (t : ext_of (Z * Z)) : list bool := seq_bits t.1 (enum_bits 2 t.2.1 ++ bits_of 8 t.2.2).
Definition ack_bits (a : bool * option Z) : list bool := [has a.2] ++ [a.1] ++ opt_bits (number_bits 0 255) a.2.

Definition message_bits (m : message) : list bool :=
  [has (ms_txn m); has (ms_seq m); has (ms_ack m); true] ++ opt_bits txn_bits (ms_txn m) ++ [ms_end m] ++
  opt_bits (number_bits 0 255) (ms_seq m) ++ opt_bits ack_bits (ms_ack m) ++
  [false] ++ bits_of 4 (body_index (ms_body m)) ++ [false] ++ bits_of 2 0 ++ body_bits (ms_body m).

(** ** Well-formedness and what the decoder reports *)

Definition within (lb ub v : Z) : Prop := lb <= v <= ub.
Definition opt_ok {A} (P : A → Prop) (o : option A) : Prop := match o with Some a => P a | None => True end.
Definition gnss_ok (g : ext_of Z) : Prop := additions_ok g.1 ∧ 0 <= g.2 < 69.
Definition bitstring_ok (ub : Z) (s : ext_of (list bool)) : Prop :=
  additions_ok s.1 ∧ 1 <= Z.of_nat (length s.2) <= ub.

Definition support_ok (s : support) : Prop :=
  additions_ok (su_ext s) ∧ gnss_ok (su_gnss s) ∧ opt_ok (bitstring_ok 8) (su_sbas s) ∧
  bitstring_ok 8 (su_modes s) ∧ additions_ok (su_signals s).1 ∧ length (su_signals s).2 = 8%nat.
Definition support_view (s : support) : Z * bool := ((su_gnss s).2, default false ((su_modes s).2 !! 2%nat)).

Definition system_time_ok (t : system_time) : Prop :=
  additions_ok (st_ext t) ∧ gnss_ok (st_gnss t) ∧ within 0 32767 (st_day t) ∧ within 0 86399 (st_tod t) ∧
  opt_ok (within 0 999) (st_frac t) ∧ opt_ok (λ l, length l = 2%nat) (st_leap t).

Definition location_ok (l : ReferenceLocation) : Prop :=
  within 0 1 (LatitudeSign l) ∧ within 0 8388607 (DegreesLatitude l) ∧ within (-8388608) 8388607 (DegreesLongitude l) ∧
  within 0 1 (AltitudeDirection l) ∧ within 0 32767 (Altitude l) ∧ within 0 127 (UncertaintySemiMajor l) ∧
  within 0 127 (UncertaintySemiMinor l) ∧ within 0 179 (OrientationMajorAxis l) ∧
  within 0 127 (UncertaintyAltitude l) ∧ within 0 100 (Confidence l).

Definition assistance_ok (a : assistance) : Prop :=
  (additions_ok (as_ext a) ∧ additions_ok (as_agnss a) ∧ additions_ok (as_common a) ∧ additions_ok (as_time_ext a) ∧
   additions_ok (as_loc_ext a)) ∧ system_time_ok (as_time a) ∧ opt_ok (within 0 127) (as_unc a) ∧ location_ok (as_loc a).
Definition assistance_view (a : assistance) : AssistanceData :=
  mkAssistanceData (st_day (as_time a)) (st_tod (as_time a)) (default 0 (as_unc a)) (as_loc a).

Definition sat_ok (s : sat) : Prop :=
  (additions_ok (sa_ext s) ∧ additions_ok (sa_svid s).1 ∧ within 0 63 (sa_svid s).2 ∧ within 0 63 (sa_cno s) ∧
   0 <= sa_mpath s < 68) ∧ opt_ok (within 0 3) (sa_carrier s) ∧ within 0 2097151 (sa_phase s) ∧
  opt_ok (within 0 127) (sa_integer s) ∧ within 0 63 (sa_rms s) ∧ opt_ok (within (-32768) 32767) (sa_doppler s) ∧
  opt_ok (within 0 33554431) (sa_adr s).
Definition sat_view (s : sat) : SatMeas :=
  mkSatMeas (sa_svid s).2 (sa_cno s) (sa_mpath s) (sa_phase s) (default 0 (sa_integer s)) (sa_rms s).

Definition measurements_ok (m : measurements) : Prop :=
  (additions_ok (me_ext m) ∧ additions_ok (me_time_ext m) ∧ additions_ok (me_one_ext m) ∧ additions_ok (me_sgn_ext m)) ∧
  within 0 3599999 (me_tod m) ∧ opt_ok (within 0 3999) (me_frac m) ∧ opt_ok (within 0 127) (me_unc m) ∧
  gnss_ok (me_time_id m) ∧ gnss_ok (me_gnss m) ∧ (additions_ok (me_signal m).1 ∧ within 0 7 (me_signal m).2) ∧
  opt_ok (within 0 127) (me_ambiguity m) ∧ within 1 64 (Z.of_nat (length (me_sats m))) ∧ Forall sat_ok (me_sats m).
Definition measurements_view (m : measurements) : LocationMeasurements :=
  mkLocationMeasurements (me_tod m) (sat_view <$> me_sats m).

Definition error_ok (e : ext_of (bool * bool * bool * Z)) : Prop := additions_ok e.1 ∧ 0 <= e.2.2 < 68.

Definition body_ok (b : body) : Prop :=
  match b with
  | BRequestCapabilities e a => additions_ok e ∧ opt_ok (λ a, additions_ok a.1) a
  | BProvideCapabilities e a =>
      additions_ok e ∧
      opt_ok (λ a, additions_ok a.1 ∧ opt_ok (λ l, within 1 16 (Z.of_nat (length l)) ∧ Forall support_ok l) a.2) a
  | BAssistanceData a => assistance_ok a
  | BRequestLocation e c a =>
      additions_ok e ∧ opt_ok (λ c, additions_ok c.1 ∧ 0 <= c.2 < 68) c ∧
      opt_ok (λ p, additions_ok p.1.1.1 ∧ additions_ok p.1.1.2 ∧ bitstring_ok 16 p.1.2) a
  | BProvideLocation e ea m err =>
      additions_ok e ∧ additions_ok ea ∧ opt_ok measurements_ok m ∧ opt_ok error_ok err ∧ (has m || has err) = true
  end.

Definition capabilities_view (a : option (ext_of (option (list support)))) : ProvideCapabilitiesInfo :=
  let l := default [] (a ≫= snd) in
  mkCapabilities (0 <? length l)%nat (existsb (λ x, (x.1 =? GNSSIDGPS) && x.2) (support_view <$> l))
    (support_view <$> l).*1.

Definition body_view (b : body) (pdu : Z → option ProvideCapabilitiesInfo → option AssistanceData →
    option LocationMeasurements → option Z → PDU) : PDU :=
  match b with
  | BRequestCapabilities _ _ => pdu MsgRequestCapabilities None None None None
  | BProvideCapabilities _ a => pdu MsgProvideCapabilities (Some (capabilities_view a)) None None None
  | BAssistanceData a => pdu MsgProvideAssistanceData None (Some (assistance_view a)) None None
  | BRequestLocation _ _ _ => pdu MsgRequestLocationInformation None None None None
  | BProvideLocation _ _ m e =>
      pdu MsgProvideLocationInformation None None (measurements_view <$> m) ((λ e : ext_of _, e.2.2) <$> e)
  end.

Definition message_ok (m : message) : Prop :=
  opt_ok (λ t, additions_ok t.1 ∧ 0 <= t.2.1 < 66 ∧ is_u8 t.2.2) (ms_txn m) ∧ opt_ok (within 0 255) (ms_seq m) ∧
  opt_ok (λ a, opt_ok (within 0 255) a.2) (ms_ack m) ∧ body_ok (ms_body m).
Definition message_view (m : message) : PDU :=
  body_view (ms_body m)
    (λ ty, mkPDU ty (has (ms_txn m))
       (match ms_txn m with Some t => mkTransactionID t.2.1 t.2.2 | None => mkTransactionID 0 0 end) (ms_end m)).

(** * The decoder reads them *)

Definition skipper (e : additions) : ST bitReader unit := if extended e then skipSequenceExtensions else mret tt.

Lemma reads_seqext e : reads readSeqExt [extended e] (skipper e).
Proof.
  apply (reads_bind_nil _ _ _ (Z.b2z (extended e))); [apply reads_readBit|]. unfold skipper.
  destruct (extended e); apply reads_ret.
Qed.

Lemma reads_skipper e : additions_ok e → reads (skipper e) (additions_tail e) tt.
Proof.
  intros He. unfold skipper, additions_tail, extended. destruct e as [|a e]; [apply reads_ret|]. by apply reads_additions.
Qed.

Lemma reads_bind0 {A B} (p : ST bitReader A) (f : A → ST bitReader B) bs a c :
  reads p [] a → reads (f a) bs c → reads (p ≫= f) bs c.
Proof. apply (reads_bind p f []). Qed.

Lemma reads_lift {A} (a : A) : reads (lift_res (Ok a)) [] a.
Proof. intros r rest H. by exists r. Qed.

Lemma reads_present p i b : p !! i = Some b → reads (present p i) [] b.
Proof. intros H. unfold present, idx. rewrite H. apply reads_lift. Qed.

Lemma reads_none_present p js : Forall (λ j, p !! j = Some false) js → reads (any_present p js) [] false.
Proof.
  induction 1 as [|j js Hj Hjs IH]; [apply reads_ret|]. cbn [any_present]. unfold idx. rewrite Hj.
  eapply reads_bind0; [apply reads_lift|]. done.
Qed.

Lemma reads_ignore o msg lb ub :
  opt_ok (within lb ub) o → -4611686018427387904 <= lb → ub < 4611686018427387904 →
  reads (ignore_if (has o) msg lb ub) (opt_bits (number_bits lb ub) o) tt.
Proof.
  intros Ho Hl Hu. destruct o as [v|]; [|apply reads_ret]. cbn [has ignore_if opt_bits].
  eapply reads_bind_nil; [by apply reads_wrap, reads_constrained|]. apply reads_ret.
Qed.

Lemma reads_flags msg (l : list bool) : reads (repeat_do (length l) (wrap msg readBool)) l l.
Proof.
  pose proof (reads_repeat (wrap msg readBool) ((λ b, ([b], b)) <$> l)) as H.
  rewrite length_fmap, <- !list_fmap_compose in H.
  assert (concat (fst ∘ (λ b, ([b], b)) <$> l) = l) as E1 by (clear; induction l; cbn; congruence).
  assert (snd ∘ (λ b : bool, ([b], b)) <$> l = l) as E2 by (clear; induction l; cbn; congruence).
  rewrite E1, E2 in H. apply H. apply Forall_fmap, Forall_forall. intros b _. apply reads_wrap, (reads_bool b).
Qed.

(** A list of elements, each read by [p]. *)
Lemma reads_list {A B} (p : ST bitReader B) (f : A → list bool) (g : A → B) (l : list A) :
  Forall (λ a, reads p (f a) (g a)) l → reads (repeat_do (length l) p) (concat (f <$> l)) (g <$> l).
Proof.
  intros H. pose proof (reads_repeat p ((λ a, (f a, g a)) <$> l)) as Hr.
  rewrite length_fmap, <- !list_fmap_compose in Hr. apply Hr. by apply Forall_fmap.
Qed.

(** One field of a decoder: its reader is found, its bits are the next ones. *)
Ltac field :=
  lazymatch goal with
  | |- reads (wrap _ _) _ _ => apply reads_wrap; field
  | |- reads readSeqExt _ _ => apply reads_seqext
  | |- reads (skipper _) _ _ => apply reads_skipper; assumption
  | |- reads (readPresence 1) _ _ => apply (reads_presence [_])
  | |- reads (readPresence 2) _ _ => apply (reads_presence [_; _])
  | |- reads (readPresence 3) _ _ => apply (reads_presence [_; _; _])
  | |- reads (readPresence 4) _ _ => apply (reads_presence [_; _; _; _])
  | |- reads (readPresence 5) _ _ => apply (reads_presence [_; _; _; _; _])
  | |- reads (readConstrained _ _) _ _ => apply reads_constrained; [first [assumption|lia]|lia|lia]
  | |- reads (readEnumExt _) _ _ => apply reads_enum; [first [assumption|lia]|done]
  | |- reads readBool _ _ => apply reads_bool
  | |- reads _ (opt_bits (number_bits _ _) _) _ => apply reads_ignore; [assumption|lia|lia]
  | |- reads (match _ with _ => _ end) _ _ => fail
  | |- _ => first [eassumption | solve [eauto with uper]]
  end.
Ltac nofield :=
  first
    [ apply reads_present; reflexivity
    | apply reads_none_present; by repeat constructor ].

Ltac bits := unfold seq_bits; rewrite <- ?app_assoc.
Ltac steps := repeat (first [ eapply reads_bind0; [nofield|] | lazymatch goal with |- reads _ (_ ++ _) _ => eapply reads_bind; [field|] end ]; cbv beta iota; cbn [negb orb]).
Ltac finish := first [ field | apply reads_ret | eapply reads_bind_nil; [field|]; finish ].

Lemma u8_within v n : within 0 n v → n < 256 → u8 v = v.
Proof. intros. apply u8_small. unfold within, is_u8 in *. lia. Qed.

Lemma reads_gnss g : gnss_ok g → reads decodeGNSSID (gnss_bits g) g.2.
Proof.
  intros [He Hg]. unfold decodeGNSSID, gnss_bits. bits. steps. eapply reads_bind_nil; [field|].
  rewrite u8_small by (unfold is_u8; lia). apply reads_ret.
Qed.
#[local] Hint Resolve reads_gnss : uper.

Lemma reads_bitstring msg msgExt ub s :
  bitstring_ok ub s → ub < 64 →
  reads (decodeBitString msg msgExt ub) (bitstring_bits ub s) (Z.of_nat (length s.2), val64 s.2 0).
Proof.
  intros [He Hl] Hub. unfold decodeBitString, bitstring_bits. bits. steps.
  eapply reads_bind; [apply reads_wrap, reads_any; lia|]. finish.
Qed.

Lemma modes_ue_assisted (l : list bool) : (1 <= length l <= 8)%nat →
  (3 <=? Z.of_nat (length l)) && negb (Z.land (val64 l 0) (1 ≪ (Z.of_nat (length l) - 3)) =? 0) = default false (l !! 2%nat).
Proof.
  intros Hl. destruct l as [|b0 [|b1 [|b2 [|b3 [|b4 [|b5 [|b6 [|b7 [|]]]]]]]]]; try (cbn in Hl; lia);
    repeat match goal with b : bool |- _ => destruct b end; reflexivity.
Qed.

Lemma reads_support s : support_ok s → reads decodeGNSSSupportElement (support_bits s) (support_view s).
Proof.
  destruct s as [e g sb m [es sg] adr vel]. intros (He & Hg & Hsb & Hm & Hs & Hl). cbn in He, Hg, Hsb, Hm, Hs, Hl.
  unfold decodeGNSSSupportElement, support_bits.
  cbn [su_ext su_gnss su_sbas su_modes su_signals su_adr su_velocity fst snd]. bits. steps.
  eapply (reads_bind _ _ (opt_bits (bitstring_bits 8) sb)).
  { destruct sb as [sb|]; [|apply reads_ret]. cbn [has opt_bits].
    eapply reads_bind_nil; [by apply reads_bitstring|]. apply reads_ret. }
  eapply reads_bind; [by apply reads_bitstring|]. cbv beta iota. steps.
  eapply reads_bind; [apply reads_wrap, reads_any; exact Hl|]. steps.
  eapply reads_bind_nil; [field|]. destruct Hm as [_ Hm]. rewrite modes_ue_assisted by lia. apply reads_ret.
Qed.

Lemma reads_system_time t :
  system_time_ok t → reads decodeSystemTime (system_time_bits t) (st_day t, st_tod t).
Proof.
  destruct t as [e g d o f l]. intros (He & Hg & Hd & Ho & Hf & Hl). cbn in He, Hg, Hd, Ho, Hf, Hl.
  unfold decodeSystemTime, system_time_bits. cbn [st_ext st_gnss st_day st_tod st_frac st_leap]. bits. steps.
  eapply (reads_bind _ _ (opt_bits id l)).
  { destruct l as [l|]; [|apply reads_ret]. cbn [has opt_bits]. eapply reads_bind_nil; [|apply reads_ret].
    apply reads_wrap, reads_any. exact Hl. }
  eapply reads_bind_nil; [field|]. unfold within in *. unfold u16, u32. rewrite !Z.mod_small by lia. apply reads_ret.
Qed.

Lemma reads_location l : location_ok l → reads decodeReferenceLocation (location_bits l) l.
Proof.
  destruct l as [a b c d e f g i j k]. unfold location_ok. cbn. intros (Ha & Hb & Hc & Hd & He & Hf & Hg & Hi & Hj & Hk).
  unfold decodeReferenceLocation, location_bits.
  cbn [LatitudeSign DegreesLatitude DegreesLongitude AltitudeDirection Altitude UncertaintySemiMajor UncertaintySemiMinor
    OrientationMajorAxis UncertaintyAltitude Confidence]. steps.
  eapply reads_bind_nil; [field|]. unfold within in *.
  assert (i32 c = c) as ->.
  { unfold i32, u32. cbv zeta. destruct (Z.ltb_spec (c mod 4294967296) 2147483648); dlia. }
  unfold u8, u16, u32. rewrite !Z.mod_small by lia. apply reads_ret.
Qed.

#[local] Hint Resolve reads_system_time reads_location : uper.

Lemma reads_reference_time a : assistance_ok a →
  reads decodeReferenceTime (reference_time_bits a) (st_day (as_time a), st_tod (as_time a), default 0 (as_unc a)).
Proof.
  destruct a as [e ea ec et el t u l]. intros ((He & Hea & Hec & Het & Hel) & Ht & Hu & Hl). cbn in Het, Ht, Hu.
  unfold decodeReferenceTime, reference_time_bits. cbn [as_time_ext as_time as_unc]. bits. steps.
  eapply (reads_bind _ _ (opt_bits (number_bits 0 127) u) _ (default 0 u)).
  { destruct u as [u|]; [|apply reads_ret]. cbn [has opt_bits default]. eapply reads_bind_nil; [field|].
    rewrite (u8_within u 127) by (done || lia). apply reads_ret. }
  finish.
Qed.

Lemma reads_assistance a : assistance_ok a → reads decodeProvideAssistanceData (assistance_bits a) (assistance_view a).
Proof.
  intros Ha. pose proof (reads_reference_time a Ha) as Hr.
  destruct Ha as ((He & Hea & Hec & Het & Hel) & Ht & Hu & Hl).
  unfold decodeProvideAssistanceData, assistance_bits, assistance_view. bits. steps. finish.
Qed.

Lemma reads_sat s : sat_ok s → reads decodeSatMeasElement (sat_bits s) (sat_view s).
Proof.
  destruct s as [e [ev v] c mp ca ph ic rms dp adr].
  intros ((He & Hev & Hv & Hc & Hmp) & Hca & Hph & Hic & Hrms & Hdp & Hadr).
  cbn in He, Hev, Hv, Hc, Hmp, Hca, Hph, Hic, Hrms, Hdp, Hadr.
  unfold decodeSatMeasElement, sat_bits, sat_view.
  cbn [sa_ext sa_svid sa_cno sa_mpath sa_carrier sa_phase sa_integer sa_rms sa_doppler sa_adr fst snd]. bits. steps.
  eapply (reads_bind _ _ (opt_bits (number_bits 0 127) ic) _ (default 0 ic)).
  { destruct ic as [i|]; [|apply reads_ret]. cbn [has opt_bits default]. eapply reads_bind_nil; [field|].
    rewrite (u8_within i 127) by (done || lia). apply reads_ret. }
  steps. eapply reads_bind_nil; [field|]. unfold within in *. unfold u8, u32. rewrite !Z.mod_small by lia. apply reads_ret.
Qed.

Lemma reads_measurement_time m : measurements_ok m → reads decodeMeasurementTime (measurement_time_bits m) (me_tod m).
Proof.
  intros ((He & Het & Ho & Hs) & Htod & Hf & Hu & Hid & _). unfold decodeMeasurementTime, measurement_time_bits.
  bits. steps. eapply reads_bind_nil; [field|]. unfold within in *. unfold u32. rewrite Z.mod_small by lia. apply reads_ret.
Qed.

Lemma reads_signal m : measurements_ok m → reads decodeSgnMeasElement (signal_bits m) (sat_view <$> me_sats m).
Proof.
  intros ((He & Het & Ho & Hs) & Htod & Hf & Hu & Hid & Hg & (Hse & Hsi) & Ha & Hn & Hsats).
  unfold decodeSgnMeasElement, signal_bits. bits. steps. rewrite Nat2Z.id.
  eapply reads_bind; [apply reads_list; eapply Forall_impl; [exact Hsats|]; intros; by apply reads_wrap, reads_sat|]. finish.
Qed.

Lemma reads_measurements m :
  measurements_ok m → reads decodeSignalMeasurementInformation (measurements_bits m) (measurements_view m).
Proof.
  intros Hm. pose proof (reads_measurement_time m Hm) as Ht. pose proof (reads_signal m Hm) as Hsg.
  destruct Hm as ((He & Het & Ho & Hs) & Htod & Hf & Hu & Hid & Hg & _).
  unfold decodeSignalMeasurementInformation, measurements_bits. bits. steps. finish.
Qed.

Lemma reads_error e : error_ok e → reads decodeAGNSSError (error_bits e) e.2.2.
Proof.
  destruct e as [e [[[a b] c] v]]. intros [He Hv]. cbn in He, Hv. unfold decodeAGNSSError, error_bits. cbn [fst snd]. bits.
  eapply reads_bind; [apply reads_wrap, (reads_readBit false)|]. cbv beta iota. cbn [Z.b2z Z.eqb].
  eapply reads_bind; [apply reads_wrap, reads_bits; [by vm_compute|lia]|]. cbn [Z.eqb Pos.eqb negb].
  steps. eapply reads_bind_nil; [field|]. rewrite u8_small by (unfold is_u8; lia). apply reads_ret.
Qed.
#[local] Hint Resolve reads_measurements reads_error reads_assistance : uper.

Lemma reads_request_capabilities e a :
  additions_ok e → opt_ok (λ a, additions_ok a.1) a →
  reads decodeRequestCapabilities (body_bits (BRequestCapabilities e a)) tt.
Proof.
  intros He Ha. unfold decodeRequestCapabilities. cbn [body_bits]. bits. steps.
  eapply (reads_bind _ _ (opt_bits flags_bits a)); [|finish].
  destruct a as [[ea [[f1 f2] f3]]|]; [|apply reads_ret]. cbn in Ha. cbn [has opt_bits]. unfold flags_bits. cbn [fst snd].
  bits. steps. eapply reads_bind; [apply (reads_flags _ [f1; f2; f3])|]. finish.
Qed.

Lemma reads_provide_capabilities e a :
  body_ok (BProvideCapabilities e a) →
  reads decodeProvideCapabilities (body_bits (BProvideCapabilities e a)) (capabilities_view a).
Proof.
  intros [He Ha]. unfold decodeProvideCapabilities. cbn [body_bits]. destruct a as [[ea o]|]; cbn [has opt_bits fst snd].
  2:{ bits. steps. finish. }
  destruct Ha as [Hea Ho]. cbn [fst snd] in *. bits. steps.
  eapply (reads_bind _ _ (opt_bits support_list_bits o) _ (support_view <$> default [] o)).
  { destruct o as [l|]; [|apply reads_ret]. destruct Ho as [Hn Hl]. cbn [has opt_bits default]. unfold support_list_bits. steps.
    rewrite Nat2Z.id. apply reads_list. eapply Forall_impl; [exact Hl|]. intros. by apply reads_wrap, reads_support. }
  eapply reads_bind; [field|]. unfold capabilities_view. cbn [mbind option_bind snd]. rewrite length_fmap. finish.
Qed.

Lemma reads_request_location e c a :
  body_ok (BRequestLocation e c a) → reads decodeRequestLocationInformation (body_bits (BRequestLocation e c a)) tt.
Proof.
  intros (He & Hc & Ha). unfold decodeRequestLocationInformation. cbn [body_bits]. bits. steps.
  eapply (reads_bind _ _ (opt_bits common_bits c)).
  { destruct c as [[ec t]|]; [|apply reads_ret]. destruct Hc as [Hec Ht]. cbn [fst snd] in *. cbn [has opt_bits].
    unfold decodeCommonRequest, common_bits. cbn [fst snd]. bits. steps.
    eapply reads_bind; [apply reads_wrap, (reads_presence (replicate 7 false))|]. cbn [replicate existsb id orb]. steps. finish. }
  steps. eapply (reads_bind _ _ (opt_bits positioning_bits a)); [|finish].
  destruct a as [[[[ea ep] ms] [[[f1 f2] f3] f4]]|]; [|apply reads_ret]. destruct Ha as (Hea & Hep & Hms). cbn [fst snd] in *.
  cbn [has opt_bits]. unfold decodePositioningRequest, positioning_bits. bits. steps.
  eapply reads_bind; [by apply reads_bitstring|]. eapply reads_bind; [apply (reads_flags _ [f1; f2; f3; f4])|]. steps. finish.
Qed.

Lemma reads_provide_location e ea m err :
  body_ok (BProvideLocation e ea m err) →
  reads decodeProvideLocationInformation (body_bits (BProvideLocation e ea m err))
    (measurements_view <$> m, (λ e : ext_of _, e.2.2) <$> err).
Proof.
  intros (He & Hea & Hm & Herr & Hsome). unfold decodeProvideLocationInformation. cbn [body_bits]. bits. steps.
  eapply (reads_bind _ _ (opt_bits measurements_bits m) _ (measurements_view <$> m)).
  { destruct m as [m|]; [|apply reads_ret]. cbn [has opt_bits]. cbn in Hm. finish. }
  steps. eapply (reads_bind _ _ (opt_bits error_bits err) _ ((λ e : ext_of _, e.2.2) <$> err)).
  { destruct err as [err|]; [|apply reads_ret]. cbn [has opt_bits]. cbn in Herr. finish. }
  steps. eapply reads_bind_nil; [field|]. destruct m, err; try done; apply reads_ret.
Qed.

Lemma reads_body b f : body_ok b → reads (decodeBody (body_index b) f) (body_bits b) (body_view b f).
Proof.
  intros Hb. destruct b as [e a|e a|a|e c a|e ea m err]; unfold decodeBody; cbn [body_index]; cbn [Z.eqb Pos.eqb].
  - destruct Hb. eapply reads_bind_nil; [by apply reads_request_capabilities|apply reads_ret].
  - eapply reads_bind_nil; [by apply reads_provide_capabilities|apply reads_ret].
  - eapply reads_bind_nil; [by apply reads_assistance|apply reads_ret].
  - eapply reads_bind_nil; [by apply reads_request_location|apply reads_ret].
  - eapply reads_bind_nil; [by apply reads_provide_location|]. apply reads_ret.
Qed.

Lemma reads_txn t : additions_ok t.1 → 0 <= t.2.1 < 66 → is_u8 t.2.2 →
  reads decodeTransactionID (txn_bits t) (mkTransactionID t.2.1 t.2.2).
Proof.
  destruct t as [e [i n]]. cbn [fst snd]. intros He Hi Hn. unfold decodeTransactionID, txn_bits. cbn [fst snd]. bits.
  eapply reads_bind; [apply reads_wrap, (reads_readBit (extended e))|]. steps.
  eapply reads_bind; [apply reads_wrap, reads_bits; [exact Hn|lia]|].
  apply (reads_bind_nil _ _ _ tt).
  - pose proof (reads_skipper e He) as H. unfold skipper in H. destruct (extended e); cbn [Z.b2z Z.eqb Pos.eqb]; [by apply reads_wrap|done].
  - rewrite !u8_small by (unfold is_u8 in *; lia). apply reads_ret.
Qed.

Lemma body_index_range b : 0 <= body_index b < 16.
Proof. destruct b; vm_compute; split; congruence. Qed.

Lemma reads_message m : message_ok m → reads decodeMessage (message_bits m) (message_view m).
Proof.
  destruct m as [t s a e b]. intros (Ht & Hs & Ha & Hb). cbn in Ht, Hs, Ha, Hb. unfold decodeMessage, message_bits.
  cbn [ms_txn ms_seq ms_ack ms_end ms_body]. steps.
  eapply (reads_bind _ _ (opt_bits txn_bits t) _
    (match t with Some t => mkTransactionID t.2.1 t.2.2 | None => mkTransactionID 0 0 end)).
  { destruct t as [t|]; [|apply reads_ret]. destruct Ht as (H1 & H2 & H3). by apply reads_txn. }
  steps. eapply (reads_bind _ _ (opt_bits ack_bits a)).
  { destruct a as [[f o]|]; [|apply reads_ret]. cbn in Ha. cbn [has opt_bits]. unfold decodeAcknowledgement, ack_bits.
    cbn [fst snd]. steps. finish. }
  eapply reads_bind; [apply reads_wrap, (reads_readBit false)|]. cbv beta iota. cbn [Z.b2z Z.eqb negb].
  eapply (reads_bind _ _ (bits_of 4 (body_index b))); [apply reads_wrap, reads_bits; [apply body_index_range|vm_compute; lia]|].
  rewrite app_assoc. apply (reads_bind _ _ ([false] ++ bits_of 2 0) _ tt).
  - unfold decodeCriticalExtensions. eapply reads_bind; [apply reads_wrap, (reads_readBit false)|]. cbn [Z.b2z Z.eqb negb].
    eapply reads_bind_nil; [apply reads_wrap, reads_bits; [by vm_compute|lia]|]. apply reads_ret.
  - by apply reads_body.
Qed.

Lemma Decode_message m b rest :
  message_ok m → octets_bits b = message_bits m ++ rest → Decode b = Ok (message_view m).
Proof.
  intros Hm Hb. destruct (reads_message m Hm (mkBitReader b 0) rest) as (r' & E & _); [exact Hb|].
  unfold Decode. by rewrite E.
Qed.

(** * The builders write them *)

Inductive request :=
| RequestCapabilities
| ReportCapabilities (gnssSupported : bool)
| Assist (ad : AssistanceData)
| RequestLocation
| ReportLocation (meas : LocationMeasurements)
| ReportError (cause : Z).

Definition Build (txn : TransactionID) (q : request) : res bytes :=
  match q with
  | RequestCapabilities => BuildRequestCapabilities txn
  | ReportCapabilities g => BuildProvideCapabilities txn g
  | Assist ad => BuildProvideAssistanceData txn ad
  | RequestLocation => BuildRequestLocationInformation txn
  | ReportLocation m => BuildProvideLocationInformation txn m
  | ReportError c => BuildProvideLocationInformationError txn c
  end.

Definition sat_of (s : SatMeas) : sat :=
  mkSat [] ([], SVID s) (CNo s) (MpathDet s) None (CodePhase s) (Some (IntegerCodePhase s)) (CodePhaseRMSError s) None None.
Definition sv_ok (s : SatMeas) : Prop :=
  within 0 63 (SVID s) ∧ within 0 63 (CNo s) ∧ within 0 3 (MpathDet s) ∧ within 0 2097151 (CodePhase s) ∧
  within 0 127 (IntegerCodePhase s) ∧ within 0 63 (CodePhaseRMSError s).

Definition request_body (q : request) : body :=
  match q with
  | RequestCapabilities => BRequestCapabilities [] (Some ([], (true, false, false)))
  | ReportCapabilities g =>
      BProvideCapabilities []
        (if g then Some ([], Some [mkSupport [] ([], GNSSIDGPS) None ([], bits_of 8 posModesUEAssisted)
                                     ([], bits_of 8 gnssSignalIDsGPSL1CA) false false])
         else None)
  | Assist ad =>
      BAssistanceData (mkAssistance [] [] [] [] [] (mkSystemTime [] ([], GNSSIDGPS) (DayNumber ad) (TimeOfDay ad) None None)
        (Some (ReferenceTimeUnc ad)) (ad_ReferenceLocation ad))
  | RequestLocation =>
      BRequestLocation [] (Some ([], locationMeasurementsRequired))
        (Some ([], [], ([], bits_of 8 gnssIDBitmapGPS), (false, false, false, false)))
  | ReportLocation m =>
      BProvideLocation [] []
        (Some (mkMeasurements [] [] (GNSSTODMsec m) None None ([], GNSSIDGPS) [] ([], GNSSIDGPS) [] ([], 0) None
                 (sat_of <$> Sats m))) None
  | ReportError c => BProvideLocation [] [] None (Some ([], (false, false, false, c)))
  end.

(** The UE's answers and the assistance data end their transaction. *)
Definition ends (q : request) : bool :=
  match q with RequestCapabilities | RequestLocation => false | _ => true end.

Definition request_message (txn : TransactionID) (q : request) : message :=
  mkMsg (Some ([], (Initiator txn, Number txn))) None None (ends q) (request_body q).

Definition request_ok (q : request) : Prop :=
  match q with
  | Assist ad =>
      within 0 32767 (DayNumber ad) ∧ within 0 86399 (TimeOfDay ad) ∧ within 0 127 (ReferenceTimeUnc ad) ∧
      location_ok (ad_ReferenceLocation ad)
  | ReportLocation m =>
      within 0 3599999 (GNSSTODMsec m) ∧ within 1 64 (Z.of_nat (length (Sats m))) ∧ Forall sv_ok (Sats m)
  | ReportError c => within 0 3 c
  | _ => True
  end.

Definition request_PDU (txn : TransactionID) (q : request) : PDU :=
  match q with
  | RequestCapabilities => mkPDU MsgRequestCapabilities true txn false None None None None
  | ReportCapabilities g =>
      mkPDU MsgProvideCapabilities true txn true (Some (mkCapabilities g g (if g then [GNSSIDGPS] else []))) None None None
  | Assist ad => mkPDU MsgProvideAssistanceData true txn true None (Some ad) None None
  | RequestLocation => mkPDU MsgRequestLocationInformation true txn false None None None None
  | ReportLocation m => mkPDU MsgProvideLocationInformation true txn true None None (Some m) None
  | ReportError c => mkPDU MsgProvideLocationInformation true txn true None None None (Some c)
  end.

Lemma additions_none : additions_ok [].
Proof. split; [cbn; lia|constructor]. Qed.
#[local] Hint Resolve additions_none : uper.

Lemma sat_of_ok s : sv_ok s → sat_ok (sat_of s).
Proof. unfold sv_ok, sat_ok, sat_of, within. cbn. intros. split_and!; auto using additions_none; lia. Qed.

Lemma request_message_ok txn q :
  within 0 1 (Initiator txn) → is_u8 (Number txn) → request_ok q → message_ok (request_message txn q).
Proof.
  intros Hi Hn Hq. unfold message_ok, request_message. cbn [ms_txn ms_seq ms_ack ms_body opt_ok fst snd].
  split_and!; auto using additions_none; [unfold within in Hi; lia|unfold within in Hi; lia|].
  pose proof additions_none as He.
  destruct q as [|[]|ad| |m|c]; cbn [request_body body_ok opt_ok fst snd]; try done.
  - split; [done|]. split; [done|]. cbn [opt_ok snd]. split; [unfold within; cbn; lia|]. constructor; [|constructor].
    unfold support_ok, gnss_ok, bitstring_ok. cbn. split_and!; done || lia.
  - destruct Hq as (Hd & Ht & Hu & Hl). by split_and!.
  - destruct Hq as (Ht & Hn' & Hs). split_and!; try done. unfold measurements_ok. cbn. rewrite length_fmap.
    split_and!; try done.
    apply Forall_fmap. eapply Forall_impl; [exact Hs|]. apply sat_of_ok.
  - cbn in Hq. unfold within in Hq. split_and!; try done. split; [done|]. cbn. lia.
Qed.

Lemma sats_view (sats : list SatMeas) : sat_view <$> (sat_of <$> sats) = sats.
Proof. induction sats as [|[] sats IH]; [done|]. cbn. f_equal. exact IH. Qed.

Lemma request_view txn q : message_view (request_message txn q) = request_PDU txn q.
Proof.
  destruct txn as [i n]. destruct q as [|[]|ad| |[tod sats]|c]; try reflexivity; [by destruct ad|].
  unfold message_view, measurements_view, request_message.
  cbn [ms_body ms_txn ms_end request_body body_view fmap option_fmap option_map measurements_view me_tod me_sats Sats GNSSTODMsec].
  unfold measurements_view. cbn [me_tod me_sats]. by rewrite sats_view.
Qed.

(** ** What each builder appends *)

Lemma writes_eq p b b' : writes p b → b = b' → writes p b'.
Proof. by intros ? <-. Qed.

Ltac wfield :=
  lazymatch goal with
  | |- writes (wrap _ _) _ => apply writes_wrap; wfield
  | |- writes (writeBit 0) _ => apply writes_zero
  | |- writes (writeBool _) _ => apply writes_bool
  | |- writes (writeBits _ _) _ => apply writes_bits
  | |- writes (writeConstrained _ _ _) _ => apply writes_constrained; [first [assumption|unfold bitStringPinnedLen; lia]|lia|lia]
  | |- writes (writeEnumExt _ _) _ => apply writes_enum; first [assumption|lia|by vm_compute]
  | |- _ => eassumption
  end.
Ltac wsteps := repeat lazymatch goal with |- writes (_ ≫= _) _ => eapply writes_bind; [wfield|] end; wfield.

Lemma writes_gnss : writes (writeGNSSID GNSSIDGPS) (gnss_bits ([], GNSSIDGPS)).
Proof. eapply writes_eq; [unfold writeGNSSID; wsteps|reflexivity]. Qed.

Definition envelope_bits (txn : TransactionID) (e : bool) (c1 : Z) : list bool :=
  [true; false; false; true] ++ txn_bits ([], (Initiator txn, Number txn)) ++ [e] ++ [false] ++ bits_of 4 c1 ++ [false] ++ bits_of 2 0.

Lemma writes_envelope txn e c1 : within 0 1 (Initiator txn) → writes (writeEnvelope txn e c1) (envelope_bits txn e c1).
Proof.
  intros Hi. assert (Initiator txn < 2) by (unfold within in Hi; lia).
  eapply writes_eq; [unfold writeEnvelope; wsteps|]. unfold envelope_bits, txn_bits, seq_bits. cbn [fst snd].
  rewrite <- !app_assoc. reflexivity.
Qed.

Lemma message_envelope txn q :
  message_bits (request_message txn q) = envelope_bits txn (ends q) (body_index (request_body q)) ++ body_bits (request_body q).
Proof. unfold message_bits, envelope_bits. cbn [request_message ms_txn ms_seq ms_ack ms_end ms_body has opt_bits]. by rewrite <- !app_assoc. Qed.

Lemma number_bit v : number_bits 0 1 v = bits_of 1 v.
Proof. unfold number_bits. by rewrite !Z.sub_0_r. Qed.

Lemma writes_location l : location_ok l → writes (writeReferenceLocation l) (location_bits l).
Proof.
  intros (Ha & Hb & Hc & Hd & He & Hf & Hg & Hi & Hj & Hk). eapply writes_eq; [unfold writeReferenceLocation; wsteps|].
  unfold location_bits. by rewrite !number_bit.
Qed.

Lemma writes_sat s : sv_ok s → writes (writeSatMeas s) (sat_bits (sat_of s)).
Proof.
  intros (Ha & Hb & Hc & Hd & He & Hf). assert (MpathDet s < mpathDetRootCount) by (unfold within in Hc; cbv [mpathDetRootCount]; lia).
  unfold writeSatMeas. destruct (Z.leb_spec mpathDetRootCount (MpathDet s)); [lia|].
  eapply writes_eq; [wsteps|]. unfold sat_bits, seq_bits.
  cbn [sa_ext sa_svid sa_cno sa_mpath sa_carrier sa_phase sa_integer sa_rms sa_doppler sa_adr sat_of fst snd has opt_bits].
  rewrite !app_nil_r, <- !app_assoc. reflexivity.
Qed.

Lemma writes_sats l : Forall sv_ok l → writes (writeSats l) (concat (sat_bits <$> (sat_of <$> l))).
Proof. induction 1 as [|s l Hs Hl IH]; [apply writes_ret|]. apply writes_bind; [by apply writes_sat|exact IH]. Qed.

(** ** Running a builder *)

Lemma build_run p bs :
  writes p bs → ∃ b, build p = Ok b ∧ bytes_ok b ∧ ∃ k, (k < 8)%nat ∧ octets_bits b = bs ++ replicate k false.
Proof.
  intros Hp. destruct (writes_run p bs Hp) as (w & E & Hok & k & Hk & Hb). unfold build. rewrite E. eauto 10.
Qed.

(** After the envelope, the body of the message. *)
Lemma build_message txn q (p : ST bitWriter unit) :
  within 0 1 (Initiator txn) → writes p (body_bits (request_body q)) →
  ∃ b, build (_ ← writeEnvelope txn (ends q) (body_index (request_body q)); p) = Ok b ∧ bytes_ok b ∧
    ∃ k, (k < 8)%nat ∧ octets_bits b = message_bits (request_message txn q) ++ replicate k false.
Proof. intros Hi Hp. rewrite message_envelope. apply build_run, writes_bind; [by apply writes_envelope|done]. Qed.

Lemma Build_writes txn q :
  within 0 1 (Initiator txn) → request_ok q →
  ∃ b, Build txn q = Ok b ∧ bytes_ok b ∧
    ∃ k, (k < 8)%nat ∧ octets_bits b = message_bits (request_message txn q) ++ replicate k false.
Proof.
  intros Hi Hq. pose proof writes_gnss as Hg. destruct q as [|[]|ad| |m|c].
  - apply (build_message txn RequestCapabilities); [done|]. eapply writes_eq; [wsteps|reflexivity].
  - apply (build_message txn (ReportCapabilities true)); [done|]. cbn [negb]. eapply writes_eq; [wsteps|reflexivity].
  - apply (build_message txn (ReportCapabilities false)); [done|]. cbn [negb]. eapply writes_eq; [wsteps|reflexivity].
  - destruct Hq as (Hd & Ht & Hu & Hl). pose proof (writes_location _ Hl).
    apply (build_message txn (Assist ad)); [done|]. eapply writes_eq; [wsteps|].
    cbn [request_body body_bits]. unfold assistance_bits, reference_time_bits, system_time_bits, seq_bits.
    cbn [as_ext as_agnss as_common as_time_ext as_loc_ext as_time as_unc as_loc st_ext st_gnss st_day st_tod st_frac st_leap has opt_bits].
    rewrite ?app_nil_r, <- !app_assoc, ?app_nil_r. reflexivity.
  - apply (build_message txn RequestLocation); [done|]. eapply writes_eq; [wsteps|reflexivity].
  - destruct Hq as (Ht & Hn & Hs). pose proof (writes_sats _ Hs). cbn [Build]. unfold BuildProvideLocationInformation.
    unfold within in Hn. destruct (Nat.eqb_spec (length (Sats m)) 0), (Nat.ltb_spec 64 (length (Sats m))); try lia. cbn [orb].
    apply (build_message txn (ReportLocation m)); [done|]. eapply writes_eq; [wsteps|].
    cbn [request_body body_bits]. unfold measurements_bits, measurement_time_bits, signal_bits, seq_bits.
    cbn [has opt_bits me_ext me_time_ext me_tod me_frac me_unc me_time_id me_one_ext me_gnss me_sgn_ext me_signal me_ambiguity me_sats fst snd].
    rewrite length_fmap, ?app_nil_r, <- !app_assoc, ?app_nil_r. reflexivity.
  - cbn [Build]. cbn in Hq. unfold within in Hq. unfold BuildProvideLocationInformationError.
    assert (c < gnssTargetErrorRootCount) by (cbv [gnssTargetErrorRootCount]; lia).
    destruct (Z.leb_spec gnssTargetErrorRootCount c); [lia|].
    apply (build_message txn (ReportError c)); [done|]. eapply writes_eq; [wsteps|].
    cbn [request_body body_bits]. unfold error_bits, seq_bits. cbn [has opt_bits fst snd extended additions_tail length].
    rewrite !app_nil_r. reflexivity.
Qed.

(** C19: The decoder accepts every message of the subset, with any combination of
    the OPTIONAL fields it knows and with any extension additions a later version
    of the protocol may set in any of the extensible SEQUENCEs, whatever bits
    follow, and reports exactly the values in it. *)
Theorem Decode_subset m b rest :
  message_ok m → octets_bits b = message_bits m ++ rest → Decode b = Ok (message_view m).
Proof. apply Decode_message. Qed.

(** A capability report with a sequence number, an SBAS bitmap and additions at
    three levels. *)
Definition demo_message : message :=
  mkMsg (Some ([Some [1; 2]; None], (0, 7))) (Some 3) (Some (true, Some 9)) true
    (BProvideCapabilities [None; Some []]
       (Some ([], Some [mkSupport [] ([], 0) (Some ([Some (replicate 200 170)], [true; false])) ([], [false; false; true; true])
                          ([], bits_of 8 0x80) true false]))).
Fixpoint octets (n : nat) (l : list bool) : bytes :=
  match n with
  | O => []
  | S n => val64 (take 8 (l ++ replicate 8 false)) 0 :: octets n (drop 8 l)
  end.
Definition demo_octets : bytes := octets (Z.to_nat ((Z.of_nat (length (message_bits demo_message)) + 7) / 8)) (message_bits demo_message).
Definition demo_report : PDU :=
  mkPDU MsgProvideCapabilities true (mkTransactionID 0 7) true (Some (mkCapabilities true true [0])) None None None.

Lemma Decode_subset_witness : Decode demo_octets = Ok demo_report.
Proof.
  apply (Decode_subset demo_message demo_octets (drop (length (message_bits demo_message)) (octets_bits demo_octets))).
  - unfold message_ok, demo_message, body_ok, support_ok, gnss_ok, bitstring_ok, additions_ok, is_u8, within.
    cbn [ms_txn ms_seq ms_ack ms_body opt_ok fst snd]. split_and!; try lia; try (cbn; lia); try done.
    all: repeat constructor; cbn; try lia; try done.
  - vm_compute. reflexivity.
Defined.

(** Every message the two ends of the positioning exchange build is a whole
    number of octets that the other end decodes to the same transaction and the
    same payload. *)
Lemma LPP_roundtrip txn q :
  within 0 1 (Initiator txn) → is_u8 (Number txn) → request_ok q →
  ∃ b, Build txn q = Ok b ∧ bytes_ok b ∧ Decode b = Ok (request_PDU txn q).
Proof.
  intros Hi Hn Hq. destruct (Build_writes txn q Hi Hq) as (b & E & Hok & k & _ & Hb). exists b. split_and!; [done..|].
  rewrite <- request_view. eapply Decode_message; [by apply request_message_ok|exact Hb].
Qed.

(** The reference assistance data of the project's wire contract. *)
Definition golden_assistance : AssistanceData :=
  mkAssistanceData 16616 41618 32 (mkReferenceLocation 0 3767118 (-172610) 0 0 42 42 0 127 68).

Example golden_octets :
  match Build (mkTransactionID 0 2) (Assist golden_assistance) with Ok b => unstr (hexEncode b) | _ => "" end
  = "900518223100207428a4900e5ed39f576f8000152a00ff10".
Proof. vm_compute. reflexivity. Qed.

(** * No panic *)

Lemma rsafe_present p i : (i < length p)%nat → rsafe (present p i).
Proof. intros Hi r. unfold present, idx. destruct (lookup_lt_is_Some_2 p i Hi) as [b ->]. done. Qed.

Lemma rsafe_any_present p js : Forall (λ j, j < length p)%nat js → rsafe (any_present p js).
Proof.
  induction 1 as [|j js Hj Hjs IH]; [apply rsafe_ret|]. cbn [any_present].
  apply rsafe_bind; [by apply rsafe_present|]. intros []; [apply rsafe_ret|done].
Qed.
#[local] Hint Extern 2 (rsafe (present _ _)) => apply rsafe_present; lia : uper.
#[local] Hint Extern 2 (rsafe (any_present _ _)) => apply rsafe_any_present; repeat constructor; lia : uper.

(** An extensible SEQUENCE: reading its additions is safe too. *)
Lemma rsafe_seqext {B} (f : ST bitReader unit → ST bitReader B) :
  (∀ k, rsafe k → rsafe (f k)) → rsafe (readSeqExt ≫= f).
Proof.
  intros Hf. unfold readSeqExt. intros r. unfold mbind, ST_bind. pose proof (rsafe_readBit r) as Hs.
  destruct (readBit r) as [[b r']| | |]; try done. cbn. apply Hf. destruct (b =? 0); eauto with uper.
Qed.

Lemma rsafe_seqext_wrap {B} msg (f : ST bitReader unit → ST bitReader B) :
  (∀ k, rsafe k → rsafe (f k)) → rsafe (wrap msg readSeqExt ≫= f).
Proof.
  intros Hf r. pose proof (rsafe_seqext f Hf r) as H. unfold wrap, mbind, ST_bind in *. by destruct (readSeqExt r).
Qed.

Ltac psafe :=
  repeat first
    [ apply rsafe_seqext; intros ? ? | apply rsafe_seqext_wrap; intros ? ?
    | apply rsafe_presence; intros ? ? | apply rsafe_presence_wrap; intros ? ?
    | solve [eauto with uper]
    | apply rsafe_bind; [|intros ?]
    | apply rsafe_wrap | apply rsafe_repeat
    | match goal with |- rsafe (match ?x with _ => _ end) => destruct x end
    | match goal with |- rsafe (let '(_, _) := ?x in _) => destruct x end
    | match goal with |- rsafe (match ?x with _ => _ end _) => destruct x end ].

Lemma rsafe_gnss : rsafe decodeGNSSID.
Proof. unfold decodeGNSSID. psafe. Qed.
Lemma rsafe_bitstring m1 m2 ub : rsafe (decodeBitString m1 m2 ub).
Proof. unfold decodeBitString. psafe. Qed.
Lemma rsafe_ignore b m lb ub : rsafe (ignore_if b m lb ub).
Proof. unfold ignore_if. psafe. Qed.
#[local] Hint Resolve rsafe_gnss rsafe_bitstring rsafe_ignore : uper.
Lemma rsafe_support : rsafe decodeGNSSSupportElement.
Proof. unfold decodeGNSSSupportElement. psafe. Qed.
Lemma rsafe_system_time : rsafe decodeSystemTime.
Proof. unfold decodeSystemTime. psafe. Qed.
Lemma rsafe_sat : rsafe decodeSatMeasElement.
Proof. unfold decodeSatMeasElement. psafe. Qed.
#[local] Hint Resolve rsafe_support rsafe_system_time rsafe_sat : uper.
Lemma rsafe_reference_time : rsafe decodeReferenceTime.
Proof. unfold decodeReferenceTime. psafe. Qed.
Lemma rsafe_location : rsafe decodeReferenceLocation.
Proof. unfold decodeReferenceLocation. psafe. Qed.
Lemma rsafe_signal : rsafe decodeSgnMeasElement.
Proof. unfold decodeSgnMeasElement. psafe. Qed.
Lemma rsafe_measurement_time : rsafe decodeMeasurementTime.
Proof. unfold decodeMeasurementTime. psafe. Qed.
#[local] Hint Resolve rsafe_reference_time rsafe_location rsafe_signal rsafe_measurement_time : uper.

Lemma rsafe_body c1 f : rsafe (decodeBody c1 f).
Proof.
  unfold decodeBody, decodeRequestCapabilities, decodeProvideCapabilities, decodeProvideAssistanceData,
    decodeRequestLocationInformation, decodeProvideLocationInformation, decodeSignalMeasurementInformation,
    decodeAGNSSError, decodeCommonRequest, decodePositioningRequest. psafe.
Qed.
#[local] Hint Resolve rsafe_body : uper.

(** The decoder returns on every input, with a message or an error: it never
    indexes outside the buffer or the presence bits. *)
Lemma LPP_Decode_total b : safe (Decode b).
Proof.
  assert (rsafe decodeMessage) as H.
  { unfold decodeMessage, decodeTransactionID, decodeAcknowledgement, decodeCriticalExtensions. psafe. }
  specialize (H (mkBitReader b 0)). unfold Decode. by destruct (decodeMessage (mkBitReader b 0)) as [[]| | |].
Qed.

(** * Times *)

(** From the GPS epoch until the day number overflows its 15 bits in 2069, the
    times the LMF and the UE compute are in the ranges of their fields. *)
Lemma gps_time_fits unixUTC msec :
  GPSEpochUnix <= unixUTC < GPSEpochUnix + 32768 * 86400 - GPSUTCLeapSeconds → 0 <= msec < 1000 →
  let '(day, tod) := UnixToGPSDayTime unixUTC in
  within 0 32767 day ∧ within 0 86399 tod ∧ day * 86400 + tod = gpsSeconds unixUTC ∧
  within 0 3599999 (GPSTODMsec unixUTC msec).
Proof.
  unfold GPSEpochUnix, GPSUTCLeapSeconds. intros Hu Hm. unfold UnixToGPSDayTime, GPSTODMsec.
  assert (gpsSeconds unixUTC = unixUTC - 315964800 + 18) as ->.
  { unfold gpsSeconds, GPSEpochUnix, GPSUTCLeapSeconds. rewrite !i64_small; unfold is_i64; rewrite ?i64_small; unfold is_i64; lia. }
  set (g := unixUTC - 315964800 + 18). assert (0 <= g < 32768 * 86400) as Hg by (unfold g; lia).
  rewrite Z.quot_div_nonneg, !Z.rem_mod_nonneg by lia. unfold within, u16, u32.
  rewrite !i64_small by (unfold is_i64; rewrite ?i64_small by (unfold is_i64; dlia); dlia).
  rewrite !Z.mod_small by dlia. dlia.
Qed.

(** An index past the root values is taken for an extension value. *)
Lemma enum_spare_accepted :
  reads (readEnumExt gnssIDRootCount) (false :: bits_of 3 6) 6 ∧ reads (readEnumExt gnssIDRootCount) (enum_bits gnssIDRootCount 6) 6.
Proof.
  split; [|by apply reads_enum].
  apply (reads_bind _ _ [false]) with 0; [apply (reads_readBit false)|]. by apply reads_bits; [|vm_compute; lia].
Qed.
