(* ===== verification/SmfPools.v ===== *)
(** * The address pools of the SMF

    [nf/smf/internal/server/server.go] (type [IPPool]) and [ipv6.go].

    An address ([net.IP]) is the list of its octets, four or sixteen of them; a
    subnet ([net.IPNet]) is an address with a mask of the same length.  The
    operations of package [net] the pools use ([To4], [To16], [Mask], [Contains],
    [Equal], [CIDRMask]) are modelled as the library defines them.  The text of an
    address is only a key of the map of allocated addresses, and it is the same
    for two addresses exactly when their sixteen-octet forms are: [ipString] is
    that form.  A CIDR text is represented by the result of parsing it.

    The loop of [Allocate] has as fuel one more iteration than there are addresses
    it may have to step over; [Allocate_spec] shows that it is never exhausted and
    which address is found.
*)
From S2P Require Import Prelude NasPduSession.
Open Scope Z_scope.

(** ** Addresses *)
(** [net.IP]: nil is the empty list. *)
Abbreviation IP := bytes (only parsing).

(** The key [ip.String()] of a map: the sixteen-octet form, or the octets
    themselves for an address of another length. *)
Definition ipString (ip : IP) : bytes := default ip (To16 ip).

Definition ipEqual (a b : IP) : bool :=
  if (length a =? length b)%nat then bool_decide (a = b)
  else if (length a =? 4)%nat && (length b =? 16)%nat then
    bool_decide (v4InV6Prefix ++ a = b)
  else if (length a =? 16)%nat && (length b =? 4)%nat then
    bool_decide (a = v4InV6Prefix ++ b)
  else false.

(** [net.CIDRMask(ones, 8 * len)]: the first [ones] bits set. *)
Fixpoint CIDRMask (ones : nat) (len : nat) : bytes :=
  match len with
  | O => []
  | S l => (if (8 <=? ones)%nat then 255 else u8 (Z.lnot (255 ≫ Z.of_nat ones)))
           :: CIDRMask (ones - 8) l
  end.

Record IPNet := mkIPNet { netIP : IP; netMask : bytes }.

#[export] Instance IPNet_eq_dec : EqDecision IPNet.
Proof. solve_decision. Defined.

(** [ip.Mask(mask)] for an address and a mask of one length. *)
Definition Mask (ip : IP) (mask : bytes) : IP := zip_with Z.land ip mask.

Definition Contains (n : IPNet) (ip : IP) : bool :=
  let nn := default (netIP n) (To4 (netIP n)) in
  let ip := default ip (To4 ip) in
  (length ip =? length nn)%nat &&
  bool_decide (zip_with Z.land nn (netMask n) = zip_with Z.land ip (netMask n)).

(** The result of [net.ParseCIDR] on a text: an error, or the address and the
    network of the prefix. *)
Definition ParseCIDR := option (IP * IPNet).

(** [incIP]: the last octet is incremented, with a carry while octets wrap. *)
Fixpoint incIP_carry (ip : IP) : IP * bool :=
  match ip with
  | [] => ([], true)
  | x :: r =>
      let '(r', carry) := incIP_carry r in
      if carry then let y := u8 (x + 1) in (y :: r', negb (0 <? y))
      else (x :: r', false)
  end.
Definition incIP (ip : IP) : IP := fst (incIP_carry ip).

(** ** The IPv4 pool *)
Record IPPool := mkIPPool { subnet : IPNet; allocated : gmap bytes bool }.

Definition NewIPPool (cidr : ParseCIDR) : option IPPool :=
  '(_, subnet) ← cidr; Some (mkIPPool subnet ∅).

(** [p.allocated[ip.String()]]. *)
Definition isAllocated (p : IPPool) (ip : IP) : bool :=
  default false (allocated p !! ipString ip).

Definition gateway (p : IPPool) : IP :=
  incIP (Mask (netIP (subnet p)) (netMask (subnet p))).

(** The body of the loop: the condition under which an address is handed out. *)
Definition eligible (p : IPPool) (ip : IP) : bool :=
  negb (isAllocated p ip) && negb (ipEqual ip (netIP (subnet p)))
  && negb (ipEqual ip (gateway p)).

(** [None]: the loop is still running when the fuel is used up. *)
Fixpoint allocate_from (fuel : nat) (p : IPPool) (ip : IP) : option (option IP) :=
  match fuel with
  | O => None
  | S f =>
      if Contains (subnet p) ip then
        if eligible p ip then Some (Some ip) else allocate_from f p (incIP ip)
      else Some None
  end.

Definition allocate_fuel (p : IPPool) : nat := 3 + size (allocated p).

(** [Allocate]: the pool afterwards and the address, or [None] for the error
    [IP pool exhausted]. *)
Definition Allocate (p : IPPool) : option (IPPool * option IP) :=
  r ← allocate_from (allocate_fuel p) p (Mask (netIP (subnet p)) (netMask (subnet p)));
  match r with
  | Some ip => Some (mkIPPool (subnet p) (<[ipString ip := true]> (allocated p)), Some ip)
  | None => Some (p, None)
  end.

Definition Release (p : IPPool) (ip : IP) : IPPool :=
  mkIPPool (subnet p) (delete (ipString ip) (allocated p)).

(** ** The IPv6 pool *)
Record IPv6Pool := mkIPv6Pool {
  base : IP;
  baseOnes : Z;
  startByte : nat;
  max6 : Z;
  allocated6 : gmap Z bool
}.

(** [ipnet.Mask.Size()] of a mask made by [CIDRMask]: the number of bits set. *)
Fixpoint maskOnes (mask : bytes) : Z :=
  match mask with
  | [] => 0
  | b :: r =>
      if b =? 255 then 8 + maskOnes r
      else if b =? 254 then 7 else if b =? 252 then 6 else if b =? 248 then 5
      else if b =? 240 then 4 else if b =? 224 then 3 else if b =? 192 then 2
      else if b =? 128 then 1 else 0
  end.

(** [copy(base, ipnet.IP.To16())] into sixteen zero octets; a nil source copies
    nothing. *)
Definition copy16 (ip : option IP) : IP := go_copy (replicate 16 0) (default [] ip).

Definition NewIPv6Pool (cidr : ParseCIDR) : option IPv6Pool :=
  '(ip, ipnet) ← cidr;
  match To4 ip with
  | Some _ => None
  | None =>
      let ones := maskOnes (netMask ipnet) in
      if (ones <? 8) || (64 <? ones) || negb (ones mod 8 =? 0) then None
      else Some (mkIPv6Pool (copy16 (To16 (netIP ipnet))) ones (Z.to_nat (ones / 8))
                            (u64 (1 ≪ (64 - ones))) ∅)
  end.

(** [ip[b] = byte(v & 0xFF); v >>= 8] for [b] from 7 down to [startByte]. *)
Fixpoint prefix_octets (n : nat) (b : nat) (v : Z) (ip : IP) : IP :=
  match n with
  | O => ip
  | S m => prefix_octets m (b - 1) (v ≫ 8) (<[b := u8 (Z.land v 255)]> ip)
  end.
Definition prefixForIndex (p : IPv6Pool) (idx : Z) : IPNet :=
  mkIPNet (prefix_octets (8 - startByte p) 7 idx (go_copy (replicate 16 0) (base p)))
          (CIDRMask 64 16).

(** [idx = (idx << 8) | uint64(ip16[b])] for [b] from [startByte] to 7. *)
Fixpoint index_octets (octets : bytes) (idx : Z) : Z :=
  match octets with
  | [] => idx
  | o :: r => index_octets r (Z.lor (u64 (idx ≪ 8)) o)
  end.
Definition indexForPrefix (p : IPv6Pool) (ip : IP) : option Z :=
  ip16 ← To16 ip;
  let idx := index_octets (drop (startByte p) (take 8 ip16)) 0 in
  if max6 p <=? idx then None else Some idx.

Definition defaultIID : bytes := [0; 0; 0; 0; 0; 0; 0; 1].

Fixpoint allocate6_from (fuel : nat) (p : IPv6Pool) (idx : Z) : option (option Z) :=
  match fuel with
  | O => None
  | S f =>
      if idx <? max6 p then
        if default false (allocated6 p !! idx) then allocate6_from f p (u64 (idx + 1))
        else Some (Some idx)
      else Some None
  end.

Definition Allocate6 (p : IPv6Pool) : option (IPv6Pool * option (IPNet * bytes)) :=
  r ← allocate6_from (S (size (allocated6 p))) p 0;
  match r with
  | Some idx =>
      Some (mkIPv6Pool (base p) (baseOnes p) (startByte p) (max6 p)
                       (<[idx := true]> (allocated6 p)),
            Some (prefixForIndex p idx, defaultIID))
  | None => Some (p, None)
  end.

(** [Release] with a nil prefix does nothing. *)
Definition Release6 (p : IPv6Pool) (prefix : option IPNet) : IPv6Pool :=
  match prefix with
  | None => p
  | Some n =>
      match indexForPrefix p (netIP n) with
      | Some idx => mkIPv6Pool (base p) (baseOnes p) (startByte p) (max6 p)
                               (delete idx (allocated6 p))
      | None => p
      end
  end.

(** ** The type of a session *)
Definition selectPDUSessionType (requested : option Z) (dnnSupportsV6 : bool) : Z :=
  match requested with
  | None => PDUSessionTypeIPv4
  | Some t =>
      if (t =? PDUSessionTypeIPv6) && dnnSupportsV6 then PDUSessionTypeIPv6
      else if (t =? PDUSessionTypeIPv4v6) && dnnSupportsV6 then PDUSessionTypeIPv4v6
      else PDUSessionTypeIPv4
  end.
Definition pduTypeNeedsIPv4 (t : Z) : bool :=
  (t =? PDUSessionTypeIPv4) || (t =? PDUSessionTypeIPv4v6).
Definition pduTypeNeedsIPv6 (t : Z) : bool :=
  (t =? PDUSessionTypeIPv6) || (t =? PDUSessionTypeIPv4v6).

(** The text of a delegated prefix kept in a session: empty, or a CIDR text with
    the result of parsing it. *)
Inductive CIDRText := NoCIDR | CIDR (parsed : ParseCIDR).

Definition ueIPv6Address (prefixCIDR : CIDRText) : option IP :=
  match prefixCIDR with
  | NoCIDR => None
  | CIDR None => None
  | CIDR (Some (_, ipnet)) =>
      let addr := copy16 (To16 (netIP ipnet)) in
      Some (take 8 addr ++ go_copy (drop 8 addr) defaultIID)
  end.

(** ** Addresses as numbers *)
(** The number an address denotes, most significant octet first. *)
Fixpoint beZ (b : bytes) : Z :=
  match b with [] => 0 | x :: r => x * 256 ^ Z.of_nat (length r) + beZ r end.

Lemma pow256 n : 256 ^ Z.of_nat n = 2 ^ (8 * Z.of_nat n).
Proof. by rewrite Z.pow_mul_r by lia. Qed.

Lemma pow256_S n : 256 ^ Z.of_nat (S n) = 256 * 256 ^ Z.of_nat n.
Proof. by rewrite Nat2Z.inj_succ, Z.pow_succ_r by lia. Qed.

Lemma beZ_range b : bytes_ok b → 0 <= beZ b < 256 ^ Z.of_nat (length b).
Proof.
  induction 1 as [|x r Hx Hr IH]; [simpl; lia|].
  cbn [beZ length]. rewrite pow256_S. unfold is_u8 in Hx. nia.
Qed.

Lemma beZ_inj a b : bytes_ok a → bytes_ok b → length a = length b → beZ a = beZ b → a = b.
Proof.
  intros Ha. revert b; induction Ha as [|x r Hx Hr IH]; intros [|y s] Hb Hl E; try done.
  apply Forall_cons in Hb as [Hy Hs]. cbn in Hl. injection Hl as Hl.
  cbn [beZ] in E. rewrite Hl in E.
  pose proof (beZ_range r Hr) as R1. pose proof (beZ_range s Hs) as R2. rewrite Hl in R1.
  assert (x = y) as -> by nia. f_equal. apply IH; auto. lia.
Qed.

Lemma incIP_carry_spec ip :
  bytes_ok ip →
  bytes_ok (incIP_carry ip).1 ∧ length (incIP_carry ip).1 = length ip ∧
  beZ (incIP_carry ip).1 =
    beZ ip + 1 - (if (incIP_carry ip).2 then 256 ^ Z.of_nat (length ip) else 0).
Proof.
  induction 1 as [|x r Hx Hr IH]; [repeat split; constructor|].
  cbn [incIP_carry]. destruct (incIP_carry r) as [r' c]. cbn [fst snd] in IH.
  destruct IH as (Hb & Hl & Hv). destruct c; cbn [fst snd].
  - assert (u8 (x + 1) = if x =? 255 then 0 else x + 1) as ->.
    { unfold u8, is_u8 in *. destruct (Z.eqb_spec x 255); [by subst|]. apply Z.mod_small; lia. }
    unfold is_u8 in Hx. split; [constructor; [unfold is_u8; destruct (x =? 255) eqn:?; lia|done]|].
    split; [cbn; by rewrite Hl|].
    cbn [beZ length]. rewrite Hl, Hv, pow256_S.
    destruct (Z.eqb_spec x 255); subst; [cbn; lia|]. destruct (Z.ltb_spec 0 (x + 1)); cbn; lia.
  - repeat split; [by constructor|cbn; by rewrite Hl|]. cbn [beZ length]. rewrite Hl, Hv. lia.
Qed.

Lemma incIP_ok ip : bytes_ok ip → bytes_ok (incIP ip) ∧ length (incIP ip) = length ip.
Proof. intros H. destruct (incIP_carry_spec ip H) as (? & ? & _). done. Qed.

(** [incIP] is the increment modulo the size of the address space. *)
Lemma incIP_beZ ip :
  bytes_ok ip → beZ (incIP ip) = (beZ ip + 1) mod 256 ^ Z.of_nat (length ip).
Proof.
  intros H. destruct (incIP_carry_spec ip H) as (Hb & Hl & Hv).
  pose proof (beZ_range _ Hb) as R. rewrite Hl in R. unfold incIP. rewrite Hv in *.
  destruct (incIP_carry ip).2.
  - apply Z.mod_unique with 1; lia.
  - rewrite Z.mod_small by lia. lia.
Qed.

(** Masking clears the host part. *)
Lemma land_mask_byte x n :
  is_u8 x → (n < 8)%nat →
  Z.land x (u8 (Z.lnot (255 ≫ Z.of_nat n))) = x - x mod 2 ^ (8 - Z.of_nat n).
Proof.
  intros Hx Hn.
  assert (forallb (λ n, forallb (λ x, Z.land x (u8 (Z.lnot (255 ≫ Z.of_nat n)))
                                     =? x - x mod 2 ^ (8 - Z.of_nat n))
                          (seqZ 0 256)) (seq 0 8) = true) as F by (vm_compute; reflexivity).
  rewrite forallb_forall in F. specialize (F n ltac:(apply in_seq; lia)).
  rewrite forallb_forall in F. apply Z.eqb_eq, F, list_elem_of_In, elem_of_seqZ.
  unfold is_u8 in Hx. lia.
Qed.

Lemma Mask_ok ip m : bytes_ok ip → bytes_ok m → bytes_ok (zip_with Z.land ip m).
Proof.
  intros Ha. revert m; induction Ha as [|x r Hx Hr IH]; intros [|y m] Hm; try constructor.
  - apply Forall_cons in Hm as [Hy _]. unfold is_u8 in *. split; [apply Z.land_nonneg; lia|].
    apply Z.log2_lt_cancel. change (Z.log2 256) with 8.
    destruct (Z.eq_dec (Z.land x y) 0) as [->|]; [done|].
    pose proof (Z.log2_land x y ltac:(lia) ltac:(lia)).
    assert (Z.log2 x < 8); [|lia]. destruct (Z.eq_dec x 0) as [->|]; [done|].
    apply Z.log2_lt_pow2; lia.
  - apply Forall_cons in Hm as [_ Hm]. by apply IH.
Qed.

Lemma CIDRMask_ok n l : bytes_ok (CIDRMask n l) ∧ length (CIDRMask n l) = l.
Proof.
  revert n; induction l as [|l IH]; intros n; [by split; [constructor|]|].
  destruct (IH (n - 8)%nat) as [H1 H2]. cbn [CIDRMask length]. rewrite H2.
  split; [constructor; [|done]|done]. case_match; [unfold is_u8; lia|apply u8_range].
Qed.

Lemma Mask_beZ ip n :
  bytes_ok ip → (n <= 8 * length ip)%nat →
  beZ (zip_with Z.land ip (CIDRMask n (length ip))) =
  beZ ip - beZ ip mod 2 ^ (8 * Z.of_nat (length ip) - Z.of_nat n).
Proof.
  intros H. revert n; induction H as [|x r Hx Hr IH]; intros n Hn.
  { destruct n; [done|cbn in Hn; lia]. }
  pose proof (beZ_range r Hr) as R. rewrite pow256 in R.
  cbn [length CIDRMask zip_with beZ] in *. rewrite length_zip_with, (proj2 (CIDRMask_ok _ _)), Nat.min_id.
  rewrite pow256. destruct (Nat.leb_spec 8 n).
  - rewrite IH by lia.
    replace (8 * Z.of_nat (S (length r)) - Z.of_nat n)
      with (8 * Z.of_nat (length r) - Z.of_nat (n - 8)) by lia.
    set (k := 8 * Z.of_nat (length r) - Z.of_nat (n - 8)).
    replace (2 ^ (8 * Z.of_nat (length r))) with (2 ^ Z.of_nat (n - 8) * 2 ^ k)
      by (rewrite <- Z.pow_add_r by lia; f_equal; lia).
    assert ((x * (2 ^ Z.of_nat (n - 8) * 2 ^ k) + beZ r) mod 2 ^ k = beZ r mod 2 ^ k) as ->.
    { rewrite Z.mul_assoc, Z.add_comm. apply Z_mod_plus_full. }
    rewrite land_255, Z.mod_small by (unfold is_u8 in Hx; lia). lia.
  - rewrite land_mask_byte by (done || lia).
    replace (n - 8)%nat with 0%nat by lia. rewrite IH by lia.
    replace (8 * Z.of_nat (length r) - Z.of_nat 0) with (8 * Z.of_nat (length r)) by lia.
    rewrite (Z.mod_small (beZ r)) by lia.
    replace (8 * Z.of_nat (S (length r)) - Z.of_nat n)
      with (8 * Z.of_nat (length r) + (8 - Z.of_nat n)) by lia.
    rewrite Z.pow_add_r by lia. set (M := 2 ^ (8 * Z.of_nat (length r))) in *.
    assert (0 < M) by (apply Z.pow_pos_nonneg; lia).
    assert (0 < 2 ^ (8 - Z.of_nat n)) by (apply Z.pow_pos_nonneg; lia).
    rewrite Z.rem_mul_r by lia.
    rewrite (Z.add_comm (x * M) (beZ r)), Z_mod_plus_full, (Z.mod_small (beZ r)) by lia.
    rewrite Z_div_plus_full, (Z.div_small (beZ r)) by lia. rewrite Z.add_0_l. ring.
Qed.

(** ** The IPv4 pool: which address is handed out *)
(** A pool over the IPv4 subnet of prefix length [ones], as [NewIPPool] makes it. *)
Record pool_ok (p : IPPool) (ones : nat) : Prop := {
  po_ones : (1 <= ones <= 32)%nat;
  po_ip : bytes_ok (netIP (subnet p)) ∧ length (netIP (subnet p)) = 4%nat;
  po_mask : netMask (subnet p) = CIDRMask ones 4;
  po_canon : Mask (netIP (subnet p)) (netMask (subnet p)) = netIP (subnet p)
}.

(** The network's number and the number of its addresses. *)
Definition netZ (p : IPPool) : Z := beZ (netIP (subnet p)).
Definition poolSize (ones : nat) : Z := 2 ^ (32 - Z.of_nat ones).

(** The [k]-th address of the subnet. *)
Definition addrAt (p : IPPool) (k : Z) : IP := put_be32 (netZ p + k).

Lemma put_be32_ok v : bytes_ok (put_be32 v) ∧ length (put_be32 v) = 4%nat.
Proof. split; [repeat constructor; apply u8_range|done]. Qed.

Lemma beZ_put_be32 v : beZ (put_be32 v) = u32 v.
Proof.
  unfold put_be32, beZ. cbn [length]. unfold u8, u32.
  rewrite !shiftr_div by lia. change (2 ^ 24) with 16777216. change (2 ^ 16) with 65536.
  change (2 ^ 8) with 256. change (256 ^ Z.of_nat 3) with 16777216.
  change (256 ^ Z.of_nat 2) with 65536. change (256 ^ Z.of_nat 1) with 256.
  change (256 ^ Z.of_nat 0) with 1. dlia.
Qed.

Lemma put_be32_beZ b : bytes_ok b → length b = 4%nat → put_be32 (beZ b) = b.
Proof.
  intros H Hl. pose proof (beZ_range b H) as R. rewrite Hl in R.
  change (256 ^ Z.of_nat 4) with 4294967296 in R.
  destruct (put_be32_ok (beZ b)). apply beZ_inj; [done|done|by rewrite Hl|].
  rewrite beZ_put_be32. apply Z.mod_small. lia.
Qed.

Lemma ipString_inj4 a b :
  length a = 4%nat → length b = 4%nat → ipString a = ipString b → a = b.
Proof. unfold ipString, To16. intros -> ->. cbn [Nat.eqb default]. by apply app_inv_head. Qed.

Lemma To4_4 a : length a = 4%nat → To4 a = Some a.
Proof. unfold To4. by intros ->. Qed.

Lemma ipEqual_4 a b : length a = 4%nat → length b = 4%nat → ipEqual a b = bool_decide (a = b).
Proof. unfold ipEqual. by intros -> ->. Qed.

Section Pool.
Context (p : IPPool) (ones : nat) (Hp : pool_ok p ones).

Lemma poolSize_pos : 1 <= poolSize ones <= 2147483648.
Proof.
  destruct Hp. unfold poolSize. split; [apply Z.lt_pred_le, Z.pow_pos_nonneg; lia|].
  change 2147483648 with (2 ^ 31). apply Z.pow_le_mono_r; lia.
Qed.

Lemma netZ_range : 0 <= netZ p < 4294967296.
Proof.
  destruct Hp as [_ [H1 H2] _ _]. pose proof (beZ_range _ H1) as R. by rewrite H2 in R.
Qed.

Lemma netZ_aligned : netZ p mod poolSize ones = 0.
Proof.
  destruct Hp as [Ho [H1 H2] Hm Hc]. unfold netZ, poolSize.
  pose proof (Mask_beZ _ ones H1 ltac:(lia)) as E. rewrite H2 in E.
  unfold Mask in Hc. rewrite Hm in Hc. rewrite Hc in E.
  replace (8 * Z.of_nat 4) with 32 in E by done. lia.
Qed.

(** The subnet lies within the address space. *)
Lemma netZ_top : netZ p + poolSize ones <= 4294967296.
Proof.
  pose proof netZ_aligned as A. pose proof netZ_range as R. pose proof poolSize_pos as S.
  assert (4294967296 = 2 ^ Z.of_nat ones * poolSize ones) as T.
  { unfold poolSize. destruct Hp. rewrite <- Z.pow_add_r by lia.
    replace (Z.of_nat ones + (32 - Z.of_nat ones)) with 32 by lia. done. }
  apply Z_div_exact_full_2 in A; [|lia]. rewrite T in R |- *.
  revert A R. generalize (netZ p / poolSize ones), (2 ^ Z.of_nat ones). intros q K A R.
  rewrite A in R |- *. assert (q < K) by nia. nia.
Qed.

Lemma Contains_range ip :
  bytes_ok ip → length ip = 4%nat →
  Contains (subnet p) ip = (netZ p <=? beZ ip) && (beZ ip <? netZ p + poolSize ones).
Proof.
  intros Hip Hl. destruct Hp as [Ho [H1 H2] Hm Hc]. unfold Contains, Mask in *.
  rewrite !To4_4 by done. cbn [default]. unfold id. rewrite Hl, H2, Nat.eqb_refl, Hc. cbn [andb].
  pose proof (Mask_beZ _ ones Hip ltac:(lia)) as E. rewrite Hl in E. rewrite Hm.
  change (8 * Z.of_nat 4) with 32 in E. fold (poolSize ones) in E.
  destruct (CIDRMask_ok ones 4) as [M1 M2].
  pose proof netZ_aligned as A. pose proof poolSize_pos as S. pose proof (beZ_range _ Hip) as R.
  pose proof netZ_range as RN.
  assert (netIP (subnet p) = zip_with Z.land ip (CIDRMask ones 4) ↔
          netZ p <= beZ ip < netZ p + poolSize ones) as I.
  { split.
    - intros Eq. unfold netZ. rewrite Eq, E. pose proof (Z.mod_pos_bound (beZ ip) (poolSize ones)). lia.
    - intros B. apply beZ_inj; [done|by apply Mask_ok| |].
      + by rewrite length_zip_with, M2, Hl.
      + rewrite E. fold (netZ p).
        enough (beZ ip mod poolSize ones = beZ ip - netZ p) by lia.
        replace (beZ ip) with (netZ p + (beZ ip - netZ p)) at 1 by lia.
        rewrite Z.add_mod, A, Z.add_0_l, Z.mod_mod, Z.mod_small; lia. }
  destruct (Z.leb_spec (netZ p) (beZ ip)), (Z.ltb_spec (beZ ip) (netZ p + poolSize ones));
    cbn [andb]; (apply bool_decide_eq_true_2 || apply bool_decide_eq_false_2); lia || (rewrite I; lia).
Qed.

Lemma beZ_addrAt k : 0 <= k < poolSize ones → beZ (addrAt p k) = netZ p + k.
Proof.
  intros Hk. unfold addrAt. rewrite beZ_put_be32. apply Z.mod_small.
  pose proof netZ_top. pose proof netZ_range. lia.
Qed.

Lemma addrAt_len k : bytes_ok (addrAt p k) ∧ length (addrAt p k) = 4%nat.
Proof. apply put_be32_ok. Qed.

Lemma addrAt_inj j k :
  0 <= j <= poolSize ones → 0 <= k <= poolSize ones → addrAt p j = addrAt p k → j = k.
Proof.
  intros Hj Hk E. apply (f_equal beZ) in E. unfold addrAt in E. rewrite !beZ_put_be32 in E.
  pose proof poolSize_pos. pose proof netZ_range. unfold u32 in E. dlia.
Qed.

Lemma addrAt_0 : addrAt p 0 = netIP (subnet p).
Proof.
  destruct Hp as [_ [H1 H2] _ _]. unfold addrAt. rewrite Z.add_0_r. by apply put_be32_beZ.
Qed.

Lemma incIP_addrAt k : 0 <= k < poolSize ones → incIP (addrAt p k) = addrAt p (k + 1).
Proof.
  intros Hk. destruct (addrAt_len k) as [O1 L1], (addrAt_len (k + 1)) as [O2 L2].
  destruct (incIP_ok _ O1) as [O3 L3]. apply beZ_inj; [done|done|congruence|].
  rewrite incIP_beZ, L1, beZ_addrAt by done. unfold addrAt. rewrite beZ_put_be32.
  change (256 ^ Z.of_nat 4) with 4294967296. unfold u32. f_equal. lia.
Qed.

Lemma gateway_addrAt : gateway p = addrAt p 1.
Proof.
  destruct Hp as [_ _ _ Hc]. unfold gateway. rewrite Hc, <- addrAt_0.
  apply (incIP_addrAt 0). pose proof poolSize_pos. lia.
Qed.

Lemma Contains_addrAt k :
  0 <= k <= poolSize ones → Contains (subnet p) (addrAt p k) = (k <? poolSize ones).
Proof.
  intros Hk. destruct (addrAt_len k) as [O L]. rewrite Contains_range by done.
  pose proof netZ_top. pose proof netZ_range. pose proof poolSize_pos.
  destruct (Z.ltb_spec k (poolSize ones)).
  - rewrite beZ_addrAt by lia. lia.
  - replace k with (poolSize ones) by lia. unfold addrAt. rewrite beZ_put_be32. unfold u32.
    dlia.
Qed.

Lemma eligible_addrAt k :
  0 <= k < poolSize ones →
  eligible p (addrAt p k) = negb (isAllocated p (addrAt p k)) && (2 <=? k).
Proof.
  intros Hk. unfold eligible. rewrite gateway_addrAt, <- addrAt_0.
  rewrite !ipEqual_4 by apply addrAt_len. rewrite <- andb_assoc. f_equal.
  pose proof poolSize_pos.
  destruct (Z.leb_spec 2 k).
  - rewrite !bool_decide_eq_false_2; [done| |]; intros E; apply addrAt_inj in E; lia.
  - destruct (Z.eq_dec k 0) as [->|]; [by rewrite bool_decide_eq_true_2|].
    replace k with 1 by lia. rewrite (bool_decide_eq_true_2 (addrAt p 1 = addrAt p 1)) by done.
    by rewrite andb_comm.
Qed.

(** As many addresses are in the map as were found taken. *)
Lemma taken_size k :
  2 <= k <= poolSize ones →
  (∀ j, 2 <= j < k → isAllocated p (addrAt p j) = true) →
  k - 2 <= Z.of_nat (size (allocated p)).
Proof.
  intros Hk Ha. set (keys := (λ j, ipString (addrAt p j)) <$> seqZ 2 (k - 2)).
  assert (NoDup keys) as ND.
  { apply NoDup_fmap_2_strong; [|apply NoDup_seqZ].
    intros i j Hi%elem_of_seqZ Hj%elem_of_seqZ E.
    apply ipString_inj4 in E; [|apply addrAt_len..]. apply addrAt_inj in E; lia. }
  assert (size (list_to_set keys : gset bytes) <= size (dom (allocated p)))%nat as LE.
  { apply subseteq_size. intros x. rewrite elem_of_list_to_set. unfold keys.
    rewrite list_elem_of_fmap. intros (j & -> & Hj%elem_of_seqZ). apply elem_of_dom.
    specialize (Ha j ltac:(lia)). unfold isAllocated in Ha.
    destruct (allocated p !! ipString (addrAt p j)); [by eexists|done]. }
  rewrite size_list_to_set, size_dom in LE by done.
  unfold keys in LE. rewrite length_fmap, length_seqZ in LE. lia.
Qed.

Lemma allocate_from_spec n k :
  0 <= k <= poolSize ones →
  (∀ j, 2 <= j < k → isAllocated p (addrAt p j) = true) →
  Z.of_nat n + k = 3 + Z.of_nat (size (allocated p)) →
  ∃ r, allocate_from n p (addrAt p k) = Some r ∧
    match r with
    | Some ip => ∃ i, ip = addrAt p i ∧ 2 <= i < poolSize ones ∧ isAllocated p ip = false ∧
                      ∀ j, 2 <= j < i → isAllocated p (addrAt p j) = true
    | None => ∀ j, 2 <= j < poolSize ones → isAllocated p (addrAt p j) = true
    end.
Proof.
  revert k; induction n as [|n IH]; intros k Hk Ha Hn.
  { pose proof (taken_size k ltac:(lia) Ha). lia. }
  cbn [allocate_from]. rewrite Contains_addrAt by done.
  destruct (Z.ltb_spec k (poolSize ones)).
  - rewrite eligible_addrAt by lia.
    destruct (isAllocated p (addrAt p k)) eqn:Eal; cbn [negb andb].
    2: destruct (Z.leb_spec 2 k); [by eexists; split; [done|]; exists k|].
    all: rewrite incIP_addrAt by lia; apply IH; [lia| |lia].
    all: intros j Hj; destruct (Z.eq_dec j k) as [->|]; [done || lia|apply Ha; lia].
  - exists None. split; [done|]. intros j Hj. apply Ha. lia.
Qed.
End Pool.

(** ** The promise of a pool to the session layer *)
(** A pool over addresses [A]: what is taken is known for the addresses in its
    range; an allocation takes one that was free, and fails only when none is. *)
Class AddressPool (P A : Type) := {
  pool_wf : P → Prop;
  in_range : P → A → Prop;
  taken : P → A → bool;
  alloc : P → option (P * option A);
  free : P → A → P
}.

Class AddressPoolLaws (P A : Type) `{AddressPool P A} := {
  alloc_total p : pool_wf p → ∃ p' r, alloc p = Some (p', r);
  alloc_wf p p' r : pool_wf p → alloc p = Some (p', r) → pool_wf p';
  alloc_range p p' r a : alloc p = Some (p', r) → in_range p' a ↔ in_range p a;
  alloc_some p p' a :
    pool_wf p → alloc p = Some (p', Some a) →
    in_range p a ∧ taken p a = false ∧ taken p' a = true ∧
    ∀ b, in_range p b → b ≠ a → taken p' b = taken p b;
  alloc_none p p' :
    pool_wf p → alloc p = Some (p', None) → p' = p ∧ ∀ a, in_range p a → taken p a = true;
  free_wf p a : pool_wf p → pool_wf (free p a);
  free_range p a b : in_range (free p a) b ↔ in_range p b;
  free_this p a : pool_wf p → in_range p a → taken (free p a) a = false;
  free_other p a b :
    pool_wf p → in_range p a → in_range p b → b ≠ a → taken (free p a) b = taken p b
}.

(** *** The IPv4 pool keeps the promise *)
Definition ipv4_in_range (p : IPPool) (ip : IP) : Prop :=
  ∃ ones k, pool_ok p ones ∧ 2 <= k < poolSize ones ∧ ip = addrAt p k.

#[export] Instance IPPool_pool : AddressPool IPPool IP := {
  pool_wf p := ∃ ones, pool_ok p ones;
  in_range := ipv4_in_range;
  taken := isAllocated;
  alloc := Allocate;
  free := Release
}.

Lemma pool_ok_subnet p q ones : subnet p = subnet q → pool_ok p ones → pool_ok q ones.
Proof. intros E []. split; rewrite <- ?E; done. Qed.

Lemma maskOnes_CIDRMask n l : (n <= 8 * l)%nat → maskOnes (CIDRMask n l) = Z.of_nat n.
Proof.
  revert n; induction l as [|l IH]; intros n Hn; [by replace n with 0%nat by lia|].
  cbn [CIDRMask maskOnes]. destruct (Nat.leb_spec 8 n).
  - rewrite Z.eqb_refl, IH by lia. lia.
  - by do 8 (destruct n as [|n]; [reflexivity|]); lia.
Qed.

Lemma ipv4_range_subnet p q ip : subnet p = subnet q → ipv4_in_range p ip → ipv4_in_range q ip.
Proof.
  intros E (ones & k & Hp & Hk & ->). exists ones, k. split; [by eapply pool_ok_subnet|].
  split; [done|]. unfold addrAt, netZ. by rewrite E.
Qed.

Lemma ipv4_range_len p ip : ipv4_in_range p ip → length ip = 4%nat.
Proof. by intros (? & ? & _ & _ & ->). Qed.

Lemma Allocate_subnet p p' r : Allocate p = Some (p', r) → subnet p' = subnet p.
Proof.
  unfold Allocate. intros H. apply bind_Some in H as ([ip|] & _ & H); by simplify_eq/=.
Qed.

Lemma isAllocated_insert p a b :
  length a = 4%nat → length b = 4%nat →
  isAllocated (mkIPPool (subnet p) (<[ipString a := true]> (allocated p))) b =
  if bool_decide (b = a) then true else isAllocated p b.
Proof.
  intros La Lb. unfold isAllocated. cbn [allocated]. case_bool_decide as E.
  - by rewrite E, lookup_insert_eq.
  - rewrite lookup_insert_ne; [done|]. intros K. apply E. symmetry. by apply ipString_inj4.
Qed.

Lemma isAllocated_delete p a b :
  length a = 4%nat → length b = 4%nat →
  isAllocated (Release p a) b = if bool_decide (b = a) then false else isAllocated p b.
Proof.
  intros La Lb. unfold isAllocated, Release. cbn [allocated]. case_bool_decide as E.
  - by rewrite E, lookup_delete_eq.
  - rewrite lookup_delete_ne; [done|]. intros K. apply E. symmetry. by apply ipString_inj4.
Qed.

(** What [Allocate] does to a pool, on both branches. *)
Lemma Allocate_cases p ones :
  pool_ok p ones →
  ∃ p' r, Allocate p = Some (p', r) ∧
    match r with
    | Some ip => ∃ i, ip = addrAt p i ∧ 2 <= i < poolSize ones ∧ isAllocated p ip = false ∧
        (∀ j, 2 <= j < i → isAllocated p (addrAt p j) = true) ∧
        p' = mkIPPool (subnet p) (<[ipString ip := true]> (allocated p))
    | None => p' = p ∧ ∀ j, 2 <= j < poolSize ones → isAllocated p (addrAt p j) = true
    end.
Proof.
  intros Hp. destruct (allocate_from_spec p ones Hp (allocate_fuel p) 0) as (r & Er & Hr).
  - pose proof (poolSize_pos p ones Hp). lia.
  - intros; lia.
  - unfold allocate_fuel. lia.
  - unfold Allocate. rewrite (po_canon p ones Hp), <- (addrAt_0 p ones Hp), Er. cbn [mbind option_bind].
    destruct r as [ip|]; eexists _, _; (split; [done|]).
    + destruct Hr as (i & ? & ? & ? & ?). by exists i.
    + done.
Qed.

#[export] Instance IPPool_laws : AddressPoolLaws IPPool IP.
Proof.
  split; cbn [pool_wf in_range taken alloc free IPPool_pool].
  - intros p [ones Hp]. destruct (Allocate_cases p ones Hp) as (p' & r & H & _). by exists p', r.
  - intros p p' r [ones Hp] H. exists ones. eapply pool_ok_subnet; [|done].
    symmetry. by eapply Allocate_subnet.
  - intros p p' r a H. apply Allocate_subnet in H. split; by apply ipv4_range_subnet.
  - intros p p' a [ones Hp] H. destruct (Allocate_cases p ones Hp) as (q & r & H' & C).
    rewrite H in H'. simplify_eq. destruct C as (i & -> & Hi & F & _ & ->).
    pose proof (addrAt_len p i) as [_ L]. split; [by exists ones, i|]. split; [done|].
    split; [by rewrite isAllocated_insert, bool_decide_eq_true_2|].
    intros b Hb Hne. apply ipv4_range_len in Hb. by rewrite isAllocated_insert, bool_decide_eq_false_2.
  - intros p p' [ones Hp] H. destruct (Allocate_cases p ones Hp) as (q & r & H' & C).
    rewrite H in H'. simplify_eq. destruct C as [-> C]. split; [done|].
    intros a (ones' & k & Hp' & Hk & ->). apply C.
    enough (ones' = ones) by (by subst).
    destruct Hp as [Ho _ Hm _], Hp' as [Ho' _ Hm' _]. rewrite Hm in Hm'.
    apply (f_equal maskOnes) in Hm'. rewrite !maskOnes_CIDRMask in Hm'; lia.
  - intros p a [ones Hp]. exists ones. by eapply pool_ok_subnet; [|done].
  - intros p a b. split; by apply ipv4_range_subnet.
  - intros p a _ Ha%ipv4_range_len. by rewrite isAllocated_delete, bool_decide_eq_true_2.
  - intros p a b _ Ha%ipv4_range_len Hb%ipv4_range_len Hne.
    by rewrite isAllocated_delete, bool_decide_eq_false_2.
Qed.

(** ** The IPv6 pool *)
Record pool6_ok (p : IPv6Pool) : Prop := {
  p6_start : (1 <= startByte p <= 8)%nat;
  p6_base : bytes_ok (base p) ∧ length (base p) = 16%nat;
  p6_max : max6 p = 256 ^ Z.of_nat (8 - startByte p)
}.

(** The [n] low octets of a number. *)
Fixpoint put_be (n : nat) (v : Z) : bytes :=
  match n with O => [] | S m => put_be m (v ≫ 8) ++ [u8 v] end.

Lemma put_be_ok n v : bytes_ok (put_be n v) ∧ length (put_be n v) = n.
Proof.
  revert v; induction n as [|n IH]; intros v; [by split; [constructor|]|].
  destruct (IH (v ≫ 8)) as [H1 H2]. cbn [put_be]. rewrite length_app, H2. cbn.
  split; [|lia]. apply Forall_app; split; [done|]. repeat constructor; apply u8_range.
Qed.

Lemma beZ_app a b : beZ (a ++ b) = beZ a * 256 ^ Z.of_nat (length b) + beZ b.
Proof.
  induction a as [|x a IH]; [done|]. cbn [beZ app]. rewrite IH, length_app.
  rewrite Nat2Z.inj_add, Z.pow_add_r by lia. ring.
Qed.

Lemma beZ_put_be n v : beZ (put_be n v) = v mod 256 ^ Z.of_nat n.
Proof.
  revert v; induction n as [|n IH]; intros v; [by rewrite Z.mod_1_r|].
  cbn [put_be]. rewrite beZ_app, IH, pow256_S, shiftr_div by lia.
  cbn [beZ length]. change (2 ^ 8) with 256. change (256 ^ Z.of_nat 1) with 256.
  change (256 ^ Z.of_nat 0) with 1. unfold u8.
  assert (0 < 256 ^ Z.of_nat n) by (apply Z.pow_pos_nonneg; lia).
  rewrite Z.rem_mul_r by lia. ring.
Qed.

Lemma prefix_octets_spec n b v ip :
  (n <= S b)%nat → (b < length ip)%nat →
  prefix_octets n b v ip = take (S b - n) ip ++ put_be n v ++ drop (S b) ip.
Proof.
  revert b v ip; induction n as [|n IH]; intros b v ip Hn Hb.
  { cbn [prefix_octets put_be app]. by rewrite Nat.sub_0_r, take_drop. }
  cbn [prefix_octets put_be]. rewrite land_255, (u8_small (v mod 256)) by apply u8_range.
  destruct (decide (n = O)) as [->|Hn0].
  { cbn [prefix_octets put_be app]. replace (S b - 1)%nat with b by lia.
    by apply (insert_take_drop (A := Z)). }
  rewrite IH by (rewrite ?length_insert; lia).
  replace (S (b - 1)) with b by lia. replace (S b - S n)%nat with (b - n)%nat by lia.
  rewrite take_insert_ge by lia. rewrite <- app_assoc. f_equal. f_equal.
  rewrite (insert_take_drop (A := Z)) by done.
  rewrite drop_app_ge by (rewrite length_take; lia).
  rewrite length_take. replace (b - b `min` length ip)%nat with 0%nat by lia. done.
Qed.

Lemma index_octets_spec l acc :
  bytes_ok l → 0 <= acc → acc * 256 ^ Z.of_nat (length l) + beZ l < 2 ^ 64 →
  index_octets l acc = acc * 256 ^ Z.of_nat (length l) + beZ l.
Proof.
  intros H. revert acc; induction H as [|x r Hx Hr IH]; intros acc Ha Hm; [cbn; lia|].
  cbn [index_octets beZ length] in *. rewrite pow256_S in *.
  pose proof (beZ_range r Hr) as R.
  assert (0 < 256 ^ Z.of_nat (length r)) by (apply Z.pow_pos_nonneg; lia).
  unfold is_u8 in Hx. change (2 ^ 64) with 18446744073709551616 in Hm.
  assert (acc * 256 < 18446744073709551616) by nia.
  rewrite Z.shiftl_mul_pow2 by lia. change (2 ^ 8) with 256.
  rewrite u64_small by (unfold is_u64; lia).
  rewrite (lor_add _ _ 8) by (try apply Z_mod_mult; lia). rewrite IH; [ring|lia|].
  change (2 ^ 64) with 18446744073709551616. lia.
Qed.

Lemma NewIPv6Pool_ok ip ipnet p :
  NewIPv6Pool (Some (ip, ipnet)) = Some p →
  bytes_ok (netIP ipnet) → length (netIP ipnet) = 16%nat →
  pool6_ok p ∧ allocated6 p = ∅ ∧ base p = netIP ipnet ∧
  8 * Z.of_nat (startByte p) = maskOnes (netMask ipnet).
Proof.
  intros H Hb Hl. unfold NewIPv6Pool in H. cbn [mbind option_bind] in H.
  destruct (To4 ip); [done|]. set (ones := maskOnes (netMask ipnet)) in *.
  destruct ((ones <? 8) || (64 <? ones) || negb (ones mod 8 =? 0)) eqn:G; [done|].
  apply orb_false_iff in G as [G G3]. apply orb_false_iff in G as [G1 G2].
  apply negb_false_iff, Z.eqb_eq in G3. simplify_eq/=.
  assert (copy16 (To16 (netIP ipnet)) = netIP ipnet) as C.
  { unfold copy16, To16. rewrite Hl. cbn [Nat.eqb default]. unfold id. by apply go_copy_full. }
  assert (ones = 8 * (ones / 8)) as E by dlia.
  repeat split; cbn [startByte base max6 allocated6]; rewrite ?C; try done; try dlia.
  rewrite Z.shiftl_mul_pow2, Z.mul_1_l by lia. rewrite pow256.
  replace (8 * Z.of_nat (8 - Z.to_nat (ones / 8))) with (64 - ones) by dlia.
  apply u64_small. split; [apply Z.pow_nonneg; lia|].
  change 18446744073709551616 with (2 ^ 64). apply Z.pow_lt_mono_r; lia.
Qed.

Section Pool6.
Context (p : IPv6Pool) (Hp : pool6_ok p).

Lemma max6_range : 1 <= max6 p <= 2 ^ 56.
Proof.
  destruct Hp as [Hs _ ->]. rewrite pow256. split; [apply Z.lt_pred_le, Z.pow_pos_nonneg; lia|].
  apply Z.pow_le_mono_r; lia.
Qed.

Lemma prefixForIndex_octets idx :
  netIP (prefixForIndex p idx) =
  take (startByte p) (base p) ++ put_be (8 - startByte p) idx ++ drop 8 (base p).
Proof.
  destruct Hp as [Hs [Hb Hl] _]. unfold prefixForIndex. cbn [netIP].
  rewrite go_copy_full by done. rewrite prefix_octets_spec by lia.
  by replace (8 - (8 - startByte p))%nat with (startByte p) by lia.
Qed.

Lemma prefixForIndex_len idx : length (netIP (prefixForIndex p idx)) = 16%nat.
Proof.
  rewrite prefixForIndex_octets. destruct Hp as [Hs [Hb Hl] _].
  rewrite !length_app, length_take, length_drop, (proj2 (put_be_ok _ _)). lia.
Qed.

Lemma subnet_id_octets idx :
  drop (startByte p) (take 8 (netIP (prefixForIndex p idx))) = put_be (8 - startByte p) idx.
Proof.
  rewrite prefixForIndex_octets. destruct Hp as [Hs [Hb Hl] _].
  destruct (put_be_ok (8 - startByte p) idx) as [_ L].
  rewrite app_assoc, take_app_length'
    by (rewrite length_app, length_take, L; lia).
  rewrite drop_app_length'; [done|]. rewrite length_take. lia.
Qed.

Lemma indexForPrefix_value ip :
  length ip = 16%nat → bytes_ok ip →
  indexForPrefix p ip = Some (beZ (drop (startByte p) (take 8 ip))).
Proof.
  intros L B. destruct Hp as [Hs _ Hm]. unfold indexForPrefix, To16. rewrite L.
  cbn [Nat.eqb mbind option_bind].
  assert (bytes_ok (drop (startByte p) (take 8 ip))) as B' by (by apply Forall_drop, Forall_take).
  pose proof (beZ_range _ B') as R.
  rewrite length_drop, length_take, L in R. change (8 `min` 16)%nat with 8%nat in R.
  rewrite <- Hm in R. pose proof max6_range.
  rewrite index_octets_spec; [|done|lia|change (2 ^ 64) with (256 * 2 ^ 56); lia].
  rewrite Z.mul_0_l, Z.add_0_l. by destruct (Z.leb_spec (max6 p) (beZ (drop (startByte p) (take 8 ip)))); [lia|].
Qed.

Lemma prefixForIndex_bytes idx : bytes_ok (netIP (prefixForIndex p idx)).
Proof.
  rewrite prefixForIndex_octets. destruct Hp as [Hs [Hb Hl] _].
  apply Forall_app; split; [by apply Forall_take|].
  apply Forall_app; split; [apply put_be_ok|by apply Forall_drop].
Qed.

Lemma index_of_prefix idx :
  0 <= idx < max6 p → indexForPrefix p (netIP (prefixForIndex p idx)) = Some idx.
Proof.
  intros Hi. rewrite indexForPrefix_value by (apply prefixForIndex_len || apply prefixForIndex_bytes).
  rewrite subnet_id_octets, beZ_put_be. destruct Hp as [_ _ <-]. by rewrite Z.mod_small.
Qed.

Lemma prefixForIndex_inj i j :
  0 <= i < max6 p → 0 <= j < max6 p → prefixForIndex p i = prefixForIndex p j → i = j.
Proof.
  intros Hi Hj E. apply (f_equal (λ n, indexForPrefix p (netIP n))) in E.
  rewrite !index_of_prefix in E by done. by simplify_eq.
Qed.

Lemma taken6_size k :
  0 <= k → (∀ j, 0 <= j < k → default false (allocated6 p !! j) = true) →
  k <= Z.of_nat (size (allocated6 p)).
Proof.
  intros Hk Ha.
  assert (size (list_to_set (seqZ 0 k) : gset Z) <= size (dom (allocated6 p)))%nat as LE.
  { apply subseteq_size. intros x. rewrite elem_of_list_to_set. intros Hx%elem_of_seqZ.
    apply elem_of_dom. specialize (Ha x ltac:(lia)).
    destruct (allocated6 p !! x); [by eexists|done]. }
  rewrite size_list_to_set, size_dom, length_seqZ in LE by apply NoDup_seqZ. lia.
Qed.

Lemma allocate6_from_spec n k :
  0 <= k <= max6 p →
  (∀ j, 0 <= j < k → default false (allocated6 p !! j) = true) →
  Z.of_nat n + k = 1 + Z.of_nat (size (allocated6 p)) →
  ∃ r, allocate6_from n p k = Some r ∧
    match r with
    | Some i => 0 <= i < max6 p ∧ default false (allocated6 p !! i) = false ∧
                ∀ j, 0 <= j < i → default false (allocated6 p !! j) = true
    | None => ∀ j, 0 <= j < max6 p → default false (allocated6 p !! j) = true
    end.
Proof.
  pose proof max6_range as M. change (2 ^ 56) with 72057594037927936 in M.
  revert k; induction n as [|n IH]; intros k Hk Ha Hn.
  { pose proof (taken6_size k ltac:(lia) Ha). lia. }
  cbn [allocate6_from]. destruct (Z.ltb_spec k (max6 p)).
  - destruct (default false (allocated6 p !! k)) eqn:Eal; [|exists (Some k); repeat split; done || lia].
    rewrite u64_small by (unfold is_u64; lia). apply IH; [lia| |lia].
    intros j Hj. destruct (Z.eq_dec j k) as [->|]; [done|apply Ha; lia].
  - exists None. split; [done|]. intros j Hj. apply Ha. lia.
Qed.

Lemma Allocate6_cases :
  ∃ p' r, Allocate6 p = Some (p', r) ∧
    match r with
    | Some (n, iid) => ∃ i, n = prefixForIndex p i ∧ iid = defaultIID ∧ 0 <= i < max6 p ∧
        default false (allocated6 p !! i) = false ∧
        (∀ j, 0 <= j < i → default false (allocated6 p !! j) = true) ∧
        p' = mkIPv6Pool (base p) (baseOnes p) (startByte p) (max6 p) (<[i := true]> (allocated6 p))
    | None => p' = p ∧ ∀ j, 0 <= j < max6 p → default false (allocated6 p !! j) = true
    end.
Proof.
  destruct (allocate6_from_spec (S (size (allocated6 p))) 0) as (r & Er & Hr).
  - pose proof max6_range. lia.
  - intros; lia.
  - lia.
  - unfold Allocate6. rewrite Er. cbn [mbind option_bind].
    destruct r as [i|]; eexists _, _; (split; [done|]); [|done].
    exists i. by destruct Hr as (? & ? & ?).
Qed.
End Pool6.

(** *** The IPv6 pool keeps the promise *)
(** The prefix alone; its interface identifier is the same for all. *)
Definition alloc6 (p : IPv6Pool) : option (IPv6Pool * option IPNet) :=
  match Allocate6 p with
  | Some (p', r) => Some (p', fst <$> r)
  | None => None
  end.

#[export] Instance IPv6Pool_pool : AddressPool IPv6Pool IPNet := {
  pool_wf := pool6_ok;
  in_range p n := pool6_ok p ∧ ∃ i, 0 <= i < max6 p ∧ n = prefixForIndex p i;
  taken p n := default false (i ← indexForPrefix p (netIP n); allocated6 p !! i);
  alloc := alloc6;
  free p n := Release6 p (Some n)
}.

(** Two pools over one base. *)
Definition same_base (p q : IPv6Pool) : Prop :=
  base p = base q ∧ startByte p = startByte q ∧ max6 p = max6 q.

Lemma pool6_ok_base p q : same_base p q → pool6_ok p → pool6_ok q.
Proof. intros (E1 & E2 & E3) []. split; rewrite <- ?E1, <- ?E2, <- ?E3; done. Qed.

Lemma prefixForIndex_base p q i : same_base p q → prefixForIndex p i = prefixForIndex q i.
Proof. intros (E1 & E2 & E3). unfold prefixForIndex. by rewrite E1, E2. Qed.

Lemma indexForPrefix_base p q ip : same_base p q → indexForPrefix p ip = indexForPrefix q ip.
Proof. intros (E1 & E2 & E3). unfold indexForPrefix. by rewrite E2, E3. Qed.

Lemma range6_base p q n : same_base p q → in_range p n → in_range q n.
Proof.
  intros E [Hp (i & Hi & ->)]. split; [by eapply pool6_ok_base|]. exists i.
  split; [|by apply prefixForIndex_base]. by destruct E as (_ & _ & <-).
Qed.

Lemma Allocate6_base p p' r : Allocate6 p = Some (p', r) → same_base p p'.
Proof.
  unfold Allocate6. intros H. apply bind_Some in H as ([i|] & _ & H); by simplify_eq/=.
Qed.

Lemma Release6_base p n : same_base p (Release6 p n).
Proof. unfold Release6. by repeat case_match. Qed.

(** The state of one prefix after the set of allocated indexes has changed. *)
Lemma taken6_at p i m :
  pool6_ok p → 0 <= i < max6 p →
  taken (mkIPv6Pool (base p) (baseOnes p) (startByte p) (max6 p) m) (prefixForIndex p i)
  = default false (m !! i).
Proof.
  intros Hp Hi. cbn [taken IPv6Pool_pool allocated6].
  rewrite <- (indexForPrefix_base p _ _) by done. by rewrite index_of_prefix.
Qed.

Lemma taken6_here p i :
  pool6_ok p → 0 <= i < max6 p → taken p (prefixForIndex p i) = default false (allocated6 p !! i).
Proof. intros Hp Hi. cbn [taken IPv6Pool_pool]. by rewrite index_of_prefix. Qed.

Lemma alloc6_inv p p' r :
  alloc p = Some (p', r) → ∃ r', Allocate6 p = Some (p', r') ∧ r = fst <$> r'.
Proof.
  cbn [alloc IPv6Pool_pool]. unfold alloc6. destruct (Allocate6 p) as [[q r']|]; [|done].
  intros [= <- <-]. by exists r'.
Qed.

#[export] Instance IPv6Pool_laws : AddressPoolLaws IPv6Pool IPNet.
Proof.
  split.
  - intros p Hp. destruct (Allocate6_cases p Hp) as (p' & r & H & _).
    exists p', (fst <$> r). cbn [alloc IPv6Pool_pool]. unfold alloc6. by rewrite H.
  - intros p p' r Hp (r' & H & _)%alloc6_inv. eapply pool6_ok_base; [|done].
    by eapply Allocate6_base.
  - intros p p' r a (r' & H & _)%alloc6_inv. apply Allocate6_base in H.
    split; apply range6_base; [|done]. by destruct H as (? & ? & ?).
  - intros p p' a Hp (r' & H & E)%alloc6_inv. destruct (Allocate6_cases p Hp) as (q & r & H' & C).
    rewrite H in H'. injection H' as <- <-. destruct r' as [[n iid]|]; [|done].
    cbn in E. injection E as ->. destruct C as (i & -> & _ & Hi & F & _ & ->).
    split; [split; [done|by exists i]|]. rewrite taken6_here, taken6_at by done.
    split; [done|]. rewrite lookup_insert_eq. split; [done|].
    intros b [_ (j & Hj & ->)] Hne. rewrite taken6_here, taken6_at by done.
    rewrite lookup_insert_ne; [done|]. intros ->. by apply Hne.
  - intros p p' Hp (r' & H & E)%alloc6_inv. destruct (Allocate6_cases p Hp) as (q & r & H' & C).
    rewrite H in H'. injection H' as <- <-. destruct r' as [[n iid]|]; [done|].
    destruct C as [-> C]. split; [done|]. intros a [_ (i & Hi & ->)].
    rewrite taken6_here by done. by apply C.
  - intros p a Hp. eapply pool6_ok_base; [apply Release6_base|done].
  - intros p a b. split; apply range6_base; [|apply Release6_base].
    destruct (Release6_base p (Some a)) as (? & ? & ?). done.
  - intros p a Hp [_ (i & Hi & ->)]. cbn [free IPv6Pool_pool Release6].
    rewrite index_of_prefix by done. by rewrite taken6_at, lookup_delete_eq.
  - intros p a b Hp [_ (i & Hi & ->)] [_ (j & Hj & ->)] Hne. cbn [free IPv6Pool_pool Release6].
    rewrite index_of_prefix by done. rewrite taken6_at, taken6_here, lookup_delete_ne; [done| |done..].
    intros ->. by apply Hne.
Qed.

(** ** The IPv4 pool against its specification *)
(** The specification: the set of offsets in use.  An allocation takes the lowest
    free offset from 2 on, a release gives an offset back. *)
Inductive PoolOp := PAllocate | PRelease (ip : IP).

Definition lowestFree (size : Z) (T : gset Z) : option Z :=
  head (filter (λ k, k ∉ T) (seqZ 2 (size - 2))).

Fixpoint specRun (net size : Z) (T : gset Z) (ops : list PoolOp) : list (option IP) :=
  match ops with
  | [] => []
  | PAllocate :: r =>
      match lowestFree size T with
      | Some k => Some (put_be32 (net + k)) :: specRun net size ({[k]} ∪ T) r
      | None => None :: specRun net size T r
      end
  | PRelease ip :: r => specRun net size (T ∖ {[beZ ip - net]}) r
  end.

(** The results of the allocations of a sequence of operations on the pool. *)
Fixpoint poolRun (p : IPPool) (ops : list PoolOp) : option (list (option IP)) :=
  match ops with
  | [] => Some []
  | PAllocate :: r =>
      match Allocate p with
      | Some (p', a) => match poolRun p' r with Some l => Some (a :: l) | None => None end
      | None => None
      end
  | PRelease ip :: r => poolRun (Release p ip) r
  end.

Definition pool_abs (p : IPPool) (ones : nat) (T : gset Z) : Prop :=
  ∀ k, k ∈ T ↔ 2 <= k < poolSize ones ∧ isAllocated p (addrAt p k) = true.

Lemma lowestFree_some size T k :
  lowestFree size T = Some k ↔ 2 <= k < size ∧ (k ∉ T) ∧ (∀ j, 2 <= j < k → j ∈ T).
Proof.
  unfold lowestFree. revert k.
  enough (∀ n a k, head (filter (λ k, k ∉ T) (seqZ a (Z.of_nat n))) = Some k ↔
                   a <= k < a + Z.of_nat n ∧ (k ∉ T) ∧ (∀ j, a <= j < k → j ∈ T)) as G.
  { intros k. destruct (Z.le_gt_cases 2 size).
    - replace (size - 2) with (Z.of_nat (Z.to_nat (size - 2))) by lia. rewrite G.
      replace (2 + Z.of_nat (Z.to_nat (size - 2))) with size by lia. done.
    - rewrite seqZ_nil by lia. split; [done|]. intros [? _]. lia. }
  induction n as [|n IH]; intros a k.
  { split; [done|]. intros [? _]. lia. }
  rewrite seqZ_cons by lia. replace (Z.pred (Z.of_nat (S n))) with (Z.of_nat n) by lia.
  rewrite filter_cons. case_decide as D.
  - cbn [head]. split.
    + intros [= <-]. split; [lia|]. split; [done|]. intros j Hj. lia.
    + intros (R & N & A). f_equal. destruct (Z.eq_dec a k); [done|].
      exfalso. apply D, A. lia.
  - rewrite IH. split; intros (R & N & A); (split; [|split; [done|]]).
    + lia.
    + intros j Hj. destruct (Z.eq_dec j a) as [->|]; [done|]. apply A. lia.
    + destruct (Z.eq_dec a k) as [->|]; [done|lia].
    + intros j Hj. apply A. lia.
Qed.

Lemma lowestFree_none size T k : lowestFree size T = None → 2 <= k < size → k ∈ T.
Proof.
  unfold lowestFree. intros H Hk. destruct (decide (k ∈ T)) as [|N]; [done|]. exfalso.
  assert (k ∈ filter (λ k, k ∉ T) (seqZ 2 (size - 2))) as I.
  { apply list_elem_of_filter. split; [done|]. apply elem_of_seqZ. lia. }
  destruct (filter (λ k, k ∉ T) (seqZ 2 (size - 2))); [by apply not_elem_of_nil in I|done].
Qed.

(** One allocation against the specification. *)
Lemma Allocate_lowest p ones T :
  pool_ok p ones → pool_abs p ones T →
  match lowestFree (poolSize ones) T with
  | Some k => ∃ p', Allocate p = Some (p', Some (addrAt p k)) ∧ pool_ok p' ones ∧
                    subnet p' = subnet p ∧ pool_abs p' ones ({[k]} ∪ T)
  | None => Allocate p = Some (p, None)
  end.
Proof.
  intros Hp HT. destruct (Allocate_cases p ones Hp) as (p' & r & E & C).
  destruct r as [ip|].
  - destruct C as (i & -> & Hi & F & A & ->).
    assert (lowestFree (poolSize ones) T = Some i) as ->.
    { apply lowestFree_some. split; [done|]. split.
      - intros [_ I]%HT. by rewrite F in I.
      - intros j Hj. apply HT. split; [lia|]. by apply A. }
    eexists. split; [done|]. split; [by apply (pool_ok_subnet p)|]. split; [done|].
    intros k. change (addrAt (mkIPPool (subnet p) _) k) with (addrAt p k).
    rewrite isAllocated_insert by apply addrAt_len. rewrite elem_of_union, elem_of_singleton, (HT k).
    case_bool_decide as D.
    + split; [intros [->|[? _]]; done|]. intros [Hk _]. left.
      apply (addrAt_inj p ones Hp); [lia..|done].
    + split; [|naive_solver]. intros [->|]; [done|done].
  - destruct C as [-> C]. destruct (lowestFree (poolSize ones) T) as [k|] eqn:L; [|done].
    apply lowestFree_some in L as (Hk & N & _). exfalso. apply N, HT. auto.
Qed.

Lemma Release_abs p ones T ip :
  pool_ok p ones → bytes_ok ip → length ip = 4%nat → pool_abs p ones T →
  pool_abs (Release p ip) ones (T ∖ {[beZ ip - netZ p]}).
Proof.
  intros Hp B L HT k. change (addrAt (Release p ip) k) with (addrAt p k).
  rewrite isAllocated_delete by (done || apply addrAt_len).
  rewrite elem_of_difference, elem_of_singleton, (HT k).
  assert (2 <= k < poolSize ones → k = beZ ip - netZ p ↔ addrAt p k = ip) as I.
  { intros Hk. split.
    - intros ->. unfold addrAt. replace (netZ p + _) with (beZ ip) by lia. by apply put_be32_beZ.
    - intros <-. rewrite (beZ_addrAt p ones Hp) by lia. lia. }
  case_bool_decide as D; [|naive_solver].
  split; [|by intros [_ ?]]. intros [[Hk _] N]. exfalso. apply N. by apply I.
Qed.

Lemma poolRun_specRun ops p ones T :
  pool_ok p ones → pool_abs p ones T →
  (∀ ip, PRelease ip ∈ ops → bytes_ok ip ∧ length ip = 4%nat) →
  poolRun p ops = Some (specRun (netZ p) (poolSize ones) T ops).
Proof.
  revert p T; induction ops as [|[|ip] ops IH]; intros p T Hp HT Hr; [done|..].
  all: assert (∀ ip, PRelease ip ∈ ops → bytes_ok ip ∧ length ip = 4%nat) as Hr'
    by (intros; apply Hr; by constructor).
  - cbn [poolRun specRun]. pose proof (Allocate_lowest p ones T Hp HT) as A.
    destruct (lowestFree (poolSize ones) T) as [k|].
    + destruct A as (p' & -> & Hp' & E & HT'). rewrite (IH p' _ Hp' HT' Hr').
      unfold netZ. by rewrite E.
    + rewrite A. by rewrite (IH p T Hp HT Hr').
  - cbn [poolRun specRun]. destruct (Hr ip) as [B L]; [constructor|].
    rewrite (IH (Release p ip) (T ∖ {[beZ ip - netZ p]})); [done|by apply (pool_ok_subnet p)| |done].
    by apply Release_abs.
Qed.

(** C32: the IPv4 pool refines its specification, the set of offsets in use: over
    every sequence of allocations and releases on a new pool of a subnet of prefix
    length 1 to 32, every call returns (the search never runs away), and hands out
    the lowest address of the subnet that is not in use and is neither the network
    address nor the gateway; it reports exhaustion exactly when there is none. *)
Theorem IPPool_refines (ip : IP) (n : IPNet) (ones : nat) (p : IPPool) (ops : list PoolOp) :
  NewIPPool (Some (ip, n)) = Some p → pool_ok p ones →
  (∀ a, PRelease a ∈ ops → bytes_ok a ∧ length a = 4%nat) →
  poolRun p ops = Some (specRun (beZ (netIP n)) (poolSize ones) ∅ ops).
Proof.
  intros E Hp Hr. injection E as <-. apply (poolRun_specRun ops _ ones ∅ Hp); [|done].
  intros k. rewrite elem_of_empty. split; [done|]. intros [_ H]. done.
Qed.

(** A /30: two addresses, then exhaustion; a released address is the next one. *)
Definition net30 : IPNet := mkIPNet [10; 60; 0; 252] (CIDRMask 30 4).

Lemma net30_ok : pool_ok (mkIPPool net30 ∅) 30.
Proof.
  split; [lia|split; [repeat constructor; lia|done]|done|done].
Qed.

Lemma IPPool_refines_witness :
  poolRun (mkIPPool net30 ∅)
    [PAllocate; PAllocate; PAllocate; PRelease [10; 60; 0; 254]; PAllocate] =
  Some [Some [10; 60; 0; 254]; Some [10; 60; 0; 255]; None; Some [10; 60; 0; 254]].
Proof.
  rewrite (IPPool_refines [10; 60; 0; 252] net30 30 (mkIPPool net30 ∅));
    [vm_compute; reflexivity|reflexivity|exact net30_ok|].
  intros a Ha. repeat (apply elem_of_cons in Ha as [E|Ha]; [try discriminate E|]).
  - injection E as ->. split; [repeat constructor; lia|done].
  - by apply not_elem_of_nil in Ha.
Defined.

(** The numbering of the delegated prefixes is exact and stays in bounds: in a
    pool made from a base of [8 * startByte] bits there are [256 ^ (8 - startByte)]
    indexes, the prefix of each lies in the base and reads back as its index, and
    every /64 of the base is the prefix of its index. *)
Lemma prefix_index_roundtrip (ip : IP) (n : IPNet) (p : IPv6Pool) :
  NewIPv6Pool (Some (ip, n)) = Some p →
  bytes_ok (netIP n) → length (netIP n) = 16%nat →
  max6 p = 256 ^ Z.of_nat (8 - startByte p) ∧
  (∀ idx, 0 <= idx < max6 p →
     indexForPrefix p (netIP (prefixForIndex p idx)) = Some idx ∧
     take (startByte p) (netIP (prefixForIndex p idx)) = take (startByte p) (netIP n)) ∧
  (∀ a, bytes_ok a → length a = 16%nat →
     take (startByte p) a = take (startByte p) (netIP n) → drop 8 a = drop 8 (netIP n) →
     ∃ idx, 0 <= idx < max6 p ∧ indexForPrefix p a = Some idx ∧ netIP (prefixForIndex p idx) = a).
Proof.
  intros H B L. destruct (NewIPv6Pool_ok _ _ _ H B L) as (Hp & _ & <- & _).
  pose proof Hp as [Hs [Hb Hl] Hm]. split; [done|]. split.
  - intros idx Hi. split; [by apply index_of_prefix|]. rewrite prefixForIndex_octets by done.
    rewrite take_app_length'; [done|]. rewrite length_take. lia.
  - intros a Ba La T D. rewrite indexForPrefix_value by done. set (o := drop (startByte p) (take 8 a)).
    assert (bytes_ok o) as Bo by (by apply Forall_drop, Forall_take).
    assert (length o = 8 - startByte p)%nat as Lo
      by (unfold o; rewrite length_drop, length_take; lia).
    pose proof (beZ_range o Bo) as R. rewrite Lo, <- Hm in R.
    exists (beZ o). split; [lia|]. split; [done|].
    rewrite prefixForIndex_octets by done. rewrite <- T, <- D.
    assert (put_be (8 - startByte p) (beZ o) = o) as ->.
    { destruct (put_be_ok (8 - startByte p) (beZ o)). apply beZ_inj; [done|done|by rewrite Lo|].
      rewrite beZ_put_be, <- Hm. by apply Z.mod_small. }
    unfold o. rewrite app_assoc. rewrite <- (take_drop 8 a) at 4. f_equal.
    rewrite <- (take_drop (startByte p) (take 8 a)) at 2. f_equal. rewrite take_take. f_equal. lia.
Qed.

(** A /48: 65536 prefixes. *)
Definition net48 : IPNet :=
  mkIPNet [253; 0; 0; 1; 0; 2; 0; 0; 0; 0; 0; 0; 0; 0; 0; 0] (CIDRMask 48 16).
Definition pool48 : IPv6Pool := mkIPv6Pool (netIP net48) 48 6 65536 ∅.

(** A prefix is never unknown to a pool: any address of sixteen octets has an index,
    and a release of it frees that index, also when the base differs. *)
Lemma Release6_never_ignored (p : IPv6Pool) (n : IPNet) :
  pool6_ok p → bytes_ok (netIP n) → length (netIP n) = 16%nat →
  ∃ idx, indexForPrefix p (netIP n) = Some idx ∧ 0 <= idx < max6 p ∧
         taken (Release6 p (Some n)) (prefixForIndex p idx) = false.
Proof.
  intros Hp B L. pose proof (indexForPrefix_value p Hp _ L B) as E.
  eexists. split; [exact E|].
  assert (bytes_ok (drop (startByte p) (take 8 (netIP n)))) as Bo by (by apply Forall_drop, Forall_take).
  pose proof (beZ_range _ Bo) as R. pose proof Hp as [Hs _ Hm].
  rewrite length_drop, length_take, L in R. change (8 `min` 16)%nat with 8%nat in R. rewrite <- Hm in R.
  split; [done|]. unfold Release6. rewrite E. by rewrite taken6_at, lookup_delete_eq.
Qed.

(** ** The address of a session *)
Lemma selectPDUSessionType_cases requested v6 :
  selectPDUSessionType requested v6 = PDUSessionTypeIPv4 ∨
  (v6 = true ∧ (selectPDUSessionType requested v6 = PDUSessionTypeIPv6 ∨
                selectPDUSessionType requested v6 = PDUSessionTypeIPv4v6)).
Proof.
  unfold selectPDUSessionType. destruct requested as [t|]; [|by left].
  destruct v6; [|left; by rewrite !andb_false_r].
  destruct (t =? PDUSessionTypeIPv6), (t =? PDUSessionTypeIPv4v6); auto.
Qed.

(** The address installed at the UPF is the prefix with the identifier sent to the UE. *)
Lemma ueIPv6Address_prefix p idx ip :
  pool6_ok p →
  ueIPv6Address (CIDR (Some (ip, prefixForIndex p idx))) =
  Some (take 8 (netIP (prefixForIndex p idx)) ++ defaultIID).
Proof.
  intros Hp. unfold ueIPv6Address, copy16, To16. rewrite prefixForIndex_len by done.
  cbn [Nat.eqb default]. unfold id. rewrite go_copy_full by (by rewrite prefixForIndex_len).
  rewrite go_copy_full; [done|]. by rewrite length_drop, prefixForIndex_len.
Qed.
