(* ===== verification/SmfQos.v ===== *)
(** * Rates and QoS policy of the SMF

    [nf/smf/internal/server/bitrate.go], [qos.go] and the policy functions of
    [server.go].

    A Go string is the list of its octets where the code inspects it
    ([parseBitRateKbps]) and a [string] where it only compares it.  [float64]
    arithmetic is that of the specification of IEEE 754 binary64 in the standard
    library.  A decoded JSON value is a [json]; its numbers are integers, which is
    what the peers send for the fields read here.  The maps of a response are
    association lists in the order in which Go iterates over them; the theorems hold
    for every order.
*)
From Stdlib Require Import SpecFloat.
From stdpp Require Import pretty.
From S2P Require Import Prelude NasPduSession.
Open Scope Z_scope.

(** ** Rates *)
(** *** binary64 *)
Definition f64_mul : spec_float → spec_float → spec_float := SFmul 53 1024.
Definition f64_sub : spec_float → spec_float → spec_float := SFsub 53 1024.
Definition f64_of_Z (z : Z) : spec_float := binary_normalize 53 1024 z 0 false.

(** A decimal [n / 10 ^ d] rounded to nearest, as [strconv.ParseFloat] does. *)
Definition f64_of_decimal (n : Z) (d : nat) : spec_float :=
  match n with
  | Z.pos m => SFdiv 53 1024 (S754_finite false m 0) (S754_finite false (Pos.pow 10 (Pos.of_nat d)) 0)
  | _ => S754_zero false
  end.

Definition f64_ltb (a b : spec_float) : bool := SFltb a b.

(** [math.Ceil] and [math.Round] of a finite number that is not negative. *)
Definition f64_ceil (x : spec_float) : Z :=
  match x with
  | S754_finite false m e =>
      if 0 <=? e then Z.pos m * 2 ^ e else - ((- Z.pos m) / 2 ^ (- e))
  | _ => 0
  end.
Definition f64_round (x : spec_float) : Z :=
  match x with
  | S754_finite false m e =>
      if 0 <=? e then Z.pos m * 2 ^ e else (2 * Z.pos m + 2 ^ (- e)) / (2 * 2 ^ (- e))
  | _ => 0
  end.

(** *** The grammar of a rate *)
(** The UTF-8 encodings of the characters [strings.TrimSpace] removes. *)
Definition spaces : list bytes :=
  [[9]; [10]; [11]; [12]; [13]; [32]; [0xC2; 0x85]; [0xC2; 0xA0]; [0xE1; 0x9A; 0x80]]
  ++ ((λ i, [0xE2; 0x80; i]) <$> (seqZ 0x80 11 ++ [0xA8; 0xA9; 0xAF]))
  ++ [[0xE2; 0x81; 0x9F]; [0xE3; 0x80; 0x80]].

Definition isPrefix (p b : bytes) : bool := bool_decide (take (length p) b = p).

Fixpoint trimWith (fuel : nat) (sp : list bytes) (b : bytes) : bytes :=
  match fuel with
  | O => b
  | S f =>
      match filter (λ s, isPrefix s b = true) sp with
      | s :: _ => trimWith f sp (drop (length s) b)
      | [] => b
      end
  end.
Definition trimSpace (b : bytes) : bytes :=
  let l := trimWith (length b) spaces b in
  reverse (trimWith (length l) (reverse <$> spaces) (reverse l)).

Definition isDigit (c : Z) : bool := (48 <=? c) && (c <=? 57).

(** The longest run of digits and the rest. *)
Fixpoint spanDigits (b : bytes) : bytes * bytes :=
  match b with
  | c :: r => if isDigit c then let '(d, t) := spanDigits r in (c :: d, t) else ([], b)
  | [] => ([], [])
  end.

Definition digitsValue (b : bytes) : Z := foldl (λ v c, v * 10 + (c - 48)) 0 b.

(** The units of [bitRateRe], with the rate of one unit in bps. *)
Definition bitRateUnits : list (bytes * spec_float) :=
  [(str "bps", f64_of_decimal 1 3); (str "Kbps", f64_of_Z 1); (str "Mbps", f64_of_Z 1000);
   (str "Gbps", f64_of_Z 1000000); (str "Tbps", f64_of_Z 1000000000)].

Definition unitFor (u : bytes) : option spec_float :=
  snd <$> head (filter (λ p, p.1 = u) bitRateUnits).

(** The optional fraction after the digits. *)
Definition fraction (r : bytes) : bytes * bytes :=
  match r with
  | c :: r' =>
      if c =? 46 then match spanDigits r' with
                      | ([], _) => ([], r)
                      | (f, r'') => (f, r'')
                      end
      else ([], r)
  | [] => ([], r)
  end.

(** [bitRateRe]: digits, an optional fraction, one space and a unit. *)
Definition bitRateMatch (b : bytes) : option (Z * nat * spec_float) :=
  let '(int, r) := spanDigits b in
  let '(frac, r) := fraction r in
  match int, r with
  | _ :: _, c :: u =>
      if c =? 32 then k ← unitFor u; Some (digitsValue (int ++ frac), length frac, k)
      else None
  | _, _ => None
  end.

Definition maxBitRateKbps : Z := 1000000000000.

(** The end of [parseBitRateKbps]: the bound, then the value, snapped to an integer
    that is nearer than 1e-6 and otherwise rounded up. *)
Definition wholeKbps (k : spec_float) : option Z :=
  if f64_ltb (f64_of_Z maxBitRateKbps) k then None
  else
    let r := f64_round k in
    Some (if f64_ltb (SFabs (f64_sub k (f64_of_Z r))) (f64_of_decimal 1 6) then r
          else f64_ceil k).

(** The error of [ParseFloat] is a value out of the range of binary64. *)
Definition parseBitRateKbps (s : bytes) : option Z :=
  match bitRateMatch (trimSpace s) with
  | None => None
  | Some (n, d, perKbps) =>
      match (if (d =? 0)%nat then f64_of_Z n else f64_of_decimal n d) with
      | S754_finite false m e => wholeKbps (f64_mul (S754_finite false m e) perKbps)
      | _ => None
      end
  end.

(** *** Conversions *)
Definition kbpsToMbps (kbps : Z) : Z :=
  if kbps =? 0 then 0 else i64 (u64 (kbps + 999) / 1000).

Definition parseAMBR (s : bytes) (fbKbps fbMbps : Z) : Z * Z :=
  match parseBitRateKbps s with
  | None => (fbKbps, fbMbps)
  | Some k => (k, kbpsToMbps k)
  end.

Definition kbpsOrMbps (kbps mbps : Z) : Z :=
  if mbps <=? 0 then 0
  else if (0 <? kbps) && (kbpsToMbps kbps =? mbps) then kbps
  else u64 (u64 mbps * 1000).

(** ** Decoded JSON *)
#[warnings="-register-all"]
Inductive json :=
  | JNull
  | JBool (b : bool)
  | JNum (n : Z)
  | JStr (s : string)
  | JArr (l : list json)
  | JObj (m : list (string * json)).

(** [body[key]] of a [map[string]interface{}]: nil for a missing key. *)
Fixpoint assoc {A} (m : list (string * A)) (key : string) : option A :=
  match m with
  | [] => None
  | (k, v) :: r => if String.eqb k key then Some v else assoc r key
  end.

(** The type assertions of the handlers, with the zero value on failure where the
    code ignores the second result. *)
Definition asObj (v : option json) : option (list (string * json)) :=
  match v with Some (JObj m) => Some m | _ => None end.
Definition asStr (v : option json) : option string :=
  match v with Some (JStr s) => Some s | _ => None end.
Definition asNum (v : option json) : option Z :=
  match v with Some (JNum n) => Some n | _ => None end.
Definition asBool (v : option json) : option bool :=
  match v with Some (JBool b) => Some b | _ => None end.

(** ** QoS parameters *)
Definition QoSSourcePCFOverride : string := "PCF_OVERRIDE".
Definition QoSSourceUDMSubscription : string := "UDM_SUBSCRIPTION".
Definition QoSSourceOperatorDefault : string := "OPERATOR_DEFAULT".
Definition QoSSourceManualOverride : string := "MANUAL_OVERRIDE".
Definition QoSSourceNWModification : string := "NW_MODIFICATION".

Record subscribedQoS := mkSubscribedQoS {
  s5qi : Z; sArpPriority : Z; sArpPreemptCap : string; sArpPreemptVuln : string;
  sAmbrULMbps : Z; sAmbrDLMbps : Z; sAmbrULKbps : Z; sAmbrDLKbps : Z
}.

Record smPolicyQoS := mkSmPolicyQoS {
  q5qi : Z; qArpPriority : Z;
  qAmbrULMbps : Z; qAmbrDLMbps : Z; qAmbrULKbps : Z; qAmbrDLKbps : Z;
  qSource : string
}.

Record SliceID := mkSliceID { sliceSST : Z; sliceSD : string }.

#[export] Instance SliceID_eq_dec : EqDecision SliceID.
Proof. solve_decision. Defined.

Definition ValidFiveQI (v : Z) : bool :=
  bool_decide (v ∈ [1; 2; 3; 4; 5; 6; 7; 8; 9; 10; 65; 66; 67; 69; 70; 71; 72; 73; 74; 75; 76;
                    79; 80; 82; 83; 84; 85; 86; 87; 88; 89; 90])
  || ((128 <=? v) && (v <=? 254)).

Definition isGBRFiveQI (v : Z) : bool :=
  ((1 <=? v) && (v <=? 4)) || ((65 <=? v) && (v <=? 67))
  || ((71 <=? v) && (v <=? 76)) || ((82 <=? v) && (v <=? 85)).

(** ** The subscription (N10) *)
(** One entry of [sm-data], of the fields the code decodes. *)
Record DnnConfiguration := mkDnnConfiguration {
  dc5qi : Z; dcPriority : Z; dcPreemptCap : string; dcPreemptVuln : string;
  dcUplink : string; dcDownlink : string
}.
Record SmDataEntry := mkSmDataEntry {
  smSST : Z; smSD : string; smDnnConfigurations : list (string * DnnConfiguration)
}.

(** The result of a request to a peer: a transport error, or a status, a Location
    header and a body that decodes or does not. *)
Inductive Reply (B : Type) :=
  | NoReply
  | Answer (status : Z) (location : string) (body : option B).
Arguments NoReply {B}.
Arguments Answer {B} status location body.

Definition subscribedOf (cfg : DnnConfiguration) : subscribedQoS :=
  let '(ulK, ulM) := parseAMBR (str (dcUplink cfg)) 100000 100 in
  let '(dlK, dlM) := parseAMBR (str (dcDownlink cfg)) 100000 100 in
  mkSubscribedQoS (dc5qi cfg) (dcPriority cfg) (dcPreemptCap cfg) (dcPreemptVuln cfg)
                  ulM dlM ulK dlK.

Fixpoint firstSubscribed (entries : list SmDataEntry) (dnn : string) : option subscribedQoS :=
  match entries with
  | [] => None
  | e :: r =>
      match assoc (smDnnConfigurations e) dnn with
      | Some cfg => if dc5qi cfg =? 0 then firstSubscribed r dnn else Some (subscribedOf cfg)
      | None => firstSubscribed r dnn
      end
  end.

(** [udm] is the UDM: its answer to the query for a subscriber, a DNN and a slice. *)
Definition fetchSubscribedQoS (udmPeer : string)
    (udm : string → string → SliceID → Reply (list SmDataEntry))
    (supi dnn : string) (slice : SliceID) : option subscribedQoS :=
  if String.eqb udmPeer "" || String.eqb supi "" then None
  else match udm supi dnn slice with
       | Answer 200 _ (Some entries) => firstSubscribed entries dnn
       | _ => None
       end.

(** ** The policy association with the PCF *)
(** [fmt.Sprintf("%d Mbps", n)]. *)
Definition mbpsText (n : Z) : string := String.app (pretty n) " Mbps".

(** The fallback of [createSMPolicy]. *)
Definition policyFallback (subQoS : option subscribedQoS) : smPolicyQoS :=
  match subQoS with
  | None => mkSmPolicyQoS 9 8 100 100 100000 100000 QoSSourceOperatorDefault
  | Some q =>
      mkSmPolicyQoS (u8 (s5qi q)) (sArpPriority q) (sAmbrULMbps q) (sAmbrDLMbps q)
        (kbpsOrMbps (sAmbrULKbps q) (sAmbrULMbps q)) (kbpsOrMbps (sAmbrDLKbps q) (sAmbrDLMbps q))
        QoSSourceUDMSubscription
  end.

Definition createBody (supi dnn ueIPv4 : string) (slice : SliceID)
    (subQoS : option subscribedQoS) : json :=
  JObj (app [("supi", JStr supi); ("dnn", JStr dnn); ("pduSessionType", JStr "IPV4");
         ("snssai", JObj [("sst", JNum (sliceSST slice)); ("sd", JStr (sliceSD slice))])]
       (app (if String.eqb ueIPv4 "" then [] else [("ipv4Address", JStr ueIPv4)])
           match subQoS with
           | None => []
           | Some q =>
               [("subsDefQos",
                 JObj [("5qi", JNum (s5qi q));
                       ("arp", JObj [("priorityLevel", JNum (sArpPriority q));
                                     ("preemptCap", JStr (sArpPreemptCap q));
                                     ("preemptVuln", JStr (sArpPreemptVuln q))])]);
                ("subsSessAmbr",
                 JObj [("uplink", JStr (mbpsText (sAmbrULMbps q)));
                       ("downlink", JStr (mbpsText (sAmbrDLMbps q)))])]
           end))%string.

(** The first value of a map that is itself a map. *)
Fixpoint firstObj (m : list (string * json)) : option (list (string * json)) :=
  match m with
  | [] => None
  | (_, JObj o) :: _ => Some o
  | _ :: r => firstObj r
  end.

(** What a decision of the PCF changes in [qos]; [fb] are the rates that stay when a
    rate of the decision cannot be parsed. *)
Definition applyDecision (fb qos : smPolicyQoS) (body : list (string * json)) : smPolicyQoS :=
  let qos :=
    match asStr (assoc body "x5gcQosSource") with
    | Some src => if String.eqb src "" then qos
                  else mkSmPolicyQoS (q5qi qos) (qArpPriority qos) (qAmbrULMbps qos) (qAmbrDLMbps qos)
                                     (qAmbrULKbps qos) (qAmbrDLKbps qos) src
    | None => qos
    end in
  let qos :=
    match asObj (assoc body "qosDecs") ≫= firstObj with
    | None => qos
    | Some dec =>
        let five := match asNum (assoc dec "5qi") with
                    | Some v => if 0 <? v then u8 v else q5qi qos
                    | None => q5qi qos
                    end in
        let prio := match asObj (assoc dec "arp") with
                    | Some arp => match asNum (assoc arp "priorityLevel") with
                                  | Some pl => if 0 <? pl then pl else qArpPriority qos
                                  | None => qArpPriority qos
                                  end
                    | None => qArpPriority qos
                    end in
        mkSmPolicyQoS five prio (qAmbrULMbps qos) (qAmbrDLMbps qos)
                      (qAmbrULKbps qos) (qAmbrDLKbps qos) (qSource qos)
    end in
  match asObj (assoc body "sessRules") ≫= firstObj with
  | None => qos
  | Some rule =>
      match asObj (assoc rule "sessAmbr") with
      | None => qos
      | Some ambr =>
          let '(ulK, ulM) := match asStr (assoc ambr "uplink") with
                             | Some ul => parseAMBR (str ul) (qAmbrULKbps fb) (qAmbrULMbps fb)
                             | None => (qAmbrULKbps qos, qAmbrULMbps qos)
                             end in
          let '(dlK, dlM) := match asStr (assoc ambr "downlink") with
                             | Some dl => parseAMBR (str dl) (qAmbrDLKbps fb) (qAmbrDLMbps fb)
                             | None => (qAmbrDLKbps qos, qAmbrDLMbps qos)
                             end in
          mkSmPolicyQoS (q5qi qos) (qArpPriority qos) ulM dlM ulK dlK (qSource qos)
      end
  end.

(** The text after the last slash. *)
Fixpoint lastSegment (acc : string) (s : string) : string :=
  match s with
  | EmptyString => acc
  | String c r => if Ascii.eqb c (Ascii.ascii_of_nat 47) then lastSegment "" r
                  else lastSegment (String.app acc (String c "")) r
  end.

(** [pcf] is the PCF: its answer to a body. *)
Definition createSMPolicy (pcfPeer : string) (pcf : json → Reply (list (string * json)))
    (supi dnn ueIPv4 : string) (slice : SliceID) (subQoS : option subscribedQoS)
    : string * smPolicyQoS :=
  let fallback := policyFallback subQoS in
  if String.eqb pcfPeer "" then (""%string, fallback)
  else match pcf (createBody supi dnn ueIPv4 slice subQoS) with
       | Answer 201 location body =>
           let qos := mkSmPolicyQoS (q5qi fallback) (qArpPriority fallback) (qAmbrULMbps fallback)
                        (qAmbrDLMbps fallback) (qAmbrULKbps fallback) (qAmbrDLKbps fallback)
                        QoSSourceOperatorDefault in
           (lastSegment "" location,
            match body with Some b => applyDecision fallback qos b | None => qos end)
       | _ => (""%string, fallback)
       end.

(** The parts of a session the policy update reads. *)
Record PolicySession := mkPolicySession {
  psSUPI : string; psDNN : string; psPolicyID : string; psArpPriority : Z;
  psAmbrULKbps : Z; psAmbrDLKbps : Z
}.

Definition updateBody (ps : PolicySession) (req5qi reqULMbps reqDLMbps : Z) : json :=
  (JObj [("repPolicyCtrlReqTriggers", JArr [JStr "RES_MO_RE"]);
         ("reqQos", JObj [("5qi", JNum req5qi);
                          ("ambr", JObj [("uplink", JStr (mbpsText reqULMbps));
                                         ("downlink", JStr (mbpsText reqDLMbps))])]);
         ("supi", JStr (psSUPI ps)); ("dnn", JStr (psDNN ps))])%string.

(** The granted QoS, and whether the change is authorised. *)
Definition updateSMPolicy (pcfPeer : string) (pcf : string → json → Reply (list (string * json)))
    (ps : PolicySession) (req5qi reqULMbps reqDLMbps : Z) : smPolicyQoS * bool :=
  let requested :=
    mkSmPolicyQoS req5qi (psArpPriority ps) reqULMbps reqDLMbps
      (kbpsOrMbps (psAmbrULKbps ps) reqULMbps) (kbpsOrMbps (psAmbrDLKbps ps) reqDLMbps)
      QoSSourceNWModification in
  if String.eqb pcfPeer "" || String.eqb (psPolicyID ps) "" then (requested, true)
  else match pcf (psPolicyID ps) (updateBody ps req5qi reqULMbps reqDLMbps) with
       | Answer 403 _ _ => (requested, false)
       | Answer 200 _ (Some b) => (applyDecision requested requested b, true)
       | _ => (requested, true)
       end.

(** ** Examples *)
Example parse_100Mbps : parseBitRateKbps (str "100 Mbps") = Some 100000.
Proof. vm_compute. reflexivity. Qed.
Example parse_frac : parseBitRateKbps (str " 1.5 Gbps ") = Some 1500000.
Proof. vm_compute. reflexivity. Qed.
Example parse_bps : parseBitRateKbps (str "1500 bps") = Some 2.
Proof. vm_compute. reflexivity. Qed.
Example parse_tenth : parseBitRateKbps (str "0.1 Mbps") = Some 100.
Proof. vm_compute. reflexivity. Qed.
Example parse_max : parseBitRateKbps (str "1000 Tbps") = Some 1000000000000.
Proof. vm_compute. reflexivity. Qed.
Example parse_over : parseBitRateKbps (str "1000.1 Tbps") = None.
Proof. vm_compute. reflexivity. Qed.
Example parse_zero : parseBitRateKbps (str "0 Mbps") = None.
Proof. vm_compute. reflexivity. Qed.
Example parse_tiny : parseBitRateKbps (str "0.0005 bps") = Some 0.
Proof. vm_compute. reflexivity. Qed.

(** ** Bounds of a parsed rate *)
(** A mantissa shifted right keeps the bits that are left. *)
Lemma shr_1_m mrs : 0 <= shr_m mrs → shr_m (shr_1 mrs) = shr_m mrs / 2.
Proof.
  destruct mrs as [m r s]. cbn [shr_m]. intros H. rewrite <- Z.div2_div.
  destruct m as [|p|p]; [done| |lia]. by destruct p.
Qed.

Lemma shr_iter n mrs :
  0 <= shr_m mrs → shr_m (SpecFloat.iter_pos shr_1 n mrs) = shr_m mrs / 2 ^ Z.pos n.
Proof.
  assert (∀ p (x : Z), x / 2 ^ Z.pos p / 2 ^ Z.pos p = x / 2 ^ Z.pos p~0) as D.
  { intros p x. rewrite Z.div_div by lia. f_equal. rewrite <- Z.pow_add_r by lia. f_equal. lia. }
  revert mrs; induction n as [n IH|n IH|]; intros mrs H; cbn [SpecFloat.iter_pos].
  - assert (0 <= shr_m (shr_1 mrs)) by (rewrite shr_1_m by done; apply Z.div_pos; lia).
    rewrite !IH, D, shr_1_m, Z.div_div by (done || lia || (rewrite IH by done; apply Z.div_pos; lia)).
    f_equal.
  - rewrite !IH, D by (done || (rewrite IH by done; apply Z.div_pos; lia)). done.
  - by apply shr_1_m.
Qed.

Lemma Zdigits2_bound m : 0 <= m → m < 2 ^ Zdigits2 m.
Proof.
  destruct m as [|p|p]; [done| |lia]. intros _. cbn [Zdigits2].
  induction p as [p IH|p IH|]; cbn [digits2_pos]; [..|done].
  all: rewrite Pos2Z.inj_succ, Z.pow_succ_r by lia; lia.
Qed.

(** Rounding leaves at most 53 bits. *)
Lemma shr_fexp_bound m e l :
  0 <= m → 0 <= shr_m (shr_fexp 53 1024 m e l).1 < 2 ^ 53.
Proof.
  intros Hm. unfold shr_fexp. set (n := fexp 53 1024 (Zdigits2 m + e) - e).
  assert (Zdigits2 m - 53 <= n) as Hn by (unfold n, fexp; lia).
  pose proof (Zdigits2_bound m Hm) as B.
  assert (shr_m (shr_record_of_loc m l) = m) as E by (destruct l as [|[]]; done).
  unfold shr. destruct n as [|p|p] eqn:En; cbn [fst].
  1, 3: rewrite E; split; [lia|]; eapply Z.lt_le_trans; [exact B|]; apply Z.pow_le_mono_r; lia.
  rewrite shr_iter, E by lia. split; [apply Z.div_pos; lia|].
  apply Z.div_lt_upper_bound; [lia|]. rewrite <- Z.pow_add_r by lia.
  eapply Z.lt_le_trans; [exact B|]. apply Z.pow_le_mono_r; lia.
Qed.

Lemma f64_mul_mantissa m1 e1 m2 e2 s m e :
  f64_mul (S754_finite false m1 e1) (S754_finite false m2 e2) = S754_finite s m e →
  s = false ∧ Z.pos m < 2 ^ 53.
Proof.
  unfold f64_mul, SFmul, binary_round_aux. cbn [xorb].
  destruct (shr_fexp 53 1024 (Z.pos (m1 * m2)) (e1 + e2) loc_Exact) as [r1 x1] eqn:E1.
  pose proof (shr_fexp_bound (Z.pos (m1 * m2)) (e1 + e2) loc_Exact ltac:(lia)) as B1.
  rewrite E1 in B1. cbn [fst] in B1.
  set (y := round_nearest_even (shr_m r1) (loc_of_shr_record r1)).
  assert (0 <= y) as Hy by (unfold y, round_nearest_even; repeat case_match; lia).
  destruct (shr_fexp 53 1024 y x1 loc_Exact) as [r2 x2] eqn:E2.
  pose proof (shr_fexp_bound y x1 loc_Exact Hy) as B2. rewrite E2 in B2. cbn [fst] in B2.
  destruct (shr_m r2) eqn:Em; [done| |lia]. case_match; [|done].
  intros [= <- <- _]. split; [done|lia].
Qed.

(** The numbers that are not above 10 to the 12, rounded up and to nearest. *)
Lemma f64_small m e :
  Z.pos m < 2 ^ 53 → f64_ltb (f64_of_Z maxBitRateKbps) (S754_finite false m e) = false →
  0 <= f64_ceil (S754_finite false m e) <= maxBitRateKbps ∧
  0 <= f64_round (S754_finite false m e) <= maxBitRateKbps.
Proof.
  intros Hm H.
  assert (f64_of_Z maxBitRateKbps = S754_finite false 8192000000000000 (-13)) as E
    by (vm_compute; reflexivity).
  rewrite E in H. unfold f64_ltb, SFltb, SFcompare in H.
  assert (e <= -13 ∧ Z.pos m <= maxBitRateKbps * 2 ^ (- e)) as [He Hv].
  { destruct (Z.compare_spec (-13) e) as [<-|L|L]; [|done|].
    - split; [done|]. change (2 ^ (- -13)) with 8192. unfold maxBitRateKbps.
      enough (¬ (8192000000000000 < m)%positive) by lia. unfold Pos.lt. intros C.
      change ((8192000000000000 ?= m)%positive) with (PosDef.Pos.compare_cont Eq 8192000000000000 m) in C.
      by rewrite C in H.
    - split; [lia|]. unfold maxBitRateKbps.
      assert (2 ^ 14 <= 2 ^ (- e)) by (apply Z.pow_le_mono_r; lia).
      change (2 ^ 53) with 9007199254740992 in Hm. change (2 ^ 14) with 16384 in *. lia. }
  assert (0 < 2 ^ (- e)) as P by (apply Z.pow_pos_nonneg; lia).
  cbn [f64_ceil f64_round]. destruct (Z.leb_spec 0 e); [lia|].
  set (K := 2 ^ (- e)) in *. unfold maxBitRateKbps in *. split.
  - assert (- (1000000000000) <= - Z.pos m / K) by (apply Z.div_le_lower_bound; lia).
    assert (- Z.pos m / K < 1) by (apply Z.div_lt_upper_bound; lia). lia.
  - split; [apply Z.div_pos; lia|].
    assert ((2 * Z.pos m + K) / (2 * K) < 1000000000001); [|lia].
    apply Z.div_lt_upper_bound; lia.
Qed.

Lemma unitFor_finite u k : unitFor u = Some k → ∃ m e, k = S754_finite false m e.
Proof.
  unfold unitFor. intros H. apply fmap_Some in H as (p & Hp & ->).
  apply head_Some_elem_of, list_elem_of_filter in Hp as [_ I]. unfold bitRateUnits in I.
  repeat (apply elem_of_cons in I as [-> |I]; [vm_compute; by eexists _, _|]).
  by apply not_elem_of_nil in I.
Qed.

Lemma bitRateMatch_unit b n d u :
  bitRateMatch b = Some (n, d, u) → ∃ m e, u = S754_finite false m e.
Proof.
  unfold bitRateMatch. destruct (spanDigits b) as [int r]. destruct (fraction r) as [frac r'].
  destruct int as [|i int], r' as [|c r']; try discriminate.
  destruct (c =? 32); [|discriminate]. intros H. apply bind_Some in H as (k & Hk & E).
  injection E as _ _ ->. by eapply unitFor_finite.
Qed.

Lemma wholeKbps_cases k r :
  wholeKbps k = Some r →
  f64_ltb (f64_of_Z maxBitRateKbps) k = false ∧ (r = f64_round k ∨ r = f64_ceil k).
Proof.
  unfold wholeKbps. destruct (f64_ltb (f64_of_Z maxBitRateKbps) k); [discriminate|].
  destruct (f64_ltb (SFabs (f64_sub k (f64_of_Z (f64_round k)))) (f64_of_decimal 1 6));
    intros E; injection E as <-; auto.
Qed.

Lemma parse_range s k : parseBitRateKbps s = Some k → 0 <= k <= maxBitRateKbps.
Proof.
  unfold parseBitRateKbps. destruct (bitRateMatch (trimSpace s)) as [[[n d] u]|] eqn:M; [|discriminate].
  destruct (if (d =? 0)%nat then f64_of_Z n else f64_of_decimal n d) as [| | |sg m e];
    try discriminate.
  destruct sg; [discriminate|]. apply bitRateMatch_unit in M as (m2 & e2 & ->).
  intros H. apply wholeKbps_cases in H as [L R].
  destruct (f64_mul (S754_finite false m e) (S754_finite false m2 e2)) as [sg|sg| |sg m3 e3] eqn:Em.
  1-3: assert (k = 0) as -> by (by destruct R); unfold maxBitRateKbps; lia.
  apply f64_mul_mantissa in Em as [-> Hm]. destruct (f64_small m3 e3 Hm L) as [C D].
  by destruct R as [-> | ->].
Qed.

(** ** Whole rates are read exactly *)
Lemma shr_iter_exact p q :
  0 < q → SpecFloat.iter_pos shr_1 p (Build_shr_record (q * 2 ^ Z.pos p) false false) = Build_shr_record q false false.
Proof.
  assert (∀ y, 0 < y → shr_1 (Build_shr_record (2 * y) false false) = Build_shr_record y false false) as H1.
  { intros y Hy. by destruct y as [|y|y]; [lia| |lia]. }
  revert q. induction p as [p IH|p IH|]; intros q Hq; cbn [SpecFloat.iter_pos].
  - assert (0 < 2 ^ Z.pos p) by (apply Z.pow_pos_nonneg; lia).
    replace (q * 2 ^ Z.pos p~1) with (2 * (q * 2 ^ Z.pos p * 2 ^ Z.pos p)).
    + rewrite H1 by nia. rewrite (IH (q * 2 ^ Z.pos p)) by nia. by apply IH.
    + replace (Z.pos p~1) with (1 + Z.pos p + Z.pos p) by lia. rewrite !Z.pow_add_r by lia. lia.
  - assert (0 < 2 ^ Z.pos p) by (apply Z.pow_pos_nonneg; lia).
    replace (q * 2 ^ Z.pos p~0) with (q * 2 ^ Z.pos p * 2 ^ Z.pos p).
    + rewrite (IH (q * 2 ^ Z.pos p)) by nia. by apply IH.
    + replace (Z.pos p~0) with (Z.pos p + Z.pos p) by lia. rewrite !Z.pow_add_r by lia. lia.
  - replace (q * 2 ^ 1) with (2 * q) by lia. by apply H1.
Qed.

Lemma Zdigits2_log2 m : 0 < m → Zdigits2 m = Z.log2 m + 1.
Proof.
  destruct m as [|p|p]; [lia| |lia]. intros _. cbn [Zdigits2].
  assert (Z.pos (digits2_pos p) = Z.pos (Pos.size p)) as ->.
  { induction p as [p IH|p IH|]; cbn [digits2_pos Pos.size]; [..|done]; rewrite !Pos2Z.inj_succ; lia. }
  destruct p as [p|p|]; cbn [Pos.size Z.log2]; [rewrite Pos2Z.inj_succ; lia..|done].
Qed.

(** The number of 53 bits that stands for the integer [N]. *)
Definition is_int (x : spec_float) (N : Z) : Prop :=
  ∃ m, x = S754_finite false m (Z.log2 N - 52) ∧ Z.pos m = N * 2 ^ (52 - Z.log2 N).

Lemma log2_53 N : 0 < N < 2 ^ 53 → 0 <= Z.log2 N <= 52.
Proof. intros H. pose proof (Z.log2_nonneg N). pose proof (proj1 (Z.log2_lt_pow2 N 53 ltac:(lia)) ltac:(lia)). lia. Qed.

Lemma round_exact N j :
  0 < N < 2 ^ 53 → 52 - Z.log2 N <= j → is_int (binary_round_aux 53 1024 false (N * 2 ^ j) (- j) loc_Exact) N.
Proof.
  intros HN Hj. pose proof (log2_53 N HN) as HL. set (L := Z.log2 N) in *.
  assert (0 < 2 ^ j) by (apply Z.pow_pos_nonneg; lia).
  assert (0 < 2 ^ (52 - L)) by (apply Z.pow_pos_nonneg; lia).
  assert (Zdigits2 (N * 2 ^ j) = j + L + 1) as HD by (rewrite Zdigits2_log2, Z.log2_mul_pow2 by nia; done).
  assert (Zdigits2 (N * 2 ^ (52 - L)) = 53) as HD'
    by (rewrite Zdigits2_log2, Z.log2_mul_pow2 by nia; unfold L; lia).
  assert (shr_fexp 53 1024 (N * 2 ^ j) (- j) loc_Exact
          = (Build_shr_record (N * 2 ^ (52 - L)) false false, L - 52)) as E1.
  { unfold shr_fexp, fexp. rewrite HD. replace (j + L + 1 + - j) with (L + 1) by lia.
    assert (Z.max (L + 1 - 53) (emin 53 1024) - - j = j + L - 52) as -> by (unfold emin; lia).
    cbn [shr_record_of_loc]. unfold shr. destruct (j + L - 52) as [|p|p] eqn:E; [|..|lia].
    - f_equal; [|lia]. f_equal. f_equal. f_equal. lia.
    - f_equal; [|lia]. replace (N * 2 ^ j) with (N * 2 ^ (52 - L) * 2 ^ Z.pos p); [apply shr_iter_exact; nia|].
      rewrite <- Z.mul_assoc, <- Z.pow_add_r by lia. do 2 f_equal. lia. }
  assert (shr_fexp 53 1024 (N * 2 ^ (52 - L)) (L - 52) loc_Exact
          = (Build_shr_record (N * 2 ^ (52 - L)) false false, L - 52)) as E2.
  { unfold shr_fexp, fexp. rewrite HD'. assert (Z.max (53 + (L - 52) - 53) (emin 53 1024) - (L - 52) = 0) as -> by (unfold emin; lia).
    done. }
  unfold binary_round_aux. rewrite E1. cbn [shr_m loc_of_shr_record round_nearest_even]. rewrite E2. cbn [shr_m].
  destruct (N * 2 ^ (52 - L)) as [|m|m] eqn:Em; [nia| |nia]. destruct (Z.leb_spec (L - 52) (1024 - 53)); [|lia].
  exists m. split; [done|]. exact (eq_sym Em).
Qed.

Lemma iter_xO m d : Z.pos (Pos.iter xO m d) = Z.pos m * 2 ^ Z.pos d.
Proof.
  induction d as [|d IH] using Pos.peano_ind; [cbn; lia|].
  rewrite Pos.iter_succ, Pos2Z.inj_succ, Z.pow_succ_r by lia. lia.
Qed.

Lemma f64_of_Z_int n : 0 < n < 2 ^ 53 → is_int (f64_of_Z n) n.
Proof.
  intros Hn. pose proof (log2_53 n Hn) as HL. destruct n as [|m|m]; [lia| |lia].
  unfold f64_of_Z, binary_normalize, binary_round, shl_align, fexp.
  change (Z.pos (digits2_pos m)) with (Zdigits2 (Z.pos m)). rewrite Zdigits2_log2 by lia.
  assert (Z.max (Z.log2 (Z.pos m) + 1 + 0 - 53) (emin 53 1024) = Z.log2 (Z.pos m) - 52) as -> by (unfold emin; lia).
  rewrite Z.sub_0_r. destruct (Z.log2 (Z.pos m) - 52) as [|d|d] eqn:Ed; [|lia|].
  - pose proof (round_exact (Z.pos m) 0 Hn ltac:(lia)) as H. by rewrite Z.pow_0_r, Z.mul_1_r in H.
  - rewrite iter_xO. change (Z.neg d) with (- Z.pos d). apply round_exact; lia.
Qed.

Lemma f64_mul_int x y a b :
  is_int x a → is_int y b → 0 < a → 0 < b → a * b < 2 ^ 53 → is_int (f64_mul x y) (a * b).
Proof.
  intros (mx & -> & Ex) (my & -> & Ey) Ha Hb Hab. assert (a < 2 ^ 53 ∧ b < 2 ^ 53) as [Ha' Hb'] by nia.
  pose proof (log2_53 a ltac:(lia)). pose proof (log2_53 b ltac:(lia)).
  pose proof (Z.log2_mul_below a b ltac:(lia) ltac:(lia)).
  unfold f64_mul, SFmul. cbn [xorb]. rewrite Pos2Z.inj_mul, Ex, Ey.
  replace (a * 2 ^ (52 - Z.log2 a) * (b * 2 ^ (52 - Z.log2 b)))
    with (a * b * 2 ^ (104 - Z.log2 a - Z.log2 b)).
  - replace (Z.log2 a - 52 + (Z.log2 b - 52)) with (- (104 - Z.log2 a - Z.log2 b)) by lia. apply round_exact; lia.
  - replace (104 - Z.log2 a - Z.log2 b) with ((52 - Z.log2 a) + (52 - Z.log2 b)) by lia. rewrite Z.pow_add_r by lia. lia.
Qed.

Lemma wholeKbps_int k N : is_int k N → 0 < N <= maxBitRateKbps → wholeKbps k = Some N.
Proof.
  intros (m & -> & Em) HN. unfold maxBitRateKbps in HN.
  assert (Z.log2 N <= 39) as HL.
  { pose proof (proj1 (Z.log2_lt_pow2 N 40 ltac:(lia))). change (2 ^ 40) with 1099511627776 in *. lia. }
  pose proof (Z.log2_nonneg N). unfold wholeKbps.
  assert (f64_of_Z maxBitRateKbps = S754_finite false 8192000000000000 (-13)) as -> by (vm_compute; reflexivity).
  assert (f64_ltb (S754_finite false 8192000000000000 (-13)) (S754_finite false m (Z.log2 N - 52)) = false) as ->.
  { unfold f64_ltb, SFltb, SFcompare. destruct (Z.compare_spec (-13) (Z.log2 N - 52)) as [E|E|E]; [|lia|done].
    assert (Z.log2 N = 39) as El by lia. rewrite El in Em. change (2 ^ (52 - 39)) with 8192 in Em.
    change (Pos.compare_cont Eq 8192000000000000 m) with (8192000000000000 ?= m)%positive.
    destruct (Pos.compare_spec 8192000000000000 m); try done. lia. }
  assert (0 < 2 ^ (52 - Z.log2 N)) as HP by (apply Z.pow_pos_nonneg; lia).
  assert (f64_round (S754_finite false m (Z.log2 N - 52)) = N ∧ f64_ceil (S754_finite false m (Z.log2 N - 52)) = N) as [-> ->].
  { cbn [f64_round f64_ceil]. destruct (Z.leb_spec 0 (Z.log2 N - 52)); [lia|].
    replace (- (Z.log2 N - 52)) with (52 - Z.log2 N) by lia. rewrite Em. set (K := 2 ^ (52 - Z.log2 N)) in *.
    split.
    - replace (2 * (N * K) + K) with (K + N * (2 * K)) by lia. rewrite Z.div_add by lia. rewrite Z.div_small; lia.
    - replace (- (N * K)) with ((- N) * K) by lia. rewrite Z.div_mul; lia. }
  by destruct (f64_ltb _ _).
Qed.

Lemma trimWith_none fuel sp b : Forall (λ s, isPrefix s b = false) sp → trimWith fuel sp b = b.
Proof.
  intros H. destruct fuel as [|fuel]; [done|]. cbn [trimWith].
  destruct (filter (λ s, isPrefix s b = true) sp) as [|s l] eqn:E; [done|].
  assert (s ∈ filter (λ s, isPrefix s b = true) sp) as [Hs Hin]%list_elem_of_filter by (rewrite E; left).
  rewrite Forall_forall in H. specialize (H s Hin). congruence.
Qed.

Lemma not_prefix c r (sp : list bytes) :
  Forall (λ s, match s with x :: _ => x ≠ c | [] => False end) sp → Forall (λ s, isPrefix s (c :: r) = false) sp.
Proof.
  intros H. eapply Forall_impl; [exact H|]. intros [|x s] Hx; [done|]. unfold isPrefix.
  apply bool_decide_eq_false. cbn [length take]. congruence.
Qed.

Lemma trimSpace_none c r l z : isDigit c = true → c :: r = l ++ [z] → z = 115 → trimSpace (c :: r) = c :: r.
Proof.
  intros Hc E ->. unfold trimSpace.
  assert (trimWith (length (c :: r)) spaces (c :: r) = c :: r) as ->.
  { apply trimWith_none, not_prefix.
    assert (Forall (λ s, match s with x :: _ => isDigit x = false | [] => False end) spaces) as Hs
      by (vm_compute; repeat constructor).
    eapply Forall_impl; [exact Hs|]. intros [|x s] Hx; [done|]. intros ->. congruence. }
  rewrite E, reverse_snoc, trimWith_none.
  - by rewrite <- (reverse_snoc l 115), reverse_involutive.
  - apply not_prefix. vm_compute. repeat constructor; discriminate.
Qed.

Lemma spanDigits_app ds r :
  Forall (λ c, isDigit c = true) ds → (match r with c :: _ => isDigit c = false | [] => True end) → spanDigits (ds ++ r) = (ds, r).
Proof.
  intros Hd Hr. induction Hd as [|c ds Hc _ IH]; cbn [app spanDigits].
  - destruct r as [|c r]; [done|]. cbn [spanDigits]. by rewrite Hr.
  - by rewrite Hc, IH.
Qed.

(** The units of whole kbps, with their kbps. *)
Definition whole_units : list (string * Z) :=
  [("Kbps"%string, 1); ("Mbps"%string, 1000); ("Gbps"%string, 1000000); ("Tbps"%string, 1000000000)].

Lemma whole_unit unit f :
  (unit, f) ∈ whole_units →
  unitFor (str unit) = Some (f64_of_Z f) ∧ 0 < f < 2 ^ 53 ∧ ∃ l, str unit = l ++ [115].
Proof.
  unfold whole_units. rewrite !elem_of_cons. intros [[= -> ->]|[[= -> ->]|[[= -> ->]|[[= -> ->]|H]]]];
    [..|by apply not_elem_of_nil in H];
    (split; [vm_compute; reflexivity|split; [lia|]]); eexists [_; _; _]; reflexivity.
Qed.

Lemma parse_whole ds unit f :
  ds ≠ [] → Forall (λ c, isDigit c = true) ds → (unit, f) ∈ whole_units → 0 < digitsValue ds * f <= maxBitRateKbps →
  parseBitRateKbps (ds ++ 32 :: str unit) = Some (digitsValue ds * f).
Proof.
  intros Hne Hd Hu Hv. destruct (whole_unit unit f Hu) as (Ef & Hf & l & El).
  unfold maxBitRateKbps in Hv. assert (0 < digitsValue ds <= 1000000000000) as Hn by nia.
  assert (trimSpace (ds ++ 32 :: str unit) = ds ++ 32 :: str unit) as Ht.
  { destruct ds as [|c ds]; [done|]. apply Forall_cons in Hd as [Hc _]. cbn [app].
    apply (trimSpace_none c _ (c :: ds ++ 32 :: l) 115); [done| |done]. cbn [app]. f_equal. rewrite El. by rewrite <- app_assoc. }
  unfold parseBitRateKbps, bitRateMatch. rewrite Ht, spanDigits_app by done. cbn [fraction]. change (32 =? 46) with false.
  cbv iota beta. destruct ds as [|c ds]; [done|]. change (32 =? 32) with true. cbv iota. rewrite Ef. cbn [mbind option_bind].
  rewrite app_nil_r. cbn [length Nat.eqb]. set (n := digitsValue (c :: ds)) in *.
  change (2 ^ 53) with 9007199254740992 in *.
  destruct (f64_of_Z_int n ltac:(change (2 ^ 53) with 9007199254740992; lia)) as (m & E & Em). rewrite E.
  apply wholeKbps_int; [|unfold maxBitRateKbps; lia].
  apply f64_mul_int; [by exists m|apply f64_of_Z_int; change (2 ^ 53) with 9007199254740992; lia|lia|lia|].
  change (2 ^ 53) with 9007199254740992. lia.
Qed.

(** ** Rates in kbps and in Mbps *)
Lemma kbpsToMbps_ceil k :
  0 <= k <= 18446744073709550000 → kbpsToMbps k = (k + 999) / 1000.
Proof.
  intros H. unfold kbpsToMbps. destruct (Z.eqb_spec k 0) as [->|]; [done|].
  rewrite u64_small by (unfold is_u64; lia). apply i64_small. unfold is_i64. dlia.
Qed.

(** A rate in kbps and the one announced in Mbps: the latter is rounded up. *)
Definition rate_ok (kbps mbps : Z) : Prop := 0 <= kbps <= maxBitRateKbps ∧ mbps = kbpsToMbps kbps.

Lemma rate_ok_bounds k m : rate_ok k m → k <= 1000 * m < k + 1000 ∧ 0 <= m <= 1000000000.
Proof. intros [H ->]. unfold maxBitRateKbps in H. rewrite kbpsToMbps_ceil by lia. dlia. Qed.

Lemma kbpsOrMbps_exact k m : rate_ok k m → kbpsOrMbps k m = k.
Proof.
  intros R. pose proof (rate_ok_bounds k m R) as B. destruct R as [H E].
  unfold kbpsOrMbps. destruct (Z.leb_spec m 0); [lia|].
  destruct (Z.ltb_spec 0 k); [|lia]. cbn [andb]. by rewrite <- E, Z.eqb_refl.
Qed.

Lemma kbpsOrMbps_ok k m :
  0 <= k <= maxBitRateKbps → 0 <= m <= 1000000000 → rate_ok (kbpsOrMbps k m) m.
Proof.
  intros Hk Hm. unfold kbpsOrMbps. destruct (Z.leb_spec m 0).
  { unfold rate_ok, maxBitRateKbps. split; [lia|]. by replace m with 0 by lia. }
  destruct ((0 <? k) && (kbpsToMbps k =? m)) eqn:E.
  { apply andb_true_iff in E as [_ E%Z.eqb_eq]. done. }
  rewrite (u64_small m) by (unfold is_u64; lia). rewrite u64_small by (unfold is_u64; lia).
  unfold rate_ok, maxBitRateKbps. split; [lia|]. rewrite kbpsToMbps_ceil by lia. dlia.
Qed.

Lemma parseAMBR_ok s fbK fbM :
  rate_ok fbK fbM → rate_ok (parseAMBR s fbK fbM).1 (parseAMBR s fbK fbM).2.
Proof.
  intros F. unfold parseAMBR. destruct (parseBitRateKbps s) as [k|] eqn:E; [|done].
  split; [by apply parse_range in E|done].
Qed.

Definition qos_ok (q : smPolicyQoS) : Prop :=
  rate_ok (qAmbrULKbps q) (qAmbrULMbps q) ∧ rate_ok (qAmbrDLKbps q) (qAmbrDLMbps q).
Definition sub_ok (q : subscribedQoS) : Prop :=
  rate_ok (sAmbrULKbps q) (sAmbrULMbps q) ∧ rate_ok (sAmbrDLKbps q) (sAmbrDLMbps q).

Lemma rate_ok_100 : rate_ok 100000 100.
Proof. unfold rate_ok, maxBitRateKbps. split; [lia|done]. Qed.

Lemma subscribedOf_ok cfg : sub_ok (subscribedOf cfg).
Proof.
  unfold subscribedOf. pose proof (parseAMBR_ok (str (dcUplink cfg)) _ _ rate_ok_100) as U.
  pose proof (parseAMBR_ok (str (dcDownlink cfg)) _ _ rate_ok_100) as D.
  destruct (parseAMBR (str (dcUplink cfg)) 100000 100), (parseAMBR (str (dcDownlink cfg)) 100000 100).
  done.
Qed.

Lemma firstSubscribed_ok entries dnn q : firstSubscribed entries dnn = Some q → sub_ok q.
Proof.
  induction entries as [|e r IH]; cbn [firstSubscribed]; [done|].
  destruct (assoc (smDnnConfigurations e) dnn) as [cfg|]; [|exact IH].
  destruct (dc5qi cfg =? 0); [exact IH|]. intros E. injection E as <-. apply subscribedOf_ok.
Qed.

Lemma fetchSubscribedQoS_ok peer udm supi dnn slice q :
  fetchSubscribedQoS peer udm supi dnn slice = Some q → sub_ok q.
Proof.
  unfold fetchSubscribedQoS. repeat case_match; try discriminate. apply firstSubscribed_ok.
Qed.

Lemma policyFallback_ok sub : (∀ q, sub = Some q → sub_ok q) → qos_ok (policyFallback sub).
Proof.
  destruct sub as [q|]; intros H; [|split; apply rate_ok_100].
  destruct (H q eq_refl) as [U D]. split; cbn; by rewrite kbpsOrMbps_exact.
Qed.

Lemma applyDecision_ok fb q body : qos_ok fb → qos_ok q → qos_ok (applyDecision fb q body).
Proof.
  intros [FU FD] [QU QD]. unfold applyDecision.
  set (q1 := match asStr (assoc body "x5gcQosSource") with Some _ => _ | None => _ end).
  assert (qos_ok q1) as Q1 by (unfold q1; repeat case_match; done). clearbody q1.
  set (q2 := match asObj (assoc body "qosDecs") ≫= firstObj with Some _ => _ | None => _ end).
  assert (qos_ok q2) as Q2 by (unfold q2; repeat case_match; done). clearbody q2.
  destruct (asObj (assoc body "sessRules") ≫= firstObj) as [rule|]; [|done].
  destruct (asObj (assoc rule "sessAmbr")) as [ambr|]; [|done].
  assert (∀ t fbK fbM k m, rate_ok fbK fbM → rate_ok k m →
            let '(a, b) := match t with Some u => parseAMBR (str u) fbK fbM | None => (k, m) end in
            rate_ok a b) as R.
  { intros [u|] fbK fbM k m F K; [|done]. pose proof (parseAMBR_ok (str u) fbK fbM F).
    by destruct (parseAMBR (str u) fbK fbM). }
  destruct Q2 as [U D].
  pose proof (R (asStr (assoc ambr "uplink")) _ _ _ _ FU U) as RU.
  pose proof (R (asStr (assoc ambr "downlink")) _ _ _ _ FD D) as RD.
  repeat case_match; done.
Qed.

Lemma createSMPolicy_ok pcfPeer pcf supi dnn ip slice sub :
  (∀ q, sub = Some q → sub_ok q) →
  qos_ok (createSMPolicy pcfPeer pcf supi dnn ip slice sub).2.
Proof.
  intros H. apply policyFallback_ok in H as F. unfold createSMPolicy.
  destruct (String.eqb pcfPeer ""); [done|].
  destruct (pcf _) as [|status location [b|]]; [done|..].
  all: repeat case_match; try done. by apply applyDecision_ok.
Qed.

(** What a rate of [k] kbps with its announcement of [m] Mbps has to satisfy: at most
    1 Pbps, so that the conversion to bits per second fits; the announcement is the rate
    rounded up; the rate installed at the UPF is the exact one; and the element for the
    UE, which has 16 bits for the Mbps, is read back when they are enough. *)
Definition rate_agrees (k m : Z) : Prop :=
  0 <= k <= maxBitRateKbps ∧ k <= 1000 * m < k + 1000 ∧ kbpsOrMbps k m = k ∧
  is_i64 (m * 1000000) ∧
  (∀ m', 0 <= m' → m < 65536 → m' < 65536 →
     read_ambr (buildSessionAMBR m m') = Some (m, m') ∧ read_ambr (buildSessionAMBR m' m) = Some (m', m)).

Lemma rate_ok_agrees k m : rate_ok k m → rate_agrees k m.
Proof.
  intros R. pose proof (rate_ok_bounds k m R) as [B C]. unfold rate_agrees.
  split; [apply R|]. split; [done|]. split; [by apply kbpsOrMbps_exact|].
  split; [unfold is_i64; lia|]. intros m' H1 H2 H3.
  rewrite !buildSessionAMBR_read. by rewrite !Z.mod_small by lia.
Qed.

(** C34: the rates of a session.  A text of digits, one space and Kbps, Mbps, Gbps or Tbps
    that stands for more than nothing and at most 1 Pbps is read as exactly that rate,
    and announced as it, rounded up to Mbps.  And whatever the UDM and the PCF answer
    (fractions and other texts included, where a rate is rounded or replaced by a default),
    the Session-AMBR of a new session is at most 1 Pbps in both directions, the Mbps
    announced are the rate that is kept, rounded up, the maximum bit rate for the UPF is that
    rate, and the UE reads the Mbps back from its element as long as both are below
    65536 (above, they wrap). *)
Theorem session_rates_bounded udmPeer udm pcfPeer pcf supi dnn ip slice :
  (∀ ds unit f fbKbps fbMbps, ds ≠ [] → Forall (λ c, isDigit c = true) ds → (unit, f) ∈ whole_units →
     0 < digitsValue ds * f <= maxBitRateKbps →
     parseAMBR (ds ++ 32 :: str unit) fbKbps fbMbps = (digitsValue ds * f, (digitsValue ds * f + 999) / 1000)) ∧
  (let sub := fetchSubscribedQoS udmPeer udm supi dnn slice in
   let q := (createSMPolicy pcfPeer pcf supi dnn ip slice sub).2 in
   rate_agrees (qAmbrULKbps q) (qAmbrULMbps q) ∧ rate_agrees (qAmbrDLKbps q) (qAmbrDLMbps q)).
Proof.
  split.
  - intros ds unit f fbK fbM Hne Hd Hu Hv. unfold parseAMBR. rewrite (parse_whole ds unit f) by done.
    unfold maxBitRateKbps in Hv. by rewrite kbpsToMbps_ceil by lia.
  - intros sub q. assert (qos_ok q) as [U D].
    { apply createSMPolicy_ok. intros s. apply fetchSubscribedQoS_ok. }
    by split; apply rate_ok_agrees.
Qed.

Lemma session_rates_bounded_witness :
  parseAMBR (str "250 Gbps") 1 1 = (250000000, 250000) ∧ 250000000 = digitsValue (str "250") * 1000000.
Proof.
  split; [|reflexivity].
  apply (proj1 (session_rates_bounded "" (λ _ _ _, NoReply) "" (λ _, NoReply) "" "" "" (mkSliceID 1 "")) (str "250") "Gbps" 1000000 1 1).
  - discriminate.
  - repeat constructor.
  - do 2 right. left.
  - vm_compute. split; [reflexivity|discriminate].
Defined.

(** The PCF decides only by a 403; every other outcome grants what was requested,
    changed by the decision if there is one. *)
Lemma updateSMPolicy_rejected pcfPeer pcf ps five ul dl :
  (updateSMPolicy pcfPeer pcf ps five ul dl).2 = false ↔
  pcfPeer ≠ ""%string ∧ psPolicyID ps ≠ ""%string ∧
  ∃ l b, pcf (psPolicyID ps) (updateBody ps five ul dl) = Answer 403 l b.
Proof.
  unfold updateSMPolicy.
  destruct (String.eqb_spec pcfPeer ""); [split; [done|naive_solver]|].
  destruct (String.eqb_spec (psPolicyID ps) ""); [split; [done|naive_solver]|]. cbn [orb].
  destruct (pcf _ _) as [|st l b]; [split; [done|naive_solver]|].
  destruct (Z.eq_dec st 403) as [->|N]; [naive_solver|].
  split; [|naive_solver]. intros E. exfalso. revert E N. repeat case_match; cbn; congruence.
Qed.

Lemma updateSMPolicy_ok pcfPeer pcf ps five ul dl :
  0 <= psAmbrULKbps ps <= maxBitRateKbps → 0 <= psAmbrDLKbps ps <= maxBitRateKbps →
  0 <= ul <= 1000000000 → 0 <= dl <= 1000000000 →
  qos_ok (updateSMPolicy pcfPeer pcf ps five ul dl).1.
Proof.
  intros HU HD Hul Hdl. unfold updateSMPolicy.
  set (q := mkSmPolicyQoS five _ _ _ _ _ _).
  assert (qos_ok q) as Q by (split; by apply kbpsOrMbps_ok).
  repeat case_match; try done. by apply applyDecision_ok.
Qed.

Lemma isGBRFiveQI_nas v : isGBRFiveQI v = Is5QIGBR v.
Proof. reflexivity. Qed.
