(* ===== verification/SmfState.v ===== *)
(** * The state of the SMF

    [nf/smf/internal/server/server.go]: the session table, the address pools, the
    store, the pending secondary authentications, the N4 and N2 information the SMF
    builds, and the release of a session.

    A session is an object that handlers and goroutines share: [heap] maps the
    number of an object to its value, [sessions] the SM context reference to the
    number.  The parts of a session that are set once are the record
    [SessionInfo]; the QoS is a [smPolicyQoS]; the handover fields are a [Handover].
    Goroutines that have been started and have not run are [tasks]; the messages
    sent to the UPF, the PCF and the AMF are [calls], oldest first.

    The ASN.1 runtime is the record [Aper]: functions between transfers and octets
    that may fail.  What the peers answer to one event is the record [Env].
*)
From S2P Require Import Prelude NasIE NasPduSession NasEap SmfPools SmfQos.
Open Scope Z_scope.

(** ** Sessions *)
Inductive SessState := ACTIVE | IDLE | RELEASING.
Inductive HoState := HoUnset | PREPARING | PREPARED | COMPLETED | HoNone.

#[export] Instance SessState_eq_dec : EqDecision SessState.
Proof. solve_decision. Defined.
#[export] Instance HoState_eq_dec : EqDecision HoState.
Proof. solve_decision. Defined.

Record SessionInfo := mkSessionInfo {
  SUPI : string; PDUSessionID : Z; DNN : string;
  UEIP : option IP;               (* nil: [None] *)
  ULTEID : Z; SEID : Z; SessSlice : SliceID; SmPolicyID : string;
  CreatedAt : Z; PDUSessionType : Z; UEIPv6Prefix : CIDRText; UPSecurityRequired : bool
}.

Record Handover := mkHandover {
  HOTargetGNBIP : IP; HOTargetDLTEID : Z; HOState : HoState; HODirectForwarding : bool;
  HOTargetFailed : bool; HOReleaseOnDeactivate : bool
}.
Definition noHandover : Handover := mkHandover [] 0 HoUnset false false false.

Record Session := mkSession {
  info : SessionInfo; qos : smPolicyQoS; State : SessState;
  N4EstablishedAt : option Z; N4Stale : bool; ho : Handover
}.

Definition set_qos (q : smPolicyQoS) (s : Session) : Session :=
  mkSession (info s) q (State s) (N4EstablishedAt s) (N4Stale s) (ho s).
Definition set_State (st : SessState) (s : Session) : Session :=
  mkSession (info s) (qos s) st (N4EstablishedAt s) (N4Stale s) (ho s).
Definition set_N4EstablishedAt (t : Z) (s : Session) : Session :=
  mkSession (info s) (qos s) (State s) (Some t) (N4Stale s) (ho s).
Definition set_N4Stale (s : Session) : Session :=
  mkSession (info s) (qos s) (State s) (N4EstablishedAt s) true (ho s).
Definition set_ho (h : Handover) (s : Session) : Session :=
  mkSession (info s) (qos s) (State s) (N4EstablishedAt s) (N4Stale s) h.

(** [sess.HOTargetFailed, sess.HOReleaseOnDeactivate = false, false] *)
Definition clearTargetFailed (s : Session) : Session :=
  let h := ho s in
  set_ho (mkHandover (HOTargetGNBIP h) (HOTargetDLTEID h) (HOState h) (HODirectForwarding h)
                     false false) s.

(** ** Secondary authentication in progress *)
Inductive AuthState := PENDING_AUTH | AWAITING_AAA | AUTHORIZED | REJECTED.

Record pendingSecondaryAuth := mkPending {
  paRef : string; paSUPI : string; paDNN : string; paPSI : Z; paPTI : Z; paSlice : SliceID;
  paState : AuthState; paGrantedType : Z; paIPv4 : option IP; paV6Prefix : option IPNet;
  paV6IID : bytes; paPCORequest : option PDUSessionEstablishmentRequest; paULTEID : Z; paSEID : Z
}.

Definition set_paState (st : AuthState) (p : pendingSecondaryAuth) : pendingSecondaryAuth :=
  mkPending (paRef p) (paSUPI p) (paDNN p) (paPSI p) (paPTI p) (paSlice p) st (paGrantedType p)
    (paIPv4 p) (paV6Prefix p) (paV6IID p) (paPCORequest p) (paULTEID p) (paSEID p).

(** ** N2 SM information *)
(** The NGAP Cause: the choice that is present and the values of the choices. *)
Record NgapCause := mkNgapCause {
  cPresent : Z; cRadioNetwork : option Z; cTransport : option Z; cNas : option Z;
  cProtocol : option Z; cMisc : option Z
}.
Definition CausePresentRadioNetwork : Z := 1.
Definition CausePresentTransport : Z := 2.
Definition CausePresentNas : Z := 3.
Definition CausePresentProtocol : Z := 4.
Definition CausePresentMisc : Z := 5.

Definition ngapCause (present value : Z) : NgapCause :=
  if present =? CausePresentRadioNetwork then mkNgapCause present (Some value) None None None None
  else if present =? CausePresentProtocol then mkNgapCause present None None None (Some value) None
  else mkNgapCause present None None None None None.

Definition ngapCauseValue (c : NgapCause) : Z :=
  if cPresent c =? CausePresentRadioNetwork then default (-1) (cRadioNetwork c)
  else if cPresent c =? CausePresentTransport then default (-1) (cTransport c)
  else if cPresent c =? CausePresentNas then default (-1) (cNas c)
  else if cPresent c =? CausePresentProtocol then default (-1) (cProtocol c)
  else if cPresent c =? CausePresentMisc then default (-1) (cMisc c)
  else -1.

(** The information elements of a PDU Session Resource Setup Request Transfer. *)
Record GBRInfo := mkGBRInfo { mfbrDL : Z; mfbrUL : Z; gfbrDL : Z; gfbrUL : Z }.
Record QosFlowItem := mkQosFlowItem { flowQFI : Z; flow5QI : Z; flowARP : Z; flowGBR : option GBRInfo }.
Inductive SetupIE :=
  | IEAggregateMaximumBitRate (ul dl : Z)
  | IEULNGUUPTNLInformation (ip : bytes) (teid : bytes)
  | IEDataForwardingNotPossible
  | IEPDUSessionType (t : Z)
  | IEQosFlowSetupRequestList (l : list QosFlowItem).

Record HandoverAck := mkHandoverAck {
  hkTunnel : option (bytes * bytes);          (* GTP tunnel: TEID octets and address *)
  hkForwarding : option (bytes * bytes);
  hkFlows : list (Z * bool)                   (* QFI, data forwarding accepted *)
}.
Record HandoverCommand := mkHandoverCommand {
  hcForwarding : option (bytes * bytes); hcFlows : option (list Z)
}.

(** The transfers of the ASN.1 runtime. *)
Record Aper := mkAper {
  aSetup : list SetupIE → option bytes;
  aModify : option bytes;
  aPathSwitchAck : option bytes;
  aPathSwitchUnsuccessful : NgapCause → option bytes;
  aPrepUnsuccessful : NgapCause → option bytes;
  aHandoverCommand : HandoverCommand → option bytes;
  dSetupResponse : bytes → option (option (bytes * bytes));
  dPathSwitch : bytes → option (option (bytes * bytes));
  dHandoverAck : bytes → option HandoverAck;
  dHandoverRequired : bytes → option bool;
  dResAllocUnsuccessful : bytes → option NgapCause;
  dPathSwitchSetupFailed : bytes → option NgapCause
}.

Definition ngapPDUSessionType (t : Z) : Z :=
  if t =? PDUSessionTypeIPv6 then 1 else if t =? PDUSessionTypeIPv4v6 then 2 else 0.

Definition buildTransportLayerAddress (ip : option IP) : bytes :=
  match ip ≫= To4 with Some ip4 => ip4 | None => [0; 0; 0; 0] end.

Definition encodeGTPTEID (teid : Z) : bytes :=
  [u8 (teid ≫ 24); u8 (teid ≫ 16); u8 (teid ≫ 8); u8 teid].

Definition buildQosFlowSetupRequestList (qfi fiveQI ulBps dlBps : Z) : list QosFlowItem :=
  [mkQosFlowItem qfi fiveQI 9
     (if Is5QIGBR (u8 fiveQI) then Some (mkGBRInfo dlBps ulBps dlBps ulBps) else None)].

(** The element 127 goes between the tunnel and the session type. *)
Definition buildSetupOpts (a : Aper) (upfIP : option IP) (teid qfi fiveQI ulBps dlBps pduType : Z)
    (dataFwdNotPossible : bool) : option bytes :=
  aSetup a ([IEAggregateMaximumBitRate ulBps dlBps;
             IEULNGUUPTNLInformation (buildTransportLayerAddress upfIP) (encodeGTPTEID teid)]
            ++ (if dataFwdNotPossible then [IEDataForwardingNotPossible] else [])
            ++ [IEPDUSessionType pduType;
                IEQosFlowSetupRequestList (buildQosFlowSetupRequestList qfi fiveQI ulBps dlBps)]).

(** [int64(mbps) * 1_000_000] *)
Definition bps (mbps : Z) : Z := i64 (mbps * 1000000).

(** The GTP tunnel a decoded transfer carries: the gNB address and the TEID. *)
Definition tunnelOf (t : option (option (bytes * bytes))) : option (IP * Z) :=
  match t with
  | Some (Some (teid, ip)) =>
      match teid with
      | [t0; t1; t2; t3] =>
          if (length ip <? 4)%nat then None
          else Some (go_copy (replicate 4 0) (take 4 ip), be32 t0 t1 t2 t3)
      | _ => None
      end
  | _ => None
  end.
Definition extractGNBTunnelInfo (a : Aper) (b : bytes) : option (IP * Z) := tunnelOf (dSetupResponse a b).
Definition extractPathSwitchTunnelInfo (a : Aper) (b : bytes) : option (IP * Z) := tunnelOf (dPathSwitch a b).
Definition decodeHandoverAck (a : Aper) (b : bytes) : option (HandoverAck * IP * Z) :=
  ack ← dHandoverAck a b;
  '(ip, teid) ← tunnelOf (Some (hkTunnel ack));
  Some (ack, ip, teid).

Definition dataForwardingDirect : string := "direct".
Definition dataForwardingNone : string := "none".

Definition buildHandoverCommandTransfer (direct : bool) (ack : HandoverAck) : HandoverCommand * string :=
  if negb direct then (mkHandoverCommand None None, dataForwardingNone)
  else match hkForwarding ack with
       | None => (mkHandoverCommand None None, dataForwardingNone)
       | Some fwd =>
           match (fst <$> filter (λ f, f.2 = true) (hkFlows ack)) with
           | [] => (mkHandoverCommand None None, dataForwardingNone)
           | l => (mkHandoverCommand (Some fwd) (Some l), dataForwardingDirect)
           end
       end.

(** ** N4 messages *)
Record QerIE := mkQerIE { qerId : Z; qerQFI : option Z; qerMBR : option (Z * Z) }.
Inductive FarIE :=
  | FarForward (teid : Z) (gnb : IP)
  | FarDrop.

Definition sessionAMBRQERID : Z := 1.
Definition defaultFlowQERID : Z := 2.
Definition defaultQFI : Z := 1.
Definition usageReportingURRID : Z := 1.

Definition sessionAMBRKbps (s : Session) : Z * Z :=
  (kbpsOrMbps (qAmbrULKbps (qos s)) (qAmbrULMbps (qos s)),
   kbpsOrMbps (qAmbrDLKbps (qos s)) (qAmbrDLMbps (qos s))).

Definition ambrMBR (ul dl : Z) : option (Z * Z) :=
  if (0 <? ul) && (0 <? dl) then Some (ul, dl) else None.
Definition buildSessionAMBRCreateQER (ul dl : Z) : QerIE := mkQerIE sessionAMBRQERID None (ambrMBR ul dl).
Definition buildDefaultFlowCreateQER : QerIE := mkQerIE defaultFlowQERID (Some defaultQFI) None.
Definition buildSessionAMBRUpdateQER (ul dl : Z) : QerIE := mkQerIE sessionAMBRQERID None (ambrMBR ul dl).
Definition buildDLSwitchFAR (teid : Z) (gnb : IP) : FarIE := FarForward teid gnb.
Definition buildDLDropFAR : FarIE := FarDrop.

(** The UE IP Address element: flags, IPv4 and IPv6 addresses. *)
Definition buildUEIPAddressIE (i : SessionInfo) : option (Z * option IP * option IP) :=
  if negb (pduTypeNeedsIPv6 (PDUSessionType i)) then Some (2, UEIP i, None)
  else
    v6 ← ueIPv6Address (UEIPv6Prefix i);
    if pduTypeNeedsIPv4 (PDUSessionType i) then Some (3, UEIP i, Some v6)
    else Some (1, None, Some v6).

Inductive N4Request :=
  | N4Establishment (seq seid ulTEID : Z) (ueIP : Z * option IP * option IP) (networkInstance : string)
                    (qers : list QerIE)
  | N4ModifyFAR (seq seid : Z) (far : FarIE)
  | N4ModifyQER (seq seid : Z) (qer : QerIE)
  | N4Deletion (seq seid : Z)
  | N4AssociationSetup (seq rts : Z)
  | N4Heartbeat (seq rts : Z).

(** A message of the UPF: its type and sequence number, and its Cause, Recovery Time
    Stamp and Node ID elements if present.  A time stamp is a number of seconds. *)
Record PfcpMsg := mkPfcpMsg {
  pmType : Z; pmSeq : Z; pmCause : option Z; pmRTS : option Z; pmNodeID : string
}.
Definition CauseRequestAccepted : Z := 1.
Definition MsgTypeHeartbeatResponse : Z := 2.
Definition MsgTypeAssociationSetupResponse : Z := 6.
Definition MsgTypeSessionEstablishmentResponse : Z := 51.
Definition MsgTypeSessionModificationResponse : Z := 53.

(** ** The server *)
Record SessionRecord := mkSessionRecord {
  rSUPI : string; rDNN : string; rUEIP : bytes; rULTEID : Z; rSEID : Z; rSST : Z; rSD : string
}.

Record releaseTarget := mkTarget { tRef : string; tSess : nat }.

(** Goroutines, and a secondary authentication that waits for the DN-AAA. *)
Inductive Task :=
  | TEstablishment (sess : nat)
  | TModification (sess : nat) (teid : Z) (gnb : IP)
  | TDeactivation (sess : nat)
  | TDeletion (sess : nat)
  | TReleaseOne (t : releaseTarget)
  | TReleaseGuard (t : releaseTarget)
  | TTargetFailed (sess : nat) (release : bool)
  | TAuthAAA (p : pendingSecondaryAuth) (eapResp : bytes).

Inductive Call :=
  | CN4 (m : N4Request)
  | CPolicyCreate (body : json)
  | CPolicyUpdate (id : string) (body : json)
  | CPolicyDelete (id : string)
  | CAMFRelease (supi : string) (psi : Z)
  | CN1N2 (supi : string) (psi : Z) (n1 n2 : bytes) (n2Type : string).

(** The association with the UPF; a zero time stamp is [None]. *)
Inductive AssocState := SETUP_PENDING | ASSOCIATED | RECOVERING.
#[export] Instance AssocState_eq_dec : EqDecision AssocState.
Proof. solve_decision. Defined.
Record pfcpAssociation := mkAssociation {
  aState : AssocState; aPeerNodeID : string; aRemoteRTS : option Z; aAssociatedAt : option Z;
  aMissingRTSWarned : bool
}.

Record Smf := mkSmf {
  heap : gmap nat Session;
  sessions : gmap string nat;
  ipPools : gmap string IPPool;
  ipv6Pools : gmap string IPv6Pool;
  nextSEID : Z; nextTEID : Z; pfcpSeq : Z;
  db : option (gmap string SessionRecord);
  pendingAuth : gmap string pendingSecondaryAuth;
  association : pfcpAssociation;
  tasks : list Task;
  calls : list Call
}.

Definition set_heap h s := mkSmf h (sessions s) (ipPools s) (ipv6Pools s) (nextSEID s) (nextTEID s)
  (pfcpSeq s) (db s) (pendingAuth s) (association s) (tasks s) (calls s).
Definition set_sessions m s := mkSmf (heap s) m (ipPools s) (ipv6Pools s) (nextSEID s) (nextTEID s)
  (pfcpSeq s) (db s) (pendingAuth s) (association s) (tasks s) (calls s).
Definition set_ipPools p s := mkSmf (heap s) (sessions s) p (ipv6Pools s) (nextSEID s) (nextTEID s)
  (pfcpSeq s) (db s) (pendingAuth s) (association s) (tasks s) (calls s).
Definition set_ipv6Pools p s := mkSmf (heap s) (sessions s) (ipPools s) p (nextSEID s) (nextTEID s)
  (pfcpSeq s) (db s) (pendingAuth s) (association s) (tasks s) (calls s).
Definition set_ids seid teid s := mkSmf (heap s) (sessions s) (ipPools s) (ipv6Pools s) seid teid
  (pfcpSeq s) (db s) (pendingAuth s) (association s) (tasks s) (calls s).
Definition set_pfcpSeq n s := mkSmf (heap s) (sessions s) (ipPools s) (ipv6Pools s) (nextSEID s) (nextTEID s)
  n (db s) (pendingAuth s) (association s) (tasks s) (calls s).
Definition set_db d s := mkSmf (heap s) (sessions s) (ipPools s) (ipv6Pools s) (nextSEID s) (nextTEID s)
  (pfcpSeq s) d (pendingAuth s) (association s) (tasks s) (calls s).
Definition set_pendingAuth p s := mkSmf (heap s) (sessions s) (ipPools s) (ipv6Pools s) (nextSEID s) (nextTEID s)
  (pfcpSeq s) (db s) p (association s) (tasks s) (calls s).
Definition set_association a s := mkSmf (heap s) (sessions s) (ipPools s) (ipv6Pools s) (nextSEID s) (nextTEID s)
  (pfcpSeq s) (db s) (pendingAuth s) a (tasks s) (calls s).
Definition set_tasks t s := mkSmf (heap s) (sessions s) (ipPools s) (ipv6Pools s) (nextSEID s) (nextTEID s)
  (pfcpSeq s) (db s) (pendingAuth s) (association s) t (calls s).

(** [go f()] and a message sent. *)
Definition spawn (t : Task) (s : Smf) : Smf := set_tasks (tasks s ++ [t]) s.
Definition emit (c : Call) (s : Smf) : Smf :=
  mkSmf (heap s) (sessions s) (ipPools s) (ipv6Pools s) (nextSEID s) (nextTEID s)
    (pfcpSeq s) (db s) (pendingAuth s) (association s) (tasks s) (calls s ++ [c]).

(** An update of one object, as all writes to a [*Session] are. *)
Definition upd (l : nat) (f : Session → Session) (s : Smf) : Smf :=
  set_heap (alter f l (heap s)) s.

(** [s.sessions[ref]]: the number and the value of the object. *)
Definition lookupSession (ref : string) (s : Smf) : option (nat * Session) :=
  l ← sessions s !! ref; v ← heap s !! l; Some (l, v).

(** ** Configuration and environment *)
Record DNNConfig := mkDNNConfig {
  dName : string; dUEIPPool : ParseCIDR; dUEIPv6Prefix : CIDRText;
  dSecondaryAuth : bool; dDNAAAUnreachable : bool; dDNS : list (option IP)
}.
Record Config := mkConfig {
  cDNNs : list DNNConfig; cUEIPPool : ParseCIDR; cUPFN3Addr : option IP;
  cUDM : string; cPCF : string; cAMF : string; cAMFMgmt : string;
  cN1 : nat;                       (* retransmissions N1 *)
  cReleaseGuard : Z;
  cRecoveryTS : Z
}.

(** What surrounds one event: the time, a new UUID, the answers of the peers.  The
    datagrams that arrive after the [n]-th transmission of a request and before T1
    expires are [e_rx request n], unparsable ones as [None]; [e_budget] transmissions
    fit before the deadline of the request. *)
Record Env := mkEnv {
  e_now : Z; e_ref : string; e_aper : Aper;
  e_udm : string → string → SliceID → Reply (list SmDataEntry);
  e_pcfCreate : json → Reply (list (string * json));
  e_pcfUpdate : string → json → Reply (list (string * json));
  e_amfRelease : option Z;          (* status, or no answer *)
  e_db : bool;                      (* the store accepts the operation *)
  e_dial : bool; e_write : bool;    (* the socket to the UPF *)
  e_rx : N4Request → nat → list (option PfcpMsg);
  e_budget : nat;
  e_aaa : string → bytes → option bytes
}.

Definition dnsServersFor (c : Config) (dnn : string) : list IP :=
  match filter (λ d, dName d = dnn) (cDNNs c) with
  | [] => []
  | d :: _ => dDNS d ≫= λ a, match a ≫= To4 with Some ip => [ip] | None => [] end
  end.

Definition secondaryAuthRequired (c : Config) (dnn : string) : bool :=
  existsb (λ d, dSecondaryAuth d && String.eqb (dName d) dnn) (cDNNs c).

(** ** Pools of the server *)
Definition internet : string := "internet".

(** The pool of a DNN, or the pool of the DNN [internet]. *)
Definition poolName (dnn : string) (s : Smf) : string :=
  match ipPools s !! dnn with Some _ => dnn | None => internet end.

Definition setPool (name : string) (p : IPPool) (s : Smf) : Smf :=
  set_ipPools (<[name := p]> (ipPools s)) s.
Definition setPool6 (name : string) (p : IPv6Pool) (s : Smf) : Smf :=
  set_ipv6Pools (<[name := p]> (ipv6Pools s)) s.

(** [pool.Release(ip)] of the pool of the DNN; nothing for a nil address. *)
Definition releaseIPv4 (dnn : string) (ip : option IP) (s : Smf) : Smf :=
  match ip, ipPools s !! poolName dnn s with
  | Some ip, Some p => setPool (poolName dnn s) (Release p ip) s
  | _, _ => s
  end.
Definition releaseIPv6 (dnn : string) (n : option IPNet) (s : Smf) : Smf :=
  match n, ipv6Pools s !! dnn with
  | Some n, Some p => setPool6 dnn (Release6 p (Some n)) s
  | _, _ => s
  end.

Definition textPrefix (t : CIDRText) : option IPNet :=
  match t with CIDR (Some (_, n)) => Some n | _ => None end.

(** ** The store *)
Definition recordOf (i : SessionInfo) : SessionRecord :=
  let ueIP := match UEIP i with
              | Some ip => ip
              | None => default [] (ueIPv6Address (UEIPv6Prefix i))
              end in
  mkSessionRecord (SUPI i) (DNN i) ueIP (ULTEID i) (SEID i) (sliceSST (SessSlice i))
                  (sliceSD (SessSlice i)).

Definition persistSession (e : Env) (ref : string) (i : SessionInfo) (s : Smf) : Smf :=
  match db s with
  | Some m => if e_db e then set_db (Some (<[ref := recordOf i]> m)) s else s
  | None => s
  end.

Definition deleteSession (e : Env) (ref : string) (s : Smf) : Smf :=
  match db s with
  | Some m => if e_db e then set_db (Some (delete ref m)) s else s
  | None => s
  end.

(** The purge of the records of the previous run; [e_db] is the answer to the listing
    and to each deletion. *)
Definition loadFromStore (e : Env) (s : Smf) : Smf :=
  match db s with
  | Some m => if e_db e then foldr (λ ref, deleteSession e ref) s (map_to_list m).*1 else s
  | None => s
  end.

(** ** Start-up *)
Fixpoint newPools (l : list DNNConfig) (m : gmap string IPPool) : option (gmap string IPPool) :=
  match l with
  | [] => Some m
  | d :: r => p ← NewIPPool (dUEIPPool d); newPools r (<[dName d := p]> m)
  end.
Fixpoint newPools6 (l : list DNNConfig) (m : gmap string IPv6Pool) : option (gmap string IPv6Pool) :=
  match l with
  | [] => Some m
  | d :: r =>
      match dUEIPv6Prefix d with
      | NoCIDR => newPools6 r m
      | CIDR c => p ← NewIPv6Pool c; newPools6 r (<[dName d := p]> m)
      end
  end.

Definition New (c : Config) (e : Env) (store : option (gmap string SessionRecord)) : option Smf :=
  pools ← newPools (cDNNs c) ∅;
  pools ← match pools !! internet with
          | Some _ => Some pools
          | None => p ← NewIPPool (cUEIPPool c); Some (<[internet := p]> pools)
          end;
  pools6 ← newPools6 (cDNNs c) ∅;
  Some (loadFromStore e
    (mkSmf ∅ ∅ pools pools6 0 0 0 store ∅ (mkAssociation SETUP_PENDING "" None None false) [] [])).

(** ** Sequence numbers *)
Definition pfcpSeqMax : Z := 0xFFFFFF.
Definition nextPFCPSeq (s : Smf) : Z * Smf :=
  let n := u32 (pfcpSeq s + 1) in
  (u32 (n - 1) mod pfcpSeqMax + 1, set_pfcpSeq n s).

(** ** Transactions with the UPF *)
(** The first datagram that is the answer, over the transmissions that are made: at
    most N1 retransmissions, and not after the deadline. *)
Definition isAnswer (seq wantType : Z) (d : option PfcpMsg) : bool :=
  match d with Some m => (pmSeq m =? seq) && (pmType m =? wantType) | None => false end.

Fixpoint pfcpAttempts (attempts : nat) (n : nat) (rx : nat → list (option PfcpMsg)) (seq wantType : Z)
    : option PfcpMsg * nat :=
  match attempts with
  | O => (None, n)
  | S k =>
      match filter (λ d, isAnswer seq wantType d = true) (rx n) with
      | Some m :: _ => (Some m, S n)
      | _ => pfcpAttempts k (S n) rx seq wantType
      end
  end.

(** Errors of a transaction: [TxFailed] for the socket, [TxTimeout] after N1. *)
Inductive TxResult := TxFailed | TxTimeout | TxMsg (m : PfcpMsg).

Definition pfcpTransact (c : Config) (e : Env) (req : N4Request) (seq wantType : Z) : TxResult * nat :=
  if negb (e_dial e && e_write e) then (TxFailed, O)
  else match pfcpAttempts (S (cN1 c) `min` e_budget e) O (e_rx e req) seq wantType with
       | (Some m, n) => (TxMsg m, n)
       | (None, n) => (TxTimeout, n)
       end.

(** The first datagram within the deadline of the senders that do not retransmit. *)
Definition firstDatagram (e : Env) (req : N4Request) : option PfcpMsg :=
  match e_rx e req O with Some m :: _ => Some m | _ => None end.
