(* ===== verification/SmfSession.v ===== *)
(** * The PDU session handlers of the SMF

    [nf/smf/internal/server/server.go], [secondary_auth.go], [handover_n2.go],
    [pfcp_ho.go], [qos.go] and [paging.go]: creation, update and release of an SM
    context, secondary authentication, N2 and Xn handover, and the goroutines these
    start.

    A handler maps the server to the server and the response.  The JSON body of a
    request is represented by the values of its fields after the type assertions,
    with the zero value for a missing field.  A handler runs without interruption, also
    through a PFCP transaction in it, except that a secondary authentication waits for
    the DN-AAA: the wait is the task [TAuthAAA].  The checks with which the handover
    handlers notice, after such a transaction, that the session has become RELEASING
    meanwhile are translated, but no run takes them.  Logging, tracing and metrics are
    left out.
*)
From stdpp Require Import pretty.
From S2P Require Import Prelude NasIE NasPduSession NasEap CryptoEap SmfPools SmfQos SmfState.
Open Scope Z_scope.

(** ** Responses *)
Inductive Resp :=
  | Problem (status : Z) (cause : string)
  | UpdateError (status : Z) (cause : string) (n2 : option (bytes * string))
  | Created (ref : string) (n1n2 : option (bytes * bytes))
  | Status (status : Z)
  | Updated (hoState : option string) (n1 : bytes) (n2 : bytes) (n2Type : string)
  | Panicked                          (* the handler panics: no response *)
  | Hangs.                            (* the handler does not return *)

(** A base64 field: missing or empty, malformed, or octets. *)
Inductive B64 := NoB64 | BadB64 | OkB64 (b : bytes).
Definition octets (b : B64) : bytes := match b with OkB64 b => b | _ => [] end.

Definition smContextUpdateError (status : Z) (cause : string) (n2 : option bytes) (n2Type : string) : Resp :=
  UpdateError status cause
    match n2 with
    | Some b => if (0 <? length b)%nat then Some (b, n2Type) else None
    | None => None
    end.

Definition causeSessionReleasing : string := "PDU_SESSION_RELEASING".
Definition causeSystemFailure : string := "SYSTEM_FAILURE".
Definition causeUPFNotResponding : string := "UPF_NOT_RESPONDING".
Definition causeHOResAllocFailure : string := "HANDOVER_RESOURCE_ALLOCATION_FAILURE".
Definition contextNotFound : string := "CONTEXT_NOT_FOUND".
Definition n2SmInfoTypeHandoverCmd : string := "HANDOVER_CMD".
Definition n2SmInfoTypeHandoverPrepFail : string := "HANDOVER_PREP_FAIL".
Definition n2SmInfoTypePduResSetupReq : string := "PDU_RES_SETUP_REQ".
Definition n2SmInfoTypePathSwitchReqAck : string := "PATH_SWITCH_REQ_ACK".
Definition n2SmInfoTypePathSwitchReqFail : string := "PATH_SWITCH_REQ_FAIL".

(** The NGAP cause values the SMF uses. *)
Definition CauseRadioNetworkUnspecified : Z := 0.
Definition CauseRadioNetworkHoFailureInTarget : Z := 7.
Definition CauseRadioNetworkUnknownPDUSessionID : Z := 26.
Definition CauseRadioNetworkUpIntegrityNotPossible : Z := 37.
Definition CauseRadioNetworkUpConfidentialityNotPossible : Z := 38.
Definition CauseProtocolSemanticError : Z := 4.

Definition handoverPrepFailTransfer (e : Env) (present value : Z) : option bytes :=
  aPrepUnsuccessful (e_aper e) (ngapCause present value).
Definition handoverPrepFailTransferCause (e : Env) (c : NgapCause) : option bytes :=
  aPrepUnsuccessful (e_aper e) c.
Definition pathSwitchUnsuccessfulTransfer (e : Env) (present value : Z) : option bytes :=
  aPathSwitchUnsuccessful (e_aper e) (ngapCause present value).

(** ** N4 goroutines *)
Definition skipN4ForReleasing (v : Session) : bool := bool_decide (State v = RELEASING).

(** The body of each goroutine; the session is read when it runs. *)
Definition sendPFCPSessionEstablishment (e : Env) (l : nat) (s : Smf) : Smf :=
  match heap s !! l with
  | None => s
  | Some v =>
      let '(ul, dl) := sessionAMBRKbps v in
      if negb (e_dial e) then s
      else match buildUEIPAddressIE (info v) with
           | None => s
           | Some ue =>
               let '(seq, s) := nextPFCPSeq s in
               let req := N4Establishment seq (SEID (info v)) (ULTEID (info v)) ue (DNN (info v))
                            [buildSessionAMBRCreateQER ul dl; buildDefaultFlowCreateQER] in
               if negb (e_write e) then s
               else
                 let s := emit (CN4 req) s in
                 match firstDatagram e req with
                 | Some m =>
                     if (pmType m =? MsgTypeSessionEstablishmentResponse)
                        && bool_decide (pmCause m = Some CauseRequestAccepted)
                     then upd l (set_N4EstablishedAt (e_now e)) s else s
                 | None => s
                 end
           end
  end.

Definition sendPFCPSessionModification (e : Env) (l : nat) (teid : Z) (gnb : IP) (s : Smf) : Smf :=
  match heap s !! l with
  | None => s
  | Some v =>
      if skipN4ForReleasing v || negb (e_dial e) then s
      else let '(seq, s) := nextPFCPSeq s in
           if e_write e then emit (CN4 (N4ModifyFAR seq (SEID (info v)) (buildDLSwitchFAR teid gnb))) s
           else s
  end.

Definition sendPFCPSessionDeactivation (e : Env) (l : nat) (s : Smf) : Smf :=
  match heap s !! l with
  | None => s
  | Some v =>
      if skipN4ForReleasing v || negb (e_dial e) then s
      else let '(seq, s) := nextPFCPSeq s in
           if e_write e then emit (CN4 (N4ModifyFAR seq (SEID (info v)) buildDLDropFAR)) s else s
  end.

Definition sendPFCPSessionDeletion (e : Env) (l : nat) (s : Smf) : Smf :=
  match heap s !! l with
  | None => s
  | Some v =>
      if negb (e_dial e) then s
      else let '(seq, s) := nextPFCPSeq s in
           if e_write e then emit (CN4 (N4Deletion seq (SEID (info v)))) s else s
  end.

(** The result is whether a datagram came back. *)
Definition sendPFCPQoSModification (e : Env) (l : nat) (s : Smf) : Smf * bool :=
  match heap s !! l with
  | None => (s, false)
  | Some v =>
      if skipN4ForReleasing v || negb (e_dial e) then (s, false)
      else
        let '(ul, dl) := sessionAMBRKbps v in
        let '(seq, s) := nextPFCPSeq s in
        if negb (e_write e) then (s, false)
        else
          let req := N4ModifyQER seq (SEID (info v)) (buildSessionAMBRUpdateQER ul dl) in
          (emit (CN4 req) s, bool_decide (is_Some (firstDatagram e req)))
  end.

(** ** The policy association *)
Definition deleteSMPolicy (c : Config) (id : string) (s : Smf) : Smf :=
  if String.eqb id "" || String.eqb (cPCF c) "" then s else emit (CPolicyDelete id) s.

(** ** The release of a session *)
(** [s.sessions[ref] != sess] compares objects. *)
Definition releaseSessionLocal (c : Config) (e : Env) (ref : string) (l : nat) (sendN4 : bool) (s : Smf)
    : Smf * bool :=
  match sessions s !! ref, heap s !! l with
  | Some l', Some v =>
      if negb (l' =? l)%nat then (s, false)
      else
        let i := info v in
        let s := releaseIPv4 (DNN i) (UEIP i) s in
        let s := releaseIPv6 (DNN i) (textPrefix (UEIPv6Prefix i)) s in
        let s := set_sessions (delete ref (sessions s)) s in
        let s := deleteSession e ref s in
        let s := deleteSMPolicy c (SmPolicyID i) s in
        (if sendN4 && negb (N4Stale v) then spawn (TDeletion l) s else s, true)
  | _, _ => (s, false)
  end.

Definition handleDeleteSMContext (c : Config) (e : Env) (ref : string) (s : Smf) : Smf * Resp :=
  match sessions s !! ref with
  | Some l => ((releaseSessionLocal c e ref l true s).1, Status 204)
  | None => (deleteSession e ref s, Status 204)
  end.

(** The shutdown: the addresses stay taken, the process ends. *)
Definition cleanupOne (c : Config) (e : Env) (s : Smf) (rl : string * nat) : Smf :=
  let '(ref, l) := rl in
  match heap s !! l with
  | None => s
  | Some v =>
      let s := deleteSession e ref s in
      let s := deleteSMPolicy c (SmPolicyID (info v)) s in
      if N4Stale v then s else spawn (TDeletion l) s
  end.
Definition cleanupAllSessions (c : Config) (e : Env) (s : Smf) : Smf :=
  foldl (cleanupOne c e) s (map_to_list (sessions s)).

(** ** Creation *)
Record CreateReq := mkCreateReq {
  rqSupi : string; rqDnn : string; rqPsi : Z; rqN1 : bytes; rqSnssai : option (Z * string)
}.

Definition sliceOf (r : option (Z * string)) : SliceID :=
  match r with Some (sst, sd) => mkSliceID (u8 sst) sd | None => mkSliceID 0 "" end.

(** The N1 message: the PTI and the decoded request, which is nil when it does not
    decode. *)
Definition ptiOf (n1 : bytes) : Z := if (2 <? length n1)%nat then default 0 (n1 !! 2%nat) else 0.

Definition decodeRequest (n1 : bytes) : res (option PDUSessionEstablishmentRequest) :=
  if (4 <? length n1)%nat then
    match DecodePDUSessionEstablishmentRequest (drop 4 n1) with
    | Ok r => Ok (Some r)
    | Err _ => Ok None
    | Panic => Panic
    | OutOfFuel => OutOfFuel
    end
  else Ok None.

Definition acceptBody (c : Config) (t : Z) (ip : option IP) (iid : bytes) (dnn : string)
    (q : smPolicyQoS) (slice : SliceID) (eap : bytes) (req : option PDUSessionEstablishmentRequest) : bytes :=
  EncodeEstablishmentAcceptBody
    (mkAcceptParams (mkPDUAddressInfo t ip iid) 1 (str dnn) 1 (q5qi q) (qAmbrDLMbps q) (qAmbrULMbps q)
       (dnsServersFor c dnn) [] DefaultIPv4LinkMTU
       [mkSNSSAI (sliceSST slice) (SDFromString (str (sliceSD slice)))] eap req).

Definition setupTransfer (c : Config) (e : Env) (teid : Z) (q : smPolicyQoS) (t : Z) : option bytes :=
  buildSetupOpts (e_aper e) (cUPFN3Addr c) teid 1 (q5qi q) (bps (qAmbrULMbps q)) (bps (qAmbrDLMbps q))
    (ngapPDUSessionType t) false.

(** [ip.String()] of an IPv4 address; empty for a nil address. *)
Definition ipText (ip : option IP) : string :=
  match ip ≫= To4 with
  | Some [a; b; c; d] =>
      String.concat "." [pretty a; pretty b; pretty c; pretty d]
  | _ => ""
  end.

Definition prefixText (n : option IPNet) : CIDRText :=
  match n with Some n => CIDR (Some (netIP n, n)) | None => NoCIDR end.

(** The QoS of a new session: the subscription, then the policy. *)
Definition sessionPolicy (c : Config) (e : Env) (supi dnn : string) (ip : option IP) (slice : SliceID)
    (s : Smf) : Smf * (string * smPolicyQoS) :=
  let sub := fetchSubscribedQoS (cUDM c) (e_udm e) supi dnn slice in
  let r := createSMPolicy (cPCF c) (e_pcfCreate e) supi dnn (ipText ip) slice sub in
  (if String.eqb (cPCF c) "" then s
   else emit (CPolicyCreate (createBody supi dnn (ipText ip) slice sub)) s, r).

(** [&Session{...}] stored under the reference. *)
Definition storeSession (e : Env) (ref : string) (i : SessionInfo) (q : smPolicyQoS) (s : Smf) : Smf * nat :=
  let l := fresh (dom (heap s)) in
  let s := set_heap (<[l := mkSession i q ACTIVE None false noHandover]> (heap s)) s in
  let s := set_sessions (<[ref := l]> (sessions s)) s in
  (persistSession e ref i s, l).

(** The addresses of a new session; [None] for a handler that does not return. *)
Definition allocateIPv4 (dnn : string) (t : Z) (s : Smf) : option (Smf * option (option IP)) :=
  if pduTypeNeedsIPv4 t then
    p ← ipPools s !! poolName dnn s;
    '(p', r) ← Allocate p;
    Some (match r with
          | Some ip => (setPool (poolName dnn s) p' s, Some (Some ip))
          | None => (setPool (poolName dnn s) p' s, None)
          end)
  else Some (s, Some None).

Definition allocateIPv6 (dnn : string) (t : Z) (s : Smf)
    : option (Smf * option (option (IPNet * bytes))) :=
  if pduTypeNeedsIPv6 t then
    p ← ipv6Pools s !! dnn;
    '(p', r) ← Allocate6 p;
    Some (match r with
          | Some a => (setPool6 dnn p' s, Some (Some a))
          | None => (setPool6 dnn p' s, None)
          end)
  else Some (s, Some None).

Definition storePendingAuth (p : pendingSecondaryAuth) (s : Smf) : Smf :=
  set_pendingAuth (<[paRef p := p]> (pendingAuth s)) s.

(** [pushN1N2Message]; the callers only log its result. *)
Definition pushN1N2 (c : Config) (supi : string) (psi : Z) (n1 n2 : bytes) (n2Type : string) (s : Smf) : Smf :=
  if String.eqb (cAMF c) "" then s
  else emit (CN1N2 supi psi n1 n2 (if (0 <? length n2)%nat then n2Type else "")) s.

Definition eapIdentifierInitial : Z := 1.

Definition startSecondaryAuth (c : Config) (p : pendingSecondaryAuth) (s : Smf) : Smf :=
  let p := set_paState PENDING_AUTH p in
  let s := storePendingAuth p s in
  pushN1N2 c (paSUPI p) (paPSI p)
    (WrapPDUSessionAuthenticationCommandBody (paPSI p) (paPTI p)
       (Eap.BuildIdentityRequest eapIdentifierInitial)) [] "" s.

(** The rest of the creation, once the addresses are there. *)
Definition createWithAddresses (c : Config) (e : Env) (r : CreateReq)
    (req : option PDUSessionEstablishmentRequest) (t : Z) (ip : option IP) (v6 : option (IPNet * bytes))
    (s : Smf) : Smf * Resp :=
  let slice := sliceOf (rqSnssai r) in
  let psi := u8 (rqPsi r) in
  let teid := u32 (nextTEID s + 1) in
  let seid := u64 (nextSEID s + 1) in
  let s := set_ids seid teid s in
  let prefix := fst <$> v6 in
  let iid := default [] (snd <$> v6) in
  if secondaryAuthRequired c (rqDnn r) then
    (startSecondaryAuth c
       (mkPending (e_ref e) (rqSupi r) (rqDnn r) psi (ptiOf (rqN1 r)) slice PENDING_AUTH t ip prefix iid
          req teid seid) s,
     Created (e_ref e) None)
  else
    let '(s, (policyID, q)) := sessionPolicy c e (rqSupi r) (rqDnn r) ip slice s in
    let n1 := acceptBody c t ip iid (rqDnn r) q slice [] req in
    match setupTransfer c e teid q t with
    | None => (s, Problem 500 causeSystemFailure)
    | Some n2 =>
        let i := mkSessionInfo (rqSupi r) psi (rqDnn r) ip teid seid slice policyID (e_now e) t
                   (prefixText prefix) false in
        let '(s, l) := storeSession e (e_ref e) i q s in
        (if bool_decide (is_Some ip) || pduTypeNeedsIPv6 t then spawn (TEstablishment l) s else s,
         Created (e_ref e) (Some (n1, n2)))
    end.

Definition handleCreateSMContext (c : Config) (e : Env) (r : CreateReq) (s : Smf) : Smf * Resp :=
  match decodeRequest (rqN1 r) with
  | Ok req =>
      match ipPools s !! poolName (rqDnn r) s with
      | None => (s, Problem 422 "DNN_NOT_SERVED")
      | Some _ =>
          let requested := req ≫= er_PDUSessionType in
          let t := selectPDUSessionType requested (bool_decide (is_Some (ipv6Pools s !! rqDnn r))) in
          match allocateIPv4 (rqDnn r) t s with
          | None => (s, Hangs)
          | Some (s, None) => (s, Problem 500 causeSystemFailure)
          | Some (s, Some ip) =>
              match allocateIPv6 (rqDnn r) t s with
              | None => (s, Hangs)
              | Some (s, None) => (releaseIPv4 (rqDnn r) ip s, Problem 500 causeSystemFailure)
              | Some (s, Some v6) => createWithAddresses c e r req t ip v6 s
              end
          end
      end
  | _ => (s, Panicked)
  end.

(** ** Secondary authentication *)
Definition Cause5GSMUserAuthOrAuthorizationFailed : Z := 29.

(** The simulated DN-AAA, the default implementation of the interface; [lower] and
    [contains] are [strings.ToLower] and [strings.Contains] on octets. *)
Definition lower (b : bytes) : bytes := (λ c, if (65 <=? c) && (c <=? 90) then c + 32 else c) <$> b.
Fixpoint contains (sub b : bytes) : bool :=
  isPrefix sub b || match b with [] => false | _ :: r => contains sub r end.

Definition simulatedAuthenticate (c : Config) (dnn : string) (eapResp : bytes) : option bytes :=
  if existsb (λ d, dDNAAAUnreachable d && String.eqb (dName d) dnn) (cDNNs c) then None
  else match Eap.eap_Validate eapResp with
       | Ok _ =>
           let id := match Eap.Identifier eapResp with Ok i => i | _ => 0 end in
           match Eap.Identity eapResp with
           | Ok nai => if contains (str "reject") (lower nai) then Some (Eap.BuildFailure id)
                            else Some (Eap.BuildSuccess id)
           | _ => Some (Eap.BuildFailure id)
           end
       | _ => None
       end.

Definition deletePendingAuth (ref : string) (s : Smf) : Smf :=
  set_pendingAuth (delete ref (pendingAuth s)) s.

Definition completeSecondaryAuth (c : Config) (e : Env) (p : pendingSecondaryAuth) (eapSuccess : bytes)
    (s : Smf) : Smf :=
  let s := deletePendingAuth (paRef p) s in
  let '(s, (policyID, q)) := sessionPolicy c e (paSUPI p) (paDNN p) (paIPv4 p) (paSlice p) s in
  let i := mkSessionInfo (paSUPI p) (paPSI p) (paDNN p) (paIPv4 p) (paULTEID p) (paSEID p) (paSlice p)
             policyID (e_now e) (paGrantedType p) (prefixText (paV6Prefix p)) false in
  let '(s, l) := storeSession e (paRef p) i q s in
  let s := if bool_decide (is_Some (paIPv4 p)) || pduTypeNeedsIPv6 (paGrantedType p)
           then spawn (TEstablishment l) s else s in
  let n1 := WrapPDUSessionEstablishmentAcceptBody (paPSI p) (paPTI p)
              (acceptBody c (paGrantedType p) (paIPv4 p) (paV6IID p) (paDNN p) q (paSlice p) eapSuccess
                 (paPCORequest p)) in
  let n2 := default [] (setupTransfer c e (paULTEID p) q (paGrantedType p)) in
  pushN1N2 c (paSUPI p) (paPSI p) n1 n2 n2SmInfoTypePduResSetupReq s.

Definition rejectSecondaryAuth (c : Config) (e : Env) (p : pendingSecondaryAuth) (eapFailure : bytes) (s : Smf) : Smf :=
  let s := deletePendingAuth (paRef p) s in
  let s := set_sessions (delete (paRef p) (sessions s)) s in
  let s := deleteSession e (paRef p) s in
  let s := releaseIPv4 (paDNN p) (paIPv4 p) s in
  let s := releaseIPv6 (paDNN p) (paV6Prefix p) s in
  pushN1N2 c (paSUPI p) (paPSI p)
    (WrapPDUSessionEstablishmentRejectBody (paPSI p) (paPTI p) Cause5GSMUserAuthOrAuthorizationFailed
       eapFailure) [] "" s.

(** The handler up to the call of the DN-AAA; the rest is [authDecided]. *)
Definition handleSecondaryAuthComplete (ref : string) (n1 : bytes) (s : Smf) : Smf * Resp :=
  match decodeEAPMessageLVE (drop 4 n1) with
  | Ok eapResp =>
      match pendingAuth s !! ref with
      | None => (s, Problem 404 contextNotFound)
      | Some p =>
          let p := set_paState AWAITING_AAA p in
          (spawn (TAuthAAA p eapResp) (set_pendingAuth (<[ref := p]> (pendingAuth s)) s), Status 200)
      end
  | _ => (s, Problem 400 "INVALID_MANDATORY_INFORMATION")
  end.

Definition authDecided (c : Config) (e : Env) (p : pendingSecondaryAuth) (eapResp : bytes) (s : Smf) : Smf :=
  match e_aaa e (paDNN p) eapResp with
  | None => rejectSecondaryAuth c e p [] s
  | Some terminal =>
      match Eap.Code terminal with
      | Ok code => if code =? Eap.CodeSuccess then completeSecondaryAuth c e p terminal s
                   else rejectSecondaryAuth c e p terminal s
      | _ => rejectSecondaryAuth c e p terminal s
      end
  end.

(** ** Handover *)
Inductive HoN4Err := ErrSessionReleasing | ErrTimeout | ErrOther.

(** [pfcpModifyFAR]: the transaction of a handover or of a deactivation. *)
Definition pfcpModifyFAR (c : Config) (e : Env) (l : nat) (far : FarIE) (s : Smf)
    : Smf * option HoN4Err :=
  match heap s !! l with
  | None => (s, Some ErrOther)
  | Some v =>
      if skipN4ForReleasing v then (s, Some ErrSessionReleasing)
      else
        let '(seq, s) := nextPFCPSeq s in
        let req := N4ModifyFAR seq (SEID (info v)) far in
        match pfcpTransact c e req seq MsgTypeSessionModificationResponse with
        | (TxFailed, _) => (s, Some ErrOther)
        | (TxTimeout, _) => (emit (CN4 req) s, Some ErrTimeout)
        | (TxMsg m, _) =>
            (emit (CN4 req) s,
             if bool_decide (pmCause m = Some CauseRequestAccepted) then None else Some ErrOther)
        end
  end.

Definition hoN4Failure (err : HoN4Err) : Z * string :=
  match err with
  | ErrSessionReleasing => (409, causeSessionReleasing)
  | ErrTimeout => (504, causeUPFNotResponding)
  | ErrOther => (500, causeSystemFailure)
  end.

Definition releaseOnTargetFailure (cause : NgapCause) (upSecRequired : bool) : bool :=
  upSecRequired && (cPresent cause =? CausePresentRadioNetwork) &&
  match cRadioNetwork cause with
  | Some v => (v =? CauseRadioNetworkUpIntegrityNotPossible)
              || (v =? CauseRadioNetworkUpConfidentialityNotPossible)
  | None => false
  end.

(** Check and set in one critical section. *)
Definition markSessionActive (l : nat) (s : Smf) : Smf * bool :=
  match heap s !! l with
  | Some v => if bool_decide (State v = RELEASING) then (s, false) else (upd l (set_State ACTIVE) s, true)
  | None => (s, false)
  end.

(** [if sess.State != RELEASING { sess.State = st }] *)
Definition setUnlessReleasing (st : SessState) (l : nat) (s : Smf) : Smf :=
  upd l (λ v, if bool_decide (State v = RELEASING) then v else set_State st v) s.

Definition handleHandoverPreparing (c : Config) (e : Env) (ref n2Type : string) (n2 : B64) (s : Smf)
    : Smf * Resp :=
  match lookupSession ref s with
  | None =>
      (s, smContextUpdateError 404 contextNotFound
            (handoverPrepFailTransfer e CausePresentRadioNetwork CauseRadioNetworkUnknownPDUSessionID)
            n2SmInfoTypeHandoverPrepFail)
  | Some (l, v) =>
      let direct :=
        match n2 with
        | NoB64 => Some false
        | BadB64 => None
        | OkB64 raw =>
            if negb (String.eqb n2Type "") && negb (String.eqb n2Type "HANDOVER_REQUIRED") then None
            else dHandoverRequired (e_aper e) raw
        end in
      match direct with
      | None =>
          (s, smContextUpdateError 422 causeSystemFailure
                (handoverPrepFailTransfer e CausePresentProtocol CauseProtocolSemanticError)
                n2SmInfoTypeHandoverPrepFail)
      | Some direct =>
          let q := qos v in
          match buildSetupOpts (e_aper e) (cUPFN3Addr c) (ULTEID (info v)) 1 (q5qi q)
                  (bps (qAmbrULMbps q)) (bps (qAmbrDLMbps q))
                  (ngapPDUSessionType (PDUSessionType (info v))) (negb direct) with
          | None =>
              (s, smContextUpdateError 500 causeSystemFailure
                    (handoverPrepFailTransfer e CausePresentRadioNetwork CauseRadioNetworkHoFailureInTarget)
                    n2SmInfoTypeHandoverPrepFail)
          | Some transfer =>
              (upd l (λ v, let h := ho v in
                 set_ho (mkHandover (HOTargetGNBIP h) (HOTargetDLTEID h) PREPARING direct false false) v) s,
               Updated (Some "PREPARING") [] transfer n2SmInfoTypePduResSetupReq)
          end
      end
  end.

Definition handleHandoverReqAck (e : Env) (ref : string) (n2 : bytes) (s : Smf) : Smf * Resp :=
  match lookupSession ref s with
  | None =>
      (s, smContextUpdateError 404 contextNotFound
            (handoverPrepFailTransfer e CausePresentRadioNetwork CauseRadioNetworkUnknownPDUSessionID)
            n2SmInfoTypeHandoverPrepFail)
  | Some (l, v) =>
      match decodeHandoverAck (e_aper e) n2 with
      | None =>
          (s, smContextUpdateError 422 causeSystemFailure
                (handoverPrepFailTransfer e CausePresentProtocol CauseProtocolSemanticError)
                n2SmInfoTypeHandoverPrepFail)
      | Some (ack, gnb, teid) =>
          match aHandoverCommand (e_aper e)
                  (buildHandoverCommandTransfer (HODirectForwarding (ho v)) ack).1 with
          | None =>
              (s, smContextUpdateError 500 causeSystemFailure
                    (handoverPrepFailTransfer e CausePresentRadioNetwork CauseRadioNetworkHoFailureInTarget)
                    n2SmInfoTypeHandoverPrepFail)
          | Some cmd =>
              (upd l (λ v, let h := ho v in
                 set_ho (mkHandover gnb teid PREPARED (HODirectForwarding h) (HOTargetFailed h)
                           (HOReleaseOnDeactivate h)) v) s,
               Updated (Some "PREPARED") [] cmd n2SmInfoTypeHandoverCmd)
          end
      end
  end.

Definition handleHandoverResAllocFail (e : Env) (ref : string) (n2 : B64) (s : Smf) : Smf * Resp :=
  match lookupSession ref s with
  | None => (s, smContextUpdateError 404 contextNotFound None "")
  | Some (l, v) =>
      let decoded := match n2 with OkB64 raw => dResAllocUnsuccessful (e_aper e) raw | _ => None end in
      let relayed := default (ngapCause CausePresentRadioNetwork CauseRadioNetworkHoFailureInTarget) decoded in
      let release := bool_decide (is_Some decoded)
                     && releaseOnTargetFailure relayed (UPSecurityRequired (info v)) in
      (upd l (λ v,
         let h := ho v in
         if bool_decide (State v = RELEASING)
         then set_ho (mkHandover [] 0 HoNone false (HOTargetFailed h) (HOReleaseOnDeactivate h)) v
         else set_ho (mkHandover [] 0 HoNone false true release) v) s,
       smContextUpdateError 403 causeHOResAllocFailure (handoverPrepFailTransferCause e relayed)
         n2SmInfoTypeHandoverPrepFail)
  end.

Definition handleHandoverComplete (c : Config) (e : Env) (ref : string) (s : Smf) : Smf * Resp :=
  match lookupSession ref s with
  | None => (s, smContextUpdateError 404 contextNotFound None "")
  | Some (l, v) =>
      if bool_decide (State v = RELEASING) then (s, smContextUpdateError 409 causeSessionReleasing None "")
      else if bool_decide (HOState (ho v) = COMPLETED) then (s, Updated (Some "COMPLETED") [] [] "")
      else if (length (HOTargetGNBIP (ho v)) =? 0)%nat || (HOTargetDLTEID (ho v) =? 0)
      then (s, smContextUpdateError 500 causeSystemFailure None "")
      else
        let '(s, active) := markSessionActive l s in
        if negb active then (s, smContextUpdateError 409 causeSessionReleasing None "")
        else
          let '(s, err) := pfcpModifyFAR c e l
                             (buildDLSwitchFAR (HOTargetDLTEID (ho v)) (HOTargetGNBIP (ho v))) s in
          match err with
          | Some err =>
              let s := setUnlessReleasing (State v) l s in
              let '(status, cause) := hoN4Failure err in
              (s, smContextUpdateError status cause None "")
          | None =>
              (upd l (set_ho (mkHandover [] 0 COMPLETED false false false)) s,
               Updated (Some "COMPLETED") [] [] "")
          end
  end.

Definition rejectIfReleasing (e : Env) (v : Session) (pathSwitch : bool) : option Resp :=
  if bool_decide (State v = RELEASING) then
    Some (if pathSwitch
          then smContextUpdateError 409 causeSessionReleasing
                 (pathSwitchUnsuccessfulTransfer e CausePresentRadioNetwork CauseRadioNetworkUnspecified)
                 n2SmInfoTypePathSwitchReqFail
          else Problem 409 causeSessionReleasing)
  else None.

Definition pathSwitchAckEncodeFailure (e : Env) : Resp :=
  smContextUpdateError 500 causeSystemFailure
    (pathSwitchUnsuccessfulTransfer e CausePresentRadioNetwork CauseRadioNetworkHoFailureInTarget)
    n2SmInfoTypePathSwitchReqFail.

Definition handlePathSwitchReq (c : Config) (e : Env) (ref : string) (n2 : bytes) (s : Smf) : Smf * Resp :=
  match extractPathSwitchTunnelInfo (e_aper e) n2 with
  | None =>
      (s, smContextUpdateError 422 causeSystemFailure
            (pathSwitchUnsuccessfulTransfer e CausePresentProtocol CauseProtocolSemanticError)
            n2SmInfoTypePathSwitchReqFail)
  | Some (gnb, teid) =>
      match lookupSession ref s with
      | None =>
          (s, smContextUpdateError 404 contextNotFound
                (pathSwitchUnsuccessfulTransfer e CausePresentRadioNetwork CauseRadioNetworkUnknownPDUSessionID)
                n2SmInfoTypePathSwitchReqFail)
      | Some (l, v) =>
          match rejectIfReleasing e v true with
          | Some r => (s, r)
          | None =>
              match aPathSwitchAck (e_aper e) with
              | None => (s, pathSwitchAckEncodeFailure e)
              | Some ack =>
                  let '(s, active) := markSessionActive l s in
                  if negb active then
                    (s, smContextUpdateError 409 causeSessionReleasing
                          (pathSwitchUnsuccessfulTransfer e CausePresentRadioNetwork
                             CauseRadioNetworkUnspecified) n2SmInfoTypePathSwitchReqFail)
                  else
                    let '(s, err) := pfcpModifyFAR c e l (buildDLSwitchFAR teid gnb) s in
                    match err with
                    | Some err =>
                        let s := setUnlessReleasing (State v) l s in
                        let '(status, cause) := hoN4Failure err in
                        (s, smContextUpdateError status cause
                              (pathSwitchUnsuccessfulTransfer e CausePresentRadioNetwork
                                 CauseRadioNetworkHoFailureInTarget) n2SmInfoTypePathSwitchReqFail)
                    | None => (s, Updated None [] ack n2SmInfoTypePathSwitchReqAck)
                    end
              end
          end
      end
  end.

Definition handlePathSwitchSetupFail (e : Env) (ref : string) (n2 : bytes) (s : Smf) : Smf * Resp :=
  match lookupSession ref s with
  | None => (s, smContextUpdateError 404 contextNotFound None "")
  | Some (l, v) =>
      let release := match dPathSwitchSetupFailed (e_aper e) n2 with
                     | Some cause => releaseOnTargetFailure cause (UPSecurityRequired (info v))
                     | None => false
                     end in
      (if bool_decide (State v = RELEASING) then s else spawn (TTargetFailed l release) s, Status 204)
  end.

(** [requestAMFRelease]: 200, 202 and 204 are success. *)
Definition requestAMFRelease (c : Config) (e : Env) (supi : string) (psi : Z) (s : Smf) : Smf * bool :=
  if String.eqb (cAMFMgmt c) "" then (s, false)
  else (emit (CAMFRelease supi psi) s,
        match e_amfRelease e with
        | Some st => (st =? 200) || (st =? 202) || (st =? 204)
        | None => false
        end).

Definition runTargetFailedAction (c : Config) (e : Env) (l : nat) (release : bool) (s : Smf) : Smf :=
  match heap s !! l with
  | None => s
  | Some v =>
      let '(s, released) :=
        if release then requestAMFRelease c e (SUPI (info v)) (PDUSessionID (info v)) s else (s, false) in
      if released then s
      else
        let '(s, err) := pfcpModifyFAR c e l buildDLDropFAR s in
        match err with
        | Some _ => s
        | None => setUnlessReleasing IDLE l s
        end
  end.

(** ** Update *)
Record UpdateReq := mkUpdateReq {
  uN2Type : string; uHoState : string; uUpCnxState : string; uPolicyUpdate : bool;
  uFiveQI : Z; uAmbrDLMbps : Z; uAmbrULMbps : Z; uPsi : Z; uN1 : B64; uN2 : B64
}.

Definition MsgTypePDUSessionModificationRequest : Z := 0xC9.

Definition policySession (v : Session) : PolicySession :=
  mkPolicySession (SUPI (info v)) (DNN (info v)) (SmPolicyID (info v)) (qArpPriority (qos v))
    (qAmbrULKbps (qos v)) (qAmbrDLKbps (qos v)).

(** The consultation of the PCF, with the message sent when it is consulted. *)
Definition consultPCF (c : Config) (e : Env) (v : Session) (five ul dl : Z) (s : Smf)
    : Smf * (smPolicyQoS * bool) :=
  let ps := policySession v in
  (if String.eqb (cPCF c) "" || String.eqb (psPolicyID ps) "" then s
   else emit (CPolicyUpdate (psPolicyID ps) (updateBody ps five ul dl)) s,
   updateSMPolicy (cPCF c) (e_pcfUpdate e) ps five ul dl).

(** [upCnxState = ACTIVATING] *)
Definition updateActivating (c : Config) (e : Env) (ref : string) (s : Smf) : Smf * Resp :=
  match lookupSession ref s with
  | None => (s, Problem 404 contextNotFound)
  | Some (l, v) =>
      match rejectIfReleasing e v false with
      | Some r => (s, r)
      | None =>
          let s := upd l clearTargetFailed s in
          match setupTransfer c e (ULTEID (info v)) (qos v) (PDUSessionType (info v)) with
          | None => (s, Problem 500 causeSystemFailure)
          | Some n2 => (s, Updated None [] n2 n2SmInfoTypePduResSetupReq)
          end
      end
  end.

(** [upCnxState = DEACTIVATED] *)
Definition updateDeactivated (ref : string) (s : Smf) : Smf * Resp :=
  match lookupSession ref s with
  | None => (s, Problem 404 contextNotFound)
  | Some (l, v) =>
      let failed := HOTargetFailed (ho v) in
      let release := HOReleaseOnDeactivate (ho v) in
      let s := upd l clearTargetFailed s in
      if failed && negb (bool_decide (State v = RELEASING))
      then (spawn (TTargetFailed l release) s, Status 200)
      else (spawn (TDeactivation l) (setUnlessReleasing IDLE l s), Status 200)
  end.

(** [policyUpdate]: the network-initiated modification. *)
Definition updatePolicy (c : Config) (e : Env) (ref : string) (r : UpdateReq) (s : Smf) : Smf * Resp :=
  match lookupSession ref s with
  | None => (s, Problem 404 contextNotFound)
  | Some (l, v) =>
      let five := if 0 <? uFiveQI r then u8 (uFiveQI r) else q5qi (qos v) in
      let dl := if 0 <? uAmbrDLMbps r then uAmbrDLMbps r else qAmbrDLMbps (qos v) in
      let ul := if 0 <? uAmbrULMbps r then uAmbrULMbps r else qAmbrULMbps (qos v) in
      let '(s, (g, authorized)) := consultPCF c e v five ul dl s in
      if negb authorized then (s, Problem 403 "REQUESTED_QOS_NOT_AUTHORIZED")
      else
        let source := if String.eqb (qSource (qos v)) QoSSourceManualOverride
                      then qSource (qos v) else QoSSourceNWModification in
        let s := upd l (λ v, set_qos (mkSmPolicyQoS (q5qi g) (qArpPriority (qos v)) (qAmbrULMbps g)
                   (qAmbrDLMbps g) (qAmbrULKbps g) (qAmbrDLKbps g) source) v) s in
        let '(s, _) := sendPFCPQoSModification e l s in
        let n1 := WrapPDUSessionModificationCommandBody (u8 (uPsi r)) 0
                    (EncodePDUSessionModificationCommandBodyWithQoS 1 (q5qi g) (qAmbrDLMbps g) (qAmbrULMbps g)) in
        match aModify (e_aper e) with
        | None => (s, Problem 500 causeSystemFailure)
        | Some n2 => (s, Updated None n1 n2 "")
        end
  end.

(** A 5GSM Modification Request of the UE. *)
Definition updateUERequested (c : Config) (e : Env) (ref : string) (n1 : bytes) (s : Smf) : Smf * Resp :=
  let psi := default 0 (n1 !! 1%nat) in
  let pti := default 0 (n1 !! 2%nat) in
  let '(s, body) :=
    match lookupSession ref s with
    | None => (s, [])
    | Some (l, v) =>
        let q := qos v in
        let '(s, (g, authorized)) := consultPCF c e v (q5qi q) (qAmbrULMbps q) (qAmbrDLMbps q) s in
        if authorized && (negb (q5qi g =? q5qi q) || negb (qAmbrULMbps g =? qAmbrULMbps q)
                          || negb (qAmbrDLMbps g =? qAmbrDLMbps q)) then
          let s := upd l (λ v, set_qos (mkSmPolicyQoS (q5qi g) (qArpPriority (qos v)) (qAmbrULMbps g)
                     (qAmbrDLMbps g) (qAmbrULKbps g) (qAmbrDLKbps g) (qSource g)) v) s in
          let '(s, _) := sendPFCPQoSModification e l s in
          (s, EncodePDUSessionModificationCommandBodyWithQoS 1 (q5qi g) (qAmbrDLMbps g) (qAmbrULMbps g))
        else (s, [])
    end in
  match aModify (e_aper e) with
  | None => (s, Problem 500 causeSystemFailure)
  | Some n2 => (s, Updated None (WrapPDUSessionModificationCommandBody psi pti body) n2 "")
  end.

(** The response transfer of the gNB. *)
Definition updateTunnel (e : Env) (ref : string) (n2 : bytes) (s : Smf) : Smf * Resp :=
  match extractGNBTunnelInfo (e_aper e) n2 with
  | None => (s, Problem 422 causeSystemFailure)
  | Some (gnb, teid) =>
      match lookupSession ref s with
      | None => (s, Problem 404 contextNotFound)
      | Some (l, v) =>
          match rejectIfReleasing e v false with
          | Some r => (s, r)
          | None =>
              let '(s, active) := markSessionActive l s in
              (if active then spawn (TModification l teid gnb) s else s, Status 200)
          end
      end
  end.

(** [nas.MessageType(n1SmMsgBytes[3])] when there are four octets. *)
Definition n1Type (n1 : B64) : option Z :=
  match n1 with
  | OkB64 b => if (length b <? 4)%nat then None else b !! 3%nat
  | _ => None
  end.

Definition handleUpdateSMContext (c : Config) (e : Env) (ref : string) (r : UpdateReq) (s : Smf) : Smf * Resp :=
  if String.eqb (uHoState r) "PREPARING" then handleHandoverPreparing c e ref (uN2Type r) (uN2 r) s
  else if String.eqb (uHoState r) "COMPLETED" then handleHandoverComplete c e ref s
  else if String.eqb (uN2Type r) "HANDOVER_RES_ALLOC_FAIL" then handleHandoverResAllocFail e ref (uN2 r) s
  else if String.eqb (uUpCnxState r) "ACTIVATING" then updateActivating c e ref s
  else if String.eqb (uUpCnxState r) "DEACTIVATED" then updateDeactivated ref s
  else if uPolicyUpdate r then updatePolicy c e ref r s
  else if bool_decide (n1Type (uN1 r) = Some MsgTypePDUSessionAuthenticationComplete)
  then handleSecondaryAuthComplete ref (octets (uN1 r)) s
  else if bool_decide (n1Type (uN1 r) = Some MsgTypePDUSessionModificationRequest)
  then updateUERequested c e ref (octets (uN1 r)) s
  else if (length (octets (uN2 r)) =? 0)%nat then (s, Status 200)
  else if String.eqb (uN2Type r) "HANDOVER_REQ_ACK" then handleHandoverReqAck e ref (octets (uN2 r)) s
  else if String.eqb (uN2Type r) "PATH_SWITCH_SETUP_FAIL"
  then handlePathSwitchSetupFail e ref (octets (uN2 r)) s
  else if String.eqb (uN2Type r) "PATH_SWITCH_REQ" then handlePathSwitchReq c e ref (octets (uN2 r)) s
  else updateTunnel e ref (octets (uN2 r)) s.

(** ** Management *)
(** The sessions with a PDU session identifier, of one subscriber if [supi] is given. *)
Definition findSessionsByPSI (psi : Z) (supi : string) (s : Smf) : list (string * nat) :=
  filter (λ rl, match heap s !! rl.2 with
                | Some v => (PDUSessionID (info v) =? psi)
                            && (String.eqb supi "" || String.eqb (SUPI (info v)) supi)
                | None => false
                end = true) (map_to_list (sessions s)).

(** [handleMgmtSetQoS], with [trigger] the call of the AMF: the AMF answers, and in
    the meantime calls back into the SMF, which changes the state. *)
Definition handleMgmtSetQoS (psi five : Z) (reason supi : string) (ambrDL ambrUL : Z)
    (trigger : string → Z → Z → Z → Z → Smf → Smf * bool) (s : Smf) : Smf * Resp :=
  if negb (ValidFiveQI five) then (s, Problem 400 "INVALID_5QI")
  else if (length (trimSpace (str reason)) =? 0)%nat then (s, Problem 400 "MISSING_FIELD")
  else match findSessionsByPSI psi supi s with
       | [] => (s, Problem 404 contextNotFound)
       | [(_, l)] =>
           match heap s !! l with
           | None => (s, Problem 404 contextNotFound)
           | Some v =>
               let dl := if 0 <? ambrDL then ambrDL else qAmbrDLMbps (qos v) in
               let ul := if 0 <? ambrUL then ambrUL else qAmbrULMbps (qos v) in
               let '(s, ok) := trigger (SUPI (info v)) psi five dl ul s in
               if ok then
                 (upd l (λ v, let q := qos v in
                    set_qos (mkSmPolicyQoS (q5qi q) (qArpPriority q) (qAmbrULMbps q) (qAmbrDLMbps q)
                               (qAmbrULKbps q) (qAmbrDLKbps q) QoSSourceManualOverride) v) s, Status 200)
               else (s, Problem 502 "PEER_NOT_RESPONDING")
           end
       | _ => (s, Problem 409 "AMBIGUOUS_SESSION")
       end.

(** [handleDLDataNotification]: the AMF is asked to reach the UE; [answered] is
    whether it accepts. *)
Definition handleDLDataNotification (c : Config) (answered : bool) (psi : Z) (supi : string) (s : Smf)
    : Smf * Resp :=
  match findSessionsByPSI psi supi s with
  | [] => (s, Problem 404 contextNotFound)
  | [(_, l)] =>
      match heap s !! l with
      | None => (s, Problem 404 contextNotFound)
      | Some v =>
          if String.eqb (cAMF c) "" then (s, Problem 502 "AMF_TRANSFER_FAILED")
          else (emit (CN1N2 (SUPI (info v)) psi [] [] "") s,
                if answered then Status 200 else Problem 502 "AMF_TRANSFER_FAILED")
      end
  | _ => (s, Problem 409 "AMBIGUOUS_SESSION")
  end.

(** [sessionBySEID], used by the usage reports. *)
Definition sessionBySEID (seid : Z) (s : Smf) : option (string * nat) :=
  head (filter (λ rl, match heap s !! rl.2 with
                      | Some v => SEID (info v) =? seid
                      | None => false
                      end = true) (map_to_list (sessions s))).
