(* ===== verification/SmfNode.v ===== *)
(** * Supervision of the UPF and recovery

    [nf/smf/internal/server/pfcp_node.go], and the goroutines of the SMF as steps.

    The supervisor associates with the UPF, then sends heartbeats; a heartbeat that
    is lost, or a Recovery Time Stamp later than the stored one, starts a recovery:
    the sessions concerned become RELEASING and one release each is started.  The
    workers of [releaseSessions] take the targets in any order: each target is a task
    of its own.  Points in time are integers in one unit.
*)
From S2P Require Import Prelude SmfPools SmfQos SmfState SmfSession.
Open Scope Z_scope.

(** ** Timers *)
Record N4Config := mkN4Config {
  n4HeartbeatIntervalSeconds : Z; n4T1Seconds : Z; n4N1Retransmissions : Z;
  n4AssociationRetryInitialSeconds : Z; n4AssociationRetryMaxSeconds : Z
}.
(** Durations in seconds. *)
Record pfcpNodeTimers := mkTimers {
  heartbeatInterval : Z; t1 : Z; n1 : Z; assocRetryInitial : Z; assocRetryMax : Z; releaseGuard : Z
}.
Definition defaultPFCPHeartbeatInterval : Z := 2.
Definition defaultPFCPT1 : Z := 3.
Definition defaultPFCPN1 : Z := 3.
Definition defaultPFCPAssocRetryInitial : Z := 1.
Definition defaultPFCPAssocRetryMax : Z := 5.
Definition defaultPFCPReleaseGuard : Z := 30.

Definition orDefault (v d : Z) : Z := if 0 <? v then v else d.
Definition pfcpTimersFromConfig (n4 : N4Config) : pfcpNodeTimers :=
  let ri := orDefault (n4AssociationRetryInitialSeconds n4) defaultPFCPAssocRetryInitial in
  let rm := orDefault (n4AssociationRetryMaxSeconds n4) defaultPFCPAssocRetryMax in
  mkTimers (orDefault (n4HeartbeatIntervalSeconds n4) defaultPFCPHeartbeatInterval)
    (orDefault (n4T1Seconds n4) defaultPFCPT1) (orDefault (n4N1Retransmissions n4) defaultPFCPN1)
    ri (if rm <? ri then ri else rm) defaultPFCPReleaseGuard.

(** [backoff = min(backoff*2, assocRetryMax)] after each failed attempt. *)
Definition nextBackoff (t : pfcpNodeTimers) (b : Z) : Z := Z.min (b * 2) (assocRetryMax t).

(** ** The association *)
Definition setAssocState (st : AssocState) (s : Smf) : Smf :=
  let a := association s in
  set_association (mkAssociation st (aPeerNodeID a) (aRemoteRTS a) (aAssociatedAt a) (aMissingRTSWarned a)) s.

(** One attempt; the Recovery Time Stamp of the response is not kept. *)
Definition runAssociationSetup (c : Config) (e : Env) (s : Smf) : Smf * bool :=
  let '(seq, s) := nextPFCPSeq s in
  let req := N4AssociationSetup seq (cRecoveryTS c) in
  match pfcpTransact c e req seq MsgTypeAssociationSetupResponse with
  | (TxFailed, _) => (s, false)
  | (TxTimeout, _) => (emit (CN4 req) s, false)
  | (TxMsg m, _) =>
      let s := emit (CN4 req) s in
      if bool_decide (pmCause m = Some CauseRequestAccepted) then
        (set_association (mkAssociation ASSOCIATED (pmNodeID m) (aRemoteRTS (association s))
                            (Some (e_now e)) false) s, true)
      else (s, false)
  end.

(** ** Recovery *)
(** [established.IsZero()] falls back to the time of creation. *)
Definition establishedAt (v : Session) : Z := default (CreatedAt (info v)) (N4EstablishedAt v).

Definition selected (cutoff : Z) (all : bool) (v : Session) : bool :=
  negb (bool_decide (State v = RELEASING)) && (all || (establishedAt v <? cutoff)).

Definition markReleasing (n4Stale : bool) (v : Session) : Session :=
  let v := set_State RELEASING v in if n4Stale then set_N4Stale v else v.

(** One session of the loop. *)
Definition markOne (cutoff : Z) (all n4Stale : bool) (acc : Smf * list releaseTarget) (rl : string * nat)
    : Smf * list releaseTarget :=
  let '(s, out) := acc in
  let '(ref, l) := rl in
  match heap s !! l with
  | Some v => if selected cutoff all v
              then (upd l (markReleasing n4Stale) s, out ++ [mkTarget ref l]) else (s, out)
  | None => (s, out)
  end.
Definition markSessionsReleasing (cutoff : Z) (all n4Stale : bool) (s : Smf) : Smf * list releaseTarget :=
  foldl (markOne cutoff all n4Stale) (s, []) (map_to_list (sessions s)).

Inductive RecoveryCause := PEER_RESTART | PEER_NOT_RESPONDING.
#[export] Instance RecoveryCause_eq_dec : EqDecision RecoveryCause.
Proof. solve_decision. Defined.

Definition beginRecovery (cause : RecoveryCause) (newRTS : Z) (s : Smf) : Smf * bool :=
  let a := association s in
  if negb (bool_decide (aState a = ASSOCIATED)) then (s, false)
  else
    let s := set_association (mkAssociation RECOVERING (aPeerNodeID a) None (aAssociatedAt a) false) s in
    let restart := bool_decide (cause = PEER_RESTART) in
    let '(s, targets) := markSessionsReleasing newRTS (negb restart) restart s in
    (foldl (λ s t, spawn (TReleaseOne t) s) s targets, true).

(** The result is whether a restart was detected. *)
Definition observePeerRTS (rts : option Z) (s : Smf) : Smf * bool :=
  let a := association s in
  if negb (bool_decide (aState a = ASSOCIATED)) then (s, false)
  else match rts with
       | None =>
           (set_association (mkAssociation (aState a) (aPeerNodeID a) (aRemoteRTS a) (aAssociatedAt a) true) s,
            false)
       | Some peer =>
           match aRemoteRTS a with
           | None =>
               (set_association (mkAssociation (aState a) (aPeerNodeID a) (Some peer) (aAssociatedAt a)
                                   (aMissingRTSWarned a)) s, false)
           | Some old =>
               if old =? peer then (s, false)
               else if peer <? old then (s, false)
               else beginRecovery PEER_RESTART peer s
           end
       end.

Definition heartbeatOnce (c : Config) (e : Env) (s : Smf) : Smf :=
  let '(seq, s) := nextPFCPSeq s in
  let req := N4Heartbeat seq (cRecoveryTS c) in
  match pfcpTransact c e req seq MsgTypeHeartbeatResponse with
  | (TxFailed, _) => (beginRecovery PEER_NOT_RESPONDING 0 s).1
  | (TxTimeout, _) => (beginRecovery PEER_NOT_RESPONDING 0 (emit (CN4 req) s)).1
  | (TxMsg m, _) => (observePeerRTS (pmRTS m) (emit (CN4 req) s)).1
  end.

(** An inbound Heartbeat Request that has been answered. *)
Definition handlePFCPHeartbeatRequest (isUPFPeer : bool) (rts : option Z) (s : Smf) : Smf :=
  if isUPFPeer then (observePeerRTS rts s).1 else s.

(** One round of the supervisor: a setup attempt when there is no association, else a
    heartbeat. *)
Definition superviseOnce (c : Config) (e : Env) (s : Smf) : Smf :=
  match aState (association s) with
  | ASSOCIATED => heartbeatOnce c e s
  | _ => (runAssociationSetup c e (setAssocState SETUP_PENDING s)).1
  end.

(** ** The release workers *)
Definition startReleaseGuard (c : Config) (t : releaseTarget) (s : Smf) : Smf :=
  if cReleaseGuard c <=? 0 then s else spawn (TReleaseGuard t) s.

Definition releaseOne (c : Config) (e : Env) (t : releaseTarget) (s : Smf) : Smf :=
  match heap s !! tSess t with
  | None => s
  | Some v =>
      let '(s, ok) := requestAMFRelease c e (SUPI (info v)) (PDUSessionID (info v)) s in
      if ok then startReleaseGuard c t s
      else (releaseSessionLocal c e (tRef t) (tSess t) true s).1
  end.

(** The guard timer fires. *)
Definition releaseGuardFires (c : Config) (e : Env) (t : releaseTarget) (s : Smf) : Smf :=
  match sessions s !! tRef t, heap s !! tSess t with
  | Some l, Some v =>
      if (l =? tSess t)%nat && bool_decide (State v = RELEASING)
      then (releaseSessionLocal c e (tRef t) (tSess t) true s).1
      else s
  | _, _ => s
  end.

(** ** Running a goroutine *)
Definition runTask (c : Config) (e : Env) (t : Task) (s : Smf) : Smf :=
  match t with
  | TEstablishment l => sendPFCPSessionEstablishment e l s
  | TModification l teid gnb => sendPFCPSessionModification e l teid gnb s
  | TDeactivation l => sendPFCPSessionDeactivation e l s
  | TDeletion l => sendPFCPSessionDeletion e l s
  | TReleaseOne t => releaseOne c e t s
  | TReleaseGuard t => releaseGuardFires c e t s
  | TTargetFailed l release => runTargetFailedAction c e l release s
  | TAuthAAA p eapResp => authDecided c e p eapResp s
  end.

(** The [n]-th of the goroutines that have been started runs. *)
Definition runNth (c : Config) (e : Env) (n : nat) (s : Smf) : Smf :=
  match tasks s !! n with
  | Some t => runTask c e t (set_tasks (delete n (tasks s)) s)
  | None => s
  end.

(** ** Events *)
Inductive Event :=
  | ECreate (e : Env) (r : CreateReq)
  | EUpdate (e : Env) (ref : string) (r : UpdateReq)
  | EDelete (e : Env) (ref : string)
  | ERun (e : Env) (n : nat)
  | ESupervise (e : Env)
  | EHeartbeat (isUPFPeer : bool) (rts : option Z)
  | EDLData (answered : bool) (psi : Z) (supi : string).

Definition step (c : Config) (s : Smf) (ev : Event) : Smf :=
  match ev with
  | ECreate e r => (handleCreateSMContext c e r s).1
  | EUpdate e ref r => (handleUpdateSMContext c e ref r s).1
  | EDelete e ref => (handleDeleteSMContext c e ref s).1
  | ERun e n => runNth c e n s
  | ESupervise e => superviseOnce c e s
  | EHeartbeat peer rts => handlePFCPHeartbeatRequest peer rts s
  | EDLData answered psi supi => (handleDLDataNotification c answered psi supi s).1
  end.
