(* ===== verification/SmfClosed.v ===== *)
(** * Relations closed under the effects of the SMF handlers

    Most handlers and goroutines of the SMF only update session objects in place,
    send messages and start goroutines.  [Closed] states the elementary effects they
    are made of, with what the code guarantees of each: an update keeps the identity
    of a session and never takes it out of RELEASING, and an N4 modification is sent
    for an object that is not RELEASING.  Every such handler is proved once, for any
    relation between states that is closed under these effects; [SmfAccount] and
    [SmfRecovery] instantiate the relation.
*)
From S2P Require Import Prelude NasPduSession NasEap CryptoEap SmfPools SmfQos SmfState SmfSession SmfNode.
Open Scope Z_scope.

(** ** Elementary effects *)
(** The SEID of an N4 session modification. *)
Definition modSEID (c : Call) : option Z :=
  match c with
  | CN4 (N4ModifyFAR _ seid _) | CN4 (N4ModifyQER _ seid _) => Some seid
  | _ => None
  end.

(** Goroutines other than the DN-AAA exchange and the N4 deletion. *)
Definition plain (t : Task) : bool := match t with TAuthAAA _ _ | TDeletion _ => false | _ => true end.

(** Goroutines that do not change which contexts there are. *)
Definition inPlace (t : Task) : bool :=
  match t with TReleaseOne _ | TReleaseGuard _ | TAuthAAA _ _ => false | _ => true end.

(** What every write to a session keeps. *)
Record keeps (f : Session → Session) : Prop := {
  keeps_info v : info (f v) = info v;
  keeps_releasing v : State v = RELEASING → State (f v) = RELEASING;
  keeps_stale v : N4Stale v = true → N4Stale (f v) = true
}.

Class Closed (R : Smf → Smf → Prop) := {
  cl_refl s : R s s;
  cl_trans s1 s2 s3 : R s1 s2 → R s2 s3 → R s1 s3;
  cl_emit s c : modSEID c = None → R s (emit c s);
  cl_modify s l v c : heap s !! l = Some v → State v ≠ RELEASING → modSEID c = Some (SEID (info v)) →
    R s (emit c s);
  cl_assoc s a : R s (set_association a s);
  cl_db s d : R s (set_db d s);
  cl_seq s n : R s (set_pfcpSeq n s);
  cl_spawn s t : plain t = true → R s (spawn t s);
  cl_upd s l f : keeps f → R s (upd l f s)
}.

(** Cases on the innermost scrutinee of the goal, keeping the equation. *)
Ltac cases1 :=
  match goal with
  | |- context [match ?x with _ => _ end] =>
      lazymatch x with
      | context [match _ with _ => _ end] => fail
      | _ => destruct x eqn:?
      end
  end.
Ltac pairs := cbn [fst snd negb] in *.

(** An update that is one of the record's own setters, possibly guarded. *)
Ltac keeps_solve :=
  split; intros ?; unfold markReleasing; cbn; repeat case_match; cbn; try done;
  try (intros ?; by case_bool_decide).

Section Closed.
Context (R : Smf → Smf → Prop) `{!Closed R}.

Lemma after_emit s x c : modSEID c = None → R s x → R s (emit c x).
Proof. intros Hc H. eapply cl_trans; [exact H|by apply cl_emit]. Qed.
Lemma after_modify s x l v c :
  heap x !! l = Some v → State v ≠ RELEASING → modSEID c = Some (SEID (info v)) → R s x → R s (emit c x).
Proof. intros Hl Hv Hc H. eapply cl_trans; [exact H|by eapply cl_modify]. Qed.
Lemma after_assoc s x a : R s x → R s (set_association a x).
Proof. intros H. eapply cl_trans; [exact H|apply cl_assoc]. Qed.
Lemma after_db s x d : R s x → R s (set_db d x).
Proof. intros H. eapply cl_trans; [exact H|apply cl_db]. Qed.
Lemma after_spawn s x t : plain t = true → R s x → R s (spawn t x).
Proof. intros Ht H. eapply cl_trans; [exact H|by apply cl_spawn]. Qed.
Lemma after_upd s x l f : keeps f → R s x → R s (upd l f x).
Proof. intros Hf H. eapply cl_trans; [exact H|by apply cl_upd]. Qed.
Lemma after_seq s x n y : nextPFCPSeq x = (n, y) → R s x → R s y ∧ heap y = heap x.
Proof. intros [= _ <-] H. split; [|done]. eapply cl_trans; [exact H|apply cl_seq]. Qed.
Lemma after_deleteSession s x e ref : R s x → R s (deleteSession e ref x).
Proof. intros H. unfold deleteSession. repeat case_match; by try apply after_db. Qed.
Lemma after_deleteSMPolicy s x c id : R s x → R s (deleteSMPolicy c id x).
Proof. intros H. unfold deleteSMPolicy. case_match; [done|by apply after_emit]. Qed.
Lemma after_persist s x e ref i : R s x → R s (persistSession e ref i x).
Proof. intros H. unfold persistSession. repeat case_match; by try apply after_db. Qed.
Lemma after_push s x c supi psi n1 n2 t : R s x → R s (pushN1N2 c supi psi n1 n2 t x).
Proof. intros H. unfold pushN1N2. case_match; [done|by apply after_emit]. Qed.
Lemma after_setUnlessReleasing s x st l : R s x → R s (setUnlessReleasing st l x).
Proof. apply after_upd. keeps_solve. Qed.

(** The result of a part of a handler, for the next part. *)
Lemma closed_via {B} s (p : Smf * B) x b : R s p.1 → p = (x, b) → R s x.
Proof. by intros H ->. Qed.
End Closed.

(** Evaluate a handler by cases and close with the rules. *)
Ltac closed_step :=
  match goal with
  | |- _ (upd _ _ _) => apply after_upd; [apply _|keeps_solve|]
  | |- _ (spawn _ _) => apply after_spawn; [apply _|reflexivity|]
  | |- _ (emit _ _) => apply after_emit; [apply _|reflexivity|]
  | |- _ (set_association _ _) => apply after_assoc; [apply _|]
  | |- _ (setAssocState _ _) => apply after_assoc; [apply _|]
  | |- _ (setUnlessReleasing _ _ _) => apply after_setUnlessReleasing; [apply _|]
  | |- _ (pushN1N2 _ _ _ _ _ _ _) => apply after_push; [apply _|]
  | |- _ (deleteSession _ _ _) => apply after_deleteSession; [apply _|]
  | |- _ (deleteSMPolicy _ _ _) => apply after_deleteSMPolicy; [apply _|]
  | |- _ (persistSession _ _ _ _) => apply after_persist; [apply _|]
  | |- _ ?s ?s => apply cl_refl
  | H : ?R ?s ?x |- ?R ?s ?x => exact H
  | |- _ (if ?b then _ else _) => destruct b
  | |- _ (match ?x with _ => _ end) => destruct x
  end.
Ltac closed_solve := repeat closed_step.
Ltac via R lem :=
  match goal with
  | |- context [let '(_, _) := ?f in _] =>
      let E := fresh "E" in destruct f as [?x ?b] eqn:E; eapply (closed_via R) in E; [|apply lem; apply _]
  end.
(** The next sequence number: the heap is the same. *)
Ltac via_seq R s :=
  let n := fresh "n" in let y := fresh "y" in let E := fresh "E" in let Hh := fresh "Hh" in
  destruct (nextPFCPSeq s) as [n y] eqn:E; apply (after_seq R s) in E as [E Hh]; [|apply cl_refl].

(** ** Goroutines *)
Section Handlers.
Context (R : Smf → Smf → Prop) `{!Closed R}.

Lemma sendEstablishment_closed e l s : R s (sendPFCPSessionEstablishment e l s).
Proof.
  unfold sendPFCPSessionEstablishment. destruct (heap s !! l) as [v|]; [|apply cl_refl].
  destruct (sessionAMBRKbps v) as [ul dl]. destruct (e_dial e); [|apply cl_refl]. cbn [negb].
  destruct (buildUEIPAddressIE (info v)) as [ue|]; [|apply cl_refl].
  via_seq R s. destruct (e_write e); [|done]. cbn [negb]. closed_solve.
Qed.

Lemma releasing_guard v : skipN4ForReleasing v = false → State v ≠ RELEASING.
Proof. unfold skipN4ForReleasing. by case_bool_decide. Qed.

Lemma sendModification_closed e l t g s : R s (sendPFCPSessionModification e l t g s).
Proof.
  unfold sendPFCPSessionModification. destruct (heap s !! l) as [v|] eqn:El; [|apply cl_refl].
  destruct (skipN4ForReleasing v) eqn:Ev; [apply cl_refl|].
  destruct (e_dial e); [|apply cl_refl]. cbn [negb orb]. via_seq R s.
  destruct (e_write e); [|done]. eapply after_modify; [apply _|rewrite Hh; exact El| | |done]; [|done].
  by apply releasing_guard.
Qed.
Lemma sendDeactivation_closed e l s : R s (sendPFCPSessionDeactivation e l s).
Proof.
  unfold sendPFCPSessionDeactivation. destruct (heap s !! l) as [v|] eqn:El; [|apply cl_refl].
  destruct (skipN4ForReleasing v) eqn:Ev; [apply cl_refl|].
  destruct (e_dial e); [|apply cl_refl]. cbn [negb orb]. via_seq R s.
  destruct (e_write e); [|done]. eapply after_modify; [apply _|rewrite Hh; exact El| | |done]; [|done].
  by apply releasing_guard.
Qed.
Lemma sendDeletion_closed e l s : R s (sendPFCPSessionDeletion e l s).
Proof.
  unfold sendPFCPSessionDeletion. destruct (heap s !! l) as [v|]; [|apply cl_refl].
  via_seq R s. destruct (e_dial e), (e_write e); cbn [negb]; closed_solve.
Qed.
Lemma sendQoS_closed e l s : R s (sendPFCPQoSModification e l s).1.
Proof.
  unfold sendPFCPQoSModification. destruct (heap s !! l) as [v|] eqn:El; [|apply cl_refl].
  destruct (skipN4ForReleasing v) eqn:Ev; [apply cl_refl|].
  destruct (e_dial e); [|apply cl_refl]. cbn [negb orb].
  destruct (sessionAMBRKbps v) as [ul dl]. via_seq R s. destruct (e_write e); [|done]. pairs.
  eapply after_modify; [apply _|rewrite Hh; exact El| | |done]; [|done]. by apply releasing_guard.
Qed.
Lemma modifyFAR_closed c e l far s : R s (pfcpModifyFAR c e l far s).1.
Proof.
  unfold pfcpModifyFAR. destruct (heap s !! l) as [v|] eqn:El; [|apply cl_refl].
  destruct (skipN4ForReleasing v) eqn:Ev; [apply cl_refl|]. apply releasing_guard in Ev. via_seq R s.
  destruct (pfcpTransact _ _ _ _ _) as [[] ?]; pairs; [done|..];
    (eapply after_modify; [apply _|rewrite Hh; exact El|done|done|done]).
Qed.
Lemma markActive_closed l s : R s (markSessionActive l s).1.
Proof.
  unfold markSessionActive. destruct (heap s !! l) as [v|] eqn:El; [|apply cl_refl].
  case_bool_decide; [apply cl_refl|]. cbn [fst].
  (* the object is not RELEASING: the write is the guarded one *)
  replace (upd l (set_State ACTIVE) s)
    with (upd l (λ w, if bool_decide (State w = RELEASING) then w else set_State ACTIVE w) s);
    [apply after_upd; [apply _|keeps_solve|apply cl_refl]|].
  unfold upd. f_equal. apply map_eq. intros k. destruct (decide (k = l)) as [->|N].
  - rewrite !lookup_alter_eq, El. cbn. by rewrite bool_decide_false.
  - by rewrite !lookup_alter_ne.
Qed.
Lemma amfRelease_closed c e supi psi s : R s (requestAMFRelease c e supi psi s).1.
Proof. unfold requestAMFRelease. cases1; pairs; closed_solve. Qed.
Lemma consultPCF_closed c e v f u d s : R s (consultPCF c e v f u d s).1.
Proof. unfold consultPCF. pairs. closed_solve. Qed.
Lemma sessionPolicy_closed c e supi dnn ip slice s : R s (sessionPolicy c e supi dnn ip slice s).1.
Proof. unfold sessionPolicy. pairs. closed_solve. Qed.

(** ** Handlers *)
Lemma preparing_closed c e ref t n s : R s (handleHandoverPreparing c e ref t n s).1.
Proof. unfold handleHandoverPreparing. repeat cases1; pairs; closed_solve. Qed.
Lemma reqAck_closed e ref n s : R s (handleHandoverReqAck e ref n s).1.
Proof. unfold handleHandoverReqAck. repeat cases1; pairs; closed_solve. Qed.
Lemma resAllocFail_closed e ref n s : R s (handleHandoverResAllocFail e ref n s).1.
Proof. unfold handleHandoverResAllocFail. destruct (lookupSession ref s) as [[l v]|]; pairs; closed_solve. Qed.
Lemma setupFail_closed e ref n s : R s (handlePathSwitchSetupFail e ref n s).1.
Proof. unfold handlePathSwitchSetupFail. destruct (lookupSession ref s) as [[l v]|]; pairs; closed_solve. Qed.

Lemma complete_closed c e ref s : R s (handleHandoverComplete c e ref s).1.
Proof.
  unfold handleHandoverComplete. destruct (lookupSession ref s) as [[l v]|]; [|apply cl_refl].
  do 3 (case_match; [apply cl_refl|]).
  via R markActive_closed. destruct b; [|done]. cbn [negb].
  via R modifyFAR_closed. eapply cl_trans in E0; [|exact E].
  destruct b as [err|]; pairs; [destruct (hoN4Failure err); pairs|]; closed_solve.
Qed.
Lemma pathSwitch_closed c e ref n s : R s (handlePathSwitchReq c e ref n s).1.
Proof.
  unfold handlePathSwitchReq. destruct (extractPathSwitchTunnelInfo _ _) as [[gnb teid]|]; [|apply cl_refl].
  destruct (lookupSession ref s) as [[l v]|]; [|apply cl_refl].
  destruct (rejectIfReleasing e v true); [apply cl_refl|].
  destruct (aPathSwitchAck (e_aper e)) as [ack|]; [|apply cl_refl].
  via R markActive_closed. destruct b; [|done]. cbn [negb].
  via R modifyFAR_closed. eapply cl_trans in E0; [|exact E].
  destruct b as [err|]; pairs; [destruct (hoN4Failure err); pairs|]; closed_solve.
Qed.
Lemma targetFailed_closed c e l r s : R s (runTargetFailedAction c e l r s).
Proof.
  unfold runTargetFailedAction. destruct (heap s !! l) as [v|]; [|apply cl_refl].
  assert (R s (if r then requestAMFRelease c e (SUPI (info v)) (PDUSessionID (info v)) s
               else (s, false)).1) as F by (destruct r; [apply amfRelease_closed|apply cl_refl]).
  destruct (if r then _ else _) as [x b]. pairs. destruct b; [done|].
  via R modifyFAR_closed. eapply cl_trans in E; [|exact F]. destruct b; closed_solve.
Qed.
Lemma task_closed c e t s : inPlace t = true → R s (runTask c e t s).
Proof.
  destruct t; intros H; try discriminate H; cbn [runTask];
    [apply sendEstablishment_closed|apply sendModification_closed|apply sendDeactivation_closed
    |apply sendDeletion_closed|apply targetFailed_closed].
Qed.
Lemma activating_closed c e ref s : R s (updateActivating c e ref s).1.
Proof. unfold updateActivating. repeat cases1; pairs; closed_solve. Qed.
Lemma deactivated_closed ref s : R s (updateDeactivated ref s).1.
Proof. unfold updateDeactivated. repeat cases1; pairs; closed_solve. Qed.
Lemma policy_closed c e ref r s : R s (updatePolicy c e ref r s).1.
Proof.
  unfold updatePolicy. destruct (lookupSession ref s) as [[l v]|]; [|apply cl_refl].
  via R consultPCF_closed. destruct b as [g []]; cbn [negb]; [|done].
  via R sendQoS_closed. eapply (cl_trans s) in E0; [|closed_solve].
  destruct (aModify (e_aper e)); done.
Qed.
Lemma ueRequested_closed c e ref n s : R s (updateUERequested c e ref n s).1.
Proof.
  unfold updateUERequested.
  set (X := match lookupSession ref s with Some _ => _ | None => _ end).
  assert (R s X.1) as F.
  { unfold X. destruct (lookupSession ref s) as [[l v]|]; [|apply cl_refl].
    via R consultPCF_closed. destruct b as [g ok]. case_match; [|done].
    via R sendQoS_closed. eapply (cl_trans s) in E0; [|closed_solve]. done. }
  destruct X as [x body]. destruct (aModify (e_aper e)); done.
Qed.
Lemma tunnel_closed e ref n s : R s (updateTunnel e ref n s).1.
Proof.
  unfold updateTunnel. destruct (extractGNBTunnelInfo _ _) as [[gnb teid]|]; [|apply cl_refl].
  destruct (lookupSession ref s) as [[l v]|]; [|apply cl_refl].
  destruct (rejectIfReleasing e v false); [apply cl_refl|].
  via R markActive_closed. pairs. closed_solve.
Qed.
Lemma dlData_closed c a psi supi s : R s (handleDLDataNotification c a psi supi s).1.
Proof. unfold handleDLDataNotification. repeat cases1; pairs; closed_solve. Qed.

(** An update of a context is one of these, or starts a DN-AAA exchange. *)
Lemma update_closed c e ref r s :
  R s (handleUpdateSMContext c e ref r s).1 ∨
  (n1Type (uN1 r) = Some MsgTypePDUSessionAuthenticationComplete ∧
   (handleUpdateSMContext c e ref r s).1 = (handleSecondaryAuthComplete ref (octets (uN1 r)) s).1).
Proof.
  unfold handleUpdateSMContext.
  repeat (case_match; [try (left; first [apply preparing_closed|apply complete_closed|
    apply resAllocFail_closed|apply activating_closed|apply deactivated_closed|apply policy_closed|
    apply ueRequested_closed|apply reqAck_closed|apply setupFail_closed|apply pathSwitch_closed|
    apply cl_refl]; fail)|]).
  - right. split; [|done]. by eapply bool_decide_eq_true_1.
  - left. apply tunnel_closed.
Qed.

(** ** Supervision *)
Lemma foldl_closed {B} (f : Smf → B → Smf) l s : (∀ x b, R x (f x b)) → R s (foldl f s l).
Proof.
  intros Hf. revert s; induction l as [|b l IH]; intros s; [apply cl_refl|].
  cbn [foldl]. eapply cl_trans; [apply Hf|apply IH].
Qed.
Lemma mark_closed cutoff all stale l x out :
  R x (foldl (markOne cutoff all stale) (x, out) l).1.
Proof.
  revert x out; induction l as [|[ref k] l IH]; intros x out; [apply cl_refl|].
  cbn [foldl markOne]. destruct (heap x !! k) as [v|]; [|apply IH].
  destruct (selected cutoff all v); [|apply IH].
  eapply cl_trans; [|apply IH]. apply cl_upd. destruct stale; keeps_solve.
Qed.
Lemma beginRecovery_closed cause rts s : R s (beginRecovery cause rts s).1.
Proof.
  unfold beginRecovery. case_match; [apply cl_refl|].
  set (s0 := set_association _ s). assert (R s s0) as F0 by apply cl_assoc.
  unfold markSessionsReleasing.
  pose proof (mark_closed rts (negb (bool_decide (cause = PEER_RESTART))) (bool_decide (cause = PEER_RESTART))
                (map_to_list (sessions s0)) s0 []) as F1.
  destruct (foldl _ (s0, []) _) as [s1 targets]. pairs.
  eapply cl_trans; [exact F0|]. eapply cl_trans; [exact F1|].
  apply foldl_closed. intros x t. by apply cl_spawn.
Qed.
Lemma observe_closed rts s : R s (observePeerRTS rts s).1.
Proof.
  unfold observePeerRTS. repeat cases1; pairs; try (closed_solve; fail). apply beginRecovery_closed.
Qed.
Lemma heartbeat_closed b rts s : R s (handlePFCPHeartbeatRequest b rts s).
Proof. unfold handlePFCPHeartbeatRequest. case_match; [apply observe_closed|apply cl_refl]. Qed.
Lemma heartbeatOnce_closed c e s : R s (heartbeatOnce c e s).
Proof.
  unfold heartbeatOnce. via_seq R s.
  destruct (pfcpTransact _ _ _ _ _) as [[| |m] ?]; (eapply cl_trans; [exact E|]).
  - apply beginRecovery_closed.
  - eapply cl_trans; [|apply beginRecovery_closed]; by apply cl_emit.
  - eapply cl_trans; [|apply observe_closed]; by apply cl_emit.
Qed.
Lemma assocSetup_closed c e s : R s (runAssociationSetup c e s).1.
Proof.
  unfold runAssociationSetup. via_seq R s.
  destruct (pfcpTransact _ _ _ _ _) as [[| |m] ?]; pairs; [done|closed_solve|].
  case_match; pairs; closed_solve.
Qed.
Lemma supervise_closed c e s : R s (superviseOnce c e s).
Proof.
  unfold superviseOnce. destruct (aState _); [|apply heartbeatOnce_closed|].
  all: eapply cl_trans; [|apply assocSetup_closed]; apply cl_assoc.
Qed.
Lemma loadFromStore_closed e s : R s (loadFromStore e s).
Proof.
  unfold loadFromStore. destruct (db s) as [m|]; [|apply cl_refl].
  destruct (e_db e); [|apply cl_refl].
  induction (map_to_list m).*1 as [|ref l IH]; [apply cl_refl|]. cbn [foldr].
  by apply after_deleteSession.
Qed.
End Handlers.
