(* ===== verification/SmfAccount.v ===== *)
(** * Accounting of addresses, tunnels and session states

    The invariants of the SMF over every interleaving of requests, goroutines and
    supervision: which SM context holds which address, that contexts are well typed,
    and that a session being released stays so.

    The accounting is proved against the promise of a pool ([AddressPoolLaws] of
    [SmfPools]), once for both kinds of pool.
*)
From S2P Require Import Prelude NasPduSession NasEap CryptoEap SmfPools SmfQos SmfState SmfSession SmfNode SmfClosed.
Open Scope Z_scope.

(** ** Accounts over pools *)
Section Accounts.
Context {P A : Type} `{!EqDecision A} `{!AddressPool P A} `{!AddressPoolLaws P A}.
Context {K : Type} `{!EqDecision K}.

(** [H] gives the pool and the address of a holder.  Every address held is taken,
    no two holders share one, and every address that is taken is held. *)
Record accounts (pools : gmap string P) (H : K → option (string * A)) : Prop := {
  acc_wf n p : pools !! n = Some p → pool_wf p;
  acc_taken k n a : H k = Some (n, a) → ∃ p, pools !! n = Some p ∧ in_range p a ∧ taken p a = true;
  acc_excl k1 k2 na : H k1 = Some na → H k2 = Some na → k1 = k2;
  acc_held n p a : pools !! n = Some p → in_range p a → taken p a = true → ∃ k, H k = Some (n, a)
}.

Definition hset (k : K) (v : option (string * A)) (H : K → option (string * A)) : K → option (string * A) :=
  λ k', if decide (k' = k) then v else H k'.

Lemma hset_eq k v H : hset k v H k = v.
Proof. unfold hset. by destruct (decide (k = k)). Qed.
Lemma hset_ne k k' v H : k' ≠ k → hset k v H k' = H k'.
Proof. unfold hset. by destruct (decide (k' = k)). Qed.

Lemma accounts_ext pools H H' : (∀ k, H k = H' k) → accounts pools H → accounts pools H'.
Proof.
  intros E [W T X D]. split; [done|..].
  - intros k n a. rewrite <- E. apply T.
  - intros k1 k2 na. rewrite <- !E. apply X.
  - intros n p a Hp R Ta. destruct (D n p a Hp R Ta) as [k Hk]. exists k. by rewrite <- E.
Qed.

Lemma accounts_alloc pools H n p p' a k :
  accounts pools H → pools !! n = Some p → alloc p = Some (p', Some a) → H k = None →
  accounts (<[n := p']> pools) (hset k (Some (n, a)) H).
Proof.
  intros [W T X D] Hp E Hk. pose proof (W n p Hp) as Wp.
  destruct (alloc_some p p' a Wp E) as (R & F & F' & O).
  pose proof (alloc_wf p p' _ Wp E) as Wp'. pose proof (λ b, alloc_range p p' _ b E) as RG.
  split.
  - intros n' q. rewrite lookup_insert_Some. intros [[_ <-]|[_ Hq]]; [done|by eapply W].
  - intros k' n' b. destruct (decide (k' = k)) as [->|N].
    + rewrite hset_eq. intros [= <- <-]. exists p'. rewrite lookup_insert_eq. by rewrite RG.
    + rewrite hset_ne by done. intros Hk'. destruct (T k' n' b Hk') as (q & Hq & Rq & Tq).
      destruct (decide (n' = n)) as [->|Nn]; [|exists q; by rewrite lookup_insert_ne].
      rewrite Hp in Hq. injection Hq as <-. exists p'. rewrite lookup_insert_eq, RG.
      split; [done|]. split; [done|]. rewrite O; [done..|]. intros ->. congruence.
  - intros k1 k2 [n' b]. unfold hset.
    destruct (decide (k1 = k)) as [->|N1], (decide (k2 = k)) as [->|N2]; [done|..|apply X].
    + intros [= <- <-] H2. destruct (T k2 n a H2) as (q & Hq & _ & Tq).
      rewrite Hp in Hq. injection Hq as <-. congruence.
    + intros H1 [= <- <-]. destruct (T k1 n a H1) as (q & Hq & _ & Tq).
      rewrite Hp in Hq. injection Hq as <-. congruence.
  - intros n' q b. rewrite lookup_insert_Some. intros [[<- <-]|[N Hq]] Rq Tq.
    + apply RG in Rq. destruct (decide (b = a)) as [->|Nb]; [exists k; by rewrite hset_eq|].
      rewrite O in Tq by done. destruct (D n p b Hp Rq Tq) as [k' Hk']. exists k'.
      rewrite hset_ne; [done|]. intros ->. congruence.
    + destruct (D n' q b Hq Rq Tq) as [k' Hk']. exists k'. rewrite hset_ne; [done|].
      intros ->. congruence.
Qed.

Lemma accounts_alloc_none pools H n p p' :
  accounts pools H → pools !! n = Some p → alloc p = Some (p', None) →
  accounts (<[n := p']> pools) H.
Proof.
  intros Ac Hp E. destruct (alloc_none p p' (acc_wf _ _ Ac n p Hp) E) as [-> _].
  by rewrite insert_id.
Qed.

Lemma accounts_free pools H n p a k :
  accounts pools H → H k = Some (n, a) → pools !! n = Some p →
  accounts (<[n := free p a]> pools) (hset k None H).
Proof.
  intros [W T X D] Hk Hp. pose proof (W n p Hp) as Wp.
  destruct (T k n a Hk) as (p0 & Hp0 & R & Ta). rewrite Hp in Hp0. injection Hp0 as <-.
  split.
  - intros n' q. rewrite lookup_insert_Some. intros [[_ <-]|[_ Hq]]; [by apply free_wf|by eapply W].
  - intros k' n' b. destruct (decide (k' = k)) as [->|N]; [by rewrite hset_eq|].
    rewrite hset_ne by done. intros Hk'. destruct (T k' n' b Hk') as (q & Hq & Rq & Tq).
    destruct (decide (n' = n)) as [->|Nn]; [|exists q; by rewrite lookup_insert_ne].
    rewrite Hp in Hq. injection Hq as <-. exists (free p a). rewrite lookup_insert_eq, free_range.
    split; [done|]. split; [done|]. rewrite free_other; [done..|]. intros ->. by apply N, (X k' k (n, a)).
  - intros k1 k2 [n' b]. unfold hset.
    destruct (decide (k1 = k)), (decide (k2 = k)); try done. apply X.
  - intros n' q b. rewrite lookup_insert_Some. intros [[<- <-]|[N Hq]] Rq Tq.
    + apply free_range in Rq. destruct (decide (b = a)) as [->|Nb].
      { rewrite free_this in Tq; done. }
      rewrite free_other in Tq by done. destruct (D n p b Hp Rq Tq) as [k' Hk']. exists k'.
      rewrite hset_ne; [done|]. intros ->. congruence.
    + destruct (D n' q b Hq Rq Tq) as [k' Hk']. exists k'. rewrite hset_ne; [done|].
      intros ->. congruence.
Qed.

Lemma hset_none_id k H : H k = None → ∀ k', hset k None H k' = H k'.
Proof. intros E k'. unfold hset. destruct (decide (k' = k)) as [->|]; [by rewrite E|done]. Qed.
End Accounts.

(** ** Holders *)
(** The context of a reference: a session, or a secondary authentication. *)
Record Holder := mkHolder {
  hDNN : string; hIP : option IP; hPrefix : option IPNet; hTEID : Z; hSEID : Z
}.
Definition holderOfInfo (i : SessionInfo) : Holder :=
  mkHolder (DNN i) (UEIP i) (textPrefix (UEIPv6Prefix i)) (ULTEID i) (SEID i).
Definition holderOfPending (p : pendingSecondaryAuth) : Holder :=
  mkHolder (paDNN p) (paIPv4 p) (paV6Prefix p) (paULTEID p) (paSEID p).

Definition sessionInfo (s : Smf) (ref : string) : option SessionInfo :=
  l ← sessions s !! ref; info <$> heap s !! l.

Definition holder (s : Smf) (ref : string) : option Holder :=
  match sessionInfo s ref with
  | Some i => Some (holderOfInfo i)
  | None => holderOfPending <$> pendingAuth s !! ref
  end.

Definition holds4 (s : Smf) (ref : string) : option (string * IP) :=
  match holder s ref with
  | Some h => match hIP h with Some ip => Some (poolName (hDNN h) s, ip) | None => None end
  | None => None
  end.
Definition holds6 (s : Smf) (ref : string) : option (string * IPNet) :=
  match holder s ref with
  | Some h => match hPrefix h with Some n => Some (hDNN h, n) | None => None end
  | None => None
  end.

(** References of the secondary authentications that wait for the DN-AAA. *)
Fixpoint authRefs (l : list Task) : list string :=
  match l with
  | [] => []
  | TAuthAAA p _ :: r => paRef p :: authRefs r
  | _ :: r => authRefs r
  end.

Record smf_inv (s : Smf) : Prop := {
  inv_internet : is_Some (ipPools s !! internet);
  inv_4 : accounts (ipPools s) (holds4 s);
  inv_6 : accounts (ipv6Pools s) (holds6 s);
  inv_heap ref l : sessions s !! ref = Some l → is_Some (heap s !! l);
  inv_disjoint ref : is_Some (sessions s !! ref) → pendingAuth s !! ref = None;
  inv_pending ref p : pendingAuth s !! ref = Some p → paRef p = ref;
  inv_tasks p eap : TAuthAAA p eap ∈ tasks s → pendingAuth s !! paRef p = Some p;
  inv_auth : NoDup (authRefs (tasks s));
  inv_ids ref h : holder s ref = Some h → 1 <= hTEID h <= nextTEID s ∧ 1 <= hSEID h <= nextSEID s;
  inv_teid r1 r2 h1 h2 : holder s r1 = Some h1 → holder s r2 = Some h2 →
    hTEID h1 = hTEID h2 ∨ hSEID h1 = hSEID h2 → r1 = r2;
  inv_counters : 0 <= nextTEID s ∧ 0 <= nextSEID s
}.

(** ** Steps that leave the accounts alone *)
Definition is_auth (t : Task) : bool := match t with TAuthAAA _ _ => true | _ => false end.

Record frame (s s' : Smf) : Prop := {
  fr_sessions : sessions s' = sessions s;
  fr_pools : ipPools s' = ipPools s;
  fr_pools6 : ipv6Pools s' = ipv6Pools s;
  fr_pending : pendingAuth s' = pendingAuth s;
  fr_teid : nextTEID s' = nextTEID s;
  fr_seid : nextSEID s' = nextSEID s;
  fr_info l : info <$> heap s' !! l = info <$> heap s !! l;
  fr_tasks : ∃ ts, tasks s' = tasks s ++ ts ∧ Forall (λ t, is_auth t = false) ts
}.

Lemma frame_refl s : frame s s.
Proof. split; try done. exists []. by rewrite app_nil_r. Qed.

Lemma frame_trans s1 s2 s3 : frame s1 s2 → frame s2 s3 → frame s1 s3.
Proof.
  intros [] []. split; try congruence. destruct fr_tasks0 as (t1 & E1 & F1), fr_tasks1 as (t2 & E2 & F2).
  exists (t1 ++ t2). rewrite E2, E1, app_assoc. split; [done|]. by apply Forall_app.
Qed.

Lemma frame_started s x t : is_auth t = false → frame s x → frame s (spawn t x).
Proof.
  intros Ht []. split; try done. destruct fr_tasks0 as (ts & E & F). exists (ts ++ [t]).
  unfold spawn. cbn [tasks set_tasks]. rewrite E, app_assoc. split; [done|].
  apply Forall_app. split; [done|]. by repeat constructor.
Qed.

#[export] Instance frame_closed : Closed frame.
Proof.
  split.
  1: apply frame_refl.
  1: apply frame_trans.
  1-5: intros s; intros; split; try done; exists []; by rewrite app_nil_r.
  - intros s t Ht. apply frame_started; [by destruct t|apply frame_refl].
  - intros s l f [Hf _ _]. split; try done; [|exists []; by rewrite app_nil_r].
    intros k. unfold upd. cbn [heap set_heap].
    destruct (decide (k = l)) as [->|N]; [|by rewrite lookup_alter_ne].
    rewrite lookup_alter_eq. destruct (heap s !! l); [|done]. cbn. by rewrite Hf.
Qed.

(** ** A frame keeps the invariant *)
Lemma authRefs_app a b : authRefs (a ++ b) = authRefs a ++ authRefs b.
Proof. induction a as [|[] a IH]; cbn; by rewrite ?IH. Qed.
Lemma authRefs_none l : Forall (λ t, is_auth t = false) l → authRefs l = [].
Proof. induction 1 as [|[] l]; done. Qed.
Lemma authRefs_elem l p eap : TAuthAAA p eap ∈ l → paRef p ∈ authRefs l.
Proof.
  induction l as [|t l IH]; [by intros H%not_elem_of_nil|].
  rewrite elem_of_cons. intros [<-|H]; [constructor|]. destruct t; try by apply IH.
  constructor. by apply IH.
Qed.
Lemma authRefs_inv l ref : ref ∈ authRefs l → ∃ p eap, TAuthAAA p eap ∈ l ∧ paRef p = ref.
Proof.
  induction l as [|t l IH]; cbn; [by intros H%not_elem_of_nil|].
  assert (ref ∈ authRefs l → ∃ p eap, TAuthAAA p eap ∈ t :: l ∧ paRef p = ref) as G.
  { intros (p & eap & H & E)%IH. exists p, eap. split; [by constructor|done]. }
  destruct t; try exact G. rewrite elem_of_cons. intros [->|H]; [|by apply G].
  exists p, eapResp. split; [constructor|done].
Qed.

Section Frame.
Context (s s' : Smf) (F : frame s s').

Lemma frame_sessionInfo ref : sessionInfo s' ref = sessionInfo s ref.
Proof.
  unfold sessionInfo. rewrite (fr_sessions _ _ F). destruct (sessions s !! ref) as [l|]; [|done].
  cbn [mbind option_bind]. apply (fr_info _ _ F).
Qed.
Lemma frame_holder ref : holder s' ref = holder s ref.
Proof. unfold holder. by rewrite frame_sessionInfo, (fr_pending _ _ F). Qed.
Lemma frame_poolName dnn : poolName dnn s' = poolName dnn s.
Proof. unfold poolName. by rewrite (fr_pools _ _ F). Qed.
Lemma frame_holds4 ref : holds4 s' ref = holds4 s ref.
Proof. unfold holds4. rewrite frame_holder. by repeat case_match; rewrite ?frame_poolName. Qed.
Lemma frame_holds6 ref : holds6 s' ref = holds6 s ref.
Proof. unfold holds6. by rewrite frame_holder. Qed.

Lemma frame_inv : smf_inv s → smf_inv s'.
Proof.
  intros [I1 I2 I3 I4 I5 I6 I7 I8 I9 I10 I11]. destruct (fr_tasks _ _ F) as (ts & Et & Ft).
  split.
  - by rewrite (fr_pools _ _ F).
  - rewrite (fr_pools _ _ F). eapply accounts_ext; [|exact I2]. intros. by rewrite frame_holds4.
  - rewrite (fr_pools6 _ _ F). eapply accounts_ext; [|exact I3]. intros. by rewrite frame_holds6.
  - intros ref l. rewrite (fr_sessions _ _ F). intros H%I4. pose proof (fr_info _ _ F l) as E.
    apply (fmap_is_Some info). rewrite E. by apply fmap_is_Some.
  - intros ref. rewrite (fr_sessions _ _ F), (fr_pending _ _ F). apply I5.
  - intros ref p. rewrite (fr_pending _ _ F). apply I6.
  - intros p eap. rewrite Et, (fr_pending _ _ F), elem_of_app. intros [H|H]; [by eapply I7|].
    rewrite Forall_forall in Ft. by specialize (Ft _ H).
  - by rewrite Et, authRefs_app, (authRefs_none ts Ft), app_nil_r.
  - intros ref h. rewrite frame_holder, (fr_teid _ _ F), (fr_seid _ _ F). apply I9.
  - intros r1 r2 h1 h2. rewrite !frame_holder. apply I10.
  - by rewrite (fr_teid _ _ F), (fr_seid _ _ F).
Qed.
End Frame.

(** ** A change of one context *)
Lemma inv_change s s' ref :
  smf_inv s →
  (∀ r, r ≠ ref → holder s' r = holder s r) →
  (∀ dnn, poolName dnn s' = poolName dnn s) → is_Some (ipPools s' !! internet) →
  accounts (ipPools s') (hset ref (holds4 s' ref) (holds4 s)) →
  accounts (ipv6Pools s') (hset ref (holds6 s' ref) (holds6 s)) →
  (∀ r l, sessions s' !! r = Some l → is_Some (heap s' !! l)) →
  (∀ r, is_Some (sessions s' !! r) → pendingAuth s' !! r = None) →
  (∀ r p, pendingAuth s' !! r = Some p → paRef p = r) →
  (∀ p eap, TAuthAAA p eap ∈ tasks s' → pendingAuth s' !! paRef p = Some p) →
  NoDup (authRefs (tasks s')) →
  nextTEID s <= nextTEID s' → nextSEID s <= nextSEID s' →
  (∀ h, holder s' ref = Some h → 1 <= hTEID h <= nextTEID s' ∧ 1 <= hSEID h <= nextSEID s' ∧
     ∀ r h2, r ≠ ref → holder s r = Some h2 → hTEID h ≠ hTEID h2 ∧ hSEID h ≠ hSEID h2) →
  smf_inv s'.
Proof.
  intros [I1 I2 I3 I4 I5 I6 I7 I8 I9 I10 I11] Hh Hn Hi A4 A6 J4 J5 J6 J7 J8 Ht Hs Hid.
  split; try done.
  - eapply accounts_ext; [|exact A4]. intros r. unfold hset. case_decide as D; [by subst|].
    unfold holds4. rewrite Hh by done. by repeat case_match; rewrite ?Hn.
  - eapply accounts_ext; [|exact A6]. intros r. unfold hset. case_decide as D; [by subst|].
    unfold holds6. by rewrite Hh.
  - intros r h. destruct (decide (r = ref)) as [->|N].
    + intros H%Hid. naive_solver.
    + rewrite Hh by done. intros H%I9. lia.
  - intros r1 r2 h1 h2. destruct (decide (r1 = ref)) as [->|N1], (decide (r2 = ref)) as [->|N2]; [done|..].
    + rewrite (Hh r2) by done. intros (_ & _ & D)%Hid H2 E. destruct (D r2 h2 N2 H2). naive_solver.
    + rewrite (Hh r1) by done. intros H1 (_ & _ & D)%Hid E. destruct (D r1 h1 N1 H1). naive_solver.
    + rewrite !Hh by done. apply I10.
  - lia.
Qed.

(** The pools after a release of the addresses of a context. *)
Definition poolNameIn (pools : gmap string IPPool) (dnn : string) : string :=
  match pools !! dnn with Some _ => dnn | None => internet end.
Definition rel4 (dnn : string) (ip : option IP) (pools : gmap string IPPool) : gmap string IPPool :=
  match ip, pools !! poolNameIn pools dnn with
  | Some ip, Some p => <[poolNameIn pools dnn := Release p ip]> pools
  | _, _ => pools
  end.
Definition rel6 (dnn : string) (n : option IPNet) (pools : gmap string IPv6Pool) : gmap string IPv6Pool :=
  match n, pools !! dnn with
  | Some n, Some p => <[dnn := Release6 p (Some n)]> pools
  | _, _ => pools
  end.

Lemma releaseIPv4_eq dnn ip s : releaseIPv4 dnn ip s = set_ipPools (rel4 dnn ip (ipPools s)) s.
Proof. unfold releaseIPv4, rel4, poolName, poolNameIn, setPool. destruct s. repeat case_match; done. Qed.
Lemma releaseIPv6_eq dnn n s : releaseIPv6 dnn n s = set_ipv6Pools (rel6 dnn n (ipv6Pools s)) s.
Proof. unfold releaseIPv6, rel6, setPool6. destruct s. repeat case_match; done. Qed.

Lemma rel4_some dnn ip pools n : is_Some (rel4 dnn ip pools !! n) ↔ is_Some (pools !! n).
Proof.
  unfold rel4. destruct ip as [ip|]; [|done].
  destruct (pools !! poolNameIn pools dnn) eqn:E; [|done].
  destruct (decide (n = poolNameIn pools dnn)) as [->|N]; [|by rewrite lookup_insert_ne].
  rewrite lookup_insert_eq, E. split; by eexists.
Qed.
Lemma poolNameIn_some (p q : gmap string IPPool) dnn :
  (is_Some (p !! dnn) ↔ is_Some (q !! dnn)) → poolNameIn p dnn = poolNameIn q dnn.
Proof.
  unfold poolNameIn. destruct (p !! dnn), (q !! dnn); intros [H1 H2]; try done.
  - by destruct (H1 (ex_intro _ _ eq_refl)).
  - by destruct (H2 (ex_intro _ _ eq_refl)).
Qed.

Lemma rel4_accounts s ref dnn ip :
  accounts (ipPools s) (holds4 s) →
  holds4 s ref = match ip with Some ip => Some (poolName dnn s, ip) | None => None end →
  accounts (rel4 dnn ip (ipPools s)) (hset ref None (holds4 s)).
Proof.
  intros Ac E. unfold rel4. destruct ip as [ip|].
  - destruct (acc_taken _ _ Ac _ _ _ E) as (p & Hp & _).
    change (poolNameIn (ipPools s) dnn) with (poolName dnn s). rewrite Hp.
    change (Release p ip) with (free p ip). by apply accounts_free.
  - eapply accounts_ext; [|exact Ac]. intros k. symmetry. by apply hset_none_id.
Qed.
Lemma rel6_accounts s ref dnn n :
  accounts (ipv6Pools s) (holds6 s) →
  holds6 s ref = match n with Some n => Some (dnn, n) | None => None end →
  accounts (rel6 dnn n (ipv6Pools s)) (hset ref None (holds6 s)).
Proof.
  intros Ac E. unfold rel6. destruct n as [n|].
  - destruct (acc_taken _ _ Ac _ _ _ E) as (p & Hp & _). rewrite Hp.
    change (Release6 p (Some n)) with (free p n). by apply accounts_free.
  - eapply accounts_ext; [|exact Ac]. intros k. symmetry. by apply hset_none_id.
Qed.

(** A context dropped with its addresses. *)
Definition dropContext (ref : string) (h : Holder) (s : Smf) : Smf :=
  mkSmf (heap s) (delete ref (sessions s)) (rel4 (hDNN h) (hIP h) (ipPools s))
    (rel6 (hDNN h) (hPrefix h) (ipv6Pools s)) (nextSEID s) (nextTEID s) (pfcpSeq s) (db s)
    (delete ref (pendingAuth s)) (association s) (tasks s) (calls s).

Lemma holder_drop ref h s r :
  holder (dropContext ref h s) r = if decide (r = ref) then None else holder s r.
Proof.
  unfold holder, sessionInfo, dropContext. cbn [sessions heap pendingAuth].
  case_decide as D; [subst; by rewrite !lookup_delete_eq|by rewrite !lookup_delete_ne].
Qed.

Lemma drop_inv s ref h :
  smf_inv s → holder s ref = Some h → ref ∉ authRefs (tasks s) → smf_inv (dropContext ref h s).
Proof.
  intros I Hh Hr. pose proof I as [I1 I2 I3 I4 I5 I6 I7 I8 I9 I10 I11].
  assert (holder (dropContext ref h s) ref = None) as HN by (by rewrite holder_drop, decide_True).
  apply (inv_change s (dropContext ref h s) ref I); try done.
  - intros r N. by rewrite holder_drop, decide_False.
  - intros dnn. apply poolNameIn_some. apply rel4_some.
  - by apply rel4_some.
  - unfold holds4 at 1. rewrite HN. apply rel4_accounts; [done|]. unfold holds4. by rewrite Hh.
  - unfold holds6 at 1. rewrite HN. apply rel6_accounts; [done|]. unfold holds6. by rewrite Hh.
  - intros r l. cbn. rewrite lookup_delete_Some. intros [_ H]. by eapply I4.
  - intros r. cbn. intros [l [N H]%lookup_delete_Some]. rewrite lookup_delete_ne by done.
    apply I5. by eexists.
  - intros r p. cbn. rewrite lookup_delete_Some. intros [_ H]. by apply I6.
  - intros p eap. cbn. intros H. rewrite lookup_delete_ne; [by eapply I7|].
    intros ->. by apply Hr, (authRefs_elem _ p eap).
  - intros h' H. congruence.
Qed.

(** ** Releases *)
Lemma inv_fields s s' :
  heap s' = heap s → sessions s' = sessions s → ipPools s' = ipPools s → ipv6Pools s' = ipv6Pools s →
  nextSEID s' = nextSEID s → nextTEID s' = nextTEID s → pendingAuth s' = pendingAuth s →
  tasks s' = tasks s → frame s s'.
Proof.
  intros Eh. intros. split; try done.
  - intros l. by rewrite Eh.
  - exists []. by rewrite app_nil_r.
Qed.

Lemma session_not_auth s ref : smf_inv s → is_Some (sessions s !! ref) → ref ∉ authRefs (tasks s).
Proof.
  intros I Hs (p & eap & Hp & <-)%authRefs_inv. apply (inv_tasks _ I) in Hp.
  by rewrite (inv_disjoint _ I) in Hp.
Qed.

Lemma release_inv c e ref l n4 s : smf_inv s → smf_inv (releaseSessionLocal c e ref l n4 s).1.
Proof.
  intros I. unfold releaseSessionLocal. destruct (sessions s !! ref) as [l'|] eqn:Es; [|done].
  destruct (heap s !! l) as [v|] eqn:El; [|done].
  destruct (Nat.eqb_spec l' l) as [->|]; [|done]. cbn [negb fst].
  set (h := holderOfInfo (info v)).
  assert (holder s ref = Some h) as Hh.
  { unfold holder, sessionInfo. rewrite Es. cbn [mbind option_bind]. by rewrite El. }
  assert (is_Some (sessions s !! ref)) as HS by (by eexists).
  apply (frame_inv (dropContext ref h s)); [|apply drop_inv; [done..|by apply session_not_auth]].
  assert (∀ x, frame (dropContext ref h s) x →
               frame (dropContext ref h s) (if n4 && negb (N4Stale v) then spawn (TDeletion l) x else x)) as G.
  { intros x Hx. case_match; [by apply frame_started|done]. }
  apply G. do 2 closed_step. rewrite releaseIPv6_eq, releaseIPv4_eq.
  apply inv_fields; try done. cbn. rewrite delete_id; [done|]. by apply (inv_disjoint _ I).
Qed.

Lemma delete_ctx_inv c e ref s : smf_inv s → smf_inv (handleDeleteSMContext c e ref s).1.
Proof.
  intros I. unfold handleDeleteSMContext. destruct (sessions s !! ref); cbn [fst].
  - by apply release_inv.
  - eapply frame_inv; [|exact I]. closed_solve.
Qed.

Lemma releaseOne_inv c e t s : smf_inv s → smf_inv (releaseOne c e t s).
Proof.
  intros I. unfold releaseOne. destruct (heap s !! tSess t) as [v|]; [|done].
  via frame (amfRelease_closed frame). apply (frame_inv s x E) in I. destruct b; [|by apply release_inv].
  eapply frame_inv; [|exact I]. unfold startReleaseGuard. closed_solve.
Qed.
Lemma guard_inv c e t s : smf_inv s → smf_inv (releaseGuardFires c e t s).
Proof. intros I. unfold releaseGuardFires. repeat case_match; try done. by apply release_inv. Qed.

(** ** Secondary authentication *)
Lemma pending_holder s ref p :
  smf_inv s → pendingAuth s !! ref = Some p → holder s ref = Some (holderOfPending p).
Proof.
  intros I Hp. unfold holder, sessionInfo. destruct (sessions s !! ref) eqn:Es.
  - rewrite (inv_disjoint _ I) in Hp by (by eexists). done.
  - by rewrite Hp.
Qed.

Lemma reject_inv c e p eap s :
  smf_inv s → pendingAuth s !! paRef p = Some p → paRef p ∉ authRefs (tasks s) →
  smf_inv (rejectSecondaryAuth c e p eap s).
Proof.
  intros I Hp Ha. set (ref := paRef p) in *. set (h := holderOfPending p).
  apply (frame_inv (dropContext ref h s)).
  - unfold rejectSecondaryAuth, pushN1N2. fold ref.
    assert (frame (dropContext ref h s)
              (releaseIPv6 (paDNN p) (paV6Prefix p) (releaseIPv4 (paDNN p) (paIPv4 p)
                 (deleteSession e ref (set_sessions (delete ref (sessions (deletePendingAuth ref s)))
                    (deletePendingAuth ref s)))))) as F.
    { rewrite releaseIPv6_eq, releaseIPv4_eq. unfold deleteSession, deletePendingAuth. cbn [db set_sessions set_pendingAuth].
      destruct (db s); [destruct (e_db e)|]; by apply inv_fields. }
    destruct (String.eqb (cAMF c) ""); [done|by apply after_emit; [apply _|..]].
  - apply drop_inv; [done|by apply pending_holder|done].
Qed.

(** A session stored under a reference, in place of the pending authentication. *)
Definition addSession (ref : string) (l : nat) (v : Session) (s : Smf) : Smf :=
  mkSmf (<[l := v]> (heap s)) (<[ref := l]> (sessions s)) (ipPools s) (ipv6Pools s) (nextSEID s) (nextTEID s)
    (pfcpSeq s) (db s) (delete ref (pendingAuth s)) (association s) (tasks s) (calls s).

Lemma holder_add ref l v s r :
  (∀ r l, sessions s !! r = Some l → is_Some (heap s !! l)) → l ∉ dom (heap s) →
  holder (addSession ref l v s) r =
  if decide (r = ref) then Some (holderOfInfo (info v)) else holder s r.
Proof.
  intros Hh Hl. unfold holder, sessionInfo, addSession. cbn [sessions heap pendingAuth].
  case_decide as D.
  - subst. rewrite lookup_insert_eq. cbn [mbind option_bind]. by rewrite lookup_insert_eq.
  - rewrite lookup_insert_ne, lookup_delete_ne by done.
    destruct (sessions s !! r) as [l'|] eqn:Er; [|done]. cbn [mbind option_bind].
    rewrite lookup_insert_ne; [done|]. intros ->. apply Hl, elem_of_dom. by eapply Hh.
Qed.

Lemma textPrefix_prefixText n : textPrefix (prefixText n) = n.
Proof. by destruct n. Qed.

Lemma complete_inv c e p eap s :
  smf_inv s → pendingAuth s !! paRef p = Some p → paRef p ∉ authRefs (tasks s) →
  smf_inv (completeSecondaryAuth c e p eap s).
Proof.
  intros I Hp Ha. pose proof (pending_holder _ _ _ I Hp) as Hh. set (ref := paRef p) in *.
  unfold completeSecondaryAuth. fold ref.
  destruct (sessionPolicy c e (paSUPI p) (paDNN p) (paIPv4 p) (paSlice p) (deletePendingAuth ref s))
    as [x [policyID q]] eqn:Ex.
  pose proof (sessionPolicy_closed frame c e (paSUPI p) (paDNN p) (paIPv4 p) (paSlice p) (deletePendingAuth ref s)) as Fx.
  assert (heap x = heap s) as Hx.
  { unfold sessionPolicy in Ex. injection Ex as Ex _. rewrite <- Ex. by case_match. }
  rewrite Ex in Fx. cbn [fst] in Fx.
  set (i := mkSessionInfo _ _ _ _ _ _ _ _ _ _ _ _). unfold storeSession.
  set (l := fresh (dom (heap x))). assert (l ∉ dom (heap s)) as Hl by (rewrite <- Hx; apply is_fresh).
  set (v := mkSession i q ACTIVE None false noHandover).
  apply (frame_inv (addSession ref l v s)).
  - apply after_push; [apply _|].
    assert (frame (addSession ref l v s)
              (persistSession e ref i (set_sessions (<[ref := l]> (sessions (set_heap (<[l := v]> (heap x)) x)))
                 (set_heap (<[l := v]> (heap x)) x)))) as F.
    { apply after_persist; [apply _|]. destruct Fx as [F1 F2 F3 F4 F5 F6 _ F8]. split; try done; cbn in *.
      - by rewrite F1.
      - intros k. by rewrite Hx. }
    case_match; [by apply frame_started|done].
  - assert (∀ r, holder (addSession ref l v s) r = holder s r) as E.
    { intros r. rewrite holder_add by (done || apply I). case_decide as D; [|done]. subst r. rewrite Hh. f_equal.
      unfold v, i, holderOfInfo, holderOfPending. cbn. by rewrite textPrefix_prefixText. }
    pose proof I as [I1 I2 I3 I4 I5 I6 I7 I8 I9 I10 I11].
    split; try done.
    + eapply accounts_ext; [|exact I2]. intros r. unfold holds4. by rewrite E.
    + eapply accounts_ext; [|exact I3]. intros r. unfold holds6. by rewrite E.
    + intros r l'. cbn. rewrite lookup_insert_Some. intros [[<- <-]|[N H]].
      * rewrite lookup_insert_eq. by eexists.
      * apply lookup_insert_is_Some. destruct (decide (l = l')); [by left|right]. split; [done|]. by eapply I4.
    + intros r. cbn. rewrite lookup_insert_is_Some. destruct (decide (r = ref)) as [->|N].
      * by rewrite lookup_delete_eq.
      * rewrite lookup_delete_ne by done. intros [->|[_ H]]; [done|by apply I5].
    + intros r p'. cbn. rewrite lookup_delete_Some. intros [_ H]. by apply I6.
    + intros p' eap'. cbn. intros H. rewrite lookup_delete_ne; [by eapply I7|].
      intros E'. apply Ha. rewrite E'. by eapply authRefs_elem.
    + intros r h. rewrite E. apply I9.
    + intros r1 r2 h1 h2. rewrite !E. apply I10.
Qed.

Lemma authDecided_inv c e p eap s :
  smf_inv s → pendingAuth s !! paRef p = Some p → paRef p ∉ authRefs (tasks s) →
  smf_inv (authDecided c e p eap s).
Proof.
  intros I Hp Ha. unfold authDecided.
  repeat case_match; by (apply reject_inv || apply complete_inv).
Qed.

(** ** Creation *)
Lemma inv_pools s pools4 pools6 :
  smf_inv s → (∀ n, is_Some (pools4 !! n) ↔ is_Some (ipPools s !! n)) →
  accounts pools4 (holds4 s) → accounts pools6 (holds6 s) →
  smf_inv (set_ipv6Pools pools6 (set_ipPools pools4 s)).
Proof.
  intros [I1 I2 I3 I4 I5 I6 I7 I8 I9 I10 I11] Hd A4 A6. split; try done.
  - by apply Hd.
  - eapply accounts_ext; [|exact A4]. intros r. unfold holds4.
    change (holder (set_ipv6Pools pools6 (set_ipPools pools4 s)) r) with (holder s r).
    repeat case_match; try done. do 2 f_equal. symmetry. by apply poolNameIn_some.
Qed.

Lemma insert_is_Some {B} (m : gmap string B) k v n :
  is_Some (m !! k) → (is_Some (<[k := v]> m !! n) ↔ is_Some (m !! n)).
Proof.
  intros H. rewrite lookup_insert_is_Some. destruct (decide (k = n)) as [->|N]; naive_solver.
Qed.

(** The address of a new context, as the pair that [holds4] will give. *)
Definition at4 (dnn : string) (s : Smf) (ip : option IP) : option (string * IP) :=
  match ip with Some ip => Some (poolName dnn s, ip) | None => None end.
Definition at6 (dnn : string) (v6 : option (IPNet * bytes)) : option (string * IPNet) :=
  match v6 with Some (n, _) => Some (dnn, n) | None => None end.

Lemma allocateIPv4_spec dnn t s ref :
  smf_inv s → holds4 s ref = None →
  ∃ pools r, allocateIPv4 dnn t s = Some (set_ipPools pools s, r) ∧
    (∀ n, is_Some (pools !! n) ↔ is_Some (ipPools s !! n)) ∧
    match r with
    | Some ip => accounts pools (hset ref (at4 dnn s ip) (holds4 s)) ∧
                 bool_decide (is_Some ip) = pduTypeNeedsIPv4 t
    | None => accounts pools (holds4 s)
    end.
Proof.
  intros I Hr. pose proof (inv_4 _ I) as A4. unfold allocateIPv4. destruct (pduTypeNeedsIPv4 t) eqn:Et.
  - assert (is_Some (ipPools s !! poolName dnn s)) as [p Hp].
    { unfold poolName. destruct (ipPools s !! dnn) eqn:E; [by eexists|apply (inv_internet _ I)]. }
    rewrite Hp. cbn [mbind option_bind].
    destruct (alloc_total p (acc_wf _ _ A4 _ _ Hp)) as (p' & r & E). cbn [alloc IPPool_pool] in E.
    rewrite E. cbn [mbind option_bind]. exists (<[poolName dnn s := p']> (ipPools s)).
    assert (∀ n, is_Some (<[poolName dnn s := p']> (ipPools s) !! n) ↔ is_Some (ipPools s !! n)) as D
      by (intros n; apply insert_is_Some; by eexists).
    destruct r as [ip|].
    + exists (Some (Some ip)). split; [done|]. split; [done|]. split; [|done].
      by eapply accounts_alloc.
    + exists None. split; [done|]. split; [done|]. by eapply accounts_alloc_none.
  - exists (ipPools s), (Some None). split; [by destruct s|]. split; [done|]. split; [|done].
    eapply accounts_ext; [|exact A4]. intros k. symmetry. by apply hset_none_id.
Qed.

Lemma allocateIPv6_spec dnn t s ref :
  accounts (ipv6Pools s) (holds6 s) → holds6 s ref = None →
  (pduTypeNeedsIPv6 t = true → is_Some (ipv6Pools s !! dnn)) →
  ∃ pools r, allocateIPv6 dnn t s = Some (set_ipv6Pools pools s, r) ∧
    match r with
    | Some v6 => accounts pools (hset ref (at6 dnn v6) (holds6 s)) ∧
                 bool_decide (is_Some v6) = pduTypeNeedsIPv6 t
    | None => accounts pools (holds6 s)
    end.
Proof.
  intros A6 Hr Hd. unfold allocateIPv6. destruct (pduTypeNeedsIPv6 t) eqn:Et.
  - destruct (Hd eq_refl) as [p Hp]. rewrite Hp. cbn [mbind option_bind].
    destruct (alloc_total p (acc_wf _ _ A6 _ _ Hp)) as (p' & r & E).
    pose proof E as E'. apply alloc6_inv in E' as (r' & E' & ->).
    rewrite E'. cbn [mbind option_bind]. exists (<[dnn := p']> (ipv6Pools s)).
    destruct r' as [[n iid]|].
    + exists (Some (Some (n, iid))). split; [done|]. split; [|done]. by eapply accounts_alloc.
    + exists None. split; [done|]. by eapply accounts_alloc_none.
  - exists (ipv6Pools s), (Some None). split; [by destruct s|]. split; [|done].
    eapply accounts_ext; [|exact A6]. intros k. symmetry. by apply hset_none_id.
Qed.

(** A reference that is not in use. *)
Definition unused (ref : string) (s : Smf) : Prop := sessions s !! ref = None ∧ pendingAuth s !! ref = None.

Lemma unused_holder ref s : unused ref s → holder s ref = None.
Proof. intros [H1 H2]. unfold holder, sessionInfo. by rewrite H1, H2. Qed.
Lemma unused_auth ref s : smf_inv s → unused ref s → ref ∉ authRefs (tasks s).
Proof.
  intros I [_ H] (p & eap & Hp & <-)%authRefs_inv. apply (inv_tasks _ I) in Hp. congruence.
Qed.

(** The final state of a creation: a session or a pending authentication. *)
Definition newContext (ref : string) (c : option (nat * Session) * option pendingSecondaryAuth)
    pools4 pools6 seid teid (s : Smf) : Smf :=
  mkSmf (match c.1 with Some (l, v) => <[l := v]> (heap s) | None => heap s end)
    (match c.1 with Some (l, _) => <[ref := l]> (sessions s) | None => sessions s end)
    pools4 pools6 seid teid (pfcpSeq s) (db s)
    (match c.2 with Some p => <[ref := p]> (pendingAuth s) | None => pendingAuth s end)
    (association s) (tasks s) (calls s).

Lemma new_inv ref c pools4 pools6 h s :
  smf_inv s → unused ref s →
  match c with
  | (Some (l, v), None) => (l ∉ dom (heap s)) ∧ h = holderOfInfo (info v)
  | (None, Some p) => paRef p = ref ∧ h = holderOfPending p
  | _ => False
  end →
  hTEID h = nextTEID s + 1 → hSEID h = nextSEID s + 1 →
  (∀ n, is_Some (pools4 !! n) ↔ is_Some (ipPools s !! n)) →
  accounts pools4 (hset ref (at4 (hDNN h) s (hIP h)) (holds4 s)) →
  accounts pools6 (hset ref (at6 (hDNN h) ((λ n, (n, [])) <$> hPrefix h)) (holds6 s)) →
  smf_inv (newContext ref c pools4 pools6 (nextSEID s + 1) (nextTEID s + 1) s).
Proof.
  intros I U Hc Ht Hs Hd A4 A6. set (s' := newContext _ _ _ _ _ _ _).
  pose proof I as [I1 I2 I3 I4 I5 I6 I7 I8 I9 I10 I11]. destruct U as [U1 U2].
  pose proof (unused_auth ref s I (conj U1 U2)) as Ua.
  assert (∀ r, holder s' r = if decide (r = ref) then Some h else holder s r) as Hh.
  { intros r. unfold holder, sessionInfo, s', newContext. destruct c as [[[l v]|] [p|]]; try done.
    - destruct Hc as [Hl ->]. cbn [fst snd sessions heap pendingAuth]. case_decide as D.
      + subst. rewrite lookup_insert_eq. cbn [mbind option_bind]. by rewrite lookup_insert_eq.
      + rewrite lookup_insert_ne by done. destruct (sessions s !! r) as [l'|] eqn:Er; [|done].
        cbn [mbind option_bind]. rewrite lookup_insert_ne; [done|].
        intros ->. apply Hl, elem_of_dom. by eapply I4.
    - destruct Hc as [<- ->]. cbn [fst snd sessions heap pendingAuth]. case_decide as D.
      + subst. rewrite U1. cbn [mbind option_bind]. by rewrite lookup_insert_eq.
      + by rewrite lookup_insert_ne. }
  assert (holder s' ref = Some h) as Hr by (by rewrite Hh, decide_True).
  assert (∀ dnn, poolName dnn s' = poolName dnn s) as Hn by (intros dnn; by apply poolNameIn_some).
  apply (inv_change s s' ref I); try done.
  - intros r N. by rewrite Hh, decide_False.
  - by apply Hd.
  - unfold holds4 at 1. rewrite Hr. unfold at4 in A4. destruct (hIP h); [rewrite Hn|]; exact A4.
  - unfold holds6 at 1. rewrite Hr. unfold at6 in A6. by destruct (hPrefix h).
  - intros r l. unfold s', newContext. destruct c as [[[l0 v]|] [p|]]; try done; cbn; [|by eapply I4].
    rewrite lookup_insert_Some. intros [[<- <-]|[N H]]; [rewrite lookup_insert_eq; by eexists|].
    apply lookup_insert_is_Some. destruct (decide (l0 = l)); [by left|right]. split; [done|]. by eapply I4.
  - intros r. unfold s', newContext. destruct c as [[[l0 v]|] [p|]]; try done; cbn.
    + rewrite lookup_insert_is_Some. intros [<-|[_ H]]; [done|by apply I5].
    + intros [l H]. destruct (decide (ref = r)) as [->|N]; [congruence|].
      rewrite lookup_insert_ne by done. apply I5. by eexists.
  - intros r p'. unfold s', newContext. destruct c as [[[l0 v]|] [p|]]; try done; cbn; [apply I6|].
    rewrite lookup_insert_Some. intros [[<- <-]|[_ H]]; [apply Hc|by apply I6].
  - intros p' eap. unfold s', newContext. destruct c as [[[l0 v]|] [p|]]; try done; cbn; [apply I7|].
    intros H. rewrite lookup_insert_ne; [by eapply I7|]. intros ->. by apply Ua, (authRefs_elem _ p' eap).
  - cbn. lia.
  - cbn. lia.
  - intros h' E. rewrite Hr in E. injection E as <-. cbn. split; [lia|]. split; [lia|].
    intros r h2 _ H2. apply I9 in H2. lia.
Qed.

Definition create_ok (e : Env) (s : Smf) : Prop :=
  unused (e_ref e) s ∧ nextTEID s + 1 < 4294967296 ∧ nextSEID s + 1 < 18446744073709551616 ∧
  (∀ ies, is_Some (aSetup (e_aper e) ies)).

Lemma needs6_pool s dnn requested t :
  t = selectPDUSessionType requested (bool_decide (is_Some (ipv6Pools s !! dnn))) →
  pduTypeNeedsIPv6 t = true → is_Some (ipv6Pools s !! dnn).
Proof.
  intros ->. destruct (selectPDUSessionType_cases requested
    (bool_decide (is_Some (ipv6Pools s !! dnn)))) as [->|[H _]]; [done|].
  intros _. by apply bool_decide_eq_true in H.
Qed.

(** The end of a creation, once both allocations have succeeded. *)
Lemma createWithAddresses_inv c e r req t ip v6 pools4 pools6 s :
  smf_inv s → create_ok e s →
  (∀ n, is_Some (pools4 !! n) ↔ is_Some (ipPools s !! n)) →
  accounts pools4 (hset (e_ref e) (at4 (rqDnn r) s ip) (holds4 s)) →
  accounts pools6 (hset (e_ref e) (at6 (rqDnn r) v6) (holds6 s)) →
  smf_inv (createWithAddresses c e r req t ip v6 (set_ipv6Pools pools6 (set_ipPools pools4 s))).1.
Proof.
  intros I (U & Ht & Hs & Henc) Hd A4 A6. pose proof (inv_counters _ I) as [C1 C2].
  unfold createWithAddresses. cbn [nextTEID nextSEID set_ipv6Pools set_ipPools].
  assert (u32 (nextTEID s + 1) = nextTEID s + 1) as -> by (apply Z.mod_small; lia).
  assert (u64 (nextSEID s + 1) = nextSEID s + 1) as -> by (apply Z.mod_small; lia).
  assert (accounts pools6 (hset (e_ref e) (at6 (rqDnn r) ((λ n, (n, [])) <$> (fst <$> v6))) (holds6 s))) as A6'
    by (by destruct v6 as [[]|]).
  destruct (secondaryAuthRequired c (rqDnn r)).
  - set (p := mkPending _ _ _ _ _ _ _ _ _ _ _ _ _ _). unfold startSecondaryAuth. cbn [fst].
    eapply frame_inv.
    2: apply (new_inv (e_ref e) (None, Some (set_paState PENDING_AUTH p)) pools4 pools6
                (holderOfPending p) s); try done.
    apply after_push; [apply _|]. by apply inv_fields.
  - destruct (sessionPolicy c e (rqSupi r) (rqDnn r) ip (sliceOf (rqSnssai r)) _) as [x [policyID q]] eqn:Ex.
    destruct (setupTransfer c e (nextTEID s + 1) q t) as [n2|] eqn:En.
    2: { unfold setupTransfer, buildSetupOpts in En. destruct (Henc ([IEAggregateMaximumBitRate
           (bps (qAmbrULMbps q)) (bps (qAmbrDLMbps q)); IEULNGUUPTNLInformation
           (buildTransportLayerAddress (cUPFN3Addr c)) (encodeGTPTEID (nextTEID s + 1))] ++ [] ++
           [IEPDUSessionType (ngapPDUSessionType t); IEQosFlowSetupRequestList
              (buildQosFlowSetupRequestList 1 (q5qi q) (bps (qAmbrULMbps q)) (bps (qAmbrDLMbps q)))]))
           as [b Hb]. congruence. }
    set (i := mkSessionInfo _ _ _ _ _ _ _ _ _ _ _ _). unfold storeSession. cbn [fst].
    set (l := fresh (dom (heap x))). set (v := mkSession i q ACTIVE None false noHandover).
    assert (heap x = heap s) as Hx.
    { unfold sessionPolicy in Ex. injection Ex as Ex _. rewrite <- Ex. by case_match. }
    eapply frame_inv.
    2: { apply (new_inv (e_ref e) (Some (l, v), None) pools4 pools6 (holderOfInfo i) s);
           [done|done| |done|done|done|exact A4|].
         - split; [rewrite <- Hx; apply is_fresh|done].
         - unfold holderOfInfo, i. cbn [hDNN hPrefix DNN UEIPv6Prefix]. by rewrite textPrefix_prefixText. }
    assert (∀ y, frame (newContext (e_ref e) (Some (l, v), None) pools4 pools6 (nextSEID s + 1)
                          (nextTEID s + 1) s) y →
                 frame (newContext (e_ref e) (Some (l, v), None) pools4 pools6 (nextSEID s + 1)
                          (nextTEID s + 1) s)
                   (if bool_decide (is_Some ip) || pduTypeNeedsIPv6 t then spawn (TEstablishment l) y else y))
      as G by (intros y Hy; case_match; [by apply frame_started|done]).
    apply G, after_persist; [apply _|]. unfold sessionPolicy in Ex. injection Ex as Ex _.
    apply inv_fields; rewrite <- Ex; cbn; by destruct (String.eqb (cPCF c) "").
Qed.

Lemma create_inv c e r s : smf_inv s → create_ok e s → smf_inv (handleCreateSMContext c e r s).1.
Proof.
  intros I Hok. pose proof Hok as (U & _). pose proof (unused_holder _ _ U) as Hn.
  assert (holds4 s (e_ref e) = None) as N4 by (unfold holds4; by rewrite Hn).
  assert (holds6 s (e_ref e) = None) as N6 by (unfold holds6; by rewrite Hn).
  unfold handleCreateSMContext. destruct (decodeRequest (rqN1 r)) as [req| | |]; try done.
  destruct (ipPools s !! poolName (rqDnn r) s); [|done].
  set (t := selectPDUSessionType _ _).
  destruct (allocateIPv4_spec (rqDnn r) t s (e_ref e) I N4) as (pools4 & r4 & -> & D4 & A4).
  destruct r4 as [ip|].
  2: { cbn [fst]. pose proof (inv_pools s pools4 (ipv6Pools s) I D4 A4 (inv_6 _ I)) as J.
       by destruct s. }
  destruct A4 as [A4 T4].
  destruct (allocateIPv6_spec (rqDnn r) t (set_ipPools pools4 s) (e_ref e)) as (pools6 & r6 & -> & A6).
  { apply (inv_6 _ I). }
  { done. }
  { by eapply needs6_pool. }
  destruct r6 as [v6|].
  - destruct A6 as [A6 T6]. by apply createWithAddresses_inv.
  - cbn [fst]. rewrite releaseIPv4_eq. cbn [ipPools set_ipv6Pools set_ipPools].
    pose proof (inv_pools s (rel4 (rqDnn r) ip pools4) pools6 I) as J.
    assert (poolNameIn pools4 (rqDnn r) = poolName (rqDnn r) s) as En by (by apply poolNameIn_some).
    destruct s. apply J; [intros n; by rewrite rel4_some| |exact A6].
    unfold rel4. destruct ip as [ip|].
    + rewrite En. destruct (acc_taken _ _ A4 (e_ref e) _ ip (hset_eq _ _ _)) as (p & Hp & _).
      rewrite Hp. change (Release p ip) with (free p ip).
      eapply accounts_ext; [|eapply accounts_free; [exact A4|apply hset_eq|exact Hp]].
      intros k. unfold hset. case_decide as Dk; [by subst|done].
    + eapply accounts_ext; [|exact A4]. by apply hset_none_id.
Qed.

(** ** The start of the DN-AAA exchange *)
Definition isAuthComplete (r : UpdateReq) : bool :=
  bool_decide (n1Type (uN1 r) = Some MsgTypePDUSessionAuthenticationComplete).

Lemma authComplete_inv ref n1 s :
  smf_inv s → ref ∉ authRefs (tasks s) → smf_inv (handleSecondaryAuthComplete ref n1 s).1.
Proof.
  intros I Ha. unfold handleSecondaryAuthComplete. destruct (decodeEAPMessageLVE (drop 4 n1)) as [eap| | |]; try done.
  destruct (pendingAuth s !! ref) as [p|] eqn:Hp; [|done]. cbn [fst].
  pose proof I as [I1 I2 I3 I4 I5 I6 I7 I8 I9 I10 I11]. pose proof (I6 _ _ Hp) as Href.
  set (p' := set_paState AWAITING_AAA p). set (s' := spawn _ _).
  assert (∀ r, holder s' r = holder s r) as E.
  { intros r. unfold holder, sessionInfo, s', spawn. cbn. destruct (sessions s !! r) as [l|] eqn:Er.
    - cbn. destruct (heap s !! l) eqn:El; [done|]. destruct (I4 _ _ Er). congruence.
    - cbn. destruct (decide (ref = r)) as [->|N]; [|by rewrite lookup_insert_ne].
      by rewrite lookup_insert_eq, Hp. }
  split; try done.
  - eapply accounts_ext; [|exact I2]. intros r. unfold holds4. by rewrite E.
  - eapply accounts_ext; [|exact I3]. intros r. unfold holds6. by rewrite E.
  - intros r H. cbn. destruct (decide (ref = r)) as [->|N].
    + apply I5 in H. congruence.
    + rewrite lookup_insert_ne by done. by apply I5.
  - intros r q. cbn. rewrite lookup_insert_Some. intros [[<- <-]|[_ H]]; [done|by apply I6].
  - intros q eap'. cbn. rewrite elem_of_app, list_elem_of_singleton. intros [H|[= -> ->]].
    + rewrite lookup_insert_ne; [by eapply I7|]. intros ->. by apply Ha, (authRefs_elem _ q eap').
    + change (paRef p') with (paRef p). by rewrite Href, lookup_insert_eq.
  - cbn. rewrite authRefs_app. apply NoDup_app. split; [done|]. split.
    + intros x Hx. cbn. rewrite list_elem_of_singleton. intros ->.
      by change (paRef p') with (paRef p) in Hx; rewrite Href in Hx.
    + cbn. apply NoDup_singleton.
  - intros r h. rewrite E. apply I9.
  - intros r1 r2 h1 h2. rewrite !E. apply I10.
Qed.

Lemma update_inv c e ref r s :
  smf_inv s → (isAuthComplete r = true → ref ∉ authRefs (tasks s)) →
  smf_inv (handleUpdateSMContext c e ref r s).1.
Proof.
  intros I Ha. destruct (update_closed frame c e ref r s) as [F|[E ->]]; [by eapply frame_inv|].
  apply authComplete_inv; [done|]. apply Ha. by apply bool_decide_eq_true_2.
Qed.

(** ** Goroutines *)
Lemma tasks_inv s ts :
  smf_inv s → (∀ t, t ∈ ts → t ∈ tasks s) → NoDup (authRefs ts) → smf_inv (set_tasks ts s).
Proof.
  intros [I1 I2 I3 I4 I5 I6 I7 I8 I9 I10 I11] Hs Hn. split; try done. intros p eap H. by eapply I7, Hs.
Qed.

Lemma authRefs_delete l n t :
  l !! n = Some t → NoDup (authRefs l) →
  NoDup (authRefs (delete n l)) ∧
  match t with TAuthAAA p _ => paRef p ∉ authRefs (delete n l) | _ => True end.
Proof.
  intros Hn ND. rewrite delete_take_drop. rewrite <- (take_drop_middle l n t Hn) in ND.
  rewrite authRefs_app in ND. rewrite authRefs_app.
  apply NoDup_app in ND as (N1 & N2 & N3).
  assert (NoDup (authRefs (drop (S n) l))) as N4 by (destruct t; try done; by apply NoDup_cons in N3 as [_ ?]).
  split.
  - apply NoDup_app. split; [done|]. split; [|done]. intros x Hx Hy. apply (N2 x Hx).
    destruct t; try done. by constructor.
  - destruct t; try done. apply NoDup_cons in N3 as [N3 _]. intros [H|H]%elem_of_app; [|done].
    apply (N2 _ H). constructor.
Qed.

Lemma delete_sub {B} (l : list B) n x : x ∈ delete n l → x ∈ l.
Proof. intros H. eapply elem_of_submseteq; [exact H|]. apply sublist_submseteq, sublist_delete. Qed.

Lemma run_inv c e n s : smf_inv s → smf_inv (runNth c e n s).
Proof.
  intros I. unfold runNth. destruct (tasks s !! n) as [t|] eqn:Ht; [|done].
  destruct (authRefs_delete _ _ _ Ht (inv_auth _ I)) as [ND Hp].
  assert (smf_inv (set_tasks (delete n (tasks s)) s)) as J
    by (apply tasks_inv; [done|intros t'; apply delete_sub|done]).
  destruct (inPlace t) eqn:Hi; [eapply frame_inv; [by apply (task_closed frame)|exact J]|].
  destruct t; try discriminate Hi; cbn [runTask]; [by apply releaseOne_inv|by apply guard_inv|].
  apply authDecided_inv; [done| |done]. apply (inv_tasks _ I p eapResp). by eapply list_elem_of_lookup_2.
Qed.

(** ** All sequences of events *)
(** What is assumed of an event: a new reference is not in use, the counters have not
    wrapped, the runtime encodes the Setup Request Transfer; and a UE does not answer
    the same challenge again while the DN-AAA is being asked. *)
Definition allowed (s : Smf) (ev : Event) : Prop :=
  match ev with
  | ECreate e _ => create_ok e s
  | EUpdate _ ref r => isAuthComplete r = true → ref ∉ authRefs (tasks s)
  | _ => True
  end.

Lemma step_inv c s ev : smf_inv s → allowed s ev → smf_inv (step c s ev).
Proof.
  intros I A. destruct ev; cbn [step] in *.
  - by apply create_inv.
  - by apply update_inv.
  - by apply delete_ctx_inv.
  - by apply run_inv.
  - eapply frame_inv; [apply (supervise_closed frame)|exact I].
  - eapply frame_inv; [apply (heartbeat_closed frame)|exact I].
  - eapply frame_inv; [apply (dlData_closed frame)|exact I].
Qed.

Fixpoint all_allowed (c : Config) (s : Smf) (evs : list Event) : Prop :=
  match evs with
  | [] => True
  | ev :: r => allowed s ev ∧ all_allowed c (step c s ev) r
  end.

Lemma run_all_inv c s evs : smf_inv s → all_allowed c s evs → smf_inv (foldl (step c) s evs).
Proof.
  revert s; induction evs as [|ev r IH]; intros s I; [done|]. intros [A B]. apply IH; [|done].
  by apply step_inv.
Qed.

(** *** Start-up *)
(** The CIDR texts of the configuration are IPv4 subnets and IPv6 prefixes. *)
Definition cidr4_ok (t : ParseCIDR) : Prop :=
  ∃ ip n ones, t = Some (ip, n) ∧ pool_ok (mkIPPool n ∅) ones.
Definition cidr6_ok (t : CIDRText) : Prop :=
  ∀ p, t = CIDR p → ∃ ip n, p = Some (ip, n) ∧ bytes_ok (netIP n) ∧ length (netIP n) = 16%nat.
Definition config_ok (c : Config) : Prop :=
  cidr4_ok (cUEIPPool c) ∧ Forall (λ d, cidr4_ok (dUEIPPool d) ∧ cidr6_ok (dUEIPv6Prefix d)) (cDNNs c).

Definition empty4 (m : gmap string IPPool) : Prop :=
  ∀ n p, m !! n = Some p → pool_wf p ∧ allocated p = ∅.
Definition empty6 (m : gmap string IPv6Pool) : Prop :=
  ∀ n p, m !! n = Some p → pool_wf p ∧ allocated6 p = ∅.

Lemma newPool_empty t p : cidr4_ok t → NewIPPool t = Some p → pool_wf p ∧ allocated p = ∅.
Proof. intros (ip & n & ones & -> & H). intros [= <-]. split; [by exists ones|done]. Qed.

Lemma newPools_empty l m m' :
  Forall (λ d, cidr4_ok (dUEIPPool d)) l → empty4 m → newPools l m = Some m' → empty4 m'.
Proof.
  intros F. revert m; induction F as [|d l Hd F IH]; intros m E; [by intros [= <-]|].
  cbn. intros (p & Hp & H)%bind_Some. eapply IH; [|exact H].
  intros n q. rewrite lookup_insert_Some. intros [[<- <-]|[_ Hq]]; [|by eapply E].
  by eapply newPool_empty.
Qed.
Lemma newPools6_empty l m m' :
  Forall (λ d, cidr6_ok (dUEIPv6Prefix d)) l → empty6 m → newPools6 l m = Some m' → empty6 m'.
Proof.
  intros F. revert m; induction F as [|d l Hd F IH]; intros m E; [by intros [= <-]|].
  cbn. destruct (dUEIPv6Prefix d) as [|t]; [by apply IH|].
  destruct (Hd t eq_refl) as (ip & n & -> & B & L).
  intros (p & Hp & H)%bind_Some. eapply IH; [|exact H].
  intros k q. rewrite lookup_insert_Some. intros [[<- <-]|[_ Hq]]; [|by eapply E].
  by destruct (NewIPv6Pool_ok _ _ _ Hp B L) as (W & A & _).
Qed.

Lemma New_inv c e store s : config_ok c → New c e store = Some s → smf_inv s.
Proof.
  intros [C4 CD]. rewrite Forall_and in CD. destruct CD as [CD4 CD6]. unfold New.
  intros (pools & Hp & H)%bind_Some. apply bind_Some in H as (pools' & Hp' & H).
  apply bind_Some in H as (pools6 & Hp6 & H). injection H as <-.
  eapply frame_inv; [apply (loadFromStore_closed frame)|].
  assert (empty4 pools) as E by (eapply newPools_empty; [exact CD4|intros n p; by rewrite lookup_empty|exact Hp]).
  assert (empty4 pools' ∧ is_Some (pools' !! internet)) as [E' Hi].
  { destruct (pools !! internet) eqn:Ei; [injection Hp' as <-; split; [done|by eexists]|].
    apply bind_Some in Hp' as (p & Hn & [= <-]). split.
    - intros n q. rewrite lookup_insert_Some. intros [[<- <-]|[_ Hq]]; [by eapply newPool_empty|by eapply E].
    - rewrite lookup_insert_eq. by eexists. }
  assert (empty6 pools6) as E6 by (eapply newPools6_empty; [exact CD6|intros n p; by rewrite lookup_empty|exact Hp6]).
  split; try done; cbn.
  - split; try done; [intros n p; by apply E'|]. intros n p a Hn _ T. cbn in Hn. apply E' in Hn as [_ Ha].
    cbn in T. unfold isAllocated in T. by rewrite Ha, lookup_empty in T.
  - split; try done; [intros n p; by apply E6|]. intros n p a Hn _ T. cbn in Hn. apply E6 in Hn as [_ Ha].
    cbn [taken IPv6Pool_pool] in T. destruct (indexForPrefix p (netIP a)); [|done].
    cbn [mbind option_bind] in T. by rewrite Ha, lookup_empty in T.
  - by intros p eap ?%not_elem_of_nil.
  - constructor.
Qed.

(** C29: the SMF accounts for its addresses.  From start-up, over every interleaving of
    creations, updates, releases, goroutines and supervision in which references are
    new, counters have not wrapped, the encoding of the setup request of a creation succeeds,
    and no second AUTHENTICATION COMPLETE arrives while the DN-AAA is being asked about the
    first ([failed_encoding_leaks] and [second_complete_frees_twice] show what happens
    otherwise): two contexts never hold the same IPv4 address or IPv6 prefix, an address
    of a pool is taken exactly when a session or a pending secondary authentication holds
    it, and no two contexts share a TEID or an SEID. *)
Theorem smf_addresses_accounted c e store s0 evs :
  config_ok c → New c e store = Some s0 → all_allowed c s0 evs →
  let s := foldl (step c) s0 evs in
  (∀ r1 r2 na, holds4 s r1 = Some na → holds4 s r2 = Some na → r1 = r2) ∧
  (∀ r1 r2 na, holds6 s r1 = Some na → holds6 s r2 = Some na → r1 = r2) ∧
  (∀ n p ip, ipPools s !! n = Some p → in_range p ip →
     (taken p ip = true ↔ ∃ r, holds4 s r = Some (n, ip))) ∧
  (∀ n p a, ipv6Pools s !! n = Some p → in_range p a →
     (taken p a = true ↔ ∃ r, holds6 s r = Some (n, a))) ∧
  (∀ r1 r2 h1 h2, holder s r1 = Some h1 → holder s r2 = Some h2 →
     hTEID h1 = hTEID h2 ∨ hSEID h1 = hSEID h2 → r1 = r2).
Proof.
  intros Hc Hn Ha s. assert (smf_inv s) as I by (apply run_all_inv; [by eapply New_inv|done]).
  destruct (inv_4 _ I) as [W4 T4 X4 D4], (inv_6 _ I) as [W6 T6 X6 D6].
  split; [exact X4|]. split; [exact X6|]. split; [|split; [|apply (inv_teid _ I)]].
  - intros n p ip Hp R. split; [by apply D4|]. intros [r H]. destruct (T4 r n ip H) as (q & Hq & _ & Tq).
    congruence.
  - intros n p a Hp R. split; [by apply D6|]. intros [r H]. destruct (T6 r n a H) as (q & Hq & _ & Tq).
    congruence.
Qed.

(** *** A configuration with one DNN that needs secondary authentication *)
Definition aper0 : Aper :=
  mkAper (λ _, Some [1]) (Some [2]) (Some [3]) (λ _, Some [4]) (λ _, Some [5]) (λ _, Some [6])
    (λ _, Some (Some ([0; 0; 0; 9], [172; 16; 0; 1]))) (λ _, None) (λ _, None) (λ _, None) (λ _, None)
    (λ _, None).
Definition aperFails : Aper :=
  mkAper (λ _, None) (Some [2]) (Some [3]) (λ _, Some [4]) (λ _, Some [5]) (λ _, Some [6])
    (λ _, None) (λ _, None) (λ _, None) (λ _, None) (λ _, None) (λ _, None).
Definition env0 (ref : string) (aper : Aper) (aaa : option bytes) : Env :=
  mkEnv 100 ref aper (λ _ _ _, NoReply) (λ _, NoReply) (λ _ _, NoReply) None true true true
    (λ _ _, []) 1 (λ _ _, aaa).
Definition config0 (secondary : bool) : Config :=
  mkConfig [mkDNNConfig internet (Some (netIP net30, net30)) NoCIDR secondary false []]
    (Some (netIP net30, net30)) (Some [10; 0; 0; 1]) "" "" "amf" "amf" 3 30 50.
Definition start0 (secondary : bool) : Smf :=
  default (mkSmf ∅ ∅ ∅ ∅ 0 0 0 None ∅ (mkAssociation SETUP_PENDING "" None None false) [] [])
          (New (config0 secondary) (env0 "" aper0 None) (Some ∅)).
Definition create0 (supi : string) : CreateReq := mkCreateReq supi internet 1 [] None.
Definition complete0 : UpdateReq :=
  mkUpdateReq "" "" "" false 0 0 0 1
    (OkB64 (WrapPDUSessionAuthenticationCompleteBody 1 0 (Eap.BuildIdentityResponse 1 [97]))) NoB64.

Lemma config0_ok b : config_ok (config0 b).
Proof.
  assert (cidr4_ok (Some (netIP net30, net30))) as C by (exists (netIP net30), net30, 30%nat; split; [done|apply net30_ok]).
  split; [exact C|]. repeat constructor; [exact C|]. by intros p.
Qed.

Lemma smf_addresses_accounted_witness :
  holds4 (foldl (step (config0 true)) (start0 true)
            [ECreate (env0 "a" aper0 None) (create0 "imsi-1"); EUpdate (env0 "" aper0 None) "a" complete0;
             ECreate (env0 "b" aper0 None) (create0 "imsi-2");
             ERun (env0 "" aper0 (Some (Eap.BuildSuccess 1))) 0]) "a" = Some (internet, [10; 60; 0; 254]) ∧
  holds4 (foldl (step (config0 true)) (start0 true)
            [ECreate (env0 "a" aper0 None) (create0 "imsi-1"); EUpdate (env0 "" aper0 None) "a" complete0;
             ECreate (env0 "b" aper0 None) (create0 "imsi-2");
             ERun (env0 "" aper0 (Some (Eap.BuildSuccess 1))) 0]) "b" ≠ Some (internet, [10; 60; 0; 254]).
Proof.
  set (evs := [ECreate (env0 "a" aper0 None) (create0 "imsi-1"); EUpdate (env0 "" aper0 None) "a" complete0;
             ECreate (env0 "b" aper0 None) (create0 "imsi-2");
             ERun (env0 "" aper0 (Some (Eap.BuildSuccess 1))) 0]).
  assert (holds4 (foldl (step (config0 true)) (start0 true) evs) "a" = Some (internet, [10; 60; 0; 254])) as E
    by (vm_compute; reflexivity).
  split; [exact E|]. intros E2.
  destruct (smf_addresses_accounted (config0 true) (env0 "" aper0 None) (Some ∅) (start0 true) evs) as (X & _).
  - apply config0_ok.
  - vm_compute. reflexivity.
  - cbn [all_allowed evs allowed]. unfold create_ok, unused.
    repeat split; try (vm_compute; reflexivity); try (intros ies; by eexists).
    intros _ H. vm_compute in H. by apply not_elem_of_nil in H.
  - discriminate (X "a"%string "b"%string _ E E2).
Defined.
