(* ===== verification/SmfRecovery.v ===== *)
(** * Release and recovery of sessions

    What the SMF keeps over every interleaving of requests, goroutines and supervision,
    without any assumption on them: a session that is being released stays so and is
    not modified at the UPF any more, no session is entered a second time, and after a
    restart of the UPF every session that was established before it is released.

    The order of states is [evolves]; [grows] adds that no goroutine is lost, and is
    closed under the effects of the handlers ([SmfClosed]).
*)
From S2P Require Import Prelude NasPduSession NasEap CryptoEap SmfPools SmfQos SmfState SmfSession SmfNode SmfClosed SmfAccount.
Open Scope Z_scope.

(** ** How the state evolves *)
(** A reference leads to an object, and two references to two objects. *)
Record wf (s : Smf) : Prop := {
  wf_heap ref l : sessions s !! ref = Some l → is_Some (heap s !! l);
  wf_inj r1 r2 l : sessions s !! r1 = Some l → sessions s !! r2 = Some l → r1 = r2
}.

Record evolves (s s' : Smf) : Prop := {
  evo_heap l v : heap s !! l = Some v → ∃ v', heap s' !! l = Some v' ∧ info v' = info v ∧
    (State v = RELEASING → State v' = RELEASING) ∧ (N4Stale v = true → N4Stale v' = true);
  evo_sessions ref l : sessions s' !! ref = Some l → is_Some (heap s !! l) → sessions s !! ref = Some l;
  evo_calls : ∃ cs, calls s' = calls s ++ cs ∧
    ∀ c seid, c ∈ cs → modSEID c = Some seid →
      ∃ l v, heap s' !! l = Some v ∧ SEID (info v) = seid ∧
             (∀ v0, heap s !! l = Some v0 → State v0 ≠ RELEASING);
  evo_deletion l v : TDeletion l ∈ tasks s' → heap s !! l = Some v → N4Stale v = true →
    TDeletion l ∈ tasks s;
  evo_wf : wf s → wf s'
}.

Lemma evolves_refl s : evolves s s.
Proof.
  split; try done.
  - intros l v H. by exists v.
  - exists []. rewrite app_nil_r. split; [done|]. by intros c seid ?%not_elem_of_nil.
Qed.

Lemma evolves_trans s1 s2 s3 : evolves s1 s2 → evolves s2 s3 → evolves s1 s3.
Proof.
  intros [H1 S1 (c1 & E1 & C1) D1 W1] [H2 S2 (c2 & E2 & C2) D2 W2]. split; [..|by auto].
  - intros l v Hl. destruct (H1 _ _ Hl) as (v2 & Hl2 & I2 & R2 & N2).
    destruct (H2 _ _ Hl2) as (v3 & Hl3 & I3 & R3 & N3). exists v3. split; [done|].
    split; [congruence|]. auto.
  - intros ref l Hr [v Hl]. apply S1; [|by eexists]. apply S2; [done|].
    destruct (H1 _ _ Hl) as (v2 & Hl2 & _). by eexists.
  - exists (c1 ++ c2). rewrite E2, E1, app_assoc. split; [done|].
    intros c seid Hc Hm. apply elem_of_app in Hc as [Hc|Hc].
    + destruct (C1 _ _ Hc Hm) as (l & v & Hl & Hs & Hr).
      destruct (H2 _ _ Hl) as (v3 & Hl3 & I3 & _). exists l, v3. rewrite I3. done.
    + destruct (C2 _ _ Hc Hm) as (l & v & Hl & Hs & Hr). exists l, v. split; [done|]. split; [done|].
      intros v0 Hl0 H0. destruct (H1 _ _ Hl0) as (v2 & Hl2 & _ & R2 & _). by apply (Hr v2); [|apply R2].
  - intros l v Ht Hl Hn. destruct (H1 _ _ Hl) as (v2 & Hl2 & _ & _ & N2). eauto.
Qed.

#[export] Instance evolves_preorder : PreOrder evolves.
Proof. split; [exact evolves_refl|exact evolves_trans]. Qed.

(** Nothing that [evolves] looks at has changed. *)
Lemma evolves_same s s' :
  heap s' = heap s → sessions s' = sessions s → calls s' = calls s → tasks s' = tasks s → evolves s s'.
Proof. intros E1 E2 E3 E4. destruct (evolves_refl s) as [A B C D W]. split; rewrite ?E1, ?E2, ?E3, ?E4; try done.
  intros [W1 W2]. split; by rewrite ?E1, ?E2. Qed.

Record grows (s s' : Smf) : Prop := {
  gr_evolves : evolves s s';
  gr_tasks t : t ∈ tasks s → t ∈ tasks s'
}.
Lemma grows_same s s' :
  heap s' = heap s → sessions s' = sessions s → calls s' = calls s → tasks s' = tasks s → grows s s'.
Proof. intros E1 E2 E3 E4. split; [by apply evolves_same|]. by rewrite E4. Qed.

Lemma evolves_emit s c :
  (∀ seid, modSEID c = Some seid → ∃ l v, heap s !! l = Some v ∧ SEID (info v) = seid ∧ State v ≠ RELEASING) →
  evolves s (emit c s).
Proof.
  intros Hc. destruct (evolves_refl s) as [A B C D W]. split; try done; try by intros [W1 W2].
  exists [c]. split; [done|]. intros c' seid ->%list_elem_of_singleton Hm.
  destruct (Hc _ Hm) as (l & v & Hl & Hs & Hr). exists l, v. split; [done|]. split; [done|].
  intros v0 H0. congruence.
Qed.
Lemma grows_spawn s t :
  (∀ l, t = TDeletion l → ∀ v, heap s !! l = Some v → N4Stale v = false) → grows s (spawn t s).
Proof.
  intros Ht. destruct (evolves_refl s) as [A B C D W]. split.
  - split; try done; [|by intros [W1 W2]]. intros l v. cbn. rewrite elem_of_app, list_elem_of_singleton. intros [H|H] Hl Hn; [done|].
    rewrite (Ht l (eq_sym H) v Hl) in Hn. done.
  - intros t' H. cbn. rewrite elem_of_app. by left.
Qed.

#[export] Instance grows_closed : Closed grows.
Proof.
  split.
  - intros s. by apply grows_same.
  - intros s1 s2 s3 [] []. split; [by etrans|]. auto.
  - intros s c Hc. split; [|done]. apply evolves_emit. intros seid H. congruence.
  - intros s l v c Hl Hv Hc. split; [|done]. apply evolves_emit. intros seid H. exists l, v.
    split; [done|]. split; [congruence|done].
  - intros s a. by apply grows_same.
  - intros s d. by apply grows_same.
  - intros s n. by apply grows_same.
  - intros s t Ht. apply grows_spawn. by intros l ->.
  - intros s l f [Hi Hr Hn]. split; [|done]. destruct (evolves_refl s) as [A B C D W]. split; try done; try by intros [W1 W2].
    + intros k v Hk. unfold upd. cbn [heap set_heap]. destruct (decide (k = l)) as [->|N].
      * exists (f v). rewrite lookup_alter_eq, Hk. auto.
      * exists v. by rewrite lookup_alter_ne.
    + exists []. rewrite app_nil_r. split; [done|]. by intros c seid ?%not_elem_of_nil.
    + intros [W1 W2]. split; [|done]. intros ref k Hk. unfold upd. cbn [heap set_heap].
      rewrite lookup_alter_is_Some. by eapply W1.
Qed.

(** ** Contexts leave and enter *)
Lemma grows_leave s ref : grows s (set_sessions (delete ref (sessions s)) s).
Proof.
  split; [|done]. destruct (evolves_refl s) as [A B C D W]. split; try done; try by intros [W1 W2].
  - intros r l. cbn. rewrite lookup_delete_Some. by intros [_ H] _.
  - intros [W1 W2]. split; cbn.
    + intros r l. rewrite lookup_delete_Some. intros [_ H]. by eapply W1.
    + intros r1 r2 l. rewrite !lookup_delete_Some. intros [_ H1] [_ H2]. by eapply W2.
Qed.

Lemma grows_enter s ref l v : heap s !! l = None →
  grows s (set_sessions (<[ref := l]> (sessions s)) (set_heap (<[l := v]> (heap s)) s)).
Proof.
  intros Hl. split; [|done]. destruct (evolves_refl s) as [A B C D W]. split; try done; cbn.
  - intros k w Hk. exists w. rewrite lookup_insert_ne; [done|]. congruence.
  - intros r k. rewrite lookup_insert_Some. intros [[_ <-]|[_ H]] [w Hw]; [congruence|done].
  - exists []. rewrite app_nil_r. split; [done|]. by intros c seid ?%not_elem_of_nil.
  - intros [W1 W2]. split; cbn.
    + intros r k. rewrite lookup_insert_Some. intros [[_ <-]|[_ H]]; [rewrite lookup_insert_eq; by eexists|].
      apply W1 in H as [w Hw]. rewrite lookup_insert_ne; [by eexists|]. congruence.
    + intros r1 r2 k. rewrite !lookup_insert_Some.
      intros [[<- <-]|[N1 H1]] [[<- E2]|[N2 H2]]; try subst; try done; [..|by eapply W2].
      * apply W1 in H2 as [w Hw]. congruence.
      * apply W1 in H1 as [w Hw]. congruence.
Qed.

Lemma grows_store e ref i q s : grows s (storeSession e ref i q s).1.
Proof.
  unfold storeSession. cbn [fst]. apply after_persist; [apply _|]. apply (grows_enter s).
  apply not_elem_of_dom, is_fresh.
Qed.

Lemma grows_releaseIPv4 dnn ip s x : grows s x → grows s (releaseIPv4 dnn ip x).
Proof. intros H. eapply cl_trans; [exact H|]. rewrite releaseIPv4_eq. by apply grows_same. Qed.
Lemma grows_releaseIPv6 dnn n s x : grows s x → grows s (releaseIPv6 dnn n x).
Proof. intros H. eapply cl_trans; [exact H|]. rewrite releaseIPv6_eq. by apply grows_same. Qed.
Lemma grows_drop ref s x : grows s x → grows s (set_sessions (delete ref (sessions x)) x).
Proof. intros H. eapply cl_trans; [exact H|apply grows_leave]. Qed.

(** A session leaves only through here, and the N4 session of a stale one is not
    deleted. *)
Lemma grows_release c e ref l n4 s : grows s (releaseSessionLocal c e ref l n4 s).1.
Proof.
  unfold releaseSessionLocal. destruct (sessions s !! ref) as [l'|]; [|apply cl_refl].
  destruct (heap s !! l) as [v|] eqn:El; [|apply cl_refl].
  destruct (negb (l' =? l)%nat); [apply cl_refl|]. cbn [fst].
  match goal with |- grows s (if _ then spawn _ ?x else _) => assert (grows s x ∧ heap x = heap s) as [G Hh] end.
  { split.
    - do 2 closed_step. by apply grows_drop, grows_releaseIPv6, grows_releaseIPv4, cl_refl.
    - rewrite releaseIPv6_eq, releaseIPv4_eq. unfold deleteSMPolicy, deleteSession.
      by repeat case_match. }
  case_match eqn:Ec; [|done]. eapply cl_trans; [exact G|]. apply grows_spawn.
  intros k [= <-] w Hw. rewrite Hh, El in Hw. injection Hw as <-.
  by apply andb_true_iff in Ec as [_ ->%negb_true_iff].
Qed.

Lemma release_gone c e ref l v n4 s :
  heap s !! l = Some v → sessions (releaseSessionLocal c e ref l n4 s).1 !! ref ≠ Some l.
Proof.
  intros Hl. unfold releaseSessionLocal. destruct (sessions s !! ref) as [l'|] eqn:Es; [|cbn [fst]; by rewrite Es].
  rewrite Hl. destruct (Nat.eqb_spec l' l) as [->|N]; cbn [negb fst]; [|rewrite Es; congruence].
  match goal with |- sessions (if _ then spawn _ ?x else _) !! _ ≠ _ =>
    assert (sessions x !! ref = None) as H end.
  { unfold deleteSMPolicy, deleteSession. repeat case_match; apply lookup_delete_eq. }
  case_match; cbn; by rewrite H.
Qed.

(** ** Every step *)
Lemma grows_pending s m : grows s (set_pendingAuth m s).
Proof. by apply grows_same. Qed.

Lemma grows_reject c e p eap s : grows s (rejectSecondaryAuth c e p eap s).
Proof.
  unfold rejectSecondaryAuth. closed_step. apply grows_releaseIPv6, grows_releaseIPv4. closed_step.
  apply grows_drop, grows_pending.
Qed.
Lemma grows_complete c e p eap s : grows s (completeSecondaryAuth c e p eap s).
Proof.
  unfold completeSecondaryAuth. via grows (sessionPolicy_closed grows). destruct b as [policyID q].
  eapply (cl_trans s) in E; [|apply grows_pending].
  via grows grows_store. eapply cl_trans in E0; [|exact E]. closed_solve.
Qed.
Lemma grows_authDecided c e p eap s : grows s (authDecided c e p eap s).
Proof. unfold authDecided. repeat case_match; auto using grows_reject, grows_complete. Qed.

Lemma grows_allocate4 dnn t s s' r : allocateIPv4 dnn t s = Some (s', r) → grows s s'.
Proof.
  unfold allocateIPv4. destruct (pduTypeNeedsIPv4 t); [|intros [= <- _]; apply cl_refl].
  intros (p & _ & H)%bind_Some. apply bind_Some in H as ([p' a] & _ & H).
  destruct a; injection H as <- _; by apply grows_same.
Qed.
Lemma grows_allocate6 dnn t s s' r : allocateIPv6 dnn t s = Some (s', r) → grows s s'.
Proof.
  unfold allocateIPv6. destruct (pduTypeNeedsIPv6 t); [|intros [= <- _]; apply cl_refl].
  intros (p & _ & H)%bind_Some. apply bind_Some in H as ([p' a] & _ & H).
  destruct a; injection H as <- _; by apply grows_same.
Qed.
Lemma grows_createWith c e r req t ip v6 s : grows s (createWithAddresses c e r req t ip v6 s).1.
Proof.
  unfold createWithAddresses. set (s0 := set_ids _ _ s).
  assert (grows s s0) as G by (by apply grows_same).
  destruct (secondaryAuthRequired c (rqDnn r)); cbn [fst].
  - unfold startSecondaryAuth. closed_step. eapply cl_trans; [exact G|apply grows_pending].
  - via grows (sessionPolicy_closed grows). destruct b as [policyID q]. eapply (cl_trans s) in E; [|exact G].
    destruct (setupTransfer c e _ q t) as [n2|]; [|done].
    via grows grows_store. eapply cl_trans in E0; [|exact E]. cbn [fst]. closed_solve.
Qed.
Lemma grows_create c e r s : grows s (handleCreateSMContext c e r s).1.
Proof.
  unfold handleCreateSMContext. destruct (decodeRequest (rqN1 r)); try apply cl_refl.
  destruct (ipPools s !! _); [|apply cl_refl]. cbv zeta.
  destruct (allocateIPv4 _ _ s) as [[s4 [ip|]]|] eqn:E4; cbn [fst]; [|by eapply grows_allocate4|apply cl_refl].
  apply grows_allocate4 in E4.
  destruct (allocateIPv6 _ _ s4) as [[s6 [v6|]]|] eqn:E6; cbn [fst]; [..|done];
    apply grows_allocate6 in E6; eapply cl_trans in E6; [|exact E4| |exact E4].
  - eapply cl_trans; [exact E6|apply grows_createWith].
  - by apply grows_releaseIPv4.
Qed.
Lemma grows_update c e ref r s : grows s (handleUpdateSMContext c e ref r s).1.
Proof.
  destruct (update_closed grows c e ref r s) as [G|[_ ->]]; [done|].
  unfold handleSecondaryAuthComplete. destruct (decodeEAPMessageLVE _); try apply cl_refl.
  destruct (pendingAuth s !! ref); [|apply cl_refl]. cbn [fst].
  eapply cl_trans; [apply grows_pending|]. by apply grows_spawn.
Qed.
Lemma grows_releaseOne c e t s : grows s (releaseOne c e t s).
Proof.
  unfold releaseOne. destruct (heap s !! tSess t) as [v|]; [|apply cl_refl].
  via grows (amfRelease_closed grows). destruct b; [unfold startReleaseGuard; closed_solve|].
  eapply cl_trans; [exact E|apply grows_release].
Qed.
Lemma grows_guard c e t s : grows s (releaseGuardFires c e t s).
Proof. unfold releaseGuardFires. repeat case_match; try apply cl_refl. apply grows_release. Qed.

Lemma grows_task c e t s : grows s (runTask c e t s).
Proof.
  destruct (inPlace t) eqn:Hi; [by apply (task_closed grows)|].
  destruct t; try discriminate Hi; [apply grows_releaseOne|apply grows_guard|apply grows_authDecided].
Qed.

Lemma evolves_run c e n s : evolves s (runNth c e n s).
Proof.
  unfold runNth. destruct (tasks s !! n) as [t|]; [|done].
  etrans; [|apply gr_evolves, grows_task]. destruct (evolves_refl s) as [A B C D W]. split; try done; try by intros [W1 W2].
  intros l v H _ _. exact (delete_sub _ n _ H).
Qed.

(** All steps but the run of a goroutine keep every goroutine. *)
Lemma step_grows c s ev :
  (∃ e n, ev = ERun e n) ∨ grows s (step c s ev).
Proof.
  destruct ev as [e r|e ref r|e ref|e n|e|b rts|a psi supi]; cbn [step]; [right..|left|right|right|right].
  - apply grows_create.
  - apply grows_update.
  - unfold handleDeleteSMContext. case_match; cbn [fst]; [apply grows_release|closed_solve].
  - by exists e, n.
  - apply (supervise_closed grows).
  - apply (heartbeat_closed grows).
  - apply (dlData_closed grows).
Qed.
Lemma step_evolves c s ev : evolves s (step c s ev).
Proof. destruct (step_grows c s ev) as [(e & n & ->)|[G _]]; [apply evolves_run|done]. Qed.
Lemma run_evolves c s evs : evolves s (foldl (step c) s evs).
Proof.
  revert s; induction evs as [|ev r IH]; intros s; [done|]. cbn [foldl]. etrans; [apply step_evolves|apply IH].
Qed.

(** ** The marking of the sessions *)
Lemma mark_spec cutoff all stale L x out :
  NoDup L.*2 →
  let r := foldl (markOne cutoff all stale) (x, out) L in
  (∀ ref k v, (ref, k) ∈ L → heap x !! k = Some v → selected cutoff all v = true →
     heap r.1 !! k = Some (markReleasing stale v) ∧ mkTarget ref k ∈ r.2) ∧
  (∀ k v, heap x !! k = Some v → (k ∉ L.*2) ∨ selected cutoff all v = false → heap r.1 !! k = Some v) ∧
  (∀ t, t ∈ out → t ∈ r.2).
Proof.
  revert x out; induction L as [|[r0 k0] L IH]; intros x out; cbn [fmap list_fmap].
  { intros _. split; [|done]. by intros ref k v ?%not_elem_of_nil. }
  rewrite NoDup_cons. intros [Hk0 ND]. cbn [foldl markOne].
  set (acc := match heap x !! k0 with Some _ => _ | None => _ end).
  assert (∀ k v, heap x !! k = Some v → k ≠ k0 ∨ selected cutoff all v = false → heap acc.1 !! k = Some v) as Hother.
  { intros k v Hk Hs. unfold acc. destruct (heap x !! k0) as [v0|] eqn:E0; [|done].
    destruct (selected cutoff all v0) eqn:Es; [|done]. cbn.
    rewrite lookup_alter_ne; [done|]. intros ->. destruct Hs; congruence. }
  assert (∀ t, t ∈ out → t ∈ acc.2) as Hout.
  { intros t Ht. unfold acc. repeat case_match; cbn; try done. rewrite elem_of_app. by left. }
  assert (∀ v, heap x !! k0 = Some v → selected cutoff all v = true →
          heap acc.1 !! k0 = Some (markReleasing stale v) ∧ mkTarget r0 k0 ∈ acc.2) as Hthis.
  { intros v Hv Hs. unfold acc. rewrite Hv, Hs. cbn. rewrite lookup_alter_eq, Hv. split; [done|].
    rewrite elem_of_app, list_elem_of_singleton. by right. }
  destruct (IH acc.1 acc.2 ND) as (A & B & C). rewrite <- surjective_pairing in A, B, C. split; [|split].
  - intros ref k v [[= -> ->]|Hin]%elem_of_cons Hk Hs.
    + destruct (Hthis v Hk Hs) as [H1 H2]. split; [apply B; [done|by left]|by apply C].
    + eapply A; [exact Hin| |done]. apply Hother; [done|]. left. intros ->.
      apply Hk0. exact (list_elem_of_fmap_2 snd L _ Hin).
  - intros k v Hk Hs. apply B.
    + apply Hother; [done|]. destruct Hs as [Hs|Hs]; [left|by right]. intros ->. apply Hs. constructor.
    + destruct Hs as [Hs|Hs]; [left|by right]. intros H. apply Hs. by constructor.
  - intros t Ht. by apply C, Hout.
Qed.

Lemma spawn_all (targets : list releaseTarget) x :
  let s := foldl (λ s t, spawn (TReleaseOne t) s) x targets in
  heap s = heap x ∧ sessions s = sessions x ∧ association s = association x ∧
  tasks s = tasks x ++ (TReleaseOne <$> targets).
Proof.
  revert x; induction targets as [|t l IH]; intros x; cbn [foldl fmap list_fmap].
  { by rewrite app_nil_r. }
  destruct (IH (spawn (TReleaseOne t) x)) as (-> & -> & -> & ->). cbn. by rewrite <- app_assoc.
Qed.

Lemma mark_assoc cutoff all stale L x out :
  association (foldl (markOne cutoff all stale) (x, out) L).1 = association x ∧
  tasks (foldl (markOne cutoff all stale) (x, out) L).1 = tasks x ∧
  sessions (foldl (markOne cutoff all stale) (x, out) L).1 = sessions x.
Proof.
  revert x out; induction L as [|[ref k] L IH]; intros x out; [done|].
  cbn [foldl markOne]. repeat case_match; try apply IH. destruct (IH (upd k (markReleasing stale) x)
    (out ++ [mkTarget ref k])) as (-> & -> & ->). done.
Qed.

Lemma wf_nodup s : wf s → NoDup (map_to_list (sessions s)).*2.
Proof.
  intros [_ W]. apply NoDup_fmap_2_strong; [|apply NoDup_map_to_list].
  intros [r1 l1] [r2 l2] H1%elem_of_map_to_list H2%elem_of_map_to_list E. cbn in E. subst l2.
  by rewrite (W r1 r2 l1 H1 H2).
Qed.

(** A recovery marks exactly the sessions selected and starts a release for each. *)
Lemma beginRecovery_spec cause rts s :
  wf s → aState (association s) = ASSOCIATED →
  let restart := bool_decide (cause = PEER_RESTART) in
  let s' := (beginRecovery cause rts s).1 in
  aState (association s') = RECOVERING ∧ aRemoteRTS (association s') = None ∧ sessions s' = sessions s ∧
  (∀ ref l v, lookupSession ref s = Some (l, v) →
     if selected rts (negb restart) v
     then heap s' !! l = Some (markReleasing restart v) ∧ TReleaseOne (mkTarget ref l) ∈ tasks s'
     else heap s' !! l = Some v) ∧
  (∀ l, TDeletion l ∈ tasks s' ↔ TDeletion l ∈ tasks s).
Proof.
  intros W Ha restart. unfold beginRecovery. rewrite Ha, bool_decide_true by done. cbn [negb].
  set (s0 := set_association _ s). fold restart. unfold markSessionsReleasing. change (sessions s0) with (sessions s).
  destruct (mark_spec rts (negb restart) restart (map_to_list (sessions s)) s0 [] (wf_nodup s W)) as (A & B & _).
  destruct (mark_assoc rts (negb restart) restart (map_to_list (sessions s)) s0 []) as (C1 & C2 & C3).
  destruct (foldl _ (s0, []) _) as [s1 targets]. cbn [fst snd] in *.
  destruct (spawn_all targets s1) as (Hh & Hs & Has & Ht). rewrite Hh, Hs, Has, Ht, C1, C2, C3.
  split; [done|]. split; [done|]. split; [done|]. split.
  - intros ref l v Hl. apply bind_Some in Hl as (l' & Hr & Hl). apply bind_Some in Hl as (v' & Hv & [= -> ->]).
    case_match eqn:Es; [|apply B; [done|by right]].
    destruct (A ref l v) as [H1 H2]; [by apply elem_of_map_to_list|done|done|]. split; [done|].
    rewrite elem_of_app. right. by apply list_elem_of_fmap_2.
  - intros l. rewrite elem_of_app. split; [|by left]. intros [H|(t & H & _)%list_elem_of_fmap]; done.
Qed.

(** ** The release of a marked session *)
Definition releasing (t : releaseTarget) (s : Smf) : Prop :=
  ∃ v, heap s !! tSess t = Some v ∧ State v = RELEASING.
Definition releaseTask (t : releaseTarget) (x : Task) : Prop := x = TReleaseOne t ∨ x = TReleaseGuard t.

(** The object is RELEASING, and while it is in the table a goroutine will release it. *)
Definition due (t : releaseTarget) (s : Smf) : Prop :=
  releasing t s ∧ (sessions s !! tRef t = Some (tSess t) → ∃ x, releaseTask t x ∧ x ∈ tasks s).
Definition gone (t : releaseTarget) (s : Smf) : Prop :=
  is_Some (heap s !! tSess t) ∧ sessions s !! tRef t ≠ Some (tSess t).

Lemma releasing_some t s : releasing t s → is_Some (heap s !! tSess t).
Proof. intros (v & Hv & _). by eexists. Qed.
Lemma gone_evolves t s s' : evolves s s' → gone t s → gone t s'.
Proof.
  intros E [[v Hv] Hs]. destruct (evo_heap _ _ E _ _ Hv) as (v' & Hv' & _). split; [by eexists|].
  intros H. apply Hs. eapply evo_sessions; [exact E|done|by eexists].
Qed.
Lemma releasing_evolves t s s' : evolves s s' → releasing t s → releasing t s'.
Proof.
  intros E (v & Hv & Hr). destruct (evo_heap _ _ E _ _ Hv) as (v' & Hv' & _ & Hr' & _). exists v'. auto.
Qed.
Lemma due_grows t s s' : grows s s' → due t s → due t s'.
Proof.
  intros [E T] [Hr Hd]. split; [by eapply releasing_evolves|]. intros H.
  destruct Hd as (x & Hx & Ht); [|by exists x; auto].
  eapply evo_sessions; [exact E|done|by apply releasing_some].
Qed.

Lemma guard_gone c e t s : releasing t s → gone t (releaseGuardFires c e t s).
Proof.
  intros R. split.
  { eapply releasing_some, releasing_evolves; [apply gr_evolves, grows_guard|done]. }
  destruct R as (v & Hv & Hr). unfold releaseGuardFires. rewrite Hv.
  destruct (sessions s !! tRef t) as [l|] eqn:Es; [|by rewrite Es].
  rewrite (bool_decide_true (State v = RELEASING)), andb_true_r by done.
  destruct (Nat.eqb_spec l (tSess t)) as [->|N]; [by eapply release_gone|]. rewrite Es. congruence.
Qed.

Lemma releaseOne_due c e t s :
  0 < cReleaseGuard c → releasing t s →
  gone t (releaseOne c e t s) ∨
  releasing t (releaseOne c e t s) ∧ TReleaseGuard t ∈ tasks (releaseOne c e t s).
Proof.
  intros Hg R. pose proof (releasing_evolves t s _ (gr_evolves _ _ (grows_releaseOne c e t s)) R) as R'.
  pose proof (releasing_some _ _ R') as S'. destruct R as (v & Hv & Hr). revert R' S'. unfold releaseOne. rewrite Hv.
  destruct (requestAMFRelease c e (SUPI (info v)) (PDUSessionID (info v)) s) as [x b] eqn:E.
  eapply (closed_via grows) in E; [|apply (amfRelease_closed grows)].
  destruct (evo_heap _ _ (gr_evolves _ _ E) _ _ Hv) as (w & Hw & _). destruct b; intros R' S'.
  - right. split; [done|]. unfold startReleaseGuard. rewrite (proj2 (Z.leb_gt _ _) Hg). cbn.
    rewrite elem_of_app, list_elem_of_singleton. by right.
  - left. split; [done|]. by eapply release_gone.
Qed.

Lemma elem_delete_ne {B} (l : list B) n x y : l !! n = Some y → x ≠ y → x ∈ l → x ∈ delete n l.
Proof.
  intros Hn Ne. rewrite <- (take_drop_middle l n y Hn) at 1. rewrite delete_take_drop.
  rewrite !elem_of_app, elem_of_cons. intuition.
Qed.

#[export] Instance releaseTask_dec t (x : Task) : Decision (releaseTask t x).
Proof.
  destruct t as [r l]. destruct x as [| | | |t'|t'| |]; try (right; intros [H|H]; discriminate H).
  all: destruct t' as [r' l']; destruct (decide (r' = r)) as [Er|N], (decide (l' = l)) as [El|M];
    [left; subst; unfold releaseTask; auto|right; intros [H|H]; congruence..].
Defined.

(** Running a goroutine: the release itself, or any other. *)
Lemma run_due c e n t s :
  0 < cReleaseGuard c → due t s → gone t (runNth c e n s) ∨ due t (runNth c e n s).
Proof.
  intros Hg [R D]. unfold runNth. destruct (tasks s !! n) as [x|] eqn:Hx; [|by right].
  destruct (decide (releaseTask t x)) as [Hr|Hr].
  - assert (releasing t (set_tasks (delete n (tasks s)) s)) as R1 by exact R.
    destruct Hr as [->| ->]; cbn [runTask]; [|left; by apply guard_gone].
    destruct (releaseOne_due c e t _ Hg R1) as [G|[R2 T]]; [by left|right]. split; [done|].
    intros _. exists (TReleaseGuard t). split; [by right|done].
  - right. eapply due_grows; [apply grows_task|]. split; [exact R|]. intros (y & Hy & Ht)%D.
    exists y. split; [done|]. apply (elem_delete_ne _ _ _ _ Hx); [congruence|done].
Qed.

Lemma step_due c ev t s :
  0 < cReleaseGuard c → due t s → gone t (step c s ev) ∨ due t (step c s ev).
Proof.
  intros Hg D. destruct (step_grows c s ev) as [(e & n & ->)|G]; [by apply run_due|].
  right. by eapply due_grows.
Qed.
Lemma steps_due c evs t s :
  0 < cReleaseGuard c → gone t s ∨ due t s →
  gone t (foldl (step c) s evs) ∨ due t (foldl (step c) s evs).
Proof.
  intros Hg. revert s; induction evs as [|ev r IH]; intros s [G|D]; cbn [foldl]; [by left|by right|..].
  - left. eapply gone_evolves; [|exact G]. etrans; [apply step_evolves|apply run_evolves].
  - by apply IH, step_due.
Qed.

(** Two runs are enough: the worker, and the guard timer if the AMF accepted. *)
Lemma two_runs c t s e1 e2 :
  0 < cReleaseGuard c → gone t s ∨ due t s →
  ∃ n m, gone t (foldl (step c) s [ERun e1 n; ERun e2 m]).
Proof.
  intros Hg H. assert (∀ x e, gone t x → ∃ m, gone t (runNth c e m x)) as K.
  { intros x e G. exists O. eapply gone_evolves; [apply evolves_run|done]. }
  assert (∀ x e y, releasing t x → releaseTask t y → y ∈ tasks x →
    ∃ n, gone t (runNth c e n x) ∨ releasing t (runNth c e n x) ∧ TReleaseGuard t ∈ tasks (runNth c e n x) ∧ y ≠ TReleaseGuard t) as L.
  { intros x e y R Hy (n & Hn)%list_elem_of_lookup. exists n. unfold runNth. rewrite Hn.
    assert (releasing t (set_tasks (delete n (tasks x)) x)) as R1 by exact R.
    destruct Hy as [->| ->]; cbn [runTask]; [|left; by apply guard_gone].
    destruct (releaseOne_due c e t _ Hg R1) as [G|[R2 T]]; [by left|by right]. }
  assert (∃ n, gone t (runNth c e1 n s) ∨ releasing t (runNth c e1 n s) ∧ TReleaseGuard t ∈ tasks (runNth c e1 n s)) as (n & Hn).
  { destruct H as [G|[R D]]; [destruct (K s e1 G) as [m Gm]; exists m; by left|].
    destruct (decide (sessions s !! tRef t = Some (tSess t))) as [Es|Es].
    - destruct (D Es) as (y & Hy & Ht). destruct (L s e1 y R Hy Ht) as (n & [G|(R2 & T & _)]); exists n; auto.
    - assert (gone t s) as G by (split; [by apply releasing_some|done]).
      destruct (K s e1 G) as [m Gm]. exists m. by left. }
  exists n. cbn [foldl step]. destruct Hn as [G|[R T]]; [by apply K|].
  destruct (L _ e2 _ R (or_intror eq_refl) T) as (m & [G|(_ & _ & N)]); [by exists m|done].
Qed.

Lemma New_wf c e store s : New c e store = Some s → wf s.
Proof.
  unfold New. intros (pools & _ & H)%bind_Some. apply bind_Some in H as (pools' & _ & H).
  apply bind_Some in H as (pools6 & _ & H). injection H as <-.
  apply (evo_wf _ _ (gr_evolves _ _ (loadFromStore_closed grows e _))).
  split; cbn; [intros ref l|intros r1 r2 l]; by rewrite lookup_empty.
Qed.

(** Release is final, with each handler and its PFCP transaction as one step: a session
    object that is RELEASING keeps its identity and stays RELEASING, and no N4
    modification (handover, deactivation or QoS) starts for it. *)
Lemma releasing_is_final c s evs l v :
  heap s !! l = Some v → State v = RELEASING →
  let s' := foldl (step c) s evs in
  (∃ v', heap s' !! l = Some v' ∧ info v' = info v ∧ State v' = RELEASING) ∧
  ∃ cs, calls s' = calls s ++ cs ∧
    ((∀ l' v', heap s' !! l' = Some v' → SEID (info v') = SEID (info v) → l' = l) →
     ∀ x, x ∈ cs → modSEID x ≠ Some (SEID (info v))).
Proof.
  intros Hl Hr s'. destruct (run_evolves c s evs) as [H _ (cs & E & C) _ _]. split.
  - destruct (H _ _ Hl) as (v' & Hv' & Hi & Hr' & _). exists v'. auto.
  - exists cs. split; [exact E|]. intros U x Hx Hm. destruct (C _ _ Hx Hm) as (k & w & Hk & Hw & Hn).
    assert (k = l) as -> by (eapply U; [exact Hk|done]). by apply (Hn v).
Qed.

(** C30: recovery from a restart of the UPF.  When a heartbeat carries a later Recovery
    Time Stamp, the association becomes RECOVERING; a session established since is
    left alone; one established before becomes RELEASING with a stale N4 session.  From
    then on, whatever happens, no deletion of its N4 session is started, its reference
    remains in the table only while a worker or a guard timer for it exists, and running
    these two, whatever the peers answer, removes it for good. *)
Theorem restart_releases_sessions c e store s0 evs0 old peer ref l v :
  New c e store = Some s0 → 0 < cReleaseGuard c →
  let s := foldl (step c) s0 evs0 in
  aState (association s) = ASSOCIATED → aRemoteRTS (association s) = Some old → old < peer →
  lookupSession ref s = Some (l, v) → State v ≠ RELEASING →
  let s1 := step c s (EHeartbeat true (Some peer)) in
  aState (association s1) = RECOVERING ∧
  (peer <= establishedAt v → heap s1 !! l = Some v) ∧
  (establishedAt v < peer →
   heap s1 !! l = Some (markReleasing true v) ∧
   ∀ evs, let s2 := foldl (step c) s1 evs in
     (TDeletion l ∈ tasks s2 → TDeletion l ∈ tasks s) ∧
     (sessions s2 !! ref = Some l →
      TReleaseOne (mkTarget ref l) ∈ tasks s2 ∨ TReleaseGuard (mkTarget ref l) ∈ tasks s2) ∧
     ∀ e1 e2, ∃ n m, ∀ evs',
       sessions (foldl (step c) (foldl (step c) s2 [ERun e1 n; ERun e2 m]) evs') !! ref ≠ Some l).
Proof.
  intros Hn Hg s Ha Ho Hp Hl Hv s1.
  assert (wf s) as W by (apply (evo_wf _ _ (run_evolves c s0 evs0)); by eapply New_wf).
  assert (s1 = (beginRecovery PEER_RESTART peer s).1) as E1.
  { unfold s1. cbn [step handlePFCPHeartbeatRequest]. unfold observePeerRTS. rewrite Ha, Ho.
    rewrite bool_decide_true by done. cbn [negb].
    by rewrite (proj2 (Z.eqb_neq old peer)), (proj2 (Z.ltb_ge peer old)) by lia. }
  destruct (beginRecovery_spec PEER_RESTART peer s W Ha) as (A1 & _ & A3 & A4 & A5).
  rewrite <- E1 in A1, A3, A4, A5. rewrite bool_decide_true in A4 by done. cbn [negb] in A4.
  specialize (A4 ref l v Hl). unfold selected in A4. rewrite bool_decide_false in A4 by done. cbn [negb andb orb] in A4.
  split; [exact A1|]. split.
  - intros H. by rewrite (proj2 (Z.ltb_ge (establishedAt v) peer)) in A4.
  - intros H. rewrite (proj2 (Z.ltb_lt (establishedAt v) peer) H) in A4. destruct A4 as [H1 T1].
    split; [exact H1|]. intros evs s2. set (t := mkTarget ref l).
    assert (due t s1) as D1.
    { split; [by eexists|]. intros _. exists (TReleaseOne t). split; [by left|exact T1]. }
    pose proof (steps_due c evs t s1 Hg (or_intror D1)) as D2. fold s2 in D2. split; [|split].
    + intros Ht. apply A5. eapply (evo_deletion _ _ (run_evolves c s1 evs)); [exact Ht|exact H1|done].
    + intros Hs. destruct D2 as [[_ G]|[_ D2]]; [by destruct G|]. destruct (D2 Hs) as (x & [->| ->] & Hx); auto.
    + intros e1 e2. destruct (two_runs c t s2 e1 e2 Hg D2) as (n & m & G). exists n, m. intros evs'.
      apply (gone_evolves t _ _ (run_evolves c _ evs') G).
Qed.

(** *** A session, an association, and a restart *)
Definition upf0 (req : N4Request) (n : nat) : list (option PfcpMsg) :=
  match req with
  | N4AssociationSetup seq _ => [Some (mkPfcpMsg MsgTypeAssociationSetupResponse seq (Some 1) (Some 40) "upf")]
  | _ => []
  end.
Definition env1 : Env :=
  mkEnv 100 "" aper0 (λ _ _ _, NoReply) (λ _, NoReply) (λ _ _, NoReply) (Some 204) true true true upf0 1 (λ _ _, None).
Definition before0 : list Event :=
  [ECreate (env0 "a" aper0 None) (create0 "imsi-1"); ESupervise env1; EHeartbeat true (Some 40)].
Definition associated0 : Smf := foldl (step (config0 false)) (start0 false) before0.
Definition restarted0 : Smf := step (config0 false) associated0 (EHeartbeat true (Some 200)).
Definition session0 : nat * Session :=
  default (O, mkSession (mkSessionInfo "" 0 "" None 0 0 (mkSliceID 0 "") "" 0 0 NoCIDR false) (policyFallback None)
                ACTIVE None false noHandover) (lookupSession "a" associated0).

Lemma restart_releases_sessions_witness :
  ∃ n m, sessions (foldl (step (config0 false)) (foldl (step (config0 false))
    (foldl (step (config0 false)) restarted0 []) [ERun env1 n; ERun env1 m]) []) !! "a"%string ≠ Some session0.1.
Proof.
  destruct (restart_releases_sessions (config0 false) (env0 "" aper0 None) (Some ∅) (start0 false) before0 40 200
              "a" session0.1 session0.2) as (_ & _ & H).
  - vm_compute. reflexivity.
  - vm_compute. reflexivity.
  - vm_compute. reflexivity.
  - vm_compute. reflexivity.
  - lia.
  - vm_compute. reflexivity.
  - vm_compute. discriminate.
  - assert (establishedAt session0.2 < 200) as Hlt by (vm_compute; reflexivity).
    destruct (H Hlt) as [_ H2]. destruct (H2 []) as (_ & _ & H3). destruct (H3 env1 env1) as (n & m & H4).
    exists n, m. apply (H4 []).
Defined.

Definition deactivate0 : UpdateReq := mkUpdateReq "" "" "DEACTIVATED" false 0 0 0 1 NoB64 NoB64.

(** *** Behaviours at the edges of the accounting *)
(** A second AUTHENTICATION COMPLETE while the DN-AAA is asked starts a second exchange;
    when both are rejected the address is freed twice, the second time under its new
    holder: two contexts hold it. *)
Lemma second_complete_frees_twice :
  let evs := [ECreate (env0 "a" aper0 None) (create0 "imsi-1");
              EUpdate (env0 "" aper0 None) "a" complete0; EUpdate (env0 "" aper0 None) "a" complete0;
              ERun (env0 "" aper0 None) 0;
              ECreate (env0 "b" aper0 None) (create0 "imsi-2");
              ERun (env0 "" aper0 None) 0;
              ECreate (env0 "c" aper0 None) (create0 "imsi-3")] in
  let s := foldl (step (config0 true)) (start0 true) evs in
  holds4 s "b" = Some (internet, [10; 60; 0; 254]) ∧ holds4 s "c" = Some (internet, [10; 60; 0; 254]).
Proof. split; vm_compute; reflexivity. Qed.

(** The deletion of a context whose secondary authentication is pending answers 204 and
    leaves the pending authentication, with its address. *)
Lemma delete_keeps_pending c e ref p s :
  sessions s !! ref = None → pendingAuth s !! ref = Some p →
  (handleDeleteSMContext c e ref s).2 = Status 204 ∧
  pendingAuth (handleDeleteSMContext c e ref s).1 !! ref = Some p ∧
  ipPools (handleDeleteSMContext c e ref s).1 = ipPools s.
Proof.
  intros Hs Hp. unfold handleDeleteSMContext. rewrite Hs. cbn [fst snd].
  split; [done|]. unfold deleteSession. repeat case_match; done.
Qed.

(** A Setup Request Transfer that does not encode loses the address: after two such
    creations the pool of two addresses is empty and no context holds any. *)
Lemma failed_encoding_leaks :
  let s := foldl (step (config0 false)) (start0 false)
             [ECreate (env0 "a" aperFails None) (create0 "imsi-1"); ECreate (env0 "b" aperFails None) (create0 "imsi-2")] in
  (handleCreateSMContext (config0 false) (env0 "c" aper0 None) (create0 "imsi-3") s).2
  = Problem 500 causeSystemFailure ∧ sessions s = ∅ ∧ pendingAuth s = ∅.
Proof. split; [|split]; vm_compute; reflexivity. Qed.

(** The goroutines of an establishment and of a deletion are not ordered: the N4
    session of a released context can be established after it has been deleted. *)
Lemma late_establishment :
  calls (foldl (step (config0 false)) (start0 false)
           [ECreate (env0 "a" aper0 None) (create0 "imsi-1"); EDelete (env0 "" aper0 None) "a";
            ERun (env0 "" aper0 None) 1; ERun (env0 "" aper0 None) 0])
  = [CN4 (N4Deletion 1 1);
     CN4 (N4Establishment 2 1 1 (2, Some [10; 60; 0; 254], None) internet
            [mkQerIE 1 None (Some (100000, 100000)); mkQerIE 2 (Some 1) None])].
Proof. vm_compute. reflexivity. Qed.
