(* ===== verification/SmfTyping.v ===== *)
(** * Types of the SM contexts

    Every session and every pending secondary authentication is well typed, over every
    interleaving of events: the session type is one of the three the SMF grants, the
    addresses are those the type calls for, the identifiers are at their width.  So the
    UE IP Address element of the N4 establishment can always be built.
*)
From S2P Require Import Prelude NasPduSession NasEap CryptoEap SmfPools SmfQos SmfState SmfSession SmfNode SmfClosed SmfAccount SmfRecovery.
Open Scope Z_scope.

(** ** Well-typed contexts *)
(** The values shared by a session and a pending authentication. *)
Record context_ok (t psi teid seid : Z) (ip : option IP) (prefix : option IPNet) : Prop := {
  ok_type : t = PDUSessionTypeIPv4 ∨ t = PDUSessionTypeIPv6 ∨ t = PDUSessionTypeIPv4v6;
  ok_ip : bool_decide (is_Some ip) = pduTypeNeedsIPv4 t;
  ok_prefix : bool_decide (is_Some prefix) = pduTypeNeedsIPv6 t;
  ok_psi : 0 <= psi < 256;
  ok_teid : 0 <= teid < 4294967296;
  ok_seid : 0 <= seid < 18446744073709551616
}.
Definition info_ok (i : SessionInfo) : Prop :=
  context_ok (PDUSessionType i) (PDUSessionID i) (ULTEID i) (SEID i) (UEIP i) (textPrefix (UEIPv6Prefix i)).
Definition pending_ok (p : pendingSecondaryAuth) : Prop :=
  context_ok (paGrantedType p) (paPSI p) (paULTEID p) (paSEID p) (paIPv4 p) (paV6Prefix p).

Record typed (s : Smf) : Prop := {
  ty_heap l v : heap s !! l = Some v → info_ok (info v);
  ty_pending ref p : pendingAuth s !! ref = Some p → pending_ok p;
  ty_tasks p eap : TAuthAAA p eap ∈ tasks s → pending_ok p
}.

(** The UE IP Address element: flags 2, 1 or 3 with the addresses they announce. *)
Lemma buildUEIPAddressIE_ok i : info_ok i →
  ∃ ip4 ip6, buildUEIPAddressIE i =
    Some ((if bool_decide (is_Some ip4) then 2 else 0) + (if bool_decide (is_Some ip6) then 1 else 0), ip4, ip6) ∧
    bool_decide (is_Some ip4) = pduTypeNeedsIPv4 (PDUSessionType i) ∧
    bool_decide (is_Some ip6) = pduTypeNeedsIPv6 (PDUSessionType i).
Proof.
  intros [T I P _ _ _]. unfold buildUEIPAddressIE.
  assert (pduTypeNeedsIPv6 (PDUSessionType i) = true → ∃ a, ueIPv6Address (UEIPv6Prefix i) = Some a) as A.
  { intros H. rewrite H in P. destruct (UEIPv6Prefix i) as [|[[? n]|]]; try discriminate P. by eexists. }
  destruct T as [T|[T|T]]; rewrite T in *; cbn in *.
  - exists (UEIP i), None. by rewrite I.
  - destruct (A eq_refl) as [a ->]. by exists None, (Some a).
  - destruct (A eq_refl) as [a ->]. exists (UEIP i), (Some a). by rewrite I.
Qed.

(** ** Steps *)
Lemma typed_frame s s' : frame s s' → typed s → typed s'.
Proof.
  intros [F1 F2 F3 F4 F5 F6 F7 (ts & F8 & F9)] [H P T]. split.
  - intros l v Hl. specialize (F7 l). rewrite Hl in F7. destruct (heap s !! l) as [w|] eqn:E; [|done].
    cbn in F7. injection F7 as ->. by eapply H.
  - intros ref p. rewrite F4. apply P.
  - intros p eap. rewrite F8, elem_of_app. intros [Hp|Hp]; [by eapply T|].
    rewrite Forall_forall in F9. by specialize (F9 _ Hp).
Qed.

(** Fewer contexts or goroutines, and other fields that change. *)
Lemma typed_sub s s' :
  heap s' = heap s → pendingAuth s' ⊆ pendingAuth s → (∀ t, t ∈ tasks s' → t ∈ tasks s) → typed s → typed s'.
Proof.
  intros E S T [H P A]. split.
  - intros l v. rewrite E. apply H.
  - intros ref p Hp. eapply P, lookup_weaken; [exact Hp|done].
  - intros p eap Hp. by eapply A, T.
Qed.
Lemma typed_fields s s' :
  heap s' = heap s → pendingAuth s' = pendingAuth s → tasks s' = tasks s → typed s → typed s'.
Proof. intros E1 E2 E3. apply typed_sub; [done|by rewrite E2|by rewrite E3]. Qed.
Lemma typed_pend ref p s : pending_ok p → typed s → typed (set_pendingAuth (<[ref := p]> (pendingAuth s)) s).
Proof.
  intros Hp [H P T]. split; try done. intros r q. cbn. rewrite lookup_insert_Some.
  intros [[_ <-]|[_ Hq]]; [done|by eapply P].
Qed.
Lemma typed_store e ref i q s : info_ok i → typed s → typed (storeSession e ref i q s).1.
Proof.
  intros Hi [H P T]. unfold storeSession. cbn [fst].
  eapply typed_frame; [apply after_persist; [apply _|apply cl_refl]|]. split; try done.
  intros l v. cbn. rewrite lookup_insert_Some. intros [[_ <-]|[_ Hl]]; [done|by eapply H].
Qed.

Lemma typed_release c e ref l n4 s : typed s → typed (releaseSessionLocal c e ref l n4 s).1.
Proof.
  intros Ty. unfold releaseSessionLocal. destruct (sessions s !! ref) as [l'|]; [|done].
  destruct (heap s !! l) as [v|]; [|done]. destruct (negb (l' =? l)%nat); [done|]. cbn [fst].
  set (x := set_sessions _ _).
  assert (typed x) as Tx by (unfold x; rewrite releaseIPv6_eq, releaseIPv4_eq; by apply (typed_fields s)).
  assert (frame x (deleteSMPolicy c (SmPolicyID (info v)) (deleteSession e ref x))) as F by closed_solve.
  case_match; eapply typed_frame; [by apply frame_started|done|exact F|done].
Qed.

Lemma typed_reject c e p eap s : typed s → typed (rejectSecondaryAuth c e p eap s).
Proof.
  intros Ty. unfold rejectSecondaryAuth. eapply typed_frame; [apply after_push; [apply _|apply cl_refl]|].
  rewrite releaseIPv6_eq, releaseIPv4_eq.
  set (x := set_sessions (delete (paRef p) _) _).
  assert (typed x) as Tx by (apply (typed_sub s); [done|apply delete_subseteq|done|done]).
  apply (typed_fields (deleteSession e (paRef p) x)); try done.
  eapply typed_frame; [|exact Tx]. closed_solve.
Qed.

Lemma typed_complete c e p eap s : pending_ok p → typed s → typed (completeSecondaryAuth c e p eap s).
Proof.
  intros Hp Ty. unfold completeSecondaryAuth.
  assert (typed (deletePendingAuth (paRef p) s)) as T0
    by (apply (typed_sub s); [done|apply delete_subseteq|done|done]).
  via frame (sessionPolicy_closed frame). destruct b as [policyID q]. apply (typed_frame _ _ E) in T0.
  match goal with |- context [storeSession e ?r ?i q x] =>
    assert (info_ok i) as Hi by (unfold info_ok; cbn; by rewrite textPrefix_prefixText);
    apply (typed_store e r i q x Hi) in T0; destruct (storeSession e r i q x) as [y l] end.
  eapply typed_frame; [|exact T0]. cbn [fst]. closed_solve.
Qed.

Lemma typed_allocate4 dnn t s s' r :
  allocateIPv4 dnn t s = Some (s', r) → typed s →
  typed s' ∧ match r with Some ip => bool_decide (is_Some ip) = pduTypeNeedsIPv4 t | None => True end.
Proof.
  unfold allocateIPv4. intros H Ty. destruct (pduTypeNeedsIPv4 t); [|by injection H as <- <-].
  apply bind_Some in H as (p & _ & H). apply bind_Some in H as ([p' a] & _ & H).
  destruct a; injection H as <- <-; by split; [apply (typed_fields s)|].
Qed.
Lemma typed_allocate6 dnn t s s' r :
  allocateIPv6 dnn t s = Some (s', r) → typed s →
  typed s' ∧ match r with Some v6 => bool_decide (is_Some v6) = pduTypeNeedsIPv6 t | None => True end.
Proof.
  unfold allocateIPv6. intros H Ty. destruct (pduTypeNeedsIPv6 t); [|by injection H as <- <-].
  apply bind_Some in H as (p & _ & H). apply bind_Some in H as ([p' a] & _ & H).
  destruct a; injection H as <- <-; by split; [apply (typed_fields s)|].
Qed.

Lemma typed_createWith c e r req t ip v6 s :
  t = PDUSessionTypeIPv4 ∨ t = PDUSessionTypeIPv6 ∨ t = PDUSessionTypeIPv4v6 →
  bool_decide (is_Some ip) = pduTypeNeedsIPv4 t → bool_decide (is_Some v6) = pduTypeNeedsIPv6 t →
  typed s → typed (createWithAddresses c e r req t ip v6 s).1.
Proof.
  intros Ht H4 H6 Ty. unfold createWithAddresses. set (s0 := set_ids _ _ s).
  assert (typed s0) as T0 by (by apply (typed_fields s)).
  assert (context_ok t (u8 (rqPsi r)) (u32 (nextTEID s + 1)) (u64 (nextSEID s + 1)) ip (fst <$> v6)) as Hok.
  { split; try done; [|apply Z.mod_pos_bound; lia..]. rewrite <- H6. by destruct v6. }
  destruct (secondaryAuthRequired c (rqDnn r)); cbn [fst].
  - unfold startSecondaryAuth. eapply typed_frame; [apply after_push; [apply _|apply cl_refl]|].
    by apply typed_pend.
  - via frame (sessionPolicy_closed frame). destruct b as [policyID q]. apply (typed_frame _ _ E) in T0.
    destruct (setupTransfer c e _ q t) as [n2|]; [|done].
    match goal with |- context [storeSession e ?k ?i q x] =>
      assert (info_ok i) as Hi by (unfold info_ok; cbn; by rewrite textPrefix_prefixText);
      apply (typed_store e k i q x Hi) in T0; destruct (storeSession e k i q x) as [y l] end.
    eapply typed_frame; [|exact T0]. cbn [fst]. closed_solve.
Qed.

Lemma typed_create c e r s : typed s → typed (handleCreateSMContext c e r s).1.
Proof.
  intros Ty. unfold handleCreateSMContext. destruct (decodeRequest (rqN1 r)) as [req| | |]; try done.
  destruct (ipPools s !! _); [|done]. cbv zeta. set (t := selectPDUSessionType _ _).
  assert (t = PDUSessionTypeIPv4 ∨ t = PDUSessionTypeIPv6 ∨ t = PDUSessionTypeIPv4v6) as Ht
    by (unfold t; edestruct selectPDUSessionType_cases as [E|(_ & [E|E])]; rewrite E; auto).
  clearbody t. destruct (allocateIPv4 (rqDnn r) t s) as [[s4 r4]|] eqn:E4; [|done].
  destruct (typed_allocate4 _ _ _ _ _ E4 Ty) as [T4 H4]. destruct r4 as [ip|]; [|done].
  destruct (allocateIPv6 (rqDnn r) t s4) as [[s6 r6]|] eqn:E6; [|done].
  destruct (typed_allocate6 _ _ _ _ _ E6 T4) as [T6 H6]. destruct r6 as [v6|]; [by apply typed_createWith|].
  cbn [fst]. rewrite releaseIPv4_eq. by apply (typed_fields s6).
Qed.

Lemma typed_update c e ref r s : typed s → typed (handleUpdateSMContext c e ref r s).1.
Proof.
  intros Ty. destruct (update_closed frame c e ref r s) as [F|[_ ->]]; [by eapply typed_frame|].
  unfold handleSecondaryAuthComplete. destruct (decodeEAPMessageLVE _); try done.
  destruct (pendingAuth s !! ref) as [p|] eqn:Hp; [|done]. cbn [fst].
  assert (pending_ok (set_paState AWAITING_AAA p)) as Hok by exact (ty_pending _ Ty _ _ Hp).
  apply (typed_pend ref _ s Hok) in Ty as [H P T]. split; try done.
  intros q eap. cbn. rewrite elem_of_app, list_elem_of_singleton. intros [Hq|[= -> _]]; [|done].
  by apply (T q eap).
Qed.

Lemma typed_run c e n s : typed s → typed (runNth c e n s).
Proof.
  intros Ty. unfold runNth. destruct (tasks s !! n) as [t|] eqn:Ht; [|done].
  assert (typed (set_tasks (delete n (tasks s)) s)) as T0
    by (apply (typed_sub s); [done|done|intros x; apply delete_sub|done]).
  destruct (inPlace t) eqn:Hi; [eapply typed_frame; [by apply (task_closed frame)|done]|].
  destruct t; try discriminate Hi; cbn [runTask].
  - unfold releaseOne. case_match; [|done]. via frame (amfRelease_closed frame).
    apply (typed_frame _ _ E) in T0. destruct b; [|by apply typed_release].
    eapply typed_frame; [|exact T0]. unfold startReleaseGuard. closed_solve.
  - unfold releaseGuardFires. repeat case_match; try done. by apply typed_release.
  - assert (pending_ok p) as Hp by (eapply (ty_tasks _ Ty p eapResp), list_elem_of_lookup_2, Ht).
    unfold authDecided. repeat case_match; auto using typed_reject, typed_complete.
Qed.

Lemma typed_step c s ev : typed s → typed (step c s ev).
Proof.
  intros Ty. destruct ev; cbn [step].
  - by apply typed_create.
  - by apply typed_update.
  - unfold handleDeleteSMContext. case_match; cbn [fst]; [by apply typed_release|].
    eapply typed_frame; [|exact Ty]. closed_solve.
  - by apply typed_run.
  - eapply typed_frame; [apply (supervise_closed frame)|done].
  - eapply typed_frame; [apply (heartbeat_closed frame)|done].
  - eapply typed_frame; [apply (dlData_closed frame)|done].
Qed.

Lemma typed_New c e store s : New c e store = Some s → typed s.
Proof.
  unfold New. intros (pools & _ & H)%bind_Some. apply bind_Some in H as (pools' & _ & H).
  apply bind_Some in H as (pools6 & _ & H). injection H as <-.
  eapply typed_frame; [apply (loadFromStore_closed frame)|].
  split; cbn; [intros l v|intros ref p|intros p eap]; by rewrite ?lookup_empty, ?elem_of_nil.
Qed.

(** C33: typing of the contexts.  From start-up and over every sequence of events, each
    session has one of the three session types, an IPv4 address and an IPv6 prefix
    exactly when its type calls for them, identifiers at their width; and the UE IP
    Address element of its N4 establishment is always built, with the flags of the
    addresses it carries. *)
Theorem contexts_typed c e store s0 evs ref l v :
  New c e store = Some s0 →
  lookupSession ref (foldl (step c) s0 evs) = Some (l, v) →
  let i := info v in
  context_ok (PDUSessionType i) (PDUSessionID i) (ULTEID i) (SEID i) (UEIP i) (textPrefix (UEIPv6Prefix i)) ∧
  ∃ ip4 ip6, buildUEIPAddressIE i =
    Some ((if bool_decide (is_Some ip4) then 2 else 0) + (if bool_decide (is_Some ip6) then 1 else 0), ip4, ip6) ∧
    bool_decide (is_Some ip4) = pduTypeNeedsIPv4 (PDUSessionType i) ∧
    bool_decide (is_Some ip6) = pduTypeNeedsIPv6 (PDUSessionType i).
Proof.
  intros Hn Hl. assert (typed (foldl (step c) s0 evs)) as Ty.
  { apply typed_New in Hn. clear Hl. revert s0 Hn; induction evs as [|ev r IH]; intros s0 Hn; [done|].
    by apply IH, typed_step. }
  apply bind_Some in Hl as (l' & _ & Hl). apply bind_Some in Hl as (v' & Hv & [= -> ->]).
  pose proof (ty_heap _ Ty _ _ Hv) as Hi. split; [exact Hi|by apply buildUEIPAddressIE_ok].
Qed.

(** *** A dual-stack session *)
Definition config6 : Config :=
  mkConfig [mkDNNConfig internet (Some (netIP net30, net30)) (CIDR (Some (netIP net48, net48))) false false []]
    (Some (netIP net30, net30)) (Some [10; 0; 0; 1]) "" "" "amf" "amf" 3 30 50.
(** A PDU Session Establishment Request for IPv4v6: header, integrity rates, type. *)
Definition create6 : CreateReq :=
  mkCreateReq "imsi-1" internet 1 [0x2E; 1; 7; 0xC1; 0xFF; 0xFF; 0x93] None.
Definition start6 : Smf :=
  default (start0 false) (New config6 (env0 "" aper0 None) (Some ∅)).
Definition session6 : nat * Session :=
  default session0 (lookupSession "a" (step config6 start6 (ECreate (env0 "a" aper0 None) create6))).

Lemma contexts_typed_witness :
  PDUSessionType (info session6.2) = PDUSessionTypeIPv4v6 ∧
  ∃ ip4 ip6, buildUEIPAddressIE (info session6.2) =
    Some ((if bool_decide (is_Some ip4) then 2 else 0) + (if bool_decide (is_Some ip6) then 1 else 0), ip4, ip6).
Proof.
  split; [vm_compute; reflexivity|].
  destruct (contexts_typed config6 (env0 "" aper0 None) (Some ∅) start6
              [ECreate (env0 "a" aper0 None) create6] "a" session6.1 session6.2) as (_ & ip4 & ip6 & H & _).
  - vm_compute. reflexivity.
  - vm_compute. reflexivity.
  - exists ip4, ip6. exact H.
Defined.
