(* ===== verification/NrfRegistry.v ===== *)
(** * The NRF: registry of network functions and status subscriptions

    [nf/nrf/internal/registry] ([registry.go], [redis.go], [subscriptions.go]) and the
    handlers of [nf/nrf/internal/server/server.go].

    The interface [Registry] of the source is the class [Registry]; the in-memory and
    the Redis implementation are its instances.  Every operation takes the time at
    which it runs, in nanoseconds.  The eviction goroutine of the in-memory registry is
    the operation [reg_tick]; Redis expires keys by itself.  The commands of Redis that
    are used are the class [RedisClient], with their documented behaviour as
    [RedisLaws].  A stored JSON text is represented by the profile it encodes; logging,
    metrics and the HTTP layer are left out.
*)
From stdpp Require Import sorting.
From S2P Require Import Prelude.
Open Scope Z_scope.

(** ** Profiles *)
Record PLMN := mkPLMN { MCC : string; MNC : string }.
Record SNSSAI := mkSNSSAI { SST : Z; SD : string }.
Record NFServiceVersion := mkVersion { APIVersionInURI : string; APIFullVersion : string }.
Record IPEndpoint := mkEndpoint { IPv4Address : string; Port : Z }.
Record NFService := mkNFService {
  ServiceInstanceID : string; ServiceName : string; Versions : list NFServiceVersion; Scheme : string;
  NFServiceStatus : string; svcFQDN : string; IPEndpoints : list IPEndpoint; APIPrefix : string
}.
Record NFProfile := mkNFProfile {
  NFInstanceID : string; NFType : string; NFStatus : string; HeartBeatTimer : Z;
  PLMNList : list PLMN; SNSSAIs : list SNSSAI; NSIList : list string; FQDN : string;
  IPv4Addresses : list string; NFServices : list NFService; DNNList : list string;
  Capacity : Z; Priority : Z;
  registeredAt : Z; lastSeen : Z
}.

#[export] Instance PLMN_eq_dec : EqDecision PLMN. Proof. solve_decision. Defined.
#[export] Instance SNSSAI_eq_dec : EqDecision SNSSAI. Proof. solve_decision. Defined.
#[export] Instance NFServiceVersion_eq_dec : EqDecision NFServiceVersion. Proof. solve_decision. Defined.
#[export] Instance IPEndpoint_eq_dec : EqDecision IPEndpoint. Proof. solve_decision. Defined.
#[export] Instance NFService_eq_dec : EqDecision NFService. Proof. solve_decision. Defined.
#[export] Instance NFProfile_eq_dec : EqDecision NFProfile. Proof. solve_decision. Defined.

Definition NFStatusRegistered : string := "REGISTERED".
Definition DefaultHeartbeatTimer : Z := 60.

Definition set_NFInstanceID (id : string) (p : NFProfile) : NFProfile :=
  mkNFProfile id (NFType p) (NFStatus p) (HeartBeatTimer p) (PLMNList p) (SNSSAIs p) (NSIList p) (FQDN p)
    (IPv4Addresses p) (NFServices p) (DNNList p) (Capacity p) (Priority p) (registeredAt p) (lastSeen p).
Definition set_NFStatus (st : string) (p : NFProfile) : NFProfile :=
  mkNFProfile (NFInstanceID p) (NFType p) st (HeartBeatTimer p) (PLMNList p) (SNSSAIs p) (NSIList p) (FQDN p)
    (IPv4Addresses p) (NFServices p) (DNNList p) (Capacity p) (Priority p) (registeredAt p) (lastSeen p).
Definition set_HeartBeatTimer (n : Z) (p : NFProfile) : NFProfile :=
  mkNFProfile (NFInstanceID p) (NFType p) (NFStatus p) n (PLMNList p) (SNSSAIs p) (NSIList p) (FQDN p)
    (IPv4Addresses p) (NFServices p) (DNNList p) (Capacity p) (Priority p) (registeredAt p) (lastSeen p).
Definition set_times (reg seen : Z) (p : NFProfile) : NFProfile :=
  mkNFProfile (NFInstanceID p) (NFType p) (NFStatus p) (HeartBeatTimer p) (PLMNList p) (SNSSAIs p) (NSIList p)
    (FQDN p) (IPv4Addresses p) (NFServices p) (DNNList p) (Capacity p) (Priority p) reg seen.

(** What is serialized: the bookkeeping times are not. *)
Definition serialized (p : NFProfile) : NFProfile := set_times 0 0 p.

(** ** Discovery *)
Record DiscoveryFilter := mkFilter {
  TargetNFType : string; RequesterNFType : string; ServiceNames : list string;
  FilterSNSSAIs : list SNSSAI; FilterDNN : string
}.

Definition matchServices (have : list NFService) (want : list string) : bool :=
  forallb (λ w, existsb (λ h, String.eqb (ServiceName h) w) have) want.
Definition containsDNN (l : list string) (dnn : string) : bool := existsb (λ d, String.eqb d dnn) l.
Definition matchSNSSAIs (have want : list SNSSAI) : bool :=
  forallb (λ w, existsb (λ h, (SST h =? SST w) && String.eqb (SD h) (SD w)) have) want.

Definition matchesFilter (f : DiscoveryFilter) (p : NFProfile) : bool :=
  (String.eqb (TargetNFType f) "" || String.eqb (NFType p) (TargetNFType f))
  && matchServices (NFServices p) (ServiceNames f)
  && matchSNSSAIs (SNSSAIs p) (FilterSNSSAIs f)
  && (String.eqb (FilterDNN f) "" || containsDNN (DNNList p) (FilterDNN f)).

(** ** The interface *)
(** [None] is an error of the operation.  The profile is passed by reference: the
    operations that change it return it. *)
Class Registry (R : Type) := {
  reg_register : Z → NFProfile → R → option (R * NFProfile);
  reg_update : Z → string → NFProfile → R → option (R * NFProfile);
  reg_deregister : Z → string → R → option R;
  reg_get : Z → string → R → option NFProfile;
  reg_discover : Z → DiscoveryFilter → R → list NFProfile;
  reg_heartbeat : Z → string → R → option R;
  reg_tick : Z → R → R
}.

(** ** The in-memory registry *)
Record InMemory := mkInMemory { profiles : gmap string NFProfile; evictionTimeout : Z }.

Definition NewInMemory (timeout : Z) : InMemory := mkInMemory ∅ timeout.
Definition with_profiles (m : gmap string NFProfile) (r : InMemory) : InMemory :=
  mkInMemory m (evictionTimeout r).

Definition orRegistered (st : string) : string := if String.eqb st "" then NFStatusRegistered else st.

Definition Register (now : Z) (p : NFProfile) (r : InMemory) : option (InMemory * NFProfile) :=
  if String.eqb (NFInstanceID p) "" || String.eqb (NFType p) "" then None
  else
    let p := set_NFStatus (orRegistered (NFStatus p)) (set_times now now p) in
    Some (with_profiles (<[NFInstanceID p := p]> (profiles r)) r, p).

Definition Update (now : Z) (id : string) (p : NFProfile) (r : InMemory) : option (InMemory * NFProfile) :=
  existing ← profiles r !! id;
  let p := set_times (registeredAt existing) now (set_NFInstanceID id p) in
  Some (with_profiles (<[id := p]> (profiles r)) r, p).

Definition Deregister (id : string) (r : InMemory) : option InMemory :=
  _ ← profiles r !! id; Some (with_profiles (delete id (profiles r)) r).

Definition Get (id : string) (r : InMemory) : option NFProfile := profiles r !! id.

Definition Heartbeat (now : Z) (id : string) (r : InMemory) : option InMemory :=
  p ← profiles r !! id;
  Some (with_profiles (<[id := set_times (registeredAt p) now p]> (profiles r)) r).

Definition evictStale (now : Z) (r : InMemory) : InMemory :=
  with_profiles (filter (λ kv, now - lastSeen kv.2 <= evictionTimeout r) (profiles r)) r.

(** The iteration over the map is in any order: here the one of [map_to_list]. *)
Definition Discover (f : DiscoveryFilter) (r : InMemory) : list NFProfile :=
  filter (λ p, matchesFilter f p = true) (map_to_list (profiles r)).*2.

#[export] Instance InMemory_registry : Registry InMemory := {
  reg_register := Register;
  reg_update := Update;
  reg_deregister := λ _, Deregister;
  reg_get := λ _, Get;
  reg_discover := λ _, Discover;
  reg_heartbeat := Heartbeat;
  reg_tick := evictStale
}.

(** ** Redis *)
(** SET with a time to live or with KEEPTTL, DEL, GET, EXPIRE, and the values of the
    keys that SCAN finds.  [None] is an error of the client; DEL and EXPIRE report
    whether the key existed. *)
Class RedisClient (D : Type) := {
  r_set : Z → string → NFProfile → Z → D → option D;
  r_setKeepTTL : Z → string → NFProfile → D → option D;
  r_del : Z → string → D → option (D * bool);
  r_get : Z → string → D → option NFProfile;
  r_expire : Z → string → Z → D → option (D * bool);
  r_values : Z → D → option (list NFProfile)
}.

Definition keyPrefix : string := "nrf:nf:".

Section RedisRegistry.
Context {D : Type} `{!RedisClient D}.

Record RedisRegistry := mkRedis { client : D; ttl : Z }.

Definition key (id : string) : string := (keyPrefix ++ id)%string.

Definition RedisRegister (now : Z) (p : NFProfile) (r : RedisRegistry)
    : option (RedisRegistry * NFProfile) :=
  if String.eqb (NFInstanceID p) "" || String.eqb (NFType p) "" then None
  else
    let p := set_HeartBeatTimer DefaultHeartbeatTimer (set_NFStatus (orRegistered (NFStatus p)) p) in
    c ← r_set now (key (NFInstanceID p)) (serialized p) (ttl r) (client r);
    Some (mkRedis c (ttl r), p).

Definition RedisUpdate (now : Z) (id : string) (p : NFProfile) (r : RedisRegistry)
    : option (RedisRegistry * NFProfile) :=
  let p := set_NFInstanceID id p in
  c ← r_setKeepTTL now (key id) (serialized p) (client r);
  Some (mkRedis c (ttl r), p).

Definition RedisDeregister (now : Z) (id : string) (r : RedisRegistry) : option RedisRegistry :=
  '(c, found) ← r_del now (key id) (client r);
  if (found : bool) then Some (mkRedis c (ttl r)) else None.

Definition RedisGet (now : Z) (id : string) (r : RedisRegistry) : option NFProfile :=
  r_get now (key id) (client r).

Definition RedisHeartbeat (now : Z) (id : string) (r : RedisRegistry) : option RedisRegistry :=
  '(c, found) ← r_expire now (key id) (ttl r) (client r);
  if (found : bool) then Some (mkRedis c (ttl r)) else None.

Definition RedisDiscover (now : Z) (f : DiscoveryFilter) (r : RedisRegistry) : list NFProfile :=
  match r_values now (client r) with
  | Some l => filter (λ p, matchesFilter f p = true) l
  | None => []
  end.

#[export] Instance Redis_registry : Registry RedisRegistry := {
  reg_register := RedisRegister;
  reg_update := RedisUpdate;
  reg_deregister := RedisDeregister;
  reg_get := RedisGet;
  reg_discover := RedisDiscover;
  reg_heartbeat := RedisHeartbeat;
  reg_tick := λ _ r, r
}.
End RedisRegistry.
Arguments RedisRegistry D : clear implicits.

(** ** Subscriptions *)
Inductive NFEvent := NF_REGISTERED | NF_DEREGISTERED | NF_PROFILE_CHANGED.
Record Subscription := mkSubscription {
  SubscriptionID : string; NotificationURI : string; ReqNFType : string; ReqNFInstanceID : string
}.
Record NotificationData := mkNotificationData {
  Event : NFEvent; NFInstanceURI : string; NotifiedProfile : option NFProfile
}.

(** [uuid] is the identifier a new subscription gets. *)
Definition Add (uuid : string) (s : Subscription) (subs : gmap string Subscription)
    : gmap string Subscription * string :=
  let id := if String.eqb (SubscriptionID s) "" then uuid else SubscriptionID s in
  (<[id := mkSubscription id (NotificationURI s) (ReqNFType s) (ReqNFInstanceID s)]> subs, id).
Definition Delete (id : string) (subs : gmap string Subscription) : gmap string Subscription := delete id subs.

Definition subscriptionMatches (nfType id : string) (s : Subscription) : bool :=
  (String.eqb (ReqNFType s) "" || String.eqb (ReqNFType s) nfType)
  && (String.eqb (ReqNFInstanceID s) "" || String.eqb (ReqNFInstanceID s) id).
Definition Matching (nfType id : string) (subs : gmap string Subscription) : list Subscription :=
  filter (λ s, subscriptionMatches nfType id s = true) (map_to_list subs).*2.

(** ** The server *)
Inductive Resp :=
  | Problem (status : Z) (cause : string)
  | Created (location : string) (profile : option NFProfile)
  | NoContent
  | Found (p : NFProfile)
  | Results (l : list NFProfile)
  | Ids (l : list string).

Section Server.
Context {R : Type} `{!Registry R}.

Record Server := mkServer {
  reg : R; subs : gmap string Subscription; sent : list (string * NotificationData)
}.

Definition notifySubscribers (event : NFEvent) (p : NFProfile) (s : Server) : Server :=
  let data := mkNotificationData event ("/nnrf-nfm/v1/nf-instances/" ++ NFInstanceID p)
                (match event with NF_DEREGISTERED => None | _ => Some p end) in
  mkServer (reg s) (subs s)
    (sent s ++ ((λ sub, (NotificationURI sub, data)) <$> Matching (NFType p) (NFInstanceID p) (subs s))).

Definition with_reg (r : R) (s : Server) : Server := mkServer r (subs s) (sent s).

(** The body is the decoded profile, or [None] when it does not decode. *)
Definition handleRegister (now : Z) (id : string) (body : option NFProfile) (s : Server) : Server * Resp :=
  match body with
  | None => (s, Problem 400 "MANDATORY_IE_INCORRECT")
  | Some p =>
      if negb (String.eqb (NFInstanceID p) "") && negb (String.eqb (NFInstanceID p) id)
      then (s, Problem 400 "MANDATORY_IE_INCORRECT")
      else
        let p := set_NFInstanceID id p in
        let p := if HeartBeatTimer p =? 0 then set_HeartBeatTimer DefaultHeartbeatTimer p else p in
        match reg_register now p (reg s) with
        | None => (s, Problem 400 "MANDATORY_IE_INCORRECT")
        | Some (r, p) =>
            (notifySubscribers NF_REGISTERED p (with_reg r s),
             Created ("/nnrf-nfm/v1/nf-instances/" ++ id) (Some p))
        end
  end.

(** The body of a PATCH: a JSON array, a profile, or neither. *)
Inductive PatchBody := PatchArray | PatchProfile (p : NFProfile) | PatchInvalid.

Definition handleUpdate (now : Z) (id : string) (body : PatchBody) (s : Server) : Server * Resp :=
  let notFound := Problem 404 "RESOURCE_URI_STRUCTURE_NOT_FOUND" in
  match body with
  | PatchArray =>
      match reg_heartbeat now id (reg s) with
      | None => (s, notFound)
      | Some r => (with_reg r s, NoContent)
      end
  | PatchInvalid => (s, Problem 400 "MANDATORY_IE_INCORRECT")
  | PatchProfile p =>
      match reg_update now id p (reg s) with
      | None => (s, notFound)
      | Some (r, p) => (notifySubscribers NF_PROFILE_CHANGED p (with_reg r s), NoContent)
      end
  end.

Definition handleDeregister (now : Z) (id : string) (s : Server) : Server * Resp :=
  let p := reg_get now id (reg s) in
  match reg_deregister now id (reg s) with
  | None => (s, Problem 404 "RESOURCE_URI_STRUCTURE_NOT_FOUND")
  | Some r =>
      (match p with
       | Some p => notifySubscribers NF_DEREGISTERED p (with_reg r s)
       | None => with_reg r s
       end, NoContent)
  end.

Definition handleGet (now : Z) (id : string) (s : Server) : Resp :=
  match reg_get now id (reg s) with
  | Some p => Found p
  | None => Problem 404 "RESOURCE_URI_STRUCTURE_NOT_FOUND"
  end.

(** The query: [snssais] is the decoded list, [None] when the parameter is absent or
    does not decode. *)
Definition handleDiscover (now : Z) (target requester : string) (services : list string)
    (snssais : option (list SNSSAI)) (dnn : string) (s : Server) : Resp :=
  if String.eqb target "" || String.eqb requester ""
  then Problem 400 "MANDATORY_QUERY_PARAM_INCORRECT"
  else Results (reg_discover now (mkFilter target requester services (default [] snssais) dnn) (reg s)).

Definition handleList (now : Z) (detail : bool) (s : Server) : Resp :=
  let all := reg_discover now (mkFilter "" "" [] [] "") (reg s) in
  if detail then Results all else Ids (NFInstanceID <$> all).

Definition handleSubscribe (uuid : string) (body : option (string * string * string)) (s : Server)
    : Server * Resp :=
  match body with
  | None => (s, Problem 400 "")
  | Some (uri, nfType, id) =>
      if String.eqb uri "" then (s, Problem 400 "")
      else
        let '(m, subID) := Add uuid (mkSubscription "" uri nfType id) (subs s) in
        (mkServer (reg s) m (sent s), Created ("/nnrf-nfm/v1/subscriptions/" ++ subID) None)
  end.

Definition handleUnsubscribe (id : string) (s : Server) : Server * Resp :=
  (mkServer (reg s) (Delete id (subs s)) (sent s), NoContent).
End Server.
Arguments Server R : clear implicits.


(** ** What a registry promises *)
(** [lease r id] is the profile that is held for an instance and the time of its last
    contact.  An instance that keeps in touch is served; after an eviction tick only
    instances that were in touch within the timeout are. *)
Definition upd_lease (id : string) (v : option (NFProfile * Z)) (l : string → option (NFProfile * Z))
    : string → option (NFProfile * Z) := λ k, if decide (k = id) then v else l k.

Class RegistryLaws (R : Type) `{!Registry R} (timeout : Z) := {
  reg_wf : R → Prop;
  lease : R → string → option (NFProfile * Z);
  law_register now p r : reg_wf r →
    match reg_register now p r with
    | Some (r', p') => NFInstanceID p ≠ ""%string ∧ NFType p ≠ ""%string ∧ reg_wf r' ∧
        NFInstanceID p' = NFInstanceID p ∧
        ∀ k, lease r' k = upd_lease (NFInstanceID p) (Some (serialized p', now)) (lease r) k
    | None => NFInstanceID p = ""%string ∨ NFType p = ""%string
    end;
  law_heartbeat now id r : reg_wf r →
    match reg_heartbeat now id r with
    | Some r' => ∃ p t, lease r id = Some (p, t) ∧ reg_wf r' ∧
        ∀ k, lease r' k = upd_lease id (Some (p, now)) (lease r) k
    | None => ∀ p t, lease r id = Some (p, t) → timeout <= now - t
    end;
  law_deregister now id r : reg_wf r →
    match reg_deregister now id r with
    | Some r' => reg_wf r' ∧ ∀ k, lease r' k = upd_lease id None (lease r) k
    | None => ∀ p t, lease r id = Some (p, t) → timeout <= now - t
    end;
  law_get now id r : reg_wf r →
    match reg_get now id r with
    | Some p => ∃ t, lease r id = Some (serialized p, t)
    | None => ∀ p t, lease r id = Some (p, t) → timeout <= now - t
    end;
  law_tick now r : reg_wf r →
    reg_wf (reg_tick now r) ∧
    (∀ id v, lease (reg_tick now r) id = Some v → lease r id = Some v) ∧
    (∀ id p t, lease r id = Some (p, t) → now - t < timeout → lease (reg_tick now r) id = Some (p, t)) ∧
    (∀ id p t, lease r id = Some (p, t) → is_Some (reg_get now id (reg_tick now r)) → now - t <= timeout);
  law_discover now f r p : reg_wf r →
    (p ∈ reg_discover now f r ↔ reg_get now (NFInstanceID p) r = Some p ∧ matchesFilter f p = true)
}.

(** *** In memory *)
Lemma serialized_times a b p : serialized (set_times a b p) = serialized p.
Proof. done. Qed.

Record inMemory_wf (timeout : Z) (r : InMemory) : Prop := {
  im_timeout : evictionTimeout r = timeout;
  im_ids id p : profiles r !! id = Some p → NFInstanceID p = id
}.
Definition inMemory_lease (r : InMemory) (id : string) : option (NFProfile * Z) :=
  (λ p, (serialized p, lastSeen p)) <$> profiles r !! id.

Lemma im_insert timeout r id p :
  inMemory_wf timeout r → NFInstanceID p = id →
  inMemory_wf timeout (with_profiles (<[id := p]> (profiles r)) r) ∧
  ∀ k, inMemory_lease (with_profiles (<[id := p]> (profiles r)) r) k
       = upd_lease id (Some (serialized p, lastSeen p)) (inMemory_lease r) k.
Proof.
  intros [W1 W2] E. split; [split; [done|]|].
  - intros k q. cbn. rewrite lookup_insert_Some. intros [[<- <-]|[_ H]]; [done|by apply W2].
  - intros k. unfold inMemory_lease, upd_lease. cbn. case_decide as Dk; [subst; by rewrite lookup_insert_eq|].
    by rewrite lookup_insert_ne.
Qed.

#[export] Program Instance InMemory_laws timeout : RegistryLaws InMemory timeout := {
  reg_wf := inMemory_wf timeout;
  lease := inMemory_lease
}.
Next Obligation.
  intros timeout now p r W. cbn. unfold Register.
  destruct (String.eqb_spec (NFInstanceID p) ""); [by left|].
  destruct (String.eqb_spec (NFType p) ""); [by right|]. cbn [orb].
  set (q := set_NFStatus _ _). assert (NFInstanceID q = NFInstanceID p) as E by done.
  destruct (im_insert timeout r (NFInstanceID q) q W eq_refl) as [W' L].
  repeat (split; [done|]). intros k. rewrite L. by rewrite E.
Qed.
Next Obligation.
  intros timeout now id r W. cbn. unfold Heartbeat. destruct (profiles r !! id) as [p|] eqn:Hp; cbn.
  - exists (serialized p), (lastSeen p). unfold inMemory_lease at 1. rewrite Hp. split; [done|].
    apply (im_insert timeout r id (set_times (registeredAt p) now p) W). by apply (im_ids _ _ W) in Hp.
  - unfold inMemory_lease. by rewrite Hp.
Qed.
Next Obligation.
  intros timeout now id r [W1 W2]. cbn. unfold Deregister, inMemory_lease. destruct (profiles r !! id) as [p|] eqn:Hp; cbn.
  - split; [split; [done|]|].
    + intros k q. cbn. rewrite lookup_delete_Some. intros [_ H]. by apply W2.
    + intros k. unfold upd_lease. case_decide as Dk; [subst; by rewrite lookup_delete_eq|by rewrite lookup_delete_ne].
  - done.
Qed.
Next Obligation.
  intros timeout now id r W. cbn. unfold Get, inMemory_lease. destruct (profiles r !! id) as [p|]; cbn; [|done].
  by eexists.
Qed.
Next Obligation.
  intros timeout now r [W1 W2]. change (reg_tick now r) with (evictStale now r). cbn [reg_get InMemory_registry].
  unfold inMemory_lease, Get.
  assert (∀ id p, profiles (evictStale now r) !! id = Some p ↔
                  profiles r !! id = Some p ∧ now - lastSeen p <= timeout) as E.
  { intros id p. cbn. rewrite map_lookup_filter_Some. cbn. by rewrite W1. }
  split; [split; [done|]|split; [|split]].
  - intros id p [H _]%E. by apply W2.
  - intros id v. destruct (profiles (evictStale now r) !! id) as [p|] eqn:Hp; [|done].
    apply E in Hp as [-> _]. done.
  - intros id p t. destruct (profiles r !! id) as [q|] eqn:Hq; [|done]. intros [= <- <-] Ht.
    assert (profiles (evictStale now r) !! id = Some q) as -> by (apply E; split; [done|lia]). done.
  - intros id p t. destruct (profiles r !! id) as [q|] eqn:Hq; [|done]. intros [= <- <-] [q' Hq'].
    apply E in Hq' as [Hq' Ht]. congruence.
Qed.
Next Obligation.
  intros timeout now f r p [W1 W2]. cbn. unfold Discover, Get. rewrite list_elem_of_filter.
  rewrite list_elem_of_fmap. split.
  - intros (Hm & [id q] & -> & H%elem_of_map_to_list). cbn in *. by rewrite (W2 _ _ H).
  - intros [Hg Hm]. split; [done|]. exists (NFInstanceID p, p). split; [done|]. by apply elem_of_map_to_list.
Qed.

(** *** Redis *)
(** The documented behaviour of the commands on a server that can be reached: [entry]
    is the value of a key with the time at which it expires, if it does. *)
Definition expired (now : Z) (x : option Z) : bool := match x with Some t => t <=? now | None => false end.
Definition liveEntry (now : Z) (e : option (NFProfile * option Z)) : option (NFProfile * option Z) :=
  match e with Some (v, x) => if expired now x then None else Some (v, x) | None => None end.

Class RedisLaws (D : Type) `{!RedisClient D} := {
  entry : D → string → option (NFProfile * option Z);
  redis_set now k v ttl d : ∃ d', r_set now k v ttl d = Some d' ∧
    ∀ k', entry d' k' = if decide (k' = k) then Some (v, Some (now + ttl)) else entry d k';
  redis_setKeepTTL now k v d : ∃ d', r_setKeepTTL now k v d = Some d' ∧
    ∀ k', entry d' k' = if decide (k' = k)
                        then Some (v, match liveEntry now (entry d k) with Some (_, x) => x | None => None end)
                        else entry d k';
  redis_del now k d : ∃ d', r_del now k d = Some (d', bool_decide (is_Some (liveEntry now (entry d k)))) ∧
    ∀ k', entry d' k' = if decide (k' = k) then None else entry d k';
  redis_get now k d : r_get now k d = fst <$> liveEntry now (entry d k);
  redis_expire now k ttl d : ∃ d', r_expire now k ttl d = Some (d', bool_decide (is_Some (liveEntry now (entry d k)))) ∧
    ∀ k', entry d' k' = if decide (k' = k)
                        then (λ e, (fst e, Some (now + ttl))) <$> liveEntry now (entry d k) else entry d k';
  redis_values now d : ∃ l, r_values now d = Some l ∧
    ∀ v, v ∈ l ↔ ∃ id x, liveEntry now (entry d (key id)) = Some (v, x)
}.

Lemma key_inj a b : key a = key b → a = b.
Proof. unfold key, keyPrefix. cbn. by intros [= E]. Qed.

Section RedisLawsSection.
Context {D : Type} `{!RedisClient D} `{!RedisLaws D} (timeout : Z).

Record redis_wf (r : RedisRegistry D) : Prop := {
  rw_ttl : ttl r = timeout;
  rw_entry id v x : entry (client r) (key id) = Some (v, x) →
    is_Some x ∧ serialized v = v ∧ NFInstanceID v = id
}.
Definition redis_lease (r : RedisRegistry D) (id : string) : option (NFProfile * Z) :=
  match entry (client r) (key id) with Some (v, Some x) => Some (v, x - ttl r) | _ => None end.

(** A key written with the time to live, the others untouched. *)
Lemma redis_write r d id v now :
  redis_wf r → serialized v = v → NFInstanceID v = id →
  (∀ k', entry d k' = if decide (k' = key id) then Some (v, Some (now + ttl r)) else entry (client r) k') →
  redis_wf (mkRedis d (ttl r)) ∧
  ∀ k, redis_lease (mkRedis d (ttl r)) k = upd_lease id (Some (v, now)) (redis_lease r) k.
Proof.
  intros [W1 W2] Hs Hi E. split; [split; [done|]|].
  - intros k w x. cbn. rewrite E. case_decide as Dk; [|apply W2].
    apply key_inj in Dk. subst k. intros [= <- <-]. by repeat split.
  - intros k. unfold redis_lease, upd_lease. cbn. rewrite E. case_decide as D1; case_decide as D2; try done.
    + do 2 f_equal. lia.
    + by apply key_inj in D1.
    + by subst.
Qed.

Lemma redis_live now r id :
  match liveEntry now (entry (client r) (key id)) with
  | Some (v, x) => redis_wf r → ∃ t, redis_lease r id = Some (v, t) ∧ now - t < timeout ∧ x = Some (t + ttl r)
  | None => redis_wf r → ∀ v t, redis_lease r id = Some (v, t) → timeout <= now - t
  end.
Proof.
  unfold redis_lease. destruct (entry (client r) (key id)) as [[v x]|] eqn:E; cbn; [|done].
  destruct (expired now x) eqn:Ex.
  - intros [W1 W2]. destruct x as [t|]; [|done]. cbn in Ex. intros w u [= <- <-]. lia.
  - intros [W1 W2]. destruct (W2 _ _ _ E) as ([t ->] & _). cbn in Ex. exists (t - ttl r).
    split; [done|]. split; [lia|]. f_equal. lia.
Qed.

Lemma serialized_idem p : serialized (serialized p) = serialized p.
Proof. done. Qed.

#[export] Program Instance Redis_laws : RegistryLaws (RedisRegistry D) timeout := {
  reg_wf := redis_wf;
  lease := redis_lease
}.
Next Obligation.
  intros now p r W. cbn. unfold RedisRegister.
  destruct (String.eqb_spec (NFInstanceID p) ""); [by left|].
  destruct (String.eqb_spec (NFType p) ""); [by right|]. cbn [orb].
  set (q := set_HeartBeatTimer _ _). assert (NFInstanceID q = NFInstanceID p) as E by done.
  destruct (redis_set now (key (NFInstanceID q)) (serialized q) (ttl r) (client r)) as (d & -> & Hd). cbn [mbind option_bind].
  destruct (redis_write r d (NFInstanceID q) (serialized q) now W) as [W' L]; [done|done|exact Hd|].
  repeat (split; [done|]). intros k. rewrite L. by rewrite E.
Qed.
Next Obligation.
  intros now id r W. cbn. unfold RedisHeartbeat.
  destruct (redis_expire now (key id) (ttl r) (client r)) as (d & -> & Hd). cbn [mbind option_bind].
  pose proof (redis_live now r id) as Lv. pose proof (rw_entry r W id) as We.
  destruct (liveEntry now (entry (client r) (key id))) as [[v x]|] eqn:El.
  - rewrite bool_decide_true by (by eexists). destruct (Lv W) as (t & Ht & _ & ->). exists v, t. split; [done|].
    destruct (We v (Some (t + ttl r))) as (_ & Hs & Hi).
    { destruct (entry (client r) (key id)) as [[w y]|]; [|done]. cbn in El. by destruct (expired now y). }
    apply (redis_write r d id v now W Hs Hi). exact Hd.
  - rewrite bool_decide_false by (by intros [? ?]). by apply Lv.
Qed.
Next Obligation.
  intros now id r W. cbn. unfold RedisDeregister.
  destruct (redis_del now (key id) (client r)) as (d & -> & Hd). cbn [mbind option_bind].
  pose proof (redis_live now r id) as Lv. destruct (liveEntry now (entry (client r) (key id))) as [[v x]|] eqn:El.
  - rewrite bool_decide_true by (by eexists). destruct W as [W1 W2]. split; [split; [done|]|].
    + intros k w y. cbn. rewrite Hd. case_decide; [done|apply W2].
    + intros k. unfold redis_lease, upd_lease. cbn. rewrite Hd. case_decide as D1; case_decide as D2; try done.
      * by apply key_inj in D1.
      * by subst.
  - rewrite bool_decide_false by (by intros [? ?]). by apply Lv.
Qed.
Next Obligation.
  intros now id r W. cbn. unfold RedisGet. rewrite redis_get.
  pose proof (redis_live now r id) as Lv. pose proof (rw_entry r W id) as We.
  destruct (liveEntry now (entry (client r) (key id))) as [[v x]|] eqn:El; cbn [fmap option_fmap option_map].
  - destruct (Lv W) as (t & Ht & _). exists t. cbn [fst].
    destruct (We v x) as (_ & -> & _); [|done].
    destruct (entry (client r) (key id)) as [[w y]|]; [|done]. cbn in El. by destruct (expired now y).
  - by apply Lv.
Qed.
Next Obligation.
  intros now r W. cbn. split; [done|]. split; [done|]. split; [done|].
  intros id p t Hl [q Hq]. unfold RedisGet in Hq. rewrite redis_get in Hq.
  pose proof (redis_live now r id) as Lv. destruct (liveEntry _ _) as [[v x]|]; [|done].
  destruct (Lv W) as (t' & Ht' & Hlt & _). rewrite Hl in Ht'. injection Ht' as -> ->. lia.
Qed.
Next Obligation.
  intros now f r p W. cbn. unfold RedisDiscover, RedisGet. rewrite redis_get.
  destruct (redis_values now (client r)) as (l & -> & Hl). rewrite list_elem_of_filter, Hl.
  assert (∀ id v x, liveEntry now (entry (client r) (key id)) = Some (v, x) → NFInstanceID v = id) as Hid.
  { intros id v x. destruct (entry (client r) (key id)) as [[w y]|] eqn:E; [|done]. cbn.
    destruct (expired now y); [done|]. intros [= -> ->]. by apply (rw_entry r W) in E as (_ & _ & ?). }
  split.
  - intros [Hm (id & x & E)]. rewrite (Hid _ _ _ E), E. done.
  - intros [Hg Hm]. split; [done|]. exists (NFInstanceID p).
    destruct (liveEntry _ _) as [[v x]|]; [|done]. injection Hg as ->. by exists x.
Qed.
End RedisLawsSection.

(** ** Leases over a run of the server *)
Inductive NrfEvent :=
  | NPut (now : Z) (id : string) (body : option NFProfile)
  | NBeat (now : Z) (id : string)
  | NDelete (now : Z) (id : string)
  | NTick (now : Z)
  | NSubscribe (uuid : string) (body : option (string * string * string))
  | NUnsubscribe (id : string).

Section Leases.
Context {R : Type} `{!Registry R} (timeout : Z) `{!RegistryLaws R timeout}.
Abbreviation leases := (string → option (NFProfile * Z)).

(** The server, and what the network functions have been answered: the last profile
    that was accepted for an instance and the time of its last accepted contact. *)
Definition nrfStep (sl : Server R * leases) (ev : NrfEvent) : Server R * leases :=
  let '(s, l) := sl in
  match ev with
  | NPut now id body =>
      let '(s', a) := handleRegister now id body s in
      (s', match a with Created _ (Some p) => upd_lease id (Some (serialized p, now)) l | _ => l end)
  | NBeat now id =>
      let '(s', a) := handleUpdate now id PatchArray s in
      (s', match a with
           | NoContent => upd_lease id (match l id with Some (p, _) => Some (p, now) | None => None end) l
           | _ => l
           end)
  | NDelete now id =>
      let '(s', a) := handleDeregister now id s in
      (s', match a with NoContent => upd_lease id None l | _ => l end)
  | NTick now => (with_reg (reg_tick now (reg s)) s, l)
  | NSubscribe uuid body => ((handleSubscribe uuid body s).1, l)
  | NUnsubscribe id => ((handleUnsubscribe id s).1, l)
  end.

(** At every eviction tick the instance had been in touch within the timeout. *)
Fixpoint punctual (id : string) (sl : Server R * leases) (evs : list NrfEvent) : Prop :=
  match evs with
  | [] => True
  | ev :: r =>
      match ev with
      | NTick now => ∀ p t, sl.2 id = Some (p, t) → now - t < timeout
      | _ => True
      end ∧ punctual id (nrfStep sl ev) r
  end.

(** What is held is what was answered. *)
Record held (sl : Server R * leases) : Prop := {
  held_wf : reg_wf (reg sl.1);
  held_sub k v : lease (reg sl.1) k = Some v → sl.2 k = Some v
}.

(** One step: the tables move together, or an eviction. *)
Definition moves (sl sl' : Server R * leases) : Prop :=
  reg_wf (reg sl'.1) ∧
  ((∀ k, lease (reg sl'.1) k = lease (reg sl.1) k) ∧ (∀ k, sl'.2 k = sl.2 k) ∨
   ∃ i v, (∀ k, lease (reg sl'.1) k = upd_lease i v (lease (reg sl.1)) k) ∧ (∀ k, sl'.2 k = upd_lease i v sl.2 k)).

Lemma stays s s' l : reg_wf (reg s) → reg s' = reg s → moves (s, l) (s', l).
Proof. intros W E. split; cbn; rewrite E; [done|by left]. Qed.

Lemma put_moves now id body s l : held (s, l) → moves (s, l) (nrfStep (s, l) (NPut now id body)).
Proof.
  intros [W S]. cbn [nrfStep]. unfold handleRegister.
  destruct body as [p|]; [|by apply stays]. destruct (negb _ && negb _); [by apply stays|]. cbn zeta.
  set (q := if HeartBeatTimer (set_NFInstanceID id p) =? 0 then _ else _).
  assert (NFInstanceID q = id) as Eq by (unfold q; by case_match).
  pose proof (law_register now q (reg s) W) as L.
  destruct (reg_register now q (reg s)) as [[r p']|]; [|by apply stays].
  destruct L as (_ & _ & W' & Ei & L). rewrite Eq in L. split; [exact W'|]. right.
  by exists id, (Some (serialized p', now)).
Qed.

Lemma beat_moves now id s l : held (s, l) → moves (s, l) (nrfStep (s, l) (NBeat now id)).
Proof.
  intros [W S]. cbn [nrfStep handleUpdate]. pose proof (law_heartbeat now id (reg s) W) as L.
  destruct (reg_heartbeat now id (reg s)) as [r|]; [|by apply stays].
  destruct L as (p & t & Hl & W' & L). split; [exact W'|]. right. exists id, (Some (p, now)). split; [exact L|].
  intros k. cbn [snd]. apply S in Hl. cbn [snd] in Hl. by rewrite Hl.
Qed.

Lemma delete_moves now id s l : held (s, l) → moves (s, l) (nrfStep (s, l) (NDelete now id)).
Proof.
  intros [W S]. cbn [nrfStep]. unfold handleDeregister. pose proof (law_deregister now id (reg s) W) as L.
  destruct (reg_deregister now id (reg s)) as [r|]; [|by apply stays]. destruct L as [W' L].
  destruct (reg_get now id (reg s)); (split; [exact W'|]); right; by exists id, None.
Qed.

Lemma step_moves sl ev :
  held sl → (∃ now, ev = NTick now) ∨ moves sl (nrfStep sl ev).
Proof.
  destruct sl as [s l]. intros H. pose proof H as [W S].
  destruct ev as [now id body|now id|now id|now|uuid body|id]; [right..|left|right|right].
  - by apply put_moves.
  - by apply beat_moves.
  - by apply delete_moves.
  - by exists now.
  - apply stays; [done|]. destruct body as [[[uri ty] i]|]; cbn; [|done]. by case_match.
  - by apply stays.
Qed.

Lemma step_held sl ev : held sl → held (nrfStep sl ev).
Proof.
  intros H. destruct (step_moves sl ev H) as [[now ->]|[W M]]; destruct H as [W0 S].
  - destruct sl as [s l]. cbn in *. destruct (law_tick now (reg s) W0) as (W & T & _). split; cbn; [done|].
    intros k v Hv. by apply S, T.
  - split; [done|]. intros k v. destruct M as [[-> ->]|(i & w & -> & ->)]; [apply S|].
    unfold upd_lease. case_decide; [done|apply S].
Qed.

Lemma step_exact id sl ev :
  held sl → match ev with NTick now => ∀ p t, sl.2 id = Some (p, t) → now - t < timeout | _ => True end →
  lease (reg sl.1) id = sl.2 id → lease (reg (nrfStep sl ev).1) id = (nrfStep sl ev).2 id.
Proof.
  intros H P E. destruct (step_moves sl ev H) as [[now ->]|[_ M]]; destruct H as [W0 S].
  - destruct sl as [s l]. cbn in *. destruct (law_tick now (reg s) W0) as (W & T1 & T2 & _).
    destruct (l id) as [[p t]|] eqn:El; [apply T2; [done|by eapply P]|].
    destruct (lease (reg_tick now (reg s)) id) eqn:Et; [|done]. apply T1 in Et. congruence.
  - destruct M as [[-> ->]|(i & w & -> & ->)]; [done|]. unfold upd_lease. by case_decide.
Qed.

Lemma run_held sl evs : held sl → held (foldl nrfStep sl evs).
Proof.
  revert sl; induction evs as [|ev r IH]; intros sl H; [done|]. by apply IH, step_held.
Qed.
Lemma run_exact id sl evs :
  held sl → lease (reg sl.1) id = sl.2 id → punctual id sl evs →
  lease (reg (foldl nrfStep sl evs).1) id = (foldl nrfStep sl evs).2 id.
Proof.
  revert sl; induction evs as [|ev r IH]; intros sl H E; [done|]. intros [P Pr].
  apply IH; [by apply step_held|by apply step_exact|done].
Qed.
End Leases.

(** C35: leases, for every implementation of the registry that keeps the promises of
    the interface, from an empty registry and over every sequence of registrations,
    heartbeats, deregistrations, eviction ticks and subscriptions.  After a tick an
    instance is retrieved only with the profile it was last answered, and only if it was
    in touch within the timeout; an instance that was in touch within the timeout at
    every tick is retrieved; and discovery returns exactly the instances that are
    retrieved and match. *)
Theorem nrf_leases {R : Type} `{!Registry R} (timeout : Z) `{!RegistryLaws R timeout}
    (r0 : R) (subs0 : gmap string Subscription) (evs : list NrfEvent) (now : Z) :
  reg_wf r0 → (∀ k, lease r0 k = None) →
  let start := (mkServer r0 subs0 [], λ _, None) in
  let s := (foldl nrfStep start evs).1 in
  let l := (foldl nrfStep start evs).2 in
  let s' := with_reg (reg_tick now (reg s)) s in
  (∀ id p, handleGet now id s' = Found p → ∃ t, l id = Some (serialized p, t) ∧ now - t <= timeout) ∧
  (∀ id p t, l id = Some (p, t) → now - t < timeout → punctual timeout id start evs →
     ∃ q, handleGet now id s' = Found q ∧ serialized q = p) ∧
  (∀ target requester names snssais dnn found p,
     handleDiscover now target requester names snssais dnn s' = Results found →
     (p ∈ found ↔ handleGet now (NFInstanceID p) s' = Found p ∧
                  matchesFilter (mkFilter target requester names (default [] snssais) dnn) p = true)).
Proof.
  intros W0 E0 start. assert (held timeout start) as H0 by (split; [exact W0|]; intros k v; cbn; by rewrite E0).
  pose proof (run_held timeout start evs H0) as H.
  pose proof (λ id, run_exact timeout id start evs H0 (E0 id)) as X.
  destruct (foldl nrfStep start evs) as [s l]. destruct H as [W S]. cbn [fst snd] in W, S, X |- *. cbv zeta.
  destruct (law_tick now (reg s) W) as (W' & T1 & T2 & T3).
  assert (∀ id p, handleGet now id (with_reg (reg_tick now (reg s)) s) = Found p ↔
                  reg_get now id (reg_tick now (reg s)) = Some p) as G.
  { intros id p. unfold handleGet. cbn [reg with_reg]. destruct (reg_get _ _ _); split; congruence. }
  split; [|split].
  - intros id p Hg%G. pose proof (law_get now id (reg_tick now (reg s)) W') as Lg. rewrite Hg in Lg.
    destruct Lg as [t Ht]. apply T1 in Ht. exists t. split; [by apply S|]. eapply T3; [exact Ht|]. by eexists.
  - intros id p t Hl Ht Hp. apply X in Hp. rewrite Hl in Hp. apply (T2 _ _ _) in Hp; [|done].
    pose proof (law_get now id (reg_tick now (reg s)) W') as Lg.
    destruct (reg_get now id (reg_tick now (reg s))) as [q|] eqn:Hq.
    + exists q. split; [by apply G|]. destruct Lg as [t' Ht']. congruence.
    + apply Lg in Hp. lia.
  - intros target requester names snssais dnn found p. unfold handleDiscover. case_match; [done|].
    intros [= <-]. cbn [reg with_reg]. rewrite law_discover by done. by rewrite G.
Qed.

(** *** A Redis server as a map *)
Abbreviation RedisDB := (gmap string (NFProfile * option Z)).
Fixpoint sdrop (n : nat) (s : string) : string :=
  match n, s with S n, String _ r => sdrop n r | _, _ => s end.

#[export] Instance RedisDB_client : RedisClient RedisDB := {
  r_set now k v ttl d := Some (<[k := (v, Some (now + ttl))]> d);
  r_setKeepTTL now k v d :=
    Some (<[k := (v, match liveEntry now (d !! k) with Some (_, x) => x | None => None end)]> d);
  r_del now k d := Some (delete k d, bool_decide (is_Some (liveEntry now (d !! k))));
  r_get now k d := fst <$> liveEntry now (d !! k);
  r_expire now k ttl d :=
    Some (match liveEntry now (d !! k) with
          | Some (v, _) => <[k := (v, Some (now + ttl))]> d
          | None => delete k d
          end, bool_decide (is_Some (liveEntry now (d !! k))));
  r_values now d :=
    Some ((λ kv, kv.2.1) <$> filter (λ kv, kv.1 = key (sdrop 7 kv.1) ∧ expired now kv.2.2 = false) (map_to_list d))
}.

#[export] Program Instance RedisDB_laws : RedisLaws RedisDB := { entry d k := d !! k }.
Next Obligation.
  intros now k v t d. eexists. split; [done|]. intros k'. cbn.
  case_decide as E; [subst; by rewrite lookup_insert_eq|by rewrite lookup_insert_ne].
Qed.
Next Obligation.
  intros now k v d. eexists. split; [done|]. intros k'. cbn.
  case_decide as E; [subst; by rewrite lookup_insert_eq|by rewrite lookup_insert_ne].
Qed.
Next Obligation.
  intros now k d. eexists. split; [done|]. intros k'. cbn.
  case_decide as E; [subst; by rewrite lookup_delete_eq|by rewrite lookup_delete_ne].
Qed.
Next Obligation. done. Qed.
Next Obligation.
  intros now k t d. eexists. split; [done|]. intros k'. cbn.
  destruct (liveEntry now (d !! k)) as [[v x]|]; cbn;
    (case_decide as E; [subst; by rewrite ?lookup_insert_eq, ?lookup_delete_eq|
                        by rewrite ?lookup_insert_ne, ?lookup_delete_ne]).
Qed.
Next Obligation.
  intros now d. eexists. split; [done|]. intros v. rewrite list_elem_of_fmap. split.
  - intros ([k [w x]] & -> & [[Hk Hx] Hd%elem_of_map_to_list]%list_elem_of_filter). cbn [fst snd] in *.
    exists (sdrop 7 k), x. rewrite <- Hk, Hd. cbn. by rewrite Hx.
  - intros (id & x & E). exists (key id, (v, x)). split; [done|]. apply list_elem_of_filter.
    destruct (d !! key id) as [[w y]|] eqn:Ed; [|done]. cbn in E.
    destruct (expired now y) eqn:Ex; [done|]. injection E as -> ->. split; [done|]. by apply elem_of_map_to_list.
Qed.

Definition profile0 (id : string) : NFProfile :=
  mkNFProfile id "SMF" "" 0 [] [mkSNSSAI 1 "000001"] [] "" [] [] ["internet"] 0 2 0 0.
(** One instance keeps in touch, the other does not. *)
Definition events0 : list NrfEvent :=
  [NPut 0 "a" (Some (profile0 "a")); NPut 1 "b" (Some (profile0 "")); NTick 60; NBeat 90 "a"; NTick 120].

Lemma nrf_leases_witness :
  (∃ q, handleGet 150 "a" (with_reg (reg_tick 150 (reg (foldl nrfStep
          (mkServer (NewInMemory 120) ∅ [], λ _, None) events0).1))
          (foldl nrfStep (mkServer (NewInMemory 120) ∅ [], λ _, None) events0).1) = Found q) ∧
  (∃ q, handleGet 150 "a" (with_reg (reg_tick 150 (reg (foldl nrfStep
          (mkServer (mkRedis (∅ : RedisDB) 120) ∅ [], λ _, None) events0).1))
          (foldl nrfStep (mkServer (mkRedis (∅ : RedisDB) 120) ∅ [], λ _, None) events0).1) = Found q).
Proof.
  split.
  - destruct (nrf_leases 120 (NewInMemory 120) ∅ events0 150) as (_ & T & _).
    + split; [done|]. intros id p. cbn. by rewrite lookup_empty.
    + intros k. cbn. unfold inMemory_lease. cbn. by rewrite lookup_empty.
    + edestruct (T "a"%string) as (q & Hq & _); [vm_compute; reflexivity|lia| |exists q; exact Hq].
      vm_compute. repeat split; intros p t [= <- <-]; reflexivity.
  - destruct (nrf_leases 120 (mkRedis (∅ : RedisDB) 120) ∅ events0 150) as (_ & T & _).
    + split; [done|]. intros id p x. cbn. by rewrite lookup_empty.
    + intros k. cbn. unfold redis_lease. cbn. by rewrite lookup_empty.
    + edestruct (T "a"%string) as (q & Hq & _); [vm_compute; reflexivity|lia| |exists q; exact Hq].
      vm_compute. repeat split; intros p t [= <- <-]; reflexivity.
Defined.

(** ** Notifications *)
(** One notification a matching subscription, and no other. *)
Lemma notify_exact {R : Type} (event : NFEvent) (p : NFProfile) (s : Server R) :
  ∃ l, sent (notifySubscribers event p s) = sent s ++ l ∧
    length l = size (filter (λ kv, subscriptionMatches (NFType p) (NFInstanceID p) kv.2 = true) (subs s)) ∧
    ∀ uri d, (uri, d) ∈ l ↔
      d = mkNotificationData event ("/nnrf-nfm/v1/nf-instances/" ++ NFInstanceID p)
            (match event with NF_DEREGISTERED => None | _ => Some p end) ∧
      ∃ k sub, subs s !! k = Some sub ∧ NotificationURI sub = uri ∧
               (ReqNFType sub = ""%string ∨ ReqNFType sub = NFType p) ∧
               (ReqNFInstanceID sub = ""%string ∨ ReqNFInstanceID sub = NFInstanceID p).
Proof.
  eexists. split; [reflexivity|]. split.
  - rewrite length_fmap. unfold Matching. rewrite <- length_map_to_list.
    rewrite map_filter_alt, map_to_list_to_map.
    + generalize (map_to_list (subs s)). intros L. induction L as [|[k v] L IH]; [done|]. cbn [fmap list_fmap].
      rewrite !filter_cons. cbn [snd]. case_decide; cbn [length]; by rewrite IH.
    + eapply (sublist_NoDup _ (map_to_list (subs s)).*1); [apply NoDup_fst_map_to_list|].
      by apply fmap_sublist, sublist_filter.
  - intros uri d. rewrite list_elem_of_fmap. unfold Matching. split.
    + intros (sub & [= -> ->] & [Hm ([k sub'] & -> & Hk%elem_of_map_to_list)%list_elem_of_fmap]%list_elem_of_filter).
      split; [done|]. exists k, sub'. cbn in *. unfold subscriptionMatches in Hm.
      rewrite andb_true_iff, !orb_true_iff, !String.eqb_eq in Hm. by destruct Hm.
    + intros (-> & k & sub & Hk & <- & Ht & Hi). exists sub. split; [done|]. apply list_elem_of_filter. split.
      * unfold subscriptionMatches. by rewrite andb_true_iff, !orb_true_iff, !String.eqb_eq.
      * apply list_elem_of_fmap. exists (k, sub). split; [done|]. by apply elem_of_map_to_list.
Qed.

(** ** Where the implementations differ, and where they leave the documentation *)
Lemma InMemory_update_unknown now id p r : profiles r !! id = None → Update now id p r = None.
Proof. intros H. unfold Update. by rewrite H. Qed.

(** With Redis the update of an unknown instance succeeds and creates a profile that
    never expires. *)
Lemma Redis_update_creates {D : Type} `{!RedisClient D} `{!RedisLaws D} now id p (r : RedisRegistry D) :
  liveEntry now (entry (client r) (key id)) = None →
  ∃ r' q, RedisUpdate now id p r = Some (r', q) ∧
    ∀ later, RedisGet later id r' = Some (serialized (set_NFInstanceID id p)).
Proof.
  intros H. unfold RedisUpdate.
  destruct (redis_setKeepTTL now (key id) (serialized (set_NFInstanceID id p)) (client r)) as (d & -> & Hd).
  eexists _, _. split; [reflexivity|]. intros later. unfold RedisGet. rewrite redis_get. cbn [client].
  rewrite Hd, decide_True, H by done. done.
Qed.

Definition prioritised (id : string) (n : Z) : NFProfile :=
  mkNFProfile id "SMF" "" 0 [] [] [] "" [] [] [] 0 n 0 0.

(** The results of a discovery are not in the order of their priority. *)
Lemma Discover_unordered :
  ∃ r, Priority <$> Discover (mkFilter "SMF" "AMF" [] [] "") r = [2; 1].
Proof.
  destruct (decide (Priority <$> Discover (mkFilter "SMF" "AMF" [] [] "")
              (mkInMemory (<["a"%string := prioritised "a" 1]> {["b"%string := prioritised "b" 2]}) 120) = [2; 1])) as [E|E].
  - eexists. exact E.
  - exists (mkInMemory (<["a"%string := prioritised "a" 2]> {["b"%string := prioritised "b" 1]}) 120).
    revert E. vm_compute. intros E. first [reflexivity|by destruct E].
Qed.

(** A heartbeat timer of the instance's own is confirmed, but the eviction does not
    look at it. *)
Lemma own_timer_ignored :
  let p := set_HeartBeatTimer 300 (profile0 "a") in
  let '(s, a) := handleRegister 0 "a" (Some p) (mkServer (NewInMemory 120) ∅ []) in
  a = Created "/nnrf-nfm/v1/nf-instances/a" (Some (set_NFStatus "REGISTERED" p)) ∧
  handleGet 121 "a" (with_reg (reg_tick 121 (reg s)) s) = Problem 404 "RESOURCE_URI_STRUCTURE_NOT_FOUND".
Proof. vm_compute. split; reflexivity. Qed.
