(* ===== verification/GoText.v ===== *)
(** * Decimal numbers in text, as Go's [strconv] and [fmt] read and write them

    Used by the network functions that take numbers from query parameters and
    configuration. *)
From S2P Require Import Prelude.
Open Scope Z_scope.

(** The value of a string of decimal digits after [acc]; [None] for any other character. *)
Fixpoint digitsValue (acc : Z) (b : bytes) : option Z :=
  match b with
  | [] => Some acc
  | c :: r => if (48 <=? c) && (c <=? 57) then digitsValue (10 * acc + (c - 48)) r else None
  end.

Definition maxInt : Z := 9223372036854775807.
Definition minInt : Z := -9223372036854775808.

(** [strconv.Atoi]: the value, and whether there was no error.  A syntax error gives 0,
    a number out of range the nearest bound. *)
Definition Atoi (s : bytes) : Z * bool :=
  let '(neg, ds) := match s with
                    | c :: r => if c =? 45 then (true, r) else if c =? 43 then (false, r) else (false, s)
                    | [] => (false, [])
                    end in
  match ds with
  | [] => (0, false)
  | _ =>
      match digitsValue 0 ds with
      | None => (0, false)
      | Some v =>
          let v := if (neg : bool) then - v else v in
          if v <? minInt then (minInt, false) else if maxInt <? v then (maxInt, false) else (v, true)
      end
  end.

(** [strconv.Itoa]: at most 19 digits and a sign. *)
Fixpoint digitsOf (fuel : nat) (v : Z) (acc : bytes) : bytes :=
  match fuel with
  | O => acc
  | S n => let acc := (48 + v mod 10) :: acc in if v / 10 =? 0 then acc else digitsOf n (v / 10) acc
  end.
Definition Itoa (v : Z) : bytes :=
  if v <? 0 then 45 :: digitsOf 20 (- v) [] else digitsOf 20 v [].

Lemma digitsValue_app acc a b :
  digitsValue acc (a ++ b) = match digitsValue acc a with Some v => digitsValue v b | None => None end.
Proof. revert acc; induction a as [|c a IH]; intros acc; cbn; [done|]. by destruct (_ && _). Qed.

(** The digits written for [v], followed by [rest], are read as [v] and then the rest. *)
Lemma digitsOf_value fuel v rest :
  0 <= v < 10 ^ Z.of_nat fuel → (fuel ≠ 0)%nat →
  digitsValue 0 (digitsOf fuel v rest) = digitsValue v rest.
Proof.
  revert v rest; induction fuel as [|n IH]; intros v rest Hv Hn; [done|].
  cbn [digitsOf]. destruct (Z.eqb_spec (v / 10) 0) as [E|E].
  - cbn [digitsValue]. replace ((48 <=? 48 + v mod 10) && (48 + v mod 10 <=? 57)) with true by dlia.
    f_equal. dlia.
  - rewrite Nat2Z.inj_succ, Z.pow_succ_r in Hv by lia. rewrite IH.
    + cbn [digitsValue]. replace ((48 <=? 48 + v mod 10) && (48 + v mod 10 <=? 57)) with true by dlia.
      f_equal. dlia.
    + split; [dlia|]. apply Z.div_lt_upper_bound; lia.
    + intros ->. cbn in Hv. dlia.
Qed.

Lemma digitsOf_head fuel v rest :
  0 <= v → (fuel ≠ 0)%nat → ∃ c r, digitsOf fuel v rest = c :: r ∧ 48 <= c <= 57.
Proof.
  revert v rest; induction fuel as [|n IH]; intros v rest Hv Hn; [done|]. cbn [digitsOf].
  destruct (Z.eqb_spec (v / 10) 0) as [E|E]; [eexists _, _; split; [done|dlia]|].
  destruct n as [|n]; [cbn; eexists _, _; split; [done|dlia]|]. apply IH; [dlia|done].
Qed.

Lemma Atoi_Itoa v : is_i64 v → Atoi (Itoa v) = (v, true).
Proof.
  unfold is_i64. intros Hv. unfold Itoa, Atoi.
  destruct (Z.ltb_spec v 0) as [N|N]; cbn iota.
  - cbn [Z.eqb Pos.eqb]. change (45 =? 45) with true. cbn iota.
    destruct (digitsOf_head 20 (- v) []) as (c & r & E & _); [lia|done|]. rewrite E, <- E.
    rewrite digitsOf_value by (try done; change (10 ^ Z.of_nat 20) with 100000000000000000000; lia). cbn [digitsValue].
    unfold minInt, maxInt. rewrite Z.opp_involutive.
    destruct (Z.ltb_spec v (-9223372036854775808)); [lia|]. destruct (Z.ltb_spec 9223372036854775807 v); [lia|done].
  - destruct (digitsOf_head 20 v []) as (c & r & E & Hc); [lia|done|]. rewrite E.
    destruct (Z.eqb_spec c 45); [lia|]. destruct (Z.eqb_spec c 43); [lia|]. rewrite <- E.
    rewrite digitsOf_value by (try done; change (10 ^ Z.of_nat 20) with 100000000000000000000; lia). cbn [digitsValue].
    unfold minInt, maxInt.
    destruct (Z.ltb_spec v (-9223372036854775808)); [lia|]. destruct (Z.ltb_spec 9223372036854775807 v); [lia|done].
Qed.
