(* ===== verification/BsfStore.v ===== *)
(** * The BSF: bindings of PDU sessions to PCFs

    [nf/bsf/internal/store/store.go] and the handlers of
    [nf/bsf/internal/server/server.go].  The store has two secondary indexes beside the
    table of bindings; a discovery uses one of them or scans the table.  The body of a
    registration is the decoded binding, the query parameters are the function [params]
    (the empty string for an absent one), and [unmarshal] decodes the JSON text of a
    slice.  Logging, metrics and the HTTP layer are left out. *)
From S2P Require Import Prelude GoText.
Open Scope Z_scope.

(** ** Data *)
Record Snssai := mkSnssai { Sst : Z; Sd : string }.
Record IpEndPoint := mkIpEndPoint { Ipv4Address : string; Ipv6Address : string; Transport : string; EpPort : Z }.
Record PcfBinding := mkBinding {
  BindingID : string; Supi : string; Gpsi : string; Ipv4Addr : string; Ipv6Prefix : string;
  MacAddr48 : string; IpDomain : string; Dnn : string; BSnssai : Snssai;
  PcfFqdn : string; PcfIpEndPoints : list IpEndPoint; PcfId : string;
  PcfDiamHost : string; PcfDiamRealm : string; RecoveryTime : string; BindLevel : string; SuppFeat : string
}.
Record DiscoveryQuery := mkQuery {
  qIpv4Addr : string; qIpv6Prefix : string; qMacAddr48 : string; qSupi : string; qGpsi : string;
  qDnn : string; qSnssai : option Snssai; qIpDomain : string
}.

Definition set_BindingID (id : string) (b : PcfBinding) : PcfBinding :=
  mkBinding id (Supi b) (Gpsi b) (Ipv4Addr b) (Ipv6Prefix b) (MacAddr48 b) (IpDomain b) (Dnn b) (BSnssai b)
    (PcfFqdn b) (PcfIpEndPoints b) (PcfId b) (PcfDiamHost b) (PcfDiamRealm b) (RecoveryTime b) (BindLevel b)
    (SuppFeat b).

Definition isEmpty (s : string) : bool := String.eqb s "".

Definition HasAnyParam (q : DiscoveryQuery) : bool :=
  negb (isEmpty (qIpv4Addr q)) || negb (isEmpty (qIpv6Prefix q)) || negb (isEmpty (qMacAddr48 q))
  || negb (isEmpty (qSupi q)) || negb (isEmpty (qGpsi q)) || negb (isEmpty (qDnn q))
  || bool_decide (is_Some (qSnssai q)) || negb (isEmpty (qIpDomain q)).

(** ** The store *)
Record Store := mkStore {
  bindings : gmap string PcfBinding; ipv4Index : gmap string string; supiIndex : gmap string (list string)
}.
Definition New : Store := mkStore ∅ ∅ ∅.

Definition ipv4Key (ipv4Addr ipDomain : string) : string := (ipv4Addr ++ "|" ++ ipDomain)%string.
(** The key of a binding, and the one a query asks for. *)
Definition bindingKey (b : PcfBinding) : string := ipv4Key (Ipv4Addr b) (IpDomain b).

Definition Create (b : PcfBinding) (s : Store) : option (Store * PcfBinding) :=
  if negb (isEmpty (Ipv4Addr b)) &&
     match ipv4Index s !! bindingKey b with Some existing => negb (isEmpty existing) | None => false end
  then None
  else
    Some (mkStore (<[BindingID b := b]> (bindings s))
            (if isEmpty (Ipv4Addr b) then ipv4Index s else <[bindingKey b := BindingID b]> (ipv4Index s))
            (if isEmpty (Supi b) then supiIndex s
             else <[Supi b := default [] (supiIndex s !! Supi b) ++ [BindingID b]]> (supiIndex s)), b).

Definition removeSupi (supi bindingID : string) (m : gmap string (list string)) : gmap string (list string) :=
  match filter (λ id, id ≠ bindingID) (default [] (m !! supi)) with
  | [] => delete supi m
  | filtered => <[supi := filtered]> m
  end.

Definition Delete (bindingID : string) (s : Store) : option Store :=
  b ← bindings s !! bindingID;
  Some (mkStore (delete bindingID (bindings s))
          (if isEmpty (Ipv4Addr b) then ipv4Index s else delete (bindingKey b) (ipv4Index s))
          (if isEmpty (Supi b) then supiIndex s else removeSupi (Supi b) bindingID (supiIndex s))).

(** An empty field of the query matches anything. *)
Definition fieldMatches (want have : string) : bool := isEmpty want || String.eqb have want.
Definition matchesQuery (b : PcfBinding) (q : DiscoveryQuery) : bool :=
  fieldMatches (qIpv4Addr q) (Ipv4Addr b) && fieldMatches (qIpv6Prefix q) (Ipv6Prefix b)
  && fieldMatches (qMacAddr48 q) (MacAddr48 b) && fieldMatches (qSupi q) (Supi b)
  && fieldMatches (qGpsi q) (Gpsi b) && fieldMatches (qDnn q) (Dnn b)
  && fieldMatches (qIpDomain q) (IpDomain b)
  && match qSnssai q with
     | Some sn => (Sst (BSnssai b) =? Sst sn) && fieldMatches (Sd sn) (Sd (BSnssai b))
     | None => true
     end.

(** The first of the bindings with these identifiers that matches. *)
Fixpoint firstMatch (q : DiscoveryQuery) (s : Store) (ids : list string) : option PcfBinding :=
  match ids with
  | [] => None
  | id :: r =>
      match bindings s !! id with
      | Some b => if matchesQuery b q then Some b else firstMatch q s r
      | None => firstMatch q s r
      end
  end.

(** The scan is in any order: here the one of [map_to_list]. *)
Definition FindByQuery (q : DiscoveryQuery) (s : Store) : option PcfBinding :=
  if negb (isEmpty (qIpv4Addr q)) then
    id ← ipv4Index s !! ipv4Key (qIpv4Addr q) (qIpDomain q); firstMatch q s [id]
  else if negb (isEmpty (qSupi q)) then
    ids ← supiIndex s !! qSupi q; firstMatch q s ids
  else firstMatch q s (map_to_list (bindings s)).*1.

(** ** The handlers *)
Inductive Resp :=
  | Problem (status : Z) (cause : string)
  | Created (location : string) (b : PcfBinding)
  | NoContent
  | Found (b : PcfBinding).

(** [uuid] is the identifier that is drawn, [host] the configured name or the host of
    the request. *)
Definition handleRegister (uuid host : string) (body : option PcfBinding) (s : Store) : Store * Resp :=
  match body with
  | None => (s, Problem 400 "MANDATORY_IE_INCORRECT")
  | Some b =>
      if isEmpty (Dnn b) then (s, Problem 400 "MANDATORY_IE_MISSING")
      else if Sst (BSnssai b) =? 0 then (s, Problem 400 "MANDATORY_IE_MISSING")
      else if isEmpty (Ipv4Addr b) && isEmpty (Ipv6Prefix b) && isEmpty (MacAddr48 b)
      then (s, Problem 400 "MANDATORY_IE_MISSING")
      else if isEmpty (PcfFqdn b) && bool_decide (PcfIpEndPoints b = []) then (s, Problem 400 "MANDATORY_IE_MISSING")
      else
        match Create (set_BindingID uuid b) s with
        | None => (s, Problem 403 "EXISTING_BINDING_INFO_FOUND")
        | Some (s', created) =>
            (s', Created ("https://" ++ host ++ "/nbsf-management/v1/pcfBindings/" ++ BindingID created) created)
        end
  end.

Definition handleDeregister (bindingID : string) (s : Store) : Store * Resp :=
  match Delete bindingID s with
  | None => (s, Problem 404 "")
  | Some s' => (s', NoContent)
  end.

Definition parseDiscoveryQuery (unmarshal : string → option Snssai) (params : string → string) : DiscoveryQuery :=
  mkQuery (params "ipv4Addr"%string) (params "ipv6Prefix"%string) (params "macAddr48"%string)
    (params "supi"%string) (params "gpsi"%string) (params "dnn"%string)
    (if negb (isEmpty (params "snssai"%string)) then unmarshal (params "snssai"%string)
     else if negb (isEmpty (params "sst"%string))
     then let '(v, ok) := Atoi (str (params "sst"%string)) in
          Some (mkSnssai (if (ok : bool) then v else 0) (params "sd"%string))
     else None)
    (params "ipDomain"%string).

Definition handleDiscover (unmarshal : string → option Snssai) (params : string → string) (s : Store) : Resp :=
  let q := parseDiscoveryQuery unmarshal params in
  if negb (HasAnyParam q) then Problem 400 "MANDATORY_IE_MISSING"
  else match FindByQuery q s with Some b => Found b | None => Problem 404 "" end.














(** ** Over a history of requests *)
Inductive BsfEvent := BRegister (uuid host : string) (body : option PcfBinding) | BDeregister (id : string).

(** The store, and the bindings that were confirmed to a PCF and not withdrawn since. *)
Definition bsfStep (sr : Store * gmap string PcfBinding) (ev : BsfEvent) : Store * gmap string PcfBinding :=
  match ev with
  | BRegister uuid host body =>
      let '(s', a) := handleRegister uuid host body sr.1 in
      (s', match a with Created _ b => <[BindingID b := b]> sr.2 | _ => sr.2 end)
  | BDeregister id =>
      let '(s', a) := handleDeregister id sr.1 in
      (s', match a with NoContent => delete id sr.2 | _ => sr.2 end)
  end.








Definition binding0 (supi addr domain : string) : PcfBinding :=
  mkBinding "" supi "" addr "" "" domain "internet" (mkSnssai 1 "") "pcf" [] "" "" "" "" "" "".
Definition history0 : list BsfEvent :=
  [BRegister "u1" "bsf" (Some (binding0 "imsi-1" "10.0.0.1" "")); BRegister "u2" "bsf" (Some (binding0 "imsi-1" "10.0.0.2" "d"));
   BRegister "u3" "bsf" (Some (binding0 "imsi-2" "10.0.0.1" "")); BDeregister "u1"].
Definition ask (k v : string) : string → string := λ x, if String.eqb x k then v else ""%string.


(** A query by IPv4 address without an IP domain does not find a binding registered
    with one. *)
Lemma domain_not_optional :
  (foldl bsfStep (New, ∅) history0).2 !! "u2"%string = Some (set_BindingID "u2" (binding0 "imsi-1" "10.0.0.2" "d")) ∧
  handleDiscover (λ _, None) (ask "ipv4Addr" "10.0.0.2") (foldl bsfStep (New, ∅) history0).1 = Problem 404 "".
Proof. vm_compute. by split. Qed.

(** Two bindings of one IPv6 prefix are both stored. *)
Lemma ipv6_duplicate_stored :
  let b := mkBinding "" "" "" "" "2001:db8::/64" "" "" "internet" (mkSnssai 1 "") "pcf" [] "" "" "" "" "" "" in
  size (foldl bsfStep (New, ∅) [BRegister "u1" "bsf" (Some b); BRegister "u2" "bsf" (Some b)]).2 = 2%nat.
Proof. vm_compute. reflexivity. Qed.
