(* ===== verification/NssfPolicy.v ===== *)
(** * The NSSF: slice selection at registration

    [nf/nssf/internal/slice/policy.go] and the handler of
    [nf/nssf/internal/server/server.go].  The query parameters are the function [params]
    (the empty string for an absent one) and [unmarshal] decodes the JSON text of the
    requested slices.  The AMF's client of the NSSF ([nf/amf/cmd/amf/clients.go]) is put
    on top of the handler and below the registration procedure. *)
From S2P Require Import Prelude GoText AmfContext AmfRegistration.
Open Scope Z_scope.

Record SliceID := mkSlice { SST : Z; SD : string }.
Record Store := mkStore { allowed : list SliceID }.
Definition New (l : list SliceID) : Store := mkStore l.

#[export] Instance SliceID_eq_dec : EqDecision SliceID. Proof. solve_decision. Defined.

(** The inner loop: whether one of the requested slices asks for [a]. *)
Fixpoint requestedMatch (a : SliceID) (requested : list SliceID) : bool :=
  match requested with
  | [] => false
  | r :: rest =>
      if negb (SST r =? SST a) then requestedMatch a rest
      else if String.eqb (SD r) "" || String.eqb (SD r) (SD a) then true
      else requestedMatch a rest
  end.
Fixpoint selectFrom (requested l : list SliceID) : list SliceID :=
  match l with
  | [] => []
  | a :: rest => if requestedMatch a requested then a :: selectFrom requested rest else selectFrom requested rest
  end.
Definition SelectForRegistration (s : Store) (requested : list SliceID) : list SliceID :=
  if (length requested =? 0)%nat then allowed s else selectFrom requested (allowed s).

Inductive Resp := Problem (status : Z) (cause : string) | Authorized (l : list SliceID).

Definition requestedOf (unmarshal : string → option (list SliceID)) (params : string → string) : list SliceID :=
  let raw := params "slice-info-request-for-registration.requestedNssai"%string in
  if negb (String.eqb raw "") then default [] (unmarshal raw)
  else
    let rawSST := params "requested-nssai.sst"%string in
    if negb (String.eqb rawSST "") then [mkSlice (Atoi (str rawSST)).1 (params "requested-nssai.sd"%string)] else [].

Definition handleNSSelection (unmarshal : string → option (list SliceID)) (params : string → string) (s : Store) : Resp :=
  if String.eqb (params "nf-type"%string) "" || String.eqb (params "nf-id"%string) ""
  then Problem 400 "MANDATORY_QUERY_PARAM_MISSING"
  else Authorized (SelectForRegistration s (requestedOf unmarshal params)).

(** ** What is selected *)
(** A request without a differentiator stands for every slice of its type. *)
Definition asksFor (r a : SliceID) : Prop := SST r = SST a ∧ (SD r = ""%string ∨ SD r = SD a).

Lemma requestedMatch_spec a l : requestedMatch a l = true ↔ ∃ r, r ∈ l ∧ asksFor r a.
Proof.
  induction l as [|r l IH]; cbn; [set_solver|]. unfold asksFor in *.
  destruct (Z.eqb_spec (SST r) (SST a)) as [E|E]; cbn [negb].
  - destruct (String.eqb_spec (SD r) ""); [set_solver|]. destruct (String.eqb_spec (SD r) (SD a)); cbn [orb]; set_solver.
  - set_solver.
Qed.

Lemma selectFrom_spec a requested l :
  a ∈ selectFrom requested l ↔ a ∈ l ∧ ∃ r, r ∈ requested ∧ asksFor r a.
Proof.
  induction l as [|b l IH]; cbn; [set_solver|]. rewrite <- requestedMatch_spec in *.
  destruct (requestedMatch b requested) eqn:E; rewrite ?elem_of_cons, IH; [naive_solver|].
  split; [naive_solver|]. intros [[->|?] ?]; [congruence|done].
Qed.

(** The selection keeps the order of the policy and repeats nothing. *)
Lemma SelectForRegistration_sublist s requested : sublist (SelectForRegistration s requested) (allowed s).
Proof.
  unfold SelectForRegistration. destruct (_ =? _)%nat; [done|].
  induction (allowed s) as [|a l IH]; cbn; [done|]. destruct (requestedMatch _ _); by constructor.
Qed.
Lemma SelectForRegistration_spec s requested a :
  a ∈ SelectForRegistration s requested ↔
  a ∈ allowed s ∧ (requested = [] ∨ ∃ r, r ∈ requested ∧ asksFor r a).
Proof.
  unfold SelectForRegistration. destruct (Nat.eqb_spec (length requested) 0) as [E|E].
  - destruct requested; [|done]. naive_solver.
  - rewrite selectFrom_spec. assert (requested ≠ []) by (by intros ->). naive_solver.
Qed.

Lemma or_iff_both (A B C D : Prop) : (A ↔ C) → (B ↔ D) → (A ∨ B ↔ C ∨ D).
Proof. tauto. Qed.

(** ** With the AMF *)
Section AmfClient.
Context (marshal : list SliceID → string) (unmarshal : string → option (list SliceID)).

Definition queryOf (nfType nfID : string) (requested : list SNSSAISubscribed) (k : string) : string :=
  if String.eqb k "nf-type" then nfType
  else if String.eqb k "nf-id" then nfID
  else if String.eqb k "slice-info-request-for-registration.requestedNssai" then
    if (0 <? length requested)%nat then marshal ((λ s, mkSlice (s_SST s) (s_SD s)) <$> requested) else ""%string
  else ""%string.

(** [reach] is whether the NSSF can be reached. *)
Definition HTTPNSSFClient_NSSelection (reach : bool) (nssf : Store) (nfType nfID : string)
    (requested : list SNSSAISubscribed) : option (list SNSSAISubscribed) :=
  if negb reach then None
  else match handleNSSelection unmarshal (queryOf nfType nfID requested) nssf with
       | Problem _ _ => None
       | Authorized l => Some ((λ a, mkSNSSAISubscribed (u8 (SST a)) (SD a) "" false) <$> l)
       end.

(** What the JSON coding of the Go library does on these texts: a list survives, and
    its text is not empty. *)
Hypothesis unmarshal_marshal : ∀ l, unmarshal (marshal l) = Some l.
Hypothesis marshal_text : ∀ l, marshal l ≠ ""%string.

Lemma client_selects nssf nfType nfID requested :
  nfType ≠ ""%string → nfID ≠ ""%string →
  HTTPNSSFClient_NSSelection true nssf nfType nfID requested =
  Some ((λ a, mkSNSSAISubscribed (u8 (SST a)) (SD a) "" false)
          <$> SelectForRegistration nssf ((λ s, mkSlice (s_SST s) (s_SD s)) <$> requested)).
Proof.
  intros H1 H2. unfold HTTPNSSFClient_NSSelection, handleNSSelection, requestedOf. cbn [negb queryOf String.eqb].
  change (queryOf nfType nfID requested "nf-type") with nfType.
  change (queryOf nfType nfID requested "nf-id") with nfID.
  destruct (String.eqb_spec nfType ""); [done|]. destruct (String.eqb_spec nfID ""); [done|]. cbn [orb].
  change (queryOf nfType nfID requested "slice-info-request-for-registration.requestedNssai") with
    (if (0 <? length requested)%nat then marshal ((λ s, mkSlice (s_SST s) (s_SD s)) <$> requested) else ""%string).
  change (queryOf nfType nfID requested "requested-nssai.sst") with ""%string.
  destruct requested as [|r l]; [done|]. cbn [length Nat.ltb Nat.leb].
  destruct (String.eqb_spec (marshal ((λ s, mkSlice (s_SST s) (s_SD s)) <$> r :: l)) "") as [E|E]; [by destruct (marshal_text _ E)|].
  cbn [negb]. by rewrite unmarshal_marshal.
Qed.

(** With the NSSF consulted at registration, the slices the AMF allows are, among
    the subscribed ones, those the policy of the NSSF and the request have in common: a
    subscribed slice is allowed exactly when a slice of the policy that was asked for
    (any, if nothing was) has its type, reduced to one octet, and its differentiator or
    none; except that when they have nothing in common at all every subscribed slice is
    allowed.  An NSSF that is not reachable is treated as if there were none. *)
Lemma nssf_selection_applied h (reach : bool) nssf requested subscribed s :
  h_nfInstanceID h ≠ ""%string →
  NSSelection (h_clients h) = Some (HTTPNSSFClient_NSSelection reach nssf "AMF") →
  (s ∈ computeAllowed h requested subscribed ↔
   s ∈ subscribed ∧
   if reach then
     (∀ a r, a ∈ allowed nssf → r ∈ requested → ¬ asksFor (mkSlice (s_SST r) (s_SD r)) a) ∧ (requested ≠ [] ∨ allowed nssf = []) ∨
     ∃ a, a ∈ allowed nssf ∧
       (requested = [] ∨ ∃ r, r ∈ requested ∧ asksFor (mkSlice (s_SST r) (s_SD r)) a) ∧
       u8 (SST a) = s_SST s ∧ (SD a = ""%string ∨ SD a = s_SD s)
   else requested = [] ∨ ∃ r, r ∈ requested ∧ slice_matches r s = true).
Proof.
  intros Hid Hc. unfold computeAllowed. rewrite Hc.
  destruct reach; [|cbn [HTTPNSSFClient_NSSelection negb]; apply filterAllowed_spec].
  rewrite client_selects by done. rewrite filterAllowed_spec.
  set (sel := SelectForRegistration _ _).
  assert (∀ a, a ∈ sel ↔ a ∈ allowed nssf ∧
            (requested = [] ∨ ∃ r, r ∈ requested ∧ asksFor (mkSlice (s_SST r) (s_SD r)) a)) as Hsel.
  { intros a. unfold sel. rewrite SelectForRegistration_spec. split; intros [Ha H]; (split; [done|]).
    - destruct H as [H|(r & Hr & H)]; [left; by destruct requested|]. right.
      apply list_elem_of_fmap in Hr as (x & -> & Hx). eauto.
    - destruct H as [->|(r & Hr & H)]; [by left|]. right. eexists. split; [|exact H].
      apply list_elem_of_fmap. eauto. }
  clearbody sel. apply and_iff_compat_l, or_iff_both.
  - split.
    + intros E%fmap_nil_inv. subst sel. split.
      * intros a r Ha Hr H. apply (not_elem_of_nil a). apply Hsel. eauto 6.
      * destruct requested; [|by left]. right. destruct (allowed nssf) as [|a l]; [done|].
        destruct (not_elem_of_nil a). apply Hsel. split; [by left|by left].
    + intros [H1 H2]. destruct sel as [|a l]; [done|].
      assert (a ∈ a :: l) as Ha by left. apply Hsel in Ha as (Ha & [->|(r & Hr & Hra)]); [|by destruct (H1 a r Ha Hr)].
      destruct H2 as [|H2]; [done|]. rewrite H2 in Ha. by apply not_elem_of_nil in Ha.
  - split.
    + intros (req & (a & -> & Ha)%list_elem_of_fmap & Hm). exists a. apply Hsel in Ha as [Ha Hr].
      unfold slice_matches in Hm. cbn in Hm. apply andb_true_iff in Hm as [H1%Z.eqb_eq H2%orb_true_iff].
      rewrite !String.eqb_eq in H2. done.
    + intros (a & Ha & Hr & H1 & H2). eexists. split; [apply list_elem_of_fmap; exists a; split; [done|by apply Hsel]|].
      unfold slice_matches. cbn. apply andb_true_iff. split; [by apply Z.eqb_eq|]. apply orb_true_iff.
      by rewrite !String.eqb_eq.
Qed.
End AmfClient.

(** A coding of lists of slices into texts, to run the composition. *)
#[export] Instance SliceID_countable : Countable SliceID.
Proof. apply (inj_countable' (λ s, (SST s, SD s)) (λ p, mkSlice p.1 p.2)). by intros []. Defined.

Fixpoint bitText (p : positive) : string :=
  match p with
  | xH => "."%string
  | xO p => ("0" ++ bitText p)%string
  | xI p => ("1" ++ bitText p)%string
  end.
Fixpoint textBits (s : string) : positive :=
  match s with
  | String c r => if Ascii.eqb c (Ascii.ascii_of_nat 48) then xO (textBits r) else if Ascii.eqb c (Ascii.ascii_of_nat 49) then xI (textBits r) else xH
  | EmptyString => xH
  end.
Lemma textBits_bitText p : textBits (bitText p) = p.
Proof.
  induction p as [p IH|p IH|]; [|change (textBits (bitText p~0)) with (xO (textBits (bitText p))); by rewrite IH|done].
  change (textBits (bitText p~1)) with (xI (textBits (bitText p))). by rewrite IH.
Qed.

Definition listText (l : list SliceID) : string := bitText (encode l).
Definition textList (s : string) : option (list SliceID) := decode (textBits s).

Definition amf0 (c : option (string → list SNSSAISubscribed → option (list SNSSAISubscribed))) : RegistrationHandler :=
  NewRegistrationHandler (mkClients (λ _ _, None) (λ _ _ _ _, None) (λ _ _, None) (λ _, None) c None None None)
    "amf-1" "001" "01".
Definition policy0 : Store := New [mkSlice 1 "000001"; mkSlice 2 ""].
Definition sub0 (sst : Z) (sd : string) : SNSSAISubscribed := mkSNSSAISubscribed sst sd "internet" false.

(** A request that has nothing in common with the policy is answered with every
    subscribed slice. *)
Lemma nothing_in_common_allows_all :
  computeAllowed (amf0 (Some (HTTPNSSFClient_NSSelection listText textList true policy0 "AMF"))) [sub0 3 ""]
    [sub0 1 "000009"; sub0 4 ""] = [sub0 1 "000009"; sub0 4 ""].
Proof. vm_compute. reflexivity. Qed.

(** A text that does not decode is taken for no request. *)
Lemma undecoded_request_selects_all marshal unmarshal nssf params :
  params "slice-info-request-for-registration.requestedNssai"%string = marshal → marshal ≠ ""%string → unmarshal marshal = None →
  SelectForRegistration nssf (requestedOf unmarshal params) = allowed nssf.
Proof. intros E N U. unfold requestedOf. rewrite E. destruct (String.eqb_spec marshal ""); [done|]. cbn. by rewrite U. Qed.
