(* ===== verification/CryptoSuci.v ===== *)
(** * Concealed subscription identifiers

    [shared/crypto/suci/suci.go]: the text form of a SUCI, the null scheme and
    protection scheme Profile A (X25519, AES-128 in counter mode with the stream of
    the source, HMAC-SHA-256).  The scalar multiplication of [golang.org/x/crypto] is
    the class [Curve]; what is assumed of it is that key agreement is symmetric.
    Profile B (elliptic.P256) is not modelled; the UDM does not call it.

    Texts are lists of octets.  The theorem at the end takes the identity of a
    subscriber through the NAS codec and the AMF to the function the UDM calls. *)
From stdpp Require Import pretty.
From S2P Require Import Prelude NasReader NasIE GoCrypto GoText CryptoNas CryptoAka AmfRegistration.
Open Scope Z_scope.

Class Curve := { X25519 : bytes → bytes → option bytes; Basepoint : bytes }.

(** ** Data *)
Definition ProfileNull : Z := 0.
Definition ProfileA : Z := 1.

Record SUCI := mkSUCIText {
  su_SUPIFormat : Z; su_MCC : bytes; su_MNC : bytes; su_RoutingIndicator : bytes;
  ProtectionScheme : Z; su_HomeNetworkPublicKeyID : Z; su_SchemeOutput : bytes
}.
Record DeconceaResult := mkDeconcea { MSIN : bytes; SUPI : bytes }.

(** ** Digits *)
(** The loop over the digits, two at a time. *)
Fixpoint encodeBCDLowNibbleFirst (digits : bytes) : bytes :=
  match digits with
  | [] => []
  | [d] => [Z.lor (u8 (d - 48)) 0xF0]
  | d :: e :: r => Z.lor (u8 (d - 48)) (u8 (u8 (e - 48) ≪ 4)) :: encodeBCDLowNibbleFirst r
  end.

Fixpoint decodeBCDLowNibbleFirst (b : bytes) : bytes :=
  match b with
  | [] => []
  | byt :: r =>
      let high := Z.land (byt ≫ 4) 0x0F in
      u8 (48 + Z.land byt 0x0F) :: (if negb (high =? 0x0F) then [u8 (48 + high)] else []) ++ decodeBCDLowNibbleFirst r
  end.

Definition buildSUPI (s : SUCI) (msin : bytes) : bytes :=
  if su_SUPIFormat s =? 0 then str "imsi-" ++ su_MCC s ++ su_MNC s ++ msin else msin.

(** ** Keys, counter mode and MAC *)
(** The expansion loop: the fuel is the number of blocks of 32 octets that is needed. *)
Fixpoint eciesExpand (fuel : nat) (sharedSecret sharedInfo : bytes) (total : nat) (counter : Z) (out : bytes) : bytes :=
  match fuel with
  | O => out
  | S n =>
      if (length out <? total)%nat then
        let ctr := [u8 (counter ≫ 24); u8 (counter ≫ 16); u8 (counter ≫ 8); u8 counter] in
        eciesExpand n sharedSecret sharedInfo total (counter + 1) (out ++ sha256 (sharedSecret ++ ctr ++ sharedInfo))
      else out
  end.
Definition eciesKDF (sharedSecret sharedInfo : bytes) (encLen macLen : nat) : res (bytes * bytes) :=
  let total := (encLen + macLen)%nat in
  let out := eciesExpand (S (total / 32)) sharedSecret sharedInfo total 1 [] in
  encKey ← slice out 0 encLen;
  macKey ← slice out encLen (encLen + macLen);
  Ok (encKey, macKey).

Definition hmacSHA256Truncated (key data : bytes) (length : nat) : res bytes := slice (hmac_sha256 key data) 0 length.

Record ctrStream := mkCtrStream { counter : bytes; keystream : bytes }.
Definition newCTR (iv : bytes) : ctrStream := mkCtrStream iv [].

Fixpoint XORKeyStream (key : bytes) (c : ctrStream) (src : bytes) : bytes :=
  match src with
  | [] => []
  | b :: r =>
      let c := if (length (keystream c) =? 0)%nat
               then mkCtrStream (reverse (inc_loop (reverse (counter c)))) (aes_encrypt key (counter c))
               else c in
      match keystream c with
      | k :: ks => Z.lxor b k :: XORKeyStream key (mkCtrStream (counter c) ks) r
      | [] => []
      end
  end.
Definition aesCTREncryptIV (key iv plaintext : bytes) : bytes := XORKeyStream key (newCTR iv) plaintext.
Definition aesCTRDecryptIV (key iv ciphertext : bytes) : bytes := aesCTREncryptIV key iv ciphertext.

(** ** Deconcealment *)
Definition DeconceaNull (s : SUCI) : res DeconceaResult :=
  if negb (ProtectionScheme s =? ProfileNull) then Err "suci: DeconceaNull called with scheme %d"
  else let msin := decodeBCDLowNibbleFirst (su_SchemeOutput s) in Ok (mkDeconcea msin (buildSUPI s msin)).

Section ProfileA.
Context `{!Curve}.

Definition DeconceaProfileA (s : SUCI) (homeNetPrivKey : bytes) : res DeconceaResult :=
  let out := su_SchemeOutput s in
  if negb (ProtectionScheme s =? ProfileA) then Err "suci: not profile A"
  else if (length out <? 32 + 8)%nat then Err "suci: scheme output too short: %d"
  else
    ephPub ← slice out 0 32;
    ciphertext ← slice out 32 (length out - 8);
    mac ← slice_from out (length out - 8);
    match X25519 homeNetPrivKey ephPub with
    | None => Err "suci: ECDH: %w"
    | Some sharedSecret =>
        '(encKey, ivAndMacKey) ← eciesKDF sharedSecret ephPub 16 48;
        iv ← slice ivAndMacKey 0 16;
        macKey ← slice_from ivAndMacKey 16;
        expectedMAC ← hmacSHA256Truncated macKey ciphertext 8;
        if negb (bool_decide (mac = expectedMAC)) then Err "suci: MAC verification failed"
        else
          let msin := decodeBCDLowNibbleFirst (aesCTRDecryptIV encKey iv ciphertext) in
          Ok (mkDeconcea msin (buildSUPI s msin))
    end.

(** [ephPriv] is what the random generator returns. *)
Definition EncryptProfileA (ephPriv msin homeNetPubKey : bytes) (schemeID : Z) : res SUCI :=
  match X25519 ephPriv Basepoint with
  | None => Err "ephemeral"
  | Some ephPub =>
      match X25519 ephPriv homeNetPubKey with
      | None => Err "shared"
      | Some sharedSecret =>
          '(encKey, ivAndMacKey) ← eciesKDF sharedSecret ephPub 16 48;
          iv ← slice ivAndMacKey 0 16;
          macKey ← slice_from ivAndMacKey 16;
          let ciphertext := aesCTREncryptIV encKey iv (encodeBCDLowNibbleFirst msin) in
          mac ← hmacSHA256Truncated macKey ciphertext 8;
          Ok (mkSUCIText 0 [] [] [] ProfileA schemeID (ephPub ++ ciphertext ++ mac))
      end
  end.
End ProfileA.

(** ** The text form *)
(** The text up to the first separator, and what follows it if there is one. *)
Fixpoint cut (sep : Z) (s : bytes) : bytes * option bytes :=
  match s with
  | [] => ([], None)
  | c :: r => if c =? sep then ([], Some r) else let '(a, b) := cut sep r in (c :: a, b)
  end.
(** [strings.SplitN] for a separator of one octet. *)
Fixpoint SplitN (sep : Z) (n : nat) (s : bytes) : list bytes :=
  match n with
  | O => []
  | S O => [s]
  | S n => match cut sep s with (a, Some r) => a :: SplitN sep n r | (a, None) => [a] end
  end.

(** [strconv.ParseUint(s, 10, 8)] *)
Definition ParseUint8 (s : bytes) : option Z :=
  match s with [] => None | _ => v ← digitsValue 0 s; if 255 <? v then None else Some v end.

Definition ParseSUCIString (s : bytes) : res SUCI :=
  if negb (bool_decide (take 5 s = str "suci-")) then Err "suci: not a SUCI: %q"
  else
    match SplitN 45 6 s with
    | [_; encoded; ri; _; psi; out] =>
        if (length encoded <? 5)%nat || (6 <? length encoded)%nat then Err "suci: MCC+MNC field must be 5 or 6 chars, got %q"
        else
          mcc ← slice encoded 0 3;
          mnc ← slice_from encoded 3;
          match ParseUint8 psi, hexDecode out with
          | None, _ => Err "suci: protection scheme %q: %w"
          | _, None => Err "suci: scheme output %q is not valid hex: %w"
          | Some psi, Some schemeOutput => Ok (mkSUCIText 0 mcc mnc ri psi 0 schemeOutput)
          end
    | _ => Err "suci: invalid format (need 6 dash-separated fields): %q"
    end.

(** ** Digits, texts and numbers *)
Definition digits (b : bytes) : Prop := Forall (λ d, 48 <= d <= 57) b.

Lemma BCD_roundtrip ds : digits ds → decodeBCDLowNibbleFirst (encodeBCDLowNibbleFirst ds) = ds.
Proof.
  remember (length ds) as n eqn:Hn. revert ds Hn. induction (lt_wf n) as [n _ IH]. intros ds -> Hd.
  destruct ds as [|d [|e r]]; [done|..].
  - apply Forall_cons in Hd as [Hd _]. cbn [encodeBCDLowNibbleFirst decodeBCDLowNibbleFirst].
    rewrite (u8_small (d - 48)) by (unfold is_u8; lia).
    assert (∃ k, d = 48 + k ∧ 0 <= k < 10) as (k & -> & Hk) by (exists (d - 48); lia).
    replace (48 + k - 48) with k by lia.
    assert (k = 0 ∨ k = 1 ∨ k = 2 ∨ k = 3 ∨ k = 4 ∨ k = 5 ∨ k = 6 ∨ k = 7 ∨ k = 8 ∨ k = 9) as Hc by lia.
    by destruct Hc as [->|[->|[->|[->|[->|[->|[->|[->|[->| ->]]]]]]]]].
  - apply Forall_cons in Hd as [Hd [He Hr]%Forall_cons].
    cbn [encodeBCDLowNibbleFirst decodeBCDLowNibbleFirst].
    rewrite (u8_small (d - 48)), (u8_small (e - 48)) by (unfold is_u8; lia).
    rewrite Z.shiftl_mul_pow2 by lia. change (2 ^ 4) with 16. rewrite (u8_small ((e - 48) * 16)) by (unfold is_u8; lia).
    rewrite (Z.lor_comm (d - 48)), (lor_add ((e - 48) * 16) (d - 48) 4) by (change (2 ^ 4) with 16; lia || (rewrite Z.mod_mul; lia)).
    rewrite shiftr_div, !land_15 by lia. change (2 ^ 4) with 16.
    replace (((e - 48) * 16 + (d - 48)) mod 16) with (d - 48) by dlia.
    replace (((e - 48) * 16 + (d - 48)) / 16 mod 16) with (e - 48) by dlia.
    destruct (Z.eqb_spec (e - 48) 15); [lia|]. cbn [negb app].
    rewrite !u8_small by (unfold is_u8; lia). rewrite (IH (length r)); [|cbn; lia|done|done].
    f_equal; [lia|]. f_equal. lia.
Qed.

Lemma hexval_hexdigit d : 0 <= d < 16 → hexval (hexdigit d) = Some d.
Proof.
  intros Hd. unfold hexval, hexdigit. destruct (Z.ltb_spec d 10).
  - rewrite bool_decide_true by lia. f_equal. lia.
  - rewrite bool_decide_false, bool_decide_true by lia. f_equal. lia.
Qed.

Lemma hexDecode_hexEncode b : bytes_ok b → hexDecode (hexEncode b) = Some b.
Proof.
  induction 1 as [|x b Hx Hb IH]; [done|]. unfold is_u8 in Hx.
  change (hexEncode (x :: b)) with (hexdigit (x / 16 mod 16) :: hexdigit (x mod 16) :: hexEncode b).
  cbn [hexDecode]. rewrite !hexval_hexdigit by dlia. cbn [mbind option_bind]. rewrite IH. cbn. do 2 f_equal. dlia.
Qed.

Lemma hexEncode_chars b c : bytes_ok b → c ∈ hexEncode b → 48 <= c <= 57 ∨ 97 <= c <= 102.
Proof.
  intros Hb. unfold hexEncode. rewrite list_elem_of_bind. intros (x & Hc & Hx).
  unfold bytes_ok in Hb. rewrite Forall_forall in Hb. apply Hb in Hx. unfold is_u8 in Hx.
  assert (∀ d, 0 <= d < 16 → 48 <= hexdigit d <= 57 ∨ 97 <= hexdigit d <= 102) as H
    by (intros d Hd; unfold hexdigit; destruct (Z.ltb_spec d 10); lia).
  cbn in Hc. apply elem_of_cons in Hc as [-> | ->%list_elem_of_singleton]; apply H; dlia.
Qed.

Lemma cut_here sep a r : (sep ∉ a) → cut sep (a ++ sep :: r) = (a, Some r).
Proof.
  induction a as [|c a IH]; cbn.
  - by rewrite Z.eqb_refl.
  - rewrite not_elem_of_cons. intros [Hc Ha]. destruct (Z.eqb_spec c sep); [congruence|]. by rewrite IH.
Qed.
Lemma SplitN_cons sep n a r : (sep ∉ a) → SplitN sep (S (S n)) (a ++ sep :: r) = a :: SplitN sep (S n) r.
Proof. intros Ha. cbn [SplitN]. by rewrite cut_here. Qed.

Lemma digits_no_dash b : digits b → (45 ∉ b).
Proof. intros H Hi. unfold digits in H. rewrite Forall_forall in H. apply H in Hi. lia. Qed.

(** ** The counter mode of the source is the one of the Go library *)
(** The stream that is added, which does not depend on the text. *)
Fixpoint streamOf (key : bytes) (c : ctrStream) (n : nat) : bytes :=
  match n with
  | O => []
  | S n =>
      let c := if (length (keystream c) =? 0)%nat
               then mkCtrStream (reverse (inc_loop (reverse (counter c)))) (aes_encrypt key (counter c))
               else c in
      match keystream c with
      | k :: ks => k :: streamOf key (mkCtrStream (counter c) ks) n
      | [] => []
      end
  end.

Lemma XORKeyStream_stream key c src : XORKeyStream key c src = zip_with Z.lxor src (streamOf key c (length src)).
Proof.
  revert c; induction src as [|b r IH]; intros c; [done|]. cbn [XORKeyStream length streamOf].
  set (c' := if (length (keystream c) =? 0)%nat then _ else c).
  destruct (keystream c') as [|k ks]; [done|]. cbn [zip_with]. f_equal. apply IH.
Qed.

Lemma be_octets_mod n z : be_octets n (z mod 2 ^ (8 * Z.of_nat n)) = be_octets n z.
Proof.
  rewrite <- be_val_be_octets. rewrite <- (length_be_octets n z) at 1. by rewrite be_octets_be_val by apply be_octets_ok.
Qed.
Lemma ctr_stream_mod n key z : ctr_stream n key (z mod 2 ^ 128) = ctr_stream n key z.
Proof.
  revert z; induction n as [|n IH]; intros z; [done|]. cbn [ctr_stream]. f_equal.
  - change (2 ^ 128) with (2 ^ (8 * Z.of_nat 16)). by rewrite be_octets_mod.
  - rewrite <- (IH (z mod 2 ^ 128 + 1)), <- (IH (z + 1)). f_equal. by rewrite Z.add_mod_idemp_l.
Qed.

Lemma length_inc_loop l : length (inc_loop l) = length l.
Proof. induction l as [|b l IH]; cbn; [done|]. destruct (_ =? _); cbn; lia. Qed.
Lemma inc_loop_ok l : bytes_ok l → bytes_ok (inc_loop l).
Proof.
  induction 1 as [|b l Hb Hl IH]; cbn; [constructor|]. destruct (_ =? _); constructor; auto using u8_range.
Qed.

Lemma streamOf_ctr key n m ctr ks :
  length ctr = 16%nat → bytes_ok ctr → (n <= length ks + 16 * m)%nat →
  streamOf key (mkCtrStream ctr ks) n = take n (ks ++ ctr_stream m key (be_val ctr)).
Proof.
  revert m ctr ks; induction n as [|n IH]; intros m ctr ks Hl Hok Hn; [by rewrite take_0|]. cbn [streamOf].
  destruct ks as [|k ks]; cbn [keystream counter length Nat.eqb].
  - destruct m as [|m]; [cbn in Hn; lia|]. set (ctr' := reverse (inc_loop (reverse ctr))).
    assert (length ctr' = 16%nat) as Hl' by (unfold ctr'; by rewrite length_reverse, length_inc_loop, length_reverse).
    assert (bytes_ok ctr') as Hok' by (by apply Forall_reverse, inc_loop_ok, Forall_reverse).
    assert (be_val ctr' = (be_val ctr + 1) mod 2 ^ 128) as Hv.
    { unfold ctr'. rewrite inc_loop_spec by by apply Forall_reverse. by rewrite reverse_involutive, length_reverse, Hl. }
    cbn [ctr_stream app]. rewrite <- (ctr_stream_mod m key (be_val ctr + 1)), <- Hv.
    replace (be_octets 16 (be_val ctr)) with ctr by (rewrite <- Hl; symmetry; by apply be_octets_be_val).
    destruct (aes_encrypt key ctr) as [|k ks] eqn:E.
    + pose proof (length_aes_encrypt key ctr) as L. by rewrite E in L.
    + assert (length ks = 15%nat) as Lk by (pose proof (length_aes_encrypt key ctr) as L; rewrite E in L; cbn in L; lia).
      cbn [app firstn]. f_equal. apply IH; [done|done|]. cbn [length] in Hn. lia.
  - cbn [app firstn]. f_equal. apply IH; [done|done|]. cbn [length] in Hn. lia.
Qed.

(** The stream cipher of the source is AES in counter mode. *)
Lemma aesCTR_ctr key iv m : length iv = 16%nat → bytes_ok iv → aesCTREncryptIV key iv m = ctr_xor key iv m.
Proof.
  intros Hl Hok. unfold aesCTREncryptIV, newCTR, ctr_xor. rewrite XORKeyStream_stream.
  assert (length m <= 16 * S (length m / 16))%nat as H
    by (pose proof (Nat.div_mod_eq (length m) 16); pose proof (Nat.mod_upper_bound (length m) 16); lia).
  rewrite (streamOf_ctr key (length m) (S (length m / 16))) by (cbn [length]; auto). cbn [app].
  generalize (length_ctr_stream (S (length m / 16)) key (be_val iv)).
  generalize (ctr_stream (S (length m / 16)) key (be_val iv)). clear -H. intros st Hst.
  assert (length m <= length st)%nat as Hls by lia. clear H Hst.
  revert st Hls. induction m as [|x m IH]; intros [|y st] Hls; cbn in *; [done|done|lia|]. f_equal. apply IH. lia.
Qed.
Lemma aesCTR_twice key iv m :
  length iv = 16%nat → bytes_ok iv → aesCTRDecryptIV key iv (aesCTREncryptIV key iv m) = m.
Proof. intros Hl Hok. unfold aesCTRDecryptIV. rewrite !aesCTR_ctr by done. apply ctr_xor_twice. Qed.

(** ** Key derivation *)
Lemma put_be32_octets_ok v : bytes_ok (put_be32 v).
Proof. unfold put_be32. repeat constructor; apply u8_range. Qed.
Lemma sha256_ok m : bytes_ok (sha256 m).
Proof. unfold sha256, digest. cbn zeta. unfold bytes_ok. rewrite !Forall_app. split_and!; apply put_be32_octets_ok. Qed.

Lemma eciesExpand_more n ss info total c out : (length out < total)%nat →
  eciesExpand (S n) ss info total c out =
  eciesExpand n ss info total (c + 1) (out ++ sha256 (ss ++ [u8 (c ≫ 24); u8 (c ≫ 16); u8 (c ≫ 8); u8 c] ++ info)).
Proof. intros H. cbn [eciesExpand]. by apply Nat.ltb_lt in H as ->. Qed.
Lemma eciesExpand_stop n ss info total c out : (total <= length out)%nat → eciesExpand n ss info total c out = out.
Proof. intros H. destruct n; [done|]. cbn [eciesExpand]. by apply Nat.ltb_ge in H as ->. Qed.

(** The keys: 16 octets for the cipher, 16 of initial counter, 32 for the MAC. *)
Lemma eciesKDF_keys ss info :
  ∃ e i k, eciesKDF ss info 16 48 = Ok (e, i ++ k) ∧ length e = 16%nat ∧ length i = 16%nat ∧ length k = 32%nat ∧ bytes_ok i ∧ bytes_ok e.
Proof.
  set (h := λ c, sha256 (ss ++ [0; 0; 0; c] ++ info)).
  assert (eciesExpand (S ((16 + 48) / 32)) ss info (16 + 48) 1 [] = h 1 ++ h 2) as E.
  { change (S ((16 + 48) / 32)) with 3%nat. rewrite eciesExpand_more by (cbn [length]; lia).
    rewrite eciesExpand_more by (rewrite length_app, length_sha256; cbn [length]; lia).
    rewrite eciesExpand_stop by (rewrite !length_app, !length_sha256; cbn [length]; lia). by rewrite app_nil_l. }
  unfold eciesKDF. rewrite E. assert (length (h 1) = 32%nat ∧ length (h 2) = 32%nat) as [L1 L2] by (by unfold h; rewrite !length_sha256).
  assert (bytes_ok (h 1)) as K1 by apply sha256_ok. clearbody h. clear E.
  rewrite slice_Ok by (rewrite ?length_app; lia). cbn [res_bind mbind].
  rewrite slice_Ok by (rewrite ?length_app; lia). cbn [res_bind mbind].
  exists (take 16 (h 1)), (drop 16 (h 1)), (h 2).
  rewrite length_take, length_drop, L1, L2. split_and!; try done; [|by apply Forall_drop|by apply Forall_take].
  f_equal. f_equal.
  - rewrite drop_0, take_app_le by lia. f_equal.
  - change (16 + 48 - 16)%nat with 48%nat. rewrite drop_app_le by lia. rewrite take_ge; [done|]. rewrite length_app, length_drop. lia.
Qed.

(** ** Profile A *)
Class CurveLaws `{!Curve} := {
  curve_public a p : X25519 a Basepoint = Some p → length p = 32%nat ∧ bytes_ok p;
  curve_agree a b pa pb : X25519 a Basepoint = Some pa → X25519 b Basepoint = Some pb → X25519 a pb = X25519 b pa
}.

Lemma hmac_sha256_ok key m : bytes_ok (hmac_sha256 key m).
Proof. unfold hmac_sha256. cbn zeta. apply sha256_ok. Qed.

Lemma ctr_stream_ok n key z : bytes_ok key → bytes_ok (ctr_stream n key z).
Proof.
  intros Hk. revert z; induction n as [|n IH]; intros z; cbn [ctr_stream]; [constructor|].
  apply Forall_app; split; [by apply aes_encrypt_ok|apply IH].
Qed.
Lemma zip_lxor_ok a b : bytes_ok a → bytes_ok b → bytes_ok (zip_with Z.lxor a b).
Proof.
  intros Ha. revert b. induction Ha as [|x a Hx Ha IH]; intros b Hb; [constructor|].
  destruct Hb as [|y b Hy Hb]; constructor; [by apply lxor_u8|by apply IH].
Qed.

Lemma encodeBCD_ok ds : digits ds → bytes_ok (encodeBCDLowNibbleFirst ds).
Proof.
  remember (length ds) as n eqn:Hn. revert ds Hn. induction (lt_wf n) as [n _ IH]. intros ds -> Hd.
  destruct ds as [|d [|e r]]; cbn [encodeBCDLowNibbleFirst]; [constructor|..].
  - constructor; [|constructor]. apply lor_u8; [apply u8_range|unfold is_u8; lia].
  - apply Forall_cons in Hd as [_ [_ Hr]%Forall_cons].
    constructor; [apply lor_u8; apply u8_range|]. apply (IH (length r)); [cbn; lia|done|done].
Qed.

Section ProfileALaws.
Context `{!Curve} `{!CurveLaws}.

(** What a UE conceals with the public key of the home network, the private key
    reveals. *)
Lemma profileA_roundtrip ephPriv priv pub msin kid s :
  digits msin → X25519 priv Basepoint = Some pub → EncryptProfileA ephPriv msin pub kid = Ok s →
  ProtectionScheme s = ProfileA ∧ bytes_ok (su_SchemeOutput s) ∧
  ∀ mcc mnc ri k, DeconceaProfileA (mkSUCIText 0 mcc mnc ri ProfileA k (su_SchemeOutput s)) priv
                  = Ok (mkDeconcea msin (str "imsi-" ++ mcc ++ mnc ++ msin)).
Proof.
  intros Hm Hpub HE. unfold EncryptProfileA in HE.
  destruct (X25519 ephPriv Basepoint) as [ephPub|] eqn:He; [|done].
  destruct (X25519 ephPriv pub) as [ss|] eqn:Hs; [|done].
  destruct (curve_public _ _ He) as [Le Oe].
  rewrite (curve_agree _ _ _ _ He Hpub) in Hs.
  destruct (eciesKDF_keys ss ephPub) as (e & i & k & Hk & L1 & L2 & L3 & Oi & Oe').
  pose proof Hk as Hk'. rewrite Hk in HE. cbn [mbind res_bind] in HE.
  rewrite slice_Ok in HE by (rewrite ?length_app; lia). cbn [mbind res_bind] in HE. rewrite drop_0, take_app_length' in HE by lia.
  rewrite slice_from_Ok in HE by (rewrite ?length_app; lia). cbn [mbind res_bind] in HE. rewrite drop_app_length' in HE by lia.
  set (ct := aesCTREncryptIV e i _) in HE. unfold hmacSHA256Truncated in HE.
  rewrite slice_Ok in HE by (rewrite ?length_hmac_sha256; lia). cbn [mbind res_bind] in HE. rewrite drop_0 in HE.
  change (8 - 0)%nat with 8%nat in HE. set (mac := take 8 _) in HE. injection HE as <-.
  assert (length mac = 8%nat) as Lm by (unfold mac; rewrite length_take, length_hmac_sha256; lia).
  cbn [ProtectionScheme su_SchemeOutput]. split; [done|]. split.
  { apply Forall_app; split; [done|]. apply Forall_app; split; [|apply Forall_take, hmac_sha256_ok].
    unfold ct. rewrite aesCTR_ctr by done. apply zip_lxor_ok; [by apply encodeBCD_ok|]. by apply ctr_stream_ok. }
  intros mcc mnc ri kk. unfold DeconceaProfileA. cbn [ProtectionScheme su_SchemeOutput Z.eqb Pos.eqb negb ProfileA].
  set (out := ephPub ++ ct ++ mac).
  assert (length out = 40 + length ct)%nat as Lo by (unfold out; rewrite !length_app; lia).
  destruct (Nat.ltb_spec (length out) (32 + 8)); [lia|].
  rewrite slice_Ok by lia. cbn [mbind res_bind]. rewrite slice_Ok by lia. cbn [mbind res_bind].
  rewrite slice_from_Ok by lia. cbn [mbind res_bind].
  assert (take (32 - 0) (drop 0 out) = ephPub) as -> by (unfold out; rewrite drop_0, take_app_length' by lia; done).
  assert (drop (length out - 8) out = mac) as ->.
  { unfold out at 2. rewrite app_assoc. apply drop_app_length'. rewrite length_app. lia. }
  assert (take (length out - 8 - 32) (drop 32 out) = ct) as ->.
  { unfold out at 2. rewrite drop_app_length' by lia. apply take_app_length'. lia. }
  rewrite Hs, Hk'. cbn [mbind res_bind].
  rewrite slice_Ok by (rewrite ?length_app; lia). cbn [mbind res_bind]. rewrite drop_0, take_app_length' by lia.
  rewrite slice_from_Ok by (rewrite ?length_app; lia). cbn [mbind res_bind]. rewrite drop_app_length' by lia.
  unfold hmacSHA256Truncated. rewrite slice_Ok by (rewrite ?length_hmac_sha256; lia). cbn [mbind res_bind]. rewrite drop_0.
  change (8 - 0)%nat with 8%nat. fold mac. rewrite bool_decide_true by done. cbn [negb].
  unfold ct. rewrite aesCTR_twice, BCD_roundtrip by done. done.
Qed.
End ProfileALaws.

(** ** From the AMF's text *)
Lemma str_append a b : str (a +:+ b) = str a ++ str b.
Proof.
  unfold str. induction a as [|c a IH]; [done|]. change (String c a +:+ b) with (String c (a +:+ b)). cbn. f_equal. exact IH.
Qed.

Lemma scheme_text psi : 0 <= psi < 16 →
  ParseUint8 (str (pretty psi)) = Some psi ∧ (45 ∉ str (pretty psi)).
Proof.
  intros H. assert (psi ∈ (Z.of_nat <$> seq 0 16)) as Hi.
  { apply list_elem_of_fmap. exists (Z.to_nat psi). split; [lia|]. apply elem_of_seq. lia. }
  assert (Forall (λ p, ParseUint8 (str (pretty p)) = Some p ∧ Forall (λ c, c ≠ 45) (str (pretty p))) (Z.of_nat <$> seq 0 16)) as F.
  { apply (bool_decide_unpack _). vm_compute. exact I. }
  rewrite Forall_forall in F. destruct (F _ Hi) as [F1 F2]. split; [exact F1|].
  intros Hd. rewrite Forall_forall in F2. by apply (F2 45).
Qed.

Lemma ParseSUCIString_text fmt mcc mnc ri psi kid out :
  plmn_ok mcc mnc → bytes_ok ri → (45 ∉ ri) → 0 <= psi < 16 → bytes_ok out →
  ParseSUCIString (str (suci_string (mkSUCI fmt mcc mnc ri psi kid out))) = Ok (mkSUCIText 0 mcc mnc ri psi 0 out).
Proof.
  intros (L1 & L2 & D1 & D2) Hri Hd Hpsi Hout.
  assert (digits mcc ∧ digits mnc) as [G1 G2] by (split; (eapply Forall_impl; [eassumption|]); intros x Hx; unfold is_digit in Hx; lia).
  assert (∀ l, digits l → bytes_ok l) as Hdo by (intros l Hl; eapply Forall_impl; [exact Hl|]; intros x ?; unfold is_u8; cbn in *; lia).
  assert (bytes_ok (hexEncode out)) as Hho.
  { apply Forall_forall. intros c Hc. apply hexEncode_chars in Hc; [|done]. unfold is_u8. lia. }
  assert (str (suci_string (mkSUCI fmt mcc mnc ri psi kid out)) =
          str "suci" ++ 45 :: (mcc ++ mnc) ++ 45 :: ri ++ 45 :: [48] ++ 45 :: str (pretty psi) ++ 45 :: hexEncode out) as E.
  { unfold suci_string. cbn [suci_MCC suci_MNC RoutingIndicator ProtectionSchemeID NasIE.SchemeOutput].
    rewrite !str_append, !str_unstr by auto. rewrite <- !(assoc_L (++)). reflexivity. }
  rewrite E. clear E. unfold ParseSUCIString.
  rewrite bool_decide_true by reflexivity. cbn [negb].
  destruct (scheme_text psi Hpsi) as [P1 P2].
  rewrite (SplitN_cons 45 4 (str "suci")) by (apply (bool_decide_unpack _); vm_compute; exact I).
  rewrite (SplitN_cons 45 3) by (rewrite elem_of_app; intros [Hi|Hi]; revert Hi; by apply digits_no_dash).
  rewrite (SplitN_cons 45 2) by done.
  rewrite (SplitN_cons 45 1 [48]) by (rewrite list_elem_of_singleton; lia).
  rewrite (SplitN_cons 45 0) by done. cbn [SplitN].
  destruct (Nat.ltb_spec (length (mcc ++ mnc)) 5) as [H|H]; rewrite length_app in H; [lia|].
  destruct (Nat.ltb_spec 6 (length (mcc ++ mnc))) as [H'|H']; rewrite length_app in H'; [lia|]. cbn [orb].
  rewrite slice_Ok by (rewrite ?length_app; lia). cbn [mbind res_bind]. rewrite drop_0, take_app_length' by lia.
  rewrite slice_from_Ok by (rewrite ?length_app; lia). cbn [mbind res_bind]. rewrite drop_app_length' by lia.
  by rewrite P1, hexDecode_hexEncode.
Qed.

(** The identity a UE sends: type and format, PLMN, routing indicator, scheme, key
    identifier and scheme output (TS 24.501, 9.11.3.4). *)
Definition suciIdentity (mcc mnc ri : bytes) (scheme kid : Z) (out : bytes) : res bytes :=
  plmn ← encodeMCCMNC mcc mnc; Ok ([1] ++ plmn ++ ri ++ [scheme; kid] ++ out).

Lemma routing_digits_ok nibs acc :
  Forall (λ n, 0 <= n < 16) nibs → Forall (λ c, 46 <= c < 256) acc → Forall (λ c, 46 <= c < 256) (routing_digits nibs acc).
Proof.
  intros Hn. revert acc; induction Hn as [|n nibs Hn Hns IH]; intros acc Ha; cbn; [done|].
  destruct (_ =? _); [destruct (_ =? _)%nat; [repeat constructor; lia|done]|].
  apply IH. apply Forall_app; split; [done|]. constructor; [|constructor]. rewrite u8_small by (unfold is_u8; lia). lia.
Qed.

(** The codec and the AMF carry the concealed identity to the UDM unchanged. *)
Lemma identity_reaches_UDM mcc mnc r0 r1 scheme kid out b :
  plmn_ok mcc mnc → 0 <= scheme < 16 → bytes_ok out →
  suciIdentity mcc mnc [r0; r1] scheme kid out = Ok b →
  ∃ s ri, DecodeMobileIdentity b = Ok (mkMobileIdentity MobileIdentitySUCI (Some s) None []) ∧
       ParseSUCIString (str (suci_string s)) = Ok (mkSUCIText 0 mcc mnc ri scheme 0 out).
Proof.
  intros Hp Hs Ho H. unfold suciIdentity in H.
  destruct (encodeMCCMNC_roundtrip _ _ Hp) as (b0 & b1 & b2 & He & Hb & Hd). rewrite He in H. cbn in H. injection H as <-.
  set (ri := decodeRoutingIndicator [r0; r1]).
  assert (Forall (λ c, 46 <= c < 256) ri) as Hri.
  { apply routing_digits_ok; [|constructor]. cbn. repeat constructor; rewrite land_15; dlia. }
  exists (mkSUCI 0 mcc mnc ri scheme kid out), ri. split.
  - unfold DecodeMobileIdentity. cbn -[decodeMCCMNC]. unfold decodeSUCI. cbn -[decodeMCCMNC decodeRoutingIndicator].
    unfold slice. rewrite !decide_True by (cbn; lia). change (Z.land 1 7 =? MobileIdentitySUCI) with true. cbn iota.
    cbn -[decodeMCCMNC decodeRoutingIndicator slice_from]. rewrite Hd. cbn -[decodeRoutingIndicator slice_from]. fold ri.
    rewrite slice_from_Ok by (cbn; lia). cbn -[decodeRoutingIndicator].
    rewrite land_15, Z.mod_small by lia. done.
  - apply ParseSUCIString_text; [done| | |done|done].
    + eapply Forall_impl; [exact Hri|]. intros x ?. unfold is_u8. cbn in *. lia.
    + intros Hi. rewrite Forall_forall in Hri. apply Hri in Hi. lia.
Qed.
