(* ===== verification/UdmAuth.v ===== *)
(** * The UDM: authentication vectors and subscriptions to subscription data

    The handlers of [nf/udm/internal/server/server.go] with the text parsers of
    [shared/aka/aka.go] they use.  The UDR is the class [UDRClient]; [SUCI] handling is
    that of [CryptoSuci].  Texts are lists of octets; the body of a request is the
    decoded value, [None] when it does not decode.  Random challenges and new
    identifiers are arguments.  Logging, tracing and the HTTP layer are left out. *)
From S2P Require Import Prelude NasReader NasIE NasRegistration GoCrypto GoText CryptoNas CryptoAka CryptoEap AmfRegistration CryptoSuci.
Open Scope Z_scope.

(** ** Data *)
Record UDRAuthSub := mkAuthSub { AuthMethod : string; sub_K : bytes; sub_OPc : bytes; sub_AMF : bytes; sub_SQN : bytes }.
Definition set_SQN (sqn : bytes) (a : UDRAuthSub) : UDRAuthSub :=
  mkAuthSub (AuthMethod a) (sub_K a) (sub_OPc a) (sub_AMF a) sqn.

(** [None] is an error of the call. *)
Class UDRClient (D : Type) := {
  GetAuthSubscription : D → bytes → option UDRAuthSub;
  UpdateSQN : D → bytes → bytes → option D
}.

Record ResyncInfo := mkResync { ri_RAND : bytes; ri_AUTS : bytes }.
Record AuthDataRequest := mkAuthDataRequest { rq_ServingNetworkName : bytes; rq_Resync : option ResyncInfo }.

Record UDMAuthDataResponse := mkAuthData {
  AuthType : string; Rand : bytes; Autn : bytes; XresStar : bytes; HxresStar : bytes; Kausf : bytes; Supi : bytes;
  CkPrime : bytes; IkPrime : bytes; Xres : bytes
}.

Inductive UdmResp := UdmProblem (status : Z) (cause : string) | AuthData (a : UDMAuthDataResponse).

(** ** Parsers of [shared/aka] *)
Definition parseHexN (n : nat) (s : bytes) : option bytes :=
  b ← hexDecode s; if (length b =? n)%nat then Some b else None.
Definition ParseHexKey (s : bytes) : option bytes := parseHexN 16 s.
Definition ParseHexSQN (s : bytes) : option bytes := parseHexN 6 s.
Definition ParseHexAMF (s : bytes) : option bytes := parseHexN 2 s.

(** ** The server *)
Section Udm.
Context `{!Curve} {D : Type} `{!UDRClient D}.
(** The configuration: the serving network name and the home network key, if set. *)
Context (snName : bytes) (homeNetPrivKeyA : option bytes).

(** The identifier in the path, resolved: a SUPI is used as it is. *)
Definition resolveSUPI (supi : bytes) : UdmResp + bytes :=
  if bool_decide (take 5 supi = str "suci-") then
    match ParseSUCIString supi with
    | Ok parsed =>
        if ProtectionScheme parsed =? ProfileNull then
          match DeconceaNull parsed with
          | Ok result => inr (SUPI result)
          | _ => inl (UdmProblem 500 "NF_FAILURE")
          end
        else if ProtectionScheme parsed =? ProfileA then
          match homeNetPrivKeyA with
          | None => inl (UdmProblem 501 "NF_FAILURE")
          | Some key =>
              match DeconceaProfileA parsed key with
              | Ok result => inr (SUPI result)
              | _ => inl (UdmProblem 400 "MANDATORY_IE_INCORRECT")
              end
          end
        else inl (UdmProblem 501 "NF_FAILURE")
    | _ => inl (UdmProblem 400 "MANDATORY_IE_INCORRECT")
    end
  else inr supi.

(** The sequence number for the new vector. *)
Definition recoverSQN (k opc sqn : bytes) (ri : option ResyncInfo) : UdmResp + bytes :=
  match ri with
  | None => inr sqn
  | Some ri =>
      match parseHexN 16 (ri_RAND ri), parseHexN 14 (ri_AUTS ri) with
      | None, _ | _, None => inl (UdmProblem 400 "MANDATORY_IE_INCORRECT")
      | Some randHex, Some autsHex =>
          match ResyncFromAUTS k opc randHex autsHex with
          | Ok sqnMS => inr (IncrementSQN sqnMS)
          | _ => inl (UdmProblem 403 "AUTHENTICATION_REJECTED")
          end
      end
  end.

Definition vectorOf (a : UDRAuthSub) (inp : HEAVInput) (sn rand : bytes) : UDMAuthDataResponse :=
  if String.eqb (AuthMethod a) "EAP_AKA_PRIME" then
    let av := GenerateEAPAKAPrime inp sn rand in
    mkAuthData "EAP_AKA_PRIME" (hexEncode (pa_RAND av)) (hexEncode (pa_AUTN av)) [] [] [] (in_SUPI inp)
      (hexEncode (pa_CKPrime av)) (hexEncode (pa_IKPrime av)) (hexEncode (pa_XRES av))
  else
    let heav := GenerateFull inp sn rand in
    mkAuthData "5G_AKA" (hexEncode (he_RAND heav)) (hexEncode (he_AUTN heav)) (hexEncode (he_XRESStar heav))
      (hexEncode (he_HRESStar heav)) (hexEncode (he_KAUSF heav)) (in_SUPI inp) [] [] [].

(** What is computed before the UDR is written: the vector, and the sequence number
    that is to be stored. *)
Definition prepareAuthData (supi : bytes) (req : option AuthDataRequest) (rand : bytes) (d : D)
    : UdmResp + (UDMAuthDataResponse * bytes * bytes) :=
  match req with
  | None => inl (UdmProblem 400 "MANDATORY_IE_MISSING")
  | Some req =>
      match resolveSUPI supi with
      | inl p => inl p
      | inr actualSUPI =>
          match GetAuthSubscription d actualSUPI with
          | None => inl (UdmProblem 404 "RESOURCE_URI_STRUCTURE_NOT_FOUND")
          | Some authSub =>
              match ParseHexKey (sub_K authSub), ParseHexKey (sub_OPc authSub) with
              | None, _ | _, None => inl (UdmProblem 500 "NF_FAILURE")
              | Some k, Some opc =>
                  let sqn := default [0; 0; 0; 0; 0; 1] (ParseHexSQN (sub_SQN authSub)) in
                  let amf := default [0x80; 0x00] (ParseHexAMF (sub_AMF authSub)) in
                  match recoverSQN k opc sqn (rq_Resync req) with
                  | inl p => inl p
                  | inr sqn =>
                      let sn := match rq_ServingNetworkName req with [] => snName | n => n end in
                      inr (vectorOf authSub (mkHEAVInput actualSUPI k opc amf sqn) sn rand,
                           actualSUPI, hexEncode (IncrementSQN sqn))
                  end
              end
          end
      end
  end.

(** A failed update of the sequence number is only logged. *)
Definition handleGenerateAuthData (supi : bytes) (req : option AuthDataRequest) (rand : bytes) (d : D) : D * UdmResp :=
  match prepareAuthData supi req rand d with
  | inl p => (d, p)
  | inr (av, actualSUPI, newSQN) => (default d (UpdateSQN d actualSUPI newSQN), AuthData av)
  end.
End Udm.

(** ** Subscriptions to data changes *)
Record SdmSubscription := mkSdm { CallbackRef : string; MonitoredResURI : string; SubscriptionID : string }.
Record Sdm := mkSdmState {
  subscriptions : gmap string (list SdmSubscription); subscriptionIdx : gmap string string;
  notified : list (string * string) (* callback and subscription of each notification *)
}.

Definition addSubscription (supi : string) (sub : SdmSubscription) (s : Sdm) : Sdm :=
  mkSdmState (<[supi := default [] (subscriptions s !! supi) ++ [sub]]> (subscriptions s)) (subscriptionIdx s) (notified s).
Definition removeSubscription (supi id : string) (s : Sdm) : Sdm :=
  match subscriptions s !! supi with
  | None => s
  | Some l => mkSdmState (<[supi := filter (λ sub, SubscriptionID sub ≠ id) l]> (subscriptions s)) (subscriptionIdx s) (notified s)
  end.
Definition listSubscriptions (supi : string) (s : Sdm) : list SdmSubscription := default [] (subscriptions s !! supi).

Inductive SdmResp := SdmProblem (status : Z) | SdmCreated (location : string) (sub : SdmSubscription) | SdmNoContent.

Definition handleSDMSubscribe (ulid supi : string) (body : option SdmSubscription) (s : Sdm) : Sdm * SdmResp :=
  match body with
  | None => (s, SdmProblem 400)
  | Some sub =>
      if String.eqb (CallbackRef sub) "" then (s, SdmProblem 400)
      else
        let sub := mkSdm (CallbackRef sub) (MonitoredResURI sub) ulid in
        let s := addSubscription supi sub s in
        (mkSdmState (subscriptions s) (<[ulid := supi]> (subscriptionIdx s)) (notified s),
         SdmCreated ("/nudm-sdm/v2/" ++ supi ++ "/sdm-subscriptions/" ++ ulid) sub)
  end.

Definition handleSDMUnsubscribe (id : string) (s : Sdm) : Sdm * SdmResp :=
  match subscriptionIdx s !! id with
  | None => (s, SdmProblem 404)
  | Some supi =>
      (removeSubscription supi id (mkSdmState (subscriptions s) (delete id (subscriptionIdx s)) (notified s)), SdmNoContent)
  end.

(** One goroutine a subscription posts the changes to its callback. *)
Definition handleDataChangeTrigger (supi : string) (s : Sdm) : Sdm * SdmResp :=
  (mkSdmState (subscriptions s) (subscriptionIdx s)
     (notified s ++ ((λ sub, (CallbackRef sub, SubscriptionID sub)) <$> listSubscriptions supi s)), SdmNoContent).

(** ** The identity of the subscriber *)
(** How a UE presents the digits of its MSIN to a home network with this key. *)
Inductive concealed `{!Curve} (key : option bytes) (msin : bytes) : Z → bytes → Prop :=
  | concealed_null : concealed key msin ProfileNull (encodeBCDLowNibbleFirst msin)
  | concealed_A priv pub ephPriv kid s :
      key = Some priv → X25519 priv Basepoint = Some pub → EncryptProfileA ephPriv msin pub kid = Ok s →
      concealed key msin ProfileA (su_SchemeOutput s).

Lemma suci_prefix s : take 5 (str (suci_string s)) = str "suci-".
Proof. unfold suci_string. rewrite str_append. reflexivity. Qed.

(** C14: a concealed identity reaches the UDM as the SUPI of the subscriber.  A UE with
    the identity of PLMN mcc, mnc and MSIN msin presents it in its registration under
    the null scheme or Profile A; the AMF decodes the NAS element and renders it as
    text, and the UDM resolves that text to imsi- followed by the digits, whatever the
    routing indicator and the ephemeral key. *)
Theorem suci_identity_recovered `{!Curve} `{!CurveLaws} key mcc mnc msin r0 r1 scheme kid out b :
  plmn_ok mcc mnc → digits msin → concealed key msin scheme out →
  suciIdentity mcc mnc [r0; r1] scheme kid out = Ok b →
  ∃ mi, DecodeMobileIdentity b = Ok mi ∧
    ∀ rr, rr_MobileIdentity rr = mi →
      resolveSUPI key (str (extractIdentity rr)) = inr (str "imsi-" ++ mcc ++ mnc ++ msin).
Proof.
  intros Hp Hm Hc Hb.
  assert (0 <= scheme < 16 ∧ bytes_ok out) as [Hs Ho].
  { destruct Hc as [|priv pub eph k s _ H1 H2]; [split; [done|by apply encodeBCD_ok]|].
    split; [done|]. by apply (profileA_roundtrip _ _ _ _ _ _ Hm H1 H2). }
  destruct (identity_reaches_UDM _ _ _ _ _ _ _ _ Hp Hs Ho Hb) as (s & ri & Hd & Ht).
  eexists. split; [exact Hd|]. intros rr Hr.
  assert (extractIdentity rr = suci_string s) as -> by (unfold extractIdentity; by rewrite Hr).
  unfold resolveSUPI. rewrite bool_decide_true by apply suci_prefix. rewrite Ht. cbn [ProtectionScheme].
  destruct Hc as [|priv pub eph k su -> H1 H2].
  - cbn -[str]. by rewrite BCD_roundtrip.
  - destruct (profileA_roundtrip _ _ _ _ _ _ Hm H1 H2) as (_ & _ & E). cbn -[str DeconceaProfileA]. by rewrite E.
Qed.

(** A key agreement to run the theorem on: multiplication of 256-bit numbers. *)
Definition toyMul (a p : bytes) : bytes := be_octets 32 (be_val a * be_val p).
Definition toyBase : bytes := be_octets 32 1.
#[local] Instance toyCurve : Curve := { X25519 a p := Some (toyMul a p); Basepoint := toyBase }.
Lemma toyMul_base a : be_val (toyMul a toyBase) = be_val a mod 2 ^ 256.
Proof.
  unfold toyMul, toyBase. rewrite !be_val_be_octets. change (8 * Z.of_nat 32) with 256.
  by rewrite (Z.mod_small 1), Z.mul_1_r by done.
Qed.
Lemma toyMul_agree a b : toyMul a (toyMul b toyBase) = toyMul b (toyMul a toyBase).
Proof.
  unfold toyMul at 1 3. rewrite !toyMul_base.
  rewrite <- be_octets_mod, <- (be_octets_mod 32 (be_val b * _)). change (2 ^ (8 * Z.of_nat 32)) with (2 ^ 256).
  by rewrite !Z.mul_mod_idemp_r, Z.mul_comm by done.
Qed.
#[local] Instance toyCurve_laws : CurveLaws.
Proof.
  split.
  - intros a p H. assert (p = toyMul a toyBase) as -> by (change (Some (toyMul a toyBase) = Some p) in H; congruence).
    unfold toyMul. split; [apply length_be_octets|apply be_octets_ok].
  - intros a b pa pb Ha Hb. assert (pa = toyMul a toyBase) as -> by (change (Some (toyMul a toyBase) = Some pa) in Ha; congruence).
    assert (pb = toyMul b toyBase) as -> by (change (Some (toyMul b toyBase) = Some pb) in Hb; congruence). cbn [X25519 toyCurve]. by rewrite toyMul_agree.
Qed.

Definition homeKey0 : bytes := replicate 32 7.
Definition concealed0 : res SUCI := EncryptProfileA (replicate 32 9) (str "0000000001") (toyMul homeKey0 toyBase) 1.

Lemma suci_identity_recovered_witness :
  ∃ s b mi, concealed0 = Ok s ∧ suciIdentity (str "001") (str "01") [0x21; 0x43] ProfileA 1 (su_SchemeOutput s) = Ok b ∧
    DecodeMobileIdentity b = Ok mi ∧
    ∀ rr, rr_MobileIdentity rr = mi →
      resolveSUPI (Some homeKey0) (str (extractIdentity rr)) = inr (str "imsi-" ++ str "001" ++ str "01" ++ str "0000000001").
Proof.
  assert (∃ s, concealed0 = Ok s) as [s Hs].
  { assert (match concealed0 with Ok _ => true | _ => false end = true) by (vm_compute; reflexivity).
    destruct concealed0 as [s| | |]; by eauto. }
  exists s. eexists.
  edestruct (suci_identity_recovered (Some homeKey0) (str "001") (str "01") (str "0000000001") 0x21 0x43 ProfileA 1 (su_SchemeOutput s))
    as (mi & H1 & H2); [| | | |exists mi; split; [exact Hs|]; split; [|split; [exact H1|exact H2]]; reflexivity].
  - apply (bool_decide_unpack _). vm_compute. exact I.
  - apply (bool_decide_unpack _). vm_compute. exact I.
  - eapply (concealed_A _ _ homeKey0); [reflexivity|reflexivity|exact Hs].
  - reflexivity.
Defined.

(** ** Sequence numbers *)
(** The UDR keeps the number it is given and nothing else changes. *)
Class UDRLaws (D : Type) `{!UDRClient D} := {
  udr_update d supi sqn : ∃ d', UpdateSQN d supi sqn = Some d' ∧
    ∀ s, GetAuthSubscription d' s = if decide (s = supi) then set_SQN sqn <$> GetAuthSubscription d s else GetAuthSubscription d s
}.

#[export] Instance gmapUDR : UDRClient (gmap bytes UDRAuthSub) := {
  GetAuthSubscription d s := d !! s;
  UpdateSQN d s sqn := Some (alter (set_SQN sqn) s d)
}.
#[export] Instance gmapUDR_laws : UDRLaws (gmap bytes UDRAuthSub).
Proof.
  split. intros d supi sqn. eexists. split; [reflexivity|]. intros s. cbn.
  case_decide as E; [subst; by rewrite lookup_alter_eq|by rewrite lookup_alter_ne].
Qed.

Definition zeroSQN : bytes := [0; 0; 0; 0; 0; 1].

(** The credentials of a subscriber, as they are read. *)
Record subscriber (a : UDRAuthSub) (k opc amf sqn : bytes) : Prop := {
  sb_k : ParseHexKey (sub_K a) = Some k;
  sb_opc : ParseHexKey (sub_OPc a) = Some opc;
  sb_amf : default [0x80; 0x00] (ParseHexAMF (sub_AMF a)) = amf;
  sb_sqn : default zeroSQN (ParseHexSQN (sub_SQN a)) = sqn
}.

Lemma hexval_range c v : hexval c = Some v → 0 <= v < 16.
Proof. unfold hexval. repeat case_bool_decide; intros; simplify_eq; lia. Qed.
Lemma hexDecode_ok s b : hexDecode s = Some b → bytes_ok b.
Proof.
  remember (length s) as n eqn:Hn. revert s b Hn. induction (lt_wf n) as [n _ IH]. intros s b -> H.
  destruct s as [|x [|y s]]; cbn in H; [by simplify_eq; constructor|done|].
  destruct (hexval x) as [h|] eqn:Hx; [|done]. destruct (hexval y) as [l|] eqn:Hy; [|done]. cbn in H.
  destruct (hexDecode s) as [t|] eqn:Ht; [|done]. cbn in H. simplify_eq.
  apply hexval_range in Hx, Hy. constructor; [unfold is_u8; lia|]. eapply (IH (length s)); [cbn; lia|done|done].
Qed.
Lemma parseHexN_ok n s b : parseHexN n s = Some b → length b = n ∧ bytes_ok b.
Proof.
  unfold parseHexN. destruct (hexDecode s) as [x|] eqn:E; [|done]. cbn. destruct (Nat.eqb_spec (length x) n); [|done].
  intros [= ->]. split; [done|by eapply hexDecode_ok].
Qed.
Lemma parseHexN_hexEncode n b : bytes_ok b → length b = n → parseHexN n (hexEncode b) = Some b.
Proof. intros Hb Hl. unfold parseHexN. rewrite hexDecode_hexEncode by done. cbn. by rewrite Hl, Nat.eqb_refl. Qed.

Lemma subscriber_lengths a k opc amf sqn : subscriber a k opc amf sqn →
  length k = 16%nat ∧ length opc = 16%nat ∧ length amf = 2%nat ∧ length sqn = 6%nat ∧ bytes_ok sqn.
Proof.
  intros [H1 H2 <- <-]. apply parseHexN_ok in H1 as [L1 _], H2 as [L2 _]. split; [done|]. split; [done|]. split.
  - destruct (ParseHexAMF (sub_AMF a)) as [x|] eqn:E; [|done]. by apply parseHexN_ok in E as [? _].
  - destruct (ParseHexSQN (sub_SQN a)) as [x|] eqn:E; [by apply parseHexN_ok in E|].
    split; [done|]. cbn. repeat constructor; unfold is_u8; lia.
Qed.

Lemma length_IncrementSQN s : length (IncrementSQN s) = length s.
Proof. unfold IncrementSQN. by rewrite length_reverse, length_inc_loop, length_reverse. Qed.
Lemma IncrementSQN_ok s : bytes_ok s → bytes_ok (IncrementSQN s).
Proof. intros H. by apply Forall_reverse, inc_loop_ok, Forall_reverse. Qed.

(** The vector is made with the stored number, and its successor is stored. *)
Section Vectors.
Context `{!Curve} {D : Type} `{!UDRClient D} `{!UDRLaws D} (snName : bytes) (key : option bytes).

Definition networkName (sn : bytes) : bytes := match sn with [] => snName | n => n end.

Lemma generate_vector d supi actual sn rand a k opc amf sqn :
  resolveSUPI key supi = inr actual → GetAuthSubscription d actual = Some a → subscriber a k opc amf sqn →
  ∃ d', handleGenerateAuthData snName key supi (Some (mkAuthDataRequest sn None)) rand d
        = (d', AuthData (vectorOf a (mkHEAVInput actual k opc amf sqn) (networkName sn) rand)) ∧
    GetAuthSubscription d' actual = Some (set_SQN (hexEncode (IncrementSQN sqn)) a) ∧
    subscriber (set_SQN (hexEncode (IncrementSQN sqn)) a) k opc amf (IncrementSQN sqn) ∧
    ∀ s, s ≠ actual → GetAuthSubscription d' s = GetAuthSubscription d s.
Proof.
  intros H1 H2 S. pose proof (subscriber_lengths _ _ _ _ _ S) as (_ & _ & _ & L & O). destruct S as [S1 S2 S3 S4].
  unfold handleGenerateAuthData, prepareAuthData. rewrite H1, H2, S1, S2. cbn [rq_Resync rq_ServingNetworkName recoverSQN].
  destruct (udr_update d actual (hexEncode (IncrementSQN sqn))) as (d' & U & G).
  exists d'. change (default [0; 0; 0; 0; 0; 1] (ParseHexSQN (sub_SQN a))) with (default zeroSQN (ParseHexSQN (sub_SQN a))).
  rewrite S3, S4, U. split; [unfold networkName; by destruct sn|]. split; [by rewrite G, decide_True, H2 by done|]. split.
  - split; cbn [sub_K sub_OPc sub_AMF sub_SQN set_SQN]; [done|done|done|]. unfold ParseHexSQN.
    rewrite parseHexN_hexEncode; [done|by apply IncrementSQN_ok|by rewrite length_IncrementSQN].
  - intros s Hs. by rewrite G, decide_False by done.
Qed.

(** A re-synchronisation takes over the number of the UE: the vector is made with the
    successor of what the UE reported. *)
Lemma resync_vector d supi actual sn rand a k opc amf sqn randMS auts sqnMS :
  resolveSUPI key supi = inr actual → GetAuthSubscription d actual = Some a → subscriber a k opc amf sqn →
  length randMS = 16%nat → bytes_ok randMS → length auts = 14%nat → bytes_ok auts →
  ResyncFromAUTS k opc randMS auts = Ok sqnMS →
  ∃ d', handleGenerateAuthData snName key supi (Some (mkAuthDataRequest sn (Some (mkResync (hexEncode randMS) (hexEncode auts))))) rand d
        = (d', AuthData (vectorOf a (mkHEAVInput actual k opc amf (IncrementSQN sqnMS)) (networkName sn) rand)) ∧
    GetAuthSubscription d' actual = Some (set_SQN (hexEncode (IncrementSQN (IncrementSQN sqnMS))) a).
Proof.
  intros H1 H2 [S1 S2 S3 S4] L1 O1 L2 O2 R.
  unfold handleGenerateAuthData, prepareAuthData. rewrite H1, H2, S1, S2. unfold recoverSQN. cbn [rq_Resync ri_RAND ri_AUTS rq_ServingNetworkName].
  rewrite !parseHexN_hexEncode, R by done.
  destruct (udr_update d actual (hexEncode (IncrementSQN (IncrementSQN sqnMS)))) as (d' & U & G).
  exists d'. rewrite S3, U. split; [unfold networkName; by destruct sn|]. by rewrite G, decide_True, H2 by done.
Qed.
End Vectors.

(** Nothing orders the read and the write of the number: two requests that both read
    before either writes get the same number. *)
Lemma concurrent_requests_share_sqn `{!Curve} (snName : bytes) (key : option bytes) (supi sn r1 r2 : bytes) (d : gmap bytes UDRAuthSub) (a : UDRAuthSub) (k opc amf sqn : bytes)
    (R : resolveSUPI key supi = inr supi) (G : GetAuthSubscription d supi = Some a) (S : subscriber a k opc amf sqn) :
  ∃ n, prepareAuthData snName key supi (Some (mkAuthDataRequest sn None)) r1 d
       = inr (vectorOf a (mkHEAVInput supi k opc amf sqn) (networkName snName sn) r1, supi, n) ∧
       prepareAuthData snName key supi (Some (mkAuthDataRequest sn None)) r2 d
       = inr (vectorOf a (mkHEAVInput supi k opc amf sqn) (networkName snName sn) r2, supi, n).
Proof.
  destruct S as [S1 S2 S3 S4]. unfold prepareAuthData. rewrite R, G, S1, S2. cbn [rq_Resync rq_ServingNetworkName recoverSQN].
  change (default [0; 0; 0; 0; 0; 1] (ParseHexSQN (sub_SQN a))) with (default zeroSQN (ParseHexSQN (sub_SQN a))).
  rewrite S3, S4. unfold networkName. destruct sn; eauto.
Qed.

(** ** Subscriptions *)
Inductive SdmEvent :=
  | ESubscribe (ulid supi : string) (body : option SdmSubscription)
  | EUnsubscribe (id : string)
  | EChange (supi : string).
Definition sdmStep (s : Sdm) (ev : SdmEvent) : Sdm :=
  match ev with
  | ESubscribe ulid supi body => (handleSDMSubscribe ulid supi body s).1
  | EUnsubscribe id => (handleSDMUnsubscribe id s).1
  | EChange supi => (handleDataChangeTrigger supi s).1
  end.
Fixpoint freshUlids (s : Sdm) (evs : list SdmEvent) : Prop :=
  match evs with
  | [] => True
  | ev :: r =>
      match ev with ESubscribe ulid _ _ => subscriptionIdx s !! ulid = None | _ => True end ∧ freshUlids (sdmStep s ev) r
  end.

(** The index and the lists agree: an identifier is in the list of its SUPI, once, and
    in no other. *)
Record sdm_inv (s : Sdm) : Prop := {
  si_idx id supi : subscriptionIdx s !! id = Some supi ↔ id ∈ SubscriptionID <$> listSubscriptions supi s;
  si_nodup supi : NoDup (SubscriptionID <$> listSubscriptions supi s)
}.

Lemma fmap_filter_id (l : list SdmSubscription) id :
  SubscriptionID <$> filter (λ sub, SubscriptionID sub ≠ id) l = filter (λ i, i ≠ id) (SubscriptionID <$> l).
Proof.
  induction l as [|x l IH]; [done|]. rewrite filter_cons. cbn [fmap list_fmap]. rewrite filter_cons.
  destruct (decide (SubscriptionID x = id)); [rewrite !decide_False by auto; done|].
  rewrite !decide_True by auto. cbn [fmap list_fmap]. by f_equal.
Qed.

Lemma sdmStep_inv s ev : sdm_inv s → freshUlids s [ev] → sdm_inv (sdmStep s ev).
Proof.
  intros [I1 I2] [F _]. unfold listSubscriptions in *. destruct ev as [ulid supi body|id|supi]; cbn [sdmStep].
  - unfold handleSDMSubscribe. destruct body as [sub|]; [|by split]. destruct (String.eqb _ _); [by split|]. cbn [fst].
    assert (∀ supi', ulid ∉ SubscriptionID <$> default [] (subscriptions s !! supi')) as Hn
      by (intros supi' Hi; apply I1 in Hi; congruence).
    split; unfold listSubscriptions; cbn.
    + intros id supi'. rewrite lookup_insert_Some, I1. destruct (decide (supi' = supi)) as [-> |Hs].
      * rewrite lookup_insert_eq. cbn. rewrite fmap_app, elem_of_app. cbn. rewrite list_elem_of_singleton. split.
        -- intros [[<- _]|[_ ?]]; auto.
        -- intros [H|H]; [right; split; [|done]; intros <-; by apply (Hn supi)|left; by split; [|]].
      * rewrite lookup_insert_ne by done. split; [intros [[_ ?]|[_ ?]]; [congruence|done]|].
        intros H. right. split; [|done]. intros <-. by apply (Hn supi').
    + intros supi'. destruct (decide (supi' = supi)) as [-> |Hs]; [|by rewrite lookup_insert_ne].
      rewrite lookup_insert_eq. cbn. rewrite fmap_app. apply NoDup_app. split; [done|]. split; [|cbn; apply NoDup_singleton].
      cbn. intros x Hx ->%list_elem_of_singleton. by apply (Hn supi).
  - unfold handleSDMUnsubscribe. destruct (subscriptionIdx s !! id) as [supi|] eqn:Hid; [|by split]. cbn [fst].
    unfold removeSubscription. cbn. destruct (subscriptions s !! supi) as [l|] eqn:Hl.
    2: { apply I1 in Hid. rewrite Hl in Hid. by apply not_elem_of_nil in Hid. }
    split; unfold listSubscriptions; cbn.
    + intros i supi'. rewrite lookup_delete_Some, I1. destruct (decide (supi' = supi)) as [-> |Hs].
      * rewrite lookup_insert_eq, Hl. cbn. rewrite fmap_filter_id, list_elem_of_filter. naive_solver.
      * rewrite lookup_insert_ne by done. split; [naive_solver|]. intros H. split; [|done].
        intros <-. apply I1 in H. congruence.
    + intros supi'. destruct (decide (supi' = supi)) as [-> |Hs]; [|by rewrite lookup_insert_ne].
      rewrite lookup_insert_eq. cbn. rewrite fmap_filter_id. apply NoDup_filter. specialize (I2 supi). by rewrite Hl in I2.
  - by split.
Qed.

(** A change notifies every live subscription of the SUPI, each once. *)
Lemma change_notifies supi s : sdm_inv s →
  ∃ l, notified (handleDataChangeTrigger supi s).1 = notified s ++ l ∧ NoDup l.*2 ∧
    ∀ id, id ∈ l.*2 ↔ subscriptionIdx s !! id = Some supi.
Proof.
  intros [I1 I2]. eexists. split; [reflexivity|]. rewrite <- list_fmap_compose.
  change (snd ∘ (λ sub, (CallbackRef sub, SubscriptionID sub))) with SubscriptionID.
  split; [apply I2|]. intros id. by rewrite I1.
Qed.
