(* ===== verification/AusfAuth.v ===== *)
(** * The AUSF: authentication of UEs

    The handlers of [nf/ausf/internal/server] ([server.go], [eap_aka_prime.go],
    [nssaa.go]) over the in-memory context store of [shared/aka/aka.go].  The UDM is a
    function that answers or fails; at the end it is the UDM of [UdmAuth].  Texts are
    lists of octets; a request body is the decoded value, [None] when it does not decode,
    and an EAP payload the packet that its base64 text encodes, [None] when it does not.
    New identifiers and the time are arguments.  Logging, tracing, metrics and the HTTP
    layer are left out. *)
From S2P Require Import Prelude NasReader NasIE GoCrypto GoText CryptoNas CryptoAka CryptoEap CryptoSuci UdmAuth.
Open Scope Z_scope.

(** ** The context store of [shared/aka] *)
Abbreviation Contexts := (gmap string AuthContext).
Definition Put (id : string) (c : AuthContext) (s : Contexts) : Contexts := <[id := c]> s.
Definition Get (id : string) (s : Contexts) : option AuthContext := s !! id.
Definition Delete (id : string) (s : Contexts) : Contexts := delete id s.

(** [hex.DecodeString] with its error ignored: the octets before the first character
    that is not a digit. *)
Fixpoint hexPrefix (s : bytes) : bytes :=
  match s with
  | a :: b :: r =>
      match hexval a, hexval b with Some h, Some l => (h * 16 + l) :: hexPrefix r | _, _ => [] end
  | _ => []
  end.

(** ** Answers *)
Inductive Resp :=
  | Problem (status : Z) (cause : string)
  | Challenge5G (href : string) (rand hxresStar autn supi : bytes)
  | ChallengeEAP (href : string) (eapPayload servingNetworkName : bytes)
  | Confirmed (kausf supi : bytes)
  | EAPFailure (eapPayload : bytes)
  | EAPSuccess (eapPayload kSeaf supi : bytes)
  | NoContent.

Record AuthInfo := mkAuthInfo { SUPIUSUCI : bytes; ai_ServingNetworkName : bytes; ai_Resync : option ResyncInfo }.

Definition locationURL (id : string) : string := "/nausf-auth/v1/ue-authentications/" +:+ id.
Definition eapIdentifier : Z := 1.

Section Ausf.
(** The configured serving network name. *)
Context (cfgServingNetworkName : bytes).

Definition initEAPAKAPrime (uuid : string) (now : Z) (snName : bytes) (udm : UDMAuthDataResponse) (s : Contexts)
    : Contexts * res Resp :=
  let snName := networkName cfgServingNetworkName snName in
  match hexDecode (Rand udm), hexDecode (Autn udm), hexDecode (CkPrime udm), hexDecode (IkPrime udm), hexDecode (Xres udm) with
  | Some randBytes, Some autnBytes, Some ckPrime, Some ikPrime, Some xres =>
      if negb (length randBytes =? 16)%nat || negb (length autnBytes =? 16)%nat || negb (length ckPrime =? 16)%nat
         || negb (length ikPrime =? 16)%nat || (length xres =? 0)%nat
      then (s, Ok (Problem 500 "NF_FAILURE"))
      else
        let keys := DeriveKeys ckPrime ikPrime (Supi udm) in
        match KAUSFFromEMSK (EMSK keys), BuildChallenge eapIdentifier randBytes autnBytes snName (KAut keys), slice xres 0 8 with
        | Ok kausf, Ok challenge, Ok xres8 =>
            let ctx := mkAuthContext (Supi udm) [] snName randBytes xres8 [] [] kausf autnBytes now false
                         "EAP_AKA_PRIME" (KAut keys) eapIdentifier in
            (Put uuid ctx s, Ok (ChallengeEAP (locationURL uuid +:+ "/eap-session") challenge snName))
        | _, _, _ => (s, Panic)
        end
  | _, _, _, _, _ => (s, Ok (Problem 500 "NF_FAILURE"))
  end.

(** [answer] is what the UDM answers to the request of the AUSF. *)
Definition initWith (uuid : string) (now : Z) (authInfo : AuthInfo) (answer : option UDMAuthDataResponse) (s : Contexts)
    : Contexts * res Resp :=
  match answer with
  | None => (s, Ok (Problem 500 "NF_FAILURE"))
  | Some udmResp =>
      if String.eqb (AuthType udmResp) "EAP_AKA_PRIME" then initEAPAKAPrime uuid now (ai_ServingNetworkName authInfo) udmResp s
      else
        let randBytes := hexPrefix (Rand udmResp) in
        let autnBytes := hexPrefix (Autn udmResp) in
        let xresStar := hexPrefix (XresStar udmResp) in
        let hresStar := hexPrefix (HxresStar udmResp) in
        let kausf := hexPrefix (Kausf udmResp) in
        if negb (length randBytes =? 16)%nat || negb (length autnBytes =? 16)%nat then (s, Ok (Problem 500 "NF_FAILURE"))
        else
          let authCtx := mkAuthContext (Supi udmResp) (SUPIUSUCI authInfo) (ai_ServingNetworkName authInfo) randBytes
                           (replicate 8 0) xresStar hresStar kausf autnBytes now false "" [] 0 in
          (Put uuid authCtx s,
           Ok (Challenge5G (locationURL uuid +:+ "/5g-aka-confirmation") (Rand udmResp) (hexEncode hresStar) (Autn udmResp)
                 (Supi udmResp)))
  end.

Definition udmRequest (authInfo : AuthInfo) : AuthDataRequest :=
  mkAuthDataRequest (ai_ServingNetworkName authInfo) (ai_Resync authInfo).

(** [udm] is the call of the UDM, with the state behind it. *)
Definition handleInitAuth {D : Type} (udm : bytes → AuthDataRequest → D → D * option UDMAuthDataResponse)
    (uuid : string) (now : Z) (body : option AuthInfo) (d : D) (s : Contexts) : D * (Contexts * res Resp) :=
  match body with
  | None => (d, (s, Ok (Problem 400 "MANDATORY_IE_MISSING")))
  | Some authInfo =>
      let '(d, answer) := udm (SUPIUSUCI authInfo) (udmRequest authInfo) d in
      (d, initWith uuid now authInfo answer s)
  end.
End Ausf.

(** A request holds no lock between the look-up of its context and the end: the rest of
    the two handlers takes the context that was found, whatever the store has become.
    Between the two, [VerifyRES] and the checks of the EAP packet touch no other shared
    state. *)
Definition confirmWith (now : Z) (id : string) (resStar : bytes) (found : option AuthContext) (s : Contexts)
    : Contexts * Resp :=
  match found with
  | None => (s, Problem 404 "CONTEXT_NOT_FOUND")
  | Some ctx =>
      match VerifyRES (Some ctx) resStar now with
      | Ok (_, kausf) => (Delete id s, Confirmed (hexEncode kausf) (ac_SUPI ctx))
      | _ => (s, Problem 200 "AUTHENTICATION_REJECTED")
      end
  end.

(** The body is the hexadecimal text of RES*. *)
Definition handleConfirm (now : Z) (id : string) (body : option bytes) (s : Contexts) : Contexts * Resp :=
  match body with
  | None => (s, Problem 400 "MANDATORY_IE_MISSING")
  | Some text =>
      match hexDecode text with
      | None => (s, Problem 400 "MANDATORY_IE_INCORRECT")
      | Some resStar => confirmWith now id resStar (Get id s) s
      end
  end.

Definition eapWith (now : Z) (id : string) (payload : option bytes) (found : option AuthContext) (s : Contexts)
    : Contexts * res Resp :=
  match found with
  | None => (s, Ok (Problem 404 "CONTEXT_NOT_FOUND"))
  | Some ctx =>
      if negb (String.eqb (ac_AuthType ctx) "EAP_AKA_PRIME") then (s, Ok (Problem 400 "MANDATORY_IE_INCORRECT"))
      else if authExpiry <? i64 (now - ac_CreatedAt ctx) then (Delete id s, Ok (Problem 404 "CONTEXT_NOT_FOUND"))
      else
        match payload with
        | None => (s, Ok (Problem 400 "MANDATORY_IE_INCORRECT"))
        | Some pkt =>
            match Validate pkt with
            | Ok _ =>
                match VerifyMAC pkt (ac_EAPKAut ctx) with
                | Ok macOK =>
                    let resOK := match ExtractRES pkt with Ok r => bool_decide (r = ac_XRES ctx) | _ => false end in
                    if negb macOK || negb resOK then
                      (Delete id s, Ok (EAPFailure (Eap.BuildFailure (ac_EAPIdentifier ctx))))
                    else
                      (Delete id s,
                       Ok (EAPSuccess (Eap.BuildSuccess (ac_EAPIdentifier ctx))
                             (hexEncode (KSEAF (ac_KAUSF ctx) (ac_ServingNetName ctx))) (ac_SUPI ctx)))
                | _ => (s, Panic)
                end
            | Err _ => (s, Ok (Problem 400 "MANDATORY_IE_INCORRECT"))
            | _ => (s, Panic)
            end
        end
  end.

Definition handleEAPSession (now : Z) (id : string) (body : option (option bytes)) (s : Contexts) : Contexts * res Resp :=
  match body with
  | None => (s, Ok (Problem 400 "MANDATORY_IE_MISSING"))
  | Some payload => eapWith now id payload (Get id s) s
  end.

Definition handleDelete (id : string) (s : Contexts) : Contexts * Resp := (Delete id s, NoContent).

(** ** Slice-specific authentication: the simulated AAA server *)
Fixpoint contains (p s : bytes) : bool :=
  bool_decide (take (length p) s = p) || match s with [] => false | _ :: r => contains p r end.
(** [strings.ToLower] on the ASCII letters; no other character becomes one of "reject". *)
Definition lower (s : bytes) : bytes := (λ c, if (65 <=? c) && (c <=? 90) then c + 32 else c) <$> s.

Inductive NssaaResp := NssaaProblem (cause : string) | NssaaResult (success : bool) (eapPayload : bytes).

Definition handleNSSAAAuthenticate (body : option (option bytes)) : NssaaResp :=
  match body with
  | None | Some None | Some (Some []) => NssaaProblem "MANDATORY_IE_MISSING"
  | Some (Some eapResp) =>
      match Eap.eap_Validate eapResp with
      | Ok _ =>
          let identifier := match Eap.Identifier eapResp with Ok i => i | _ => 0 end in
          let authorized := match Eap.Identity eapResp with
                            | Ok nai => negb (contains (str "reject") (lower nai))
                            | _ => false
                            end in
          if authorized then NssaaResult true (Eap.BuildSuccess identifier) else NssaaResult false (Eap.BuildFailure identifier)
      | _ => NssaaProblem "INVALID_MSG_FORMAT"
      end
  end.

(** ** Lemmas on texts and on the parts of a vector *)
Lemma hexPrefix_decode s b : hexDecode s = Some b → hexPrefix s = b.
Proof.
  remember (length s) as n eqn:Hn. revert s b Hn. induction (lt_wf n) as [n _ IH]. intros s b -> H.
  destruct s as [|x [|y s]]; cbn in H; [by simplify_eq|done|]. cbn [hexPrefix].
  destruct (hexval x); [|done]. destruct (hexval y); [|done]. cbn in H.
  destruct (hexDecode s) as [t|] eqn:Ht; [|done]. cbn in H. simplify_eq. f_equal. apply (IH (length s)); [cbn; lia|done|done].
Qed.
Lemma hexPrefix_hexEncode b : bytes_ok b → hexPrefix (hexEncode b) = b.
Proof. intros H. by apply hexPrefix_decode, hexDecode_hexEncode. Qed.

Lemma milenage_out_ok k opc temp r c : bytes_ok k → bytes_ok opc → bytes_ok (milenage_out k opc temp r c).
Proof. intros Hk Ho. apply zip_lxor_ok; [by apply aes_encrypt_ok|done]. Qed.
Lemma computeOut1_ok k temp opc sqn amf : bytes_ok k → bytes_ok opc → bytes_ok (computeOut1 k temp opc sqn amf).
Proof. intros Hk Ho. apply zip_lxor_ok; [by apply aes_encrypt_ok|done]. Qed.

Lemma GenerateAV_ok k opc rand sqn amf :
  bytes_ok k → bytes_ok opc → bytes_ok rand → bytes_ok sqn → bytes_ok amf → length opc = 16%nat → length sqn = 6%nat → length amf = 2%nat →
  let av := (GenerateAV k opc rand sqn amf).1 in
  av_RAND av = rand ∧ bytes_ok (av_AUTN av) ∧ length (av_AUTN av) = 16%nat ∧ bytes_ok (av_XRES av) ∧ length (av_XRES av) = 8%nat.
Proof.
  intros Hk Ho Hr Hs Ha L1 L2 L3 av. unfold av, GenerateAV. cbn [av_RAND av_AUTN av_XRES fst]. split; [done|].
  set (t := milenage_temp k opc rand).
  pose proof (length_milenage_out k opc t 0 applyConstC2 L1) as H2.
  pose proof (length_computeOut1 k t opc sqn amf L1) as H1.
  pose proof (milenage_out_ok k opc t 0 applyConstC2 Hk Ho) as O2.
  pose proof (computeOut1_ok k t opc sqn amf Hk Ho) as O1. unfold xorSQN.
  split_and!.
  - apply Forall_app; split; [apply zip_lxor_ok; [done|by apply Forall_take]|]. apply Forall_app; split; [done|by apply Forall_take].
  - rewrite !length_app, length_zip_with, !length_take, H1, H2, L2, L3. done.
  - by apply Forall_drop.
  - by rewrite length_drop, H2.
Qed.

Lemma KDF_ok key s : bytes_ok (derive key s).
Proof. apply hmac_sha256_ok. Qed.

(** ** A run with the UDM and a UE *)
(** The call of the UDM with the challenge it draws. *)
Definition udmCall `{!Curve} {D : Type} `{!UDRClient D} (snName : bytes) (key : option bytes) (rand : bytes)
    (supi : bytes) (req : AuthDataRequest) (d : D) : D * option UDMAuthDataResponse :=
  let '(d, r) := handleGenerateAuthData snName key supi (Some req) rand d in
  (d, match r with AuthData a => Some a | UdmProblem _ _ => None end).

(** The peer of EAP-AKA' (RFC 5448): like [ue_respond], with the transformed keys. *)
Definition ue_eap_respond (k opc rand autn snName supi : bytes) : option (bytes * bytes * bytes) :=
  let temp := milenage_temp k opc rand in
  let out2 := milenage_out k opc temp 0 applyConstC2 in
  let '(sqn, amf, macA, _) := ValidateAUTN autn (take 6 out2) in
  let ck := milenage_out k opc temp 32 applyConstC3 in
  let ik := milenage_out k opc temp 64 applyConstC4 in
  if bool_decide (macA = take 8 (computeOut1 k temp opc sqn amf)) then
    let '(ck', ik') := DeriveCKPrimeIKPrime ck ik snName (take 6 autn) in
    let keys := DeriveKeys ck' ik' supi in
    match BuildResponse eapIdentifier (drop 8 out2) (KAut keys), KAUSFFromEMSK (EMSK keys) with
    | Ok pkt, Ok kausf => Some (sqn, pkt, KSEAF kausf snName)
    | _, _ => None
    end
  else None.

Lemma VerifyRES_fields c c' r now x :
  ac_CreatedAt c' = ac_CreatedAt c → ac_XRESStar c' = ac_XRESStar c → ac_RAND c' = ac_RAND c →
  ac_HRESStar c' = ac_HRESStar c → ac_KAUSF c' = ac_KAUSF c →
  VerifyRES (Some c) r now = Ok x → VerifyRES (Some c') r now = Ok (set_Confirmed c', x.2).
Proof.
  intros E1 E2 E3 E4 E5. unfold VerifyRES. rewrite E1, E2, E3, E4, E5.
  destruct (_ <? _); [done|]. destruct (_ && _); [done|]. intros [= <-]. done.
Qed.
Lemma VerifyRES_match c r now x : VerifyRES (Some c) r now = Ok x →
  r = ac_XRESStar c ∨ HRESStar (ac_RAND c) r = ac_HRESStar c.
Proof.
  unfold VerifyRES. destruct (_ <? _); [done|]. repeat case_bool_decide; cbn; intros; auto. done.
Qed.

Lemma subscriber_ok a k opc amf sqn : subscriber a k opc amf sqn → bytes_ok k ∧ bytes_ok opc ∧ bytes_ok amf ∧ bytes_ok sqn.
Proof.
  intros S. pose proof (subscriber_lengths _ _ _ _ _ S) as (_ & _ & _ & _ & O). destruct S as [S1 S2 S3 S4].
  apply parseHexN_ok in S1 as [_ O1], S2 as [_ O2]. split_and!; try done. subst amf.
  destruct (ParseHexAMF (sub_AMF a)) as [x|] eqn:E; [by apply parseHexN_ok in E as [_ ?]|].
  cbn. repeat constructor; unfold is_u8; lia.
Qed.

Section EndToEnd.
Context `{!Curve} {D : Type} `{!UDRClient D} `{!UDRLaws D}.
Context (snUdm snAusf : bytes) (key : option bytes) (supi actual sn rand : bytes).
Context (d : D) (a : UDRAuthSub) (k opc amf sqn : bytes).
Hypothesis (Hsupi : resolveSUPI key supi = inr actual) (Ha : GetAuthSubscription d actual = Some a)
  (Hsub : subscriber a k opc amf sqn) (Hsn : sn ≠ []) (Lr : length rand = 16%nat) (Or : bytes_ok rand).

Definition input : HEAVInput := mkHEAVInput actual k opc amf sqn.

Lemma udm_answers : ∃ d', udmCall snUdm key rand supi (udmRequest (mkAuthInfo supi sn None)) d
    = (d', Some (vectorOf a input sn rand)) ∧
  GetAuthSubscription d' actual = Some (set_SQN (hexEncode (IncrementSQN sqn)) a).
Proof.
  destruct (generate_vector snUdm key d supi actual sn rand a k opc amf sqn Hsupi Ha Hsub) as (d' & E & G & _).
  exists d'. split; [|done]. unfold udmCall, udmRequest. cbn [ai_ServingNetworkName ai_Resync]. rewrite E.
  unfold networkName. by destruct sn.
Qed.

Lemma aka_exchange uuid t0 t1 s :
  AuthMethod a ≠ "EAP_AKA_PRIME"%string → 0 <= t1 - t0 <= authExpiry →
  ∃ s' autn hx resStar kausf,
    initWith snAusf uuid t0 (mkAuthInfo supi sn None) (Some (vectorOf a input sn rand)) s
    = (s', Ok (Challenge5G (locationURL uuid +:+ "/5g-aka-confirmation") (hexEncode rand) hx (hexEncode autn) actual)) ∧
    ue_respond k opc rand autn sn = Some (sqn, resStar, kausf) ∧ hx = hexEncode (HRESStar rand resStar) ∧
    handleConfirm t1 uuid (Some (hexEncode resStar)) s' = (delete uuid s, Confirmed (hexEncode kausf) actual).
Proof.
  intros Hm Ht. destruct (subscriber_lengths _ _ _ _ _ Hsub) as (_ & L1 & L2 & L3 & _).
  destruct (subscriber_ok _ _ _ _ _ Hsub) as (O1 & O2 & O3 & O4).
  destruct (aka_run_agrees input sn rand t0 t1 L1 L3 L2 Ht) as (resStar & kausf & Hue & Hv).
  destruct (GenerateAV_ok k opc rand sqn amf O1 O2 Or O4 O3 L1 L3 L2) as (E1 & OA & LA & _).
  set (he := GenerateFull input sn rand) in *.
  assert (he_RAND he = rand) as Er by exact E1.
  assert (bytes_ok (he_AUTN he) ∧ length (he_AUTN he) = 16%nat) as [OA' LA'] by (split; [exact OA|exact LA]).
  assert (bytes_ok (he_XRESStar he)) as OX by (apply Forall_drop, KDF_ok).
  assert (bytes_ok (he_HRESStar he)) as OH by (apply Forall_drop, sha256_ok).
  assert (bytes_ok (he_KAUSF he)) as OK by (apply KDF_ok).
  assert (he_HRESStar he = HRESStar (he_RAND he) (he_XRESStar he)) as EH by reflexivity.
  unfold initWith, vectorOf. destruct (String.eqb_spec (AuthMethod a) "EAP_AKA_PRIME"); [done|].
  cbn [AuthType Rand Autn XresStar HxresStar Kausf Supi String.eqb Ascii.eqb Bool.eqb]. fold he.
  change (in_SUPI input) with actual. rewrite Er, !hexPrefix_hexEncode by done. rewrite Lr, LA'. cbn [Nat.eqb negb orb].
  cbn [SUPIUSUCI ai_ServingNetworkName].
  clearbody he. eexists _, (he_AUTN he), _, resStar, kausf. split; [reflexivity|].
  rewrite Er in Hue. change (in_K input) with k in Hue. change (in_OPc input) with opc in Hue. change (in_SQN input) with sqn in Hue.
  split; [exact Hue|].
  assert (he_HRESStar he = HRESStar rand resStar) as Ehr.
  { apply VerifyRES_match in Hv. cbn in Hv. rewrite Er in Hv. destruct Hv as [->|Hv]; [by rewrite EH, Er|done]. }
  split; [by rewrite Ehr|].
  assert (bytes_ok resStar) as ORes.
  { revert Hue. unfold ue_respond. destruct (ValidateAUTN _ _) as [[[? ?] ?] ?]. case_bool_decide; [|done].
    intros [= _ <- _]. apply Forall_drop, KDF_ok. }
  unfold handleConfirm. rewrite hexDecode_hexEncode by done. unfold confirmWith, Get, Put. rewrite lookup_insert_eq.
  erewrite VerifyRES_fields; [|..|exact Hv]; [|reflexivity|reflexivity|by cbn|reflexivity|reflexivity].
  cbn [snd ac_SUPI]. unfold Delete. by rewrite delete_insert_eq.
Qed.
End EndToEnd.


Lemma KAUSFFromEMSK_keys ck ik id : ∃ kausf, KAUSFFromEMSK (EMSK (DeriveKeys ck ik id)) = Ok kausf.
Proof.
  assert (length (EMSK (DeriveKeys ck ik id)) = 64%nat) as L.
  { unfold DeriveKeys. cbn [EMSK]. by rewrite length_take, length_drop, length_PRFPrime. }
  unfold KAUSFFromEMSK. rewrite slice_Ok by (rewrite ?L; lia). eexists. reflexivity.
Qed.

Section EndToEndEAP.
Context `{!Curve} {D : Type} `{!UDRClient D} `{!UDRLaws D}.
Context (snAusf : bytes) (supi actual sn rand : bytes).
Context (a : UDRAuthSub) (k opc amf sqn : bytes).
Hypothesis (Hsub : subscriber a k opc amf sqn) (Hsn : sn ≠ []) (Lsn : (length sn <= 1016)%nat)
  (Lr : length rand = 16%nat) (Or : bytes_ok rand).

Lemma eap_exchange uuid t0 t1 s :
  AuthMethod a = "EAP_AKA_PRIME"%string → 0 <= t1 - t0 <= authExpiry →
  ∃ s' autn kaut challenge pkt kseaf,
    initWith snAusf uuid t0 (mkAuthInfo supi sn None) (Some (vectorOf a (mkHEAVInput actual k opc amf sqn) sn rand)) s
    = (s', Ok (ChallengeEAP (locationURL uuid +:+ "/eap-session") challenge sn)) ∧
    BuildChallenge eapIdentifier rand autn sn kaut = Ok challenge ∧ VerifyMAC challenge kaut = Ok true ∧
    ue_eap_respond k opc rand autn sn actual = Some (sqn, pkt, kseaf) ∧
    handleEAPSession t1 uuid (Some (Some pkt)) s'
    = (delete uuid s, Ok (EAPSuccess (Eap.BuildSuccess eapIdentifier) (hexEncode kseaf) actual)).
Proof.
  intros Hm Ht. destruct (subscriber_lengths _ _ _ _ _ Hsub) as (_ & L1 & L2 & L3 & _).
  destruct (subscriber_ok _ _ _ _ _ Hsub) as (O1 & O2 & O3 & O4).
  destruct (GenerateAV_ok k opc rand sqn amf O1 O2 Or O4 O3 L1 L3 L2) as (_ & OA & LA & OX & LX).
  unfold initWith, vectorOf. rewrite Hm. cbn [String.eqb Ascii.eqb Bool.eqb AuthType].
  unfold initEAPAKAPrime. cbn [Rand Autn CkPrime IkPrime Xres Supi ai_ServingNetworkName].
  unfold ue_eap_respond, GenerateEAPAKAPrime, GenerateAV in *. cbn [in_K in_OPc in_SQN in_AMF in_SUPI] in *.
  set (t := milenage_temp k opc rand) in *. set (out2 := milenage_out k opc t 0 applyConstC2) in *.
  set (ck := milenage_out k opc t 32 applyConstC3) in *. set (ik := milenage_out k opc t 64 applyConstC4) in *.
  set (macA := take 8 (computeOut1 k t opc sqn amf)) in *.
  cbn [av_RAND av_AUTN av_XRES av_CK av_IK fst] in *.
  set (autn := xorSQN sqn (take 6 out2) ++ amf ++ macA) in *.
  assert (length (take 6 out2) = 6%nat) as Lak
    by (unfold out2; rewrite length_take, length_milenage_out by done; done).
  destruct (autn_parts sqn (take 6 out2) amf macA L3 Lak L2) as (P1 & P2 & P3 & P4). fold autn in P1, P2, P3, P4.
  destruct (DeriveCKPrimeIKPrime ck ik sn (zip_with Z.lxor sqn (take 6 out2))) as [ck' ik'] eqn:EK.
  assert (length ck' = 16%nat ∧ length ik' = 16%nat ∧ bytes_ok ck' ∧ bytes_ok ik') as (Lck & Lik & Ock & Oik).
  { clear -EK. unfold DeriveCKPrimeIKPrime, DeriveRaw in EK. cbv zeta in EK. apply pair_eq in EK as [<- <-].
    pose proof (length_hmac_sha256 (ck ++ ik) (buildS fcCKPrimeIKPrime [sn; zip_with Z.lxor sqn (take 6 out2)])) as Lh.
    unfold derive. rewrite !length_take, length_drop, Lh.
    split_and!; [done|done|apply Forall_take, hmac_sha256_ok|apply Forall_take, Forall_drop, hmac_sha256_ok]. }
  cbn [pa_RAND pa_AUTN pa_XRES pa_CKPrime pa_IKPrime].
  rewrite !hexDecode_hexEncode by done. rewrite Lr, LA, Lck, Lik, LX. cbn [Nat.eqb negb orb].
  destruct (KAUSFFromEMSK_keys ck' ik' actual) as [kausf Hk]. rewrite Hk.
  set (keys := DeriveKeys ck' ik' actual) in *.
  assert (networkName snAusf sn = sn) as -> by (by destruct sn).
  destruct (eap_challenge_verifies eapIdentifier rand autn sn (KAut keys) Lr LA Lsn) as (challenge & Hc & Hv).
  rewrite Hc. rewrite slice_Ok by (rewrite ?LX; lia). rewrite drop_0, take_ge by (rewrite LX; lia).
  destruct (eap_response_roundtrip eapIdentifier (drop 8 out2) (KAut keys)) as (pkt & Hp & Hval & Hmac & Hres); [rewrite LX; lia|].
  eexists _, autn, (KAut keys), challenge, pkt, (KSEAF kausf sn). split; [reflexivity|]. split; [exact Hc|]. split; [by destruct Hv|]. split.
  - unfold ValidateAUTN. rewrite P2, P3, P4, P1. fold macA. rewrite bool_decide_true by done.
    change (xorSQN sqn (take 6 out2)) with (zip_with Z.lxor sqn (take 6 out2)). rewrite EK. fold keys. by rewrite Hp, Hk.
  - unfold handleEAPSession, eapWith, Get, Put. rewrite lookup_insert_eq. cbn [ac_AuthType ac_CreatedAt ac_EAPKAut ac_XRES ac_EAPIdentifier ac_KAUSF ac_ServingNetName ac_SUPI].
    change (String.eqb "EAP_AKA_PRIME" "EAP_AKA_PRIME") with true. cbn [negb].
    unfold authExpiry in *. rewrite i64_small by (unfold is_i64; lia).
    destruct (Z.ltb_spec (5 * 60 * 1000000000) (t1 - t0)); [lia|].
    rewrite Hval, Hmac, Hres. rewrite bool_decide_true by done. cbn [negb orb]. unfold Delete. by rewrite delete_insert_eq.
Qed.
End EndToEndEAP.

(** C11: the authentication of a subscriber, over AUSF, UDM and UDR.  For every
    subscriber whose credentials the UDR holds, every identity that resolves to it and
    every challenge, a UE with the same credentials accepts the challenge the AUSF
    returns and sees the sequence number of the UDR, which has moved to its successor;
    its answer is confirmed within five minutes and both sides then hold the same key:
    with 5G-AKA, KAUSF (and HXRES* is the hash the AMF computes from the answer), with
    EAP-AKA', K_SEAF for the serving network.  The authentication context is gone
    afterwards. *)
Theorem authentication_end_to_end `{!Curve} {D : Type} `{!UDRClient D} `{!UDRLaws D}
    snUdm snAusf key supi actual sn rand (d : D) a k opc amf sqn uuid t0 t1 s :
  resolveSUPI key supi = inr actual → GetAuthSubscription d actual = Some a → subscriber a k opc amf sqn →
  sn ≠ [] → (length sn <= 1016)%nat → length rand = 16%nat → bytes_ok rand → 0 <= t1 - t0 <= authExpiry →
  let run := handleInitAuth snAusf (udmCall snUdm key rand) uuid t0 (Some (mkAuthInfo supi sn None)) d s in
  GetAuthSubscription run.1 actual = Some (set_SQN (hexEncode (IncrementSQN sqn)) a) ∧
  (AuthMethod a ≠ "EAP_AKA_PRIME"%string →
    ∃ autn hx resStar kausf,
      run.2.2 = Ok (Challenge5G (locationURL uuid +:+ "/5g-aka-confirmation") (hexEncode rand) hx (hexEncode autn) actual) ∧
      ue_respond k opc rand autn sn = Some (sqn, resStar, kausf) ∧ hx = hexEncode (HRESStar rand resStar) ∧
      handleConfirm t1 uuid (Some (hexEncode resStar)) run.2.1 = (delete uuid s, Confirmed (hexEncode kausf) actual)) ∧
  (AuthMethod a = "EAP_AKA_PRIME"%string →
    ∃ autn kaut challenge pkt kseaf,
      run.2.2 = Ok (ChallengeEAP (locationURL uuid +:+ "/eap-session") challenge sn) ∧
      BuildChallenge eapIdentifier rand autn sn kaut = Ok challenge ∧ VerifyMAC challenge kaut = Ok true ∧
      ue_eap_respond k opc rand autn sn actual = Some (sqn, pkt, kseaf) ∧
      handleEAPSession t1 uuid (Some (Some pkt)) run.2.1
      = (delete uuid s, Ok (EAPSuccess (Eap.BuildSuccess eapIdentifier) (hexEncode kseaf) actual))).
Proof.
  intros H1 H2 H3 H4 H5 H6 H7 H8 run.
  destruct (udm_answers snUdm key supi actual sn rand d a k opc amf sqn H1 H2 H3 H4) as (d' & E & G).
  assert (run = (d', initWith snAusf uuid t0 (mkAuthInfo supi sn None) (Some (vectorOf a (input actual k opc amf sqn) sn rand)) s)) as ->.
  { unfold run, handleInitAuth. cbn [SUPIUSUCI]. by rewrite E. }
  cbn [fst snd]. split; [exact G|]. split; intros Hm.
  - destruct (aka_exchange snAusf supi actual sn rand a k opc amf sqn H3 H6 H7 uuid t0 t1 s Hm H8)
      as (s' & autn & hx & resStar & kausf & -> & X). exists autn, hx, resStar, kausf. split; [reflexivity|exact X].
  - destruct (eap_exchange snAusf supi actual sn rand a k opc amf sqn H3 H4 H5 H6 H7 uuid t0 t1 s Hm H8)
      as (s' & autn & kaut & challenge & pkt & kseaf & E' & X).
    unfold input. rewrite E'. exists autn, kaut, challenge, pkt, kseaf. split; [reflexivity|exact X].
Qed.

Definition udr0 (method : string) : gmap bytes UDRAuthSub :=
  {[ str "imsi-001010000000001" :=
       mkAuthSub method (str "465b5ce8b199b49faa5f0a2ee238a6bc") (str "cd63cb71954a9f4e48a5994e37a02baf") (str "8000") (str "000000000021") ]}.

#[local] Existing Instance toyCurve.
Lemma authentication_end_to_end_witness :
  GetAuthSubscription (handleInitAuth [] (udmCall [] None (replicate 16 5)) "ctx" 0
    (Some (mkAuthInfo (str "imsi-001010000000001") (str "5G:test") None)) (udr0 "5G_AKA") ∅).1 (str "imsi-001010000000001")
  = Some (set_SQN (hexEncode (IncrementSQN [0; 0; 0; 0; 0; 33]))
            (mkAuthSub "5G_AKA" (str "465b5ce8b199b49faa5f0a2ee238a6bc") (str "cd63cb71954a9f4e48a5994e37a02baf") (str "8000") (str "000000000021"))).
Proof.
  refine (proj1 (authentication_end_to_end [] [] None (str "imsi-001010000000001") (str "imsi-001010000000001") (str "5G:test")
    (replicate 16 5) (udr0 "5G_AKA") _ (be_octets 16 0x465b5ce8b199b49faa5f0a2ee238a6bc)
    (be_octets 16 0xcd63cb71954a9f4e48a5994e37a02baf) [0x80; 0] [0; 0; 0; 0; 0; 33] "ctx" 0 1000 ∅ _ _ _ _ _ _ _ _)).
  - reflexivity.
  - vm_compute. reflexivity.
  - split; vm_compute; reflexivity.
  - done.
  - cbn. lia.
  - done.
  - apply (bool_decide_unpack _). vm_compute. exact I.
  - unfold authExpiry. lia.
Defined.

(** ** What a confirmation proves *)
(** How a confirmation was obtained, and when. *)
Inductive Proof := ByRES (resStar : bytes) (now : Z) | ByEAP (pkt : bytes) (now : Z).

Definition inTime (c : AuthContext) (now : Z) : Prop := i64 (now - ac_CreatedAt c) <= authExpiry.
Definition proves (c : AuthContext) (p : Proof) : Prop :=
  match p with
  | ByRES r now => inTime c now ∧ (r = ac_XRESStar c ∨ HRESStar (ac_RAND c) r = ac_HRESStar c)
  | ByEAP pkt now => ac_AuthType c = "EAP_AKA_PRIME"%string ∧ inTime c now ∧
                     VerifyMAC pkt (ac_EAPKAut c) = Ok true ∧ ExtractRES pkt = Ok (ac_XRES c)
  end.

(** A request that has looked its context up and has not finished. *)
Inductive Request := RConfirm (resStar : bytes) | REAP (payload : option bytes).
Record Pending := mkPending { pn_id : string; pn_req : Request; pn_found : option AuthContext; pn_start : nat }.

(** Requests start, look their context up, and finish in any order. *)
Inductive AusfEvent :=
  | AInit (uuid : string) (now : Z) (info : AuthInfo) (answer : option UDMAuthDataResponse)
  | AConfirm (id : string) (body : option bytes)
  | AEAP (id : string) (body : option (option bytes))
  | AFinish (k : nat) (now : Z)
  | ADelete (id : string).

(** A confirmation: its context, its proof, and when its request started and was answered. *)
Record Confirmation := mkConfirmation { cf_id : string; cf_proof : Proof; cf_start : nat; cf_end : nat }.

(** The store, the contexts that were created, the requests under way, the confirmations
    that were given, and the number of events so far. *)
Record Run := mkRun {
  store : Contexts; created : Contexts; pending : list Pending; given : list Confirmation; ticks : nat }.

Definition finishRequest (now : Z) (q : Pending) (s : Contexts) : Contexts * option Proof :=
  match pn_req q with
  | RConfirm resStar =>
      let '(s', a) := confirmWith now (pn_id q) resStar (pn_found q) s in
      (s', match a with Confirmed _ _ => Some (ByRES resStar now) | _ => None end)
  | REAP payload =>
      let '(s', a) := eapWith now (pn_id q) payload (pn_found q) s in
      (s', match a, payload with Ok (EAPSuccess _ _ _), Some p => Some (ByEAP p now) | _, _ => None end)
  end.

Section Soundness.
Context (snAusf : bytes).

Definition ausfStep (r : Run) (ev : AusfEvent) : Run :=
  let start id req := mkRun (store r) (created r) (pending r ++ [mkPending id req (Get id (store r)) (ticks r)]) (given r) (S (ticks r)) in
  let refused := mkRun (store r) (created r) (pending r) (given r) (S (ticks r)) in
  match ev with
  | AInit uuid now info answer =>
      let s' := (initWith snAusf uuid now info answer (store r)).1 in
      mkRun s' (match s' !! uuid with Some c => <[uuid := c]> (created r) | None => created r end) (pending r) (given r)
        (S (ticks r))
  | AConfirm id body =>
      match body ≫= hexDecode with Some resStar => start id (RConfirm resStar) | None => refused end
  | AEAP id body => match body with Some payload => start id (REAP payload) | None => refused end
  | AFinish k now =>
      match pending r !! k with
      | Some q =>
          let '(s', proof) := finishRequest now q (store r) in
          mkRun s' (created r) (delete k (pending r))
            (given r ++ match proof with
                        | Some p => [mkConfirmation (pn_id q) p (pn_start q) (ticks r)]
                        | None => []
                        end) (S (ticks r))
      | None => refused
      end
  | ADelete id => mkRun (handleDelete id (store r)).1 (created r) (pending r) (given r) (S (ticks r))
  end.

(** The identifiers that are drawn are new. *)
Fixpoint freshContexts (r : Run) (evs : list AusfEvent) : Prop :=
  match evs with
  | [] => True
  | ev :: rest =>
      match ev with AInit uuid _ _ _ => created r !! uuid = None | _ => True end ∧ freshContexts (ausfStep r ev) rest
  end.

(** A later confirmation of the same context started before the earlier one was answered. *)
Definition overlap (x y : Confirmation) : Prop := cf_id y = cf_id x → (cf_start y < cf_end x)%nat.
Definition answered (r : Run) (x : Confirmation) : Prop :=
  (∃ c, created r !! cf_id x = Some c ∧ proves c (cf_proof x)) ∧ store r !! cf_id x = None.

Record ausf_inv (r : Run) : Prop := {
  ai_created id c : store r !! id = Some c → created r !! id = Some c;
  ai_pending q c : q ∈ pending r → pn_found q = Some c → created r !! pn_id q = Some c;
  ai_started q : q ∈ pending r → (pn_start q < ticks r)%nat;
  ai_given x : x ∈ given r → answered r x;
  ai_late x q c : x ∈ given r → q ∈ pending r → pn_id q = cf_id x → pn_found q = Some c → (pn_start q < cf_end x)%nat;
  ai_overlap i j x y : (i < j)%nat → given r !! i = Some x → given r !! j = Some y → overlap x y
}.

Lemma initWith_store uuid now info answer s :
  (initWith snAusf uuid now info answer s).1 = s ∨ ∃ c, (initWith snAusf uuid now info answer s).1 = <[uuid := c]> s.
Proof.
  unfold initWith. destruct answer as [u|]; [|by left]. destruct (String.eqb _ _).
  - unfold initEAPAKAPrime. repeat case_match; cbn [fst]; eauto.
  - case_match; cbn [fst]; eauto.
Qed.

(** A context is only ever taken out, and requests only ever finish. *)
Lemma ausf_inv_remove r id s' ps n :
  ausf_inv r → s' = store r ∨ s' = delete id (store r) → (∀ q, q ∈ ps → q ∈ pending r) → (ticks r <= n)%nat →
  ausf_inv (mkRun s' (created r) ps (given r) n).
Proof.
  intros [I1 I2 I3 I4 I5 I6] Hs Hp Hn. split; cbn; eauto.
  - intros i c. destruct Hs as [-> | ->]; [apply I1|]. rewrite lookup_delete_Some. intros [_ ?]. by apply I1.
  - intros q Hq. specialize (I3 q (Hp q Hq)). lia.
  - intros x Hx. destruct (I4 x Hx) as [? Hnone]. split; [done|]. cbn.
    destruct Hs as [-> | ->]; [done|]. by rewrite lookup_delete_None; auto.
Qed.

(** A confirmation takes its context out. *)
Lemma ausf_inv_confirm r q c p ps :
  ausf_inv r → q ∈ pending r → pn_found q = Some c → proves c p → (∀ x, x ∈ ps → x ∈ pending r) →
  ausf_inv (mkRun (delete (pn_id q) (store r)) (created r) ps
    (given r ++ [mkConfirmation (pn_id q) p (pn_start q) (ticks r)]) (S (ticks r))).
Proof.
  intros I Hq Hc Hp Hps. pose proof I as [I1 I2 I3 I4 I5 I6].
  destruct (ausf_inv_remove r (pn_id q) (delete (pn_id q) (store r)) ps (S (ticks r)) I (or_intror eq_refl) Hps ltac:(lia)) as [J1 J2 J3 J4 J5 J6].
  split; cbn; [exact J1|exact J2|exact J3|..].
  - intros x [H|E%list_elem_of_singleton]%elem_of_app; [by apply J4|]. subst x. split; cbn; [|apply lookup_delete_eq].
    exists c. split; [by apply I2|done].
  - intros x q' c' [H|E%list_elem_of_singleton]%elem_of_app Hq' Ei Hf; [by eapply J5|]. subst x. cbn. by apply I3, Hps.
  - intros i j x y Hij [Hx|[? Hx]]%lookup_app_Some [Hy|[? Hy]]%lookup_app_Some.
    + by eapply J6.
    + apply list_lookup_singleton_Some in Hy as [_ <-]. intros Ei. cbn in *. eapply I5; [|exact Hq|done|exact Hc].
      by eapply list_elem_of_lookup_2.
    + apply lookup_lt_Some in Hy. lia.
    + apply list_lookup_singleton_Some in Hx as [? _], Hy as [? _]. lia.
Qed.

Lemma finishRequest_cases now q s :
  ((finishRequest now q s).1 = s ∨ (finishRequest now q s).1 = delete (pn_id q) s) ∧ (finishRequest now q s).2 = None ∨
  ∃ c p, pn_found q = Some c ∧ proves c p ∧ finishRequest now q s = (delete (pn_id q) s, Some p).
Proof.
  unfold finishRequest, confirmWith, eapWith. destruct (pn_req q) as [resStar|payload], (pn_found q) as [c|]; eauto.
  - destruct (VerifyRES (Some c) resStar now) as [[c' kausf]| | |] eqn:Hv; eauto.
    right. exists c, (ByRES resStar now). split_and!; [done| |done]. split; [|by eapply VerifyRES_match].
    unfold inTime. unfold VerifyRES in Hv. destruct (Z.ltb_spec authExpiry (i64 (now - ac_CreatedAt c))); [done|lia].
  - destruct (String.eqb_spec (ac_AuthType c) "EAP_AKA_PRIME") as [Et|]; cbn [negb]; [|by destruct payload; eauto].
    destruct (Z.ltb_spec authExpiry (i64 (now - ac_CreatedAt c))) as [_|Hti]; [by destruct payload; eauto|].
    destruct payload as [pkt|]; [|eauto]. destruct (Validate pkt); eauto.
    destruct (VerifyMAC pkt (ac_EAPKAut c)) as [macOK| | |] eqn:Hm; eauto.
    destruct (ExtractRES pkt) as [res'| | |] eqn:Hr; try case_bool_decide; destruct macOK; cbn [negb orb]; eauto.
    right. exists c, (ByEAP pkt now). subst res'. done.
Qed.

(** A request that starts. *)
Lemma ausf_inv_start r id req :
  ausf_inv r → ausf_inv (mkRun (store r) (created r) (pending r ++ [mkPending id req (Get id (store r)) (ticks r)]) (given r) (S (ticks r))).
Proof.
  intros [I1 I2 I3 I4 I5 I6]. split; cbn; eauto.
  - intros q c [Hq|E%list_elem_of_singleton]%elem_of_app Hf; [by apply I2|]. subst q. by apply I1.
  - intros q [Hq|E%list_elem_of_singleton]%elem_of_app; [specialize (I3 q Hq); lia|subst q; cbn; lia].
  - intros x q c Hx [Hq|E%list_elem_of_singleton]%elem_of_app Ei Hf; [by eapply I5|].
    subst q. cbn in Ei, Hf. destruct (I4 x Hx) as [_ Hn]. unfold Get in Hf. congruence.
Qed.

Lemma ausfStep_inv r ev : ausf_inv r → freshContexts r [ev] → ausf_inv (ausfStep r ev).
Proof.
  intros I [F _]. assert (∀ s' n, s' = store r → (ticks r <= n)%nat → ausf_inv (mkRun s' (created r) (pending r) (given r) n)) as Hid.
  { intros s' n -> ?. apply (ausf_inv_remove r ""); auto. }
  destruct ev as [uuid now info answer|id body|id body|k now|id]; cbn [ausfStep].
  - pose proof I as [I1 I2 I3 I4 I5 I6]. destruct (initWith_store uuid now info answer (store r)) as [-> |[c ->]].
    + destruct (store r !! uuid) as [c|] eqn:E; [apply I1 in E; congruence|]. by apply Hid; [|lia].
    + rewrite lookup_insert_eq. split; cbn; eauto.
      * intros i x. destruct (decide (i = uuid)) as [-> |Hi]; [by rewrite !lookup_insert_eq|]. rewrite !lookup_insert_ne by done. apply I1.
      * intros q x Hq Hf. pose proof (I2 q x Hq Hf). by rewrite lookup_insert_ne by congruence.
      * intros q Hq. specialize (I3 q Hq). lia.
      * intros x Hx. destruct (I4 x Hx) as [(y & Hy & Hp) Hn]. assert (uuid ≠ cf_id x) by congruence.
        split; cbn; [exists y|]; by rewrite lookup_insert_ne.
  - destruct (body ≫= hexDecode); [by apply ausf_inv_start|]. by apply Hid; [|lia].
  - destruct body; [by apply ausf_inv_start|]. by apply Hid; [|lia].
  - destruct (pending r !! k) as [q|] eqn:Hq; [|by apply Hid; [|lia]].
    assert (∀ x, x ∈ delete k (pending r) → x ∈ pending r) as Hps by (intros x Hx; by eapply list_elem_of_delete_inv).
    destruct (finishRequest_cases now q (store r)) as [[Hs Hp]|(c & p & Hc & Hp & ->)].
    + destruct (finishRequest now q (store r)) as [s' proof]. cbn in Hs, Hp. subst proof. rewrite app_nil_r.
      by apply (ausf_inv_remove r (pn_id q)); [| | |lia].
    + eapply ausf_inv_confirm; eauto using list_elem_of_lookup_2.
  - by apply (ausf_inv_remove r id); [|right| |lia].
Qed.
End Soundness.

Definition ausfStart : Run := mkRun ∅ ∅ [] [] 0.

(** C12: confirmations are sound.  Requests to confirm a context start, look the context up
    and finish in any interleaving with each other, with new authentications (under
    new identifiers), whatever the UDM answers, and with deletions.  A confirmation is
    given only for a context that was created from an answer of the UDM, within five minutes,
    and only against a proof of it: over the RES* interface the expected RES* or a value
    with the expected hash, over the EAP interface a packet whose MAC verifies under the
    key of the context and that carries the expected RES.  A confirmed context is gone;
    and of two confirmations of the same context, the second request had started before the
    first was answered ([overlapping_confirmations] shows that this happens). *)
Theorem confirmations_sound snAusf evs :
  freshContexts snAusf ausfStart evs →
  let r := foldl (ausfStep snAusf) ausfStart evs in
  (∀ x, x ∈ given r → answered r x) ∧
  ∀ i j x y, (i < j)%nat → given r !! i = Some x → given r !! j = Some y → cf_id y = cf_id x → (cf_start y < cf_end x)%nat.
Proof.
  intros F r. assert (ausf_inv r) as []; [|done].
  assert (ausf_inv ausfStart) as I0.
  { split; cbn; try done; intros; set_solver. }
  unfold r. revert F I0. generalize ausfStart. clear. induction evs as [|ev evs IH]; intros r F I; [done|].
  destruct F as [F1 F2]. cbn [foldl]. apply IH; [done|]. apply ausfStep_inv; [done|]. by split.
Qed.

Definition demo_init : AusfEvent :=
  AInit "c1" 0 (mkAuthInfo (str "imsi-1") (str "5G:test") None)
    (Some (mkAuthData "5G_AKA" (hexEncode (replicate 16 5)) (hexEncode (replicate 16 6)) (str "0a0b") (str "0c") (str "0d")
             (str "imsi-1") [] [] [])).

(** A wrong answer, a right one, and a right one after the context is confirmed. *)
Lemma confirmations_sound_witness :
  let evs := [demo_init; AConfirm "c1" (Some (str "0a0c")); AFinish 0 10; AConfirm "c1" (Some (str "0a0b")); AFinish 0 20;
              AConfirm "c1" (Some (str "0a0b")); AFinish 0 30] in
  given (foldl (ausfStep []) ausfStart evs) = [mkConfirmation "c1" (ByRES [10; 11] 20) 3 4] ∧
  answered (foldl (ausfStep []) ausfStart evs) (mkConfirmation "c1" (ByRES [10; 11] 20) 3 4).
Proof.
  cbn zeta. match goal with |- ?l = _ ∧ _ => assert (l = [mkConfirmation "c1" (ByRES [10; 11] 20) 3 4]) as E by (vm_compute; reflexivity) end.
  split; [exact E|]. apply (confirmations_sound [] _).
  - vm_compute. repeat split.
  - rewrite E. left.
Defined.

(** Two requests that both look the context up before one of them has deleted it are both
    answered with the key: nothing marks the context as confirmed for the other. *)
Lemma overlapping_confirmations :
  given (foldl (ausfStep []) ausfStart
    [demo_init; AConfirm "c1" (Some (str "0a0b")); AConfirm "c1" (Some (str "0a0b")); AFinish 0 10; AFinish 0 11])
  = [mkConfirmation "c1" (ByRES [10; 11] 10) 1 3; mkConfirmation "c1" (ByRES [10; 11] 11) 2 4].
Proof. vm_compute. reflexivity. Qed.

(** C13: the two interfaces of the AUSF are not kept apart.  A context that waits for the
    answer to an EAP-AKA' challenge is confirmed over the RES* interface by an empty
    RES*, without any proof from the UE, and its KAUSF is returned: the expected RES* of
    such a context is empty, and the confirmation does not look at the method. *)
Theorem eap_confirmed_without_answer snAusf uuid t0 t1 info u s s' href ch sn :
  initWith snAusf uuid t0 info (Some u) s = (s', Ok (ChallengeEAP href ch sn)) → 0 <= t1 - t0 <= authExpiry →
  ∃ kausf, KAUSFFromEMSK (EMSK (DeriveKeys (hexPrefix (CkPrime u)) (hexPrefix (IkPrime u)) (Supi u))) = Ok kausf ∧
    handleConfirm t1 uuid (Some []) s' = (delete uuid s, Confirmed (hexEncode kausf) (Supi u)).
Proof.
  intros H Ht. unfold initWith in H. destruct (String.eqb _ _); [|case_match; discriminate].
  unfold initEAPAKAPrime in H. destruct (hexDecode (Rand u)) as [rand|]; [|discriminate].
  destruct (hexDecode (Autn u)) as [autn|]; [|discriminate]. destruct (hexDecode (CkPrime u)) as [ck|] eqn:Ec; [|discriminate].
  destruct (hexDecode (IkPrime u)) as [ik|] eqn:Ei; [|discriminate]. destruct (hexDecode (Xres u)) as [xres|]; [|discriminate].
  destruct (negb (length rand =? 16)%nat || _ || _ || _ || _); [discriminate|]. cbn zeta in H.
  rewrite (hexPrefix_decode _ _ Ec), (hexPrefix_decode _ _ Ei). set (keys := DeriveKeys ck ik (Supi u)) in *.
  destruct (KAUSFFromEMSK (EMSK keys)) as [kausf| | |] eqn:Ek; [|discriminate..].
  destruct (BuildChallenge _ _ _ _ _) as [c| | |]; [|discriminate..]. destruct (slice xres 0 8) as [x8| | |]; [|discriminate..].
  apply pair_eq in H as [<- _]. exists kausf. split; [done|].
  unfold handleConfirm, confirmWith, Get, Put. cbn [hexDecode]. rewrite lookup_insert_eq. unfold VerifyRES. cbn [ac_CreatedAt ac_XRESStar ac_KAUSF ac_SUPI].
  unfold authExpiry in *. rewrite i64_small by (unfold is_i64; lia). destruct (Z.ltb_spec (5 * 60 * 1000000000) (t1 - t0)); [lia|].
  rewrite bool_decide_true by done. cbn [negb andb]. unfold Delete. by rewrite delete_insert_eq.
Qed.

Definition eapAnswer0 (xres : bytes) : UDMAuthDataResponse :=
  mkAuthData "EAP_AKA_PRIME" (hexEncode (replicate 16 5)) (hexEncode (replicate 16 6)) [] [] [] (str "imsi-1")
    (hexEncode (replicate 16 7)) (hexEncode (replicate 16 8)) (hexEncode xres).

Lemma eap_confirmed_without_answer_witness :
  ∃ kausf, KAUSFFromEMSK (EMSK (DeriveKeys (hexPrefix (CkPrime (eapAnswer0 (replicate 8 1)))) (hexPrefix (IkPrime (eapAnswer0 (replicate 8 1)))) (Supi (eapAnswer0 (replicate 8 1))))) = Ok kausf ∧
    handleConfirm 1000 "c1" (Some []) (initWith [] "c1" 0 (mkAuthInfo (str "imsi-1") (str "5G:test") None) (Some (eapAnswer0 (replicate 8 1))) ∅).1
    = (delete "c1"%string ∅, Confirmed (hexEncode kausf) (Supi (eapAnswer0 (replicate 8 1)))).
Proof.
  refine (eap_confirmed_without_answer [] "c1" 0 1000 (mkAuthInfo (str "imsi-1") (str "5G:test") None) (eapAnswer0 (replicate 8 1)) ∅ _ _ _ _ _ _).
  - vm_compute. reflexivity.
  - unfold authExpiry. lia.
Defined.

(** An answer of the UDM with an expected response shorter than 8 octets makes the
    handler panic. *)
Lemma short_xres_panics : (initWith [] "c1" 0 (mkAuthInfo (str "imsi-1") (str "5G:test") None) (Some (eapAnswer0 [1; 2; 3; 4])) ∅).2 = Panic.
Proof. vm_compute. reflexivity. Qed.
