(* ===== verification/AmfN2.v ===== *)
(** The N2 side of the AMF, [nf/amf/internal/ngap/ngap.go]: the associations of
    the gNBs, which gNB serves which UE, the messages sent to the gNBs, UE
    context release and the supervision timers, with the handlers that
    [cmd/amf/main.go] registers for a lost gNB, for AN release and for implicit
    detach.  The types of the handover procedures are here as well, because
    their tasks wait in the queues of the UEs; their code is in [AmfHandover].

    gNB contexts and UE contexts are shared by pointer, so both live on heaps.
    NGAP messages are values: the ASN.1 encoder that turns them into octets is
    outside the repository and either fails or not ([env_encodes]), and so does
    a write to an association ([env_writes]).  Everything else the environment
    decides is in [Env] too; a handler runs in one step unless it waits for an
    SMF, where it is split.  Logs and metrics are not modelled. *)
From S2P Require Import Prelude NasReader NasService NasCodec GoCrypto CryptoNas CryptoAka AmfContext.

Definition gloc := positive.  (* a [*GNBContext] *)
Definition hloc := positive.  (* a [*n2HandoverState] *)

(** * Constants *)

Definition ngapCausePresentRadioNetwork : Z := 1.
Definition ngapCausePresentNas : Z := 3.
Definition causePresentMisc : Z := 5.
Definition ngapCauseNasNormalRelease : Z := 0.
Definition causeMiscUnspecified : Z := 5.
Definition ngapCauseSuccessfulHandover : Z := 2.
Definition ngapCauseReleaseDueTo5gcGeneratedReason : Z := 4.
Definition causeHoFailureInTarget : Z := 7.
Definition causeUnknownTargetID : Z := 12.
Definition causeUnknownLocalUENGAPID : Z := 14.
Definition causeUnknownPDUSessionID : Z := 26.
Definition causeMultiplePDUSessionIDInstances : Z := 28.

(** * Data of the messages *)

Record TAI := mkTAI { tai_MCC : string; tai_MNC : string; tai_TAC : Z }.

Record GlobalRANNode := mkGlobalRANNode {
  rn_Type : string; rn_MCC : string; rn_MNC : string; rn_GNBID : Z; rn_GNBIDBitLen : Z }.
Record HOTargetTAI := mkHOTargetTAI { hot_MCC : string; hot_MNC : string; hot_TAC : string }.
Record HOTargetID := mkHOTargetID { ho_Node : GlobalRANNode; ho_TAI : option HOTargetTAI }.

Record UESecCapBitmaps := mkUESecCapBitmaps { bm_Enc : Z; bm_Int : Z }.
Record UEAMBR := mkUEAMBR { am_ULBps : Z; am_DLBps : Z }.

Record PDUSessionSwitchItem := mkSwitchItem {
  sw_PDUSessionID : Z; sw_PathSwitchRequestTransfer : bytes; sw_AckTransfer : bytes }.
Record PDUSessionFailedSetupItem := mkFailedSetupItem { fs_PDUSessionID : Z; fs_Transfer : bytes }.
Record PDUSessionReleasedItem := mkReleasedItem {
  rl_PDUSessionID : Z; rl_CausePresent : Z; rl_CauseValue : Z; rl_Transfer : bytes }.
Record PDUSessionHORqdItem := mkHORqdItem { hr_PDUSessionID : Z; hr_HandoverRequiredTransfer : bytes }.
Record PDUSessionHOReqItem := mkHOReqItem {
  hq_PDUSessionID : Z; hq_SNSSAI : SNSSAISubscribed; hq_HandoverRequestTransfer : bytes }.
Record PDUSessionHOAdmittedItem := mkHOAdmittedItem { ad_PDUSessionID : Z; ad_Transfer : bytes }.
Record PDUSessionHOFailedItem := mkHOFailedItem { fl_PDUSessionID : Z; fl_Transfer : bytes }.
Record PDUSessionHOCmdItem := mkHOCmdItem { hc_PDUSessionID : Z; hc_HandoverCommandTransfer : bytes }.
Record PDUSessionHOReleaseItem := mkHOReleaseItem {
  re_PDUSessionID : Z; re_Transfer : bytes; re_CausePresent : Z; re_CauseValue : Z }.

Record PathSwitchRequestMsg := mkPathSwitchRequest {
  psr_SourceAMFUENGAPId : Z; psr_RANUENGAPId : Z; psr_PDUSessions : list PDUSessionSwitchItem;
  psr_TAI : option TAI; psr_UESecCap : option UESecCapBitmaps;
  psr_FailedToSetup : list PDUSessionFailedSetupItem }.
Record HandoverRequiredMsg := mkHandoverRequired {
  hrq_AMFUENGAPId : Z; hrq_RANUENGAPId : Z; hrq_HandoverType : Z; hrq_CausePresent : Z; hrq_CauseValue : Z;
  hrq_TargetGlobalRANNodeID : bytes; hrq_Target : HOTargetID; hrq_PDUSessions : list PDUSessionHORqdItem;
  hrq_Container : bytes }.
Record HandoverRequestAckMsg := mkHandoverRequestAck {
  hra_AMFUENGAPId : Z; hra_RANUENGAPId : Z; hra_AdmittedSessions : list PDUSessionHOAdmittedItem;
  hra_FailedSessions : list PDUSessionHOFailedItem; hra_Container : bytes }.
(** The user location information counts only as the TAI read from it. *)
Record HandoverNotifyMsg := mkHandoverNotify {
  hno_AMFUENGAPId : Z; hno_RANUENGAPId : Z; hno_TAI : option TAI }.

Record PathSwitchAckParams := mkPathSwitchAck {
  psa_AMFUENGAPId : Z; psa_RANUENGAPId : Z; psa_UESecCap : option UESecCapBitmaps; psa_NCC : Z; psa_NH : bytes;
  psa_Switched : list PDUSessionSwitchItem; psa_Released : list PDUSessionReleasedItem;
  psa_AllowedNSSAI : list SNSSAISubscribed }.
Record HandoverRequestParams := mkHandoverRequest {
  hop_AMFUENGAPId : Z; hop_HandoverType : Z; hop_CausePresent : Z; hop_CauseValue : Z; hop_UEAMBR : UEAMBR;
  hop_NCC : Z; hop_NH : bytes; hop_UESecCap : UESecCapBitmaps; hop_Sessions : list PDUSessionHOReqItem;
  hop_AllowedNSSAI : list SNSSAISubscribed; hop_Container : bytes; hop_GUAMI : AMFIdentity }.

Record InitialUEMessage := mkInitialUEMessage {
  iue_RANUENGAPId : Z; iue_NASPdu : bytes; iue_TAI : option TAI; iue_FiveGSTMSI : option Z }.

(** What the AMF writes to a gNB. *)
Inductive NGAPMsg :=
| PathSwitchRequestAcknowledge (p : PathSwitchAckParams)
| PathSwitchRequestFailure (amfID ranID : Z) (released : list PDUSessionReleasedItem)
| HandoverRequest (p : HandoverRequestParams)
| HandoverPreparationFailure (amfID ranID causePresent causeValue : Z)
| HandoverCommand (amfID ranID handoverType : Z) (handled : list PDUSessionHOCmdItem)
    (toRelease : list PDUSessionHOReleaseItem) (container : bytes)
| UEContextReleaseCommand (amfID ranID causePresent causeValue : Z)
| DownlinkNASTransport (amfID ranID : Z) (nas : bytes)
| InitialContextSetupRequest (amfID ranID : Z) (nas kgnb : bytes) (enc int : Z) (guami : AMFIdentity)
    (allowed : list SNSSAISubscribed) (ambr : option UEAMBR) (rfsp : Z) (sessions : list (Z * Z * bytes * bytes))
| PDUSessionResourceSetupRequest (amfID ranID psi : Z) (nas n2sm : bytes) (sst : Z) (sd : bytes)
    (ambr : option UEAMBR)
| PDUSessionResourceModifyRequest (amfID ranID psi : Z) (nas n2sm : bytes)
| PDUSessionResourceReleaseCommand (amfID ranID psi : Z) (nas : bytes)
| NGSetupResponse.

(** What the AMF asks an SMF, by SM context. *)
Inductive SMFCall :=
| UpdatePathSwitch (ref : string) (transfer : bytes)
| UpdatePathSwitchSetupFail (ref : string) (transfer : bytes)
| PrepareHandoverRequired (ref : string) (transfer : bytes) (target : HOTargetID)
| PrepareHandover (ref : string) (transfer : bytes)
| HandoverResourceAllocationFailed (ref : string) (transfer : bytes)
| CompleteHandover (ref : string)
| DeactivateUP (ref : string)
| UpdateSMContext (ref : string) (transfer : bytes)
| DeleteSMContext (ref : string).

Inductive Effect :=
| Sent (g : gloc) (m : NGAPMsg)
| SentEmpty (g : gloc)   (* a PDU the encoder failed on, where that is not checked *)
| Called (c : SMFCall)
| DeregisterUECM (supi : string).

(** * State *)

Record GNBContext := mkGNB {
  gnb_addr : string;            (* [remoteAddrString()] *)
  gnb_GlobalGNBID : bytes;
  gnb_UEs : gmap Z loc;         (* by RAN UE NGAP ID *)
  gnb_IdleUEs : gmap Z loc }.

(** The fields of a UE context that belong to N2: the address of the serving
    gNB, the PLMN of the TAI (its TAC is [ue_TAC]), whether the gNB has the
    UE-AMBR, and the radio capability. *)
Record N2Fields := mkN2Fields {
  n2_GNBAddr : string; n2_MCC : string; n2_MNC : string; n2_UEAMBRSentToRAN : bool; n2_RadioCap : bytes }.
Definition noN2 : N2Fields := mkN2Fields "" "" "" false [].

Record n2HandoverState := mkN2HO {
  h_sourceGNB : gloc; h_sourceRANUENGAPId : Z; h_targetGNB : gloc; h_handoverType : Z;
  h_causePresent : Z; h_causeValue : Z; h_admittedSessions : list PDUSessionHOAdmittedItem;
  h_tgtToSrcContainer : bytes; h_prepReleased : list PDUSessionHOReleaseItem; h_targetFailed : list Z }.

Record pathSwitchPlan := mkPlan {
  pl_requested : list Z; pl_transfers : gmap Z bytes; pl_smRefs : gmap Z string;
  pl_failed : list PDUSessionFailedSetupItem }.

Record hoCandidate := mkCandidate {
  ca_psi : Z; ca_ref : string; ca_snssai : SNSSAISubscribed; ca_cached : bytes; ca_required : bytes }.

(** What [continueHandoverPreparation] has read before it waits for the SMFs. *)
Record prepSnapshot := mkPrep {
  pp_cands : list hoCandidate; pp_unknown : list PDUSessionHOReleaseItem; pp_bitmaps : UESecCapBitmaps;
  pp_allowed : list SNSSAISubscribed; pp_ambr : UEAMBR }.

(** The tasks of a UE's serial queue; [*Waiting] are tasks that have sent their
    requests to the SMFs. *)
Inductive Task :=
| HandleNAS (pdu : bytes)
| ANRelease
| CompletePathSwitch (target : gloc) (req : PathSwitchRequestMsg) (plan : pathSwitchPlan)
| ContinuePreparation (source target : gloc) (req : HandoverRequiredMsg)
| PreparationWaiting (source target : gloc) (req : HandoverRequiredMsg) (p : prepSnapshot)
| CompletePreparation (target : gloc) (ack : HandoverRequestAckMsg) (h : hloc)
| CompletionWaiting (target : gloc) (ack : HandoverRequestAckMsg) (h : hloc) (smRefs : gmap Z string).

(** * Configuration and environment *)

(** [ngapSrv.Set...Handler]: which of the handlers are registered. *)
Record Hooks := mkHooks {
  onPathSwitchPDUSession : bool; onPathSwitchSetupFail : bool; onUPDeactivate : bool; onHandoverRequired : bool;
  onHandoverReqAck : bool; onHandoverResAllocFail : bool; onHandoverComplete : bool; onANRelease : bool;
  onGNBDisconnect : bool; onImplicitDetach : bool; onPDUSessionSetup : bool; onPDUSessionSetupFailure : bool }.

(** As [cmd/amf/main.go] sets them. *)
Definition mainHooks : Hooks := mkHooks true true true true true true true true true true true true.

(** The timer durations in force, in seconds; of the runtime store the effective
    values, when there is one. *)
Record TimerValues := mkTimerValues { tv_T3512Secs : Z; tv_GuardSecs : Z; tv_ImplicitDetachSecs : Z }.
Record N2Config := mkN2Config {
  cfg_ID : AMFIdentity; cfg_hooks : Hooks; cfg_timers : option TimerValues;
  cfg_MobileReachable : Z; cfg_ImplicitDetach : Z; cfg_PendingRemoval : Z }.

(** Errors of Go's [context] package, and others. *)
Inductive GoError := DeadlineExceeded | Canceled | OtherError.

Record SMFUpdateResult := mkSMFResult {
  sr_HTTPStatus : Z; sr_N2SmInfo : bytes; sr_N2SmInfoType : string; sr_HoState : string; sr_Err : option GoError }.

(** A bounded wait for an SMF: it answers, or the wait ends first. *)
Inductive Wait := Answered (r : SMFUpdateResult) | Expired (e : GoError).

(** A decoded NGAP [Cause]: the choice and the members that are set. *)
Record NGAPCause := mkNGAPCause {
  ng_Present : Z; ng_RadioNetwork : option Z; ng_Transport : option Z; ng_Nas : option Z;
  ng_Protocol : option Z; ng_Misc : option Z }.

(** The ASN.1 decoder, [aper.UnmarshalWithParams]: whether a transfer decodes,
    and what is read from it. *)
Record NgapAper := mkNgapAper {
  un_PathSwitchAck : bytes → bool; un_PathSwitchUnsuccessful : bytes → bool; un_HandoverCommand : bytes → bool;
  un_PrepUnsuccessful : bytes → bool;
  un_SetupRequest : bytes → option (list (Z * bool));  (* IEs: id, and whether the UL tunnel is in the value *)
  un_ResAllocUnsuccessful : bytes → option NGAPCause }.

(** What the environment decides in one step: the encoder, the associations, the
    answer to the [i]th of a batch of SMF calls, the order in which Go visits a
    map, the clock, and what the NAS handler writes to the UE's context. *)
Record Env := mkEnv {
  env_encodes : NGAPMsg → bool;
  env_writes : gloc → option NGAPMsg → bool;   (* [None]: the empty PDU of a failed encoding *)
  env_smf : nat → SMFCall → Wait;
  env_order : ∀ {A : Type}, list A → list A;
  env_order_perm : ∀ A (l : list A), env_order l ≡ₚ l;
  env_now : Z;
  env_nas : UEContext → UEContext }.

Definition set_RANUENGAPId (v : Z) (u : UEContext) : UEContext :=
  mkUE (ue_SUPI u) (ue_SUCI u) (ue_GUTI u) (ue_AMFUENGAPId u) v (ue_KgNB u) (ue_NH u)
    (ue_NCC u) (ue_NHValid u) (ue_CMState u) (ue_State u) (ue_SecurityCtx u) (ue_RawUESecCap u)
    (ue_AllowedNSSAI u) (ue_RequestedNSSAI u) (ue_AMBRUL u) (ue_AMBRDL u) (ue_PDUSessions u)
    (ue_pagedPDUSessions u) (ue_RegistrationTime u) (ue_LastActivity u) (ue_MobileReachableTimer u)
    (ue_ImplicitDetachTimer u) (ue_PendingRemovalTimer u) (ue_PEI u) (ue_TAC u) (ue_Auth u) (ue_NSSAA u)
    (ue_Policy u) (ue_PendingRemoval u).

Definition set_TAC (v : Z) (u : UEContext) : UEContext :=
  mkUE (ue_SUPI u) (ue_SUCI u) (ue_GUTI u) (ue_AMFUENGAPId u) (ue_RANUENGAPId u) (ue_KgNB u) (ue_NH u)
    (ue_NCC u) (ue_NHValid u) (ue_CMState u) (ue_State u) (ue_SecurityCtx u) (ue_RawUESecCap u)
    (ue_AllowedNSSAI u) (ue_RequestedNSSAI u) (ue_AMBRUL u) (ue_AMBRDL u) (ue_PDUSessions u)
    (ue_pagedPDUSessions u) (ue_RegistrationTime u) (ue_LastActivity u) (ue_MobileReachableTimer u)
    (ue_ImplicitDetachTimer u) (ue_PendingRemovalTimer u) (ue_PEI u) v (ue_Auth u) (ue_NSSAA u)
    (ue_Policy u) (ue_PendingRemoval u).

Section N2.
Context {D C : Type} `{!Store D, !Cache C}.

Record Server := mkServer {
  sv_mgr : Manager D C;
  sv_n2 : gmap loc N2Fields;
  sv_gnbs : gmap string gloc;
  sv_gnb : gmap gloc GNBContext;
  sv_pendingN2HO : gmap Z hloc;
  sv_ho : gmap hloc n2HandoverState;
  sv_queue : gmap loc (list Task);
  sv_out : list Effect }.

Implicit Types (s : Server) (e : Env) (l : loc) (g : gloc).

(** ** Access *)

Definition with_mgr (m : Manager D C) s : Server :=
  mkServer m (sv_n2 s) (sv_gnbs s) (sv_gnb s) (sv_pendingN2HO s) (sv_ho s) (sv_queue s) (sv_out s).
Definition with_gnbs (v : gmap string gloc) s : Server :=
  mkServer (sv_mgr s) (sv_n2 s) v (sv_gnb s) (sv_pendingN2HO s) (sv_ho s) (sv_queue s) (sv_out s).
Definition with_pending (v : gmap Z hloc) s : Server :=
  mkServer (sv_mgr s) (sv_n2 s) (sv_gnbs s) (sv_gnb s) v (sv_ho s) (sv_queue s) (sv_out s).
Definition with_queue (v : gmap loc (list Task)) s : Server :=
  mkServer (sv_mgr s) (sv_n2 s) (sv_gnbs s) (sv_gnb s) (sv_pendingN2HO s) (sv_ho s) v (sv_out s).

(** Writes through pointers. *)
Definition onUE l (f : UEContext → UEContext) s : Server := with_mgr (write (sv_mgr s) l f) s.
Definition n2_of s l : N2Fields := default noN2 (sv_n2 s !! l).
Definition onN2 l (f : N2Fields → N2Fields) s : Server :=
  mkServer (sv_mgr s) (<[l := f (n2_of s l)]> (sv_n2 s)) (sv_gnbs s) (sv_gnb s) (sv_pendingN2HO s) (sv_ho s)
    (sv_queue s) (sv_out s).
Definition onGNB g (f : GNBContext → GNBContext) s : Server :=
  mkServer (sv_mgr s) (sv_n2 s) (sv_gnbs s) (alter f g (sv_gnb s)) (sv_pendingN2HO s) (sv_ho s)
    (sv_queue s) (sv_out s).
Definition onHO (h : hloc) (f : n2HandoverState → n2HandoverState) s : Server :=
  mkServer (sv_mgr s) (sv_n2 s) (sv_gnbs s) (sv_gnb s) (sv_pendingN2HO s) (alter f h (sv_ho s))
    (sv_queue s) (sv_out s).
Definition emit (es : list Effect) s : Server :=
  mkServer (sv_mgr s) (sv_n2 s) (sv_gnbs s) (sv_gnb s) (sv_pendingN2HO s) (sv_ho s) (sv_queue s) (sv_out s ++ es).

Definition ue_of s l : option UEContext := ues (sv_mgr s) !! l.
Definition addr_of s g : string := default "" (gnb_addr <$> sv_gnb s !! g).

Definition set_UEs (v : gmap Z loc) (b : GNBContext) : GNBContext :=
  mkGNB (gnb_addr b) (gnb_GlobalGNBID b) v (gnb_IdleUEs b).
Definition set_IdleUEs (v : gmap Z loc) (b : GNBContext) : GNBContext :=
  mkGNB (gnb_addr b) (gnb_GlobalGNBID b) (gnb_UEs b) v.
Definition addUE (ran : Z) l (b : GNBContext) : GNBContext := set_UEs (<[ran := l]> (gnb_UEs b)) b.
Definition delUE (ran : Z) (b : GNBContext) : GNBContext := set_UEs (delete ran (gnb_UEs b)) b.
Definition delIdle (ran : Z) (b : GNBContext) : GNBContext := set_IdleUEs (delete ran (gnb_IdleUEs b)) b.

Definition set_GNBAddr (v : string) (n : N2Fields) : N2Fields :=
  mkN2Fields v (n2_MCC n) (n2_MNC n) (n2_UEAMBRSentToRAN n) (n2_RadioCap n).
Definition set_AMBRSent (v : bool) (n : N2Fields) : N2Fields :=
  mkN2Fields (n2_GNBAddr n) (n2_MCC n) (n2_MNC n) v (n2_RadioCap n).

(** [if tai != nil { ue.TAI = ... }] *)
Definition setTAI l (t : option TAI) s : Server :=
  match t with
  | None => s
  | Some t =>
      onUE l (set_TAC (tai_TAC t))
        (onN2 l (λ n, mkN2Fields (n2_GNBAddr n) (tai_MCC t) (tai_MNC t) (n2_UEAMBRSentToRAN n) (n2_RadioCap n)) s)
  end.

Definition EnqueueTask l (t : Task) s : Server :=
  with_queue (<[l := default [] (sv_queue s !! l) ++ [t]]> (sv_queue s)) s.

(** ** Sending *)

Definition encode e (m : NGAPMsg) : option NGAPMsg := if env_encodes e m then Some m else None.

Definition writeNGAP e g (pdu : option NGAPMsg) s : Server * bool :=
  if env_writes e g pdu then (emit [match pdu with Some m => Sent g m | None => SentEmpty g end] s, true)
  else (s, false).

(** [if pdu == nil { return }] before the write. *)
Definition send e g (pdu : option NGAPMsg) s : Server * bool :=
  match pdu with Some _ => writeNGAP e g pdu s | None => (s, false) end.

Definition findGNBForUE s l : option gloc :=
  let addr := n2_GNBAddr (n2_of s l) in
  if String.eqb addr "" then None else sv_gnbs s !! addr.

Definition DefaultUEAMBRBps : Z := 1000000000.
Definition NewUEAMBRFromKbps (ulKbps dlKbps : Z) : UEAMBR :=
  mkUEAMBR (i64 (i64 ulKbps * 1000)) (i64 (i64 dlKbps * 1000)).
Definition buildUEAMBR (ulBps dlBps : Z) : UEAMBR :=
  mkUEAMBR (if ulBps <=? 0 then DefaultUEAMBRBps else ulBps) (if dlBps <=? 0 then DefaultUEAMBRBps else dlBps).

Definition hexNibble (c : Z) : Z :=
  if (48 <=? c) && (c <=? 57) then c - 48
  else if (97 <=? c) && (c <=? 102) then c - 97 + 10
  else if (65 <=? c) && (c <=? 70) then c - 65 + 10
  else 0x0F.

Definition snssaiSDBytes (sd : string) : bytes :=
  match str sd with
  | [a; b; c; d; x; y] =>
      [Z.lor (hexNibble b) (u8 (Z.shiftl (hexNibble a) 4)); Z.lor (hexNibble d) (u8 (Z.shiftl (hexNibble c) 4));
       Z.lor (hexNibble y) (u8 (Z.shiftl (hexNibble x) 4))]
  | _ => []
  end.

(** The result of a sender is [true] for a nil error. *)
Definition SendDownlinkNASTransport e l (nas : bytes) s : Server * bool :=
  match findGNBForUE s l, ue_of s l with
  | Some g, Some u =>
      writeNGAP e g (encode e (DownlinkNASTransport (ue_AMFUENGAPId u) (ue_RANUENGAPId u) nas)) s
  | _, _ => (s, false)
  end.

Section Sending.
Context (cfg : N2Config).

Definition SendInitialContextSetupRequest e l (nas kgnb : bytes) (enc int : Z)
    (sessions : list (Z * Z * bytes * bytes)) s : Server * bool :=
  match findGNBForUE s l, ue_of s l with
  | Some g, Some u =>
      let ambr := if decide (sessions = []) then None
                  else Some (buildUEAMBR (i64 (i64 (ue_AMBRUL u) * 1000)) (i64 (i64 (ue_AMBRDL u) * 1000))) in
      let pdu := encode e (InitialContextSetupRequest (ue_AMFUENGAPId u) (ue_RANUENGAPId u) nas kgnb enc int
                   (cfg_ID cfg) (ue_AllowedNSSAI u) ambr (po_RFSP (ue_Policy u)) sessions) in
      let '(s, ok) := writeNGAP e g pdu s in
      (if ok then onN2 l (set_AMBRSent (bool_decide (sessions ≠ []))) s else s, ok)
  | _, _ => (s, false)
  end.

Definition SendPDUSessionResourceSetupRequest e l (psi : Z) (nas n2sm : bytes) s : Server * bool :=
  match findGNBForUE s l, ue_of s l with
  | Some g, Some u =>
      let '(sst, sd) := match ue_PDUSessions u !! psi with
                        | Some p => (s_SST (ps_SNSSAI p), snssaiSDBytes (s_SD (ps_SNSSAI p)))
                        | None => (1, [0; 0; 1])
                        end in
      let ambr := if n2_UEAMBRSentToRAN (n2_of s l) then None
                  else Some (NewUEAMBRFromKbps (ue_AMBRUL u) (ue_AMBRDL u)) in
      let pdu := encode e (PDUSessionResourceSetupRequest (ue_AMFUENGAPId u) (ue_RANUENGAPId u) psi nas n2sm sst sd
                   ((λ a, buildUEAMBR (am_ULBps a) (am_DLBps a)) <$> ambr)) in
      let '(s, ok) := writeNGAP e g pdu s in
      (if ok && bool_decide (is_Some ambr) then onN2 l (set_AMBRSent true) s else s, ok)
  | _, _ => (s, false)
  end.

Definition SendPDUSessionResourceModifyRequest e l (psi : Z) (nas n2sm : bytes) s : Server * bool :=
  match findGNBForUE s l, ue_of s l with
  | Some g, Some u =>
      send e g (encode e (PDUSessionResourceModifyRequest (ue_AMFUENGAPId u) (ue_RANUENGAPId u) psi nas n2sm)) s
  | _, _ => (s, false)
  end.

Definition SendPDUSessionResourceReleaseCommand e l (psi : Z) (nas : bytes) s : Server * bool :=
  match findGNBForUE s l, ue_of s l with
  | Some g, Some u =>
      writeNGAP e g (encode e (PDUSessionResourceReleaseCommand (ue_AMFUENGAPId u) (ue_RANUENGAPId u) psi nas)) s
  | _, _ => (s, false)
  end.

(** ** Timers *)

Definition mobileReachableDuration (u : UEContext) : Z :=
  match cfg_timers cfg with
  | None => cfg_MobileReachable cfg
  | Some v =>
      let sent := po_T3512SentSecs (ue_Policy u) in
      (if tv_T3512Secs v <? sent then sent else tv_T3512Secs v) + tv_GuardSecs v
  end.

Definition implicitDetachDuration : Z :=
  match cfg_timers cfg with None => cfg_ImplicitDetach cfg | Some v => tv_ImplicitDetachSecs v end.

Definition StartMobileReachableTimer (u : UEContext) : UEContext :=
  if mobileReachableDuration u =? 0 then u
  else set_timers (Some true) (ue_ImplicitDetachTimer u) (ue_PendingRemovalTimer u) u.

Definition startImplicitDetachTimer (u : UEContext) : UEContext :=
  if implicitDetachDuration =? 0 then u
  else set_timers (ue_MobileReachableTimer u) (Some true) (ue_PendingRemovalTimer u) u.

Definition startPendingRemovalTimer (u : UEContext) : UEContext :=
  if cfg_PendingRemoval cfg =? 0 then u
  else set_timers (ue_MobileReachableTimer u) (ue_ImplicitDetachTimer u) (Some true) u.

(** ** Release of UE contexts *)

Definition SendUEContextReleaseCommand e g (amfID ranID causePresent causeValue : Z) s : Server * bool :=
  send e g (encode e (UEContextReleaseCommand amfID ranID causePresent causeValue)) s.

Inductive SendResult := SendOK | SendErr | ErrNoN2Association.

Definition SendUEContextReleaseCommandForUEStrict e l (causePresent causeValue : Z) s : Server * SendResult :=
  match findGNBForUE s l, ue_of s l with
  | Some g, Some u =>
      let '(s, ok) :=
        SendUEContextReleaseCommand e g (ue_AMFUENGAPId u) (ue_RANUENGAPId u) causePresent causeValue s in
      if ok then (if ue_PendingRemoval u then onUE l startPendingRemovalTimer s else s, SendOK) else (s, SendErr)
  | _, _ => (s, ErrNoN2Association)
  end.

Definition SendUEContextReleaseCommandForUE e l (causePresent causeValue : Z) s : Server * bool :=
  let '(s, r) := SendUEContextReleaseCommandForUEStrict e l causePresent causeValue s in
  (s, match r with SendErr => false | SendOK | ErrNoN2Association => true end).

(** The first idle entry of the UE that the loop meets is deleted. *)
Definition promote e l (b : GNBContext) : GNBContext :=
  match list_find (λ p, p.2 = l) (env_order e (map_to_list (gnb_IdleUEs b))) with
  | Some (_, (ran, _)) => delIdle ran b
  | None => b
  end.

Definition removeUEFromIdleUEs e l s : Server :=
  foldl (λ s p, onGNB p.2 (promote e l) s) s (env_order e (map_to_list (sv_gnbs s))).

(** The handlers of [cmd/amf/main.go] for a lost gNB and for implicit detach. *)
Definition sessionRefs e (u : UEContext) : list string :=
  filter (λ r, r ≠ "") (ps_SMFInstanceID <$> (env_order e (map_to_list (ue_PDUSessions u))).*2).

Definition releaseAndRemove e l s : Server :=
  match ue_of s l with
  | None => s
  | Some u =>
      let s := emit (Called ∘ DeleteSMContext <$> sessionRefs e u) s in
      let s := if String.eqb (ue_SUPI u) "" then s else emit [DeregisterUECM (ue_SUPI u)] s in
      with_mgr (Remove (sv_mgr s) l) s
  end.

(** The handler for AN release, run on the queue of the UE. *)
Definition notifyANRelease e l s : Server :=
  match ue_of s l with
  | None => s
  | Some u => emit (Called ∘ DeactivateUP <$> sessionRefs e u) s
  end.

(** The bodies of the timers. *)
Definition mobileReachableExpired l s : Server :=
  match ue_of s l with
  | Some u => if decide (ue_CMState u = CMConnected) then s else onUE l startImplicitDetachTimer s
  | None => s
  end.

Definition implicitDetachExpired e l s : Server :=
  match ue_of s l with
  | Some u =>
      if decide (ue_CMState u = CMConnected) then s
      else
        let s := removeUEFromIdleUEs e l s in
        if onImplicitDetach (cfg_hooks cfg) then releaseAndRemove e l s else s
  | None => s
  end.

Definition pendingRemovalExpired e l s : Server :=
  let s := removeUEFromIdleUEs e l s in with_mgr (Remove (sv_mgr s) l) s.

(** ** Associations *)

(** [handleGNBConn], up to the read loop; [None] is a remote address that the
    kernel no longer has. *)
Definition gnbConnected (ra : option string) s : Server :=
  match ra with
  | None => s
  | Some remoteAddr =>
      let g := fresh (dom (sv_gnb s)) in
      mkServer (sv_mgr s) (sv_n2 s) (<[remoteAddr := g]> (sv_gnbs s)) (<[g := mkGNB remoteAddr [] ∅ ∅]> (sv_gnb s))
        (sv_pendingN2HO s) (sv_ho s) (sv_queue s) (sv_out s)
  end.

(** The UEs of a gNB, connected and idle. *)
Definition allUEs e (b : GNBContext) : list loc :=
  (env_order e (map_to_list (gnb_UEs b))).*2 ++ (env_order e (map_to_list (gnb_IdleUEs b))).*2.

(** Its deferred function, when the association ends. *)
Definition gnbDisconnected e g s : Server :=
  match sv_gnb s !! g with
  | None => s
  | Some b =>
      let s := if onGNBDisconnect (cfg_hooks cfg) then foldl (λ s l, releaseAndRemove e l s) s (allUEs e b) else s in
      with_gnbs (delete (gnb_addr b) (sv_gnbs s)) s
  end.

Definition handleNGSetup e g (globalID : bytes) s : Server :=
  let s := onGNB g (λ b, mkGNB (gnb_addr b) globalID (gnb_UEs b) (gnb_IdleUEs b)) s in
  (writeNGAP e g (encode e NGSetupResponse) s).1.

(** ** Messages of UEs *)

Definition isPlainRegistrationRequest (pdu : bytes) : bool :=
  match pdu with
  | a :: b :: c :: _ => (a =? 0x7E) && (Z.land b 0x0F =? 0x00) && (c =? 0x41)
  | _ => false
  end.

(** 5GMM causes #10, implicitly de-registered, and #9, identity not derived. *)
Definition rejectForUnknownTMSI (msgType : option Z) : bytes :=
  if decide (msgType = Some MsgTypeRegistrationRequest) then [PDMobilityManagement; 0x00; MsgTypeRegistrationReject; 10]
  else [PDMobilityManagement; 0x00; MsgTypeServiceReject; 9].

Definition returningUE e g (req : InitialUEMessage) l s : Server :=
  let s := onUE l (set_RANUENGAPId (iue_RANUENGAPId req)) s in
  let s := onN2 l (λ n, set_AMBRSent false (set_GNBAddr (addr_of s g) n)) s in
  let s := setTAI l (iue_TAI req) s in
  let s := onUE l (StopAllTimers ∘ set_CMState CMConnected) s in
  let s := onGNB g (addUE (iue_RANUENGAPId req) l ∘ promote e l) s in
  EnqueueTask l (HandleNAS (iue_NASPdu req)) s.

Definition rejectUnknownTMSI e g (req : InitialUEMessage) s : Server :=
  let ran := iue_RANUENGAPId req in
  let msgType := match PeekMessageType (iue_NASPdu req) with Ok t => t | _ => None end in
  let '(m, l) := AllocateUEContext (sv_mgr s) ran (env_now e) in
  let amfID := ngapIDCounter m in
  let s := onGNB g (addUE ran l) (with_mgr m s) in
  let cleanup s := with_mgr (Remove (sv_mgr s) l) (onGNB g (delUE ran) s) in
  let '(s, ok) := writeNGAP e g (encode e (DownlinkNASTransport amfID ran (rejectForUnknownTMSI msgType))) s in
  if negb ok then cleanup s
  else
    let s := onUE l (set_PendingRemoval true) s in
    let '(s, ok) := SendUEContextReleaseCommand e g amfID ran ngapCausePresentNas ngapCauseNasNormalRelease s in
    if negb ok then cleanup s else onUE l startPendingRemovalTimer s.

Definition newUEMessage e g (req : InitialUEMessage) s : Server :=
  let '(m, l) := AllocateUEContext (sv_mgr s) (iue_RANUENGAPId req) (env_now e) in
  let s := onN2 l (λ n, set_GNBAddr (addr_of s g) n) (with_mgr m s) in
  let s := onGNB g (addUE (iue_RANUENGAPId req) l) s in
  let s := setTAI l (iue_TAI req) s in
  EnqueueTask l (HandleNAS (iue_NASPdu req)) s.

Definition handleInitialUEMessage e g (req : InitialUEMessage) s : Server :=
  match iue_FiveGSTMSI req with
  | Some tmsi =>
      if isPlainRegistrationRequest (iue_NASPdu req) then newUEMessage e g req s
      else match GetByTMSI (sv_mgr s) tmsi with
           | Some l => returningUE e g req l s
           | None => rejectUnknownTMSI e g req s
           end
  | None => newUEMessage e g req s
  end.

Definition handleUplinkNASTransport (amfID : Z) (pdu : bytes) s : Server :=
  match GetByNGAPId (sv_mgr s) amfID with
  | None => s
  | Some l =>
      match ue_of s l with
      | Some u => if ue_PendingRemoval u then s else EnqueueTask l (HandleNAS pdu) s
      | None => s
      end
  end.

Definition handleUEContextReleaseRequest e g (amfID ranID causePresent causeValue : Z) s : Server :=
  match GetByNGAPId (sv_mgr s) amfID with
  | None => s
  | Some _ => (SendUEContextReleaseCommand e g amfID ranID causePresent causeValue s).1
  end.

Definition isStaleSourceRelease s l g (ranID : Z) : bool :=
  let addr := n2_GNBAddr (n2_of s l) in
  match ue_of s l with
  | None => false
  | Some u =>
      (negb (String.eqb addr "") && negb (String.eqb addr (addr_of s g))) ||
      (negb (ue_RANUENGAPId u =? 0) && negb (ue_RANUENGAPId u =? ranID))
  end.

(** The end of AN release: the UE is idle, and its context goes if its removal
    was pending. *)
Definition anReleased g (ranID : Z) l s : Server :=
  match ue_of s l with
  | None => s
  | Some u =>
      let s := onN2 l (set_AMBRSent false) (onUE l (set_CMState CMIdle) s) in
      if ue_PendingRemoval u then
        let s := onGNB g (delIdle ranID) s in
        let s := onUE l (λ u, set_timers (ue_MobileReachableTimer u) (ue_ImplicitDetachTimer u)
                                (stop (ue_PendingRemovalTimer u)) u) s in
        with_mgr (Remove (sv_mgr s) l) s
      else
        let s := if onANRelease (cfg_hooks cfg) then EnqueueTask l ANRelease s else s in
        onUE l StartMobileReachableTimer s
  end.

Definition moveToIdle (ranID : Z) (b : GNBContext) : GNBContext :=
  let b := match gnb_UEs b !! ranID with
           | Some l => set_IdleUEs (<[ranID := l]> (gnb_IdleUEs b)) b
           | None => b
           end in
  delUE ranID b.

Definition handleUEContextReleaseComplete g (amfID ranID : Z) s : Server :=
  let move s := onGNB g (moveToIdle ranID) s in
  match GetByNGAPId (sv_mgr s) amfID with
  | Some l =>
      if isStaleSourceRelease s l g ranID then onGNB g (delIdle ranID ∘ delUE ranID) s
      else anReleased g ranID l (move s)
  | None => onGNB g (delIdle ranID) (move s)
  end.

(** ** Answers of the gNBs *)

Definition smContextRef s l (psi : Z) : string :=
  default "" (ps_SMFInstanceID <$> (u ← ue_of s l; ue_PDUSessions u !! psi)).

Definition handlePDUSessionResourceSetupResponse (amfID : Z) (failed : list Z) (setups : list (Z * bytes)) s : Server :=
  match GetByNGAPId (sv_mgr s) amfID with
  | None => s
  | Some l =>
      let fail s psi :=
        let ref := smContextRef s l psi in
        let s := onUE l (λ u, set_PDUSessions (delete psi (ue_PDUSessions u)) u) s in
        if negb (String.eqb ref "") && onPDUSessionSetupFailure (cfg_hooks cfg)
        then emit [Called (DeleteSMContext ref)] s else s in
      let s := foldl fail s failed in
      if onPDUSessionSetup (cfg_hooks cfg) then
        foldl (λ s p, let ref := smContextRef s l p.1 in
                      if String.eqb ref "" then s else emit [Called (UpdateSMContext ref p.2)] s) s setups
      else s
  end.

Definition handleInitialContextSetupResponse (amfID : Z) (setups : list (Z * bytes)) s : Server :=
  if decide (setups = []) then s
  else if negb (onPDUSessionSetup (cfg_hooks cfg)) then s
  else match GetByNGAPId (sv_mgr s) amfID with
       | None => s
       | Some l =>
           foldl (λ s p, let ref := smContextRef s l p.1 in
                         if String.eqb ref "" then s else emit [Called (UpdateSMContext ref p.2)] s) s setups
       end.

Definition handleUERadioCapabilityInfoIndication (amfID : Z) (cap : bytes) s : Server :=
  match GetByNGAPId (sv_mgr s) amfID with
  | None => s
  | Some l => onN2 l (λ n, mkN2Fields (n2_GNBAddr n) (n2_MCC n) (n2_MNC n) (n2_UEAMBRSentToRAN n) cap) s
  end.

Definition handleInitialContextSetupFailure e (amfID : Z) s : Server :=
  match GetByNGAPId (sv_mgr s) amfID with
  | None => s
  | Some l =>
      let s := onUE l (set_PendingRemoval true ∘ TransitionTo GMMDeregistered) s in
      (SendUEContextReleaseCommandForUE e l ngapCausePresentRadioNetwork ngapCauseReleaseDueTo5gcGeneratedReason s).1
  end.

End Sending.
End N2.
Arguments Server : clear implicits.
