(* ===== verification/AmfHandover.v ===== *)
(** The handover procedures of the AMF, [nf/amf/internal/ngap/handover.go] and
    [smf_leg.go]: path switch after an Xn handover, and N2 handover in its three
    legs, with the events that interleave them with the rest of [AmfN2].

    A task that waits for SMFs is two steps, before and after the wait; what
    precedes and what follows is one step each.  The calls to the SMFs of one
    wait are concurrent and independent; they are listed in request order. *)
From S2P Require Import Prelude NasReader NasCodec GoCrypto CryptoNas CryptoAka AmfContext AmfN2.

(** * The SMF leg *)

Definition n2InfoPathSwitchReqAck : string := "PATH_SWITCH_REQ_ACK".
Definition n2InfoPathSwitchReqFail : string := "PATH_SWITCH_REQ_FAIL".
Definition n2InfoHandoverCmd : string := "HANDOVER_CMD".
Definition n2InfoHandoverPrepFail : string := "HANDOVER_PREP_FAIL".
Definition n2InfoPDUResSetupReq : string := "PDU_RES_SETUP_REQ".
Definition hoStateCancelled : string := "CANCELLED".

(** [SMFUpdateResult.OK] *)
Definition smfOK (r : SMFUpdateResult) : bool :=
  match sr_Err r with None => (200 <=? sr_HTTPStatus r) && (sr_HTTPStatus r <? 300) | Some _ => false end.

Definition isDeadline (e : option GoError) : bool := match e with Some DeadlineExceeded => true | _ => false end.

(** The result and whether the wait timed out. *)
Definition callSMFBounded (w : Wait) : SMFUpdateResult * bool :=
  match w with
  | Answered r => (r, isDeadline (sr_Err r))
  | Expired e => (mkSMFResult 0 [] "" "" (Some e), isDeadline (Some e))
  end.

Definition failCause (r : SMFUpdateResult) (timedOut : bool) : Z * Z :=
  if negb timedOut && bool_decide (sr_Err r = None) && (sr_HTTPStatus r =? 404)
  then (ngapCausePresentRadioNetwork, causeUnknownPDUSessionID)
  else (ngapCausePresentRadioNetwork, causeHoFailureInTarget).

Definition causeFromNGAP (c : NGAPCause) : option (Z * Z) :=
  let some v := (λ x, (ng_Present c, x)) <$> v in
  if ng_Present c =? 1 then some (ng_RadioNetwork c)
  else if ng_Present c =? 2 then some (ng_Transport c)
  else if ng_Present c =? 3 then some (ng_Nas c)
  else if ng_Present c =? 4 then some (ng_Protocol c)
  else if ng_Present c =? 5 then some (ng_Misc c)
  else None.

(** * Allowed NSSAI and capabilities *)

Definition sliceKey (n : SNSSAISubscribed) : Z * string := (s_SST n, s_SD n).

(** The loop over a list with a set of the keys seen. *)
Fixpoint dedupeFrom (seen : gset (Z * string)) (ns : list SNSSAISubscribed) : list SNSSAISubscribed :=
  match ns with
  | [] => []
  | n :: r => if decide (sliceKey n ∈ seen) then dedupeFrom seen r else n :: dedupeFrom ({[sliceKey n]} ∪ seen) r
  end.

Definition sortedIDs {A} (m : gmap Z A) : list Z := merge_sort Z.le (map_to_list m).*1.

Definition resolveAllowedNSSAI (allowed : list SNSSAISubscribed) (sessions : gmap Z PDUSession)
  : list SNSSAISubscribed * bool :=
  match dedupeFrom ∅ allowed with
  | [] =>
      let sn := omap (λ id, ps_SNSSAI <$> sessions !! id) (sortedIDs sessions) in
      let out := dedupeFrom ∅ (filter (λ n, s_SST n ≠ 0) sn) in
      (out, bool_decide (out ≠ []))
  | out => (out, false)
  end.

Definition maxAllowedNSSAI : nat := 8.
Definition allowedNSSAIItems (ns : list SNSSAISubscribed) : list SNSSAISubscribed := take maxAllowedNSSAI (dedupeFrom ∅ ns).

Definition secCapCompareMask : Z := 0xE000.

Definition ueSecCapBitmaps (u : UEContext) : UESecCapBitmaps :=
  let bits (v : list bool) :=
    Z.lor (Z.lor (if default false (v !! 1%nat) then Z.shiftl 1 15 else 0)
                 (if default false (v !! 2%nat) then Z.shiftl 1 14 else 0))
          (if default false (v !! 3%nat) then Z.shiftl 1 13 else 0) in
  mkUESecCapBitmaps (bits (au_UESecCapEA (ue_Auth u))) (bits (au_UESecCapIA (ue_Auth u))).

(** The stored capabilities, when those of the request differ in NEA1-3 / NIA1-3. *)
Definition secCapEcho (req : option UESecCapBitmaps) (stored : UESecCapBitmaps) : option UESecCapBitmaps :=
  match req with
  | Some r =>
      if negb (Z.land (bm_Enc r) secCapCompareMask =? Z.land (bm_Enc stored) secCapCompareMask) ||
         negb (Z.land (bm_Int r) secCapCompareMask =? Z.land (bm_Int stored) secCapCompareMask)
      then Some stored else None
  | None => None
  end.

(** * Messages *)

Definition BuildPathSwitchRequestAcknowledge (e : Env) (p : PathSwitchAckParams) : option NGAPMsg :=
  let items := allowedNSSAIItems (psa_AllowedNSSAI p) in
  if bool_decide (psa_Switched p = []) || bool_decide (items = []) then None
  else encode e (PathSwitchRequestAcknowledge
    (mkPathSwitchAck (psa_AMFUENGAPId p) (psa_RANUENGAPId p) (psa_UESecCap p) (psa_NCC p) (psa_NH p)
       (psa_Switched p) (psa_Released p) items)).

Definition BuildPathSwitchRequestFailure (e : Env) (amfID ranID : Z) (released : list PDUSessionReleasedItem)
  : option NGAPMsg :=
  if bool_decide (released = []) then None else encode e (PathSwitchRequestFailure amfID ranID released).

(** Names of the IEs are kept for the order of the checks. *)
Definition HandoverRequestMissingIE (nSessions nAllowedNSSAI containerLen : nat) : string :=
  if (nSessions =? 0)%nat then "PDUSessionResourceSetupListHOReq"
  else if (nAllowedNSSAI =? 0)%nat then "AllowedNSSAI"
  else if (containerLen =? 0)%nat then "SourceToTarget-TransparentContainer"
  else "".

Definition BuildHandoverRequest (e : Env) (p : HandoverRequestParams) : option NGAPMsg :=
  if bool_decide (hop_Sessions p = []) || bool_decide (hop_AllowedNSSAI p = []) || bool_decide (hop_Container p = [])
  then None
  else encode e (HandoverRequest
    (mkHandoverRequest (hop_AMFUENGAPId p) (hop_HandoverType p) (hop_CausePresent p) (hop_CauseValue p)
       (buildUEAMBR (am_ULBps (hop_UEAMBR p)) (am_DLBps (hop_UEAMBR p))) (hop_NCC p) (hop_NH p) (hop_UESecCap p)
       (hop_Sessions p) (allowedNSSAIItems (hop_AllowedNSSAI p)) (hop_Container p) (hop_GUAMI p))).

Section Handover.
Context {D C : Type} `{!Store D, !Cache C} (cfg : N2Config) (ap : NgapAper).
Implicit Types (s : Server D C) (e : Env) (l : loc) (g : gloc) (psi : Z) (ref : string).

(** ** Decode checks of SMF-supplied transfers *)

Definition nonEmpty (b : bytes) : bool := bool_decide (b ≠ []).
Definition validPathSwitchAckTransfer (b : bytes) : bool := nonEmpty b && un_PathSwitchAck ap b.
Definition validPathSwitchUnsuccessfulTransfer (b : bytes) : bool := nonEmpty b && un_PathSwitchUnsuccessful ap b.
Definition validHandoverCommandTransfer (b : bytes) : bool := nonEmpty b && un_HandoverCommand ap b.
Definition validHandoverPrepUnsuccessfulTransfer (b : bytes) : bool := nonEmpty b && un_PrepUnsuccessful ap b.

Definition idULNGUUPTNLInformation : Z := 139.
Definition validPDUResSetupRequestTransfer (b : bytes) : bool :=
  nonEmpty b &&
  match un_SetupRequest ap b with
  | None => false
  | Some ies => existsb (λ ie, (ie.1 =? idULNGUUPTNLInformation) && ie.2) ies
  end.

Definition hoResAllocFailCause (b : bytes) : option (Z * Z) :=
  if nonEmpty b then c ← un_ResAllocUnsuccessful ap b; causeFromNGAP c else None.

(** * Xn handover: path switch *)

(** The loop over the To Be Switched list. *)
Record switchScan := mkSwitchScan {
  ss_requested : list Z; ss_duplicated : gset Z; ss_seen : gset Z; ss_transfers : gmap Z bytes }.

Definition scanSwitched (items : list PDUSessionSwitchItem) : switchScan :=
  foldl (λ a it,
    let id := sw_PDUSessionID it in
    if decide (id ∈ ss_seen a) then
      mkSwitchScan (ss_requested a) ({[id]} ∪ ss_duplicated a) (ss_seen a) (ss_transfers a)
    else
      mkSwitchScan (ss_requested a ++ [id]) (ss_duplicated a) ({[id]} ∪ ss_seen a)
        (<[id := sw_PathSwitchRequestTransfer it]> (ss_transfers a)))
    (mkSwitchScan [] ∅ ∅ ∅) items.

(** The loop over the Failed to Setup list. *)
Record failedScan := mkFailedScan {
  fs_failedOnly : list Z; fs_items : list PDUSessionFailedSetupItem; fs_failedSeen : gset Z; fs_dups : gset Z }.

Definition scanFailed (seen dup : gset Z) (items : list PDUSessionFailedSetupItem) : failedScan :=
  foldl (λ a f,
    let id := fs_PDUSessionID f in
    let again := bool_decide (id ∈ fs_failedSeen a) in
    let inSwitched := bool_decide (id ∈ seen) in
    let dups := if inSwitched || again then {[id]} ∪ fs_dups a else fs_dups a in
    if again then mkFailedScan (fs_failedOnly a) (fs_items a) (fs_failedSeen a) dups
    else mkFailedScan (if inSwitched then fs_failedOnly a else fs_failedOnly a ++ [id]) (fs_items a ++ [f])
           ({[id]} ∪ fs_failedSeen a) dups)
    (mkFailedScan [] [] ∅ dup) items.

Definition rejectPathSwitch e g (req : PathSwitchRequestMsg) (items : list PDUSessionReleasedItem) s : Server D C :=
  (send e g (BuildPathSwitchRequestFailure e (psr_SourceAMFUENGAPId req) (psr_RANUENGAPId req) items) s).1.

Definition relWith (present value : Z) (id : Z) : PDUSessionReleasedItem := mkReleasedItem id present value [].
Definition relMisc : Z → PDUSessionReleasedItem := relWith causePresentMisc causeMiscUnspecified.
Definition relRadio (value : Z) : Z → PDUSessionReleasedItem := relWith ngapCausePresentRadioNetwork value.

Definition smRefsOf (u : UEContext) : gmap Z string := ps_SMFInstanceID <$> ue_PDUSessions u.

Definition handlePathSwitchRequest e g (req : PathSwitchRequestMsg) s : Server D C :=
  let a := scanSwitched (psr_PDUSessions req) in
  let f := scanFailed (ss_seen a) (ss_duplicated a) (psr_FailedToSetup req) in
  let requested := ss_requested a in
  match GetByNGAPId (sv_mgr s) (psr_SourceAMFUENGAPId req) with
  | None => rejectPathSwitch e g req (relRadio causeUnknownLocalUENGAPID <$> requested) s
  | Some l =>
      match ue_of s l with
      | None => s
      | Some u =>
          let dup := fs_dups f in
          if decide (dup ≠ ∅) then
            let ids := requested ++ filter (λ id, id ∈ dup) (fs_failedOnly f) in
            rejectPathSwitch e g req
              ((λ id, if decide (id ∈ dup) then relRadio causeMultiplePDUSessionIDInstances id else relMisc id) <$> ids) s
          else
            let smRefs := smRefsOf u in
            let unknown := filter (λ id, smRefs !! id = None) requested in
            if decide (filter (λ id, is_Some (smRefs !! id)) requested = []) then
              rejectPathSwitch e g req (relRadio causeUnknownPDUSessionID <$> unknown) s
            else if negb (NHChainUsableLocked u) then rejectPathSwitch e g req (relMisc <$> requested) s
            else if decide ((resolveAllowedNSSAI (ue_AllowedNSSAI u) (ue_PDUSessions u)).1 = []) then
              rejectPathSwitch e g req (relMisc <$> requested) s
            else
              EnqueueTask l (CompletePathSwitch g req (mkPlan requested (ss_transfers a) smRefs (fs_items f))) s
      end
  end.

Record xnOutcome := mkXnOutcome { xo_switched : bool; xo_ack : bytes; xo_rel : PDUSessionReleasedItem }.
Definition noRel : PDUSessionReleasedItem := mkReleasedItem 0 0 0 [].

(** The classification of the answer to PATH_SWITCH_REQ. *)
Definition xnSwitchPSI psi (w : Wait) : xnOutcome :=
  let '(res, timedOut) := callSMFBounded w in
  if smfOK res && negb (String.eqb (sr_N2SmInfoType res) n2InfoPathSwitchReqFail) then
    mkXnOutcome true
      (if bool_decide (sr_N2SmInfo res = []) then []
       else if negb (String.eqb (sr_N2SmInfoType res) n2InfoPathSwitchReqAck) then []
       else if negb (validPathSwitchAckTransfer (sr_N2SmInfo res)) then []
       else sr_N2SmInfo res) noRel
  else
    let '(present, value) := failCause res timedOut in
    let transfer :=
      if bool_decide (sr_Err res ≠ None) then []
      else if String.eqb (sr_N2SmInfoType res) n2InfoPathSwitchReqFail &&
              validPathSwitchUnsuccessfulTransfer (sr_N2SmInfo res) then sr_N2SmInfo res
      else [] in
    mkXnOutcome false [] (mkReleasedItem psi present value transfer).

Definition transferOf (plan : pathSwitchPlan) psi : bytes := default [] (pl_transfers plan !! psi).

(** The outcome of the session at position [i] of the request. *)
Definition xnOutcomeOf e (plan : pathSwitchPlan) (i : nat) psi : xnOutcome :=
  match pl_smRefs plan !! psi with
  | None => mkXnOutcome false [] (relRadio causeUnknownPDUSessionID psi)
  | Some ref =>
      if onPathSwitchPDUSession (cfg_hooks cfg)
      then xnSwitchPSI psi (env_smf e i (UpdatePathSwitch ref (transferOf plan psi)))
      else mkXnOutcome true [] noRel
  end.

(** The calls of the leg: PATH_SWITCH_REQ per known session requested, and
    PATH_SWITCH_SETUP_FAIL per known session of the Failed to Setup list. *)
Definition xnCalls (plan : pathSwitchPlan) : list SMFCall :=
  (if onPathSwitchPDUSession (cfg_hooks cfg)
   then omap (λ psi, (λ ref, UpdatePathSwitch ref (transferOf plan psi)) <$> pl_smRefs plan !! psi) (pl_requested plan)
   else []) ++
  (if onPathSwitchSetupFail (cfg_hooks cfg)
   then omap (λ f, (λ ref, UpdatePathSwitchSetupFail ref (fs_Transfer f)) <$> pl_smRefs plan !! fs_PDUSessionID f)
          (pl_failed plan)
   else []).

(** A gNB that holds a context with the UE's AMF UE NGAP ID: the first that the
    loop over the associations meets. *)
Definition holdsID s (amfID : Z) g : bool :=
  match sv_gnb s !! g with
  | None => false
  | Some b => existsb (λ p, bool_decide (ue_AMFUENGAPId <$> ue_of s p.2 = Some amfID)) (map_to_list (gnb_UEs b))
  end.

Definition findSourceGNB e (amfID : Z) s : option gloc :=
  find (holdsID s amfID) (env_order e (map_to_list (sv_gnbs s))).*2.

Definition deactivateUnlistedSessions (listed : list Z) l s : Server D C :=
  match ue_of s l with
  | None => s
  | Some u =>
      if onUPDeactivate (cfg_hooks cfg) then
        emit (omap (λ psi, Called ∘ DeactivateUP <$> smRefsOf u !! psi)
                (filter (λ psi, psi ∉ listed) (sortedIDs (ue_PDUSessions u)))) s
      else s
  end.

(** The UE-associated connection moves to the target. *)
Definition rebindUE e g (req : PathSwitchRequestMsg) l (amfID oldRAN : Z) s : Server D C :=
  let s := match findSourceGNB e amfID s with Some src => onGNB src (delUE oldRAN) s | None => s end in
  let s := onGNB g (addUE (psr_RANUENGAPId req) l) s in
  let s := onUE l (set_RANUENGAPId (psr_RANUENGAPId req)) s in
  let s := onN2 l (set_GNBAddr (addr_of s g)) s in
  setTAI l (psr_TAI req) s.

Definition xnSwitched e (plan : pathSwitchPlan) : list PDUSessionSwitchItem :=
  omap (λ p : Z * xnOutcome,
          if xo_switched p.2 then Some (mkSwitchItem p.1 (transferOf plan p.1) (xo_ack p.2)) else None)
    (zip (pl_requested plan) (imap (xnOutcomeOf e plan) (pl_requested plan))).

Definition xnReleased e (plan : pathSwitchPlan) : list PDUSessionReleasedItem :=
  omap (λ p : Z * xnOutcome, if xo_switched p.2 then None else Some (xo_rel p.2))
    (zip (pl_requested plan) (imap (xnOutcomeOf e plan) (pl_requested plan))).

Definition completePathSwitch e l g (req : PathSwitchRequestMsg) (plan : pathSwitchPlan) s : Server D C :=
  let s := emit (Called <$> xnCalls plan) s in
  let switched := xnSwitched e plan in
  let released := xnReleased e plan in
  if decide (switched = []) then rejectPathSwitch e g req released s
  else match ue_of s l with
  | None => s
  | Some u =>
      let allowed := (resolveAllowedNSSAI (ue_AllowedNSSAI u) (ue_PDUSessions u)).1 in
      let '(u', chain) := NextNHLocked u in
      let s := onUE l (λ _, u') s in
      match chain with
      | Some (nh, ncc) =>
          if decide (allowed = []) then rejectPathSwitch e g req (relMisc <$> pl_requested plan) s
          else
            let pdu := BuildPathSwitchRequestAcknowledge e
              (mkPathSwitchAck (psr_SourceAMFUENGAPId req) (psr_RANUENGAPId req)
                 (secCapEcho (psr_UESecCap req) (ueSecCapBitmaps u)) ncc nh switched released allowed) in
            let '(s, ok) := send e g pdu s in
            if ok then
              deactivateUnlistedSessions (pl_requested plan ++ (fs_PDUSessionID <$> pl_failed plan)) l
                (rebindUE e g req l (ue_AMFUENGAPId u) (ue_RANUENGAPId u) s)
            else s
      | None => rejectPathSwitch e g req (relMisc <$> pl_requested plan) s
      end
  end.

(** * N2 handover: preparation *)

Definition rejectHandoverPreparation e g (amfID ranID causePresent causeValue : Z) s : Server D C :=
  (send e g (encode e (HandoverPreparationFailure amfID ranID causePresent causeValue)) s).1.

Definition findGNBByGlobalID e (globalID : bytes) s : option gloc :=
  if bool_decide (globalID = []) then None
  else find (λ g, bool_decide (gnb_GlobalGNBID <$> sv_gnb s !! g = Some globalID))
         (env_order e (map_to_list (sv_gnbs s))).*2.

Definition handleHandoverRequired e g (req : HandoverRequiredMsg) s : Server D C :=
  let reject present value := rejectHandoverPreparation e g (hrq_AMFUENGAPId req) (hrq_RANUENGAPId req) present value s in
  match GetByNGAPId (sv_mgr s) (hrq_AMFUENGAPId req) with
  | None => reject ngapCausePresentRadioNetwork causeUnknownLocalUENGAPID
  | Some l =>
      match findGNBByGlobalID e (hrq_TargetGlobalRANNodeID req) s with
      | None => reject ngapCausePresentRadioNetwork causeUnknownTargetID
      | Some target =>
          if decide (target = g) then reject ngapCausePresentRadioNetwork causeUnknownTargetID
          else match ue_of s l with
               | None => s
               | Some u =>
                   if NHChainUsableLocked u then EnqueueTask l (ContinuePreparation g target req) s
                   else reject causePresentMisc causeMiscUnspecified
               end
      end
  end.

Definition candidateOf (u : UEContext) psi (required : bytes) : option hoCandidate :=
  (λ p, mkCandidate psi (ps_SMFInstanceID p) (ps_SNSSAI p) (ps_N2SmTransfer p) required) <$> ue_PDUSessions u !! psi.

(** Without an SMF handler a session needs its cached transfer. *)
Definition usable (c : hoCandidate) : bool :=
  onHandoverRequired (cfg_hooks cfg) || bool_decide (ca_cached c ≠ []).

Definition relUnknown psi : PDUSessionHOReleaseItem :=
  mkHOReleaseItem psi [] ngapCausePresentRadioNetwork causeUnknownPDUSessionID.

(** The loop over the sessions the source lists: candidates and unknown ones. *)
Fixpoint listedCandidates (u : UEContext) (seen : gset Z) (items : list PDUSessionHORqdItem)
  : list hoCandidate * list PDUSessionHOReleaseItem :=
  match items with
  | [] => ([], [])
  | it :: r =>
      let id := hr_PDUSessionID it in
      if decide (id ∈ seen) then listedCandidates u seen r
      else
        let '(cs, us) := listedCandidates u ({[id]} ∪ seen) r in
        match candidateOf u id (hr_HandoverRequiredTransfer it) with
        | None => (cs, if onHandoverRequired (cfg_hooks cfg) then relUnknown id :: us else us)
        | Some c => (if usable c then c :: cs else cs, us)
        end
  end.

Definition candidates (u : UEContext) (req : HandoverRequiredMsg) : list hoCandidate * list PDUSessionHOReleaseItem :=
  match hrq_PDUSessions req with
  | [] => (filter usable (omap (λ psi, candidateOf u psi []) (sortedIDs (ue_PDUSessions u))), [])
  | items => listedCandidates u ∅ items
  end.

Definition prepCalls (req : HandoverRequiredMsg) (cands : list hoCandidate) : list SMFCall :=
  if onHandoverRequired (cfg_hooks cfg)
  then (λ c, PrepareHandoverRequired (ca_ref c) (ca_required c) (hrq_Target req)) <$> cands else [].

(** [continueHandoverPreparation] up to the wait; [None] when it has answered. *)
Definition startPreparation e l g target (req : HandoverRequiredMsg) s : Server D C * option Task :=
  match ue_of s l with
  | None => (s, None)
  | Some u =>
      let '(cands, unknown) := candidates u req in
      if String.eqb (HandoverRequestMissingIE (length cands) (length (ue_AllowedNSSAI u)) (length (hrq_Container req))) ""
      then
        (emit (Called <$> prepCalls req cands) s,
         Some (PreparationWaiting g target req
                 (mkPrep cands unknown (ueSecCapBitmaps u) (ue_AllowedNSSAI u)
                    (NewUEAMBRFromKbps (ue_AMBRUL u) (ue_AMBRDL u)))))
      else
        (rejectHandoverPreparation e g (hrq_AMFUENGAPId req) (hrq_RANUENGAPId req) causePresentMisc causeMiscUnspecified s,
         None)
  end.

(** The IE 78 item of a failed or rejected call. *)
Definition n2RejectedRelease (res : SMFUpdateResult) (timedOut : bool) psi : PDUSessionHOReleaseItem :=
  let '(present, value) := failCause res timedOut in
  let transfer :=
    if bool_decide (sr_Err res ≠ None) then []
    else if String.eqb (sr_N2SmInfoType res) n2InfoHandoverPrepFail &&
            validHandoverPrepUnsuccessfulTransfer (sr_N2SmInfo res) then sr_N2SmInfo res
    else [] in
  mkHOReleaseItem psi transfer present value.

(** A 2xx answer that is no rejection. *)
Definition n2Accepted (res : SMFUpdateResult) : bool :=
  smfOK res && negb (String.eqb (sr_N2SmInfoType res) n2InfoHandoverPrepFail) &&
  negb (String.eqb (sr_HoState res) hoStateCancelled).

(** The transfer for the target, or the item to release. *)
Definition n2PreparingSMF (c : hoCandidate) (w : Wait) : bytes + PDUSessionHOReleaseItem :=
  let '(res, timedOut) := callSMFBounded w in
  if n2Accepted res then
    if String.eqb (sr_N2SmInfoType res) n2InfoPDUResSetupReq && validPDUResSetupRequestTransfer (sr_N2SmInfo res)
    then inl (sr_N2SmInfo res)
    else if bool_decide (ca_cached c = []) then
      let '(present, value) := failCause (mkSMFResult 0 [] "" "" None) false in
      inr (mkHOReleaseItem (ca_psi c) [] present value)
    else inl (ca_cached c)
  else inr (n2RejectedRelease res timedOut (ca_psi c)).

Definition prepOutcome e (req : HandoverRequiredMsg) (i : nat) (c : hoCandidate) : bytes + PDUSessionHOReleaseItem :=
  if onHandoverRequired (cfg_hooks cfg)
  then n2PreparingSMF c (env_smf e i (PrepareHandoverRequired (ca_ref c) (ca_required c) (hrq_Target req)))
  else inl (ca_cached c).

Definition prepSessions e (req : HandoverRequiredMsg) (cands : list hoCandidate) : list PDUSessionHOReqItem :=
  omap (λ p : hoCandidate * (bytes + PDUSessionHOReleaseItem),
          match p.2 with inl t => Some (mkHOReqItem (ca_psi p.1) (ca_snssai p.1) t) | inr _ => None end)
    (zip cands (imap (prepOutcome e req) cands)).

Definition prepRejected e (req : HandoverRequiredMsg) (cands : list hoCandidate) : list PDUSessionHOReleaseItem :=
  omap (λ p : hoCandidate * (bytes + PDUSessionHOReleaseItem), match p.2 with inl _ => None | inr r => Some r end)
    (zip cands (imap (prepOutcome e req) cands)).

(** A new object in [pendingN2HO], replacing what was pending for the UE. *)
Definition storePending (amfID : Z) (st : n2HandoverState) s : Server D C * hloc :=
  let h := fresh (dom (sv_ho s)) in
  (mkServer (sv_mgr s) (sv_n2 s) (sv_gnbs s) (sv_gnb s) (<[amfID := h]> (sv_pendingN2HO s)) (<[h := st]> (sv_ho s))
     (sv_queue s) (sv_out s), h).

(** [if s.pendingN2HO[id] == state { delete }] *)
Definition dropPending (amfID : Z) (h : hloc) s : Server D C :=
  if decide (sv_pendingN2HO s !! amfID = Some h) then with_pending (delete amfID (sv_pendingN2HO s)) s else s.

(** [continueHandoverPreparation] after the wait. *)
Definition finishPreparation e l g target (req : HandoverRequiredMsg) (p : prepSnapshot) s : Server D C :=
  let reject present value s :=
    rejectHandoverPreparation e g (hrq_AMFUENGAPId req) (hrq_RANUENGAPId req) present value s in
  let sessions := prepSessions e req (pp_cands p) in
  let prepReleased := prepRejected e req (pp_cands p) ++ pp_unknown p in
  if decide (sessions = []) then reject ngapCausePresentRadioNetwork causeHoFailureInTarget s
  else match ue_of s l with
  | None => s
  | Some u =>
      let '(u', chain) := NextNHLocked u in
      let s := onUE l (λ _, u') s in
      match chain with
      | None => reject causePresentMisc causeMiscUnspecified s
      | Some (nh, ncc) =>
          match BuildHandoverRequest e
                  (mkHandoverRequest (hrq_AMFUENGAPId req) (hrq_HandoverType req) (hrq_CausePresent req)
                     (hrq_CauseValue req) (pp_ambr p) ncc nh (pp_bitmaps p) sessions (pp_allowed p)
                     (hrq_Container req) (cfg_ID cfg)) with
          | None => reject causePresentMisc causeMiscUnspecified s
          | Some pdu =>
              let '(s, h) := storePending (hrq_AMFUENGAPId req)
                (mkN2HO g (hrq_RANUENGAPId req) target (hrq_HandoverType req) (hrq_CausePresent req)
                   (hrq_CauseValue req) [] [] prepReleased []) s in
              let '(s, ok) := writeNGAP e target (Some pdu) s in
              if ok then s
              else reject causePresentMisc causeMiscUnspecified (dropPending (hrq_AMFUENGAPId req) h s)
          end
      end
  end.

(** * N2 handover: acknowledgement of the target *)

Definition set_container (c : bytes) (h : n2HandoverState) : n2HandoverState :=
  mkN2HO (h_sourceGNB h) (h_sourceRANUENGAPId h) (h_targetGNB h) (h_handoverType h) (h_causePresent h)
    (h_causeValue h) (h_admittedSessions h) c (h_prepReleased h) (h_targetFailed h).
Definition set_admitted (ad : list PDUSessionHOAdmittedItem) (failed : list Z) (h : n2HandoverState) : n2HandoverState :=
  mkN2HO (h_sourceGNB h) (h_sourceRANUENGAPId h) (h_targetGNB h) (h_handoverType h) (h_causePresent h)
    (h_causeValue h) ad (h_tgtToSrcContainer h) (h_prepReleased h) failed.

Definition handleHandoverRequestAcknowledge g (ack : HandoverRequestAckMsg) s : Server D C :=
  match sv_pendingN2HO s !! hra_AMFUENGAPId ack with
  | None => s
  | Some h =>
      let s := onHO h (set_container (hra_Container ack)) s in
      match GetByNGAPId (sv_mgr s) (hra_AMFUENGAPId ack) with
      | None => s
      | Some l => EnqueueTask l (CompletePreparation g ack h) s
      end
  end.

Definition admCalls (ack : HandoverRequestAckMsg) (smRefs : gmap Z string) : list SMFCall :=
  (if onHandoverReqAck (cfg_hooks cfg)
   then omap (λ a, (λ ref, PrepareHandover ref (ad_Transfer a)) <$> smRefs !! ad_PDUSessionID a)
          (hra_AdmittedSessions ack)
   else []) ++
  (if onHandoverResAllocFail (cfg_hooks cfg)
   then omap (λ f, (λ ref, HandoverResourceAllocationFailed ref (fl_Transfer f)) <$> smRefs !! fl_PDUSessionID f)
          (hra_FailedSessions ack)
   else []).

(** [completeHandoverPreparation] up to the wait. *)
Definition startCompletion l g (ack : HandoverRequestAckMsg) (h : hloc) s : Server D C * option Task :=
  match ue_of s l with
  | None => (s, None)
  | Some u =>
      let smRefs := smRefsOf u in
      (emit (Called <$> admCalls ack smRefs) s, Some (CompletionWaiting g ack h smRefs))
  end.

(** The transfer of the HANDOVER COMMAND, or the item to release. *)
Definition n2PrepareSMF psi (w : Wait) : bytes + PDUSessionHOReleaseItem :=
  let '(res, timedOut) := callSMFBounded w in
  if n2Accepted res then
    inl (if bool_decide (sr_N2SmInfo res = []) then []
         else if negb (String.eqb (sr_N2SmInfoType res) n2InfoHandoverCmd) then []
         else if negb (validHandoverCommandTransfer (sr_N2SmInfo res)) then []
         else sr_N2SmInfo res)
  else inr (n2RejectedRelease res timedOut psi).

Definition admOutcome e (smRefs : gmap Z string) (i : nat) (a : PDUSessionHOAdmittedItem)
  : bytes + PDUSessionHOReleaseItem :=
  if onHandoverReqAck (cfg_hooks cfg) then
    match smRefs !! ad_PDUSessionID a with
    | None => inr (relUnknown (ad_PDUSessionID a))
    | Some ref => n2PrepareSMF (ad_PDUSessionID a) (env_smf e i (PrepareHandover ref (ad_Transfer a)))
    end
  else inl [].

(** The SMF's transfer for a session the target failed, when it is valid. *)
Definition n2ForwardResAllocFail (w : Wait) : bytes :=
  let '(res, _) := callSMFBounded w in
  if String.eqb (sr_N2SmInfoType res) n2InfoHandoverPrepFail && validHandoverPrepUnsuccessfulTransfer (sr_N2SmInfo res)
  then sr_N2SmInfo res else [].

Definition failedRelease e (n : nat) (smRefs : gmap Z string) (i : nat) (f : PDUSessionHOFailedItem)
  : PDUSessionHOReleaseItem :=
  let out :=
    match smRefs !! fl_PDUSessionID f with
    | Some ref =>
        if onHandoverResAllocFail (cfg_hooks cfg)
        then n2ForwardResAllocFail (env_smf e (n + i) (HandoverResourceAllocationFailed ref (fl_Transfer f))) else []
    | None => []
    end in
  if bool_decide (out ≠ []) then
    mkHOReleaseItem (fl_PDUSessionID f) out ngapCausePresentRadioNetwork causeHoFailureInTarget
  else match hoResAllocFailCause (fl_Transfer f) with
       | Some (p, v) => mkHOReleaseItem (fl_PDUSessionID f) [] p v
       | None => mkHOReleaseItem (fl_PDUSessionID f) [] ngapCausePresentRadioNetwork causeHoFailureInTarget
       end.

(** [addRelease] over a list: no session twice, none that is in the command. *)
Fixpoint addReleases (taken : gset Z) (rs : list PDUSessionHOReleaseItem) : list PDUSessionHOReleaseItem :=
  match rs with
  | [] => []
  | r :: rest =>
      if decide (re_PDUSessionID r ∈ taken) then addReleases taken rest
      else r :: addReleases ({[re_PDUSessionID r]} ∪ taken) rest
  end.

Definition admOutcomes e (ack : HandoverRequestAckMsg) (smRefs : gmap Z string)
  : list (PDUSessionHOAdmittedItem * (bytes + PDUSessionHOReleaseItem)) :=
  zip (hra_AdmittedSessions ack) (imap (admOutcome e smRefs) (hra_AdmittedSessions ack)).

Definition cmdHandled e (ack : HandoverRequestAckMsg) (smRefs : gmap Z string) : list PDUSessionHOCmdItem :=
  omap (λ p, match p.2 with inl t => Some (mkHOCmdItem (ad_PDUSessionID p.1) t) | inr _ => None end)
    (admOutcomes e ack smRefs).
Definition cmdAccepted e (ack : HandoverRequestAckMsg) (smRefs : gmap Z string) : list PDUSessionHOAdmittedItem :=
  omap (λ p, match p.2 with inl _ => Some p.1 | inr _ => None end) (admOutcomes e ack smRefs).
Definition cmdRejected e (ack : HandoverRequestAckMsg) (smRefs : gmap Z string) : list PDUSessionHOReleaseItem :=
  omap (λ p, match p.2 with inl _ => None | inr r => Some r end) (admOutcomes e ack smRefs).

Definition cmdToRelease e (ack : HandoverRequestAckMsg) (smRefs : gmap Z string)
    (prepReleased : list PDUSessionHOReleaseItem) : list PDUSessionHOReleaseItem :=
  addReleases (list_to_set (hc_PDUSessionID <$> cmdHandled e ack smRefs))
    (cmdRejected e ack smRefs ++
     imap (failedRelease e (length (hra_AdmittedSessions ack)) smRefs) (hra_FailedSessions ack) ++ prepReleased).

(** The known sessions the target failed, each once. *)
Definition targetFailedOf (ack : HandoverRequestAckMsg) (smRefs : gmap Z string) : list Z :=
  foldl (λ acc f, let psi := fl_PDUSessionID f in
                  if bool_decide (is_Some (smRefs !! psi)) && bool_decide (psi ∉ acc) then acc ++ [psi] else acc)
    [] (hra_FailedSessions ack).

(** [completeHandoverPreparation] after the wait. *)
Definition finishCompletion e l g (ack : HandoverRequestAckMsg) (h : hloc) (smRefs : gmap Z string) s : Server D C :=
  match sv_ho s !! h with
  | None => s
  | Some st =>
      let handled := cmdHandled e ack smRefs in
      let toRelease := cmdToRelease e ack smRefs (h_prepReleased st) in
      if (onHandoverReqAck (cfg_hooks cfg) || bool_decide (hra_FailedSessions ack ≠ [])) && bool_decide (handled = []) then
        rejectHandoverPreparation e (h_sourceGNB st) (hra_AMFUENGAPId ack) (h_sourceRANUENGAPId st)
          ngapCausePresentRadioNetwork causeHoFailureInTarget (dropPending (hra_AMFUENGAPId ack) h s)
      else
        let s := onHO h (set_admitted (cmdAccepted e ack smRefs) (targetFailedOf ack smRefs)) s in
        let pdu := encode e (HandoverCommand (hra_AMFUENGAPId ack) (h_sourceRANUENGAPId st) (h_handoverType st)
                     handled toRelease (hra_Container ack)) in
        let '(s, ok) := send e (h_sourceGNB st) pdu s in
        if ok then onGNB g (addUE (hra_RANUENGAPId ack) l) s else s
  end.

(** * N2 handover: notification *)

Definition notifyHandoverComplete (smRefs : gmap Z string) (accepted : list PDUSessionHOAdmittedItem) s : Server D C :=
  if onHandoverComplete (cfg_hooks cfg) then
    emit (omap (λ a, let ref := default "" (smRefs !! ad_PDUSessionID a) in
                     if String.eqb ref "" then None else Some (Called (CompleteHandover ref))) accepted) s
  else s.

Definition notifyTargetFailedDeactivate (smRefs : gmap Z string) (psis : list Z) s : Server D C :=
  if onUPDeactivate (cfg_hooks cfg) then
    emit (omap (λ psi, let ref := default "" (smRefs !! psi) in
                       if String.eqb ref "" then None else Some (Called (DeactivateUP ref))) psis) s
  else s.

Definition handleHandoverNotify e g (n : HandoverNotifyMsg) s : Server D C :=
  let pend := sv_pendingN2HO s !! hno_AMFUENGAPId n in
  let s := with_pending (delete (hno_AMFUENGAPId n) (sv_pendingN2HO s)) s in
  match h ← pend; sv_ho s !! h with
  | None => s
  | Some st =>
      match GetByNGAPId (sv_mgr s) (hno_AMFUENGAPId n) with
      | None => s
      | Some l =>
          match ue_of s l with
          | None => s
          | Some u =>
              let s := onGNB (h_sourceGNB st) (delUE (h_sourceRANUENGAPId st)) s in
              let s := onUE l (set_RANUENGAPId (hno_RANUENGAPId n)) s in
              let s := onN2 l (λ n2, set_AMBRSent true (set_GNBAddr (addr_of s g) n2)) s in
              let s := setTAI l (hno_TAI n) s in
              let smRefs := smRefsOf u in
              let s := notifyHandoverComplete smRefs (h_admittedSessions st) s in
              let s := notifyTargetFailedDeactivate smRefs (h_targetFailed st) s in
              (SendUEContextReleaseCommand e (h_sourceGNB st) (hno_AMFUENGAPId n) (h_sourceRANUENGAPId st)
                 ngapCausePresentRadioNetwork ngapCauseSuccessfulHandover s).1
          end
      end
  end.

(** * The queues and the events *)

(** The next segment of the task at the head of the UE's queue: the state after
    it, and what is left of the task. *)
Definition segment e l (t : Task) s : Server D C * option Task :=
  match t with
  | HandleNAS _ => (onUE l (env_nas e) s, None)
  | ANRelease => (notifyANRelease e l s, None)
  | CompletePathSwitch g req plan => (completePathSwitch e l g req plan s, None)
  | ContinuePreparation g target req => startPreparation e l g target req s
  | PreparationWaiting g target req p => (finishPreparation e l g target req p s, None)
  | CompletePreparation g ack h => startCompletion l g ack h s
  | CompletionWaiting g ack h smRefs => (finishCompletion e l g ack h smRefs s, None)
  end.

Definition setHead l (t : option Task) s : Server D C :=
  match sv_queue s !! l with
  | Some (_ :: r) => with_queue (<[l := match t with Some t => t :: r | None => r end]> (sv_queue s)) s
  | _ => s
  end.

Definition runTask e l s : Server D C :=
  match sv_queue s !! l with
  | Some (t :: _) => let '(s, rest) := segment e l t s in setHead l rest s
  | _ => s
  end.

(** What reaches the AMF: messages of a gNB, the scheduler, timers, and writes
    of other procedures to a UE's context. *)
Inductive Event :=
| GNBConnect (ra : option string)
| GNBDisconnect (g : gloc)
| NGSetupRequest (g : gloc) (globalID : bytes)
| InitialUE (g : gloc) (m : InitialUEMessage)
| UplinkNAS (amfID : Z) (pdu : bytes)
| ReleaseRequest (g : gloc) (amfID ranID causePresent causeValue : Z)
| ReleaseComplete (g : gloc) (amfID ranID : Z)
| ResourceSetupResponse (amfID : Z) (failed : list Z) (setups : list (Z * bytes))
| ContextSetupResponse (amfID : Z) (setups : list (Z * bytes))
| ContextSetupFailure (amfID : Z)
| RadioCapability (amfID : Z) (cap : bytes)
| PathSwitch (g : gloc) (m : PathSwitchRequestMsg)
| HandoverRequired (g : gloc) (m : HandoverRequiredMsg)
| HandoverRequestAck (g : gloc) (m : HandoverRequestAckMsg)
| HandoverNotify (g : gloc) (m : HandoverNotifyMsg)
| RunTask (l : loc)
| MobileReachableTimer (l : loc)
| ImplicitDetachTimer (l : loc)
| PendingRemovalTimer (l : loc)
| OtherProcedure (l : loc) (f : UEContext → UEContext).

(** [dispatch], with the scheduler and the timers. *)
Definition n2step e (ev : Event) s : Server D C :=
  match ev with
  | GNBConnect ra => gnbConnected ra s
  | GNBDisconnect g => gnbDisconnected cfg e g s
  | NGSetupRequest g id => handleNGSetup e g id s
  | InitialUE g m => handleInitialUEMessage cfg e g m s
  | UplinkNAS amfID pdu => handleUplinkNASTransport amfID pdu s
  | ReleaseRequest g amfID ranID p v => handleUEContextReleaseRequest e g amfID ranID p v s
  | ReleaseComplete g amfID ranID => handleUEContextReleaseComplete cfg g amfID ranID s
  | ResourceSetupResponse amfID failed setups => handlePDUSessionResourceSetupResponse cfg amfID failed setups s
  | ContextSetupResponse amfID setups => handleInitialContextSetupResponse cfg amfID setups s
  | ContextSetupFailure amfID => handleInitialContextSetupFailure cfg e amfID s
  | RadioCapability amfID cap => handleUERadioCapabilityInfoIndication amfID cap s
  | PathSwitch g m => handlePathSwitchRequest e g m s
  | HandoverRequired g m => handleHandoverRequired e g m s
  | HandoverRequestAck g m => handleHandoverRequestAcknowledge g m s
  | HandoverNotify g m => handleHandoverNotify e g m s
  | RunTask l => runTask e l s
  | MobileReachableTimer l => mobileReachableExpired cfg l s
  | ImplicitDetachTimer l => implicitDetachExpired cfg e l s
  | PendingRemovalTimer l => pendingRemovalExpired e l s
  | OtherProcedure l f => onUE l f s
  end.

End Handover.
