(* ===== verification/AmfN2Spec.v ===== *)
(** Properties of the N2 side of the AMF over [AmfN2] and [AmfHandover]: the keys
    given to target gNBs, the answers to a path switch, an N2 handover from
    beginning to end, and what is left behind when a prepared handover is not
    executed. *)
From stdpp Require Import sorting.
From S2P Require Import Prelude NasReader NasCodec GoCrypto CryptoNas CryptoAka AmfContext AmfN2 AmfHandover.

#[local] Opaque nh_chain KNH.

(** * Keys for target gNBs

    A UE [l] has the AMF UE NGAP ID [id], and its next-hop chain was started from
    [kgnb] under [kamf].  [quiet] relates two states when, between them, no key
    of [id] was sent and the chain of [l] did not move. *)

(** The pair in the Security Context IE of a message, with the ID it is for. *)
Definition keysOf (m : NGAPMsg) : option (Z * (bytes * Z)) :=
  match m with
  | PathSwitchRequestAcknowledge p => Some (psa_AMFUENGAPId p, (psa_NH p, psa_NCC p))
  | HandoverRequest p => Some (hop_AMFUENGAPId p, (hop_NH p, hop_NCC p))
  | _ => None
  end.

Definition keyOfEffect (id : Z) (ef : Effect) : option (bytes * Z) :=
  match ef with
  | Sent _ m => '(i, k) ← keysOf m; if decide (i = id) then Some k else None
  | _ => None
  end.
Definition keysSent (id : Z) (out : list Effect) : list (bytes * Z) := omap (keyOfEffect id) out.

Definition taskID (t : Task) : option Z :=
  match t with
  | CompletePathSwitch _ req _ => Some (psr_SourceAMFUENGAPId req)
  | ContinuePreparation _ _ req | PreparationWaiting _ _ req _ => Some (hrq_AMFUENGAPId req)
  | _ => None
  end.

(** The [n]th pair of the chain; the counter starts at 1. *)
Definition chainPair (kamf kgnb : bytes) (n : nat) : bytes * Z := (nh_chain kamf kgnb n, (Z.of_nat n + 1) mod 8).

Definition same_keys (u u' : UEContext) : Prop :=
  ue_NH u' = ue_NH u ∧ ue_NCC u' = ue_NCC u ∧ ue_NHValid u' = ue_NHValid u ∧
  sc_KAMF (ue_SecurityCtx u') = sc_KAMF (ue_SecurityCtx u).

Lemma same_keys_refl u : same_keys u u.
Proof. done. Qed.
Lemma same_keys_trans u v w : same_keys u v → same_keys v w → same_keys u w.
Proof. unfold same_keys. intros (?&?&?&?) (?&?&?&?). split_and!; congruence. Qed.

Section Keys.
Context {D C : Type} `{!Store D, !Cache C} (cfg : N2Config) (ap : NgapAper).
Context (l : loc) (id : Z) (kamf kgnb : bytes).
Implicit Types (s : Server D C) (e : Env) (g : gloc).

Definition keys_at (n : nat) s : Prop :=
  ∃ u, ue_of s l = Some u ∧ ue_NHValid u = true ∧ sc_KAMF (ue_SecurityCtx u) = kamf ∧
    ue_NH u = nh_chain kamf kgnb n ∧ ue_NCC u = (Z.of_nat n + 1) mod 8.

(** The ID was allocated, and only to [l]. *)
Definition id_ok s : Prop :=
  id ≤ ngapIDCounter (sv_mgr s) ∧ (∀ l', GetByNGAPId (sv_mgr s) id = Some l' → l' = l).

(** A handover task for the ID is in the queue of [l]. *)
Definition tasks_ok s : Prop :=
  ∀ l' q t, sv_queue s !! l' = Some q → t ∈ q → taskID t = Some id → l' = l.

Record quiet s s' : Prop := mkQuiet {
  quiet_keys n : keys_at n s → keys_at n s';
  quiet_id : id_ok s → id_ok s';
  quiet_tasks : id_ok s → tasks_ok s → tasks_ok s';
  quiet_out : keysSent id (sv_out s') = keysSent id (sv_out s) }.

Lemma quiet_refl s : quiet s s.
Proof. by split. Qed.
Lemma quiet_trans s1 s2 s3 : quiet s1 s2 → quiet s2 s3 → quiet s1 s3.
Proof.
  intros [k1 i1 t1 o1] [k2 i2 t2 o2]. split; [eauto|eauto|eauto|congruence].
Qed.

(** States that agree on the fields [quiet] looks at. *)
Lemma quiet_same s s' :
  ues (sv_mgr s') !! l = ues (sv_mgr s) !! l → uesByNGAPId (sv_mgr s') = uesByNGAPId (sv_mgr s) →
  ngapIDCounter (sv_mgr s') = ngapIDCounter (sv_mgr s) → sv_queue s' = sv_queue s →
  keysSent id (sv_out s') = keysSent id (sv_out s) → quiet s s'.
Proof.
  intros Hu Hi Hc Hq Ho. split; [| | |done].
  - intros n. unfold keys_at, ue_of. by rewrite Hu.
  - unfold id_ok, GetByNGAPId. by rewrite Hi, Hc.
  - unfold tasks_ok. by rewrite Hq.
Qed.

Lemma quiet_onUE s0 s l' f : (l' = l → ∀ u, same_keys u (f u)) → quiet s0 s → quiet s0 (onUE l' f s).
Proof.
  intros Hf Hq. eapply quiet_trans; [done|]. split; [|done|done|done].
  intros n (u & Hu & Hv & Hk & Hn & Hc). unfold keys_at, ue_of, onUE in *. cbn.
  destruct (decide (l' = l)) as [->|Hne].
  - exists (f u). rewrite lookup_alter_eq, Hu. cbn. destruct (Hf eq_refl u) as (H1 & H2 & H3 & H4).
    split_and!; [done|congruence..].
  - exists u. by rewrite lookup_alter_ne.
Qed.

Lemma quiet_onN2 s0 s l' f : quiet s0 s → quiet s0 (onN2 l' f s).
Proof. intros Hq. eapply quiet_trans; [done|]. by apply quiet_same. Qed.
Lemma quiet_onGNB s0 s g f : quiet s0 s → quiet s0 (onGNB g f s).
Proof. intros Hq. eapply quiet_trans; [done|]. by apply quiet_same. Qed.
Lemma quiet_onHO s0 s h f : quiet s0 s → quiet s0 (onHO h f s).
Proof. intros Hq. eapply quiet_trans; [done|]. by apply quiet_same. Qed.
Lemma quiet_gnbs s0 s v : quiet s0 s → quiet s0 (with_gnbs v s).
Proof. intros Hq. eapply quiet_trans; [done|]. by apply quiet_same. Qed.
Lemma quiet_pending s0 s v : quiet s0 s → quiet s0 (with_pending v s).
Proof. intros Hq. eapply quiet_trans; [done|]. by apply quiet_same. Qed.

Lemma quiet_emit s0 s es : keysSent id es = [] → quiet s0 s → quiet s0 (emit es s).
Proof.
  intros He Hq. eapply quiet_trans; [done|]. apply quiet_same; try done. cbn. unfold keysSent in *.
  by rewrite omap_app, He, app_nil_r.
Qed.

Lemma quiet_enqueue s0 s l' t :
  (id_ok s → taskID t = Some id → l' = l) → quiet s0 s → quiet s0 (EnqueueTask l' t s).
Proof.
  intros Ht Hq. eapply quiet_trans; [done|]. split; [done|done| |done].
  intros Hid Hok k q t' Hl Hin Hid'. cbn in Hl. destruct (decide (k = l')) as [->|Hne].
  - rewrite lookup_insert_eq in Hl. injection Hl as <-. apply elem_of_app in Hin as [Hin| ->%list_elem_of_singleton].
    + destruct (sv_queue s !! l') as [q|] eqn:E; cbn in Hin; [by eapply Hok|by apply elem_of_nil in Hin].
    + by apply Ht.
  - rewrite lookup_insert_ne in Hl by done. by eapply Hok.
Qed.

Lemma quiet_Remove s0 s l' : quiet s0 s → quiet s0 (with_mgr (Remove (sv_mgr s) l') s).
Proof.
  intros Hq. eapply quiet_trans; [done|]. unfold Remove. destruct (ues (sv_mgr s) !! l') as [u|] eqn:E.
  2: { by apply quiet_same. }
  split; [| |done|done].
  - intros n (v & Hu & H). unfold keys_at, ue_of in *. cbn. destruct (decide (l' = l)) as [->|Hne].
    + exists (StopAllTimers v). by rewrite lookup_alter_eq, Hu.
    + exists v. by rewrite lookup_alter_ne.
  - intros [Hc Hi]. split; [done|]. unfold GetByNGAPId in *. cbn. intros l2 H2. apply lookup_delete_Some in H2 as [_ H2]. by apply Hi.
Qed.

Lemma keysSent_calls cs : keysSent id (Called <$> cs) = [].
Proof. induction cs as [|c cs IH]; [done|]. exact IH. Qed.

Lemma quiet_write e g pdu s0 s :
  (∀ m, pdu = Some m → keysOf m = None) → quiet s0 s → quiet s0 (writeNGAP e g pdu s).1.
Proof.
  intros Hm Hq. unfold writeNGAP. case_match; [|done]. apply quiet_emit; [|done].
  destruct pdu as [m|]; [|done]. cbn. by rewrite (Hm m).
Qed.
Lemma quiet_send e g pdu s0 s :
  (∀ m, pdu = Some m → keysOf m = None) → quiet s0 s → quiet s0 (send e g pdu s).1.
Proof. intros Hm Hq. unfold send. destruct pdu; [by apply quiet_write|done]. Qed.

Lemma encode_keys e m m' : keysOf m = None → encode e m = Some m' → keysOf m' = None.
Proof. unfold encode. case_match; [|done]. by intros ? [= <-]. Qed.

Lemma quiet_foldl {A} (f : Server D C → A → Server D C) (xs : list A) s0 s :
  (∀ s x, x ∈ xs → quiet s0 s → quiet s0 (f s x)) → quiet s0 s → quiet s0 (foldl f s xs).
Proof.
  revert s. induction xs as [|x xs IH]; intros s Hf Hq; [done|]. cbn. apply IH; [|apply Hf; [left|done]].
  intros s' y Hy. apply Hf. by right.
Qed.

Lemma quiet_setTAI s0 s l' t : quiet s0 s → quiet s0 (setTAI l' t s).
Proof. intros Hq. destruct t; [|done]. apply quiet_onUE; [done|]. by apply quiet_onN2. Qed.

(** A new context gets the next ID, which is not [id]. *)
Lemma quiet_allocate s0 s ran now :
  ngapIDCounter (sv_mgr s) < 9223372036854775807 → -9223372036854775808 ≤ id →
  quiet s0 s → quiet s0 (with_mgr (AllocateUEContext (sv_mgr s) ran now).1 s).
Proof.
  intros Hc Hmin Hq. eapply quiet_trans; [done|]. unfold AllocateUEContext. cbn. split; [| |done|done].
  - intros n (u & Hu & H). unfold keys_at, ue_of in *. cbn. exists u. split; [|done]. rewrite lookup_insert_ne; [done|].
    intros Heq. pose proof (is_fresh (dom (ues (sv_mgr s)))) as Hf. rewrite Heq in Hf. apply Hf.
    by apply elem_of_dom_2 in Hu.
  - intros [Hle Hi]. unfold id_ok, GetByNGAPId in *. cbn. rewrite i64_small by (unfold is_i64; lia).
    split; [lia|]. intros l' Hl. rewrite lookup_insert_ne in Hl by lia. by apply Hi.
Qed.

Lemma quiet_cleanup s0 s g f l' : quiet s0 s → quiet s0 (with_mgr (Remove (sv_mgr s) l') (onGNB g f s)).
Proof. intros Hq. by apply (quiet_Remove s0 (onGNB g f s)), quiet_onGNB. Qed.

Create HintDb n2quiet.
#[local] Hint Resolve quiet_refl quiet_onN2 quiet_onGNB quiet_onHO quiet_gnbs quiet_pending quiet_setTAI quiet_Remove quiet_cleanup : n2quiet.
#[local] Hint Extern 2 (quiet _ (onUE _ _ _)) => apply quiet_onUE; [by intros _ ?|] : n2quiet.
#[local] Hint Extern 2 (quiet _ (emit (_ <$> _) _)) => apply quiet_emit; [rewrite ?list_fmap_compose; apply keysSent_calls|] : n2quiet.
#[local] Hint Extern 3 (quiet _ (emit _ _)) => apply quiet_emit; [done|] : n2quiet.
#[local] Hint Extern 2 (quiet _ (EnqueueTask _ _ _)) => apply quiet_enqueue; [done|] : n2quiet.
#[local] Hint Extern 2 (quiet _ (writeNGAP _ _ _ _).1) =>
  apply quiet_write; [intros ?; by apply encode_keys|] : n2quiet.
#[local] Hint Extern 2 (quiet _ (send _ _ _ _).1) => apply quiet_send; [intros ?; by apply encode_keys|] : n2quiet.

Lemma quiet_pair {A} (p : Server D C * A) s0 s a : p = (s, a) → quiet s0 p.1 → quiet s0 s.
Proof. by intros ->. Qed.

Lemma quiet_release e g a r p v s0 s : quiet s0 s → quiet s0 (SendUEContextReleaseCommand e g a r p v s).1.
Proof. unfold SendUEContextReleaseCommand. auto with n2quiet. Qed.

Lemma quiet_forUE e l' p v s0 s :
  quiet s0 s → quiet s0 (SendUEContextReleaseCommandForUE cfg e l' p v s).1.
Proof.
  intros Hq. unfold SendUEContextReleaseCommandForUE, SendUEContextReleaseCommandForUEStrict.
  destruct (findGNBForUE s l'), (ue_of s l'); try done.
  destruct (SendUEContextReleaseCommand _ _ _ _ _ _ _) as [s1 ok] eqn:E.
  apply (f_equal fst) in E. cbn in E. destruct ok; cbn; [|subst; by apply quiet_release].
  case_match; cbn; subst; [|by apply quiet_release]. apply quiet_onUE; [|by apply quiet_release].
  intros _ v'. unfold startPendingRemovalTimer. by case_match.
Qed.

Lemma quiet_idle e l' s0 s : quiet s0 s → quiet s0 (removeUEFromIdleUEs e l' s).
Proof. intros Hq. unfold removeUEFromIdleUEs. apply quiet_foldl; [|done]. auto with n2quiet. Qed.

Lemma quiet_remove e l' s0 s : quiet s0 s → quiet s0 (releaseAndRemove e l' s).
Proof. intros Hq. unfold releaseAndRemove. case_match; [|done]. case_match; auto with n2quiet. Qed.

Lemma quiet_disconnect e g s0 s : quiet s0 s → quiet s0 (gnbDisconnected cfg e g s).
Proof.
  intros Hq. unfold gnbDisconnected. case_match; [|done]. apply quiet_gnbs. case_match; [|done].
  apply quiet_foldl; [|done]. intros. by apply quiet_remove.
Qed.

(** Side conditions of a step for the UE: other procedures, and the NAS handler,
    leave its keys alone (they do not derive a new KgNB), and IDs are not used up. *)
Definition key_step_ok e (ev : Event) s : Prop :=
  match ev with
  | OtherProcedure l' f => l' = l → ∀ u, same_keys u (f u)
  | RunTask l' => l' = l → ∀ u, same_keys u (env_nas e u)
  | InitialUE _ _ => ngapIDCounter (sv_mgr s) < 9223372036854775807
  | _ => True
  end.

Lemma quiet_initial e g m s0 s :
  ngapIDCounter (sv_mgr s) < 9223372036854775807 → -9223372036854775808 ≤ id →
  quiet s0 s → quiet s0 (handleInitialUEMessage cfg e g m s).
Proof.
  intros Hc Hmin Hq.
  assert (quiet s0 (newUEMessage e g m s)) as Hnew.
  { unfold newUEMessage. destruct (AllocateUEContext _ _ _) as [m' l'] eqn:E. apply (f_equal fst) in E. cbn in E. subst.
    pose proof (quiet_allocate s0 s (iue_RANUENGAPId m) (env_now e) Hc Hmin Hq). auto 10 with n2quiet. }
  unfold handleInitialUEMessage. case_match; [|done]. case_match; [done|]. case_match.
  - unfold returningUE. auto 10 with n2quiet.
  - unfold rejectUnknownTMSI. destruct (AllocateUEContext _ _ _) as [m' l'] eqn:E. apply (f_equal fst) in E. cbn in E. subst.
    set (s1 := with_mgr _ s). assert (quiet s0 s1) as Ha by by apply quiet_allocate.
    destruct (writeNGAP _ _ _ _) as [s2 ok] eqn:E2. eapply (quiet_pair _ s0) in E2; [|auto with n2quiet].
    destruct ok; cbn [negb]; [|by auto with n2quiet].
    destruct (SendUEContextReleaseCommand _ _ _ _ _ _ _) as [s3 ok] eqn:E3.
    eapply (quiet_pair _ s0) in E3; [|apply quiet_release; auto with n2quiet].
    destruct ok; cbn [negb]; [|by auto with n2quiet]. apply quiet_onUE; [|done].
    intros _ v'. unfold startPendingRemovalTimer. by case_match.
Qed.

Lemma quiet_complete g a r s0 s : quiet s0 s → quiet s0 (handleUEContextReleaseComplete cfg g a r s).
Proof.
  intros Hq. unfold handleUEContextReleaseComplete. case_match; [|auto with n2quiet]. case_match; [auto with n2quiet|].
  unfold anReleased. case_match; [|auto with n2quiet]. case_match; [auto 10 with n2quiet|].
  apply quiet_onUE; [intros _ u'; unfold StartMobileReachableTimer; by case_match|].
  case_match; auto 10 with n2quiet.
Qed.

Lemma quiet_setups l' (setups : list (Z * bytes)) s0 s :
  quiet s0 s →
  quiet s0 (foldl (λ s p, let ref := smContextRef s l' p.1 in
                          if String.eqb ref "" then s else emit [Called (UpdateSMContext ref p.2)] s) s setups).
Proof. intros Hq. apply quiet_foldl; [|done]. intros s1 p _ Hs1. cbn zeta. case_match; auto with n2quiet. Qed.

(** ** The handover handlers *)

Lemma quiet_rejectPS e g req items s0 s : quiet s0 s → quiet s0 (rejectPathSwitch e g req items s).
Proof.
  intros Hq. unfold rejectPathSwitch. apply quiet_send; [|done]. intros m. unfold BuildPathSwitchRequestFailure.
  case_match; [done|]. by apply encode_keys.
Qed.
Lemma quiet_rejectHO e g a r p v s0 s : quiet s0 s → quiet s0 (rejectHandoverPreparation e g a r p v s).
Proof. unfold rejectHandoverPreparation. auto with n2quiet. Qed.
#[local] Hint Resolve quiet_rejectPS quiet_rejectHO : n2quiet.

Lemma quiet_pathSwitch e g req s0 s : quiet s0 s → quiet s0 (handlePathSwitchRequest e g req s).
Proof.
  intros Hq. unfold handlePathSwitchRequest. cbn zeta. destruct (GetByNGAPId _ _) as [l'|] eqn:E; [|auto with n2quiet].
  repeat (case_match; [auto with n2quiet|]). 2: done. apply quiet_enqueue; [|done].
  intros [_ Hi] [= Hid]. apply Hi. by rewrite <- Hid.
Qed.

Lemma quiet_required e g req s0 s : quiet s0 s → quiet s0 (handleHandoverRequired e g req s).
Proof.
  intros Hq. unfold handleHandoverRequired. cbn zeta. destruct (GetByNGAPId _ _) as [l'|] eqn:E; [|auto with n2quiet].
  case_match; [|auto with n2quiet]. case_match; [auto with n2quiet|]. case_match; [|done].
  case_match; [|auto with n2quiet]. apply quiet_enqueue; [|done]. intros [_ Hi] [= Hid]. apply Hi. by rewrite <- Hid.
Qed.

Lemma quiet_ack g ack s0 s : quiet s0 s → quiet s0 (handleHandoverRequestAcknowledge g ack s).
Proof. intros Hq. unfold handleHandoverRequestAcknowledge. case_match; [|done]. case_match; auto with n2quiet. Qed.

Lemma keysSent_omap {A} (f : A → option Effect) xs :
  (∀ x ef, f x = Some ef → ∃ c, ef = Called c) → keysSent id (omap f xs) = [].
Proof.
  intros Hf. unfold keysSent. induction xs as [|x xs IH]; [done|]. cbn. destruct (f x) as [ef|] eqn:E; [|done].
  destruct (Hf x ef E) as [c ->]. exact IH.
Qed.

Lemma quiet_notify e g n s0 s : quiet s0 s → quiet s0 (handleHandoverNotify cfg e g n s).
Proof.
  intros Hq. unfold handleHandoverNotify. cbn zeta. repeat (case_match; [|auto with n2quiet]).
  apply quiet_release. unfold notifyTargetFailedDeactivate, notifyHandoverComplete.
  assert (∀ A (f : A → string) xs s, quiet s0 s →
    quiet s0 (emit (omap (λ a, if String.eqb (f a) "" then None else Some (Called (DeactivateUP (f a)))) xs) s)) as Hd.
  { intros. apply quiet_emit; [|done]. apply keysSent_omap. intros x ef. case_match; [done|]. intros [= <-]. eauto. }
  assert (∀ A (f : A → string) xs s, quiet s0 s →
    quiet s0 (emit (omap (λ a, if String.eqb (f a) "" then None else Some (Called (CompleteHandover (f a)))) xs) s)) as Hc.
  { intros. apply quiet_emit; [|done]. apply keysSent_omap. intros x ef. case_match; [done|]. intros [= <-]. eauto. }
  case_match; [apply Hd|]; (case_match; [apply Hc|]); auto 10 with n2quiet.
Qed.

Lemma quiet_deactivate listed l' s0 s : quiet s0 s → quiet s0 (deactivateUnlistedSessions cfg listed l' s).
Proof.
  intros Hq. unfold deactivateUnlistedSessions. case_match; [|done]. case_match; [|done].
  apply quiet_emit; [|done]. apply keysSent_omap. intros x ef.
  destruct (smRefsOf _ !! x); [|done]. intros [= <-]. eauto.
Qed.

Lemma quiet_rebind e g req l' a r s0 s : quiet s0 s → quiet s0 (rebindUE e g req l' a r s).
Proof. intros Hq. unfold rebindUE. case_match; auto 10 with n2quiet. Qed.

Lemma quiet_drop a h s0 s : quiet s0 s → quiet s0 (dropPending a h s).
Proof. intros Hq. unfold dropPending. case_match; auto with n2quiet. Qed.

Lemma quiet_finishCompletion e l' g ack h refs s0 s :
  quiet s0 s → quiet s0 (finishCompletion cfg ap e l' g ack h refs s).
Proof.
  intros Hq. unfold finishCompletion. case_match; [|done]. cbn zeta. case_match; [apply quiet_rejectHO; by apply quiet_drop|].
  destruct (send _ _ _ _) as [s1 ok] eqn:E. eapply (quiet_pair _ s0) in E; [|auto with n2quiet]. case_match; auto with n2quiet.
Qed.

(** ** The invariant *)

Context (n0 : nat).

(** The chain of [l] is at [n]; the pairs sent for [id] are of strictly
    increasing positions, above [n0] and up to [k]. *)
Record key_inv (n k : nat) s : Prop := mkKeyInv {
  ki_keys : keys_at n s;
  ki_id : id_ok s;
  ki_tasks : tasks_ok s;
  ki_le : (k ≤ n)%nat;
  ki_sent : ∃ ns, keysSent id (sv_out s) = chainPair kamf kgnb <$> ns ∧ StronglySorted lt ns ∧
                  Forall (λ m, n0 < m ≤ k)%nat ns }.

Lemma key_inv_quiet n k s s' : quiet s s' → key_inv n k s → key_inv n k s'.
Proof. intros [? ? ? Ho] [Hk Hi Ht Hle Hs]. split; [auto..|done|by rewrite Ho]. Qed.

Lemma key_inv_weaken n k s : key_inv n k s → key_inv n n s.
Proof.
  intros [Hk Hi Ht Hle (ns & Hs & Hss & Hf)]. split; [done|done|done|done|]. exists ns. split_and!; [done|done|].
  eapply Forall_impl; [exact Hf|]. cbn. lia.
Qed.

Lemma sorted_snoc ns n : StronglySorted lt ns → Forall (λ m, m < n)%nat ns → StronglySorted lt (ns ++ [n]).
Proof.
  induction 1 as [|m ns Hss IH Hf]; intros Hn; cbn; [by repeat constructor|]. apply Forall_cons in Hn as [Hm Hn].
  constructor; [auto|]. apply Forall_app. by split; [|repeat constructor].
Qed.

(** A pair is sent at most once after each advance. *)
Lemma key_inv_emit n k s g m :
  (k < n)%nat → (n0 < n)%nat → (∀ i p, keysOf m = Some (i, p) → i = id → p = chainPair kamf kgnb n) →
  key_inv n k s → key_inv n n (emit [Sent g m] s).
Proof.
  intros Hkn Hn0 Hm [Hk Hi Ht Hle (ns & Hs & Hss & Hf)]. split; [done|done|done|done|].
  assert (Forall (λ m, n0 < m ≤ n)%nat ns) as Hf' by (eapply Forall_impl; [exact Hf|cbn; lia]).
  cbn. unfold keysSent in *. rewrite omap_app, Hs. cbn.
  destruct (keysOf m) as [[i p]|] eqn:E; cbn; [|exists ns; by rewrite app_nil_r].
  case_decide as Hid; [|exists ns; by rewrite app_nil_r]. rewrite (Hm i p eq_refl Hid). exists (ns ++ [n]).
  rewrite fmap_app. split_and!; [done| |].
  - apply sorted_snoc; [done|]. eapply Forall_impl; [exact Hf|cbn; lia].
  - apply Forall_app. split; [done|]. constructor; [lia|done].
Qed.

Context (Husable : kamfUsable kamf = true).

Lemma NextNH_at n k s u :
  key_inv n k s → ue_of s l = Some u →
  ∃ u', NextNHLocked u = (u', Some (chainPair kamf kgnb (S n))) ∧ key_inv (S n) k (onUE l (λ _, u') s).
Proof.
  intros [(u1 & Hu1 & Hv & Hk & Hn & Hc) Hi Ht Hle Hs] Hu. rewrite Hu in Hu1. injection Hu1 as <-.
  unfold NextNHLocked. rewrite Hv, Hk, Husable. cbn [negb orb]. eexists. split.
  - apply pair_eq. split; [reflexivity|]. unfold chainPair. do 2 f_equal.
    + rewrite Hn. rewrite go_copy_full; [done|]. rewrite length_nh_chain. apply length_KNH.
    + rewrite Hc. unfold nccModulus, u8. dlia.
  - split; [|done|done|lia|done]. eexists. split.
    { unfold ue_of, onUE in *. cbn. rewrite lookup_alter_eq, Hu. reflexivity. }
    cbn [set_NH ue_NHValid ue_SecurityCtx ue_NH ue_NCC]. split_and!; [done|done| |].
    + rewrite Hn, go_copy_full; [done|]. rewrite length_nh_chain. apply length_KNH.
    + rewrite Hc. unfold nccModulus, u8. dlia.
Qed.

Lemma ack_keys e p m i q :
  BuildPathSwitchRequestAcknowledge e p = Some m → keysOf m = Some (i, q) →
  i = psa_AMFUENGAPId p ∧ q = (psa_NH p, psa_NCC p).
Proof.
  unfold BuildPathSwitchRequestAcknowledge. case_match; [done|]. unfold encode. case_match; [|done].
  by intros [= <-] [= <- <-].
Qed.
Lemma request_keys e p m i q :
  BuildHandoverRequest e p = Some m → keysOf m = Some (i, q) →
  i = hop_AMFUENGAPId p ∧ q = (hop_NH p, hop_NCC p).
Proof.
  unfold BuildHandoverRequest. case_match; [done|]. unfold encode. case_match; [|done].
  by intros [= <-] [= <- <-].
Qed.

(** The step that may move the chain: at [l] it moves by one, elsewhere it does
    not concern [id]. *)
Lemma key_inv_advance n k s l' u u' chain :
  key_inv n k s → ue_of s l' = Some u → NextNHLocked u = (u', chain) →
  (l' = l ∧ chain = Some (chainPair kamf kgnb (S n)) ∧ key_inv (S n) k (onUE l' (λ _, u') s)) ∨
  (l' ≠ l ∧ key_inv n k (onUE l' (λ _, u') s)).
Proof.
  intros Hi Hu Hn. destruct (decide (l' = l)) as [->|Hne].
  - left. destruct (NextNH_at n k s u Hi Hu) as (u2 & H2 & H3). rewrite Hn in H2. injection H2 as -> ->. done.
  - right. split; [done|]. eapply key_inv_quiet; [|done]. by apply quiet_onUE; [|apply quiet_refl].
Qed.

Lemma key_inv_other n k s g m :
  (∀ i p, keysOf m = Some (i, p) → i ≠ id) → key_inv n k s → key_inv n k (emit [Sent g m] s).
Proof.
  intros Hm. apply key_inv_quiet, quiet_emit; [|apply quiet_refl]. cbn.
  destruct (keysOf m) as [[i p]|] eqn:E; cbn; [|done]. case_decide as Hi; [|done]. by destruct (Hm i p eq_refl).
Qed.

(** A key message of a task: sent after the chain has moved, or not for [id]. *)
Lemma key_inv_keyMessage n k s l' g m i p chain :
  (n0 ≤ n)%nat → (k ≤ n)%nat → (i = id → l' = l) → (∀ j q, keysOf m = Some (j, q) → j = i ∧ q = p) → chain = Some p →
  (l' = l ∧ chain = Some (chainPair kamf kgnb (S n)) ∧ key_inv (S n) k s) ∨ (l' ≠ l ∧ key_inv n k s) →
  ∃ n' k', (n ≤ n')%nat ∧ key_inv n' k' (emit [Sent g m] s).
Proof.
  intros Hn0 Hkn Hid Hm -> [(-> & [= ->] & Hi)|[Hne Hi]].
  - exists (S n), (S n). split; [lia|]. apply (key_inv_emit _ k); [lia|lia| |done].
    intros j q Hj _. by apply Hm in Hj as [_ ->].
  - exists n, k. split; [done|]. apply key_inv_other; [|done].
    intros j q Hj ->. apply Hm in Hj as [<- _]. by apply Hne, Hid.
Qed.

Definition key_reach (n : nat) s : Prop := ∃ n' k, (n ≤ n')%nat ∧ key_inv n' k s.

Lemma key_reach_quiet n s s' : quiet s s' → key_reach n s → key_reach n s'.
Proof. intros Hq (n' & k & Hn & Hi). exists n', k. split; [done|]. by eapply key_inv_quiet. Qed.

Lemma reach_completePathSwitch e l' g req plan s :
  (psr_SourceAMFUENGAPId req = id → l' = l) → key_reach n0 s → key_reach n0 (completePathSwitch cfg ap e l' g req plan s).
Proof.
  intros Hid (n & k & Hn & Hi). unfold completePathSwitch. cbn zeta.
  set (s1 := emit _ s). assert (key_inv n k s1) as H1.
  { eapply key_inv_quiet; [|done]. apply quiet_emit; [apply keysSent_calls|apply quiet_refl]. }
  clearbody s1. case_decide; [exists n, k; split; [done|]; eapply key_inv_quiet; [|done]; auto with n2quiet|].
  destruct (ue_of s1 l') as [u|] eqn:Hu; [|by exists n, k]. destruct (NextNHLocked u) as [u' chain] eqn:En.
  pose proof (key_inv_advance _ _ _ _ _ _ _ H1 Hu En) as Ha. set (s2 := onUE l' _ s1) in *.
  assert (key_reach n0 s2) as H2 by (destruct Ha as [(_ & _ & ?)|[_ ?]]; [exists (S n), k|exists n, k]; split; [lia|done|lia|done]).
  destruct chain as [[nh ncc]|]; [|eapply key_reach_quiet; [|done]; auto with n2quiet].
  case_decide; [eapply key_reach_quiet; [|done]; auto with n2quiet|].
  destruct (BuildPathSwitchRequestAcknowledge _ _) as [m|] eqn:Em; cbn [send]; [|done].
  unfold writeNGAP. destruct (env_writes _ _ _); [|done].
  eapply key_reach_quiet; [apply quiet_deactivate, quiet_rebind, quiet_refl|].
  destruct (key_inv_keyMessage n k s2 l' g m (psr_SourceAMFUENGAPId req) (nh, ncc) (Some (nh, ncc))) as (n' & k' & Hle & Hi');
    [done|by destruct Hi|done| |done|done|by exists n', k'; split; [lia|]].
  intros j q Hj. apply (ack_keys _ _ _ _ _ Em) in Hj as [-> ->]. done.
Qed.

Lemma reach_finishPreparation e l' g tgt req p s :
  (hrq_AMFUENGAPId req = id → l' = l) → key_reach n0 s → key_reach n0 (finishPreparation cfg ap e l' g tgt req p s).
Proof.
  intros Hid (n & k & Hn & H1). unfold finishPreparation. cbn zeta.
  case_decide; [exists n, k; split; [done|]; eapply key_inv_quiet; [|done]; auto with n2quiet|].
  destruct (ue_of s l') as [u|] eqn:Hu; [|by exists n, k]. destruct (NextNHLocked u) as [u' chain] eqn:En.
  pose proof (key_inv_advance _ _ _ _ _ _ _ H1 Hu En) as Ha. set (s2 := onUE l' _ s) in *.
  assert (key_reach n0 s2) as H2 by (destruct Ha as [(_ & _ & ?)|[_ ?]]; [exists (S n), k|exists n, k]; split; [lia|done|lia|done]).
  destruct chain as [[nh ncc]|]; [|eapply key_reach_quiet; [|done]; auto with n2quiet].
  destruct (BuildHandoverRequest _ _) as [m|] eqn:Em; [|eapply key_reach_quiet; [|done]; auto with n2quiet].
  destruct (storePending _ _ _) as [s3 h] eqn:E3. injection E3 as <- _. set (s3 := mkServer _ _ _ _ _ _ _ _).
  assert (∀ n k, key_inv n k s2 → key_inv n k s3) as H3 by (intros ??; apply key_inv_quiet; by apply quiet_same).
  unfold writeNGAP. destruct (env_writes _ _ _).
  - destruct (key_inv_keyMessage n k s3 l' tgt m (hrq_AMFUENGAPId req) (nh, ncc) (Some (nh, ncc))) as (n' & k' & Hle & Hi');
      [done|by destruct H1|done| |done| |by exists n', k'; split; [lia|]].
    + intros j q Hj. apply (request_keys _ _ _ _ _ Em) in Hj as [-> ->]. done.
    + destruct Ha as [(?&?&?)|[??]]; [left|right]; auto.
  - eapply (key_reach_quiet n0 s3); [apply quiet_rejectHO, quiet_drop, quiet_refl|].
    destruct H2 as (n' & k' & ? & ?). exists n', k'. auto.
Qed.

Lemma quiet_setHead l' t s0 s :
  (∀ t', t = Some t' → taskID t' = Some id → l' = l) → quiet s0 s → quiet s0 (setHead l' t s).
Proof.
  intros Ht Hq. unfold setHead. destruct (sv_queue s !! l') as [[|t0 r]|] eqn:E; [done| |done].
  eapply quiet_trans; [done|]. split; [done|done| |done]. intros _ Hok k q t' Hl Hin Hid. cbn in Hl.
  destruct (decide (k = l')) as [->|Hne]; [|rewrite lookup_insert_ne in Hl by done; by eapply Hok].
  rewrite lookup_insert_eq in Hl. injection Hl as <-. destruct t as [t1|].
  - apply elem_of_cons in Hin as [->|Hin]; [by eapply Ht|]. eapply Hok; [exact E|by right|done].
  - eapply Hok; [exact E|by right|done].
Qed.

Lemma reach_runTask e l' s :
  (l' = l → ∀ u, same_keys u (env_nas e u)) → key_reach n0 s → key_reach n0 (runTask cfg ap e l' s).
Proof.
  intros Hnas Hr. unfold runTask. destruct (sv_queue s !! l') as [[|t q]|] eqn:E; [done| |done].
  assert (taskID t = Some id → l' = l) as Ht.
  { destruct Hr as (n & k & _ & Hi). intros. eapply (ki_tasks _ _ _ Hi); [exact E|left|done]. }
  destruct (segment cfg ap e l' t s) as [s1 rest] eqn:Es.
  assert (key_reach n0 s1 ∧ ∀ t', rest = Some t' → taskID t' = Some id → l' = l) as [H1 H2].
  2: { eapply key_reach_quiet; [|exact H1]. by apply quiet_setHead; [|apply quiet_refl]. }
  destruct t; cbn [segment] in Es; try (injection Es as <- <-; split; [|done]).
  - eapply key_reach_quiet; [|done]. by apply quiet_onUE; [|apply quiet_refl].
  - eapply key_reach_quiet; [|done]. unfold notifyANRelease. case_match; auto with n2quiet.
  - apply reach_completePathSwitch; [|done]. intros Hx. apply Ht. cbn. by rewrite Hx.
  - unfold startPreparation in Es. destruct (ue_of s l') as [u|]; [|by injection Es as <- <-].
    destruct (candidates cfg u req) as [cands unknown].
    case_match; injection Es as <- <-; (split; [eapply key_reach_quiet; [|exact Hr]|]).
    + apply quiet_emit; [apply keysSent_calls|apply quiet_refl].
    + by intros t' [= <-].
    + apply quiet_rejectHO, quiet_refl.
    + done.
  - apply reach_finishPreparation; [|done]. intros Hx. apply Ht. cbn. by rewrite Hx.
  - unfold startCompletion in Es. destruct (ue_of s l') as [u|]; injection Es as <- <-; [|done].
    split; [eapply key_reach_quiet; [|done]|by intros t' [= <-]]. apply quiet_emit; [apply keysSent_calls|apply quiet_refl].
  - eapply key_reach_quiet; [|done]. by apply quiet_finishCompletion, quiet_refl.
Qed.

Lemma reach_step e ev s :
  -9223372036854775808 ≤ id → key_step_ok e ev s → key_reach n0 s → key_reach n0 (n2step cfg ap e ev s).
Proof.
  intros Hmin Hok Hr. destruct ev; cbn [n2step key_step_ok] in *;
    try (by apply reach_runTask); (eapply key_reach_quiet; [|exact Hr]).
  - unfold gnbConnected. case_match; [by apply quiet_same|apply quiet_refl].
  - apply quiet_disconnect, quiet_refl.
  - unfold handleNGSetup. auto with n2quiet.
  - by apply quiet_initial; [..|apply quiet_refl].
  - unfold handleUplinkNASTransport. repeat (case_match; auto with n2quiet).
  - unfold handleUEContextReleaseRequest. case_match; [apply quiet_release|]; auto with n2quiet.
  - apply quiet_complete, quiet_refl.
  - unfold handlePDUSessionResourceSetupResponse. case_match; [|auto with n2quiet]. cbn zeta.
    set (s1 := foldl _ s failed). assert (quiet s s1) as H1.
    { apply quiet_foldl; [|auto with n2quiet]. intros s2 x _ H2. cbn zeta. case_match; auto with n2quiet. }
    case_match; [|done]. by apply quiet_setups.
  - unfold handleInitialContextSetupResponse. repeat (case_match; [auto with n2quiet|]); [|auto with n2quiet].
    apply quiet_setups, quiet_refl.
  - unfold handleInitialContextSetupFailure. case_match; [|auto with n2quiet]. apply quiet_forUE. auto with n2quiet.
  - unfold handleUERadioCapabilityInfoIndication. case_match; auto with n2quiet.
  - apply quiet_pathSwitch, quiet_refl.
  - apply quiet_required, quiet_refl.
  - apply quiet_ack, quiet_refl.
  - apply quiet_notify, quiet_refl.
  - unfold mobileReachableExpired. case_match; [|auto with n2quiet]. case_match; [auto with n2quiet|].
    apply quiet_onUE; [|apply quiet_refl]. intros _ v. unfold startImplicitDetachTimer. by case_match.
  - unfold implicitDetachExpired. case_match; [|auto with n2quiet]. case_match; [auto with n2quiet|].
    case_match; [apply quiet_remove|]; apply quiet_idle, quiet_refl.
  - unfold pendingRemovalExpired. apply quiet_Remove, quiet_idle, quiet_refl.
  - by apply quiet_onUE; [|apply quiet_refl].
Qed.

Definition key_step s s' : Prop := ∃ e ev, key_step_ok e ev s ∧ s' = n2step cfg ap e ev s.

Lemma reach_steps s s' :
  -9223372036854775808 ≤ id → rtc key_step s s' → key_reach n0 s → key_reach n0 s'.
Proof.
  intros Hmin. induction 1 as [|s1 s2 s3 (e & ev & Hok & ->) _ IH]; [done|]. intros. apply IH. by apply reach_step.
Qed.

End Keys.

(** C24: the keys that target gNBs receive are fresh ([n2step], over all of
    [ngap/handover.go] and the handlers of [ngap/ngap.go]).  Take a UE whose next-hop chain, started from some KgNB under its
    KAMF, is at position [n0].  Over every sequence of N2 messages from any gNBs
    for any UEs, scheduler steps, SMF answers, write and encoding failures, lost
    associations and timers, as long as no new KgNB is derived for the UE, the
    {NH, NCC} pairs sent for the UE's ID, in PATH SWITCH REQUEST ACKNOWLEDGE and
    HANDOVER REQUEST alike, are those of strictly increasing positions of the
    chain, all after [n0]: no pair is sent twice and none of the past. *)
Theorem handover_keys_fresh {D C : Type} `{!Store D, !Cache C} (cfg : N2Config) (ap : NgapAper) (l : loc) (id : Z)
    (kamf kgnb : bytes) (n0 : nat) (s s' : Server D C) :
  kamfUsable kamf = true → -9223372036854775808 ≤ id →
  keys_at l kamf kgnb n0 s → id_ok l id s → tasks_ok l id s → sv_out s = [] →
  rtc (key_step cfg ap l) s s' →
  ∃ ns, keysSent id (sv_out s') = chainPair kamf kgnb <$> ns ∧ StronglySorted lt (n0 :: ns).
Proof.
  intros Hu Hmin Hk Hi Ht Ho Hr.
  destruct (reach_steps cfg ap l id kamf kgnb n0 Hu s s' Hmin Hr) as (n & k & _ & [_ _ _ _ (ns & Hs & Hss & Hf)]).
  { exists n0, n0. split; [done|]. split; [done..|]. exists []. rewrite Ho. repeat constructor. }
  exists ns. split; [done|]. constructor; [done|]. eapply Forall_impl; [exact Hf|]. cbn. lia.
Qed.

(** ** A demonstration network: two gNBs, one UE with one session *)

Definition demo_kamf : bytes := replicate 32 1.
Definition demo_kgnb : bytes := replicate 32 2.
Definition demo_slice : SNSSAISubscribed := mkSNSSAISubscribed 1 "000001" "internet" false.
Definition demo_session : PDUSession :=
  mkPDUSession 5 "sm-1" "smf" demo_slice "internet" "IPV4" [1] [7; 7].

Definition demo_ue : UEContext :=
  let u := newUE 1 10 0 in
  mkUE "imsi-1" "" None 1 10 demo_kgnb (nh_chain demo_kamf demo_kgnb 0) 1 true CMConnected GMMRegistered
    (mkSecurityContext 0 2 2 demo_kamf [] [] 0 0 true) [] [demo_slice] [demo_slice] 0 0 {[5 := demo_session]} ∅ 0 0
    None None None "" 7 noAuth noSlices noPolicy false.

Definition demo_id : AMFIdentity := mkAMFIdentity "001" "01" 1 1 1.
Definition demo_cfg : N2Config := mkN2Config demo_id mainHooks None 0 0 30.
Definition demo_aper : NgapAper :=
  mkNgapAper (λ _, true) (λ _, true) (λ _, true) (λ _, true) (λ _, Some [(idULNGUUPTNLInformation, true)]) (λ _, None).

(** Every message is delivered and every SMF accepts. *)
Definition demo_smf (i : nat) (c : SMFCall) : Wait :=
  Answered (mkSMFResult 200 [9]
    (match c with
     | UpdatePathSwitch _ _ => n2InfoPathSwitchReqAck
     | PrepareHandoverRequired _ _ _ => n2InfoPDUResSetupReq
     | _ => n2InfoHandoverCmd
     end) "" None).
Definition demo_env : Env :=
  mkEnv (λ _, true) (λ _ _, true) demo_smf (λ _ l, l) (λ _ _, reflexivity _) 0 (λ u, u).

Definition demo_server : Server (gmap string UERecord) (Z * list bool) :=
  mkServer
    (mkManager {[1%positive := demo_ue]} {[1 := 1%positive]} {["imsi-1" := 1%positive]} ∅ 1 0 demo_id None None)
    {[1%positive := mkN2Fields "gnb-a" "001" "01" true []]}
    (<["gnb-a" := 1%positive]> {["gnb-b" := 2%positive]})
    (<[1%positive := mkGNB "gnb-a" [1] {[10 := 1%positive]} ∅]> {[2%positive := mkGNB "gnb-b" [2] ∅ ∅]})
    ∅ ∅ ∅ [].

Definition demo_path_switch : PathSwitchRequestMsg :=
  mkPathSwitchRequest 1 20 [mkSwitchItem 5 [3] []] None None [].

Definition demo_step (ev : Event) (s : Server (gmap string UERecord) (Z * list bool)) :=
  n2step demo_cfg demo_aper demo_env ev s.

(** A path switch towards gNB b, run to its end. *)
Definition demo_switched : Server (gmap string UERecord) (Z * list bool) :=
  demo_step (RunTask 1%positive) (demo_step (PathSwitch 2%positive demo_path_switch) demo_server).

Lemma handover_keys_fresh_witness :
  ∃ ns, keysSent 1 (sv_out demo_switched) = chainPair demo_kamf demo_kgnb <$> ns ∧ StronglySorted lt (0%nat :: ns).
Proof.
  apply (handover_keys_fresh demo_cfg demo_aper 1%positive 1 demo_kamf demo_kgnb 0 demo_server).
  - reflexivity.
  - lia.
  - exists demo_ue. split_and!; reflexivity.
  - split; [reflexivity|]. intros l'. vm_compute. congruence.
  - intros l' q t Hq. cbn in Hq. by rewrite lookup_empty in Hq.
  - reflexivity.
  - eapply rtc_l; [|eapply rtc_l; [|apply rtc_refl]]; exists demo_env.
    + exists (PathSwitch 2%positive demo_path_switch). split; [done|reflexivity].
    + exists (RunTask 1%positive). split; [|reflexivity]. intros _ u. apply same_keys_refl.
Defined.

(** * Path switch *)

Definition sentMsgs (out : list Effect) : list (gloc * NGAPMsg) :=
  omap (λ ef, match ef with Sent g m => Some (g, m) | _ => None end) out.

(** The encoder does not fail, and writes to the gNB succeed. *)
Definition delivers (e : Env) (g : gloc) : Prop := ∀ m, env_encodes e m = true ∧ env_writes e g (Some m) = true.

Definition answerPSIs (m : NGAPMsg) : list Z :=
  match m with
  | PathSwitchRequestAcknowledge p =>
      (sw_PDUSessionID <$> psa_Switched p) ++ (rl_PDUSessionID <$> psa_Released p)
  | PathSwitchRequestFailure _ _ rel => rl_PDUSessionID <$> rel
  | _ => []
  end.

(** An answer to PATH_SWITCH_REQ that accepts: 2xx, and not PATH_SWITCH_REQ_FAIL. *)
Definition pathAccepted (w : Wait) : bool :=
  let res := (callSMFBounded w).1 in smfOK res && negb (String.eqb (sr_N2SmInfoType res) n2InfoPathSwitchReqFail).

Lemma xnSwitchPSI_accepted ap psi w : xo_switched (xnSwitchPSI ap psi w) = pathAccepted w.
Proof.
  unfold xnSwitchPSI, pathAccepted. destruct (callSMFBounded w) as [res t]. cbn [fst]. case_match; [done|].
  by destruct (failCause res t).
Qed.

Lemma xnSwitchPSI_rel ap psi w : pathAccepted w = false → rl_PDUSessionID (xo_rel (xnSwitchPSI ap psi w)) = psi.
Proof.
  unfold xnSwitchPSI, pathAccepted. destruct (callSMFBounded w) as [res t]. cbn [fst]. intros ->.
  by destruct (failCause res t).
Qed.

(** ** The scans of the two lists *)

Lemma scanSwitched_snoc items it :
  scanSwitched (items ++ [it]) =
  let a := scanSwitched items in
  let id := sw_PDUSessionID it in
  if decide (id ∈ ss_seen a) then mkSwitchScan (ss_requested a) ({[id]} ∪ ss_duplicated a) (ss_seen a) (ss_transfers a)
  else mkSwitchScan (ss_requested a ++ [id]) (ss_duplicated a) ({[id]} ∪ ss_seen a)
         (<[id := sw_PathSwitchRequestTransfer it]> (ss_transfers a)).
Proof. unfold scanSwitched. by rewrite foldl_snoc. Qed.

Record scan_spec (items : list PDUSessionSwitchItem) (a : switchScan) : Prop := mkScanSpec {
  sc_nodup : NoDup (ss_requested a);
  sc_seen x : x ∈ ss_seen a ↔ x ∈ sw_PDUSessionID <$> items;
  sc_requested x : x ∈ ss_requested a ↔ x ∈ sw_PDUSessionID <$> items;
  sc_dup : ss_duplicated a = ∅ ↔ NoDup (sw_PDUSessionID <$> items);
  sc_same : NoDup (sw_PDUSessionID <$> items) → ss_requested a = sw_PDUSessionID <$> items;
  sc_transfer : NoDup (sw_PDUSessionID <$> items) →
    ∀ it, it ∈ items → ss_transfers a !! sw_PDUSessionID it = Some (sw_PathSwitchRequestTransfer it) }.

Lemma scanSwitched_spec items : scan_spec items (scanSwitched items).
Proof.
  induction items as [|it items [Hn Hs Hr Hd Hq Ht]] using rev_ind.
  { split; cbn; set_solver by constructor. }
  rewrite scanSwitched_snoc. cbn zeta. set (ids := sw_PDUSessionID <$> items) in *.
  assert (sw_PDUSessionID <$> (items ++ [it]) = ids ++ [sw_PDUSessionID it]) as Hids by by rewrite fmap_app.
  case_decide as Hin.
  - assert (¬ NoDup (ids ++ [sw_PDUSessionID it])) as Hnd.
    { intros (_ & Hx & _)%NoDup_app. apply (Hx (sw_PDUSessionID it)); [by apply Hs|set_solver]. }
    split; rewrite ?Hids; cbn [ss_requested ss_seen ss_duplicated ss_transfers]; [done|set_solver|set_solver| |done|done].
    split; [set_solver|done].
  - assert (sw_PDUSessionID it ∉ ids) as Hni by (by rewrite <- Hs).
    assert (NoDup (ids ++ [sw_PDUSessionID it]) ↔ NoDup ids) as Hiff.
    { rewrite NoDup_app. split; [tauto|]. intros. split_and!; [done| |apply NoDup_singleton]. set_solver. }
    split; rewrite ?Hids, ?Hiff; cbn [ss_requested ss_seen ss_duplicated ss_transfers].
    + apply NoDup_app. split_and!; [done|set_solver|apply NoDup_singleton].
    + set_solver.
    + set_solver.
    + done.
    + intros Hnd. by rewrite Hq.
    + intros Hnd it' [Hi|<-%list_elem_of_singleton]%elem_of_app; [|by rewrite lookup_insert_eq].
      rewrite lookup_insert_ne; [by apply Ht|]. intros Heq. apply Hni. rewrite Heq. unfold ids. set_solver.
Qed.

Lemma scanFailed_snoc seen dup items f :
  scanFailed seen dup (items ++ [f]) =
  let a := scanFailed seen dup items in
  let id := fs_PDUSessionID f in
  let again := bool_decide (id ∈ fs_failedSeen a) in
  let inSwitched := bool_decide (id ∈ seen) in
  let dups := if inSwitched || again then {[id]} ∪ fs_dups a else fs_dups a in
  if again then mkFailedScan (fs_failedOnly a) (fs_items a) (fs_failedSeen a) dups
  else mkFailedScan (if inSwitched then fs_failedOnly a else fs_failedOnly a ++ [id]) (fs_items a ++ [f])
         ({[id]} ∪ fs_failedSeen a) dups.
Proof. unfold scanFailed. by rewrite foldl_snoc. Qed.

Record failed_spec (seen dup : gset Z) (items : list PDUSessionFailedSetupItem) (a : failedScan) : Prop := mkFailedSpec {
  fc_seen x : x ∈ fs_failedSeen a ↔ x ∈ fs_PDUSessionID <$> items;
  fc_only_nodup : NoDup (fs_failedOnly a);
  fc_only x : x ∈ fs_failedOnly a → (x ∉ seen) ∧ x ∈ fs_PDUSessionID <$> items;
  fc_dups : fs_dups a = ∅ ↔ dup = ∅ ∧ NoDup (fs_PDUSessionID <$> items) ∧
                            (∀ x, x ∈ fs_PDUSessionID <$> items → (x ∉ seen)) }.

Lemma scanFailed_spec seen dup items : failed_spec seen dup items (scanFailed seen dup items).
Proof.
  induction items as [|f items [Hs Hn Ho Hd]] using rev_ind.
  { split; cbn; set_solver by constructor. }
  rewrite scanFailed_snoc. cbn zeta. set (ids := fs_PDUSessionID <$> items) in *. set (id := fs_PDUSessionID f).
  assert (fs_PDUSessionID <$> (items ++ [f]) = ids ++ [id]) as Hids by by rewrite fmap_app.
  set (a := scanFailed seen dup items) in *.
  assert (NoDup (ids ++ [id]) ↔ NoDup ids ∧ (id ∉ ids)) as Hnd.
  { rewrite NoDup_app. split; [intros (? & H & _); split; [done|set_solver]|].
    intros [??]. split_and!; [done|set_solver|apply NoDup_singleton]. }
  assert (({[id]} ∪ fs_dups a = ∅) ↔ False) as Hne by (split; [set_solver|done]).
  case_bool_decide as Hag; [rewrite orb_true_r|rewrite orb_false_r].
  - split; rewrite ?Hids; cbn [fs_failedSeen fs_failedOnly fs_dups]; [set_solver|done|set_solver|].
    rewrite Hne, Hnd. split; [done|]. intros (_ & [_ Hx] & _). by apply Hx, Hs.
  - assert (id ∉ ids) as Hni by (by rewrite <- Hs).
    case_bool_decide as Hin; split; rewrite ?Hids; cbn [fs_failedSeen fs_failedOnly fs_dups].
    + set_solver.
    + done.
    + set_solver.
    + rewrite Hne. split; [done|]. intros (_ & _ & Hx). apply (Hx id); [set_solver|done].
    + set_solver.
    + apply NoDup_app. split_and!; [done| |apply NoDup_singleton]. intros x Hx ->%list_elem_of_singleton.
      by apply Ho in Hx as [_ Hx].
    + set_solver.
    + rewrite Hd, Hnd. split; [intros (? & ? & ?); split_and!; [done|done|done|set_solver]|].
      intros (? & [? _] & Hx). split_and!; [done|done|set_solver].
Qed.

(** ** The partition of the requested sessions *)

Lemma omap_imap_zip {A B E} (f : nat → A → B) (h : A * B → option E) (xs : list A) :
  omap h (zip xs (imap f xs)) = omap (λ x, x) (imap (λ i x, h (x, f i x)) xs).
Proof.
  revert f. induction xs as [|x xs IH]; intros f; [done|]. cbn. rewrite (IH (f ∘ S)). by destruct (h (x, f 0%nat x)).
Qed.

Lemma fmap_omap_id {A B} (f : A → B) (xs : list (option A)) : f <$> omap (λ x, x) xs = omap (λ x, x) (fmap f <$> xs).
Proof. induction xs as [|[x|] xs IH]; cbn; [done|by f_equal|done]. Qed.

(** Two complementary selections of a list are a permutation of it. *)
Lemma pick_perm {A} (p : nat → A → bool) (xs : list A) :
  omap (λ x, x) (imap (λ i x, if p i x then Some x else None) xs) ++
  omap (λ x, x) (imap (λ i x, if p i x then None else Some x) xs) ≡ₚ xs.
Proof.
  revert p. induction xs as [|x xs IH]; intros p; [done|]. cbn. specialize (IH (λ i, p (S i))).
  unfold compose. destruct (p 0%nat x); cbn; [by rewrite IH|]. by rewrite <- Permutation_middle, IH.
Qed.

Section PathSwitchSpec.
Context {D C : Type} `{!Store D, !Cache C} (cfg : N2Config) (ap : NgapAper).
Context (Hhook : onPathSwitchPDUSession (cfg_hooks cfg) = true).
Implicit Types (s : Server D C) (e : Env) (g : gloc) (u : UEContext).

(** The SMF accepts the session at position [i] of the request, which the UE has. *)
Definition accepts e u (i : nat) (it : PDUSessionSwitchItem) : bool :=
  match smRefsOf u !! sw_PDUSessionID it with
  | Some ref => pathAccepted (env_smf e i (UpdatePathSwitch ref (sw_PathSwitchRequestTransfer it)))
  | None => false
  end.

Definition selected (p : nat → PDUSessionSwitchItem → bool) (items : list PDUSessionSwitchItem) : list Z :=
  omap (λ x, x) (imap (λ i it, if p i it then Some (sw_PDUSessionID it) else None) items).

Definition planOf u (items : list PDUSessionSwitchItem) (failed : list PDUSessionFailedSetupItem) : pathSwitchPlan :=
  let a := scanSwitched items in
  mkPlan (ss_requested a) (ss_transfers a) (smRefsOf u) (fs_items (scanFailed (ss_seen a) (ss_duplicated a) failed)).

Lemma xnOutcome_planOf e u items failed i it :
  NoDup (sw_PDUSessionID <$> items) → items !! i = Some it →
  xo_switched (xnOutcomeOf cfg ap e (planOf u items failed) i (sw_PDUSessionID it)) = accepts e u i it ∧
  (accepts e u i it = false →
   rl_PDUSessionID (xo_rel (xnOutcomeOf cfg ap e (planOf u items failed) i (sw_PDUSessionID it))) = sw_PDUSessionID it).
Proof.
  intros Hnd Hi. destruct (scanSwitched_spec items) as [_ _ _ _ _ Ht].
  specialize (Ht Hnd it ltac:(by eapply list_elem_of_lookup_2)).
  unfold xnOutcomeOf, accepts, planOf. cbn [pl_smRefs]. destruct (smRefsOf u !! sw_PDUSessionID it) as [ref|]; [|done].
  rewrite Hhook. unfold transferOf. cbn [pl_transfers]. rewrite Ht. cbn [default from_option id].
  rewrite xnSwitchPSI_accepted. split; [done|]. apply xnSwitchPSI_rel.
Qed.

Lemma xnSwitched_ids e u items failed :
  NoDup (sw_PDUSessionID <$> items) →
  sw_PDUSessionID <$> xnSwitched cfg ap e (planOf u items failed) = selected (accepts e u) items.
Proof.
  intros Hnd. destruct (scanSwitched_spec items) as [_ _ _ _ Hq _]. unfold xnSwitched.
  rewrite omap_imap_zip, fmap_omap_id. unfold selected. f_equal. cbn [planOf pl_requested]. rewrite (Hq Hnd).
  rewrite imap_fmap, fmap_imap. apply imap_ext. intros i it Hi. unfold compose. cbn [fst snd].
  destruct (xnOutcome_planOf e u items failed i it Hnd Hi) as [-> _]. by destruct (accepts e u i it).
Qed.

Lemma xnReleased_ids e u items failed :
  NoDup (sw_PDUSessionID <$> items) →
  rl_PDUSessionID <$> xnReleased cfg ap e (planOf u items failed) = selected (λ i it, negb (accepts e u i it)) items.
Proof.
  intros Hnd. destruct (scanSwitched_spec items) as [_ _ _ _ Hq _]. unfold xnReleased.
  rewrite omap_imap_zip, fmap_omap_id. unfold selected. f_equal. cbn [planOf pl_requested]. rewrite (Hq Hnd).
  rewrite imap_fmap, fmap_imap. apply imap_ext. intros i it Hi. unfold compose. cbn [fst snd].
  destruct (xnOutcome_planOf e u items failed i it Hnd Hi) as [-> Hrel].
  destruct (accepts e u i it); [done|]. cbn. by rewrite Hrel.
Qed.

Lemma selected_perm p items :
  selected p items ++ selected (λ i it, negb (p i it)) items ≡ₚ sw_PDUSessionID <$> items.
Proof.
  etransitivity; [|exact (fmap_Permutation sw_PDUSessionID _ _ (pick_perm p items))].
  rewrite fmap_app, !fmap_omap_id, !fmap_imap. unfold selected. apply reflexive_eq.
  f_equal; f_equal; apply imap_ext; intros i it _; unfold compose; by destruct (p i it).
Qed.

(** ** One answer *)

Lemma sent_emit s es : sentMsgs (sv_out (emit es s)) = sentMsgs (sv_out s) ++ sentMsgs es.
Proof. apply omap_app. Qed.
Lemma sent_calls cs : sentMsgs (Called <$> cs) = [].
Proof. induction cs as [|c cs IH]; [done|]. exact IH. Qed.

Lemma send_delivers e g m s : delivers e g → send e g (encode e m) s = (emit [Sent g m] s, true).
Proof. intros Hd. unfold encode, send, writeNGAP. destruct (Hd m) as [-> ->]. done. Qed.

Lemma rejectPathSwitch_sends e g req items s :
  delivers e g → items ≠ [] →
  rejectPathSwitch e g req items s =
    emit [Sent g (PathSwitchRequestFailure (psr_SourceAMFUENGAPId req) (psr_RANUENGAPId req) items)] s.
Proof.
  intros Hd Hi. unfold rejectPathSwitch, BuildPathSwitchRequestFailure. rewrite bool_decide_eq_false_2 by done.
  by rewrite send_delivers.
Qed.

Lemma sent_deactivate listed l s :
  sentMsgs (sv_out (deactivateUnlistedSessions cfg listed l s)) = sentMsgs (sv_out s).
Proof.
  unfold deactivateUnlistedSessions. case_match; [|done]. case_match; [|done]. rewrite sent_emit.
  assert (∀ xs, sentMsgs (omap (λ psi, Called ∘ DeactivateUP <$> smRefsOf u !! psi) xs) = []) as ->; [|by rewrite app_nil_r].
  induction xs as [|x xs IH]; [done|]. unfold sentMsgs in *. cbn. destruct (smRefsOf u !! x); exact IH.
Qed.

Lemma sent_rebind e g req l a r s : sentMsgs (sv_out (rebindUE e g req l a r s)) = sentMsgs (sv_out s).
Proof. unfold rebindUE, setTAI. by destruct (findSourceGNB e a s), (psr_TAI req). Qed.

(** The connection of the UE is with gNB [g], under the RAN's ID. *)
Definition bound_to s l g (ran : Z) (addr : string) : Prop :=
  n2_GNBAddr (n2_of s l) = addr ∧ (ue_RANUENGAPId <$> ue_of s l) = Some ran ∧
  (b ← sv_gnb s !! g; gnb_UEs b !! ran) = Some l.

Lemma addr_onGNB g g' f s : (∀ b, gnb_addr (f b) = gnb_addr b) → addr_of (onGNB g' f s) g = addr_of s g.
Proof.
  intros Hf. unfold addr_of, onGNB. cbn. destruct (decide (g' = g)) as [->|Hne]; [|by rewrite lookup_alter_ne].
  rewrite lookup_alter_eq. destruct (sv_gnb s !! g) as [b|]; [|done]. cbn. by rewrite Hf.
Qed.

Lemma bound_setTAI s l g ran addr t : bound_to s l g ran addr → bound_to (setTAI l t s) l g ran addr.
Proof.
  intros (Ha & Hr & Hb). destruct t as [t|]; [|done]. unfold bound_to, setTAI, n2_of, ue_of, onUE, onN2 in *. cbn.
  rewrite lookup_insert_eq, lookup_alter_eq. split_and!; [done| |done].
  destruct (ues (sv_mgr s) !! l); [done|done].
Qed.

Lemma bound_deactivate s l' l g ran addr listed :
  bound_to s l g ran addr → bound_to (deactivateUnlistedSessions cfg listed l' s) l g ran addr.
Proof. unfold deactivateUnlistedSessions. by repeat case_match. Qed.

Lemma rebind_bound e g req l a r u s :
  ue_of s l = Some u → is_Some (sv_gnb s !! g) →
  bound_to (rebindUE e g req l a r s) l g (psr_RANUENGAPId req) (addr_of s g).
Proof.
  intros Hu [b Hb]. unfold rebindUE. set (s1 := match _ with Some _ => _ | None => _ end).
  assert (addr_of s1 g = addr_of s g ∧ is_Some (sv_gnb s1 !! g) ∧ ue_of s1 l = Some u) as (Ha & [b1 Hb1] & Hu1).
  { unfold s1. destruct (findSourceGNB e a s) as [src|]; [|by eauto].
    rewrite addr_onGNB by done. split_and!; [done| |done]. unfold onGNB. cbn. rewrite lookup_alter_is_Some. by eauto. }
  apply bound_setTAI. rewrite <- Ha. unfold bound_to, n2_of, ue_of, onN2, onUE, onGNB in *. cbn.
  rewrite !lookup_insert_eq, !lookup_alter_eq, Hu1, Hb1. cbn. rewrite lookup_insert_eq. split_and!; [|done|done].
  unfold addr_of. cbn. by rewrite lookup_alter_eq, Hb1.
Qed.

Lemma allowedNSSAIItems_nonempty ns : ns ≠ [] → allowedNSSAIItems ns ≠ [].
Proof. destruct ns as [|n r]; [done|]. intros _. unfold allowedNSSAIItems. cbn. case_decide; [set_solver|done]. Qed.

(** What a path switch needs of the UE, beyond the answers of the SMFs. *)
Definition ready u : Prop :=
  NHChainUsableLocked u = true ∧ (resolveAllowedNSSAI (ue_AllowedNSSAI u) (ue_PDUSessions u)).1 ≠ [].

Lemma NextNH_usable u : NHChainUsableLocked u = true → ∃ u' nh ncc, NextNHLocked u = (u', Some (nh, ncc)).
Proof.
  unfold NHChainUsableLocked, NextNHLocked. intros [-> ->]%andb_true_iff. cbn [negb orb]. eauto.
Qed.

(** The task: an acknowledgement when a session is accepted, a failure otherwise. *)
Lemma completePathSwitch_answers e g l req plan u s :
  delivers e g → ue_of s l = Some u → is_Some (sv_gnb s !! g) → ready u →
  let s' := completePathSwitch cfg ap e l g req plan s in
  if decide (xnSwitched cfg ap e plan = []) then
    xnReleased cfg ap e plan ≠ [] →
    sentMsgs (sv_out s') = sentMsgs (sv_out s) ++
      [(g, PathSwitchRequestFailure (psr_SourceAMFUENGAPId req) (psr_RANUENGAPId req) (xnReleased cfg ap e plan))] ∧
    sv_mgr s' = sv_mgr s ∧ sv_n2 s' = sv_n2 s ∧ sv_gnb s' = sv_gnb s
  else ∃ p u', sentMsgs (sv_out s') = sentMsgs (sv_out s) ++ [(g, PathSwitchRequestAcknowledge p)] ∧
    psa_Switched p = xnSwitched cfg ap e plan ∧ psa_Released p = xnReleased cfg ap e plan ∧
    psa_AMFUENGAPId p = psr_SourceAMFUENGAPId req ∧ psa_RANUENGAPId p = psr_RANUENGAPId req ∧
    NextNHLocked u = (u', Some (psa_NH p, psa_NCC p)) ∧
    bound_to s' l g (psr_RANUENGAPId req) (addr_of s g).
Proof.
  intros Hd Hu Hg [Hch Hal]. unfold completePathSwitch. cbn zeta. set (s1 := emit (Called <$> _) s).
  assert (sentMsgs (sv_out s1) = sentMsgs (sv_out s)) as Hs1.
  { unfold s1. by rewrite sent_emit, sent_calls, app_nil_r. }
  destruct (decide (xnSwitched cfg ap e plan = [])) as [He|He].
  - intros Hrel. rewrite rejectPathSwitch_sends by done. rewrite sent_emit, Hs1. done.
  - change (ue_of s1 l) with (ue_of s l). rewrite Hu.
    destruct (NextNH_usable u Hch) as (u' & nh & ncc & En). rewrite En.
    destruct (decide (_ = [])) as [Hc|_]; [by rewrite Hc in Hal|].
    set (s2 := onUE l (λ _, u') s1).
    unfold BuildPathSwitchRequestAcknowledge. cbn [psa_Switched psa_AllowedNSSAI].
    rewrite bool_decide_eq_false_2 by done.
    rewrite bool_decide_eq_false_2 by (by apply allowedNSSAIItems_nonempty). cbn [orb].
    rewrite send_delivers by done. eexists _, u'. split.
    { rewrite sent_deactivate, sent_rebind, sent_emit. change (sv_out s2) with (sv_out s1). by rewrite Hs1. }
    cbn [psa_Switched psa_Released psa_AMFUENGAPId psa_RANUENGAPId psa_NH psa_NCC]. split_and!; [done..|].
    apply bound_deactivate. change (addr_of s g) with (addr_of (emit [Sent g (PathSwitchRequestAcknowledge
      (mkPathSwitchAck (psr_SourceAMFUENGAPId req) (psr_RANUENGAPId req) (secCapEcho (psr_UESecCap req) (ueSecCapBitmaps u))
      ncc nh (xnSwitched cfg ap e plan) (xnReleased cfg ap e plan)
      (allowedNSSAIItems (resolveAllowedNSSAI (ue_AllowedNSSAI u) (ue_PDUSessions u)).1)))] s2) g).
    eapply (rebind_bound _ _ _ _ _ _ u'); [|exact Hg].
    unfold ue_of, s2, onUE, s1. cbn. rewrite lookup_alter_eq. unfold ue_of in Hu. by rewrite Hu.
Qed.

Lemma runTask_only e l g req plan s :
  sv_queue s !! l = Some [CompletePathSwitch g req plan] →
  sv_out (runTask cfg ap e l s) = sv_out (completePathSwitch cfg ap e l g req plan s) ∧
  sv_gnb (runTask cfg ap e l s) = sv_gnb (completePathSwitch cfg ap e l g req plan s) ∧
  sv_n2 (runTask cfg ap e l s) = sv_n2 (completePathSwitch cfg ap e l g req plan s) ∧
  sv_mgr (runTask cfg ap e l s) = sv_mgr (completePathSwitch cfg ap e l g req plan s).
Proof.
  intros Hq. unfold runTask. rewrite Hq. cbn [segment]. unfold setHead. by repeat case_match.
Qed.

(** ** The whole exchange *)

(** No session is named twice. *)
Definition nodup_request (req : PathSwitchRequestMsg) : Prop :=
  NoDup ((sw_PDUSessionID <$> psr_PDUSessions req) ++ (fs_PDUSessionID <$> psr_FailedToSetup req)).

(** What an acknowledgement says and does; the other answer is a failure that
    leaves the UE where it is. *)
Definition switched_as e u l g (req : PathSwitchRequestMsg) (p : PathSwitchAckParams) s s' : Prop :=
  nodup_request req ∧ ready u ∧
  selected (accepts e u) (psr_PDUSessions req) ≠ [] ∧
  (sw_PDUSessionID <$> psa_Switched p) = selected (accepts e u) (psr_PDUSessions req) ∧
  (rl_PDUSessionID <$> psa_Released p) = selected (λ i it, negb (accepts e u i it)) (psr_PDUSessions req) ∧
  (NextNHLocked u).2 = Some (psa_NH p, psa_NCC p) ∧
  bound_to s' l g (psr_RANUENGAPId req) (addr_of s g).

Definition refused u e (req : PathSwitchRequestMsg) s s' : Prop :=
  ¬ (nodup_request req ∧ ready u ∧ selected (accepts e u) (psr_PDUSessions req) ≠ []) ∧
  sv_mgr s' = sv_mgr s ∧ sv_n2 s' = sv_n2 s ∧ sv_gnb s' = sv_gnb s.

Definition path_answer e u l g (req : PathSwitchRequestMsg) (m : NGAPMsg) s s' : Prop :=
  NoDup (answerPSIs m) ∧ (∀ psi, psi ∈ sw_PDUSessionID <$> psr_PDUSessions req → psi ∈ answerPSIs m) ∧
  match m with
  | PathSwitchRequestAcknowledge p => switched_as e u l g req p s s'
  | PathSwitchRequestFailure _ _ _ => refused u e req s s'
  | _ => False
  end.

Lemma selected_nil p items : (∀ i it, items !! i = Some it → p i it = false) → selected p items = [].
Proof.
  unfold selected. revert p. induction items as [|it items IH]; intros p Hp; [done|]. cbn.
  rewrite (Hp 0%nat it eq_refl). apply (IH (λ i, p (S i))). intros i it' Hi. by apply Hp.
Qed.

Lemma runTask_idle e l s : default [] (sv_queue s !! l) = [] → runTask cfg ap e l s = s.
Proof. unfold runTask. destruct (sv_queue s !! l) as [[|t q]|]; [done|done|done]. Qed.

Lemma refused_answer e1 e2 u l g req items s :
  delivers e1 g → default [] (sv_queue s !! l) = [] → items ≠ [] →
  NoDup (rl_PDUSessionID <$> items) →
  (∀ psi, psi ∈ sw_PDUSessionID <$> psr_PDUSessions req → psi ∈ rl_PDUSessionID <$> items) →
  ¬ (nodup_request req ∧ ready u ∧ selected (accepts e2 u) (psr_PDUSessions req) ≠ []) →
  let s' := runTask cfg ap e2 l (rejectPathSwitch e1 g req items s) in
  ∃ m, sentMsgs (sv_out s') = sentMsgs (sv_out s) ++ [(g, m)] ∧ path_answer e2 u l g req m s s'.
Proof.
  intros Hd Hq Hi Hn Hc Hno. cbn zeta. rewrite rejectPathSwitch_sends, runTask_idle by done.
  eexists. split; [by rewrite sent_emit|]. split_and!; [done|done|]. by split.
Qed.

Lemma psi_misc (ids : list Z) : rl_PDUSessionID <$> (relMisc <$> ids) = ids.
Proof. rewrite <- list_fmap_compose. by apply list_fmap_id. Qed.
Lemma psi_radio v (ids : list Z) : rl_PDUSessionID <$> (relRadio v <$> ids) = ids.
Proof. rewrite <- list_fmap_compose. by apply list_fmap_id. Qed.

Lemma psi_dup (dup : gset Z) (ids : list Z) :
  rl_PDUSessionID <$> ((λ id, if decide (id ∈ dup) then relRadio causeMultiplePDUSessionIDInstances id else relMisc id) <$> ids) = ids.
Proof. induction ids as [|x ids IH]; [done|]. cbn in *. rewrite IH. by case_decide. Qed.

Lemma fmap_nonempty {A B} (f : A → B) (xs : list A) : xs ≠ [] → f <$> xs ≠ [].
Proof. by destruct xs. Qed.

(** No duplicate is what the two scans find. *)
Lemma scans_nodup req :
  let a := scanSwitched (psr_PDUSessions req) in
  fs_dups (scanFailed (ss_seen a) (ss_duplicated a) (psr_FailedToSetup req)) = ∅ ↔
  NoDup ((sw_PDUSessionID <$> psr_PDUSessions req) ++ (fs_PDUSessionID <$> psr_FailedToSetup req)).
Proof.
  cbn zeta. destruct (scanSwitched_spec (psr_PDUSessions req)) as [_ Hs _ Hd _ _].
  destruct (scanFailed_spec (ss_seen (scanSwitched (psr_PDUSessions req))) (ss_duplicated (scanSwitched (psr_PDUSessions req)))
    (psr_FailedToSetup req)) as [_ _ _ Hf]. rewrite Hf, Hd, NoDup_app. setoid_rewrite Hs. naive_solver.
Qed.

(** The answer to a request that names a session twice. *)
Lemma duplicate_psis req :
  let a := scanSwitched (psr_PDUSessions req) in
  let f := scanFailed (ss_seen a) (ss_duplicated a) (psr_FailedToSetup req) in
  NoDup (ss_requested a ++ filter (λ id, id ∈ fs_dups f) (fs_failedOnly f)).
Proof.
  cbn zeta. destruct (scanSwitched_spec (psr_PDUSessions req)) as [Hn Hs Hr _ _ _].
  destruct (scanFailed_spec (ss_seen (scanSwitched (psr_PDUSessions req))) (ss_duplicated (scanSwitched (psr_PDUSessions req)))
    (psr_FailedToSetup req)) as [_ Hfn Hfo _].
  apply NoDup_app. split_and!; [done| |by apply NoDup_filter]. intros x Hx [_ Hx2]%list_elem_of_filter.
  apply Hfo in Hx2 as [Hx2 _]. apply Hx2, Hs, Hr, Hx.
Qed.

Lemma requested_covers req psi :
  psi ∈ sw_PDUSessionID <$> psr_PDUSessions req → psi ∈ ss_requested (scanSwitched (psr_PDUSessions req)).
Proof. apply (sc_requested _ _ (scanSwitched_spec _)). Qed.

Lemma requested_nonempty req :
  psr_PDUSessions req ≠ [] → ss_requested (scanSwitched (psr_PDUSessions req)) ≠ [].
Proof.
  intros Hne He. destruct (psr_PDUSessions req) as [|it r] eqn:E; [done|].
  pose proof (requested_covers req (sw_PDUSessionID it)) as H. rewrite E, He in H. set_solver.
Qed.

Lemma filter_keeps {A} (P : A → Prop) `{!∀ x, Decision (P x)} (xs : list A) : (∀ x, x ∈ xs → P x) → filter P xs = xs.
Proof.
  induction xs as [|x xs IH]; intros Hp; [done|]. rewrite filter_cons_True by (apply Hp; left). f_equal.
  apply IH. intros y Hy. apply Hp. by right.
Qed.

(** No session the UE has: no SMF is asked. *)
Lemma unknown_sessions e u req :
  let ids := ss_requested (scanSwitched (psr_PDUSessions req)) in
  filter (λ id, is_Some (smRefsOf u !! id)) ids = [] →
  filter (λ id, smRefsOf u !! id = None) ids = ids ∧ selected (accepts e u) (psr_PDUSessions req) = [].
Proof.
  intros ids Hk. assert (∀ x, x ∈ ids → smRefsOf u !! x = None) as Hn.
  { intros x Hx. apply eq_None_not_Some. intros Hs. eapply elem_of_nil. rewrite <- Hk. by apply list_elem_of_filter. }
  split; [by apply filter_keeps|]. apply selected_nil. intros i it Hi. unfold accepts.
  rewrite Hn; [done|]. apply requested_covers, list_elem_of_fmap_2. by eapply list_elem_of_lookup_2.
Qed.

(** The inline part: refused, or left to the queue. *)
Lemma handlePathSwitchRequest_cases e1 e2 g l u req s :
  psr_PDUSessions req ≠ [] → GetByNGAPId (sv_mgr s) (psr_SourceAMFUENGAPId req) = Some l → ue_of s l = Some u →
  (∃ items, handlePathSwitchRequest e1 g req s = rejectPathSwitch e1 g req items s ∧ items ≠ [] ∧
     NoDup (rl_PDUSessionID <$> items) ∧
     (∀ psi, psi ∈ sw_PDUSessionID <$> psr_PDUSessions req → psi ∈ rl_PDUSessionID <$> items) ∧
     ¬ (nodup_request req ∧ ready u ∧ selected (accepts e2 u) (psr_PDUSessions req) ≠ [])) ∨
  (nodup_request req ∧ ready u ∧
   handlePathSwitchRequest e1 g req s =
     EnqueueTask l (CompletePathSwitch g req (planOf u (psr_PDUSessions req) (psr_FailedToSetup req))) s).
Proof.
  intros Hne Hid Hu. unfold handlePathSwitchRequest. cbn zeta. rewrite Hid, Hu.
  pose proof (sc_nodup _ _ (scanSwitched_spec (psr_PDUSessions req))) as Hn.
  pose proof (scans_nodup req) as Hsn. pose proof (duplicate_psis req) as Hdp. cbn zeta in Hsn, Hdp.
  pose proof (requested_nonempty req Hne) as Hr. pose proof (requested_covers req) as Hcov.
  pose proof (unknown_sessions e2 u req) as Hunk. cbn zeta in Hunk.
  set (ids := ss_requested _) in *. set (f := scanFailed _ _ _) in *.
  case_decide as Hdup.
  { left. eexists. split; [done|]. rewrite psi_dup. split_and!; [by destruct ids|done|set_solver|].
    intros (Hnd & _ & _). by apply Hsn in Hnd. }
  apply Hsn in Hdup.
  case_decide as Hkn.
  { destruct (Hunk Hkn) as [-> Hsel]. left. eexists. split; [done|]. rewrite psi_radio.
    split_and!; [by destruct ids|done|done|]. by intros (_ & _ & ?). }
  destruct (NHChainUsableLocked u) eqn:Hch; cbn [negb].
  2: { left. eexists. split; [done|]. rewrite psi_misc. split_and!; [by destruct ids|done|done|].
       intros (_ & [? _] & _). congruence. }
  case_decide as Hal; [|by right].
  left. eexists. split; [done|]. rewrite psi_misc. split_and!; [by destruct ids|done|done|]. by intros (_ & [_ ?] & _).
Qed.

(** The task, run for a plan without duplicates. *)
Lemma completed_answer e g l u req s s' :
  let plan := planOf u (psr_PDUSessions req) (psr_FailedToSetup req) in
  delivers e g → psr_PDUSessions req ≠ [] → ue_of s l = Some u → is_Some (sv_gnb s !! g) → nodup_request req → ready u →
  sv_out s' = sv_out (completePathSwitch cfg ap e l g req plan s) →
  sv_gnb s' = sv_gnb (completePathSwitch cfg ap e l g req plan s) →
  sv_n2 s' = sv_n2 (completePathSwitch cfg ap e l g req plan s) →
  sv_mgr s' = sv_mgr (completePathSwitch cfg ap e l g req plan s) →
  ∃ m, sentMsgs (sv_out s') = sentMsgs (sv_out s) ++ [(g, m)] ∧ path_answer e u l g req m s s'.
Proof.
  intros plan Hd Hne Hu Hg Hnd Hrd Ho Hb Hn2 Hm. pose proof Hnd as (Hnd1 & _ & _)%NoDup_app.
  pose proof (completePathSwitch_answers e g l req plan u s Hd Hu Hg Hrd) as Hans. cbn zeta in Hans.
  pose proof (xnSwitched_ids e u _ (psr_FailedToSetup req) Hnd1) as Hsw.
  pose proof (xnReleased_ids e u _ (psr_FailedToSetup req) Hnd1) as Hre. fold plan in Hsw, Hre.
  pose proof (selected_perm (accepts e u) (psr_PDUSessions req)) as Hperm. rewrite Ho. case_decide as Hemp.
  - rewrite Hemp in Hsw. cbn in Hsw. rewrite <- Hsw in Hperm. cbn in Hperm. rewrite <- Hre in Hperm.
    destruct Hans as (Hs & Hm2 & Hn3 & Hg2).
    { intros He. rewrite He in Hperm. apply Permutation_nil_l in Hperm. symmetry in Hperm. by apply fmap_nil_inv in Hperm. }
    eexists. split; [exact Hs|]. split_and!; cbn [answerPSIs].
    + by rewrite Hperm.
    + intros psi. by rewrite Hperm.
    + split; [intros (_ & _ & Hx); by rewrite <- Hsw in Hx|]. by rewrite Hb, Hn2, Hm.
  - destruct Hans as (p & u' & Hs & H1 & H2 & _ & _ & H5 & H6). eexists. split; [exact Hs|].
    split_and!; cbn [answerPSIs]; rewrite ?H1, ?H2, ?Hsw, ?Hre.
    + by rewrite Hperm.
    + intros psi. by rewrite Hperm.
    + unfold switched_as. rewrite H1, H2, Hsw, Hre, H5. split_and!; [done|done| |done|done|done|].
      * rewrite <- Hsw. by apply fmap_nonempty.
      * destruct H6 as (Ha & Hr6 & Hb6); unfold bound_to, n2_of, ue_of in *; by rewrite ?Hb, ?Hn2, ?Hm.
Qed.
End PathSwitchSpec.

(** C26: a PATH SWITCH REQUEST for a known UE is answered once
    ([handlePathSwitchRequest], [completePathSwitch]).  With the hook to the SMFs
    configured, when the UE's queue is idle, every message to the asking gNB is encoded and
    delivered, and the task of the request runs before anything else happens, exactly one
    message is sent, to that gNB; it names every session of the list of sessions to be
    switched, none twice.  It is an acknowledgement exactly when no session is named twice in
    the two lists, the key chain is usable, there is an Allowed NSSAI and an SMF accepts a
    session: then it lists as switched the sessions of the UE whose SMF accepted, as
    released the others, it carries the next pair of the key chain, and the UE is
    bound to the asking gNB.  Otherwise it is a failure and neither the UE, nor
    its keys, nor the bindings of any gNB change. *)
Theorem path_switch_answered {D C : Type} `{!Store D, !Cache C} (cfg : N2Config) (ap : NgapAper) (e1 e2 : Env)
    (s : Server D C) (l : loc) (g : gloc) (u : UEContext) (req : PathSwitchRequestMsg) :
  onPathSwitchPDUSession (cfg_hooks cfg) = true → delivers e1 g → delivers e2 g → psr_PDUSessions req ≠ [] →
  GetByNGAPId (sv_mgr s) (psr_SourceAMFUENGAPId req) = Some l → ue_of s l = Some u → is_Some (sv_gnb s !! g) →
  default [] (sv_queue s !! l) = [] →
  let s' := n2step cfg ap e2 (RunTask l) (n2step cfg ap e1 (PathSwitch g req) s) in
  ∃ m, sentMsgs (sv_out s') = sentMsgs (sv_out s) ++ [(g, m)] ∧ path_answer e2 u l g req m s s'.
Proof.
  intros Hh Hd1 Hd2 Hne Hid Hu Hg Hq. cbn [n2step].
  destruct (handlePathSwitchRequest_cases cfg Hh e1 e2 g l u req s Hne Hid Hu) as [(items & -> & ? & ? & ? & ?)|(Hnd & Hrd & ->)].
  - by apply refused_answer.
  - destruct (runTask_only cfg ap e2 l g req (planOf u (psr_PDUSessions req) (psr_FailedToSetup req))
      (EnqueueTask l (CompletePathSwitch g req (planOf u (psr_PDUSessions req) (psr_FailedToSetup req))) s))
      as (Ho & Hb & Hn2 & Hm).
    { unfold EnqueueTask. cbn. by rewrite lookup_insert_eq, Hq. }
    eapply (completed_answer cfg ap Hh e2 g l u req (EnqueueTask l _ s)); done.
Qed.

Lemma path_switch_answered_witness :
  let s' := n2step demo_cfg demo_aper demo_env (RunTask 1%positive)
              (n2step demo_cfg demo_aper demo_env (PathSwitch 2%positive demo_path_switch) demo_server) in
  ∃ m, sentMsgs (sv_out s') = sentMsgs (sv_out demo_server) ++ [(2%positive, m)] ∧
    path_answer demo_env demo_ue 1%positive 2%positive demo_path_switch m demo_server s'.
Proof.
  apply path_switch_answered; [reflexivity|done|done|done|reflexivity|reflexivity|by eexists|reflexivity].
Defined.
