(* ===== verification/AmfN2Run.v ===== *)
(** An N2 handover from beginning to end, and one that is prepared and not
    executed: runs of [AmfHandover] and [AmfN2] in which the messages are
    delivered, for any answers of the SMFs. *)
From S2P Require Import Prelude NasReader NasCodec GoCrypto CryptoNas CryptoAka AmfContext AmfN2 AmfHandover AmfN2Spec.

#[local] Opaque nh_chain KNH.

(** * The lists of HANDOVER COMMAND *)

Lemma addReleases_spec taken rs :
  NoDup (re_PDUSessionID <$> addReleases taken rs) ∧
  (∀ x, x ∈ re_PDUSessionID <$> addReleases taken rs → (x ∉ taken) ∧ x ∈ re_PDUSessionID <$> rs) ∧
  (∀ x, x ∈ re_PDUSessionID <$> rs → x ∈ taken ∨ x ∈ re_PDUSessionID <$> addReleases taken rs).
Proof.
  revert taken. induction rs as [|r rs IH]; intros taken; cbn; [split_and!; [constructor|set_solver|set_solver]|].
  case_decide as Hin.
  - destruct (IH taken) as (Hn & Hs & Hc). split_and!; [done|set_solver|set_solver].
  - destruct (IH ({[re_PDUSessionID r]} ∪ taken)) as (Hn & Hs & Hc). cbn. split_and!.
    + constructor; [|done]. intros Hx. apply Hs in Hx as [Hx _]. set_solver.
    + intros x [->|Hx]%elem_of_cons; [set_solver|]. apply Hs in Hx. set_solver.
    + intros x [->|Hx]%elem_of_cons; [set_solver|]. apply Hc in Hx. set_solver.
Qed.

Section Command.
Context (cfg : N2Config) (ap : NgapAper).
Implicit Types (e : Env) (ack : HandoverRequestAckMsg) (refs : gmap Z string).

Lemma n2PrepareSMF_psi psi w r : n2PrepareSMF ap psi w = inr r → re_PDUSessionID r = psi.
Proof.
  unfold n2PrepareSMF, n2RejectedRelease. destruct (callSMFBounded w) as [res t]. case_match; [done|].
  destruct (failCause res t). by intros [= <-].
Qed.

Lemma admOutcome_psi e refs i a r : admOutcome cfg ap e refs i a = inr r → re_PDUSessionID r = ad_PDUSessionID a.
Proof.
  unfold admOutcome. case_match; [|done]. case_match; [apply n2PrepareSMF_psi|]. by intros [= <-].
Qed.

Lemma failedRelease_psi e n refs i f : re_PDUSessionID (failedRelease cfg ap e n refs i f) = fl_PDUSessionID f.
Proof.
  unfold failedRelease. cbn zeta. case_match; [done|]. destruct (hoResAllocFailCause ap (fl_Transfer f)) as [[]|]; done.
Qed.

(** An SMF accepts the admitted session at position [i]. *)
Definition admitted_ok e refs (i : nat) (a : PDUSessionHOAdmittedItem) : bool :=
  match admOutcome cfg ap e refs i a with inl _ => true | inr _ => false end.

Definition selectAdmitted e refs (as_ : list PDUSessionHOAdmittedItem) : list Z :=
  omap (λ x, x) (imap (λ i a, if admitted_ok e refs i a then Some (ad_PDUSessionID a) else None) as_).

Lemma cmdHandled_ids e ack refs :
  hc_PDUSessionID <$> cmdHandled cfg ap e ack refs = selectAdmitted e refs (hra_AdmittedSessions ack).
Proof.
  unfold cmdHandled, admOutcomes, selectAdmitted. rewrite omap_imap_zip, fmap_omap_id, fmap_imap. f_equal.
  apply imap_ext. intros i a _. unfold compose, admitted_ok. cbn [fst snd]. by destruct (admOutcome cfg ap e refs i a).
Qed.

Lemma cmdAccepted_ids e ack refs :
  ad_PDUSessionID <$> cmdAccepted cfg ap e ack refs = selectAdmitted e refs (hra_AdmittedSessions ack).
Proof.
  unfold cmdAccepted, admOutcomes, selectAdmitted. rewrite omap_imap_zip, fmap_omap_id, fmap_imap. f_equal.
  apply imap_ext. intros i a _. unfold compose, admitted_ok. cbn [fst snd]. by destruct (admOutcome cfg ap e refs i a).
Qed.

Lemma cmdRejected_ids e ack refs :
  re_PDUSessionID <$> cmdRejected cfg ap e ack refs =
  omap (λ x, x) (imap (λ i a, if admitted_ok e refs i a then None else Some (ad_PDUSessionID a)) (hra_AdmittedSessions ack)).
Proof.
  unfold cmdRejected, admOutcomes. rewrite omap_imap_zip, fmap_omap_id, fmap_imap. f_equal.
  apply imap_ext. intros i a _. unfold compose, admitted_ok. cbn [fst snd].
  destruct (admOutcome cfg ap e refs i a) as [|r] eqn:E; [done|]. cbn. f_equal. by eapply admOutcome_psi.
Qed.

Lemma admitted_split e refs as_ x :
  x ∈ ad_PDUSessionID <$> as_ →
  x ∈ selectAdmitted e refs as_ ∨
  x ∈ omap (λ x, x) (imap (λ i a, if admitted_ok e refs i a then None else Some (ad_PDUSessionID a)) as_).
Proof.
  intros Hx. apply elem_of_app. unfold selectAdmitted.
  pose proof (fmap_Permutation ad_PDUSessionID _ _ (pick_perm (admitted_ok e refs) as_)) as Hp.
  rewrite fmap_app, !fmap_omap_id, !fmap_imap in Hp. rewrite <- Hp in Hx.
  replace (imap (λ i a, if admitted_ok e refs i a then Some (ad_PDUSessionID a) else None) as_)
    with (imap (λ i a, ((λ x, fmap ad_PDUSessionID x) ∘ (λ a, if admitted_ok e refs i a then Some a else None)) a) as_)
    by (apply imap_ext; intros i a _; unfold compose; by destruct (admitted_ok e refs i a)).
  replace (imap (λ i a, if admitted_ok e refs i a then None else Some (ad_PDUSessionID a)) as_)
    with (imap (λ i a, ((λ x, fmap ad_PDUSessionID x) ∘ (λ a, if admitted_ok e refs i a then None else Some a)) a) as_)
    by (apply imap_ext; intros i a _; unfold compose; by destruct (admitted_ok e refs i a)).
  exact Hx.
Qed.

(** The two lists of the command: each session that the target admitted or
    failed, or that was rejected before, is in exactly one of them. *)
Definition command_lists (handled : list PDUSessionHOCmdItem) (toRelease prepReleased : list PDUSessionHOReleaseItem)
    e ack refs : Prop :=
  (hc_PDUSessionID <$> handled) = selectAdmitted e refs (hra_AdmittedSessions ack) ∧
  NoDup (re_PDUSessionID <$> toRelease) ∧
  (∀ psi, psi ∈ re_PDUSessionID <$> toRelease → (psi ∉ hc_PDUSessionID <$> handled)) ∧
  (∀ psi, psi ∈ (ad_PDUSessionID <$> hra_AdmittedSessions ack) ++ (fl_PDUSessionID <$> hra_FailedSessions ack) ++
                (re_PDUSessionID <$> prepReleased) ↔
          psi ∈ hc_PDUSessionID <$> handled ∨ psi ∈ re_PDUSessionID <$> toRelease).

Lemma selectAdmitted_sub e refs as_ x : x ∈ selectAdmitted e refs as_ → x ∈ ad_PDUSessionID <$> as_.
Proof.
  unfold selectAdmitted. rewrite list_elem_of_omap. intros ([y|] & Hy & [= <-]). apply elem_of_lookup_imap in Hy as (i & a & Hy & Ha).
  destruct (admitted_ok e refs i a); [|done]. injection Hy as ->. apply list_elem_of_fmap_2. by eapply list_elem_of_lookup_2.
Qed.

Lemma failedReleases_ids e n ack refs :
  re_PDUSessionID <$> imap (failedRelease cfg ap e n refs) (hra_FailedSessions ack) = fl_PDUSessionID <$> hra_FailedSessions ack.
Proof.
  rewrite fmap_imap. transitivity (imap (λ _, fl_PDUSessionID) (hra_FailedSessions ack)).
  - apply imap_ext. intros i f _. apply failedRelease_psi.
  - apply (imap_const fl_PDUSessionID).
Qed.

Lemma command_lists_hold e ack refs prepReleased :
  command_lists (cmdHandled cfg ap e ack refs) (cmdToRelease cfg ap e ack refs prepReleased) prepReleased e ack refs.
Proof.
  unfold command_lists. rewrite cmdHandled_ids. unfold cmdToRelease. rewrite cmdHandled_ids.
  set (H := selectAdmitted e refs _).
  destruct (addReleases_spec (list_to_set H) (cmdRejected cfg ap e ack refs ++
    imap (failedRelease cfg ap e (length (hra_AdmittedSessions ack)) refs) (hra_FailedSessions ack) ++ prepReleased))
    as (Hn & Hs & Hc). rewrite !fmap_app, failedReleases_ids, cmdRejected_ids in *. set (R := addReleases _ _) in *.
  split_and!; [done|done|intros psi Hp; apply Hs in Hp as [Hp _]; by rewrite elem_of_list_to_set in Hp|].
  intros psi. rewrite !elem_of_app. split.
  - intros [Ha|Hx].
    + apply (admitted_split e refs) in Ha as [Ha|Ha]; [by left|]. specialize (Hc psi). set_solver.
    + specialize (Hc psi). set_solver.
  - intros [Ha|Hx]; [left; by eapply selectAdmitted_sub|]. apply Hs in Hx as [_ Hx]. rewrite !elem_of_app in Hx.
    destruct Hx as [Hx|Hx]; [|tauto]. left. rewrite list_elem_of_omap in Hx. destruct Hx as ([y|] & Hy & [= <-]).
    apply elem_of_lookup_imap in Hy as (i & a & Hy & Ha). destruct (admitted_ok e refs i a); [done|]. injection Hy as ->.
    apply list_elem_of_fmap_2. by eapply list_elem_of_lookup_2.
Qed.
End Command.

(** * The run *)

Section Run.
Context {D C : Type} `{!Store D, !Cache C} (cfg : N2Config) (ap : NgapAper).
Context (Hmain : cfg_hooks cfg = mainHooks).
Context (l : loc) (id : Z) (g t : gloc).
Implicit Types (s : Server D C) (e : Env) (u : UEContext) (h : hloc) (st : n2HandoverState).

(** Where a run that started in [s0] is: the UE has context [u], its queue is [q],
    [ms] have been sent; bindings are as they were. *)
Record phase s0 s (q : list Task) u (ms : list (gloc * NGAPMsg)) : Prop := mkPhase {
  ph_n2 : sv_n2 s = sv_n2 s0;
  ph_gnbs : sv_gnbs s = sv_gnbs s0;
  ph_gnb : sv_gnb s = sv_gnb s0;
  ph_id : GetByNGAPId (sv_mgr s) id = Some l;
  ph_ue : ue_of s l = Some u;
  ph_queue : default [] (sv_queue s !! l) = q;
  ph_sent : sentMsgs (sv_out s) = sentMsgs (sv_out s0) ++ ms }.

Definition pending_at s h st : Prop := sv_pendingN2HO s !! id = Some h ∧ sv_ho s !! h = Some st.

Lemma phase_emit_calls s0 s q u ms cs : phase s0 s q u ms → phase s0 (emit (Called <$> cs) s) q u ms.
Proof. intros []. split; [done..|]. by rewrite sent_emit, sent_calls, app_nil_r. Qed.

Lemma phase_enqueue s0 s q u ms t' : phase s0 s q u ms → phase s0 (EnqueueTask l t' s) (q ++ [t']) u ms.
Proof. intros []. split; try done. cbn. rewrite lookup_insert_eq. cbn. congruence. Qed.

Lemma phase_setHead s0 s t0 rest u ms :
  phase s0 s [t0] u ms → phase s0 (setHead l rest s) (option_list rest) u ms.
Proof.
  intros [? ? ? ? ? Hq ?]. unfold setHead. destruct (sv_queue s !! l) as [q|]; cbn in Hq; [|done]. rewrite Hq.
  split; try done. cbn. rewrite lookup_insert_eq. by destruct rest.
Qed.

Lemma runTask_head e s0 s t0 u ms :
  phase s0 s [t0] u ms → runTask cfg ap e l s = let '(s, rest) := segment cfg ap e l t0 s in setHead l rest s.
Proof. intros Hp. pose proof (ph_queue _ _ _ _ _ Hp) as Hq. unfold runTask. by destruct (sv_queue s !! l) as [q|]; cbn in Hq; subst. Qed.

Lemma setHead_ho s rest h st : pending_at s h st → pending_at (setHead l rest s) h st.
Proof. unfold setHead. by repeat case_match. Qed.

(** ** Preparation *)

Lemma run_required e s0 s u ms req :
  phase s0 s [] u ms → hrq_AMFUENGAPId req = id → findGNBByGlobalID e (hrq_TargetGlobalRANNodeID req) s = Some t →
  t ≠ g → NHChainUsableLocked u = true →
  phase s0 (n2step cfg ap e (HandoverRequired g req) s) [ContinuePreparation g t req] u ms.
Proof.
  intros Hp Hid Hf Hne Hch. cbn [n2step]. unfold handleHandoverRequired. cbn zeta.
  rewrite Hid, (ph_id _ _ _ _ _ Hp), Hf, (ph_ue _ _ _ _ _ Hp), Hch. rewrite decide_False by done.
  exact (phase_enqueue _ _ _ _ _ _ Hp).
Qed.

Definition snapshot u (req : HandoverRequiredMsg) : prepSnapshot :=
  mkPrep (candidates cfg u req).1 (candidates cfg u req).2 (ueSecCapBitmaps u) (ue_AllowedNSSAI u)
    (NewUEAMBRFromKbps (ue_AMBRUL u) (ue_AMBRDL u)).

Lemma missingIE_none n m k : n ≠ 0%nat → m ≠ 0%nat → k ≠ 0%nat → HandoverRequestMissingIE n m k = "".
Proof. by destruct n, m, k. Qed.

Lemma length_nonempty {A} (xs : list A) : xs ≠ [] → length xs ≠ 0%nat.
Proof. by destruct xs. Qed.

Lemma run_startPreparation e s0 s u ms req :
  phase s0 s [ContinuePreparation g t req] u ms →
  (candidates cfg u req).1 ≠ [] → ue_AllowedNSSAI u ≠ [] → hrq_Container req ≠ [] →
  phase s0 (n2step cfg ap e (RunTask l) s) [PreparationWaiting g t req (snapshot u req)] u ms.
Proof.
  intros Hp Hc Ha Hk. cbn [n2step]. rewrite (runTask_head _ _ _ _ _ _ Hp). cbn [segment]. unfold startPreparation.
  rewrite (ph_ue _ _ _ _ _ Hp). unfold snapshot. destruct (candidates cfg u req) as [cands unknown]. cbn [fst snd] in *.
  rewrite missingIE_none by (by apply length_nonempty). cbn [String.eqb].
  apply (phase_setHead _ _ (ContinuePreparation g t req)), phase_emit_calls, Hp.
Qed.

(** What the pending handover remembers, and the request sent to the target. *)
Definition prepState e u (req : HandoverRequiredMsg) : n2HandoverState :=
  mkN2HO g (hrq_RANUENGAPId req) t (hrq_HandoverType req) (hrq_CausePresent req) (hrq_CauseValue req) [] []
    (prepRejected cfg ap e req (candidates cfg u req).1 ++ (candidates cfg u req).2) [].

Definition requestTo e u (req : HandoverRequiredMsg) (nh : bytes) (ncc : Z) : HandoverRequestParams :=
  mkHandoverRequest id (hrq_HandoverType req) (hrq_CausePresent req) (hrq_CauseValue req)
    (let a := NewUEAMBRFromKbps (ue_AMBRUL u) (ue_AMBRDL u) in buildUEAMBR (am_ULBps a) (am_DLBps a)) ncc nh
    (ueSecCapBitmaps u) (prepSessions cfg ap e req (candidates cfg u req).1) (allowedNSSAIItems (ue_AllowedNSSAI u))
    (hrq_Container req) (cfg_ID cfg).

Lemma run_finishPreparation e s0 s u u' nh ncc ms req :
  phase s0 s [PreparationWaiting g t req (snapshot u req)] u ms → delivers e t → hrq_AMFUENGAPId req = id →
  NextNHLocked u = (u', Some (nh, ncc)) →
  prepSessions cfg ap e req (candidates cfg u req).1 ≠ [] → ue_AllowedNSSAI u ≠ [] → hrq_Container req ≠ [] →
  let s' := n2step cfg ap e (RunTask l) s in
  phase s0 s' [] u' (ms ++ [(t, HandoverRequest (requestTo e u req nh ncc))]) ∧
  ∃ h, pending_at s' h (prepState e u req).
Proof.
  intros Hp Hd Hid En Hs Ha Hk. cbn [n2step]. cbn zeta. rewrite (runTask_head _ _ _ _ _ _ Hp). cbn [segment].
  unfold finishPreparation. cbn zeta. unfold snapshot. cbn [pp_cands pp_unknown pp_bitmaps pp_allowed pp_ambr].
  rewrite decide_False by done. rewrite (ph_ue _ _ _ _ _ Hp), En. unfold BuildHandoverRequest.
  cbn [hop_Sessions hop_AllowedNSSAI hop_Container]. rewrite !bool_decide_eq_false_2 by done. cbn [orb].
  unfold encode, storePending, writeNGAP. destruct (Hd (HandoverRequest (requestTo e u req nh ncc))) as [He Hw].
  unfold requestTo in He, Hw. rewrite Hid. cbn [hop_AMFUENGAPId hop_HandoverType hop_CausePresent hop_CauseValue
    hop_UEAMBR hop_NCC hop_NH hop_UESecCap hop_GUAMI]. rewrite He, Hw.
  set (s1 := emit _ _). assert (phase s0 s1 [PreparationWaiting g t req (snapshot u req)] u'
    (ms ++ [(t, HandoverRequest (requestTo e u req nh ncc))])) as H1.
  { destruct Hp as [? ? ? ? Hu ? Hsent]. split; try done.
    - unfold ue_of, s1. cbn. unfold ue_of in Hu. by rewrite lookup_alter_eq, Hu.
    - unfold s1. rewrite sent_emit. cbn [sv_out onUE with_mgr]. by rewrite Hsent, <- app_assoc. }
  split; [apply (phase_setHead _ _ (PreparationWaiting g t req (snapshot u req)) None _ _ H1)|].
  eexists. apply setHead_ho. unfold pending_at, s1. cbn. by rewrite !lookup_insert_eq.
Qed.

(** ** Acknowledgement *)

Lemma run_ack e s0 s u ms h st ack :
  phase s0 s [] u ms → pending_at s h st → hra_AMFUENGAPId ack = id →
  let s' := n2step cfg ap e (HandoverRequestAck t ack) s in
  phase s0 s' [CompletePreparation t ack h] u ms ∧ pending_at s' h (set_container (hra_Container ack) st).
Proof.
  intros Hp [Hpe Hho] Hid. cbn [n2step]. cbn zeta. unfold handleHandoverRequestAcknowledge. rewrite Hid, Hpe.
  change (GetByNGAPId _ _) with (GetByNGAPId (sv_mgr s) id). rewrite (ph_id _ _ _ _ _ Hp).
  split; [apply (phase_enqueue s0 (onHO h _ s) []); by destruct Hp|].
  unfold pending_at. cbn. by rewrite lookup_alter_eq, Hho.
Qed.

Lemma run_startCompletion e s0 s u ms h st ack :
  phase s0 s [CompletePreparation t ack h] u ms → pending_at s h st →
  let s' := n2step cfg ap e (RunTask l) s in
  phase s0 s' [CompletionWaiting t ack h (smRefsOf u)] u ms ∧ pending_at s' h st.
Proof.
  intros Hp Hh. cbn [n2step]. cbn zeta. rewrite (runTask_head _ _ _ _ _ _ Hp). cbn [segment]. unfold startCompletion.
  rewrite (ph_ue _ _ _ _ _ Hp). split; [|by apply setHead_ho].
  apply (phase_setHead _ _ (CompletePreparation t ack h)), phase_emit_calls, Hp.
Qed.

Definition commandTo e (ack : HandoverRequestAckMsg) (refs : gmap Z string) st : NGAPMsg :=
  HandoverCommand id (h_sourceRANUENGAPId st) (h_handoverType st) (cmdHandled cfg ap e ack refs)
    (cmdToRelease cfg ap e ack refs (h_prepReleased st)) (hra_Container ack).

Lemma run_finishCompletion e s0 s u ms h st ack refs :
  phase s0 s [CompletionWaiting t ack h refs] u ms → pending_at s h st → delivers e g → h_sourceGNB st = g →
  hra_AMFUENGAPId ack = id → cmdHandled cfg ap e ack refs ≠ [] →
  let s' := n2step cfg ap e (RunTask l) s in
  phase (onGNB t (addUE (hra_RANUENGAPId ack) l) s0) s' [] u (ms ++ [(g, commandTo e ack refs st)]) ∧
  pending_at s' h (set_admitted (cmdAccepted cfg ap e ack refs) (targetFailedOf ack refs) st).
Proof.
  intros Hp [Hpe Hho] Hd Hg Hid Hc. cbn [n2step]. cbn zeta. rewrite (runTask_head _ _ _ _ _ _ Hp). cbn [segment].
  unfold finishCompletion. rewrite Hho. cbn zeta. rewrite (bool_decide_eq_false_2 (cmdHandled cfg ap e ack refs = [])) by done.
  rewrite andb_false_r, Hg, Hid, send_delivers by done. set (s1 := onGNB t _ (emit _ _)).
  assert (phase (onGNB t (addUE (hra_RANUENGAPId ack) l) s0) s1 [CompletionWaiting t ack h refs] u
    (ms ++ [(g, commandTo e ack refs st)])) as H1.
  { destruct Hp as [? ? Hgn ? ? ? Hsent]. split; try done.
    - unfold s1. cbn. by rewrite Hgn.
    - unfold s1. cbn [sv_out onGNB]. rewrite sent_emit. cbn [sv_out onHO]. by rewrite Hsent, <- app_assoc. }
  split; [apply (phase_setHead _ _ (CompletionWaiting t ack h refs) None _ _ H1)|].
  apply setHead_ho. unfold pending_at, s1. cbn. by rewrite lookup_alter_eq, Hho.
Qed.

(** ** Notification *)

Lemma sent_completes (refs : gmap Z string) {A} (psi : A → Z) (c : string → SMFCall) (xs : list A) :
  sentMsgs (omap (λ a, let ref := default "" (refs !! psi a) in
                       if String.eqb ref "" then None else Some (Called (c ref))) xs) = [].
Proof. induction xs as [|x xs IH]; [done|]. unfold sentMsgs in *. cbn. destruct (String.eqb _ _); exact IH. Qed.

Lemma called_completes (refs : gmap Z string) {A} (psi : A → Z) (c : string → SMFCall) (xs : list A) x ref :
  x ∈ xs → refs !! psi x = Some ref → ref ≠ "" →
  Called (c ref) ∈ omap (λ a, let ref := default "" (refs !! psi a) in
                              if String.eqb ref "" then None else Some (Called (c ref))) xs.
Proof.
  intros Hx Hr Hne. apply list_elem_of_omap. exists x. split; [done|]. rewrite Hr. cbn.
  by destruct (String.eqb_spec ref "").
Qed.

(** What the notification leads to: the UE is at the target, the source has
    nothing of it and is told to release it, and the SMFs of the sessions handed
    over are told. *)
Record moved s0 s u (ran : Z) (ms : list (gloc * NGAPMsg)) st : Prop := mkMoved {
  mv_bound : bound_to s l t ran (addr_of s0 t);
  mv_source : (b ← sv_gnb s !! g; gnb_UEs b !! h_sourceRANUENGAPId st) = None;
  mv_pending : sv_pendingN2HO s !! id = None;
  mv_gnbs : sv_gnbs s = sv_gnbs s0;
  mv_addr : addr_of s g = addr_of s0 g;
  mv_id : GetByNGAPId (sv_mgr s) id = Some l;
  mv_state : (λ v, (ue_CMState v, ue_State v, ue_NH v, ue_NCC v)) <$> ue_of s l =
             Some (ue_CMState u, ue_State u, ue_NH u, ue_NCC u);
  mv_sent : sentMsgs (sv_out s) = sentMsgs (sv_out s0) ++ ms ++
    [(g, UEContextReleaseCommand id (h_sourceRANUENGAPId st) ngapCausePresentRadioNetwork ngapCauseSuccessfulHandover)];
  mv_told a ref : a ∈ h_admittedSessions st → smRefsOf u !! ad_PDUSessionID a = Some ref → ref ≠ "" →
    Called (CompleteHandover ref) ∈ sv_out s;
  mv_failed psi ref : psi ∈ h_targetFailed st → smRefsOf u !! psi = Some ref → ref ≠ "" →
    Called (DeactivateUP ref) ∈ sv_out s }.

Lemma elem_out_emit (x : Effect) es s : x ∈ sv_out s ∨ x ∈ es → x ∈ sv_out (emit es s).
Proof. intros H. cbn. by apply elem_of_app. Qed.

Lemma run_notify e s0 s u ms h st n :
  phase s0 s [] u ms → pending_at s h st → delivers e g → h_sourceGNB st = g → t ≠ g →
  hno_AMFUENGAPId n = id → (b ← sv_gnb s0 !! t; gnb_UEs b !! hno_RANUENGAPId n) = Some l →
  moved s0 (n2step cfg ap e (HandoverNotify t n) s) u (hno_RANUENGAPId n) ms st.
Proof.
  intros [Hn2 Hgs Hgn Hi Hu Hq Hsent] [Hpe Hho] Hd Hg Hne Hid Ht. cbn [n2step]. unfold handleHandoverNotify. cbn zeta.
  rewrite Hid, Hpe. cbn [mbind option_bind with_pending sv_ho sv_mgr]. rewrite Hho, Hi.
  change (ue_of (with_pending _ s) l) with (ue_of s l). rewrite Hu, Hg.
  unfold SendUEContextReleaseCommand. rewrite send_delivers by done. cbn [fst].
  unfold notifyTargetFailedDeactivate, notifyHandoverComplete. rewrite Hmain. cbn [mainHooks onUPDeactivate onHandoverComplete].
  set (s1 := setTAI l _ _).
  assert (bound_to s1 l t (hno_RANUENGAPId n) (addr_of s0 t)) as Hb.
  { apply bound_setTAI. unfold bound_to, n2_of, ue_of, addr_of, onN2, onUE, onGNB, with_pending in *. cbn.
    rewrite lookup_insert_eq, lookup_alter_eq, lookup_alter_ne, Hgn, Hu by done. cbn. done. }
  assert (sv_gnb s1 = alter (delUE (h_sourceRANUENGAPId st)) g (sv_gnb s0)) as Hg1.
  { unfold s1, setTAI. destruct (hno_TAI n); cbn; by rewrite Hgn. }
  assert (sv_out s1 = sv_out s) as Ho by (unfold s1, setTAI; by destruct (hno_TAI n)).
  split.
  - done.
  - cbn. rewrite Hg1, lookup_alter_eq. destruct (sv_gnb s0 !! g); [|done]. cbn. by rewrite lookup_delete_eq.
  - cbn. replace (sv_pendingN2HO s1) with (delete id (sv_pendingN2HO s)) by (unfold s1, setTAI; by destruct (hno_TAI n)).
    by rewrite lookup_delete_eq.
  - cbn. rewrite <- Hgs. unfold s1, setTAI. by destruct (hno_TAI n).
  - unfold addr_of. cbn. rewrite Hg1, lookup_alter_eq. by destruct (sv_gnb s0 !! g).
  - cbn. rewrite <- Hi. unfold s1, setTAI. by destruct (hno_TAI n).
  - unfold ue_of in *. cbn. unfold s1, setTAI.
    destruct (hno_TAI n); cbn; rewrite !lookup_alter_eq, Hu; done.
  - rewrite !sent_emit, sent_completes, (sent_completes (smRefsOf u) (λ x, x)), Ho, Hsent, !app_nil_r. by rewrite <- app_assoc.
  - intros a ref Ha Hr Hnr. do 2 (apply elem_out_emit; left). apply elem_out_emit. right.
    by apply (called_completes _ ad_PDUSessionID CompleteHandover _ a).
  - intros psi ref Ha Hr Hnr. apply elem_out_emit. left. apply elem_out_emit. right.
    by apply (called_completes _ (λ x, x) DeactivateUP _ psi).
Qed.

(** The source's confirmation changes nothing for the UE. *)
Lemma moved_release e s0 s u ran ms st :
  moved s0 s u ran ms st → t ≠ g → addr_of s0 t ≠ "" → addr_of s0 g ≠ addr_of s0 t →
  let s' := n2step cfg ap e (ReleaseComplete g id (h_sourceRANUENGAPId st)) s in
  bound_to s' l t ran (addr_of s0 t) ∧ sv_mgr s' = sv_mgr s.
Proof.
  intros [Hb _ _ _ Hga Hi Hst _ _ _] Hne Ha Hag. rewrite <- Hga in Hag. cbn [n2step]. cbn zeta. unfold handleUEContextReleaseComplete. cbn zeta. rewrite Hi.
  assert (isStaleSourceRelease s l g (h_sourceRANUENGAPId st) = true) as ->.
  { unfold isStaleSourceRelease. destruct Hb as (Hn & _ & _). rewrite Hn. destruct (ue_of s l); [|done].
    destruct (String.eqb_spec (addr_of s0 t) ""); [done|]. destruct (String.eqb_spec (addr_of s0 t) (addr_of s g)); [congruence|done]. }
  split; [|done]. destruct Hb as (H1 & H2 & H3). split_and!; [done|done|]. cbn. by rewrite lookup_alter_ne.
Qed.

(** ** Six steps to the command *)

(** HANDOVER REQUIRED, its task in two segments, HANDOVER REQUEST ACKNOWLEDGE,
    its task in two segments; [es] are the environments of the steps. *)
Definition preparedRun (es : nat → Env) (req : HandoverRequiredMsg) (ack : HandoverRequestAckMsg) s : Server D C :=
  let s := n2step cfg ap (es 0%nat) (HandoverRequired g req) s in
  let s := n2step cfg ap (es 1%nat) (RunTask l) s in
  let s := n2step cfg ap (es 2%nat) (RunTask l) s in
  let s := n2step cfg ap (es 3%nat) (HandoverRequestAck t ack) s in
  let s := n2step cfg ap (es 4%nat) (RunTask l) s in
  n2step cfg ap (es 5%nat) (RunTask l) s.

(** The UE is known, idle and can be handed over; the target is connected; the
    gNBs are reached; and some session survives each of the two SMF legs. *)
Record run_ok (es : nat → Env) (req : HandoverRequiredMsg) (ack : HandoverRequestAckMsg) s u : Prop := mkRunOk {
  ro_req : hrq_AMFUENGAPId req = id;
  ro_ack : hra_AMFUENGAPId ack = id;
  ro_id : GetByNGAPId (sv_mgr s) id = Some l;
  ro_ue : ue_of s l = Some u;
  ro_idle : default [] (sv_queue s !! l) = [];
  ro_target : findGNBByGlobalID (es 0%nat) (hrq_TargetGlobalRANNodeID req) s = Some t;
  ro_other : t ≠ g;
  ro_present : is_Some (sv_gnb s !! t);
  ro_delivers i : delivers (es i) g ∧ delivers (es i) t;
  ro_chain : NHChainUsableLocked u = true;
  ro_allowed : ue_AllowedNSSAI u ≠ [];
  ro_container : hrq_Container req ≠ [];
  ro_prepared : prepSessions cfg ap (es 2%nat) req (candidates cfg u req).1 ≠ [];
  ro_handled : cmdHandled cfg ap (es 5%nat) ack (smRefsOf u) ≠ [] }.

Definition finalState (es : nat → Env) (req : HandoverRequiredMsg) (ack : HandoverRequestAckMsg) u : n2HandoverState :=
  set_admitted (cmdAccepted cfg ap (es 5%nat) ack (smRefsOf u)) (targetFailedOf ack (smRefsOf u))
    (set_container (hra_Container ack) (prepState (es 2%nat) u req)).

Lemma NextNH_refs u u' k : NextNHLocked u = (u', k) →
  smRefsOf u' = smRefsOf u ∧ ue_PDUSessions u' = ue_PDUSessions u ∧ ue_AMFUENGAPId u' = ue_AMFUENGAPId u ∧
  ue_CMState u' = ue_CMState u ∧ ue_State u' = ue_State u.
Proof. unfold NextNHLocked. case_match; by intros [= <- _]. Qed.

Lemma preparedRun_phase es req ack s u :
  run_ok es req ack s u →
  ∃ u' nh ncc h, NextNHLocked u = (u', Some (nh, ncc)) ∧
    phase (onGNB t (addUE (hra_RANUENGAPId ack) l) s) (preparedRun es req ack s) [] u'
      [(t, HandoverRequest (requestTo (es 2%nat) u req nh ncc));
       (g, commandTo (es 5%nat) ack (smRefsOf u) (prepState (es 2%nat) u req))] ∧
    pending_at (preparedRun es req ack s) h (finalState es req ack u).
Proof.
  intros [Hreq Hack Hi Hu Hq Ht Hne Hpr Hd Hch Hal Hco Hp Hh].
  destruct (NextNH_usable u Hch) as (u' & nh & ncc & En). exists u', nh, ncc.
  assert (phase s s [] u []) as P0 by (split; [done..|by rewrite app_nil_r]).
  assert ((candidates cfg u req).1 ≠ []) as Hc by (intros E; by rewrite E in Hp).
  pose proof (run_required (es 0%nat) s s u [] req P0 Hreq Ht Hne Hch) as P1.
  pose proof (run_startPreparation (es 1%nat) _ _ _ _ _ P1 Hc Hal Hco) as P2.
  destruct (run_finishPreparation (es 2%nat) _ _ _ _ _ _ _ _ P2 (proj2 (Hd 2%nat)) Hreq En Hp Hal Hco) as [P3 [h H3]].
  destruct (run_ack (es 3%nat) _ _ _ _ _ _ _ P3 H3 Hack) as [P4 H4].
  destruct (run_startCompletion (es 4%nat) _ _ _ _ _ _ _ P4 H4) as [P5 H5].
  destruct (NextNH_refs _ _ _ En) as (Hr & _). rewrite Hr in P5.
  destruct (run_finishCompletion (es 5%nat) _ _ _ _ _ _ _ _ P5 H5 (proj1 (Hd 5%nat)) eq_refl Hack Hh) as [P6 H6].
  exists h. done.
Qed.

Lemma addUE_lookup s ran : is_Some (sv_gnb s !! t) → (b ← sv_gnb (onGNB t (addUE ran l) s) !! t; gnb_UEs b !! ran) = Some l.
Proof. intros [b Hb]. cbn. rewrite lookup_alter_eq, Hb. cbn. by rewrite lookup_insert_eq. Qed.

(** ** The loss of a prepared target *)

Lemma rr_keeps e l' s u :
  ue_of s l = Some u → ∃ u', ue_of (releaseAndRemove e l' s) l = Some u' ∧
    ue_AMFUENGAPId u' = ue_AMFUENGAPId u ∧ ue_PDUSessions u' = ue_PDUSessions u.
Proof.
  intros Hu. unfold releaseAndRemove. destruct (ue_of s l') as [v|] eqn:Ev; [|by exists u].
  set (s1 := if String.eqb _ _ then _ else _). assert (sv_mgr s1 = sv_mgr s) as Hm by (unfold s1; by case_match).
  unfold ue_of, Remove in *. cbn. rewrite Hm, Ev. cbn. destruct (decide (l' = l)) as [->|Hne].
  - exists (StopAllTimers u). by rewrite lookup_alter_eq, Hu.
  - exists u. by rewrite lookup_alter_ne.
Qed.

Lemma rr_none e l' s i : GetByNGAPId (sv_mgr s) i = None → GetByNGAPId (sv_mgr (releaseAndRemove e l' s)) i = None.
Proof.
  intros Hn. unfold releaseAndRemove. destruct (ue_of s l') as [v|] eqn:Ev; [|done].
  set (s1 := if String.eqb _ _ then _ else _). assert (sv_mgr s1 = sv_mgr s) as Hm by (unfold s1; by case_match).
  unfold ue_of, Remove, GetByNGAPId in *. cbn. rewrite Hm, Ev. cbn. by apply lookup_delete_None; right.
Qed.

Lemma rr_frame e l' s :
  sv_n2 (releaseAndRemove e l' s) = sv_n2 s ∧ sv_gnb (releaseAndRemove e l' s) = sv_gnb s ∧
  (∀ x, x ∈ sv_out s → x ∈ sv_out (releaseAndRemove e l' s)).
Proof.
  unfold releaseAndRemove. case_match; [|done]. case_match; (split_and!; [done|done|]);
    intros x Hx; cbn; rewrite ?elem_of_app; tauto.
Qed.

Lemma rr_hit e s u :
  ue_of s l = Some u → GetByNGAPId (sv_mgr (releaseAndRemove e l s)) (ue_AMFUENGAPId u) = None ∧
  ∀ psi p, ue_PDUSessions u !! psi = Some p → ps_SMFInstanceID p ≠ "" →
    Called (DeleteSMContext (ps_SMFInstanceID p)) ∈ sv_out (releaseAndRemove e l s).
Proof.
  intros Hu. unfold releaseAndRemove. rewrite Hu.
  set (s1 := if String.eqb _ _ then _ else _). assert (sv_mgr s1 = sv_mgr s) as Hm by (unfold s1; by case_match). split.
  - unfold ue_of, Remove, GetByNGAPId in *. cbn. rewrite Hm, Hu. cbn. by rewrite lookup_delete_eq.
  - intros psi p Hp Hne. cbn.
    assert (Called (DeleteSMContext (ps_SMFInstanceID p)) ∈ Called ∘ DeleteSMContext <$> sessionRefs e u) as Hin.
    { apply list_elem_of_fmap. eexists. split; [done|]. unfold sessionRefs. apply list_elem_of_filter. split; [done|].
      apply list_elem_of_fmap_2, list_elem_of_fmap. exists (psi, p). split; [done|].
      rewrite env_order_perm. by apply elem_of_map_to_list. }
    unfold s1. case_match; cbn; rewrite !elem_of_app; tauto.
Qed.

Lemma rr_fold e xs s u :
  ue_of s l = Some u → l ∈ xs →
  let s' := foldl (λ s l, releaseAndRemove e l s) s xs in
  GetByNGAPId (sv_mgr s') (ue_AMFUENGAPId u) = None ∧ sv_n2 s' = sv_n2 s ∧ sv_gnb s' = sv_gnb s ∧
  (∀ psi p, ue_PDUSessions u !! psi = Some p → ps_SMFInstanceID p ≠ "" →
    Called (DeleteSMContext (ps_SMFInstanceID p)) ∈ sv_out s').
Proof.
  assert (∀ xs s i, GetByNGAPId (sv_mgr s) i = None →
    GetByNGAPId (sv_mgr (foldl (λ s l, releaseAndRemove e l s) s xs)) i = None) as Hkeep.
  { intros ys. induction ys as [|y ys IH]; intros s1 i Hi; [done|]. cbn. apply IH. by apply rr_none. }
  assert (∀ xs s, sv_n2 (foldl (λ s l, releaseAndRemove e l s) s xs) = sv_n2 s ∧
    sv_gnb (foldl (λ s l, releaseAndRemove e l s) s xs) = sv_gnb s ∧
    ∀ x, x ∈ sv_out s → x ∈ sv_out (foldl (λ s l, releaseAndRemove e l s) s xs)) as Hfr.
  { intros ys. induction ys as [|y ys IH]; intros s1; [done|]. cbn. destruct (IH (releaseAndRemove e y s1)) as (-> & -> & Hx).
    destruct (rr_frame e y s1) as (-> & -> & Hy). split_and!; auto. }
  revert s u. induction xs as [|x xs IH]; intros s u Hu Hin; [by apply elem_of_nil in Hin|]. cbn.
  destruct (decide (x = l)) as [->|Hne].
  - destruct (rr_hit e s u Hu) as [Hn Hd]. destruct (Hfr xs (releaseAndRemove e l s)) as (-> & -> & Hx).
    destruct (rr_frame e l s) as (-> & -> & _). split_and!; [by apply Hkeep|done|done|]. eauto.
  - destruct (rr_keeps e x s u Hu) as (u' & Hu' & Ha & Hp). destruct (IH _ _ Hu') as (H1 & H2 & H3 & H4); [set_solver|].
    destruct (rr_frame e x s) as (Hf1 & Hf2 & _). rewrite Ha, Hp in *. by rewrite H2, H3, Hf1, Hf2.
Qed.

Lemma disconnect_removes e s u b ran :
  ue_of s l = Some u → sv_gnb s !! t = Some b → gnb_UEs b !! ran = Some l →
  let s' := gnbDisconnected cfg e t s in
  GetByNGAPId (sv_mgr s') (ue_AMFUENGAPId u) = None ∧ sv_n2 s' = sv_n2 s ∧ sv_gnb s' = sv_gnb s ∧
  (∀ psi p, ue_PDUSessions u !! psi = Some p → ps_SMFInstanceID p ≠ "" →
    Called (DeleteSMContext (ps_SMFInstanceID p)) ∈ sv_out s').
Proof.
  intros Hu Hb Hl. cbn zeta. unfold gnbDisconnected. rewrite Hb, Hmain. cbn [mainHooks onGNBDisconnect].
  assert (l ∈ allUEs e b) as Hin.
  { unfold allUEs. apply elem_of_app. left. apply list_elem_of_fmap. exists (ran, l). split; [done|].
    rewrite env_order_perm. by apply elem_of_map_to_list. }
  destruct (rr_fold e (allUEs e b) s u Hu Hin) as (H1 & H2 & H3 & H4). done.
Qed.
End Run.

(** C25: an N2 handover that is prepared and executed moves the UE
    ([handleHandoverRequired], [continueHandoverPreparation],
    [handleHandoverRequestAcknowledge], [completeHandoverPreparation],
    [handleHandoverNotify], [handleUEContextReleaseComplete]).  For any answers of the SMFs
    that leave a session in each leg, the AMF sends three messages: a HANDOVER
    REQUEST to the target with the next pair of the key chain, a HANDOVER COMMAND
    to the source whose two lists partition what the target admitted or failed
    and what was rejected before, and a release command to the source.  After the
    notification the UE is bound to the target under the target's ID, the
    source's entry is gone, nothing is pending, and the SMF of each session
    accepted or failed is told.  The source's confirmation of the release then
    leaves the UE as it is. *)
Theorem n2_handover_moves_ue {D C : Type} `{!Store D, !Cache C} (cfg : N2Config) (ap : NgapAper) (es : nat → Env)
    (s : Server D C) (l : loc) (id : Z) (g t : gloc) (u : UEContext)
    (req : HandoverRequiredMsg) (ack : HandoverRequestAckMsg) (n : HandoverNotifyMsg) :
  cfg_hooks cfg = mainHooks → run_ok cfg ap l id g t es req ack s u →
  hno_AMFUENGAPId n = id → hno_RANUENGAPId n = hra_RANUENGAPId ack →
  addr_of s t ≠ "" → addr_of s g ≠ addr_of s t →
  let s' := n2step cfg ap (es 6%nat) (HandoverNotify t n) (preparedRun cfg ap l g t es req ack s) in
  let s'' := n2step cfg ap (es 7%nat) (ReleaseComplete g id (hrq_RANUENGAPId req)) s' in
  let refs := smRefsOf u in
  (∃ p handled toRelease,
    sentMsgs (sv_out s') = sentMsgs (sv_out s) ++
      [(t, HandoverRequest p);
       (g, HandoverCommand id (hrq_RANUENGAPId req) (hrq_HandoverType req) handled toRelease (hra_Container ack));
       (g, UEContextReleaseCommand id (hrq_RANUENGAPId req) ngapCausePresentRadioNetwork ngapCauseSuccessfulHandover)] ∧
    (NextNHLocked u).2 = Some (hop_NH p, hop_NCC p) ∧
    command_lists cfg ap handled toRelease
      (prepRejected cfg ap (es 2%nat) req (candidates cfg u req).1 ++ (candidates cfg u req).2) (es 5%nat) ack refs) ∧
  bound_to s' l t (hra_RANUENGAPId ack) (addr_of s t) ∧
  (b ← sv_gnb s' !! g; gnb_UEs b !! hrq_RANUENGAPId req) = None ∧ sv_pendingN2HO s' !! id = None ∧
  (∀ a ref, a ∈ cmdAccepted cfg ap (es 5%nat) ack refs → refs !! ad_PDUSessionID a = Some ref → ref ≠ "" →
     Called (CompleteHandover ref) ∈ sv_out s') ∧
  (∀ psi ref, psi ∈ targetFailedOf ack refs → refs !! psi = Some ref → ref ≠ "" → Called (DeactivateUP ref) ∈ sv_out s') ∧
  bound_to s'' l t (hra_RANUENGAPId ack) (addr_of s t) ∧ sv_mgr s'' = sv_mgr s'.
Proof.
  intros Hmain Hok Hnid Hnr Hat Hag. cbn zeta.
  destruct (preparedRun_phase cfg ap l id g t es req ack s u Hok) as (u' & nh & ncc & h & En & Hp & Hpe).
  destruct (NextNH_refs _ _ _ En) as (Hr & _). set (s0 := onGNB t _ s) in *.
  assert (∀ x, addr_of s0 x = addr_of s x) as Haddr by (intros x; by apply addr_onGNB).
  opose proof* (run_notify cfg ap Hmain l id g t (es 6%nat) s0) as Hm;
    [exact Hp|exact Hpe|apply Hok|reflexivity|apply Hok|exact Hnid|rewrite Hnr; apply addUE_lookup, Hok|].
  set (s' := n2step _ _ _ (HandoverNotify _ _) _) in *.
  destruct (moved_release cfg ap l id g t (es 7%nat) s0 s' _ _ _ _ Hm) as [Hb2 Hm2].
  { apply Hok. } { by rewrite Haddr. } { by rewrite !Haddr. }
  destruct Hm as [Hb Hsrc Hpend _ _ _ _ Hsent Htold Hfail]. rewrite Hr, Haddr, Hnr in *.
  split_and!; [|done..]. eexists _, _, _. split; [|split].
  - rewrite Hsent. reflexivity.
  - by rewrite En.
  - apply command_lists_hold.
Qed.

Definition demo_required : HandoverRequiredMsg :=
  mkHandoverRequired 1 10 0 ngapCausePresentRadioNetwork 0 [2]
    (mkHOTargetID (mkGlobalRANNode "gnb" "001" "01" 2 22) None) [mkHORqdItem 5 [4]] [8].
Definition demo_ack : HandoverRequestAckMsg := mkHandoverRequestAck 1 20 [mkHOAdmittedItem 5 [6]] [] [8].
Definition demo_notify : HandoverNotifyMsg := mkHandoverNotify 1 20 None.

Lemma demo_run_ok : run_ok demo_cfg demo_aper 1%positive 1 1%positive 2%positive (λ _, demo_env) demo_required demo_ack
  demo_server demo_ue.
Proof.
  by split.
Qed.

Lemma n2_handover_moves_ue_witness :
  bound_to (demo_step (ReleaseComplete 1%positive 1 10)
    (demo_step (HandoverNotify 2%positive demo_notify)
      (preparedRun demo_cfg demo_aper 1%positive 1%positive 2%positive (λ _, demo_env) demo_required demo_ack demo_server)))
    1%positive 2%positive 20 "gnb-b".
Proof.
  pose proof (n2_handover_moves_ue demo_cfg demo_aper (λ _, demo_env) demo_server 1%positive 1 1%positive 2%positive
    demo_ue demo_required demo_ack demo_notify eq_refl demo_run_ok eq_refl eq_refl ltac:(done) ltac:(done)) as H.
  cbn zeta in H. destruct H as (_ & _ & _ & _ & _ & _ & Hb & _). exact Hb.
Defined.

(** C27: a handover that is prepared and not executed binds the UE to the target
    all the same ([completeHandoverPreparation], [handleGNBConn], the handler for
    a lost gNB of [cmd/amf/main.go]).  When the target's association is lost before
    the UE has moved, the UE is removed from the AMF and every session of it is
    released at its SMF, although it is still served by the source: its serving
    gNB and the source's entry say so, and what the source sends for it is
    dropped from then on. *)
Theorem prepared_target_loss_removes_ue {D C : Type} `{!Store D, !Cache C} (cfg : N2Config) (ap : NgapAper) (es : nat → Env)
    (s : Server D C) (l : loc) (id : Z) (g t : gloc) (u : UEContext)
    (req : HandoverRequiredMsg) (ack : HandoverRequestAckMsg) :
  cfg_hooks cfg = mainHooks → run_ok cfg ap l id g t es req ack s u →
  ue_AMFUENGAPId u = id → bound_to s l g (ue_RANUENGAPId u) (addr_of s g) →
  let s' := n2step cfg ap (es 6%nat) (GNBDisconnect t) (preparedRun cfg ap l g t es req ack s) in
  GetByNGAPId (sv_mgr s') id = None ∧
  (∀ psi p, ue_PDUSessions u !! psi = Some p → ps_SMFInstanceID p ≠ "" →
     Called (DeleteSMContext (ps_SMFInstanceID p)) ∈ sv_out s') ∧
  n2_GNBAddr (n2_of s' l) = addr_of s g ∧ (b ← sv_gnb s' !! g; gnb_UEs b !! ue_RANUENGAPId u) = Some l ∧
  ∀ e pdu, n2step cfg ap e (UplinkNAS id pdu) s' = s'.
Proof.
  intros Hmain Hok Hid (Haddr & _ & Hsrc). cbn zeta.
  destruct (preparedRun_phase cfg ap l id g t es req ack s u Hok) as (u' & nh & ncc & h & En & Hp & _).
  destruct (NextNH_refs _ _ _ En) as (_ & Hps & Hi & _). destruct Hp as [Hn2 _ Hgn _ Hu _ _].
  destruct (ro_present _ _ _ _ _ _ _ _ _ _ _ Hok) as [b Hb].
  destruct (disconnect_removes cfg Hmain l t (es 6%nat) (preparedRun cfg ap l g t es req ack s) u'
    (addUE (hra_RANUENGAPId ack) l b) (hra_RANUENGAPId ack)) as (H1 & H2 & H3 & H4); [done| | |].
  { rewrite Hgn. unfold onGNB. cbn. by rewrite lookup_alter_eq, Hb. }
  { cbn. by rewrite lookup_insert_eq. }
  rewrite Hi, Hid in H1. rewrite Hps in H4. cbn [n2step]. unfold n2_of, handleUplinkNASTransport. rewrite H1, H2, H3, Hn2, Hgn.
  split_and!; [done|done|done| |done].
  cbn. rewrite lookup_alter_ne by apply Hok. exact Hsrc.
Qed.

Lemma prepared_target_loss_removes_ue_witness :
  GetByNGAPId (sv_mgr (demo_step (GNBDisconnect 2%positive)
    (preparedRun demo_cfg demo_aper 1%positive 1%positive 2%positive (λ _, demo_env) demo_required demo_ack demo_server))) 1
    = None.
Proof.
  pose proof (prepared_target_loss_removes_ue demo_cfg demo_aper (λ _, demo_env) demo_server 1%positive 1 1%positive
    2%positive demo_ue demo_required demo_ack eq_refl demo_run_ok eq_refl ltac:(repeat split)) as H.
  exact (proj1 H).
Defined.
