(* ===== verification/UpfRa.v ===== *)
(** Router Advertisements and Solicitations, [nf/upf/internal/ra/ra.go]: the
    messages of IPv6 autoconfiguration that the UPF exchanges with the UE.

    The reference for the checksum is [csum_ok] of [UpfChecksum]: the
    one's-complement sum of all 16-bit words, pseudo-header included, is 0xFFFF. *)
From S2P Require Import Prelude NasPduSession SmfPools UpfChecksum.

Definition ICMPv6TypeRouterSolicitation : Z := 133.
Definition ICMPv6TypeRouterAdvertisement : Z := 134.
Definition icmpv6Code : Z := 0.
Definition ipv6Version : Z := 6.
Definition ipv6HeaderLen : nat := 40.
Definition NextHeaderICMPv6 : Z := 58.
Definition hopLimitNeighborDisc : Z := 255.
Definition optTypePrefixInformation : Z := 3.
Definition optLenPrefixInformation8Octets : Z := 4.
Definition prefixInfoFlagOnLink : Z := 0x80.
Definition prefixInfoFlagAutonomous : Z := 0x40.
Definition DefaultCurHopLimit : Z := 64.
Definition DefaultRouterLifetimeSeconds : Z := 1800.
Definition DefaultValidLifetimeSeconds : Z := 2592000.
Definition DefaultPreferredLifetimeSeconds : Z := 604800.

(** fe80::1 and ff02::1 *)
Definition LinkLocalRouterAddr : bytes := [254; 128] ++ replicate 13 0 ++ [1].
Definition AllNodesMulticastAddr : bytes := [255; 2] ++ replicate 13 0 ++ [1].

(** * Checksum *)

(** The loop of [sum16] into a uint32. *)
Fixpoint sum16_from (b : bytes) (acc : Z) : Z :=
  match b with
  | hi :: lo :: r => sum16_from r (u32 (acc + be16 hi lo))
  | [x] => u32 (acc + u32 (x ≪ 8))
  | [] => acc
  end.
Definition sum16 (b : bytes) : Z := sum16_from b 0.

Definition sum16WithChecksumZeroed (msg : bytes) : Z :=
  if (length msg <? 4)%nat then sum16 msg else sum16 (<[2%nat := 0]> (<[3%nat := 0]> msg)).

(** [for sum>>16 != 0 { sum = (sum & 0xFFFF) + (sum >> 16) }] *)
Fixpoint fold32_loop (fuel : nat) (sum : Z) : res Z :=
  match fuel with
  | O => OutOfFuel
  | S n => if sum ≫ 16 =? 0 then Ok sum else fold32_loop n (u32 (Z.land sum 65535 + sum ≫ 16))
  end.

(** Three rounds are enough for a uint32. *)
Definition foldChecksum (sum : Z) : res Z := f ← fold32_loop 4 sum; Ok (u16 (Z.lnot (u16 f))).

(** The sixteen octets that [copy(dst[i:i+16], ip.To16())] leaves in zeros. *)
Definition ip16 (ip : bytes) : bytes := go_copy (replicate 16 0) (default [] (To16 ip)).

Definition ICMPv6Checksum (src dst msg : bytes) : res Z :=
  let pseudo := ip16 src ++ ip16 dst ++ put_be32 (u32 (Z.of_nat (length msg))) ++ [0; 0; 0; NextHeaderICMPv6] in
  foldChecksum (u32 (sum16 pseudo + sum16WithChecksumZeroed msg)).

(** * Packets *)

Definition BuildIPv6Packet (src dst : bytes) (nextHeader hopLimit : Z) (payload : bytes) : bytes :=
  let n := u16 (Z.of_nat (length payload)) in
  [u8 (ipv6Version ≪ 4); 0; 0; 0; u8 (n ≫ 8); u8 n; nextHeader; hopLimit] ++ ip16 src ++ ip16 dst ++ payload.

Record Options := mkOptions {
  o_CurHopLimit : Z; o_RouterLifetimeSeconds : Z; o_ValidLifetimeSeconds : Z; o_PreferredLifetimeSeconds : Z;
  o_Src : option bytes; o_Dst : option bytes }.

Definition orZero (v d : Z) : Z := if v =? 0 then d else v.

(** [mask.Size()]: the ones and the bits of a canonical mask, and 0, 0 for another. *)
Definition maskSize (m : bytes) : nat * nat :=
  match list_find (λ ones, CIDRMask ones (length m) = m) (seq 0 (8 * length m + 1)) with
  | Some (_, ones) => (ones, 8 * length m)%nat
  | None => (0, 0)%nat
  end.

(** The message with a zero checksum. *)
Definition raMessage (hop lifetime valid preferred : Z) (prefixBytes : bytes) : bytes :=
  [ICMPv6TypeRouterAdvertisement; icmpv6Code; 0; 0; hop; 0; u8 (lifetime ≫ 8); u8 lifetime] ++
  put_be32 0 ++ put_be32 0 ++
  [optTypePrefixInformation; optLenPrefixInformation8Octets; 64; Z.lor prefixInfoFlagOnLink prefixInfoFlagAutonomous] ++
  put_be32 valid ++ put_be32 preferred ++ put_be32 0 ++ prefixBytes.

Definition BuildRouterAdvertisement (prefix : option IPNet) (opts : Options) : res bytes :=
  match prefix with
  | None => Err "upf: build router advertisement: nil prefix"
  | Some prefix =>
      if negb (bool_decide (maskSize (netMask prefix) = (64, 128)%nat)) then
        Err "upf: build router advertisement: prefix %s is not a /64"
      else match To16 (netIP prefix) with
      | None => Err "upf: build router advertisement: prefix %s is not IPv6"
      | Some prefixBytes =>
          let src := default LinkLocalRouterAddr (o_Src opts) in
          let dst := default AllNodesMulticastAddr (o_Dst opts) in
          let msg := raMessage (orZero (o_CurHopLimit opts) DefaultCurHopLimit)
                       (orZero (o_RouterLifetimeSeconds opts) DefaultRouterLifetimeSeconds)
                       (orZero (o_ValidLifetimeSeconds opts) DefaultValidLifetimeSeconds)
                       (orZero (o_PreferredLifetimeSeconds opts) DefaultPreferredLifetimeSeconds) prefixBytes in
          c ← ICMPv6Checksum src dst msg;
          msg ← put16 msg 2 c;
          Ok (BuildIPv6Packet src dst NextHeaderICMPv6 hopLimitNeighborDisc msg)
      end
  end.

(** The source of a Router Solicitation, [None] for another packet. *)
Definition ParseRouterSolicitation (pkt : bytes) : res (option bytes) :=
  if (length pkt <? ipv6HeaderLen)%nat then Ok None
  else
    b0 ← idx pkt 0;
    if negb (b0 ≫ 4 =? ipv6Version) then Ok None
    else
      nh ← idx pkt 6;
      if negb (nh =? NextHeaderICMPv6) then Ok None
      else
        icmp ← slice_from pkt ipv6HeaderLen;
        if (length icmp <? 8)%nat then Ok None
        else
          t ← idx icmp 0;
          if negb (t =? ICMPv6TypeRouterSolicitation) then Ok None
          else src ← slice pkt 8 24; Ok (Some src).

(** * The sum against RFC 1071 *)

Lemma u32_small z : is_u32 z → u32 z = z.
Proof. unfold is_u32, u32. intros. by apply Z.mod_small. Qed.

(** A sum of fewer than 65536 octets does not wrap. *)
Lemma sum16_from_word b acc :
  bytes_ok b → 0 <= acc → acc + word_sum b < 4294967296 → sum16_from b acc = acc + word_sum b.
Proof.
  unfold bytes_ok. revert acc. induction b as [|x|x y b IH] using pairs_ind; intros acc Hb Ha Hlt; cbn in *.
  - lia.
  - apply Forall_cons in Hb as [Hx _]. unfold is_u8 in Hx. bitfield.
    rewrite (u32_small (x * 256)), u32_small by (unfold is_u32; lia). done.
  - rewrite !Forall_cons in Hb. destruct Hb as (Hx & Hy & Hb). pose proof (word_sum_bounds b Hb).
    rewrite be16_add by done. unfold is_u8 in *. rewrite u32_small by (unfold is_u32; lia).
    rewrite IH; [lia|done|lia|lia].
Qed.

Lemma sum16_word b : bytes_ok b → Z.of_nat (length b) < 65536 → sum16 b = word_sum b.
Proof.
  intros Hb Hl. pose proof (word_sum_bounds b Hb). unfold sum16. rewrite sum16_from_word; [lia|done|lia|lia].
Qed.

(** The fold agrees with the one of [l4csum] on a uint32. *)
Lemma fold32_agrees n acc f : is_u32 acc → fold_loop n acc = Ok f → fold32_loop n acc = Ok f.
Proof.
  revert acc. induction n as [|n IH]; intros acc Ha; [done|]. rewrite fold_loop_S. cbn [fold32_loop].
  unfold is_u32 in Ha. destruct (Z.eqb_spec (acc ≫ 16) 0) as [E|E].
  - intros [= <-]. rewrite Z.shiftr_div_pow2 in E by lia. change (2 ^ 16) with 65536 in E.
    rewrite u16_small by (unfold is_u16; dlia). done.
  - bitfield. assert (is_u32 (acc mod 65536 + acc / 65536)) by (unfold is_u32; dlia).
    rewrite u32_small by done. rewrite u64_small by (unfold is_u32, is_u64 in *; lia). by apply IH.
Qed.

(** The folded complement is what completes the sum to a multiple of 65535. *)
Lemma foldChecksum_spec sum :
  is_u32 sum → ∃ c, foldChecksum sum = Ok c ∧ is_u16 c ∧ 0 < sum + c ∧ (sum + c) mod 65535 = 0.
Proof.
  intros Hs. destruct (fold_loop_spec 3 sum ltac:(unfold is_u32 in Hs; cbn; lia)) as (f & E & Hf & [k Hc] & Hpos).
  apply fold32_agrees in E; [|done]. unfold foldChecksum. rewrite E. cbn [mbind res_bind].
  exists (65535 - f). split; [|unfold is_u16, is_u32 in *; split; [lia|split]].
  - rewrite (u16_small f) by done. unfold u16, is_u16 in *. f_equal. unfold Z.lnot. rewrite <- Z.sub_1_r. symmetry. apply Z.mod_unique with (-1); lia.
  - destruct (Z.eq_dec sum 0) as [->|]; [|lia]. injection E as <-. lia.
  - replace (sum + (65535 - f)) with ((1 - k) * 65535) by lia. apply Z.mod_mul. lia.
Qed.

(** * Packets as the receiver sees them *)

Lemma length_ip16 ip : length (ip16 ip) = 16%nat.
Proof. unfold ip16. by rewrite length_go_copy. Qed.

Lemma ip16_ok ip : bytes_ok ip → bytes_ok (ip16 ip).
Proof.
  intros Hb. unfold ip16, go_copy, bytes_ok. apply Forall_app. split.
  - apply Forall_take. unfold To16. repeat case_match; cbn [default]; [|done|by constructor].
    apply Forall_app. split; [|done]. apply (bool_decide_unpack _). vm_compute. exact I.
  - apply Forall_drop, Forall_replicate. unfold is_u8. lia.
Qed.

Lemma ip16_id ip : length ip = 16%nat → ip16 ip = ip.
Proof. intros Hl. unfold ip16, To16. rewrite Hl. cbn [Nat.eqb default]. by apply go_copy_full. Qed.

(** An ICMPv6 packet with a correct checksum. *)
Definition icmpv6_valid (pkt : bytes) : Prop :=
  ∃ v, l4_view pkt = Some v ∧ v_proto v = NextHeaderICMPv6 ∧ csum_ok (pseudo pkt v) (segment pkt v).

(** The 16-bit word at [i] replaced. *)
Definition set_word (i : nat) (c : Z) (b : bytes) : bytes := take i b ++ [u8 (c ≫ 8); u8 c] ++ drop (i + 2) b.

Lemma length_set_word i c b : (S i < length b)%nat → length (set_word i c b) = length b.
Proof. intros. unfold set_word. rewrite !length_app, length_take, length_drop. cbn. lia. Qed.

Lemma word_sum_set i c b :
  Nat.Even i → (S i < length b)%nat → is_u16 c → word_sum (set_word i c b) = word_sum (set_word i 0 b) + c.
Proof.
  intros He Hi Hc. assert (length (take i b) = i) as Hl by (rewrite length_take; lia).
  unfold set_word. rewrite !word_sum_field by (rewrite ?Hl; auto using u8_range).
  rewrite !be16_split by (unfold is_u16 in *; lia). lia.
Qed.

Lemma set_word_ok i c b : bytes_ok b → bytes_ok (set_word i c b).
Proof.
  intros Hb. unfold bytes_ok, set_word. rewrite !Forall_app. split_and!; [by apply Forall_take| |by apply Forall_drop].
  repeat constructor; apply u8_range.
Qed.

Lemma zeroed_set_word msg : (4 <= length msg)%nat → <[2%nat := 0]> (<[3%nat := 0]> msg) = set_word 2 0 msg.
Proof. intros Hl. assert (put16 msg 2 0 = Ok (set_word 2 0 msg)) as H by (apply put16_split; lia).
  unfold put16 in H. destruct (Nat.ltb_spec 3 (length msg)); [|lia]. by injection H. Qed.

Lemma ICMPv6Checksum_spec src dst msg :
  bytes_ok src → bytes_ok dst → bytes_ok msg → (4 <= length msg)%nat → Z.of_nat (length msg) < 65000 →
  ∃ c, ICMPv6Checksum src dst msg = Ok c ∧ is_u16 c ∧ put16 msg 2 c = Ok (set_word 2 c msg) ∧
    csum_ok (word_sum (ip16 src ++ ip16 dst) + NextHeaderICMPv6 + Z.of_nat (length msg)) (set_word 2 c msg).
Proof.
  intros Hs Hd Hm Hl Hlt. unfold ICMPv6Checksum, sum16WithChecksumZeroed.
  destruct (Nat.ltb_spec (length msg) 4); [lia|]. rewrite zeroed_set_word by done.
  rewrite (u32_small (Z.of_nat (length msg))) by (unfold is_u32; lia). set (n := Z.of_nat (length msg)) in *.
  assert (bytes_ok (ip16 src ++ ip16 dst)) as Ha by (apply Forall_app; split; by apply ip16_ok).
  assert (length (ip16 src ++ ip16 dst) = 32%nat) as Hal by (by rewrite length_app, !length_ip16).
  rewrite (sum16_word (set_word 2 0 msg)) by (try apply set_word_ok; rewrite ?length_set_word by lia; fold n; done || lia).
  assert (sum16 (ip16 src ++ ip16 dst ++ put_be32 n ++ [0; 0; 0; NextHeaderICMPv6]) =
    word_sum (ip16 src ++ ip16 dst) + n + NextHeaderICMPv6) as ->.
  { rewrite app_assoc, sum16_word.
    - rewrite word_sum_app by (rewrite Hal; by exists 16%nat). unfold put_be32. cbn [app word_sum].
      bitfield. unfold u8, NextHeaderICMPv6. dlia.
    - apply Forall_app. split; [done|]. repeat constructor; try apply u8_range; unfold is_u8, NextHeaderICMPv6; lia.
    - rewrite length_app, Hal. cbn. lia. }
  pose proof (word_sum_bounds _ Ha) as Hb1. pose proof (word_sum_bounds _ (set_word_ok 2 0 _ Hm)) as Hb2.
  rewrite Hal in Hb1. rewrite length_set_word in Hb2 by lia. fold n in Hb2. unfold NextHeaderICMPv6 in *.
  rewrite u32_small by (unfold is_u32; lia).
  destruct (foldChecksum_spec (word_sum (ip16 src ++ ip16 dst) + n + 58 + word_sum (set_word 2 0 msg))) as (c & E & Hc & Hp & Hz);
    [unfold is_u32; lia|]. exists c. split_and!; [done|done|apply put16_split; lia|].
  unfold csum_ok. rewrite word_sum_set by (first [by exists 1%nat|lia|done]).
  replace (_ + _ + n + _) with (word_sum (ip16 src ++ ip16 dst) + n + 58 + word_sum (set_word 2 0 msg) + c) by lia. done.
Qed.

Lemma BuildIPv6Packet_view src dst nh hop payload :
  Z.of_nat (length payload) < 65536 →
  let pkt := BuildIPv6Packet src dst nh hop payload in
  let v := mkL4 40 (40 + length payload) nh (ip16 src ++ ip16 dst) true in
  length pkt = (40 + length payload)%nat ∧ l4_view pkt = Some v ∧ segment pkt v = payload.
Proof.
  intros Hl pkt v. assert (drop 40 pkt = payload) as Hd.
  { unfold pkt, BuildIPv6Packet. rewrite !app_assoc. apply drop_app_length'. by rewrite !length_app, !length_ip16. }
  assert (length pkt = (40 + length payload)%nat) as Hlen.
  { unfold pkt, BuildIPv6Packet. rewrite !length_app, !length_ip16. cbn. lia. }
  split; [done|]. split.
  - unfold l4_view. rewrite Hlen. cbn [Nat.add Nat.eqb].
    assert (octet pkt 0 ≫ 4 = 6) as -> by reflexivity. cbn [Z.eqb Pos.eqb]. unfold l4_view6.
    assert (word_at pkt 4 = Z.of_nat (length payload)) as ->.
    { unfold word_at, pkt, BuildIPv6Packet. cbn [lookup list_lookup app].
      rewrite u16_small by (unfold is_u16; lia). by rewrite be16_split by (unfold is_u16; lia). }
    rewrite Nat2Z.id, Hlen. destruct (Nat.ltb_spec (40 + length payload) 40); [lia|].
    rewrite Nat.ltb_irrefl. cbn [orb]. unfold v. f_equal. f_equal.
    unfold pkt, BuildIPv6Packet. cbn [drop app]. rewrite app_assoc. apply take_app_length'.
    by rewrite length_app, !length_ip16.
  - unfold segment, v. cbn [v_start v_end]. rewrite Hd. apply take_ge. lia.
Qed.

(** The checksum, filled in and wrapped, is what the receiver computes. *)
Lemma icmpv6_packet src dst hop msg c :
  Z.of_nat (length msg) < 65536 → (4 <= length msg)%nat →
  csum_ok (word_sum (ip16 src ++ ip16 dst) + NextHeaderICMPv6 + Z.of_nat (length msg)) (set_word 2 c msg) →
  icmpv6_valid (BuildIPv6Packet src dst NextHeaderICMPv6 hop (set_word 2 c msg)).
Proof.
  intros Hl H4 Hok. assert (length (set_word 2 c msg) = length msg) as Hs by (apply length_set_word; lia).
  destruct (BuildIPv6Packet_view src dst NextHeaderICMPv6 hop (set_word 2 c msg)) as (_ & Hv & Hseg); [by rewrite Hs|].
  eexists. split; [exact Hv|]. split; [done|]. unfold pseudo. rewrite Hseg, Hs. cbn [v_addrs v_proto]. done.
Qed.

(** ** Router Advertisement *)

Lemma maskSize_64 : maskSize (CIDRMask 64 16) = (64, 128)%nat.
Proof. reflexivity. Qed.

(** The advertisement for a /64: what its fields are, and that it is valid. *)
Lemma BuildRouterAdvertisement_spec network dst :
  length network = 16%nat → bytes_ok network → (∀ d, dst = Some d → bytes_ok d) →
  let opts := mkOptions 0 0 0 0 None dst in
  let d := default AllNodesMulticastAddr dst in
  ∃ c pkt, BuildRouterAdvertisement (Some (mkIPNet network (CIDRMask 64 16))) opts = Ok pkt ∧
    pkt = BuildIPv6Packet LinkLocalRouterAddr d NextHeaderICMPv6 hopLimitNeighborDisc
      (set_word 2 c (raMessage DefaultCurHopLimit DefaultRouterLifetimeSeconds DefaultValidLifetimeSeconds
                       DefaultPreferredLifetimeSeconds network)) ∧
    icmpv6_valid pkt ∧ length pkt = 88%nat.
Proof.
  intros Hl Hn Hd opts d. unfold BuildRouterAdvertisement. cbn [netMask netIP]. rewrite maskSize_64.
  rewrite bool_decide_eq_true_2 by done. cbn [negb]. unfold To16. rewrite Hl. cbn [Nat.eqb].
  unfold opts. cbn [o_Src o_Dst o_CurHopLimit o_RouterLifetimeSeconds o_ValidLifetimeSeconds o_PreferredLifetimeSeconds].
  cbn [orZero Z.eqb default]. fold d. set (msg := raMessage _ _ _ _ network).
  assert (length msg = 48%nat) as Hm by (unfold msg, raMessage; rewrite !length_app, Hl; done).
  assert (bytes_ok msg) as Hmo.
  { unfold msg, raMessage, bytes_ok. rewrite !Forall_app.
    split_and!; [..|done]; apply (bool_decide_unpack _); vm_compute; exact I. }
  assert (bytes_ok d) as Hdo.
  { unfold d. destruct dst as [x|]; [by apply Hd|]. apply (bool_decide_unpack _). vm_compute. exact I. }
  destruct (ICMPv6Checksum_spec LinkLocalRouterAddr d msg) as (c & Ec & Hc & Ep & Hok);
    [apply (bool_decide_unpack _); vm_compute; exact I|done|done|lia|lia|].
  rewrite Ec. cbn [mbind res_bind]. rewrite Ep. cbn [mbind res_bind].
  exists c, (BuildIPv6Packet LinkLocalRouterAddr d NextHeaderICMPv6 hopLimitNeighborDisc (set_word 2 c msg)).
  split_and!; [done|done|apply icmpv6_packet; [lia|lia|done]|].
  edestruct BuildIPv6Packet_view as (-> & _); rewrite length_set_word, Hm by lia; done.
Qed.
