(* ===== verification/UpfGtpu.v ===== *)
(** The user plane of the UPF, [nf/upf/internal/gtpu/server.go], with the Router
    Advertisements of [nf/upf/internal/pfcp/server.go]: what happens to one
    datagram from a gNB (N3) and to one packet read from a TUN device (N6).

    The state is that of the PFCP server, whose sessions and buckets the user
    plane shares.  A handler returns the new state and what it did: frames sent
    to gNBs, packets written to TUN devices, and the drops it counted.  [World]
    says whether the writes of the step succeed and what the enforcement clock
    reads.  Logs, and the counters of forwarded packets, are not modelled. *)
From S2P Require Import Prelude NasPduSession SmfPools UpfBucket UpfQos UpfQer UpfServer UpfChecksum UpfRa.

Definition gtpuPort : Z := 2152.
Definition gtpuMinHdr : nat := 8.
Definition gtpuExtHdr : nat := 12.
Definition msgTypeTPDU : Z := 0xFF.
Definition extHdrTypePDUSessionContainer : Z := 0x85.
Definition pduSessionContainerDL : Z := 0x00.
Definition dlHeadroom : nat := 16.
Definition icmpv6TypeEchoRequest : Z := 128.
Definition icmpv6TypeEchoReply : Z := 129.

Record tunRoute := mkTunRoute { rt_dnn : string; rt_subnet : IPNet; rt_subnet6 : option IPNet }.

(** [Config] and the parts of [Server] that start-up sets: [g_n3IP] is nil when
    it does not parse, [g_pfcp] and [g_raSender] say whether [SetPFCPServer] and
    [SetRASender] were called. *)
Record Gtpu := mkGtpu {
  g_n3IP : bytes; g_tuns : list tunRoute; g_L4ChecksumRepair : bool; g_pfcp : bool; g_raSender : bool }.

Inductive DropCounter :=
| dropNoSession | dropNoRoute | dropTunWrite | dropSend | dropDLNoSession | dropDLNotReady
| dropQER (r : DropReason).

Inductive Out :=
| Frame (gnb : bytes) (port : Z) (frame : bytes)
| ToTUN (dnn : string) (pkt : bytes)
| Dropped (c : DropCounter).

Record World := mkWorld { w_now : Z; w_send : bool; w_tun : bool }.

(** A session of the table with its location. *)
Definition byTEID (t : SessionTable) (teid : Z) : option (loc * Session) :=
  r ← byULTEID t !! teid; s ← heap t !! r; Some (r, s).
Definition byAddr (t : SessionTable) (ip : bytes) : option (loc * Session) :=
  a ← ueAddr ip; r ← byUEIP t !! a; s ← heap t !! r; Some (r, s).
Definition byPrefix (t : SessionTable) (ip : bytes) : option (loc * Session) :=
  k ← ueV6Prefix (Some ip); r ← byUEIPv6Net t !! k; s ← heap t !! r; Some (r, s).

Definition with_session (sv : Server) (r : loc) (s : Session) : Server :=
  mkServer (buckets sv) (set_session (sessions sv) r s) (reportSeq sv) (qosCfg sv).

(** * Encapsulation *)

Definition buildDLPDUSessionContainer (qfi : Z) : bytes :=
  [0; 0; 0; extHdrTypePDUSessionContainer; 1; pduSessionContainerDL; Z.land qfi 0x3F; 0].

Definition putDLHeader (dlTEID qfi : Z) (innerLen : nat) : bytes :=
  let n := u16 (8 + Z.of_nat innerLen) in
  [0x34; msgTypeTPDU; u8 (n ≫ 8); u8 n] ++ put_be32 dlTEID ++
  [0; 0; 0; extHdrTypePDUSessionContainer; 1; pduSessionContainerDL; Z.land qfi 0x3F; 0].

Definition sendFrame (w : World) (sv : Server) (r : loc) (s : Session) (frame : bytes) (innerLen : nat)
  : Server * list Out * bool :=
  match GNBIP s ≫= ueAddr with
  | None => (sv, [Dropped dropSend], false)
  | Some gnb =>
      if w_send w
      then (with_session sv r (AddDLVolume s (Z.of_nat innerLen)), [Frame gnb gtpuPort frame], true)
      else (sv, [Dropped dropSend], false)
  end.

Definition sendGTPU (w : World) (sv : Server) (r : loc) (s : Session) (innerIP : bytes) : Server * list Out :=
  (sendFrame w sv r s (putDLHeader (DLTEID s) (DLQFI (qos s)) (length innerIP) ++ innerIP) (length innerIP)).1.

(** [sess.DLTEID == 0 || sess.GNBIP == nil] does not hold. *)
Definition tunnelReady (s : Session) : bool := negb (DLTEID s =? 0) && bool_decide (is_Some (GNBIP s)).

(** * Router Advertisements *)

Definition emitRA (g : Gtpu) (w : World) (sv : Server) (r : loc) (s : Session) (dst : option bytes)
  : res (Server * list Out) :=
  match UEIPv6 s with
  | None => Ok (sv, [])
  | Some ueIPv6 =>
      if negb (g_raSender g) then Ok (sv, [])
      else match ueV6Prefix (Some ueIPv6) with
      | None => Ok (sv, [])
      | Some network =>
          if negb (tunnelReady s) then Ok (sv, [])
          else match BuildRouterAdvertisement (Some (mkIPNet network (CIDRMask 64 16))) (mkOptions 0 0 0 0 None dst) with
          | Ok pkt => Ok (sendGTPU w sv r s pkt)
          | Err _ => Ok (sv, [])
          | Panic => Panic
          | OutOfFuel => OutOfFuel
          end
      end
  end.

Definition TriggerSolicitedRA (g : Gtpu) (w : World) (sv : Server) (r : loc) (s : Session) (srcLL : bytes)
  : res (Server * list Out) := emitRA g w sv r s (Some srcLL).

(** One tick of [runRAAdvertiser], for a session whose advertiser runs. *)
Definition advertiserTick (g : Gtpu) (w : World) (sv : Server) (r : loc) : res (Server * list Out) :=
  match heap (sessions sv) !! r with
  | Some s => if raCancel s then emitRA g w sv r s None else Ok (sv, [])
  | None => Ok (sv, [])
  end.

(** * Uplink *)

(** [for pkt[hdrLen-1] != 0 { ... }]: the end of the header, [None] to give up. *)
Fixpoint skipExtensions (fuel : nat) (pkt : bytes) (hdrLen : nat) : res (option nat) :=
  match fuel with
  | O => OutOfFuel
  | S k =>
      t ← idx pkt (hdrLen - 1);
      if t =? 0 then Ok (Some hdrLen)
      else if (length pkt <=? hdrLen)%nat then Ok None
      else
        l ← idx pkt hdrLen;
        let extLen := Z.to_nat (l * 4) in
        if (extLen <? 4)%nat || (length pkt <? hdrLen + extLen)%nat then Ok None
        else skipExtensions k pkt (hdrLen + extLen)
  end.

(** The TEID and the payload of a T-PDU, [None] for what is ignored. *)
Definition decapsulate (pkt : bytes) : res (option (Z * bytes)) :=
  if (length pkt <? gtpuMinHdr)%nat then Ok None
  else
    flags ← idx pkt 0;
    msgType ← idx pkt 1;
    t0 ← idx pkt 4; t1 ← idx pkt 5; t2 ← idx pkt 6; t3 ← idx pkt 7;
    if negb (msgType =? msgTypeTPDU) then Ok None
    else
      hdrLen ← (if negb (Z.land flags 0x07 =? 0) then
                  if (length pkt <? gtpuExtHdr)%nat then Ok None
                  else skipExtensions (S (length pkt)) pkt gtpuExtHdr
                else Ok (Some gtpuMinHdr));
      match hdrLen with
      | None => Ok None
      | Some hdrLen =>
          if (length pkt <=? hdrLen)%nat then Ok None
          else inner ← slice_from pkt hdrLen; Ok (Some (be32 t0 t1 t2 t3, inner))
      end.

Definition tunRouteForIP (g : Gtpu) (ip : bytes) : option tunRoute :=
  List.find (λ rt, Contains (rt_subnet rt) ip) (g_tuns g).
Definition tunRouteForIPv6 (g : Gtpu) (ip : bytes) : option tunRoute :=
  List.find (λ rt, match rt_subnet6 rt with Some n => Contains n ip | None => false end) (g_tuns g).

(** The write to the device that the source address selects. *)
Definition toTUN (w : World) (sv : Server) (rt : option tunRoute) (inner : bytes) : Server * list Out :=
  match rt with
  | None => (sv, [Dropped dropNoRoute])
  | Some rt => if w_tun w then (sv, [ToTUN (rt_dnn rt) inner]) else (sv, [Dropped dropTunWrite])
  end.

(** ** IPv6 *)

Definition buildICMPv6EchoReply (reqSrc reqDst icmpReq : bytes) : res bytes :=
  if (length icmpReq <? 2)%nat then Panic
  else
    let reply := <[0%nat := icmpv6TypeEchoReply]> (<[1%nat := 0]> icmpReq) in
    c ← ICMPv6Checksum reqDst reqSrc reply;
    reply ← put16 reply 2 c;
    Ok (BuildIPv6Packet reqDst reqSrc NextHeaderICMPv6 DefaultCurHopLimit reply).

Definition handleInnerIPv6 (g : Gtpu) (w : World) (sv : Server) (r : loc) (s : Session) (inner : bytes)
  : res (Server * list Out) :=
  rs ← ParseRouterSolicitation inner;
  match rs with
  | Some srcLL => if g_pfcp g then TriggerSolicitedRA g w sv r s srcLL else Ok (sv, [])
  | None =>
      if (length inner <? 40)%nat then Ok (sv, [])
      else
        srcIP ← slice inner 8 24;
        dstIP ← slice inner 24 40;
        nh ← idx inner 6;
        echo ← (if (nh =? NextHeaderICMPv6) && (48 <=? length inner)%nat then
                  icmp ← slice_from inner 40;
                  t ← idx icmp 0;
                  Ok (if (t =? icmpv6TypeEchoRequest) && ipEqual dstIP LinkLocalRouterAddr then Some icmp else None)
                else Ok None);
        match echo with
        | Some icmp =>
            if negb (tunnelReady s) then Ok (sv, [])
            else reply ← buildICMPv6EchoReply srcIP dstIP icmp; Ok (sendGTPU w sv r s reply)
        | None => Ok (toTUN w sv (tunRouteForIPv6 g srcIP) inner)
        end
  end.

(** ** IPv4 *)

(** The two octets of the complement of the folded sum; its loops are those of
    [sum16] and [foldChecksum]. *)
Definition ipChecksum (data : bytes) : res bytes :=
  c ← foldChecksum (sum16 data); Ok [u8 (c ≫ 8); u8 c].

(** [copy(b[i:i+len(v)], v)] *)
Definition copy_at (b : bytes) (i : nat) (v : bytes) : res bytes :=
  if (i + length v <=? length b)%nat then Ok (take i b ++ v ++ drop (i + length v) b) else Panic.

Definition buildICMPReply (ipPkt : bytes) (ihl : nat) (icmpReq : bytes) : res bytes :=
  hdr ← slice ipPkt 0 ihl;
  let reply := go_copy (replicate (ihl + length icmpReq) 0) hdr in
  dst ← slice ipPkt 16 20;
  reply ← copy_at reply 12 dst;
  src ← slice ipPkt 12 16;
  reply ← copy_at reply 16 src;
  reply ← copy_at reply 10 [0; 0];
  h ← slice reply 0 ihl;
  cs ← ipChecksum h;
  reply ← copy_at reply 10 cs;
  reply ← copy_at reply ihl icmpReq;
  reply ← copy_at reply ihl [0; 0];
  reply ← copy_at reply (ihl + 2) [0; 0];
  body ← slice_from reply ihl;
  cs ← ipChecksum body;
  copy_at reply (ihl + 2) cs.

Definition handleICMPToSelf (w : World) (sv : Server) (r : loc) (s : Session) (inner : bytes) : res (Server * list Out) :=
  proto ← idx inner 9;
  if negb (proto =? 1) then Ok (sv, [])
  else
    b0 ← idx inner 0;
    let ihl := Z.to_nat (Z.land b0 0x0F * 4) in
    if (length inner <? ihl + 8)%nat then Ok (sv, [])
    else
      icmp ← slice_from inner ihl;
      t ← idx icmp 0;
      if negb (t =? 8) then Ok (sv, [])
      else if negb (tunnelReady s) then Ok (sv, [])
      else reply ← buildICMPReply inner ihl icmp; Ok (sendGTPU w sv r s reply).

Definition processInnerIP (g : Gtpu) (w : World) (sv : Server) (r : loc) (s : Session) (inner : bytes)
  : res (Server * list Out) :=
  if (length inner <? 20)%nat then Ok (sv, [])
  else
    b0 ← idx inner 0;
    if negb (b0 ≫ 4 =? 4) then Ok (sv, [])
    else
      dstIP ← slice inner 16 20;
      if ipEqual dstIP (g_n3IP g) then handleICMPToSelf w sv r s inner
      else srcIP ← slice inner 12 16; Ok (toTUN w sv (tunRouteForIP g srcIP) inner).

(** ** A datagram *)

(** [handlePacket] once the session is known. *)
Definition uplink (g : Gtpu) (w : World) (sv : Server) (r : loc) (s : Session) (inner : bytes)
  : res (Server * list Out) :=
  x ← AdmitUL (buckets sv) (qos s) (Z.of_nat (length inner)) (w_now w);
  let '(h, (ok, reason)) := x in
  let sv := with_buckets sv h in
  if negb ok then Ok (sv, [Dropped (dropQER reason)])
  else
    let s := AddULVolume s (Z.of_nat (length inner)) in
    let sv := with_session sv r s in
    v6 ← (if (0 <? length inner)%nat then b0 ← idx inner 0; Ok (b0 ≫ 4 =? 6) else Ok false);
    if (v6 : bool) then handleInnerIPv6 g w sv r s inner else processInnerIP g w sv r s inner.

Definition handlePacket (g : Gtpu) (w : World) (sv : Server) (pkt : bytes) : res (Server * list Out) :=
  d ← decapsulate pkt;
  match d with
  | None => Ok (sv, [])
  | Some (teid, inner) =>
      match byTEID (sessions sv) teid with
      | None => Ok (sv, [Dropped dropNoSession])
      | Some (r, s) => uplink g w sv r s inner
      end
  end.

(** * Downlink *)

(** The packet afterwards. *)
Definition repairDownlinkChecksum (g : Gtpu) (pkt : bytes) : res bytes :=
  if negb (g_L4ChecksumRepair g) then Ok pkt else '(pkt, _) ← Repair pkt; Ok pkt.

(** [handleTUNPacket] once the session is known. *)
Definition downlink (g : Gtpu) (w : World) (sv : Server) (r : loc) (s : Session) (pkt : bytes)
  : res (Server * list Out * bool) :=
  if negb (tunnelReady s) then Ok (sv, [Dropped dropDLNotReady], false)
  else
    x ← AdmitDL (buckets sv) (qos s) (Z.of_nat (length pkt)) (w_now w);
    let '(h, (ok, reason)) := x in
    let sv := with_buckets sv h in
    if negb ok then Ok (sv, [Dropped (dropQER reason)], false)
    else
      pkt' ← repairDownlinkChecksum g pkt;
      Ok (sendFrame w sv r s (putDLHeader (DLTEID s) (DLQFI (qos s)) (length pkt) ++ pkt') (length pkt)).

(** The session of the destination address; [None] for a packet that is ignored. *)
Definition downlinkSession (sv : Server) (pkt : bytes) : res (option (option (loc * Session))) :=
  b0 ← idx pkt 0;
  if b0 ≫ 4 =? 4 then
    if (length pkt <? 20)%nat then Ok None
    else dstIP ← slice pkt 16 20; Ok (Some (byAddr (sessions sv) dstIP))
  else if b0 ≫ 4 =? 6 then
    if (length pkt <? 40)%nat then Ok None
    else dstIP ← slice pkt 24 40; Ok (Some (byPrefix (sessions sv) dstIP))
  else Ok None.

Definition handleTUNPacket (g : Gtpu) (w : World) (sv : Server) (pkt : bytes) : res (Server * list Out * bool) :=
  f ← downlinkSession sv pkt;
  match f with
  | None => Ok (sv, [], false)
  | Some None => Ok (sv, [Dropped dropDLNoSession], false)
  | Some (Some (r, s)) => downlink g w sv r s pkt
  end.

(** [startTUNReader] skips empty reads. *)
Definition tunRead (g : Gtpu) (w : World) (sv : Server) (pkt : bytes) : res (Server * list Out * bool) :=
  if (length pkt <? 1)%nat then Ok (sv, [], false) else handleTUNPacket g w sv pkt.

Definition InjectDownlink (g : Gtpu) (w : World) (sv : Server) (dnn : string) (ipPkt : bytes)
  : res (Server * list Out * bool) :=
  match List.find (λ rt, String.eqb (rt_dnn rt) dnn) (g_tuns g) with
  | None => Ok (sv, [], false)
  | Some _ => handleTUNPacket g w sv ipPkt
  end.
