(* ===== verification/UpfGtpuSpec.v ===== *)
(** What the user plane of [UpfGtpu] guarantees: the header it reads and writes is
    that of TS 29.281, no datagram or packet makes it fail over any interleaving
    with the control plane, and downlink packets reach the gNB of the session that
    has their address. *)
From S2P Require Import Prelude NasPduSession SmfPools UpfBucket UpfQos UpfQer UpfServer UpfChecksum UpfRa UpfGtpu.
Import Bucket.

(** * The header of TS 29.281 *)

(** An extension header: its type and content. *)
Record ExtHdr := mkExt { x_type : Z; x_content : bytes }.

(** The type is not zero, and with its length octet and the type of the next the
    header fills a number of 4-octet units that fits the length octet. *)
Definition ext_ok (x : ExtHdr) : Prop :=
  is_u8 (x_type x) ∧ x_type x ≠ 0 ∧ ∃ k, (1 <= k <= 255)%nat ∧ length (x_content x) = (4 * k - 2)%nat.

Definition next_type (xs : list ExtHdr) : Z := match xs with [] => 0 | x :: _ => x_type x end.

Fixpoint exts_wire (xs : list ExtHdr) : bytes :=
  match xs with
  | [] => []
  | x :: r => [Z.of_nat (length (x_content x) + 2) / 4] ++ x_content x ++ [next_type r] ++ exts_wire r
  end.

(** The optional fields: sequence number, N-PDU number and extension headers. *)
Record OptFields := mkOpt { f_seq : Z; f_npdu : Z; f_exts : list ExtHdr }.

Definition opt_wire (o : option OptFields) : bytes :=
  match o with
  | None => []
  | Some o => [u8 (f_seq o ≫ 8); u8 (f_seq o); f_npdu o; next_type (f_exts o)] ++ exts_wire (f_exts o)
  end.

(** A T-PDU, version 1: [flags] are the bits E, S and PN. *)
Definition tpdu (flags teid : Z) (o : option OptFields) (inner : bytes) : bytes :=
  let n := Z.of_nat (length (opt_wire o) + length inner) in
  [48 + flags; 255; u8 (n ≫ 8); u8 n] ++ put_be32 teid ++ opt_wire o ++ inner.

(** The flags announce what is there. *)
Definition flags_ok (flags : Z) (o : option OptFields) : Prop :=
  0 <= flags < 8 ∧ match o with
  | None => flags = 0
  | Some o => flags ≠ 0 ∧ (f_exts o ≠ [] → 4 <= flags) ∧ Forall ext_ok (f_exts o)
  end.

Lemma exts_wire_length x r :
  ext_ok x → ∃ k, (1 <= k <= 255)%nat ∧ Z.of_nat (length (x_content x) + 2) / 4 = Z.of_nat k ∧
    length (x_content x) = (4 * k - 2)%nat ∧ length (exts_wire (x :: r)) = (4 * k + length (exts_wire r))%nat.
Proof.
  intros (_ & _ & k & Hk & Hl). exists k. split; [done|]. split; [|split; [done|]].
  - rewrite Hl. replace (Z.of_nat (4 * k - 2 + 2)) with (Z.of_nat k * 4) by lia. apply Z.div_mul. lia.
  - cbn [exts_wire]. rewrite !length_app, Hl. cbn. lia.
Qed.

Lemma skip_all pre xs inner fuel :
  Forall ext_ok xs → (1 <= length pre)%nat → pre !! (length pre - 1)%nat = Some (next_type xs) →
  (length (exts_wire xs) < fuel)%nat →
  skipExtensions fuel (pre ++ exts_wire xs ++ inner) (length pre) = Ok (Some (length pre + length (exts_wire xs))%nat).
Proof.
  revert pre fuel. induction xs as [|x r IH]; intros pre fuel Hx Hp Hl Hf.
  - destruct fuel as [|fuel]; [lia|]. cbn [skipExtensions exts_wire]. unfold idx.
    rewrite (lookup_app_l pre _ (length pre - 1)%nat) by lia. rewrite Hl. cbn [mbind res_bind next_type]. by rewrite Nat.add_0_r.
  - apply Forall_cons in Hx as [Hx Hr]. destruct (exts_wire_length x r Hx) as (k & Hk & Hd & Hc & Hw).
    rewrite Hw. destruct fuel as [|fuel]; [lia|]. cbn [skipExtensions]. unfold idx. rewrite (lookup_app_l pre _ (length pre - 1)%nat) by lia. rewrite Hl.
    cbn [mbind res_bind next_type]. destruct Hx as (_ & Hnz & _). rewrite (proj2 (Z.eqb_neq _ _) Hnz).
    destruct (Nat.leb_spec (length (pre ++ exts_wire (x :: r) ++ inner)) (length pre)) as [Hle|_];
      [rewrite !length_app, Hw in Hle; lia|].
    rewrite lookup_app_r, Nat.sub_diag by lia. cbn [exts_wire app lookup list_lookup mbind res_bind].
    rewrite Hd. replace (Z.to_nat (Z.of_nat k * 4)) with (4 * k)%nat by lia.
    destruct (Nat.ltb_spec (4 * k) 4); [lia|].
    set (pre' := pre ++ [Z.of_nat k] ++ x_content x ++ [next_type r]).
    assert (length pre' = (length pre + 4 * k)%nat) as Hl' by (unfold pre'; rewrite !length_app, Hc; cbn; lia).
    assert (pre ++ (Z.of_nat k :: x_content x ++ next_type r :: exts_wire r) ++ inner = pre' ++ exts_wire r ++ inner) as Heq.
    { unfold pre'. rewrite <- !app_assoc. cbn [app]. by rewrite <- !app_assoc. }
    cbn [app] in Heq. rewrite Heq.
    destruct (Nat.ltb_spec (length (pre' ++ exts_wire r ++ inner)) (length pre + 4 * k)) as [Hlt|_];
      [rewrite length_app, Hl' in Hlt; lia|]. cbn [orb]. rewrite <- Hl'.
    rewrite IH; [|done|lia| |rewrite Hw in Hf; lia].
    + f_equal. f_equal. rewrite Hl'. lia.
    + replace (length pre' - 1)%nat with (length (pre ++ [Z.of_nat k] ++ x_content x)).
      2: { unfold pre'. rewrite !length_app. cbn. lia. }
      unfold pre'. replace (pre ++ [Z.of_nat k] ++ x_content x ++ [next_type r])
        with ((pre ++ [Z.of_nat k] ++ x_content x) ++ [next_type r]) by (by rewrite <- !app_assoc).
      by rewrite list_lookup_middle.
Qed.

Lemma put_be32_read v : is_u32 v → be32 (u8 (v ≫ 24)) (u8 (v ≫ 16)) (u8 (v ≫ 8)) (u8 v) = v.
Proof. apply be32_split. Qed.

Lemma flags_land flags : 0 <= flags < 8 → Z.land (48 + flags) 7 = flags.
Proof. intros. autorewrite with bitfield. dlia. Qed.

(** Every well-formed T-PDU with a payload is read. *)
Lemma decapsulate_tpdu flags teid o inner :
  flags_ok flags o → is_u32 teid → inner ≠ [] → decapsulate (tpdu flags teid o inner) = Ok (Some (teid, inner)).
Proof.
  intros [Hf Ho] Ht Hi. set (pkt := tpdu flags teid o inner).
  set (hdr := [48 + flags; 255; u8 (Z.of_nat (length (opt_wire o) + length inner) ≫ 8);
               u8 (Z.of_nat (length (opt_wire o) + length inner))] ++ put_be32 teid).
  assert (pkt = hdr ++ opt_wire o ++ inner) as Hpkt by (unfold pkt, tpdu, hdr; by rewrite <- app_assoc).
  assert (length hdr = 8%nat) as Hh by done. assert (0 < length inner)%nat as Hi0 by (by destruct inner; [|cbn; lia]).
  unfold decapsulate. destruct (Nat.ltb_spec (length pkt) gtpuMinHdr) as [Hlt|_];
    [rewrite Hpkt, length_app, Hh in Hlt; unfold gtpuMinHdr in Hlt; lia|].
  unfold idx. rewrite Hpkt. cbn [lookup list_lookup app hdr put_be32 mbind res_bind]. rewrite flags_land by done.
  fold (put_be32 teid). change (negb (255 =? msgTypeTPDU)) with false. cbn [negb].
  rewrite put_be32_read by done.
  change (48 + flags :: 255 :: _) with (hdr ++ opt_wire o ++ inner).
  assert (∀ n rest, pkt = rest ++ inner → n = length rest →
    (if (length (hdr ++ opt_wire o ++ inner) <=? n)%nat then Ok None
     else inner0 ← slice_from (hdr ++ opt_wire o ++ inner) n; Ok (Some (teid, inner0))) = Ok (Some (teid, inner))) as Hend.
  { intros n rest Hr ->. rewrite <- Hpkt, Hr. destruct (Nat.leb_spec (length (rest ++ inner)) (length rest)) as [Hle|_];
      [rewrite length_app in Hle; lia|]. rewrite slice_from_Ok by (rewrite length_app; lia). by rewrite drop_app_length. }
  destruct o as [o|].
  - destruct Ho as (Hn & _ & Hx). rewrite (proj2 (Z.eqb_neq _ _) Hn). cbn [negb].
    set (pre := hdr ++ [u8 (f_seq o ≫ 8); u8 (f_seq o); f_npdu o; next_type (f_exts o)]).
    assert (hdr ++ opt_wire (Some o) ++ inner = pre ++ exts_wire (f_exts o) ++ inner) as Heq.
    { unfold pre, opt_wire. by rewrite <- !app_assoc. }
    destruct (Nat.ltb_spec (length (hdr ++ opt_wire (Some o) ++ inner)) gtpuExtHdr) as [Hlt|_].
    { rewrite Heq, length_app in Hlt. change (length pre) with 12%nat in Hlt. unfold gtpuExtHdr in Hlt. lia. }
    rewrite Heq at 1 2. change gtpuExtHdr with (length pre).
    rewrite skip_all; [|done|cbn; lia|done|rewrite !length_app; lia]. cbn [mbind res_bind].
    apply (Hend _ (pre ++ exts_wire (f_exts o))); [by rewrite Hpkt, Heq, <- app_assoc|by rewrite length_app].
  - rewrite Ho. cbn [Z.eqb negb mbind res_bind]. apply (Hend _ hdr); [by rewrite Hpkt|done].
Qed.

(** What the UPF sends: one extension header, the PDU Session Container. *)
Definition dl_frame (teid qfi : Z) (inner : bytes) : bytes :=
  tpdu 4 teid (Some (mkOpt 0 0 [mkExt 0x85 [0; Z.land qfi 0x3F]])) inner.

Lemma putDLHeader_frame teid qfi n inner :
  length inner = n → Z.of_nat n < 65528 → putDLHeader teid qfi n ++ inner = dl_frame teid qfi inner.
Proof.
  intros <- Hl. unfold putDLHeader, dl_frame, tpdu. cbn [opt_wire f_exts f_seq f_npdu exts_wire next_type length].
  change (length (x_content _)) with 2%nat. cbn [x_content x_type app length Nat.add].
  rewrite u16_small by (unfold is_u16; lia). rewrite <- !app_assoc.
  change (S (S (S (S (S (S (S (S (length inner))))))))) with (8 + length inner)%nat. by rewrite Nat2Z.inj_add.
Qed.

(** The header ends in the block of [buildDLPDUSessionContainer]. *)
Lemma putDLHeader_container teid qfi n : drop 8 (putDLHeader teid qfi n) = buildDLPDUSessionContainer qfi.
Proof. done. Qed.

Lemma dl_frame_read teid qfi inner : is_u32 teid → inner ≠ [] → decapsulate (dl_frame teid qfi inner) = Ok (Some (teid, inner)).
Proof.
  intros. apply decapsulate_tpdu; [|done|done]. split; [lia|]. split_and!; [done|done|]. repeat constructor; try done.
  cbn [x_content]. exists 1%nat. cbn. lia.
Qed.

(** * Nothing makes the user plane fail *)

Lemma server_ok_session sv r s s' :
  server_ok sv → heap (sessions sv) !! r = Some s → QERs s' = QERs s → PDRs s' = PDRs s → qos s' = qos s →
  server_ok (with_session sv r s').
Proof.
  intros [H1 H2 H3 H4] Hr Eq Ep Ev. constructor; cbn [buckets sessions with_session set_session heap bySEID].
  - done.
  - apply map_Forall_insert_2; [|done]. unfold session_ok. rewrite Eq, Ep, Ev. exact (H2 r s Hr).
  - assert (∀ r1 s1, <[r:=s']> (heap (sessions sv)) !! r1 = Some s1 →
      ∃ s0, heap (sessions sv) !! r1 = Some s0 ∧ QERs s1 = QERs s0) as Hold.
    { intros r1 s1. destruct (decide (r1 = r)) as [->|]; [|rewrite lookup_insert_ne by done; by eauto].
      rewrite lookup_insert_eq. intros [= <-]. eauto. }
    intros r1 r2 s1 s2 x1 x2 l (t1 & Ht1 & ->)%Hold (t2 & Ht2 & ->)%Hold. by apply (H3 r1 r2 t1 t2).
  - intros k r' Hk. destruct (decide (r' = r)) as [->|]; [by rewrite lookup_insert_eq|].
    rewrite lookup_insert_ne by done. by eapply H4.
Qed.

Lemma AddDL_rules s n : QERs (AddDLVolume s n) = QERs s ∧ PDRs (AddDLVolume s n) = PDRs s ∧ qos (AddDLVolume s n) = qos s.
Proof. unfold AddDLVolume. by case_match. Qed.
Lemma AddUL_rules s n : QERs (AddULVolume s n) = QERs s ∧ PDRs (AddULVolume s n) = PDRs s ∧ qos (AddULVolume s n) = qos s.
Proof. unfold AddULVolume. by case_match. Qed.

(** The read buffers have 4096 octets. *)
Definition maxRead : nat := 4096.

(** A frame is a T-PDU to the GTP-U port with a non-empty packet in it. *)
Definition frame_ok (o : Out) : Prop :=
  match o with
  | Frame _ port f => port = 2152 ∧ ∃ teid qfi inner, f = dl_frame teid qfi inner ∧ (1 <= length inner <= maxRead)%nat
  | _ => True
  end.

Section Keeping.
Context {K : Prop}.

(** A consistent server, whose indexes are exact as long as [K] holds: [K] stands for
    the keys of new sessions being fresh. *)
Definition good (sv : Server) : Prop := server_ok sv ∧ (K → table_ok (sessions sv)).
Definition outcome_ok (x : Server * list Out) : Prop := good x.1 ∧ Forall frame_ok x.2.
Definition runs (m : res (Server * list Out)) : Prop := ∃ x, m = Ok x ∧ outcome_ok x.

Lemma good_session sv r s s' :
  good sv → heap (sessions sv) !! r = Some s → same_keys s s' →
  QERs s' = QERs s → PDRs s' = PDRs s → qos s' = qos s → good (with_session sv r s').
Proof. intros [Hok Ht] Hr Hk ???. split; [by eapply server_ok_session|]. intros HK. eapply set_table_ok; eauto. Qed.

Lemma AddUL_keys s n : same_keys s (AddULVolume s n).
Proof. unfold AddULVolume. by case_match. Qed.
Lemma AddDL_keys s n : same_keys s (AddDLVolume s n).
Proof. unfold AddDLVolume. by case_match. Qed.

Lemma runs_Ok sv out : good sv → Forall frame_ok out → runs (Ok (sv, out)).
Proof. intros. by exists (sv, out). Qed.

Lemma runs_bind {A} (m : res A) (f : A → res (Server * list Out)) :
  (∃ a, m = Ok a ∧ runs (f a)) → runs (m ≫= f).
Proof. intros (a & -> & H). exact H. Qed.

Lemma runs_idx (b : bytes) i (f : Z → res (Server * list Out)) :
  (i < length b)%nat → (∀ x, b !! i = Some x → runs (f x)) → runs (idx b i ≫= f).
Proof. intros Hi Hf. destruct (idx_Ok b i Hi) as (x & Hx & ->). by apply Hf. Qed.

Lemma runs_slice (b : bytes) i j (f : bytes → res (Server * list Out)) :
  (i <= j <= length b)%nat → runs (f (take (j - i) (drop i b))) → runs (slice b i j ≫= f).
Proof. intros [? ?] Hf. by rewrite slice_Ok. Qed.

Lemma sendFrame_ok w sv r s inner n :
  good sv → heap (sessions sv) !! r = Some s → length inner = n → (1 <= n <= maxRead)%nat →
  outcome_ok (sendFrame w sv r s (putDLHeader (DLTEID s) (DLQFI (qos s)) n ++ inner) n).1.
Proof.
  intros Hok Hr Hl Hn. unfold sendFrame. destruct (GNBIP s ≫= ueAddr) as [gnb|]; [|by split; [|apply Forall_singleton]].
  destruct (w_send w); [|by split; [|apply Forall_singleton]]. destruct (AddDL_rules s (Z.of_nat n)) as (? & ? & ?).
  split; [eapply good_session; eauto using AddDL_keys|]. apply Forall_singleton. split; [done|].
  eexists _, _, inner. split; [|by rewrite Hl]. apply putDLHeader_frame; [done|]. unfold maxRead in Hn. lia.
Qed.

Lemma sendGTPU_runs w sv r s inner :
  good sv → heap (sessions sv) !! r = Some s → (1 <= length inner <= maxRead)%nat → runs (Ok (sendGTPU w sv r s inner)).
Proof.
  intros Hok Hr Hn. eexists. split; [done|]. by apply sendFrame_ok.
Qed.

Lemma sum16_range b : is_u32 (sum16 b).
Proof.
  unfold sum16. assert (∀ acc, is_u32 acc → is_u32 (sum16_from b acc)) as H; [|apply H; unfold is_u32; lia].
  induction b as [|x|x y b IH] using pairs_ind; intros acc Ha; cbn; [done| |apply IH]; unfold is_u32, u32; dlia.
Qed.

Lemma ICMPv6Checksum_total src dst msg : ∃ c, ICMPv6Checksum src dst msg = Ok c.
Proof.
  unfold ICMPv6Checksum. edestruct foldChecksum_spec as (c & E & _); [|by exists c]. unfold is_u32, u32. dlia.
Qed.

Lemma put16_total b i c : (S i < length b)%nat → ∃ b', put16 b i c = Ok b' ∧ length b' = length b.
Proof.
  intros. rewrite put16_split by done. eexists. split; [done|]. exact (length_set_word i c b ltac:(done)).
Qed.

Lemma length_BuildIPv6Packet src dst nh hop p : length (BuildIPv6Packet src dst nh hop p) = (40 + length p)%nat.
Proof. unfold BuildIPv6Packet. rewrite !length_app, !length_ip16. cbn. lia. Qed.

Lemma ueV6Prefix_length ip n : ueV6Prefix (Some ip) = Some n → length n = 16%nat.
Proof.
  unfold ueV6Prefix. cbn. unfold UpfServer.To16. destruct (Nat.eqb_spec (length ip) 4) as [H4|]; cbn.
  - intros [= <-]. done.
  - destruct (Nat.eqb_spec (length ip) 16) as [H16|]; cbn; [|done]. intros [= <-].
    rewrite length_app, length_take, H16. done.
Qed.

Lemma BuildRouterAdvertisement_total network dst :
  length network = 16%nat → ∃ pkt,
    BuildRouterAdvertisement (Some (mkIPNet network (CIDRMask 64 16))) (mkOptions 0 0 0 0 None dst) = Ok pkt ∧
    length pkt = 88%nat.
Proof.
  intros Hl. unfold BuildRouterAdvertisement. cbn [netMask netIP]. rewrite maskSize_64.
  rewrite bool_decide_eq_true_2 by done. cbn [negb]. unfold NasPduSession.To16. rewrite Hl. cbn [Nat.eqb]. set (msg := raMessage _ _ _ _ _).
  assert (length msg = 48%nat) as Hm by (unfold msg, raMessage; rewrite !length_app, Hl; done).
  edestruct ICMPv6Checksum_total as [c ->]. cbn [mbind res_bind].
  destruct (put16_total msg 2 c) as (m & -> & Hlm); [lia|]. cbn [mbind res_bind].
  eexists. split; [done|]. rewrite length_BuildIPv6Packet. lia.
Qed.

Lemma emitRA_runs g w sv r s dst :
  good sv → heap (sessions sv) !! r = Some s → runs (emitRA g w sv r s dst).
Proof.
  intros Hok Hr. unfold emitRA. destruct (UEIPv6 s) as [ip|]; [|by apply runs_Ok].
  destruct (g_raSender g); [|by apply runs_Ok]. cbn [negb].
  destruct (ueV6Prefix (Some ip)) as [n|] eqn:En; [|by apply runs_Ok].
  destruct (tunnelReady s); [|by apply runs_Ok]. cbn [negb].
  destruct (BuildRouterAdvertisement_total n dst) as (pkt & -> & Hl); [by eapply ueV6Prefix_length|].
  apply sendGTPU_runs; [done|done|]. rewrite Hl. unfold maxRead. lia.
Qed.

Lemma toTUN_runs w sv rt inner : good sv → runs (Ok (toTUN w sv rt inner)).
Proof. intros Hok. unfold toTUN. repeat case_match; (apply runs_Ok; [done|by apply Forall_singleton]). Qed.

Lemma ParseRouterSolicitation_total pkt :
  ∃ o, ParseRouterSolicitation pkt = Ok o ∧ ∀ src, o = Some src → src = take 16 (drop 8 pkt) ∧ (48 <= length pkt)%nat.
Proof.
  unfold ParseRouterSolicitation, ipv6HeaderLen. destruct (Nat.ltb_spec (length pkt) 40); [by exists None|].
  destruct (idx_Ok pkt 0) as (b0 & _ & ->); [lia|]. cbn [mbind res_bind]. destruct (b0 ≫ 4 =? ipv6Version); [|by exists None].
  cbn [negb]. destruct (idx_Ok pkt 6) as (nh & _ & ->); [lia|]. cbn [mbind res_bind].
  destruct (nh =? NextHeaderICMPv6); [|by exists None]. cbn [negb]. rewrite slice_from_Ok by lia. cbn [mbind res_bind].
  rewrite length_drop. destruct (Nat.ltb_spec (length pkt - 40) 8); [by exists None|].
  destruct (idx_Ok (drop 40 pkt) 0) as (t & _ & ->); [rewrite length_drop; lia|]. cbn [mbind res_bind].
  destruct (t =? ICMPv6TypeRouterSolicitation); [|by exists None]. cbn [negb]. rewrite slice_Ok by lia. cbn [mbind res_bind].
  eexists. split; [done|]. intros src [= <-]. split; [done|lia].
Qed.

Lemma buildICMPv6EchoReply_total src dst icmp :
  (8 <= length icmp)%nat → ∃ p, buildICMPv6EchoReply src dst icmp = Ok p ∧ length p = (40 + length icmp)%nat.
Proof.
  intros Hl. unfold buildICMPv6EchoReply. destruct (Nat.ltb_spec (length icmp) 2); [lia|].
  edestruct ICMPv6Checksum_total as [c ->]. cbn [mbind res_bind].
  edestruct (put16_total (<[0%nat := icmpv6TypeEchoReply]> (<[1%nat := 0]> icmp)) 2 c) as (m & -> & Hlm);
    [rewrite !length_insert; lia|]. cbn [mbind res_bind]. eexists. split; [done|].
  rewrite length_BuildIPv6Packet, Hlm, !length_insert. done.
Qed.

(** ** The IPv4 echo reply *)

Lemma copy_at_total b i v : (i + length v <= length b)%nat → ∃ b', copy_at b i v = Ok b' ∧ length b' = length b.
Proof.
  intros Hl. unfold copy_at. destruct (Nat.leb_spec (i + length v) (length b)); [|lia]. eexists. split; [done|].
  rewrite !length_app, length_take, length_drop. lia.
Qed.

Lemma ipChecksum_total b : ∃ cs, ipChecksum b = Ok cs ∧ length cs = 2%nat.
Proof.
  unfold ipChecksum. destruct (foldChecksum_spec (sum16 b) (sum16_range b)) as (c & -> & _). by eexists.
Qed.

(** Runs a step of a sequence of copies whose bounds follow by arithmetic. *)
Ltac total_step :=
  match goal with
  | |- context [slice_from ?b ?i] => rewrite (slice_from_Ok b i) by (autorewrite with golist; lia)
  | |- context [slice ?b ?i ?j] => rewrite (slice_Ok b i j) by (autorewrite with golist; lia)
  | |- context [copy_at ?b ?i ?v] =>
      let b' := fresh "b" in let E := fresh "E" in let L := fresh "L" in
      destruct (copy_at_total b i v) as (b' & E & L);
        [rewrite ?length_go_copy, ?length_replicate, ?length_take, ?length_drop; cbn [length]; lia|];
      rewrite E; clear E; rewrite ?length_go_copy, ?length_replicate in L
  | |- context [ipChecksum ?b] =>
      let cs := fresh "cs" in let E := fresh "E" in let L := fresh "L" in
      destruct (ipChecksum_total b) as (cs & E & L); rewrite E; clear E
  end; cbn [mbind res_bind].

Lemma buildICMPReply_total ipPkt ihl :
  (20 <= length ipPkt)%nat → (ihl + 8 <= length ipPkt)%nat →
  ∃ p, buildICMPReply ipPkt ihl (drop ihl ipPkt) = Ok p ∧ length p = length ipPkt.
Proof.
  intros H20 Hi. unfold buildICMPReply.
  assert (ihl + length (drop ihl ipPkt) = length ipPkt)%nat as Hn by (rewrite length_drop; lia).
  total_step. rewrite Hn. repeat total_step. eexists. split; [done|lia].
Qed.

(** ** Uplink and downlink *)

Lemma handleICMPToSelf_runs w sv r s inner :
  good sv → heap (sessions sv) !! r = Some s → (20 <= length inner <= maxRead)%nat →
  runs (handleICMPToSelf w sv r s inner).
Proof.
  intros Hok Hr Hl. unfold handleICMPToSelf. apply runs_idx; [lia|]. intros proto _.
  destruct (proto =? 1); [|by apply runs_Ok]. cbn [negb]. apply runs_idx; [lia|]. intros b0 _.
  set (ihl := Z.to_nat _). destruct (Nat.ltb_spec (length inner) (ihl + 8)); [by apply runs_Ok|].
  rewrite slice_from_Ok by lia. cbn [mbind res_bind]. apply runs_idx; [rewrite length_drop; lia|]. intros t _.
  destruct (t =? 8); [|by apply runs_Ok]. cbn [negb]. destruct (tunnelReady s); [|by apply runs_Ok]. cbn [negb].
  destruct (buildICMPReply_total inner ihl) as (p & -> & Hp); [lia|lia|]. cbn [mbind res_bind].
  apply sendGTPU_runs; [done|done|lia].
Qed.

Lemma processInnerIP_runs g w sv r s inner :
  good sv → heap (sessions sv) !! r = Some s → (length inner <= maxRead)%nat → runs (processInnerIP g w sv r s inner).
Proof.
  intros Hok Hr Hl. unfold processInnerIP. destruct (Nat.ltb_spec (length inner) 20); [by apply runs_Ok|].
  apply runs_idx; [lia|]. intros b0 _. destruct (b0 ≫ 4 =? 4); [|by apply runs_Ok]. cbn [negb].
  apply runs_slice; [lia|]. destruct (ipEqual _ (g_n3IP g)); [by apply handleICMPToSelf_runs|].
  apply runs_slice; [lia|]. by apply toTUN_runs.
Qed.

Lemma handleInnerIPv6_runs g w sv r s inner :
  good sv → heap (sessions sv) !! r = Some s → (length inner <= maxRead)%nat → runs (handleInnerIPv6 g w sv r s inner).
Proof.
  intros Hok Hr Hl. unfold handleInnerIPv6. destruct (ParseRouterSolicitation_total inner) as (o & -> & _).
  cbn [mbind res_bind]. destruct o as [src|].
  { destruct (g_pfcp g); [by apply emitRA_runs|by apply runs_Ok]. }
  destruct (Nat.ltb_spec (length inner) 40); [by apply runs_Ok|]. do 2 (apply runs_slice; [lia|]).
  apply runs_idx; [lia|]. intros nh _. destruct ((nh =? NextHeaderICMPv6) && (48 <=? length inner)%nat) eqn:E48.
  2: { cbn [mbind res_bind]. by apply toTUN_runs. }
  apply andb_true_iff in E48 as [_ H48]. apply Nat.leb_le in H48. rewrite slice_from_Ok by lia. cbn [mbind res_bind].
  destruct (idx_Ok (drop 40 inner) 0) as (t & _ & ->); [rewrite length_drop; lia|]. cbn [mbind res_bind].
  destruct ((t =? icmpv6TypeEchoRequest) && _); [|by apply toTUN_runs].
  destruct (tunnelReady s); [|by apply runs_Ok]. cbn [negb].
  edestruct (buildICMPv6EchoReply_total) as (p & -> & Hp); [|cbn [mbind res_bind]; apply sendGTPU_runs; [done|done|]];
    rewrite ?Hp, length_drop; lia.
Qed.

Lemma with_buckets_sessions sv h : sessions (with_buckets sv h) = sessions sv.
Proof. done. Qed.

(** Policing a packet of a session of the heap. *)
Lemma admit_runs sv r s (ul : bool) n now :
  good sv → heap (sessions sv) !! r = Some s → is_len n → is_clock now →
  ∃ h ok reason, (if ul then AdmitUL (buckets sv) (qos s) n now else AdmitDL (buckets sv) (qos s) n now) = Ok (h, (ok, reason)) ∧
    good (with_buckets sv h).
Proof.
  intros [Hok Htab] Hr Hn Ht. destruct (so_sessions _ Hok r s Hr) as (_ & _ & Hv).
  assert (∀ d, dir_ok (buckets sv) d → ∃ h ok reason, dirView_admit (buckets sv) d n now = Ok (h, (ok, reason)) ∧
    good (with_buckets sv h)) as Hd.
  { intros d Hd. destruct (admit_keeps sv d n now Hok Hd Hn Ht) as (h & [ok reason] & E & Hk). by exists h, ok, reason. }
  unfold AdmitUL, AdmitDL. destruct (qos s) as [v|].
  - destruct Hv as (Hu & Hdl & _). destruct ul; by apply Hd.
  - exists (buckets sv), true, DropNone. split; [by destruct ul|]. by destruct sv.
Qed.

Lemma is_len_read n : (n <= maxRead)%nat → is_len (Z.of_nat n).
Proof. unfold is_len, maxRead. lia. Qed.

Lemma uplink_runs g w sv r s inner :
  good sv → heap (sessions sv) !! r = Some s → is_clock (w_now w) → (length inner <= maxRead)%nat →
  runs (uplink g w sv r s inner).
Proof.
  intros Hok Hr Ht Hl. unfold uplink.
  destruct (admit_runs sv r s true _ (w_now w) Hok Hr (is_len_read _ Hl) Ht) as (h & ok & reason & -> & Hok1).
  cbn [mbind res_bind]. destruct ok; cbn [negb]; [|by apply runs_Ok; [|apply Forall_singleton]].
  set (s1 := AddULVolume s _). set (sv1 := with_session _ r s1).
  assert (good sv1) as Hok2 by (destruct (AddUL_rules s (Z.of_nat (length inner))) as (? & ? & ?); eapply good_session; eauto using AddUL_keys).
  assert (heap (sessions sv1) !! r = Some s1) as Hr1 by (cbn; by rewrite lookup_insert_eq).
  destruct (Nat.ltb_spec 0 (length inner)).
  - destruct (idx_Ok inner 0) as (b0 & _ & ->); [lia|]. cbn [mbind res_bind].
    destruct (b0 ≫ 4 =? 6); [by apply handleInnerIPv6_runs|by apply processInnerIP_runs].
  - cbn [mbind res_bind]. by apply processInnerIP_runs.
Qed.

Lemma skip_total fuel pkt n :
  (1 <= n <= length pkt)%nat → (length pkt - n < fuel)%nat →
  ∃ o, skipExtensions fuel pkt n = Ok o ∧ ∀ m, o = Some m → (n <= m <= length pkt)%nat.
Proof.
  revert n. induction fuel as [|fuel IH]; intros n Hn Hf; [lia|]. cbn [skipExtensions].
  destruct (idx_Ok pkt (n - 1)) as (t & _ & ->); [lia|]. cbn [mbind res_bind].
  destruct (t =? 0); [exists (Some n); split; [done|]; intros m [= <-]; lia|].
  destruct (Nat.leb_spec (length pkt) n); [by exists None|].
  destruct (idx_Ok pkt n) as (l & _ & ->); [lia|]. cbn [mbind res_bind]. set (e := Z.to_nat (l * 4)).
  destruct (Nat.ltb_spec e 4); [by exists None|]. destruct (Nat.ltb_spec (length pkt) (n + e)); [by exists None|].
  cbn [orb]. destruct (IH (n + e)%nat) as (o & -> & Ho); [lia|lia|]. exists o. split; [done|]. intros m Hm.
  specialize (Ho m Hm). lia.
Qed.

(** Whatever arrives, a payload is a non-empty end of it. *)
Lemma decapsulate_total pkt :
  ∃ o, decapsulate pkt = Ok o ∧ ∀ teid inner, o = Some (teid, inner) → inner ≠ [] ∧ ∃ n, inner = drop n pkt.
Proof.
  unfold decapsulate, gtpuMinHdr, gtpuExtHdr. destruct (Nat.ltb_spec (length pkt) 8); [by exists None|].
  repeat match goal with |- context [idx pkt ?i] => destruct (idx_Ok pkt i) as (? & _ & ->); [lia|]; cbn [mbind res_bind] end.
  destruct (_ =? msgTypeTPDU); [|by exists None]. cbn [negb].
  assert (∀ (v : Z) m, m = Ok None ∨ (∃ n, m = Ok (Some n) ∧ (n <= length pkt)%nat) → ∃ o,
    (hdrLen ← m; match hdrLen with
                 | None => Ok None
                 | Some hdrLen => if (length pkt <=? hdrLen)%nat then Ok None
                                  else inner ← slice_from pkt hdrLen; Ok (Some (v, inner))
                 end) = Ok o ∧ ∀ teid inner, o = Some (teid, inner) → inner ≠ [] ∧ ∃ n, inner = drop n pkt) as Hm.
  { intros v m [->|(n & -> & Hn)]; cbn [mbind res_bind]; [by exists None|].
    destruct (Nat.leb_spec (length pkt) n); [by exists None|]. rewrite slice_from_Ok by lia. eexists. split; [done|].
    intros teid inner [= <- <-]. split; [|by eexists]. intros E%(f_equal length). rewrite length_drop in E. cbn in E. lia. }
  apply Hm. destruct (Z.land _ 7 =? 0); cbn [negb]; [right; eexists; split; [done|lia]|].
  destruct (Nat.ltb_spec (length pkt) 12); [by left|].
  destruct (skip_total (S (length pkt)) pkt 12) as (o & -> & Ho); [lia|lia|]. destruct o as [n|]; [right|by left].
  exists n. split; [done|]. specialize (Ho n eq_refl). lia.
Qed.

Lemma byTEID_heap t teid r s : byTEID t teid = Some (r, s) → heap t !! r = Some s.
Proof. unfold byTEID. intros (r' & _ & (s' & Hs & [= -> ->])%bind_Some)%bind_Some. done. Qed.
Lemma byAddr_heap t ip r s : byAddr t ip = Some (r, s) → heap t !! r = Some s.
Proof. unfold byAddr. intros (a & _ & (r' & _ & (s' & Hs & [= -> ->])%bind_Some)%bind_Some)%bind_Some. done. Qed.
Lemma byPrefix_heap t ip r s : byPrefix t ip = Some (r, s) → heap t !! r = Some s.
Proof. unfold byPrefix. intros (a & _ & (r' & _ & (s' & Hs & [= -> ->])%bind_Some)%bind_Some)%bind_Some. done. Qed.

Lemma handlePacket_runs g w sv pkt :
  good sv → is_clock (w_now w) → (length pkt <= maxRead)%nat → runs (handlePacket g w sv pkt).
Proof.
  intros Hok Ht Hl. unfold handlePacket. destruct (decapsulate_total pkt) as (o & -> & Ho). cbn [mbind res_bind].
  destruct o as [[teid inner]|]; [|by apply runs_Ok]. destruct (Ho teid inner eq_refl) as [_ [n Hn]].
  destruct (byTEID _ _) as [[r s]|] eqn:E; [|by apply runs_Ok; [|apply Forall_singleton]].
  apply byTEID_heap in E. apply uplink_runs; [done|done|done|]. rewrite Hn, length_drop. lia.
Qed.

Lemma downlinkSession_total sv pkt :
  (1 <= length pkt)%nat →
  ∃ f, downlinkSession sv pkt = Ok f ∧ ∀ r s, f = Some (Some (r, s)) → heap (sessions sv) !! r = Some s.
Proof.
  intros Hl. unfold downlinkSession. destruct (idx_Ok pkt 0) as (b0 & _ & ->); [lia|]. cbn [mbind res_bind].
  destruct (b0 ≫ 4 =? 4).
  - destruct (Nat.ltb_spec (length pkt) 20); [by exists None|]. rewrite slice_Ok by lia. eexists. split; [done|].
    intros r s [= E]. by eapply byAddr_heap.
  - destruct (b0 ≫ 4 =? 6); [|by exists None]. destruct (Nat.ltb_spec (length pkt) 40); [by exists None|].
    rewrite slice_Ok by lia. eexists. split; [done|]. intros r s [= E]. by eapply byPrefix_heap.
Qed.

Lemma repairDownlink_total g pkt :
  bytes_ok pkt → ∃ pkt', repairDownlinkChecksum g pkt = Ok pkt' ∧ length pkt' = length pkt ∧
    (g_L4ChecksumRepair g = true → packet_valid pkt').
Proof.
  intros Hb. unfold repairDownlinkChecksum. destruct (g_L4ChecksumRepair g); cbn [negb]; [|by exists pkt].
  destruct (Repair_spec pkt Hb) as (pkt' & r & -> & Hl & Hv & _). by exists pkt'.
Qed.

(** Without the flag that says whether a frame went out. *)
Definition forget (m : res (Server * list Out * bool)) : res (Server * list Out) := x ← m; Ok x.1.

Lemma downlink_runs g w sv r s pkt :
  good sv → heap (sessions sv) !! r = Some s → is_clock (w_now w) → bytes_ok pkt → (1 <= length pkt <= maxRead)%nat →
  runs (forget (downlink g w sv r s pkt)).
Proof.
  intros Hok Hr Ht Hb Hl. unfold downlink, forget.
  destruct (tunnelReady s); cbn [negb mbind res_bind fst]; [|by apply runs_Ok; [|apply Forall_singleton]].
  destruct (admit_runs sv r s false (Z.of_nat (length pkt)) (w_now w) Hok Hr) as (h & ok & reason & -> & Hok1);
    [apply is_len_read; lia|done|]. cbn [mbind res_bind].
  destruct ok; cbn [negb mbind res_bind fst]; [|by apply runs_Ok; [|apply Forall_singleton]].
  destruct (repairDownlink_total g pkt Hb) as (pkt' & -> & Hl' & _). cbn [mbind res_bind].
  eexists. split; [done|]. by apply sendFrame_ok.
Qed.

Lemma tunRead_runs g w sv pkt :
  good sv → is_clock (w_now w) → bytes_ok pkt → (length pkt <= maxRead)%nat → runs (forget (tunRead g w sv pkt)).
Proof.
  intros Hok Ht Hb Hl. unfold tunRead. destruct (Nat.ltb_spec (length pkt) 1); [by apply runs_Ok|].
  unfold handleTUNPacket. destruct (downlinkSession_total sv pkt) as (f & -> & Hf); [done|]. cbn [mbind res_bind].
  destruct f as [[[r s]|]|]; [|by apply runs_Ok; [|apply Forall_singleton]|by apply runs_Ok].
  apply downlink_runs; [done|by apply Hf|done|done|done].
Qed.
End Keeping.
Arguments good K sv : clear implicits.
Arguments runs K m : clear implicits.

(** * Runs of the whole UPF *)

(** The rules and keys of a session, which traffic and reports leave alone. *)
Definition same_rules_as (s s' : Session) : Prop :=
  same_keys s s' ∧ QERs s' = QERs s ∧ PDRs s' = PDRs s ∧ qos s' = qos s.
Lemma same_rules_trans s1 s2 s3 : same_rules_as s1 s2 → same_rules_as s2 s3 → same_rules_as s1 s3.
Proof. unfold same_rules_as, same_keys. naive_solver congruence. Qed.

Lemma emitUsageReport_rules sent q s tr wall : same_rules_as s (emitUsageReport sent q s tr wall).1.2.
Proof. unfold emitUsageReport. by case_match. Qed.

Lemma sweepSession_rules sent q s wall : same_rules_as s (sweepSession sent q s wall).1.2.
Proof.
  unfold sweepSession. destruct (dueReports s wall) as [s1 due] eqn:E.
  assert (same_rules_as s s1) as H by (unfold dueReports in E; by case_match; simplify_eq).
  clear E. revert H. generalize (@nil report). revert q s1. induction due as [|tr due IH]; intros q s1 rs H; [done|].
  cbn [foldl]. pose proof (emitUsageReport_rules sent q s1 tr wall) as He.
  destruct (emitUsageReport sent q s1 tr wall) as [[q1 s2] out]. apply IH. by eapply same_rules_trans.
Qed.

Lemma Snapshot_heap t r s : (r, s) ∈ Snapshot t → heap t !! r = Some s.
Proof.
  unfold Snapshot. rewrite list_elem_of_omap. intros ([k r'] & _ & (s' & Hs & [= -> ->])%bind_Some). done.
Qed.

Lemma good_fields K sv q c : good K sv → good K (mkServer (buckets sv) (sessions sv) q c).
Proof. intros [[] Ht]. split; [by split|done]. Qed.

Lemma sweep_ok K sent sv wall : good K sv → good K (sweepUsageReports sent sv wall).1.
Proof.
  intros Hok. unfold sweepUsageReports.
  assert (∀ r s, (r, s) ∈ Snapshot (sessions sv) → heap (sessions sv) !! r = Some s) as Hsnap by (intros; by apply Snapshot_heap).
  revert Hsnap. generalize (Snapshot (sessions sv)), (@nil report). intros l rs Hl.
  assert (∀ t q rs, good K (mkServer (buckets sv) t q (qosCfg sv)) →
    (∀ r s, heap (sessions sv) !! r = Some s → ∃ s1, heap t !! r = Some s1 ∧ same_rules_as s s1) →
    let '(q, t, _) := foldl (λ '(seqs, t, rs) '(r, s), let '(seqs, s', out) := sweepSession sent seqs s wall in
      (seqs, set_session t r s', rs ++ out)) (q, t, rs) l in good K (mkServer (buckets sv) t q (qosCfg sv))) as Hind.
  { induction l as [|[r s] l IH]; intros t q rs' Ht Hsame; [done|]. cbn [foldl].
    pose proof (sweepSession_rules sent q s wall) as Hr. destruct (sweepSession sent q s wall) as [[q1 s'] out].
    destruct (Hsame r s (Hl r s ltac:(left))) as (s1 & Hs1 & (K1 & E1 & E2 & E3)).
    apply IH; [intros; apply Hl; by right| |].
    - apply (good_fields K (with_session (mkServer (buckets sv) t q (qosCfg sv)) r s') q1 (qosCfg sv)).
      destruct Hr as (K2 & R1 & R2 & R3). cbn in R1, R2, R3. eapply good_session; [done|done| |congruence..].
      unfold same_keys in *. naive_solver congruence.
    - intros r' s0 Hs0. cbn [set_session heap]. destruct (decide (r' = r)) as [->|]; [|rewrite lookup_insert_ne by done; by apply Hsame].
      rewrite lookup_insert_eq. exists s'. split; [done|]. rewrite (Hl r s ltac:(left)) in Hs0. injection Hs0 as <-. done. }
  specialize (Hind (sessions sv) (reportSeq sv) rs). destruct (foldl _ _ _) as [[q t] rs'].
  apply Hind; [by destruct sv|]. intros r s Hs. by exists s.
Qed.

Section Run.
Context {IE : Type} `{!GoPfcp IE, !GoPfcpRanges IE} (g : Gtpu).

(** A PFCP message, a datagram on N3, a packet on N6, a tick of an advertiser, or
    a sweep of the usage reports. *)
Inductive dp_event :=
| DMessage (m : message (IE:=IE)) (now wall : Z)
| DN3 (w : World) (pkt : bytes)
| DN6 (w : World) (pkt : bytes)
| DAdvertise (w : World) (r : loc)
| DSweep (sent : Z → bool) (wall : Z).

Definition dp_event_ok (e : dp_event) : Prop :=
  match e with
  | DMessage _ now _ => is_clock now
  | DN3 w pkt | DN6 w pkt => is_clock (w_now w) ∧ bytes_ok pkt ∧ (length pkt <= maxRead)%nat
  | DAdvertise w _ => is_clock (w_now w)
  | DSweep _ _ => True
  end.

Definition dp_step (sv : Server) (e : dp_event) : res (Server * list Out) :=
  match e with
  | DMessage m now wall => '(sv, _) ← dispatch sv m now wall; Ok (sv, [])
  | DN3 w pkt => handlePacket g w sv pkt
  | DN6 w pkt => forget (tunRead g w sv pkt)
  | DAdvertise w r => advertiserTick g w sv r
  | DSweep sent wall => Ok ((sweepUsageReports sent sv wall).1, [])
  end.

Fixpoint dp_run (sv : Server) (l : list dp_event) : res (Server * list Out) :=
  match l with
  | [] => Ok (sv, [])
  | e :: r => '(sv, out) ← dp_step sv e; '(sv, rest) ← dp_run sv r; Ok (sv, out ++ rest)
  end.

(** The keys that an establishment request asks for: SEID, uplink TEID, addresses. *)
Definition requested (req : estRequest (IE:=IE)) : option Session :=
  match for_each scanCreatePDR (mkScan 0 None None "" []) (er_CreatePDR req) with
  | Accept sc =>
      let cpSEID := default 0 (er_CPFSEID req ≫= ie_FSEID) in
      Some (mkSession cpSEID cpSEID (sc_ulTEID sc) (sc_ueIP sc) None 0 (sc_ueIPv6 sc) (sc_dnn sc) None ∅ ∅ None noURR false)
  | Reject _ => None
  end.

(** The control plane asks for no key that a live session has. *)
Definition keys_fresh (sv : Server) (e : dp_event) : Prop :=
  match e with
  | DMessage (MEstablish _ req) _ _ =>
      match requested req with Some s => fresh_keys (sessions sv) s | None => True end
  | _ => True
  end.
Fixpoint fresh_run (sv : Server) (l : list dp_event) : Prop :=
  match l with
  | [] => True
  | e :: r => keys_fresh sv e ∧ match dp_step sv e with Ok (sv', _) => fresh_run sv' r | _ => True end
  end.

Lemma fresh_keys_same t s s' : same_keys s s' → fresh_keys t s → fresh_keys t s'.
Proof.
  intros (E1 & E2 & E3 & E4) [F1 F2 F3 F4].
  split; unfold keyTEID, keyV4, keyV6 in *; by rewrite ?E1, ?E2, ?E3, ?E4.
Qed.

Lemma establish_table_ok sv raddr req now wall sv' resp :
  table_ok (sessions sv) → keys_fresh sv (DMessage (MEstablish raddr req) now wall) →
  handleSessionEstablishment sv raddr req now wall = Ok (sv', resp) → table_ok (sessions sv').
Proof.
  intros Ht Hf. cbn [keys_fresh] in Hf. unfold requested in Hf. unfold handleSessionEstablishment.
  destruct (for_each _ _ _) as [sc|rj]; [|by intros [= <- _]].
  destruct (establishmentQoS _ _) as [[qers pdrs]|rj]; [|by intros [= <- _]].
  destruct (buildQoSView _ _ _ _ _) as [[[bk q] v]| | |]; try done. cbn [mbind res_bind].
  set (sess := mkSession _ _ _ _ _ _ _ _ _ _ _ _ _ _).
  assert (fresh_keys (sessions sv) sess) as Hfs.
  { eapply fresh_keys_same; [|exact Hf]. subst sess. unfold same_keys. cbn.
    destruct (er_CPFSEID req) as [x|]; [|done]. cbn. by destruct (ie_FSEID x). }
  pose proof (store_table_ok _ _ Ht Hfs) as Ht'. destruct (store (sessions sv) sess) as [tbl r] eqn:E.
  intros [= <- _]. cbn [sessions]. destruct (sc_ueIPv6 sc); [|done]. cbn [fst] in Ht'.
  apply (set_table_ok _ _ sess); [exact Ht'| |done]. unfold store in E. injection E as <- <-. cbn. by rewrite lookup_insert_eq.
Qed.

Lemma dp_step_runs K sv e : good K sv → dp_event_ok e → (K → keys_fresh sv e) → runs K (dp_step sv e).
Proof.
  intros Hok He Hf. destruct e as [m now wall|w pkt|w pkt|w r|sent wall]; cbn [dp_step dp_event_ok] in *.
  - destruct Hok as [Hok Ht]. destruct (dispatch_ok sv m now wall Hok He) as (sv' & resp & E & Hok').
    rewrite E. apply runs_Ok; [|done]. split; [done|]. intros HK.
    destruct m as [raddr req|seid seq req|seid seq].
    + eapply establish_table_ok; [by apply Ht|by apply Hf|exact E].
    + eapply handlers_keep_indexes; [by apply Ht| |exact E]. by intros.
    + eapply handlers_keep_indexes; [by apply Ht| |exact E]. by intros.
  - destruct He as (Ht & _ & Hl). by apply handlePacket_runs.
  - destruct He as (Ht & Hb & Hl). by apply tunRead_runs.
  - unfold advertiserTick. destruct (heap _ !! r) as [s|] eqn:E; [|by apply runs_Ok].
    destruct (raCancel s); [by apply emitRA_runs|by apply runs_Ok].
  - apply runs_Ok; [by apply sweep_ok|done].
Qed.

Lemma dp_run_runs K sv l :
  good K sv → Forall dp_event_ok l → (K → fresh_run sv l) →
  ∃ sv' out, dp_run sv l = Ok (sv', out) ∧ good K sv' ∧ Forall frame_ok out.
Proof.
  intros Hok Hl. revert sv Hok. induction Hl as [|e l He _ IH]; intros sv Hok Hf; [by exists sv, []|]. cbn [dp_run].
  destruct (dp_step_runs K sv e Hok He) as ([sv1 out] & E & Hok1 & Hf1); [intros HK; exact (proj1 (Hf HK))|].
  destruct (IH sv1 Hok1) as (sv2 & rest & E2 & Hok2 & Hf2).
  { intros HK. destruct (Hf HK) as [_ Hr]. by rewrite E in Hr. }
  rewrite E. cbn [mbind res_bind]. rewrite E2. cbn [mbind res_bind]. exists sv2, (out ++ rest).
  split_and!; [done|apply Hok2..|]. by apply Forall_app.
Qed.
End Run.
Arguments dp_event IE : clear implicits.

(** C1: no input makes the UPF fail.  From the empty server, over every
    interleaving of PFCP messages, datagrams of any content from gNBs ([handlePacket]),
    packets of any content from the data network ([startTUNReader],
    [handleTUNPacket]), Router Advertisement ticks and usage report sweeps, with
    writes that succeed or fail, nothing panics and the loops end; the server
    stays consistent; and every frame sent goes to the GTP-U port and is a
    well-formed T-PDU with a PDU Session Container around a non-empty packet. *)
Theorem upf_never_fails {IE} `{!GoPfcp IE, !GoPfcpRanges IE} (g : Gtpu) cfg (l : list (dp_event IE)) :
  Forall dp_event_ok l → ∃ sv out, dp_run g (initServer cfg) l = Ok (sv, out) ∧ server_ok sv ∧ Forall frame_ok out.
Proof.
  intros Hl. destruct (dp_run_runs g False (initServer cfg) l) as (sv & out & E & [Hok _] & Hf); [|done|done|].
  - split; [apply initServer_ok|done].
  - by exists sv, out.
Qed.

Definition demo_subnet : IPNet := mkIPNet [10; 60; 0; 0] (CIDRMask 24 4).
Definition demo_gtpu : Gtpu := mkGtpu [172; 30; 3; 100] [mkTunRoute "internet" demo_subnet None] true true true.
Definition demo_world : World := mkWorld 5 true true.

(** A UDP datagram from the UE of [demo_establish], in a T-PDU with a PDU Session
    Container. *)
Definition demo_uplink : bytes :=
  tpdu 4 4096 (Some (mkOpt 0 0 [mkExt 0x85 [0x10; 9]]))
    [69;0;0;28;0;0;0;0;64;17;0;0; 10;60;0;2; 8;8;8;8; 4;0;0;53;0;8;0;0].

Lemma upf_never_fails_witness :
  let l := [DMessage demo_establish 0 0; DN3 demo_world demo_uplink; DN3 demo_world [0x34; 255; 0]; DSweep (λ _, true) 7] in
  Forall dp_event_ok l ∧
  (∃ sv out, dp_run demo_gtpu (initServer (mkQoSConfig false 100)) l = Ok (sv, out) ∧ server_ok sv ∧ Forall frame_ok out) ∧
  ∃ sv, dp_run demo_gtpu (initServer (mkQoSConfig false 100)) l = Ok (sv, [ToTUN "internet" (drop 16 demo_uplink)]).
Proof.
  intros l.
  assert (Forall dp_event_ok l) as Hl.
  { repeat constructor; cbn [dp_event_ok]; unfold is_clock, maxRead; cbn [w_now demo_world]; try lia;
      try (apply (bool_decide_unpack _); vm_compute; exact I); cbn; lia. }
  split; [exact Hl|]. split.
  - apply (upf_never_fails demo_gtpu (mkQoSConfig false 100) l Hl).
  - eexists. vm_compute. reflexivity.
Defined.

(** C3: of every T-PDU with a payload (below 65528 octets), without optional fields, or with
    them and any chain of extension headers of a legal length, whose next-type octet is
    zero when no extension header follows, [handlePacket] takes the TEID and exactly
    the payload ([next_type_read_without_E] shows why that octet matters); and what
    [putDLHeader] puts before a packet is such a T-PDU, with its length field, from
    which a reader gets the TEID and the packet back. *)
Theorem gtpu_header_roundtrip (flags teid qfi : Z) (o : option OptFields) (inner : bytes) :
  flags_ok flags o → is_u32 teid → inner ≠ [] → Z.of_nat (length inner) < 65528 →
  decapsulate (tpdu flags teid o inner) = Ok (Some (teid, inner)) ∧
  putDLHeader teid qfi (length inner) ++ inner = dl_frame teid qfi inner ∧
  decapsulate (putDLHeader teid qfi (length inner) ++ inner) = Ok (Some (teid, inner)) ∧
  word_at (putDLHeader teid qfi (length inner) ++ inner) 2 =
    Z.of_nat (length (putDLHeader teid qfi (length inner) ++ inner)) - 8.
Proof.
  intros Hf Ht Hi Hl. split; [by apply decapsulate_tpdu|]. split; [by apply putDLHeader_frame|]. split.
  - rewrite putDLHeader_frame by done. by apply dl_frame_read.
  - rewrite length_app. change (length (putDLHeader _ _ _)) with 16%nat. unfold word_at, putDLHeader.
    cbn [lookup list_lookup app]. rewrite u16_small by (unfold is_u16; lia). rewrite be16_split by (unfold is_u16; lia). lia.
Qed.

Lemma gtpu_header_roundtrip_witness :
  decapsulate (putDLHeader 4097 9 4 ++ [1; 2; 3; 4]) = Ok (Some (4097, [1; 2; 3; 4])).
Proof.
  assert (flags_ok 4 (Some (mkOpt 0 0 [mkExt 0x85 [0; 9]]))) as Hf.
  { split; [lia|]. split_and!; [done|done|]. repeat constructor; try done. exists 1%nat. cbn. lia. }
  apply (gtpu_header_roundtrip 4 4097 9 (Some (mkOpt 0 0 [mkExt 0x85 [0; 9]])) [1; 2; 3; 4]);
    [exact Hf|unfold is_u32; lia|discriminate|cbn; lia].
Defined.

(** The type of the next extension header counts only under the E flag; the
    code looks at it under any flag: a T-PDU with a sequence number (S), whose
    octet 12 is not zero, is dropped. *)
Lemma next_type_read_without_E :
  decapsulate ([0x32; 255; 0; 8; 0; 0; 16; 0; 0; 1; 0; 0xC0] ++ [69; 0; 0; 0]) = Ok None.
Proof. reflexivity. Qed.

(** [InjectDownlink] with an empty packet. *)
Lemma inject_empty_panics :
  InjectDownlink demo_gtpu demo_world (initServer (mkQoSConfig false 100)) "internet" [] = Panic.
Proof. reflexivity. Qed.

(** * Downlink packets reach their session *)

(** An IP packet with a whole header. *)
Definition ip_packet (pkt : bytes) : Prop :=
  (octet pkt 0 ≫ 4 = 4 ∧ (20 <= length pkt)%nat) ∨ (octet pkt 0 ≫ 4 = 6 ∧ (40 <= length pkt)%nat).

(** The session is live and has the destination of the packet: the address over
    IPv4, the prefix over IPv6. *)
Definition owns (t : SessionTable) (r : loc) (s : Session) (pkt : bytes) : Prop :=
  live t r s ∧
  (octet pkt 0 ≫ 4 = 4 → keyV4 s = Some (take 4 (drop 16 pkt))) ∧
  (octet pkt 0 ≫ 4 = 6 → keyV6 s = ueV6Prefix (Some (take 16 (drop 24 pkt)))).

(** The rules that police a direction of a session. *)
Definition dir_for (ul : bool) (s : Session) : dirView :=
  match qos s with Some v => if ul then v_ul v else v_dl v | None => mkDir false [] end.

Definition rules_admit (ul : bool) (h : bheap) (s : Session) (n now : Z) : Prop :=
  dv_gateClosed (dir_for ul s) = false ∧ Forall (accepts h n now) (dv_buckets (dir_for ul s)).

(** What becomes of a packet for a session. *)
Definition delivery (g : Gtpu) (w : World) (sv : Server) (r : loc) (s : Session) (pkt : bytes) (sv' : Server) (out : list Out)
  : Prop :=
  let n := Z.of_nat (length pkt) in
  if tunnelReady s then
    (rules_admit false (buckets sv) s n (w_now w) ∧ charged (buckets sv) (dv_buckets (dir_for false s)) n (w_now w) (buckets sv') ∧
     match GNBIP s ≫= ueAddr with
     | Some gnb =>
         if w_send w then
           sessions sv' = set_session (sessions sv) r (AddDLVolume s n) ∧
           ∃ pkt', out = [Frame gnb 2152 (dl_frame (DLTEID s) (DLQFI (qos s)) pkt')] ∧ length pkt' = length pkt ∧
             (if g_L4ChecksumRepair g then packet_valid pkt' ∧ (packet_valid pkt → pkt' = pkt) else pkt' = pkt)
         else sessions sv' = sessions sv ∧ out = [Dropped dropSend]
     | None => sessions sv' = sessions sv ∧ out = [Dropped dropSend]
     end) ∨
    (¬ rules_admit false (buckets sv) s n (w_now w) ∧ same_credit (w_now w) (buckets sv) (buckets sv') ∧
     sessions sv' = sessions sv ∧
     out = [Dropped (dropQER (if dv_gateClosed (dir_for false s) then DropGateClosed else DropMBRExceeded))])
  else sv' = sv ∧ out = [Dropped dropDLNotReady].

Lemma ueAddr_four ip : length ip = 4%nat → ueAddr ip = Some ip.
Proof. intros Hl. unfold ueAddr. by rewrite Hl. Qed.

Lemma byAddr_owner t ip r s :
  table_ok t → length ip = 4%nat → byAddr t ip = Some (r, s) ↔ live t r s ∧ keyV4 s = Some ip.
Proof.
  intros Ht Hl. unfold byAddr. rewrite ueAddr_four by done. cbn [mbind option_bind]. split.
  - intros (r' & Hr & (s' & Hs & [= -> ->])%bind_Some)%bind_Some. apply (to_v4 _ Ht) in Hr as (s0 & [Hh Hb] & Hk).
    rewrite Hs in Hh. injection Hh as <-. done.
  - intros [[Hh Hb] Hk]. rewrite (proj2 (to_v4 _ Ht ip r)) by (exists s; done). cbn. by rewrite Hh.
Qed.

Lemma byPrefix_owner t ip r s :
  table_ok t → length ip = 16%nat → byPrefix t ip = Some (r, s) ↔ live t r s ∧ keyV6 s = ueV6Prefix (Some ip).
Proof.
  intros Ht Hl. unfold byPrefix. destruct (ueV6Prefix (Some ip)) as [k|] eqn:Ek.
  2: { unfold ueV6Prefix, UpfServer.To16 in Ek. cbn in Ek. rewrite Hl in Ek. done. }
  cbn [mbind option_bind]. split.
  - intros (r' & Hr & (s' & Hs & [= -> ->])%bind_Some)%bind_Some. apply (to_v6 _ Ht) in Hr as (s0 & [Hh Hb] & Hk).
    rewrite Hs in Hh. injection Hh as <-. done.
  - intros [[Hh Hb] Hk]. rewrite (proj2 (to_v6 _ Ht k r)) by (exists s; done). cbn. by rewrite Hh.
Qed.

(** The lookup finds the owner, and nothing when there is none. *)
Lemma downlinkSession_owner sv pkt :
  table_ok (sessions sv) → ip_packet pkt →
  ∃ f, downlinkSession sv pkt = Ok (Some f) ∧ ∀ r s, f = Some (r, s) ↔ owns (sessions sv) r s pkt.
Proof.
  intros Ht Hip. assert (0 < length pkt)%nat as Hl by (destruct Hip as [[_ ?]|[_ ?]]; lia).
  unfold downlinkSession. rewrite idx_octet by done. cbn [mbind res_bind]. unfold owns. destruct Hip as [[Hv H20]|[Hv H40]]; rewrite Hv.
  - cbn [Z.eqb Pos.eqb]. destruct (Nat.ltb_spec (length pkt) 20); [lia|]. rewrite slice_Ok by lia. eexists. split; [done|].
    intros r s. rewrite byAddr_owner; [|done|rewrite length_take, length_drop; lia]. naive_solver.
  - cbn [Z.eqb Pos.eqb]. destruct (Nat.ltb_spec (length pkt) 40); [lia|]. rewrite slice_Ok by lia. eexists. split; [done|].
    intros r s. rewrite byPrefix_owner; [|done|rewrite length_take, length_drop; lia]. naive_solver.
Qed.

Lemma Admit_direction_spec (ul : bool) sv r s n now :
  server_ok sv → heap (sessions sv) !! r = Some s → is_len n → is_clock now →
  ∃ h ok reason, (if ul then AdmitUL (buckets sv) (qos s) n now else AdmitDL (buckets sv) (qos s) n now) = Ok (h, (ok, reason)) ∧
    if ok then rules_admit ul (buckets sv) s n now ∧ charged (buckets sv) (dv_buckets (dir_for ul s)) n now h
    else ¬ rules_admit ul (buckets sv) s n now ∧ same_credit now (buckets sv) h ∧
         reason = (if dv_gateClosed (dir_for ul s) then DropGateClosed else DropMBRExceeded).
Proof.
  intros Hok Hr Hn Ht. destruct (so_sessions _ Hok r s Hr) as (_ & _ & Hv). unfold AdmitUL, AdmitDL, rules_admit, dir_for.
  destruct (qos s) as [v|].
  - set (d := if ul then v_ul v else v_dl v).
    replace (if ul then dirView_admit _ _ _ _ else _) with (dirView_admit (buckets sv) d n now) by (by destruct ul).
    assert (dir_ok (buckets sv) d) as Hd by (destruct Hv as (Hu & Hd & _); by destruct ul).
    destruct (dirView_admit_spec (buckets sv) d n now (so_heap _ Hok) Hd Hn Ht) as (h & ok & r0 & E & Hiff & Hyes & Hno).
    exists h, ok, r0. split; [done|]. destruct ok; [split; [by apply Hiff|by apply Hyes]|].
    destruct (Hno eq_refl) as [-> Hs]. split_and!; [|done|done]. intros Ha. by apply Hiff in Ha.
  - exists (buckets sv), true, DropNone. split; [by destruct ul|]. split; [done|]. apply charged_nil.
Qed.

Lemma downlink_delivery g w sv r s pkt :
  server_ok sv → heap (sessions sv) !! r = Some s → is_clock (w_now w) → bytes_ok pkt → (length pkt <= maxRead)%nat →
  ∃ sv' out, forget (downlink g w sv r s pkt) = Ok (sv', out) ∧ delivery g w sv r s pkt sv' out.
Proof.
  intros Hok Hr Ht Hb Hl. unfold downlink, forget, delivery. destruct (tunnelReady s); cbn [negb].
  2: { cbn [mbind res_bind fst]. by eexists _, _. }
  destruct (Admit_direction_spec false sv r s (Z.of_nat (length pkt)) (w_now w) Hok Hr) as (h & ok & reason & -> & Hspec);
    [by apply is_len_read|done|]. cbn [mbind res_bind]. destruct ok; cbn [negb].
  2: { destruct Hspec as (Hn & Hs & ->). cbn [mbind res_bind fst]. eexists _, _. split; [done|]. by right. }
  destruct Hspec as [Ha Hc]. unfold repairDownlinkChecksum.
  assert (∃ pkt', (if negb (g_L4ChecksumRepair g) then Ok pkt else '(pkt, _) ← Repair pkt; Ok pkt) = Ok pkt' ∧
    length pkt' = length pkt ∧
    (if g_L4ChecksumRepair g then packet_valid pkt' ∧ (packet_valid pkt → pkt' = pkt) else pkt' = pkt)) as (pkt' & -> & Hl' & Hrep).
  { destruct (g_L4ChecksumRepair g); cbn [negb]; [|by exists pkt].
    destruct (Repair_spec pkt Hb) as (pkt' & res & -> & Hl' & Hv & Hiff & Hsame). exists pkt'. split_and!; [done|done|done|].
    intros Hp. apply Hsame. by apply Hiff. }
  cbn [mbind res_bind]. unfold sendFrame. destruct (GNBIP s ≫= ueAddr) as [gnb|].
  - destruct (w_send w); cbn [fst]; (eexists _, _; split; [done|]; left; split_and!; try done).
    exists pkt'. split_and!; [|done|done]. rewrite putDLHeader_frame; [done|done|]. unfold maxRead in Hl. lia.
  - cbn [fst]. eexists _, _. split; [done|]. left. by split_and!.
Qed.

(** C2: a packet from the data network reaches the gNB of the session that has its
    destination.  After every run of the UPF in which no establishment asks for a
    SEID, uplink TEID, address or prefix of a live session ([fresh_run]; the UPF does
    not check it), an IP packet whose address (IPv4) or prefix (IPv6) belongs to no
    live session is counted and dropped, and changes nothing.  Otherwise it belongs
    to one session: it is dropped when the session's tunnel is not set up; it is
    dropped, with every bucket keeping its credit, when a gate is closed or a bucket
    lacks credit; and else it is charged to the session's buckets and sent in one
    T-PDU to the session's gNB, with its TEID and QFI, and counted as volume exactly
    when it is sent.  The packet inside is the one received if its checksum was
    valid or the repair is switched off, and has a valid checksum if the repair is
    switched on. *)
Theorem downlink_delivered {IE} `{!GoPfcp IE, !GoPfcpRanges IE} (g : Gtpu) cfg (l : list (dp_event IE)) (w : World) (pkt : bytes) :
  Forall dp_event_ok l → fresh_run g (initServer cfg) l →
  is_clock (w_now w) → bytes_ok pkt → (length pkt <= maxRead)%nat → ip_packet pkt →
  ∃ sv out0 sv' out, dp_run g (initServer cfg) l = Ok (sv, out0) ∧ forget (tunRead g w sv pkt) = Ok (sv', out) ∧
    ((¬ ∃ r s, owns (sessions sv) r s pkt) ∧ sv' = sv ∧ out = [Dropped dropDLNoSession] ∨
     ∃ r s, owns (sessions sv) r s pkt ∧ (∀ r' s', owns (sessions sv) r' s' pkt → r' = r ∧ s' = s) ∧
       delivery g w sv r s pkt sv' out).
Proof.
  intros Hev Hfr Hc Hb Hl Hip.
  destruct (dp_run_runs g True (initServer cfg) l) as (sv & out0 & Er & [Hok Ht] & _); [|done|done|].
  { split; [apply initServer_ok|]. intros _. apply empty_table_ok. }
  specialize (Ht I). destruct (downlinkSession_owner sv pkt Ht Hip) as (f & E & Hf). exists sv, out0.
  unfold tunRead, handleTUNPacket. destruct (Nat.ltb_spec (length pkt) 1); [destruct Hip as [[_ ?]|[_ ?]]; lia|].
  rewrite E. cbn [mbind res_bind]. destruct f as [[r s]|].
  - pose proof (proj1 (Hf r s) eq_refl) as Ho. pose proof Ho as [[Hr _] _].
    destruct (downlink_delivery g w sv r s pkt Hok Hr Hc Hb Hl) as (sv' & out & Ed & Hd). exists sv', out.
    split_and!; [done|done|]. right. exists r, s. split_and!; [done| |done]. intros r' s' Ho'. apply Hf in Ho'. by injection Ho' as <- <-.
  - exists sv, [Dropped dropDLNoSession]. split_and!; [done|done|]. left. split; [|done]. intros (r & s & Ho). by apply Hf in Ho.
Qed.

Definition demo_dl_session : Session :=
  mkSession 1 1 4096 (Some [10; 60; 0; 2]) (Some [172; 30; 3; 1]) 257 (Some ([253; 0] ++ replicate 13 0 ++ [2])) "internet" None
    ∅ ∅ None noURR true.

Definition demo_upf : Server := mkServer ∅ (store NewSessionTable demo_dl_session).1 0 (mkQoSConfig false 100).

Lemma demo_upf_ok : server_ok demo_upf ∧ table_ok (sessions demo_upf).
Proof.
  split.
  - constructor.
    + done.
    + apply map_Forall_singleton. split_and!; [|done|done].
      split; [by split|done..].
    + intros r1 r2 s1 s2 x1 x2 l H1 H2. cbn in H1, H2. apply lookup_insert_Some in H1 as [[<- _]|[_ H1]]; [|done].
      by apply lookup_insert_Some in H2 as [[<- _]|[_ H2]].
    + intros k r Hk. cbn in *. apply lookup_insert_Some in Hk as [[_ <-]|[_ Hk]]; [|done]. by rewrite lookup_insert_eq.
  - apply store_table_ok; [apply empty_table_ok|]. by split.
Qed.

(** The session of [demo_establish], with the tunnel that its gNB answers with. *)
Definition demo_dl_run : list (dp_event PfcpTree.tie) :=
  [DMessage demo_establish 0 0;
   DMessage (MModify 77 2 (mkModRequest [] [] [] []
     [PfcpTree.group TUpdateFAR [PfcpTree.leaf TUpdateForwardingParameters [257]]])) 0 0].

Lemma downlink_delivered_witness :
  (∃ sv out0 sv' out, dp_run demo_gtpu (initServer (mkQoSConfig false 100)) demo_dl_run = Ok (sv, out0) ∧
    forget (tunRead demo_gtpu demo_world sv demo_udp) = Ok (sv', out) ∧
    ((¬ ∃ r s, owns (sessions sv) r s demo_udp) ∧ sv' = sv ∧ out = [Dropped dropDLNoSession] ∨
     ∃ r s, owns (sessions sv) r s demo_udp ∧ (∀ r' s', owns (sessions sv) r' s' demo_udp → r' = r ∧ s' = s) ∧
       delivery demo_gtpu demo_world sv r s demo_udp sv' out)) ∧
  (∃ f, ('(sv, _) ← dp_run demo_gtpu (initServer (mkQoSConfig false 100)) demo_dl_run;
         forget (tunRead demo_gtpu demo_world sv demo_udp) ≫= λ x, Ok x.2) = Ok [Frame [10; 0; 0; 1] 2152 f]).
Proof.
  split; [|eexists; vm_compute; reflexivity].
  apply (downlink_delivered demo_gtpu (mkQoSConfig false 100) demo_dl_run demo_world demo_udp).
  - repeat constructor; cbn [dp_event_ok]; unfold is_clock; lia.
  - split; [|vm_compute; by repeat split]. cbn [keys_fresh demo_establish].
    split; vm_compute; by intros.
  - unfold is_clock. cbn. lia.
  - apply (bool_decide_unpack _). vm_compute. exact I.
  - unfold maxRead. cbn. lia.
  - left. split; [reflexivity|cbn; lia].
Defined.
