(* ===== verification/UpfGtpuAnswer.v ===== *)
(** What the UPF answers by itself: the ICMP and ICMPv6 echo replies of
    [processInnerIP] and [handleInnerIPv6], and the solicited Router
    Advertisements of [emitRA]. *)
From S2P Require Import Prelude NasPduSession SmfPools UpfBucket UpfQos UpfQer UpfServer UpfChecksum UpfRa UpfGtpu UpfGtpuSpec.
Import Bucket.

(** * What the UPF answers by itself *)

(** ** The echo reply over IPv4 *)

Lemma copy_at_word b i c : (S i < length b)%nat → copy_at b i [u8 (c ≫ 8); u8 c] = Ok (set_word i c b).
Proof.
  intros Hi. unfold copy_at. cbn [length]. destruct (Nat.leb_spec (i + 2) (length b)); [done|lia].
Qed.

Lemma copy_at_zero b i : (S i < length b)%nat → copy_at b i [0; 0] = Ok (set_word i 0 b).
Proof. apply (copy_at_word b i 0). Qed.

Lemma copy_at_left a b i v a' : copy_at a i v = Ok a' → copy_at (a ++ b) i v = Ok (a' ++ b).
Proof.
  unfold copy_at. destruct (Nat.leb_spec (i + length v) (length a)); [|done]. intros [= <-].
  destruct (Nat.leb_spec (i + length v) (length (a ++ b))) as [|Hlt]; [|rewrite length_app in Hlt; lia].
  rewrite take_app_le, drop_app_le by lia. by rewrite <- !app_assoc.
Qed.

Lemma copy_at_right a b i v b' : copy_at b i v = Ok b' → copy_at (a ++ b) (length a + i) v = Ok (a ++ b').
Proof.
  unfold copy_at. destruct (Nat.leb_spec (i + length v) (length b)); [|done]. intros [= <-].
  destruct (Nat.leb_spec (length a + i + length v) (length (a ++ b))) as [|Hlt]; [|rewrite length_app in Hlt; lia].
  rewrite take_app_ge, drop_app_ge by lia.
  replace (length a + i - length a)%nat with i by lia. replace (length a + i + length v - length a)%nat with (i + length v)%nat by lia.
  by rewrite <- app_assoc.
Qed.

Lemma set_word_twice i c d b : (S i < length b)%nat → set_word i c (set_word i d b) = set_word i c b.
Proof.
  intros Hi. assert (length (take i b) = i) as Hl by (rewrite length_take; lia). unfold set_word at 1 3. f_equal.
  - unfold set_word. by rewrite take_app_le, take_take, Nat.min_id by lia.
  - f_equal. unfold set_word. rewrite drop_app_ge, Hl by lia. replace (i + 2 - i)%nat with 2%nat by lia. done.
Qed.

(** The checksum of octets in which its field is zero completes them. *)
Lemma ipChecksum_spec b i :
  bytes_ok b → Nat.Even i → (S i < length b)%nat → Z.of_nat (length b) < 65536 →
  ∃ c, ipChecksum (set_word i 0 b) = Ok [u8 (c ≫ 8); u8 c] ∧ is_u16 c ∧ csum_ok 0 (set_word i c b).
Proof.
  intros Hb He Hi Hl. unfold ipChecksum. rewrite sum16_word by (try apply set_word_ok; rewrite ?length_set_word by done; done).
  pose proof (word_sum_bounds _ (set_word_ok i 0 b Hb)) as Hw. rewrite length_set_word in Hw by done.
  destruct (foldChecksum_spec (word_sum (set_word i 0 b))) as (c & -> & Hc & Hp & Hz); [unfold is_u32; lia|].
  exists c. split_and!; [done|done|]. unfold csum_ok. by rewrite word_sum_set.
Qed.

(** A header of which the addresses are exchanged. *)
Definition swapped (h : bytes) : bytes := take 12 h ++ take 4 (drop 16 h) ++ take 4 (drop 12 h) ++ drop 20 h.

Lemma length_swapped h : (20 <= length h)%nat → length (swapped h) = length h.
Proof. intros. unfold swapped. rewrite !length_app, !length_take, !length_drop. lia. Qed.

Lemma swapped_ok h : bytes_ok h → bytes_ok (swapped h).
Proof.
  intros Hb. unfold bytes_ok, swapped. rewrite !Forall_app. split_and!; auto using Forall_take, Forall_drop.
Qed.

Lemma copy_swap h :
  (20 <= length h)%nat →
  ∃ h1, copy_at h 12 (take 4 (drop 16 h)) = Ok h1 ∧ copy_at h1 16 (take 4 (drop 12 h)) = Ok (swapped h) ∧ length h1 = length h.
Proof.
  intros Hl. assert (∀ n, (n + 4 <= length h)%nat → length (take 4 (drop n h)) = 4%nat) as H4.
  { intros n Hn. rewrite length_take, length_drop. lia. }
  exists (take 12 h ++ take 4 (drop 16 h) ++ drop 16 h). unfold copy_at. rewrite !H4 by lia.
  destruct (Nat.leb_spec (12 + 4) (length h)); [|lia]. split; [done|].
  assert (length (take 12 h ++ take 4 (drop 16 h) ++ drop 16 h) = length h) as Hlen.
  { rewrite !length_app, H4, length_take, length_drop by lia. lia. }
  split; [|done]. rewrite Hlen. destruct (Nat.leb_spec (16 + 4) (length h)); [|lia]. f_equal. unfold swapped.
  assert (length (take 12 h ++ take 4 (drop 16 h)) = 16%nat) as H16 by (rewrite length_app, H4, length_take by lia; lia).
  rewrite (app_assoc (take 12 h)), take_app_length' by done. rewrite drop_app_ge, H16 by lia.
  rewrite drop_drop. by rewrite <- app_assoc.
Qed.

Lemma buildICMPReply_spec ipPkt ihl :
  bytes_ok ipPkt → (20 <= ihl)%nat → Nat.Even ihl → (ihl + 8 <= length ipPkt)%nat → Z.of_nat (length ipPkt) < 65536 →
  ∃ c1 c2, let h := set_word 10 c1 (swapped (take ihl ipPkt)) in
    let b := set_word 2 c2 (set_word 0 0 (drop ihl ipPkt)) in
    buildICMPReply ipPkt ihl (drop ihl ipPkt) = Ok (h ++ b) ∧ csum_ok 0 h ∧ csum_ok 0 b.
Proof.
  intros Hb H20 Hev Hl Hlt. set (hd := take ihl ipPkt). set (ic := drop ihl ipPkt).
  assert (length hd = ihl) as Hh by (unfold hd; rewrite length_take; lia).
  assert (length ic = length ipPkt - ihl)%nat as Hi by (unfold ic; by rewrite length_drop).
  assert (bytes_ok hd ∧ bytes_ok ic) as [Hbh Hbi] by (split; [by apply Forall_take|by apply Forall_drop]).
  pose proof (length_swapped hd ltac:(lia)) as Hsw.
  destruct (ipChecksum_spec (swapped hd) 10) as (c1 & E1 & _ & O1); [by apply swapped_ok|by exists 5%nat|lia|lia|].
  destruct (ipChecksum_spec (set_word 0 0 ic) 2) as (c2 & E2 & _ & O2);
    [by apply set_word_ok|by exists 1%nat|rewrite length_set_word; lia|rewrite length_set_word; lia|].
  destruct (copy_swap hd ltac:(lia)) as (h1 & C1 & C2 & Hh1).
  exists c1, c2. cbn zeta. split; [|done]. unfold buildICMPReply.
  rewrite (slice_Ok ipPkt 0 ihl), (slice_Ok ipPkt 16 20), (slice_Ok ipPkt 12 16) by lia. cbn [mbind res_bind].
  replace (take (ihl - 0) (drop 0 ipPkt)) with hd by (unfold hd; by rewrite drop_0, Nat.sub_0_r). fold ic.
  assert (go_copy (replicate (ihl + length ic) 0) hd = hd ++ replicate (length ic) 0) as ->.
  { unfold go_copy. rewrite length_replicate, take_ge, Hh, drop_replicate by lia. do 2 f_equal. lia. }
  assert (∀ n, (n + 4 <= ihl)%nat → take 4 (drop n ipPkt) = take 4 (drop n hd)) as Hadr.
  { intros n Hn. unfold hd. rewrite <- (take_drop ihl ipPkt) at 1. fold hd ic. rewrite drop_app_le, take_app_le by (rewrite ?length_drop; lia). done. }
  change (20 - 16)%nat with 4%nat. change (16 - 12)%nat with 4%nat. rewrite !Hadr by lia.
  rewrite (copy_at_left _ _ _ _ _ C1). cbn [mbind res_bind]. rewrite (copy_at_left _ _ _ _ _ C2). cbn [mbind res_bind].
  rewrite (copy_at_left _ _ _ _ _ (copy_at_zero (swapped hd) 10 ltac:(lia))). cbn [mbind res_bind].
  assert (length (set_word 10 0 (swapped hd)) = ihl) as Hs0 by (rewrite length_set_word; lia).
  rewrite (slice_Ok (_ ++ replicate (length ic) 0) 0 ihl) by (rewrite ?length_app; lia). cbn [mbind res_bind]. rewrite drop_0, Nat.sub_0_r, take_app_length' by done.
  rewrite E1. cbn [mbind res_bind].
  rewrite (copy_at_left _ _ _ _ _ (copy_at_word (set_word 10 0 (swapped hd)) 10 c1 ltac:(lia))). cbn [mbind res_bind].
  rewrite set_word_twice by lia. set (h := set_word 10 c1 (swapped hd)).
  assert (length h = ihl) as Hlh by (unfold h; rewrite length_set_word; lia).
  assert (∀ b i v b', copy_at b i v = Ok b' → copy_at (h ++ b) (ihl + i) v = Ok (h ++ b')) as Hright.
  { intros b i v b' E. rewrite <- Hlh. by apply copy_at_right. }
  assert (copy_at (h ++ replicate (length ic) 0) ihl ic = Ok (h ++ ic)) as ->.
  { replace ihl with (ihl + 0)%nat by lia. apply Hright. unfold copy_at. rewrite length_replicate. cbn [Nat.add].
    rewrite Nat.leb_refl. cbn [take app]. rewrite drop_ge, app_nil_r by (by rewrite length_replicate). done. }
  cbn [mbind res_bind].
  assert (copy_at (h ++ ic) ihl [0; 0] = Ok (h ++ set_word 0 0 ic)) as ->.
  { replace ihl with (ihl + 0)%nat by lia. apply Hright, copy_at_zero. lia. }
  cbn [mbind res_bind]. rewrite (Hright _ _ _ _ (copy_at_zero (set_word 0 0 ic) 2 ltac:(rewrite length_set_word; lia))).
  cbn [mbind res_bind]. rewrite slice_from_Ok by (rewrite length_app; lia). cbn [mbind res_bind].
  rewrite drop_app_length' by done. rewrite E2. cbn [mbind res_bind].
  rewrite (Hright _ _ _ _ (copy_at_word (set_word 2 0 (set_word 0 0 ic)) 2 c2 ltac:(rewrite !length_set_word; rewrite ?length_set_word; lia))).
  rewrite set_word_twice by (rewrite length_set_word; lia). done.
Qed.

(** ** Requests and answers *)

Definition ihl_of (inner : bytes) : nat := Z.to_nat (Z.land (octet inner 0) 15 * 4).

(** An ICMP echo request for the UPF's own address, in a packet with a whole
    header. *)
Definition echo4 (g : Gtpu) (inner : bytes) : Prop :=
  octet inner 0 ≫ 4 = 4 ∧ (20 <= ihl_of inner)%nat ∧ (ihl_of inner + 8 <= length inner)%nat ∧ octet inner 9 = 1 ∧
  take 4 (drop 16 inner) = g_n3IP g ∧ octet inner (ihl_of inner) = 8.

(** Both checksums are right, the addresses are exchanged, and identifier,
    sequence number and data are those of the request. *)
Definition echo4_answer (inner reply : bytes) : Prop :=
  let ihl := ihl_of inner in
  csum_ok 0 (take ihl reply) ∧ csum_ok 0 (drop ihl reply) ∧ length reply = length inner ∧ take 10 reply = take 10 inner ∧
  take 4 (drop 12 reply) = take 4 (drop 16 inner) ∧ take 4 (drop 16 reply) = take 4 (drop 12 inner) ∧
  take 2 (drop ihl reply) = [0; 0] ∧ drop (ihl + 4) reply = drop (ihl + 4) inner.

(** An ICMPv6 message of type [t]. *)
Definition icmp6 (t : Z) (inner : bytes) : Prop :=
  octet inner 0 ≫ 4 = 6 ∧ (48 <= length inner)%nat ∧ octet inner 6 = NextHeaderICMPv6 ∧ octet inner 40 = t.

Definition echo6_answer (inner reply : bytes) : Prop :=
  icmpv6_valid reply ∧ length reply = length inner ∧
  take 16 (drop 8 reply) = take 16 (drop 24 inner) ∧ take 16 (drop 24 reply) = take 16 (drop 8 inner) ∧
  take 2 (drop 40 reply) = [129; 0] ∧ drop 44 reply = drop 44 inner.

(** An advertisement of [network], unicast to who asked. *)
Definition ra_answer (network inner reply : bytes) : Prop :=
  icmpv6_valid reply ∧
  ∃ c, reply = BuildIPv6Packet LinkLocalRouterAddr (take 16 (drop 8 inner)) NextHeaderICMPv6 255
    (set_word 2 c (raMessage 64 1800 2592000 604800 network)).

Definition asks (g : Gtpu) (s : Session) (inner : bytes) : Prop :=
  echo4 g inner ∨ (icmp6 128 inner ∧ take 16 (drop 24 inner) = LinkLocalRouterAddr) ∨
  (icmp6 133 inner ∧ g_pfcp g = true ∧ g_raSender g = true ∧ is_Some (ueV6Prefix (UEIPv6 s))).

Definition answers (g : Gtpu) (s : Session) (inner reply : bytes) : Prop :=
  (echo4 g inner → echo4_answer inner reply) ∧
  (icmp6 128 inner → echo6_answer inner reply) ∧
  (∀ network, icmp6 133 inner → ueV6Prefix (UEIPv6 s) = Some network → ra_answer network inner reply).

(** Parts of a packet that an update leaves alone. *)
Lemma part_app_l (a b : bytes) i n : (i + n <= length a)%nat → take n (drop i (a ++ b)) = take n (drop i a).
Proof. intros. rewrite (drop_app_le a b i), (take_app_le (drop i a) b n) by (rewrite ?length_drop; lia). done. Qed.

Lemma part_take (a : bytes) k i n : (i + n <= k)%nat → take n (drop i (take k a)) = take n (drop i a).
Proof.
  intros. rewrite skipn_firstn_comm, take_take. f_equal. lia.
Qed.

Lemma take_set_word i c b n : (n <= i)%nat → (S i < length b)%nat → take n (set_word i c b) = take n b.
Proof.
  intros. unfold set_word. rewrite take_app_le by (rewrite length_take; lia). rewrite take_take. f_equal. lia.
Qed.

Lemma drop_set_word i c b n : (i + 2 <= n)%nat → (S i < length b)%nat → drop n (set_word i c b) = drop n b.
Proof.
  intros. assert (length (take i b) = i) as Hl by (rewrite length_take; lia). unfold set_word.
  rewrite drop_app_ge, Hl by lia. rewrite drop_app_ge by (cbn; lia). rewrite drop_drop. f_equal. cbn [length]. lia.
Qed.

Lemma swapped_parts h :
  (20 <= length h)%nat → take 10 (swapped h) = take 10 h ∧ take 4 (drop 12 (swapped h)) = take 4 (drop 16 h) ∧
  take 4 (drop 16 (swapped h)) = take 4 (drop 12 h).
Proof.
  intros Hl. assert (∀ n, (n + 4 <= length h)%nat → length (take 4 (drop n h)) = 4%nat) as H4.
  { intros n Hn. rewrite length_take, length_drop. lia. }
  assert (length (take 12 h) = 12%nat) as H12 by (rewrite length_take; lia). unfold swapped. split_and!.
  - rewrite take_app_le by lia. rewrite take_take. done.
  - rewrite (drop_app_length' (take 12 h)) by done. rewrite take_app_length' by (rewrite H4; lia). done.
  - rewrite app_assoc, drop_app_length' by (rewrite length_app, H12, H4; lia).
    rewrite take_app_length' by (rewrite H4; lia). done.
Qed.

Lemma echo4_reply inner c1 c2 :
  (20 <= ihl_of inner)%nat → (ihl_of inner + 8 <= length inner)%nat →
  let h := set_word 10 c1 (swapped (take (ihl_of inner) inner)) in
  let b := set_word 2 c2 (set_word 0 0 (drop (ihl_of inner) inner)) in
  csum_ok 0 h → csum_ok 0 b → echo4_answer inner (h ++ b).
Proof.
  intros H20 Hl h b Hh Hb. unfold echo4_answer. set (ihl := ihl_of inner) in *. cbn zeta.
  assert (length (take ihl inner) = ihl) as Ht by (rewrite length_take; lia).
  assert (length (drop ihl inner) = length inner - ihl)%nat as Hd by (by rewrite length_drop).
  pose proof (length_swapped (take ihl inner) ltac:(lia)) as Hs.
  destruct (swapped_parts (take ihl inner) ltac:(lia)) as (P1 & P2 & P3).
  assert (length h = ihl) as Hlh by (unfold h; rewrite length_set_word; lia).
  assert (length (set_word 0 0 (drop ihl inner)) = length inner - ihl)%nat as Hl0 by (rewrite length_set_word; lia).
  assert (length b = length inner - ihl)%nat as Hlb by (unfold b; rewrite length_set_word; lia).
  rewrite take_app_length', drop_app_length' by done. rewrite !part_app_l by lia.
  split_and!; [done|done|rewrite length_app; lia|..].
  - rewrite take_app_le by lia. unfold h. rewrite take_set_word, P1, take_take by lia. f_equal. lia.
  - unfold h. rewrite drop_set_word, P2, part_take by lia. done.
  - unfold h. rewrite drop_set_word, P3, part_take by lia. done.
  - unfold b. rewrite take_set_word by lia. done.
  - rewrite drop_app_ge, Hlh by lia. replace (ihl + 4 - ihl)%nat with 4%nat by lia.
    unfold b. rewrite !drop_set_word by lia. rewrite drop_drop. done.
Qed.

(** ** The answer of each handler *)

Lemma AddUL_tunnel s n :
  tunnelReady (AddULVolume s n) = tunnelReady s ∧ GNBIP (AddULVolume s n) = GNBIP s ∧ DLTEID (AddULVolume s n) = DLTEID s ∧
  qos (AddULVolume s n) = qos s ∧ UEIPv6 (AddULVolume s n) = UEIPv6 s.
Proof. unfold AddULVolume. by case_match. Qed.

(** One frame to the gNB of the session, with [p] in it. *)
Definition one_frame (s : Session) (gnb p : bytes) (m : res (Server * list Out)) : Prop :=
  ∃ sv', m = Ok (sv', [Frame gnb 2152 (dl_frame (DLTEID s) (DLQFI (qos s)) p)]).

Lemma sendGTPU_frame w sv r s gnb p :
  GNBIP s ≫= ueAddr = Some gnb → w_send w = true → (length p <= maxRead)%nat → one_frame s gnb p (Ok (sendGTPU w sv r s p)).
Proof.
  intros Hg Hw Hl. unfold sendGTPU, sendFrame. rewrite Hg, Hw, putDLHeader_frame; [|done|unfold maxRead in Hl; lia].
  eexists. done.
Qed.

Lemma ihl_even inner : Nat.Even (ihl_of inner).
Proof.
  exists (Z.to_nat (Z.land (octet inner 0) 15 * 2)). unfold ihl_of.
  assert (0 <= Z.land (octet inner 0) 15) by (apply Z.land_nonneg; right; lia). lia.
Qed.

Lemma processInnerIP_echo g w sv r s gnb inner :
  tunnelReady s = true → GNBIP s ≫= ueAddr = Some gnb → w_send w = true → bytes_ok inner → (length inner <= maxRead)%nat →
  echo4 g inner → ∃ p, one_frame s gnb p (processInnerIP g w sv r s inner) ∧ echo4_answer inner p.
Proof.
  intros Ht Hg Hw Hb Hl (H4 & H20 & H8 & Hp & Hd & Hi). unfold processInnerIP.
  destruct (Nat.ltb_spec (length inner) 20); [lia|]. rewrite (idx_octet inner 0) by lia. cbn [mbind res_bind]. rewrite H4. cbn [Z.eqb Pos.eqb negb].
  rewrite (slice_Ok inner 16 20) by lia. cbn [mbind res_bind]. change (20 - 16)%nat with 4%nat. rewrite Hd.
  assert (ipEqual (g_n3IP g) (g_n3IP g) = true) as -> by (unfold ipEqual; by rewrite Nat.eqb_refl, bool_decide_eq_true_2).
  unfold handleICMPToSelf. rewrite (idx_octet inner 9), Hp by lia. cbn [mbind res_bind Z.eqb Pos.eqb negb].
  rewrite (idx_octet inner 0) by lia. cbn [mbind res_bind]. fold (ihl_of inner).
  destruct (Nat.ltb_spec (length inner) (ihl_of inner + 8)); [lia|]. rewrite slice_from_Ok by lia. cbn [mbind res_bind].
  assert (idx (drop (ihl_of inner) inner) 0 = Ok 8) as ->.
  { rewrite idx_octet by (rewrite length_drop; lia). unfold octet in *. rewrite lookup_drop, Nat.add_0_r. by rewrite Hi. }
  cbn [mbind res_bind Z.eqb Pos.eqb negb]. rewrite Ht. cbn [negb].
  destruct (buildICMPReply_spec inner (ihl_of inner) Hb H20 (ihl_even inner) H8) as (c1 & c2 & -> & Hh & Hbd);
    [unfold maxRead in Hl; lia|]. cbn [mbind res_bind].
  pose proof (echo4_reply inner c1 c2 H20 H8 Hh Hbd) as Ha. eexists. split; [|exact Ha].
  apply sendGTPU_frame; [done|done|]. destruct Ha as (_ & _ & -> & _). done.
Qed.

Lemma ParseRouterSolicitation_icmp6 t inner :
  icmp6 t inner → ParseRouterSolicitation inner = Ok (if t =? 133 then Some (take 16 (drop 8 inner)) else None).
Proof.
  intros (H6 & Hl & Hn & Ht). unfold ParseRouterSolicitation, ipv6HeaderLen. destruct (Nat.ltb_spec (length inner) 40); [lia|].
  rewrite (idx_octet inner 0) by lia. cbn [mbind res_bind]. rewrite H6. change (negb (6 =? ipv6Version)) with false. cbn iota.
  rewrite (idx_octet inner 6), Hn by lia. cbn [mbind res_bind]. rewrite Z.eqb_refl. cbn [negb].
  rewrite slice_from_Ok by lia. cbn [mbind res_bind]. rewrite length_drop. destruct (Nat.ltb_spec (length inner - 40) 8); [lia|].
  assert (idx (drop 40 inner) 0 = Ok t) as ->.
  { rewrite idx_octet by (rewrite length_drop; lia). unfold octet in *. rewrite lookup_drop. cbn [Nat.add]. by rewrite Ht. }
  cbn [mbind res_bind]. unfold ICMPv6TypeRouterSolicitation. destruct (t =? 133); cbn [negb]; [|done].
  rewrite slice_Ok by lia. done.
Qed.

Lemma bytes_ok_part b i n : bytes_ok b → bytes_ok (take n (drop i b)).
Proof. intros. by apply Forall_take, Forall_drop. Qed.

Lemma emitRA_answer g w sv r s gnb network inner :
  tunnelReady s = true → GNBIP s ≫= ueAddr = Some gnb → w_send w = true → bytes_ok inner → 
  (∀ ip, UEIPv6 s = Some ip → bytes_ok ip) → g_raSender g = true → ueV6Prefix (UEIPv6 s) = Some network →
  ∃ p, one_frame s gnb p (emitRA g w sv r s (Some (take 16 (drop 8 inner)))) ∧ ra_answer network inner p.
Proof.
  intros Ht Hg Hw Hb Hip Hra Hn. unfold emitRA. destruct (UEIPv6 s) as [ip|]; [|done]. rewrite Hra, Hn. cbn [negb].
  rewrite Ht. cbn [negb]. assert (length network = 16%nat ∧ bytes_ok network) as [Hnl Hnb].
  { split; [by eapply ueV6Prefix_length|]. specialize (Hip ip eq_refl). unfold ueV6Prefix in Hn. cbn in Hn.
    apply bind_Some in Hn as (i16 & H16 & [= <-]). apply Forall_app. split.
    - apply Forall_take. unfold UpfServer.To16 in H16. repeat case_match; simplify_eq; [|done].
      apply Forall_app. split; [|done]. apply (bool_decide_unpack _). vm_compute. exact I.
    - apply (bool_decide_unpack _). vm_compute. exact I. }
  destruct (BuildRouterAdvertisement_spec network (Some (take 16 (drop 8 inner))) Hnl Hnb) as (c & pkt & -> & E & Hv & Hl).
  { intros d [= <-]. by apply bytes_ok_part. }
  exists pkt. split; [|split; [done|by exists c]]. apply sendGTPU_frame; [done|done|]. rewrite Hl. unfold maxRead. lia.
Qed.

Lemma echo6_message inner :
  (48 <= length inner)%nat → bytes_ok inner →
  let m := <[0%nat := icmpv6TypeEchoReply]> (<[1%nat := 0]> (drop 40 inner)) in
  bytes_ok m ∧ length m = (length inner - 40)%nat ∧ take 2 m = [129; 0] ∧ drop 4 m = drop 44 inner.
Proof.
  intros Hl Hb m. assert (bytes_ok (drop 40 inner)) as Hbd by (by apply Forall_drop).
  assert (length (drop 40 inner) = length inner - 40)%nat as Hd by (by rewrite length_drop).
  assert (drop 4 (drop 40 inner) = drop 44 inner) as H44 by (by rewrite drop_drop). unfold m. rewrite <- H44.
  destruct (drop 40 inner) as [|x [|y l]]; [cbn in Hd; lia..|]. cbn [insert list_insert]. split_and!; [|cbn in *; lia|done|done].
  apply Forall_cons in Hbd as [_ Hbd]. apply Forall_cons in Hbd as [_ Hbd].
  repeat constructor; [unfold icmpv6TypeEchoReply; lia..|done].
Qed.

Lemma BuildIPv6Packet_parts src dst nh hop payload :
  length src = 16%nat → length dst = 16%nat →
  let p := BuildIPv6Packet src dst nh hop payload in
  take 16 (drop 8 p) = src ∧ take 16 (drop 24 p) = dst ∧ drop 40 p = payload.
Proof.
  intros Hs Hd p. unfold p, BuildIPv6Packet. rewrite !ip16_id by done. cbn [drop app]. split_and!.
  - by apply take_app_length'.
  - rewrite (drop_app_length' src) by done. by apply take_app_length'.
  - rewrite app_assoc. apply drop_app_length'. rewrite length_app. lia.
Qed.

Lemma buildICMPv6EchoReply_answer inner :
  (48 <= length inner <= maxRead)%nat → bytes_ok inner →
  ∃ p, buildICMPv6EchoReply (take 16 (drop 8 inner)) (take 16 (drop 24 inner)) (drop 40 inner) = Ok p ∧ echo6_answer inner p.
Proof.
  intros [Hl Hm] Hb. unfold maxRead in Hm. unfold buildICMPv6EchoReply.
  destruct (Nat.ltb_spec (length (drop 40 inner)) 2) as [Hx|_]; [rewrite length_drop in Hx; lia|].
  set (src := take 16 (drop 8 inner)). set (dst := take 16 (drop 24 inner)).
  assert (length src = 16%nat ∧ length dst = 16%nat) as [Hs Hd] by (unfold src, dst; rewrite !length_take, !length_drop; lia).
  destruct (echo6_message inner Hl Hb) as (Hmb & Hml & Hm2 & Hm4). set (m := <[0%nat := _]> _) in *.
  destruct (ICMPv6Checksum_spec dst src m) as (c & Ec & _ & Ep & Hok); [by apply bytes_ok_part..|done|lia|lia|].
  cbn zeta. rewrite Ec. cbn [mbind res_bind]. rewrite Ep. cbn [mbind res_bind]. eexists. split; [done|].
  assert (length (set_word 2 c m) = length m) as Hsl by (apply length_set_word; lia).
  destruct (BuildIPv6Packet_parts dst src NextHeaderICMPv6 DefaultCurHopLimit (set_word 2 c m) Hd Hs) as (P1 & P2 & P3).
  set (p := BuildIPv6Packet _ _ _ _ _) in *. split; [apply icmpv6_packet; [lia|lia|done]|]. split_and!; [|done|done|..].
  - unfold p. destruct (BuildIPv6Packet_view dst src NextHeaderICMPv6 DefaultCurHopLimit (set_word 2 c m)) as (-> & _); lia.
  - rewrite P3, take_set_word by lia. done.
  - change 44%nat with (40 + 4)%nat at 1. rewrite <- drop_drop, P3, drop_set_word by lia. done.
Qed.

Lemma handleInnerIPv6_answer g w sv r s gnb inner t :
  tunnelReady s = true → GNBIP s ≫= ueAddr = Some gnb → w_send w = true → bytes_ok inner → (length inner <= maxRead)%nat →
  (∀ ip, UEIPv6 s = Some ip → bytes_ok ip) → icmp6 t inner →
  (t = 128 → take 16 (drop 24 inner) = LinkLocalRouterAddr →
     ∃ p, one_frame s gnb p (handleInnerIPv6 g w sv r s inner) ∧ echo6_answer inner p) ∧
  (∀ network, t = 133 → g_pfcp g = true → g_raSender g = true → ueV6Prefix (UEIPv6 s) = Some network →
     ∃ p, one_frame s gnb p (handleInnerIPv6 g w sv r s inner) ∧ ra_answer network inner p).
Proof.
  intros Ht Hg Hw Hb Hl Hip H6. unfold handleInnerIPv6. rewrite (ParseRouterSolicitation_icmp6 t inner H6).
  destruct H6 as (_ & H48 & Hn & Ho). split.
  - intros -> Hd. cbn [mbind res_bind Z.eqb Pos.eqb]. destruct (Nat.ltb_spec (length inner) 40); [lia|].
    rewrite (slice_Ok inner 8 24) by lia. cbn [mbind res_bind]. rewrite (slice_Ok inner 24 40) by lia. cbn [mbind res_bind].
    rewrite (idx_octet inner 6), Hn by lia. cbn [mbind res_bind]. rewrite Z.eqb_refl.
    destruct (Nat.leb_spec 48 (length inner)); [|lia]. cbn [andb]. rewrite slice_from_Ok by lia. cbn [mbind res_bind].
    assert (idx (drop 40 inner) 0 = Ok 128) as ->.
    { rewrite idx_octet by (rewrite length_drop; lia). unfold octet in *. rewrite lookup_drop. cbn [Nat.add]. by rewrite Ho. }
    cbn [mbind res_bind]. change (40 - 24)%nat with 16%nat. change (24 - 8)%nat with 16%nat. 
    assert ((128 =? icmpv6TypeEchoRequest) && ipEqual (take 16 (drop 24 inner)) LinkLocalRouterAddr = true) as -> by (by rewrite Hd).
    rewrite Ht. cbn [negb]. destruct (buildICMPv6EchoReply_answer inner) as (p & -> & Ha); [lia|done|].
    cbn [mbind res_bind]. exists p. split; [|done]. apply sendGTPU_frame; [done|done|]. by destruct Ha as (_ & -> & _).
  - intros network -> Hp Hra Hnet. cbn [mbind res_bind Z.eqb Pos.eqb]. rewrite Hp. by apply emitRA_answer.
Qed.

Lemma asks_version g s inner :
  asks g s inner → (1 <= length inner)%nat ∧
  (echo4 g inner ∧ (octet inner 0 ≫ 4 =? 6) = false ∨ (∃ t, icmp6 t inner) ∧ (octet inner 0 ≫ 4 =? 6) = true).
Proof.
  intros [He|[[H6 _]|[H6 _]]].
  - split; [destruct He as (_ & ? & ? & _); lia|]. left. split; [done|]. by destruct He as (-> & _).
  - split; [destruct H6 as (_ & ? & _); lia|]. right. split; [by eexists|]. by destruct H6 as (-> & _).
  - split; [destruct H6 as (_ & ? & _); lia|]. right. split; [by eexists|]. by destruct H6 as (-> & _).
Qed.

Lemma icmp6_exclusive t t' inner : icmp6 t inner → icmp6 t' inner → t = t'.
Proof. intros (_ & _ & _ & <-) (_ & _ & _ & <-). done. Qed.
Lemma echo4_not_icmp6 g t inner : echo4 g inner → icmp6 t inner → False.
Proof. intros (H & _) (H' & _). lia. Qed.

Lemma uplink_answers g w sv r s gnb inner :
  tunnelReady s = true → GNBIP s ≫= ueAddr = Some gnb → w_send w = true → bytes_ok inner → (length inner <= maxRead)%nat →
  (∀ ip, UEIPv6 s = Some ip → bytes_ok ip) → asks g s inner →
  ∃ p, one_frame s gnb p (if octet inner 0 ≫ 4 =? 6 then handleInnerIPv6 g w sv r s inner else processInnerIP g w sv r s inner) ∧
    answers g s inner p.
Proof.
  intros Ht Hg Hw Hb Hl Hip Ha. unfold answers. destruct (asks_version g s inner Ha) as [_ [[He ->]|[[t Hi] ->]]].
  - destruct (processInnerIP_echo g w sv r s gnb inner) as (p & Hp & Hv); [done..|]. exists p. split; [done|].
    split_and!; [done|intros H6; by destruct (echo4_not_icmp6 _ _ _ He H6)|intros ? H6; by destruct (echo4_not_icmp6 _ _ _ He H6)].
  - destruct Ha as [He|[[H6 Hd]|(H6 & Hp & Hra & [n Hn])]].
    + by destruct (echo4_not_icmp6 _ _ _ He Hi).
    + destruct (handleInnerIPv6_answer g w sv r s gnb inner 128) as [H _]; [done..|]. destruct (H eq_refl Hd) as (p & Hf & Hv).
      exists p. split; [done|]. split_and!; [intros He; by destruct (echo4_not_icmp6 _ _ _ He H6)|done|].
      intros n H6'. by pose proof (icmp6_exclusive _ _ _ H6 H6').
    + destruct (handleInnerIPv6_answer g w sv r s gnb inner 133) as [_ H]; [done..|]. destruct (H n eq_refl Hp Hra Hn) as (p & Hf & Hv).
      exists p. split; [done|]. split_and!; [intros He; by destruct (echo4_not_icmp6 _ _ _ He H6)| |].
      * intros H6'. by pose proof (icmp6_exclusive _ _ _ H6 H6').
      * intros n' _. rewrite Hn. by intros [= <-].
Qed.

Lemma asks_AddUL g s n inner : asks g (AddULVolume s n) inner ↔ asks g s inner.
Proof. unfold asks. by destruct (AddUL_tunnel s n) as (_ & _ & _ & _ & ->). Qed.

(** C4: what the UPF answers by itself is right.  A T-PDU of a session whose rules
    admit it, with an ICMP echo request for the UPF's N3 address, an ICMPv6 echo
    request for its link-local address, or a Router Solicitation of a session with
    an IPv6 prefix, is answered by [handlePacket] with exactly one T-PDU, to the
    session's gNB, with the session's downlink TEID and QFI.  The packet in it is
    the echo reply, its addresses exchanged, its data that of the request and its
    checksums those the receiver computes; or the advertisement of the session's
    /64, sent to the link-local address that asked, with a valid checksum. *)
Theorem upf_answers_valid (g : Gtpu) (w : World) (sv : Server) pkt teid inner r s gnb :
  server_ok sv → is_clock (w_now w) → bytes_ok pkt → (length pkt <= maxRead)%nat →
  decapsulate pkt = Ok (Some (teid, inner)) → byTEID (sessions sv) teid = Some (r, s) →
  rules_admit true (buckets sv) s (Z.of_nat (length inner)) (w_now w) → tunnelReady s = true →
  GNBIP s ≫= ueAddr = Some gnb → w_send w = true → (∀ ip, UEIPv6 s = Some ip → bytes_ok ip) → asks g s inner →
  ∃ sv' reply, handlePacket g w sv pkt = Ok (sv', [Frame gnb 2152 (dl_frame (DLTEID s) (DLQFI (qos s)) reply)]) ∧
    answers g s inner reply.
Proof.
  intros Hok Hc Hb Hl Hdec Hby Hadm Ht Hg Hw Hip Ha. unfold handlePacket. rewrite Hdec. cbn [mbind res_bind]. rewrite Hby.
  destruct (decapsulate_total pkt) as (o & Eo & Ho). rewrite Hdec in Eo. injection Eo as <-.
  destruct (Ho teid inner eq_refl) as [_ [n Hn]].
  assert (bytes_ok inner ∧ (length inner <= maxRead)%nat) as [Hbi Hli]
    by (rewrite Hn, length_drop; split; [by apply Forall_drop|lia]).
  unfold uplink. destruct (Admit_direction_spec true sv r s (Z.of_nat (length inner)) (w_now w) Hok) as (h & ok & reason & -> & Hspec);
    [by eapply byTEID_heap|by apply is_len_read|done|]. cbn [mbind res_bind].
  destruct ok; [|by destruct Hspec as [Hno _]]. cbn [negb]. destruct (asks_version g s inner Ha) as [H1 _].
  destruct (Nat.ltb_spec 0 (length inner)); [|lia]. rewrite (idx_octet inner 0) by lia. cbn [mbind res_bind].
  set (s1 := AddULVolume s (Z.of_nat (length inner))). set (sv1 := with_session _ r s1).
  destruct (AddUL_tunnel s (Z.of_nat (length inner))) as (E1 & E2 & E3 & E4 & E5). fold s1 in E1, E2, E3, E4, E5.
  destruct (uplink_answers g w sv1 r s1 gnb inner) as (p & [sv' Hf] & Hans);
    [by rewrite E1|by rewrite E2|done|done|done|by rewrite E5|by apply asks_AddUL|].
  exists sv', p. split; [by rewrite Hf, E3, E4|]. unfold answers in *. by rewrite E5 in Hans.
Qed.

(** An echo request of the UE for the N3 address. *)
Definition demo_echo : bytes :=
  [69;0;0;28;0;0;0;0;64;1;0;0; 10;60;0;2; 172;30;3;100; 8;0;0;0;0;7;0;1].

Lemma upf_answers_valid_witness :
  ∃ sv' reply, handlePacket demo_gtpu demo_world demo_upf (dl_frame 4096 9 demo_echo) =
      Ok (sv', [Frame [172; 30; 3; 1] 2152 (dl_frame 257 0 reply)]) ∧
    answers demo_gtpu demo_dl_session demo_echo reply.
Proof.
  apply (upf_answers_valid demo_gtpu demo_world demo_upf (dl_frame 4096 9 demo_echo) 4096 demo_echo 1%positive demo_dl_session [172; 30; 3; 1]).
  - apply demo_upf_ok.
  - unfold is_clock. cbn. lia.
  - apply (bool_decide_unpack _). vm_compute. exact I.
  - unfold maxRead. cbn. lia.
  - vm_compute. reflexivity.
  - vm_compute. reflexivity.
  - split; [reflexivity|constructor].
  - reflexivity.
  - reflexivity.
  - reflexivity.
  - intros ip [= <-]. apply (bool_decide_unpack _). vm_compute. exact I.
  - left. unfold echo4. change (ihl_of demo_echo) with 20%nat. cbn [length demo_echo].
    split; [reflexivity|]. split; [lia|]. split; [lia|]. split; [reflexivity|]. split; reflexivity.
Defined.
