(* ===== verification/UdrStore.v ===== *)
(** * The UDR: subscription and policy data

    [nf/udr/internal/store/store.go], [slice_dnn_qos.go] and [seed_extra.go], the
    rates of [nf/udr/internal/qos/bitrate.go], the handlers of
    [nf/udr/internal/server] and the seeding of [nf/udr/cmd/udr/main.go], over the
    in-memory store, whose operations do not fail: the answers 500 of the
    handlers, for a store that fails, do not occur.

    Texts are lists of octets.  The body of a request is the decoded value, [None]
    when it does not decode or is too long; the times that rows carry are
    arguments.  [strings.ToLower] is exact on ASCII texts; for others it is the
    class [GoUnicode].  Logs, metrics and the text of error details are left out. *)
From stdpp Require Import sorting.
From S2P Require Import Prelude GoText SmfQos.
Open Scope Z_scope.

(** ** Texts *)

Class GoUnicode := unicodeLower : bytes → bytes.

Definition isASCII (b : bytes) : bool := forallb (λ c, (0 <=? c) && (c <? 128)) b.
Definition asciiLower (b : bytes) : bytes := (λ c, if (65 <=? c) && (c <=? 90) then c + 32 else c) <$> b.
Definition toLower `{!GoUnicode} (b : bytes) : bytes := if isASCII b then asciiLower b else unicodeLower b.

(** Lower-casing a trimmed text gives a text that is trimmed and lower-case. *)
Class GoUnicodeLaws `{!GoUnicode} :=
  unicode_normal b : isASCII b = false → trimSpace b = b → toLower (trimSpace (unicodeLower b)) = unicodeLower b.

(** [strconv.ParseUint(s, 10, 16)] with a value of at most 255. *)
Definition parseSST (s : bytes) : option Z :=
  match s with
  | [] => None
  | _ => v ← GoText.digitsValue 0 s; if v <=? 255 then Some v else None
  end.

(** ** Rates *)

Definition MaxBitRateKbps : Z := 1000000000000.
Definition maxBitRateLen : nat := 64.

(** The kbit/s of a unit, as numerator and denominator. *)
Definition kbpsPerUnit (u : bytes) : option (Z * Z) :=
  snd <$> head (filter (λ p, p.1 = u)
    [(str "bps", (1, 1000)); (str "Kbps", (1, 1)); (str "Mbps", (1000, 1)); (str "Gbps", (1000000, 1));
     (str "Tbps", (1000000000, 1))]).

(** [bitRateRe]: the value as digits and the number of those after the point, and the unit. *)
Definition bitRateParts (b : bytes) : option (Z * nat * (Z * Z)) :=
  let '(int, r) := spanDigits b in
  let '(frac, r) := fraction r in
  match int, r with
  | _ :: _, c :: u =>
      if c =? 32 then k ← kbpsPerUnit u; Some (SmfQos.digitsValue (int ++ frac), length frac, k) else None
  | _, _ => None
  end.

(** The canonical text and the rate in kbit/s, rounded up. *)
Definition ValidateBitRate (s : bytes) : option (bytes * Z) :=
  let t := trimSpace s in
  if (maxBitRateLen <? length t)%nat then None
  else
    '(n, d, (un, ud)) ← bitRateParts t;
    let num := n * un in
    let den := 10 ^ Z.of_nat d * ud in
    let q := num / den + (if 0 <? num mod den then 1 else 0) in
    if q <=? 0 then None else if MaxBitRateKbps <? q then None else Some (t, q).

(** ** Data *)

Record SequenceNumber := mkSQN { SQN : bytes; SQNScheme : string; IndividualSQNs : list bytes }.
Record AuthenticationSubscription := mkAuth {
  au_SUPI : bytes; AuthenticationMethod : string; EncPermanentKey : bytes; ProtectionParameterID : bytes;
  au_SequenceNumber : SequenceNumber; AuthenticationManagementField : bytes; AlgorithmID : string; EncOpcKey : bytes; EncTopcKey : bytes }.

Record SNSSAISubscribed := mkSub { n_SST : Z; n_SD : bytes; MappedSST : Z; MappedSD : bytes; n_DNN : bytes }.
Record AMData := mkAM {
  am_SUPI : bytes; GPSIS : list bytes; SNSSAIs : list SNSSAISubscribed; InternalGroupIDs : list bytes;
  SubscribedUEAMBRUplink : Z; SubscribedUEAMBRDownlink : Z }.

Record AMBR := mkAMBR { Uplink : bytes; Downlink : bytes }.
Record ARP := mkARP { arp_PriorityLevel : Z; PreemptCap : string; PreemptVuln : string }.
Record FiveGQoSProfile := mkProfile { FiveQI : Z; p_ARP : ARP; p_PriorityLevel : Z }.
Record DNNConfiguration := mkDNNConf {
  DefaultSessionType : string; AllowedSessionTypes : list string; DefaultQos : FiveGQoSProfile; c_SessionAMBR : AMBR }.
Record SMData := mkSM { sm_SST : Z; sm_SD : bytes; DNNConfigurations : gmap bytes DNNConfiguration }.

Record DnnInfo := mkDnnInfo { di_DNN : bytes; DefaultDNNIndicator : bool; di_PDUSessionTypes : list string }.
Record SnssaiDnnInfo := mkSnssaiInfo { si_SST : Z; si_SD : bytes; DNNs : list DnnInfo }.
Record SMFSelection := mkSMFSel { sel_SUPI : bytes; SubscribedSnssaiInfos : list SnssaiDnnInfo }.

(** *** Policy data, [shared/types] *)

Record SNSSAI := mkSNSSAI { ns_SST : Z; ns_SD : bytes }.
Record PortRange := mkPorts { Low : Z; High : Z }.
Record TrafficDescriptor := mkTD {
  MatchAll : bool; td_DNNs : list bytes; FQDNs : list bytes; IPv4Addrs : list bytes; ProtocolIDs : list Z;
  PortRanges : list PortRange; ConnCapabilities : list Z }.
Record RouteSelectionDescriptor := mkRSD {
  rsd_Precedence : Z; SSCMode : option Z; rsd_SNSSAI : option SNSSAI; rsd_DNN : option bytes; PDUSessionType : option Z }.
Record URSPRule := mkRule { ru_Precedence : Z; ru_TD : TrafficDescriptor; RouteSelDescriptors : list RouteSelectionDescriptor }.
Record PolicySubscription := mkPolicy { po_ID : bytes; po_SUPI : bytes; po_Precedence : Z; po_Rules : list URSPRule }.

Record SmPolicyDnnData := mkPolDnn { pd_DNN : bytes; pd_FiveQI : Z; ARPPriority : Z; AMBRUplink : bytes; AMBRDownlink : bytes }.
Record SmPolicySnssaiData := mkPolSnssai { ps_SNSSAI : SNSSAI; SmPolicyDnn : gmap bytes SmPolicyDnnData }.
Record SmPolicyData := mkSmPolicy { sp_SUPI : bytes; SmPolicySnssai : gmap bytes SmPolicySnssaiData }.

(** *** Rows of [slice_dnn_qos] *)

Definition SourceDefault : string := "default".
Definition SourceOperator : string := "operator".
Definition SourceEdited : string := "edited".
Definition DefaultDNN : bytes := str "internet".

Record SliceKey := mkKey { k_SST : Z; k_SD : bytes; k_DNN : bytes }.
Record SliceDNNQoS := mkRow {
  r_SST : Z; r_SD : bytes; r_DNN : bytes; SessionAMBR : AMBR; Source : string; SeedAMBR : AMBR; SeedSource : string; UpdatedAt : Z }.

#[export] Instance AMBR_eq : EqDecision AMBR.
Proof. solve_decision. Defined.
#[export] Instance SliceKey_eq : EqDecision SliceKey.
Proof. solve_decision. Defined.
#[export] Instance SliceKey_countable : Countable SliceKey.
Proof.
  apply (inj_countable' (λ k, (k_SST k, k_SD k, k_DNN k)) (λ '(a, b, c), mkKey a b c)). by intros [].
Defined.

Definition Key (q : SliceDNNQoS) : SliceKey := mkKey (r_SST q) (r_SD q) (r_DNN q).

(** The state; [smSubs] holds a slice, which may be nil. *)
Record InMemory := mkStore {
  authSubs : gmap bytes AuthenticationSubscription; amSubs : gmap bytes AMData; smfSubs : gmap bytes SMFSelection;
  smSubs : gmap bytes (option (list SMData)); policySubs : gmap bytes PolicySubscription; smPolicy : gmap bytes SmPolicyData;
  sliceQoS : gmap SliceKey SliceDNNQoS }.

Definition NewInMemory : InMemory := mkStore ∅ ∅ ∅ ∅ ∅ ∅ ∅.
Definition with_auth (f : gmap bytes AuthenticationSubscription → gmap bytes AuthenticationSubscription) (s : InMemory) : InMemory :=
  mkStore (f (authSubs s)) (amSubs s) (smfSubs s) (smSubs s) (policySubs s) (smPolicy s) (sliceQoS s).
Definition with_am (f : gmap bytes AMData → gmap bytes AMData) (s : InMemory) : InMemory :=
  mkStore (authSubs s) (f (amSubs s)) (smfSubs s) (smSubs s) (policySubs s) (smPolicy s) (sliceQoS s).
Definition with_smf (f : gmap bytes SMFSelection → gmap bytes SMFSelection) (s : InMemory) : InMemory :=
  mkStore (authSubs s) (amSubs s) (f (smfSubs s)) (smSubs s) (policySubs s) (smPolicy s) (sliceQoS s).
Definition with_sm (f : gmap bytes (option (list SMData)) → gmap bytes (option (list SMData))) (s : InMemory) : InMemory :=
  mkStore (authSubs s) (amSubs s) (smfSubs s) (f (smSubs s)) (policySubs s) (smPolicy s) (sliceQoS s).
Definition with_policy (f : gmap bytes PolicySubscription → gmap bytes PolicySubscription) (s : InMemory) : InMemory :=
  mkStore (authSubs s) (amSubs s) (smfSubs s) (smSubs s) (f (policySubs s)) (smPolicy s) (sliceQoS s).
Definition with_smPolicy (f : gmap bytes SmPolicyData → gmap bytes SmPolicyData) (s : InMemory) : InMemory :=
  mkStore (authSubs s) (amSubs s) (smfSubs s) (smSubs s) (policySubs s) (f (smPolicy s)) (sliceQoS s).
Definition with_qos (f : gmap SliceKey SliceDNNQoS → gmap SliceKey SliceDNNQoS) (s : InMemory) : InMemory :=
  mkStore (authSubs s) (amSubs s) (smfSubs s) (smSubs s) (policySubs s) (smPolicy s) (f (sliceQoS s)).

(** ** The store *)

Definition GetAuthSubscription (supi : bytes) (s : InMemory) : option AuthenticationSubscription := authSubs s !! supi.
Definition PutAuthSubscription (sub : AuthenticationSubscription) : InMemory → InMemory := with_auth (<[au_SUPI sub := sub]>).
Definition set_SQN (sqn : bytes) (a : AuthenticationSubscription) : AuthenticationSubscription :=
  mkAuth (au_SUPI a) (AuthenticationMethod a) (EncPermanentKey a) (ProtectionParameterID a)
    (mkSQN sqn (SQNScheme (au_SequenceNumber a)) (IndividualSQNs (au_SequenceNumber a)))
    (AuthenticationManagementField a) (AlgorithmID a) (EncOpcKey a) (EncTopcKey a).
Definition UpdateSQN (supi sqn : bytes) (s : InMemory) : option InMemory :=
  sub ← authSubs s !! supi; Some (with_auth (<[supi := set_SQN sqn sub]>) s).

Definition GetAMSubscription (supi : bytes) (s : InMemory) : option AMData := amSubs s !! supi.
Definition PutAMSubscription (sub : AMData) : InMemory → InMemory := with_am (<[am_SUPI sub := sub]>).
Definition GetSMFSelectionSubscription (supi : bytes) (s : InMemory) : option SMFSelection := smfSubs s !! supi.
Definition PutSMFSelectionSubscription (sub : SMFSelection) : InMemory → InMemory := with_smf (<[sel_SUPI sub := sub]>).

(** [None] is the nil slice. *)
Definition GetSMSubscriptions (supi : bytes) (s : InMemory) : option (list SMData) := default None (smSubs s !! supi).
Definition PutSMSubscriptions (supi : bytes) (subs : option (list SMData)) : InMemory → InMemory := with_sm (<[supi := subs]>).

Definition GetPolicySubscription (supi : bytes) (s : InMemory) : option PolicySubscription := policySubs s !! supi.
Definition PutPolicySubscription (sub : PolicySubscription) : InMemory → InMemory := with_policy (<[po_SUPI sub := sub]>).
Definition DeletePolicySubscription (supi : bytes) : InMemory → InMemory := with_policy (delete supi).
(** In the order of the map. *)
Definition ListPolicySubscriptions (s : InMemory) : list PolicySubscription := (map_to_list (policySubs s)).*2.

Definition GetSmPolicyData (supi : bytes) (s : InMemory) : option SmPolicyData := smPolicy s !! supi.
Definition PutSmPolicyData (data : SmPolicyData) : InMemory → InMemory := with_smPolicy (<[sp_SUPI data := data]>).
(** Entry by entry, those of the patch first. *)
Definition PatchSmPolicyData (supi : bytes) (patch : SmPolicyData) (s : InMemory) : option InMemory :=
  cur ← smPolicy s !! supi;
  Some (with_smPolicy (<[supi := mkSmPolicy (sp_SUPI cur) (SmPolicySnssai patch ∪ SmPolicySnssai cur)]>) s).

(** *** Defaults of a slice *)

Definition DefaultQoSForSlice (sst : Z) (sd : bytes) : FiveGQoSProfile :=
  let arp := mkARP 8 "NOT_PREEMPT" "NOT_PREEMPTABLE" in
  if (sst =? 1) && bool_decide (sd = str "000002") then mkProfile 7 (mkARP 5 "MAY_PREEMPT" "NOT_PREEMPTABLE") 70
  else if sst =? 2 then mkProfile 8 arp 80
  else mkProfile 9 arp 90.

Definition DefaultAMBRForSlice (sst : Z) (sd : bytes) : AMBR :=
  if (sst =? 1) && bool_decide (sd = str "000002") then mkAMBR (str "200 Mbps") (str "500 Mbps")
  else if sst =? 2 then mkAMBR (str "100 Mbps") (str "200 Mbps")
  else if sst =? 3 then mkAMBR (str "50 Mbps") (str "50 Mbps")
  else mkAMBR (str "100 Mbps") (str "100 Mbps").

(** *** Transitions of a row *)

Definition DefaultSliceDNNQoS (k : SliceKey) : SliceDNNQoS :=
  let a := DefaultAMBRForSlice (k_SST k) (k_SD k) in
  mkRow (k_SST k) (k_SD k) (k_DNN k) a SourceDefault a SourceDefault 0.

(** The row, and whether it was created and changed. *)
Definition applyEdit (cur : option SliceDNNQoS) (k : SliceKey) (ambr : AMBR) (seed : SliceDNNQoS) (now : Z) : SliceDNNQoS * bool * bool :=
  match cur with
  | None => (mkRow (k_SST k) (k_SD k) (k_DNN k) ambr SourceEdited (SeedAMBR seed) (SeedSource seed) now, true, true)
  | Some cur =>
      let changed := negb (bool_decide (SessionAMBR cur = ambr)) || negb (String.eqb (Source cur) SourceEdited) in
      (mkRow (r_SST cur) (r_SD cur) (r_DNN cur) ambr SourceEdited (SeedAMBR cur) (SeedSource cur)
         (if changed then now else UpdatedAt cur), false, changed)
  end.

Definition applyRevert (cur : SliceDNNQoS) (now : Z) : SliceDNNQoS * bool :=
  if negb (String.eqb (Source cur) SourceEdited) then (cur, false)
  else (mkRow (r_SST cur) (r_SD cur) (r_DNN cur) (SeedAMBR cur) (SeedSource cur) (SeedAMBR cur) (SeedSource cur) now, true).

Inductive seedOutcome := seedInserted | seedRefreshed | seedEditedKept | seedUnchanged.

Definition applySeed (cur : option SliceDNNQoS) (seed : SliceDNNQoS) (now : Z) : SliceDNNQoS * seedOutcome * bool :=
  match cur with
  | None =>
      (mkRow (r_SST seed) (r_SD seed) (r_DNN seed) (SessionAMBR seed) (Source seed) (SessionAMBR seed) (Source seed) now,
       seedInserted, negb (bool_decide (SessionAMBR seed = DefaultAMBRForSlice (r_SST seed) (r_SD seed))))
  | Some cur =>
      let seedChanged := negb (bool_decide (SeedAMBR cur = SessionAMBR seed)) || negb (String.eqb (SeedSource cur) (Source seed)) in
      if String.eqb (Source cur) SourceEdited then
        (mkRow (r_SST cur) (r_SD cur) (r_DNN cur) (SessionAMBR cur) (Source cur) (SessionAMBR seed) (Source seed)
           (if seedChanged then now else UpdatedAt cur), seedEditedKept, false)
      else
        let changed := negb (bool_decide (SessionAMBR cur = SessionAMBR seed)) in
        let touched := changed || seedChanged || negb (String.eqb (Source cur) (Source seed)) in
        (mkRow (r_SST cur) (r_SD cur) (r_DNN cur) (SessionAMBR seed) (Source seed) (SessionAMBR seed) (Source seed)
           (if touched then now else UpdatedAt cur),
         if touched then seedRefreshed else seedUnchanged, if touched then changed else false)
  end.

Record SeedCounts := mkCounts { Inserted : Z; Refreshed : Z; EditedKept : Z; Unchanged : Z; ChangedKeys : list SliceKey }.
Definition noCounts : SeedCounts := mkCounts 0 0 0 0 [].

Definition SeedCounts_add (c : SeedCounts) (k : SliceKey) (out : seedOutcome) (changed : bool) : SeedCounts :=
  let n o := match out, o with
             | seedInserted, seedInserted | seedRefreshed, seedRefreshed | seedEditedKept, seedEditedKept
             | seedUnchanged, seedUnchanged => 1 | _, _ => 0 end in
  mkCounts (Inserted c + n seedInserted) (Refreshed c + n seedRefreshed) (EditedKept c + n seedEditedKept)
    (Unchanged c + n seedUnchanged) (if changed then ChangedKeys c ++ [k] else ChangedKeys c).

(** *** Order of listings *)

Fixpoint bytes_leb (a b : bytes) : bool :=
  match a, b with
  | [], _ => true
  | _ :: _, [] => false
  | x :: a, y :: b => if x =? y then bytes_leb a b else x <? y
  end.
Definition key_le (a b : SliceKey) : Prop :=
  (if negb (k_SST a =? k_SST b) then k_SST a <? k_SST b
   else if negb (bool_decide (k_SD a = k_SD b)) then bytes_leb (k_SD a) (k_SD b)
   else bytes_leb (k_DNN a) (k_DNN b)) = true.
#[export] Instance key_le_dec : RelDecision key_le.
Proof. intros a b. unfold key_le. apply _. Defined.
Definition row_le (a b : SliceDNNQoS) : Prop := key_le (Key a) (Key b).
#[export] Instance row_le_dec : RelDecision row_le.
Proof. intros a b. unfold row_le. apply _. Defined.
Definition text_le (a b : bytes) : Prop := bytes_leb a b = true.
#[export] Instance text_le_dec : RelDecision text_le.
Proof. intros a b. unfold text_le. apply _. Defined.

Definition sortQoS (rows : list SliceDNNQoS) : list SliceDNNQoS := merge_sort row_le rows.
Definition sortedKeys (set : gset SliceKey) : list SliceKey := merge_sort key_le (elements set).

(** ** Keys and the table *)
Section Udr.
Context `{!GoUnicode}.

Definition NewSliceKey (sst : Z) (sd dnn : bytes) : SliceKey :=
  mkKey sst (toLower (trimSpace sd)) (toLower (trimSpace dnn)).

Definition sliceKeyOf (n : SNSSAISubscribed) : SliceKey :=
  NewSliceKey (n_SST n) (n_SD n) (match n_DNN n with [] => DefaultDNN | d => d end).

Definition ListSliceDNNQoS (s : InMemory) : list SliceDNNQoS := sortQoS (map_to_list (sliceQoS s)).*2.
Definition GetSliceDNNQoS (sst : Z) (sd dnn : bytes) (s : InMemory) : option SliceDNNQoS := sliceQoS s !! NewSliceKey sst sd dnn.

Definition PutSliceDNNQoSEdited (sst : Z) (sd dnn : bytes) (ambr : AMBR) (seed : SliceDNNQoS) (now : Z) (s : InMemory)
  : InMemory * bool * bool :=
  let k := NewSliceKey sst sd dnn in
  let '(next, created, changed) := applyEdit (sliceQoS s !! k) k ambr seed now in
  (with_qos (<[k := next]>) s, created, changed).

(** [None] is [ErrNotFound]. *)
Definition RevertSliceDNNQoS (sst : Z) (sd dnn : bytes) (now : Z) (s : InMemory) : option (InMemory * SliceDNNQoS * bool) :=
  let k := NewSliceKey sst sd dnn in
  cur ← sliceQoS s !! k;
  let '(next, changed) := applyRevert cur now in
  Some (with_qos (<[k := next]>) s, next, changed).

Definition seedRow (now : Z) (acc : InMemory * SeedCounts) (seed : SliceDNNQoS) : InMemory * SeedCounts :=
  let '(s, c) := acc in
  let k := NewSliceKey (r_SST seed) (r_SD seed) (r_DNN seed) in
  let seed := mkRow (k_SST k) (k_SD k) (k_DNN k) (SessionAMBR seed) (Source seed) (SeedAMBR seed) (SeedSource seed) (UpdatedAt seed) in
  let '(next, out, changed) := applySeed (sliceQoS s !! k) seed now in
  (with_qos (<[k := next]>) s, SeedCounts_add c k out changed).
Definition SeedSliceDNNQoS (rows : list SliceDNNQoS) (now : Z) (s : InMemory) : InMemory * SeedCounts :=
  foldl (seedRow now) (s, noCounts) rows.

Definition ListSUPIsForSliceDNN (sst : Z) (sd dnn : bytes) (s : InMemory) : list bytes :=
  let k := NewSliceKey sst sd dnn in
  merge_sort text_le (filter (λ p, existsb (λ n, bool_decide (sliceKeyOf n = k)) (SNSSAIs p.2) = true) (map_to_list (amSubs s))).*1.

Definition ListSliceKeysInUse (s : InMemory) : list SliceKey :=
  sortedKeys (list_to_set (p ← map_to_list (amSubs s); sliceKeyOf <$> SNSSAIs p.2)).

(** *** Session management data *)

(** The snapshot of [SessionAMBRResolver], and what it answers. *)
Definition snapshot (s : InMemory) : gmap SliceKey AMBR :=
  foldl (λ m r, <[Key r := SessionAMBR r]> m) ∅ (ListSliceDNNQoS s).
Definition SessionAMBRResolver (s : InMemory) (sst : Z) (sd dnn : bytes) : AMBR :=
  match snapshot s !! NewSliceKey sst sd dnn with
  | Some a => a
  | None => DefaultAMBRForSlice sst sd
  end.

Definition BuildSMSubscriptions (snssais : list SNSSAISubscribed) (ambrFor : option (Z → bytes → bytes → AMBR)) : list SMData :=
  (λ n,
     let dnn := match n_DNN n with [] => DefaultDNN | d => d end in
     let ambr := match ambrFor with
                 | Some f => f (n_SST n) (n_SD n) dnn
                 | None => DefaultAMBRForSlice (n_SST n) (n_SD n)
                 end in
     mkSM (n_SST n) (n_SD n)
       {[ dnn := mkDNNConf "IPV4" ["IPV4"%string] (DefaultQoSForSlice (n_SST n) (n_SD n)) ambr ]}) <$> snssais.

(** The new store and the number of slices, [None] without AM data. *)
Definition SyncSMDataFromAMContext (supi : bytes) (s : InMemory) : option (InMemory * nat) :=
  am ← GetAMSubscription supi s;
  let subs := BuildSMSubscriptions (SNSSAIs am) (Some (SessionAMBRResolver s)) in
  Some (PutSMSubscriptions supi (Some subs) s, length subs).

Definition SeedTestSubscriberWithNSSAI (supi kHex opcHex amfHex sqnHex : bytes) (snssais : list SNSSAISubscribed) (s : InMemory) : InMemory :=
  let s := PutAuthSubscription (mkAuth supi "5G_AKA" kHex [] (mkSQN sqnHex "NON_TIME_BASED" []) amfHex "milenage" opcHex []) s in
  let s := PutAMSubscription (mkAM supi [] snssais [] 100000 100000) s in
  PutSMSubscriptions supi (Some (BuildSMSubscriptions snssais (Some (SessionAMBRResolver s)))) s.

Definition SeedTestSubscriber (supi kHex opcHex amfHex sqnHex : bytes) : InMemory → InMemory :=
  SeedTestSubscriberWithNSSAI supi kHex opcHex amfHex sqnHex [mkSub 1 (str "000001") 0 [] []].

Record ResyncResult := mkResyncResult { Affected : Z; Synced : Z; Failed : list bytes }.

Definition resyncOne (acc : InMemory * ResyncResult) (supi : bytes) : InMemory * ResyncResult :=
  let '(s, r) := acc in
  match SyncSMDataFromAMContext supi s with
  | None => (s, mkResyncResult (Affected r) (Synced r) (Failed r ++ [supi]))
  | Some (s, _) => (s, mkResyncResult (Affected r) (Synced r + 1) (Failed r))
  end.
Definition ResyncSliceDNN (k : SliceKey) (s : InMemory) : InMemory * ResyncResult :=
  let supis := ListSUPIsForSliceDNN (k_SST k) (k_SD k) (k_DNN k) s in
  foldl resyncOne (s, mkResyncResult (Z.of_nat (length supis)) 0 []) supis.

(** ** Seeding *)

Definition ValidSD (sd : bytes) : bool :=
  match sd with
  | [] => true
  | _ => (length sd =? 6)%nat &&
         forallb (λ c, isDigit c || ((97 <=? c) && (c <=? 102)) || ((65 <=? c) && (c <=? 70))) sd
  end.

(** [strings.EqualFold] with a text of hexadecimal digits. *)
Definition equalFold (a b : bytes) : bool := bool_decide (asciiLower a = asciiLower b).

(** [OperatorConfig]: what the UDR reads of it; nil reads as empty lists. *)
Record SNSSAIEntry := mkSlice { e_SST : Z; e_SD : bytes }.
Record SliceDNNQoSEntry := mkEntry { q_SST : Z; q_SD : bytes; q_DNN : bytes; q_Uplink : bytes; q_Downlink : bytes }.
Record OperatorConfig := mkOperator { Slices : list SNSSAIEntry; DNNList : list bytes; SliceDNNQoSList : list SliceDNNQoSEntry }.
Definition noOperator : OperatorConfig := mkOperator [] [] [].

Record OperatorSeedEntry := mkSeedEntry { o_Key : SliceKey; o_AMBR : AMBR }.

Definition operatorSeedEntry (op : OperatorConfig) (e : SliceDNNQoSEntry) : option OperatorSeedEntry :=
  if (q_SST e <? 0) || (255 <? q_SST e) then None
  else
    let sd := toLower (q_SD e) in
    if negb (ValidSD sd) then None
    else match trimSpace (q_DNN e) with
    | [] => None
    | dnn =>
        if (0 <? length (Slices op))%nat &&
           negb (existsb (λ s, (e_SST s =? q_SST e) && equalFold (e_SD s) sd) (Slices op)) then None
        else
          ul ← ValidateBitRate (q_Uplink e);
          dl ← ValidateBitRate (q_Downlink e);
          Some (mkSeedEntry (NewSliceKey (u8 (q_SST e)) sd dnn) (mkAMBR ul.1 dl.1))
    end.
Definition OperatorSeedEntries (op : OperatorConfig) : list OperatorSeedEntry := omap (operatorSeedEntry op) (SliceDNNQoSList op).

Definition defaultOperatorSlices : list SNSSAISubscribed :=
  (λ '(sst, sd), mkSub sst (str sd) 0 [] []) <$> [(1, "000001"); (1, "000002"); (2, "000001"); (3, "000001")]%string.

Definition seedRows (slices : list SNSSAISubscribed) (entries : list OperatorSeedEntry) (s : InMemory) : list SliceDNNQoS :=
  let norm e := NewSliceKey (k_SST (o_Key e)) (k_SD (o_Key e)) (k_DNN (o_Key e)) in
  let byKey : gmap SliceKey AMBR := foldl (λ m e, <[norm e := o_AMBR e]> m) ∅ entries in
  let keys : gset SliceKey :=
    list_to_set (sliceKeyOf <$> slices) ∪ list_to_set (ListSliceKeysInUse s) ∪ list_to_set (norm <$> entries) in
  (λ k, match byKey !! k with
        | Some a => let d := DefaultSliceDNNQoS k in
                    mkRow (r_SST d) (r_SD d) (r_DNN d) a SourceOperator (SeedAMBR d) (SeedSource d) (UpdatedAt d)
        | None => DefaultSliceDNNQoS k
        end) <$> sortedKeys keys.

Definition SeedSliceDNNQoSFromEntries (slices : list SNSSAISubscribed) (entries : list OperatorSeedEntry) (now : Z) (s : InMemory)
  : InMemory * SeedCounts := SeedSliceDNNQoS (seedRows slices entries s) now s.

Definition SeedSliceDNNQoSFromOperator (op : OperatorConfig) (now : Z) (s : InMemory) : InMemory * SeedCounts :=
  let slices := match Slices op with
                | [] => defaultOperatorSlices
                | l => (λ e, mkSub (u8 (e_SST e)) (e_SD e) 0 [] []) <$> l
                end in
  SeedSliceDNNQoSFromEntries slices (OperatorSeedEntries op) now s.

(** With the number of subscribers that were derived again. *)
Definition SeedAndResyncSliceDNNQoS (op : OperatorConfig) (now : Z) (s : InMemory) : InMemory * SeedCounts * Z :=
  let '(s, c) := SeedSliceDNNQoSFromOperator op now s in
  let '(s, n) := foldl (λ '(s, n) k, let '(s, r) := ResyncSliceDNN k s in (s, n + Synced r)) (s, 0) (ChangedKeys c) in
  (s, c, n).

(** *** Subscribers *)

Definition isSeedSUPI (b : bytes) : bool :=
  bool_decide (take 5 b = str "imsi-") && (length b =? 20)%nat && forallb isDigit (drop 5 b).

(** [strings.Split] at commas. *)
Fixpoint splitComma (b cur : bytes) : list bytes :=
  match b with
  | [] => [reverse cur]
  | c :: r => if c =? 44 then reverse cur :: splitComma r [] else splitComma r (c :: cur)
  end.

Definition ParseSeedSUPIs (raw : bytes) : list bytes * list bytes :=
  let '(_, valid, invalid) :=
    foldl (λ '(seen, valid, invalid) part,
             let supi := trimSpace part in
             if bool_decide (supi = []) || bool_decide (supi ∈ seen) then (seen, valid, invalid)
             else if isSeedSUPI supi then (supi :: seen, valid ++ [supi], invalid)
             else (supi :: seen, valid, invalid ++ [supi]))
          ([], [], []) (splitComma raw []) in
  (valid, invalid).

Definition SliceProfileForSUPI (supi : bytes) (profiles : list (list SNSSAISubscribed)) : list SNSSAISubscribed :=
  match profiles with
  | [] => []
  | p0 :: _ =>
      let digits := if isPrefix (str "imsi-") supi then drop 5 supi else supi in
      if negb (length digits =? 15)%nat then p0
      else
        let '(msin, ok) := Atoi (drop 5 digits) in
        if negb ok || (msin <? 1) then p0
        else default p0 (profiles !! Z.to_nat ((msin - 1) mod Z.of_nat (length profiles)))
  end.

(** The seeding of [main]. *)
Definition sliceProfiles (op : OperatorConfig) : list (list SNSSAISubscribed) :=
  let l := match Slices op with
           | [] => defaultOperatorSlices
           | l => (λ e, mkSub (u8 (e_SST e)) (e_SD e) 0 [] []) <$> l
           end in
  match l with
  | [] => []
  | internet :: rest => [internet] :: ((λ s, [internet; s]) <$> rest)
  end.

Definition devSUPI (i : nat) : bytes :=
  let d := Itoa (Z.of_nat i) in str "imsi-00101" ++ replicate (10 - length d) 48 ++ d.

Definition seedIfNew (supi : bytes) (profile : list SNSSAISubscribed) (s : InMemory) : InMemory :=
  match GetAuthSubscription supi s with
  | Some _ => s
  | None => SeedTestSubscriberWithNSSAI supi (str "465b5ce8b199b49faa5f0a2ee238a6bc") (str "cd63cb71954a9f4e48a5994e37a02baf")
              (str "b9b9") (str "000000000020") profile s
  end.

Definition startUp (op : OperatorConfig) (ueCount : nat) (extra : bytes) (now : Z) (s : InMemory) : InMemory :=
  let s := (SeedAndResyncSliceDNNQoS op now s).1.1 in
  let ps := sliceProfiles op in
  let s := foldl (λ s i, seedIfNew (devSUPI i) (default [] (ps !! ((i - 1) mod length ps)%nat)) s) s (seq 1 ueCount) in
  foldl (λ s supi, seedIfNew supi (SliceProfileForSUPI supi ps) s) s (ParseSeedSUPIs extra).1.

(** ** The server *)

Record Server := mkServer { store : InMemory; operatorSeed : gmap SliceKey AMBR; knownDNNs : gset bytes }.
Definition with_store (s : InMemory) (sv : Server) : Server := mkServer s (operatorSeed sv) (knownDNNs sv).

Definition SetSliceQoSSeed (entries : list OperatorSeedEntry) (sv : Server) : Server :=
  mkServer (store sv) (foldl (λ m e, <[o_Key e := o_AMBR e]> m) ∅ entries) (knownDNNs sv).
Definition SetKnownDNNs (dnns : list bytes) (sv : Server) : Server :=
  mkServer (store sv) (operatorSeed sv) (list_to_set ((λ d, toLower (trimSpace d)) <$> dnns)).

Definition seedRowFor (k : SliceKey) (sv : Server) : SliceDNNQoS :=
  let row := DefaultSliceDNNQoS k in
  match operatorSeed sv !! k with
  | Some a => mkRow (r_SST row) (r_SD row) (r_DNN row) a SourceOperator a SourceOperator (UpdatedAt row)
  | None => row
  end.

(** *** Answers *)

Record AuthSubJSON := mkAuthJSON {
  j_authenticationMethod : string; j_encPermanentKey : bytes; j_encOpcKey : bytes; j_authenticationManagementField : bytes;
  j_algorithmId : string; j_sqn : bytes; j_sqnScheme : string }.
Definition authSubToJSON (s : AuthenticationSubscription) : AuthSubJSON :=
  mkAuthJSON (AuthenticationMethod s) (EncPermanentKey s) (EncOpcKey s) (AuthenticationManagementField s) (AlgorithmID s)
    (SQN (au_SequenceNumber s)) (SQNScheme (au_SequenceNumber s)).

(** An empty SD or DNN is left out of the object. *)
Record AMSubJSON := mkAMJSON { j_defaultSingleNssais : list (Z * option bytes * option bytes); j_uplink : bytes; j_downlink : bytes }.
Definition amSubToJSON (s : AMData) : AMSubJSON :=
  let opt b := match b with [] => None | _ => Some b end in
  mkAMJSON ((λ n, (n_SST n, opt (n_SD n), opt (n_DNN n))) <$> SNSSAIs s)
    (Itoa (SubscribedUEAMBRUplink s) ++ str " Kbps") (Itoa (SubscribedUEAMBRDownlink s) ++ str " Kbps").

Record sliceQoSView := mkView {
  w_SST : Z; w_SD : bytes; w_DNN : bytes; w_SessionAMBR : AMBR; w_Source : string; DefaultSessionAMBR : AMBR;
  DefaultSource : string; w_UpdatedAt : Z }.
Definition toSliceQoSView (q : SliceDNNQoS) : sliceQoSView :=
  mkView (r_SST q) (r_SD q) (r_DNN q) (SessionAMBR q) (Source q) (SeedAMBR q) (SeedSource q) (UpdatedAt q).

Inductive Resp :=
| Problem (status : Z) (cause : string) (params : list string)
| NoContent
| Created
| AuthSub (a : AuthSubJSON)
| AMDataResp (a : AMSubJSON)
| SMDataResp (l : list SMData)
| PolicySet (p : PolicySubscription)
| Policies (l : list PolicySubscription)
| SmPolicyResp (d : SmPolicyData)
| SyncedResp (supi : bytes) (slices : nat)
| Items (l : list sliceQoSView)
| Item (v : sliceQoSView)
| Written (status : Z) (v : sliceQoSView) (changed : bool) (r : ResyncResult).

(** *** Subscription data *)

Definition notFound : Resp := Problem 404 "RESOURCE_URI_STRUCTURE_NOT_FOUND" [].
Definition badBody : Resp := Problem 400 "MANDATORY_IE_INCORRECT" [].
Definition dataNotFound : Resp := Problem 404 "DATA_NOT_FOUND" [].

Definition handleGetAuthSub (supi : bytes) (sv : Server) : Resp :=
  match GetAuthSubscription supi (store sv) with Some sub => AuthSub (authSubToJSON sub) | None => notFound end.

(** The body: the number of [sequenceNumber], if there is one. *)
Definition handlePatchAuthSub (supi : bytes) (body : option (option bytes)) (sv : Server) : Server * Resp :=
  match body with
  | None => (sv, badBody)
  | Some None => (sv, NoContent)
  | Some (Some sqn) =>
      match UpdateSQN supi sqn (store sv) with
      | Some s => (with_store s sv, NoContent)
      | None => (sv, notFound)
      end
  end.

Definition handleGetAMData (supi : bytes) (sv : Server) : Resp :=
  match GetAMSubscription supi (store sv) with Some sub => AMDataResp (amSubToJSON sub) | None => notFound end.
Definition handleGetSMData (supi : bytes) (sv : Server) : Resp :=
  match GetSMSubscriptions supi (store sv) with Some subs => SMDataResp subs | None => notFound end.
Definition handlePutSMData (supi : bytes) (body : option (option (list SMData))) (sv : Server) : Server * Resp :=
  match body with
  | None => (sv, badBody)
  | Some subs => (with_store (PutSMSubscriptions supi subs (store sv)) sv, NoContent)
  end.
Definition handlePutAMFContext (supi : bytes) : Resp := Created.

Definition handleSyncSMData (supi : bytes) (sv : Server) : Server * Resp :=
  match SyncSMDataFromAMContext supi (store sv) with
  | Some (s, n) => (with_store s sv, SyncedResp supi n)
  | None => (sv, notFound)
  end.

(** *** Policy data *)

Definition handleGetUEPolicySet (supi : bytes) (sv : Server) : Resp :=
  match GetPolicySubscription supi (store sv) with Some sub => PolicySet sub | None => notFound end.
Definition handlePutUEPolicySet (supi : bytes) (body : option PolicySubscription) (sv : Server) : Server * Resp :=
  match body with
  | None => (sv, badBody)
  | Some sub => (with_store (PutPolicySubscription (mkPolicy (po_ID sub) supi (po_Precedence sub) (po_Rules sub)) (store sv)) sv, NoContent)
  end.
Definition handleDeleteUEPolicySet (supi : bytes) (sv : Server) : Server * Resp :=
  (with_store (DeletePolicySubscription supi (store sv)) sv, NoContent).
(** The body: precedence and rules, if they are there. *)
Definition handlePatchUEPolicySet (supi : bytes) (body : option (option Z * option (list URSPRule))) (sv : Server) : Server * Resp :=
  match GetPolicySubscription supi (store sv) with
  | None => (sv, dataNotFound)
  | Some cur =>
      match body with
      | None => (sv, badBody)
      | Some (precedence, rules) =>
          let cur := mkPolicy (po_ID cur) supi (default (po_Precedence cur) precedence) (default (po_Rules cur) rules) in
          (with_store (PutPolicySubscription cur (store sv)) sv, NoContent)
      end
  end.
Definition handleListDefaultPolicies (sv : Server) : Resp := Policies (ListPolicySubscriptions (store sv)).

Definition handleGetSmPolicyData (supi : bytes) (sv : Server) : Resp :=
  match GetSmPolicyData supi (store sv) with Some d => SmPolicyResp d | None => dataNotFound end.
Definition handlePutSmPolicyData (supi : bytes) (body : option SmPolicyData) (sv : Server) : Server * Resp :=
  match body with
  | None => (sv, badBody)
  | Some d => (with_store (PutSmPolicyData (mkSmPolicy supi (SmPolicySnssai d)) (store sv)) sv, NoContent)
  end.
Definition handlePatchSmPolicyData (supi : bytes) (body : option SmPolicyData) (sv : Server) : Server * Resp :=
  match body with
  | None => (sv, badBody)
  | Some patch =>
      match PatchSmPolicyData supi patch (store sv) with
      | Some s => (with_store s sv, NoContent)
      | None => (sv, dataNotFound)
      end
  end.

(** *** Session-AMBR of a slice and DNN *)

Definition validDNN (dnn : bytes) : bool :=
  negb (bool_decide (dnn = [])) && (length dnn <=? 100)%nat && forallb (λ c, negb ((c <=? 32) || (c =? 127))) dnn.

(** The key, or the parameters that are wrong. *)
Definition parseSliceKeyPath (sstS sdS dnn : bytes) : list string + SliceKey :=
  let sst := parseSST sstS in
  let sd := if bool_decide (sdS = str "-") then Some [] else if bool_decide (sdS = []) || negb (ValidSD sdS) then None else Some sdS in
  match sst, sd, validDNN dnn with
  | Some sst, Some sd, true => inr (NewSliceKey sst sd dnn)
  | _, _, okDNN =>
      inl (match sst with Some _ => [] | None => ["sst"%string] end ++ match sd with Some _ => [] | None => ["sd"%string] end ++
           (if (okDNN : bool) then [] else ["dnn"%string]))
  end.

(** The values of the query: [sst] and [dnn], empty when absent, and [sd], if given. *)
Definition handleListSliceQoS (qSST : bytes) (qSD : option bytes) (qDNN : bytes) (sv : Server) : Resp :=
  let fSST := match qSST with [] => inr None | v => match parseSST v with Some n => inr (Some n) | None => inl "sst"%string end end in
  let fSD := match qSD with
             | None => inr None
             | Some v => let v := if bool_decide (v = str "-") then [] else v in
                         if ValidSD v then inr (Some (toLower v)) else inl "sd"%string
             end in
  let fDNN := toLower qDNN in
  match fSST, fSD with
  | inr fSST, inr fSD =>
      let keep row := match fSST with Some n => r_SST row =? n | None => true end &&
                      match fSD with Some sd => bool_decide (r_SD row = sd) | None => true end &&
                      (bool_decide (fDNN = []) || bool_decide (r_DNN row = fDNN)) in
      Items (toSliceQoSView <$> filter (λ row, keep row = true) (ListSliceDNNQoS (store sv)))
  | a, b => Problem 400 "INVALID_QUERY_PARAM" (match a with inl x => [x] | _ => [] end ++ match b with inl x => [x] | _ => [] end)
  end.

Definition handleGetSliceQoS (sstS sdS dnn : bytes) (sv : Server) : Resp :=
  match parseSliceKeyPath sstS sdS dnn with
  | inl bad => Problem 400 "MANDATORY_IE_INCORRECT" bad
  | inr k =>
      match GetSliceDNNQoS (k_SST k) (k_SD k) (k_DNN k) (store sv) with
      | Some row => Item (toSliceQoSView row)
      | None => dataNotFound
      end
  end.

Inductive rateCheck := RateMissing | RateIncorrect | RateOk (canon : bytes).
Definition checkRate (v : option bytes) : rateCheck :=
  match v with
  | None => RateMissing
  | Some v => if bool_decide (trimSpace v = []) then RateMissing
              else match ValidateBitRate v with Some (c, _) => RateOk c | None => RateIncorrect end
  end.

(** The body: [sessionAmbr], if it is there, with its two rates, if they are. *)
Definition handlePutSliceQoS (sstS sdS dnn : bytes) (body : option (option (option bytes * option bytes))) (now : Z) (sv : Server)
  : Server * Resp :=
  match parseSliceKeyPath sstS sdS dnn with
  | inl bad => (sv, Problem 400 "MANDATORY_IE_INCORRECT" bad)
  | inr k =>
      if negb (bool_decide (knownDNNs sv = ∅)) && negb (bool_decide (k_DNN k ∈ knownDNNs sv)) then
        (sv, Problem 400 "MANDATORY_IE_INCORRECT" ["dnn"%string])
      else match body with
      | None => (sv, Problem 400 "INVALID_MSG_FORMAT" [])
      | Some None => (sv, Problem 400 "MANDATORY_IE_MISSING" ["sessionAmbr"%string])
      | Some (Some (uplink, downlink)) =>
          let ul := checkRate uplink in
          let dl := checkRate downlink in
          let named (r : rateCheck) (p : string) (c : rateCheck) := match r, c with
            | RateMissing, RateMissing | RateIncorrect, RateIncorrect => [p] | _, _ => [] end in
          let missing := named RateMissing "sessionAmbr.uplink"%string ul ++ named RateMissing "sessionAmbr.downlink"%string dl in
          let incorrect := named RateIncorrect "sessionAmbr.uplink"%string ul ++ named RateIncorrect "sessionAmbr.downlink"%string dl in
          match ul, dl with
          | RateOk u, RateOk d =>
              let '(s, created, changed) :=
                PutSliceDNNQoSEdited (k_SST k) (k_SD k) (k_DNN k) (mkAMBR u d) (seedRowFor k sv) now (store sv) in
              match GetSliceDNNQoS (k_SST k) (k_SD k) (k_DNN k) s with
              | None => (with_store s sv, Problem 500 "SYSTEM_FAILURE" [])
              | Some row =>
                  let '(s, rv) := ResyncSliceDNN k s in
                  (with_store s sv, Written (if (created : bool) then 201 else 200) (toSliceQoSView row) changed rv)
              end
          | RateMissing, _ | _, RateMissing => (sv, Problem 400 "MANDATORY_IE_MISSING" (missing ++ incorrect))
          | _, _ => (sv, Problem 400 "MANDATORY_IE_INCORRECT" incorrect)
          end
      end
  end.

Definition handleDeleteSliceQoS (sstS sdS dnn : bytes) (now : Z) (sv : Server) : Server * Resp :=
  match parseSliceKeyPath sstS sdS dnn with
  | inl bad => (sv, Problem 400 "MANDATORY_IE_INCORRECT" bad)
  | inr k =>
      match RevertSliceDNNQoS (k_SST k) (k_SD k) (k_DNN k) now (store sv) with
      | None => (sv, dataNotFound)
      | Some (s, row, changed) =>
          let '(s, rv) := if (changed : bool) then ResyncSliceDNN k s else (s, mkResyncResult 0 0 []) in
          (with_store s sv, Written 200 (toSliceQoSView row) changed rv)
      end
  end.
End Udr.
