(* ===== verification/UdrSpec.v ===== *)
(** * What the UDR guarantees

    The session management data that the UDR stores for a subscriber is a copy,
    derived from the slices of the subscriber and the table of session rates.  The
    specification here has no copy: the data is a view of the slices, the seeds of
    the table and the edits of the operator.  Over every history the UDR answers as
    the view does.  The store also meets the interface on which the theorems about
    authentication rest. *)
From stdpp Require Import sorting.
From S2P Require Import Prelude GoText SmfQos UdmAuth UdrStore.
Open Scope Z_scope.

(** ** Trimmed and lower-case texts *)

Definition no_prefix (sp : list bytes) (b : bytes) : Prop := ∀ s, s ∈ sp → isPrefix s b = false.
Definition trimmed (b : bytes) : Prop := no_prefix spaces b ∧ no_prefix (reverse <$> spaces) (reverse b).

Lemma spaces_shape : Forall (λ s, s ≠ [] ∧ Forall (λ c, c <= 32 ∨ 127 < c) s) spaces.
Proof. apply (bool_decide_unpack _). vm_compute. exact I. Qed.

Lemma isPrefix_spec p b : isPrefix p b = true ↔ p `prefix_of` b.
Proof.
  unfold isPrefix. rewrite bool_decide_eq_true. split.
  - intros <-. eexists. symmetry. apply take_drop.
  - intros [r ->]. by apply take_app_length.
Qed.

Lemma trimWith_done n sp b : no_prefix sp b → trimWith n sp b = b.
Proof.
  intros H. destruct n as [|n]; [done|]. cbn [trimWith].
  replace (filter (λ s, isPrefix s b = true) sp) with (@nil bytes); [done|].
  destruct (filter _ sp) as [|s l] eqn:E; [done|]. exfalso.
  assert (s ∈ filter (λ s, isPrefix s b = true) sp) as [Hp Hs]%list_elem_of_filter by (rewrite E; left).
  by rewrite (H s Hs) in Hp.
Qed.

(** It stops at a suffix that starts with none of the texts. *)
Lemma trimWith_stuck n sp b :
  Forall (λ s, s ≠ []) sp → (length b <= n)%nat → no_prefix sp (trimWith n sp b) ∧ trimWith n sp b `suffix_of` b.
Proof.
  intros Hsp. revert b. induction n as [|n IH]; intros b Hb.
  - cbn [trimWith]. destruct b; [|cbn in Hb; lia]. split; [|done]. intros s Hs.
    rewrite Forall_forall in Hsp. specialize (Hsp s Hs). by destruct s.
  - cbn [trimWith]. destruct (filter _ sp) as [|s l] eqn:E.
    + split; [|done]. intros s Hs. destruct (isPrefix s b) eqn:Ep; [|done].
      assert (s ∈ filter (λ s, isPrefix s b = true) sp) as Hin by (by apply list_elem_of_filter). rewrite E in Hin.
      by apply not_elem_of_nil in Hin.
    + assert (s ∈ filter (λ s, isPrefix s b = true) sp) as [Hp Hs]%list_elem_of_filter by (rewrite E; left).
      rewrite Forall_forall in Hsp. specialize (Hsp s Hs). apply isPrefix_spec in Hp as [r ->]. rewrite drop_app_length.
      destruct (IH r) as [H1 H2]; [rewrite length_app in Hb; destruct s; [done|cbn in Hb; lia]|].
      split; [done|]. by apply suffix_app_r.
Qed.

Lemma trimSpace_id b : trimmed b → trimSpace b = b.
Proof. intros [H1 H2]. unfold trimSpace. rewrite (trimWith_done _ _ b H1), trimWith_done by done. apply reverse_involutive. Qed.

Lemma trimSpace_trimmed b : trimmed (trimSpace b).
Proof.
  unfold trimSpace. set (l := trimWith (length b) spaces b).
  assert (Forall (λ s : bytes, s ≠ []) spaces) as Hne by (eapply Forall_impl; [exact spaces_shape|by intros ? []]).
  destruct (trimWith_stuck (length b) spaces b Hne) as [Hl _]; [done|]. fold l in Hl.
  destruct (trimWith_stuck (length l) (reverse <$> spaces) (reverse l)) as [Hr Hs].
  { apply Forall_fmap. eapply Forall_impl; [exact Hne|]. intros s Hs E. apply Hs. cbn in E.
    rewrite <- (reverse_involutive s), E. done. }
  { by rewrite length_reverse. }
  set (t := trimWith (length l) (reverse <$> spaces) (reverse l)) in *. split; [|by rewrite reverse_involutive].
  intros s Hin. destruct (isPrefix s (reverse t)) eqn:E; [|done]. rewrite <- (Hl s Hin). symmetry.
  apply isPrefix_spec. apply isPrefix_spec in E. etrans; [exact E|]. destruct Hs as [r Hr'].
  exists (reverse r). rewrite <- (reverse_involutive l), Hr', reverse_app. done.
Qed.

Lemma plain_trimmed b : Forall (λ c, 32 < c <= 127) b → trimmed b.
Proof.
  intros Hb. assert (∀ s b, s ≠ [] → Forall (λ c, c <= 32 ∨ 127 < c) s → Forall (λ c, 32 < c <= 127) b → isPrefix s b = false) as H.
  { intros s b0 Hne Hs Hb0. destruct (isPrefix s b0) eqn:E; [|done]. apply isPrefix_spec in E as [r ->].
    destruct s as [|c s]; [done|]. apply Forall_cons in Hs as [Hc _]. cbn in Hb0. apply Forall_cons in Hb0 as [Hc' _]. lia. }
  pose proof spaces_shape as Hsh. rewrite Forall_forall in Hsh. split.
  - intros s Hin. destruct (Hsh s Hin). by apply H.
  - intros s' (s & -> & Hin)%list_elem_of_fmap. destruct (Hsh s Hin) as [Hne Hf]. apply H.
    + intros E. apply Hne. rewrite <- (reverse_involutive s), E. done.
    + by apply Forall_reverse.
    + by apply Forall_reverse.
Qed.

Lemma asciiLower_keeps s b : Forall (λ c, c <= 32 ∨ 127 < c) s → isPrefix s (asciiLower b) = isPrefix s b.
Proof.
  intros Hs. unfold isPrefix. apply bool_decide_ext. unfold asciiLower. rewrite <- fmap_take. generalize (take (length s) b).
  clear b. intros l. revert l. induction Hs as [|c s Hc _ IH]; intros [|x l]; cbn; [done..|].
  assert ((if (65 <=? x) && (x <=? 90) then x + 32 else x) = c ↔ x = c) as Hx.
  { destruct (Z.leb_spec 65 x), (Z.leb_spec x 90); cbn [andb]; lia. }
  specialize (IH l). split; intros [= H1 H2]; f_equal; tauto.
Qed.

Lemma asciiLower_trimmed b : trimmed b → trimmed (asciiLower b).
Proof.
  pose proof spaces_shape as Hsh. rewrite Forall_forall in Hsh. intros [H1 H2]. split.
  - intros s Hin. destruct (Hsh s Hin). rewrite asciiLower_keeps by done. by apply H1.
  - intros s Hin. pose proof Hin as (s0 & -> & Hin0)%list_elem_of_fmap. destruct (Hsh s0 Hin0) as [_ Hf].
    unfold asciiLower. rewrite <- fmap_reverse. fold (asciiLower (reverse b)).
    rewrite asciiLower_keeps by (by apply Forall_reverse). by apply H2.
Qed.

Lemma asciiLower_twice b : asciiLower (asciiLower b) = asciiLower b.
Proof.
  unfold asciiLower. rewrite <- list_fmap_compose. apply list_fmap_ext. intros i c _. unfold compose.
  destruct ((65 <=? c) && (c <=? 90)) eqn:E; [|by rewrite E]. apply andb_true_iff in E as [?%Z.leb_le ?%Z.leb_le].
  destruct (Z.leb_spec 65 (c + 32)), (Z.leb_spec (c + 32) 90); cbn [andb]; lia || done.
Qed.

Lemma asciiLower_ascii b : isASCII b = true → isASCII (asciiLower b) = true.
Proof.
  unfold asciiLower. induction b as [|c b IH]; cbn [isASCII forallb fmap list_fmap]; [done|]. rewrite !andb_true_iff.
  intros [[?%Z.leb_le ?%Z.ltb_lt] Hb]. split; [|by apply IH].
  destruct (Z.leb_spec 65 c), (Z.leb_spec c 90); cbn [andb]; split; apply Z.leb_le || apply Z.ltb_lt; lia.
Qed.

Section Norm.
Context {Uni : GoUnicode}.
Definition norm (b : bytes) : bytes := toLower (trimSpace b).

Lemma norm_idem `{!GoUnicodeLaws} b : norm (norm b) = norm b.
Proof.
  unfold norm. pose proof (trimSpace_trimmed b) as Ht. set (t := trimSpace b) in *. unfold toLower at 2 3.
  destruct (isASCII t) eqn:E.
  - rewrite trimSpace_id by (by apply asciiLower_trimmed). unfold toLower. by rewrite asciiLower_ascii, asciiLower_twice.
  - apply unicode_normal; [done|]. by apply trimSpace_id.
Qed.

Lemma NewSliceKey_norm sst sd dnn : NewSliceKey sst sd dnn = mkKey sst (norm sd) (norm dnn).
Proof. done. Qed.

(** A key as [NewSliceKey] makes it. *)
Definition key_ok (k : SliceKey) : Prop := NewSliceKey (k_SST k) (k_SD k) (k_DNN k) = k.

Lemma NewSliceKey_ok `{!GoUnicodeLaws} sst sd dnn : key_ok (NewSliceKey sst sd dnn).
Proof. change (mkKey sst (norm (norm sd)) (norm (norm dnn)) = mkKey sst (norm sd) (norm dnn)). by rewrite !norm_idem. Qed.

Lemma sliceKeyOf_ok `{!GoUnicodeLaws} n : key_ok (sliceKeyOf n).
Proof. apply NewSliceKey_ok. Qed.

(** The default of a valid SD is that of its key. *)
Lemma ValidSD_default sst sd : ValidSD sd = true → DefaultAMBRForSlice sst (norm sd) = DefaultAMBRForSlice sst sd.
Proof.
  intros Hv. assert (Forall (λ c, 48 <= c <= 57 ∨ 65 <= c <= 70 ∨ 97 <= c <= 102) sd) as Hh.
  { destruct sd as [|c sd]; [constructor|]. unfold ValidSD in Hv. apply andb_true_iff in Hv as [_ Hv].
    rewrite forallb_forall in Hv. apply Forall_forall. intros x Hx. specialize (Hv x ltac:(by apply list_elem_of_In)).
    unfold isDigit in Hv. lia. }
  assert (norm sd = asciiLower sd) as ->.
  { unfold norm. rewrite trimSpace_id by (apply plain_trimmed; eapply Forall_impl; [exact Hh|cbn; lia]). unfold toLower.
    replace (isASCII sd) with true; [done|]. symmetry. apply forallb_forall. intros x Hx%list_elem_of_In.
    rewrite Forall_forall in Hh. specialize (Hh x Hx). lia. }
  assert (asciiLower sd = str "000002" ↔ sd = str "000002") as Hiff.
  { split; [|by intros ->]. change (str "000002") with [48; 48; 48; 48; 48; 50]. unfold asciiLower. clear Hv Hh.
    generalize [48; 48; 48; 48; 48; 50] (ltac:(repeat constructor; lia) : Forall (λ c, c < 65) [48; 48; 48; 48; 48; 50]).
    intros l Hl. revert sd. induction Hl as [|c l Hc _ IH]; intros [|x sd]; cbn; try done. intros [= Hx Hr].
    f_equal; [|by apply IH]. destruct ((65 <=? x) && (x <=? 90)) eqn:E; [|done]. lia. }
  unfold DefaultAMBRForSlice. by rewrite (bool_decide_ext _ _ Hiff).
Qed.
End Norm.

(** ** The table and the data derived from it *)
Section Table.
Context {Uni : GoUnicode}.

Definition rows_keyed (t : gmap SliceKey SliceDNNQoS) : Prop := map_Forall (λ k r, Key r = k) t.

Lemma elem_of_list_rows s r : rows_keyed (sliceQoS s) → r ∈ ListSliceDNNQoS s ↔ sliceQoS s !! Key r = Some r.
Proof.
  intros Hk. unfold ListSliceDNNQoS, sortQoS. rewrite merge_sort_Permutation. split.
  - intros ([k r'] & -> & Hin)%list_elem_of_fmap. apply elem_of_map_to_list in Hin. cbn in *. by rewrite (Hk _ _ Hin).
  - intros Hr. apply list_elem_of_fmap. exists (Key r, r). split; [done|]. by apply elem_of_map_to_list.
Qed.

Lemma foldl_rows (t : gmap SliceKey SliceDNNQoS) l (m : gmap SliceKey AMBR) k :
  (∀ r, r ∈ l → t !! Key r = Some r) →
  foldl (λ m r, <[Key r := SessionAMBR r]> m) m l !! k = if decide (k ∈ Key <$> l) then SessionAMBR <$> t !! k else m !! k.
Proof.
  revert m. induction l as [|r l IH]; intros m Hl; cbn [foldl fmap list_fmap].
  - by rewrite decide_False by apply not_elem_of_nil.
  - rewrite IH by (intros; apply Hl; by right). destruct (decide (k ∈ Key <$> l)).
    + rewrite decide_True; [done|by right].
    + destruct (decide (k = Key r)) as [->|Hne].
      * rewrite lookup_insert_eq, decide_True by left. by rewrite (Hl r) by left.
      * rewrite lookup_insert_ne by done. rewrite decide_False; [done|]. by rewrite not_elem_of_cons.
Qed.

(** The snapshot holds the effective rates of the table. *)
Lemma snapshot_lookup s k : rows_keyed (sliceQoS s) → snapshot s !! k = SessionAMBR <$> sliceQoS s !! k.
Proof.
  intros Hk. unfold snapshot. rewrite (foldl_rows (sliceQoS s)) by (intros r Hr; by apply elem_of_list_rows).
  case_decide as Hin; [done|]. rewrite lookup_empty. destruct (sliceQoS s !! k) as [r|] eqn:E; [|done].
  exfalso. apply Hin. pose proof (Hk _ _ E) as <-. apply list_elem_of_fmap. exists r. split; [done|]. by apply elem_of_list_rows.
Qed.

(** The rate of a subscribed slice, and its session management data. *)
Definition ambrOf (rate : SliceKey → option AMBR) (n : SNSSAISubscribed) : AMBR :=
  default (DefaultAMBRForSlice (n_SST n) (n_SD n)) (rate (sliceKeyOf n)).
Definition smEntry (rate : SliceKey → option AMBR) (n : SNSSAISubscribed) : SMData :=
  mkSM (n_SST n) (n_SD n)
    {[ match n_DNN n with [] => DefaultDNN | d => d end :=
         mkDNNConf "IPV4" ["IPV4"%string] (DefaultQoSForSlice (n_SST n) (n_SD n)) (ambrOf rate n) ]}.
Definition rates (t : gmap SliceKey SliceDNNQoS) (k : SliceKey) : option AMBR := SessionAMBR <$> t !! k.

Lemma Build_entries s l :
  rows_keyed (sliceQoS s) →
  BuildSMSubscriptions l (Some (SessionAMBRResolver s)) = smEntry (rates (sliceQoS s)) <$> l.
Proof.
  intros Hk. unfold BuildSMSubscriptions. apply list_fmap_ext. intros i n _. unfold smEntry, ambrOf, SessionAMBRResolver.
  rewrite snapshot_lookup by done. fold (sliceKeyOf n). unfold rates. by destruct (sliceQoS s !! sliceKeyOf n).
Qed.

Lemma smEntry_ext rate rate' n :
  ambrOf rate n = ambrOf rate' n → smEntry rate n = smEntry rate' n.
Proof. unfold smEntry. by intros ->. Qed.

(** *** Deriving again *)

Definition derived (t : gmap SliceKey SliceDNNQoS) (am : AMData) : option (list SMData) := Some (smEntry (rates t) <$> SNSSAIs am).

Lemma Sync_spec supi s :
  rows_keyed (sliceQoS s) →
  SyncSMDataFromAMContext supi s =
    am ← amSubs s !! supi; Some (with_sm (<[supi := derived (sliceQoS s) am]>) s, length (SNSSAIs am)).
Proof.
  intros Hk. unfold SyncSMDataFromAMContext, GetAMSubscription. destruct (amSubs s !! supi) as [am|]; [|done]. cbn.
  rewrite Build_entries by done. unfold PutSMSubscriptions. by rewrite length_fmap.
Qed.

Lemma resync_fold s supis r :
  rows_keyed (sliceQoS s) → (∀ u, u ∈ supis → is_Some (amSubs s !! u)) →
  ∃ s', foldl resyncOne (s, r) supis = (s', mkResyncResult (Affected r) (Synced r + Z.of_nat (length supis)) (Failed r)) ∧
    amSubs s' = amSubs s ∧ authSubs s' = authSubs s ∧ sliceQoS s' = sliceQoS s ∧
    ∀ u, smSubs s' !! u = if decide (u ∈ supis) then derived (sliceQoS s) <$> amSubs s !! u else smSubs s !! u.
Proof.
  revert s r. induction supis as [|v l IH]; intros s r Hk Hin.
  - exists s. cbn [foldl length]. split_and!; try done. destruct r. cbn. do 2 f_equal. lia.
  - cbn [foldl]. destruct (Hin v ltac:(left)) as [am Ham]. unfold resyncOne at 2. rewrite Sync_spec, Ham by done. cbn [mbind option_bind].
    set (s1 := with_sm _ s). destruct (IH s1 (mkResyncResult (Affected r) (Synced r + 1) (Failed r))) as (s' & -> & E1 & E2 & E3 & E4);
      [done|intros u Hu; apply Hin; by right|].
    exists s'. split_and!; [|done..|].
    + cbn. do 2 f_equal. lia.
    + intros u. rewrite E4. cbn. destruct (decide (u ∈ l)); [rewrite decide_True by (by right); done|].
      destruct (decide (u = v)) as [->|]; [rewrite lookup_insert_eq, decide_True by left; by rewrite Ham|].
      rewrite lookup_insert_ne by done. rewrite decide_False; [done|]. by rewrite not_elem_of_cons.
Qed.

Definition holds_key (k : SliceKey) (am : AMData) : Prop := ∃ n, n ∈ SNSSAIs am ∧ sliceKeyOf n = k.
#[export] Instance holds_key_dec k am : Decision (holds_key k am).
Proof.
  refine (cast_if (decide (Exists (λ n, sliceKeyOf n = k) (SNSSAIs am)))); unfold holds_key; by rewrite <- Exists_exists.
Defined.

Lemma elem_of_supis sst sd dnn s u :
  u ∈ ListSUPIsForSliceDNN sst sd dnn s ↔ ∃ am, amSubs s !! u = Some am ∧ holds_key (NewSliceKey sst sd dnn) am.
Proof.
  unfold ListSUPIsForSliceDNN. rewrite merge_sort_Permutation, list_elem_of_fmap. split.
  - intros ([u' am] & -> & [Hx Hin]%list_elem_of_filter). apply elem_of_map_to_list in Hin. exists am. split; [done|].
    apply existsb_exists in Hx as (n & Hn & Hb). apply bool_decide_eq_true in Hb. exists n. by apply list_elem_of_In in Hn.
  - intros (am & Ham & n & Hn & Hk). exists (u, am). split; [done|]. apply list_elem_of_filter. split; [|by apply elem_of_map_to_list].
    apply existsb_exists. exists n. split; [by apply list_elem_of_In|]. by apply bool_decide_eq_true.
Qed.

(** All subscribers of a key have data derived from the table. *)
Lemma Resync_spec k s :
  rows_keyed (sliceQoS s) → key_ok k →
  ∃ s' r, ResyncSliceDNN k s = (s', r) ∧ Failed r = [] ∧
    amSubs s' = amSubs s ∧ authSubs s' = authSubs s ∧ sliceQoS s' = sliceQoS s ∧
    ∀ u, smSubs s' !! u = match amSubs s !! u with
                         | Some am => if decide (holds_key k am) then Some (derived (sliceQoS s) am) else smSubs s !! u
                         | None => smSubs s !! u
                         end.
Proof.
  intros Hk Hok. unfold ResyncSliceDNN. set (l := ListSUPIsForSliceDNN _ _ _ s).
  assert (∀ u, u ∈ l ↔ ∃ am, amSubs s !! u = Some am ∧ holds_key k am) as Hl.
  { intros u. unfold l. rewrite elem_of_supis. by rewrite Hok. }
  destruct (resync_fold s l (mkResyncResult (Z.of_nat (length l)) 0 []) Hk) as (s' & E & E1 & E2 & E3 & E4).
  { intros u (am & -> & _)%Hl. done. }
  eexists s', _. split; [exact E|]. split_and!; [done..|]. intros u. rewrite E4.
  destruct (amSubs s !! u) as [am|] eqn:Ea.
  - destruct (decide (holds_key k am)) as [Hh|Hn]; [rewrite decide_True; [done|]; apply Hl; eauto|].
    rewrite decide_False; [done|]. intros (am' & Ha & Hh)%Hl. rewrite Ea in Ha. by injection Ha as <-.
  - rewrite decide_False; [done|]. intros (am' & Ha & _)%Hl. by rewrite Ea in Ha.
Qed.
End Table.

(** ** The specification *)

(** A row of the table: the seed, where it comes from, and the edit, if there is one. *)
Record aRow := mkARow { a_seed : AMBR; a_source : string; a_edit : option AMBR }.
Definition effective (r : aRow) : AMBR := default (a_seed r) (a_edit r).

(** Who has credentials, the slices of the subscribers, the table, and the
    subscribers of whom the data was written without deriving it. *)
Record Spec := mkSpec { a_auth : gset bytes; a_am : gmap bytes AMData; a_tab : gmap SliceKey aRow; a_stale : gset bytes }.

Section Spec.
Context {Uni : GoUnicode}.

Definition spec_rate (a : Spec) (k : SliceKey) : option AMBR := effective <$> a_tab a !! k.
Definition view (a : Spec) (supi : bytes) : Resp :=
  match a_am a !! supi with Some am => SMDataResp (smEntry (spec_rate a) <$> SNSSAIs am) | None => notFound end.

Definition spec_provision (supi : bytes) (snssais : list SNSSAISubscribed) (a : Spec) : Spec :=
  mkSpec ({[supi]} ∪ a_auth a) (<[supi := mkAM supi [] snssais [] 100000 100000]> (a_am a)) (a_tab a) (a_stale a ∖ {[supi]}).
Definition spec_provision_new (supi : bytes) (snssais : list SNSSAISubscribed) (a : Spec) : Spec :=
  if decide (supi ∈ a_auth a) then a else spec_provision supi snssais a.
Definition spec_mark (supi : bytes) (a : Spec) : Spec := mkSpec (a_auth a) (a_am a) (a_tab a) ({[supi]} ∪ a_stale a).
Definition spec_tab (f : gmap SliceKey aRow → gmap SliceKey aRow) (a : Spec) : Spec :=
  mkSpec (a_auth a) (a_am a) (f (a_tab a)) (a_stale a).

Definition spec_edit (seed : AMBR * string) (k : SliceKey) (ambr : AMBR) (t : gmap SliceKey aRow) : gmap SliceKey aRow :=
  let r := default (mkARow seed.1 seed.2 None) (t !! k) in <[k := mkARow (a_seed r) (a_source r) (Some ambr)]> t.
Definition spec_revert (k : SliceKey) : gmap SliceKey aRow → gmap SliceKey aRow :=
  alter (λ r, mkARow (a_seed r) (a_source r) None) k.
Definition spec_seed_row (t : gmap SliceKey aRow) (row : SliceDNNQoS) : gmap SliceKey aRow :=
  <[Key row := mkARow (SessionAMBR row) (Source row) (t !! Key row ≫= a_edit)]> t.

(** ** The table refines it *)

Definition abs (r : SliceDNNQoS) : aRow :=
  mkARow (SeedAMBR r) (SeedSource r) (if String.eqb (Source r) SourceEdited then Some (SessionAMBR r) else None).
Record row_ok (r : SliceDNNQoS) : Prop := {
  ro_seed : String.eqb (SeedSource r) SourceEdited = false;
  ro_plain : String.eqb (Source r) SourceEdited = false → SessionAMBR r = SeedAMBR r ∧ Source r = SeedSource r }.
Definition table_inv (t : gmap SliceKey SliceDNNQoS) : Prop := rows_keyed t ∧ map_Forall (λ _, row_ok) t.

Lemma abs_effective r : row_ok r → effective (abs r) = SessionAMBR r.
Proof. intros [_ H]. unfold effective, abs. cbn. destruct (String.eqb _ _); [done|]. by destruct (H eq_refl) as [-> _]. Qed.

Lemma rates_abs t k : table_inv t → rates t k = effective <$> (abs <$> t) !! k.
Proof.
  intros [_ Hr]. unfold rates. rewrite lookup_fmap. destruct (t !! k) as [r|] eqn:E; [|done]. cbn. f_equal.
  symmetry. apply abs_effective. by apply (Hr k).
Qed.

Lemma table_inv_insert t k r : table_inv t → Key r = k → row_ok r → table_inv (<[k := r]> t).
Proof. intros [H1 H2] Hk Hr. split; by apply map_Forall_insert_2. Qed.

Lemma applyEdit_spec t k ambr seed now :
  table_inv t → String.eqb (SeedSource seed) SourceEdited = false →
  let x := applyEdit (t !! k) k ambr seed now in
  Key x.1.1 = k ∧ row_ok x.1.1 ∧ abs x.1.1 = mkARow (a_seed (default (mkARow (SeedAMBR seed) (SeedSource seed) None) (abs <$> t !! k)))
    (a_source (default (mkARow (SeedAMBR seed) (SeedSource seed) None) (abs <$> t !! k))) (Some ambr).
Proof.
  intros [Hk Hr] Hs x. unfold x, applyEdit. destruct (t !! k) as [r|] eqn:E; cbn.
  - split; [exact (Hk _ _ E)|]. split; [|done]. split; [apply (ro_seed _ (Hr _ _ E))|]. done.
  - split; [by destruct k|]. split; [|done]. by split.
Qed.

Lemma applyRevert_spec r now : row_ok r →
  let x := applyRevert r now in
  Key x.1 = Key r ∧ row_ok x.1 ∧ abs x.1 = mkARow (a_seed (abs r)) (a_source (abs r)) None ∧ (x.2 = false → SessionAMBR x.1 = SessionAMBR r).
Proof.
  intros [H1 H2] x. unfold x, applyRevert. destruct (String.eqb (Source r) SourceEdited) eqn:E; cbn.
  - split_and!; [done| |unfold abs; cbn; by rewrite H1|done]. by split.
  - split_and!; [done|exact (Build_row_ok _ H1 (λ _, H2 eq_refl))|unfold abs; cbn; by rewrite E|done].
Qed.

(** What the resolver answers for a slice of the key. *)
Definition eff (t : gmap SliceKey SliceDNNQoS) (k : SliceKey) : AMBR :=
  default (DefaultAMBRForSlice (k_SST k) (k_SD k)) (rates t k).

Lemma applySeed_spec t row now :
  table_inv t → String.eqb (Source row) SourceEdited = false →
  let k := Key row in
  let x := applySeed (t !! k) row now in
  Key x.1.1 = k ∧ row_ok x.1.1 ∧ abs x.1.1 = mkARow (SessionAMBR row) (Source row) ((abs <$> t !! k) ≫= a_edit) ∧
  (x.2 = false → SessionAMBR x.1.1 = eff t k).
Proof.
  intros [Hk Hr] Hs k x. unfold x, applySeed, eff, rates. destruct (t !! k) as [r|] eqn:E; cbn [fmap option_fmap option_map default mbind option_bind].
  - pose proof (Hk _ _ E) as Hkr. destruct (Hr _ _ E) as [R1 R2]. destruct (String.eqb (Source r) SourceEdited) eqn:Es; cbn.
    + split_and!; [done| |unfold abs; cbn; by rewrite Es|done]. split; cbn; [done|]. by rewrite Es.
    + split_and!; [done|by split|unfold abs; cbn; by rewrite Es, Hs|].
      destruct (bool_decide_reflect (SessionAMBR r = SessionAMBR row)); cbn; [done|]. intros. done.
  - cbn. split_and!; [by destruct row|by split|unfold abs; cbn; by rewrite Hs|].
    destruct (bool_decide_reflect (SessionAMBR row = DefaultAMBRForSlice (r_SST row) (r_SD row))); cbn; [done|by intros].
Qed.
End Spec.

(** ** Seeding *)
Section Seed.
Context {Uni : GoUnicode}.

Lemma seed_fold now rows s c :
  table_inv (sliceQoS s) → Forall (λ r, key_ok (Key r) ∧ String.eqb (Source r) SourceEdited = false) rows →
  Forall key_ok (ChangedKeys c) →
  ∃ s' c', foldl (seedRow now) (s, c) rows = (s', c') ∧ authSubs s' = authSubs s ∧ amSubs s' = amSubs s ∧ smSubs s' = smSubs s ∧
    table_inv (sliceQoS s') ∧ abs <$> sliceQoS s' = foldl spec_seed_row (abs <$> sliceQoS s) rows ∧
    Forall key_ok (ChangedKeys c') ∧ (∀ k, k ∈ ChangedKeys c → k ∈ ChangedKeys c') ∧
    (∀ k, k ∉ ChangedKeys c' → eff (sliceQoS s') k = eff (sliceQoS s) k).
Proof.
  intros Ht Hrows. revert s c Ht. induction Hrows as [|row rows [Hok Hsrc] _ IH]; intros s c Ht Hc.
  { exists s, c. by split_and!. }
  cbn [foldl]. unfold seedRow at 2.
  assert (NewSliceKey (r_SST row) (r_SD row) (r_DNN row) = Key row) as -> by exact Hok.
  replace (mkRow _ _ _ _ _ _ _ _) with row by (by destruct row).
  pose proof (applySeed_spec (sliceQoS s) row now Ht Hsrc) as (Hkey & Hrow & Habs & Heff). fold (Key row) in *.
  destruct (applySeed (sliceQoS s !! Key row) row now) as [[next out] changed]. cbn [fst snd] in *.
  set (s1 := with_qos (<[Key row := next]>) s). set (c1 := SeedCounts_add c (Key row) out changed).
  assert (table_inv (sliceQoS s1)) as Ht1 by (by apply table_inv_insert).
  assert (∀ k, k ∈ ChangedKeys c → k ∈ ChangedKeys c1) as Hsub.
  { intros k Hk. cbn. destruct changed; [|done]. apply elem_of_app. by left. }
  destruct (IH s1 c1 Ht1) as (s' & c' & -> & E1 & E2 & E3 & E4 & E5 & E6 & E7 & E8).
  { cbn. destruct changed; [|done]. apply Forall_app. split; [done|]. by apply Forall_singleton. }
  exists s', c'. split_and!; [done..| |done|auto|].
  - rewrite E5. f_equal. cbn. rewrite fmap_insert, Habs. unfold spec_seed_row. by rewrite lookup_fmap.
  - intros k Hk. rewrite E8 by done. unfold eff, rates. cbn. destruct (decide (k = Key row)) as [->|]; [|by rewrite lookup_insert_ne].
    rewrite lookup_insert_eq. cbn. apply Heff. destruct changed; [|done]. exfalso. apply Hk, E7. cbn. apply elem_of_app. right. left.
Qed.

(** What a seeding writes: the keys, and the seed of each. *)
Definition operator_slices (op : OperatorConfig) : list SNSSAISubscribed :=
  match Slices op with [] => defaultOperatorSlices | l => (λ e, mkSub (u8 (e_SST e)) (e_SD e) 0 [] []) <$> l end.
Definition entry_key (e : OperatorSeedEntry) : SliceKey := NewSliceKey (k_SST (o_Key e)) (k_SD (o_Key e)) (k_DNN (o_Key e)).
Definition seed_keys (op : OperatorConfig) (am : gmap bytes AMData) : gset SliceKey :=
  list_to_set (sliceKeyOf <$> operator_slices op) ∪ list_to_set (p ← map_to_list am; sliceKeyOf <$> SNSSAIs p.2) ∪
  list_to_set (entry_key <$> OperatorSeedEntries op).
Definition operator_rates (op : OperatorConfig) : gmap SliceKey AMBR :=
  foldl (λ m e, <[entry_key e := o_AMBR e]> m) ∅ (OperatorSeedEntries op).
Definition seed_value (op : OperatorConfig) (k : SliceKey) : AMBR * string :=
  match operator_rates op !! k with
  | Some a => (a, SourceOperator)
  | None => (DefaultAMBRForSlice (k_SST k) (k_SD k), SourceDefault)
  end.
Definition spec_seed (op : OperatorConfig) (am : gmap bytes AMData) (t : gmap SliceKey aRow) : gmap SliceKey aRow :=
  map_imap (λ k _, Some (mkARow (seed_value op k).1 (seed_value op k).2 (t !! k ≫= a_edit))) (gset_to_gmap tt (seed_keys op am)) ∪ t.

Definition seed_row (op : OperatorConfig) (k : SliceKey) : SliceDNNQoS :=
  match operator_rates op !! k with
  | Some a => let d := DefaultSliceDNNQoS k in
              mkRow (r_SST d) (r_SD d) (r_DNN d) a SourceOperator (SeedAMBR d) (SeedSource d) (UpdatedAt d)
  | None => DefaultSliceDNNQoS k
  end.

Lemma seed_row_spec op k :
  Key (seed_row op k) = k ∧ SessionAMBR (seed_row op k) = (seed_value op k).1 ∧ Source (seed_row op k) = (seed_value op k).2 ∧
  String.eqb (Source (seed_row op k)) SourceEdited = false.
Proof. unfold seed_row, seed_value. destruct (operator_rates op !! k); split_and!; try done; by destruct k. Qed.

Lemma seedRows_keys op s :
  ∃ keys, seedRows (operator_slices op) (OperatorSeedEntries op) s = seed_row op <$> keys ∧
    ∀ k, k ∈ keys ↔ k ∈ seed_keys op (amSubs s).
Proof.
  eexists. split; [reflexivity|]. intros k. unfold sortedKeys. rewrite merge_sort_Permutation, elem_of_elements.
  unfold seed_keys, ListSliceKeysInUse, sortedKeys. rewrite !elem_of_union, !elem_of_list_to_set, merge_sort_Permutation, elem_of_elements.
  by rewrite elem_of_list_to_set.
Qed.

Lemma spec_seed_fold op keys t k :
  foldl spec_seed_row t (seed_row op <$> keys) !! k =
    if decide (k ∈ keys) then Some (mkARow (seed_value op k).1 (seed_value op k).2 (t !! k ≫= a_edit)) else t !! k.
Proof.
  revert t. induction keys as [|k0 keys IH]; intros t; cbn [foldl fmap list_fmap]; [by rewrite decide_False by apply not_elem_of_nil|].
  rewrite IH. unfold spec_seed_row. destruct (seed_row_spec op k0) as (-> & -> & -> & _).
  destruct (decide (k = k0)) as [->|Hne].
  - rewrite !lookup_insert_eq. cbn. rewrite (decide_True (P := k0 ∈ k0 :: keys)) by left. by case_decide.
  - rewrite !lookup_insert_ne by done. destruct (decide (k ∈ keys)); [rewrite decide_True by (by right)|rewrite decide_False]; [done..|].
    by rewrite not_elem_of_cons.
Qed.

Lemma spec_seed_lookup op am t k :
  spec_seed op am t !! k =
    if decide (k ∈ seed_keys op am) then Some (mkARow (seed_value op k).1 (seed_value op k).2 (t !! k ≫= a_edit)) else t !! k.
Proof.
  unfold spec_seed. rewrite lookup_union, map_lookup_imap, lookup_gset_to_gmap. case_decide as Hin.
  - rewrite option_guard_True by done. cbn. by destruct (t !! k).
  - rewrite option_guard_False by done. cbn. by destruct (t !! k).
Qed.

Lemma seed_keys_ok `{!GoUnicodeLaws} op am k : k ∈ seed_keys op am → key_ok k.
Proof.
  unfold seed_keys. rewrite !elem_of_union, !elem_of_list_to_set. intros [[Hin|Hin]|Hin].
  - apply list_elem_of_fmap in Hin as (n & -> & _). apply sliceKeyOf_ok.
  - apply list_elem_of_bind in Hin as ([u am'] & Hin & _). apply list_elem_of_fmap in Hin as (n & -> & _). apply sliceKeyOf_ok.
  - apply list_elem_of_fmap in Hin as (e & -> & _). apply NewSliceKey_ok.
Qed.

(** *** Deriving again for a list of keys *)
Lemma resync_keys keys s n :
  rows_keyed (sliceQoS s) → Forall key_ok keys →
  ∃ s' n', foldl (λ '(s, n) k, let '(s, r) := ResyncSliceDNN k s in (s, n + Synced r)) (s, n) keys = (s', n') ∧
    amSubs s' = amSubs s ∧ authSubs s' = authSubs s ∧ sliceQoS s' = sliceQoS s ∧
    ∀ u, smSubs s' !! u = match amSubs s !! u with
      | Some am => if decide (Exists (λ k, holds_key k am) keys) then Some (derived (sliceQoS s) am) else smSubs s !! u
      | None => smSubs s !! u
      end.
Proof.
  intros Hk Hkeys. revert s n Hk. induction Hkeys as [|k keys Hok _ IH]; intros s n Hk; cbn [foldl].
  { exists s, n. split_and!; [done..|]. intros u. destruct (amSubs s !! u); [|done]. rewrite decide_False; [done|]. by intros ?%Exists_nil. }
  destruct (Resync_spec k s Hk Hok) as (s1 & r & -> & _ & E1 & E2 & E3 & E4).
  destruct (IH s1 (n + Synced r)) as (s' & n' & -> & F1 & F2 & F3 & F4); [by rewrite E3|].
  exists s', n'. split_and!; [done|congruence..|]. intros u. rewrite F4, E1, E3, E4. destruct (amSubs s !! u) as [am|]; [|done].
  destruct (decide (Exists (λ k0, holds_key k0 am) keys)); [rewrite decide_True by (by right); done|].
  destruct (decide (holds_key k am)); [rewrite decide_True by (by left); done|]. rewrite decide_False; [done|]. rewrite Exists_cons. tauto.
Qed.
End Seed.

(** ** Histories *)

(** What happens to the UDR: start-up, provisioning, writes of the portal, and the
    requests of the service and management interfaces that change something. *)
Inductive udr_event :=
| EStart (op : OperatorConfig) (ueCount : nat) (extra : bytes) (now : Z)
| EProvision (supi kHex opcHex amfHex sqnHex : bytes) (snssais : list SNSSAISubscribed)
| EPortal (am : AMData)
| EPutSM (supi : bytes) (body : option (option (list SMData)))
| ESync (supi : bytes)
| EEdit (sstS sdS dnn : bytes) (body : option (option (option bytes * option bytes))) (now : Z)
| ERevert (sstS sdS dnn : bytes) (now : Z)
| EPatchAuth (supi : bytes) (body : option (option bytes))
| EPutPolicy (supi : bytes) (body : option PolicySubscription)
| EPatchPolicy (supi : bytes) (body : option (option Z * option (list URSPRule)))
| EDeletePolicy (supi : bytes)
| EPutSmPolicy (supi : bytes) (body : option SmPolicyData)
| EPatchSmPolicy (supi : bytes) (body : option SmPolicyData).

Section History.
Context {Uni : GoUnicode}.

Definition udr_step (sv : Server) (e : udr_event) : Server :=
  match e with
  | EStart op ueCount extra now => with_store (startUp op ueCount extra now (store sv)) sv
  | EProvision supi k opc amf sqn l => with_store (SeedTestSubscriberWithNSSAI supi k opc amf sqn l (store sv)) sv
  | EPortal am => with_store (PutAMSubscription am (store sv)) sv
  | EPutSM supi body => (handlePutSMData supi body sv).1
  | ESync supi => (handleSyncSMData supi sv).1
  | EEdit sstS sdS dnn body now => (handlePutSliceQoS sstS sdS dnn body now sv).1
  | ERevert sstS sdS dnn now => (handleDeleteSliceQoS sstS sdS dnn now sv).1
  | EPatchAuth supi body => (handlePatchAuthSub supi body sv).1
  | EPutPolicy supi body => (handlePutUEPolicySet supi body sv).1
  | EPatchPolicy supi body => (handlePatchUEPolicySet supi body sv).1
  | EDeletePolicy supi => (handleDeleteUEPolicySet supi sv).1
  | EPutSmPolicy supi body => (handlePutSmPolicyData supi body sv).1
  | EPatchSmPolicy supi body => (handlePatchSmPolicyData supi body sv).1
  end.

(** The key and the rates of an edit that is accepted. *)
Definition edit_request (known : gset bytes) (sstS sdS dnn : bytes) (body : option (option (option bytes * option bytes)))
  : option (SliceKey * AMBR) :=
  match parseSliceKeyPath sstS sdS dnn, body with
  | inr k, Some (Some (ul, dl)) =>
      if negb (bool_decide (known = ∅)) && negb (bool_decide (k_DNN k ∈ known)) then None
      else match checkRate ul, checkRate dl with RateOk u, RateOk d => Some (k, mkAMBR u d) | _, _ => None end
  | _, _ => None
  end.

(** [seeds] and [known] are the configuration of the server. *)
Definition spec_step (seeds : gmap SliceKey AMBR) (known : gset bytes) (a : Spec) (e : udr_event) : Spec :=
  match e with
  | EStart op ueCount extra _ =>
      let ps := sliceProfiles op in
      let a := spec_tab (spec_seed op (a_am a)) a in
      let a := foldl (λ a i, spec_provision_new (devSUPI i) (default [] (ps !! ((i - 1) mod length ps)%nat)) a) a (seq 1 ueCount) in
      foldl (λ a supi, spec_provision_new supi (SliceProfileForSUPI supi ps) a) a (ParseSeedSUPIs extra).1
  | EProvision supi _ _ _ _ l => spec_provision supi l a
  | EPortal am => mkSpec (a_auth a) (<[am_SUPI am := am]> (a_am a)) (a_tab a) ({[am_SUPI am]} ∪ a_stale a)
  | EPutSM supi (Some _) => spec_mark supi a
  | ESync supi => if decide (is_Some (a_am a !! supi)) then mkSpec (a_auth a) (a_am a) (a_tab a) (a_stale a ∖ {[supi]}) else a
  | EEdit sstS sdS dnn body _ =>
      match edit_request known sstS sdS dnn body with
      | Some (k, ambr) =>
          let seed := match seeds !! k with
                      | Some x => (x, SourceOperator)
                      | None => (DefaultAMBRForSlice (k_SST k) (k_SD k), SourceDefault)
                      end in
          spec_tab (spec_edit seed k ambr) a
      | None => a
      end
  | ERevert sstS sdS dnn _ =>
      match parseSliceKeyPath sstS sdS dnn with inr k => spec_tab (spec_revert k) a | inl _ => a end
  | _ => a
  end.

Definition sds_valid (l : list SNSSAISubscribed) : Prop := Forall (λ n, ValidSD (n_SD n) = true) l.

(** The SDs of subscribers and of the operator's slices are empty or six digits. *)
Definition event_valid (e : udr_event) : Prop :=
  match e with
  | EStart op _ _ _ => Forall (λ s, ValidSD (e_SD s) = true) (Slices op)
  | EProvision _ _ _ _ _ l => sds_valid l
  | EPortal am => sds_valid (SNSSAIs am)
  | _ => True
  end.

(** ** The invariant *)
Record inv (s : InMemory) (a : Spec) : Prop := {
  i_auth : dom (authSubs s) = a_auth a;
  i_am : amSubs s = a_am a;
  i_tab : table_inv (sliceQoS s);
  i_abs : abs <$> sliceQoS s = a_tab a;
  i_sd : map_Forall (λ _ am, sds_valid (SNSSAIs am)) (a_am a);
  i_sm : ∀ supi, supi ∉ a_stale a → smSubs s !! supi = derived (sliceQoS s) <$> a_am a !! supi }.

Lemma inv_rates s a k : inv s a → rates (sliceQoS s) k = spec_rate a k.
Proof. intros H. rewrite rates_abs by apply (i_tab _ _ H). by rewrite (i_abs _ _ H). Qed.

(** Data derived from tables that agree on the keys of the subscriber. *)
Lemma derived_eff t t' am :
  sds_valid (SNSSAIs am) → (∀ k, holds_key k am → eff t k = eff t' k) → derived t am = derived t' am.
Proof.
  intros Hsd Heq. unfold derived. f_equal. apply list_fmap_ext. intros i n Hn. apply smEntry_ext.
  assert (∀ t, ambrOf (rates t) n = eff t (sliceKeyOf n)) as H.
  { intros t0. unfold ambrOf, eff. f_equal. symmetry. apply ValidSD_default.
    unfold sds_valid in Hsd. rewrite Forall_forall in Hsd. apply Hsd. by eapply list_elem_of_lookup_2. }
  rewrite !H. apply Heq. exists n. split; [|done]. by eapply list_elem_of_lookup_2.
Qed.

Lemma provision_inv supi k opc amf sqn l s a :
  inv s a → sds_valid l → inv (SeedTestSubscriberWithNSSAI supi k opc amf sqn l s) (spec_provision supi l a).
Proof.
  intros [H1 H2 H3 H4 H5 H6] Hl. unfold SeedTestSubscriberWithNSSAI. rewrite Build_entries by apply H3.
  constructor; cbn; [rewrite dom_insert_L, H1; done|by rewrite H2|done|done|by apply map_Forall_insert_2|].
  intros u Hu. destruct (decide (u = supi)) as [->|Hne].
  - by rewrite !lookup_insert_eq.
  - rewrite !lookup_insert_ne by done. apply H6. set_solver.
Qed.

Lemma seedIfNew_inv supi l s a : inv s a → sds_valid l → inv (seedIfNew supi l s) (spec_provision_new supi l a).
Proof.
  intros Hi Hl. unfold seedIfNew, spec_provision_new, GetAuthSubscription. rewrite <- (i_auth _ _ Hi).
  destruct (authSubs s !! supi) eqn:E.
  - rewrite decide_True; [done|]. by apply elem_of_dom.
  - rewrite decide_False; [by apply provision_inv|]. by apply not_elem_of_dom.
Qed.

Lemma foldl_inv {A} (f : InMemory → A → InMemory) (g : Spec → A → Spec) l s a :
  (∀ x s a, x ∈ l → inv s a → inv (f s x) (g a x)) → inv s a → inv (foldl f s l) (foldl g a l).
Proof.
  revert s a. induction l as [|x l IH]; intros s a Hf Hi; [done|]. cbn [foldl].
  apply IH; [intros y t b Hy; apply Hf; by right|]. apply Hf; [left|done].
Qed.

Lemma profiles_valid op : Forall (λ s, ValidSD (e_SD s) = true) (Slices op) → Forall sds_valid (sliceProfiles op).
Proof.
  intros Hop. unfold sliceProfiles. set (l := match Slices op with [] => _ | _ => _ end).
  assert (sds_valid l) as Hl.
  { unfold l. destruct (Slices op) as [|e r]; [by repeat constructor|]. unfold sds_valid. rewrite Forall_fmap. exact Hop. }
  destruct l as [|i rest]; [constructor|]. apply Forall_cons in Hl as [Hi Hr]. constructor; [by constructor|].
  rewrite Forall_fmap. eapply Forall_impl; [exact Hr|]. intros n Hn. by repeat constructor.
Qed.

Lemma profile_lookup op i : Forall sds_valid (sliceProfiles op) → sds_valid (default [] (sliceProfiles op !! i)).
Proof. intros H. destruct (_ !! i) eqn:E; cbn; [by eapply Forall_lookup_1|constructor]. Qed.

Lemma profile_for op supi : Forall sds_valid (sliceProfiles op) → sds_valid (SliceProfileForSUPI supi (sliceProfiles op)).
Proof.
  intros H. unfold SliceProfileForSUPI. destruct (sliceProfiles op) as [|p ps] eqn:E; [constructor|].
  assert (sds_valid p) as Hp by (by apply Forall_cons in H as [? _]).
  destruct (negb _); [done|]. destruct (Atoi _) as [msin ok]. destruct (negb ok || _); [done|].
  destruct ((p :: ps) !! _) eqn:El; cbn; [by eapply Forall_lookup_1|done].
Qed.
End History.

Section Refine.
Context {Uni : GoUnicode} {Laws : GoUnicodeLaws}.

(** A new table, after which the subscribers of some keys were derived again. *)
Lemma retable_inv s s' a t keys :
  inv s a → authSubs s' = authSubs s → amSubs s' = amSubs s → table_inv (sliceQoS s') → abs <$> sliceQoS s' = t →
  (∀ k, k ∉ keys → eff (sliceQoS s') k = eff (sliceQoS s) k) →
  (∀ u, smSubs s' !! u = match amSubs s !! u with
      | Some am => if decide (Exists (λ k, holds_key k am) keys) then Some (derived (sliceQoS s') am) else smSubs s !! u
      | None => smSubs s !! u
      end) →
  inv s' (mkSpec (a_auth a) (a_am a) t (a_stale a)).
Proof.
  intros [H1 H2 H3 H4 H5 H6] E1 E2 Ht Habs Heff Hsm. constructor; cbn; [congruence|congruence|done|done|done|].
  intros u Hu. rewrite Hsm, H2. specialize (H6 u Hu). destruct (a_am a !! u) as [am|] eqn:Ea; [|done].
  case_decide as Hx; [done|]. rewrite H6. cbn. f_equal. symmetry. apply derived_eff; [exact (H5 _ _ Ea)|].
  intros k Hk. apply Heff. intros Hin. apply Hx. apply Exists_exists. eauto.
Qed.

Lemma seeding_inv op now s a :
  inv s a → inv (SeedAndResyncSliceDNNQoS op now s).1.1 (spec_tab (spec_seed op (a_am a)) a).
Proof.
  intros Hi. unfold SeedAndResyncSliceDNNQoS, SeedSliceDNNQoSFromOperator, SeedSliceDNNQoSFromEntries, SeedSliceDNNQoS.
  fold (operator_slices op). destruct (seedRows_keys op s) as (keys & -> & Hkeys).
  destruct (seed_fold now (seed_row op <$> keys) s noCounts) as (s1 & c & -> & E1 & E2 & E3 & E4 & E5 & E6 & _ & E8).
  { apply (i_tab _ _ Hi). }
  { apply Forall_fmap, Forall_forall. intros k Hk. cbn. destruct (seed_row_spec op k) as (-> & _ & _ & Hs). split; [|done].
    eapply seed_keys_ok. by apply Hkeys. }
  { constructor. }
  destruct (resync_keys (ChangedKeys c) s1 0) as (s2 & n & -> & F1 & F2 & F3 & F4); [apply E4|done|]. cbn [fst].
  unfold spec_tab. apply (retable_inv s s2 a _ (ChangedKeys c) Hi).
  - congruence.
  - congruence.
  - by rewrite F3.
  - rewrite F3, E5, (i_abs _ _ Hi). apply map_eq. intros k. rewrite spec_seed_fold, spec_seed_lookup.
    rewrite (decide_ext _ (k ∈ seed_keys op (a_am a))); [done|]. by rewrite Hkeys, (i_am _ _ Hi).
  - intros k Hk. rewrite F3. by apply E8.
  - intros u. by rewrite F4, E2, E3, F3.
Qed.

Lemma startUp_inv op ueCount extra now s a seeds known :
  inv s a → Forall (λ s, ValidSD (e_SD s) = true) (Slices op) →
  inv (startUp op ueCount extra now s) (spec_step seeds known a (EStart op ueCount extra now)).
Proof.
  intros Hi Hop. pose proof (profiles_valid op Hop) as Hps. unfold startUp. cbn [spec_step].
  apply foldl_inv; [intros supi s' a' _ H; apply seedIfNew_inv; [done|by apply profile_for]|].
  apply foldl_inv; [intros i s' a' _ H; apply seedIfNew_inv; [done|by apply profile_lookup]|].
  by apply seeding_inv.
Qed.

(** *** Edits and reverts *)

Lemma eff_insert_ne t k r k' : k' ≠ k → eff (<[k := r]> t) k' = eff t k'.
Proof. intros. unfold eff, rates. by rewrite lookup_insert_ne. Qed.

Lemma parse_key_ok sstS sdS dnn k : parseSliceKeyPath sstS sdS dnn = inr k → key_ok k.
Proof. unfold parseSliceKeyPath. intros H. repeat case_match; try done; injection H as <-; apply NewSliceKey_ok. Qed.

Lemma seedRowFor_spec k sv :
  let seed := match operatorSeed sv !! k with
              | Some x => (x, SourceOperator)
              | None => (DefaultAMBRForSlice (k_SST k) (k_SD k), SourceDefault)
              end in
  (SeedAMBR (seedRowFor k sv), SeedSource (seedRowFor k sv)) = seed ∧ String.eqb (SeedSource (seedRowFor k sv)) SourceEdited = false.
Proof. unfold seedRowFor. by destruct (operatorSeed sv !! k). Qed.

(** An accepted edit is stored, read back, and derived for its subscribers. *)
Lemma edit_stored k ambr now sv a :
  inv (store sv) a → key_ok k →
  let x := PutSliceDNNQoSEdited (k_SST k) (k_SD k) (k_DNN k) ambr (seedRowFor k sv) now (store sv) in
  ∃ row s' r, GetSliceDNNQoS (k_SST k) (k_SD k) (k_DNN k) x.1.1 = Some row ∧ ResyncSliceDNN k x.1.1 = (s', r) ∧ Failed r = [] ∧
    inv s' (spec_tab (spec_edit (SeedAMBR (seedRowFor k sv), SeedSource (seedRowFor k sv)) k ambr) a).
Proof.
  intros Hi Hok x. unfold x, PutSliceDNNQoSEdited, GetSliceDNNQoS. rewrite Hok. set (s := store sv) in *.
  destruct (applyEdit_spec (sliceQoS s) k ambr (seedRowFor k sv) now (i_tab _ _ Hi)) as (Hkey & Hrow & Habs);
    [apply seedRowFor_spec|].
  destruct (applyEdit (sliceQoS s !! k) k ambr (seedRowFor k sv) now) as [[next created] changed]. cbn [fst snd] in *.
  set (s1 := with_qos (<[k := next]>) s).
  assert (table_inv (sliceQoS s1)) as Ht by (apply table_inv_insert; [apply (i_tab _ _ Hi)|done|done]).
  destruct (Resync_spec k s1 (proj1 Ht) Hok) as (s' & r & -> & Hf & F1 & F2 & F3 & F4).
  exists next, s', r. split; [cbn; by rewrite lookup_insert_eq|]. split; [done|]. split; [done|]. unfold spec_tab.
  apply (retable_inv s s' a _ [k] Hi).
  - done.
  - done.
  - by rewrite F3.
  - rewrite F3. cbn. rewrite fmap_insert, Habs, (i_abs _ _ Hi). unfold spec_edit. cbn. by rewrite <- (i_abs _ _ Hi), lookup_fmap.
  - intros k' Hk'. rewrite F3. cbn. apply eff_insert_ne. intros ->. apply Hk'. left.
  - intros u. rewrite F4, F3. cbn. destruct (amSubs s !! u) as [am|]; [|done].
    destruct (decide (holds_key k am)); [rewrite decide_True by (by left)|rewrite decide_False by (by intros [?|?%Exists_nil]%Exists_cons)]; done.
Qed.

Lemma edit_inv sstS sdS dnn body now sv a :
  inv (store sv) a →
  inv (store (udr_step sv (EEdit sstS sdS dnn body now))) (spec_step (operatorSeed sv) (knownDNNs sv) a (EEdit sstS sdS dnn body now)).
Proof.
  intros Hi. cbn [udr_step spec_step]. unfold handlePutSliceQoS, edit_request.
  destruct (parseSliceKeyPath sstS sdS dnn) as [bad|k] eqn:Ek; [done|]. apply parse_key_ok in Ek.
  destruct body as [[[ul dl]|]|]; [|by destruct (_ && _)..]. destruct (_ && _); [done|].
  destruct (checkRate ul) as [| |u]; [by destruct (checkRate dl)..|]. destruct (checkRate dl) as [| |d]; [done..|].
  destruct (edit_stored k (mkAMBR u d) now sv a Hi Ek) as (row & s' & r & Hg & Hr & _ & Hinv).
  destruct (PutSliceDNNQoSEdited _ _ _ _ _ _ _) as [[s1 created] changed]. cbn [fst snd] in *. rewrite Hg, Hr. cbn [fst with_store store].
  destruct (seedRowFor_spec k sv) as [<- _]. done.
Qed.

Lemma revert_inv sstS sdS dnn now sv a seeds known :
  inv (store sv) a →
  inv (store (udr_step sv (ERevert sstS sdS dnn now))) (spec_step seeds known a (ERevert sstS sdS dnn now)).
Proof.
  intros Hi. cbn [udr_step spec_step]. unfold handleDeleteSliceQoS, RevertSliceDNNQoS.
  destruct (parseSliceKeyPath sstS sdS dnn) as [bad|k] eqn:Ek; [done|]. apply parse_key_ok in Ek. rewrite Ek. set (s := store sv) in *.
  destruct (sliceQoS s !! k) as [r|] eqn:Er; cbn [mbind option_bind].
  2: { assert (spec_tab (spec_revert k) a = a) as ->; [|done]. destruct a as [u m t st]. unfold spec_tab, spec_revert. cbn. f_equal.
       apply alter_id. intros x Hx. pose proof (i_abs _ _ Hi) as E. cbn in E. by rewrite <- E, lookup_fmap, Er in Hx. }
  destruct (i_tab _ _ Hi) as [Hkey Hrow]. destruct (applyRevert_spec r now (Hrow _ _ Er)) as (Hk' & Hr' & Ha' & Hsame).
  destruct (applyRevert r now) as [next changed]. cbn [fst snd] in *. rewrite ?(Ek : NewSliceKey _ _ _ = k). set (s1 := with_qos (<[k := next]>) s).
  assert (table_inv (sliceQoS s1)) as Ht by (apply table_inv_insert; [done|rewrite Hk'; exact (Hkey _ _ Er)|done]).
  assert (abs <$> sliceQoS s1 = spec_revert k (a_tab a)) as Habs.
  { cbn. rewrite fmap_insert, Ha', (i_abs _ _ Hi). unfold spec_revert. symmetry. apply map_eq. intros k0.
    destruct (decide (k0 = k)) as [->|]; [|by rewrite lookup_alter_ne, lookup_insert_ne].
    rewrite lookup_alter_eq, lookup_insert_eq, <- (i_abs _ _ Hi), lookup_fmap, Er. done. }
  destruct changed.
  - destruct (Resync_spec k s1 (proj1 Ht) Ek) as (s' & rv & -> & _ & F1 & F2 & F3 & F4). cbn [fst store with_store].
    unfold spec_tab. apply (retable_inv s s' a _ [k] Hi); [done|done|by rewrite F3|by rewrite F3| |].
    + intros k0 Hk0. rewrite F3. cbn. apply eff_insert_ne. intros ->. apply Hk0. left.
    + intros u. rewrite F4, F3. cbn. destruct (amSubs s !! u) as [am|]; [|done].
      destruct (decide (holds_key k am)); [rewrite decide_True by (by left)|rewrite decide_False by (by intros [?|?%Exists_nil]%Exists_cons)]; done.
  - cbn [fst store with_store]. unfold spec_tab. apply (retable_inv s s1 a _ [] Hi); [done|done|done|done| |].
    + intros k0 _. cbn. destruct (decide (k0 = k)) as [->|]; [|by apply eff_insert_ne]. unfold eff, rates.
      rewrite lookup_insert_eq, Er. cbn. by apply Hsame.
    + intros u. cbn. destruct (amSubs s !! u); [|done]. rewrite decide_False; [done|]. by intros ?%Exists_nil.
Qed.
End Refine.

Definition emptySpec : Spec := mkSpec ∅ ∅ ∅ ∅.

Section Theorems.
Context {Uni : GoUnicode} {Laws : GoUnicodeLaws}.

Lemma inv_same s s' a :
  inv s a → dom (authSubs s') = dom (authSubs s) → amSubs s' = amSubs s → smSubs s' = smSubs s → sliceQoS s' = sliceQoS s → inv s' a.
Proof. intros [] E1 E2 E3 E4. constructor; rewrite ?E1, ?E2, ?E3, ?E4; done. Qed.

Lemma udr_step_config sv e : operatorSeed (udr_step sv e) = operatorSeed sv ∧ knownDNNs (udr_step sv e) = knownDNNs sv.
Proof.
  destruct e; cbn [udr_step]; [done|done|done|..];
    unfold handlePutSMData, handleSyncSMData, handlePutSliceQoS, handleDeleteSliceQoS, handlePatchAuthSub, handlePutUEPolicySet,
      handlePatchUEPolicySet, handlePutSmPolicyData, handlePatchSmPolicyData; repeat case_match; done.
Qed.

Lemma udr_step_inv sv a e :
  inv (store sv) a → event_valid e → inv (store (udr_step sv e)) (spec_step (operatorSeed sv) (knownDNNs sv) a e).
Proof.
  intros Hi He. destruct e as [op n extra now|supi k opc amf sqn l|am|supi body|supi|sstS sdS dnn body now|sstS sdS dnn now|supi body|supi body|supi body|supi|supi body|supi body];
    cbn [event_valid] in He.
  - by apply startUp_inv.
  - by apply provision_inv.
  - destruct Hi as [H1 H2 H3 H4 H5 H6]. constructor; cbn; [done|by rewrite H2|done|done|by apply map_Forall_insert_2|].
    intros u Hu. rewrite lookup_insert_ne by set_solver. apply H6. set_solver.
  - cbn [udr_step spec_step]. unfold handlePutSMData. destruct body as [subs|]; [|done].
    destruct Hi as [H1 H2 H3 H4 H5 H6]. constructor; cbn; [done..|]. intros u Hu. rewrite lookup_insert_ne by set_solver. apply H6. set_solver.
  - cbn [udr_step spec_step]. unfold handleSyncSMData. rewrite Sync_spec by apply (i_tab _ _ Hi). rewrite (i_am _ _ Hi).
    destruct (a_am a !! supi) as [am|] eqn:Ea; cbn [mbind option_bind]; [|by rewrite decide_False by (by intros [])].
    rewrite decide_True by done. destruct Hi as [H1 H2 H3 H4 H5 H6]. constructor; cbn; [done..|]. intros u Hu.
    destruct (decide (u = supi)) as [->|]; [by rewrite lookup_insert_eq, Ea|]. rewrite lookup_insert_ne by done. apply H6. set_solver.
  - by apply edit_inv.
  - by apply revert_inv.
  - cbn [udr_step spec_step]. unfold handlePatchAuthSub, UpdateSQN. destruct body as [[sqn|]|]; [|done..].
    destruct (authSubs (store sv) !! supi) as [sub|] eqn:E; [|done]. cbn. apply (inv_same (store sv)); [done| |done..].
    cbn. apply dom_insert_lookup_L. by rewrite E.
  - cbn [udr_step spec_step]. unfold handlePutUEPolicySet. destruct body; [|done]. by apply (inv_same (store sv)).
  - cbn [udr_step spec_step]. unfold handlePatchUEPolicySet. destruct (GetPolicySubscription supi (store sv)); [|done].
    destruct body as [[prec rules]|]; [|done]. by apply (inv_same (store sv)).
  - by apply (inv_same (store sv)).
  - cbn [udr_step spec_step]. unfold handlePutSmPolicyData. destruct body; [|done]. by apply (inv_same (store sv)).
  - cbn [udr_step spec_step]. unfold handlePatchSmPolicyData, PatchSmPolicyData. destruct body; [|done].
    destruct (smPolicy (store sv) !! supi); [|done]. by apply (inv_same (store sv)).
Qed.

Lemma udr_run_inv sv a evs :
  inv (store sv) a → Forall event_valid evs →
  inv (store (foldl udr_step sv evs)) (foldl (spec_step (operatorSeed sv) (knownDNNs sv)) a evs).
Proof.
  intros Hi Hev. revert sv a Hi. induction Hev as [|e evs He _ IH]; intros sv a Hi; [done|]. cbn [foldl].
  destruct (udr_step_config sv e) as [<- <-]. apply IH. destruct (udr_step_config sv e) as [-> ->]. by apply udr_step_inv.
Qed.

Lemma empty_inv : inv NewInMemory emptySpec.
Proof. split; [done|done|by split|done|done|done]. Qed.

(** The answers that show a row. *)
Definition shows (v : sliceQoSView) (r : aRow) : Prop :=
  w_SessionAMBR v = effective r ∧ DefaultSessionAMBR v = a_seed r ∧ DefaultSource v = a_source r ∧
  w_Source v = match a_edit r with Some _ => SourceEdited | None => a_source r end.

(** C15: the UDR answers as if session management data were a view.  Over every history
    in which the SDs of subscribers and of the operator's slices are empty or six
    hexadecimal digits (with other SDs a copy can go stale: [spaced_sd_stale]), of
    start-ups with any operator configuration, provisioning, writes of the portal, edits
    and reverts of the rates of a slice and DNN, and all other writes: the session
    management data returned for a subscriber is derived from the subscriber's slices and,
    per slice and DNN, the latest edit that was not reverted, else the seed of the latest
    start-up that covers the key, else the default.  Excepted are the subscribers whose
    slices the portal has written, or whose session management data was written directly,
    and that were not provisioned or synchronised since.  The table itself is served with the same
    rates, seeds and sources. *)
Theorem udr_serves_view (seeds : gmap SliceKey AMBR) (known : gset bytes) (evs : list udr_event) :
  Forall event_valid evs →
  let sv := foldl udr_step (mkServer NewInMemory seeds known) evs in
  let a := foldl (spec_step seeds known) emptySpec evs in
  (∀ supi, supi ∉ a_stale a → handleGetSMData supi sv = view a supi) ∧
  (∀ sstS sdS dnn k, parseSliceKeyPath sstS sdS dnn = inr k →
     match a_tab a !! k with
     | Some r => ∃ v, handleGetSliceQoS sstS sdS dnn sv = Item v ∧ shows v r
     | None => handleGetSliceQoS sstS sdS dnn sv = dataNotFound
     end).
Proof.
  intros Hev sv a.
  assert (inv (store sv) a) as Hi by exact (udr_run_inv (mkServer NewInMemory seeds known) emptySpec evs empty_inv Hev). split.
  - intros supi Hs. unfold handleGetSMData, GetSMSubscriptions, view. rewrite (i_sm _ _ Hi) by done.
    destruct (a_am a !! supi) as [am|]; [|done]. cbn. f_equal. apply list_fmap_ext. intros i n _. apply smEntry_ext.
    unfold ambrOf. by rewrite (inv_rates _ _ _ Hi).
  - intros sstS sdS dnn k Hk. unfold handleGetSliceQoS, GetSliceDNNQoS. rewrite Hk. apply parse_key_ok in Hk. rewrite Hk.
    rewrite <- (i_abs _ _ Hi), lookup_fmap. destruct (sliceQoS (store sv) !! k) as [row|] eqn:E; [|done]. cbn.
    eexists. split; [done|]. destruct (i_tab _ _ Hi) as [_ Hr]. specialize (Hr _ _ E). split; [by rewrite abs_effective|].
    split; [done|]. split; [done|]. cbn. destruct (String.eqb (Source row) SourceEdited) eqn:Es.
    + by apply String.eqb_eq in Es.
    + apply (ro_plain _ Hr Es).
Qed.
End Theorems.

(** A lower-casing that leaves other characters than the ASCII letters alone. *)
#[local] Instance demoUnicode : GoUnicode := λ b, b.
#[local] Instance demoUnicode_laws : GoUnicodeLaws.
Proof. intros b Hb Ht. change (toLower (trimSpace b) = b). rewrite Ht. unfold toLower. by rewrite Hb. Qed.

(** An operator that seeds the first slice, a subscriber, an edit, a restart with
    another seed, and the revert. *)
Definition demo_op (ul dl : string) : OperatorConfig :=
  mkOperator [mkSlice 1 (str "000001")] [] [mkEntry 1 (str "000001") (str "internet") (str ul) (str dl)].
Definition demo_edit : option (option (option bytes * option bytes)) := Some (Some (Some (str "10 Mbps"), Some (str "20 Mbps"))).
Definition demo_events : list udr_event :=
  [EStart (demo_op "30 Mbps" "60 Mbps") 1 [] 1; EEdit (str "1") (str "000001") (str "Internet") demo_edit 2;
   EStart (demo_op "40 Mbps" "80 Mbps") 1 [] 3; ERevert (str "1") (str "000001") (str "internet") 4].
Definition rate_of (r : Resp) : list (list bytes) :=
  match r with
  | SMDataResp l => (λ d, (λ p, Uplink (c_SessionAMBR p.2)) <$> map_to_list (DNNConfigurations d)) <$> l
  | _ => []
  end.

Lemma udr_serves_view_witness :
  Forall event_valid demo_events ∧
  ((∀ supi, supi ∉ a_stale (foldl (spec_step ∅ ∅) emptySpec demo_events) →
     handleGetSMData supi (foldl udr_step (mkServer NewInMemory ∅ ∅) demo_events) =
       view (foldl (spec_step ∅ ∅) emptySpec demo_events) supi) ∧
   (∀ sstS sdS dnn k, parseSliceKeyPath sstS sdS dnn = inr k →
     match a_tab (foldl (spec_step ∅ ∅) emptySpec demo_events) !! k with
     | Some r => ∃ v, handleGetSliceQoS sstS sdS dnn (foldl udr_step (mkServer NewInMemory ∅ ∅) demo_events) = Item v ∧ shows v r
     | None => handleGetSliceQoS sstS sdS dnn (foldl udr_step (mkServer NewInMemory ∅ ∅) demo_events) = dataNotFound
     end)) ∧
  (λ n, rate_of (handleGetSMData (devSUPI 1) (foldl udr_step (mkServer NewInMemory ∅ ∅) (take n demo_events)))) <$> [1; 2; 3; 4]%nat =
    [[[str "30 Mbps"]]; [[str "10 Mbps"]]; [[str "10 Mbps"]]; [[str "40 Mbps"]]].
Proof.
  assert (Forall event_valid demo_events) as H by (repeat constructor).
  split; [exact H|]. split; [exact (udr_serves_view ∅ ∅ demo_events H)|vm_compute; reflexivity].
Defined.

(** ** Where it does not hold *)

(** An SD with a space around it has the default of another slice until the seeding
    creates the row of its key; the copy is not derived again. *)
Lemma spaced_sd_stale :
  let l := [EProvision (str "imsi-1") [] [] [] [] [mkSub 1 (str " 000002") 0 [] []]; EStart noOperator 0 [] 1] in
  let sv := foldl udr_step (mkServer NewInMemory ∅ ∅) l in
  rate_of (handleGetSMData (str "imsi-1") sv) = [[str "100 Mbps"]] ∧
  rate_of (handleGetSMData (str "imsi-1") (udr_step sv (ESync (str "imsi-1")))) = [[str "200 Mbps"]].
Proof. split; vm_compute; reflexivity. Qed.

(** The UDR accepts a rate that the SMF reads as zero. *)
Lemma tiny_rate_accepted :
  ValidateBitRate (str "0.0005 bps") = Some (str "0.0005 bps", 1) ∧ parseBitRateKbps (str "0.0005 bps") = Some 0.
Proof. split; vm_compute; reflexivity. Qed.

(** ** The client of the UDM *)

(** [HTTPUDRClient] of [nf/udm/internal/server/server.go], over the handlers of the UDR. *)
Definition HTTPUDRClient_GetAuthSubscription (sv : Server) (supi : bytes) : option UDRAuthSub :=
  match handleGetAuthSub supi sv with
  | AuthSub j => Some (mkAuthSub (j_authenticationMethod j) (j_encPermanentKey j) (j_encOpcKey j) (j_authenticationManagementField j) (j_sqn j))
  | _ => None
  end.
(** The status of the answer is not looked at. *)
Definition HTTPUDRClient_UpdateSQN (sv : Server) (supi newSQN : bytes) : option Server :=
  Some (handlePatchAuthSub supi (Some (Some newSQN)) sv).1.

#[export] Instance serverUDR : UDRClient Server := {
  UdmAuth.GetAuthSubscription := HTTPUDRClient_GetAuthSubscription;
  UdmAuth.UpdateSQN := HTTPUDRClient_UpdateSQN
}.

(** The UDR is one for which the theorems about authentication hold. *)
#[export] Instance serverUDR_laws : UDRLaws Server.
Proof.
  split. intros sv supi sqn. eexists. split; [reflexivity|]. intros s.
  cbn [UdmAuth.GetAuthSubscription serverUDR]. unfold HTTPUDRClient_GetAuthSubscription, handleGetAuthSub, GetAuthSubscription, handlePatchAuthSub, UpdateSQN.
  destruct (authSubs (store sv) !! supi) as [sub|] eqn:E; cbn.
  - destruct (decide (s = supi)) as [->|]; [rewrite lookup_insert_eq, E; done|by rewrite lookup_insert_ne].
  - destruct (decide (s = supi)) as [->|]; [by rewrite E|done].
Qed.
