(* ===== verification/GoUtf8.v ===== *)
(** UTF-8 as Go reads and writes it: the code points of a string that is ranged over
    or converted to [[]rune], and the string of code points. *)
From S2P Require Import Prelude.
Open Scope Z_scope.

Definition RuneError : Z := 0xFFFD.

(** The range of the second octet after a first octet of a sequence of three or four. *)
Definition acceptRange (b0 : Z) : Z * Z :=
  if b0 =? 0xE0 then (0xA0, 0xBF) else if b0 =? 0xED then (0x80, 0x9F) else if b0 =? 0xF0 then (0x90, 0xBF)
  else if b0 =? 0xF4 then (0x80, 0x8F) else (0x80, 0xBF).
Definition isCont (b : Z) : bool := (0x80 <=? b) && (b <=? 0xBF).
Definition inRange (b : Z) (r : Z * Z) : bool := (r.1 <=? b) && (b <=? r.2).

(** [utf8.DecodeRune] of [b0 :: r]: the code point and the octets after it. *)
Definition decodeRune (b0 : Z) (r : bytes) : Z * bytes :=
  if b0 <? 0x80 then (b0, r)
  else if (0xC2 <=? b0) && (b0 <=? 0xDF) then
    match r with
    | b1 :: r1 => if isCont b1 then ((b0 - 0xC0) * 64 + (b1 - 0x80), r1) else (RuneError, r)
    | _ => (RuneError, r)
    end
  else if (0xE0 <=? b0) && (b0 <=? 0xEF) then
    match r with
    | b1 :: b2 :: r2 =>
        if inRange b1 (acceptRange b0) && isCont b2 then ((b0 - 0xE0) * 4096 + (b1 - 0x80) * 64 + (b2 - 0x80), r2) else (RuneError, r)
    | _ => (RuneError, r)
    end
  else if (0xF0 <=? b0) && (b0 <=? 0xF4) then
    match r with
    | b1 :: b2 :: b3 :: r3 =>
        if inRange b1 (acceptRange b0) && isCont b2 && isCont b3
        then ((b0 - 0xF0) * 262144 + (b1 - 0x80) * 4096 + (b2 - 0x80) * 64 + (b3 - 0x80), r3) else (RuneError, r)
    | _ => (RuneError, r)
    end
  else (RuneError, r).

Fixpoint runes_from (fuel : nat) (b : bytes) : list Z :=
  match fuel, b with
  | S n, b0 :: r => let '(c, rest) := decodeRune b0 r in c :: runes_from n rest
  | _, _ => []
  end.
(** Each code point takes at least an octet. *)
Definition runes (b : bytes) : list Z := runes_from (length b) b.

Definition is_scalar_value (r : Z) : Prop := 0 <= r < 0xD800 ∨ 0xE000 <= r <= 0x10FFFF.
#[export] Instance is_scalar_value_dec r : Decision (is_scalar_value r).
Proof. unfold is_scalar_value. apply _. Defined.

Definition encodeRune (r : Z) : bytes :=
  let r := if bool_decide (is_scalar_value r) then r else RuneError in
  if r <? 0x80 then [r]
  else if r <? 0x800 then [0xC0 + r / 64; 0x80 + r mod 64]
  else if r <? 0x10000 then [0xE0 + r / 4096; 0x80 + r / 64 mod 64; 0x80 + r mod 64]
  else [0xF0 + r / 262144; 0x80 + r / 4096 mod 64; 0x80 + r / 64 mod 64; 0x80 + r mod 64].
Definition utf8 (l : list Z) : bytes := l ≫= encodeRune.

(** Decides the comparisons of a goal, and closes it when they contradict. *)
Ltac zcases := repeat (match goal with
  | |- context [?a =? ?b] => destruct (Z.eqb_spec a b)
  | |- context [?a <? ?b] => destruct (Z.ltb_spec a b)
  | |- context [?a <=? ?b] => destruct (Z.leb_spec a b)
  end; try (exfalso; lia); cbn [andb fst snd]).

(** The digits of a number to the base 64. *)
Lemma digits64 r : 0 <= r → r = r / 64 * 64 + r mod 64 ∧ 0 <= r mod 64 < 64 ∧ 0 <= r / 64.
Proof. intros. dlia. Qed.

Lemma decode_encodeRune r rest b0 t :
  is_scalar_value r → encodeRune r ++ rest = b0 :: t → decodeRune b0 t = (r, rest).
Proof.
  intros Hr. unfold encodeRune. rewrite bool_decide_eq_true_2 by done. unfold is_scalar_value in Hr.
  assert (0 <= r) as H0 by lia. destruct (digits64 r H0) as (D1 & R1 & P1). destruct (digits64 _ P1) as (D2 & R2 & P2).
  destruct (digits64 _ P2) as (D3 & R3 & P3).
  replace (r / 262144) with (r / 64 / 64 / 64) by (rewrite !Z.div_div by lia; done).
  replace (r / 4096) with (r / 64 / 64) by (rewrite !Z.div_div by lia; done).
  set (q1 := r / 64) in *. set (d1 := r mod 64) in *. set (q2 := q1 / 64) in *. set (d2 := q1 mod 64) in *.
  set (q3 := q2 / 64) in *. set (d3 := q2 mod 64) in *. clearbody q3 d3. clearbody q2 d2. clearbody q1 d1.
  zcases; intros [= <- <-]; unfold decodeRune, isCont, inRange, acceptRange; cbn [app]; zcases; f_equal; lia.
Qed.

Lemma encodeRune_cons r : ∃ b0 t, encodeRune r = b0 :: t.
Proof. unfold encodeRune. repeat case_match; by eexists _, _. Qed.

Lemma runes_from_utf8 l fuel : Forall is_scalar_value l → (length (utf8 l) <= fuel)%nat → runes_from fuel (utf8 l) = l.
Proof.
  intros Hl. revert fuel. induction Hl as [|r l Hr _ IH]; intros fuel Hf; [by destruct fuel|].
  change (utf8 (r :: l)) with (encodeRune r ++ utf8 l) in *. destruct (encodeRune_cons r) as (b0 & t & E).
  destruct fuel as [|fuel]; [rewrite E in Hf; cbn in Hf; lia|]. rewrite E in *. cbn [app runes_from].
  rewrite (decode_encodeRune r (utf8 l) b0 (t ++ utf8 l)); [|done|by rewrite E]. f_equal. apply IH.
  cbn in Hf. rewrite length_app in Hf. lia.
Qed.

(** The code points of a string that was made of code points. *)
Lemma runes_utf8 l : Forall is_scalar_value l → runes (utf8 l) = l.
Proof. intros Hl. by apply runes_from_utf8. Qed.

Lemma utf8_app a b : utf8 (a ++ b) = utf8 a ++ utf8 b.
Proof. apply bind_app. Qed.

Lemma utf8_ascii l : Forall (λ c, 0 <= c < 128) l → utf8 l = l.
Proof.
  induction 1 as [|c l Hc _ IH]; [done|]. change (utf8 (c :: l)) with (encodeRune c ++ utf8 l). rewrite IH. unfold encodeRune.
  rewrite bool_decide_eq_true_2 by (unfold is_scalar_value; lia). by destruct (Z.ltb_spec c 0x80); [|lia].
Qed.
