(* ===== verification/Gsm7.v ===== *)
(** * The GSM 7-bit default alphabet of cell broadcasts

    [shared/gsm7]: the tables of TS 23.038, septets as texts and as packed octets,
    the alphabet and the language of a data coding scheme. *)
From S2P Require Import Prelude NasReader NasNetworkName GoUtf8.
Open Scope Z_scope.

(** ** Tables *)

Definition ESC : Z := 0x1B.

Definition basicSeptetToRune : list Z :=
  [0x40; 0xa3; 0x24; 0xa5; 0xe8; 0xe9; 0xf9; 0xec; 0xf2; 0xc7; 0xa; 0xd8; 0xf8; 0xd; 0xc5; 0xe5;
   0x394; 0x5f; 0x3a6; 0x393; 0x39b; 0x3a9; 0x3a0; 0x3a8; 0x3a3; 0x398; 0x39e; 0x20; 0xc6; 0xe6; 0xdf; 0xc9;
   0x20; 0x21; 0x22; 0x23; 0xa4; 0x25; 0x26; 0x27; 0x28; 0x29; 0x2a; 0x2b; 0x2c; 0x2d; 0x2e; 0x2f;
   0x30; 0x31; 0x32; 0x33; 0x34; 0x35; 0x36; 0x37; 0x38; 0x39; 0x3a; 0x3b; 0x3c; 0x3d; 0x3e; 0x3f;
   0xa1; 0x41; 0x42; 0x43; 0x44; 0x45; 0x46; 0x47; 0x48; 0x49; 0x4a; 0x4b; 0x4c; 0x4d; 0x4e; 0x4f;
   0x50; 0x51; 0x52; 0x53; 0x54; 0x55; 0x56; 0x57; 0x58; 0x59; 0x5a; 0xc4; 0xd6; 0xd1; 0xdc; 0xa7;
   0xbf; 0x61; 0x62; 0x63; 0x64; 0x65; 0x66; 0x67; 0x68; 0x69; 0x6a; 0x6b; 0x6c; 0x6d; 0x6e; 0x6f;
   0x70; 0x71; 0x72; 0x73; 0x74; 0x75; 0x76; 0x77; 0x78; 0x79; 0x7a; 0xe4; 0xf6; 0xf1; 0xfc; 0xe0].

Definition extSeptetToRune : gmap Z Z :=
  list_to_map [(0x14, 94); (0x28, 123); (0x29, 125); (0x2F, 92); (0x3C, 91); (0x3D, 126); (0x3E, 93); (0x40, 124); (0x65, 0x20AC)].

(** The reverse maps, as [init] builds them. *)
Definition basicRuneToSeptet : gmap Z Z :=
  foldl (λ m p, if p.1 =? ESC then m else <[p.2 := p.1]> m) ∅ (zip (Z.of_nat <$> seq 0 128) basicSeptetToRune).
Definition extRuneToSeptet : gmap Z Z := map_fold (λ s r m, <[r := s]> m) ∅ extSeptetToRune.

(** ** Data coding schemes *)

Inductive Alphabet := AlphabetGSM7 | Alphabet8Bit | AlphabetUCS2.
#[export] Instance Alphabet_eq_dec : EqDecision Alphabet.
Proof. solve_decision. Defined.

Definition AlphabetFromCBSDCS (dcs : Z) : Alphabet :=
  let group := dcs ≫ 4 in
  let sel := Z.land (dcs ≫ 2) 0x03 in
  if (group =? 0x0) || (group =? 0x2) || (group =? 0x3) then AlphabetGSM7
  else if group =? 0x1 then if Z.land dcs 0x0F =? 0 then AlphabetGSM7 else AlphabetUCS2
  else if (group =? 0x4) || (group =? 0x5) || (group =? 0x6) || (group =? 0x7) then
    if sel =? 0 then AlphabetGSM7 else if sel =? 1 then Alphabet8Bit else if sel =? 2 then AlphabetUCS2 else AlphabetGSM7
  else if group =? 0x9 then
    if sel =? 1 then Alphabet8Bit else if sel =? 2 then AlphabetUCS2 else AlphabetGSM7
  else if group =? 0xF then if negb (Z.land dcs 0x04 =? 0) then Alphabet8Bit else AlphabetGSM7
  else AlphabetGSM7.

(** ** Texts and septets *)

Definition encodeChar (r : Z) : bytes :=
  match basicRuneToSeptet !! r with
  | Some v => [v]
  | None => match extRuneToSeptet !! r with Some v => [ESC; v] | None => [63] end
  end.
Definition EncodeText (text : bytes) : bytes := runes text ≫= encodeChar.

(** The code points of the text. *)
Fixpoint decodeChars (septets : bytes) : list Z :=
  match septets with
  | [] => []
  | x :: rest =>
      let s := Z.land x 0x7F in
      if s =? ESC then
        match rest with
        | [] => [32]
        | y :: rest => default 32 (extSeptetToRune !! Z.land y 0x7F) :: decodeChars rest
        end
      else default 0 (basicSeptetToRune !! Z.to_nat s) :: decodeChars rest
  end.
Definition DecodeSeptets (septets : bytes) : bytes := utf8 (decodeChars septets).

(** ** Packing *)

Fixpoint packFrom (septets : bytes) (i : nat) (packed : bytes) : res bytes :=
  match septets with
  | [] => Ok packed
  | s :: septets =>
      let s := Z.land s 0x7F in
      let bitPos := (i * 7)%nat in
      let bytePos := (bitPos / 8)%nat in
      let bitOffset := (bitPos mod 8)%nat in
      x ← idx packed bytePos;
      let packed := <[bytePos := Z.lor x (u8 (s ≪ Z.of_nat bitOffset))]> packed in
      packed ← (if (1 <? bitOffset)%nat && (S bytePos <? length packed)%nat then
                  y ← idx packed (S bytePos);
                  Ok (<[S bytePos := Z.lor y (s ≫ (8 - Z.of_nat bitOffset))]> packed)
                else Ok packed);
      packFrom septets (S i) packed
  end.
Definition PackSeptets (septets : bytes) : res bytes :=
  packFrom septets 0 (replicate ((length septets * 7 + 7) / 8) 0).

Definition septetAt (packed : bytes) (i : nat) : Z :=
  let bitPos := (i * 7)%nat in
  let bytePos := (bitPos / 8)%nat in
  let bitOffset := (bitPos mod 8)%nat in
  let v := match packed !! bytePos with Some x => x ≫ Z.of_nat bitOffset | None => 0 end in
  let v := if (1 <? bitOffset)%nat then
             match packed !! S bytePos with Some y => Z.lor v (u8 (y ≪ (8 - Z.of_nat bitOffset))) | None => v end
           else v in
  Z.land v 0x7F.
Definition UnpackSeptets (packed : bytes) (count : nat) : bytes := septetAt packed <$> seq 0 count.

Definition SeptetCountForOctets (octets : nat) : nat := (octets * 8 / 7)%nat.

(** ** Languages *)

Definition cbsCodingGroupLanguages : list (Z * string) :=
  [(0x00, "German"); (0x01, "English"); (0x02, "Italian"); (0x03, "French"); (0x04, "Spanish"); (0x05, "Dutch"); (0x06, "Swedish");
   (0x07, "Danish"); (0x08, "Portuguese"); (0x09, "Finnish"); (0x0A, "Norwegian"); (0x0B, "Greek"); (0x0C, "Turkish");
   (0x0D, "Hungarian"); (0x0E, "Polish"); (0x0F, "Unspecified"); (0x20, "Czech"); (0x21, "Hebrew"); (0x22, "Arabic");
   (0x23, "Russian"); (0x24, "Icelandic")]%string.
Definition LanguageNameFromCBSDCS (dcs : Z) : string :=
  default ""%string ((list_to_map cbsCodingGroupLanguages : gmap Z string) !! dcs).

Definition EncodeUCS2LanguagePrefix (iso639 : bytes) : res bytes :=
  let code := iso639 ++ replicate (2 - length iso639) 32 in
  PackSeptets (EncodeText (take 2 code)).
Definition DecodeUCS2LanguagePrefix (prefix : bytes) : bytes :=
  if (length prefix <? 2)%nat then [] else DecodeSeptets (UnpackSeptets (take 2 prefix) 2).

(** ** The tables are inverse to each other *)

Lemma basic_table :
  map_Forall (λ r s, is_septet s ∧ s ≠ ESC ∧ basicSeptetToRune !! Z.to_nat s = Some r ∧ is_scalar_value r) basicRuneToSeptet.
Proof. apply (bool_decide_unpack _). vm_compute. exact I. Qed.
Lemma ext_table :
  map_Forall (λ r s, is_septet s ∧ s ≠ ESC ∧ extSeptetToRune !! s = Some r ∧ is_scalar_value r ∧ basicRuneToSeptet !! r = None) extRuneToSeptet.
Proof. apply (bool_decide_unpack _). vm_compute. exact I. Qed.
(** Every cell of the tables has its character in the reverse maps. *)
Lemma tables_complete :
  Forall (λ s, s = ESC ∨ (basicSeptetToRune !! Z.to_nat s) ≫= (basicRuneToSeptet !!.) = Some s) (Z.of_nat <$> seq 0 128) ∧
  map_Forall (λ s r, extRuneToSeptet !! r = Some s) extSeptetToRune.
Proof. split; apply (bool_decide_unpack _); vm_compute; exact I. Qed.

(** The alphabet is the one of the network name. *)
Lemma tables_agree : Forall (λ p, basicRuneToSeptet !! p.1 = Some p.2) gsm7BasicSet ∧ length gsm7BasicSet = size basicRuneToSeptet.
Proof. split; [apply (bool_decide_unpack _); vm_compute; exact I|vm_compute; reflexivity]. Qed.

(** A character of the basic or of the extension table. *)
Definition in_alphabet (r : Z) : Prop := is_Some (basicRuneToSeptet !! r) ∨ is_Some (extRuneToSeptet !! r).
#[export] Instance in_alphabet_dec r : Decision (in_alphabet r).
Proof. unfold in_alphabet. apply _. Defined.

Lemma in_alphabet_scalar r : in_alphabet r → is_scalar_value r.
Proof. intros [[s Hs]|[s Hs]]; [apply basic_table in Hs|apply ext_table in Hs]; naive_solver. Qed.

Lemma land_septet s : is_septet s → Z.land s 0x7F = s.
Proof. intros Hs. unfold is_septet in Hs. change 0x7F with (Z.ones 7). rewrite Z.land_ones by lia. apply Z.mod_small. lia. Qed.

(** A character is one septet that is no escape, or an escape and a septet. *)
Lemma encodeChar_shape r :
  in_alphabet r →
  (∃ s, encodeChar r = [s] ∧ is_septet s ∧ s ≠ ESC ∧ ∀ rest, decodeChars (s :: rest) = r :: decodeChars rest) ∨
  (∃ s, encodeChar r = [ESC; s] ∧ is_septet s ∧ s ≠ ESC ∧ ∀ rest, decodeChars (ESC :: s :: rest) = r :: decodeChars rest).
Proof.
  intros Hr. unfold encodeChar. destruct (basicRuneToSeptet !! r) as [s|] eqn:E.
  - left. exists s. destruct (basic_table _ _ E) as (Hs & Hne & Ht & _). split; [done|]. split; [done|]. split; [done|].
    intros rest. cbn [decodeChars]. rewrite land_septet by done. by rewrite (proj2 (Z.eqb_neq _ _) Hne), Ht.
  - destruct Hr as [[s Hs]|[s Hs]]; [congruence|]. rewrite Hs. right. exists s. destruct (ext_table _ _ Hs) as (Hs' & Hne & Ht & _).
    split; [done|]. split; [done|]. split; [done|]. intros rest. cbn [decodeChars]. rewrite (land_septet s) by done.
    change (Z.land ESC 0x7F =? ESC) with true. cbn iota. by rewrite Ht.
Qed.

Lemma decode_encodeChars l rest : Forall in_alphabet l → decodeChars ((l ≫= encodeChar) ++ rest) = l ++ decodeChars rest.
Proof.
  induction 1 as [|r l Hr _ IH]; [done|]. rewrite bind_cons, <- (assoc_L (++)).
  destruct (encodeChar_shape r Hr) as [(s & -> & _ & _ & H)|(s & -> & _ & _ & H)]; cbn [app]; by rewrite H, IH.
Qed.

Lemma encodeChars_septets l : Forall in_alphabet l → Forall is_septet (l ≫= encodeChar).
Proof.
  induction 1 as [|r l Hr _ IH]; [done|]. rewrite bind_cons. apply Forall_app. split; [|done].
  destruct (encodeChar_shape r Hr) as [(s & -> & Hs & _)|(s & -> & Hs & _)]; [by constructor|].
  constructor; [by vm_compute|by constructor].
Qed.

(** Septets can be cut where no escape stands before the cut. *)
Lemma encodeChars_cut l c :
  Forall in_alphabet l → (∀ i, S i = c → (l ≫= encodeChar) !! i ≠ Some ESC) →
  ∃ l1 l2, l = l1 ++ l2 ∧ l1 ≫= encodeChar = take c (l ≫= encodeChar) ∧ l2 ≫= encodeChar = drop c (l ≫= encodeChar).
Proof.
  intros Hl. revert c. induction Hl as [|r l Hr _ IH]; intros c Hc; [exists [], []; by destruct c|].
  rewrite bind_cons in *. destruct c as [|c]; [by exists [], (r :: l)|].
  destruct (encodeChar_shape r Hr) as [(s & E & _)|(s & E & _)]; rewrite E in *; cbn [app] in *.
  - destruct (IH c) as (l1 & l2 & -> & H1 & H2); [intros i <-; by apply (Hc (S i))|].
    exists (r :: l1), l2. rewrite bind_cons, E. cbn. by rewrite H1.
  - destruct c as [|c]; [by destruct (Hc 0%nat)|].
    destruct (IH c) as (l1 & l2 & -> & H1 & H2); [intros i <-; by apply (Hc (S (S i)))|].
    exists (r :: l1), l2. rewrite bind_cons, E. cbn. by rewrite H1.
Qed.

(** ** Packing *)

Lemma packFrom_pack l i packed packed' : Forall is_septet l → pack_loop l i packed = Ok packed' → packFrom l i packed = Ok packed'.
Proof.
  assert (∀ a b : bytes, Ok a = Ok b → a = b) as Hinj by congruence.
  intros Hl. revert i packed. induction Hl as [|s l Hs _ IH]; intros i packed; [done|]. cbn [pack_loop packFrom].
  rewrite (land_septet s) by done. rewrite land_255. intros H. apply bind_Ok in H as (x & -> & H). cbn [mbind res_bind].
  unfold u8 in H. rewrite Zmod_mod in H. fold (u8 (s ≪ Z.of_nat (i * 7 mod 8))) in H.
  apply bind_Ok in H as (p1 & Ep & H). destruct (1 <? i * 7 mod 8)%nat; cbn [andb].
  - rewrite length_insert. apply bind_Ok in Ep as (y & Ey & Ep). assert (S (i * 7 / 8) < length packed)%nat as Hlt.
    { unfold idx in Ey. destruct (_ !! S (i * 7 / 8)) eqn:El; [|done]. apply lookup_lt_Some in El. by rewrite length_insert in El. }
    destruct (Nat.ltb_spec (S (i * 7 / 8)) (length packed)); [|lia]. rewrite Ey. cbn [mbind res_bind]. apply Hinj in Ep as ->. by apply IH.
  - cbn [mbind res_bind]. apply Hinj in Ep as ->. by apply IH.
Qed.

(** The octets of packed septets, and what they unpack to: the septets, and zeros
    where the octets have room for more. *)
Lemma pack_unpack l n :
  Forall is_septet l →
  ∃ packed, PackSeptets l = Ok packed ∧ bytes_ok packed ∧ length packed = ((length l * 7 + 7) / 8)%nat ∧
    ((length l <= n)%nat → (7 * n <= 8 * length packed)%nat → UnpackSeptets packed n = l ++ replicate (n - length l) 0).
Proof.
  intros Hl. destruct (packGSM7_bits l Hl) as (packed & spare & E & Hsp & Hlen & Hb). unfold packGSM7 in E.
  apply bind_Ok in E as (p & Ep & E). injection E as -> _.
  assert (bytes_ok packed) as Hok by (eapply pack_loop_ok; [done| |done]; apply Forall_replicate; unfold is_u8; lia).
  exists packed. split; [by apply packFrom_pack|]. split; [done|].
  split; [apply (Nat.div_unique _ 8 _ (Z.to_nat (7 - spare))); lia|]. intros Hn H7.
  set (l' := l ++ replicate (n - length l) 0). assert (length l' = n) as Hl' by (unfold l'; rewrite length_app, length_replicate; lia).
  assert (unpack_loop packed 0 n [] = Ok l') as Hu.
  { rewrite <- Hl' at 1. apply (unpack_loop_bits l' packed [] []); [|done|rewrite Hl'; cbn; lia|].
    - apply Forall_app. split; [done|]. apply Forall_replicate. unfold is_septet. lia.
    - intros q. rewrite Hb. unfold sbit, at0, l'. cbn [app]. rewrite lookup_app. destruct (l !! (q / 7)%nat) eqn:El; [done|]. cbn.
      destruct (replicate _ 0 !! _) eqn:Er; [|done]. by apply lookup_replicate in Er as [-> _]. }
  assert (∀ k i acc, (7 * (i + k) <= 8 * length packed)%nat → unpack_loop packed i k acc = Ok (acc ++ (septetAt packed <$> seq i k))) as Hs.
  { induction k as [|k IH]; intros i acc Hk; [by rewrite app_nil_r|]. cbn [unpack_loop seq fmap list_fmap].
    destruct (idx_Ok packed (i * 7 / 8)) as (x & Hx & ->); [apply Nat.Div0.div_lt_upper_bound; lia|]. cbn [mbind res_bind]. rewrite (cons_middle (septetAt packed i)), (assoc_L (++)).
    rewrite <- IH by lia. f_equal. unfold septetAt. rewrite Hx.
    destruct (1 <? i * 7 mod 8)%nat eqn:E1; cbn [andb]; [|done].
    destruct (Nat.ltb_spec (S (i * 7 / 8)) (length packed)) as [Hlt|Hge].
    - destruct (idx_Ok packed (S (i * 7 / 8)) Hlt) as (y & Hy & ->). by rewrite Hy.
    - by rewrite (lookup_ge_None_2 packed (S (i * 7 / 8))). }
  unfold UnpackSeptets. rewrite Hs in Hu by (cbn; lia). by injection Hu.
Qed.

Lemma EncodeText_runes l : Forall is_scalar_value l → EncodeText (utf8 l) = l ≫= encodeChar.
Proof. intros Hl. unfold EncodeText. by rewrite runes_utf8. Qed.
