(* ===== verification/AmfPws.v ===== *)
(** * Public warnings

    [nf/amf/internal/ngap/pws.go] and the warning part of the management interface
    of [nf/amf/cmd/amf/main.go]: the pages of a warning, the messages to the gNBs
    and the registry of broadcasts.

    NGAP messages are values, and the encoder is a parameter.  A request body is the
    decoded value, and the times are arguments.  The registry is guarded by a mutex:
    each of its accesses is a step; [SendWriteReplaceWarning] is three of them, with
    the gNBs read first.  Logs are left out. *)
From S2P Require Import Prelude NasReader NasIE GoText GoUtf8 Gsm7 NasNetworkName AmfN2.
Open Scope Z_scope.

(** ** Pages *)

Definition WarningTypeLength : nat := 2.
Definition WarningSecurityInfoLength : nat := 50.
Definition DefaultRepetitionPeriod : Z := 4096.
Definition DefaultNumberOfBroadcasts : Z := 1.
Definition cbsPageContentLength : nat := 82.
Definition cbsMaxPages : nat := 15.
Definition gsm7MaxSeptetsPerPage : nat := 93.
Definition ucs2MaxCharsPerPage : nat := cbsPageContentLength / 2.
Definition cbsDCSUcs2WithLanguage : Z := 0x11.
Definition ucs2LanguagePrefixLen : nat := 2.

(** A page of zeros with [content] copied into it, and the number of octets copied. *)
Definition pageOf (content : bytes) : bytes :=
  go_copy (replicate cbsPageContentLength 0) content ++ [u8 (Z.of_nat (Nat.min cbsPageContentLength (length content)))].

(** [ceil(n / size)], and at least one. *)
Definition pageCount (n size : nat) : nat :=
  match ((n + size - 1) / size)%nat with O => 1%nat | k => k end.
(** [l[i*size : min((i+1)*size, len l)]] *)
Definition chunkAt {A} (l : list A) (size i : nat) : list A := take size (drop (i * size) l).

Definition encode8BitPages (text : bytes) : bytes :=
  let text := take (cbsPageContentLength * cbsMaxPages) text in
  let numPages := pageCount (length text) cbsPageContentLength in
  u8 (Z.of_nat numPages) :: concat ((λ i, pageOf (chunkAt text cbsPageContentLength i)) <$> seq 0 numPages).

Definition encodeGSM7Pages (text : bytes) : res bytes :=
  let septets := take (gsm7MaxSeptetsPerPage * cbsMaxPages) (EncodeText text) in
  let numPages := pageCount (length septets) gsm7MaxSeptetsPerPage in
  packed ← mapM (λ i, PackSeptets (chunkAt septets gsm7MaxSeptetsPerPage i)) (seq 0 numPages);
  Ok (u8 (Z.of_nat numPages) :: concat (pageOf <$> packed)).

(** The loop over the code points: [pages] more pages, the first with less room. *)
Fixpoint ucs2Chunks (pages : nat) (first : bool) (capacity : nat) (runes : list Z) : list (list Z) :=
  match pages with
  | O => []
  | S pages =>
      match runes, first with
      | [], false => []
      | _, _ =>
          let capacity := if first then capacity else ucs2MaxCharsPerPage in
          take capacity runes :: ucs2Chunks pages false capacity (drop capacity runes)
      end
  end.
Definition ucs2 (r : Z) : bytes := [u8 (r ≫ 8); u8 r].
Definition encodeUCS2Pages (text prefix : bytes) : bytes :=
  let capacity := match prefix with [] => ucs2MaxCharsPerPage | _ => ((cbsPageContentLength - length prefix) / 2)%nat end in
  let pages := ucs2Chunks cbsMaxPages true capacity (runes text) in
  u8 (Z.of_nat (length pages)) ::
    concat (imap (λ i page, pageOf ((if (i =? 0)%nat then prefix else []) ++ (page ≫= ucs2))) pages).

Definition encodeWarningMessageContentPages (dcs : Z) (langISO text : bytes) : res bytes :=
  match AlphabetFromCBSDCS dcs with
  | AlphabetUCS2 =>
      prefix ← (if (dcs =? cbsDCSUcs2WithLanguage) && negb (bool_decide (langISO = [])) then EncodeUCS2LanguagePrefix langISO else Ok []);
      Ok (encodeUCS2Pages text prefix)
  | Alphabet8Bit => Ok (encode8BitPages text)
  | AlphabetGSM7 => encodeGSM7Pages text
  end.

(** The walk over the pages that the decoders share: the number of the page, and its
    content up to the length octet. *)
Fixpoint walkPages {A} (f : nat → bytes → list A) (i numPages : nat) (wire : bytes) : list A :=
  match numPages with
  | O => []
  | S numPages =>
      if (length wire <? cbsPageContentLength + 1)%nat then []
      else
        let n := Nat.min cbsPageContentLength (Z.to_nat (at0 wire cbsPageContentLength)) in
        f i (take n wire) ++ walkPages f (S i) numPages (drop (cbsPageContentLength + 1) wire)
  end.
Definition decodePages {A} (f : nat → bytes → list A) (wire : bytes) : list A :=
  match wire with
  | [] => []
  | n :: pages => walkPages f 0 (Z.to_nat n) pages
  end.

Definition decode8BitPages (wire : bytes) : bytes := decodePages (λ _ content, content) wire.

Definition decodeGSM7Pages (wire : bytes) : bytes :=
  decodePages (λ _ content,
    DecodeSeptets (UnpackSeptets content (Nat.min gsm7MaxSeptetsPerPage (SeptetCountForOctets (length content))))) wire.

(** Pairs of octets; an odd last octet is left. *)
Fixpoint ucs2Runes (content : bytes) : list Z :=
  match content with
  | a :: b :: rest => be16 a b :: ucs2Runes rest
  | _ => []
  end.
Definition decodeUCS2Pages (wire : bytes) (prefixLen : nat) : bytes :=
  utf8 (decodePages (λ i content, ucs2Runes (if (i =? 0)%nat then drop prefixLen content else content)) wire).

Definition DecodeWarningMessageContentPages (dcs : Z) (wire : bytes) : bytes :=
  match AlphabetFromCBSDCS dcs with
  | AlphabetUCS2 => decodeUCS2Pages wire (if dcs =? cbsDCSUcs2WithLanguage then ucs2LanguagePrefixLen else 0)
  | Alphabet8Bit => decode8BitPages wire
  | AlphabetGSM7 => decodeGSM7Pages wire
  end.

(** ** Messages *)

Inductive Criticality := Reject | Ignore.
Record TAIForPaging := mkTAI { t_PLMN : bytes; t_TAC : Z }.
Inductive WarningIE :=
| IEMessageIdentifier (bits : bytes)
| IESerialNumber (bits : bytes)
| IEWarningAreaList (tais : list (bytes * bytes))
| IERepetitionPeriod (v : Z)
| IENumberOfBroadcastsRequested (v : Z)
| IEWarningType (v : bytes)
| IEWarningSecurityInfo (v : bytes)
| IEDataCodingScheme (v : Z)
| IEWarningMessageContents (v : bytes)
| IECancelAllWarningMessages.
Inductive WarningPDU :=
| WriteReplaceWarningRequest (ies : list (Criticality * WarningIE))
| PWSCancelRequest (ies : list (Criticality * WarningIE)).

Record WriteReplaceWarningParams := mkParams {
  MessageIdentifier : Z; SerialNumber : Z; TAIs : list TAIForPaging; RepetitionPeriod : Z; NumberOfBroadcasts : Z;
  WarningType : bytes; WarningSecurityInfo : bytes; DataCodingScheme : Z; LanguageISO639 : bytes; WarningMessageContents : bytes }.

Definition uint16ToBitString16 (v : Z) : bytes := [u8 (v ≫ 8); u8 v].
Definition bitString16ToUint16 (b : bytes) : Z :=
  match b with x :: y :: _ => be16 x y | _ => 0 end.

Definition buildTAIListForWarning (tais : list TAIForPaging) : list (bytes * bytes) :=
  (λ t, (t_PLMN t, [u8 (t_TAC t ≫ 16); u8 (t_TAC t ≫ 8); u8 (t_TAC t)])) <$> tais.

(** The elements of the message; the encoder is applied when it is sent. *)
Definition BuildWriteReplaceWarningRequest (p : WriteReplaceWarningParams) : res WarningPDU :=
  contents ← (if (0 <? length (WarningMessageContents p))%nat then
                c ← encodeWarningMessageContentPages (DataCodingScheme p) (LanguageISO639 p) (WarningMessageContents p);
                Ok [(Ignore, IEWarningMessageContents c)]
              else Ok []);
  Ok (WriteReplaceWarningRequest (
    [(Reject, IEMessageIdentifier (uint16ToBitString16 (MessageIdentifier p)));
     (Reject, IESerialNumber (uint16ToBitString16 (SerialNumber p)))] ++
    (if (0 <? length (TAIs p))%nat then [(Ignore, IEWarningAreaList (buildTAIListForWarning (TAIs p)))] else []) ++
    [(Reject, IERepetitionPeriod (RepetitionPeriod p)); (Reject, IENumberOfBroadcastsRequested (NumberOfBroadcasts p));
     (Ignore, IEWarningType (WarningType p)); (Ignore, IEWarningSecurityInfo (WarningSecurityInfo p));
     (Ignore, IEDataCodingScheme (DataCodingScheme p))] ++ contents)).

Definition BuildPWSCancelRequest (messageIdentifier serialNumber : Z) (tais : list TAIForPaging) (cancelAll : bool) : WarningPDU :=
  PWSCancelRequest (
    [(Reject, IEMessageIdentifier (uint16ToBitString16 messageIdentifier)); (Reject, IESerialNumber (uint16ToBitString16 serialNumber))] ++
    (if (0 <? length tais)%nat then [(Ignore, IEWarningAreaList (buildTAIListForWarning tais))] else []) ++
    (if cancelAll then [(Reject, IECancelAllWarningMessages)] else [])).

(** *** Answers of the gNBs *)

Record PWSArea := mkArea { MCC : bytes; MNC : bytes; TAC : Z }.
#[export] Instance PWSArea_eq_dec : EqDecision PWSArea.
Proof. solve_decision. Defined.

Definition plmnToMCC (plmn : bytes) : bytes :=
  match plmn with
  | a :: b :: _ :: _ => Itoa (Z.land a 0x0F) ++ Itoa (Z.land (a ≫ 4) 0x0F) ++ Itoa (Z.land b 0x0F)
  | _ => []
  end.
Definition plmnToMNC (plmn : bytes) : bytes :=
  match plmn with
  | _ :: b :: c :: _ =>
      let d3 := Z.land (b ≫ 4) 0x0F in
      Itoa (Z.land c 0x0F) ++ Itoa (Z.land (c ≫ 4) 0x0F) ++ (if d3 =? 0x0F then [] else Itoa d3)
  | _ => []
  end.
Definition tacToUint32 (tac : bytes) : Z := foldl (λ v b, Z.lor (u32 (v ≪ 8)) b) 0 tac.

(** An area list of a response; [None] is an absent list of items. *)
Inductive AreaList :=
| TAIListNR (items : option (list (bytes * bytes)))
| TAIListEUTRA (items : option (list (bytes * bytes)))
| OtherAreas.
Definition extractAreaList (a : AreaList) : list PWSArea :=
  match a with
  | TAIListNR (Some items) | TAIListEUTRA (Some items) => (λ i, mkArea (plmnToMCC i.1) (plmnToMNC i.1) (tacToUint32 i.2)) <$> items
  | _ => []
  end.
Definition extractBroadcastCompletedAreaList : AreaList → list PWSArea := extractAreaList.
Definition extractBroadcastCancelledAreaList : AreaList → list PWSArea := extractAreaList.
Inductive ResponseIE :=
| RMessageIdentifier (v : option bytes)
| RSerialNumber (v : option bytes)
| RAreaList (v : option AreaList)
| ROther.

(** [WriteReplaceWarningResponseMsg] and [PWSCancelResponseMsg], which are read by the
    same loop. *)
Record ResponseMsg := mkResponse { r_MessageIdentifier : Z; r_SerialNumber : Z; Areas : list PWSArea }.
Definition extractResponse (areasOf : AreaList → list PWSArea) (ies : list ResponseIE) : ResponseMsg :=
  foldl (λ out ie, match ie with
    | RMessageIdentifier (Some b) => mkResponse (bitString16ToUint16 b) (r_SerialNumber out) (Areas out)
    | RSerialNumber (Some b) => mkResponse (r_MessageIdentifier out) (bitString16ToUint16 b) (Areas out)
    | RAreaList (Some a) => mkResponse (r_MessageIdentifier out) (r_SerialNumber out) (areasOf a)
    | _ => out
    end) (mkResponse 0 0 []) ies.
Definition extractWriteReplaceWarningResponse : list ResponseIE → ResponseMsg := extractResponse extractBroadcastCompletedAreaList.
Definition extractPWSCancelResponse : list ResponseIE → ResponseMsg := extractResponse extractBroadcastCancelledAreaList.

(** ** The registry *)

Record PWSKey := mkKey { k_MessageIdentifier : Z; k_SerialNumber : Z }.
#[export] Instance PWSKey_eq_dec : EqDecision PWSKey.
Proof. solve_decision. Defined.
#[export] Instance PWSKey_countable : Countable PWSKey.
Proof. apply (inj_countable' (λ k, (k_MessageIdentifier k, k_SerialNumber k)) (λ '(a, b), mkKey a b)). by intros []. Defined.

Record PWSGNBStatus := mkGNBStatus {
  GNBAddr : bytes; GNBName : bytes; Completed : bool; Cancelled : bool; Failed : bool; g_Areas : list PWSArea }.
#[export] Instance PWSGNBStatus_eq_dec : EqDecision PWSGNBStatus.
Proof. solve_decision. Defined.
Record PWSBroadcast := mkBroadcast {
  Key : PWSKey; Params : WriteReplaceWarningParams; CreatedAt : Z; GNBsTargeted : nat; CancelledAt : option Z;
  PerGNB : gmap bytes PWSGNBStatus }.
Record PWSBroadcastStatus := mkStatus {
  s_MessageIdentifier : Z; s_SerialNumber : Z; s_GNBsTargeted : nat; s_GNBsCompleted : nat; s_GNBsCancelled : nat;
  s_Cancelled : bool; s_CreatedAt : Z; s_PerGNB : list PWSGNBStatus }.

(** What the warnings use of the server: the names of the connected gNBs by address,
    and the broadcasts. *)
Record PwsServer := mkPws { gnbs : gmap bytes bytes; pws : gmap PWSKey PWSBroadcast }.
Definition with_pws (f : gmap PWSKey PWSBroadcast → gmap PWSKey PWSBroadcast) (s : PwsServer) : PwsServer := mkPws (gnbs s) (f (pws s)).

Definition paramsKey (p : WriteReplaceWarningParams) : PWSKey := mkKey (MessageIdentifier p) (SerialNumber p).
Definition responseKey (r : ResponseMsg) : PWSKey := mkKey (r_MessageIdentifier r) (r_SerialNumber r).

(** The gNBs that are connected, in the order of the map. *)
Definition connectedGNBs (s : PwsServer) : list (bytes * bytes) := map_to_list (gnbs s).

Definition freshStatus (addr name : bytes) : PWSGNBStatus := mkGNBStatus addr name false false false [].
Definition recordBroadcast (p : WriteReplaceWarningParams) (gs : list (bytes * bytes)) (now : Z) : PwsServer → PwsServer :=
  with_pws (<[paramsKey p := mkBroadcast (paramsKey p) p now (length gs) None
                               (foldl (λ m g, <[g.1 := freshStatus g.1 g.2]> m) ∅ gs)]>).

(** The answers of one call: whether the writes to the gNBs succeed. *)
Section Send.
Context (Encoder : WarningPDU → option bytes) (writes : bytes → bool).

Definition fanOut (pdu : bytes) (gs : list (bytes * bytes)) : list (bytes * bytes) :=
  (λ g, (g.1, pdu)) <$> filter (λ g, writes g.1 = true) gs.

(** The messages that were sent, and the number of gNBs or [None] when the encoder fails. *)
Definition SendWriteReplaceWarning (p : WriteReplaceWarningParams) (now : Z) (s : PwsServer) : res (PwsServer * list (bytes * bytes) * option nat) :=
  let gs := connectedGNBs s in
  let s := recordBroadcast p gs now s in
  match gs with
  | [] => Ok (s, [], Some 0%nat)
  | _ =>
      pdu ← BuildWriteReplaceWarningRequest p;
      match Encoder pdu with
      | None => Ok (s, [], None)
      | Some b => Ok (s, fanOut b gs, Some (length gs))
      end
  end.

Definition markCancelled (k : PWSKey) (now : Z) : PwsServer → PwsServer :=
  with_pws (alter (λ b, mkBroadcast (Key b) (Params b) (CreatedAt b) (GNBsTargeted b) (Some now) (PerGNB b)) k).

Inductive CancelResult := ErrPWSBroadcastNotFound | CancelEncodeFailed | CancelSent (targeted : nat).
Definition SendPWSCancel (messageIdentifier serialNumber : Z) (cancelAll : bool) (now : Z) (s : PwsServer)
  : PwsServer * list (bytes * bytes) * CancelResult :=
  let k := mkKey messageIdentifier serialNumber in
  match pws s !! k with
  | None => (s, [], ErrPWSBroadcastNotFound)
  | Some _ =>
      let s := markCancelled k now s in
      let gs := connectedGNBs s in
      match gs with
      | [] => (s, [], CancelSent 0)
      | _ =>
          match Encoder (BuildPWSCancelRequest messageIdentifier serialNumber [] cancelAll) with
          | None => (s, [], CancelEncodeFailed)
          | Some b => (s, fanOut b gs, CancelSent (length gs))
          end
      end
  end.
End Send.

Definition with_PerGNB (f : gmap bytes PWSGNBStatus → gmap bytes PWSGNBStatus) (b : PWSBroadcast) : PWSBroadcast :=
  mkBroadcast (Key b) (Params b) (CreatedAt b) (GNBsTargeted b) (CancelledAt b) (f (PerGNB b)).
(** The entry of a gNB, made when there is none. *)
Definition onStatus (addr name : bytes) (f : PWSGNBStatus → PWSGNBStatus) : PWSBroadcast → PWSBroadcast :=
  with_PerGNB (λ m, <[addr := f (default (freshStatus addr name) (m !! addr))]> m).

Definition handleWriteReplaceWarningResponse (addr name : bytes) (resp : ResponseMsg) : PwsServer → PwsServer :=
  with_pws (alter (onStatus addr name
    (λ st, mkGNBStatus (GNBAddr st) (GNBName st) true (Cancelled st) (Failed st) (Areas resp))) (responseKey resp)).
Definition handlePWSCancelResponse (addr name : bytes) (resp : ResponseMsg) : PwsServer → PwsServer :=
  with_pws (alter (onStatus addr name
    (λ st, mkGNBStatus (GNBAddr st) (GNBName st) (Completed st) true (Failed st) (Areas resp))) (responseKey resp)).

Definition markPWSGNBFailed (gnbAddr : bytes) : PwsServer → PwsServer :=
  with_pws (fmap (with_PerGNB (alter (λ st,
    if negb (Completed st) && negb (Cancelled st)
    then mkGNBStatus (GNBAddr st) (GNBName st) (Completed st) (Cancelled st) true (g_Areas st) else st) gnbAddr))).

Definition snapshotPWSBroadcast (b : PWSBroadcast) : PWSBroadcastStatus :=
  let l := (map_to_list (PerGNB b)).*2 in
  mkStatus (k_MessageIdentifier (Key b)) (k_SerialNumber (Key b)) (GNBsTargeted b)
    (length (filter (λ st, Completed st = true) l)) (length (filter (λ st, Cancelled st = true) l))
    (match CancelledAt b with Some _ => true | None => false end) (CreatedAt b) l.
Definition PWSStatus (messageIdentifier serialNumber : Z) (s : PwsServer) : option PWSBroadcastStatus :=
  snapshotPWSBroadcast <$> pws s !! mkKey messageIdentifier serialNumber.
Definition PWSList (s : PwsServer) : list PWSBroadcastStatus := snapshotPWSBroadcast <$> (map_to_list (pws s)).*2.

(** ** The management interface *)

(** [AMFConfig]: what the warnings read of it. *)
Record PwsConfig := mkPwsConfig { PLMN_MCC : bytes; PLMN_MNC : bytes; ServedTACs : list Z }.

Definition zeroPadTo (n : nat) (s : bytes) : bytes := replicate (n - length s) 48 ++ s.
Definition plmnFromMCCMNC (mcc mnc : bytes) : bytes :=
  let mcc := zeroPadTo 3 mcc in
  let mnc := zeroPadTo 2 mnc in
  let mnc := if (length mnc =? 2)%nat then mnc ++ [102] else mnc in
  let h (l : bytes) i := hexNibble (at0 l i) in
  [Z.lor (u8 (h mcc 1%nat ≪ 4)) (h mcc 0%nat); Z.lor (u8 (h mnc 2%nat ≪ 4)) (h mcc 2%nat);
   Z.lor (u8 (h mnc 1%nat ≪ 4)) (h mnc 0%nat)].
Definition PLMNFromMCCMNC : bytes → bytes → bytes := plmnFromMCCMNC.

Record BroadcastRequest := mkRequest {
  b_messageIdentifier : option Z; b_serialNumber : option Z; b_repetitionPeriod : option Z; b_numberOfBroadcasts : option Z;
  b_warningType : bytes; b_warningSecurityInfo : bytes; b_dataCodingScheme : option Z; b_language : bytes; b_messageText : bytes;
  b_warningAreaTacs : list Z }.

(** The octets of a text of hexadecimal digits when there are [n] of them, else [d]. *)
Definition hexField (n : nat) (d s : bytes) : bytes :=
  match hexDecode s with Some b => if (length b =? n)%nat then b else d | None => d end.

Definition broadcastParams (cfg : PwsConfig) (req : BroadcastRequest) : WriteReplaceWarningParams :=
  let tacs := match b_warningAreaTacs req with [] => ServedTACs cfg | l => l end in
  let plmn := PLMNFromMCCMNC (PLMN_MCC cfg) (PLMN_MNC cfg) in
  mkParams (default 0x1112 (b_messageIdentifier req)) (default 1 (b_serialNumber req))
    ((λ tac, mkTAI plmn (u32 tac)) <$> tacs)
    (default DefaultRepetitionPeriod (b_repetitionPeriod req)) (default DefaultNumberOfBroadcasts (b_numberOfBroadcasts req))
    (hexField WarningTypeLength [0x10; 0x00] (b_warningType req))
    (hexField WarningSecurityInfoLength (replicate WarningSecurityInfoLength 0) (b_warningSecurityInfo req))
    (match b_dataCodingScheme req with Some d => u8 d | None => 0x0F end) (b_language req)
    (match b_messageText req with [] => str "Emergency alert" | t => t end).

Inductive PwsResp :=
| HttpError (status : Z)
| PwsAccepted (messageIdentifier serialNumber : Z) (targeted : nat)
| PwsStatusResp (s : PWSBroadcastStatus)
| PwsListResp (l : list PWSBroadcastStatus).

Section Management.
Context (Encoder : WarningPDU → option bytes) (writes : bytes → bool) (cfg : PwsConfig).

(** The body is [None] when it does not decode. *)
Definition handleBroadcast (body : option BroadcastRequest) (now : Z) (s : PwsServer) : res (PwsServer * list (bytes * bytes) * PwsResp) :=
  match body with
  | None => Ok (s, [], HttpError 400)
  | Some req =>
      let p := broadcastParams cfg req in
      '(s, out, r) ← SendWriteReplaceWarning Encoder writes p now s;
      match r with
      | None => Ok (s, out, HttpError 500)
      | Some n => Ok (s, out, PwsAccepted (MessageIdentifier p) (SerialNumber p) n)
      end
  end.

Definition handleCancel (body : option (Z * Z * bool)) (now : Z) (s : PwsServer) : PwsServer * list (bytes * bytes) * PwsResp :=
  match body with
  | None => (s, [], HttpError 400)
  | Some (messageIdentifier, serialNumber, cancelAll) =>
      let '(s, out, r) := SendPWSCancel Encoder writes messageIdentifier serialNumber cancelAll now s in
      (s, out, match r with
               | ErrPWSBroadcastNotFound => HttpError 404
               | CancelEncodeFailed => HttpError 500
               | CancelSent n => PwsAccepted messageIdentifier serialNumber n
               end)
  end.

Definition handleList (s : PwsServer) : PwsResp := PwsListResp (PWSList s).

(** [strconv.ParseUint(s, 10, 16)] *)
Definition parseUint16 (s : bytes) : option Z :=
  match s with
  | [] => None
  | _ => v ← digitsValue 0 s; if v <=? 65535 then Some v else None
  end.
Definition handleStatus (messageId serialNumber : bytes) (s : PwsServer) : PwsResp :=
  match parseUint16 messageId, parseUint16 serialNumber with
  | Some m, Some n => match PWSStatus m n s with Some st => PwsStatusResp st | None => HttpError 404 end
  | _, _ => HttpError 400
  end.
End Management.
