(* ===== verification/AmfPwsSpec.v ===== *)
(** * Public warnings: texts and status

    The text of a warning survives its pages, and the status of a broadcast is what
    the gNBs have answered since it was sent. *)
From S2P Require Import Prelude NasReader NasIE GoText GoUtf8 Gsm7 NasNetworkName AmfN2 AmfPws.
Open Scope Z_scope.

(** ** What was written is read back *)

Lemma pageOf_split content :
  (length content <= cbsPageContentLength)%nat →
  ∃ pad, pageOf content = content ++ pad ++ [Z.of_nat (length content)] ∧ length (content ++ pad) = cbsPageContentLength.
Proof.
  intros Hl. exists (replicate (cbsPageContentLength - length content) 0). unfold pageOf, go_copy, cbsPageContentLength in *.
  rewrite length_replicate, take_ge, drop_replicate by lia. rewrite <- (assoc_L (++)), Nat.min_r by done. split.
  - by rewrite u8_small by (unfold is_u8; lia).
  - rewrite length_app, length_replicate. lia.
Qed.

Lemma walk_pages {A} (f : nat → bytes → list A) contents i :
  Forall (λ c : bytes, length c <= cbsPageContentLength)%nat contents →
  walkPages f i (length contents) (concat (pageOf <$> contents)) = concat (imap (λ j c, f (i + j)%nat c) contents).
Proof.
  intros H. revert i. induction H as [|c contents Hc _ IH]; intros i; [done|]. cbn [length fmap list_fmap concat imap walkPages].
  destruct (pageOf_split c Hc) as (pad & E & Hlen). rewrite E. set (rest := concat (pageOf <$> contents)).
  replace ((c ++ pad ++ [Z.of_nat (length c)]) ++ rest) with ((c ++ pad) ++ Z.of_nat (length c) :: rest) by by rewrite <- !(assoc_L (++)).
  rewrite length_app, Hlen. cbn [length]. destruct (Nat.ltb_spec (cbsPageContentLength + S (length rest)) (cbsPageContentLength + 1)) as [|_]; [lia|].
  assert (at0 ((c ++ pad) ++ Z.of_nat (length c) :: rest) cbsPageContentLength = Z.of_nat (length c)) as ->.
  { unfold at0. rewrite lookup_app_r by lia. by rewrite Hlen, Nat.sub_diag. }
  rewrite Nat2Z.id, (Nat.min_r _ _ Hc), <- (assoc_L (++)), take_app_length, (assoc_L (++)).
  replace (drop (cbsPageContentLength + 1) ((c ++ pad) ++ Z.of_nat (length c) :: rest)) with rest.
  - rewrite IH, Nat.add_0_r. f_equal. f_equal. apply imap_ext. intros j x _. cbn. f_equal. lia.
  - rewrite drop_app_ge by lia. rewrite Hlen. by replace (cbsPageContentLength + 1 - cbsPageContentLength)%nat with 1%nat by lia.
Qed.

Lemma concat_imap_const {A B} (f : A → list B) l : concat (imap (λ _ x, f x) l) = concat (f <$> l).
Proof. by rewrite <- (imap_const f). Qed.

Lemma decode_pages {A} (f : nat → bytes → list A) contents :
  Forall (λ c : bytes, length c <= cbsPageContentLength)%nat contents → (length contents < 256)%nat →
  decodePages f (u8 (Z.of_nat (length contents)) :: concat (pageOf <$> contents)) = concat (imap f contents).
Proof. intros Hc Hl. unfold decodePages. rewrite u8_small, Nat2Z.id by (unfold is_u8; lia). by apply walk_pages. Qed.

Lemma chunks_cons {A} (l : list A) size k :
  chunkAt l size <$> seq 0 (S k) = take size l :: (chunkAt (drop size l) size <$> seq 0 k).
Proof.
  cbn [seq fmap list_fmap]. f_equal. rewrite <- fmap_S_seq, <- list_fmap_compose. apply list_fmap_ext.
  intros i x _. cbn. unfold chunkAt. rewrite drop_drop. f_equal.
Qed.

Lemma chunks_concat {A} (l : list A) size k : (length l <= k * size)%nat → concat (chunkAt l size <$> seq 0 k) = l.
Proof.
  revert l. induction k as [|k IH]; intros l Hl; [by destruct l; [|cbn in Hl; lia]|]. rewrite chunks_cons. cbn [concat].
  rewrite IH, take_drop; [done|]. rewrite length_drop. lia.
Qed.

Lemma pageCount_spec n size m :
  (0 < size)%nat → (n <= m * size)%nat → (0 < m)%nat →
  (n <= pageCount n size * size)%nat ∧ (pageCount n size <= m)%nat ∧ ((pageCount n size - 1) * size <= n)%nat ∧ (0 < pageCount n size)%nat.
Proof.
  intros Hs Hn Hm. unfold pageCount. pose proof (Nat.div_mod_eq (n + size - 1) size) as E.
  pose proof (Nat.mod_upper_bound (n + size - 1) size ltac:(lia)). set (q := ((n + size - 1) / size)%nat) in *.
  assert (q <= m)%nat by nia. destruct q as [|q]; cbn [Nat.sub Nat.mul]; nia.
Qed.

Lemma chunk_length {A} (l : list A) size i : (length (chunkAt l size i) <= size)%nat.
Proof. unfold chunkAt. rewrite length_take. lia. Qed.

Lemma decode8_encode8 text : (length text <= 1230)%nat → decode8BitPages (encode8BitPages text) = text.
Proof.
  intros Hl. unfold encode8BitPages, decode8BitPages. rewrite take_ge by (unfold cbsPageContentLength, cbsMaxPages; lia).
  destruct (pageCount_spec (length text) cbsPageContentLength cbsMaxPages) as (H1 & H2 & _); [unfold cbsPageContentLength, cbsMaxPages; lia..|].
  set (k := pageCount (length text) cbsPageContentLength) in *. set (contents := chunkAt text cbsPageContentLength <$> seq 0 k).
  assert (length contents = k) as Hk by (unfold contents; by rewrite length_fmap, length_seq).
  assert ((λ i, pageOf (chunkAt text cbsPageContentLength i)) <$> seq 0 k = pageOf <$> contents) as -> by (unfold contents; by rewrite <- list_fmap_compose).
  rewrite <- Hk at 1. rewrite decode_pages.
  - rewrite (concat_imap_const id), list_fmap_id. by apply chunks_concat.
  - unfold contents. apply Forall_fmap, Forall_forall. intros i _. apply chunk_length.
  - unfold cbsMaxPages in H2. lia.
Qed.

(** *** Septets *)

(** No escape is the last septet of a page. *)
Definition pages_whole (septets : bytes) : Prop :=
  Forall (λ j, (S j mod gsm7MaxSeptetsPerPage)%nat = 0%nat → septets !! j ≠ Some ESC) (seq 0 (length septets)).
#[export] Instance pages_whole_dec septets : Decision (pages_whole septets).
Proof. unfold pages_whole. apply _. Defined.

(** A last page of 7 modulo 8 septets has room for one more, which reads as '@'. *)
Definition page_padding (n : nat) : nat :=
  if (((n - 1) mod gsm7MaxSeptetsPerPage + 1) mod 8 =? 7)%nat then 1%nat else 0%nat.

Definition page_room (k : nat) : nat := if (k mod 8 =? 7)%nat then 1%nat else 0%nat.

Lemma page_count_room k :
  (k <= gsm7MaxSeptetsPerPage)%nat →
  let o := ((k * 7 + 7) / 8)%nat in
  (o <= cbsPageContentLength)%nat ∧ Nat.min gsm7MaxSeptetsPerPage (SeptetCountForOctets o) = (k + page_room k)%nat ∧
  (7 * (k + page_room k) <= 8 * o)%nat.
Proof.
  intros Hk.
  assert (Forall (λ k, let o := ((k * 7 + 7) / 8)%nat in (o <= cbsPageContentLength)%nat ∧
    Nat.min gsm7MaxSeptetsPerPage (SeptetCountForOctets o) = (k + page_room k)%nat ∧ (7 * (k + page_room k) <= 8 * o)%nat)
    (seq 0 (S gsm7MaxSeptetsPerPage))) as H by (cbv zeta; apply (bool_decide_unpack _); vm_compute; exact I).
  rewrite Forall_forall in H. apply (H k), elem_of_seq. lia.
Qed.

(** One page of characters. *)
Lemma gsm7_page l :
  Forall in_alphabet l → (length (l ≫= encodeChar) <= gsm7MaxSeptetsPerPage)%nat →
  ∃ packed, PackSeptets (l ≫= encodeChar) = Ok packed ∧ (length packed <= cbsPageContentLength)%nat ∧
    DecodeSeptets (UnpackSeptets packed (Nat.min gsm7MaxSeptetsPerPage (SeptetCountForOctets (length packed)))) =
      utf8 l ++ replicate (page_room (length (l ≫= encodeChar))) 64.
Proof.
  intros Hl Hk. set (k := length (l ≫= encodeChar)) in *. destruct (page_count_room k Hk) as (Ho & Hc & H7).
  destruct (pack_unpack (l ≫= encodeChar) (k + page_room k) (encodeChars_septets l Hl)) as (packed & E & _ & Hlen & Hu).
  exists packed. fold k in Hlen, Hu. split; [done|]. rewrite Hlen. split; [done|]. rewrite Hc, Hu by (rewrite ?Hlen; lia).
  unfold DecodeSeptets. rewrite decode_encodeChars by done. rewrite utf8_app. f_equal.
  replace (k + page_room k - k)%nat with (page_room k) by lia. unfold page_room. by destruct (k mod 8 =? 7)%nat.
Qed.

Lemma pages_whole_drop septets : pages_whole septets → pages_whole (drop gsm7MaxSeptetsPerPage septets).
Proof.
  unfold pages_whole. rewrite !Forall_forall. intros H j Hj%elem_of_seq Hm. rewrite length_drop in Hj. rewrite lookup_drop.
  apply H; [apply elem_of_seq; lia|]. replace (S (gsm7MaxSeptetsPerPage + j)) with (S j + 1 * gsm7MaxSeptetsPerPage)%nat by lia.
  by rewrite Nat.Div0.mod_add.
Qed.

(** The pages of characters, all but the last of them full. *)
Lemma gsm7_pages k l :
  let septets := l ≫= encodeChar in
  Forall in_alphabet l → pages_whole septets → (length septets <= S k * gsm7MaxSeptetsPerPage)%nat → (k * gsm7MaxSeptetsPerPage <= length septets)%nat →
  ∃ contents, mapM (λ i, PackSeptets (chunkAt septets gsm7MaxSeptetsPerPage i)) (seq 0 (S k)) = Ok contents ∧
    length contents = S k ∧ Forall (λ c : bytes, length c <= cbsPageContentLength)%nat contents ∧
    concat ((λ content, DecodeSeptets (UnpackSeptets content (Nat.min gsm7MaxSeptetsPerPage (SeptetCountForOctets (length content))))) <$> contents) =
      utf8 l ++ replicate (page_room (length septets - k * gsm7MaxSeptetsPerPage)) 64.
Proof.
  assert (∀ f (l' : list nat), mapM (λ i, PackSeptets (f i)) l' = mapM PackSeptets (f <$> l')) as Hmap.
  { intros f l'. induction l' as [|x l' IH]; [done|]. cbn. by rewrite IH. }
  cbn zeta. revert l. induction k as [|k IH]; intros l Hl Hw Hle Hge; rewrite Hmap, chunks_cons.
  - rewrite take_ge by lia. destruct (gsm7_page l Hl) as (packed & E & Ho & Hd); [lia|].
    exists [packed]. cbn [seq fmap list_fmap mapM]. rewrite E. cbn [mbind res_bind mret]. split; [done|]. split; [done|]. split; [by apply Forall_singleton|].
    cbn [fmap list_fmap concat]. by rewrite app_nil_r, Hd, Nat.mul_0_l, Nat.sub_0_r.
  - set (septets := l ≫= encodeChar) in *. set (c := gsm7MaxSeptetsPerPage) in *.
    destruct (encodeChars_cut l c Hl) as (l1 & l2 & El & E1 & E2); [|fold septets in E1, E2].
    { intros i Hi. fold septets. destruct (decide (i < length septets)%nat) as [Hlt|]; [|by rewrite lookup_ge_None_2 by lia].
      unfold pages_whole in Hw. rewrite Forall_forall in Hw. apply Hw; [apply elem_of_seq; lia|]. rewrite Hi. apply Nat.Div0.mod_same. }
    clearbody septets. rewrite El in Hl. apply Forall_app in Hl as [Hl1 Hl2].
    assert (length (l1 ≫= encodeChar) = c) as Hc by (rewrite E1, length_take; lia).
    destruct (gsm7_page l1 Hl1) as (packed & Ep & Ho & Hd); [fold c; lia|].
    destruct (IH l2) as (contents & Ec & Hlen & Hall & Hdec); [done|rewrite E2; by apply pages_whole_drop|rewrite E2, length_drop; lia..|].
    exists (packed :: contents). rewrite <- E1, <- E2. rewrite Hmap in Ec. cbn [mapM]. rewrite Ep. cbn [mbind res_bind]. rewrite Ec. cbn [mbind res_bind mret].
    split; [done|]. split; [cbn; by rewrite Hlen|]. split; [by constructor|]. cbn [fmap list_fmap concat]. fold c in Hd. rewrite Hdec, Hd, Hc, El, utf8_app.
    change (page_room c) with 0%nat. rewrite app_nil_r, <- (assoc_L (++)). do 3 f_equal. rewrite E2, length_drop. f_equal. lia.
Qed.

Lemma decodeGSM7_encodeGSM7 l :
  Forall in_alphabet l → pages_whole (EncodeText (utf8 l)) → (length (EncodeText (utf8 l)) <= 1395)%nat →
  ∃ wire, encodeGSM7Pages (utf8 l) = Ok wire ∧
    decodeGSM7Pages wire = utf8 l ++ replicate (page_padding (length (EncodeText (utf8 l)))) 64.
Proof.
  intros Hl. rewrite EncodeText_runes by (eapply Forall_impl; [exact Hl|apply in_alphabet_scalar]). set (septets := l ≫= encodeChar).
  intros Hw Hn. unfold encodeGSM7Pages. rewrite EncodeText_runes by (eapply Forall_impl; [exact Hl|apply in_alphabet_scalar]). fold septets.
  rewrite take_ge by (unfold gsm7MaxSeptetsPerPage, cbsMaxPages; lia).
  destruct (pageCount_spec (length septets) gsm7MaxSeptetsPerPage cbsMaxPages) as (H1 & H2 & H3 & H4); [unfold gsm7MaxSeptetsPerPage, cbsMaxPages; lia..|].
  destruct (pageCount (length septets) gsm7MaxSeptetsPerPage) as [|k] eqn:Ek; [lia|]. replace (S k - 1)%nat with k in H3 by lia.
  destruct (gsm7_pages k l Hl Hw) as (contents & Ec & Hlen & Hall & Hdec); [done..|]. fold septets in Ec, Hdec. rewrite Ec. cbn [mbind res_bind].
  eexists. split; [reflexivity|]. unfold decodeGSM7Pages. rewrite <- Hlen. rewrite decode_pages; [|done|unfold cbsMaxPages in H2; lia].
  rewrite (concat_imap_const (λ content, DecodeSeptets _)), Hdec. do 2 f_equal. unfold page_room, page_padding.
  destruct (decide (septets = [])) as [->|Hne].
  { cbn [length] in *. assert (k = 0%nat) as -> by (unfold gsm7MaxSeptetsPerPage in H3; lia). done. }
  assert (0 < length septets)%nat by (destruct septets; [done|cbn; lia]). assert (length septets - 1 < S k * gsm7MaxSeptetsPerPage)%nat by lia.
  assert (k * gsm7MaxSeptetsPerPage < length septets)%nat as Hlt.
  { unfold pageCount in Ek. destruct ((length septets + gsm7MaxSeptetsPerPage - 1) / gsm7MaxSeptetsPerPage)%nat as [|q] eqn:Eq.
    - injection Ek as <-. lia.
    - injection Ek as <-. pose proof (Nat.Div0.mul_div_le (length septets + gsm7MaxSeptetsPerPage - 1) gsm7MaxSeptetsPerPage) as Hm.
      rewrite Eq in Hm. unfold gsm7MaxSeptetsPerPage in *. lia. }
  rewrite <- (Nat.mod_unique (length septets - 1) gsm7MaxSeptetsPerPage k (length septets - 1 - k * gsm7MaxSeptetsPerPage)) by lia.
  replace (length septets - 1 - k * gsm7MaxSeptetsPerPage + 1)%nat with (length septets - k * gsm7MaxSeptetsPerPage)%nat by lia. done.
Qed.

(** *** UCS2 *)

(** A character of the basic multilingual plane. *)
Definition is_bmp (r : Z) : Prop := is_scalar_value r ∧ r < 0x10000.
#[export] Instance is_bmp_dec r : Decision (is_bmp r).
Proof. unfold is_bmp. apply _. Defined.

Lemma ucs2_read l rest : Forall is_bmp l → ucs2Runes ((l ≫= ucs2) ++ rest) = l ++ ucs2Runes rest.
Proof.
  induction 1 as [|r l [Hs Hr] _ IH]; [done|]. rewrite bind_cons. cbn [app ucs2 ucs2Runes]. rewrite IH. f_equal.
  apply be16_split. unfold is_u16, is_scalar_value in *. lia.
Qed.

Lemma ucs2_length l : length (l ≫= ucs2) = (2 * length l)%nat.
Proof. induction l as [|r l IH]; [done|]. rewrite bind_cons, length_app, IH. cbn. lia. Qed.

(** The chunks are the text when it fits in the pages. *)
Lemma ucs2Chunks_spec pages first cap l :
  (0 < cap <= ucs2MaxCharsPerPage)%nat → (0 < pages)%nat → (first = false → l ≠ []) →
  (length l <= (if first then cap else ucs2MaxCharsPerPage) + (pages - 1) * ucs2MaxCharsPerPage)%nat →
  let cs := ucs2Chunks pages first cap l in
  concat cs = l ∧ (length cs <= pages)%nat ∧ Forall (λ c : list Z, length c <= ucs2MaxCharsPerPage)%nat cs ∧
  ∃ c0 rest, cs = c0 :: rest ∧ (length c0 <= if first then cap else ucs2MaxCharsPerPage)%nat.
Proof.
  cbn zeta. revert first cap l. induction pages as [|pages IH]; intros first cap l Hcap Hp Hne Hl; [lia|].
  assert (ucs2Chunks (S pages) first cap l = let c := if first then cap else ucs2MaxCharsPerPage in take c l :: ucs2Chunks pages false c (drop c l)) as ->.
  { destruct l as [|x l], first; try done. by destruct (Hne eq_refl). }
  cbn zeta. set (c := if first then cap else ucs2MaxCharsPerPage) in *.
  assert (0 < c <= ucs2MaxCharsPerPage)%nat as Hc by (unfold c, ucs2MaxCharsPerPage, cbsPageContentLength; destruct first; [done|cbn; lia]).
  destruct (decide (drop c l = [])) as [Ed|Ed].
  - assert (ucs2Chunks pages false c [] = []) as En by (by destruct pages). rewrite Ed, En. cbn [concat length]. rewrite app_nil_r.
    split; [rewrite <- (take_drop c l) at 2; by rewrite Ed, app_nil_r|]. split; [lia|].
    split; [apply Forall_singleton; rewrite length_take; lia|]. eexists _, _. split; [done|]. rewrite length_take. lia.
  - assert (0 < length (drop c l))%nat as Hd by (destruct (drop c l); [done|cbn; lia]). rewrite length_drop in Hd.
    destruct (IH false c (drop c l)) as (H1 & H2 & H3 & _); [done|unfold c in Hd; nia|done|rewrite length_drop; nia|].
    cbn [concat length]. rewrite H1, take_drop. split; [done|]. split; [lia|].
    split; [constructor; [rewrite length_take; lia|done]|]. eexists _, _. split; [done|]. rewrite length_take. lia.
Qed.

Lemma decodeUCS2_encodeUCS2 l prefix :
  Forall is_bmp l → length prefix ∈ [0; 2]%nat → (2 * length l + length prefix <= 1230)%nat →
  decodeUCS2Pages (encodeUCS2Pages (utf8 l) prefix) (length prefix) = utf8 l ∧
  take (length prefix) (drop 1 (encodeUCS2Pages (utf8 l) prefix)) = prefix.
Proof.
  intros Hl Hp Hn. unfold encodeUCS2Pages. rewrite runes_utf8 by (eapply Forall_impl; [exact Hl|by intros ? []]).
  set (cap := match prefix with [] => ucs2MaxCharsPerPage | _ => _ end).
  assert (2 * cap + length prefix = cbsPageContentLength ∧ (0 < cap <= ucs2MaxCharsPerPage))%nat as [Hcap Hcap'].
  { unfold cap. apply elem_of_cons in Hp as [Hp|Hp%list_elem_of_singleton]; destruct prefix as [|x [|y [|]]]; try discriminate;
      apply (bool_decide_unpack _); vm_compute; exact I. }
  destruct (ucs2Chunks_spec cbsMaxPages true cap l) as (H1 & H2 & H3 & c0 & rest & E & H0); [done|unfold cbsMaxPages; lia|done| |].
  { unfold cbsMaxPages, ucs2MaxCharsPerPage, cbsPageContentLength in *. cbn. lia. }
  cbn zeta in *. set (cs := ucs2Chunks _ _ _ _) in *. clearbody cs. subst cs. cbn [imap].
  set (contents := (prefix ++ (c0 ≫= ucs2)) :: ((λ page, page ≫= ucs2) <$> rest)).
  assert (pageOf <$> contents = pageOf ((if (0 =? 0)%nat then prefix else []) ++ (c0 ≫= ucs2)) ::
    imap ((λ (i : nat) page, pageOf ((if (i =? 0)%nat then prefix else []) ++ (page ≫= ucs2))) ∘ S) rest) as <-.
  { unfold contents. cbn [fmap list_fmap Nat.eqb]. f_equal. rewrite <- list_fmap_compose, <- imap_const. apply imap_ext. done. }
  assert (length contents = length (c0 :: rest)) as <- by (unfold contents; cbn; by rewrite length_fmap).
  assert (Forall (λ c : bytes, length c <= cbsPageContentLength)%nat contents) as Hall.
  { apply Forall_cons in H3 as [_ H3]. unfold contents. constructor.
    - rewrite length_app, ucs2_length. lia.
    - apply Forall_fmap. eapply Forall_impl; [exact H3|]. intros c Hc. cbn. rewrite ucs2_length. unfold ucs2MaxCharsPerPage, cbsPageContentLength in *. cbn in Hc. lia. }
  split.
  - unfold decodeUCS2Pages. f_equal. rewrite decode_pages; [|done|].
    + unfold contents. cbn [imap concat Nat.eqb]. rewrite drop_app_length. subst l. cbn [concat] in *. apply Forall_app in Hl as [Hl0 Hlr].
      rewrite <- (app_nil_r (c0 ≫= ucs2)), ucs2_read by done. cbn [ucs2Runes]. rewrite app_nil_r. f_equal.
      rewrite (imap_ext _ (λ _, ucs2Runes)) by done. rewrite (concat_imap_const ucs2Runes), <- list_fmap_compose. clear -Hlr.
      induction rest as [|c rest IH]; [done|]. cbn [concat fmap list_fmap] in *. apply Forall_app in Hlr as [Hc Hr]. rewrite IH by done.
      f_equal. cbn. rewrite <- (app_nil_r (c ≫= ucs2)), ucs2_read by done. apply app_nil_r.
    + unfold contents. cbn [length]. rewrite length_fmap. unfold cbsMaxPages in H2. cbn [length] in H2. lia.
  - cbn [drop]. unfold contents. cbn [fmap list_fmap concat]. apply Forall_cons in Hall as [Hc _].
    destruct (pageOf_split _ Hc) as (pad & -> & _). rewrite <- 2!(assoc_L (++) prefix). by rewrite drop_0, take_app_length.
Qed.


(** *** The warning *)

(** The texts that a coding scheme carries whole. *)
Definition text_fits (dcs : Z) (lang : bytes) (l : list Z) : Prop :=
  match AlphabetFromCBSDCS dcs with
  | Alphabet8Bit => Forall is_scalar_value l ∧ (length (utf8 l) <= 1230)%nat
  | AlphabetUCS2 =>
      Forall is_bmp l ∧
      if dcs =? cbsDCSUcs2WithLanguage then length lang = 2%nat ∧ Forall (λ c, 97 <= c <= 122) lang ∧ (length l <= 614)%nat
      else (length l <= 615)%nat
  | AlphabetGSM7 => Forall in_alphabet l ∧ pages_whole (EncodeText (utf8 l)) ∧ (length (EncodeText (utf8 l)) <= 1395)%nat
  end.
#[export] Instance text_fits_dec dcs lang l : Decision (text_fits dcs lang l).
Proof. unfold text_fits. destruct (AlphabetFromCBSDCS dcs), (dcs =? cbsDCSUcs2WithLanguage); apply _. Defined.

(** What is displayed of them beside the text. *)
Definition text_padding (dcs : Z) (l : list Z) : bytes :=
  match AlphabetFromCBSDCS dcs with
  | AlphabetGSM7 => replicate (page_padding (length (EncodeText (utf8 l)))) 64
  | _ => []
  end.

Lemma letters_basic : Forall (λ c, is_Some (basicRuneToSeptet !! c)) (Z.of_nat <$> seq 97 26).
Proof. apply (bool_decide_unpack _). vm_compute. exact I. Qed.

(** The two letters of a language are two octets, from which they are read. *)
Lemma language_prefix lang :
  length lang = 2%nat → Forall (λ c, 97 <= c <= 122) lang →
  ∃ prefix, EncodeUCS2LanguagePrefix lang = Ok prefix ∧ length prefix = 2%nat ∧ DecodeUCS2LanguagePrefix prefix = lang.
Proof.
  intros Hl Hc. unfold EncodeUCS2LanguagePrefix. rewrite Hl, app_nil_r, take_ge by lia.
  assert (Forall in_alphabet lang ∧ ∀ c, c ∈ lang → ∃ s, encodeChar c = [s]) as [Ha Hs].
  { assert (∀ c, c ∈ lang → is_Some (basicRuneToSeptet !! c)) as Hb.
    { intros c Hin. rewrite Forall_forall in Hc. specialize (Hc c Hin). pose proof letters_basic as Hb. rewrite Forall_forall in Hb.
      apply Hb, list_elem_of_fmap. exists (Z.to_nat c). rewrite Z2Nat.id by lia. split; [done|]. apply elem_of_seq. lia. }
    split; [apply Forall_forall; intros c Hin; left; by apply Hb|]. intros c Hin. destruct (Hb c Hin) as [s E]. exists s. unfold encodeChar. by rewrite E. }
  assert (utf8 lang = lang) as Hu8 by (apply utf8_ascii; eapply Forall_impl; [exact Hc|]; cbn; lia).
  assert (EncodeText lang = lang ≫= encodeChar) as ->.
  { rewrite <- Hu8 at 1. apply EncodeText_runes. eapply Forall_impl; [exact Ha|apply in_alphabet_scalar]. }
  assert (length (lang ≫= encodeChar) = 2%nat) as Hlen.
  { destruct lang as [|a [|b [|]]]; try discriminate. destruct (Hs a) as [x Ex]; [left|]. destruct (Hs b) as [y Ey]; [right; left|].
    cbn. by rewrite Ex, Ey. }
  destruct (pack_unpack (lang ≫= encodeChar) 2 (encodeChars_septets _ Ha)) as (packed & -> & _ & Hp & Hu). rewrite Hlen in Hp, Hu. cbn in Hp.
  exists packed. split; [done|]. split; [done|]. unfold DecodeUCS2LanguagePrefix. rewrite Hp. cbn [Nat.ltb Nat.leb]. rewrite take_ge by lia.
  rewrite Hu by (rewrite ?Hp; lia). unfold DecodeSeptets. by rewrite decode_encodeChars, app_nil_r by done.
Qed.

(** C16: the text of a warning survives its pages.  For every data coding scheme, a text
    that the scheme can carry in fifteen pages is encoded, and the pages decode to it: with
    octets any text of up to 1230 octets of UTF-8; with UCS2 up to 615 characters of the
    Basic Multilingual Plane, or 614 behind a language of two letters from a to z, which are read
    back as well; with the 7-bit alphabet up to 1395 septets of its characters, where
    no page ends between an escape and its character ([escape_at_page_end]), and one '@'
    is read after the text if its last page has seven more than a multiple of eight septets,
    as the format has it. *)
Theorem warning_text_roundtrip (dcs : Z) (lang : bytes) (l : list Z) :
  text_fits dcs lang l →
  ∃ wire, encodeWarningMessageContentPages dcs lang (utf8 l) = Ok wire ∧
    DecodeWarningMessageContentPages dcs wire = utf8 l ++ text_padding dcs l ∧
    (dcs = cbsDCSUcs2WithLanguage → DecodeUCS2LanguagePrefix (take 2 (drop 1 wire)) = lang).
Proof.
  unfold text_fits, encodeWarningMessageContentPages, DecodeWarningMessageContentPages, text_padding. intros H.
  destruct (AlphabetFromCBSDCS dcs) eqn:Ea.
  - destruct H as (Hl & Hw & Hn). destruct (decodeGSM7_encodeGSM7 l Hl Hw Hn) as (wire & E1 & E2). exists wire. split; [done|]. split; [done|].
    intros ->. vm_compute in Ea. discriminate.
  - destruct H as [Hl Hn]. eexists. split; [reflexivity|]. split; [by rewrite decode8_encode8, app_nil_r|]. intros ->. vm_compute in Ea. discriminate.
  - destruct H as [Hl H]. rewrite app_nil_r. destruct (Z.eqb_spec dcs cbsDCSUcs2WithLanguage) as [->|Hd]; cbn [andb].
    + destruct H as (H2 & Hc & Hn). rewrite bool_decide_eq_false_2 by (by intros ->). cbn [negb].
      destruct (language_prefix lang H2 Hc) as (prefix & -> & Hp & Hlang). cbn [mbind res_bind]. eexists. split; [reflexivity|].
      destruct (decodeUCS2_encodeUCS2 l prefix Hl) as [Hr Hpre]; [rewrite Hp; right; left|lia|]. rewrite Hp in Hr, Hpre.
      split; [exact Hr|]. intros _. by rewrite Hpre.
    + cbn [mbind res_bind]. eexists. split; [reflexivity|]. split; [|done].
      destruct (decodeUCS2_encodeUCS2 l [] Hl) as [Hr _]; [left|cbn; lia|]. exact Hr.
Qed.

(** A warning with characters of the extension table, its schemes by language, by
    octets and in UCS2. *)
Lemma warning_text_roundtrip_witness :
  ∃ l, text_fits 0x01 [] l ∧
  (∃ wire, encodeWarningMessageContentPages 0x01 [] (utf8 l) = Ok wire ∧
    DecodeWarningMessageContentPages 0x01 wire = utf8 l ++ text_padding 0x01 l ∧
    (0x01 = cbsDCSUcs2WithLanguage → DecodeUCS2LanguagePrefix (take 2 (drop 1 wire)) = [])) ∧
  text_padding 0x01 l = [64] ∧ text_fits 0x44 [] l ∧ text_fits 0x11 (str "en") l.
Proof.
  exists (str "Flood {A}: " ++ [0x20AC]).
  assert (text_fits 0x01 [] (str "Flood {A}: " ++ [0x20AC])) as H by (apply (bool_decide_unpack _); vm_compute; exact I).
  split; [exact H|]. split; [exact (warning_text_roundtrip 0x01 [] _ H)|]. split; [vm_compute; reflexivity|].
  split; apply (bool_decide_unpack _); vm_compute; exact I.
Defined.

(** ** Where the text is not read back *)

(** An escape that is the last septet of a page is read as a space, and the
    character after it as one of the basic table. *)
Lemma escape_at_page_end :
  let l := replicate 92 97 ++ [123] in
  ∃ wire, encodeWarningMessageContentPages 0x0F [] (utf8 l) = Ok wire ∧
    DecodeWarningMessageContentPages 0x0F wire = replicate 92 97 ++ [32; 40].
Proof. eexists. split; [vm_compute; reflexivity|]. vm_compute. reflexivity. Qed.

(** Without a language the encoder writes no prefix, but the decoder skips one. *)
Lemma missing_language_cuts :
  ∃ wire, encodeWarningMessageContentPages 0x11 [] (str "Tsunami") = Ok wire ∧ DecodeWarningMessageContentPages 0x11 wire = str "sunami".
Proof. eexists. split; [vm_compute; reflexivity|]. vm_compute. reflexivity. Qed.

(** A character outside the basic multilingual plane loses its upper bits. *)
Lemma astral_character_cut :
  ∃ wire, encodeWarningMessageContentPages 0x48 [] (utf8 [0x1F30A]) = Ok wire ∧ DecodeWarningMessageContentPages 0x48 wire = utf8 [0xF30A].
Proof. eexists. split; [vm_compute; reflexivity|]. vm_compute. reflexivity. Qed.

(** ** What the status of a broadcast says

    The steps of the registry: a broadcast that was recorded for the gNBs of a
    snapshot, a cancellation, the answers of gNBs, and the loss of one. *)

Inductive pws_event :=
| ERecord (p : WriteReplaceWarningParams) (gs : list (bytes * bytes)) (now : Z)
| ECancel (k : PWSKey) (now : Z)
| EResponse (addr name : bytes) (resp : ResponseMsg)
| ECancelResponse (addr name : bytes) (resp : ResponseMsg)
| ELost (addr : bytes).

Definition pws_step (s : PwsServer) (e : pws_event) : PwsServer :=
  match e with
  | ERecord p gs now => recordBroadcast p gs now s
  | ECancel k now => markCancelled k now s
  | EResponse addr name resp => handleWriteReplaceWarningResponse addr name resp s
  | ECancelResponse addr name resp => handlePWSCancelResponse addr name resp s
  | ELost addr => markPWSGNBFailed addr s
  end.

(** The last broadcast of a key, and the events since then. *)
Record Since := mkSince { si_params : WriteReplaceWarningParams; si_gnbs : list (bytes * bytes); si_now : Z; si_events : list pws_event }.
Definition since_step (k : PWSKey) (acc : option Since) (e : pws_event) : option Since :=
  match e with
  | ERecord p gs now => if bool_decide (paramsKey p = k) then Some (mkSince p gs now []) else acc
  | _ => (λ x, mkSince (si_params x) (si_gnbs x) (si_now x) (si_events x ++ [e])) <$> acc
  end.
Definition since (k : PWSKey) (evs : list pws_event) : option Since := foldl (since_step k) None evs.

(** The events that concern a gNB and a key. *)
Definition answer_of (k : PWSKey) (addr : bytes) (e : pws_event) : bool :=
  match e with
  | EResponse a _ r | ECancelResponse a _ r => bool_decide (a = addr) && bool_decide (responseKey r = k)
  | _ => false
  end.
Definition is_response (e : pws_event) : bool := match e with EResponse _ _ _ => true | _ => false end.
Definition is_cancel_response (e : pws_event) : bool := match e with ECancelResponse _ _ _ => true | _ => false end.
Definition lost_of (addr : bytes) (e : pws_event) : bool := match e with ELost a => bool_decide (a = addr) | _ => false end.
Definition cancels (k : PWSKey) (e : pws_event) : bool := match e with ECancel k' _ => bool_decide (k' = k) | _ => false end.
Definition answer_name (e : pws_event) : bytes := match e with EResponse _ n _ | ECancelResponse _ n _ => n | _ => [] end.
Definition answer_areas (e : pws_event) : list PWSArea := match e with EResponse _ _ r | ECancelResponse _ _ r => Areas r | _ => [] end.

Definition answers (k : PWSKey) (addr : bytes) (es : list pws_event) : list pws_event := filter (λ e, answer_of k addr e = true) es.

(** What is to be said of a gNB. *)
Definition expected (k : PWSKey) (gs : list (bytes * bytes)) (es : list pws_event) (addr : bytes) : option PWSGNBStatus :=
  let rs := answers k addr es in
  let target := (list_to_map gs : gmap bytes bytes) !! addr in
  match (match target with Some n => Some n | None => answer_name <$> head rs end) with
  | None => None
  | Some name =>
      Some (mkGNBStatus addr name (existsb is_response rs) (existsb is_cancel_response rs)
        (match target, head (filter (λ e, answer_of k addr e || lost_of addr e = true) es) with Some _, Some (ELost _) => true | _, _ => false end)
        (default [] (answer_areas <$> last rs)))
  end.

Definition matches (k : PWSKey) (b : PWSBroadcast) (x : Since) : Prop :=
  Key b = k ∧ Params b = si_params x ∧ CreatedAt b = si_now x ∧ GNBsTargeted b = length (si_gnbs x) ∧
  (match CancelledAt b with Some _ => true | None => false end) = existsb (cancels k) (si_events x) ∧
  ∀ addr, PerGNB b !! addr = expected k (si_gnbs x) (si_events x) addr.

Lemma fresh_lookup (gs : list (bytes * bytes)) addr :
  NoDup gs.*1 →
  foldl (λ m g, <[g.1 := freshStatus g.1 g.2]> m) (∅ : gmap bytes PWSGNBStatus) gs !! addr =
    freshStatus addr <$> (list_to_map gs : gmap bytes bytes) !! addr.
Proof.
  intros Hn. assert (∀ m : gmap bytes PWSGNBStatus, foldl (λ m g, <[g.1 := freshStatus g.1 g.2]> m) m gs !! addr =
    match (list_to_map gs : gmap bytes bytes) !! addr with Some n => Some (freshStatus addr n) | None => m !! addr end) as H.
  { induction gs as [|[a n] gs IH]; intros m; [by rewrite list_to_map_nil, lookup_empty|]. cbn [foldl fst snd]. apply NoDup_cons in Hn as [Hni Hn].
    rewrite IH by done. rewrite list_to_map_cons. destruct (decide (addr = a)) as [->|].
    - rewrite !lookup_insert_eq. by rewrite (not_elem_of_list_to_map_1 gs a Hni).
    - by rewrite !lookup_insert_ne. }
  rewrite H, lookup_empty. by destruct (_ !! addr).
Qed.

Lemma answers_snoc k addr es e : answers k addr (es ++ [e]) = answers k addr es ++ (if answer_of k addr e then [e] else []).
Proof. unfold answers. rewrite filter_app. f_equal. cbn. by destruct (answer_of k addr e). Qed.

(** An event of another gNB or key changes nothing. *)
Lemma expected_other k gs es e addr :
  answer_of k addr e = false → lost_of addr e = false → expected k gs (es ++ [e]) addr = expected k gs es addr.
Proof. intros H1 H2. unfold expected. rewrite answers_snoc, H1, app_nil_r, filter_app. cbn. by rewrite H1, H2, app_nil_r. Qed.

(** An answer of the gNB itself. *)
Lemma expected_answer k gs es e addr f :
  answer_of k addr e = true →
  (∀ st, f st = mkGNBStatus (GNBAddr st) (GNBName st) (Completed st || is_response e) (Cancelled st || is_cancel_response e) (Failed st) (answer_areas e)) →
  expected k gs (es ++ [e]) addr = Some (f (default (freshStatus addr (answer_name e)) (expected k gs es addr))).
Proof.
  intros He Hf. assert (lost_of addr e = false) as Hl by (by destruct e). unfold expected. rewrite answers_snoc, He, filter_app.
  rewrite !existsb_app, last_snoc. cbn [existsb]. rewrite !orb_false_r.
  set (rs := answers k addr es). set (target := list_to_map gs !! addr). set (fs := filter _ es).
  assert (filter (λ e0, answer_of k addr e0 || lost_of addr e0 = true) [e] = [e]) as -> by (cbn; by rewrite He).
  assert ((match target, head (fs ++ [e]) with Some _, Some (ELost _) => true | _, _ => false end) =
    (match target, head fs with Some _, Some (ELost _) => true | _, _ => false end)) as ->.
  { destruct target; [|done]. destruct fs as [|e0 fs]; [|done]. by destruct e. }
  destruct target as [n|] eqn:Et.
  - by rewrite Hf.
  - destruct rs as [|r rs'] eqn:Er; cbn [app head fmap option_fmap option_map default].
    + by rewrite Hf.
    + by rewrite Hf.
Qed.

(** Who has answered has completed or cancelled. *)
Lemma answers_flags k addr es :
  answers k addr es ≠ [] → existsb is_response (answers k addr es) || existsb is_cancel_response (answers k addr es) = true.
Proof.
  unfold answers. destruct (filter _ es) as [|r rs] eqn:E; [done|]. intros _.
  assert (r ∈ filter (λ e, answer_of k addr e = true) es) as [Hr _]%list_elem_of_filter by (rewrite E; left).
  destruct r; cbn in Hr |- *; try done. apply orb_true_r.
Qed.

(** The loss of the gNB itself. *)
Lemma expected_lost k gs es addr :
  expected k gs (es ++ [ELost addr]) addr =
    (λ st, if negb (Completed st) && negb (Cancelled st)
           then mkGNBStatus (GNBAddr st) (GNBName st) (Completed st) (Cancelled st) true (g_Areas st) else st) <$> expected k gs es addr.
Proof.
  unfold expected. rewrite answers_snoc. cbn [answer_of]. rewrite app_nil_r, filter_app. set (rs := answers k addr es).
  assert (filter (λ e, answer_of k addr e || lost_of addr e = true) [ELost addr] = [ELost addr]) as ->.
  { cbn. by rewrite bool_decide_eq_true_2. }
  assert (∀ b, negb (existsb is_response rs) && negb (existsb is_cancel_response rs) = b → b = bool_decide (rs = [])) as Hflags.
  { intros b <-. destruct (decide (rs = [])) as [Hr|Hr]; [by rewrite Hr|]. rewrite bool_decide_eq_false_2 by done.
    pose proof (answers_flags k addr es Hr) as H. fold rs in H. by destruct (existsb is_response rs), (existsb is_cancel_response rs). }
  set (fs := filter _ es). destruct (list_to_map gs !! addr) as [n|] eqn:Et.
  - cbn [fmap option_fmap option_map Completed Cancelled]. rewrite (Hflags _ eq_refl). f_equal. destruct fs as [|e0 fs'] eqn:Ef.
    + assert (rs = []) as ->; [|done]. destruct rs as [|r rs'] eqn:Er; [done|].
      assert (r ∈ rs) as [Hr Hin]%list_elem_of_filter by (rewrite Er; left).
      assert (r ∈ fs) as Hf by (apply list_elem_of_filter; split; [by rewrite Hr|done]). rewrite Ef in Hf. by apply not_elem_of_nil in Hf.
    + assert (e0 ∈ fs) as [He0 Hin]%list_elem_of_filter by (rewrite Ef; left). case_bool_decide as Hr; [|done].
      destruct e0; try done; exfalso; cbn in He0; rewrite orb_false_r in He0.
      all: match type of Hin with ?e ∈ _ => assert (e ∈ rs) as Hx by (apply list_elem_of_filter; done) end; rewrite Hr in Hx; by apply not_elem_of_nil in Hx.
  - destruct (head rs) as [r|] eqn:Er; [|done]. cbn [fmap option_fmap option_map Completed Cancelled]. rewrite (Hflags _ eq_refl).
    rewrite bool_decide_eq_false_2 by (by intros Hr; rewrite Hr in Er). done.
Qed.

Definition event_ok (e : pws_event) : Prop := match e with ERecord _ gs _ => NoDup gs.*1 | _ => True end.
#[export] Instance event_ok_dec e : Decision (event_ok e).
Proof. destruct e; apply _. Defined.

Definition tracked (k : PWSKey) (s : PwsServer) (x : option Since) : Prop :=
  match x, pws s !! k with
  | Some x, Some b => matches k b x
  | None, None => True
  | _, _ => False
  end.

Lemma answer_step k b x e addr name resp f :
  matches k b x → responseKey resp = k → e = EResponse addr name resp ∨ e = ECancelResponse addr name resp →
  (∀ st, f st = mkGNBStatus (GNBAddr st) (GNBName st) (Completed st || is_response e) (Cancelled st || is_cancel_response e) (Failed st) (answer_areas e)) →
  matches k (onStatus addr name f b) (mkSince (si_params x) (si_gnbs x) (si_now x) (si_events x ++ [e])).
Proof.
  intros (H1 & H2 & H3 & H4 & H5 & H6) Hk He Hf. repeat split; [done..| |].
  - cbn [si_events CancelledAt onStatus with_PerGNB]. rewrite existsb_app, H5. cbn. destruct He as [-> | ->]; by rewrite orb_false_r.
  - intros a. cbn [si_events si_gnbs PerGNB onStatus with_PerGNB]. destruct (decide (a = addr)) as [->|Hne].
    + rewrite lookup_insert_eq, H6. assert (answer_name e = name) as <- by (by destruct He as [-> | ->]). symmetry. apply expected_answer; [|done].
      destruct He as [-> | ->]; cbn; by rewrite !bool_decide_eq_true_2.
    + rewrite lookup_insert_ne, H6 by done. symmetry. apply expected_other; destruct He as [-> | ->]; cbn; try done; by rewrite bool_decide_eq_false_2.
Qed.

(** An event that does not touch the broadcast. *)
Lemma matches_other k b x e :
  matches k b x → cancels k e = false → (∀ addr, answer_of k addr e = false ∧ lost_of addr e = false) →
  matches k b (mkSince (si_params x) (si_gnbs x) (si_now x) (si_events x ++ [e])).
Proof.
  intros (H1 & H2 & H3 & H4 & H5 & H6) Hc He. repeat split; [done..| |].
  - cbn [si_events]. rewrite existsb_app, H5. cbn. by rewrite Hc, !orb_false_r.
  - intros a. cbn [si_events si_gnbs]. destruct (He a). by rewrite H6, expected_other.
Qed.

Lemma tracked_step k s x e : event_ok e → tracked k s x → tracked k (pws_step s e) (since_step k x e).
Proof.
  intros Hok. unfold tracked. destruct e as [p gs now|k' now|addr name resp|addr name resp|addr]; cbn [pws_step since_step].
  - cbn [recordBroadcast with_pws pws]. case_bool_decide as Hk.
    + intros _. rewrite Hk, lookup_insert_eq. repeat split. intros a. cbn. rewrite fresh_lookup by done. unfold expected. cbn. by destruct (_ !! a).
    + by rewrite lookup_insert_ne.
  - cbn [markCancelled with_pws pws]. destruct (decide (k' = k)) as [->|Hk].
    + rewrite lookup_alter_eq. destruct x as [x|], (pws s !! k) as [b|]; cbn; try done. intros (H1 & H2 & H3 & H4 & H5 & H6).
      repeat split; [done..| |]; cbn.
      * rewrite existsb_app. cbn. by rewrite bool_decide_eq_true_2, orb_true_r.
      * intros a. by rewrite H6, expected_other.
    + rewrite lookup_alter_ne by done. destruct x as [x|], (pws s !! k) as [b|]; cbn; try done. intros H. apply matches_other; [done| |done].
      cbn. by rewrite bool_decide_eq_false_2.
  - cbn [handleWriteReplaceWarningResponse with_pws pws]. destruct (decide (responseKey resp = k)) as [Hk|Hk].
    + rewrite Hk, lookup_alter_eq. destruct x as [x|], (pws s !! k) as [b|]; cbn [fmap option_fmap option_map]; try done. intros H.
      eapply answer_step; [done|done|by left|]. intros st. cbn. by rewrite orb_true_r, orb_false_r.
    + rewrite lookup_alter_ne by done. destruct x as [x|], (pws s !! k) as [b|]; cbn [fmap option_fmap option_map]; try done. intros H.
      apply matches_other; [done..|]. intros a. cbn. by rewrite (bool_decide_eq_false_2 _ Hk), andb_false_r.
  - cbn [handlePWSCancelResponse with_pws pws]. destruct (decide (responseKey resp = k)) as [Hk|Hk].
    + rewrite Hk, lookup_alter_eq. destruct x as [x|], (pws s !! k) as [b|]; cbn [fmap option_fmap option_map]; try done. intros H.
      eapply answer_step; [done|done|by right|]. intros st. cbn. by rewrite orb_true_r, orb_false_r.
    + rewrite lookup_alter_ne by done. destruct x as [x|], (pws s !! k) as [b|]; cbn [fmap option_fmap option_map]; try done. intros H.
      apply matches_other; [done..|]. intros a. cbn. by rewrite (bool_decide_eq_false_2 _ Hk), andb_false_r.
  - cbn [markPWSGNBFailed with_pws pws]. rewrite lookup_fmap. destruct x as [x|], (pws s !! k) as [b|]; cbn [fmap option_fmap option_map]; try done.
    intros (H1 & H2 & H3 & H4 & H5 & H6). repeat split; [done..| |].
    + cbn. rewrite existsb_app, H5. cbn. by rewrite orb_false_r.
    + intros a. cbn [si_events si_gnbs PerGNB with_PerGNB]. destruct (decide (a = addr)) as [->|Hne].
      * by rewrite lookup_alter_eq, H6, expected_lost.
      * rewrite lookup_alter_ne, H6 by done. symmetry. apply expected_other; [done|]. cbn. by rewrite bool_decide_eq_false_2.
Qed.

Lemma tracked_run k s evs : Forall event_ok evs → tracked k s None → tracked k (foldl pws_step s evs) (since k evs).
Proof.
  intros Hok Hs. unfold since. revert s Hs. generalize (@None Since) as x. induction Hok as [|e evs He _ IH]; intros x s Hs; [done|].
  cbn [foldl]. by apply IH, tracked_step.
Qed.

(** *** The requests of the management interface are such steps *)

Lemma encodeChar_septets r : Forall is_septet (encodeChar r).
Proof.
  unfold encodeChar. destruct (basicRuneToSeptet !! r) as [s|] eqn:E; [apply basic_table in E as [H _]; by apply Forall_singleton|].
  destruct (extRuneToSeptet !! r) as [s|] eqn:E'; [apply ext_table in E' as [H _]; constructor; [by vm_compute|by apply Forall_singleton]|].
  apply Forall_singleton. by vm_compute.
Qed.

Lemma EncodeText_septets text : Forall is_septet (EncodeText text).
Proof.
  unfold EncodeText. induction (runes text) as [|r l IH]; [done|]. rewrite bind_cons. apply Forall_app. split; [apply encodeChar_septets|done].
Qed.

(** Every text is encoded, cut when it is too long. *)
Lemma contents_total dcs lang text : ∃ wire, encodeWarningMessageContentPages dcs lang text = Ok wire.
Proof.
  assert (∀ l, Forall is_septet l → ∃ p, PackSeptets l = Ok p) as Hp by (intros l Hl; destruct (pack_unpack l 0 Hl) as (p & E & _); eauto).
  unfold encodeWarningMessageContentPages. destruct (AlphabetFromCBSDCS dcs).
  - unfold encodeGSM7Pages. set (septets := take _ (EncodeText text)).
    assert (Forall is_septet septets) as Hs by (apply Forall_take, EncodeText_septets).
    assert (∀ l, ∃ p, mapM (λ i, PackSeptets (chunkAt septets gsm7MaxSeptetsPerPage i)) l = Ok p) as Hm.
    { induction l as [|i l [ps IH]]; [by eexists|]. cbn [mapM]. destruct (Hp (chunkAt septets gsm7MaxSeptetsPerPage i)) as [p ->].
      { apply Forall_take, Forall_drop, Hs. }
      cbn [mbind res_bind]. rewrite IH. by eexists. }
    destruct (Hm (seq 0 (pageCount (length septets) gsm7MaxSeptetsPerPage))) as [ps ->]. by eexists.
  - by eexists.
  - destruct (_ && _); [|by eexists]. destruct (Hp (EncodeText (take 2 (lang ++ replicate (2 - length lang) 32)))) as [p E]; [apply EncodeText_septets|].
    unfold EncodeUCS2LanguagePrefix. rewrite E. by eexists.
Qed.

Lemma connected_NoDup s : NoDup (connectedGNBs s).*1.
Proof. apply NoDup_fst_map_to_list. Qed.

Lemma send_step Encoder writes p now s :
  ∃ out r, SendWriteReplaceWarning Encoder writes p now s = Ok (pws_step s (ERecord p (connectedGNBs s) now), out, r).
Proof.
  unfold SendWriteReplaceWarning. cbn [pws_step]. destruct (connectedGNBs s) as [|g gs] eqn:E; [by eexists _, _|].
  unfold BuildWriteReplaceWarningRequest.
  destruct (contents_total (DataCodingScheme p) (LanguageISO639 p) (WarningMessageContents p)) as [wire Hw]. rewrite Hw.
  destruct (0 <? length (WarningMessageContents p))%nat; cbn [mbind res_bind]; destruct (Encoder _); by eexists _, _.
Qed.

Lemma cancel_step Encoder writes m n all now s : (SendPWSCancel Encoder writes m n all now s).1.1 = pws_step s (ECancel (mkKey m n) now).
Proof.
  unfold SendPWSCancel. cbn [pws_step]. destruct (pws s !! mkKey m n) as [b|] eqn:E.
  - destruct (connectedGNBs _); [done|]. by destruct (Encoder _).
  - destruct s as [g ps]. cbn. unfold markCancelled, with_pws. cbn in *. f_equal. symmetry. apply alter_id. intros x. by rewrite E.
Qed.

Lemma expected_addr k gs es addr e : expected k gs es addr = Some e → GNBAddr e = addr.
Proof. unfold expected. intros H. repeat case_match; by simplify_eq. Qed.

(** C17: the status of a broadcast is what its gNBs have done.  Over every
    interleaving of broadcasts, cancellations, answers and losses of gNBs, the status
    of a key is that of its last broadcast: the gNBs it was sent to and those that
    have answered since, each completed or cancelled exactly when it has said so,
    with the areas of its last answer, and failed exactly when it was lost before it
    answered; cancelled exactly when a cancellation was requested.  The counts are
    those of the list.  The requests of the management interface never fail
    otherwise than by the encoder and are such steps. *)
Theorem pws_status_tracks (g : gmap bytes bytes) (evs : list pws_event) (m n : Z) :
  Forall event_ok evs →
  let s := foldl pws_step (mkPws g ∅) evs in
  (match since (mkKey m n) evs with
   | None => PWSStatus m n s = None
   | Some x =>
       ∃ st, PWSStatus m n s = Some st ∧
         s_MessageIdentifier st = m ∧ s_SerialNumber st = n ∧ s_CreatedAt st = si_now x ∧ s_GNBsTargeted st = length (si_gnbs x) ∧
         s_Cancelled st = existsb (cancels (mkKey m n)) (si_events x) ∧
         (∀ addr e, expected (mkKey m n) (si_gnbs x) (si_events x) addr = Some e ↔ e ∈ s_PerGNB st ∧ GNBAddr e = addr) ∧
         NoDup (GNBAddr <$> s_PerGNB st) ∧
         s_GNBsCompleted st = length (filter (λ e, Completed e = true) (s_PerGNB st)) ∧
         s_GNBsCancelled st = length (filter (λ e, Cancelled e = true) (s_PerGNB st))
   end) ∧
  (∀ Encoder writes cfg req now, ∃ out r,
     handleBroadcast Encoder writes cfg (Some req) now s = Ok (pws_step s (ERecord (broadcastParams cfg req) (connectedGNBs s) now), out, r)) ∧
  (∀ Encoder writes all now, (SendPWSCancel Encoder writes m n all now s).1.1 = pws_step s (ECancel (mkKey m n) now)).
Proof.
  intros Hok s. split; [|split].
  - pose proof (tracked_run (mkKey m n) (mkPws g ∅) evs Hok) as H. specialize (H ltac:(by cbn)). fold s in H. unfold tracked in H.
    unfold PWSStatus. destruct (since (mkKey m n) evs) as [x|], (pws s !! mkKey m n) as [b|]; try done.
    destruct H as (H1 & H2 & H3 & H4 & H5 & H6). eexists. split; [reflexivity|]. cbn. rewrite H1. cbn.
    assert (∀ addr e, PerGNB b !! addr = Some e → GNBAddr e = addr) as Haddr.
    { intros addr e. rewrite H6. apply expected_addr. }
    split; [done|]. split; [done|]. split; [done|]. split; [done|]. split; [done|]. split; [|split; [|done]].
    + intros addr e. rewrite <- H6. rewrite list_elem_of_fmap. split.
      * intros He. split; [|by apply Haddr]. exists (addr, e). split; [done|]. by apply elem_of_map_to_list.
      * intros [([a e'] & -> & Hin) Ha]. apply elem_of_map_to_list in Hin. cbn in Ha. by rewrite (Haddr _ _ Hin) in Ha; subst.
    + rewrite <- list_fmap_compose. assert ((GNBAddr ∘ snd) <$> map_to_list (PerGNB b) = (map_to_list (PerGNB b)).*1) as ->; [|apply NoDup_fst_map_to_list].
      apply list_fmap_ext. intros i [a e] Hi. cbn. apply Haddr, elem_of_map_to_list. by eapply list_elem_of_lookup_2.
  - intros Encoder writes cfg req now. unfold handleBroadcast. destruct (send_step Encoder writes (broadcastParams cfg req) now s) as (out & r & ->).
    cbn [mbind res_bind]. destruct r; by eexists _, _.
  - intros. apply cancel_step.
Qed.

Definition demo_params : WriteReplaceWarningParams := broadcastParams (mkPwsConfig (str "001") (str "01") [1]) (mkRequest None None None None [] [] None [] [] []).
Definition demo_pws : list pws_event :=
  [ERecord demo_params [(str "a", str "gnb1"); (str "b", str "gnb2")] 7; EResponse (str "a") (str "gnb1") (mkResponse 0x1112 1 []);
   ELost (str "b"); ELost (str "a")].

Lemma pws_status_tracks_witness :
  Forall event_ok demo_pws ∧
  (match since (mkKey 0x1112 1) demo_pws with
   | None => PWSStatus 0x1112 1 (foldl pws_step (mkPws ∅ ∅) demo_pws) = None
   | Some x =>
       ∃ st, PWSStatus 0x1112 1 (foldl pws_step (mkPws ∅ ∅) demo_pws) = Some st ∧
         s_MessageIdentifier st = 0x1112 ∧ s_SerialNumber st = 1 ∧ s_CreatedAt st = si_now x ∧ s_GNBsTargeted st = length (si_gnbs x) ∧
         s_Cancelled st = existsb (cancels (mkKey 0x1112 1)) (si_events x) ∧
         (∀ addr e, expected (mkKey 0x1112 1) (si_gnbs x) (si_events x) addr = Some e ↔ e ∈ s_PerGNB st ∧ GNBAddr e = addr) ∧
         NoDup (GNBAddr <$> s_PerGNB st) ∧
         s_GNBsCompleted st = length (filter (λ e, Completed e = true) (s_PerGNB st)) ∧
         s_GNBsCancelled st = length (filter (λ e, Cancelled e = true) (s_PerGNB st))
   end) ∧
  option_map s_PerGNB (PWSStatus 0x1112 1 (foldl pws_step (mkPws ∅ ∅) demo_pws)) =
    Some [mkGNBStatus (str "b") (str "gnb2") false false true []; mkGNBStatus (str "a") (str "gnb1") true false false []].
Proof.
  assert (Forall event_ok demo_pws) as H by (apply (bool_decide_unpack _); vm_compute; exact I).
  split; [exact H|]. split; [exact (proj1 (pws_status_tracks ∅ demo_pws 0x1112 1 H))|vm_compute; reflexivity].
Defined.

(** A gNB that is lost is marked before it is removed from the connected ones: a
    broadcast in between is recorded for it, and its entry stays pending. *)
Lemma lost_gnb_stays_pending :
  let s0 := mkPws {[ str "a" := str "gnb1" ]} ∅ in
  let s := recordBroadcast demo_params (connectedGNBs (markPWSGNBFailed (str "a") s0)) 7 (markPWSGNBFailed (str "a") s0) in
  option_map s_PerGNB (PWSStatus 0x1112 1 (mkPws (delete (str "a") (gnbs s)) (pws s))) = Some [freshStatus (str "a") (str "gnb1")].
Proof. vm_compute. reflexivity. Qed.
